(* ===== verification/_CoqProject ===== *)
-Q . S2P
Prelude.v
JsString.v
JsValue.v
JsNumber.v
JsJson.v
NodeNet.v
IpValidation.v
ProtectedIps.v
Tenancy.v
Access.v
SocketRooms.v
AgentWatch.v
BanPolicy.v
PgInet.v
Store.v
Hoare.v
Whitelist.v
BanRules.v
BanService.v
BanImport.v
BanAuthority.v
BanLift.v
BanEntry.v
BanEngine.v
BanSafetyAudit.v
AgentUpdate.v
UpdateStore.v
UpdateOps.v
UpdateRollout.v
UpdateSteps.v
UpdatePacing.v
UpdateWindow.v
UpdateLifecycle.v
UpdateTermination.v
UpdateFreeze.v
UpdateAll.v
Query.v
RateLimit.v
GroupTree.v
AgentCommand.v
SettingsStore.v
SettingsSync.v
SettingsResolve.v
SettingsIsolation.v
SettingsCache.v
Pagination.v
CsvExport.v
ClientIp.v
SsrfGuard.v
Secrets.v
SignInStore.v
TwoFactor.v
SignIn.v
StepUp.v
StepUpGate.v
SignInEffects.v
SignInRuns.v
SignInSafety.v
UserScope.v
UserAdmin.v
UserRows.v
UserSafety.v
UserRights.v
TeamAdmin.v
LiveAlert.v
AlertRuns.v
AlertBell.v
AgentIdentity.v
AgentHub.v
HubRuns.v
HubSafety.v
ChannelKeys.v
Blocklist.v
ListBans.v
ListRuns.v
ListHistory.v
ListKeys.v
ListSync.v
ListSamples.v
