(* ===== verification/Prelude.v ===== *)
(** * Obliguard: a verification library of the server

    Obliguard is a fleet firewall manager. Agents on hosts (and MikroTik routers) report
    authentication failures to a server; the server decides which addresses to ban, for which
    tenants, and delivers ban lists, whitelists and software updates to the agents; a web
    client shows each tenant what it may see, live, over WebSocket. This library models the
    server ([src/server/src]) and the rules it shares with the client ([src/shared/src]).

    ** Parts, and the files that model them

    - {b Foundations.} [Prelude] (tactics, the hint database [og], list and bit lemmas),
      [JsString], [JsValue], [JsNumber], [JsJson] (what the code uses of JavaScript strings,
      values, [Number(x)], [JSON.parse] / [JSON.stringify]), [NodeNet] ([net.isIP]),
      [PgInet] (the [inet] operators of PostgreSQL, as a class with laws).
    - {b Addresses.} [IpValidation] is utils/ipValidation.ts: syntax, canonical text, masks,
      reserved ranges, the policy of ban targets. [ProtectedIps] is utils/protectedIps.ts:
      the addresses that must never be banned, with their caches and their behaviour when
      DNS fails.
    - {b Tenants and rights.} [Tenancy] is the read scope and the request gate
      (shared/tenants.ts, utils/tenantWriteRules.ts, middleware/tenant.ts, ...). [Access] is
      the directory (users, teams, grants, groups, devices), permission.service.ts,
      tenantScope.service.ts, agentScope.service.ts and deviceAccess.service.ts.
    - {b Live feeds.} [SocketRooms] is utils/socketRooms.ts and the joins of socket.ts;
      [AgentWatch] is agentWatch.service.ts with its races, as a step relation.
    - {b Bans.} [Store] is the world of the ban pipeline (tables, caches, effects) and its
      monad, [Hoare] its program logic. [Whitelist] is whitelist.service.ts. [BanPolicy] is
      banPolicy.service.ts. [BanRules] (rows, audiences, states, the Lift rule, the delta),
      [BanService] (every operation that writes a ban), [BanImport] (bans of other
      applications, blocklists, routers) and [BanEngine] (the automatic bans) are
      ban.service.ts; [BanSafetyAudit] is banSafetyAudit.ts. [BanAuthority], [BanLift] and
      [BanEntry] hold their theorems.
    - {b Agent updates.} [AgentUpdate] is utils/agentUpdate.ts; [UpdateStore], [UpdateOps] and
      [UpdateRollout] are the update control of agent.service.ts and
      agentUpdateRollout.service.ts. [UpdateSteps] reduces every operation to a few kinds of
      statements; [UpdateWindow] cuts the slots and the counted offers at their awaits;
      [UpdatePacing], [UpdateLifecycle], [UpdateTermination], [UpdateFreeze], [UpdateAll] and
      [UpdateWindow] hold the theorems.

    - {b Queries.} [Query] is what the models below share of SQL: ORDER BY, and code that
      throws coded errors.
    - {b Policies and commands of agents.} [RateLimit] is rateLimitPolicy.service.ts.
      [GroupTree] is the group forest and its closure table (group.service.ts,
      groups.controller.ts). [AgentCommand] is agentCommand.service.ts with its callers.
    - {b Settings.} [SettingsStore] is the settings rows, their mirror in older columns and
      the older endpoints that write those columns first; [SettingsSync] its invariant;
      [SettingsResolve] is agentConfig.service.ts, [SettingsIsolation] what one tenant can do
      to another's settings, [SettingsCache] the cached snapshot and its races.
    - {b Requests.} [Pagination] is utils/pagination.ts (pages, sort keys, search boxes down to
      the SQL test they run), [CsvExport] utils/csv.ts with a reader of its documents as
      specification, [ClientIp] utils/clientIp.ts (the address a request counts for),
      [SsrfGuard] utils/ssrfGuard.ts (where the server may be sent to fetch).
    - {b Sign-in.} [Secrets] is utils/crypto.ts and the envelope of TOTP secrets.
      [SignInStore] is the world (accounts, sessions, reset links, the cache of the session
      guard, mails, audit rows) and the monad of its handlers; [TwoFactor] is
      twoFactor.service.ts and twoFactor.controller.ts; [SignIn] the password sign-in, the
      session an SSO callback opens, sessionUserGuard.ts, the revocations and the changes of
      credentials; [StepUp] stepUp.service.ts and its middleware; [StepUpGate] the predicates
      of middleware/stepUp.ts against the parsing of the controllers. [SignInEffects] says
      what each handler may change, [SignInRuns] composes all requests in runs and
      [SignInSafety] holds the theorems about runs.
    - {b Users and teams.} [UserScope] is userScope.service.ts (who may manage whom) on the
      tables of accounts, memberships and permission sets; [UserAdmin] userAdmin.service.ts,
      permissionSet.service.ts and the routes in front; [UserRows] what each write does to a
      role and the consistency of the tables; [UserSafety] reduces every request to a few
      transitions, [UserRights] compares rights through [Access]. [TeamAdmin] is
      team.service.ts and teams.controller.ts.

    - {b Live alerts.} [LiveAlert] is liveAlert.service.ts with its routes and the list the
      client keeps (client/store/liveAlertsStore.ts); [AlertRuns] the same calls cut at their
      awaits, with the advisory locks, and the interleaved runs; [AlertBell] the theorems
      about requests and about what a client shows.
    - {b Agents and their channels.} [AgentIdentity] is agentKey.service.ts and the binding of a
      device to its key (agent.service.ts); [AgentHub] the channels of obliguardHub.service.ts,
      the gate agentWsGate.ts and agentAuth.ts; [HubRuns] the upgrades, pushes, frames and
      administrators' requests cut at their awaits, and the interleaved runs; [HubSafety] what
      holds of the rows in every run, [ChannelKeys] what holds of the live channels.

    - {b Remote blocklists.} [Blocklist] is remoteBlocklist.service.ts with its controller and
      routes, on the world of the bans and the live alerts: settings of a list, entries, the
      pulls of a URL and of obli.tools, the bans an enforcing list keeps, the contributions.
      [ListBans] says what a reconciliation does, [ListRuns] what a pull may do step by step,
      [ListHistory] and [ListKeys] hold the theorems on histories, [ListSync] the pull of a
      URL list, [ListSamples] concrete runs.

    The engine, the audit and every path that creates a ban call [ProtectedIps]; every
    request passes [Tenancy]'s gate, then [Access]; what an operation announces goes through
    [SocketRooms]; the ban operations read the tables [Access] and [Whitelist] own. The
    update control shares the JavaScript layer, the tenant rules and the id lists of
    [Access] with the rest and keeps a world of its own.

    ** How the code is read

    - A TypeScript function is a Rocq function of the same name; a method that reads and
      writes the database, the module's caches or the sockets is a value of a state monad
      ([M] of [Store] with thrown coded errors and transactions that roll back; [U] of
      [UpdateStore] without errors, its failures being the branches the code catches). One
      operation is one step of the world: what the advisory locks, row locks and
      transactions of the code establish. Where requests do interleave in the code
      ([AgentWatch], the frames of [UpdatePacing], the slots of [UpdateWindow], the guard of
      the ban engine, in [SignInRuns] the sessions that a request under way writes back late
      and the lookups of the session guard whose answer fills the cache late, the alerts of
      [AlertRuns], the channels and keys of [HubRuns]) the interleaving is a step relation
      and the theorems range over every run. [AlertRuns] and [HubRuns] cut a call at its
      awaits: a step runs the code from the answer of a query to the answer of the next.
    - Tables are lists of rows where an order or duplicates may matter, finite maps where a
      unique key is used; a query is a fold or a filter over them, a [.first()] the first
      row. A lookup of a cache and the load that fills it are one step, but for the session
      guard ([SignInRuns]) and the snapshot of the settings ([SettingsCache]).
    - Strings are sequences of code units below 256; times are integers in milliseconds;
      addresses are unbounded integers as [BigInt] is; numbers of a request go through
      [Number(x)], rounding included.
    - Logging, metrics, joined display names, sorting and paging of lists are left out.

    ** The theorems

    - {i Bans}: a tenant's operations leave what other tenants enforce alone and every
      operation is a sequence of authorised transitions that keep the store consistent; a
      created ban is safe, authorised and delivered as asked; imports and pushes are exact
      and repeatable; the list announces what a Lift does and a bulk Lift is accounted row by
      row; the engine bans exactly the threshold crossings that are neither covered nor
      whitelisted nor protected, runs one cycle at a time, and durations escalate within
      their bounds; a delta sent to a device converges to the wanted set.
    - {i Addresses}: printing and parsing are inverse, overlap and containment are those of
      intervals, an accepted target stays clear of every protected and reserved range, and a
      DNS failure never removes a protection.
    - {i Tenants}: a request that passes the gate may use its tenant, a write never crosses
      tenants, an access granted is one of the levels the code documents and depends on the
      tenant's own rows only; an event reaches exactly the sockets its audience names.
    - {i Updates}: over every interleaving of the slots and the counted offers, the fleet-wide
      window holds its cap but for the slips [UpdateWindow] counts (a burst of heartbeats that
      look at once can exceed it); offers are spaced and finite, attempts are well formed, a frozen tenant is never offered anything,
      a grant satisfies every gate, and "update all" does what its preview says.

    - {i Policies, commands, settings}: the closure table is the ancestry of the groups; the
      rules delivered to an agent are the most specific ones of its tenant; a command is
      handed over once, keeps its identity and is closed by the sweep; the settings rows and
      the older columns always agree, an agent resolves to the nearest explicit value above
      it, no tenant changes another's settings, and a snapshot never misses a write that was
      invalidated before the call.
    - {i Requests}: an address search is an interval test or a literal substring test, an
      export read back is what was exported, a client cannot choose its own address, and a
      fetch let through leads to public addresses only.
    - {i Sign-in}: in every run a session has an identity only through the proofs the account
      asks for, the TOTP steps a user's codes are accepted with strictly increase, a sensitive
      action passes only with a recent proof of the session, a disabled account is served only
      within five seconds of an answer the guard was awaiting when it was disabled, a request
      taken for harmless is harmless as its controller parses it, and secrets survive a
      rotation.
    - {i Users}: the tables stay consistent, a platform administrator and an administrator of
      each tenant remain, a delegated manager takes over and gives away only what it
      dominates, and a manager bound by teams cannot widen its own reach through teams.
    - {i Alerts}: at most one active incident has a stable key in a tenant, a raise and a
      recovery do exactly what they say, a trim keeps the open alerts, a request reads and
      writes alerts of its tenants only, and a client that listens to requests served one
      after the other shows every open alert its user may read, and beside them only alerts
      that were deleted without an event.
    - {i Agents}: a live channel has an active key of its tenant and is never displaced by
      another key, a bound device keeps its key, a key of its own tenant, an agent writes only
      in the tenant of its key, and a disabled key answers as an unknown one.
    - {i Remote blocklists}: the active bans of a list are those its entries ask for, a list
      that does not enforce has none after any history, a pull leaves exactly what its source
      serves, and a bearer key is only sent to the origin of the URL an accepted request of a
      platform administrator gave it for.

    ** Bounds and fuel

    The recursions that are not structural take fuel: the JSON reader (the length of the
    text is enough, [JSON_parse_stringify] uses it on printed values), printing in a base
    (the value's bit length), the zero-run scan of IPv6 printing (eight groups), the search
    of a free slug (one try more than there are groups, [slug_found]), the cascade of a group
    deletion and the chain of a group's parents (as many generations as there are groups), the
    chunks of a long list (its length), the parts of an upgrade run alone ([upgrade_alone]). No theorem assumes the fuel is enough; where the
    result matters it is proved for the fuel the definition passes.

    ** Not modelled

    The attempt limiters in front of the sign-in routes (they only refuse more), the choice of
    the tenant of a new session, bcrypt, AES-GCM and the TOTP algorithm (classes with their
    documented laws).

    Of the agents' heartbeats: the services, events, log samples and LAN addresses a heartbeat
    stores, and the resolution of service templates; they feed the tables the ban engine and
    the lists read, which are inputs here. Of the hub: the pings, the termination of a socket
    that does not close, and the content of a configuration frame beyond what the files on
    bans, updates, limits and commands compute.

    Of the remote blocklists: the HTTP exchange, [new URL], dates and the driver's texts are
    arguments of the operations; an operation is one step, and [ListSamples] shows what a
    reconciliation does that an edit of its list overtakes.

    The web client (apart from its list of alerts), the Go agent (apart from the version gate
    its update shares with the server), SQL migrations other than the columns and constraints
    the models use, express routing, and the services the manifest lists as not modelled: they
    are input and output, calls to other products (Obligate, Microsoft Graph, RouterOS, SMTP,
    webhooks, IP reputation and geolocation services) or queries for display. *)

From Stdlib Require Export ZArith Lia Bool Ascii String List.
From stdpp Require Export base strings list option numbers gmap.

#[global] Set Default Goal Selector "!".
#[global] Open Scope string_scope.
#[global] Open Scope list_scope.
#[global] Open Scope Z_scope.

#[global] Arguments String.append : simpl nomatch.

Declare Scope og_scope.
Delimit Scope og_scope with og.

Create HintDb og.

(** ** Tactics *)

(** Turn boolean tests of hypotheses and goal into propositions. *)
Ltac boolify :=
  repeat match goal with
  | H : _ && _ = true |- _ => apply andb_true_iff in H; destruct H
  | H : _ || _ = false |- _ => apply orb_false_iff in H; destruct H
  | H : negb _ = true |- _ => apply negb_true_iff in H
  | H : negb _ = false |- _ => apply negb_false_iff in H
  | H : (_ =? _)%Z = true |- _ => apply Z.eqb_eq in H
  | H : (_ =? _)%Z = false |- _ => apply Z.eqb_neq in H
  | H : (_ <? _)%Z = true |- _ => apply Z.ltb_lt in H
  | H : (_ <? _)%Z = false |- _ => apply Z.ltb_ge in H
  | H : (_ <=? _)%Z = true |- _ => apply Z.leb_le in H
  | H : (_ <=? _)%Z = false |- _ => apply Z.leb_gt in H
  | H : (_ =? _)%nat = true |- _ => apply Nat.eqb_eq in H
  | H : (_ =? _)%nat = false |- _ => apply Nat.eqb_neq in H
  | H : (_ <=? _)%nat = true |- _ => apply Nat.leb_le in H
  | H : (_ <=? _)%nat = false |- _ => apply Nat.leb_gt in H
  | H : (_ <? _)%nat = true |- _ => apply Nat.ltb_lt in H
  | H : (_ <? _)%nat = false |- _ => apply Nat.ltb_ge in H
  | H : (_ =? _)%string = true |- _ => apply String.eqb_eq in H
  | H : (_ =? _)%string = false |- _ => apply String.eqb_neq in H
  | H : bool_decide _ = true |- _ => apply bool_decide_eq_true_1 in H
  | H : bool_decide _ = false |- _ => apply bool_decide_eq_false_1 in H
  end.

(** Case analysis on the scrutinee of the first match (or if) of a hypothesis or the goal. *)
Ltac case_in H :=
  match type of H with
  | context [match ?x with _ => _ end] => destruct x eqn:?
  end.
Ltac case_goal :=
  match goal with
  | |- context [match ?x with _ => _ end] => destruct x eqn:?
  end.

(** Inversion of every match of a hypothesis that must end in a given result. *)
Ltac inv_cases H := repeat (case_in H; try discriminate H); simplify_eq H.

(** ** Integers *)

(** A number below [2^k] has no bit from position [k] on. *)
Lemma testbit_small (b k n : Z) : 0 <= b < 2 ^ k -> k <= n -> Z.testbit b n = false.
Proof.
  intros Hb Hn. rewrite <- (Z.mod_small b (2 ^ k)) by lia.
  apply Z.mod_pow2_bits_high. destruct (Z.ltb_spec k 0) as [Hk|Hk]; [|lia].
  rewrite Z.pow_neg_r in Hb; lia.
Qed.

(** [(a << k) | b] is [a * 2^k + b] when [b] fits in [k] bits. *)
Lemma lor_shiftl_add (a b k : Z) :
  0 <= k -> 0 <= b < 2 ^ k -> Z.lor (Z.shiftl a k) b = a * 2 ^ k + b.
Proof.
  intros Hk Hb. rewrite <- Z.shiftl_mul_pow2 by lia.
  symmetry. apply Z.add_nocarry_lor, Z.bits_inj'. intros n Hn.
  rewrite Z.land_spec, Z.bits_0. destruct (Z.ltb_spec n k).
  - rewrite Z.shiftl_spec_low by lia. reflexivity.
  - rewrite (testbit_small b k n) by lia. apply andb_false_r.
Qed.

(** [(v >> k) & 0xff..ff] (with [w] ones) is a quotient and a remainder. *)
Lemma shiftr_land_ones (v k w : Z) :
  0 <= k -> 0 <= w -> Z.land (Z.shiftr v k) (Z.ones w) = (v / 2 ^ k) mod 2 ^ w.
Proof. intros. rewrite Z.land_ones, Z.shiftr_div_pow2 by lia. reflexivity. Qed.

(** Masking the [k] low bits away rounds down to a multiple of [2^k]. *)
Lemma land_high_mask (v t k : Z) :
  0 <= k <= t -> 0 <= v < 2 ^ t ->
  Z.land v (Z.shiftl (Z.shiftr (2 ^ t - 1) k) k) = v / 2 ^ k * 2 ^ k.
Proof.
  intros Hk Hv. rewrite <- Z.shiftl_mul_pow2, <- Z.shiftr_div_pow2 by lia.
  replace (2 ^ t - 1) with (Z.ones t) by (rewrite Z.ones_equiv; lia).
  apply Z.bits_inj'. intros n Hn. rewrite Z.land_spec.
  destruct (Z.ltb_spec n k).
  - rewrite !Z.shiftl_spec_low by lia. apply andb_false_r.
  - rewrite !Z.shiftl_spec, !Z.shiftr_spec by lia.
    replace (n - k + k) with n by lia.
    destruct (Z.ltb_spec n t).
    + rewrite Z.ones_spec_low by lia. apply andb_true_r.
    + rewrite (testbit_small v t n) by lia. reflexivity.
Qed.

(** Two multiples of [m] with the same quotient class bound an interval. *)
Lemma div_interval (x a m : Z) :
  0 < m -> x / m = a <-> a * m <= x < a * m + m.
Proof.
  intros Hm. split; intros H.
  - subst a. pose proof (Z.mul_div_le x m Hm). pose proof (Z.mul_succ_div_gt x m Hm). lia.
  - symmetry. apply Z.div_unique with (x - a * m); lia.
Qed.

(** Aligned power-of-two blocks: of two blocks that meet, the smaller lies in the larger. *)
Lemma block_nest (i j va vb x : Z) :
  0 <= j <= i -> va mod 2 ^ i = 0 -> vb mod 2 ^ j = 0 ->
  va <= x < va + 2 ^ i -> vb <= x < vb + 2 ^ j -> vb / 2 ^ i * 2 ^ i = va.
Proof.
  intros Hij Ha Hb Hxa Hxb.
  assert (Hi : 0 < 2 ^ i) by (apply Z.pow_pos_nonneg; lia).
  assert (Hj : 0 < 2 ^ j) by (apply Z.pow_pos_nonneg; lia).
  pose proof (Z.div_mod va (2 ^ i) ltac:(lia)) as Ea.
  pose proof (Z.div_mod vb (2 ^ j) ltac:(lia)) as Eb.
  assert (Hx1 : x / 2 ^ i = va / 2 ^ i) by (apply div_interval; lia).
  assert (Hx2 : x / 2 ^ j = vb / 2 ^ j) by (apply div_interval; lia).
  assert (Hs : forall y, y / 2 ^ i = y / 2 ^ j / 2 ^ (i - j)).
  { intros y. rewrite Z.div_div by (try apply Z.pow_pos_nonneg; lia).
    rewrite <- Z.pow_add_r by lia. do 2 f_equal. lia. }
  rewrite (Hs vb), <- Hx2, <- (Hs x), Hx1. lia.
Qed.

(** The big-endian digits of a number in base [2^w], put back together. *)
Fixpoint countdown (n : nat) : list Z :=
  match n with O => [] | S m => Z.of_nat m :: countdown m end.

Lemma fold_digits (w v : Z) (n : nat) :
  0 <= w ->
  fold_left (fun acc d => acc * 2 ^ w + d)
    (map (fun i => (v / 2 ^ (i * w)) mod 2 ^ w) (countdown n)) (v / 2 ^ (Z.of_nat n * w)) = v.
Proof.
  intros Hw. induction n as [|n IH]; [simpl; by rewrite Z.div_1_r|].
  cbn [countdown map fold_left].
  replace (v / 2 ^ (Z.of_nat (S n) * w)) with (v / 2 ^ (Z.of_nat n * w) / 2 ^ w).
  - rewrite (Z.mul_comm _ (2 ^ w)), <- Z.div_mod by lia. exact IH.
  - rewrite Z.div_div by lia. rewrite <- Z.pow_add_r by lia. f_equal. f_equal. lia.
Qed.

(** ** Options and lists *)

Lemma existsb_false_forall {A} (f : A -> bool) (l : list A) :
  existsb f l = false <-> forall x, In x l -> f x = false.
Proof.
  induction l as [|a l IH]; simpl; [naive_solver|].
  rewrite orb_false_iff, IH. naive_solver.
Qed.

Lemma find_none_iff {A} (f : A -> bool) (l : list A) :
  List.find f l = None <-> forall x, In x l -> f x = false.
Proof.
  induction l as [|a l IH]; simpl; [naive_solver|].
  destruct (f a) eqn:E; [split; [discriminate|]|rewrite IH; naive_solver].
  intros H. specialize (H a (or_introl eq_refl)). congruence.
Qed.


Lemma Forall_omap {A B} (P : B -> Prop) (f : A -> option B) (l : list A) :
  (forall a b, f a = Some b -> P b) -> Forall P (omap f l).
Proof.
  intros H. induction l as [|a l IH]; simpl; [done|]. destruct (f a) eqn:E; [|done].
  constructor; eauto.
Qed.

Lemma Forall_flat_map_intro {A B} (P : B -> Prop) (f : A -> list B) (l : list A) :
  (forall a, Forall P (f a)) -> Forall P (flat_map f l).
Proof. intros H. induction l as [|a l IH]; simpl; [done|]. by apply Forall_app. Qed.

(** [new Set] keeps the first occurrence of each value. *)
Fixpoint uniq {A} `{EqDecision A} (l : list A) : list A :=
  match l with
  | [] => []
  | x :: r => x :: List.filter (fun y => negb (bool_decide (y = x))) (uniq r)
  end.

Lemma uniq_in {A} `{EqDecision A} (l : list A) x : In x (uniq l) <-> In x l.
Proof.
  induction l as [|y r IH]; simpl; [done|]. rewrite filter_In, IH.
  split; [naive_solver|]. intros [->|Hx]; [by left|].
  destruct (decide (x = y)) as [->|Hne]; [by left|]. right. split; [done|].
  by rewrite bool_decide_false.
Qed.

Lemma uniq_nodup {A} `{EqDecision A} (l : list A) : NoDup (uniq l).
Proof.
  induction l as [|y r IH]; simpl; constructor.
  - rewrite list_elem_of_In, filter_In. rewrite bool_decide_true by done. naive_solver.
  - clear -IH. induction (uniq r) as [|x l IHl]; simpl; [constructor|].
    apply NoDup_cons in IH as [Hx IH]. destruct (negb _); [|auto]. constructor; [|auto].
    rewrite list_elem_of_In, filter_In, <- list_elem_of_In. naive_solver.
Qed.

(** ** Keys *)

Lemma NoDup_map_filter {A B} (key : A -> B) (p : A -> bool) l : NoDup (map key l) -> NoDup (map key (List.filter p l)).
Proof.
  induction l as [|a l IH]; [done|]. cbn [map List.filter]. rewrite NoDup_cons. intros [Ha Hnd].
  destruct (p a); [|auto]. cbn [map]. apply NoDup_cons. split; [|auto].
  rewrite list_elem_of_In, in_map_iff. intros (x & E & Hx). apply filter_In in Hx as [Hx _].
  apply Ha. rewrite <- E. by apply list_elem_of_In, in_map.
Qed.

Lemma NoDup_key_eq {A} (f : A -> Z) l x y : NoDup (map f l) -> In x l -> In y l -> f x = f y -> x = y.
Proof.
  induction l as [|a l IH]; [done|]. cbn. rewrite NoDup_cons, list_elem_of_In, in_map_iff. intros [Hn Hl].
  intros [<-|Hx] [<-|Hy] E; [done| | |by apply IH]; exfalso; apply Hn; eauto.
Qed.

Lemma NoDup_snoc {A} (l : list A) x : NoDup l -> ~ In x l -> NoDup (l ++ [x]).
Proof.
  intros Hl Hx. apply NoDup_app. split; [done|]. split; [|apply NoDup_cons; split; [set_solver|constructor]].
  intros y Hy Hy'. apply list_elem_of_singleton in Hy' as ->. by apply Hx, list_elem_of_In.
Qed.

(** A map built by inserting rows with distinct keys. *)
Lemma fold_insert_lookup {A} (key val : A -> Z) l (m : gmap Z Z) k :
  NoDup (map key l) ->
  fold_left (fun m x => <[key x := val x]> m) l m !! k
  = match List.find (fun x => key x =? k) l with Some x => Some (val x) | None => m !! k end.
Proof.
  revert m. induction l as [|a l IH]; intros m Hnd; [done|]. cbn [map] in Hnd. apply NoDup_cons in Hnd as [Ha Hnd].
  cbn [fold_left List.find]. rewrite IH by done. destruct (Z.eqb_spec (key a) k) as [E|E].
  - destruct (List.find (fun x => key x =? k) l) as [x|] eqn:F.
    + apply find_some in F as [Hx Hk]. apply Z.eqb_eq in Hk. destruct Ha. rewrite E, <- Hk.
      by apply list_elem_of_In, in_map.
    + by rewrite E, lookup_insert_eq.
  - by rewrite lookup_insert_ne.
Qed.

(** As many rows match a list of distinct keys as there are keys, when each has a row. *)
Lemma count_keys {A} (key : A -> Z) (p : A -> bool) l ks :
  NoDup (map key l) -> NoDup ks ->
  (forall x, In x l -> (p x = true <-> In (key x) ks)) -> (forall k, In k ks -> exists x, In x l /\ key x = k) ->
  length (List.filter p l) = length ks.
Proof.
  intros Hl Hks Hp Hx. rewrite <- (length_map key). apply Permutation_length, NoDup_Permutation; [by apply NoDup_map_filter|done|].
  intros k. rewrite !list_elem_of_In, in_map_iff. split.
  - intros (x & <- & Hx'). apply filter_In in Hx' as [Hin Hpx]. by apply Hp in Hpx.
  - intros Hk. destruct (Hx k Hk) as (x & Hin & E). exists x. split; [done|]. apply filter_In.
    split; [done|]. apply Hp; [done|]. by rewrite E.
Qed.

Lemma filter_all {A} (p : A -> bool) l : (forall x, In x l -> p x = true) -> List.filter p l = l.
Proof.
  induction l as [|a l IH]; intros H; [done|]. cbn [List.filter]. rewrite (H a) by (by left).
  f_equal. apply IH. intros x Hx. apply H. by right.
Qed.
Lemma filter_none {A} (p : A -> bool) l : (forall x, In x l -> p x = false) -> List.filter p l = [].
Proof.
  induction l as [|a l IH]; intros H; [done|]. cbn [List.filter]. rewrite (H a) by (by left).
  apply IH. intros x Hx. apply H. by right.
Qed.

(** ** Chunks *)

(** [ids.slice(i, i + n)] for [i = 0, n, 2n, ...]; the fuel is the number of ids. *)
Fixpoint chunks_fuel {A} (fuel n : nat) (l : list A) : list (list A) :=
  match fuel, l with
  | _, [] | O, _ => []
  | S fuel, _ => firstn n l :: chunks_fuel fuel n (skipn n l)
  end.
Definition chunks {A} (n : nat) (l : list A) : list (list A) := chunks_fuel (length l) n l.

Lemma concat_chunks {A} n (l : list A) : (0 < n)%nat -> concat (chunks n l) = l.
Proof.
  intros Hn. unfold chunks. assert (H : forall fuel l, (length l <= fuel)%nat -> concat (@chunks_fuel A fuel n l) = l).
  { clear l. induction fuel as [|fuel IH]; intros [|a l] Hl; cbn [chunks_fuel concat length] in *; try done; try lia.
    rewrite IH; [apply firstn_skipn|]. rewrite length_skipn. cbn [length]. lia. }
  by apply H.
Qed.
