(* ===== verification/JsString.v ===== *)
(** * JavaScript strings

    The string operations the modelled TypeScript uses, on Rocq strings read as
    sequences of UTF-16 code units below 256 (Latin-1): [trim], [split], [join],
    [indexOf], [toLowerCase], [Number(digits)], [parseInt(s, 16)],
    [Number.prototype.toString(radix)], and the lemmas the parsers and printers of
    the development share (splitting a joined list, reading a printed number). *)

From S2P Require Import Prelude.

(** ** Character classes *)

Definition code (c : ascii) : Z := Z.of_N (N_of_ascii c).
Definition in_range (lo hi : Z) (c : ascii) : bool := (lo <=? code c) && (code c <=? hi).

(** WhiteSpace and LineTerminator of ECMAScript below 256: what [trim] strips and [\s] matches. *)
Definition is_ws (c : ascii) : bool := in_range 9 13 c || (code c =? 32) || (code c =? 160).
Definition is_digit (c : ascii) : bool := in_range 48 57 c.
Definition is_digit19 (c : ascii) : bool := in_range 49 57 c.
Definition is_upper (c : ascii) : bool := in_range 65 90 c.
Definition is_lower (c : ascii) : bool := in_range 97 122 c.
Definition is_alnum (c : ascii) : bool := is_digit c || is_upper c || is_lower c.
(** [[0-9a-f]] and [[0-9a-fA-F]] *)
Definition is_lower_hex (c : ascii) : bool := is_digit c || in_range 97 102 c.
Definition is_hex (c : ascii) : bool := is_lower_hex c || in_range 65 70 c.

Fixpoint str_forall (p : ascii -> bool) (s : string) : bool :=
  match s with
  | EmptyString => true
  | String c t => p c && str_forall p t
  end.

Fixpoint str_exists (p : ascii -> bool) (s : string) : bool :=
  match s with
  | EmptyString => false
  | String c t => p c || str_exists p t
  end.

(** [s.includes(c)] for a one-character string *)
Definition str_includes (c : ascii) (s : string) : bool := str_exists (Ascii.eqb c) s.

Definition is_empty (s : string) : bool :=
  match s with EmptyString => true | _ => false end.

Fixpoint starts_with (p s : string) : bool :=
  match p, s with
  | EmptyString, _ => true
  | String a p', String b s' => Ascii.eqb a b && starts_with p' s'
  | _, _ => false
  end.

(** [s.endsWith(p)] *)
Fixpoint ends_with (p s : string) : bool :=
  String.eqb p s || match s with String _ t => ends_with p t | EmptyString => false end.

(** [s.includes(pat)] *)
Fixpoint contains (pat s : string) : bool :=
  starts_with pat s || (match s with EmptyString => false | String _ r => contains pat r end).

(** ** trim *)

Fixpoint trim_start (s : string) : string :=
  match s with
  | String c t => if is_ws c then trim_start t else s
  | EmptyString => s
  end.

Fixpoint trim_end (s : string) : string :=
  match s with
  | EmptyString => EmptyString
  | String c t =>
      match trim_end t with
      | EmptyString => if is_ws c then EmptyString else String c EmptyString
      | t' => String c t'
      end
  end.

Definition trim (s : string) : string := trim_end (trim_start s).

(** ** toLowerCase on code units below 256 *)

Definition char_lower (c : ascii) : ascii :=
  if is_upper c || (in_range 192 222 c && negb (code c =? 215))
  then ascii_of_N (N_of_ascii c + 32) else c.

Fixpoint to_lower (s : string) : string :=
  match s with
  | EmptyString => EmptyString
  | String c t => String (char_lower c) (to_lower t)
  end.

(** [s.replace(/^\[|\]$/g, '')] *)
Fixpoint strip_last (c : ascii) (s : string) : string :=
  match s with
  | EmptyString => EmptyString
  | String a EmptyString => if Ascii.eqb a c then EmptyString else s
  | String a t => String a (strip_last c t)
  end.
Definition strip_brackets (s : string) : string :=
  strip_last "]" (match s with String c t => if Ascii.eqb c "[" then t else s | _ => s end).

(** ** split and join *)

(** [s.split(c)]: never the empty list. *)
Fixpoint split (sep : ascii) (s : string) : list string :=
  match s with
  | EmptyString => [EmptyString]
  | String c t =>
      if Ascii.eqb c sep then EmptyString :: split sep t
      else match split sep t with
           | h :: r => String c h :: r
           | [] => [String c EmptyString]
           end
  end.

Fixpoint join (sep : string) (l : list string) : string :=
  match l with
  | [] => EmptyString
  | [x] => x
  | x :: r => x +:+ sep +:+ join sep r
  end.

(** [i = s.indexOf("cc")] for a doubled character, as the pair
    ([s.slice(0, i)], [s.slice(i + 2)]); [None] when [i < 0]. *)
Fixpoint cut_double (c : ascii) (s : string) : option (string * string) :=
  match s with
  | String a (String b t as s') =>
      if Ascii.eqb a c && Ascii.eqb b c then Some (EmptyString, t)
      else match cut_double c s' with
           | Some (l, r) => Some (String a l, r)
           | None => None
           end
  | _ => None
  end.

(** [i = s.lastIndexOf(c)], as the pair ([s.slice(0, i + 1)], [s.slice(i + 1)]);
    with [i = -1] the head is empty and the tail the whole string. *)
Fixpoint cut_last (c : ascii) (s : string) : string * string :=
  match s with
  | EmptyString => (EmptyString, EmptyString)
  | String a t =>
      let '(h, r) := cut_last c t in
      match h with
      | EmptyString => if Ascii.eqb a c then (String a EmptyString, r) else (EmptyString, String a r)
      | _ => (String a h, r)
      end
  end.

(** ** Numbers *)

Definition digit_val (c : ascii) : Z :=
  if is_digit c then code c - 48
  else if in_range 97 102 c then code c - 87
  else if in_range 65 70 c then code c - 55 else 0.

(** [Number(s)] and [parseInt(s, base)] on a string of digits of the base. *)
Fixpoint digits_value_from (base acc : Z) (s : string) : Z :=
  match s with
  | EmptyString => acc
  | String c t => digits_value_from base (acc * base + digit_val c) t
  end.
Definition digits_value (base : Z) (s : string) : Z := digits_value_from base 0 s.

Definition digit_char (d : Z) : ascii :=
  ascii_of_N (Z.to_N (if d <? 10 then d + 48 else d + 87)).

Fixpoint to_base_fuel (fuel : nat) (base n : Z) : string :=
  match fuel with
  | O => EmptyString
  | S f => if n <? base then String (digit_char n) EmptyString
           else to_base_fuel f base (n / base) +:+ String (digit_char (n mod base)) EmptyString
  end.

(** [n.toString(base)] of a non-negative integer; one step per digit, and a number has
    at most [log2 n + 1] digits. *)
Definition to_base (base n : Z) : string := to_base_fuel (S (Z.to_nat (Z.log2 n))) base n.
(** [String(n)] *)
Definition dec (n : Z) : string := if n <? 0 then "-" +:+ to_base 10 (- n) else to_base 10 n.
(** [n.toString(16)] *)
Definition hex (n : Z) : string := to_base 16 n.

(** ** Lemmas on characters and strings *)

Lemma app_nil_r_str (s : string) : s +:+ "" = s.
Proof. induction s as [|c s IH]; simpl; [done|by rewrite IH]. Qed.

Lemma app_assoc_str (a b c : string) : (a +:+ b) +:+ c = a +:+ b +:+ c.
Proof. induction a as [|x a IH]; simpl; [done|by rewrite IH]. Qed.

Lemma length_app_str (a b : string) : String.length (a +:+ b) = (String.length a + String.length b)%nat.
Proof. induction a as [|x a IH]; simpl; [done|by rewrite IH]. Qed.

Lemma str_forall_app p (a b : string) : str_forall p (a +:+ b) = str_forall p a && str_forall p b.
Proof. induction a as [|c a IH]; simpl; [done|]. by rewrite IH, andb_assoc. Qed.

Lemma str_forall_impl (p q : ascii -> bool) s :
  (forall c, p c = true -> q c = true) -> str_forall p s = true -> str_forall q s = true.
Proof.
  intros H. induction s as [|c s IH]; simpl; [done|].
  rewrite !andb_true_iff. intros [? ?]. auto.
Qed.

Lemma str_exists_forall p s : str_exists p s = negb (str_forall (fun c => negb (p c)) s).
Proof. induction s as [|c s IH]; simpl; [done|]. by rewrite IH, negb_andb, negb_involutive. Qed.

Lemma str_forall_no_exists (p q : ascii -> bool) s :
  (forall c, p c = true -> q c = false) -> str_forall p s = true -> str_exists q s = false.
Proof.
  intros H Hs. rewrite str_exists_forall, negb_false_iff.
  apply (str_forall_impl p); [|done]. intros c Hc. by rewrite (H c Hc).
Qed.

Lemma str_exists_app p (a b : string) : str_exists p (a +:+ b) = str_exists p a || str_exists p b.
Proof. induction a as [|c a IH]; simpl; [done|]. by rewrite IH, orb_assoc. Qed.

(** A statement on one character is decided by enumerating the 256 characters. *)
Definition all_ascii (f : ascii -> bool) : bool :=
  forallb (fun n => f (ascii_of_nat n)) (seq 0 256).

Lemma all_ascii_spec f : all_ascii f = true -> forall c, f c = true.
Proof.
  intros H c. unfold all_ascii in H. rewrite forallb_forall in H.
  rewrite <- (ascii_nat_embedding c). apply H, in_seq.
  pose proof (nat_ascii_bounded c). lia.
Qed.


(** ** Lemmas on split and join *)

Lemma split_nonempty sep s : split sep s <> [].
Proof. destruct s as [|c s]; simpl; [done|]. case_match; [done|]. by case_match. Qed.

Lemma split_absent sep s : str_includes sep s = false -> split sep s = [s].
Proof.
  unfold str_includes. induction s as [|c s IH]; simpl; [done|].
  rewrite orb_false_iff. intros [Hc Hs]. rewrite Ascii.eqb_sym in Hc.
  rewrite Hc. by rewrite (IH Hs).
Qed.

Lemma split_app_sep sep a b :
  str_includes sep a = false -> split sep (a +:+ String sep b) = a :: split sep b.
Proof.
  unfold str_includes. induction a as [|c a IH]; simpl.
  - by rewrite Ascii.eqb_refl.
  - rewrite orb_false_iff. intros [Hc Ha]. rewrite Ascii.eqb_sym in Hc.
    by rewrite Hc, (IH Ha).
Qed.

Lemma split_join sep l :
  l <> [] -> Forall (fun s => str_includes sep s = false) l ->
  split sep (join (String sep "") l) = l.
Proof.
  intros Hne Hl. induction Hl as [|x l Hx Hl IH]; [done|].
  destruct l as [|y l]; [by apply split_absent|].
  change (join (String sep "") (x :: y :: l))
    with (x +:+ String sep (join (String sep "") (y :: l))).
  rewrite split_app_sep by done. by rewrite IH.
Qed.

Lemma join_split sep s : join (String sep "") (split sep s) = s.
Proof.
  induction s as [|c s IH]; simpl; [done|].
  pose proof (split_nonempty sep s) as Hne.
  destruct (Ascii.eqb_spec c sep) as [->|Hc].
  - destruct (split sep s) as [|h r] eqn:E; [done|]. simpl. simpl in IH. by rewrite IH.
  - destruct (split sep s) as [|h r] eqn:E; [done|].
    destruct r as [|h' r]; simpl in IH |- *; by rewrite IH.
Qed.

Lemma split_pieces_absent sep s : Forall (fun x => str_includes sep x = false) (split sep s).
Proof.
  induction s as [|c s IH]; simpl; [by repeat constructor|].
  destruct (Ascii.eqb_spec c sep) as [->|Hc]; [by constructor|].
  assert (Hsc : Ascii.eqb sep c = false) by (apply Ascii.eqb_neq; congruence).
  destruct (split sep s) as [|h r]; inversion_clear IH; repeat constructor; try done;
    unfold str_includes in *; simpl; by rewrite Hsc.
Qed.

Lemma join_cons sep x l : l <> [] -> join sep (x :: l) = x +:+ sep +:+ join sep l.
Proof. by destruct l. Qed.

Lemma join_forall p sep l :
  str_forall p sep = true -> Forall (fun s => str_forall p s = true) l ->
  str_forall p (join sep l) = true.
Proof.
  intros Hsep. induction 1 as [|x l Hx Hl IH]; [done|]. destruct l as [|y l]; [done|].
  rewrite join_cons by done. by rewrite !str_forall_app, Hx, Hsep, IH.
Qed.

Lemma join_length k sep l :
  Forall (fun s => String.length s <= k)%nat l ->
  (String.length (join sep l) <= (k + String.length sep) * length l)%nat.
Proof.
  induction 1 as [|x l Hx Hl IH]; [simpl; lia|]. destruct l as [|y l]; [cbn [join length]; nia|].
  rewrite join_cons, !length_app_str by done. cbn [length] in *. nia.
Qed.

Lemma str_includes_app_sep c (a b : string) : str_includes c (a +:+ String c b) = true.
Proof.
  unfold str_includes. rewrite str_exists_app. cbn [str_exists].
  by rewrite Ascii.eqb_refl, orb_true_r.
Qed.

(** ** cut_double and cut_last *)

Lemma cut_double_app c (a b : string) :
  str_includes c a = false -> cut_double c (a +:+ String c (String c b)) = Some (a, b).
Proof.
  unfold str_includes. induction a as [|x a IH]; simpl; intros H.
  - by rewrite Ascii.eqb_refl.
  - apply orb_false_iff in H as [Hx Ha]. rewrite Ascii.eqb_sym in Hx. rewrite Hx, (IH Ha).
    destruct a; done.
Qed.

(** Pieces that are neither empty nor contain the separator, joined by it, hold no double
    separator: the first one of [join l ++ rest] is found in [c :: rest]. *)
Definition piece (c : ascii) (s : string) : Prop := is_empty s = false /\ str_includes c s = false.

Lemma cut_double_none_app c (a b : string) :
  str_includes c a = false -> a <> "" -> is_empty b = false ->
  match b with String x _ => Ascii.eqb x c = false | _ => True end ->
  cut_double c (a +:+ String c b) = match cut_double c b with
                                     | Some (l, r) => Some (a +:+ String c l, r)
                                     | None => None
                                     end.
Proof.
  unfold str_includes. intros Ha Hne Hb Hx.
  assert (Hc : cut_double c (String c b) = match cut_double c b with
                                     | Some (l, r) => Some (String c l, r)
                                     | None => None
                                     end).
  { destruct b as [|x b]; [done|]. simpl. by rewrite Hx, andb_false_r. }
  clear Hne. induction a as [|y a IH]; [exact Hc|]. simpl in Ha.
  apply orb_false_iff in Ha as [Hy Ha]. rewrite Ascii.eqb_sym in Hy.
  specialize (IH Ha). simpl. rewrite Hy, IH. destruct (cut_double c b) as [[l r]|]; by destruct a.
Qed.

Lemma join_pieces_head c x l (b : string) :
  piece c x -> match join (String c "") (x :: l) +:+ b with
               | String y _ => Ascii.eqb y c = false
               | _ => False
               end.
Proof.
  intros [Hx Hc]. destruct x as [|y x]; [done|]. unfold str_includes in Hc. simpl in Hc.
  apply orb_false_iff in Hc as [Hy _]. rewrite Ascii.eqb_sym in Hy. by destruct l.
Qed.

Lemma join_pieces_nonempty c l :
  l <> [] -> Forall (piece c) l -> is_empty (join (String c "") l) = false.
Proof.
  destruct l as [|x l]; [done|]. intros _ H.
  pose proof (join_pieces_head c x l "" (Forall_inv H)) as Hh. rewrite app_nil_r_str in Hh.
  by destruct (join (String c "") (x :: l)).
Qed.

Lemma cut_double_join c l :
  Forall (piece c) l -> cut_double c (join (String c "") l) = None.
Proof.
  induction 1 as [|x l Hx Hl IH]; [done|]. destruct l as [|y l].
  - simpl. destruct Hx as [Hx Hc]. unfold str_includes in Hc. clear Hl IH.
    induction x as [|a x IH]; [done|]. simpl in *. apply orb_false_iff in Hc as [Ha Hc].
    rewrite Ascii.eqb_sym in Ha. rewrite Ha. destruct x; [done|]. by rewrite (IH eq_refl Hc).
  - rewrite join_cons by done. inversion_clear Hl as [|? ? Hy _].
    pose proof (join_pieces_head c y l "" Hy) as Hh. rewrite app_nil_r_str in Hh.
    destruct Hx as [Hx Hc].
    change (x +:+ String c "" +:+ join (String c "") (y :: l))
      with (x +:+ String c (join (String c "") (y :: l))).
    rewrite cut_double_none_app; [by rewrite IH|done|by intros ->|..];
      destruct (join (String c "") (y :: l)); done.
Qed.

Lemma cut_double_join_app c l (b : string) :
  Forall (piece c) l ->
  cut_double c (join (String c "") l +:+ String c (String c b)) = Some (join (String c "") l, b).
Proof.
  induction 1 as [|x l Hx Hl IH]; [simpl; by rewrite Ascii.eqb_refl|].
  destruct l as [|y l]; [by apply cut_double_app, Hx|].
  inversion_clear Hl as [|? ? Hy _]. rewrite join_cons by done.
  pose proof (join_pieces_head c y l (String c (String c b)) Hy) as Hh.
  change ((x +:+ String c "" +:+ join (String c "") (y :: l)) +:+ String c (String c b))
    with ((x +:+ String c (join (String c "") (y :: l))) +:+ String c (String c b)).
  rewrite app_assoc_str. simpl app. destruct Hx as [Hx Hc].
  change (String c (join (String c "") (y :: l)) +:+ String c (String c b))
    with (String c (join (String c "") (y :: l) +:+ String c (String c b))).
  rewrite cut_double_none_app; [by rewrite IH|done|by intros ->|..];
    destruct (join (String c "") (y :: l) +:+ String c (String c b)); done.
Qed.

Lemma cut_double_includes c s : str_includes c s = false -> cut_double c s = None.
Proof.
  unfold str_includes. induction s as [|a s IH]; simpl; [done|].
  rewrite orb_false_iff, Ascii.eqb_sym. intros [-> Hs]. rewrite (IH Hs). by destruct s.
Qed.

Lemma cut_last_app c s : fst (cut_last c s) +:+ snd (cut_last c s) = s.
Proof.
  induction s as [|a s IH]; simpl; [done|].
  destruct (cut_last c s) as [h r]. simpl in IH. destruct h as [|x h]; simpl in *.
  - destruct (Ascii.eqb a c); simpl; by rewrite IH.
  - by rewrite IH.
Qed.

(** ** Reading and printing numbers *)

Lemma digits_value_app base acc a b :
  digits_value_from base acc (a +:+ b) = digits_value_from base (digits_value_from base acc a) b.
Proof. revert acc. induction a as [|c a IH]; intros acc; simpl; [done|]. apply IH. Qed.

Lemma digits_value_nonneg base acc s :
  0 <= base -> 0 <= acc -> 0 <= digits_value_from base acc s.
Proof.
  intros Hb. revert acc. induction s as [|c s IH]; intros acc Ha; simpl; [done|].
  apply IH. assert (0 <= digit_val c).
  { unfold digit_val, is_digit, in_range. repeat case_match; boolify; lia. }
  nia.
Qed.

(** A digit string of length at most [k] is below [base ^ k]. *)
Lemma digits_value_bound base (p : ascii -> bool) s acc :
  2 <= base -> (forall c, p c = true -> 0 <= digit_val c < base) -> 0 <= acc ->
  str_forall p s = true ->
  digits_value_from base acc s < (acc + 1) * base ^ Z.of_nat (String.length s).
Proof.
  intros Hb Hp. revert acc. induction s as [|c s IH]; intros acc Ha Hs; simpl in Hs.
  - simpl. lia.
  - boolify. cbn [digits_value_from String.length]. specialize (Hp c ltac:(done)).
    rewrite Nat2Z.inj_succ, Z.pow_succ_r by lia.
    eapply Z.lt_le_trans; [apply IH; [nia|done]|].
    rewrite Z.mul_assoc. apply Z.mul_le_mono_nonneg_r; [apply Z.pow_nonneg; lia|nia].
Qed.

Lemma digit_char_spec d :
  0 <= d < 16 -> digit_val (digit_char d) = d /\ is_lower_hex (digit_char d) = true
                /\ (d < 10 -> is_digit (digit_char d) = true).
Proof.
  intros Hd. assert (H : forallb (fun n => let d := Z.of_nat n in
    (digit_val (digit_char d) =? d) && is_lower_hex (digit_char d)
    && implb (d <? 10) (is_digit (digit_char d))) (seq 0 16) = true) by reflexivity.
  rewrite forallb_forall in H. specialize (H (Z.to_nat d)).
  rewrite Z2Nat.id in H by lia. rewrite in_seq in H. specialize (H ltac:(lia)).
  cbv zeta in H. boolify. repeat split; [done..|].
  intros Hlt. destruct (Z.ltb_spec d 10); [done|lia].
Qed.

Section ToBase.
Context (base : Z) (Hbase : 2 <= base <= 16).

Lemma to_base_fuel_value fuel n :
  0 <= n < 2 ^ Z.of_nat fuel -> digits_value base (to_base_fuel fuel base n) = n.
Proof.
  unfold digits_value. revert n. induction fuel as [|f IH]; intros n Hn; [simpl in *; lia|].
  simpl to_base_fuel. destruct (Z.ltb_spec n base).
  - cbn [digits_value_from]. rewrite (proj1 (digit_char_spec n ltac:(lia))). lia.
  - rewrite digits_value_app, IH.
    + cbn [digits_value_from].
      pose proof (Z.mod_pos_bound n base ltac:(lia)).
      rewrite (proj1 (digit_char_spec (n mod base) ltac:(lia))).
      pose proof (Z.div_mod n base ltac:(lia)). lia.
    + rewrite Nat2Z.inj_succ, Z.pow_succ_r in Hn by lia.
      split; [apply Z.div_pos; lia|]. apply Z.div_lt_upper_bound; [lia|].
      assert (0 <= 2 ^ Z.of_nat f) by (apply Z.pow_nonneg; lia). nia.
Qed.

Lemma to_base_value n : 0 <= n -> digits_value base (to_base base n) = n.
Proof.
  intros Hn. apply to_base_fuel_value. split; [done|].
  rewrite Nat2Z.inj_succ, Z2Nat.id by apply Z.log2_nonneg.
  destruct (Z.eq_dec n 0) as [->|]; [simpl; lia|]. apply Z.log2_spec. lia.
Qed.

Lemma to_base_fuel_forall (p : ascii -> bool) fuel n :
  (forall d, 0 <= d < base -> p (digit_char d) = true) -> 0 <= n ->
  str_forall p (to_base_fuel fuel base n) = true.
Proof.
  intros Hp. revert n. induction fuel as [|f IH]; intros n Hn; [done|]. simpl.
  destruct (Z.ltb_spec n base); simpl; [by rewrite (Hp n) by lia|].
  rewrite str_forall_app, IH by (apply Z.div_pos; lia). simpl.
  rewrite Hp by (apply Z.mod_pos_bound; lia). done.
Qed.

Lemma to_base_fuel_length fuel n k :
  0 <= n < base ^ Z.of_nat k -> (1 <= k)%nat ->
  (String.length (to_base_fuel fuel base n) <= k)%nat.
Proof.
  revert n k. induction fuel as [|f IH]; intros n k Hn Hk; simpl; [lia|].
  destruct (Z.ltb_spec n base); [simpl; lia|].
  rewrite length_app_str. cbn [String.length].
  destruct k as [|[|k]]; [lia|simpl in *; lia|].
  enough (String.length (to_base_fuel f base (n / base)) <= S k)%nat by lia.
  apply IH; [|lia]. rewrite Nat2Z.inj_succ, Z.pow_succ_r in Hn by lia.
  split; [apply Z.div_pos; lia|]. apply Z.div_lt_upper_bound; lia.
Qed.

Lemma to_base_fuel_head fuel n :
  0 < n -> (n < 2 ^ Z.of_nat fuel) ->
  exists d r, to_base_fuel fuel base n = String (digit_char d) r /\ 0 < d < base.
Proof.
  revert n. induction fuel as [|f IH]; intros n Hn Hf; [simpl in *; lia|]. simpl.
  destruct (Z.ltb_spec n base); [by eexists n, _|].
  rewrite Nat2Z.inj_succ, Z.pow_succ_r in Hf by lia.
  destruct (IH (n / base)) as (d & r & -> & Hd).
  - apply Z.div_str_pos. lia.
  - apply Z.div_lt_upper_bound; [lia|].
    assert (0 <= 2 ^ Z.of_nat f) by (apply Z.pow_nonneg; lia). nia.
  - by eexists d, _.
Qed.

Lemma to_base_head n :
  0 < n -> exists d r, to_base base n = String (digit_char d) r /\ 0 < d < base.
Proof.
  intros Hn. apply to_base_fuel_head; [done|].
  rewrite Nat2Z.inj_succ, Z2Nat.id by apply Z.log2_nonneg. apply Z.log2_spec. lia.
Qed.

Lemma to_base_nonempty n : is_empty (to_base base n) = false.
Proof.
  unfold to_base. simpl. destruct (n <? base); [done|].
  by destruct (to_base_fuel _ base (n / base)).
Qed.
End ToBase.

Lemma dec_value n : 0 <= n -> digits_value 10 (dec n) = n.
Proof. intros. unfold dec. destruct (Z.ltb_spec n 0); [lia|]. apply to_base_value; lia. Qed.

Lemma dec_digits n : 0 <= n -> str_forall is_digit (dec n) = true.
Proof.
  intros. unfold dec. destruct (Z.ltb_spec n 0); [lia|].
  apply to_base_fuel_forall; [lia| |lia]. intros d Hd. apply digit_char_spec; lia.
Qed.

Lemma dec_length n k :
  0 <= n < 10 ^ Z.of_nat k -> (1 <= k)%nat -> (String.length (dec n) <= k)%nat.
Proof.
  intros. unfold dec. destruct (Z.ltb_spec n 0); [lia|]. by apply to_base_fuel_length.
Qed.

Lemma hex_value n : 0 <= n -> digits_value 16 (hex n) = n.
Proof. apply to_base_value; lia. Qed.

Lemma hex_digits n : 0 <= n -> str_forall is_lower_hex (hex n) = true.
Proof.
  intros. apply to_base_fuel_forall; [lia| |lia]. intros d Hd. apply digit_char_spec; lia.
Qed.

Lemma hex_length n k :
  0 <= n < 16 ^ Z.of_nat k -> (1 <= k)%nat -> (String.length (hex n) <= k)%nat.
Proof. intros. by apply to_base_fuel_length. Qed.

(** ** trim and toLowerCase leave plain text alone *)

Lemma trim_end_id s : str_exists is_ws s = false -> trim_end s = s.
Proof.
  induction s as [|c s IH]; simpl; [done|]. rewrite orb_false_iff. intros [Hc Hs].
  rewrite (IH Hs). destruct s; [by rewrite Hc|done].
Qed.

Lemma trim_id s : str_exists is_ws s = false -> trim s = s.
Proof.
  intros Hs. unfold trim. replace (trim_start s) with s; [by apply trim_end_id|].
  destruct s as [|c s]; [done|]. simpl in *. apply orb_false_iff in Hs as [-> _]. done.
Qed.

Lemma to_lower_id s : str_forall (fun c => Ascii.eqb (char_lower c) c) s = true -> to_lower s = s.
Proof.
  induction s as [|c s IH]; simpl; [done|]. intros H. boolify.
  apply Ascii.eqb_eq in H. by rewrite H, IH.
Qed.

(** ** Texts cut at a separator *)

Lemma split_head_inj c a b a' b' :
  str_includes c a = false -> str_includes c a' = false ->
  a +:+ String c b = a' +:+ String c b' -> a = a' /\ b = b'.
Proof.
  intros Ha Ha' E. pose proof (split_app_sep c a b Ha) as H1.
  rewrite E, (split_app_sep c a' b' Ha') in H1. injection H1 as -> H2.
  split; [done|]. by rewrite <- (join_split c b), <- H2, join_split.
Qed.

Lemma split_last_inj c a b a' b' :
  str_includes c b = false -> str_includes c b' = false ->
  a +:+ String c b = a' +:+ String c b' -> a = a' /\ b = b'.
Proof.
  intros Hb Hb'. revert a'. induction a as [|x a IH]; intros [|x' a'] E; simpl in E.
  - by injection E.
  - injection E as E1 E2. subst. by rewrite str_includes_app_sep in Hb.
  - injection E as E1 E2. subst. by rewrite str_includes_app_sep in Hb'.
  - injection E as E1 E2. apply IH in E2 as [-> ->]. by subst.
Qed.

Lemma starts_with_iff p s : starts_with p s = true <-> exists r, s = p +:+ r.
Proof.
  revert s. induction p as [|c p IH]; intros s; [split; [by exists s|done]|].
  destruct s as [|d s]; simpl; [split; [done|by intros [? ?]]|].
  rewrite andb_true_iff, IH, Ascii.eqb_eq. split.
  - intros [-> [r ->]]. by exists r.
  - intros [r [= -> ->]]. eauto.
Qed.

(** [dec] writes digits after an optional minus sign, and no two numbers alike. *)
Lemma dec_chars n : str_forall (fun c => is_digit c || Ascii.eqb c "-") (dec n) = true.
Proof.
  assert (H : forall m, 0 <= m -> str_forall (fun c => is_digit c || Ascii.eqb c "-") (to_base 10 m) = true).
  { intros m Hm. apply to_base_fuel_forall; [lia| |lia]. intros d Hd.
    apply orb_true_iff. left. by apply digit_char_spec; lia. }
  unfold dec. destruct (Z.ltb_spec n 0); [|by apply H]. cbn [String.append str_forall].
  rewrite (H (- n)) by lia. done.
Qed.

Lemma dec_absent c n : is_digit c || Ascii.eqb c "-" = false -> str_includes c (dec n) = false.
Proof.
  intros Hc. unfold str_includes. apply (str_forall_no_exists (fun c => is_digit c || Ascii.eqb c "-")).
  - intros a Ha. apply Ascii.eqb_neq. intros ->. congruence.
  - apply dec_chars.
Qed.

Lemma dec_inj n m : dec n = dec m -> n = m.
Proof.
  assert (Hd : forall a b, 0 <= a -> dec a = String "-" b -> False).
  { intros a b Ha E. pose proof (dec_digits a Ha) as H. rewrite E in H. done. }
  intros E. destruct (Z.ltb_spec n 0) as [Hn|Hn], (Z.ltb_spec m 0) as [Hm|Hm].
  - unfold dec in E. rewrite (proj2 (Z.ltb_lt n 0)), (proj2 (Z.ltb_lt m 0)) in E by done.
    cbn [String.append] in E. injection E as E.
    pose proof (to_base_value 10 ltac:(lia) (- n) ltac:(lia)) as H1.
    pose proof (to_base_value 10 ltac:(lia) (- m) ltac:(lia)) as H2. rewrite E in H1. lia.
  - exfalso. unfold dec at 1 in E. rewrite (proj2 (Z.ltb_lt n 0)) in E by done. symmetry in E.
    by apply Hd in E.
  - exfalso. unfold dec at 2 in E. rewrite (proj2 (Z.ltb_lt m 0)) in E by done. by apply Hd in E.
  - pose proof (dec_value n Hn) as H1. pose proof (dec_value m Hm) as H2. rewrite E in H1. lia.
Qed.
