(* ===== verification/JsValue.v ===== *)
(** * JavaScript values

    The values an untyped ([unknown]) argument may have: what arrives in a request
    body, a WebSocket frame or a stored JSON document. *)

From S2P Require Import Prelude JsString.

(** A number is an integer (exact below [2^53], which is all the code accepts) or one of
    the rest: NaN, an infinity, a fraction. *)
Inductive number := NInt (z : Z) | NOther.

#[warnings="-register-all"]
Inductive js :=
| JUndefined
| JNull
| JBool (b : bool)
| JNum (n : number)
| JStr (s : string)
| JArr (l : list js)
| JObj (fields : list (string * js)).

Definition max_safe_integer : Z := 2 ^ 53 - 1.

(** [typeof v === 'number' && Number.isSafeInteger(v)] *)
Definition safe_integer (v : js) : option Z :=
  match v with
  | JNum (NInt z) => if (Z.abs z <=? max_safe_integer) then Some z else None
  | _ => None
  end.

Definition is_undefined (v : js) : bool := match v with JUndefined => true | _ => false end.
Definition is_null (v : js) : bool := match v with JNull => true | _ => false end.
Definition is_array (v : js) : bool := match v with JArr _ => true | _ => false end.
(** [v == null] *)
Definition is_nullish (v : js) : bool := is_undefined v || is_null v.
(** [v && typeof v === 'object']: arrays are objects, [null] is falsy. *)
Definition is_object (v : js) : bool := match v with JObj _ | JArr _ => true | _ => false end.

Fixpoint assoc (k : string) (l : list (string * js)) : option js :=
  match l with
  | [] => None
  | (k', v) :: r => if String.eqb k' k then Some v else assoc k r
  end.

(** [k in o] and [o.k] on a plain object; an array has none of the named fields read here. *)
Definition has_field (k : string) (v : js) : bool :=
  match v with JObj l => match assoc k l with Some _ => true | None => false end | _ => false end.
Definition get_field (k : string) (v : js) : js :=
  match v with JObj l => default JUndefined (assoc k l) | _ => JUndefined end.

(** [x ?? d] *)
Definition nullish_or (v d : js) : js := if is_nullish v then d else v.
