(* ===== verification/JsNumber.v ===== *)
(** * Number conversion

    [Number(x)] on the values a request may carry: the string grammar of ECMAScript
    (decimal, fraction, exponent, radix prefixes) evaluated as a rational and rounded to the
    nearest double, ties to even. The result is an integer, or "other" (NaN, an infinity, a
    fraction): every use of the code tests it for an integer at once. *)

From S2P Require Import Prelude JsString JsValue.

(** [n / d] rounded to an integer, ties to even. *)
Definition round_half_even (n d : Z) : Z :=
  let q := n / d in
  let r := n mod d in
  if 2 * r <? d then q
  else if d <? 2 * r then q + 1
  else if Z.even q then q else q + 1.

(** The double nearest to [n / d] ([0 <= n], [0 < d]), when it is an integer. *)
Definition round_double (n d : Z) : number :=
  if n =? 0 then NInt 0
  else
    let k := Z.log2 n - Z.log2 d in
    let below := if 0 <=? k then n <? d * 2 ^ k else n * 2 ^ (- k) <? d in
    let e := Z.max ((if below then k - 1 else k) - 52) (-1074) in
    if 0 <=? e then
      let m := round_half_even n (d * 2 ^ e) in
      if m * 2 ^ e <? 2 ^ 1024 then NInt (m * 2 ^ e) else NOther
    else
      let m := round_half_even (n * 2 ^ (- e)) d in
      if m mod 2 ^ (- e) =? 0 then NInt (m / 2 ^ (- e)) else NOther.

Definition num_neg (n : number) : number := match n with NInt z => NInt (- z) | NOther => NOther end.

(** The leading characters of a class, and the rest. *)
Fixpoint span (p : ascii -> bool) (s : string) : string * string :=
  match s with
  | EmptyString => (EmptyString, EmptyString)
  | String c t => if p c then let '(a, b) := span p t in (String c a, b) else (EmptyString, s)
  end.

(** An optional sign. *)
Definition read_sign (s : string) : bool * string :=
  match s with
  | String c t => if Ascii.eqb c "-" then (true, t) else if Ascii.eqb c "+" then (false, t) else (false, s)
  | EmptyString => (false, s)
  end.

(** [([eE][+-]?digits)?] up to the end of the text. *)
Definition read_exponent (s : string) : option Z :=
  match s with
  | EmptyString => Some 0
  | String c t =>
      if Ascii.eqb c "e" || Ascii.eqb c "E" then
        let '(neg, u) := read_sign t in
        if negb (is_empty u) && str_forall is_digit u
        then Some (if neg then - digits_value 10 u else digits_value 10 u) else None
      else None
  end.

(** [digits[.digits?]] or [.digits], with its exponent: an unsigned decimal literal. *)
Definition read_decimal (s : string) : number :=
  let '(ip, s1) := span is_digit s in
  let '(fp, s2) := match s1 with
                   | String c t => if Ascii.eqb c "." then span is_digit t else (EmptyString, s1)
                   | EmptyString => (EmptyString, s1)
                   end in
  if is_empty ip && is_empty fp then NOther
  else match read_exponent s2 with
       | None => NOther
       | Some x =>
           let n := digits_value 10 (ip +:+ fp) in
           let x' := x - Z.of_nat (String.length fp) in
           if 0 <=? x' then round_double (n * 10 ^ x') 1 else round_double n (10 ^ (- x'))
       end.

Definition read_radix (base : Z) (ok : ascii -> bool) (s : string) : number :=
  if negb (is_empty s) && str_forall ok s then round_double (digits_value base s) 1 else NOther.

(** StringToNumber. [Infinity] falls to "other" with the malformed texts. *)
Definition str_to_number (raw : string) : number :=
  let s := trim raw in
  if is_empty s then NInt 0
  else match s with
       | String "0" (String c t) =>
           if Ascii.eqb c "x" || Ascii.eqb c "X" then read_radix 16 is_hex t
           else if Ascii.eqb c "o" || Ascii.eqb c "O" then read_radix 8 (in_range 48 55) t
           else if Ascii.eqb c "b" || Ascii.eqb c "B" then read_radix 2 (in_range 48 49) t
           else read_decimal s
       | _ => let '(neg, u) := read_sign s in
              if neg then num_neg (read_decimal u) else read_decimal u
       end.

(** [Number(v)]; an array converts through its text, a plain object is NaN. *)
Fixpoint to_number (v : js) : number :=
  match v with
  | JUndefined => NOther
  | JNull => NInt 0
  | JBool b => NInt (if b then 1 else 0)
  | JNum n => n
  | JStr s => str_to_number s
  | JArr [] => NInt 0
  | JArr [JUndefined] | JArr [JNull] => NInt 0
  | JArr [JBool _] => NOther
  | JArr [x] => to_number x
  | JArr _ => NOther
  | JObj _ => NOther
  end.

(** [Number.isSafeInteger(n) && n > 0] *)
Definition positive_safe (n : number) : option Z :=
  match n with
  | NInt z => if (0 <? z) && (z <=? max_safe_integer) then Some z else None
  | NOther => None
  end.

(** ** Exactness on safe integers *)

Lemma round_half_even_exact n d : 0 < d -> n mod d = 0 -> round_half_even n d = n / d.
Proof. intros Hd Hn. unfold round_half_even. rewrite Hn. destruct (Z.ltb_spec (2 * 0) d); [done|lia]. Qed.

(** Every non-negative integer up to [2^53] is its own double. *)
Lemma round_double_int n : 0 <= n <= 2 ^ 53 -> round_double n 1 = NInt n.
Proof.
  intros Hn. unfold round_double. destruct (Z.eqb_spec n 0) as [->|Hn0]; [done|].
  change (Z.log2 1) with 0. rewrite Z.sub_0_r. pose proof (Z.log2_nonneg n).
  pose proof (Z.log2_spec n ltac:(lia)) as Hs.
  rewrite (proj2 (Z.leb_le 0 (Z.log2 n))) by done.
  rewrite (proj2 (Z.ltb_ge n (1 * 2 ^ Z.log2 n))) by lia.
  pose proof (Z.log2_le_mono n (2 ^ 53) ltac:(lia)) as Hm. rewrite Z.log2_pow2 in Hm by lia.
  rewrite Z.max_l by lia. destruct (Z.leb_spec 0 (Z.log2 n - 52)) as [He|He].
  - assert (Hc : Z.log2 n = 52 \/ Z.log2 n = 53) by lia. destruct Hc as [E|E]; rewrite E in *.
    + change (2 ^ (52 - 52)) with 1. rewrite round_half_even_exact by (rewrite ?Z.mod_1_r; lia).
      rewrite Z.div_1_r, Z.mul_1_r. rewrite (proj2 (Z.ltb_lt _ _)); [done|].
      apply Z.le_lt_trans with (2 ^ 53); [lia|by apply Z.pow_lt_mono_r].
    + assert (n = 2 ^ 53) as -> by lia. by vm_compute.
  - set (e := - (Z.log2 n - 52)). assert (H2 : 0 < 2 ^ e) by (apply Z.pow_pos_nonneg; lia).
    rewrite round_half_even_exact by (rewrite ?Z.mod_1_r; lia).
    rewrite Z.div_1_r, Z.mod_mul by lia. cbn [Z.eqb]. by rewrite Z.div_mul by lia.
Qed.

Lemma span_all p s : str_forall p s = true -> span p s = (s, "").
Proof. induction s as [|c s IH]; simpl; [done|]. intros H. boolify. rewrite H, (IH H0). done. Qed.

Lemma read_decimal_digits s :
  str_forall is_digit s = true -> is_empty s = false -> digits_value 10 s <= 2 ^ 53 ->
  read_decimal s = NInt (digits_value 10 s).
Proof.
  intros Hs He Hb. unfold read_decimal. rewrite span_all by done. cbn [is_empty]. rewrite He.
  cbn [andb read_exponent String.length Z.of_nat Z.sub]. rewrite app_nil_r_str.
  change (0 - 0) with 0. cbn [Z.leb Z.compare]. change (10 ^ 0) with 1. rewrite Z.mul_1_r.
  apply round_double_int. split; [apply digits_value_nonneg; lia|done].
Qed.

Lemma digits_not_ws s : str_forall is_digit s = true -> str_exists is_ws s = false.
Proof.
  apply str_forall_no_exists. intros c Hc. revert c Hc.
  assert (H : forall c, (negb (is_digit c) || negb (is_ws c)) = true) by (apply all_ascii_spec; by vm_compute).
  intros c Hc. specialize (H c). rewrite Hc in H. by destruct (is_ws c).
Qed.

(** A text of digits without a leading zero reads back as its value. *)
Lemma str_to_number_digits s :
  str_forall is_digit s = true -> digits_value 10 s <= 2 ^ 53 ->
  match s with String c _ => is_digit19 c = true | _ => False end ->
  str_to_number s = NInt (digits_value 10 s).
Proof.
  intros Hs Hb Hh. unfold str_to_number. rewrite trim_id by (by apply digits_not_ws).
  destruct s as [|c t]; [done|]. cbn [is_empty].
  assert (Hsign : read_sign (String c t) = (false, String c t)).
  { assert (H : forall c, (negb (is_digit19 c) || (negb (Ascii.eqb c "-") && negb (Ascii.eqb c "+"))) = true)
      by (apply all_ascii_spec; by vm_compute).
    specialize (H c). rewrite Hh in H. cbn [negb orb] in H. unfold read_sign.
    destruct (Ascii.eqb c "-"); [done|]. by destruct (Ascii.eqb c "+"). }
  rewrite <- (read_decimal_digits (String c t)) by done.
  destruct c as [[] [] [] [] [] [] [] []]; try (rewrite Hsign; done); try done.
Qed.

Lemma is_digit19_digit_char d : 0 < d < 10 -> is_digit19 (digit_char d) = true.
Proof.
  intros Hd. assert (d = 1 \/ d = 2 \/ d = 3 \/ d = 4 \/ d = 5 \/ d = 6 \/ d = 7 \/ d = 8 \/ d = 9) as H by lia.
  repeat destruct H as [->|H]; try (by vm_compute). subst. by vm_compute.
Qed.

(** [Number(String(n))] of a positive safe integer. *)
Lemma str_to_number_dec n : 0 < n <= 2 ^ 53 -> str_to_number (dec n) = NInt n.
Proof.
  intros Hn. rewrite <- (dec_value n) at 2 by lia. apply str_to_number_digits.
  - apply dec_digits. lia.
  - rewrite dec_value; lia.
  - unfold dec. destruct (Z.ltb_spec n 0); [lia|].
    destruct (to_base_head 10 ltac:(lia) n ltac:(lia)) as (d & r & -> & Hd). by apply is_digit19_digit_char.
Qed.
