(* ===== verification/JsJson.v ===== *)
(** * JSON.parse

    The JSON grammar on texts of code units below 256, as a recursive-descent reader with
    fuel (one unit per nesting step and element; the length of the text is enough). [None]
    is the [SyntaxError]. A [\u] escape above 255 yields [?]: such a character is outside
    the string model and equal to no name the code tests. *)

From S2P Require Import Prelude JsString JsValue JsNumber.

Definition json_ws (c : ascii) : bool := in_range 9 10 c || (code c =? 13) || (code c =? 32).

Fixpoint skip_ws (s : string) : string :=
  match s with String c t => if json_ws c then skip_ws t else s | EmptyString => s end.

(** The text after a literal word. *)
Fixpoint eat (w s : string) : option string :=
  match w, s with
  | EmptyString, _ => Some s
  | String a w', String b s' => if Ascii.eqb a b then eat w' s' else None
  | _, EmptyString => None
  end.

(** The characters of a string up to its closing quote. *)
Fixpoint json_string (fuel : nat) (s : string) : option (string * string) :=
  match fuel with
  | O => None
  | S f =>
      match s with
      | EmptyString => None
      | String c t =>
          if code c =? 34 then Some (EmptyString, t)
          else if code c <? 32 then None
          else if code c =? 92 then
            match t with
            | String "u" (String h1 (String h2 (String h3 (String h4 r)))) =>
                let h := String h1 (String h2 (String h3 (String h4 EmptyString))) in
                if str_forall is_hex h then
                  let v := digits_value 16 h in
                  match json_string f r with
                  | Some (x, r') => Some (String (if v <? 256 then ascii_of_N (Z.to_N v) else "?"%char) x, r')
                  | None => None
                  end
                else None
            | String e r =>
                let out := if Ascii.eqb e "b" then Some 8 else if Ascii.eqb e "f" then Some 12
                           else if Ascii.eqb e "n" then Some 10 else if Ascii.eqb e "r" then Some 13
                           else if Ascii.eqb e "t" then Some 9
                           else if (code e =? 34) || (code e =? 92) || (code e =? 47) then Some (code e) else None in
                match out, json_string f r with
                | Some v, Some (x, r') => Some (String (ascii_of_N (Z.to_N v)) x, r')
                | _, _ => None
                end
            | EmptyString => None
            end
          else match json_string f t with Some (x, r) => Some (String c x, r) | None => None end
      end
  end.

(** The optional fraction and exponent of a number: their text and what follows, [None]
    when malformed. *)
Definition json_frac (s : string) : option (string * string) :=
  match s with
  | String c t =>
      if Ascii.eqb c "." then
        let '(fp, r) := span is_digit t in if is_empty fp then None else Some ("." +:+ fp, r)
      else Some (EmptyString, s)
  | EmptyString => Some (EmptyString, s)
  end.

Definition json_expo (s : string) : option (string * string) :=
  match s with
  | String c t =>
      if Ascii.eqb c "e" || Ascii.eqb c "E" then
        let '(sign, u) := match t with
                          | String d u => if Ascii.eqb d "-" || Ascii.eqb d "+" then (String d "", u) else (EmptyString, t)
                          | EmptyString => (EmptyString, t)
                          end in
        let '(x, r) := span is_digit u in
        if is_empty x then None else Some ("e" +:+ sign +:+ x, r)
      else Some (EmptyString, s)
  | EmptyString => Some (EmptyString, s)
  end.

(** Digits without a leading zero, a fraction, an exponent. *)
Definition json_unsigned (s : string) : option (number * string) :=
  let '(ip, s1) := span is_digit s in
  if is_empty ip || (starts_with "0" ip && (2 <=? String.length ip)%nat) then None
  else match json_frac s1 with
       | None => None
       | Some (fp, s2) =>
           match json_expo s2 with
           | None => None
           | Some (x, s3) => Some (read_decimal (ip +:+ fp +:+ x), s3)
           end
       end.

Definition json_number (s : string) : option (number * string) :=
  match s with
  | String c t =>
      if Ascii.eqb c "-" then
        match json_unsigned t with Some (n, r) => Some (num_neg n, r) | None => None end
      else json_unsigned s
  | EmptyString => None
  end.

(** A later duplicate key replaces the value and keeps the first position. *)
Fixpoint obj_set (k : string) (v : js) (l : list (string * js)) : list (string * js) :=
  match l with
  | [] => [(k, v)]
  | (k', w) :: r => if String.eqb k' k then (k, v) :: r else (k', w) :: obj_set k v r
  end.

Definition eat_char (n : Z) (s : string) : option string :=
  match skip_ws s with String c t => if code c =? n then Some t else None | EmptyString => None end.

Fixpoint json_value (fuel : nat) (s0 : string) : option (js * string) :=
  match fuel with
  | O => None
  | S f =>
      let s := skip_ws s0 in
      match s with
      | EmptyString => None
      | String c t =>
          if code c =? 34 then
            match json_string (String.length s) t with Some (x, r) => Some (JStr x, r) | None => None end
          else if code c =? 91 then
            match eat_char 93 t with
            | Some r => Some (JArr [], r)
            | None => match json_elements f t with Some (l, r) => Some (JArr l, r) | None => None end
            end
          else if code c =? 123 then
            match eat_char 125 t with
            | Some r => Some (JObj [], r)
            | None => match json_members f [] t with Some (l, r) => Some (JObj l, r) | None => None end
            end
          else match eat "true" s, eat "false" s, eat "null" s with
               | Some r, _, _ => Some (JBool true, r)
               | _, Some r, _ => Some (JBool false, r)
               | _, _, Some r => Some (JNull, r)
               | _, _, _ => match json_number s with Some (n, r) => Some (JNum n, r) | None => None end
               end
      end
  end
with json_elements (fuel : nat) (s : string) : option (list js * string) :=
  match fuel with
  | O => None
  | S f =>
      match json_value f s with
      | None => None
      | Some (v, r) =>
          match eat_char 93 r, eat_char 44 r with
          | Some r', _ => Some ([v], r')
          | None, Some r' => match json_elements f r' with Some (l, r'') => Some (v :: l, r'') | None => None end
          | None, None => None
          end
      end
  end
with json_members (fuel : nat) (acc : list (string * js)) (s : string) : option (list (string * js) * string) :=
  match fuel with
  | O => None
  | S f =>
      match eat_char 34 s with
      | None => None
      | Some s1 =>
          match json_string (S (String.length s1)) s1 with
          | None => None
          | Some (k, s2) =>
              match eat_char 58 s2 with
              | None => None
              | Some s3 =>
                  match json_value f s3 with
                  | None => None
                  | Some (v, r) =>
                      let acc' := obj_set k v acc in
                      match eat_char 125 r, eat_char 44 r with
                      | Some r', _ => Some (acc', r')
                      | None, Some r' => json_members f acc' r'
                      | None, None => None
                      end
                  end
              end
          end
      end
  end.

(** [JSON.parse(s)] *)
Definition JSON_parse (s : string) : option js :=
  match json_value (S (S (String.length s))) s with
  | Some (v, r) => if is_empty (skip_ws r) then Some v else None
  | None => None
  end.

(** ** JSON.stringify

    On values without [undefined], with integers below [10^21] and strings of plain
    characters (the escaped ones are not written by the code modelled here). *)

Definition quote (s : string) : string := String "034" (s +:+ String "034" "").

Fixpoint JSON_stringify (v : js) : string :=
  match v with
  | JUndefined | JNull => "null"
  | JBool b => if b then "true" else "false"
  | JNum (NInt z) => dec z
  | JNum NOther => "null"
  | JStr s => quote s
  | JArr l => "[" +:+ join "," (map JSON_stringify l) +:+ "]"
  | JObj fields => "{" +:+ join "," (map (fun kv => quote (fst kv) +:+ ":" +:+ JSON_stringify (snd kv)) fields) +:+ "}"
  end.

(** ** Reading back what was written *)

Definition plain_char (c : ascii) : bool := (32 <=? code c) && negb (code c =? 34) && negb (code c =? 92).
Definition plain (s : string) : bool := str_forall plain_char s.

(** The values that survive the trip. *)
Fixpoint jsonable (v : js) : Prop :=
  match v with
  | JNull | JBool _ => True
  | JNum (NInt z) => Z.abs z <= 2 ^ 53
  | JStr s => plain s = true
  | JArr l => (fix all (l : list js) := match l with [] => True | x :: r => jsonable x /\ all r end) l
  | JObj fields =>
      NoDup (map fst fields)
      /\ (fix all (l : list (string * js)) :=
            match l with [] => True | (k, x) :: r => plain k = true /\ jsonable x /\ all r end) fields
  | _ => False
  end.

(** The fuel a value needs. *)
Fixpoint jfuel (v : js) : nat :=
  match v with
  | JArr l => S ((fix go (l : list js) := match l with [] => O | x :: r => S (Nat.max (jfuel x) (go r)) end) l)
  | JObj l => S ((fix go (l : list (string * js)) := match l with [] => O | (_, x) :: r => S (Nat.max (jfuel x) (go r)) end) l)
  | _ => 1%nat
  end.
Definition elems_fuel (l : list js) : nat := fold_right (fun x acc => S (Nat.max (jfuel x) acc)) O l.
Definition membs_fuel (l : list (string * js)) : nat := fold_right (fun kx acc => S (Nat.max (jfuel (snd kx)) acc)) O l.

Lemma jfuel_arr l : jfuel (JArr l) = S (elems_fuel l).
Proof. cbn [jfuel]. f_equal. Qed.
Lemma jfuel_obj l : jfuel (JObj l) = S (membs_fuel l).
Proof. cbn [jfuel]. f_equal. induction l as [|[k x] l IH]; [done|]. cbn [membs_fuel fold_right snd]. by rewrite IH. Qed.

Lemma jsonable_arr l : jsonable (JArr l) <-> Forall jsonable l.
Proof.
  cbn [jsonable]. induction l as [|x l IH]; [by split; [constructor|]|]. rewrite Forall_cons, IH. done.
Qed.
Lemma jsonable_obj l :
  jsonable (JObj l) <-> NoDup (map fst l) /\ Forall (fun kx => plain (fst kx) = true /\ jsonable (snd kx)) l.
Proof.
  cbn [jsonable]. apply and_iff_compat_l. induction l as [|[k x] l IH]; [by split; [constructor|]|].
  rewrite Forall_cons, IH. cbn [fst snd]. tauto.
Qed.

(** Induction on values through the lists they hold. *)
Lemma js_nested_ind (P : js -> Prop) :
  (forall v, match v with JArr _ | JObj _ => False | _ => True end -> P v) ->
  (forall l, Forall P l -> P (JArr l)) ->
  (forall l, Forall (fun kx => P (snd kx)) l -> P (JObj l)) -> forall v, P v.
Proof.
  intros Hbase Harr Hobj. fix IH 1. intros v. destruct v as [| |b|n|s|l|l]; try (by apply Hbase).
  - apply Harr. induction l as [|x l IHl]; constructor; [apply IH|exact IHl].
  - apply Hobj. induction l as [|[k x] l IHl]; constructor; [apply IH|exact IHl].
Qed.

(** What may follow a value inside a document. *)
Definition delim (s : string) : bool :=
  match s with EmptyString => true | String c _ => (code c =? 44) || (code c =? 93) || (code c =? 125) end.

Lemma span_app p a b :
  str_forall p a = true -> match b with String c _ => p c = false | EmptyString => True end ->
  span p (a +:+ b) = (a, b).
Proof.
  intros Ha Hb. induction a as [|c a IH]; cbn [String.append span].
  - destruct b as [|c b]; [done|]. cbn [span]. by rewrite Hb.
  - cbn [str_forall] in Ha. boolify. by rewrite H, IH.
Qed.

Lemma delim_not c r : delim (String c r) = true -> is_digit c = false /\ Ascii.eqb c "." = false
  /\ Ascii.eqb c "e" = false /\ Ascii.eqb c "E" = false.
Proof.
  assert (H : forall c, (negb (delim (String c "")) || (negb (is_digit c) && negb (Ascii.eqb c ".")
     && negb (Ascii.eqb c "e") && negb (Ascii.eqb c "E"))) = true) by (apply all_ascii_spec; by vm_compute).
  intros Hd. specialize (H c). change (delim (String c "")) with (delim (String c r)) in H. rewrite Hd in H.
  cbn [negb orb] in H. boolify. done.
Qed.

Lemma dec_pos_head n : 0 < n -> exists c r, dec n = String c r /\ is_digit19 c = true.
Proof.
  intros Hn. unfold dec. destruct (Z.ltb_spec n 0); [lia|].
  destruct (to_base_head 10 ltac:(lia) n ltac:(lia)) as (d & r & -> & Hd). eexists _, r. split; [done|].
  by apply is_digit19_digit_char.
Qed.

Lemma json_unsigned_dec n rest :
  0 <= n <= 2 ^ 53 -> delim rest = true -> json_unsigned (dec n +:+ rest) = Some (NInt n, rest).
Proof.
  intros Hn Hd. unfold json_unsigned. rewrite span_app.
  2: { apply dec_digits. lia. }
  2: { destruct rest as [|c r]; [done|]. by apply delim_not in Hd as (? & _). }
  assert (Hhead : is_empty (dec n) || (starts_with "0" (dec n) && (2 <=? String.length (dec n))%nat) = false).
  { destruct (Z.eqb_spec n 0) as [->|Hn0]; [by vm_compute|].
    destruct (dec_pos_head n ltac:(lia)) as (c & r & -> & Hc). cbn [is_empty orb].
    assert (Hz : starts_with "0" (String c r) = false); [|by rewrite Hz].
    cbn [starts_with]. by destruct (Ascii.eqb_spec "0" c) as [<-|]. }
  rewrite Hhead.
  assert (Hfe : json_frac rest = Some (EmptyString, rest) /\ json_expo rest = Some (EmptyString, rest)).
  { destruct rest as [|c r]; [done|]. apply delim_not in Hd as (_ & H1 & H2 & H3).
    unfold json_frac, json_expo. by rewrite H1, H2, H3. }
  destruct Hfe as [-> ->]. rewrite !app_nil_r_str, read_decimal_digits; rewrite ?dec_value by lia; [done| | |lia].
  - apply dec_digits. lia.
  - destruct (Z.eqb_spec n 0) as [->|Hn0]; [by vm_compute|].
    by destruct (dec_pos_head n ltac:(lia)) as (c & r & -> & Hc).
Qed.

Lemma dec_nonneg_head n : 0 <= n -> exists c r, dec n = String c r /\ is_digit c = true.
Proof.
  intros Hn. pose proof (dec_digits n Hn) as H. pose proof (to_base_nonempty 10 n) as He.
  unfold dec in *. destruct (Z.ltb_spec n 0); [lia|]. destruct (to_base 10 n) as [|c r]; [done|].
  cbn [str_forall] in H. boolify. eauto.
Qed.

Lemma json_number_dec z rest :
  Z.abs z <= 2 ^ 53 -> delim rest = true -> json_number (dec z +:+ rest) = Some (NInt z, rest).
Proof.
  intros Hz Hd. destruct (Z.ltb_spec z 0) as [Hneg|Hnn].
  - assert (E : dec z = String "-" (dec (- z))).
    { unfold dec. rewrite (proj2 (Z.ltb_lt z 0)), (proj2 (Z.ltb_ge (- z) 0)) by lia. done. }
    rewrite E. cbn [String.append json_number Ascii.eqb Bool.eqb]. rewrite json_unsigned_dec by (done || lia).
    cbn [num_neg]. by rewrite Z.opp_involutive.
  - destruct (dec_nonneg_head z Hnn) as (c & r & E & Hc). pose proof (json_unsigned_dec z rest ltac:(lia) Hd) as H.
    rewrite E in *. cbn [String.append] in *. unfold json_number.
    destruct (Ascii.eqb_spec c "-") as [->|]; [done|exact H].
Qed.

Lemma json_string_plain s rest fuel :
  plain s = true -> (String.length s < fuel)%nat ->
  json_string fuel (s +:+ String "034" rest) = Some (s, rest).
Proof.
  unfold plain. revert fuel. induction s as [|c s IH]; intros [|f] Hp Hf; cbn [String.length] in Hf; try lia.
  - done.
  - cbn [str_forall] in Hp. boolify. unfold plain_char in H. boolify. cbn [String.append json_string].
    rewrite (proj2 (Z.eqb_neq _ 34)), (proj2 (Z.ltb_ge _ 32)), (proj2 (Z.eqb_neq _ 92)) by done.
    by rewrite IH by (done || lia).
Qed.

(** The first character of a written value. *)
Definition head_char (c : ascii) : bool :=
  (code c =? 34) || (code c =? 91) || (code c =? 123) || Ascii.eqb c "t" || Ascii.eqb c "f" || Ascii.eqb c "n"
  || is_digit c || Ascii.eqb c "-".

Lemma stringify_head v : jsonable v -> exists c r, JSON_stringify v = String c r /\ head_char c = true.
Proof.
  intros Hv. destruct v as [| |[]|[z|]|s|l|l]; try done; try (eexists _, _; split; [reflexivity|done]).
  cbn [JSON_stringify]. destruct (Z.ltb_spec z 0).
  - eexists _, _. unfold dec. rewrite (proj2 (Z.ltb_lt z 0)) by done. by split; [reflexivity|].
  - destruct (dec_nonneg_head z ltac:(lia)) as (c & r & E & Hc). exists c, r. split; [done|].
    unfold head_char. by rewrite Hc, !orb_true_r.
Qed.

Lemma head_char_spec c :
  head_char c = true -> json_ws c = false /\ code c <> 93 /\ code c <> 125 /\ code c <> 44.
Proof.
  assert (H : forall c, (negb (head_char c) || (negb (json_ws c) && negb (code c =? 93) && negb (code c =? 125)
     && negb (code c =? 44))) = true) by (apply all_ascii_spec; by vm_compute).
  intros Hc. specialize (H c). rewrite Hc in H. cbn [negb orb] in H. boolify. done.
Qed.

Definition reads (v : js) : Prop :=
  forall f rest, (jfuel v <= f)%nat -> delim rest = true -> json_value f (JSON_stringify v +:+ rest) = Some (v, rest).

Lemma skip_ws_head c r : json_ws c = false -> skip_ws (String c r) = String c r.
Proof. intros H. cbn [skip_ws]. by rewrite H. Qed.

Lemma eat_char_head n c r : json_ws c = false -> code c <> n -> eat_char n (String c r) = None.
Proof. intros H Hn. unfold eat_char. rewrite skip_ws_head by done. by rewrite (proj2 (Z.eqb_neq _ _)). Qed.

Lemma elements_read l f rest :
  Forall reads l -> Forall jsonable l -> l <> [] -> (elems_fuel l <= f)%nat ->
  json_elements f (join "," (map JSON_stringify l) +:+ String "]" rest) = Some (l, rest).
Proof.
  revert f. induction l as [|x l IH]; intros f Hr Hj Hne Hf; [done|]. cbn [elems_fuel fold_right] in Hf.
  destruct f as [|f]; [lia|]. apply Forall_cons in Hr as [Hx Hr]. apply Forall_cons in Hj as [Hjx Hj].
  cbn [json_elements map]. destruct l as [|y l].
  - cbn [map join]. rewrite Hx by (done || lia). done.
  - rewrite join_cons by done. rewrite !app_assoc_str. rewrite Hx by (done || lia).
    change ("," +:+ ?a) with (String "," a).
    assert (E : forall a, eat_char 93 (String "," a) = None /\ eat_char 44 (String "," a) = Some a) by done.
    cbn [String.append]. destruct (E (join "," (map JSON_stringify (y :: l)) +:+ String "]" rest)) as [-> ->].
    rewrite IH; [done..|]. cbn [elems_fuel fold_right] in *. lia.
Qed.

Lemma obj_set_new k v l : k ∉ map fst l -> obj_set k v l = l ++ [(k, v)].
Proof.
  induction l as [|[k' x] l IH]; cbn [obj_set map fst app]; [done|]. intros H.
  apply not_elem_of_cons in H as [Hne H]. destruct (String.eqb_spec k' k); [by subst|]. by rewrite IH.
Qed.

Definition write_field (kv : string * js) : string := quote (fst kv) +:+ ":" +:+ JSON_stringify (snd kv).

Lemma members_read l f acc rest :
  Forall (fun kx => reads (snd kx)) l -> Forall (fun kx => plain (fst kx) = true /\ jsonable (snd kx)) l ->
  NoDup (map fst (acc ++ l)) -> l <> [] -> (membs_fuel l <= f)%nat ->
  json_members f acc (join "," (map write_field l) +:+ String "}" rest) = Some (acc ++ l, rest).
Proof.
  revert f acc. induction l as [|[k x] l IH]; intros f acc Hr Hj Hnd Hne Hf; [done|].
  cbn [membs_fuel fold_right snd] in Hf. destruct f as [|f]; [lia|].
  apply Forall_cons in Hr as [Hx Hr]. apply Forall_cons in Hj as [[Hk Hjx] Hj]. cbn [fst snd] in *.
  assert (Hknew : k ∉ map fst acc).
  { rewrite map_app in Hnd. apply NoDup_app in Hnd as (_ & Hd & _). intros Hin. apply (Hd k Hin). cbn. by left. }
  assert (Hstep : forall tail, delim tail = true ->
     json_members (S f) acc (write_field (k, x) +:+ tail)
     = match eat_char 125 tail, eat_char 44 tail with
       | Some r', _ => Some (acc ++ [(k, x)], r')
       | None, Some r' => json_members f (acc ++ [(k, x)]) r'
       | None, None => None
       end).
  { intros tail Ht. unfold write_field, quote. cbn [fst snd String.append json_members].
    match goal with |- context [eat_char 34 (String "034" ?a)] => change (eat_char 34 (String "034" a)) with (Some a) end.
    cbv iota beta. rewrite !app_assoc_str. cbn [String.append].
    rewrite json_string_plain; [|done|rewrite !length_app_str; cbn [String.length]; lia].
    match goal with |- context [eat_char 58 (String ":" ?a)] => change (eat_char 58 (String ":" a)) with (Some a) end.
    cbv iota beta. rewrite Hx by (done || lia). by rewrite obj_set_new. }
  cbn [map]. destruct l as [|[k2 x2] l].
  - cbn [map join]. by rewrite Hstep.
  - rewrite join_cons by done. rewrite !app_assoc_str. cbn [String.append]. rewrite Hstep by done.
    assert (E : forall a, eat_char 125 (String "," a) = None /\ eat_char 44 (String "," a) = Some a) by done.
    match goal with |- context [eat_char 125 (String "," ?a)] => destruct (E a) as [-> ->] end.
    rewrite (IH f (acc ++ [(k, x)])); [by rewrite <- app_assoc|done|done|by rewrite <- app_assoc|done|].
    cbn [membs_fuel fold_right] in *. lia.
Qed.

Lemma value_read v : jsonable v -> reads v.
Proof.
  induction v as [v Hv|l IH|l IH] using js_nested_ind; intros Hj f rest Hf Hd.
  - destruct v as [| |b|[z|]|s|l|l]; try (exfalso; done); (destruct f as [|f]; [cbn in Hf; lia|]).
    + done.
    + by destruct b.
    + cbn [JSON_stringify jsonable] in *. pose proof (json_number_dec z rest Hj Hd) as Hn.
      destruct (stringify_head (JNum (NInt z)) Hj) as (c & r & E & Hc). cbn [JSON_stringify] in E. rewrite E in *.
      cbn [String.append] in *. destruct (head_char_spec c Hc) as (Hw & _).
      assert (Hnum : is_digit c || Ascii.eqb c "-" = true).
      { pose proof (dec_chars z) as Hdc. rewrite E in Hdc. cbn [str_forall] in Hdc. by boolify. }
      assert (Hno : (code c =? 34) = false /\ (code c =? 91) = false /\ (code c =? 123) = false
         /\ Ascii.eqb "t" c = false /\ Ascii.eqb "f" c = false /\ Ascii.eqb "n" c = false).
      { assert (H : forall c, (negb (is_digit c || Ascii.eqb c "-") || (negb (code c =? 34) && negb (code c =? 91)
          && negb (code c =? 123) && negb (Ascii.eqb "t" c) && negb (Ascii.eqb "f" c) && negb (Ascii.eqb "n" c))) = true)
          by (apply all_ascii_spec; by vm_compute).
        specialize (H c). rewrite Hnum in H. cbn [negb orb] in H. rewrite !andb_true_iff, !negb_true_iff in H. tauto. }
      destruct Hno as (H1 & H2 & H3 & H4 & H5 & H6).
      cbn [json_value]. rewrite skip_ws_head by done. cbv zeta. rewrite H1, H2, H3.
      cbn [eat]. rewrite H4, H5, H6. by rewrite Hn.
    + cbn [JSON_stringify]. unfold quote. cbn [String.append json_value].
      rewrite skip_ws_head by done. cbv zeta. change (code "034" =? 34) with true. cbv iota beta.
      rewrite app_assoc_str. cbn [String.append].
      rewrite json_string_plain; [done|done|cbn [String.length]; rewrite length_app_str; cbn [String.length]; lia].
  - apply jsonable_arr in Hj. rewrite jfuel_arr in Hf. destruct f as [|f]; [lia|].
    cbn [JSON_stringify]. cbn [String.append json_value]. rewrite skip_ws_head by done. cbv zeta.
    change (code "[" =? 34) with false. change (code "[" =? 91) with true. cbv iota beta.
    rewrite app_assoc_str. cbn [String.append]. destruct l as [|x l]; [done|].
    assert (He : eat_char 93 (join "," (map JSON_stringify (x :: l)) +:+ String "]" rest) = None).
    { destruct (stringify_head x ltac:(by inversion Hj)) as (c & r & E & Hc). destruct (head_char_spec c Hc) as (Hw & Hn & _).
      destruct l as [|y l]; [cbn [map join]|cbn [map]; rewrite join_cons by done]; rewrite E; by apply eat_char_head. }
    rewrite He. rewrite elements_read; [done| |done|done|lia].
    apply Forall_forall. intros y Hy. rewrite Forall_forall in IH, Hj. apply IH; auto.
  - apply jsonable_obj in Hj as [Hnd Hj]. rewrite jfuel_obj in Hf. destruct f as [|f]; [lia|].
    cbn [JSON_stringify]. cbn [String.append json_value]. rewrite skip_ws_head by done. cbv zeta.
    change (code "{" =? 34) with false. change (code "{" =? 91) with false. change (code "{" =? 123) with true. cbv iota beta.
    rewrite app_assoc_str. cbn [String.append]. destruct l as [|[k x] l]; [done|].
    change (map _ ((k, x) :: l)) with (map write_field ((k, x) :: l)).
    assert (He : eat_char 125 (join "," (map write_field ((k, x) :: l)) +:+ String "}" rest) = None).
    { destruct l as [|y l]; [cbn [map join]|cbn [map]; rewrite join_cons by done]; apply eat_char_head; done. }
    rewrite He. rewrite (members_read _ f []); [done| |done|done|done|lia].
    apply Forall_forall. intros y Hy. rewrite Forall_forall in IH, Hj. apply IH; [done|]. by apply Hj.
Qed.

Lemma fuel_join (w : js -> string) l :
  Forall (fun x => (jfuel x <= String.length (w x))%nat) l ->
  (elems_fuel l <= String.length (join "," (map w l)) + 1)%nat.
Proof.
  induction 1 as [|x l Hx Hl IH]; [cbn; lia|]. cbn [elems_fuel fold_right map].
  change (fold_right (fun x acc => S (Nat.max (jfuel x) acc)) 0%nat l) with (elems_fuel l). destruct l as [|y l].
  - cbn [map join elems_fuel fold_right]. lia.
  - rewrite join_cons by done. rewrite !length_app_str. cbn [String.length] in *. lia.
Qed.

Lemma fuel_join_fields l :
  Forall (fun kx => (jfuel (snd kx) <= String.length (JSON_stringify (snd kx)))%nat) l ->
  (membs_fuel l <= String.length (join "," (map write_field l)) + 1)%nat.
Proof.
  induction 1 as [|[k x] l Hx Hl IH]; [cbn; lia|]. cbn [membs_fuel fold_right map snd] in *.
  change (fold_right (fun kx acc => S (Nat.max (jfuel (snd kx)) acc)) 0%nat l) with (membs_fuel l).
  assert (Hw : (jfuel x <= String.length (write_field (k, x)))%nat).
  { unfold write_field. cbn [fst snd]. rewrite !length_app_str. lia. }
  destruct l as [|y l].
  - cbn [map join membs_fuel fold_right]. lia.
  - rewrite join_cons by done. rewrite !length_app_str. cbn [String.length] in *. lia.
Qed.

Lemma jfuel_length v : jsonable v -> (jfuel v <= String.length (JSON_stringify v))%nat.
Proof.
  induction v as [v Hv|l IH|l IH] using js_nested_ind; intros Hj.
  - destruct (stringify_head v Hj) as (c & r & -> & _). cbn [String.length]. by destruct v; try (cbn; lia).
  - apply jsonable_arr in Hj. rewrite jfuel_arr. cbn [JSON_stringify]. rewrite !length_app_str. cbn [String.length].
    rewrite Forall_forall in IH, Hj.
    pose proof (fuel_join JSON_stringify l ltac:(apply Forall_forall; auto)). lia.
  - apply jsonable_obj in Hj as [_ Hj]. rewrite jfuel_obj. cbn [JSON_stringify].
    change (map _ l) with (map write_field l). rewrite !length_app_str. cbn [String.length].
    rewrite Forall_forall in IH, Hj.
    pose proof (fuel_join_fields l ltac:(apply Forall_forall; intros x Hx; apply IH; [done|]; by apply Hj)). lia.
Qed.

(** Reading back what was written gives the same value. *)
Lemma JSON_parse_stringify v : jsonable v -> JSON_parse (JSON_stringify v) = Some v.
Proof.
  intros Hj. unfold JSON_parse. pose proof (value_read v Hj (S (S (String.length (JSON_stringify v)))) "") as H.
  rewrite app_nil_r_str in H. rewrite H; [done| |done]. pose proof (jfuel_length v Hj). lia.
Qed.
