(* ===== verification/NodeNet.v ===== *)
(** * Node's [net.isIP]

    [net.isIP(s)] of the Node standard library: 4 for a dotted quad without leading
    zeros, 6 for an RFC 4291 text form (eight hextets, at most one [::], an optional
    trailing dotted quad, an optional [%zone]), 0 otherwise. *)

From S2P Require Import Prelude JsString.

(** [25[0-5]|2[0-4]\d|1\d\d|[1-9]\d|\d] *)
Definition v4_seg (s : string) : bool :=
  match s with
  | String c EmptyString => is_digit c
  | String c t => is_digit19 c && str_forall is_digit t && (digits_value 10 s <=? 255)
                  && (String.length s <=? 3)%nat
  | EmptyString => false
  end.

Definition is_ipv4 (s : string) : bool :=
  let parts := split "." s in (length parts =? 4)%nat && forallb v4_seg parts.

(** [[0-9a-fA-F]{1,4}] *)
Definition v6_seg (s : string) : bool :=
  negb (is_empty s) && (String.length s <=? 4)%nat && str_forall is_hex s.

Definition pieces (s : string) : list string := if is_empty s then [] else split ":" s.

(** Number of hextets a piece list stands for; only the last piece may be a dotted quad. *)
Fixpoint v6_width (l : list string) : option nat :=
  match l with
  | [] => Some O
  | [x] => if v6_seg x then Some 1%nat else if is_ipv4 x then Some 2%nat else None
  | x :: r => if v6_seg x then option_map S (v6_width r) else None
  end.

Definition is_ipv6_body (s : string) : bool :=
  match cut_double ":" s with
  | None => match v6_width (pieces s) with Some n => (n =? 8)%nat | None => false end
  | Some (l, r) =>
      forallb v6_seg (pieces l)
      && match v6_width (pieces r) with
         | Some n => (length (pieces l) + n <=? 7)%nat
         | None => false
         end
  end.

Definition zone_char (c : ascii) : bool :=
  is_alnum c || Ascii.eqb c "-" || Ascii.eqb c "." || Ascii.eqb c ":".

Definition is_ipv6 (s : string) : bool :=
  match split "%" s with
  | [a] => is_ipv6_body a
  | [a; z] => is_ipv6_body a && negb (is_empty z) && str_forall zone_char z
  | _ => false
  end.

Definition isIP (s : string) : Z := if is_ipv4 s then 4 else if is_ipv6 s then 6 else 0.

(** A string without a colon is no IPv6 address. *)
Lemma is_ipv6_needs_colon s : str_includes ":" s = false -> str_includes "%" s = false -> is_ipv6 s = false.
Proof.
  intros Hc Hp. unfold is_ipv6. rewrite split_absent by done. unfold is_ipv6_body, pieces.
  rewrite cut_double_includes by done. destruct (is_empty s) eqn:Es; [done|]. rewrite split_absent by done. simpl.
    destruct (v6_seg s); [done|]. by destruct (is_ipv4 s).
Qed.
