(* ===== verification/IpValidation.v ===== *)
(** * IP and CIDR validation ([server/src/utils/ipValidation.ts])

    Strict syntax, canonical form and policy of ban targets. The definitions follow the
    file: [parse_text] is [parseIpOrCidr] on a string, addresses are big integers ([Z]),
    a parsed network keeps its address as canonical text. The theorems relate the text
    and the masks to intervals of addresses: printing and parsing are inverse, overlap
    and containment are overlap and containment of intervals, and an accepted ban target
    stays outside every reserved range and under the prefix floor. *)

From S2P Require Import Prelude JsString JsValue NodeNet.

(** ** Data *)

Inductive IpFamily := V4 | V6.
#[export] Instance IpFamily_eq_dec : EqDecision IpFamily.
Proof. solve_decision. Defined.

Record ParsedCidr := { address : string; family : IpFamily; prefix : Z }.
#[export] Instance ParsedCidr_eq_dec : EqDecision ParsedCidr.
Proof. solve_decision. Defined.

Record BanTarget := { bt_parsed : ParsedCidr; isNetwork : bool; cidr : string }.

Inductive BanTargetErrorCode := Invalid | Cidr_not_allowed | Too_broad | Reserved | Protected.
#[export] Instance BanTargetErrorCode_eq_dec : EqDecision BanTargetErrorCode.
Proof. solve_decision. Defined.

Inductive BanTargetResult :=
| BT_ok (target : BanTarget)
| BT_err (ec : BanTargetErrorCode) (message : string).

Definition DEFAULT_BAN_MIN_PREFIX_V4 : Z := 16.
Definition DEFAULT_BAN_MIN_PREFIX_V6 : Z := 48.

Definition RESERVED_OR_PROTECTED_MESSAGE : string :=
  "Reserved or protected address: it cannot be banned".

Definition RESERVED_BAN_RANGES : list string :=
  [ "0.0.0.0/8"; "127.0.0.0/8"; "169.254.0.0/16"; "224.0.0.0/4"; "240.0.0.0/4";
    "::/128"; "::1/128"; "fe80::/10"; "ff00::/8" ].

(** ** BigInt helpers *)

(** [V4_OCTET_RE] and [PREFIX_RE]: [/^(0|[1-9][0-9]{0,2})$/] *)
Definition V4_OCTET_RE (s : string) : bool :=
  match s with
  | String c EmptyString => is_digit c
  | String c t => is_digit19 c && str_forall is_digit t && (String.length t <=? 2)%nat
  | EmptyString => false
  end.
Definition PREFIX_RE (s : string) : bool := V4_OCTET_RE s.

Definition bits (f : IpFamily) : Z := match f with V4 => 32 | V6 => 128 end.

(** The loop over the octets: [v = (v << 8n) | BigInt(n)], [null] on a bad octet. *)
Fixpoint v4_octets (v : Z) (parts : list string) : option Z :=
  match parts with
  | [] => Some v
  | p :: r =>
      if negb (V4_OCTET_RE p) then None
      else let n := digits_value 10 p in
           if 255 <? n then None else v4_octets (Z.lor (Z.shiftl v 8) n) r
  end.

Definition v4ToBigInt (s : string) : option Z :=
  let parts := split "." s in
  if negb (length parts =? 4)%nat then None else v4_octets 0 parts.

(** [/^[0-9a-f]{1,4}$/] *)
Definition hextet_re (g : string) : bool :=
  negb (is_empty g) && (String.length g <=? 4)%nat && str_forall is_lower_hex g.

Fixpoint v6_groups (v : Z) (groups : list string) : option Z :=
  match groups with
  | [] => Some v
  | g :: r =>
      if negb (hextet_re g) then None
      else v6_groups (Z.lor (Z.shiftl v 16) (digits_value 16 g)) r
  end.

(** [s ? s.split(':') : []] *)
Definition split_or_empty (s : string) : list string := if is_empty s then [] else split ":" s.

(** A trailing dotted IPv4 rewritten as two hextets. *)
Definition v6_expand_tail (s : string) : option string :=
  let '(head, tail) := cut_last ":" s in
  if str_includes "." tail then
    match v4ToBigInt tail with
    | None => None
    | Some v4 =>
        let hi := hex (Z.land (Z.shiftr v4 16) 65535) in
        let lo := hex (Z.land v4 65535) in
        Some (head +:+ hi +:+ ":" +:+ lo)
    end
  else Some s.

(** The eight groups, [::] filled with ["0"]. *)
Definition v6_group_list (s : string) : option (list string) :=
  match cut_double ":" s with
  | Some (leftS, rightS) =>
      let left := split_or_empty leftS in
      let right := split_or_empty rightS in
      let fill := 8 - Z.of_nat (length left) - Z.of_nat (length right) in
      if fill <? 1 then None
      else Some (left ++ replicate (Z.to_nat fill) "0" ++ right)
  | None => Some (split ":" s)
  end.

Definition v6ToBigInt (raw : string) : option Z :=
  match v6_expand_tail (to_lower raw) with
  | None => None
  | Some s =>
      match v6_group_list s with
      | None => None
      | Some groups => if negb (length groups =? 8)%nat then None else v6_groups 0 groups
      end
  end.

Definition maskOf (f : IpFamily) (prefix : Z) : Z :=
  let total := bits f in
  if prefix <=? 0 then 0
  else let all := Z.shiftl 1 total - 1 in
       Z.shiftl (Z.shiftr all (total - prefix)) (total - prefix).

Definition renderV4 (v : Z) : string :=
  join "." (map (fun sh => dec (Z.land (Z.shiftr v sh) 255)) [24; 16; 8; 0]).

(** [for (let i = 7; i >= 0; i--) groups.push(Number((v >> BigInt(i * 16)) & 0xffffn))] *)
Definition v6_hextets (v : Z) : list Z :=
  map (fun i => Z.land (Z.shiftr v (i * 16)) 65535) [7; 6; 5; 4; 3; 2; 1; 0].

(** The inner [while]: zero hextets from the head on. *)
Fixpoint zero_run (groups : list Z) : nat :=
  match groups with
  | g :: r => if g =? 0 then S (zero_run r) else O
  | [] => O
  end.

(** The outer [for]: [i] moves on by at least one per turn, eight turns are enough. *)
Fixpoint best_zero_run (fuel i : nat) (groups : list Z) (bestStart : Z) (bestLen : nat) : Z * nat :=
  match fuel with
  | O => (bestStart, bestLen)
  | S fuel =>
      if (8 <=? i)%nat then (bestStart, bestLen)
      else if negb (nth i groups 0 =? 0) then best_zero_run fuel (S i) groups bestStart bestLen
      else let j := (i + zero_run (drop i groups))%nat in
           if (bestLen <? j - i)%nat
           then best_zero_run fuel j groups (Z.of_nat i) (j - i)
           else best_zero_run fuel j groups bestStart bestLen
  end.

(** RFC 5952: the leftmost longest run of at least two zero hextets as [::]. *)
Definition renderV6 (v : Z) : string :=
  let groups := v6_hextets v in
  let '(bestStart, bestLen) := best_zero_run 8 0 groups (-1) 0 in
  let hexes := map hex groups in
  if (bestLen <? 2)%nat then join ":" hexes
  else let left := join ":" (take (Z.to_nat bestStart) hexes) in
       let right := join ":" (drop (Z.to_nat bestStart + bestLen) hexes) in
       left +:+ "::" +:+ right.

Definition render (f : IpFamily) (v : Z) : string :=
  match f with V4 => renderV4 v | V6 => renderV6 v end.

Definition textToBigInt (f : IpFamily) (s : string) : option Z :=
  match f with V4 => v4ToBigInt s | V6 => v6ToBigInt s end.

Definition valueOf (p : ParsedCidr) : Z := default 0 (textToBigInt (family p) (address p)).

(** ** Environment floors *)

(** The process environment. *)
Abbreviation env_t := (string -> option string).

Definition readFloor (env : env_t) (name : string) (def min max : Z) : Z :=
  match env name with
  | None => def
  | Some raw =>
      let s := trim raw in
      if is_empty s then def
      else if negb ((1 <=? String.length s)%nat && (String.length s <=? 3)%nat && str_forall is_digit s) then def
      else let n := digits_value 10 s in
           if (n <? min) || (max <? n) then Z.min max (Z.max min n) else n
  end.

Record PrefixFloor := { floor_v4 : Z; floor_v6 : Z }.

Definition banPrefixFloor (env : env_t) : PrefixFloor :=
  {| floor_v4 := readFloor env "BAN_MIN_PREFIX_V4" DEFAULT_BAN_MIN_PREFIX_V4 8 32;
     floor_v6 := readFloor env "BAN_MIN_PREFIX_V6" DEFAULT_BAN_MIN_PREFIX_V6 16 128 |}.

Definition floor_of (fl : PrefixFloor) (f : IpFamily) : Z :=
  match f with V4 => floor_v4 fl | V6 => floor_v6 fl end.

(** ** Parsing *)

(** The prefix length of the split input, [None] when refused. *)
Definition parse_prefix (f : IpFamily) (parts : list string) : option Z :=
  match parts with
  | [_; t] =>
      if negb (PREFIX_RE t) then None
      else let p := digits_value 10 t in if bits f <? p then None else Some p
  | _ => Some (bits f)
  end.

(** IPv4-mapped IPv6 ([::ffff:a.b.c.d]) to plain IPv4. *)
Definition unmap_v4 (f : IpFamily) (prefix value : Z) : option (IpFamily * Z * Z) :=
  match f with
  | V6 =>
      if Z.shiftr value 32 =? 65535
      then if prefix <? 96 then None
           else Some (V4, prefix - 96, Z.land value 4294967295)
      else Some (f, prefix, value)
  | V4 => Some (f, prefix, value)
  end.

(** [parseIpOrCidr] on a string. *)
Definition parse_text (raw : string) : option ParsedCidr :=
  let s := trim raw in
  if is_empty s || (64 <? String.length s)%nat || str_exists is_ws s || str_includes "%" s then None
  else
    let parts := split "/" s in
    if (2 <? length parts)%nat then None
    else
      let addr := nth 0 parts "" in
      let fam := isIP addr in
      if fam =? 0 then None
      else
        let f := if fam =? 4 then V4 else V6 in
        match parse_prefix f parts with
        | None => None
        | Some p =>
            match textToBigInt f addr with
            | None => None
            | Some value =>
                match unmap_v4 f p value with
                | None => None
                | Some (f, p, value) =>
                    let value := Z.land value (maskOf f p) in
                    Some {| address := render f value; family := f; prefix := p |}
                end
            end
        end.

Definition parseIpOrCidr (raw : js) : option ParsedCidr :=
  match raw with JStr s => parse_text s | _ => None end.

(** True when both networks share at least one address (same family). *)
Definition cidrOverlaps (pa pb : ParsedCidr) : bool :=
  if negb (bool_decide (family pa = family pb)) then false
  else let m := maskOf (family pa) (Z.min (prefix pa) (prefix pb)) in
       Z.land (valueOf pa) m =? Z.land (valueOf pb) m.

(** True when [outer] contains the whole of [inner]. *)
Definition cidrContains (po pi : ParsedCidr) : bool :=
  (prefix po <=? prefix pi) && cidrOverlaps po pi.

(** The same on text ([toParsed]); unparsable text never matches. *)
Definition cidrOverlaps_text (a b : string) : bool :=
  match parse_text a, parse_text b with Some pa, Some pb => cidrOverlaps pa pb | _, _ => false end.
Definition cidrContains_text (outer inner : string) : bool :=
  match parse_text outer, parse_text inner with
  | Some po, Some pi => cidrContains po pi
  | _, _ => false
  end.

(** The module would throw at load on an unparsable range; [RESERVED_PARSED_complete]
    shows that none is dropped. *)
Definition RESERVED_PARSED : list ParsedCidr := omap parse_text RESERVED_BAN_RANGES.

Definition isReservedBanTarget (p : ParsedCidr) : bool :=
  existsb (fun r => cidrOverlaps r p) RESERVED_PARSED.

Definition family_name (f : IpFamily) : string := match f with V4 => "4" | V6 => "6" end.

(** Syntax and policy of a ban target, in this order: invalid, subnet not allowed, too
    broad, reserved. *)
Definition parseBanTarget (raw : js) (allowCidr : bool) (env : env_t) : BanTargetResult :=
  match parseIpOrCidr raw with
  | None => BT_err Invalid "Invalid IP address or subnet"
  | Some p =>
      let isNetwork := prefix p <? bits (family p) in
      if isNetwork && negb allowCidr
      then BT_err Cidr_not_allowed "Subnets are not accepted here: give a single IP address"
      else
        let floor := floor_of (banPrefixFloor env) (family p) in
        if prefix p <? floor
        then BT_err Too_broad ("Subnet too broad: the widest bannable network is /"
                               +:+ dec floor +:+ " for IPv" +:+ family_name (family p))
        else if isReservedBanTarget p then BT_err Reserved RESERVED_OR_PROTECTED_MESSAGE
        else BT_ok {| bt_parsed := p; isNetwork := isNetwork;
                      cidr := if isNetwork then address p +:+ "/" +:+ dec (prefix p) else address p |}
  end.

(** The raw target of a stored ban row. *)
Definition banTargetRawFromRow (ip : string) (cidrPrefix : option Z) : string :=
  if str_includes "/" ip then ip
  else match cidrPrefix with Some n => ip +:+ "/" +:+ dec n | None => ip end.

(** ** Masks and intervals *)

Lemma bits_pos f : 0 < bits f. Proof. by destruct f. Qed.

(** Masking rounds down to a multiple of the network's size. *)
Lemma land_maskOf f p v :
  0 <= p <= bits f -> 0 <= v < 2 ^ bits f ->
  Z.land v (maskOf f p) = v / 2 ^ (bits f - p) * 2 ^ (bits f - p).
Proof.
  intros Hp Hv. unfold maskOf. destruct (Z.leb_spec p 0).
  - replace p with 0 by lia. rewrite Z.sub_0_r, Z.div_small by lia. by rewrite Z.land_0_r.
  - rewrite Z.shiftl_1_l. apply land_high_mask; [pose proof (bits_pos f)|]; lia.
Qed.

Definition size_of (p : ParsedCidr) : Z := 2 ^ (bits (family p) - prefix p).

(** The addresses of a network: an interval starting at its address. *)
Definition in_cidr (p : ParsedCidr) (x : Z) : Prop := valueOf p <= x < valueOf p + size_of p.

(** What a parsed network is: a prefix in bounds, and the canonical text of an address
    without host bits that is not an IPv4-mapped one. *)
Record wf_cidr (p : ParsedCidr) : Prop := {
  wf_prefix : 0 <= prefix p <= bits (family p);
  wf_range : 0 <= valueOf p < 2 ^ bits (family p);
  wf_host : valueOf p mod size_of p = 0;
  wf_text : address p = render (family p) (valueOf p);
  wf_unmapped : family p = V6 -> valueOf p / 2 ^ 32 <> 65535
}.

(** ** Dotted quads *)

Lemma octet_spec n :
  0 <= n <= 255 ->
  V4_OCTET_RE (dec n) = true /\ v4_seg (dec n) = true /\ digits_value 10 (dec n) = n
  /\ str_forall is_digit (dec n) = true.
Proof.
  intros Hn.
  assert (H : forallb (fun k => let n := Z.of_nat k in
     V4_OCTET_RE (dec n) && v4_seg (dec n) && (digits_value 10 (dec n) =? n)
     && str_forall is_digit (dec n)) (seq 0 256) = true) by (vm_compute; reflexivity).
  rewrite forallb_forall in H. specialize (H (Z.to_nat n)). cbv zeta in H.
  rewrite Z2Nat.id, in_seq in H by lia. specialize (H ltac:(lia)). boolify. done.
Qed.

Lemma digits_no_char (p : ascii -> bool) c s :
  str_forall p s = true -> p c = false -> str_includes c s = false.
Proof.
  intros Hs Hc. unfold str_includes. apply (str_forall_no_exists p); [|done].
  intros a Ha. apply Ascii.eqb_neq. intros ->. congruence.
Qed.

Definition octets (v : Z) : list Z :=
  map (fun sh => Z.land (Z.shiftr v sh) 255) [24; 16; 8; 0].

Lemma octet_bound v sh : 0 <= sh -> 0 <= Z.land (Z.shiftr v sh) 255 <= 255.
Proof.
  intros. change 255 with (Z.ones 8). rewrite shiftr_land_ones by lia.
  change (Z.ones 8) with 255.
  pose proof (Z.mod_pos_bound (v / 2 ^ sh) (2 ^ 8) ltac:(lia)). lia.
Qed.

Lemma octets_bound v : Forall (fun n => 0 <= n <= 255) (octets v).
Proof. unfold octets. repeat constructor; apply octet_bound; lia. Qed.

Lemma v4_octets_dec v ns :
  Forall (fun n => 0 <= n <= 255) ns ->
  v4_octets v (map dec ns) = Some (fold_left (fun v n => v * 256 + n) ns v).
Proof.
  intros H. revert v. induction H as [|n ns Hn Hns IH]; intros v; [done|].
  destruct (octet_spec n Hn) as (Hre & _ & Hv & _). cbn [v4_octets map fold_left].
  rewrite Hre, Hv. simpl negb. cbv iota. destruct (Z.ltb_spec 255 n); [lia|].
  rewrite lor_shiftl_add by lia. apply IH.
Qed.

Lemma split_renderV4 v : split "." (renderV4 v) = map dec (octets v).
Proof.
  unfold renderV4. rewrite <- (map_map (fun sh => Z.land (Z.shiftr v sh) 255) dec).
  apply split_join; [done|]. apply Forall_map.
  eapply Forall_impl; [apply octets_bound|]. intros n Hn.
  destruct (octet_spec n Hn) as (_ & _ & _ & Hd). by apply (digits_no_char is_digit).
Qed.

Lemma v4ToBigInt_renderV4 v : 0 <= v < 2 ^ 32 -> v4ToBigInt (renderV4 v) = Some v.
Proof.
  intros Hv. unfold v4ToBigInt. rewrite split_renderV4, length_map.
  change (length (octets v)) with 4%nat. cbn [Nat.eqb negb]. rewrite v4_octets_dec by apply octets_bound.
  f_equal. etransitivity; [|apply (fold_digits 8 v 4); lia].
  rewrite (Z.div_small v (2 ^ (Z.of_nat 4 * 8))) by done.
  unfold octets. change 255 with (Z.ones 8). cbn [map fold_left countdown].
  rewrite !shiftr_land_ones by lia. reflexivity.
Qed.

Lemma is_ipv4_renderV4 v : is_ipv4 (renderV4 v) = true.
Proof.
  unfold is_ipv4. rewrite split_renderV4, length_map. apply andb_true_iff. split; [done|].
  apply forallb_forall. intros s Hs. apply in_map_iff in Hs as (n & <- & Hn).
  pose proof (octets_bound v) as H. rewrite Forall_forall in H.
  apply octet_spec, H. by apply list_elem_of_In.
Qed.

Lemma v4_octets_bound k v parts r :
  0 <= k -> 0 <= v < 2 ^ k -> v4_octets v parts = Some r ->
  0 <= r < 2 ^ (k + 8 * Z.of_nat (length parts)).
Proof.
  revert k v. induction parts as [|p parts IH]; intros k v Hk Hv H; cbn [v4_octets length] in H |- *.
  - simplify_eq. by rewrite Z.add_0_r.
  - case_in H; [done|]. case_in H; [done|]. boolify.
    assert (0 <= digits_value 10 p) by (apply digits_value_nonneg; lia).
    rewrite lor_shiftl_add in H by lia.
    apply (IH (k + 8)) in H; [|lia|rewrite Z.pow_add_r by lia; lia].
    replace (k + 8 * Z.of_nat (S (length parts))) with (k + 8 + 8 * Z.of_nat (length parts)) by lia.
    done.
Qed.

Lemma v4ToBigInt_bound s v : v4ToBigInt s = Some v -> 0 <= v < 2 ^ 32.
Proof.
  unfold v4ToBigInt. intros H. case_in H; [done|]. boolify.
  apply (v4_octets_bound 0) in H; [|lia|lia]. by replace (length (split "." s)) with 4%nat in H.
Qed.

(** ** Hextets *)

Lemma hextet_bound v i : 0 <= i -> 0 <= Z.land (Z.shiftr v (i * 16)) 65535 <= 65535.
Proof.
  intros. change 65535 with (Z.ones 16). rewrite shiftr_land_ones by lia.
  change (Z.ones 16) with 65535.
  pose proof (Z.mod_pos_bound (v / 2 ^ (i * 16)) (2 ^ 16) ltac:(lia)). lia.
Qed.

Lemma v6_hextets_bound v : Forall (fun n => 0 <= n <= 65535) (v6_hextets v).
Proof. unfold v6_hextets. repeat constructor; apply hextet_bound; lia. Qed.

Lemma hextet_spec n :
  0 <= n <= 65535 ->
  hextet_re (hex n) = true /\ v6_seg (hex n) = true /\ digits_value 16 (hex n) = n
  /\ str_forall is_lower_hex (hex n) = true /\ piece ":" (hex n)
  /\ (String.length (hex n) <= 4)%nat.
Proof.
  intros Hn. pose proof (hex_digits n ltac:(lia)) as Hd.
  pose proof (hex_length n 4 ltac:(lia) ltac:(lia)) as Hl.
  assert (He : is_empty (hex n) = false) by (apply to_base_nonempty).
  unfold hextet_re, v6_seg, piece. rewrite He, Hd. simpl negb.
  rewrite (proj2 (Nat.leb_le _ _) Hl). repeat split; try done.
  - apply (str_forall_impl is_lower_hex); [|done]. intros c Hc. unfold is_hex. by rewrite Hc.
  - apply hex_value; lia.
  - by apply (digits_no_char is_lower_hex).
Qed.

Lemma v6_groups_hex v ns :
  Forall (fun n => 0 <= n <= 65535) ns ->
  v6_groups v (map hex ns) = Some (fold_left (fun v n => v * 65536 + n) ns v).
Proof.
  intros H. revert v. induction H as [|n ns Hn Hns IH]; intros v; [done|].
  destruct (hextet_spec n Hn) as (Hre & _ & Hv & _). cbn [v6_groups map fold_left].
  rewrite Hre, Hv. simpl negb. cbv iota. rewrite lor_shiftl_add by lia. apply IH.
Qed.

Lemma fold_hextets v :
  0 <= v < 2 ^ 128 -> fold_left (fun v n => v * 65536 + n) (v6_hextets v) 0 = v.
Proof.
  intros Hv. etransitivity; [|apply (fold_digits 16 v 8); lia].
  rewrite (Z.div_small v (2 ^ (Z.of_nat 8 * 16))) by done.
  unfold v6_hextets. change 65535 with (Z.ones 16). cbn [map fold_left countdown].
  rewrite !shiftr_land_ones by lia. reflexivity.
Qed.

Lemma v6_groups_bound k v groups r :
  0 <= k -> 0 <= v < 2 ^ k -> v6_groups v groups = Some r ->
  0 <= r < 2 ^ (k + 16 * Z.of_nat (length groups)).
Proof.
  revert k v. induction groups as [|g groups IH]; intros k v Hk Hv H; cbn [v6_groups length] in H |- *.
  - simplify_eq. by rewrite Z.add_0_r.
  - case_in H; [done|]. unfold hextet_re in Heqb. boolify.
    assert (0 <= digits_value 16 g < 2 ^ 16).
    { split; [apply digits_value_nonneg; lia|].
      eapply Z.lt_le_trans; [apply (digits_value_bound 16 is_lower_hex); [lia| |lia|done]|].
      - intros c Hc. unfold is_lower_hex, digit_val, is_digit, in_range in *.
        repeat case_match; boolify; simpl in Hc; boolify; lia.
      - change (2 ^ 16) with (16 ^ 4). rewrite Z.mul_1_l. apply Z.pow_le_mono_r; lia. }
    rewrite lor_shiftl_add in H by lia.
    apply (IH (k + 16)) in H; [|lia|rewrite Z.pow_add_r by lia; lia].
    replace (k + 16 * Z.of_nat (S (length groups))) with (k + 16 + 16 * Z.of_nat (length groups)) by lia.
    done.
Qed.

Lemma v6ToBigInt_bound s v : v6ToBigInt s = Some v -> 0 <= v < 2 ^ 128.
Proof.
  unfold v6ToBigInt. intros H. case_in H; [|done]. case_in H; [|done]. case_in H; [done|]. boolify.
  apply (v6_groups_bound 0) in H; [|lia|lia].
  by match goal with E : length _ = 8%nat |- _ => rewrite E in H end.
Qed.

(** *** The longest run of zeros *)

Lemma zero_run_take gs : take (zero_run gs) gs = replicate (zero_run gs) 0.
Proof.
  induction gs as [|g gs IH]; simpl; [done|]. destruct (Z.eqb_spec g 0) as [->|]; simpl; [|done].
  by rewrite IH.
Qed.

(** The run the loop reports is a run of zeros inside the groups. *)
Lemma best_zero_run_sound fuel i gs bs bl s l :
  (bl = 0%nat \/ (0 <= bs /\ take bl (drop (Z.to_nat bs) gs) = replicate bl 0)) ->
  best_zero_run fuel i gs bs bl = (s, l) ->
  l = 0%nat \/ (0 <= s /\ take l (drop (Z.to_nat s) gs) = replicate l 0).
Proof.
  revert i bs bl. induction fuel as [|fuel IH]; intros i bs bl Hb H; simpl in H; [by simplify_eq|].
  case_in H; [by simplify_eq|]. case_in H; [by eapply IH|]. case_in H; [|by eapply IH].
  eapply IH; [|exact H]. right. split; [lia|]. rewrite Nat2Z.id, Nat.add_comm, Nat.add_sub.
  apply zero_run_take.
Qed.

(** *** The printed form of an IPv6 address *)

(** A printed address joins its hextets, or elides a run of at least two zero hextets. *)
Lemma renderV6_shape v :
  renderV6 v = join ":" (map hex (v6_hextets v))
  \/ exists l n r, (2 <= n)%nat /\ v6_hextets v = l ++ replicate n 0 ++ r
     /\ renderV6 v = join ":" (map hex l) +:+ "::" +:+ join ":" (map hex r).
Proof.
  unfold renderV6. destruct (best_zero_run 8 0 (v6_hextets v) (-1) 0) as [bs bl] eqn:E.
  destruct (Nat.ltb_spec bl 2); [by left|right].
  apply best_zero_run_sound in E as [->|[Hbs Ht]]; [lia| |by left].
  set (k := Z.to_nat bs) in *.
  exists (take k (v6_hextets v)), bl, (drop (k + bl) (v6_hextets v)).
  split; [done|]. split.
  - rewrite <- Ht, <- drop_drop, take_drop. by rewrite take_drop.
  - by rewrite fmap_take, fmap_drop.
Qed.

Lemma hexes_pieces l : Forall (fun n => 0 <= n <= 65535) l -> Forall (piece ":") (map hex l).
Proof. intros H. apply Forall_map. eapply Forall_impl; [exact H|]. intros n Hn. by apply hextet_spec. Qed.

Lemma split_or_empty_join l :
  Forall (fun n => 0 <= n <= 65535) l -> split_or_empty (join ":" (map hex l)) = map hex l.
Proof.
  intros H. pose proof (hexes_pieces l H) as Hp. unfold split_or_empty.
  destruct l as [|n l]; [done|]. rewrite join_pieces_nonempty by done.
  apply split_join; [done|]. eapply Forall_impl; [exact Hp|]. by intros ? [].
Qed.

Definition v6_char (c : ascii) : bool := is_lower_hex c || Ascii.eqb c ":".

Lemma join_hex_chars l :
  Forall (fun n => 0 <= n <= 65535) l -> str_forall v6_char (join ":" (map hex l)) = true.
Proof.
  intros H. apply join_forall; [done|]. apply Forall_map.
  eapply Forall_impl; [exact H|]. intros n Hn.
  apply (str_forall_impl is_lower_hex); [|by apply hextet_spec].
  intros c Hc. unfold v6_char. by rewrite Hc.
Qed.

Lemma join_hex_length l :
  Forall (fun n => 0 <= n <= 65535) l -> (String.length (join ":" (map hex l)) <= 5 * length l)%nat.
Proof.
  intros H. rewrite <- (length_map hex l). apply (join_length 4 ":"). apply Forall_map.
  eapply Forall_impl; [exact H|]. intros n Hn. by apply hextet_spec.
Qed.

Lemma renderV6_facts v :
  str_forall v6_char (renderV6 v) = true /\ (String.length (renderV6 v) <= 42)%nat
  /\ is_empty (renderV6 v) = false.
Proof.
  pose proof (v6_hextets_bound v) as Hb.
  destruct (renderV6_shape v) as [->|(l & n & r & Hn & E & ->)].
  - split; [by apply join_hex_chars|]. split.
    + pose proof (join_hex_length _ Hb). change (length (v6_hextets v)) with 8%nat in H. lia.
    + by apply join_pieces_nonempty, hexes_pieces.
  - assert (Hlen : (length l + n + length r = 8)%nat).
    { transitivity (length (v6_hextets v)); [|done]. rewrite E, !length_app, length_replicate. lia. }
    rewrite E in Hb. apply Forall_app in Hb as [Hl Hb]. apply Forall_app in Hb as [_ Hr].
    rewrite !str_forall_app, !join_hex_chars by done. split; [done|].
    rewrite !length_app_str. change (String.length "::") with 2%nat.
    pose proof (join_hex_length _ Hl). pose proof (join_hex_length _ Hr).
    split; [lia|]. by destruct (join ":" (map hex l)).
Qed.

Lemma v6_char_spec c :
  v6_char c = true ->
  Ascii.eqb (char_lower c) c = true /\ Ascii.eqb "." c = false /\ Ascii.eqb "%" c = false
  /\ Ascii.eqb "/" c = false /\ is_ws c = false.
Proof.
  assert (H : all_ascii (fun c => implb (v6_char c)
    (Ascii.eqb (char_lower c) c && negb (Ascii.eqb "." c) && negb (Ascii.eqb "%" c)
     && negb (Ascii.eqb "/" c) && negb (is_ws c))) = true) by (vm_compute; reflexivity).
  intros Hc. pose proof (all_ascii_spec _ H c) as Hs. cbv beta in Hs. rewrite Hc in Hs.
  cbn [implb] in Hs. boolify. done.
Qed.

Lemma renderV6_absent v c :
  c = "."%char \/ c = "%"%char \/ c = "/"%char -> str_includes c (renderV6 v) = false.
Proof.
  intros Hc. apply (str_forall_no_exists v6_char); [|apply renderV6_facts].
  intros a Ha. apply v6_char_spec in Ha as (_ & ? & ? & ? & _). by destruct Hc as [->|[->| ->]].
Qed.

Lemma to_lower_renderV6 v : to_lower (renderV6 v) = renderV6 v.
Proof.
  apply to_lower_id. eapply str_forall_impl; [|apply renderV6_facts].
  intros c Hc. by apply v6_char_spec.
Qed.

Lemma expand_tail_id s : str_includes "." s = false -> v6_expand_tail s = Some s.
Proof.
  intros Hs. unfold v6_expand_tail. pose proof (cut_last_app ":" s) as E.
  destruct (cut_last ":" s) as [h t]. simpl in E. rewrite <- E in Hs.
  unfold str_includes in *. rewrite str_exists_app in Hs. apply orb_false_iff in Hs as [_ ->]. done.
Qed.

Lemma v6_group_list_renderV6 v : v6_group_list (renderV6 v) = Some (map hex (v6_hextets v)).
Proof.
  pose proof (v6_hextets_bound v) as Hb. unfold v6_group_list.
  destruct (renderV6_shape v) as [->|(l & n & r & Hn & E & ->)].
  - rewrite cut_double_join by (by apply hexes_pieces).
    rewrite split_join; [done..|]. eapply Forall_impl; [by apply hexes_pieces|]. by intros ? [].
  - assert (Hlen : (length l + n + length r = 8)%nat).
    { transitivity (length (v6_hextets v)); [|done]. rewrite E, !length_app, length_replicate. lia. }
    rewrite E in *. apply Forall_app in Hb as [Hl Hb]. apply Forall_app in Hb as [_ Hr].
    change ("::" +:+ join ":" (map hex r)) with (String ":" (String ":" (join ":" (map hex r)))).
    rewrite cut_double_join_app by (by apply hexes_pieces).
    rewrite !split_or_empty_join, !length_map by done.
    destruct (Z.ltb_spec (8 - Z.of_nat (length l) - Z.of_nat (length r)) 1); [lia|].
    replace (Z.to_nat (8 - Z.of_nat (length l) - Z.of_nat (length r))) with n by lia.
    rewrite !map_app. f_equal. f_equal. f_equal. clear. by induction n; simpl; f_equal.
Qed.

(** Parsing a printed IPv6 address gives the address back. *)
Lemma v6ToBigInt_renderV6 v : 0 <= v < 2 ^ 128 -> v6ToBigInt (renderV6 v) = Some v.
Proof.
  intros Hv. unfold v6ToBigInt.
  rewrite to_lower_renderV6, expand_tail_id by (apply renderV6_absent; auto).
  rewrite v6_group_list_renderV6, length_map.
  change (length (v6_hextets v)) with 8%nat. cbn [Nat.eqb negb].
  rewrite v6_groups_hex by apply v6_hextets_bound. by rewrite fold_hextets.
Qed.

Lemma v6_width_hex l :
  Forall (fun n => 0 <= n <= 65535) l -> v6_width (map hex l) = Some (length l).
Proof.
  induction 1 as [|n l Hn Hl IH]; [done|]. destruct (hextet_spec n Hn) as (_ & Hs & _).
  destruct l as [|m l]; cbn [map v6_width length] in *; rewrite Hs; [done|].
  cbn [map] in IH. by rewrite IH.
Qed.

Lemma pieces_join l :
  Forall (fun n => 0 <= n <= 65535) l -> pieces (join ":" (map hex l)) = map hex l.
Proof. apply split_or_empty_join. Qed.

Lemma is_ipv6_renderV6 v : is_ipv6 (renderV6 v) = true.
Proof.
  pose proof (v6_hextets_bound v) as Hb. unfold is_ipv6.
  rewrite split_absent by (apply renderV6_absent; auto). unfold is_ipv6_body.
  destruct (renderV6_shape v) as [->|(l & n & r & Hn & E & ->)].
  - rewrite cut_double_join by (by apply hexes_pieces).
    by rewrite pieces_join, v6_width_hex.
  - assert (Hlen : (length l + n + length r = 8)%nat).
    { transitivity (length (v6_hextets v)); [|done]. rewrite E, !length_app, length_replicate. lia. }
    rewrite E in Hb. apply Forall_app in Hb as [Hl Hb]. apply Forall_app in Hb as [_ Hr].
    change ("::" +:+ join ":" (map hex r)) with (String ":" (String ":" (join ":" (map hex r)))).
    rewrite cut_double_join_app by (by apply hexes_pieces).
    rewrite !pieces_join, v6_width_hex, length_map by done. apply andb_true_iff. split.
    + apply forallb_forall. intros s Hs. apply in_map_iff in Hs as (m & <- & Hm).
      rewrite Forall_forall in Hl. by apply hextet_spec, Hl, list_elem_of_In.
    + apply Nat.leb_le. lia.
Qed.

Lemma is_ipv4_no_colon s : str_includes ":" s = true -> is_ipv4 s = false.
Proof.
  intros Hs. unfold is_ipv4. apply andb_false_iff.
  destruct (Nat.eqb_spec (length (split "." s)) 4) as [Hl|]; [right|by left].
  destruct (forallb v4_seg (split "." s)) eqn:E; [|done]. exfalso.
  enough (str_includes ":" s = false) by congruence.
  rewrite <- (join_split "." s). clear Hs Hl. induction (split "." s) as [|x l IH]; [done|].
  cbn [forallb] in E. boolify.
  assert (Hx : str_includes ":" x = false).
  { apply (digits_no_char is_digit); [|done]. unfold v4_seg in *. destruct x as [|c x]; [done|].
    simpl. destruct x; [by rewrite H|]. boolify.
    assert (is_digit c = true) as ->; [|done].
    unfold is_digit19, is_digit, in_range in *. boolify. apply andb_true_iff. lia. }
  destruct l as [|y l]; [done|]. rewrite join_cons by done. unfold str_includes in *.
  rewrite !str_exists_app, Hx, IH by done. done.
Qed.

Lemma renderV6_colon v : str_includes ":" (renderV6 v) = true.
Proof.
  destruct (renderV6_shape v) as [->|(l & n & r & Hn & E & ->)].
  - unfold v6_hextets. cbn [map]. rewrite join_cons by done. apply str_includes_app_sep.
  - apply str_includes_app_sep.
Qed.

(** ** Parsing *)

Lemma textToBigInt_render f v : 0 <= v < 2 ^ bits f -> textToBigInt f (render f v) = Some v.
Proof. destruct f; [apply v4ToBigInt_renderV4|apply v6ToBigInt_renderV6]. Qed.

Lemma textToBigInt_bound f s v : textToBigInt f s = Some v -> 0 <= v < 2 ^ bits f.
Proof. destruct f; [apply v4ToBigInt_bound|apply v6ToBigInt_bound]. Qed.

Definition fam_of (n : Z) : IpFamily := if n =? 4 then V4 else V6.

Lemma isIP_render f v : isIP (render f v) <> 0 /\ fam_of (isIP (render f v)) = f.
Proof.
  unfold isIP. destruct f; simpl render.
  - by rewrite is_ipv4_renderV4.
  - by rewrite is_ipv4_no_colon, is_ipv6_renderV6 by apply renderV6_colon.
Qed.

Definition v4_char (c : ascii) : bool := is_digit c || Ascii.eqb c ".".

Lemma v4_char_spec c :
  v4_char c = true ->
  is_ws c = false /\ Ascii.eqb "%" c = false /\ Ascii.eqb "/" c = false.
Proof.
  assert (H : all_ascii (fun c => implb (v4_char c)
    (negb (is_ws c) && negb (Ascii.eqb "%" c) && negb (Ascii.eqb "/" c))) = true)
    by (vm_compute; reflexivity).
  intros Hc. pose proof (all_ascii_spec _ H c) as Hs. cbv beta in Hs. rewrite Hc in Hs.
  cbn [implb] in Hs. boolify. done.
Qed.

(** Text of a canonical address: no white space, no [%] or [/], at most 42 characters. *)
Lemma render_plain f v :
  0 <= v < 2 ^ bits f ->
  is_empty (render f v) = false /\ (String.length (render f v) <= 42)%nat
  /\ str_exists is_ws (render f v) = false /\ str_includes "%" (render f v) = false
  /\ str_includes "/" (render f v) = false.
Proof.
  intros Hv. destruct f.
  - change (render V4 v) with (join "." (map dec (octets v))).
    assert (Hd : Forall (fun s => str_forall is_digit s = true) (map dec (octets v))).
    { apply Forall_map. eapply Forall_impl; [apply octets_bound|]. intros n Hn. by apply octet_spec. }
    assert (Hc : str_forall v4_char (join "." (map dec (octets v))) = true).
    { apply join_forall; [done|]. eapply Forall_impl; [exact Hd|]. intros s Hs.
      apply (str_forall_impl is_digit); [|done]. intros c Hc. unfold v4_char. by rewrite Hc. }
    repeat split.
    + destruct (is_empty _) eqn:E; [|done]. exfalso.
      unfold octets in E. cbn [map] in E. rewrite join_cons in E by done.
      destruct (dec _); discriminate E.
    + etransitivity; [apply (join_length 3)|rewrite length_map; cbn; lia]. apply Forall_map.
      eapply Forall_impl; [apply octets_bound|]. intros n Hn. cbv beta in Hn. apply dec_length; lia.
    + apply (str_forall_no_exists v4_char); [|done]. intros c H. by apply v4_char_spec.
    + apply (str_forall_no_exists v4_char); [|done]. intros c H. by apply v4_char_spec.
    + apply (str_forall_no_exists v4_char); [|done]. intros c H. by apply v4_char_spec.
  - destruct (renderV6_facts v) as (Hc & Hl & He). repeat split; [done..|  | |].
    + apply (str_forall_no_exists v6_char); [|done]. intros c H. by apply v6_char_spec.
    + apply renderV6_absent; auto.
    + apply renderV6_absent; auto.
Qed.

Lemma prefix_dec n : 0 <= n <= 255 -> PREFIX_RE (dec n) = true /\ str_includes "/" (dec n) = false
  /\ str_exists is_ws (dec n) = false /\ str_includes "%" (dec n) = false
  /\ (String.length (dec n) <= 3)%nat.
Proof.
  intros Hn. destruct (octet_spec n Hn) as (? & _ & _ & Hd).
  repeat split; [done|..].
  - by apply (digits_no_char is_digit).
  - apply (str_forall_no_exists v4_char).
    + intros c Hc. by apply v4_char_spec.
    + eapply str_forall_impl; [|exact Hd]. intros c Hc. unfold v4_char. by rewrite Hc.
  - by apply (digits_no_char is_digit).
  - apply dec_length; lia.
Qed.

(** The canonical text of a network, as [targetText] and [BanTarget.cidr] write it. *)
Definition cidr_text (p : ParsedCidr) : string :=
  if prefix p =? bits (family p) then address p else address p +:+ "/" +:+ dec (prefix p).

Lemma wf_mask_id p : wf_cidr p -> Z.land (valueOf p) (maskOf (family p) (prefix p)) = valueOf p.
Proof.
  intros []. rewrite land_maskOf by done. unfold size_of in *.
  pose proof (Z.div_mod (valueOf p) (2 ^ (bits (family p) - prefix p)) ltac:(lia)). lia.
Qed.

(** Parsing the canonical text of a well-formed network, with the prefix spelled out or not. *)
Lemma parse_text_plain (p : ParsedCidr) (s : string) :
  wf_cidr p ->
  (s = address p /\ prefix p = bits (family p)) \/ s = address p +:+ "/" +:+ dec (prefix p) ->
  parse_text s = Some p.
Proof.
  intros Hwf Hs. pose proof Hwf as [Hp Hv Hh Ht Hm]. pose proof (render_plain _ _ Hv) as Hr.
  rewrite <- Ht in Hr. destruct Hr as (He & Hl & Hws & Hpc & Hsl).
  destruct (isIP_render (family p) (valueOf p)) as [Hz Hf]. rewrite <- Ht in Hz, Hf.
  assert (Hp255 : 0 <= prefix p <= 255) by (destruct (family p); simpl in *; lia).
  destruct (prefix_dec _ Hp255) as (Pre & Psl & Pws & Ppc & Plen).
  destruct (octet_spec _ Hp255) as (_ & _ & Pval & _).
  assert (Hplain : is_empty s = false /\ (String.length s <= 64)%nat /\ str_exists is_ws s = false
                   /\ str_includes "%" s = false).
  { destruct Hs as [[-> _]| ->]; [repeat split; try done; lia|]. unfold str_includes in *.
    rewrite !str_exists_app, Hws, Hpc, Pws, Ppc, !length_app_str.
    repeat split; [by destruct (address p)|simpl; lia]. }
  destruct Hplain as (E1 & E2 & E3 & E4).
  unfold parse_text. rewrite trim_id, E1, E3, E4 by done.
  destruct (Nat.ltb_spec 64 (String.length s)); [lia|]. cbn [orb].
  assert (Hparts : (length (split "/" s) <= 2)%nat /\ nth 0 (split "/" s) "" = address p
    /\ parse_prefix (family p) (split "/" s) = Some (prefix p)).
  { destruct Hs as [[-> ->]| ->].
    - rewrite split_absent by done. simpl. split; [lia|done].
    - change ("/" +:+ dec (prefix p)) with (String "/" (dec (prefix p))).
      rewrite split_app_sep, split_absent by done.
      cbn [length nth parse_prefix]. rewrite Pre, Pval. cbn [negb]. repeat split; [lia|].
      destruct (Z.ltb_spec (bits (family p)) (prefix p)); [lia|done]. }
  destruct Hparts as (P1 & P2 & P3).
  destruct (Nat.ltb_spec 2 (length (split "/" s))); [lia|]. rewrite P2.
  destruct (Z.eqb_spec (isIP (address p)) 0); [done|].
  change (if isIP (address p) =? 4 then V4 else V6) with (fam_of (isIP (address p))).
  rewrite Hf, P3. rewrite Ht at 1. rewrite textToBigInt_render by done.
  assert (Hu : unmap_v4 (family p) (prefix p) (valueOf p) = Some (family p, prefix p, valueOf p)).
  { unfold unmap_v4. destruct (family p); [done|]. rewrite Z.shiftr_div_pow2 by lia.
    destruct (Z.eqb_spec (valueOf p / 2 ^ 32) 65535) as [E|]; [by destruct Hm|done]. }
  rewrite Hu, wf_mask_id, <- Ht by done. by destruct p.
Qed.

Lemma parse_text_cidr_text p : wf_cidr p -> parse_text (cidr_text p) = Some p.
Proof.
  intros Hwf. apply parse_text_plain; [done|]. unfold cidr_text.
  destruct (Z.eqb_spec (prefix p) (bits (family p))); auto.
Qed.

Lemma parse_prefix_bound f parts n : parse_prefix f parts = Some n -> 0 <= n <= bits f.
Proof.
  unfold parse_prefix. pose proof (bits_pos f) as Hb. intros H.
  destruct parts as [|a [|t [|b r]]]; simplify_eq; try lia.
  destruct (PREFIX_RE t); simpl in H; [|done].
  destruct (Z.ltb_spec (bits f) (digits_value 10 t)); simplify_eq.
  split; [apply digits_value_nonneg; lia|done].
Qed.

Lemma unmap_v4_spec f n w f1 p1 v1 :
  0 <= n <= bits f -> 0 <= w < 2 ^ bits f -> unmap_v4 f n w = Some (f1, p1, v1) ->
  0 <= p1 <= bits f1 /\ 0 <= v1 < 2 ^ bits f1 /\ (f1 = V6 -> v1 / 2 ^ 32 <> 65535).
Proof.
  intros Hn Hw Hu. unfold unmap_v4 in Hu. rewrite Z.shiftr_div_pow2 in Hu by lia.
  destruct f; [by simplify_eq|]. destruct (Z.eqb_spec (w / 2 ^ 32) 65535); [|by simplify_eq].
  destruct (Z.ltb_spec n 96); [done|]. simplify_eq. simpl in *.
  change 4294967295 with (Z.ones 32). rewrite Z.land_ones by lia.
  split; [lia|]. split; [apply Z.mod_pos_bound; lia|done].
Qed.

(** Clearing host bits never turns an address into an IPv4-mapped one. *)
Lemma mask_unmapped v n :
  0 <= n <= 128 -> v / 2 ^ 32 <> 65535 ->
  v / 2 ^ (128 - n) * 2 ^ (128 - n) / 2 ^ 32 <> 65535.
Proof.
  intros Hn Hne Hbad. destruct (Z.leb_spec 96 n).
  - apply Hne. rewrite <- Hbad.
    replace (2 ^ 32) with (2 ^ (128 - n) * 2 ^ (n - 96))
      by (rewrite <- Z.pow_add_r by lia; f_equal; lia).
    rewrite <- !Z.div_div by lia. by rewrite Z.div_mul by lia.
  - replace (128 - n) with (95 - n + 1 + 32) in Hbad by lia.
    rewrite !Z.pow_add_r in Hbad by lia. change (2 ^ 1) with 2 in Hbad.
    rewrite Z.mul_assoc, Z.div_mul in Hbad by lia. lia.
Qed.

(** Printing a masked address makes a well-formed network. *)
Lemma masked_wf f n v :
  0 <= n <= bits f -> 0 <= v < 2 ^ bits f -> (f = V6 -> v / 2 ^ 32 <> 65535) ->
  wf_cidr {| address := render f (Z.land v (maskOf f n)); family := f; prefix := n |}.
Proof.
  intros Hn Hv Hu. rewrite land_maskOf by done. set (sz := 2 ^ (bits f - n)).
  assert (Hsz : 0 < sz) by (apply Z.pow_pos_nonneg; lia).
  pose proof (Z.mul_div_le v sz Hsz). pose proof (Z.div_pos v sz ltac:(lia) Hsz).
  set (m := v / sz * sz) in *. assert (Hm : 0 <= m < 2 ^ bits f) by nia.
  assert (HV : valueOf {| address := render f m; family := f; prefix := n |} = m).
  { unfold valueOf. simpl. by rewrite textToBigInt_render. }
  constructor; rewrite ?HV; unfold size_of; simpl; try done.
  - fold sz. subst m. apply Z.mod_mul. lia.
  - intros ->. apply (mask_unmapped v n); [done|by apply Hu].
Qed.

(** Every network the parser returns is well-formed. *)
Lemma parse_text_wf s p : parse_text s = Some p -> wf_cidr p.
Proof.
  unfold parse_text. cbv zeta. intros H.
  case_in H; [done|]. case_in H; [done|]. case_in H; [done|].
  set (f0 := if isIP _ =? 4 then V4 else V6) in *. clearbody f0.
  destruct (parse_prefix f0 _) as [n|] eqn:Hn; [|done].
  destruct (textToBigInt f0 _) as [w|] eqn:Hw; [|done].
  destruct (unmap_v4 f0 n w) as [[[f1 p1] v1]|] eqn:Hu; [|done]. simplify_eq.
  apply parse_prefix_bound in Hn. apply textToBigInt_bound in Hw.
  destruct (unmap_v4_spec _ _ _ _ _ _ Hn Hw Hu) as (? & ? & ?). by apply masked_wf.
Qed.

Lemma parseIpOrCidr_wf v p : parseIpOrCidr v = Some p -> wf_cidr p.
Proof. destruct v; try done. apply parse_text_wf. Qed.

#[export] Hint Resolve parse_text_wf parseIpOrCidr_wf : og.

(** ** Networks as sets of addresses *)

Lemma wf_size p : wf_cidr p -> 0 < size_of p.
Proof. intros []. apply Z.pow_pos_nonneg; lia. Qed.

(** A well-formed network is determined by its family, prefix and first address. *)
Lemma wf_cidr_eq p q :
  wf_cidr p -> wf_cidr q -> family p = family q -> prefix p = prefix q -> valueOf p = valueOf q -> p = q.
Proof.
  intros [] [] Hf Hp Hv. destruct p as [a f n], q as [b g m]. simpl in *. subst.
  f_equal. congruence.
Qed.

Lemma cidrOverlaps_sym a b : cidrOverlaps a b = cidrOverlaps b a.
Proof.
  unfold cidrOverlaps. destruct (decide (family a = family b)) as [E|E].
  - rewrite !bool_decide_true, E, Z.min_comm, Z.eqb_sym by done. done.
  - by rewrite !bool_decide_false by done.
Qed.

Lemma cidrOverlaps_le a b :
  wf_cidr a -> wf_cidr b -> prefix a <= prefix b ->
  cidrOverlaps a b = true <-> family a = family b /\ in_cidr a (valueOf b).
Proof.
  intros Ha Hb Hle. unfold cidrOverlaps, in_cidr.
  destruct (decide (family a = family b)) as [E|E]; simpl;
    [rewrite bool_decide_true by done|rewrite bool_decide_false by done; naive_solver].
  simpl. rewrite Z.eqb_eq, Z.min_l by done. rewrite (wf_mask_id a Ha), E.
  pose proof (wf_size a Ha) as Hs. destruct Ha, Hb. rewrite land_maskOf; [|lia|done].
  unfold size_of in *. rewrite E in *. set (k := 2 ^ (bits (family b) - prefix a)) in *.
  pose proof (Z.div_mod (valueOf a) k ltac:(lia)).
  split.
  - intros Heq. split; [done|]. pose proof (proj1 (div_interval (valueOf b) _ k Hs) eq_refl). lia.
  - intros [_ H1]. assert (valueOf b / k = valueOf a / k) as -> by (apply div_interval; lia). lia.
Qed.

(** Overlap of parsed networks is: same family and a common address. *)
Lemma cidrOverlaps_spec a b :
  wf_cidr a -> wf_cidr b ->
  cidrOverlaps a b = true <-> family a = family b /\ exists x, in_cidr a x /\ in_cidr b x.
Proof.
  assert (H : forall a b, wf_cidr a -> wf_cidr b -> prefix a <= prefix b ->
    cidrOverlaps a b = true <-> family a = family b /\ exists x, in_cidr a x /\ in_cidr b x).
  { clear. intros a b Ha Hb Hle. rewrite cidrOverlaps_le by done.
    pose proof (wf_size b Hb) as Hsb. split; intros [E Hx]; split; try done.
    - exists (valueOf b). split; [done|]. unfold in_cidr. lia.
    - destruct Hx as (x & Hxa & Hxb). pose proof (wf_size a Ha) as Hsa. destruct Ha, Hb.
      unfold in_cidr, size_of in *. rewrite E in *.
      pose proof (block_nest (bits (family b) - prefix a) (bits (family b) - prefix b) _ _ x
                    ltac:(lia) wf_host0 wf_host1 Hxa Hxb) as Hn.
      pose proof (proj1 (div_interval (valueOf b) _ _ Hsa) eq_refl). lia. }
  intros Ha Hb. destruct (Z.leb_spec (prefix a) (prefix b)); [by apply H|].
  rewrite cidrOverlaps_sym, H by (done || lia). naive_solver.
Qed.

(** Containment of parsed networks is inclusion of their address intervals. *)
Lemma cidrContains_spec o i :
  wf_cidr o -> wf_cidr i ->
  cidrContains o i = true <-> family o = family i /\ forall x, in_cidr i x -> in_cidr o x.
Proof.
  intros Ho Hi. pose proof (wf_size o Ho) as Hso. pose proof (wf_size i Hi) as Hsi.
  unfold cidrContains. rewrite andb_true_iff, Z.leb_le. split.
  - intros [Hle Hov]. apply cidrOverlaps_le in Hov as [E Hv]; [|done..]. split; [done|].
    intros x Hx. destruct Ho, Hi. unfold in_cidr, size_of in *. rewrite E in *.
    set (ko := 2 ^ (bits (family i) - prefix o)) in *. set (ki := 2 ^ (bits (family i) - prefix i)) in *.
    assert (Hk : ko = 2 ^ (prefix i - prefix o) * ki).
    { unfold ko, ki. rewrite <- Z.pow_add_r by lia. f_equal. lia. }
    assert (0 < 2 ^ (prefix i - prefix o)) by (apply Z.pow_pos_nonneg; lia).
    pose proof (Z.div_mod (valueOf i) ki ltac:(lia)). pose proof (Z.div_mod (valueOf o) ko ltac:(lia)).
    rewrite wf_host0 in *. rewrite wf_host1 in *. set (c := 2 ^ (prefix i - prefix o)) in *.
    set (q := valueOf i / ki) in *. set (r := valueOf o / ko) in *. clearbody c q r ki ko.
    assert (q + 1 <= c * r + c) by (subst ko; nia). subst ko. nia.
  - intros [E Hx].
    assert (Hle : prefix o <= prefix i).
    { pose proof (Hx (valueOf i) ltac:(unfold in_cidr; lia)) as H1.
      pose proof (Hx (valueOf i + size_of i - 1) ltac:(unfold in_cidr; lia)) as H2.
      unfold in_cidr in *. assert (size_of i <= size_of o) as Hs by lia.
      destruct Ho, Hi. unfold size_of in Hs. rewrite E in *.
      apply Z.pow_le_mono_r_iff in Hs; lia. }
    split; [done|]. apply cidrOverlaps_le; [done..|]. split; [done|]. apply Hx. unfold in_cidr. lia.
Qed.

(** ** Ban targets *)

Lemma RESERVED_PARSED_complete : map Some RESERVED_PARSED = map parse_text RESERVED_BAN_RANGES.
Proof. vm_compute. reflexivity. Qed.

Lemma parsed_ranges_wf (l : list string) : Forall wf_cidr (omap parse_text l).
Proof.
  induction l as [|s l IH]; simpl; [done|].
  destruct (parse_text s) eqn:E; [constructor; eauto with og|done].
Qed.

Lemma isReserved_spec p :
  wf_cidr p ->
  isReservedBanTarget p = false <->
  forall r, In r RESERVED_PARSED -> family r = family p -> forall x, in_cidr r x -> ~ in_cidr p x.
Proof.
  intros Hp. unfold isReservedBanTarget. rewrite existsb_false_forall.
  pose proof (parsed_ranges_wf RESERVED_BAN_RANGES) as Hw. rewrite Forall_forall in Hw.
  split; intros H r Hr.
  - intros Hf x Hx Hpx. specialize (H r Hr).
    assert (cidrOverlaps r p = true); [|congruence].
    apply cidrOverlaps_spec; [by apply Hw, list_elem_of_In|done|eauto].
  - destruct (cidrOverlaps r p) eqn:E; [|done]. exfalso.
    apply cidrOverlaps_spec in E as [Hf (x & Hx & Hpx)]; [by eapply H|by apply Hw, list_elem_of_In|done].
Qed.

Lemma readFloor_bounds env name def min max :
  min <= def <= max -> min <= readFloor env name def min max <= max.
Proof. intros H. unfold readFloor. repeat case_match; boolify; try done; lia. Qed.

Lemma floor_bounds env f :
  match f with V4 => 8 <= floor_of (banPrefixFloor env) f <= 32
             | V6 => 16 <= floor_of (banPrefixFloor env) f <= 128 end.
Proof. destruct f; apply readFloor_bounds; unfold DEFAULT_BAN_MIN_PREFIX_V4, DEFAULT_BAN_MIN_PREFIX_V6; lia. Qed.

Definition mk_target (p : ParsedCidr) : BanTarget :=
  let isNetwork := prefix p <? bits (family p) in
  {| bt_parsed := p; isNetwork := isNetwork;
     cidr := if isNetwork then address p +:+ "/" +:+ dec (prefix p) else address p |}.

Lemma mk_target_cidr p : wf_cidr p -> cidr (mk_target p) = cidr_text p.
Proof.
  intros [Hp _ _ _ _]. unfold mk_target, cidr_text. simpl.
  destruct (Z.ltb_spec (prefix p) (bits (family p))), (Z.eqb_spec (prefix p) (bits (family p))); done || lia.
Qed.

(** [parseBanTarget] accepts exactly the parsable targets that pass the three checks. *)
Lemma parseBanTarget_ok raw allow env t :
  parseBanTarget raw allow env = BT_ok t <->
  exists p, parseIpOrCidr raw = Some p /\ t = mk_target p
    /\ (prefix p < bits (family p) -> allow = true)
    /\ floor_of (banPrefixFloor env) (family p) <= prefix p
    /\ isReservedBanTarget p = false.
Proof.
  unfold parseBanTarget. split.
  - intros H. case_in H; [|done]. rename p into q. exists q. split; [done|].
    case_in H; [done|]. case_in H; [done|]. case_in H; [done|].
    injection H as <-. apply Z.ltb_ge in Heqb0. repeat split; try done.
    intros Hlt. apply andb_false_iff in Heqb. destruct Heqb as [E|E]; [apply Z.ltb_ge in E; lia|].
    by apply negb_false_iff in E.
  - intros (p & -> & -> & Ha & Hf & Hr).
    destruct (Z.ltb_spec (prefix p) (bits (family p))) as [Hlt|Hge].
    + rewrite (Ha Hlt). simpl. destruct (Z.ltb_spec (prefix p) (floor_of (banPrefixFloor env) (family p))); [lia|].
      rewrite Hr. unfold mk_target. destruct (Z.ltb_spec (prefix p) (bits (family p))); [done|lia].
    + simpl. destruct (Z.ltb_spec (prefix p) (floor_of (banPrefixFloor env) (family p))); [lia|].
      rewrite Hr. unfold mk_target. destruct (Z.ltb_spec (prefix p) (bits (family p))); [lia|done].
Qed.

(** ** Properties *)

Lemma in_cidr_inj p q :
  wf_cidr p -> wf_cidr q -> family q = family p -> (forall x, in_cidr q x <-> in_cidr p x) -> q = p.
Proof.
  intros Hp Hq E Hx. pose proof (wf_size p Hp) as Hsp. pose proof (wf_size q Hq) as Hsq.
  unfold in_cidr in Hx.
  pose proof (proj1 (Hx (valueOf q)) ltac:(lia)). pose proof (proj2 (Hx (valueOf p)) ltac:(lia)).
  pose proof (proj1 (Hx (valueOf q + size_of q - 1)) ltac:(lia)).
  pose proof (proj2 (Hx (valueOf p + size_of p - 1)) ltac:(lia)).
  assert (Hs : size_of q = size_of p) by lia. unfold size_of in Hs.
  apply wf_cidr_eq; [done..| |lia]. rewrite E in Hs. destruct Hp, Hq. rewrite E in *.
  apply Z.pow_inj_r in Hs; lia.
Qed.

(** Canonical form: whatever spelling an address or network is parsed from, its
    canonical text (bare, or with the prefix) parses back to the same value, for both
    families (RFC 5952 [::] compression included), and two parsed networks of the same
    family that hold the same addresses are the same record, text included. *)
Theorem parse_canonical (s : string) (p : ParsedCidr) (H : parse_text s = Some p) :
  parse_text (cidr_text p) = Some p
  /\ parse_text (address p +:+ "/" +:+ dec (prefix p)) = Some p
  /\ (forall s' q, parse_text s' = Some q -> family q = family p ->
        (forall x, in_cidr q x <-> in_cidr p x) -> q = p).
Proof.
  pose proof (parse_text_wf _ _ H) as Hwf. split; [by apply parse_text_cidr_text|].
  split; [apply parse_text_plain; auto|]. intros s' q Hq. apply in_cidr_inj; eauto with og.
Qed.

Lemma parse_canonical_witness :
  parse_text "2001:db8::/32" = Some {| address := "2001:db8::"; family := V6; prefix := 32 |}.
Proof.
  exact (proj1 (parse_canonical "2001:0DB8:0:0:0:0:1.2.3.4/32"
    {| address := "2001:db8::"; family := V6; prefix := 32 |} eq_refl)).
Defined.

(** Network algebra: on any two parsable texts, [cidrOverlaps] holds exactly when the
    two networks share an address and [cidrContains] exactly when every address of the
    inner one is in the outer one (both within one family). *)
Theorem overlap_contains_sets (a b : string) (pa pb : ParsedCidr)
    (Ha : parse_text a = Some pa) (Hb : parse_text b = Some pb) :
  (cidrOverlaps_text a b = true <-> family pa = family pb /\ exists x, in_cidr pa x /\ in_cidr pb x)
  /\ (cidrContains_text a b = true <-> family pa = family pb /\ forall x, in_cidr pb x -> in_cidr pa x).
Proof.
  unfold cidrOverlaps_text, cidrContains_text. rewrite Ha, Hb.
  split; [apply cidrOverlaps_spec|apply cidrContains_spec]; eauto with og.
Qed.

Lemma overlap_contains_sets_witness :
  cidrContains_text "10.0.0.0/8" "10.1.0.0/16" = true
  /\ family (Build_ParsedCidr "10.0.0.0" V4 8) = family (Build_ParsedCidr "10.1.0.0" V4 16).
Proof.
  split; [reflexivity|].
  exact (proj1 (proj1 (proj2 (overlap_contains_sets "10.0.0.0/8" "10.1.0.0/16"
    (Build_ParsedCidr "10.0.0.0" V4 8) (Build_ParsedCidr "10.1.0.0" V4 16) eq_refl eq_refl)) eq_refl)).
Defined.

(** Ban target policy: an accepted target is the canonical form of its input, is a
    subnet only where subnets are allowed, is never wider than /8 (IPv4) or /16 (IPv6)
    whatever the environment says, and shares no address with any reserved range; a
    refusal is one of the four policy codes, in the order of the checks, and says
    ['invalid'] exactly on unparsable input. *)
Theorem parseBanTarget_policy (raw : js) (allowCidr : bool) (env : env_t) :
  match parseBanTarget raw allowCidr env with
  | BT_ok t =>
      let p := bt_parsed t in
      parseIpOrCidr raw = Some p /\ parse_text (cidr t) = Some p
      /\ isNetwork t = (prefix p <? bits (family p)) /\ (isNetwork t = true -> allowCidr = true)
      /\ floor_of (banPrefixFloor env) (family p) <= prefix p
      /\ (match family p with V4 => 8 | V6 => 16 end) <= prefix p
      /\ (forall r, In r RESERVED_PARSED -> family r = family p ->
            forall x, in_cidr r x -> ~ in_cidr p x)
  | BT_err c _ =>
      match parseIpOrCidr raw with
      | None => c = Invalid
      | Some p =>
          c = Cidr_not_allowed /\ prefix p < bits (family p) /\ allowCidr = false
          \/ c = Too_broad /\ prefix p < floor_of (banPrefixFloor env) (family p)
          \/ c = Reserved /\ isReservedBanTarget p = true
      end
  end.
Proof.
  destruct (parseBanTarget raw allowCidr env) as [t|c m] eqn:E.
  - apply parseBanTarget_ok in E as (p & Hp & -> & Ha & Hf & Hr).
    pose proof (parseIpOrCidr_wf _ _ Hp) as Hwf. pose proof (floor_bounds env (family p)) as Hb.
    cbv zeta. change (bt_parsed (mk_target p)) with p. rewrite mk_target_cidr by done.
    split; [done|]. split; [by apply parse_text_cidr_text|]. split; [done|].
    split; [intros Hn; apply Ha; by apply Z.ltb_lt|].
    split; [done|]. split; [destruct (family p); lia|]. by apply isReserved_spec.
  - unfold parseBanTarget in E. destruct (parseIpOrCidr raw) as [p|]; [|congruence].
    case_in E; [|case_in E; [|case_in E]]; simplify_eq; boolify; auto.
Qed.
