(* ===== verification/ProtectedIps.v ===== *)
(** * The protected set ([server/src/utils/protectedIps.ts])

    Addresses that must never be banned: the server's interfaces, the public origins (with
    the last DNS answers kept on failure), the operator's list, the approved agents and
    routers, and for global bans every non-public range. The module's caches are the state
    [PState]; what it reads from the outside (interfaces, environment, DNS, database rows,
    clock) is the record [PInputs]. [checkBanTarget] is the contract of every path that
    creates a ban; its theorem says what an accepted target can never overlap. *)

From S2P Require Import Prelude JsString JsValue NodeNet IpValidation.

(** ** Data *)

Inductive Source := Src_interface | Src_origin | Src_env.
#[export] Instance Source_eq_dec : EqDecision Source.
Proof. solve_decision. Defined.

Record ProtectedEntry := { pe_cidr : ParsedCidr; pe_source : Source }.

Definition NON_PUBLIC_RANGES : list string :=
  [ "0.0.0.0/8"; "10.0.0.0/8"; "100.64.0.0/10"; "127.0.0.0/8"; "169.254.0.0/16";
    "172.16.0.0/12"; "192.168.0.0/16"; "224.0.0.0/4"; "240.0.0.0/4"; "::/128"; "::1/128";
    "fc00::/7"; "fe80::/10"; "ff00::/8" ].

Definition NON_PUBLIC_PARSED : list ParsedCidr := omap parse_text NON_PUBLIC_RANGES.

(** True when the target overlaps a non-public range. *)
Definition isNonPublicTarget (p : ParsedCidr) : bool :=
  existsb (fun r => cidrOverlaps r p) NON_PUBLIC_PARSED.

Definition CACHE_TTL_MS : Z := 10 * 60 * 1000.
Definition INFRA_TTL_MS : Z := 60 * 1000.

Record InfraEntry := { ie_cidr : ParsedCidr; ie_tenantId : Z }.

(** Rows read by [refreshInfraAddresses]: [status], [ip], [tenant_id] of [agent_devices];
    [api_host], [syslog_identifier] of the router with its device's status and tenant. *)
Record DeviceRow := { dr_status : string; dr_ip : option string; dr_tenant : Z }.
Record RouterRow := { rr_status : string; rr_api_host : option string; rr_syslog : option string; rr_tenant : Z }.

(** The module's variables [cache], [hostCache] and [infra]. *)
Record PState := {
  cache : option (list ProtectedEntry * Z);
  hostCache : gmap string (list ParsedCidr);
  infra : option (list InfraEntry * Z)
}.

(** The outside world at a call: [os.networkInterfaces()] ([None]: it threw), the environment,
    the hostnames of [configuredPublicOrigins()], [dns.promises.lookup] raced with its timeout
    ([None]: rejected), the two table reads ([None]: database error) and the clock. *)
Record PInputs := {
  in_ifaces : option (list (list string));
  in_env : env_t;
  in_origin_hosts : list string;
  in_dns : string -> option (list string);
  in_db : option (list DeviceRow * list RouterRow);
  in_now : Z
}.

(** ** Entries *)

Definition interfaceEntries (ifaces : option (list (list string))) : list ProtectedEntry :=
  flat_map (omap (fun a => option_map (fun p => {| pe_cidr := p; pe_source := Src_interface |}) (parse_text a)))
    (default [] ifaces).

Definition lookupWithTimeout (dns : string -> option (list string)) (host : string) : option (list ParsedCidr) :=
  option_map (omap parse_text) (dns host).

Definition origin_hosts (hostnames : list string) : list string :=
  uniq (List.filter (fun h => negb (is_empty h)) (map (fun h => trim (strip_brackets h)) hostnames)).

(** One host: a literal is taken as it is; a name is looked up, a successful answer
    replaces the remembered one and a failure keeps it. *)
Definition origin_host (dns : string -> option (list string)) (host : string)
    (hc : gmap string (list ParsedCidr)) : list ProtectedEntry * gmap string (list ParsedCidr) :=
  let entry p := {| pe_cidr := p; pe_source := Src_origin |} in
  match parse_text host with
  | Some literal => ([entry literal], hc)
  | None =>
      let hc' := match lookupWithTimeout dns host with Some addrs => <[host := addrs]> hc | None => hc end in
      (map entry (default [] (hc' !! host)), hc')
  end.

Fixpoint origin_loop (dns : string -> option (list string)) (hosts : list string)
    (hc : gmap string (list ParsedCidr)) : list ProtectedEntry * gmap string (list ParsedCidr) :=
  match hosts with
  | [] => ([], hc)
  | h :: r =>
      let '(es, hc1) := origin_host dns h hc in
      let '(es', hc2) := origin_loop dns r hc1 in
      (es ++ es', hc2)
  end.

(** The lookups run together; their entries are listed here in host order (only
    membership matters to every reader of the list). *)
Definition originEntries (i : PInputs) (hc : gmap string (list ParsedCidr)) :=
  origin_loop (in_dns i) (origin_hosts (in_origin_hosts i)) hc.

Definition envEntries (env : env_t) : list ProtectedEntry :=
  omap (fun part =>
    let s := trim part in
    if is_empty s then None
    else match parse_text s with
         | None => None
         | Some p => if prefix p <? (match family p with V4 => 8 | V6 => 32 end) then None
                     else Some {| pe_cidr := p; pe_source := Src_env |}
         end) (split "," (default "" (env "BAN_PROTECTED_IPS"))).

Definition source_name (s : Source) : string :=
  match s with Src_interface => "interface" | Src_origin => "origin" | Src_env => "env" end.

Definition entry_key (e : ProtectedEntry) : string :=
  source_name (pe_source e) +:+ "|" +:+ address (pe_cidr e) +:+ "/" +:+ dec (prefix (pe_cidr e)).

(** Keep the first entry of each key ([seen]). *)
Fixpoint dedupe_by {A} (key : A -> string) (seen : list string) (l : list A) : list A :=
  match l with
  | [] => []
  | e :: r => if bool_decide (key e ∈ seen) then dedupe_by key seen r
              else e :: dedupe_by key (key e :: seen) r
  end.

Definition refresh (i : PInputs) (st : PState) : list ProtectedEntry * PState :=
  let '(origins, hc) := originEntries i (hostCache st) in
  let merged := interfaceEntries (in_ifaces i) ++ envEntries (in_env i) ++ origins in
  let entries := dedupe_by entry_key [] merged in
  (entries, {| cache := Some (entries, in_now i); hostCache := hc; infra := infra st |}).

Definition getEntries (i : PInputs) (st : PState) : list ProtectedEntry * PState :=
  match cache st with
  | Some (entries, at_) => if in_now i - at_ <? CACHE_TTL_MS then (entries, st) else refresh i st
  | None => refresh i st
  end.

(** ** Infra addresses (approved agents and routers) *)

Definition full_prefix (p : ParsedCidr) : Z := bits (family p).

(** [add(raw, tenantId)]: full-length public addresses only. *)
Definition infra_entry (raw : option string) (tenantId : Z) : option InfraEntry :=
  match parse_text (strip_brackets (trim (default "" raw))) with
  | None => None
  | Some p => if negb (prefix p =? full_prefix p) || isNonPublicTarget p then None
              else Some {| ie_cidr := p; ie_tenantId := tenantId |}
  end.

Definition infra_key (e : InfraEntry) : string :=
  dec (ie_tenantId e) +:+ "|" +:+ address (ie_cidr e).

Definition infra_entries (devices : list DeviceRow) (routers : list RouterRow) : list InfraEntry :=
  let approved := List.filter (fun d => String.eqb (dr_status d) "approved"
                                   && bool_decide (is_Some (dr_ip d))) devices in
  let approved_routers := List.filter (fun r => String.eqb (rr_status r) "approved") routers in
  dedupe_by infra_key []
    (omap (fun d => infra_entry (dr_ip d) (dr_tenant d)) approved
     ++ flat_map (fun r => omap (fun raw => infra_entry raw (rr_tenant r)) [rr_api_host r; rr_syslog r])
          approved_routers).

(** Refresh when stale; a database error keeps the last list. *)
Definition ensureInfraFresh (i : PInputs) (st : PState) : PState :=
  let stale := match infra st with
               | Some (_, at_) => negb (in_now i - at_ <? INFRA_TTL_MS)
               | None => true
               end in
  if stale then
    match in_db i with
    | Some (devices, routers) =>
        {| cache := cache st; hostCache := hostCache st;
           infra := Some (infra_entries devices routers, in_now i) |}
    | None => st
    end
  else st.

(** ** The checks *)

Definition infra_list (st : PState) : list InfraEntry :=
  match infra st with Some (l, _) => l | None => [] end.

(** First protected entry overlapping [t]. *)
Definition findProtectedConflict (i : PInputs) (st : PState) (t : ParsedCidr)
    (includeInterfaces : bool) (tenantId : option Z) : option ParsedCidr * PState :=
  let '(entries, st') := getEntries i st in
  let skip e := negb includeInterfaces && bool_decide (pe_source e = Src_interface) in
  match List.find (fun e => negb (skip e) && cidrOverlaps (pe_cidr e) t) entries with
  | Some e => (Some (pe_cidr e), st')
  | None =>
      let skip_i e := negb includeInterfaces && negb (bool_decide (tenantId = Some (ie_tenantId e))) in
      (option_map ie_cidr
         (List.find (fun e => negb (skip_i e) && cidrOverlaps (ie_cidr e) t) (infra_list st')), st')
  end.

Definition findBanSafetyConflict (i : PInputs) (st : PState) (t : ParsedCidr)
    (global : bool) (tenantId : option Z) : option BanTargetErrorCode * PState :=
  if global && isNonPublicTarget t then (Some Reserved, st)
  else let '(c, st') := findProtectedConflict i st t global tenantId in
       (match c with Some _ => Some Protected | None => None end, st').

(** The contract of every path that creates a ban. *)
Definition checkBanTarget (i : PInputs) (st : PState) (raw : js) (allowCidr includeInterfaces : bool)
    (tenantId : option Z) : BanTargetResult * PState :=
  match parseBanTarget raw allowCidr (in_env i) with
  | BT_err c m => (BT_err c m, st)
  | BT_ok t =>
      let '(conflict, st') := findBanSafetyConflict i st (bt_parsed t) includeInterfaces tenantId in
      match conflict with
      | Some c => (BT_err c RESERVED_OR_PROTECTED_MESSAGE, st')
      | None => (BT_ok t, st')
      end
  end.

(** ** Reachable states of the module *)

Inductive reachable : PState -> Prop :=
| reach_init : reachable {| cache := None; hostCache := ∅; infra := None |}
| reach_infra i st : reachable st -> reachable (ensureInfraFresh i st)
| reach_entries i st : reachable st -> reachable (snd (getEntries i st)).

Definition wf_entry (e : ProtectedEntry) : Prop := wf_cidr (pe_cidr e).

(** Every address the module remembers is well-formed; infra addresses are single public ones. *)
Record wf_state (st : PState) : Prop := {
  wf_cache : forall es at_, cache st = Some (es, at_) -> Forall wf_entry es;
  wf_hosts : map_Forall (fun _ l => Forall wf_cidr l) (hostCache st);
  wf_infra : Forall (fun e => wf_cidr (ie_cidr e) /\ prefix (ie_cidr e) = full_prefix (ie_cidr e)
                              /\ isNonPublicTarget (ie_cidr e) = false) (infra_list st)
}.

Lemma omap_parse_wf l : Forall wf_cidr (omap parse_text l).
Proof. apply parsed_ranges_wf. Qed.

Lemma interfaceEntries_wf ifaces : Forall wf_entry (interfaceEntries ifaces).
Proof.
  apply Forall_flat_map_intro. intros l. apply Forall_omap. intros a e He.
  destruct (parse_text a) eqn:E; [|done]. simpl in He. simplify_eq. unfold wf_entry. simpl.
  eauto with og.
Qed.

Lemma envEntries_wf env : Forall wf_entry (envEntries env).
Proof.
  apply Forall_omap. intros part e He. cbv zeta in He. case_in He; [done|].
  destruct (parse_text (trim part)) eqn:E; [|done]. case_in He; [done|]. simplify_eq.
  unfold wf_entry. simpl. eauto with og.
Qed.

Lemma origin_host_wf dns h hc es hc' :
  map_Forall (fun _ l => Forall wf_cidr l) hc -> origin_host dns h hc = (es, hc') ->
  Forall wf_entry es /\ map_Forall (fun _ l => Forall wf_cidr l) hc'.
Proof.
  intros Hhc H. unfold origin_host in H. destruct (parse_text h) eqn:E.
  - simplify_eq. split; [|done]. constructor; [|constructor]. eapply parse_text_wf, E.
  - assert (H1 : map_Forall (fun _ l => Forall wf_cidr l) hc').
    { unfold lookupWithTimeout in H. destruct (dns h) as [l|]; simpl in H; simplify_eq; [|done].
      apply map_Forall_insert_2; [apply omap_parse_wf|done]. }
    injection H as <- ->. split; [|done]. apply Forall_map. unfold wf_entry. simpl.
    destruct (hc' !! h) eqn:El; simpl; [|constructor]. apply (H1 _ _ El).
Qed.

Lemma origin_loop_wf dns hosts hc es hc' :
  map_Forall (fun _ l => Forall wf_cidr l) hc -> origin_loop dns hosts hc = (es, hc') ->
  Forall wf_entry es /\ map_Forall (fun _ l => Forall wf_cidr l) hc'.
Proof.
  revert hc es hc'. induction hosts as [|h r IH]; intros hc es hc' Hhc H; simpl in H; [by simplify_eq|].
  destruct (origin_host dns h hc) as [es1 hc1] eqn:E1.
  destruct (origin_loop dns r hc1) as [es2 hc2] eqn:E2. simplify_eq.
  apply origin_host_wf in E1 as [H1 H2]; [|done]. apply IH in E2 as [H3 H4]; [|done].
  split; [by apply Forall_app|done].
Qed.

Lemma dedupe_by_forall {A} (P : A -> Prop) (key : A -> string) seen l :
  Forall P l -> Forall P (dedupe_by key seen l).
Proof.
  intros H. revert seen. induction H as [|e l He Hl IH]; intros seen; simpl; [done|].
  case_bool_decide; auto.
Qed.

(** Every key survives. *)
Lemma dedupe_by_keeps {A} (key : A -> string) seen l e :
  e ∈ l -> key e ∉ seen -> exists e', e' ∈ dedupe_by key seen l /\ key e' = key e.
Proof.
  revert seen. induction l as [|x l IH]; intros seen He Hs; [by apply elem_of_nil in He|].
  simpl. apply elem_of_cons in He as [->|He].
  - rewrite bool_decide_false by done. exists x. split; [constructor|done].
  - case_bool_decide as Hx; [by apply IH|].
    destruct (decide (key e = key x)) as [E|E]; [exists x; split; [constructor|done]|].
    destruct (IH (key x :: seen) He) as (e' & ? & ?); [set_solver|].
    exists e'. split; [by constructor|done].
Qed.

Lemma refresh_wf i st : wf_state st -> wf_state (snd (refresh i st)) /\ Forall wf_entry (fst (refresh i st)).
Proof.
  intros []. unfold refresh, originEntries. destruct (origin_loop _ _ _) as [es hc] eqn:E.
  apply origin_loop_wf in E as [H1 H2]; [|done].
  assert (Hall : Forall wf_entry (dedupe_by entry_key []
            (interfaceEntries (in_ifaces i) ++ envEntries (in_env i) ++ es))).
  { apply dedupe_by_forall. rewrite !Forall_app. auto using interfaceEntries_wf, envEntries_wf. }
  split; [|done]. split; simpl; [|done|done]. intros ? ? [= <- <-]. exact Hall.
Qed.

Lemma getEntries_wf i st : wf_state st -> wf_state (snd (getEntries i st)) /\ Forall wf_entry (fst (getEntries i st)).
Proof.
  intros Hw. unfold getEntries. destruct (cache st) as [[es at_]|] eqn:E; [|by apply refresh_wf].
  destruct (_ <? _); [|by apply refresh_wf]. split; [done|]. by eapply wf_cache.
Qed.

Lemma infra_entry_wf raw t e :
  infra_entry raw t = Some e ->
  wf_cidr (ie_cidr e) /\ prefix (ie_cidr e) = full_prefix (ie_cidr e) /\ isNonPublicTarget (ie_cidr e) = false.
Proof.
  unfold infra_entry. destruct (parse_text _) eqn:E; [|done]. intros H. case_in H; [done|].
  simplify_eq. simpl. boolify. eauto with og.
Qed.

Lemma ensureInfraFresh_wf i st : wf_state st -> wf_state (ensureInfraFresh i st).
Proof.
  intros Hw. unfold ensureInfraFresh. case_match; [|done]. destruct (in_db i) as [[ds rs]|]; [|done].
  destruct Hw. split; [exact wf_cache0|exact wf_hosts0|]. unfold infra_list, infra_entries. cbn [infra].
  apply dedupe_by_forall, Forall_app. split.
  - apply Forall_omap. intros d e. apply infra_entry_wf.
  - apply Forall_flat_map_intro. intros r. apply Forall_omap. intros a e. apply infra_entry_wf.
Qed.

Lemma reachable_wf st : reachable st -> wf_state st.
Proof.
  induction 1; [|by apply ensureInfraFresh_wf|by apply getEntries_wf].
  split; simpl; [done|apply map_Forall_empty|constructor].
Qed.

#[export] Hint Resolve reachable_wf : og.

Lemma find_overlap_none {A} (cidr_of : A -> ParsedCidr) (skip : A -> bool) l t :
  Forall (fun e => wf_cidr (cidr_of e)) l -> wf_cidr t ->
  List.find (fun e => negb (skip e) && cidrOverlaps (cidr_of e) t) l = None ->
  forall e, e ∈ l -> skip e = false -> family (cidr_of e) = family t ->
  forall x, in_cidr (cidr_of e) x -> ~ in_cidr t x.
Proof.
  intros Hw Ht Hf e He Hs Hfam x Hx Hxt. rewrite find_none_iff in Hf.
  specialize (Hf e ltac:(by apply list_elem_of_In)). rewrite Hs in Hf. simpl in Hf.
  rewrite Forall_forall in Hw.
  assert (cidrOverlaps (cidr_of e) t = true); [|congruence].
  apply cidrOverlaps_spec; eauto.
Qed.

(** No protected entry that counts for the ban shares an address with [t]. *)
Definition clear_of_protected (entries : list ProtectedEntry) (infras : list InfraEntry)
    (includeInterfaces : bool) (tenantId : option Z) (t : ParsedCidr) : Prop :=
  (forall e, e ∈ entries -> (includeInterfaces = true \/ pe_source e <> Src_interface) ->
     family (pe_cidr e) = family t -> forall x, in_cidr (pe_cidr e) x -> ~ in_cidr t x)
  /\ (forall e, e ∈ infras -> (includeInterfaces = true \/ tenantId = Some (ie_tenantId e)) ->
     family (ie_cidr e) = family t -> forall x, in_cidr (ie_cidr e) x -> ~ in_cidr t x).

Lemma findProtectedConflict_none i st t inc tid :
  wf_state st -> wf_cidr t -> fst (findProtectedConflict i st t inc tid) = None ->
  clear_of_protected (fst (getEntries i st)) (infra_list st) inc tid t.
Proof.
  intros Hst Ht H. unfold findProtectedConflict in H.
  pose proof (getEntries_wf i st Hst) as [Hw1 Hw2].
  assert (Hinf : infra_list (snd (getEntries i st)) = infra_list st).
  { unfold getEntries, refresh. repeat case_match; simplify_eq; done. }
  destruct (getEntries i st) as [es st'] eqn:E. simpl in *.
  destruct (List.find _ es) eqn:F1; [done|]. simpl in H.
  destruct (List.find _ (infra_list st')) eqn:F2; [done|]. clear H. split.
  - intros e He Hs Hfam. 
    eapply (find_overlap_none pe_cidr (fun e => negb inc && bool_decide (pe_source e = Src_interface)));
      [exact Hw2|exact Ht|exact F1|exact He| |exact Hfam].
    destruct Hs as [->|Hs]; [done|]. rewrite bool_decide_false by done. by rewrite andb_false_r.
  - rewrite <- Hinf. intros e He Hs Hfam. 
    eapply (find_overlap_none ie_cidr (fun e => negb inc && negb (bool_decide (tid = Some (ie_tenantId e)))));
      [|exact Ht|exact F2|exact He| |exact Hfam].
    + destruct Hw1. eapply Forall_impl; [exact wf_infra0|]. naive_solver.
    + cbv beta. destruct Hs as [->| ->]; [done|]. rewrite bool_decide_true by done. by rewrite andb_false_r.
Qed.

Lemma isNonPublic_spec p :
  wf_cidr p -> isNonPublicTarget p = false ->
  forall r, r ∈ NON_PUBLIC_PARSED -> family r = family p -> forall x, in_cidr r x -> ~ in_cidr p x.
Proof.
  intros Hp H r Hr. unfold isNonPublicTarget in H. rewrite existsb_false_forall in H.
  pose proof (parsed_ranges_wf NON_PUBLIC_RANGES) as Hw. rewrite Forall_forall in Hw.
  intros Hf x Hx Hpx. specialize (H r ltac:(by apply list_elem_of_In)).
  assert (cidrOverlaps r p = true); [|congruence]. apply cidrOverlaps_spec; eauto.
Qed.

(** ** Keys *)

Lemma source_name_inj s s' : source_name s = source_name s' -> s = s'.
Proof. by destruct s, s'. Qed.

(** The key of an entry names its source, address and prefix. *)
Lemma entry_key_inj e e' : wf_entry e -> wf_entry e' -> entry_key e = entry_key e' -> e = e'.
Proof.
  unfold wf_entry. intros H H' E. unfold entry_key in E.
  apply (split_head_inj "|") in E as [Es E]; [|by destruct (pe_source e)|by destruct (pe_source e')].
  apply source_name_inj in Es.
  assert (Hp : Some (pe_cidr e) = Some (pe_cidr e')).
  { rewrite <- (parse_text_plain (pe_cidr e) _ H (or_intror eq_refl)).
    rewrite <- (parse_text_plain (pe_cidr e') _ H' (or_intror eq_refl)).
    f_equal. exact E. }
  destruct e, e'; simpl in *. congruence.
Qed.

(** ** Remembered DNS answers *)

Lemma origin_host_other dns h h' hc es hc' :
  h <> h' -> origin_host dns h hc = (es, hc') -> hc' !! h' = hc !! h'.
Proof.
  intros Hne H. unfold origin_host in H. destruct (parse_text h); simplify_eq; [done|].
  destruct (lookupWithTimeout dns h); [|done]. by rewrite lookup_insert_ne.
Qed.

Lemma origin_loop_other dns hosts h' hc es hc' :
  h' ∉ hosts -> origin_loop dns hosts hc = (es, hc') -> hc' !! h' = hc !! h'.
Proof.
  revert hc es hc'. induction hosts as [|h r IH]; intros hc es hc' Hni H; simpl in H; [by simplify_eq|].
  destruct (origin_host dns h hc) as [es1 hc1] eqn:E1.
  destruct (origin_loop dns r hc1) as [es2 hc2] eqn:E2. simplify_eq.
  apply not_elem_of_cons in Hni as [Hne Hni].
  rewrite (IH _ _ _ Hni E2). by eapply origin_host_other.
Qed.

(** A host whose lookup fails contributes its remembered addresses and keeps them. *)
Lemma origin_loop_retains dns hosts h addrs hc es hc' :
  NoDup hosts -> h ∈ hosts -> parse_text h = None -> dns h = None -> hc !! h = Some addrs ->
  origin_loop dns hosts hc = (es, hc') ->
  hc' !! h = Some addrs /\ forall a, a ∈ addrs -> {| pe_cidr := a; pe_source := Src_origin |} ∈ es.
Proof.
  intros Hnd Hin Hp Hd. revert hc es hc'. induction hosts as [|x r IH]; intros hc es hc' Hc H;
    [by apply elem_of_nil in Hin|]. simpl in H.
  destruct (origin_host dns x hc) as [es1 hc1] eqn:E1.
  destruct (origin_loop dns r hc1) as [es2 hc2] eqn:E2. simplify_eq.
  apply NoDup_cons in Hnd as [Hx Hnd]. destruct (decide (x = h)) as [->|Hne].
  - unfold origin_host, lookupWithTimeout in E1. rewrite Hp, Hd in E1. simpl in E1. rewrite Hc in E1.
    simplify_eq. simpl. rewrite (origin_loop_other _ _ _ _ _ _ Hx E2). split; [done|].
    intros a Ha. apply elem_of_app. left. apply list_elem_of_In, in_map_iff. exists a.
    split; [done|by apply list_elem_of_In].
  - apply elem_of_cons in Hin as [->|Hin]; [done|].
    destruct (IH Hnd Hin hc1 es2 hc') as [H1 H2]; [by rewrite (origin_host_other _ _ _ _ _ _ Hne E1)|done|].
    split; [done|]. intros a Ha. apply elem_of_app. right. by apply H2.
Qed.

(** ** Properties *)

(** What an accepted ban target satisfies. *)
Definition accepted (i : PInputs) (st : PState) (raw : js) (allowCidr global : bool) (tenantId : option Z)
    (t : BanTarget) : Prop :=
  parseIpOrCidr raw = Some (bt_parsed t)
  /\ (isNetwork t = true -> allowCidr = true)
  /\ floor_of (banPrefixFloor (in_env i)) (family (bt_parsed t)) <= prefix (bt_parsed t)
  /\ (forall r, In r RESERVED_PARSED -> family r = family (bt_parsed t) ->
        forall x, in_cidr r x -> ~ in_cidr (bt_parsed t) x)
  /\ (global = true -> forall r, r ∈ NON_PUBLIC_PARSED -> family r = family (bt_parsed t) ->
        forall x, in_cidr r x -> ~ in_cidr (bt_parsed t) x)
  /\ clear_of_protected (fst (getEntries i st)) (infra_list st) global tenantId (bt_parsed t).

Lemma checkBanTarget_accepted i st raw allowCidr global tenantId t :
  wf_state st -> fst (checkBanTarget i st raw allowCidr global tenantId) = BT_ok t ->
  accepted i st raw allowCidr global tenantId t.
Proof.
  intros Hw H. unfold checkBanTarget in H.
  destruct (parseBanTarget raw allowCidr (in_env i)) as [t'|] eqn:E; [|done].
  apply parseBanTarget_ok in E as (p & Hp & -> & Ha & Hf & Hr).
  pose proof (parseIpOrCidr_wf _ _ Hp) as Hwf. unfold findBanSafetyConflict in H.
  change (bt_parsed (mk_target p)) with p in H.
  destruct (global && isNonPublicTarget p) eqn:Eg; [done|].
  destruct (findProtectedConflict i st p global tenantId) as [[c|] st'] eqn:Ec; simpl in H; simplify_eq.
  unfold accepted. change (bt_parsed (mk_target p)) with p.
  split; [done|]. split; [intros Hn; apply Ha, Z.ltb_lt, Hn|]. split; [done|].
  split; [by apply isReserved_spec|]. split.
  - intros ->. apply isNonPublic_spec; done.
  - apply findProtectedConflict_none; [done..|]. by rewrite Ec.
Qed.

(** C3. The ban-safety contract: in every state the module can reach, a target
    [checkBanTarget] accepts is the parsed input, passes the syntax, floor and reserved
    checks, shares no address with the protected entries that count for the ban (every
    entry and every tenant's infra address for a global ban; for a scoped ban the
    interfaces and the other tenants' infra are left out) and, for a global ban, none
    with a non-public range. *)
Theorem checkBanTarget_safe (i : PInputs) (st : PState) (raw : js) (allowCidr global : bool)
    (tenantId : option Z) (t : BanTarget) (Hr : reachable st)
    (H : fst (checkBanTarget i st raw allowCidr global tenantId) = BT_ok t) :
  accepted i st raw allowCidr global tenantId t.
Proof. apply checkBanTarget_accepted; eauto with og. Qed.

Definition demo_inputs : PInputs :=
  {| in_ifaces := Some [["172.18.0.2"; "fe80::1"]];
     in_env := fun n => if String.eqb n "BAN_PROTECTED_IPS" then Some "203.0.113.0/24" else None;
     in_origin_hosts := ["ips.example.org"; "[2001:db8::5]"];
     in_dns := fun h => if String.eqb h "ips.example.org" then Some ["198.51.100.7"] else None;
     in_db := Some ([ {| dr_status := "approved"; dr_ip := Some "192.0.2.9"; dr_tenant := 3 |} ], []);
     in_now := 1000 |}.

Definition demo_state : PState :=
  ensureInfraFresh demo_inputs {| cache := None; hostCache := ∅; infra := None |}.

Lemma checkBanTarget_safe_witness :
  accepted demo_inputs demo_state (JStr "198.51.100.0/30") true true None
    (mk_target {| address := "198.51.100.0"; family := V4; prefix := 30 |}).
Proof.
  apply checkBanTarget_safe; [apply reach_infra, reach_init|vm_compute; reflexivity].
Defined.

(** No oracle: a refusal of a reserved, non-public or protected address carries the
    same message in every state, whatever made it refused. *)
Theorem refusal_is_uniform (i : PInputs) (st : PState) (raw : js) (allowCidr global : bool)
    (tenantId : option Z) :
  match fst (checkBanTarget i st raw allowCidr global tenantId) with
  | BT_err Reserved m | BT_err Protected m => m = RESERVED_OR_PROTECTED_MESSAGE
  | _ => True
  end.
Proof.
  unfold checkBanTarget.
  destruct (parseBanTarget raw allowCidr (in_env i)) as [t|c m] eqn:E.
  - destruct (findBanSafetyConflict i st (bt_parsed t) global tenantId) as [[c|] st'] eqn:Ec; [|done].
    unfold findBanSafetyConflict in Ec. repeat case_in Ec; simplify_eq; done.
  - unfold parseBanTarget in E. repeat case_in E; simplify_eq; done.
Qed.

(** A failing DNS lookup never unprotects an origin: when the merged cache is rebuilt,
    a configured host that does not resolve any more still contributes every address
    remembered from its last successful lookup, and keeps them remembered. *)
Theorem dns_failure_keeps_protection (i : PInputs) (st : PState) (h : string) (addrs : list ParsedCidr)
    (Hr : reachable st) (Hh : In h (origin_hosts (in_origin_hosts i))) (Hn : parse_text h = None)
    (Hd : in_dns i h = None) (Hc : hostCache st !! h = Some addrs) :
  hostCache (snd (refresh i st)) !! h = Some addrs
  /\ forall a, In a addrs -> In {| pe_cidr := a; pe_source := Src_origin |} (fst (refresh i st)).
Proof.
  pose proof (reachable_wf st Hr) as Hw. pose proof (proj2 (refresh_wf i st Hw)) as Hwr.
  unfold refresh, originEntries in *.
  destruct (origin_loop (in_dns i) (origin_hosts (in_origin_hosts i)) (hostCache st)) as [es hc] eqn:E.
  simpl in *. pose proof E as E'.
  apply (origin_loop_retains _ _ h addrs) in E as [H1 H2];
    [|apply uniq_nodup|by apply list_elem_of_In|done..].
  split; [done|]. intros a Ha. apply list_elem_of_In in Ha. specialize (H2 a Ha).
  apply origin_loop_wf in E' as [Hwe _]; [|by destruct Hw].
  destruct (dedupe_by_keeps entry_key []
    (interfaceEntries (in_ifaces i) ++ envEntries (in_env i) ++ es) _
    ltac:(rewrite !elem_of_app; eauto) ltac:(apply not_elem_of_nil)) as (e' & He' & Hk).
  rewrite Forall_forall in Hwr, Hwe. apply entry_key_inj in Hk; [|by apply Hwr|by apply Hwe].
  subst e'. by apply list_elem_of_In.
Qed.

(** The demo world once its lookups start to fail. *)
Definition demo_inputs_down : PInputs :=
  {| in_ifaces := None; in_env := fun _ => None; in_origin_hosts := ["ips.example.org"];
     in_dns := fun _ => None; in_db := None; in_now := CACHE_TTL_MS + 2000 |}.

Definition demo_addr : ParsedCidr := {| address := "198.51.100.7"; family := V4; prefix := 32 |}.

Lemma dns_failure_keeps_protection_witness :
  In {| pe_cidr := demo_addr; pe_source := Src_origin |}
    (fst (refresh demo_inputs_down (snd (getEntries demo_inputs demo_state)))).
Proof.
  refine (proj2 (dns_failure_keeps_protection demo_inputs_down (snd (getEntries demo_inputs demo_state))
    "ips.example.org" [demo_addr] _ _ _ _ _) demo_addr (or_introl eq_refl)).
  - apply reach_entries, reach_infra, reach_init.
  - vm_compute. by left.
  - vm_compute. reflexivity.
  - reflexivity.
  - vm_compute. reflexivity.
Defined.
