(* ===== verification/Tenancy.v ===== *)
(** * Tenants: read scope, write rules and the request gate

    [shared/src/tenants.ts], [server/src/utils/tenantWriteRules.ts],
    [server/src/utils/agentIdentity.ts], [server/src/services/banVisibility.ts] and
    [server/src/middleware/tenant.ts]. Reads may cross tenants from the Default tenant (the
    god view), writes follow the operating tenant. The gate's two caches are the state
    [TenantCaches]; the database it consults is a function of time. *)

From S2P Require Import Prelude JsString JsValue JsNumber.

Definition MASTER_TENANT_ID : Z := 1.

(** [tenantId === MASTER_TENANT_ID]; null and undefined are not the master. *)
Definition isMasterTenant (t : option Z) : bool :=
  match t with Some n => n =? MASTER_TENANT_ID | None => false end.

(** ** Write rules *)

Inductive AccessVerdict := V_ok | V_forbidden | V_not_found.
Inductive Mode := Read | Write.
#[export] Instance Mode_eq_dec : EqDecision Mode.
Proof. solve_decision. Defined.

Definition deviceAccessVerdict (deviceTenantId tenantId : Z) (mode : Mode) : AccessVerdict :=
  if deviceTenantId =? tenantId then V_ok
  else if bool_decide (mode = Read) && isMasterTenant (Some tenantId) then V_ok
  else if isMasterTenant (Some tenantId) then V_forbidden
  else V_not_found.

Inductive DeleteVerdict := D_ok | D_forbidden_global | D_forbidden_foreign | D_not_found.

Definition whitelistDeleteVerdict (scope : string) (row_tenant targetTenantId : option Z) (tenantId : Z) : DeleteVerdict :=
  if String.eqb scope "global" then
    if isMasterTenant (Some tenantId) then D_ok else D_forbidden_global
  else
    let owner := default MASTER_TENANT_ID row_tenant in
    if (tenantId =? owner) || bool_decide (targetTenantId = Some tenantId) then D_ok
    else if isMasterTenant (Some tenantId) then D_forbidden_foreign else D_not_found.

(** ** Agent identity *)

(** [/^[0-9a-f]{8}-[0-9a-f]{4}-[0-9a-f]{4}-[0-9a-f]{4}-[0-9a-f]{12}$/i] *)
Definition AGENT_API_KEY_RE (s : string) : bool :=
  let parts := split "-" s in
  forallb (str_forall is_hex) parts && bool_decide (map String.length parts = [8; 4; 4; 4; 12]%nat).

(** [/^[A-Za-z0-9][A-Za-z0-9._:-]{7,63}$/] *)
Definition uuid_char (c : ascii) : bool :=
  is_alnum c || Ascii.eqb c "." || Ascii.eqb c "_" || Ascii.eqb c ":" || Ascii.eqb c "-".
Definition DEVICE_UUID_RE (s : string) : bool :=
  match s with
  | String c t => is_alnum c && str_forall uuid_char t && (7 <=? String.length t)%nat && (String.length t <=? 63)%nat
  | EmptyString => false
  end.

Definition isAgentApiKeyFormat (v : js) : bool := match v with JStr s => AGENT_API_KEY_RE s | _ => false end.
Definition isDeviceUuidFormat (v : js) : bool := match v with JStr s => DEVICE_UUID_RE s | _ => false end.

Record AgentKeyRef := { key_id : Z; key_tenant : Z }.
Record DeviceBinding := { db_tenant : Z; db_api_key : option Z; db_type : option string }.

Definition agentKeyMayActForDevice (key : AgentKeyRef) (device : DeviceBinding) : bool :=
  if negb (db_tenant device =? key_tenant key) then false
  else if bool_decide (db_type device = Some "mikrotik") then false
  else match db_api_key device with
       | Some k => k =? key_id key
       | None => true
       end.

Definition agentKeyMayRebindDevice (key : AgentKeyRef) (device : DeviceBinding) : bool :=
  (db_tenant device =? key_tenant key) && negb (bool_decide (db_type device = Some "mikrotik")).

(** ** Read scope *)

Inductive ReadTenants := RT_all | RT_list (l : list Z).

Definition MAX_TENANT_FILTER : nat := 100.

(** [/^[1-9][0-9]{0,9}$/] *)
Definition tenant_id_re (s : string) : bool :=
  match s with
  | String c t => is_digit19 c && str_forall is_digit t && (String.length t <=? 9)%nat
  | EmptyString => false
  end.

Definition parseTenantIds (raw : js) : option (list Z) :=
  match raw with
  | JStr s =>
      if is_empty (trim s) then None
      else
        let ids := uniq (List.filter (fun n => n <=? 2147483647)
                     (omap (fun v => match str_to_number v with NInt n => Some n | NOther => None end)
                        (List.filter tenant_id_re (map trim (firstn MAX_TENANT_FILTER (split "," s)))))) in
        match ids with [] => None | _ => Some ids end
  | _ => None
  end.

(** [typeof t === 'number' && Number.isSafeInteger(t) && t > 0] *)
Definition valid_tenant_number (v : js) : option Z :=
  match safe_integer v with Some n => if n <=? 0 then None else Some n | None => None end.

Definition readTenantsFor (tenantId : js) (requested : option (list Z)) : ReadTenants :=
  match valid_tenant_number tenantId with
  | None => RT_list []
  | Some t => if negb (isMasterTenant (Some t)) then RT_list [t]
              else match requested with
                   | Some ((_ :: _) as l) => RT_list (uniq l)
                   | _ => RT_all
                   end
  end.

Definition resolveReadTenants (req_tenant query_tenants : js) : ReadTenants :=
  readTenantsFor req_tenant (parseTenantIds query_tenants).

(** The row condition [whereReadTenants] adds: SQL [IN] never holds for a NULL column. *)
Definition whereReadTenants (tenants : ReadTenants) (column : option Z) : bool :=
  match tenants with
  | RT_all => true
  | RT_list l => match column with Some t => existsb (Z.eqb t) l | None => false end
  end.

(** ** Ban visibility *)

Record BanVis := { bv_scope : string; bv_tenant : option Z; bv_origin : option Z }.

(** [_isAdmin] is ignored by the code: the platform role widens nothing. *)
Definition seesAllBans (tenantId : option Z) : bool := isMasterTenant tenantId.

(** The row condition [applyBanReadTenants] adds to a query. *)
Definition applyBanReadTenants (tenants : ReadTenants) (row : BanVis) : bool :=
  match tenants with
  | RT_all => true
  | RT_list [] => String.eqb (bv_scope row) "global"
  | RT_list l => String.eqb (bv_scope row) "global"
                 || match bv_tenant row with Some t => existsb (Z.eqb t) l | None => false end
  end.

Definition applyBanVisibility (tenantId : option Z) (row : BanVis) : bool :=
  if seesAllBans tenantId then true
  else applyBanReadTenants (RT_list (match tenantId with None => [] | Some t => [t] end)) row.

Definition canSeeBan (row : BanVis) (tenantId : option Z) : bool :=
  seesAllBans tenantId || String.eqb (bv_scope row) "global"
  || match bv_tenant row with Some t => bool_decide (tenantId = Some t) | None => false end.

Definition canSeeBanAuthor (row : BanVis) (tenantId : option Z) : bool :=
  seesAllBans tenantId
  || match bv_tenant row with Some t => bool_decide (tenantId = Some t) | None => false end
  || match bv_origin row with Some t => bool_decide (tenantId = Some t) | None => false end.

(** ** The request gate *)

Definition TTL_MS : Z := 5000.
Definition MAX_ENTRIES : Z := 10000.

Record CacheEntry := { ce_ok : bool; ce_at : Z }.

(** The module's [accessCache] and [existsCache]. *)
Record TenantCaches := {
  accessCache : gmap string CacheEntry;
  existsCache : gmap Z CacheEntry
}.

Definition remember {K} `{Countable K} (m : gmap K CacheEntry) (key : K) (ok : bool) (now : Z) : gmap K CacheEntry :=
  <[key := {| ce_ok := ok; ce_at := now |}]> (if MAX_ENTRIES <=? Z.of_nat (size m) then ∅ else m).

(** [`${userId}:${tenantId}`] *)
Definition access_key (userId tenantId : Z) : string := dec userId +:+ ":" +:+ dec tenantId.

(** [s.endsWith(p)] *)
Fixpoint ends_with (p s : string) : bool :=
  String.eqb s p || match s with String _ t => ends_with p t | EmptyString => false end.

Definition invalidateTenantAccess (userId : Z) (c : TenantCaches) : TenantCaches :=
  let prefix := dec userId +:+ ":" in
  {| accessCache := filter (fun kv => starts_with prefix (fst kv) = false) (accessCache c);
     existsCache := existsCache c |}.

Definition invalidateTenant (tenantId : Z) (c : TenantCaches) : TenantCaches :=
  let suffix := ":" +:+ dec tenantId in
  {| accessCache := filter (fun kv => ends_with suffix (fst kv) = false) (accessCache c);
     existsCache := delete tenantId (existsCache c) |}.

(** What the two lookups answer at some time: [tenantService.exists] and
    [tenantService.userHasAccess]. *)
Record TenantDb := { tdb_exists : Z -> bool; tdb_access : Z -> Z -> bool }.

Definition fresh (now : Z) (e : CacheEntry) : bool := now - ce_at e <? TTL_MS.

Definition canUseTenant (db : TenantDb) (now : Z) (userId : Z) (role : option string) (tenantId : js)
    (c : TenantCaches) : bool * TenantCaches :=
  match valid_tenant_number tenantId with
  | None => (false, c)
  | Some t =>
      if bool_decide (role = Some "admin") then
        let miss := let ok := tdb_exists db t in
          (ok, {| accessCache := accessCache c; existsCache := remember (existsCache c) t ok now |}) in
        match existsCache c !! t with
        | Some hit => if fresh now hit then (ce_ok hit, c) else miss
        | None => miss
        end
      else
        let key := access_key userId t in
        let miss := let ok := tdb_access db userId t in
          (ok, {| accessCache := remember (accessCache c) key ok now; existsCache := existsCache c |}) in
        match accessCache c !! key with
        | Some hit => if fresh now hit then (ce_ok hit, c) else miss
        | None => miss
        end
  end.

(** The session fields, method and header [requireTenant] reads. *)
Record TenantRequest := {
  rq_userId : option Z;
  rq_role : option string;
  rq_currentTenantId : js;
  rq_header : option string;
  rq_method : string
}.

Inductive GateOutcome :=
| Gate_next (tenantId : Z)
| Gate_401
| Gate_noTenantAccess
| Gate_tenantChanged.

Definition is_read_method (m : string) : bool :=
  String.eqb m "GET" || String.eqb m "HEAD" || String.eqb m "OPTIONS".

Definition requireTenant (db : TenantDb) (now : Z) (req : TenantRequest) (c : TenantCaches) : GateOutcome * TenantCaches :=
  match rq_userId req with
  | None | Some 0 => (Gate_401, c)
  | Some userId =>
      if is_nullish (rq_currentTenantId req) then (Gate_noTenantAccess, c)
      else
        let '(ok, c') := canUseTenant db now userId (rq_role req) (rq_currentTenantId req) c in
        match ok, valid_tenant_number (rq_currentTenantId req) with
        | true, Some tid =>
            match rq_header req with
            | Some claimedRaw =>
                if negb (is_read_method (rq_method req)) then
                  match positive_safe (str_to_number claimedRaw) with
                  | Some claimed => if negb (claimed =? tid) then (Gate_tenantChanged, c') else (Gate_next tid, c')
                  | None => (Gate_next tid, c')
                  end
                else (Gate_next tid, c')
            | None => (Gate_next tid, c')
            end
        | _, _ => (Gate_noTenantAccess, c')
        end
  end.

(** ** Lemmas *)

Lemma ends_with_iff p s : ends_with p s = true <-> exists r, s = r +:+ p.
Proof.
  induction s as [|c s IH]; cbn [ends_with].
  - rewrite orb_false_r, String.eqb_eq. split; [intros <-; by exists ""|].
    intros [[|? r] E]; [done|]. done.
  - rewrite orb_true_iff, String.eqb_eq, IH. split.
    + intros [<-|[r ->]]; [by exists ""|]. by exists (String c r).
    + intros [[|d r] E]; [by left|]. right. injection E as -> ->. by exists r.
Qed.

Lemma dec_no_colon n : str_includes ":" (dec n) = false.
Proof. by apply dec_absent. Qed.

Lemma access_key_inj u t u' t' : access_key u t = access_key u' t' -> u = u' /\ t = t'.
Proof.
  intros E. apply (split_head_inj ":") in E as [E1 E2]; [|apply dec_no_colon..].
  split; by apply dec_inj.
Qed.

Lemma access_key_prefix u u' t : starts_with (dec u +:+ ":") (access_key u' t) = bool_decide (u = u').
Proof.
  apply eq_bool_prop_intro. rewrite bool_decide_spec. rewrite Is_true_true, starts_with_iff. split.
  - intros [r E]. unfold access_key in E. rewrite app_assoc_str in E.
    apply (split_head_inj ":") in E as [E _]; [|apply dec_no_colon..]. symmetry. by apply dec_inj.
  - intros ->. exists (dec t). unfold access_key. by rewrite app_assoc_str.
Qed.

Lemma access_key_suffix u t t' : ends_with (":" +:+ dec t') (access_key u t) = bool_decide (t' = t).
Proof.
  apply eq_bool_prop_intro. rewrite bool_decide_spec. rewrite Is_true_true, ends_with_iff. split.
  - intros [r E]. apply (split_last_inj ":") in E as [_ E]; [|apply dec_no_colon..].
    symmetry. by apply dec_inj.
  - intros ->. by exists (dec u).
Qed.

Lemma valid_tenant_number_spec v t :
  valid_tenant_number v = Some t <-> v = JNum (NInt t) /\ 0 < t <= max_safe_integer.
Proof.
  unfold valid_tenant_number, safe_integer. destruct v as [| |[]|[z|]|s|l|o]; try (split; [done|by intros [? _]]).
  destruct (Z.leb_spec (Z.abs z) max_safe_integer).
  - destruct (Z.leb_spec z 0); (split; [intros [= <-]; split; [done|lia]|intros [[= <-] ?]; try lia; done]) ||
      (split; [done|intros [[= <-] ?]; lia]).
  - split; [done|]. intros [[= <-] ?]. lia.
Qed.

Lemma remember_lookup {K} `{Countable K} (m : gmap K CacheEntry) k ok now k' e :
  remember m k ok now !! k' = Some e ->
  (k' = k /\ e = {| ce_ok := ok; ce_at := now |}) \/ m !! k' = Some e.
Proof.
  unfold remember. destruct (decide (k' = k)) as [->|Hne].
  - rewrite lookup_insert_eq. intros [= <-]. by left.
  - rewrite lookup_insert_ne by congruence. case_match; [by rewrite lookup_empty|]. by right.
Qed.

(** ** The gate over time *)

Section Gate.
(** What the database answers at each instant. *)
Context (dbs : Z -> TenantDb).

(** Caches after any sequence of lookups and invalidations, on a clock that does not go
    back; a lookup reads the database and remembers the answer in one step. *)
Inductive gate_reach : Z -> TenantCaches -> Prop :=
| gr_init now : gate_reach now {| accessCache := ∅; existsCache := ∅ |}
| gr_wait now now' c : gate_reach now c -> now <= now' -> gate_reach now' c
| gr_use now c u r t : gate_reach now c -> gate_reach now (snd (canUseTenant (dbs now) now u r t c))
| gr_user now c u : gate_reach now c -> gate_reach now (invalidateTenantAccess u c)
| gr_tenant now c t : gate_reach now c -> gate_reach now (invalidateTenant t c).

(** Every cached decision is what the database answered when it was taken. *)
Record caches_true (now : Z) (c : TenantCaches) : Prop := {
  ct_access : forall k e, accessCache c !! k = Some e ->
    ce_at e <= now /\ exists u t, k = access_key u t /\ ce_ok e = tdb_access (dbs (ce_at e)) u t;
  ct_exists : forall t e, existsCache c !! t = Some e ->
    ce_at e <= now /\ ce_ok e = tdb_exists (dbs (ce_at e)) t
}.

Lemma canUseTenant_true now u r t c :
  caches_true now c -> caches_true now (snd (canUseTenant (dbs now) now u r t c)).
Proof.
  intros Hc. unfold canUseTenant. destruct (valid_tenant_number t) as [n|]; [|done].
  repeat case_match; try done; (split; cbn [snd accessCache existsCache]; [|]);
    intros k e He; try (by eapply ct_access in He); try (by eapply ct_exists in He);
    apply remember_lookup in He as [[-> ->]|He]; simpl;
    try (by eapply ct_access in He); try (by eapply ct_exists in He);
    split; try lia; eauto.
Qed.

Lemma gate_reach_true now c : gate_reach now c -> caches_true now c.
Proof.
  induction 1 as [now|now now' c Hr IH Hle|now c u r t Hr IH|now c u Hr IH|now c t Hr IH].
  - split; intros ? ?; cbn [accessCache existsCache]; by rewrite lookup_empty.
  - destruct IH as [Ha He]. split; intros k e Hk; [apply Ha in Hk|apply He in Hk];
      (split; [lia|by apply Hk]).
  - by apply canUseTenant_true.
  - destruct IH as [Ha He]. split; cbn [accessCache existsCache invalidateTenantAccess]; [|done].
    intros k e Hk. apply map_lookup_filter_Some in Hk as [Hk _]. by apply Ha.
  - destruct IH as [Ha He]. split; cbn [accessCache existsCache invalidateTenant].
    + intros k e Hk. apply map_lookup_filter_Some in Hk as [Hk _]. by apply Ha.
    + intros k e Hk. apply lookup_delete_Some in Hk as [_ Hk]. by apply He.
Qed.

(** What the database says about a user and a tenant at an instant. *)
Definition tdb_grants (db : TenantDb) (u : Z) (role : option string) (t : Z) : bool :=
  if bool_decide (role = Some "admin") then tdb_exists db t else tdb_access db u t.

Lemma canUseTenant_recent now u r t c :
  gate_reach now c -> fst (canUseTenant (dbs now) now u r t c) = true ->
  exists n, valid_tenant_number t = Some n /\
  exists at_, now - TTL_MS < at_ <= now /\ tdb_grants (dbs at_) u r n = true.
Proof.
  intros Hr. apply gate_reach_true in Hr as [Ha He]. unfold canUseTenant, tdb_grants.
  destruct (valid_tenant_number t) as [n|]; [|done]. intros H. exists n. split; [done|].
  destruct (bool_decide _) eqn:Er; cbn [fst] in H.
  - destruct (existsCache c !! n) as [e|] eqn:El; [destruct (fresh now e) eqn:Ef|];
      try (exists now; split; [unfold TTL_MS; lia|done]).
    apply He in El as [H1 H2]. exists (ce_at e). unfold fresh in Ef. boolify.
    split; [lia|]. by rewrite <- H2.
  - destruct (accessCache c !! _) as [e|] eqn:El; [destruct (fresh now e) eqn:Ef|];
      try (exists now; split; [unfold TTL_MS; lia|done]).
    apply Ha in El as (H1 & u' & t' & Ek & H2). apply access_key_inj in Ek as [<- <-].
    exists (ce_at e). unfold fresh in Ef. boolify. split; [lia|]. by rewrite <- H2.
Qed.
End Gate.

(** ** Properties *)

(** C8. The request gate, in every reachable cache state: a request passes only with the
    session's own tenant, for which the database granted the user access less than five
    seconds ago (existence of the tenant for a platform admin, membership otherwise), and a
    write whose [X-Obliguard-Tenant] header names a tenant passes only when it names the
    session's. *)
Theorem requireTenant_sound (dbs : Z -> TenantDb) now c req tid c' :
  gate_reach dbs now c ->
  requireTenant (dbs now) now req c = (Gate_next tid, c') ->
  rq_currentTenantId req = JNum (NInt tid) /\ 0 < tid
  /\ (exists u at_, rq_userId req = Some u /\ now - TTL_MS < at_ <= now
        /\ tdb_grants (dbs at_) u (rq_role req) tid = true)
  /\ (is_read_method (rq_method req) = false -> forall claimed raw,
        rq_header req = Some raw -> positive_safe (str_to_number raw) = Some claimed -> claimed = tid).
Proof.
  intros Hr H. unfold requireTenant in H.
  destruct (rq_userId req) as [u|] eqn:Eu; [|done].
  destruct (decide (u = 0)) as [->|Hu]; [done|].
  assert (Hg : (if is_nullish (rq_currentTenantId req) then True else
    exists n, valid_tenant_number (rq_currentTenantId req) = Some n /\ tid = n /\
      fst (canUseTenant (dbs now) now u (rq_role req) (rq_currentTenantId req) c) = true /\
      (is_read_method (rq_method req) = false -> forall claimed raw,
        rq_header req = Some raw -> positive_safe (str_to_number raw) = Some claimed -> claimed = n))).
  { destruct u; [done| |]; (destruct (is_nullish _); [done|]);
      destruct (canUseTenant _ _ _ _ _ _) as [[] c1]; try done;
      (destruct (valid_tenant_number _) as [n|]; [|done]); exists n; split; try done;
      (destruct (rq_header req) as [raw|]; [|by simplify_eq]);
      (destruct (is_read_method _) eqn:Em; cbn [negb] in H; [by simplify_eq|]);
      (destruct (positive_safe _) as [cl|] eqn:Ec; [|simplify_eq; repeat split; congruence]);
      (destruct (Z.eqb_spec cl n); cbn [negb] in H; [|done]); simplify_eq;
      repeat split; congruence. }
  destruct (is_nullish _) eqn:En; [by destruct u|].
  destruct Hg as (n & Hn & -> & Hc & Hw). destruct (proj1 (valid_tenant_number_spec _ _) Hn) as [-> Hb].
  split; [done|]. split; [lia|]. split; [|done].
  destruct (canUseTenant_recent dbs now u _ _ c Hr Hc) as (n' & Hn' & at_ & Hat & Hgr).
  assert (n' = n) as -> by congruence. by exists u, at_.
Qed.

Definition sample_db : TenantDb := {| tdb_exists := Z.eqb 3; tdb_access := fun u t => (u =? 7) && (t =? 3) |}.
Definition sample_write : TenantRequest :=
  {| rq_userId := Some 7; rq_role := Some "user"; rq_currentTenantId := JNum (NInt 3);
     rq_header := Some "3"; rq_method := "POST" |}.

Lemma requireTenant_sound_witness :
  rq_currentTenantId sample_write = JNum (NInt 3) /\ 0 < 3
  /\ (exists u at_, rq_userId sample_write = Some u /\ 1000 - TTL_MS < at_ <= 1000
        /\ tdb_grants sample_db u (rq_role sample_write) 3 = true)
  /\ (is_read_method (rq_method sample_write) = false -> forall claimed raw,
        rq_header sample_write = Some raw -> positive_safe (str_to_number raw) = Some claimed -> claimed = 3).
Proof.
  apply (requireTenant_sound (fun _ => sample_db) 1000
    (snd (requireTenant sample_db 900 sample_write {| accessCache := ∅; existsCache := ∅ |}))
    sample_write 3
    (snd (requireTenant sample_db 900 sample_write {| accessCache := ∅; existsCache := ∅ |}))).
  - apply (gr_wait _ 900); [|lia].
    apply (gr_use (fun _ => sample_db) 900 _ 7 (Some "user") (JNum (NInt 3)) (gr_init _ 900)).
  - vm_compute. reflexivity.
Defined.

(** Invalidation is exact: after [invalidateTenantAccess u] the next decision on [u] as
    a member is read from the database, after [invalidateTenant t] every decision about [t]
    is, and the cached decisions about other users (other tenants) are untouched. *)
Theorem invalidation_exact c u t :
  (forall db now r n, valid_tenant_number n = Some t -> r <> Some "admin" ->
     fst (canUseTenant db now u r n (invalidateTenantAccess u c)) = tdb_access db u t)
  /\ (forall db now u' r n, valid_tenant_number n = Some t ->
        fst (canUseTenant db now u' r n (invalidateTenant t c)) = tdb_grants db u' r t)
  /\ (forall u' t', u' <> u ->
        accessCache (invalidateTenantAccess u c) !! access_key u' t' = accessCache c !! access_key u' t')
  /\ (forall u' t', t' <> t ->
        accessCache (invalidateTenant t c) !! access_key u' t' = accessCache c !! access_key u' t'
        /\ existsCache (invalidateTenant t c) !! t' = existsCache c !! t').
Proof.
  assert (Hf : forall (m : gmap string CacheEntry) (P : string * CacheEntry -> Prop)
      {HP : forall x, Decision (P x)} k, (forall e, P (k, e)) -> filter P m !! k = m !! k).
  { intros m P HP k Hk. destruct (m !! k) eqn:E.
    - by apply map_lookup_filter_Some.
    - by apply map_lookup_filter_None; left. }
  assert (Hn : forall (m : gmap string CacheEntry) (P : string * CacheEntry -> Prop)
      {HP : forall x, Decision (P x)} k, (forall e, ~ P (k, e)) -> filter P m !! k = None).
  { intros m P HP k Hk. apply map_lookup_filter_None. right. intros e _. apply Hk. }
  split; [|split; [|split]].
  - intros db now r n Hv Hr. unfold canUseTenant. rewrite Hv, bool_decide_false by done.
    cbn [accessCache invalidateTenantAccess]. rewrite Hn; [done|].
    intros e. cbn [fst]. by rewrite access_key_prefix, bool_decide_true.
  - intros db now u' r n Hv. unfold canUseTenant, tdb_grants. rewrite Hv.
    cbn [accessCache existsCache invalidateTenant]. rewrite lookup_delete_eq, Hn;
      [by case_bool_decide|]. intros e. cbn [fst]. by rewrite access_key_suffix, bool_decide_true.
  - intros u' t' Hne. cbn [accessCache invalidateTenantAccess]. apply Hf.
    intros e. cbn [fst]. by rewrite access_key_prefix, bool_decide_false.
  - intros u' t' Hne. cbn [accessCache existsCache invalidateTenant]. split.
    + apply Hf. intros e. cbn [fst]. by rewrite access_key_suffix, bool_decide_false.
    + by apply lookup_delete_ne.
Qed.

(** One visibility rule everywhere: for a valid operating tenant the row condition of
    the lists, that of the read-tenant filter and the per-ban check agree; a tenant-chip
    filter only narrows what the tenant sees; a tenant other than Default sees the global
    bans and its own, whatever chips it sends; and an author is shown only with the ban's
    owner, its origin tenant or Default. *)
Theorem ban_visibility_agrees row t requested :
  0 < t <= max_safe_integer ->
  canSeeBan row (Some t) = applyBanVisibility (Some t) row
  /\ canSeeBan row (Some t) = applyBanReadTenants (readTenantsFor (JNum (NInt t)) None) row
  /\ (applyBanReadTenants (readTenantsFor (JNum (NInt t)) requested) row = true -> canSeeBan row (Some t) = true)
  /\ (t <> MASTER_TENANT_ID ->
        readTenantsFor (JNum (NInt t)) requested = RT_list [t]
        /\ (canSeeBan row (Some t) = true <-> bv_scope row = "global" \/ bv_tenant row = Some t)
        /\ (canSeeBanAuthor row (Some t) = true <-> bv_tenant row = Some t \/ bv_origin row = Some t)).
Proof.
  intros Ht. assert (Hv : valid_tenant_number (JNum (NInt t)) = Some t) by (by apply valid_tenant_number_spec).
  assert (Hb : forall x, (t =? x) || false = bool_decide (Some t = Some x)).
  { intros x. rewrite orb_false_r. destruct (Z.eqb_spec t x); case_bool_decide; congruence. }
  unfold readTenantsFor, canSeeBan, canSeeBanAuthor, applyBanVisibility, seesAllBans. rewrite Hv.
  destruct (isMasterTenant (Some t)) eqn:Em; cbn [negb orb].
  - repeat split; unfold isMasterTenant in Em; boolify; done.
  - assert (Hrow : forall x, match x with Some y => existsb (Z.eqb y) [t] | None => false end
        = match x with Some y => bool_decide (Some t = Some y) | None => false end).
    { intros [x|]; [|done]. cbn [existsb]. rewrite orb_false_r, Z.eqb_sym. by rewrite <- Hb, orb_false_r. }
    unfold applyBanReadTenants. rewrite Hrow.
    split; [done|]. split; [done|]. split; [done|]. intros _. split; [done|].
    split; [rewrite orb_true_iff, String.eqb_eq|rewrite orb_true_iff].
    + destruct (bv_tenant row) as [x|]; [rewrite bool_decide_eq_true|]; naive_solver.
    + destruct (bv_tenant row) as [x|], (bv_origin row) as [y|]; rewrite ?bool_decide_eq_true; naive_solver.
Qed.

Lemma ban_visibility_agrees_witness :
  canSeeBan {| bv_scope := "tenant"; bv_tenant := Some 3; bv_origin := None |} (Some 3)
  = applyBanVisibility (Some 3) {| bv_scope := "tenant"; bv_tenant := Some 3; bv_origin := None |}.
Proof.
  destruct (ban_visibility_agrees {| bv_scope := "tenant"; bv_tenant := Some 3; bv_origin := None |} 3 (Some [4])
    ltac:(unfold max_safe_integer; lia)) as [H _]. exact H.
Defined.
