(* ===== verification/Access.v ===== *)
(** * Directory, permissions and agent access

    The rows that say who may reach what: tenants, memberships, teams and their grants,
    groups and their closure, devices. [server/src/services/permission.service.ts],
    [tenantScope.service.ts], [agentScope.service.ts], [deviceAccess.service.ts] and the
    capability catalogue of [shared/src/types.ts]. Queries are folds over the tables; a
    [.first()] returns the first matching row. *)

From S2P Require Import Prelude JsString JsValue JsNumber JsJson Tenancy.

(** ** Tables *)

Inductive PermissionLevel := RO | RW.
#[export] Instance PermissionLevel_eq_dec : EqDecision PermissionLevel.
Proof. solve_decision. Defined.

Record Device := {
  dev_id : Z; dev_uuid : string; dev_tenant : Z; dev_status : string;
  dev_type : option string; dev_group : option Z
}.
#[export] Instance Device_eq_dec : EqDecision Device.
Proof. solve_decision. Defined.

Record Group := { grp_id : Z; grp_tenant : Z; grp_general : bool; grp_evaluate_only : bool }.
Record Team := { team_id : Z; team_tenant : Z; team_can_create : bool }.
Record Grant := { gr_team : Z; gr_scope : string; gr_scope_id : Z; gr_level : PermissionLevel }.

Record Directory := {
  d_devices : list Device;
  d_groups : list Group;
  d_closure : list (Z * Z);              (** (ancestor, descendant), each group under itself *)
  d_teams : list Team;
  d_memberships : list (Z * Z);          (** (team, user) *)
  d_grants : list Grant;
  d_user_tenants : list (Z * Z * string); (** (user, tenant, role) *)
  d_permission_sets : list (string * js)  (** (slug, capabilities) *)
}.

Definition mem (x : Z) (l : list Z) : bool := existsb (Z.eqb x) l.

(** ** Capabilities *)

Definition TENANT_CAPABILITY_KEYS : list string :=
  [ "ips.view"; "bans.create"; "bans.lift"; "bans.promote"; "bans.wipe"; "whitelist.write";
    "ip.labels"; "ip.reputation.clear"; "templates.write"; "agents.manage"; "agents.update";
    "agents.delete"; "agents.keys"; "agents.approve"; "firewall.rules.read";
    "firewall.rules.write"; "groups.manage"; "notifications.manage"; "settings";
    "integrations.mikrotik"; "integrations.m365"; "rate_limit.write"; "remote_blocklists";
    "users.manage"; "audit.read" ].

Definition TENANT_ROLE_ADMIN : string := "admin".
Definition normalizeTenantRole (role : string) : string := if String.eqb role "member" then "user" else role.

Definition isTenantCapability (key : string) : bool := existsb (String.eqb key) TENANT_CAPABILITY_KEYS.

Definition CAPABILITY_ALIASES : list (string * list string) :=
  [ ("monitor_rw", ["agents.manage"; "agents.update"; "firewall.rules.read"]);
    ("agents_rw", ["agents.manage"; "agents.update"; "firewall.rules.read"]);
    ("group_rw", ["groups.manage"]);
    ("whitelist", ["whitelist.write"]);
    ("bans", ["bans.create"; "bans.lift"]) ].

Definition ALL_CAPABILITIES : list string := map fst CAPABILITY_ALIASES.

Definition expandCapability (key : string) : list string :=
  if isTenantCapability key then [key]
  else match List.find (fun a => String.eqb (fst a) key) CAPABILITY_ALIASES with
       | Some (_, l) => l
       | None => []
       end.

Definition expandCapabilities (keys : list string) : list string :=
  let out := flat_map expandCapability keys in
  List.filter (fun c => existsb (String.eqb c) out) TENANT_CAPABILITY_KEYS.

Definition holdsCapability (held : list string) (key : string) : bool :=
  match expandCapability key with
  | [] => false
  | need => forallb (fun c => existsb (String.eqb c) held) need
  end.

Definition satisfiedCapabilityAliases (held : list string) : list string :=
  List.filter (holdsCapability held) ALL_CAPABILITIES.

(** ** permissionService *)

(** The role in a tenant, [None] without a membership. *)
Definition getTenantRole (d : Directory) (userId tenantId : Z) : option string :=
  match List.find (fun r => (fst (fst r) =? userId) && (snd (fst r) =? tenantId)) (d_user_tenants d) with
  | Some (_, role) => Some (normalizeTenantRole role)
  | None => None
  end.

Definition getRoleCapabilities (d : Directory) (role : string) : list string :=
  let slug := normalizeTenantRole role in
  if String.eqb slug TENANT_ROLE_ADMIN then TENANT_CAPABILITY_KEYS
  else match List.find (fun r => String.eqb (fst r) slug) (d_permission_sets d) with
       | None => []
       | Some (_, raw) =>
           let caps := match raw with JStr s => default (JArr []) (JSON_parse s) | _ => raw end in
           match caps with
           | JArr l => expandCapabilities (omap (fun c => match c with JStr s => Some s | _ => None end) l)
           | _ => []
           end
       end.

Definition getTenantCapabilities (d : Directory) (userId : Z) (isAdmin : bool) (tenantId : option Z) : list string :=
  if isAdmin then TENANT_CAPABILITY_KEYS
  else match tenantId with
       | None => []
       | Some t => match getTenantRole d userId t with None => [] | Some role => getRoleCapabilities d role end
       end.

Definition hasCapability (d : Directory) (userId : Z) (isAdmin : bool) (tenantId : option Z) (key : string) : bool :=
  if isAdmin then true else holdsCapability (getTenantCapabilities d userId false tenantId) key.

(** [scopeTeamsToTenant]: the teams of the tenant, every team when none is given. *)
Definition team_in_tenant (d : Directory) (tenantId : option Z) (team : Z) : bool :=
  match tenantId with
  | None => true
  | Some t => mem team (map team_id (List.filter (fun x => team_tenant x =? t) (d_teams d)))
  end.

Definition getUserTeamIds (d : Directory) (userId : Z) (tenantId : option Z) : list Z :=
  map fst (List.filter (fun m => (snd m =? userId) && team_in_tenant d tenantId (fst m)) (d_memberships d)).

Definition bypassesTeamScope (d : Directory) (userId : Z) (isAdmin : bool) (tenantId : option Z) : bool :=
  if isAdmin then true
  else match tenantId with
       | None => false
       | Some t => bool_decide (getTenantRole d userId t = Some TENANT_ROLE_ADMIN)
       end.

Definition canCreate (d : Directory) (userId : Z) (isAdmin : bool) (tenantId : option Z) : bool :=
  if isAdmin then true
  else existsb (fun t => team_can_create t
                 && match tenantId with None => true | Some n => team_tenant t =? n end
                 && existsb (fun m => (fst m =? team_id t) && (snd m =? userId)) (d_memberships d))
         (d_teams d).

(** The rows of [team_permissions] joined with the user's memberships and the closure. *)
Definition _getGroupPermissionViaClosure (d : Directory) (userId groupId : Z) (tenantId : option Z) : option PermissionLevel :=
  let rows := List.filter (fun g => String.eqb (gr_scope g) "group"
                 && existsb (fun m => (fst m =? gr_team g) && (snd m =? userId)) (d_memberships d)
                 && existsb (fun c => (fst c =? gr_scope_id g) && (snd c =? groupId)) (d_closure d)
                 && team_in_tenant d tenantId (gr_team g)) (d_grants d) in
  match rows with
  | [] => None
  | _ => Some (if existsb (fun g => bool_decide (gr_level g = RW)) rows then RW else RO)
  end.

Definition getGroupPermission (d : Directory) (userId groupId : Z) (isAdmin : bool) (tenantId : option Z) : option PermissionLevel :=
  if isAdmin then Some RW
  else if bypassesTeamScope d userId false tenantId then Some RW
  else
    let general := match List.find (fun g => grp_id g =? groupId) (d_groups d) with
                   | Some g => grp_general g | None => false end in
    if general then Some (default RO (_getGroupPermissionViaClosure d userId groupId tenantId))
    else _getGroupPermissionViaClosure d userId groupId tenantId.

Definition canReadGroup (d : Directory) (userId groupId : Z) (isAdmin : bool) (tenantId : option Z) : bool :=
  bool_decide (is_Some (getGroupPermission d userId groupId isAdmin tenantId)).
Definition canWriteGroup (d : Directory) (userId groupId : Z) (isAdmin : bool) (tenantId : option Z) : bool :=
  bool_decide (getGroupPermission d userId groupId isAdmin tenantId = Some RW).

(** A list of ids, or every id. *)
Inductive Ids := Ids_all | Ids_list (l : list Z).

Definition getVisibleGroupIds (d : Directory) (userId : Z) (isAdmin : bool) (tenantId : option Z) : Ids :=
  if isAdmin then Ids_all
  else if bypassesTeamScope d userId false tenantId then Ids_all
  else
    let generalIds := map grp_id (List.filter grp_general (d_groups d)) in
    match getUserTeamIds d userId tenantId with
    | [] => Ids_list generalIds
    | teamIds =>
        let permGroupIds := map gr_scope_id
          (List.filter (fun g => mem (gr_team g) teamIds && String.eqb (gr_scope g) "group") (d_grants d)) in
        let desc := map snd (List.filter (fun c => mem (fst c) permGroupIds) (d_closure d)) in
        let anc := map fst (List.filter (fun c => mem (snd c) permGroupIds) (d_closure d)) in
        Ids_list (uniq (generalIds ++ desc ++ anc))
    end.

(** ** Agent scope *)

Inductive TeamScopeMode := Restrict_if_granted | Obliance_strict.
Definition TEAM_SCOPE_MODE : TeamScopeMode := Restrict_if_granted.

(** [{ all: true }], or the granted agents with their level. *)
Inductive AgentScope := Scope_all | Scope_levels (levels : gmap Z PermissionLevel).

Definition higherLevel (a : option PermissionLevel) (b : PermissionLevel) : PermissionLevel :=
  if bool_decide (a = Some RW) || bool_decide (b = RW) then RW else RO.

Definition add_level (levels : gmap Z PermissionLevel) (idl : Z * PermissionLevel) : gmap Z PermissionLevel :=
  <[fst idl := higherLevel (levels !! fst idl) (snd idl)]> levels.

Definition agent_scopes : list string := ["group"; "agent"; "ungrouped"].

(** The levels the grants give to the devices in scope, in the order they are added: group
    grants (the group and its subtree, through [group_closure]), direct grants, and the
    [ungrouped] grants as one. *)
Definition of_scope (s : string) (grants : list Grant) : list Grant :=
  List.filter (fun g => String.eqb (gr_scope g) s) grants.

Definition group_rows (d : Directory) (devices : list Device) (grants : list Grant) : list (Z * PermissionLevel) :=
  flat_map (fun x =>
    match dev_group x with
    | None => []
    | Some gid =>
        flat_map (fun c => if snd c =? gid
          then map (fun g => (dev_id x, gr_level g))
                 (List.filter (fun g => gr_scope_id g =? fst c) (of_scope "group" grants))
          else []) (d_closure d)
    end) devices.

Definition agent_rows (devices : list Device) (grants : list Grant) : list (Z * PermissionLevel) :=
  let agentIds := map gr_scope_id (of_scope "agent" grants) in
  let ids := map dev_id (List.filter (fun x => mem (dev_id x) agentIds) devices) in
  map (fun g => (gr_scope_id g, gr_level g)) (List.filter (fun g => mem (gr_scope_id g) ids) (of_scope "agent" grants)).

Definition is_rw (g : Grant) : bool := bool_decide (gr_level g = RW).

Definition ungrouped_rows (devices : list Device) (grants : list Grant) : list (Z * PermissionLevel) :=
  match of_scope "ungrouped" grants with
  | [] => []
  | ungrouped =>
      let level := if existsb is_rw ungrouped then RW else RO in
      map (fun x => (dev_id x, level)) (List.filter (fun x => bool_decide (dev_group x = None)) devices)
  end.

Definition agent_grants (d : Directory) (userId : Z) (tenantId : option Z) : list Grant :=
  let teamIds := getUserTeamIds d userId tenantId in
  List.filter (fun g => mem (gr_team g) teamIds && existsb (String.eqb (gr_scope g)) agent_scopes) (d_grants d).

Definition in_scope (t : Z) (onlyDeviceId : option Z) (x : Device) : bool :=
  (dev_tenant x =? t) && match onlyDeviceId with Some o => dev_id x =? o | None => true end.

Definition getAgentScope (d : Directory) (userId : Z) (tenantId : option Z) (isAdmin : bool)
    (onlyDeviceId : option Z) : AgentScope :=
  if bypassesTeamScope d userId isAdmin tenantId then Scope_all
  else match tenantId with
  | None => Scope_levels ∅
  | Some t =>
      match agent_grants d userId tenantId with
      | [] => match TEAM_SCOPE_MODE with Restrict_if_granted => Scope_all | Obliance_strict => Scope_levels ∅ end
      | grants =>
          let devices := List.filter (in_scope t onlyDeviceId) (d_devices d) in
          Scope_levels (fold_left add_level
            (group_rows d devices grants ++ agent_rows devices grants ++ ungrouped_rows devices grants) ∅)
      end
  end.

Inductive AgentPermission := P_none | P_level (l : PermissionLevel).

Definition getAgentPermission (d : Directory) (userId : Z) (tenantId : option Z) (deviceId : Z) (isAdmin : bool) : AgentPermission :=
  match getAgentScope d userId tenantId isAdmin (Some deviceId) with
  | Scope_all => P_level RW
  | Scope_levels levels => match levels !! deviceId with Some l => P_level l | None => P_none end
  end.

Definition getVisibleAgentIds (d : Directory) (userId : Z) (tenantId : option Z) (isAdmin : bool) : Ids :=
  match getAgentScope d userId tenantId isAdmin None with
  | Scope_all => Ids_all
  | Scope_levels levels => Ids_list (map fst (map_to_list levels))
  end.

Definition getWritableAgentIds (d : Directory) (userId : Z) (tenantId : option Z) (isAdmin : bool) : Ids :=
  match getAgentScope d userId tenantId isAdmin None with
  | Scope_all => Ids_all
  | Scope_levels levels => Ids_list (map fst (List.filter (fun kl => bool_decide (snd kl = RW)) (map_to_list levels)))
  end.

(** [scopeAgentIds], [scopeAgentLevel], [intersectAgentIds] *)
Definition scopeAgentIds (scope : AgentScope) (need : Mode) : Ids :=
  match scope with
  | Scope_all => Ids_all
  | Scope_levels levels =>
      Ids_list (map fst (List.filter (fun kl => bool_decide (need = Read) || bool_decide (snd kl = RW)) (map_to_list levels)))
  end.
Definition scopeAgentLevel (scope : AgentScope) (id : Z) : option PermissionLevel :=
  match scope with Scope_all => Some RW | Scope_levels levels => levels !! id end.
Definition intersectAgentIds (ids : list Z) (allowed : Ids) : list Z :=
  match allowed with Ids_all => ids | Ids_list l => List.filter (fun id => mem id l) ids end.

(** ** Scope targets ([tenantScope.service.ts]) *)

(** [codedError(status, code, message)] *)
Record CodedError := { err_status : Z; err_code : string; err_message : string }.
Definition codedError (s : Z) (c m : string) : CodedError := {| err_status := s; err_code := c; err_message := m |}.

Definition FOREIGN_DEVICE_READ_ONLY : string :=
  "This agent belongs to another tenant: read-only from the Default tenant".
Definition FOREIGN_GROUP_READ_ONLY : string :=
  "This group belongs to another tenant: read-only from the Default tenant".

Definition parseScopeId (scopeId : js) : CodedError + Z :=
  match positive_safe (to_number scopeId) with
  | Some id => inr id
  | None => inl (codedError 400 "SCOPE_ID_INVALID" "Invalid scopeId")
  end.

Definition find_device (d : Directory) (id : Z) : option Device := List.find (fun x => dev_id x =? id) (d_devices d).
Definition find_group (d : Directory) (id : Z) : option Group := List.find (fun g => grp_id g =? id) (d_groups d).

Definition resolveScopeTenant (d : Directory) (scope : string) (scopeId : option Z) : option Z :=
  match scopeId with
  | None => None
  | Some id =>
      if String.eqb scope "tenant" then Some id
      else if String.eqb scope "agent" then option_map dev_tenant (find_device d id)
      else if String.eqb scope "group" then option_map grp_tenant (find_group d id)
      else None
  end.

(** [None]: the operating tenant may use the scope; [Some e]: the error thrown. *)
Definition assertScopeInTenant (d : Directory) (scope : string) (scopeId : js) (tenantId : Z) (mode : Mode) : option CodedError :=
  if String.eqb scope "global" then None
  else if String.eqb scope "tenant" then
    if is_nullish scopeId || match scopeId with JStr s => is_empty s | _ => false end then None
    else match parseScopeId scopeId with
         | inl e => Some e
         | inr id =>
             if id =? tenantId then None
             else if bool_decide (mode = Read) && isMasterTenant (Some tenantId) then None
             else if isMasterTenant (Some tenantId) then
               Some (codedError 403 "FOREIGN_TENANT_READ_ONLY" "This scope belongs to another tenant: read-only from the Default tenant")
             else Some (codedError 404 "TENANT_NOT_FOUND" "Tenant not found")
         end
  else if negb (String.eqb scope "group") && negb (String.eqb scope "agent") then
    Some (codedError 400 "SCOPE_INVALID" ("Unknown scope: " +:+ scope))
  else match parseScopeId scopeId with
       | inl e => Some e
       | inr id =>
           let agent := String.eqb scope "agent" in
           let what := if agent then "Device" else "Group" in
           let notFoundCode := if agent then "AGENT_NOT_FOUND" else "GROUP_NOT_FOUND" in
           match resolveScopeTenant d scope (Some id) with
           | None => Some (codedError 404 notFoundCode (what +:+ " not found"))
           | Some owner =>
               match deviceAccessVerdict owner tenantId mode with
               | V_ok => None
               | V_forbidden => Some (codedError 403 "FOREIGN_TENANT_READ_ONLY"
                                        (if agent then FOREIGN_DEVICE_READ_ONLY else FOREIGN_GROUP_READ_ONLY))
               | V_not_found => Some (codedError 404 notFoundCode (what +:+ " not found"))
               end
           end
       end.

(** The row condition [orOwnedScopeRows] adds to a query. *)
Definition orOwnedScopeRows (d : Directory) (tenantId : Z) (scope : string) (scopeId : option Z) : bool :=
  match scopeId with
  | None => false
  | Some id =>
      (String.eqb scope "agent" && existsb (fun x => (dev_id x =? id) && (dev_tenant x =? tenantId)) (d_devices d))
      || (String.eqb scope "group" && existsb (fun g => (grp_id g =? id) && (grp_tenant g =? tenantId)) (d_groups d))
  end.

Definition filterOwnedScopeItems {T} (d : Directory) (scope_of : T -> string) (scopeId_of : T -> option Z)
    (items : list T) (tenantId : Z) : list T :=
  if isMasterTenant (Some tenantId) then items
  else
    let ids s := omap (fun i => if String.eqb (scope_of i) s then scopeId_of i else None) items in
    let ownAgents := map dev_id (List.filter (fun x => mem (dev_id x) (ids "agent") && (dev_tenant x =? tenantId)) (d_devices d)) in
    let ownGroups := map grp_id (List.filter (fun g => mem (grp_id g) (ids "group") && (grp_tenant g =? tenantId)) (d_groups d)) in
    List.filter (fun i =>
      if String.eqb (scope_of i) "agent" then match scopeId_of i with Some n => mem n ownAgents | None => false end
      else if String.eqb (scope_of i) "group" then match scopeId_of i with Some n => mem n ownGroups | None => false end
      else true) items.

(** ** Access to one agent ([agentScope.service.ts], [deviceAccess.service.ts]) *)

Definition AGENT_NOT_FOUND : string := "Device not found".
Definition AGENT_READ_ONLY : string := "Read-only access to this agent".

Record AgentViewer := { vw_tenant : Z; vw_user : option Z; vw_admin : bool }.

Inductive ScopedAgentOutcome :=
| Agent_ok (agent : Device) (permission : PermissionLevel)
| Agent_err (status : Z) (error : string).

(** A number, or a digit string without a leading zero; a positive int4. *)
Definition parseRequestAgentId (raw : js) : option Z :=
  let n := match raw with
           | JNum n => n
           | JStr s => if tenant_id_re s then str_to_number s else NOther
           | _ => NOther
           end in
  match positive_safe n with
  | Some z => if z <=? 2147483647 then Some z else None
  | None => None
  end.

(** [requestViewer]: the session user (a positive integer, else none). *)
Definition requestViewer (sess_userId : js) (role : option string) (tenantId : Z) : AgentViewer :=
  {| vw_tenant := tenantId;
     vw_user := match to_number sess_userId with NInt n => if 0 <? n then Some n else None | NOther => None end;
     vw_admin := bool_decide (role = Some "admin") |}.

(** The device named by an id, or by its uuid; [None]: neither format. *)
Definition lookup_agent (d : Directory) (idOrUuid : js) : option (option Device) :=
  match parseRequestAgentId idOrUuid with
  | Some id => Some (find_device d id)
  | None =>
      match idOrUuid with
      | JStr uuid => if isDeviceUuidFormat idOrUuid
                     then Some (List.find (fun x => String.eqb (dev_uuid x) uuid) (d_devices d)) else None
      | _ => None
      end
  end.

Definition resolveAgentAccess (d : Directory) (viewer : AgentViewer) (idOrUuid : js) (need : Mode)
    (capability : option string) : ScopedAgentOutcome :=
  match lookup_agent d idOrUuid with
  | None => Agent_err 400 "Invalid device ID"
  | Some None => Agent_err 404 AGENT_NOT_FOUND
  | Some (Some agent) =>
      match deviceAccessVerdict (dev_tenant agent) (vw_tenant viewer) need with
      | V_forbidden => Agent_err 403 FOREIGN_DEVICE_READ_ONLY
      | V_not_found => Agent_err 404 AGENT_NOT_FOUND
      | V_ok =>
          match vw_user viewer with
          | None => Agent_ok agent RW
          | Some userId =>
              match getAgentPermission d userId (Some (vw_tenant viewer)) (dev_id agent) (vw_admin viewer) with
              | P_none => Agent_err 404 AGENT_NOT_FOUND
              | P_level permission =>
                  if bool_decide (need = Write) && negb (bool_decide (permission = RW)) then Agent_err 403 AGENT_READ_ONLY
                  else
                    let lacks := match capability with
                                 | Some c => negb (hasCapability d userId (vw_admin viewer) (Some (vw_tenant viewer)) c)
                                 | None => false
                                 end in
                    if lacks then Agent_err 403 "Insufficient permissions" else Agent_ok agent permission
              end
          end
      end
  end.

(** [checkDeviceAccess], [checkRequestDeviceAccess]: the same guard without a capability. *)
Definition checkDeviceAccess (d : Directory) (viewer : AgentViewer) (deviceId : js) (mode : Mode) : ScopedAgentOutcome :=
  resolveAgentAccess d viewer deviceId mode None.

(** ** Lemmas *)

Lemma mem_In x l : mem x l = true <-> In x l.
Proof.
  unfold mem. rewrite existsb_exists. split.
  - intros (y & Hy & E). boolify. by subst.
  - intros H. exists x. split; [done|]. apply Z.eqb_refl.
Qed.

Lemma mem_app x l1 l2 : mem x (l1 ++ l2) = mem x l1 || mem x l2.
Proof. unfold mem. by rewrite existsb_app. Qed.

Lemma find_filter_implied {A} (p q : A -> bool) l :
  (forall x, In x l -> p x = true -> q x = true) -> List.find p (List.filter q l) = List.find p l.
Proof.
  induction l as [|a l IH]; intros H; simpl; [done|].
  destruct (q a) eqn:Eq; simpl.
  - destruct (p a); [done|]. apply IH. intros x Hx. by apply H; right.
  - destruct (p a) eqn:Ep; [rewrite (H a) in Eq; [done|by left|done]|].
    apply IH. intros x Hx. by apply H; right.
Qed.

Lemma filter_filter_implied {A} (p q : A -> bool) l :
  (forall x, In x l -> p x = true -> q x = true) -> List.filter p (List.filter q l) = List.filter p l.
Proof.
  induction l as [|a l IH]; intros H; simpl; [done|].
  rewrite <- IH by (intros x Hx; by apply H; right). destruct (q a) eqn:Eq; simpl; [done|].
  destruct (p a) eqn:Ep; [rewrite (H a) in Eq; [done|by left|done]|done].
Qed.

(** A row that is alone with its key is the one a [.first()] on the key returns. *)
Lemma find_unique {A} (key : A -> Z) l x :
  NoDup (map key l) -> In x l -> List.find (fun y => key y =? key x) l = Some x.
Proof.
  induction l as [|a l IH]; intros Hnd Hx; [done|]. simpl in Hnd |- *.
  apply NoDup_cons in Hnd as [Ha Hnd]. destruct Hx as [->|Hx]; [by rewrite Z.eqb_refl|].
  destruct (Z.eqb_spec (key a) (key x)) as [E|E]; [|by apply IH].
  exfalso. apply Ha. rewrite E. by apply list_elem_of_In, in_map.
Qed.

Lemma fold_add_level rows m k :
  fold_left add_level rows m !! k
  = fold_left (fun a r => if fst r =? k then Some (higherLevel a (snd r)) else a) rows (m !! k).
Proof.
  revert m. induction rows as [|r rows IH]; intros m; cbn [fold_left]; [done|]. rewrite IH. f_equal.
  unfold add_level. destruct (Z.eqb_spec (fst r) k) as [<-|E]; [by rewrite lookup_insert_eq|].
  by rewrite lookup_insert_ne.
Qed.

Lemma fold_levels rows k a0 :
  let r := fold_left (fun a r => if fst r =? k then Some (higherLevel a (snd r)) else a) rows a0 in
  (r = Some RW <-> a0 = Some RW \/ In (k, RW) rows)
  /\ ((exists l, r = Some l) <-> (exists l, a0 = Some l) \/ exists l, In (k, l) rows).
Proof.
  revert a0. induction rows as [|[k' l'] rows IH]; intros a0; cbn [fold_left]; [naive_solver|].
  cbn [fst snd]. destruct (IH (if k' =? k then Some (higherLevel a0 l') else a0)) as [H1 H2].
  rewrite H1, H2. destruct (Z.eqb_spec k' k) as [->|E].
  - unfold higherLevel. split.
    + destruct l', a0 as [[]|]; simpl; naive_solver.
    + split; [|eauto]. intros _. right. exists l'. by left.
  - simpl. split; naive_solver.
Qed.

(** A grant of a team of tenant [t] the user belongs to. *)
Definition user_grant (d : Directory) (u t : Z) (g : Grant) : Prop :=
  In g (d_grants d) /\ In (gr_team g, u) (d_memberships d)
  /\ (exists tm, In tm (d_teams d) /\ team_id tm = gr_team g /\ team_tenant tm = t)
  /\ In (gr_scope g) agent_scopes.

(** The devices a grant reaches: the device itself, its group or an ancestor of it, or any
    device without a group. *)
Definition covers (d : Directory) (g : Grant) (x : Device) : Prop :=
  (gr_scope g = "group" /\ exists gid, dev_group x = Some gid /\ In (gr_scope_id g, gid) (d_closure d))
  \/ (gr_scope g = "agent" /\ gr_scope_id g = dev_id x)
  \/ (gr_scope g = "ungrouped" /\ dev_group x = None).

Lemma getUserTeamIds_In d u t team :
  In team (getUserTeamIds d u (Some t)) <->
  In (team, u) (d_memberships d) /\ exists tm, In tm (d_teams d) /\ team_id tm = team /\ team_tenant tm = t.
Proof.
  unfold getUserTeamIds, team_in_tenant. rewrite in_map_iff. split.
  - intros ([tm' u'] & <- & H). apply filter_In in H as [H1 H2]. boolify. simpl in *. subst. split; [done|].
    match goal with E : mem _ _ = true |- _ => apply mem_In, in_map_iff in E as (tm & E1 & E2) end.
    apply filter_In in E2 as [E2 E3]. boolify. by exists tm.
  - intros [H (tm & Htm & <- & Ht)]. exists (team_id tm, u). split; [done|]. apply filter_In. split; [done|].
    cbn [fst snd]. rewrite Z.eqb_refl. cbn [andb]. apply mem_In, in_map, filter_In. split; [done|].
    by apply Z.eqb_eq.
Qed.

Lemma agent_grants_In d u t g : In g (agent_grants d u (Some t)) <-> user_grant d u t g.
Proof.
  unfold agent_grants, user_grant. rewrite filter_In, andb_true_iff, mem_In, getUserTeamIds_In.
  assert (H : existsb (String.eqb (gr_scope g)) agent_scopes = true <-> In (gr_scope g) agent_scopes).
  { rewrite existsb_exists. split; [intros (x & Hx & E); boolify; by subst|]. intros H. exists (gr_scope g).
    split; [done|apply String.eqb_refl]. }
  rewrite H. tauto.
Qed.

Lemma of_scope_In s gs g : In g (of_scope s gs) <-> In g gs /\ gr_scope g = s.
Proof. unfold of_scope. by rewrite filter_In, String.eqb_eq. Qed.

Lemma group_rows_In d ds gs id l :
  In (id, l) (group_rows d ds gs) <->
  exists x g, In x ds /\ dev_id x = id /\ In g gs /\ gr_level g = l
    /\ gr_scope g = "group" /\ exists gid, dev_group x = Some gid /\ In (gr_scope_id g, gid) (d_closure d).
Proof.
  unfold group_rows. rewrite in_flat_map. split.
  - intros (x & Hx & H). destruct (dev_group x) as [gid|] eqn:Eg; [|done].
    apply in_flat_map in H as ([a b] & Hc & H). cbn [fst snd] in H.
    destruct (Z.eqb_spec b gid) as [->|]; [|done].
    apply in_map_iff in H as (g & [= <- <-] & H). apply filter_In in H as [H E]. boolify. subst a.
    apply of_scope_In in H as [H1 H2]. exists x, g. eauto 10.
  - intros (x & g & Hx & <- & Hg & <- & Hs & gid & Eg & Hc). exists x. split; [done|]. rewrite Eg.
    apply in_flat_map. exists (gr_scope_id g, gid). split; [done|]. cbn [fst snd]. rewrite Z.eqb_refl.
    apply in_map_iff. exists g. split; [done|]. apply filter_In. rewrite of_scope_In. by rewrite Z.eqb_refl.
Qed.

Lemma agent_rows_In ds gs id l :
  In (id, l) (agent_rows ds gs) <->
  exists x g, In x ds /\ dev_id x = id /\ In g gs /\ gr_level g = l
    /\ gr_scope g = "agent" /\ gr_scope_id g = dev_id x.
Proof.
  unfold agent_rows. cbv zeta. rewrite in_map_iff. split.
  - intros (g & [= <- <-] & H). apply filter_In in H as [H E]. apply of_scope_In in H as [H Hs].
    apply mem_In, in_map_iff in E as (x & E & Hx). apply filter_In in Hx as [Hx _]. exists x, g. auto 10.
  - intros (x & g & Hx & <- & Hg & <- & Hs & E). exists g. rewrite E. split; [done|].
    apply filter_In. rewrite of_scope_In. split; [done|]. rewrite E. apply mem_In, in_map, filter_In.
    split; [done|]. rewrite <- E. apply mem_In, in_map. by apply of_scope_In.
Qed.

Lemma ungrouped_rows_In ds gs id :
  (In (id, RW) (ungrouped_rows ds gs) <->
   exists x g, In x ds /\ dev_id x = id /\ In g gs /\ gr_level g = RW /\ gr_scope g = "ungrouped" /\ dev_group x = None)
  /\ ((exists l, In (id, l) (ungrouped_rows ds gs)) <->
   exists x g, In x ds /\ dev_id x = id /\ In g gs /\ gr_scope g = "ungrouped" /\ dev_group x = None).
Proof.
  unfold ungrouped_rows. destruct (of_scope "ungrouped" gs) as [|g0 us] eqn:Eu.
  - assert (H : forall g, In g gs -> gr_scope g = "ungrouped" -> False).
    { intros g H1 H2. assert (H : In g (of_scope "ungrouped" gs)) by (by apply of_scope_In). by rewrite Eu in H. }
    naive_solver.
  - assert (Hrow : forall l, In (id, l) (map (fun x => (dev_id x, if existsb is_rw (g0 :: us) then RW else RO))
        (List.filter (fun x => bool_decide (dev_group x = None)) ds))
      <-> l = (if existsb is_rw (g0 :: us) then RW else RO) /\ exists x, In x ds /\ dev_id x = id /\ dev_group x = None).
    { intros l. rewrite in_map_iff. split.
      - intros (x & [= <- <-] & H). apply filter_In in H as [H E]. boolify. eauto.
      - intros (-> & x & Hx & <- & E). exists x. split; [done|]. apply filter_In. by rewrite bool_decide_true. }
    assert (Hus : forall g, In g (g0 :: us) <-> In g gs /\ gr_scope g = "ungrouped").
    { intros g. by rewrite <- Eu, of_scope_In. }
    split.
    + rewrite Hrow. destruct (existsb is_rw (g0 :: us)) eqn:Ex.
      * apply existsb_exists in Ex as (g & Hg & Er). apply Hus in Hg as [Hg Hs]. apply bool_decide_eq_true in Er.
        naive_solver.
      * pose proof (proj1 (existsb_false_forall _ _) Ex) as Hno. split; [naive_solver|].
        intros (x & g & Hx & Hid & Hg & Hl & Hs & E). exfalso.
        assert (H : is_rw g = false) by (by apply Hno, Hus). unfold is_rw in H. by rewrite Hl in H.
    + split.
      * intros [l H]. apply Hrow in H as (_ & x & Hx & <- & E).
        destruct (proj1 (Hus g0) (or_introl eq_refl)) as [H1 H2]. exists x, g0. auto 10.
      * intros (x & g & Hx & Hid & Hg & Hs & E). eexists. apply Hrow. eauto.
Qed.

Lemma scope_rows_In d ds gs id :
  let rows := group_rows d ds gs ++ agent_rows ds gs ++ ungrouped_rows ds gs in
  (In (id, RW) rows <-> exists x g, In x ds /\ dev_id x = id /\ In g gs /\ gr_level g = RW /\ covers d g x)
  /\ ((exists l, In (id, l) rows) <-> exists x g, In x ds /\ dev_id x = id /\ In g gs /\ covers d g x).
Proof.
  cbv zeta. destruct (ungrouped_rows_In ds gs id) as [Hu1 Hu2]. unfold covers. split.
  - rewrite !in_app_iff, group_rows_In, agent_rows_In, Hu1. naive_solver.
  - assert (Ha : (exists l, In (id, l) (group_rows d ds gs ++ agent_rows ds gs ++ ungrouped_rows ds gs))
      <-> (exists l, In (id, l) (group_rows d ds gs)) \/ (exists l, In (id, l) (agent_rows ds gs))
          \/ (exists l, In (id, l) (ungrouped_rows ds gs))).
    { setoid_rewrite in_app_iff. setoid_rewrite in_app_iff. naive_solver. }
    rewrite Ha, Hu2. setoid_rewrite group_rows_In. setoid_rewrite agent_rows_In. naive_solver.
Qed.

(** What team grants give on one device: nothing without them restricts, otherwise the
    highest level of the grants that cover it, and only on devices of the tenant. *)
Lemma getAgentPermission_spec d u t x :
  NoDup (map dev_id (d_devices d)) -> In x (d_devices d) ->
  bypassesTeamScope d u false (Some t) = false -> (exists g, user_grant d u t g) ->
  (getAgentPermission d u (Some t) (dev_id x) false = P_level RW <->
     dev_tenant x = t /\ exists g, user_grant d u t g /\ covers d g x /\ gr_level g = RW)
  /\ ((exists l, getAgentPermission d u (Some t) (dev_id x) false = P_level l) <->
     dev_tenant x = t /\ exists g, user_grant d u t g /\ covers d g x).
Proof.
  intros Hnd Hx Hb [g0 Hg0]. unfold getAgentPermission, getAgentScope. rewrite Hb.
  destruct (agent_grants d u (Some t)) as [|g1 gs] eqn:Eg.
  { apply agent_grants_In in Hg0. by rewrite Eg in Hg0. }
  rewrite <- Eg. clear g0 Hg0. cbv zeta.
  set (ds := List.filter (in_scope t (Some (dev_id x))) (d_devices d)).
  assert (Hds : forall y, In y ds <-> y = x /\ dev_tenant x = t).
  { intros y. unfold ds, in_scope. rewrite filter_In, andb_true_iff, !Z.eqb_eq. split.
    - intros (Hy & Ht & E). assert (Some y = Some x) as [= ->]; [|done].
      rewrite <- (find_unique dev_id _ _ Hnd Hx), <- E. symmetry. by apply find_unique.
    - by intros [-> ?]. }
  destruct (scope_rows_In d ds (agent_grants d u (Some t)) (dev_id x)) as [Hrw Hany].
  rewrite fold_add_level, lookup_empty.
  match goal with |- context [fold_left ?f ?rows None] =>
    destruct (fold_levels rows (dev_id x) None) as [H1 H2]; cbv zeta in H1, H2;
    set (r := fold_left f rows None) in *
  end.
  assert (Hg : forall g, In g (agent_grants d u (Some t)) <-> user_grant d u t g) by apply agent_grants_In.
  split.
  - transitivity (r = Some RW); [destruct r; split; congruence|]. rewrite H1, Hrw. setoid_rewrite Hds.
    setoid_rewrite Hg. naive_solver.
  - transitivity (exists l, r = Some l); [destruct r; split; intros [? ?]; eauto; congruence|].
    rewrite H2. transitivity (exists l, In (dev_id x, l) (group_rows d ds (agent_grants d u (Some t)) ++
       agent_rows ds (agent_grants d u (Some t)) ++ ungrouped_rows ds (agent_grants d u (Some t)))); [naive_solver|].
    rewrite Hany. setoid_rewrite Hds. setoid_rewrite Hg. naive_solver.
Qed.

(** A device in a restricted scope belongs to the tenant and is covered by a grant. *)
Lemma getAgentScope_levels d u t a levels id :
  getAgentScope d u (Some t) a None = Scope_levels levels -> is_Some (levels !! id) ->
  exists x g, In x (d_devices d) /\ dev_id x = id /\ dev_tenant x = t /\ user_grant d u t g /\ covers d g x.
Proof.
  unfold getAgentScope. case_match; [done|]. destruct (agent_grants d u (Some t)) as [|g0 gs] eqn:Eg; [done|].
  rewrite <- Eg. cbv zeta. intros [= <-] [l Hl]. rewrite fold_add_level, lookup_empty in Hl.
  match type of Hl with fold_left ?f ?rows None = _ =>
    destruct (fold_levels rows id None) as [_ H2]; cbv zeta in H2 end.
  destruct (proj1 H2 (ex_intro _ l Hl)) as [[? ?]|Hrow]; [done|].
  apply (scope_rows_In d _ (agent_grants d u (Some t)) id) in Hrow as (x & g & Hx & Hid & Hg & Hc).
  apply filter_In in Hx as [Hx Ht]. unfold in_scope in Ht. boolify. apply agent_grants_In in Hg.
  exists x, g. auto.
Qed.

(** ** Isolation *)

(** The directory as tenant [t] alone sees it: its devices, its teams with their members and
    grants, its memberships. *)
Definition own_only (t : Z) (d : Directory) : Directory :=
  let own team := team_in_tenant d (Some t) team in
  {| d_devices := List.filter (fun x => dev_tenant x =? t) (d_devices d);
     d_groups := List.filter (fun g => grp_tenant g =? t) (d_groups d);
     d_closure := d_closure d;
     d_teams := List.filter (fun tm => team_tenant tm =? t) (d_teams d);
     d_memberships := List.filter (fun m => own (fst m)) (d_memberships d);
     d_grants := List.filter (fun g => own (gr_team g)) (d_grants d);
     d_user_tenants := List.filter (fun r => snd (fst r) =? t) (d_user_tenants d);
     d_permission_sets := d_permission_sets d |}.

Lemma own_role d u t : getTenantRole (own_only t d) u t = getTenantRole d u t.
Proof.
  unfold getTenantRole. cbn [d_user_tenants own_only]. rewrite find_filter_implied; [done|].
  intros x _ H. by boolify; apply Z.eqb_eq.
Qed.

Lemma own_team d t team : team_in_tenant (own_only t d) (Some t) team = team_in_tenant d (Some t) team.
Proof. unfold team_in_tenant. cbn [d_teams own_only]. by rewrite filter_filter_implied. Qed.

Lemma own_teamIds d u t : getUserTeamIds (own_only t d) u (Some t) = getUserTeamIds d u (Some t).
Proof.
  unfold getUserTeamIds. f_equal.
  assert (E : forall m, (snd m =? u) && team_in_tenant (own_only t d) (Some t) (fst m)
                        = (snd m =? u) && team_in_tenant d (Some t) (fst m)) by (intros m; by rewrite own_team).
  rewrite (List.filter_ext _ _ E). cbn [d_memberships own_only].
  apply filter_filter_implied. intros m _ H. by boolify.
Qed.

Lemma own_grants d u t : agent_grants (own_only t d) u (Some t) = agent_grants d u (Some t).
Proof.
  unfold agent_grants. rewrite own_teamIds. cbn [d_grants own_only]. apply filter_filter_implied.
  intros g _ H. boolify. match goal with E : mem _ _ = true |- _ => apply mem_In in E as E2 end.
  unfold getUserTeamIds in E2. apply in_map_iff in E2 as (m & E3 & Hm). apply filter_In in Hm as [_ Hm].
  boolify. by rewrite <- E3.
Qed.

Lemma own_scope d u t a o : getAgentScope (own_only t d) u (Some t) a o = getAgentScope d u (Some t) a o.
Proof.
  unfold getAgentScope, bypassesTeamScope. rewrite own_role, own_grants. case_match; [done|].
  case_match; [done|]. cbv zeta. cbn [d_devices own_only]. rewrite filter_filter_implied; [done|].
  intros x _ H'. unfold in_scope in H'. by boolify; apply Z.eqb_eq.
Qed.

Lemma own_capability d u a t c : hasCapability (own_only t d) u a (Some t) c = hasCapability d u a (Some t) c.
Proof. unfold hasCapability, getTenantCapabilities. by rewrite own_role. Qed.

(** A lookup by a key: on the tenant's own rows it finds the row if it is its own. *)
Lemma find_own {B} `{EqDecision B} (key : Device -> B) (p : Device -> bool) (k : B) l t :
  NoDup (map key l) -> (forall x, p x = true <-> key x = k) ->
  List.find p (List.filter (fun x => dev_tenant x =? t) l)
  = match List.find p l with Some x => if dev_tenant x =? t then Some x else None | None => None end.
Proof.
  intros Hnd Hp. induction l as [|a l IH]; simpl; [done|]. simpl in Hnd. apply NoDup_cons in Hnd as [Ha Hnd].
  destruct (p a) eqn:Ep.
  - destruct (dev_tenant a =? t); simpl; [by rewrite Ep|].
    destruct (List.find p (List.filter _ l)) as [y|] eqn:Ef; [|done]. exfalso.
    apply List.find_some in Ef as [Hy Ey]. apply filter_In in Hy as [Hy _].
    apply Hp in Ep, Ey. apply Ha. rewrite Ep, <- Ey. by apply list_elem_of_In, in_map.
  - destruct (dev_tenant a =? t); simpl; [rewrite Ep|]; by apply IH.
Qed.

Lemma own_lookup d t raw :
  NoDup (map dev_id (d_devices d)) -> NoDup (map dev_uuid (d_devices d)) ->
  lookup_agent (own_only t d) raw
  = match lookup_agent d raw with
    | Some (Some x) => Some (if dev_tenant x =? t then Some x else None)
    | r => r
    end.
Proof.
  intros Hid Huuid. unfold lookup_agent, find_device. cbn [d_devices own_only].
  destruct (parseRequestAgentId raw) as [n|].
  - rewrite (find_own dev_id _ n _ _ Hid (fun x => Z.eqb_eq _ _)). by destruct (List.find _ _).
  - destruct raw as [| | | |u| |]; try done. destruct (isDeviceUuidFormat _); [|done].
    rewrite (find_own dev_uuid _ u _ _ Huuid (fun x => String.eqb_eq _ _)). by destruct (List.find _ _).
Qed.

Lemma lookup_agent_In d raw x : lookup_agent d raw = Some (Some x) -> In x (d_devices d).
Proof.
  unfold lookup_agent, find_device. destruct (parseRequestAgentId raw).
  - intros [= H]. apply List.find_some in H. tauto.
  - destruct raw; try done. case_match; [|done]. intros [= H']. apply List.find_some in H'. tauto.
Qed.

(** ** Properties *)

(** Existence is never revealed: for a viewer operating a tenant other than Default, the
    outcome of the agent guard on any input is the one computed on the tenant's own rows
    alone. No device, team, grant or membership of another tenant can change it. *)
Theorem agent_access_isolated d v raw need cap :
  NoDup (map dev_id (d_devices d)) -> NoDup (map dev_uuid (d_devices d)) ->
  vw_tenant v <> MASTER_TENANT_ID ->
  resolveAgentAccess d v raw need cap = resolveAgentAccess (own_only (vw_tenant v) d) v raw need cap.
Proof.
  intros Hid Huuid Hm. set (t := vw_tenant v) in *. unfold resolveAgentAccess. fold t.
  rewrite (own_lookup d t raw Hid Huuid). destruct (lookup_agent d raw) as [[x|]|]; [|done..].
  assert (Hv : deviceAccessVerdict (dev_tenant x) t need = if dev_tenant x =? t then V_ok else V_not_found).
  { unfold deviceAccessVerdict, isMasterTenant. destruct (Z.eqb_spec t MASTER_TENANT_ID); [done|].
    by rewrite andb_false_r. }
  rewrite Hv. destruct (dev_tenant x =? t) eqn:Et; [rewrite Hv, ?Et|done].
  destruct (vw_user v) as [u|]; [|done].
  unfold getAgentPermission. rewrite own_scope. destruct cap as [c|]; [|done]. by rewrite own_capability.
Qed.

(** C9. What the guard lets through: a write reaches only a device of the operating tenant
    (Default included: no cross-tenant write), and holds ['rw']; a read leaves the tenant
    only from Default; a user restricted by team grants reaches only devices of the tenant
    that one of their grants covers, at the highest covering level; and a demanded
    capability is held. *)
Theorem agent_access_sound d v raw need cap agent p :
  NoDup (map dev_id (d_devices d)) ->
  resolveAgentAccess d v raw need cap = Agent_ok agent p ->
  In agent (d_devices d)
  /\ (need = Write \/ vw_tenant v <> MASTER_TENANT_ID -> dev_tenant agent = vw_tenant v)
  /\ (need = Write -> p = RW)
  /\ (forall u, vw_user v = Some u ->
        (forall c, cap = Some c -> hasCapability d u (vw_admin v) (Some (vw_tenant v)) c = true)
        /\ (bypassesTeamScope d u (vw_admin v) (Some (vw_tenant v)) = false ->
            (exists g, user_grant d u (vw_tenant v) g) ->
            dev_tenant agent = vw_tenant v
            /\ (exists g, user_grant d u (vw_tenant v) g /\ covers d g agent)
            /\ (p = RW <-> exists g, user_grant d u (vw_tenant v) g /\ covers d g agent /\ gr_level g = RW))).
Proof.
  intros Hnd H. unfold resolveAgentAccess in H. destruct (lookup_agent d raw) as [[x|]|] eqn:El; [|done..].
  apply lookup_agent_In in El as Hx.
  destruct (deviceAccessVerdict (dev_tenant x) (vw_tenant v) need) eqn:Ev; [|done..].
  assert (Hxa : x = agent /\ (need = Write -> p = RW) /\ forall u, vw_user v = Some u ->
      getAgentPermission d u (Some (vw_tenant v)) (dev_id x) (vw_admin v) = P_level p
      /\ (forall c, cap = Some c -> hasCapability d u (vw_admin v) (Some (vw_tenant v)) c = true)).
  { destruct (vw_user v) as [u|]; [|by simplify_eq]. destruct (getAgentPermission _ _ _ _ _) as [|l] eqn:Ep; [done|].
    destruct (bool_decide (need = Write) && negb (bool_decide (l = RW))) eqn:Ew; [done|].
    assert (Hl : need = Write -> l = RW).
    { intros ->. rewrite bool_decide_true in Ew by done. cbn [andb] in Ew. by boolify. }
    assert (Hcap : forall c, cap = Some c -> hasCapability d u (vw_admin v) (Some (vw_tenant v)) c = true).
    { intros c ->. cbv zeta in H. by destruct (hasCapability d u (vw_admin v) (Some (vw_tenant v)) c). }
    cbv zeta in H. destruct (match cap with Some c => _ | None => _ end); [done|]. injection H as -> ->.
    split; [done|]. split; [done|]. intros u' [= <-]. done. }
  destruct Hxa as (-> & Hw & Hu). split; [done|]. split; [|split; [done|]].
  - intros Hc. unfold deviceAccessVerdict, isMasterTenant in Ev. destruct (Z.eqb_spec (dev_tenant agent) (vw_tenant v)); [done|].
    destruct Hc as [->|Hc]; [|rewrite (proj2 (Z.eqb_neq _ _) Hc), andb_false_r in Ev; done].
    rewrite bool_decide_false in Ev by done. cbn [andb] in Ev. by destruct (vw_tenant v =? MASTER_TENANT_ID).
  - intros u Eu. destruct (Hu u Eu) as [Hp Hc]. split; [done|]. intros Hb Hg.
    assert (Ha : vw_admin v = false) by (unfold bypassesTeamScope in Hb; by destruct (vw_admin v)).
    rewrite Ha in *. destruct (getAgentPermission_spec d u (vw_tenant v) agent Hnd Hx Hb Hg) as [H1 H2].
    rewrite Hp in H1, H2.
    assert (Hcov : dev_tenant agent = vw_tenant v /\ exists g, user_grant d u (vw_tenant v) g /\ covers d g agent).
    { apply H2. eauto. }
    destruct Hcov as [Ht Hcov]. split; [done|]. split; [done|]. split.
    + intros ->. by apply H1.
    + intros Hex. by injection (proj2 H1 (conj Ht Hex)).
Qed.

Lemma assert_scope_ok d scope raw t mode :
  scope = "group" \/ scope = "agent" ->
  assertScopeInTenant d scope raw t mode = None ->
  exists id owner, positive_safe (to_number raw) = Some id /\ resolveScopeTenant d scope (Some id) = Some owner
    /\ deviceAccessVerdict owner t mode = V_ok.
Proof.
  intros Hs H. unfold assertScopeInTenant, parseScopeId in H.
  destruct Hs as [-> | ->]; cbn [String.eqb Ascii.eqb Bool.eqb negb andb] in H;
    (destruct (positive_safe _) as [id|]; [|done]); exists id;
    (destruct (resolveScopeTenant _ _ _) as [owner|]; [|done]); exists owner;
    (destruct (deviceAccessVerdict owner t mode); done).
Qed.

Lemma verdict_ok_iff owner t mode :
  deviceAccessVerdict owner t mode = V_ok <-> owner = t \/ (mode = Read /\ t = MASTER_TENANT_ID).
Proof.
  unfold deviceAccessVerdict, isMasterTenant. destruct (Z.eqb_spec owner t), (Z.eqb_spec t MASTER_TENANT_ID);
    destruct mode; simpl; naive_solver.
Qed.

(** Scope targets: a group or agent scope passes for writing only when its target exists
    and belongs to the operating tenant; the in-memory filter of scoped items keeps, outside
    Default, exactly the rows the query condition keeps, in order; and both keep only
    targets of the tenant. *)
Theorem scope_ownership {T} d (scope_of : T -> string) (scopeId_of : T -> option Z) items t scope raw :
  (scope = "group" \/ scope = "agent" -> assertScopeInTenant d scope raw t Write = None ->
     exists id, positive_safe (to_number raw) = Some id /\ resolveScopeTenant d scope (Some id) = Some t)
  /\ (t <> MASTER_TENANT_ID ->
      filterOwnedScopeItems d scope_of scopeId_of items t
      = List.filter (fun i => negb (String.eqb (scope_of i) "agent" || String.eqb (scope_of i) "group")
                              || orOwnedScopeRows d t (scope_of i) (scopeId_of i)) items)
  /\ (forall id, orOwnedScopeRows d t scope (Some id) = true <->
        (scope = "agent" /\ exists x, In x (d_devices d) /\ dev_id x = id /\ dev_tenant x = t)
        \/ (scope = "group" /\ exists g, In g (d_groups d) /\ grp_id g = id /\ grp_tenant g = t)).
Proof.
  split; [|split].
  - intros Hs H. apply assert_scope_ok in H as (id & owner & H1 & H2 & H3); [|done].
    apply verdict_ok_iff in H3 as [->|[? _]]; [eauto|done].
  - intros Ht. unfold filterOwnedScopeItems, isMasterTenant. rewrite (proj2 (Z.eqb_neq _ _) Ht). cbv zeta.
    apply List.filter_ext_in. intros i Hi. unfold orOwnedScopeRows.
    assert (Hids : forall n s, scopeId_of i = Some n -> scope_of i = s ->
      In n (omap (fun i => if String.eqb (scope_of i) s then scopeId_of i else None) items)).
    { intros n s Hn Hs. apply list_elem_of_In, list_elem_of_omap. exists i. split; [by apply list_elem_of_In|].
      by rewrite Hs, String.eqb_refl. }
    assert (Hown : forall {A} (key tn : A -> Z) (l : list A) n ids, In n ids ->
      mem n (map key (List.filter (fun x => mem (key x) ids && (tn x =? t)) l))
      = existsb (fun x => (key x =? n) && (tn x =? t)) l).
    { intros A key tn l n ids Hn. apply eq_bool_prop_intro. rewrite !Is_true_true, mem_In, in_map_iff, existsb_exists.
      setoid_rewrite filter_In. setoid_rewrite andb_true_iff. setoid_rewrite mem_In. setoid_rewrite Z.eqb_eq.
      split; [naive_solver|]. intros (x & Hx & <- & Hx2). eauto 10. }
    destruct (String.eqb_spec (scope_of i) "agent") as [Ea|Ea]; cbn [orb negb].
    + rewrite Ea. cbn [String.eqb Ascii.eqb Bool.eqb andb orb negb].
      destruct (scopeId_of i) as [n|] eqn:En; [|done]. rewrite (Hown _ dev_id dev_tenant) by (by apply Hids).
      by rewrite orb_false_r.
    + destruct (String.eqb_spec (scope_of i) "group") as [Eg|Eg]; cbn [orb negb andb]; [|by rewrite ?orb_true_l].
      destruct (scopeId_of i) as [n|] eqn:En; [|done]. by rewrite (Hown _ grp_id grp_tenant) by (by apply Hids).
  - intros id. unfold orOwnedScopeRows. rewrite orb_true_iff, !andb_true_iff, !String.eqb_eq, !existsb_exists.
    setoid_rewrite andb_true_iff. setoid_rewrite Z.eqb_eq. naive_solver.
Qed.

(** ** A sample directory *)

Definition sample_dir : Directory :=
  {| d_devices := [ {| dev_id := 5; dev_uuid := "aaaaaaaa"; dev_tenant := 3; dev_status := "approved"; dev_type := None; dev_group := Some 21 |};
                    {| dev_id := 6; dev_uuid := "bbbbbbbb"; dev_tenant := 4; dev_status := "approved"; dev_type := None; dev_group := None |} ];
     d_groups := [ {| grp_id := 20; grp_tenant := 3; grp_general := false; grp_evaluate_only := false |};
                   {| grp_id := 21; grp_tenant := 3; grp_general := false; grp_evaluate_only := false |} ];
     d_closure := [(20, 20); (21, 21); (20, 21)];
     d_teams := [ {| team_id := 9; team_tenant := 3; team_can_create := false |} ];
     d_memberships := [(9, 7)];
     d_grants := [ {| gr_team := 9; gr_scope := "group"; gr_scope_id := 20; gr_level := RW |} ];
     d_user_tenants := [(7, 3, "user")];
     d_permission_sets := [("user", JArr [JStr "agents.manage"])] |}.
Definition sample_viewer : AgentViewer := {| vw_tenant := 3; vw_user := Some 7; vw_admin := false |}.

Lemma sample_keys : NoDup (map dev_id (d_devices sample_dir)) /\ NoDup (map dev_uuid (d_devices sample_dir)).
Proof. split; vm_compute; repeat constructor; set_solver. Qed.

Lemma agent_access_isolated_witness :
  resolveAgentAccess sample_dir sample_viewer (JStr "bbbbbbbb") Read None
  = resolveAgentAccess (own_only 3 sample_dir) sample_viewer (JStr "bbbbbbbb") Read None.
Proof. apply (agent_access_isolated sample_dir sample_viewer); [apply sample_keys|apply sample_keys|done]. Defined.

Lemma agent_access_sound_witness :
  (exists g, user_grant sample_dir 7 3 g /\ covers sample_dir g
     {| dev_id := 5; dev_uuid := "aaaaaaaa"; dev_tenant := 3; dev_status := "approved"; dev_type := None; dev_group := Some 21 |}).
Proof.
  destruct (agent_access_sound sample_dir sample_viewer (JNum (NInt 5)) Write (Some "agents.manage")
    {| dev_id := 5; dev_uuid := "aaaaaaaa"; dev_tenant := 3; dev_status := "approved"; dev_type := None; dev_group := Some 21 |}
    RW (proj1 sample_keys) ltac:(vm_compute; reflexivity)) as (_ & _ & _ & H).
  destruct (H 7 eq_refl) as [_ H2]. destruct H2 as (_ & H3 & _); [by vm_compute| |exact H3].
  eexists. apply agent_grants_In. left. reflexivity.
Defined.
