(* ===== verification/SocketRooms.v ===== *)
(** * Socket rooms and audiences

    [server/src/utils/socketRooms.ts] and the joins of [server/src/socket.ts]: which rooms a
    connected socket holds, and which rooms each helper addresses. An emit reaches a socket
    that holds one of its target rooms and none of the excepted ones, once. *)

From S2P Require Import Prelude JsString JsValue JsNumber Tenancy Access.

(** ** Rooms *)

Definition tenant_room (t : Z) : string := "tenant:" +:+ dec t.
Definition admin_room (t : Z) : string := tenant_room t +:+ ":admin".
Definition notifications_room (t : Z) : string := tenant_room t +:+ ":notifications".
Definition ipFeedRoom (t : Z) : string := tenant_room t +:+ ":ipfeed".
Definition agentWatchRoom (deviceId : Z) : string := "agentwatch:" +:+ dec deviceId.
Definition user_room (u : Z) : string := "user:" +:+ dec u.
Definition DEFAULT_ROOM : string := tenant_room MASTER_TENANT_ID.

(** A positive safe integer, from a number or a numeric string. *)
Definition validTenant (tenantId : js) : option Z :=
  match tenantId with
  | JStr s => positive_safe (str_to_number s)
  | JNum n => positive_safe n
  | _ => None
  end.

Definition tenantAudienceRooms (tenantId : Z) : list string :=
  if tenantId =? MASTER_TENANT_ID then [DEFAULT_ROOM] else [tenant_room tenantId; DEFAULT_ROOM].

(** ** Emits *)

Section Emits.
Context {P : Type}.

(** [io.to(rooms).except(except).emit(event, payload)] *)
Record Emission := { em_to : list string; em_except : list string; em_event : string; em_payload : P }.
Definition emit_to (rooms : list string) (event : string) (payload : P) : Emission :=
  {| em_to := rooms; em_except := []; em_event := event; em_payload := payload |}.

(** [io] is null before the server is up: nothing is sent. *)
Definition emitToTenantAudience (io : bool) (tenantId : js) (event : string) (payload : P) (defaultPayload : option P) : list Emission :=
  if negb io then []
  else
    let tid := validTenant tenantId in
    match defaultPayload with
    | None => [emit_to (match tid with None => [DEFAULT_ROOM] | Some t => tenantAudienceRooms t end) event payload]
    | Some dp =>
        (match tid with
         | Some t => if t =? MASTER_TENANT_ID then [] else [emit_to [tenant_room t] event payload]
         | None => []
         end) ++ [emit_to [DEFAULT_ROOM] event dp]
    end.

Definition emitToTenantAdmins (io : bool) (tenantId : js) (event : string) (payload : P) : list Emission :=
  if negb io then []
  else
    let rooms := [admin_room MASTER_TENANT_ID] in
    let rooms := match validTenant tenantId with
                 | Some t => if t =? MASTER_TENANT_ID then rooms else admin_room t :: rooms
                 | None => rooms
                 end in
    [emit_to rooms event payload].

Definition emitGlobal (io : bool) (event : string) (publicPayload : P) (perTenant : gmap Z P) : list Emission :=
  if negb io then []
  else
    let variants := List.filter (fun kv => bool_decide (is_Some (validTenant (JNum (NInt (fst kv)))))) (map_to_list perTenant) in
    match variants with
    | [] => [emit_to ["general"] event publicPayload]
    | _ =>
        {| em_to := ["general"]; em_except := map (fun kv => tenant_room (fst kv)) variants;
           em_event := event; em_payload := publicPayload |}
        :: map (fun kv => emit_to [tenant_room (fst kv)] event (snd kv)) variants
    end.

Definition emitToPlatformAdmins (io : bool) (event : string) (payload : P) : list Emission :=
  if negb io then [] else [emit_to ["role:admin"] event payload].

Definition agentActivityRooms (tenantId : js) (deviceId : Z) : list string :=
  (match validTenant tenantId with
   | Some t => if t =? MASTER_TENANT_ID then [] else [ipFeedRoom t]
   | None => []
   end) ++ [ipFeedRoom MASTER_TENANT_ID]
       ++ (if (0 <? deviceId) && (deviceId <=? max_safe_integer) then [agentWatchRoom deviceId] else []).

(** ** Sockets *)

(** What the handshake established ([io.use]): [sk_scope] is the team scope of the activity
    stream, [sk_notify] the tenants of the user's memberships. *)
Record Socket := {
  sk_user : Z; sk_admin : bool; sk_2fa_pending : bool; sk_tenant : option Z;
  sk_scope : Ids; sk_notify : list Z
}.

(** The rooms joined on connection. *)
Definition joinedRooms (s : Socket) : list string :=
  user_room (sk_user s) ::
  if sk_2fa_pending s then []
  else
    (match sk_tenant s with
     | None => []
     | Some t =>
         tenant_room t :: (if sk_admin s then [admin_room t] else [])
         ++ match sk_scope s with
            | Ids_all => [ipFeedRoom t]
            | Ids_list l => map agentWatchRoom (List.filter (fun id => (0 <? id) && (id <=? max_safe_integer)) l)
            end
     end)
    ++ (if sk_admin s then ["role:admin"] else [])
    ++ map notifications_room (List.filter (fun t => (0 <? t) && (t <=? max_safe_integer)) (sk_notify s))
    ++ (if sk_admin s then [notifications_room MASTER_TENANT_ID] else [])
    ++ ["general"].

Definition holds (rooms : list string) (r : string) : bool := existsb (String.eqb r) rooms.

Definition reaches (e : Emission) (s : Socket) : bool :=
  existsb (holds (joinedRooms s)) (em_to e) && negb (existsb (holds (joinedRooms s)) (em_except e)).

(** The payloads a socket receives from a sequence of emits. *)
Definition received (s : Socket) (es : list Emission) : list P :=
  map em_payload (List.filter (fun e => reaches e s) es).

(** [occupiedRooms], [emitAgentActivity]: nothing is sent when no room has a socket. *)
Definition occupiedRooms (sockets : list Socket) (rooms : list string) : list string :=
  List.filter (fun r => existsb (fun s => holds (joinedRooms s) r) sockets) rooms.

Definition emitAgentActivity (io : bool) (sockets : list Socket) (tenantId : js) (deviceId : Z)
    (event : string) (payload : P) : bool * list Emission :=
  if negb io then (false, [])
  else match occupiedRooms sockets (agentActivityRooms tenantId deviceId) with
       | [] => (false, [])
       | rooms => (true, [emit_to rooms event payload])
       end.
End Emits.
Arguments Emission : clear implicits.

(** ** The handshake ([io.use] of [socket.ts]) *)

(** [/^[1-9]\d{0,15}$/] *)
Definition toPositiveInt (value : js) : option Z :=
  match value with
  | JNum n => positive_safe n
  | JStr (String c t) =>
      if is_digit19 c && str_forall is_digit t && (String.length t <=? 15)%nat
      then positive_safe (str_to_number (String c t)) else None
  | _ => None
  end.

Record UserRow := { us_id : Z; us_active : bool; us_role : string }.

(** The outcome: refused with a message, or a socket. [users] and [needs2fa] are the user
    reads, [dir] the directory, [db] the tenant lookups; an unreadable team scope
    ([None]) leaves no agent. *)
Definition handshake (users : Z -> option UserRow) (needs2fa : Z -> bool) (db : TenantDb) (now : Z)
    (dir : option Directory) (notify : list Z) (sess_user sess_tenant : js) (c : TenantCaches)
    : (string + Socket) * TenantCaches :=
  match toPositiveInt sess_user with
  | None => (inl "Authentication required", c)
  | Some userId =>
      match users userId with
      | None => (inl "Invalid user", c)
      | Some user =>
          let admin := String.eqb (us_role user) "admin" in
          if negb (us_active user) then (inl "Invalid user", c)
          else if needs2fa (us_id user) then
            (inr {| sk_user := us_id user; sk_admin := admin; sk_2fa_pending := true; sk_tenant := None;
                    sk_scope := Ids_list []; sk_notify := notify |}, c)
          else
            let '(tenantId, c') := match toPositiveInt sess_tenant with
              | None => (None, c)
              | Some t => let '(ok, c1) := canUseTenant db now (us_id user) (Some (us_role user)) (JNum (NInt t)) c in
                          (if ok then Some t else None, c1)
              end in
            if bool_decide (tenantId = None) && negb admin then (inl "No tenant access", c')
            else
              let scope := match tenantId, dir with
                | Some t, Some d => match getAgentScope d (us_id user) (Some t) admin None with
                                    | Scope_all => Ids_all
                                    | Scope_levels levels => Ids_list (map fst (map_to_list levels))
                                    end
                | _, _ => Ids_list []
                end in
              (inr {| sk_user := us_id user; sk_admin := admin; sk_2fa_pending := false; sk_tenant := tenantId;
                      sk_scope := scope; sk_notify := notify |}, c')
      end
  end.

(** ** Room names *)

(** The rooms, and their names: no two rooms share one. *)
Inductive Room :=
| R_user (u : Z) | R_tenant (t : Z) | R_admin (t : Z) | R_notifications (t : Z) | R_ipfeed (t : Z)
| R_watch (id : Z) | R_platform | R_general.

Definition room_name (r : Room) : string :=
  match r with
  | R_user u => user_room u
  | R_tenant t => tenant_room t
  | R_admin t => admin_room t
  | R_notifications t => notifications_room t
  | R_ipfeed t => ipFeedRoom t
  | R_watch id => agentWatchRoom id
  | R_platform => "role:admin"
  | R_general => "general"
  end.

Definition room_pieces (r : Room) : list string :=
  match r with
  | R_user u => ["user"; dec u]
  | R_tenant t => ["tenant"; dec t]
  | R_admin t => ["tenant"; dec t; "admin"]
  | R_notifications t => ["tenant"; dec t; "notifications"]
  | R_ipfeed t => ["tenant"; dec t; "ipfeed"]
  | R_watch id => ["agentwatch"; dec id]
  | R_platform => ["role"; "admin"]
  | R_general => ["general"]
  end.

Lemma room_name_split r : split ":" (room_name r) = room_pieces r.
Proof.
  assert (E : room_name r = join (String ":" "") (room_pieces r)).
  { destruct r; cbn [room_pieces join room_name]; try done;
      unfold admin_room, notifications_room, ipFeedRoom, tenant_room; by rewrite app_assoc_str. }
  rewrite E. apply split_join; [by destruct r|].
  destruct r; cbn [room_pieces]; repeat constructor; apply dec_no_colon.
Qed.

Lemma room_name_inj r r' : room_name r = room_name r' -> r = r'.
Proof.
  intros E. assert (H : room_pieces r = room_pieces r') by (by rewrite <- !room_name_split, E).
  destruct r, r'; cbn [room_pieces] in H; try discriminate H; try reflexivity;
    injection H as H; f_equal; by apply dec_inj.
Qed.

Definition positive_ids (l : list Z) : list Z := List.filter (fun id => (0 <? id) && (id <=? max_safe_integer)) l.

Definition socketRooms (s : Socket) : list Room :=
  R_user (sk_user s) ::
  if sk_2fa_pending s then []
  else
    (match sk_tenant s with
     | None => []
     | Some t => R_tenant t :: (if sk_admin s then [R_admin t] else [])
         ++ match sk_scope s with Ids_all => [R_ipfeed t] | Ids_list l => map R_watch (positive_ids l) end
     end)
    ++ (if sk_admin s then [R_platform] else [])
    ++ map R_notifications (positive_ids (sk_notify s))
    ++ (if sk_admin s then [R_notifications MASTER_TENANT_ID] else []) ++ [R_general].

Lemma joinedRooms_names s : joinedRooms s = map room_name (socketRooms s).
Proof.
  unfold joinedRooms, socketRooms. cbn [map room_name]. f_equal. destruct (sk_2fa_pending s); [done|].
  rewrite !map_app, !map_map. cbn [map room_name]. f_equal; [|by destruct (sk_admin s)].
  destruct (sk_tenant s) as [t|]; [|done]. cbn [map]. rewrite map_app. f_equal.
  f_equal; [by destruct (sk_admin s)|]. destruct (sk_scope s); [done|]. by rewrite map_map.
Qed.

Lemma holds_room s r : holds (joinedRooms s) (room_name r) = true <-> In r (socketRooms s).
Proof.
  unfold holds. rewrite existsb_exists, joinedRooms_names. setoid_rewrite in_map_iff. split.
  - intros (x & (r' & <- & Hr) & E). boolify. apply room_name_inj in E. by subst.
  - intros H. exists (room_name r). split; [eauto|apply String.eqb_refl].
Qed.

Ltac in_rooms :=
  unfold socketRooms; cbn [In]; repeat case_match; rewrite ?in_app_iff; cbn [In];
  rewrite ?in_app_iff; cbn [In]; rewrite ?in_map_iff; naive_solver.

Lemma holds_tenant s t :
  holds (joinedRooms s) (tenant_room t) = true <-> sk_2fa_pending s = false /\ sk_tenant s = Some t.
Proof. rewrite (holds_room s (R_tenant t)). in_rooms. Qed.

Lemma holds_ipfeed s t :
  holds (joinedRooms s) (ipFeedRoom t) = true
  <-> sk_2fa_pending s = false /\ sk_tenant s = Some t /\ sk_scope s = Ids_all.
Proof. rewrite (holds_room s (R_ipfeed t)). in_rooms. Qed.

Lemma holds_watch s id :
  holds (joinedRooms s) (agentWatchRoom id) = true
  <-> sk_2fa_pending s = false /\ exists t l, sk_tenant s = Some t /\ sk_scope s = Ids_list l /\ In id (positive_ids l).
Proof. rewrite (holds_room s (R_watch id)). in_rooms. Qed.

Lemma holds_general s : holds (joinedRooms s) "general" = true <-> sk_2fa_pending s = false.
Proof. rewrite (holds_room s R_general). in_rooms. Qed.

(** The tenant whose operational events a socket gets. *)
Definition audience (s : Socket) : option Z := if sk_2fa_pending s then None else sk_tenant s.

Lemma holds_tenant_audience s t : holds (joinedRooms s) (tenant_room t) = bool_decide (audience s = Some t).
Proof.
  apply eq_bool_prop_intro. rewrite bool_decide_spec, Is_true_true, holds_tenant. unfold audience.
  destruct (sk_2fa_pending s); naive_solver.
Qed.

(** ** Properties *)

(** What one socket receives of a tenant event. *)
Lemma received_tenant_audience {P} s tenantId event (p : P) dp :
  received s (emitToTenantAudience true tenantId event p dp)
  = match audience s with
    | Some t => if t =? MASTER_TENANT_ID then [default p dp]
                else if bool_decide (validTenant tenantId = Some t) then [p] else []
    | None => []
    end.
Proof.
  unfold emitToTenantAudience, received, tenantAudienceRooms, DEFAULT_ROOM. cbn [negb].
  assert (Hm : forall r e (x : P), reaches (emit_to [tenant_room r] e x) s = bool_decide (audience s = Some r)).
  { intros r e x. unfold reaches. cbn [emit_to em_to em_except existsb]. rewrite holds_tenant_audience.
    by rewrite orb_false_r, andb_true_r. }
  assert (H2 : forall r r' e (x : P), reaches (emit_to [tenant_room r; tenant_room r'] e x) s
     = bool_decide (audience s = Some r) || bool_decide (audience s = Some r')).
  { intros r r' e x. unfold reaches. cbn [emit_to em_to em_except existsb]. rewrite !holds_tenant_audience.
    by rewrite orb_false_r, andb_true_r. }
  destruct dp as [dp|]; destruct (validTenant tenantId) as [v|]; try destruct (Z.eqb_spec v MASTER_TENANT_ID);
    cbn [app List.filter map]; rewrite ?Hm, ?H2; destruct (audience s) as [t|];
    repeat case_bool_decide; simplify_eq; cbn [List.filter map app orb default]; rewrite ?Hm;
    repeat case_bool_decide; simplify_eq; cbn [map em_payload emit_to];
    try destruct (Z.eqb_spec t MASTER_TENANT_ID); simplify_eq; try done.
Qed.

(** A tenant event reaches exactly its audience, once: a socket of the Default tenant
    gets one payload (the god-view variant when there is one), a socket of the owning tenant
    gets the owner's payload, any other socket, and every socket when the tenant is unknown
    but Default's, gets nothing. *)
Theorem tenant_audience_exact {P} s tenantId event (p : P) dp :
  received s (emitToTenantAudience true tenantId event p dp)
  = match audience s with
    | Some t => if t =? MASTER_TENANT_ID then [default p dp]
                else if bool_decide (validTenant tenantId = Some t) then [p] else []
    | None => []
    end.
Proof. apply received_tenant_audience. Qed.

Lemma filter_key_unique {P} (l : list (Z * P)) t p :
  NoDup (map fst l) -> In (t, p) l -> List.filter (fun kv => fst kv =? t) l = [(t, p)].
Proof.
  induction l as [|[k x] l IH]; intros Hnd Hin; [done|]. cbn [map fst] in Hnd. apply NoDup_cons in Hnd as [Hk Hnd].
  cbn [List.filter fst]. destruct Hin as [[= -> ->]|Hin].
  - rewrite Z.eqb_refl. f_equal. clear IH Hnd. induction l as [|[k' x'] l IH]; [done|]. cbn [map fst] in Hk.
    cbn [List.filter fst]. apply not_elem_of_cons in Hk as [Hne Hk]. rewrite (proj2 (Z.eqb_neq k' t)) by congruence.
    by apply IH.
  - destruct (Z.eqb_spec k t) as [->|]; [|by apply IH]. exfalso. apply Hk. apply list_elem_of_In.
    by apply (in_map fst) in Hin.
Qed.

Lemma filter_key_none {P} (l : list (Z * P)) t :
  (forall p, ~ In (t, p) l) -> List.filter (fun kv => fst kv =? t) l = [].
Proof.
  induction l as [|[k x] l IH]; intros H; [done|]. cbn [List.filter fst].
  destruct (Z.eqb_spec k t) as [->|]; [exfalso; apply (H x); by left|]. apply IH. intros p Hp. apply (H p). by right.
Qed.

(** The variants of a global event, seen by one socket. *)
Lemma received_variants {P} s event (l : list (Z * P)) :
  received s (map (fun kv => emit_to [tenant_room (fst kv)] event (snd kv)) l)
  = match audience s with Some t => map snd (List.filter (fun kv => fst kv =? t) l) | None => [] end.
Proof.
  unfold received. induction l as [|[k p] l IH]; simpl; [by case_match|].
  unfold reaches at 1. cbn [emit_to em_to em_except existsb]. rewrite holds_tenant_audience, orb_false_r, andb_true_r.
  destruct (audience s) as [t|]; [|by rewrite bool_decide_false]. destruct (Z.eqb_spec k t) as [->|Hne].
  - rewrite bool_decide_true by done. cbn [map em_payload emit_to snd]. by rewrite IH.
  - rewrite bool_decide_false by congruence. done.
Qed.

Lemma received_cons {P} s (e : Emission P) es :
  received s (e :: es) = (if reaches e s then [em_payload e] else []) ++ received s es.
Proof. unfold received. cbn [List.filter]. by destruct (reaches e s). Qed.

(** What one socket receives of an instance-wide event. *)
Lemma received_global {P} s event (public : P) perTenant :
  (forall t, sk_tenant s = Some t -> 0 < t <= max_safe_integer) ->
  received s (emitGlobal true event public perTenant)
  = if sk_2fa_pending s then []
    else [match sk_tenant s with Some t => default public (perTenant !! t) | None => public end].
Proof.
  intros Hvalid. unfold emitGlobal. cbn [negb].
  set (vs := List.filter _ (map_to_list perTenant)).
  assert (Hgen : holds (joinedRooms s) "general" = negb (sk_2fa_pending s)).
  { apply eq_bool_prop_intro. rewrite Is_true_true, holds_general. by destruct (sk_2fa_pending s). }
  assert (Hvs : forall t p, audience s = Some t -> In (t, p) vs <-> perTenant !! t = Some p).
  { intros t p Ha. unfold vs. rewrite filter_In, <- list_elem_of_In, elem_of_map_to_list. cbn [fst].
    split; [by intros [? _]|]. intros H. split; [done|]. apply bool_decide_eq_true. unfold audience in Ha.
    destruct (sk_2fa_pending s); [done|]. apply Hvalid in Ha. unfold validTenant, positive_safe.
    rewrite (proj2 (Z.ltb_lt 0 t)), (proj2 (Z.leb_le t _)) by lia. by exists t. }
  assert (Hnd : NoDup (map fst vs)) by (apply NoDup_map_filter, NoDup_fst_map_to_list).
  assert (Hall : received s ({| em_to := ["general"]; em_except := map (fun kv : Z * P => tenant_room (fst kv)) vs;
      em_event := event; em_payload := public |}
        :: map (fun kv => emit_to [tenant_room (fst kv)] event (snd kv)) vs)
    = if sk_2fa_pending s then []
      else [match sk_tenant s with Some t => default public (perTenant !! t) | None => public end]).
  { rewrite received_cons, received_variants. unfold reaches. cbn [em_to em_except em_payload existsb].
    rewrite Hgen, orb_false_r.
    assert (Hex : existsb (holds (joinedRooms s)) (map (fun kv : Z * P => tenant_room (fst kv)) vs)
       = match audience s with Some t => negb (bool_decide (List.filter (fun kv => fst kv =? t) vs = [])) | None => false end).
    { clear. induction vs as [|[k p] l IH]; [by destruct (audience s)|]. cbn [map existsb fst List.filter].
      rewrite IH, holds_tenant_audience. destruct (audience s) as [t|]; [|by rewrite bool_decide_false].
      destruct (Z.eqb_spec k t) as [->|Hne].
      - rewrite bool_decide_true by done. cbn [orb]. by rewrite bool_decide_false.
      - rewrite bool_decide_false by congruence. done. }
    rewrite Hex. unfold audience in *. destruct (sk_2fa_pending s); [done|]. cbn [negb andb].
    destruct (sk_tenant s) as [t|]; [|done].
    destruct (perTenant !! t) as [p|] eqn:Ep.
    - rewrite (filter_key_unique vs t p) by (done || by apply Hvs). by rewrite bool_decide_false.
    - rewrite (filter_key_none vs t) by (intros p Hp; apply Hvs in Hp; congruence). by rewrite bool_decide_true. }
  destruct vs; [|done]. rewrite <- Hall. unfold received. cbn [map List.filter]. by destruct (reaches _ s).
Qed.

(** An instance-wide event reaches every fully authenticated socket exactly once: with
    its tenant's own variant when there is one, the public payload otherwise. Nobody gets
    two variants, and a socket waiting for its second factor gets none. *)
Theorem global_event_once {P} s event (public : P) perTenant :
  (forall t, sk_tenant s = Some t -> 0 < t <= max_safe_integer) ->
  received s (emitGlobal true event public perTenant)
  = if sk_2fa_pending s then []
    else [match sk_tenant s with Some t => default public (perTenant !! t) | None => public end].
Proof. apply received_global. Qed.

Definition sample_socket : Socket :=
  {| sk_user := 7; sk_admin := false; sk_2fa_pending := false; sk_tenant := Some 3;
     sk_scope := Ids_all; sk_notify := [3] |}.

Lemma global_event_once_witness :
  received sample_socket (emitGlobal true "ban:created" 0 (<[3 := 33]> (<[1 := 11]> ∅))) = [33].
Proof.
  rewrite (global_event_once sample_socket); [by vm_compute|].
  intros t [= <-]. unfold max_safe_integer. lia.
Defined.

(** ** The activity stream *)

Lemma toPositiveInt_spec v n : toPositiveInt v = Some n -> 0 < n <= max_safe_integer.
Proof.
  assert (Hp : forall m, positive_safe m = Some n -> 0 < n <= max_safe_integer).
  { intros [z|]; simpl; [|done]. case_match; [|done]. intros [= <-]. boolify. lia. }
  unfold toPositiveInt. destruct v as [| | |m|[|c t]| |]; try done; [apply Hp|]. case_match; [apply Hp|done].
Qed.

(** What a successful handshake establishes. *)
Lemma handshake_spec users needs2fa dbs now dir notify su st c s c' :
  gate_reach dbs now c ->
  handshake users needs2fa (dbs now) now dir notify su st c = (inr s, c') ->
  sk_2fa_pending s = false ->
  exists user, users (default 0 (toPositiveInt su)) = Some user /\ us_active user = true /\ sk_user s = us_id user
    /\ sk_admin s = String.eqb (us_role user) "admin"
    /\ (forall t, sk_tenant s = Some t -> 0 < t <= max_safe_integer
          /\ exists at_, now - TTL_MS < at_ <= now /\ tdb_grants (dbs at_) (us_id user) (Some (us_role user)) t = true)
    /\ sk_scope s = match sk_tenant s, dir with
         | Some t, Some d => match getAgentScope d (us_id user) (Some t) (sk_admin s) None with
                             | Scope_all => Ids_all
                             | Scope_levels levels => Ids_list (map fst (map_to_list levels))
                             end
         | _, _ => Ids_list []
         end.
Proof.
  intros Hr H Hp. unfold handshake in H. destruct (toPositiveInt su) as [u|]; [|done]. change (default 0 (Some u)) with u.
  destruct (users u) as [user|]; [|done]. exists user. split; [done|].
  destruct (us_active user) eqn:Ea; cbn [negb] in H; [|done]. split; [done|].
  destruct (needs2fa (us_id user)); [by simplify_eq|].
  destruct (toPositiveInt st) as [t|] eqn:Et.
  - destruct (canUseTenant (dbs now) now (us_id user) (Some (us_role user)) (JNum (NInt t)) c) as [ok c1] eqn:Ec.
    destruct ok.
    + cbn [bool_decide] in H. rewrite bool_decide_false in H by done. cbn [andb] in H. simplify_eq. cbn.
      split; [done|]. split; [done|]. split; [|done]. intros t' [= <-]. split; [by eapply toPositiveInt_spec|].
      destruct (canUseTenant_recent dbs now (us_id user) (Some (us_role user)) (JNum (NInt t)) c Hr) as (n & Hn & H).
      { by rewrite Ec. }
      apply valid_tenant_number_spec in Hn as [[= <-] _]. exact H.
    + destruct (bool_decide _ && _); [done|]. simplify_eq. cbn. done.
  - destruct (bool_decide _ && _); [done|]. simplify_eq. cbn. done.
Qed.

(** An agent's IP activity reaches only sockets that may see it: after a handshake in any
    reachable state of the gate, a socket that an activity emit reaches belongs to an active
    user whose access to the socket's tenant the database granted within the last five
    seconds, and either the user has no team restriction there and the tenant is the
    agent's own or Default, or one of the user's team grants covers the agent, a device of
    that tenant. *)
Theorem activity_confined {P} users needs2fa dbs now d notify su st c s c' io sockets tenantId deviceId event (p : P) e :
  gate_reach dbs now c ->
  handshake users needs2fa (dbs now) now (Some d) notify su st c = (inr s, c') ->
  In e (snd (emitAgentActivity io sockets tenantId deviceId event p)) -> reaches e s = true ->
  exists user t at_, us_active user = true /\ sk_user s = us_id user /\ sk_tenant s = Some t
    /\ now - TTL_MS < at_ <= now /\ tdb_grants (dbs at_) (us_id user) (Some (us_role user)) t = true
    /\ ((getAgentScope d (us_id user) (Some t) (String.eqb (us_role user) "admin") None = Scope_all
         /\ (t = MASTER_TENANT_ID \/ validTenant tenantId = Some t))
        \/ exists x g, In x (d_devices d) /\ dev_id x = deviceId /\ dev_tenant x = t
             /\ user_grant d (us_id user) t g /\ covers d g x).
Proof.
  intros Hr Hh He Hre. unfold emitAgentActivity in He. destruct io; [|done]. cbn [negb] in He.
  assert (Hroom : exists r, In r (agentActivityRooms tenantId deviceId) /\ holds (joinedRooms s) r = true).
  { unfold occupiedRooms in He. destruct (List.filter _ _) as [|r0 rs] eqn:Ef; [done|].
    destruct He as [<-|[]]. unfold reaches in Hre. cbn [emit_to em_to em_except existsb negb] in Hre.
    rewrite andb_true_r in Hre. change (existsb (holds (joinedRooms s)) (r0 :: rs) = true) in Hre.
    apply existsb_exists in Hre as (r & Hin & Hh'). exists r. split; [|done].
    rewrite <- Ef in Hin. by apply filter_In in Hin as [Hin _]. }
  destruct Hroom as (r & Hin & Hhold).
  assert (Hp : sk_2fa_pending s = false).
  { unfold holds, joinedRooms in Hhold. destruct (sk_2fa_pending s); [|done]. exfalso.
    cbn [existsb] in Hhold. rewrite orb_false_r in Hhold. boolify. subst r.
    change (user_room (sk_user s)) with (room_name (R_user (sk_user s))) in Hin.
    unfold agentActivityRooms in Hin. rewrite !in_app_iff in Hin.
    assert (Hu : forall r', r' <> R_user (sk_user s) -> room_name r' = room_name (R_user (sk_user s)) -> False)
      by (intros r' Hne E; by apply room_name_inj in E).
    destruct Hin as [Hin|[Hin|Hin]]; repeat case_match; cbn [In] in Hin; try done;
      destruct Hin as [E|[]]; [by apply (Hu (R_ipfeed z))|by apply (Hu (R_ipfeed MASTER_TENANT_ID))|by apply (Hu (R_watch deviceId))]. }
  destruct (handshake_spec _ _ _ _ _ _ _ _ _ _ _ Hr Hh Hp) as (user & _ & Hact & Hsu & Hadm & Hten & Hsc).
  assert (Hroles : (exists t, r = ipFeedRoom t /\ (t = MASTER_TENANT_ID \/ validTenant tenantId = Some t))
                   \/ r = agentWatchRoom deviceId).
  { unfold agentActivityRooms in Hin. rewrite !in_app_iff in Hin.
    destruct Hin as [Hin|[Hin|Hin]]; repeat case_match; cbn [In] in Hin; try done; destruct Hin as [<-|[]]; eauto. }
  destruct Hroles as [(t & -> & Ht)| ->].
  - apply holds_ipfeed in Hhold as (_ & Est & Esc). destruct (Hten t Est) as [_ (at_ & Hat & Hg)].
    exists user, t, at_. do 5 (split; [done|]). left. split; [|done].
    rewrite Est, Esc, Hadm in Hsc. by destruct (getAgentScope _ _ _ _ _).
  - apply holds_watch in Hhold as (_ & t & l & Est & Esc & Hl). destruct (Hten t Est) as [_ (at_ & Hat & Hg)].
    exists user, t, at_. do 5 (split; [done|]). right. rewrite Est, Esc, Hadm in Hsc.
    destruct (getAgentScope _ _ _ _ _) as [|levels] eqn:Egs; [done|]. injection Hsc as ->.
    apply (getAgentScope_levels _ _ _ _ _ _ Egs).
    unfold positive_ids in Hl. apply filter_In in Hl as [Hl _]. apply in_map_iff in Hl as ([k x] & Ek & Hl). cbn [fst] in Ek. subst k.
    apply list_elem_of_In, elem_of_map_to_list in Hl. by exists x.
Qed.

Definition restricted_socket : Socket :=
  {| sk_user := 7; sk_admin := false; sk_2fa_pending := false; sk_tenant := Some 3;
     sk_scope := Ids_list [5]; sk_notify := [3] |}.
Definition sample_users (u : Z) : option UserRow :=
  if u =? 7 then Some {| us_id := 7; us_active := true; us_role := "user" |} else None.
Definition empty_caches : TenantCaches := {| accessCache := ∅; existsCache := ∅ |}.

Lemma activity_confined_witness :
  exists user t at_, us_active user = true /\ sk_user restricted_socket = us_id user
    /\ sk_tenant restricted_socket = Some t
    /\ 50 - TTL_MS < at_ <= 50 /\ tdb_grants sample_db (us_id user) (Some (us_role user)) t = true
    /\ ((getAgentScope sample_dir (us_id user) (Some t) (String.eqb (us_role user) "admin") None = Scope_all
         /\ (t = MASTER_TENANT_ID \/ validTenant (JNum (NInt 3)) = Some t))
        \/ exists x g, In x (d_devices sample_dir) /\ dev_id x = 5 /\ dev_tenant x = t
             /\ user_grant sample_dir (us_id user) t g /\ covers sample_dir g x).
Proof.
  apply (activity_confined sample_users (fun _ => false) (fun _ => sample_db) 50 sample_dir [3]
    (JNum (NInt 7)) (JNum (NInt 3)) empty_caches restricted_socket
    (snd (handshake sample_users (fun _ => false) sample_db 50 (Some sample_dir) [3] (JNum (NInt 7)) (JNum (NInt 3)) empty_caches))
    true [restricted_socket] (JNum (NInt 3)) 5 "ip:events" 0 (emit_to [agentWatchRoom 5] "ip:events" 0)).
  - apply gr_init.
  - vm_compute. reflexivity.
  - vm_compute. left. reflexivity.
  - vm_compute. reflexivity.
Defined.
