(* ===== verification/AgentWatch.v ===== *)
(** * Live watches of one agent ([server/src/services/agentWatch.service.ts])

    A socket may follow an agent its tenant feed does not carry. The three maps of the
    module, the rooms of the socket server and the armed timers are the state [WState]; the
    socket handlers of [server/src/socket.ts] run in two halves around their database
    checks, so a [watch] in flight may be overtaken by an [unwatch], a newer [watch], a
    timer or a disconnect. [step] is that interleaving; a request in flight is its ticket. *)

From S2P Require Import Prelude JsString JsValue JsNumber Tenancy Access SocketRooms.

Definition AGENT_WATCH_MAX : Z := 5.
Definition AGENT_WATCH_PENDING_MAX : Z := 16.

(** ** State *)

(** [w_watches], [w_scoped] and [w_pending] are the module's maps (timers and tickets are
    numbered, [w_next] being the next fresh number); [w_timers] the timers armed, with what
    their callback captured; [w_rooms] the [agentwatch:] rooms each socket is in. *)
Record WState := {
  w_watches : gmap string (gmap Z Z);
  w_scoped : gmap string (gset Z);
  w_pending : gmap string (gmap Z Z);
  w_timers : gmap Z (string * Z);
  w_rooms : gset (string * Z);
  w_next : Z
}.

Definition set_watches f (w : WState) : WState :=
  {| w_watches := f (w_watches w); w_scoped := w_scoped w; w_pending := w_pending w;
     w_timers := w_timers w; w_rooms := w_rooms w; w_next := w_next w |}.
Definition set_pending f (w : WState) : WState :=
  {| w_watches := w_watches w; w_scoped := w_scoped w; w_pending := f (w_pending w);
     w_timers := w_timers w; w_rooms := w_rooms w; w_next := w_next w |}.
Definition set_timers f (w : WState) : WState :=
  {| w_watches := w_watches w; w_scoped := w_scoped w; w_pending := w_pending w;
     w_timers := f (w_timers w); w_rooms := w_rooms w; w_next := w_next w |}.
Definition set_rooms f (w : WState) : WState :=
  {| w_watches := w_watches w; w_scoped := w_scoped w; w_pending := w_pending w;
     w_timers := w_timers w; w_rooms := f (w_rooms w); w_next := w_next w |}.
Definition bump (w : WState) : WState :=
  {| w_watches := w_watches w; w_scoped := w_scoped w; w_pending := w_pending w;
     w_timers := w_timers w; w_rooms := w_rooms w; w_next := w_next w + 1 |}.

(** A nested map whose inner map goes when it becomes empty. *)
Definition inner (m : gmap string (gmap Z Z)) (s : string) : gmap Z Z := default ∅ (m !! s).
Definition drop_inner (s : string) (d : Z) (m : gmap string (gmap Z Z)) : gmap string (gmap Z Z) :=
  match m !! s with
  | None => m
  | Some mine => let mine' := delete d mine in
                 if bool_decide (mine' = ∅) then delete s m else <[s := mine']> m
  end.

(** ** Operations *)

(** A watch starts its checks: its ticket, or [None] when too many are in flight. *)
Definition watchIntent (s : string) (d : Z) (w : WState) : option Z * WState :=
  let mine := inner (w_pending w) s in
  if negb (bool_decide (is_Some (mine !! d))) && (AGENT_WATCH_PENDING_MAX <=? Z.of_nat (size mine))
  then (None, w)
  else let ticket := w_next w in
       (Some ticket, bump (set_pending (insert s (<[d := ticket]> mine)) w)).

Definition watchIntentCurrent (s : string) (d ticket : Z) (w : WState) : bool :=
  bool_decide (inner (w_pending w) s !! d = Some ticket).

Definition watchIntentDone (s : string) (d ticket : Z) (w : WState) : WState :=
  if watchIntentCurrent s d ticket w then set_pending (drop_inner s d) w else w.

Definition dropIntent (s : string) (d : Z) (w : WState) : WState := set_pending (drop_inner s d) w.

(** Joins or renews; false when the socket already watches too many agents. *)
Definition watchJoin (s : string) (d : Z) (w : WState) : bool * WState :=
  let mine := inner (w_watches w) s in
  let join w1 :=
    let timer := w_next w1 in
    (true, bump (set_watches (insert s (<[d := timer]> mine)) (set_timers (insert timer (s, d))
             (set_rooms (fun r => {[(s, d)]} ∪ r) w1)))) in
  match mine !! d with
  | Some prev => join (set_timers (delete prev) w)
  | None => if AGENT_WATCH_MAX <=? Z.of_nat (size mine) then (false, w) else join w
  end.

(** Ends an explicit watch; a team-scope room is kept. *)
Definition watchLeave (s : string) (d : Z) (w0 : WState) : WState :=
  let w := dropIntent s d w0 in
  let w := match inner (w_watches w) s !! d with Some t => set_timers (delete t) w | None => w end in
  let w := set_watches (drop_inner s d) w in
  if bool_decide (d ∈ default ∅ (w_scoped w !! s)) then w
  else set_rooms (fun r => r ∖ {[(s, d)]}) w.

(** The granted agents of a restricted socket, joined at connection. *)
Definition scopeJoin (s : string) (deviceIds : list Z) (w : WState) : WState :=
  fold_left (fun w id =>
    if (0 <? id) && (id <=? max_safe_integer) then
      {| w_watches := w_watches w;
         w_scoped := <[s := {[id]} ∪ default ∅ (w_scoped w !! s)]> (w_scoped w);
         w_pending := w_pending w; w_timers := w_timers w;
         w_rooms := {[(s, id)]} ∪ w_rooms w; w_next := w_next w |}
    else w) deviceIds w.

(** The socket is gone: bookkeeping and timers go; socket.io drops the rooms. *)
Definition watchForget (s : string) (w : WState) : WState :=
  {| w_watches := delete s (w_watches w); w_scoped := delete s (w_scoped w);
     w_pending := delete s (w_pending w);
     w_timers := filter (fun kt => fst (snd kt) <> s) (w_timers w);
     w_rooms := filter (fun r => fst r <> s) (w_rooms w); w_next := w_next w |}.

(** The reply codes of a watch request. *)
Inductive WatchAck := Ack_ok | Ack_invalid | Ack_session | Ack_not_found | Ack_superseded | Ack_too_many.

(** [authorizeAgentWatch]: the user's live state, the tenant, the agent. *)
Definition authorizeAgentWatch (users : Z -> option UserRow) (db : TenantDb) (now : Z) (dir : Directory)
    (userId : Z) (tenantId : option Z) (rawDeviceId : js) (c : TenantCaches) : (WatchAck + Z * Z) * TenantCaches :=
  match parseRequestAgentId rawDeviceId with
  | None => (inl Ack_invalid, c)
  | Some deviceId =>
      match users userId with
      | None => (inl Ack_session, c)
      | Some user =>
          if negb (us_active user) then (inl Ack_session, c)
          else match tenantId with
          | None => (inl Ack_not_found, c)
          | Some t =>
              let '(ok, c') := canUseTenant db now userId (Some (us_role user)) (JNum (NInt t)) c in
              if negb ok then (inl Ack_session, c')
              else match resolveAgentAccess dir {| vw_tenant := t; vw_user := Some userId;
                                                   vw_admin := String.eqb (us_role user) "admin" |}
                           (JNum (NInt deviceId)) Read None with
                   | Agent_ok agent _ => (inr (dev_id agent, dev_tenant agent), c')
                   | Agent_err status _ => (inl (if status =? 400 then Ack_invalid else Ack_not_found), c')
                   end
          end
      end
  end.

(** ** The handlers as steps *)

(** A watch being checked: socket, agent, ticket. *)
Definition flight : Type := string * Z * Z.

Record Sys := { s_w : WState; s_connected : gset string; s_flight : list flight }.

(** The second half of a watch handler, once its checks answered ([None]: the acknowledgement
    is not sent, the socket is gone). *)
Definition finish_watch (connected : bool) (authorized : option WatchAck) (f : flight) (w : WState) : option WatchAck * WState :=
  let '(s, d, ticket) := f in
  let '(ack, w') :=
    match authorized with
    | Some code => (Some code, w)
    | None =>
        if negb connected then (None, w)
        else if negb (watchIntentCurrent s d ticket w) then (Some Ack_superseded, w)
        else let '(joined, w') := watchJoin s d w in
             (Some (if joined then Ack_ok else Ack_too_many), w')
    end in
  (ack, watchIntentDone s d ticket w').

Inductive label :=
| L_connect (s : string) | L_watch (s : string) (d : Z) | L_checked (f : flight)
| L_unwatch (s : string) (d : Z) | L_timer (s : string) (d : Z) | L_disconnect (s : string).

Inductive step : Sys -> label -> Sys -> Prop :=
| st_connect y s ids :
    s ∉ s_connected y ->
    step y (L_connect s) {| s_w := scopeJoin s ids (s_w y); s_connected := {[s]} ∪ s_connected y; s_flight := s_flight y |}
| st_watch y s d :
    s ∈ s_connected y ->
    step y (L_watch s d) {| s_w := snd (watchIntent s d (s_w y)); s_connected := s_connected y;
              s_flight := match fst (watchIntent s d (s_w y)) with
                          | Some k => (s, d, k) :: s_flight y | None => s_flight y end |}
| st_checked y l1 f l2 authorized :
    s_flight y = l1 ++ f :: l2 ->
    step y (L_checked f)
      {| s_w := snd (finish_watch (bool_decide (fst (fst f) ∈ s_connected y)) authorized f (s_w y));
         s_connected := s_connected y; s_flight := l1 ++ l2 |}
| st_unwatch y s d :
    s ∈ s_connected y ->
    step y (L_unwatch s d) {| s_w := watchLeave s d (s_w y); s_connected := s_connected y; s_flight := s_flight y |}
| st_timer y t s d :
    w_timers (s_w y) !! t = Some (s, d) ->
    step y (L_timer s d)
      {| s_w := watchLeave s d (set_timers (delete t) (s_w y)); s_connected := s_connected y; s_flight := s_flight y |}
| st_disconnect y s :
    s ∈ s_connected y ->
    step y (L_disconnect s)
      {| s_w := watchForget s (s_w y); s_connected := s_connected y ∖ {[s]}; s_flight := s_flight y |}.

Definition initial : Sys :=
  {| s_w := {| w_watches := ∅; w_scoped := ∅; w_pending := ∅; w_timers := ∅; w_rooms := ∅; w_next := 0 |};
     s_connected := ∅; s_flight := [] |}.

(** Runs whose labels satisfy [ok]. *)
Inductive run (ok : label -> Prop) : Sys -> Sys -> Prop :=
| run_nil y : run ok y y
| run_step y l y' y'' : run ok y y' -> step y' l y'' -> ok l -> run ok y y''.

Definition reach (y : Sys) : Prop := run (fun _ => True) initial y.

(** ** Lemmas on the nested maps *)

Lemma inner_insert m s x s' : inner (<[s := x]> m) s' = if decide (s = s') then x else inner m s'.
Proof.
  unfold inner. case_decide as E; [subst; by rewrite lookup_insert_eq|]. by rewrite lookup_insert_ne.
Qed.

Lemma inner_drop m s d s' : inner (drop_inner s d m) s' = if decide (s = s') then delete d (inner m s) else inner m s'.
Proof.
  unfold drop_inner. destruct (m !! s) as [mine|] eqn:E.
  - assert (Em : inner m s = mine) by (unfold inner; by rewrite E). cbv zeta. case_bool_decide as Ed.
    + unfold inner at 1. case_decide as Es.
      * subst. rewrite lookup_delete_eq. cbn [default from_option]. by rewrite Ed.
      * by rewrite lookup_delete_ne.
    + rewrite inner_insert. case_decide; [by rewrite Em|done].
  - case_decide; [|done]. subst. unfold inner. rewrite E. cbn. by rewrite delete_empty.
Qed.

Lemma inner_delete m s s' : inner (delete s m) s' = if decide (s = s') then ∅ else inner m s'.
Proof.
  unfold inner. case_decide; [subst; by rewrite lookup_delete_eq|]. by rewrite lookup_delete_ne.
Qed.

(** No empty inner map is kept. *)
Definition tidy (m : gmap string (gmap Z Z)) : Prop := forall s, m !! s <> Some ∅.

Lemma tidy_drop m s d : tidy m -> tidy (drop_inner s d m).
Proof.
  intros H s'. unfold drop_inner. destruct (m !! s); [|done]. cbv zeta. case_bool_decide.
  - destruct (decide (s = s')); [subst; by rewrite lookup_delete_eq|]. by rewrite lookup_delete_ne.
  - destruct (decide (s = s')); [subst; rewrite lookup_insert_eq; congruence|]. by rewrite lookup_insert_ne.
Qed.

Lemma tidy_insert m s d k x : tidy m -> tidy (<[s := <[d := k]> x]> m).
Proof.
  intros H s'. destruct (decide (s = s')); [|by rewrite lookup_insert_ne].
  subst. rewrite lookup_insert_eq. intros [= E]. by apply insert_non_empty in E.
Qed.

Lemma tidy_delete m s : tidy m -> tidy (delete s m).
Proof.
  intros H s'. destruct (decide (s = s')); [subst; by rewrite lookup_delete_eq|]. by rewrite lookup_delete_ne.
Qed.

(** ** The invariant *)

Definition scoped_in (w : WState) (s : string) (d : Z) : Prop := d ∈ default ∅ (w_scoped w !! s).
#[export] Instance scoped_in_dec w s d : Decision (scoped_in w s d).
Proof. unfold scoped_in. apply _. Defined.
Definition watched (w : WState) (s : string) (d : Z) : option Z := inner (w_watches w) s !! d.
Definition ticket_of (w : WState) (s : string) (d : Z) : option Z := inner (w_pending w) s !! d.

Record winv (w : WState) : Prop := {
  wi_rooms : forall s d, (s, d) ∈ w_rooms w <-> scoped_in w s d \/ is_Some (watched w s d);
  wi_timers : forall t s d, w_timers w !! t = Some (s, d) <-> watched w s d = Some t;
  wi_watch_cap : forall s, Z.of_nat (size (inner (w_watches w) s)) <= AGENT_WATCH_MAX;
  wi_pending_cap : forall s, Z.of_nat (size (inner (w_pending w) s)) <= AGENT_WATCH_PENDING_MAX;
  wi_tidy : tidy (w_watches w) /\ tidy (w_pending w);
  wi_timer_fresh : forall t sd, w_timers w !! t = Some sd -> t < w_next w;
  wi_ticket_fresh : forall s d k, ticket_of w s d = Some k -> k < w_next w
}.

Lemma size_delete_le (m : gmap Z Z) d : (size (delete d m) <= size m)%nat.
Proof. destruct (m !! d) eqn:E; [rewrite (map_size_delete_Some _ _ (ex_intro _ _ E)); lia|by rewrite delete_id]. Qed.

Lemma winv_pending_drop w s d : winv w -> winv (set_pending (drop_inner s d) w).
Proof.
  intros [H1 H2 H3 H4 [H5 H6] H7 H8]. split; try done.
  - intros s'. cbn [set_pending w_pending]. rewrite inner_drop. case_decide; [|done].
    pose proof (size_delete_le (inner (w_pending w) s) d). specialize (H4 s). lia.
  - split; [done|]. by apply tidy_drop.
  - intros s' d' k. unfold ticket_of. cbn [set_pending w_pending w_next]. rewrite inner_drop. case_decide as E.
    + subst. intros Hk. apply lookup_delete_Some in Hk as [_ Hk]. by eapply H8.
    + apply H8.
Qed.

Lemma winv_intent w s d : winv w -> winv (snd (watchIntent s d w)).
Proof.
  intros Hw. unfold watchIntent. cbv zeta. destruct (negb _ && _) eqn:E; [done|].
  destruct Hw as [H1 H2 H3 H4 [H5 H6] H7 H8]. split; cbn [snd]; try done.
  - intros s'. cbn [bump set_pending w_pending]. rewrite inner_insert. case_decide; [|done]. subst.
    specialize (H4 s'). destruct (inner (w_pending w) s' !! d) eqn:El.
    + rewrite map_size_insert_Some; eauto.
    + rewrite map_size_insert_None by done. cbn [is_Some] in E.
      rewrite bool_decide_false in E by (by intros [? ?]). cbn [negb andb] in E. boolify. lia.
  - split; [done|]. by apply tidy_insert.
  - intros t sd Ht. cbn [bump set_pending w_next w_timers] in *. apply H7 in Ht. lia.
  - intros s' d' k. unfold ticket_of. cbn [bump set_pending w_pending w_next]. rewrite inner_insert.
    assert (Hold : forall s' d' k, ticket_of w s' d' = Some k -> k < w_next w + 1) by (intros ? ? ? Hk; apply H8 in Hk; lia).
    case_decide; [|apply Hold]. subst. destruct (decide (d = d')) as [->|Hd].
    + rewrite lookup_insert_eq. intros [= <-]. lia.
    + rewrite lookup_insert_ne by done. apply Hold.
Qed.

(** The joining half of [watchJoin], once the previous timer of the agent is disarmed. *)
Lemma winv_join_core w w1 s d :
  winv w -> w_watches w1 = w_watches w -> w_scoped w1 = w_scoped w -> w_pending w1 = w_pending w ->
  w_rooms w1 = w_rooms w -> w_next w1 = w_next w ->
  (forall t s0 d0, w_timers w1 !! t = Some (s0, d0) <-> watched w s0 d0 = Some t /\ (s0, d0) <> (s, d)) ->
  (is_Some (watched w s d) \/ Z.of_nat (size (inner (w_watches w) s)) < AGENT_WATCH_MAX) ->
  winv (bump (set_watches (insert s (<[d := w_next w1]> (inner (w_watches w) s)))
         (set_timers (insert (w_next w1) (s, d)) (set_rooms (fun r => {[(s, d)]} ∪ r) w1)))).
Proof.
  intros [H1 H2 H3 H4 [H5 H6] H7 H8] Ew Es Ep Er En Ht Hcap.
  assert (Hwd : forall s0 d0, inner (<[s := <[d := w_next w]> (inner (w_watches w) s)]> (w_watches w)) s0 !! d0
     = if decide ((s0, d0) = (s, d)) then Some (w_next w) else watched w s0 d0).
  { intros s0 d0. rewrite inner_insert. unfold watched. case_decide as E1; case_decide as E2; simplify_eq.
    - by rewrite lookup_insert_eq.
    - rewrite lookup_insert_ne by congruence. done.
    - done. }
  rewrite En. split; cbn [bump set_watches set_timers set_rooms w_watches w_scoped w_pending w_timers w_rooms w_next].
  - intros s0 d0. unfold scoped_in, watched. cbn. rewrite Ew, Es, Er, Hwd, elem_of_union, elem_of_singleton, H1.
    unfold scoped_in. case_decide; naive_solver.
  - intros t s0 d0. unfold watched. cbn. rewrite Ew, Hwd. destruct (decide (t = w_next w)) as [->|Hne].
    + rewrite lookup_insert_eq. case_decide as E; [naive_solver|]. split; [congruence|]. intros Hk.
      apply H2, H7 in Hk. lia.
    + rewrite lookup_insert_ne by done. rewrite Ht. case_decide as E; naive_solver.
  - intros s0. rewrite Ew, inner_insert. case_decide; [|done]. subst. destruct (inner (w_watches w) s0 !! d) eqn:El.
    + rewrite map_size_insert_Some; eauto.
    + rewrite map_size_insert_None by done. destruct Hcap as [[? Hc]|Hc]; [unfold watched in Hc; congruence|]. lia.
  - intros s0. rewrite Ep. apply H4.
  - rewrite Ew, Ep. split; [by apply tidy_insert|done].
  - intros t [s0 d0]. rewrite En. destruct (decide (t = w_next w)) as [->|Hne]; [lia|].
    rewrite lookup_insert_ne by done. intros Hk. apply Ht in Hk as [Hk _]. apply H2, H7 in Hk. lia.
  - intros s0 d0 k. rewrite En. unfold ticket_of. cbn. rewrite Ep. intros Hk. apply H8 in Hk. lia.
Qed.

Lemma winv_join w s d : winv w -> winv (snd (watchJoin s d w)).
Proof.
  intros Hw. pose proof Hw as [H1 H2 H3 H4 H5 H7 H8]. unfold watchJoin. cbv zeta.
  destruct (inner (w_watches w) s !! d) as [prev|] eqn:E.
  - cbn [snd]. apply (winv_join_core w); try done; [|left; unfold watched; by rewrite E].
    intros t s0 d0. cbn [set_timers w_timers]. rewrite lookup_delete_Some, H2. split; intros [Ha Hb].
    + split; [done|]. intros [= -> ->]. unfold watched in Hb. congruence.
    + split; [|done]. intros <-. apply H2 in Ha. assert (Hp : w_timers w !! prev = Some (s, d)) by (by apply H2).
      congruence.
  - destruct (Z.leb_spec AGENT_WATCH_MAX (Z.of_nat (size (inner (w_watches w) s)))); [done|].
    cbn [snd]. apply (winv_join_core w); try done; [|by right].
    intros t s0 d0. rewrite H2. split; [|by intros [? _]]. intros Ha. split; [done|].
    intros [= -> ->]. unfold watched in Ha. congruence.
Qed.

(** [watchLeave], seen from outside. *)
Lemma watchLeave_watches w s d : w_watches (watchLeave s d w) = drop_inner s d (w_watches w).
Proof. unfold watchLeave. cbv zeta. by case_bool_decide; case_match. Qed.
Lemma watchLeave_pending w s d : w_pending (watchLeave s d w) = drop_inner s d (w_pending w).
Proof. unfold watchLeave. cbv zeta. by case_bool_decide; case_match. Qed.
Lemma watchLeave_scoped w s d : w_scoped (watchLeave s d w) = w_scoped w.
Proof. unfold watchLeave. cbv zeta. by case_bool_decide; case_match. Qed.
Lemma watchLeave_next w s d : w_next (watchLeave s d w) = w_next w.
Proof. unfold watchLeave. cbv zeta. by case_bool_decide; case_match. Qed.
Lemma watchLeave_timers w s d :
  w_timers (watchLeave s d w) = match watched w s d with Some t => delete t (w_timers w) | None => w_timers w end.
Proof.
  unfold watchLeave, watched. cbv zeta. cbn [dropIntent set_pending w_watches].
  destruct (inner (w_watches w) s !! d); cbn [set_timers set_watches w_scoped]; by case_bool_decide.
Qed.
Lemma watchLeave_rooms w s d :
  w_rooms (watchLeave s d w) = if decide (scoped_in w s d) then w_rooms w else w_rooms w ∖ {[(s, d)]}.
Proof.
  unfold watchLeave, scoped_in. cbv zeta. cbn [dropIntent set_pending w_watches].
  destruct (inner (w_watches w) s !! d); cbn [set_timers set_watches w_scoped];
    case_bool_decide; case_decide; done.
Qed.

Lemma watched_drop w s d w' :
  w_watches w' = drop_inner s d (w_watches w) ->
  forall s0 d0, watched w' s0 d0 = if decide ((s0, d0) = (s, d)) then None else watched w s0 d0.
Proof.
  intros E s0 d0. unfold watched. rewrite E, inner_drop. case_decide as E1; case_decide as E2; simplify_eq; try done.
  - apply lookup_delete_eq.
  - apply lookup_delete_ne. congruence.
Qed.

(** Leaving keeps the invariant, whether the agent's timer is still armed or has just fired. *)
Lemma winv_leave w w1 s d :
  winv w -> w_watches w1 = w_watches w -> w_scoped w1 = w_scoped w -> w_pending w1 = w_pending w ->
  w_rooms w1 = w_rooms w -> w_next w1 = w_next w ->
  (w_timers w1 = w_timers w \/ exists t, watched w s d = Some t /\ w_timers w1 = delete t (w_timers w)) ->
  winv (watchLeave s d w1).
Proof.
  intros [H1 H2 H3 H4 [H5 H6] H7 H8] Ew Es Ep Er En Ht.
  assert (Hwd : forall s0 d0, watched (watchLeave s d w1) s0 d0 = if decide ((s0, d0) = (s, d)) then None else watched w s0 d0).
  { apply watched_drop. by rewrite watchLeave_watches, Ew. }
  assert (Htm : forall t s0 d0, w_timers (watchLeave s d w1) !! t = Some (s0, d0)
                <-> watched w s0 d0 = Some t /\ (s0, d0) <> (s, d)).
  { intros t s0 d0. rewrite watchLeave_timers.
    assert (Hw1 : watched w1 s d = watched w s d) by (unfold watched; by rewrite Ew). rewrite Hw1.
    assert (Hdel : forall m t1, watched w s d = Some t1 -> (m = w_timers w \/ m = delete t1 (w_timers w)) ->
      delete t1 m !! t = Some (s0, d0) <-> watched w s0 d0 = Some t /\ (s0, d0) <> (s, d)).
    { intros m t1 E1 Hm. rewrite lookup_delete_Some. split.
      - intros [Hne Hk]. assert (Hk' : w_timers w !! t = Some (s0, d0)).
        { destruct Hm as [->| ->]; [done|]. by apply lookup_delete_Some in Hk as [_ Hk]. }
        apply H2 in Hk'. split; [done|]. intros [= -> ->]. congruence.
      - intros [Hk Hne]. apply H2 in Hk as Hk'. assert (t1 <> t) by (intros ->; apply H2 in E1; congruence).
        split; [done|]. destruct Hm as [->| ->]; [done|]. by rewrite lookup_delete_ne. }
    destruct (watched w s d) as [t1|] eqn:E1.
    - apply (Hdel _ t1 eq_refl). destruct Ht as [->|(t' & [= ->] & ->)]; auto.
    - destruct Ht as [->|(t' & ? & _)]; [|congruence]. rewrite H2. split; [|by intros [? _]].
      intros Hk. split; [done|]. intros [= -> ->]. congruence. }
  split.
  - intros s0 d0. rewrite Hwd, watchLeave_rooms.
    assert (Hs : forall s0 d0, scoped_in (watchLeave s d w1) s0 d0 <-> scoped_in w s0 d0)
      by (intros; unfold scoped_in; by rewrite watchLeave_scoped, Es).
    assert (Hs1 : scoped_in w1 s d <-> scoped_in w s d) by (unfold scoped_in; by rewrite Es).
    rewrite Hs. case_decide as Hsc; rewrite Er.
    + rewrite H1. case_decide as E; naive_solver.
    + rewrite elem_of_difference, elem_of_singleton, H1. case_decide as E; naive_solver.
  - intros t s0 d0. rewrite Htm, Hwd. case_decide; naive_solver.
  - intros s0. rewrite watchLeave_watches, inner_drop, Ew. case_decide; [|done]. subst.
    pose proof (size_delete_le (inner (w_watches w) s0) d). specialize (H3 s0). lia.
  - intros s0. rewrite watchLeave_pending, inner_drop, Ep. case_decide; [|done]. subst.
    pose proof (size_delete_le (inner (w_pending w) s0) d). specialize (H4 s0). lia.
  - rewrite watchLeave_watches, watchLeave_pending, Ew, Ep. split; by apply tidy_drop.
  - intros t [s0 d0] Hk. rewrite watchLeave_next, En. apply Htm in Hk as [Hk _]. by apply H2, H7 in Hk.
  - intros s0 d0 k. unfold ticket_of. rewrite watchLeave_pending, inner_drop, watchLeave_next, Ep, En.
    case_decide; [|apply H8]. subst. intros Hk. apply lookup_delete_Some in Hk as [_ Hk]. by eapply H8.
Qed.

Lemma winv_scope w s ids : winv w -> winv (scopeJoin s ids w).
Proof.
  unfold scopeJoin. revert w. induction ids as [|id ids IH]; intros w Hw; cbn [fold_left]; [done|].
  apply IH. case_match; [|done]. destruct Hw as [H1 H2 H3 H4 H5 H7 H8]. split; try done.
  intros s0 d0. unfold scoped_in, watched. cbn [w_rooms w_scoped w_watches].
  rewrite elem_of_union, elem_of_singleton, H1. unfold scoped_in, watched.
  destruct (decide (s0 = s)) as [->|Hs].
  - rewrite lookup_insert_eq. simpl. rewrite elem_of_union, elem_of_singleton. naive_solver.
  - rewrite lookup_insert_ne by done. naive_solver.
Qed.

Lemma winv_forget w s : winv w -> winv (watchForget s w).
Proof.
  intros [H1 H2 H3 H4 [H5 H6] H7 H8].
  split; cbn [watchForget w_watches w_scoped w_pending w_timers w_rooms w_next].
  - intros s0 d0. unfold scoped_in, watched. cbn [watchForget w_watches w_scoped].
    rewrite elem_of_filter, H1, inner_delete. cbn [fst]. unfold scoped_in, watched.
    destruct (decide (s = s0)) as [->|Hs].
    + rewrite lookup_delete_eq, lookup_empty. cbn. split; [naive_solver|]. intros [?|[? ?]]; set_solver.
    + rewrite lookup_delete_ne by done. naive_solver.
  - intros t s0 d0. rewrite map_lookup_filter_Some, H2. unfold watched. cbn [watchForget w_watches fst snd].
    rewrite inner_delete. case_decide; [rewrite lookup_empty|]; naive_solver.
  - intros s0. rewrite inner_delete. case_decide; [rewrite map_size_empty; done|done].
  - intros s0. rewrite inner_delete. case_decide; [rewrite map_size_empty; done|done].
  - split; by apply tidy_delete.
  - intros t sd Hk. apply map_lookup_filter_Some in Hk as [Hk _]. by eapply H7.
  - intros s0 d0 k. unfold ticket_of. cbn [watchForget w_pending]. rewrite inner_delete.
    case_decide; [by rewrite lookup_empty|]. apply H8.
Qed.

Lemma watchJoin_pending w s d : w_pending (snd (watchJoin s d w)) = w_pending w.
Proof. unfold watchJoin. cbv zeta. by repeat case_match. Qed.

Lemma watchIntent_watches w s d : w_watches (snd (watchIntent s d w)) = w_watches w.
Proof. unfold watchIntent. cbv zeta. by case_match. Qed.

Lemma scopeJoin_pending w s ids :
  w_pending (scopeJoin s ids w) = w_pending w /\ w_watches (scopeJoin s ids w) = w_watches w.
Proof.
  unfold scopeJoin. revert w. induction ids as [|id ids IH]; intros w; cbn [fold_left]; [done|].
  case_match; [|apply IH]. match goal with |- context [fold_left _ _ ?w1] => by destruct (IH w1) as [-> ->] end.
Qed.

(** ** The system invariant *)

(** The whole state: every pending ticket belongs to a request in flight, no ticket of the
    future is in flight, and a socket that is gone has nothing left. *)
Record sinv (y : Sys) : Prop := {
  si_w : winv (s_w y);
  si_flight : forall s d k, ticket_of (s_w y) s d = Some k -> In (s, d, k) (s_flight y);
  si_fresh : forall s d k, In (s, d, k) (s_flight y) -> k < w_next (s_w y);
  si_gone : forall s, s ∉ s_connected y ->
    inner (w_watches (s_w y)) s = ∅ /\ inner (w_pending (s_w y)) s = ∅ /\ w_scoped (s_w y) !! s = None
}.

(** What [finish_watch] does to each map. *)
Lemma finish_watch_spec c a f w :
  let s := fst (fst f) in let d := snd (fst f) in
  let w' := snd (finish_watch c a f w) in
  (winv w -> winv w')
  /\ w_pending w' = (if watchIntentCurrent s d (snd f) w then drop_inner s d (w_pending w) else w_pending w)
  /\ w_scoped w' = w_scoped w
  /\ w_next w <= w_next w'
  /\ (w_watches w' = w_watches w
      \/ (c = true /\ watchIntentCurrent s d (snd f) w = true /\ w_watches w' = w_watches (snd (watchJoin s d w)))).
Proof.
  destruct f as [[s d] k]. cbn [fst snd]. unfold finish_watch.
  assert (Hdone : forall w1, w_pending w1 = w_pending w ->
    w_pending (watchIntentDone s d k w1)
      = (if watchIntentCurrent s d k w then drop_inner s d (w_pending w) else w_pending w)
    /\ w_scoped (watchIntentDone s d k w1) = w_scoped w1 /\ w_next (watchIntentDone s d k w1) = w_next w1
    /\ w_watches (watchIntentDone s d k w1) = w_watches w1 /\ (winv w1 -> winv (watchIntentDone s d k w1))).
  { intros w1 E. unfold watchIntentDone, watchIntentCurrent. rewrite E. case_bool_decide; cbn; rewrite ?E;
      split_and!; auto using winv_pending_drop. }
  destruct a as [code|]; [|destruct c; cbn [negb]; [|]].
  - cbv zeta; cbn [snd]. destruct (Hdone w eq_refl) as (-> & -> & -> & -> & Hi). cbn [snd]. split_and!; try done; try lia; auto.
  - destruct (watchIntentCurrent s d k w) eqn:Ec; cbn [negb].
    + pose proof (winv_join w s d) as Hj. pose proof (watchJoin_pending w s d) as Hp.
      assert (Hn : w_scoped (snd (watchJoin s d w)) = w_scoped w /\ w_next w <= w_next (snd (watchJoin s d w)))
        by (unfold watchJoin; cbv zeta; repeat case_match; cbn; split; done || lia).
      destruct (watchJoin s d w) as [j w1] eqn:Ew. cbn [snd] in *.
      cbn [snd]. destruct (Hdone w1 Hp) as (-> & -> & -> & -> & Hi). destruct Hn as [-> Hn]. split_and!; auto.
    + cbn [snd]. destruct (Hdone w eq_refl) as (-> & -> & -> & -> & Hi). cbn [snd]. split_and!; try done; try lia; auto.
  - cbv zeta; cbn [snd]. destruct (Hdone w eq_refl) as (-> & -> & -> & -> & Hi). cbn [snd]. split_and!; try done; try lia; auto.
Qed.

Lemma scopeJoin_frame w s ids :
  w_next (scopeJoin s ids w) = w_next w
  /\ forall s', s' <> s -> w_scoped (scopeJoin s ids w) !! s' = w_scoped w !! s'.
Proof.
  unfold scopeJoin. revert w. induction ids as [|id ids IH]; intros w; cbn [fold_left]; [done|].
  case_match; [|apply IH]. match goal with |- context [fold_left _ _ ?w1] => destruct (IH w1) as [-> H2] end.
  split; [done|]. intros s' Hs. rewrite H2 by done. cbn [w_scoped]. by rewrite lookup_insert_ne.
Qed.

Lemma drop_inner_empty m s d s' : inner m s' = ∅ -> inner (drop_inner s d m) s' = ∅.
Proof. intros H. rewrite inner_drop. case_decide; [subst; by rewrite H, delete_empty|done]. Qed.

Lemma sinv_leave y w1 s d :
  sinv y -> winv (watchLeave s d w1) -> w_watches w1 = w_watches (s_w y) -> w_scoped w1 = w_scoped (s_w y) ->
  w_pending w1 = w_pending (s_w y) -> w_next w1 = w_next (s_w y) ->
  sinv {| s_w := watchLeave s d w1; s_connected := s_connected y; s_flight := s_flight y |}.
Proof.
  intros [H1 H2 H3 H4] Hw Ew Es Ep En. split; cbn [s_w s_connected s_flight]; [done| | |].
  - intros s0 d0 k. unfold ticket_of. rewrite watchLeave_pending, Ep, inner_drop. case_decide; [|apply H2].
    intros Hk. apply lookup_delete_Some in Hk as [_ Hk]. subst. by apply H2.
  - intros s0 d0 k Hk. rewrite watchLeave_next, En. by eapply H3.
  - intros s0 Hs. destruct (H4 s0 Hs) as (E1 & E2 & E3).
    rewrite watchLeave_watches, watchLeave_pending, watchLeave_scoped, Ew, Ep, Es.
    split_and!; by try apply drop_inner_empty.
Qed.

Lemma sinv_checked y l1 f l2 a :
  sinv y -> s_flight y = l1 ++ f :: l2 ->
  sinv {| s_w := snd (finish_watch (bool_decide (fst (fst f) ∈ s_connected y)) a f (s_w y));
          s_connected := s_connected y; s_flight := l1 ++ l2 |}.
Proof.
  intros [H1 H2 H3 H4] Ef. destruct (finish_watch_spec (bool_decide (fst (fst f) ∈ s_connected y)) a f (s_w y))
    as (Hi & Hp & Hs & Hn & Hw). cbv zeta in Hi, Hp, Hs, Hn, Hw.
  destruct f as [[s d] k]. cbn [fst snd] in *.
  split; cbn [s_w s_connected s_flight].
  - by apply Hi.
  - intros s0 d0 k0. unfold ticket_of. rewrite Hp. intros Hk.
    assert (Hne : (s0, d0, k0) <> (s, d, k) /\ ticket_of (s_w y) s0 d0 = Some k0).
    { destruct (watchIntentCurrent s d k (s_w y)) eqn:Ec.
      - rewrite inner_drop in Hk. case_decide as E; subst.
        + apply lookup_delete_Some in Hk as [Hne Hk]. split; [congruence|done].
        + split; [congruence|done].
      - split; [|done]. intros [= -> -> ->]. unfold watchIntentCurrent in Ec. boolify. done. }
    destruct Hne as [Hne Hk']. apply H2 in Hk'. rewrite Ef in Hk'. rewrite in_app_iff in Hk' |- *.
    cbn [In] in Hk'. naive_solver.
  - intros s0 d0 k0 Hin. assert (Hin' : In (s0, d0, k0) (s_flight y)).
    { rewrite Ef. rewrite in_app_iff in Hin |- *. cbn [In]. tauto. }
    apply H3 in Hin'. lia.
  - intros s0 Hs0. destruct (H4 s0 Hs0) as (E1 & E2 & E3). rewrite Hs, Hp. split_and!; [| |done].
    + destruct Hw as [->|(Hc & _ & ->)]; [done|]. boolify.
      assert (s <> s0) by congruence. unfold watchJoin. cbv zeta.
      repeat case_match; cbn [snd bump set_watches set_timers set_rooms w_watches];
        rewrite ?inner_insert; try done; by rewrite decide_False.
    + case_match; [by apply drop_inner_empty|done].
Qed.

Lemma step_inv y l y' : sinv y -> step y l y' -> sinv y'.
Proof.
  intros Hy Hst. pose proof Hy as [H1 H2 H3 H4]. destruct Hst.
  - destruct (scopeJoin_pending (s_w y) s ids) as [Ep Ew]. destruct (scopeJoin_frame (s_w y) s ids) as [En Es].
    split; cbn [s_w s_connected s_flight].
    + by apply winv_scope.
    + intros s0 d0 k. unfold ticket_of. rewrite Ep. apply H2.
    + intros s0 d0 k. rewrite En. apply H3.
    + intros s0 Hs0. rewrite not_elem_of_union, not_elem_of_singleton in Hs0. destruct Hs0 as [Hne Hs0].
      rewrite Ep, Ew, Es by done. by apply H4.
  - split; cbn [s_w s_connected s_flight].
    + by apply winv_intent.
    + intros s0 d0 k. unfold watchIntent, ticket_of. cbv zeta. destruct (negb _ && _); cbn [fst snd]; [apply H2|].
      cbn [bump set_pending w_pending]. rewrite inner_insert. case_decide; [subst|intros Hk; right; by apply H2].
      destruct (decide (d = d0)) as [->|Hd].
      * rewrite lookup_insert_eq. intros [= <-]. by left.
      * rewrite lookup_insert_ne by done. intros Hk. right. by apply H2.
    + intros s0 d0 k. unfold watchIntent. cbv zeta. destruct (negb _ && _); cbn [fst snd]; [apply H3|].
      cbn [bump set_pending w_next]. intros [[= <- <- <-]|Hk]; [lia|]. apply H3 in Hk. lia.
    + intros s0 Hs0. assert (s <> s0) by congruence. rewrite watchIntent_watches. unfold watchIntent. cbv zeta.
      destruct (negb _ && _); cbn [snd]; [by apply H4|]. cbn [bump set_pending w_pending w_scoped].
      rewrite inner_insert, decide_False by done. by apply H4.
  - by apply sinv_checked.
  - apply sinv_leave; try done. apply (winv_leave (s_w y)); auto.
  - apply sinv_leave; try done. apply (winv_leave (s_w y)); try done.
    right. exists t. split; [by apply H1|done].
  - split; cbn [s_w s_connected s_flight watchForget w_next].
    + by apply winv_forget.
    + intros s0 d0 k. unfold ticket_of. cbn [watchForget w_pending]. rewrite inner_delete.
      case_decide; [by rewrite lookup_empty|]. apply H2.
    + apply H3.
    + intros s0 Hs0. cbn [watchForget w_watches w_pending w_scoped]. rewrite !inner_delete.
      destruct (decide (s = s0)) as [->|Hne]; [by rewrite lookup_delete_eq|].
      rewrite lookup_delete_ne by done. apply H4. set_solver.
Qed.

Lemma sinv_initial : sinv initial.
Proof.
  split; cbn [initial s_w s_flight]; [|by intros s d k|done|by intros].
  split; cbn; try done.
  - intros s d. unfold scoped_in, watched. cbn. unfold inner. rewrite !lookup_empty. cbn.
    rewrite lookup_empty. split; [set_solver|]. intros [?|[? ?]]; [set_solver|done].
Qed.

Lemma run_inv ok y y' : run ok y y' -> sinv y -> sinv y'.
Proof. induction 1; [done|]. eauto using step_inv. Qed.

(** A request whose ticket was withdrawn. *)
Lemma ticket_step y l y' s d k :
  sinv y -> k < w_next (s_w y) -> ticket_of (s_w y) s d <> Some k -> step y l y' ->
  k < w_next (s_w y') /\ ticket_of (s_w y') s d <> Some k.
Proof.
  intros [H1 H2 H3 H4] Hk Ht Hst.
  assert (Hdrop : forall s0 d0, inner (drop_inner s0 d0 (w_pending (s_w y))) s !! d <> Some k).
  { intros s0 d0. rewrite inner_drop. case_decide; [|done]. subst. intros E.
    apply lookup_delete_Some in E as [_ E]. done. }
  destruct Hst; cbn [s_w] in *.
  - destruct (scopeJoin_pending (s_w y) s0 ids) as [Ep _]. destruct (scopeJoin_frame (s_w y) s0 ids) as [En _].
    unfold ticket_of. by rewrite En, Ep.
  - unfold watchIntent, ticket_of in *. cbv zeta. destruct (negb _ && _); cbn [snd]; [done|].
    cbn [bump set_pending w_pending w_next]. split; [lia|]. rewrite inner_insert. case_decide; [subst|done].
    destruct (decide (d0 = d)) as [->|Hd]; [rewrite lookup_insert_eq; intros [= E]; lia|].
    by rewrite lookup_insert_ne.
  - destruct (finish_watch_spec (bool_decide (fst (fst f) ∈ s_connected y)) authorized f (s_w y))
      as (_ & Hp & _ & Hn & _). cbv zeta in Hp, Hn. split; [lia|]. unfold ticket_of. rewrite Hp. by case_match.
  - rewrite watchLeave_next. unfold ticket_of. rewrite watchLeave_pending. done.
  - rewrite watchLeave_next. unfold ticket_of. rewrite watchLeave_pending. done.
  - cbn [watchForget w_next]. unfold ticket_of. cbn [watchForget w_pending]. split; [done|].
    rewrite inner_delete. case_decide; [by rewrite lookup_empty|done].
Qed.

Lemma watchJoin_other w s0 d0 s d : (s0, d0) <> (s, d) -> watched (snd (watchJoin s0 d0 w)) s d = watched w s d.
Proof.
  intros Hne. assert (H : inner (<[s0 := <[d0 := w_next w]> (inner (w_watches w) s0)]> (w_watches w)) s !! d
                          = inner (w_watches w) s !! d).
  { rewrite inner_insert. case_decide; [|done]. subst. rewrite lookup_insert_ne; [done|congruence]. }
  unfold watchJoin, watched. cbv zeta. destruct (inner (w_watches w) s0 !! d0); [exact H|].
  destruct (AGENT_WATCH_MAX <=? _); [done|exact H].
Qed.

(** An agent without watch nor request stays so until it is watched anew. *)
Lemma quiet_step y l y' s d :
  sinv y -> watched (s_w y) s d = None -> ticket_of (s_w y) s d = None -> step y l y' -> l <> L_watch s d ->
  watched (s_w y') s d = None /\ ticket_of (s_w y') s d = None.
Proof.
  intros [H1 H2 H3 H4] Hw Ht Hst Hl.
  assert (Hdrop : forall s0 d0 m, inner m s !! d = None -> inner (drop_inner s0 d0 m) s !! d = None).
  { intros s0 d0 m Hm. rewrite inner_drop. case_decide; [|done]. subst. destruct (decide (d0 = d)) as [->|Hd].
    - by rewrite lookup_delete_eq.
    - by rewrite lookup_delete_ne. }
  destruct Hst; cbn [s_w] in *; unfold watched, ticket_of in *.
  - by destruct (scopeJoin_pending (s_w y) s0 ids) as [-> ->].
  - rewrite watchIntent_watches. split; [done|]. unfold watchIntent. cbv zeta. destruct (negb _ && _); [done|].
    cbn [snd bump set_pending w_pending]. rewrite inner_insert. case_decide; [subst|done].
    rewrite lookup_insert_ne; [done|congruence].
  - destruct (finish_watch_spec (bool_decide (fst (fst f) ∈ s_connected y)) authorized f (s_w y))
      as (_ & Hp & _ & _ & Hj). cbv zeta in Hp, Hj. destruct f as [[s0 d0] k]. cbn [fst snd] in *. rewrite Hp.
    split; [|case_match; auto]. destruct Hj as [->|(_ & Hc & ->)]; [done|].
    unfold watchIntentCurrent in Hc. boolify. assert (Hne : (s0, d0) <> (s, d)) by (intros [= -> ->]; congruence).
    rewrite <- Hw. by apply watchJoin_other.
  - rewrite watchLeave_watches, watchLeave_pending. auto.
  - rewrite watchLeave_watches, watchLeave_pending. auto.
  - cbn [watchForget w_watches w_pending]. rewrite !inner_delete. case_decide; [by rewrite !lookup_empty|done].
Qed.

(** ** Properties *)

(** In every reachable interleaving: a socket is in an agent's watch room exactly when
    its team scope granted the agent at connection or an explicit watch is open; every open
    watch has exactly one armed timer and every armed timer belongs to an open watch; at
    most [AGENT_WATCH_MAX] watches and [AGENT_WATCH_PENDING_MAX] tickets are kept per
    socket; a ticket is kept only while its request is in flight; and a disconnected socket
    leaves nothing behind. *)
Theorem watch_state_exact y :
  reach y ->
  (forall s d, (s, d) ∈ w_rooms (s_w y) <-> (scoped_in (s_w y) s d \/ is_Some (watched (s_w y) s d)))
  /\ (forall t s d, w_timers (s_w y) !! t = Some (s, d) <-> watched (s_w y) s d = Some t)
  /\ (forall s, Z.of_nat (size (inner (w_watches (s_w y)) s)) <= AGENT_WATCH_MAX
                /\ Z.of_nat (size (inner (w_pending (s_w y)) s)) <= AGENT_WATCH_PENDING_MAX)
  /\ (forall s d k, ticket_of (s_w y) s d = Some k -> In (s, d, k) (s_flight y))
  /\ (forall s d, s ∉ s_connected y -> (s, d) ∉ w_rooms (s_w y) /\ watched (s_w y) s d = None
                  /\ ticket_of (s_w y) s d = None).
Proof.
  intros Hr. destruct (run_inv _ _ _ Hr sinv_initial) as [Hw H2 H3 H4]. split_and!.
  - apply Hw.
  - apply Hw.
  - intros s. split; apply Hw.
  - apply H2.
  - intros s d Hs. destruct (H4 s Hs) as (E1 & E2 & E3). unfold watched, ticket_of. rewrite E1, E2, !lookup_empty.
    split; [|done]. rewrite (wi_rooms _ Hw). unfold scoped_in, watched. rewrite E1, E3, lookup_empty. cbn.
    intros [?|[? ?]]; [set_solver|done].
Qed.

(** Withdrawals win every race. After an unwatch, or a disconnect, whatever requests were
    already being checked and in whatever order they complete, the agent stays unwatched
    (and the socket out of its room, unless its team scope grants it) until a new watch is
    asked. *)
Theorem unwatch_wins y1 l y2 y3 s d :
  reach y1 -> step y1 l y2 -> l = L_unwatch s d \/ l = L_disconnect s ->
  run (fun l' => l' <> L_watch s d) y2 y3 ->
  watched (s_w y3) s d = None /\ ((s, d) ∈ w_rooms (s_w y3) -> scoped_in (s_w y3) s d).
Proof.
  intros Hr Hst Hl Hrun. pose proof (run_inv _ _ _ Hr sinv_initial) as H1. pose proof (step_inv _ _ _ H1 Hst) as H2.
  assert (Hq2 : watched (s_w y2) s d = None /\ ticket_of (s_w y2) s d = None).
  { destruct Hl as [-> | ->]; inversion Hst; subst; cbn [s_w]; unfold watched, ticket_of.
    - rewrite watchLeave_watches, watchLeave_pending, !inner_drop, !decide_True by done. by rewrite !lookup_delete_eq.
    - cbn [watchForget w_watches w_pending]. rewrite !inner_delete, !decide_True by done. by rewrite !lookup_empty. }
  assert (Hq3 : sinv y3 /\ watched (s_w y3) s d = None /\ ticket_of (s_w y3) s d = None).
  { clear Hst Hl Hr H1. induction Hrun as [|y l' y' y'' Hrun IH Hst Hne]; [done|].
    destruct (IH H2 Hq2) as (Hi & Ha & Hb). split; [by eapply step_inv|]. by eapply quiet_step. }
  destruct Hq3 as (Hi & Ha & _). split; [done|]. rewrite (wi_rooms _ (si_w _ Hi)), Ha. intros [?|[? ?]]; done.
Qed.

(** The newest request wins: a request whose ticket is no longer the agent's current one,
    withdrawn by an unwatch or replaced by a newer watch, never joins, whenever its checks
    complete. *)
Theorem superseded_never_joins y y' y'' s d k :
  reach y -> In (s, d, k) (s_flight y) -> ticket_of (s_w y) s d <> Some k ->
  run (fun _ => True) y y' -> step y' (L_checked (s, d, k)) y'' ->
  w_watches (s_w y'') = w_watches (s_w y') /\ w_pending (s_w y'') = w_pending (s_w y').
Proof.
  intros Hr Hin Ht Hrun Hst. pose proof (run_inv _ _ _ Hr sinv_initial) as H1.
  assert (Hk : k < w_next (s_w y)) by (by eapply si_fresh).
  assert (Hq : sinv y' /\ k < w_next (s_w y') /\ ticket_of (s_w y') s d <> Some k).
  { clear Hst. induction Hrun as [|y l' y' y1 Hrun IH Hst _]; [done|].
    destruct (IH Hr Hin Ht H1 Hk) as (Hi & Ha & Hb). split; [by eapply step_inv|]. by eapply ticket_step. }
  destruct Hq as (_ & _ & Ht'). inversion Hst; subst. cbn [s_w fst snd].
  destruct (finish_watch_spec (bool_decide (s ∈ s_connected y')) authorized (s, d, k) (s_w y'))
    as (_ & Hp & _ & _ & Hj). cbv zeta in Hp, Hj. cbn [fst snd] in Hp, Hj.
  assert (Hc : watchIntentCurrent s d k (s_w y') = false) by (unfold watchIntentCurrent; by apply bool_decide_eq_false).
  rewrite Hc in Hp, Hj. split; [|done]. by destruct Hj as [?|(_ & ? & _)].
Qed.

(** ** A sample race: a watch overtaken by its unwatch *)

Definition race_connected : Sys :=
  {| s_w := scopeJoin "a" [] (s_w initial); s_connected := {["a"]} ∪ ∅; s_flight := [] |}.
Definition race_asked : Sys :=
  {| s_w := snd (watchIntent "a" 5 (s_w race_connected)); s_connected := s_connected race_connected;
     s_flight := match fst (watchIntent "a" 5 (s_w race_connected)) with
                 | Some k => ("a", 5, k) :: s_flight race_connected | None => s_flight race_connected end |}.
Definition race_withdrawn : Sys :=
  {| s_w := watchLeave "a" 5 (s_w race_asked); s_connected := s_connected race_asked; s_flight := s_flight race_asked |}.
Definition race_checked : Sys :=
  {| s_w := snd (finish_watch (bool_decide (fst (fst ("a", 5, 0)) ∈ s_connected race_withdrawn)) None ("a", 5, 0) (s_w race_withdrawn));
     s_connected := s_connected race_withdrawn; s_flight := [] ++ [] |}.

Lemma race_reach : reach race_asked.
Proof.
  apply (run_step _ _ (L_watch "a" 5) race_connected); [|apply st_watch; set_solver|done].
  apply (run_step _ _ (L_connect "a") initial); [apply run_nil|apply (st_connect initial); set_solver|done].
Defined.

Lemma race_step : step race_asked (L_unwatch "a" 5) race_withdrawn.
Proof. apply st_unwatch. unfold race_asked, race_connected. set_solver. Defined.

Lemma race_finish : step race_withdrawn (L_checked ("a", 5, 0)) race_checked.
Proof. apply (st_checked race_withdrawn [] ("a", 5, 0) [] None). vm_compute. reflexivity. Defined.

Lemma watch_state_exact_witness :
  ("a", 5) ∈ w_rooms (s_w race_asked) <-> (scoped_in (s_w race_asked) "a" 5 \/ is_Some (watched (s_w race_asked) "a" 5)).
Proof. apply (watch_state_exact race_asked race_reach). Defined.

Lemma unwatch_wins_witness :
  watched (s_w race_checked) "a" 5 = None
  /\ (("a", 5) ∈ w_rooms (s_w race_checked) -> scoped_in (s_w race_checked) "a" 5).
Proof.
  apply (unwatch_wins race_asked (L_unwatch "a" 5) race_withdrawn race_checked "a" 5 race_reach race_step).
  - by left.
  - apply (run_step _ _ (L_checked ("a", 5, 0)) race_withdrawn); [apply run_nil|apply race_finish|done].
Defined.

Lemma superseded_never_joins_witness :
  w_watches (s_w race_checked) = w_watches (s_w race_withdrawn)
  /\ w_pending (s_w race_checked) = w_pending (s_w race_withdrawn).
Proof.
  apply (superseded_never_joins race_withdrawn race_withdrawn race_checked "a" 5 0).
  - apply (run_step _ _ (L_unwatch "a" 5) race_asked); [apply race_reach|apply race_step|done].
  - vm_compute. by left.
  - vm_compute. discriminate.
  - apply run_nil.
  - apply race_finish.
Defined.
