(* ===== verification/BanPolicy.v ===== *)
(** * Duration of automatic bans ([server/src/services/banPolicy.service.ts])

    One platform policy: a base duration and a ladder of steps for repeat offenders,
    validated when it is written, read back tolerantly, cached for a minute. The module's
    [cache] and the [app_config] value are the state [PolicyState]. *)

From S2P Require Import Prelude JsString JsValue JsNumber JsJson Tenancy Access.

Definition CACHE_TTL_MS : Z := 60000.
Definition MIN_BAN_TTL_SECONDS : Z := 300.
Definition MAX_BAN_TTL_SECONDS : Z := 365 * 24 * 3600.
Definition MAX_LADDER_STEPS : nat := 10.
Definition MAX_LADDER_PRIOR_BANS : Z := 1000.

(** [ttlSeconds: None] is permanent. *)
Record BanPolicyStep := { priorBans : Z; ttlSeconds : option Z }.
Record BanPolicy := { autoBanTtlSeconds : option Z; ladder : list BanPolicyStep }.
Inductive BanPolicySource := From_default | From_platform.
Record BanTtlChoice := { choice_ttl : option Z; stepIndex : option nat }.

Definition DEFAULT_BAN_POLICY : BanPolicy := {| autoBanTtlSeconds := None; ladder := [] |}.

Definition ttl_in_range (v : Z) : bool := (MIN_BAN_TTL_SECONDS <=? v) && (v <=? MAX_BAN_TTL_SECONDS).

Definition readTtl (v : js) : option Z :=
  match safe_integer v with Some z => if ttl_in_range z then Some z else None | None => None end.

(** [ladder.sort((a, b) => a.priorBans - b.priorBans)]: stable. *)
Fixpoint insert_step (s : BanPolicyStep) (l : list BanPolicyStep) : list BanPolicyStep :=
  match l with
  | [] => [s]
  | t :: r => if priorBans s <=? priorBans t then s :: t :: r else t :: insert_step s r
  end.
Definition sort_steps (l : list BanPolicyStep) : list BanPolicyStep := fold_right insert_step [] l.

Definition read_step (s : js) : option BanPolicyStep :=
  if negb (is_object s) then None
  else match safe_integer (get_field "priorBans" s) with
       | Some n => if n <? 1 then None
                   else Some {| priorBans := n; ttlSeconds := readTtl (get_field "ttlSeconds" s) |}
       | None => None
       end.

Definition parseStored (raw : option string) : option BanPolicy :=
  match raw with
  | None | Some EmptyString => None
  | Some text =>
      match JSON_parse text with
      | None => None
      | Some o =>
          if negb (is_object o) then None
          else
            let steps := match get_field "ladder" o with JArr l => omap read_step l | _ => [] end in
            Some {| autoBanTtlSeconds := readTtl (get_field "autoBanTtlSeconds" o); ladder := sort_steps steps |}
      end
  end.

(** ** Validation *)

Definition validTtl (v : js) (field : string) : CodedError + option Z :=
  if is_null v then inr None
  else match safe_integer v with
       | None => inl (codedError 400 "BAN_TTL_NOT_INTEGER" (field +:+ " must be a whole number of seconds, or null (permanent)"))
       | Some z =>
           if ttl_in_range z then inr (Some z)
           else inl (codedError 400 "BAN_TTL_OUT_OF_RANGE"
                  (field +:+ " must be between " +:+ dec MIN_BAN_TTL_SECONDS +:+ " and " +:+ dec MAX_BAN_TTL_SECONDS
                   +:+ " seconds, or null (permanent)"))
       end.

(** [ttlRank(a) < ttlRank(b)]: permanent sorts above every timed duration. *)
Definition ttl_shorter (a b : option Z) : bool :=
  match a, b with
  | Some x, Some y => x <? y
  | Some _, None => true
  | None, _ => false
  end.

Definition step_label (i : nat) : string := "ladder[" +:+ dec (Z.of_nat i) +:+ "]".

Fixpoint validate_ladder (raw : list js) (i : nat) (prevPrior : Z) (prevTtl : option Z) : CodedError + list BanPolicyStep :=
  match raw with
  | [] => inr []
  | s :: r =>
      if negb (is_object s) || is_array s then
        inl (codedError 400 "BAN_LADDER_STEP_INVALID" (step_label i +:+ " is invalid"))
      else match safe_integer (get_field "priorBans" s) with
      | None => inl (codedError 400 "BAN_LADDER_PRIOR_BANS_INVALID"
                  (step_label i +:+ ".priorBans must be a whole number between 1 and " +:+ dec MAX_LADDER_PRIOR_BANS))
      | Some n =>
          if (n <? 1) || (MAX_LADDER_PRIOR_BANS <? n) then
            inl (codedError 400 "BAN_LADDER_PRIOR_BANS_INVALID"
                  (step_label i +:+ ".priorBans must be a whole number between 1 and " +:+ dec MAX_LADDER_PRIOR_BANS))
          else if n <=? prevPrior then
            inl (codedError 400 "BAN_LADDER_ORDER" "ladder steps must be in strictly ascending priorBans order")
          else if negb (has_field "ttlSeconds" s) then
            inl (codedError 400 "BAN_LADDER_TTL_REQUIRED" (step_label i +:+ ".ttlSeconds is required (null = permanent)"))
          else match validTtl (get_field "ttlSeconds" s) (step_label i +:+ ".ttlSeconds") with
          | inl e => inl e
          | inr ttl =>
              if ttl_shorter ttl prevTtl then
                inl (codedError 400 "BAN_LADDER_TTL_DECREASING"
                  (step_label i +:+ " is shorter than the duration before it: a repeat offence never gets a shorter ban"))
              else match validate_ladder r (S i) n ttl with
                   | inl e => inl e
                   | inr steps => inr ({| priorBans := n; ttlSeconds := ttl |} :: steps)
                   end
          end
      end
  end.

Definition validate (input : js) : CodedError + BanPolicy :=
  if negb (is_object input) || is_array input then inl (codedError 400 "BAN_POLICY_INVALID" "Invalid ban policy")
  else if negb (has_field "autoBanTtlSeconds" input) then
    inl (codedError 400 "BAN_POLICY_TTL_REQUIRED" "autoBanTtlSeconds is required (null = permanent)")
  else match validTtl (get_field "autoBanTtlSeconds" input) "autoBanTtlSeconds" with
  | inl e => inl e
  | inr base =>
      match nullish_or (get_field "ladder" input) (JArr []) with
      | JArr rawLadder =>
          if (MAX_LADDER_STEPS <? length rawLadder)%nat then
            inl (codedError 400 "BAN_LADDER_TOO_LONG" ("ladder has at most " +:+ dec (Z.of_nat MAX_LADDER_STEPS) +:+ " steps"))
          else match validate_ladder rawLadder 0 0 base with
               | inl e => inl e
               | inr steps => inr {| autoBanTtlSeconds := base; ladder := steps |}
               end
      | _ => inl (codedError 400 "BAN_LADDER_NOT_ARRAY" "ladder must be an array")
      end
  end.

(** ** The stored policy *)

Definition EffectiveBanPolicy : Type := BanPolicy * BanPolicySource.

(** The module's [cache] and the value of [app_config] under ['banPolicy']. *)
Record PolicyState := { pol_cache : option (EffectiveBanPolicy * Z); pol_stored : option string }.

Definition getEffective (now : Z) (st : PolicyState) : EffectiveBanPolicy * PolicyState :=
  let miss :=
    let value := match parseStored (pol_stored st) with
                 | Some p => (p, From_platform)
                 | None => (DEFAULT_BAN_POLICY, From_default)
                 end in
    (value, {| pol_cache := Some (value, now); pol_stored := pol_stored st |}) in
  match pol_cache st with
  | Some (value, at_) => if now - at_ <? CACHE_TTL_MS then (value, st) else miss
  | None => miss
  end.

Definition js_ttl (t : option Z) : js := match t with Some z => JNum (NInt z) | None => JNull end.
Definition js_step (s : BanPolicyStep) : js :=
  JObj [("priorBans", JNum (NInt (priorBans s))); ("ttlSeconds", js_ttl (ttlSeconds s))].
Definition js_policy (p : BanPolicy) : js :=
  JObj [("autoBanTtlSeconds", js_ttl (autoBanTtlSeconds p)); ("ladder", JArr (map js_step (ladder p)))].

Definition set (now : Z) (input : js) (st : PolicyState) : (CodedError + EffectiveBanPolicy) * PolicyState :=
  if is_null input then
    let '(v, st') := getEffective now {| pol_cache := None; pol_stored := None |} in (inr v, st')
  else match validate input with
       | inl e => (inl e, st)
       | inr policy =>
           let '(v, st') := getEffective now {| pol_cache := None; pol_stored := Some (JSON_stringify (js_policy policy)) |} in
           (inr v, st')
       end.

Definition invalidate (st : PolicyState) : PolicyState := {| pol_cache := None; pol_stored := pol_stored st |}.

(** ** The duration of one ban *)

Definition needsPriorCounts (policy : BanPolicy) : bool := (0 <? length (ladder policy))%nat.

Definition ttl_step (prior : Z) (acc : BanTtlChoice * nat) (s : BanPolicyStep) : BanTtlChoice * nat :=
  let '(choice, i) := acc in
  (if priorBans s <=? prior then {| choice_ttl := ttlSeconds s; stepIndex := Some i |} else choice, S i).

Definition ttlFor (policy : BanPolicy) (prior : Z) : BanTtlChoice :=
  fst (fold_left (ttl_step prior) (ladder policy) ({| choice_ttl := autoBanTtlSeconds policy; stepIndex := None |}, O)).

Definition expiresAt (policy : BanPolicy) (prior at_ : Z) : option Z :=
  match choice_ttl (ttlFor policy prior) with None => None | Some t => Some (at_ + t * 1000) end.

(** ** Well-formed policies *)

(** [None] (permanent) is the longest duration. *)
Definition ttl_le (a b : option Z) : Prop :=
  match a, b with Some x, Some y => x <= y | _, None => True | None, Some _ => False end.
Definition ttl_ok (t : option Z) : Prop := match t with Some z => MIN_BAN_TTL_SECONDS <= z <= MAX_BAN_TTL_SECONDS | None => True end.

Fixpoint ladder_ok (prevPrior : Z) (prevTtl : option Z) (l : list BanPolicyStep) : Prop :=
  match l with
  | [] => True
  | s :: r => prevPrior < priorBans s /\ 1 <= priorBans s <= MAX_LADDER_PRIOR_BANS
              /\ ttl_ok (ttlSeconds s) /\ ttl_le prevTtl (ttlSeconds s) /\ ladder_ok (priorBans s) (ttlSeconds s) r
  end.

Definition wf_policy (p : BanPolicy) : Prop :=
  ttl_ok (autoBanTtlSeconds p) /\ (length (ladder p) <= MAX_LADDER_STEPS)%nat
  /\ ladder_ok 0 (autoBanTtlSeconds p) (ladder p).

Lemma ttl_le_refl t : ttl_le t t.
Proof. destruct t; simpl; lia. Qed.
Lemma ttl_le_trans a b c : ttl_le a b -> ttl_le b c -> ttl_le a c.
Proof. destruct a, b, c; simpl; try lia; done. Qed.
Lemma ttl_shorter_spec a b : ttl_shorter a b = false <-> ttl_le b a.
Proof. destruct a, b; simpl; try done. rewrite Z.ltb_ge. done. Qed.

Lemma ttl_in_range_spec z : ttl_in_range z = true <-> MIN_BAN_TTL_SECONDS <= z <= MAX_BAN_TTL_SECONDS.
Proof. unfold ttl_in_range. rewrite andb_true_iff, !Z.leb_le. done. Qed.

Lemma safe_integer_num z : Z.abs z <= max_safe_integer -> safe_integer (JNum (NInt z)) = Some z.
Proof. intros H. unfold safe_integer. by rewrite (proj2 (Z.leb_le _ _)). Qed.

Lemma validTtl_ok v f t : validTtl v f = inr t -> ttl_ok t.
Proof.
  unfold validTtl. case_match; [by intros [= <-]|]. destruct (safe_integer v) as [z|]; [|done].
  case_match eqn:E; [|done]. intros [= <-]. by apply ttl_in_range_spec.
Qed.

Lemma validTtl_js t f : ttl_ok t -> validTtl (js_ttl t) f = inr t.
Proof.
  destruct t as [z|]; [|done]. intros H. unfold validTtl. cbn [js_ttl is_null]. cbn [ttl_ok] in H.
  unfold MIN_BAN_TTL_SECONDS, MAX_BAN_TTL_SECONDS in H.
  rewrite safe_integer_num by (unfold max_safe_integer; lia).
  by rewrite (proj2 (ttl_in_range_spec z)).
Qed.

Lemma readTtl_js t : ttl_ok t -> readTtl (js_ttl t) = t.
Proof.
  destruct t as [z|]; [|done]. intros H. unfold readTtl. cbn [js_ttl]. cbn [ttl_ok] in H.
  unfold MIN_BAN_TTL_SECONDS, MAX_BAN_TTL_SECONDS in H.
  rewrite safe_integer_num by (unfold max_safe_integer; lia).
  by rewrite (proj2 (ttl_in_range_spec z)).
Qed.

Lemma validate_ladder_ok raw i pp pt steps :
  validate_ladder raw i pp pt = inr steps -> ladder_ok pp pt steps /\ length steps = length raw.
Proof.
  revert i pp pt steps. induction raw as [|s raw IH]; intros i pp pt steps H; cbn [validate_ladder] in H; [by simplify_eq|].
  case_in H; [done|]. destruct (safe_integer (get_field "priorBans" s)) as [n|]; [|done].
  destruct ((n <? 1) || (MAX_LADDER_PRIOR_BANS <? n)) eqn:E1; [done|]. destruct (n <=? pp) eqn:E2; [done|].
  case_in H; [done|]. destruct (validTtl (get_field "ttlSeconds" s) _) as [|ttl] eqn:Ev; [done|].
  destruct (ttl_shorter ttl pt) eqn:E3; [done|].
  destruct (validate_ladder raw (S i) n ttl) as [|steps'] eqn:Er; [done|]. injection H as <-.
  apply IH in Er as [Hl Hlen]. boolify. apply ttl_shorter_spec in E3. apply validTtl_ok in Ev.
  cbn [ladder_ok priorBans ttlSeconds length]. split; [split_and!; (done || lia)|by rewrite Hlen].
Qed.

Lemma validate_ladder_js l i pp pt : ladder_ok pp pt l -> validate_ladder (map js_step l) i pp pt = inr l.
Proof.
  revert i pp pt. induction l as [|[n t] l IH]; intros i pp pt H; cbn [map validate_ladder]; [done|].
  cbn [ladder_ok priorBans ttlSeconds] in H. destruct H as (H1 & H2 & H3 & H4 & H5).
  cbn [js_step is_object is_array negb orb].
  change (get_field "priorBans" (js_step {| priorBans := n; ttlSeconds := t |})) with (JNum (NInt n)).
  change (get_field "ttlSeconds" (js_step {| priorBans := n; ttlSeconds := t |})) with (js_ttl t).
  change (has_field "ttlSeconds" (js_step {| priorBans := n; ttlSeconds := t |})) with true.
  unfold MAX_LADDER_PRIOR_BANS in *.
  rewrite safe_integer_num by (unfold max_safe_integer; lia).
  rewrite (proj2 (Z.ltb_ge n 1)), (proj2 (Z.ltb_ge 1000 n)), (proj2 (Z.leb_gt n pp)) by lia. cbn [orb negb].
  rewrite validTtl_js by done. rewrite (proj2 (ttl_shorter_spec t pt)) by done. by rewrite IH.
Qed.

Lemma validate_wf input p : validate input = inr p -> wf_policy p.
Proof.
  unfold validate. intros H. case_in H; [done|]. case_in H; [done|].
  destruct (validTtl _ _) as [|base] eqn:Eb; [done|]. destruct (nullish_or _ _); try done.
  case_in H; [done|]. destruct (validate_ladder l 0 0 base) as [|steps] eqn:El; [done|]. injection H as <-.
  apply validate_ladder_ok in El as [Hl Hlen]. apply validTtl_ok in Eb. boolify. unfold wf_policy. cbn.
  split_and!; [done|lia|done].
Qed.

Lemma validate_js p : wf_policy p -> validate (js_policy p) = inr p.
Proof.
  intros (H1 & H2 & H3). unfold validate. cbn [js_policy is_object is_array negb orb].
  change (has_field "autoBanTtlSeconds" (js_policy p)) with true. cbn [negb].
  change (get_field "autoBanTtlSeconds" (js_policy p)) with (js_ttl (autoBanTtlSeconds p)).
  rewrite validTtl_js by done.
  change (nullish_or (get_field "ladder" (js_policy p)) (JArr [])) with (JArr (map js_step (ladder p))).
  cbv iota beta. rewrite length_map. rewrite (proj2 (Nat.ltb_ge _ _)) by done. rewrite validate_ladder_js by done. by destruct p.
Qed.

(** ** Storing and reading back *)

Lemma ladder_ok_tail pp pt s l : ladder_ok pp pt (s :: l) -> ladder_ok (priorBans s) (ttlSeconds s) l.
Proof. intros H. apply H. Qed.

Lemma ladder_ok_head pp pt l s : ladder_ok pp pt l -> In s l -> pp < priorBans s.
Proof.
  revert pp pt. induction l as [|t l IH]; intros pp pt H; [done|]. destruct H as (H1 & _ & _ & _ & H5).
  intros [->|Hin]; [done|]. specialize (IH _ _ H5 Hin). lia.
Qed.

Lemma sort_steps_ok pp pt l : ladder_ok pp pt l -> sort_steps l = l.
Proof.
  revert pp pt. induction l as [|s l IH]; intros pp pt H; [done|]. unfold sort_steps in *. cbn [fold_right].
  rewrite (IH _ _ (ladder_ok_tail _ _ _ _ H)). destruct l as [|t l]; [done|]. cbn [insert_step].
  apply ladder_ok_tail in H. destruct H as (H & _). by rewrite (proj2 (Z.leb_le _ _)) by lia.
Qed.

Lemma read_steps_js pp pt l : ladder_ok pp pt l -> omap read_step (map js_step l) = l.
Proof.
  revert pp pt. induction l as [|[n t] l IH]; intros pp pt H; [done|]. destruct H as (H1 & H2 & H3 & H4 & H5).
  cbn [priorBans ttlSeconds] in *. unfold MAX_LADDER_PRIOR_BANS in *.
  assert (E : read_step (js_step {| priorBans := n; ttlSeconds := t |}) = Some {| priorBans := n; ttlSeconds := t |}).
  { unfold read_step. cbn [js_step is_object negb].
    change (get_field "priorBans" (js_step {| priorBans := n; ttlSeconds := t |})) with (JNum (NInt n)).
    change (get_field "ttlSeconds" (js_step {| priorBans := n; ttlSeconds := t |})) with (js_ttl t).
    rewrite safe_integer_num by (unfold max_safe_integer; lia).
    rewrite (proj2 (Z.ltb_ge n 1)) by lia. by rewrite readTtl_js. }
  cbn [map omap list_omap]. rewrite E. f_equal. by eapply IH.
Qed.

Lemma js_ttl_jsonable t : ttl_ok t -> jsonable (js_ttl t).
Proof. destruct t as [z|]; [|done]. cbn. unfold MIN_BAN_TTL_SECONDS, MAX_BAN_TTL_SECONDS. lia. Qed.

Lemma js_policy_jsonable p : wf_policy p -> jsonable (js_policy p).
Proof.
  intros (H1 & _ & H3). unfold js_policy. rewrite jsonable_obj. split.
  { cbn [map fst]. repeat constructor; set_solver. }
  repeat constructor; try done; cbn [snd fst]; [by apply js_ttl_jsonable|].
  rewrite jsonable_arr. revert H3. generalize 0 (autoBanTtlSeconds p). induction (ladder p) as [|[n t] l IH]; intros pp pt H;
    cbn [map]; constructor.
  - destruct H as (_ & H2 & H3 & _). cbn [priorBans ttlSeconds] in *. unfold js_step. rewrite jsonable_obj. split.
    { cbn [map fst]. repeat constructor; set_solver. }
    repeat constructor; try done; cbn [snd]; [|by apply js_ttl_jsonable].
    cbn. unfold MAX_LADDER_PRIOR_BANS in H2. lia.
  - eapply IH, ladder_ok_tail, H.
Qed.

Lemma parseStored_js p : wf_policy p -> parseStored (Some (JSON_stringify (js_policy p))) = Some p.
Proof.
  intros Hp. pose proof (JSON_parse_stringify _ (js_policy_jsonable p Hp)) as Hj. destruct Hp as (H1 & _ & H3).
  unfold parseStored. destruct (JSON_stringify (js_policy p)) as [|c s] eqn:E; [done|]. rewrite Hj.
  change (negb (is_object (js_policy p))) with false.
  change (get_field "ladder" (js_policy p)) with (JArr (map js_step (ladder p))).
  change (get_field "autoBanTtlSeconds" (js_policy p)) with (js_ttl (autoBanTtlSeconds p)).
  cbv zeta iota. rewrite (read_steps_js _ _ _ H3), (sort_steps_ok _ _ _ H3), readTtl_js by done. by destruct p.
Qed.

(** ** The duration picked *)

Fixpoint pick (prior : Z) (d : option Z) (l : list BanPolicyStep) : option Z :=
  match l with
  | [] => d
  | s :: r => pick prior (if priorBans s <=? prior then ttlSeconds s else d) r
  end.

Lemma ttlFor_pick prior l c i : choice_ttl (fst (fold_left (ttl_step prior) l (c, i))) = pick prior (choice_ttl c) l.
Proof.
  revert c i. induction l as [|s l IH]; intros c i; [done|]. cbn [fold_left pick ttl_step]. rewrite IH.
  by case_match.
Qed.

Lemma pick_monotone m n l pp pt d d' :
  m <= n -> ladder_ok pp pt l -> ttl_le d d' -> ttl_le d' pt -> ttl_le (pick m d l) (pick n d' l).
Proof.
  revert pp pt d d'. induction l as [|s l IH]; intros pp pt d d' Hmn Hl Hd Hp; cbn [pick]; [done|].
  destruct Hl as (_ & _ & _ & Hle & Hl). apply (IH _ _ _ _ Hmn Hl).
  - destruct (Z.leb_spec (priorBans s) m), (Z.leb_spec (priorBans s) n); try lia; eauto using ttl_le_refl, ttl_le_trans.
  - destruct (Z.leb_spec (priorBans s) n); eauto using ttl_le_refl, ttl_le_trans.
Qed.

Lemma pick_ok n d l pp pt : ttl_ok d -> ladder_ok pp pt l -> ttl_ok (pick n d l).
Proof.
  revert pp pt d. induction l as [|s l IH]; intros pp pt d Hd Hl; [done|]. cbn [pick].
  destruct Hl as (_ & _ & Ht & _ & Hl). eapply IH; [|exact Hl]. by case_match.
Qed.

(** Below the head of a ladder nothing applies. *)
Lemma pick_below n d l pp pt : ladder_ok pp pt l -> n <= pp -> pick n d l = d.
Proof.
  revert pp pt d. induction l as [|s l IH]; intros pp pt d Hl Hn; [done|]. cbn [pick].
  destruct Hl as (H & _ & _ & _ & Hl). rewrite (proj2 (Z.leb_gt _ _)) by lia. eapply IH; [exact Hl|lia].
Qed.

Lemma pick_none n d l : (forall t, In t l -> n < priorBans t) -> pick n d l = d.
Proof.
  induction l as [|t l IH]; intros H; [done|]. cbn [pick].
  rewrite (proj2 (Z.leb_gt _ _)) by (apply H; by left). apply IH. intros t' Ht. apply H. by right.
Qed.

(** The step with the highest [priorBans] not above the count. *)
Lemma pick_step n d l pp pt s :
  ladder_ok pp pt l -> In s l -> priorBans s <= n -> (forall t, In t l -> priorBans t <= n -> priorBans t <= priorBans s) ->
  pick n d l = ttlSeconds s.
Proof.
  revert pp pt d. induction l as [|t l IH]; intros pp pt d Hl Hin Hs Hmax; [done|]. cbn [pick].
  pose proof (ladder_ok_tail _ _ _ _ Hl) as Hl'. destruct Hin as [->|Hin].
  - rewrite (proj2 (Z.leb_le _ _)) by done. apply pick_none. intros t Ht.
    pose proof (ladder_ok_head _ _ _ _ Hl' Ht). destruct (Z.le_gt_cases (priorBans t) n) as [Hle|]; [|lia].
    specialize (Hmax t ltac:(by right) Hle). lia.
  - eapply IH; [exact Hl'|done|done|]. intros t' Ht'. apply Hmax. by right.
Qed.

(** ** Properties *)

(** A repeat offence never gets a shorter ban: under a validated policy the duration
    grows with the number of earlier bans, is the base one for a first offence, is that of
    the highest step reached otherwise, and always lies between five minutes and a year (or
    is permanent), so a timed ban expires strictly after its creation and within a year. *)
Theorem policy_escalates input p :
  validate input = inr p ->
  (forall m n, m <= n -> ttl_le (choice_ttl (ttlFor p m)) (choice_ttl (ttlFor p n)))
  /\ (forall n, n < 1 -> choice_ttl (ttlFor p n) = autoBanTtlSeconds p)
  /\ (forall n s, In s (ladder p) -> priorBans s <= n ->
        (forall t, In t (ladder p) -> priorBans t <= n -> priorBans t <= priorBans s) ->
        choice_ttl (ttlFor p n) = ttlSeconds s)
  /\ (forall n at_ e, expiresAt p n at_ = Some e ->
        at_ + MIN_BAN_TTL_SECONDS * 1000 <= e <= at_ + MAX_BAN_TTL_SECONDS * 1000).
Proof.
  intros H. apply validate_wf in H as (Hb & _ & Hl). unfold expiresAt, ttlFor.
  assert (E : forall n, choice_ttl (fst (fold_left (ttl_step n) (ladder p)
     ({| choice_ttl := autoBanTtlSeconds p; stepIndex := None |}, O))) = pick n (autoBanTtlSeconds p) (ladder p))
    by (intros n; apply ttlFor_pick).
  split_and!.
  - intros m n Hmn. rewrite !E. eapply pick_monotone; eauto using ttl_le_refl.
  - intros n Hn. rewrite E. eapply pick_below; [exact Hl|lia].
  - intros n s Hin Hs Hmax. rewrite E. by eapply pick_step.
  - intros n at_ e. rewrite E. pose proof (pick_ok n _ _ _ _ Hb Hl) as Hok.
    destruct (pick n (autoBanTtlSeconds p) (ladder p)) as [t|]; [|done]. intros [= <-]. cbn [ttl_ok] in Hok. lia.
Qed.

Definition sample_policy : BanPolicy :=
  {| autoBanTtlSeconds := Some 3600;
     ladder := [ {| priorBans := 1; ttlSeconds := Some 86400 |}; {| priorBans := 5; ttlSeconds := None |} ] |}.

Lemma sample_policy_valid : validate (js_policy sample_policy) = inr sample_policy.
Proof. vm_compute. reflexivity. Defined.

Lemma policy_escalates_witness :
  choice_ttl (ttlFor sample_policy 3) = Some 86400 /\ choice_ttl (ttlFor sample_policy 7) = None
  /\ ttl_le (choice_ttl (ttlFor sample_policy 3)) (choice_ttl (ttlFor sample_policy 7)).
Proof.
  split; [by vm_compute|]. split; [by vm_compute|].
  apply (policy_escalates (js_policy sample_policy) sample_policy sample_policy_valid). lia.
Defined.

(** Validation is exact and what is stored is read back: it returns only well-formed
    policies and accepts each of them unchanged; the stored JSON text of a validated policy
    reads back as that policy; after a write every later read, cached or not, yields it as
    the platform policy; a refused write changes nothing, and writing [null] goes back to
    the default, on every later read too. *)
Theorem policy_roundtrip input st now :
  match validate input with
  | inr p =>
      wf_policy p /\ validate (js_policy p) = inr p
      /\ parseStored (Some (JSON_stringify (js_policy p))) = Some p
      /\ fst (set now input st) = inr (p, From_platform)
      /\ (forall later, fst (getEffective later (snd (set now input st))) = (p, From_platform)
            /\ fst (getEffective later (invalidate (snd (set now input st)))) = (p, From_platform))
  | inl e =>
      if is_null input
      then fst (set now input st) = inr (DEFAULT_BAN_POLICY, From_default)
           /\ (forall later, fst (getEffective later (snd (set now input st))) = (DEFAULT_BAN_POLICY, From_default))
      else set now input st = (inl e, st)
  end.
Proof.
  destruct (validate input) as [e|p] eqn:Hv.
  - unfold set. destruct (is_null input) eqn:E; [|by rewrite Hv]. split; [done|]. intros later.
    cbn [getEffective pol_cache snd]. by case_match.
  - pose proof (validate_wf _ _ Hv) as Hp. assert (Hn : is_null input = false) by (destruct input; try reflexivity; discriminate Hv).
    assert (E : forall n, getEffective n {| pol_cache := None; pol_stored := Some (JSON_stringify (js_policy p)) |}
      = ((p, From_platform), {| pol_cache := Some ((p, From_platform), n); pol_stored := Some (JSON_stringify (js_policy p)) |}))
      by (intros n; unfold getEffective; cbn [pol_cache pol_stored]; by rewrite parseStored_js).
    unfold set. rewrite Hn, Hv, E. cbn [fst snd].
    split_and!; [done|by apply validate_js|by apply parseStored_js|done|].
    intros later. unfold invalidate. cbn [pol_stored]. rewrite E. split; [|done].
    unfold getEffective. cbn [pol_cache]. destruct (later - now <? CACHE_TTL_MS); [done|].
    cbn [pol_stored]. by rewrite parseStored_js.
Qed.
