(* ===== verification/PgInet.v ===== *)
(** * The [inet] type of the database

    Ban and whitelist rows hold PostgreSQL [inet] values, and the queries use its operators.
    [PgInet] is what the code uses of them; [PgInetLaws] states their documented behaviour
    on networks without host bits, against the parser of [IpValidation]: a value [denotes]
    a parsed network. The instance [TextInet] (an address and a mask length) satisfies the
    laws. *)

From S2P Require Import Prelude JsString NodeNet IpValidation.

Class PgInet := {
  inet : Type;
  #[global] inet_eq_dec :: EqDecision inet;
  inet_in : string -> option inet;          (** [?::inet]; none: error 22P02 *)
  cidr_in : string -> option inet;          (** [?::cidr]: host bits are refused *)
  inet_out : inet -> string;                (** the text the driver reads *)
  inet_text : inet -> string;               (** [ip::text]: the address and the mask length *)
  masklen : inet -> Z;
  set_masklen : inet -> Z -> inet;
  inet_sup : inet -> inet -> bool;          (** [a >>= b] *)
  inet_overlap : inet -> inet -> bool       (** [a && b] *)
}.

(** The single address a network starts at. *)
Definition host_of (p : ParsedCidr) : ParsedCidr :=
  {| address := address p; family := family p; prefix := bits (family p) |}.

Class PgInetLaws (PG : PgInet) := {
  denotes : inet -> ParsedCidr -> Prop;
  denotes_inj i p q : wf_cidr p -> wf_cidr q -> denotes i p -> denotes i q -> p = q;
  denotes_ext i j p : wf_cidr p -> denotes i p -> denotes j p -> i = j;
  inet_in_host p : wf_cidr p -> exists i, inet_in (address p) = Some i /\ denotes i (host_of p);
  inet_in_network p : wf_cidr p -> exists i, inet_in (address p +:+ "/" +:+ dec (prefix p)) = Some i /\ denotes i p;
  masklen_spec i p : wf_cidr p -> denotes i p -> masklen i = prefix p;
  set_masklen_host i p : wf_cidr p -> denotes i (host_of p) -> denotes (set_masklen i (prefix p)) p;
  set_masklen_same i : set_masklen i (masklen i) = i;
  inet_sup_spec i j p q : wf_cidr p -> wf_cidr q -> denotes i p -> denotes j q -> inet_sup i j = cidrContains p q;
  inet_overlap_spec i j p q : wf_cidr p -> wf_cidr q -> denotes i p -> denotes j q -> inet_overlap i j = cidrOverlaps p q;
  inet_out_parse i p : wf_cidr p -> denotes i p -> parse_text (inet_out i) = Some p;
  inet_text_parse i p : wf_cidr p -> denotes i p -> parse_text (inet_text i) = Some p;
  inet_out_host i p : wf_cidr p -> denotes i (host_of p) ->
    str_includes "/" (inet_out i) = false /\ parse_text (inet_out i +:+ "/" +:+ dec (prefix p)) = Some p
}.

Lemma host_of_wf p : wf_cidr p -> wf_cidr (host_of p).
Proof.
  intros [Hp Hv Hh Ht Hm]. pose proof (bits_pos (family p)).
  split; [simpl; lia|exact Hv| |exact Ht|exact Hm].
  unfold size_of, host_of. cbn [family prefix]. rewrite Z.sub_diag. change (2 ^ 0) with 1. apply Z.mod_1_r.
Qed.
#[export] Hint Resolve host_of_wf : og.

Lemma host_of_single p : prefix p = bits (family p) -> host_of p = p.
Proof. destruct p. cbn. by intros ->. Qed.

(** ** An instance *)

Record TextInet := { ti_family : IpFamily; ti_value : Z; ti_mask : Z }.
#[export] Instance TextInet_eq_dec : EqDecision TextInet.
Proof. solve_decision. Defined.

Definition ti_in (s : string) : option TextInet :=
  let parts := split "/" s in
  let addr := nth 0 parts "" in
  if (2 <? length parts)%nat || str_includes "%" addr || (isIP addr =? 0) then None
  else let f := fam_of (isIP addr) in
       match parse_prefix f parts, textToBigInt f addr with
       | Some n, Some v => Some {| ti_family := f; ti_value := v; ti_mask := n |}
       | _, _ => None
       end.

Definition ti_top (i : TextInet) (n : Z) : Z := ti_value i / 2 ^ (bits (ti_family i) - n).

Definition ti_cidr_in (s : string) : option TextInet :=
  match ti_in s with
  | Some i => if ti_value i mod 2 ^ (bits (ti_family i) - ti_mask i) =? 0 then Some i else None
  | None => None
  end.

Definition ti_out (i : TextInet) : string :=
  render (ti_family i) (ti_value i)
  +:+ if ti_mask i =? bits (ti_family i) then "" else "/" +:+ dec (ti_mask i).

Definition ti_text (i : TextInet) : string := render (ti_family i) (ti_value i) +:+ "/" +:+ dec (ti_mask i).

Definition ti_overlap (i j : TextInet) : bool :=
  let n := Z.min (ti_mask i) (ti_mask j) in
  bool_decide (ti_family i = ti_family j) && (ti_top i n =? ti_top j n).
Definition ti_sup (i j : TextInet) : bool := (ti_mask i <=? ti_mask j) && ti_overlap i j.

#[export] Instance TextPg : PgInet := {
  inet := TextInet; inet_in := ti_in; cidr_in := ti_cidr_in; inet_out := ti_out; inet_text := ti_text; masklen := ti_mask;
  set_masklen i n := {| ti_family := ti_family i; ti_value := ti_value i; ti_mask := n |};
  inet_sup := ti_sup; inet_overlap := ti_overlap
}.

Definition ti_denotes (i : TextInet) (p : ParsedCidr) : Prop :=
  i = {| ti_family := family p; ti_value := valueOf p; ti_mask := prefix p |}.

Lemma ti_in_text p s :
  wf_cidr p -> (s = address p /\ prefix p = bits (family p)) \/ s = address p +:+ "/" +:+ dec (prefix p) ->
  ti_in s = Some {| ti_family := family p; ti_value := valueOf p; ti_mask := prefix p |}.
Proof.
  intros [Hp Hv Hh Ht Hm] Hs. pose proof (render_plain _ _ Hv) as Hr.
  rewrite <- Ht in Hr. destruct Hr as (_ & _ & _ & Hpc & Hsl).
  destruct (isIP_render (family p) (valueOf p)) as [Hz Hf]. rewrite <- Ht in Hz, Hf.
  assert (Hp255 : 0 <= prefix p <= 255) by (destruct (family p); simpl in *; lia).
  destruct (prefix_dec _ Hp255) as (Pre & Psl & _). destruct (octet_spec _ Hp255) as (_ & _ & Pval & _).
  assert (Hparts : (length (split "/" s) <= 2)%nat /\ nth 0 (split "/" s) "" = address p
    /\ parse_prefix (family p) (split "/" s) = Some (prefix p)).
  { destruct Hs as [[-> ->]| ->].
    - rewrite split_absent by done. simpl. split; [lia|done].
    - change ("/" +:+ dec (prefix p)) with (String "/" (dec (prefix p))).
      rewrite split_app_sep, split_absent by done.
      cbn [length nth parse_prefix]. rewrite Pre, Pval. cbn [negb]. split_and!; [lia|done|].
      destruct (Z.ltb_spec (bits (family p)) (prefix p)); [lia|done]. }
  destruct Hparts as (P1 & P2 & P3). unfold ti_in. rewrite P2, Hpc, Hf, P3.
  rewrite (proj2 (Nat.ltb_ge _ _)) by done. rewrite (proj2 (Z.eqb_neq _ _)) by done. cbn [orb].
  rewrite Ht at 1. by rewrite textToBigInt_render.
Qed.

Lemma valueOf_host p : valueOf (host_of p) = valueOf p.
Proof. done. Qed.

Lemma ti_overlap_spec p q :
  wf_cidr p -> wf_cidr q ->
  ti_overlap {| ti_family := family p; ti_value := valueOf p; ti_mask := prefix p |}
             {| ti_family := family q; ti_value := valueOf q; ti_mask := prefix q |} = cidrOverlaps p q.
Proof.
  intros [Hp Hv _ _ _] [Hp' Hv' _ _ _]. unfold ti_overlap, cidrOverlaps, ti_top. cbn [ti_family ti_value ti_mask].
  destruct (decide (family p = family q)) as [E|E]; [|by rewrite !bool_decide_false].
  rewrite !bool_decide_true by done. cbn [negb andb]. rewrite E in *.
  set (n := Z.min (prefix p) (prefix q)). assert (Hn : 0 <= n <= bits (family q)) by lia.
  rewrite !land_maskOf by done. assert (0 < 2 ^ (bits (family q) - n)) by (apply Z.pow_pos_nonneg; lia).
  apply eq_bool_prop_intro. rewrite !Is_true_true, !Z.eqb_eq. split; [by intros ->|].
  intros H1. by apply Z.mul_reg_r in H1; [|lia].
Qed.

#[export] Instance TextPgLaws : PgInetLaws TextPg.
Proof.
  refine {| denotes := ti_denotes |}; unfold ti_denotes; cbn [masklen set_masklen inet_in inet_out inet_text inet_sup inet_overlap inet TextPg].
  - intros i p q Hp Hq -> [= Hf Hv Hn]. by apply wf_cidr_eq.
  - by intros i j p _ -> ->.
  - intros p Hp. eexists. split; [|done]. rewrite (ti_in_text (host_of p)); [done|by apply host_of_wf|by left].
  - intros p Hp. eexists. split; [|done]. apply ti_in_text; auto.
  - by intros i p _ ->.
  - by intros i p _ ->.
  - by intros [].
  - intros i j p q Hp Hq -> ->. unfold ti_sup. rewrite ti_overlap_spec by done. done.
  - intros i j p q Hp Hq -> ->. by apply ti_overlap_spec.
  - intros i p Hp ->. apply parse_text_plain; [done|]. unfold ti_out. cbn [ti_family ti_value ti_mask].
    rewrite <- (wf_text p Hp). destruct (Z.eqb_spec (prefix p) (bits (family p))); [left|by right].
    by rewrite app_nil_r_str.
  - intros i p Hp ->. apply parse_text_plain; [done|]. right. unfold ti_text. cbn [ti_family ti_value ti_mask]. by rewrite <- (wf_text p Hp).
  - intros i p Hp ->. assert (E : render (family (host_of p)) (valueOf (host_of p)) = address p) by (symmetry; apply (wf_text p Hp)).
    unfold ti_out. cbn [ti_family ti_value ti_mask]. rewrite E. change (family (host_of p)) with (family p).
    change (prefix (host_of p)) with (bits (family p)). rewrite Z.eqb_refl, app_nil_r_str.
    split; [|apply parse_text_plain; auto]. rewrite (wf_text p Hp). by apply render_plain, Hp.
Defined.
