(* ===== verification/Store.v ===== *)
(** * The server's store and its effects

    The tables of the ban pipeline ([ip_bans], [ip_ban_exclusions], [ip_whitelist],
    [remote_blocked_ips] and the directory), the in-memory state of the modules it uses, and
    what an operation sends out (socket events, MikroTik pushes), as one [World]. An
    operation is a value of the monad [M]: it reads the world, may throw a coded error, and
    keeps the changes made before the throw, except inside a [transaction]. A query without
    an ORDER BY returns its rows in table order. *)

From S2P Require Import Prelude JsString JsValue IpValidation ProtectedIps Tenancy Access SocketRooms PgInet.

(** ** Rows *)

Section Rows.
Context {PG : PgInet}.

(** [ip_bans] ([BanRow] of ban.service.ts); times are milliseconds. *)
Record BanRow := {
  b_id : Z; b_ip : inet; b_cidr_prefix : option Z; b_reason : option string; b_ban_type : string;
  b_scope : string; b_scope_id : option Z; b_tenant_id : option Z; b_origin_tenant_id : option Z;
  b_origin_app : option string; b_origin_ref : option string; b_banned_by_user_id : option Z;
  b_banned_at : Z; b_expires_at : option Z; b_is_active : bool;
  b_lifted_at : option Z; b_lift_reason : option string
}.

(** [ip_whitelist] *)
Record WhitelistRow := {
  wl_id : Z; wl_ip : inet; wl_label : option string; wl_scope : string; wl_scope_id : option Z;
  wl_tenant_id : option Z; wl_created_by : option Z; wl_created_at : Z
}.

(** [ip_ban_exclusions] and [remote_blocked_ips] *)
Record Exclusion := { ex_ban_id : Z; ex_tenant_id : Z; ex_created_by : option Z }.
Record BlockedIp := {
  bi_id : Z; bi_blocklist_id : Z; bi_ip : inet; bi_reason : option string; bi_first_seen : Z; bi_last_seen : Z;
  bi_reports : Z; bi_sources : option (list string); bi_enabled : bool; bi_status : string
}.
Definition entry_enabled (on : bool) (e : BlockedIp) : BlockedIp := {|
  bi_id := bi_id e; bi_blocklist_id := bi_blocklist_id e; bi_ip := bi_ip e; bi_reason := bi_reason e; bi_first_seen := bi_first_seen e;
  bi_last_seen := bi_last_seen e; bi_reports := bi_reports e; bi_sources := bi_sources e; bi_enabled := on; bi_status := bi_status e |}.

(** [COALESCE(cidr_prefix, masklen(ip))] and the network a row stands for. *)
Definition prefixSql (b : BanRow) : Z := default (masklen (b_ip b)) (b_cidr_prefix b).
Definition networkSql (b : BanRow) : inet := set_masklen (b_ip b) (prefixSql b).

(** The unique key of migration 032, over the active rows. *)
Definition ban_key (b : BanRow) : inet * Z * string * Z * Z :=
  (b_ip b, prefixSql b, b_scope b, default 0 (b_scope_id b), default 0 (b_tenant_id b)).

Definition whitelist_key (w : WhitelistRow) : inet * string * Z * Z :=
  (wl_ip w, wl_scope w, default 0 (wl_scope_id w), default 0 (wl_tenant_id w)).

End Rows.
Arguments BanRow : clear implicits.
Arguments WhitelistRow : clear implicits.
Arguments BlockedIp : clear implicits.

(** ** What leaves the server *)

(** [IpBan] (shared/src/types.ts), as a receiver may see it. *)
Record IpBan := {
  ib_id : Z; ib_ip : string; ib_cidrPrefix : option Z; ib_reason : option string; ib_banType : string;
  ib_scope : string; ib_scopeId : option Z; ib_tenantId : option Z; ib_originTenantId : option Z;
  ib_isOriginTenant : bool; ib_bannedByUserId : option Z; ib_bannedAt : Z; ib_expiresAt : option Z;
  ib_isActive : bool; ib_originApp : option string; ib_originRef : option string
}.

Inductive Payload :=
| P_ban (b : IpBan)
| P_lifted (id : Z) (reason : string)
| P_bulkLifted (count : Z) (reason : string)
| P_exclusion (banId tenantId : Z)
| P_auto (id : Z) (ip service : string) (failureCount : Z) (originTenantId : option Z)
| P_whitelist (action : string) (ids : list Z) (tenantId : option Z).

Inductive PushAction := A_ban | A_unban.

(** A socket event; a push of one target to the MikroTik routers of an audience
    ([None]: every router; [Some t]: those of tenant [t]); a reconciliation of every router. *)
Inductive Effect :=
| Emit (e : Emission Payload)
| Push (target : string) (action : PushAction) (audience : option (option Z))
| Reconcile.

(** ** The world *)

Record World {PG : PgInet} := {
  w_bans : list (BanRow PG);
  w_next_ban : Z;
  w_exclusions : list Exclusion;
  w_whitelist : list (WhitelistRow PG);
  w_next_whitelist : Z;
  w_blocked : list (BlockedIp PG);
  w_directory : Directory;
  w_caches : TenantCaches;
  w_protected : PState;
  w_effects : list Effect
}.
Arguments World : clear implicits.

(** What an operation reads from outside: clock, environment and protected-set inputs
    ([en_inputs]), whether the socket server is up, the tenant lookups, and
    [new Date(String(v)).getTime()] ([None]: not a date). *)
Record Env := {
  en_inputs : PInputs;
  en_io : bool;
  en_tenants : TenantDb;
  en_date : js -> option Z
}.
Definition en_now (en : Env) : Z := in_now (en_inputs en).

Section Ops.
Context {PG : PgInet}.

Definition with_bans (f : list (BanRow PG) -> list (BanRow PG)) (w : World PG) : World PG :=
  {| w_bans := f (w_bans w); w_next_ban := w_next_ban w; w_exclusions := w_exclusions w; w_whitelist := w_whitelist w;
     w_next_whitelist := w_next_whitelist w; w_blocked := w_blocked w; w_directory := w_directory w;
     w_caches := w_caches w; w_protected := w_protected w; w_effects := w_effects w |}.
Definition with_next_ban (n : Z) (w : World PG) : World PG :=
  {| w_bans := w_bans w; w_next_ban := n; w_exclusions := w_exclusions w; w_whitelist := w_whitelist w;
     w_next_whitelist := w_next_whitelist w; w_blocked := w_blocked w; w_directory := w_directory w;
     w_caches := w_caches w; w_protected := w_protected w; w_effects := w_effects w |}.
Definition with_exclusions (f : list Exclusion -> list Exclusion) (w : World PG) : World PG :=
  {| w_bans := w_bans w; w_next_ban := w_next_ban w; w_exclusions := f (w_exclusions w); w_whitelist := w_whitelist w;
     w_next_whitelist := w_next_whitelist w; w_blocked := w_blocked w; w_directory := w_directory w;
     w_caches := w_caches w; w_protected := w_protected w; w_effects := w_effects w |}.
Definition with_whitelist (f : list (WhitelistRow PG) -> list (WhitelistRow PG)) (n : Z) (w : World PG) : World PG :=
  {| w_bans := w_bans w; w_next_ban := w_next_ban w; w_exclusions := w_exclusions w; w_whitelist := f (w_whitelist w);
     w_next_whitelist := n; w_blocked := w_blocked w; w_directory := w_directory w;
     w_caches := w_caches w; w_protected := w_protected w; w_effects := w_effects w |}.
Definition with_blocked (f : list (BlockedIp PG) -> list (BlockedIp PG)) (w : World PG) : World PG :=
  {| w_bans := w_bans w; w_next_ban := w_next_ban w; w_exclusions := w_exclusions w; w_whitelist := w_whitelist w;
     w_next_whitelist := w_next_whitelist w; w_blocked := f (w_blocked w); w_directory := w_directory w;
     w_caches := w_caches w; w_protected := w_protected w; w_effects := w_effects w |}.
Definition with_caches (c : TenantCaches) (w : World PG) : World PG :=
  {| w_bans := w_bans w; w_next_ban := w_next_ban w; w_exclusions := w_exclusions w; w_whitelist := w_whitelist w;
     w_next_whitelist := w_next_whitelist w; w_blocked := w_blocked w; w_directory := w_directory w;
     w_caches := c; w_protected := w_protected w; w_effects := w_effects w |}.
Definition with_protected (p : PState) (w : World PG) : World PG :=
  {| w_bans := w_bans w; w_next_ban := w_next_ban w; w_exclusions := w_exclusions w; w_whitelist := w_whitelist w;
     w_next_whitelist := w_next_whitelist w; w_blocked := w_blocked w; w_directory := w_directory w;
     w_caches := w_caches w; w_protected := p; w_effects := w_effects w |}.
Definition with_effects (es : list Effect) (w : World PG) : World PG :=
  {| w_bans := w_bans w; w_next_ban := w_next_ban w; w_exclusions := w_exclusions w; w_whitelist := w_whitelist w;
     w_next_whitelist := w_next_whitelist w; w_blocked := w_blocked w; w_directory := w_directory w;
     w_caches := w_caches w; w_protected := w_protected w; w_effects := w_effects w ++ es |}.

(** ** The monad *)

Definition M (A : Type) : Type := World PG -> (CodedError + A) * World PG.

Definition ret {A} (a : A) : M A := fun w => (inr a, w).
Definition throw {A} (e : CodedError) : M A := fun w => (inl e, w).
Definition bind {A B} (m : M A) (k : A -> M B) : M B := fun w =>
  match m w with
  | (inl e, w') => (inl e, w')
  | (inr a, w') => k a w'
  end.
Definition get : M (World PG) := fun w => (inr w, w).
Definition modify (f : World PG -> World PG) : M unit := fun w => (inr tt, f w).
Definition emit (es : list Effect) : M unit := modify (with_effects es).
Definition throw_when (c : bool) (e : CodedError) : M unit := if c then throw e else ret tt.
Definition of_option {A} (o : option A) (e : CodedError) : M A := match o with Some a => ret a | None => throw e end.
Definition of_sum {A} (r : CodedError + A) : M A := match r with inr a => ret a | inl e => throw e end.

(** [db.transaction]: an error rolls the tables back. *)
Definition transaction {A} (m : M A) : M A := fun w =>
  match m w with
  | (inl e, _) => (inl e, w)
  | r => r
  end.

(** A malformed [inet] binding: the query fails. *)
Definition invalid_inet : CodedError := codedError 500 "22P02" "invalid input syntax for type inet".

(** ** Writes of [ip_bans] *)

Definition same_key (r b : BanRow PG) : bool := b_is_active r && bool_decide (ban_key r = ban_key b).

(** The unique index refuses the row (error 23505). *)
Definition violates (rows : list (BanRow PG)) (b : BanRow PG) : bool := b_is_active b && existsb (fun r => same_key r b) rows.

(** INSERT ... RETURNING *: [None] on a violation. The id comes from the sequence. *)
Definition insert_ban (mk : Z -> BanRow PG) : M (option (BanRow PG)) := fun w =>
  let b := mk (w_next_ban w) in
  let w' := with_next_ban (w_next_ban w + 1) w in
  if violates (w_bans w) b then (inr None, w') else (inr (Some b), with_bans (fun l => l ++ [b]) w').

(** UPDATE ... WHERE ... RETURNING * for an update that leaves the key and the activity of a
    row alone, or deactivates it: no violation is possible. *)
Definition update_bans (p : BanRow PG -> bool) (f : BanRow PG -> BanRow PG) : M (list (BanRow PG)) := fun w =>
  (inr (map f (List.filter p (w_bans w))), with_bans (map (fun b => if p b then f b else b)) w).

(** The same for an update of one row that may move its key: [None] on a violation. *)
Definition rekey_ban (p : BanRow PG -> bool) (f : BanRow PG -> BanRow PG) : M (option (list (BanRow PG))) := fun w =>
  let updated := map f (List.filter p (w_bans w)) in
  let others := List.filter (fun b => negb (p b)) (w_bans w) in
  if existsb (fun b => violates others b) updated then (inr None, w)
  else (inr (Some updated), with_bans (map (fun b => if p b then f b else b)) w).

(** INSERT ... ON CONFLICT DO NOTHING of several rows: the rows inserted. *)
Fixpoint insert_ignore (mks : list (Z -> BanRow PG)) : M (list (BanRow PG)) :=
  match mks with
  | [] => ret []
  | mk :: r => bind (insert_ban mk) (fun o => bind (insert_ignore r) (fun l =>
                 ret (match o with Some b => b :: l | None => l end)))
  end.

(** ** Writes of [ip_ban_exclusions] ([ON CONFLICT (ban_id, tenant_id) DO NOTHING]) *)

Definition excluded (l : list Exclusion) (banId tenantId : Z) : bool :=
  existsb (fun e => (ex_ban_id e =? banId) && (ex_tenant_id e =? tenantId)) l.

Definition insert_exclusion (banId tenantId : Z) (by_ : option Z) : M bool := fun w =>
  if excluded (w_exclusions w) banId tenantId then (inr false, w)
  else (inr true, with_exclusions (fun l => l ++ [ {| ex_ban_id := banId; ex_tenant_id := tenantId; ex_created_by := by_ |} ]) w).

End Ops.
Arguments M : clear implicits.

Declare Scope mon_scope.
Delimit Scope mon_scope with mon.
Notation "x <- m ;; k" := (bind m (fun x => k)) (at level 90, m at next level, k at level 200, right associativity) : mon_scope.
Notation "m >> k" := (bind m (fun _ => k)) (at level 90, k at level 200, right associativity) : mon_scope.
