(* ===== verification/Hoare.v ===== *)
(** * Reasoning about operations

    A triple [hoare R P m Q] says: from a world satisfying [P] the operation [m] only moves
    along the transition relation [R], whatever its outcome, and when it returns [a] the
    world satisfies [Q a]. The rules follow the combinators of [Store]. *)

From S2P Require Import Prelude IpValidation ProtectedIps Tenancy Access SocketRooms PgInet Store.

Section Hoare.
Context {PG : PgInet} (R : relation (World PG)).

Definition hoare {A} (P : World PG -> Prop) (m : M PG A) (Q : A -> World PG -> Prop) : Prop :=
  forall w, P w -> rtc R w (snd (m w)) /\ match fst (m w) with inr a => Q a (snd (m w)) | inl _ => True end.

Lemma hoare_weaken {A} (P P' : World PG -> Prop) (m : M PG A) (Q Q' : A -> World PG -> Prop) :
  hoare P m Q -> (forall w, P' w -> P w) -> (forall a w, Q a w -> Q' a w) -> hoare P' m Q'.
Proof. intros H HP HQ w Hw. destruct (H w (HP w Hw)) as [H1 H2]. split; [done|]. destruct (fst (m w)); auto. Qed.

Lemma hoare_ret {A} (P : World PG -> Prop) (a : A) : hoare P (ret a) (fun x w => x = a /\ P w).
Proof. intros w Hw. split; [constructor|done]. Qed.

Lemma hoare_throw {A} P e (Q : A -> World PG -> Prop) : hoare P (throw e) Q.
Proof. intros w Hw. split; [constructor|done]. Qed.

Lemma hoare_bind {A B} P (m : M PG A) (k : A -> M PG B) (Q : A -> World PG -> Prop) (S : B -> World PG -> Prop) :
  hoare P m Q -> (forall a, hoare (Q a) (k a) S) -> hoare P (bind m k) S.
Proof.
  intros Hm Hk w Hw. destruct (Hm w Hw) as [H1 H2]. unfold bind. destruct (m w) as [[e|a] w1]; cbn [fst snd] in *; [done|].
  destruct (Hk a w1 H2) as [H3 H4]. split; [by etransitivity|done].
Qed.

Lemma hoare_get P : hoare P get (fun a w => a = w /\ P w).
Proof. intros w Hw. split; [constructor|done]. Qed.

Lemma hoare_modify P f (Q : unit -> World PG -> Prop) : (forall w, P w -> R w (f w) /\ Q tt (f w)) -> hoare P (modify f) Q.
Proof. intros H w Hw. destruct (H w Hw). split; [by apply rtc_once|done]. Qed.

Lemma hoare_throw_when P c e : hoare P (throw_when c e) (fun _ w => c = false /\ P w).
Proof. destruct c; [apply hoare_throw|]. intros w Hw. split; [constructor|done]. Qed.

Lemma hoare_of_option {A} P (o : option A) e : hoare P (of_option o e) (fun a w => o = Some a /\ P w).
Proof. destruct o; [|apply hoare_throw]. intros w Hw. split; [constructor|done]. Qed.

Lemma hoare_of_sum {A} P (o : CodedError + A) : hoare P (of_sum o) (fun a w => o = inr a /\ P w).
Proof. destruct o; [apply hoare_throw|]. intros w Hw. split; [constructor|done]. Qed.

Lemma hoare_transaction {A} P (m : M PG A) Q : hoare P m Q -> hoare P (transaction m) Q.
Proof.
  intros H w Hw. destruct (H w Hw) as [H1 H2]. unfold transaction. destruct (m w) as [[e|a] w1]; cbn [fst snd] in *; [|done].
  split; [constructor|done].
Qed.

Lemma hoare_exact {A} (P : World PG -> Prop) (m : M PG A) (Q : A -> World PG -> Prop) :
  (forall w, P w -> exists w', rtc R w w' /\ ((exists e, m w = (inl e, w')) \/ (exists a, m w = (inr a, w') /\ Q a w'))) ->
  hoare P m Q.
Proof. intros H w Hw. destruct (H w Hw) as (w' & Hr & [(e & ->)|(a & -> & HQ)]); by split. Qed.

Lemma hoare_case {A} (b : bool) P (m1 m2 : M PG A) Q : hoare P m1 Q -> hoare P m2 Q -> hoare P (if b then m1 else m2) Q.
Proof. by destruct b. Qed.

End Hoare.
