(* ===== verification/Whitelist.v ===== *)
(** * Whitelist ([server/src/services/whitelist.service.ts])

    Entries that bans must not block: global ones (authority of the Default tenant) and
    local ones (a tenant, one of its groups, one of its agents). *)

From S2P Require Import Prelude JsString JsValue JsNumber NodeNet IpValidation ProtectedIps Tenancy Access SocketRooms PgInet Store.
Local Open Scope mon_scope.

(** [/^([^/]+)(?:\/(\d{1,3}))?$/], then a prefix within the family. *)
Definition isInetLiteral (v : string) : bool :=
  match split "/" (trim v) with
  | [a] => negb (is_empty a) && negb (isIP a =? 0)
  | [a; n] =>
      negb (is_empty a) && negb (is_empty n) && (String.length n <=? 3)%nat && str_forall is_digit n
      && negb (isIP a =? 0)
      && (digits_value 10 n <=? if isIP a =? 4 then 32 else 128)
  | _ => false
  end.

(** [WhitelistMatchContext] *)
Record WhitelistMatchContext := { wc_tenantId : option Z; wc_groupIds : list Z; wc_deviceId : option Z }.

Definition opt_eq (a : option Z) (z : Z) : bool := bool_decide (a = Some z).
Definition opt_in (a : option Z) (l : list Z) : bool := match a with Some z => mem z l | None => false end.

(** [IpWhitelistEntry], the model of a row ([rowToWhitelist]). *)
Record IpWhitelist := {
  iw_id : Z; iw_ip : string; iw_label : option string; iw_scope : string; iw_scopeId : option Z;
  iw_tenantId : option Z; iw_createdBy : option Z; iw_createdAt : Z; iw_canDelete : option bool
}.

(** [visibleAgentIds?: number[] | 'all']: [Ids_all] also stands for undefined. *)
Abbreviation TeamScope := Ids.

Definition WHITELIST_BULK_DELETE_MAX : nat := 1000.
Definition BULK_DETAIL_MAX : nat := 50.
Definition WHITELIST_SCOPES : list string := ["global"; "tenant"; "group"; "agent"].

Record WhitelistBulkDeleteResult := {
  wr_deleted : Z; wr_forbidden : Z; wr_notFound : Z; wr_errors : list (Z * Z * string)
}.

(** The row condition [whereTeamScopeAllows] adds for the granted agents. *)
Definition whereTeamScopeAllows (d : Directory) (scope : string) (scopeId : option Z) (agentIds : list Z) : bool :=
  negb (existsb (String.eqb scope) ["group"; "agent"])
  || (String.eqb scope "agent" && opt_in scopeId agentIds)
  || (String.eqb scope "group"
      && opt_in scopeId
           (flat_map (fun c => if existsb (fun x => mem (dev_id x) agentIds && opt_eq (dev_group x) (snd c)) (d_devices d)
                               then [fst c] else []) (d_closure d))).

(** [if (opts.visibleAgentIds && opts.visibleAgentIds !== 'all') ...] *)
Definition team_allows (d : Directory) (scope : string) (scopeId : option Z) (visible : TeamScope) : bool :=
  match visible with Ids_all => true | Ids_list l => whereTeamScopeAllows d scope scopeId l end.

Section Whitelist.
Context {PG : PgInet}.

Definition rowToWhitelist (row : WhitelistRow PG) : IpWhitelist :=
  {| iw_id := wl_id row; iw_ip := inet_out (wl_ip row); iw_label := wl_label row; iw_scope := wl_scope row;
     iw_scopeId := wl_scope_id row; iw_tenantId := wl_tenant_id row; iw_createdBy := wl_created_by row;
     iw_createdAt := wl_created_at row; iw_canDelete := None |}.

(** The row condition of [whereWhitelistApplies]. *)
Definition whereWhitelistApplies (ctx : WhitelistMatchContext) (w : WhitelistRow PG) : bool :=
  String.eqb (wl_scope w) "global"
  || match wc_tenantId ctx with
     | None => false
     | Some tenantId =>
         (String.eqb (wl_scope w) "tenant" && opt_eq (wl_tenant_id w) tenantId)
         || (String.eqb (wl_scope w) "group" && opt_in (wl_scope_id w) (wc_groupIds ctx) && opt_eq (wl_tenant_id w) tenantId)
         || match wc_deviceId ctx with
            | None => false
            | Some deviceId => String.eqb (wl_scope w) "agent" && opt_eq (wl_scope_id w) deviceId && opt_eq (wl_tenant_id w) tenantId
            end
     end.

Inductive MatchMode := M_contains | M_overlaps.

(** [isWhitelisted(target, ctx, { mode })]: an entry applying to [ctx] contains (overlaps) the target. *)
Definition isWhitelisted (entries : list (WhitelistRow PG)) (target : string) (ctx : WhitelistMatchContext)
    (mode : MatchMode) : CodedError + bool :=
  match inet_in target with
  | None => inl invalid_inet
  | Some x =>
      let op a := match mode with M_contains => inet_sup a x | M_overlaps => inet_overlap a x end in
      inr (existsb (fun w => op (wl_ip w) && whereWhitelistApplies ctx w) entries)
  end.

(** ** The list delivered to an agent *)

(** [ORDER BY created_at ASC] *)
Fixpoint insert_created (w : WhitelistRow PG) (l : list (WhitelistRow PG)) : list (WhitelistRow PG) :=
  match l with
  | [] => [w]
  | x :: r => if wl_created_at w <=? wl_created_at x then w :: x :: r else x :: insert_created w r
  end.
Definition order_created (l : list (WhitelistRow PG)) : list (WhitelistRow PG) := fold_right insert_created [] l.

(** [collect]: each text once, in order of first appearance ([seen] holds [cidrs]). *)
Definition collect (cidrs : list string) (rows : list (WhitelistRow PG)) : list string :=
  fold_left (fun acc row => let ip := inet_out (wl_ip row) in
                            if existsb (String.eqb ip) acc then acc else acc ++ [ip]) rows cidrs.

Definition resolveWhitelistForAgent (entries : list (WhitelistRow PG)) (deviceId : Z) (groupIds : list Z) (tenantId : Z) : list string :=
  let q p := order_created (List.filter p entries) in
  let of_tenant w := opt_eq (wl_tenant_id w) tenantId in
  let cidrs := collect [] (q (fun w => String.eqb (wl_scope w) "agent" && opt_eq (wl_scope_id w) deviceId && of_tenant w)) in
  let cidrs := fold_left (fun cidrs groupId =>
      collect cidrs (q (fun w => String.eqb (wl_scope w) "group" && opt_eq (wl_scope_id w) groupId && of_tenant w)))
    groupIds cidrs in
  let cidrs := collect cidrs (q (fun w => String.eqb (wl_scope w) "tenant" && of_tenant w)) in
  collect cidrs (q (fun w => String.eqb (wl_scope w) "global")).

(** ** Refresh hints *)

(** [byAudience]: ids by audience, in order of first appearance; a global entry has the null key. *)
Fixpoint audience_add (key : option Z) (ids : list Z) (m : list (option Z * list Z)) : list (option Z * list Z) :=
  match m with
  | [] => [(key, ids)]
  | (k, l) :: r => if bool_decide (k = key) then (k, l ++ ids) :: r else (k, l) :: audience_add key ids r
  end.

Definition WHITELIST_CHANGED : string := "whitelist:changed".

(** Entries as (id, scope, tenantId). *)
Definition notifyWhitelistChanged (io : bool) (action : string) (entries : list (Z * string * option Z)) : list Effect :=
  if negb io then []
  else
    let byAudience := fold_left (fun m e =>
      let key := if String.eqb (snd (fst e)) "global" then None else snd e in
      audience_add key [fst (fst e)] m) entries [] in
    flat_map (fun kv =>
      let payload := P_whitelist action (snd kv) (fst kv) in
      map Emit match fst kv with
               | None => emitGlobal io WHITELIST_CHANGED payload ∅
               | Some t => emitToTenantAudience io (JNum (NInt t)) WHITELIST_CHANGED payload None
               end) byAudience.

(** ** Operations *)

(** [list]: the WHERE clause of the query (the row condition), or the coded 400 / 403 / 404.
    [ilike] is the case-insensitive pattern search of the database. *)
Record WhitelistListOptions := {
  lo_tenantId : Z; lo_scope : option string; lo_scopeId : js; lo_ip : option string; lo_search : option string;
  lo_tenantIds : option (list Z); lo_visibleAgentIds : TeamScope
}.

Definition list_visible (d : Directory) (tenantId : Z) (w : WhitelistRow PG) : bool :=
  isMasterTenant (Some tenantId)
  || String.eqb (wl_scope w) "global"
  || (String.eqb (wl_scope w) "tenant" && opt_eq (wl_tenant_id w) tenantId)
  || orOwnedScopeRows d tenantId (wl_scope w) (wl_scope_id w).

Definition list_scope (d : Directory) (o : WhitelistListOptions) : CodedError + (WhitelistRow PG -> bool) :=
  match lo_scope o with
  | None => inr (fun _ => true)
  | Some scope =>
      if String.eqb scope "all" || is_empty scope then inr (fun _ => true)
      else if negb (existsb (String.eqb scope) WHITELIST_SCOPES)
      then inl (codedError 400 "WHITELIST_SCOPE_INVALID" ("Unknown whitelist scope: " +:+ scope))
      else if (String.eqb scope "group" || String.eqb scope "agent") && negb (is_nullish (lo_scopeId o)) then
        match assertScopeInTenant d scope (lo_scopeId o) (lo_tenantId o) Read with
        | Some e => inl e
        | None => inr (fun w => String.eqb (wl_scope w) scope
                       && match to_number (lo_scopeId o) with NInt n => opt_eq (wl_scope_id w) n | NOther => false end)
        end
      else inr (fun w => String.eqb (wl_scope w) scope)
  end.

Definition list_ip (o : WhitelistListOptions) : CodedError + (WhitelistRow PG -> bool) :=
  match lo_ip o with
  | None => inr (fun _ => true)
  | Some ip =>
      if negb (isInetLiteral ip) then inl (codedError 400 "IP_FILTER_INVALID" "Invalid ip filter")
      else match inet_in (trim ip) with
           | None => inl invalid_inet
           | Some x => inr (fun w => inet_sup (wl_ip w) x)
           end
  end.

Definition list_search (ilike : string -> string -> bool) (inet_text : inet -> string) (likeContains : string -> string)
    (o : WhitelistListOptions) : CodedError + (WhitelistRow PG -> bool) :=
  match lo_search o with
  | None | Some EmptyString => inr (fun _ => true)
  | Some search =>
      let s := trim search in
      if isInetLiteral s then
        match inet_in s with
        | None => inl invalid_inet
        | Some x => inr (fun w => inet_sup (wl_ip w) x || inet_sup x (wl_ip w))
        end
      else
        let pattern := likeContains s in
        inr (fun w => ilike (inet_text (wl_ip w)) pattern || match wl_label w with Some l => ilike l pattern | None => false end)
  end.

Definition list_where (ilike : string -> string -> bool) (inet_text : inet -> string) (likeContains : string -> string)
    (d : Directory) (o : WhitelistListOptions) : CodedError + (WhitelistRow PG -> bool) :=
  match list_scope d o, list_ip o, list_search ilike inet_text likeContains o with
  | inl e, _, _ => inl e
  | inr _, inl e, _ => inl e
  | inr _, inr _, inl e => inl e
  | inr p1, inr p2, inr p3 =>
      let tenants := readTenantsFor (JNum (NInt (lo_tenantId o))) (lo_tenantIds o) in
      inr (fun w => list_visible d (lo_tenantId o) w && p1 w && p2 w && p3 w
                    && (if isMasterTenant (Some (lo_tenantId o)) then whereReadTenants tenants (wl_tenant_id w) else true)
                    && team_allows d (wl_scope w) (wl_scope_id w) (lo_visibleAgentIds o))
  end.

(** The scope and scope id of a new entry. *)
Definition create_scope (d : Directory) (data : js) (tenantId : Z) : CodedError + (string * option Z) :=
  let requested := nullish_or (get_field "scope" data) (JStr "tenant") in
  let main := inr ((if isMasterTenant (Some tenantId) then "global" else "tenant"), None) in
  match requested with
  | JStr s =>
      if String.eqb s "group" || String.eqb s "agent" then
        let scopeId := get_field "scopeId" data in
        if is_nullish scopeId then inl (codedError 400 "SCOPE_ID_REQUIRED" "scopeId is required for group/agent scope")
        else match assertScopeInTenant d s scopeId tenantId Write with
             | Some e => inl e
             | None => inr (s, match to_number scopeId with NInt n => Some n | NOther => None end)
             end
      else main
  | _ => main
  end.

Definition whitelist_ip_invalid : CodedError := codedError 400 "WHITELIST_IP_INVALID" "ip must be an IP address or a CIDR range".

Definition insert_whitelist (mk : Z -> WhitelistRow PG) : M PG (option (WhitelistRow PG)) := fun w =>
  let row := mk (w_next_whitelist w) in
  if existsb (fun r => bool_decide (whitelist_key r = whitelist_key row)) (w_whitelist w)
  then (inr None, with_whitelist id (w_next_whitelist w + 1) w)
  else (inr (Some row), with_whitelist (fun l => l ++ [row]) (w_next_whitelist w + 1) w).

Definition create (en : Env) (data : js) (userId tenantId : Z) : M PG IpWhitelist :=
  (w <- get ;;
  match get_field "ip" data with
  | JStr ip =>
      throw_when (negb (isInetLiteral ip)) whitelist_ip_invalid >>
      s <- of_sum (create_scope (w_directory w) data tenantId) ;;
      x <- of_option (cidr_in (trim ip)) whitelist_ip_invalid ;;
      o <- insert_whitelist (fun id =>
             {| wl_id := id; wl_ip := x; wl_label := match get_field "label" data with JStr l => Some l | _ => None end;
                wl_scope := fst s; wl_scope_id := snd s;
                wl_tenant_id := if String.eqb (fst s) "global" then None else Some tenantId;
                wl_created_by := if userId =? 0 then None else Some userId;
                wl_created_at := en_now en |}) ;;
      row <- of_option o (codedError 409 "WHITELIST_DUPLICATE" "This address is already whitelisted in this scope") ;;
      emit (notifyWhitelistChanged (en_io en) "created" [(wl_id row, wl_scope row, wl_tenant_id row)]) >>
      ret (rowToWhitelist row)
  | _ => throw whitelist_ip_invalid
  end)%mon.

Definition not_found_entry : CodedError := codedError 404 "WHITELIST_ENTRY_NOT_FOUND" "Whitelist entry not found".
Definition GLOBAL_READ_ONLY : string := "A global whitelist entry can only be removed from the Default tenant".
Definition FOREIGN_READ_ONLY : string := "This whitelist entry belongs to another tenant: read-only from the Default tenant".

(** [db('ip_whitelist')....del()]: the number of rows deleted. *)
Definition del_whitelist (p : WhitelistRow PG -> bool) : M PG Z := fun w =>
  (inr (Z.of_nat (length (List.filter p (w_whitelist w)))),
   with_whitelist (List.filter (fun r => negb (p r))) (w_next_whitelist w) w).

Definition verdict_error (v : DeleteVerdict) : option CodedError :=
  match v with
  | D_forbidden_global => Some (codedError 403 "WHITELIST_GLOBAL_READ_ONLY" GLOBAL_READ_ONLY)
  | D_forbidden_foreign => Some (codedError 403 "FOREIGN_TENANT_READ_ONLY" FOREIGN_READ_ONLY)
  | D_not_found => Some not_found_entry
  | D_ok => None
  end.

Definition is_target_scope (scope : string) : bool := String.eqb scope "group" || String.eqb scope "agent".

(** [whitelistService.delete] *)
Definition delete_entry (en : Env) (id tenantId : Z) (visible : TeamScope) : M PG unit :=
  (w <- get ;;
  row <- of_option (List.find (fun r => wl_id r =? id) (w_whitelist w)) not_found_entry ;;
  throw_when (negb (existsb (fun r => (wl_id r =? id) && team_allows (w_directory w) (wl_scope r) (wl_scope_id r) visible)
                      (w_whitelist w))) not_found_entry >>
  let target := if is_target_scope (wl_scope row)
                then resolveScopeTenant (w_directory w) (wl_scope row) (wl_scope_id row) else None in
  match verdict_error (whitelistDeleteVerdict (wl_scope row) (wl_tenant_id row) target tenantId) with
  | Some e => throw e
  | None =>
      deleted <- del_whitelist (fun r => wl_id r =? id) ;;
      throw_when (deleted =? 0) not_found_entry >>
      emit (notifyWhitelistChanged (en_io en) "deleted" [(id, wl_scope row, wl_tenant_id row)])
  end)%mon.

(** [resolveTargetTenants]: the owner of an entry's target, from the rows read for all of them. *)
Definition resolveTargetTenants (d : Directory) (entries : list IpWhitelist) : IpWhitelist -> option Z :=
  let ids s := uniq (omap (fun e => if String.eqb (iw_scope e) s then iw_scopeId e else None) entries) in
  let agentRows := List.filter (fun x => mem (dev_id x) (ids "agent")) (d_devices d) in
  let groupRows := List.filter (fun g => mem (grp_id g) (ids "group")) (d_groups d) in
  let agentTenant : gmap Z Z := fold_left (fun m x => <[dev_id x := dev_tenant x]> m) agentRows ∅ in
  let groupTenant : gmap Z Z := fold_left (fun m g => <[grp_id g := grp_tenant g]> m) groupRows ∅ in
  fun entry =>
    match iw_scopeId entry with
    | None => None
    | Some id =>
        if String.eqb (iw_scope entry) "agent" then agentTenant !! id
        else if String.eqb (iw_scope entry) "group" then groupTenant !! id
        else None
    end.

Definition entry_verdict (target : option Z) (tenantId : Z) (entry : IpWhitelist) : DeleteVerdict :=
  whitelistDeleteVerdict (iw_scope entry) (iw_tenantId entry) target tenantId.

Definition with_canDelete (b : bool) (e : IpWhitelist) : IpWhitelist :=
  {| iw_id := iw_id e; iw_ip := iw_ip e; iw_label := iw_label e; iw_scope := iw_scope e; iw_scopeId := iw_scopeId e;
     iw_tenantId := iw_tenantId e; iw_createdBy := iw_createdBy e; iw_createdAt := iw_createdAt e;
     iw_canDelete := Some b |}.

Definition annotateDeletable (d : Directory) (rows : list (WhitelistRow PG)) (entries : list IpWhitelist) (tenantId : Z)
    (visible : TeamScope) : list IpWhitelist :=
  let targetTenant := resolveTargetTenants d entries in
  let writable : option (list Z) := match visible with
    | Ids_all => None
    | Ids_list l =>
        match entries with
        | [] => None
        | _ => Some (map wl_id (List.filter (fun r => mem (wl_id r) (map iw_id entries)
                                  && whereTeamScopeAllows d (wl_scope r) (wl_scope_id r) l) rows))
        end
    end in
  map (fun e => with_canDelete ((match writable with None => true | Some l => mem (iw_id e) l end)
                                && match entry_verdict (targetTenant e) tenantId e with D_ok => true | _ => false end) e) entries.

(** The loop of [bulkDelete] over the unique ids: the counts and the ids allowed. *)
Definition bulk_refuse (r : WhitelistBulkDeleteResult) (id status : Z) (error : string) : WhitelistBulkDeleteResult :=
  {| wr_deleted := wr_deleted r;
     wr_forbidden := if status =? 403 then wr_forbidden r + 1 else wr_forbidden r;
     wr_notFound := if status =? 403 then wr_notFound r else wr_notFound r + 1;
     wr_errors := if (length (wr_errors r) <? BULK_DETAIL_MAX)%nat then wr_errors r ++ [(id, status, error)] else wr_errors r |}.

Definition bulk_step (byId : Z -> option IpWhitelist) (targetTenant : IpWhitelist -> option Z) (tenantId : Z)
    (acc : WhitelistBulkDeleteResult * list Z) (id : Z) : WhitelistBulkDeleteResult * list Z :=
  let '(r, allowed) := acc in
  match byId id with
  | None => (bulk_refuse r id 404 "Whitelist entry not found", allowed)
  | Some entry =>
      match verdict_error (entry_verdict (targetTenant entry) tenantId entry) with
      | Some e => (bulk_refuse r id (err_status e) (err_message e), allowed)
      | None => (r, allowed ++ [id])
      end
  end.

Definition no_result : WhitelistBulkDeleteResult := {| wr_deleted := 0; wr_forbidden := 0; wr_notFound := 0; wr_errors := [] |}.

Definition bulkDelete (en : Env) (ids : list Z) (tenantId : Z) (visible : TeamScope) : M PG WhitelistBulkDeleteResult :=
  (w <- get ;;
  let unique := uniq ids in
  let rows := map rowToWhitelist
    (List.filter (fun r => mem (wl_id r) unique && team_allows (w_directory w) (wl_scope r) (wl_scope_id r) visible) (w_whitelist w)) in
  let byId id := List.find (fun e => iw_id e =? id) (rev rows) in
  let targetTenant := resolveTargetTenants (w_directory w) rows in
  let '(result, allowed) := fold_left (bulk_step byId targetTenant tenantId) unique (no_result, []) in
  match allowed with
  | [] => ret result
  | _ =>
      deleted <- del_whitelist (fun r => mem (wl_id r) allowed) ;;
      emit (notifyWhitelistChanged (en_io en) "deleted"
              (omap (fun id => option_map (fun e => (id, iw_scope e, iw_tenantId e)) (byId id)) allowed)) >>
      ret {| wr_deleted := deleted; wr_forbidden := wr_forbidden result; wr_notFound := wr_notFound result;
             wr_errors := wr_errors result |}
  end)%mon.

(** ** The delete rule *)

(** Primary keys of the tables the delete rule reads. *)
Record whitelist_keys (w : World PG) : Prop := {
  wk_entries : NoDup (map wl_id (w_whitelist w));
  wk_devices : NoDup (map dev_id (d_devices (w_directory w)));
  wk_groups : NoDup (map grp_id (d_groups (w_directory w)));
  wk_fresh : Forall (fun r => wl_id r < w_next_whitelist w) (w_whitelist w)
}.

Definition target_of (d : Directory) (scope : string) (scopeId : option Z) : option Z :=
  if is_target_scope scope then resolveScopeTenant d scope scopeId else None.

(** The rule of all three operations, on one row. *)
Definition deletable (d : Directory) (tenantId : Z) (visible : TeamScope) (r : WhitelistRow PG) : bool :=
  team_allows d (wl_scope r) (wl_scope_id r) visible
  && match whitelistDeleteVerdict (wl_scope r) (wl_tenant_id r) (target_of d (wl_scope r) (wl_scope_id r)) tenantId with
     | D_ok => true | _ => false end.

Lemma target_scope_entry s : is_target_scope s = true -> s = "group" \/ s = "agent".
Proof. unfold is_target_scope. rewrite orb_true_iff, !String.eqb_eq. done. Qed.

Lemma resolveTargetTenants_spec d entries e :
  NoDup (map dev_id (d_devices d)) -> NoDup (map grp_id (d_groups d)) -> In e entries ->
  resolveTargetTenants d entries e = target_of d (iw_scope e) (iw_scopeId e).
Proof.
  intros Hd Hg He. unfold resolveTargetTenants, target_of, is_target_scope.
  destruct (iw_scopeId e) as [id|] eqn:Ei; [|by destruct (_ || _)].
  assert (Hids : forall s, iw_scope e = s ->
      mem id (uniq (omap (fun e => if String.eqb (iw_scope e) s then iw_scopeId e else None) entries)) = true).
  { intros s Hs. apply mem_In, uniq_in. apply list_elem_of_In, list_elem_of_omap. exists e.
    split; [by apply list_elem_of_In|]. by rewrite Hs, String.eqb_refl. }
  rewrite !fold_insert_lookup, !lookup_empty by (by apply NoDup_map_filter).
  unfold resolveScopeTenant, find_device, find_group.
  destruct (String.eqb_spec (iw_scope e) "agent") as [Es|Es].
  - rewrite Es. cbn [orb String.eqb Ascii.eqb Bool.eqb]. change (String.eqb "agent" "tenant") with false.
    rewrite find_filter_implied; [by destruct (List.find _ _)|].
    intros x _ Hx. apply Z.eqb_eq in Hx. rewrite Hx. by apply Hids.
  - destruct (String.eqb_spec (iw_scope e) "group") as [Eg|Eg]; [|done].
    rewrite Eg. change (String.eqb "group" "tenant") with false. cbn [orb].
    rewrite find_filter_implied; [by destruct (List.find _ _)|].
    intros x _ Hx. apply Z.eqb_eq in Hx. rewrite Hx. by apply Hids.
Qed.

Definition refusal (d : Directory) (tenantId : Z) (visible : TeamScope) (r : WhitelistRow PG) : option CodedError :=
  if team_allows d (wl_scope r) (wl_scope_id r) visible
  then verdict_error (whitelistDeleteVerdict (wl_scope r) (wl_tenant_id r) (target_of d (wl_scope r) (wl_scope_id r)) tenantId)
  else Some not_found_entry.

Lemma refusal_deletable d t vis r : refusal d t vis r = None <-> deletable d t vis r = true.
Proof. unfold refusal, deletable. destruct (team_allows _ _ _ _); [|done]. by destruct (whitelistDeleteVerdict _ _ _ _). Qed.

Lemma existsb_key {A} (key : A -> Z) (p : A -> bool) l x :
  NoDup (map key l) -> In x l -> existsb (fun y => (key y =? key x) && p y) l = p x.
Proof.
  intros Hnd Hx. apply eq_bool_prop_intro. rewrite !Is_true_true, existsb_exists. split.
  - intros (y & Hy & E). boolify. assert (Some y = Some x) as [= ->]; [|done].
    rewrite <- (find_unique key l x Hnd Hx), <- H. symmetry. by apply find_unique.
  - intros Hp. exists x. by rewrite Z.eqb_refl, Hp.
Qed.

Definition after_delete (en : Env) (id : Z) (row : WhitelistRow PG) (w : World PG) : World PG :=
  with_effects (notifyWhitelistChanged (en_io en) "deleted" [(id, wl_scope row, wl_tenant_id row)])
    (with_whitelist (List.filter (fun r => negb (wl_id r =? id))) (w_next_whitelist w) w).

Lemma delete_entry_spec en w row t vis :
  whitelist_keys w -> In row (w_whitelist w) ->
  delete_entry en (wl_id row) t vis w
  = match refusal (w_directory w) t vis row with
    | Some e => (inl e, w)
    | None => (inr tt, after_delete en (wl_id row) row w)
    end.
Proof.
  intros [Hk _ _ _] Hrow. unfold delete_entry, bind, get, of_option, throw_when, refusal.
  rewrite (find_unique wl_id _ _ Hk Hrow). cbn [ret].
  rewrite (existsb_key wl_id (fun r => team_allows (w_directory w) (wl_scope r) (wl_scope_id r) vis) _ _ Hk Hrow).
  destruct (team_allows _ _ _ _); cbn [negb]; [|done]. cbv beta iota delta [ret]. cbv zeta.
  fold (target_of (w_directory w) (wl_scope row) (wl_scope_id row)).
  destruct (verdict_error _) as [e|]; [done|]. unfold del_whitelist.
  assert (Hn : (Z.of_nat (length (List.filter (fun r => wl_id r =? wl_id row) (w_whitelist w))) =? 0) = false).
  { apply Z.eqb_neq. assert (Hin : In row (List.filter (fun r => wl_id r =? wl_id row) (w_whitelist w)))
      by (apply filter_In; by rewrite Z.eqb_refl).
    destruct (List.filter _ _); [done|cbn [length]; lia]. }
  rewrite Hn. done.
Qed.

(** One delete rule: for every listed row, the [canDelete] flag of the list and the
    outcome of a delete request agree with the rule of the row (team scope, then the delete
    verdict against the owner of its target): where the flag is true the delete succeeds
    and removes exactly that row, where it is false the delete is refused and changes
    nothing. *)
Theorem can_delete_exact en w rows row tenantId visible
    (Hk : whitelist_keys w) (Hrows : forall r, In r rows -> In r (w_whitelist w)) (Hrow : In row rows) :
  let can := deletable (w_directory w) tenantId visible row in
  In (with_canDelete can (rowToWhitelist row))
     (annotateDeletable (w_directory w) (w_whitelist w) (map rowToWhitelist rows) tenantId visible)
  /\ (if can
      then exists w', delete_entry en (wl_id row) tenantId visible w = (inr tt, w')
                      /\ w_whitelist w' = List.filter (fun r => negb (wl_id r =? wl_id row)) (w_whitelist w)
      else exists e, delete_entry en (wl_id row) tenantId visible w = (inl e, w)).
Proof.
  cbv zeta. pose proof (Hrows row Hrow) as Hin. split.
  - unfold annotateDeletable. apply in_map_iff. exists (rowToWhitelist row). split; [|by apply in_map].
    unfold entry_verdict. destruct Hk as [Hk Hd Hg _].
    rewrite resolveTargetTenants_spec by (done || by apply in_map).
    change (iw_scope (rowToWhitelist row)) with (wl_scope row). change (iw_scopeId (rowToWhitelist row)) with (wl_scope_id row).
    change (iw_tenantId (rowToWhitelist row)) with (wl_tenant_id row). change (iw_id (rowToWhitelist row)) with (wl_id row).
    unfold deletable, team_allows. f_equal. f_equal. destruct visible as [|l]; [done|].
    destruct rows as [|r0 rows]; [done|]. cbn [map]. change (rowToWhitelist r0 :: map rowToWhitelist rows) with (map rowToWhitelist (r0 :: rows)).
    apply eq_bool_prop_intro. rewrite !Is_true_true, mem_In, in_map_iff. split.
    + intros (r & E & Hr). apply filter_In in Hr as [Hr1 Hr2]. boolify.
      assert (Some r = Some row) as [= ->]; [|done].
      rewrite <- (find_unique wl_id _ _ Hk Hin), <- E. symmetry. by apply find_unique.
    + intros Hp. exists row. split; [done|]. apply filter_In. split; [done|]. rewrite Hp, andb_true_r.
      apply mem_In. change (In (wl_id row) (map iw_id (map rowToWhitelist (r0 :: rows)))).
      apply in_map_iff. exists (rowToWhitelist row). split; [done|]. by apply in_map.
  - rewrite delete_entry_spec by done. destruct (deletable _ _ _ _) eqn:E.
    + apply refusal_deletable in E. rewrite E. eexists. by split.
    + destruct (refusal _ _ _ _) eqn:R; [by eexists|]. apply refusal_deletable in R. congruence.
Qed.

(** ** Bulk delete *)

Section BulkLoop.
Context (byId : Z -> option IpWhitelist) (targetTenant : IpWhitelist -> option Z) (tenantId : Z).

Definition bulk_ok (id : Z) : bool :=
  match byId id with
  | None => false
  | Some e => match verdict_error (entry_verdict (targetTenant e) tenantId e) with None => true | Some _ => false end
  end.

Lemma bulk_fold ids r allowed :
  (length (wr_errors r) <= BULK_DETAIL_MAX)%nat ->
  let res := fold_left (bulk_step byId targetTenant tenantId) ids (r, allowed) in
  let refused := length (List.filter (fun id => negb (bulk_ok id)) ids) in
  snd res = allowed ++ List.filter bulk_ok ids
  /\ wr_deleted (fst res) = wr_deleted r
  /\ wr_forbidden (fst res) + wr_notFound (fst res) = wr_forbidden r + wr_notFound r + Z.of_nat refused
  /\ length (wr_errors (fst res)) = Nat.min BULK_DETAIL_MAX (length (wr_errors r) + refused).
Proof.
  revert r allowed. induction ids as [|id ids IH]; intros r allowed Hlen; cbv zeta in *.
  { cbn [fold_left List.filter length fst snd]. rewrite app_nil_r, Nat.add_0_r, Nat.min_r by done. split_and!; (done || lia). }
  cbn [fold_left List.filter].
  assert (Hrefuse : forall st msg, bulk_ok id = false ->
    bulk_step byId targetTenant tenantId (r, allowed) id = (bulk_refuse r id st msg, allowed) ->
    let res := fold_left (bulk_step byId targetTenant tenantId) ids (bulk_step byId targetTenant tenantId (r, allowed) id) in
    snd res = allowed ++ List.filter bulk_ok ids
    /\ wr_deleted (fst res) = wr_deleted r
    /\ wr_forbidden (fst res) + wr_notFound (fst res) = wr_forbidden r + wr_notFound r + Z.of_nat (S (length (List.filter (fun id => negb (bulk_ok id)) ids)))
    /\ length (wr_errors (fst res)) = Nat.min BULK_DETAIL_MAX (length (wr_errors r) + S (length (List.filter (fun id => negb (bulk_ok id)) ids)))).
  { intros st msg _ ->. cbv zeta.
    assert (Hl : length (wr_errors (bulk_refuse r id st msg)) = Nat.min BULK_DETAIL_MAX (S (length (wr_errors r)))).
    { unfold bulk_refuse. cbn [wr_errors]. destruct (Nat.ltb_spec (length (wr_errors r)) BULK_DETAIL_MAX);
        [rewrite length_app; cbn [length]|]; lia. }
    destruct (IH (bulk_refuse r id st msg) allowed) as (H1 & H2 & H3 & H4); [lia|].
    split_and!; [exact H1|exact H2| |lia]. rewrite H3. unfold bulk_refuse. cbn [wr_forbidden wr_notFound].
    destruct (st =? 403); lia. }
  unfold bulk_ok in *. cbn [bulk_step] in Hrefuse |- *.
  destruct (byId id) as [e|]; [|eapply Hrefuse; done].
  destruct (verdict_error _) as [err|]; cbn [negb]; [eapply Hrefuse; done|].
  destruct (IH r (allowed ++ [id]) Hlen) as (H1 & H2 & H3 & H4). rewrite H1, <- app_assoc. done.
Qed.
End BulkLoop.

Definition bulk_rows (w : World PG) (unique : list Z) (visible : TeamScope) : list (WhitelistRow PG) :=
  List.filter (fun r => mem (wl_id r) unique && team_allows (w_directory w) (wl_scope r) (wl_scope_id r) visible) (w_whitelist w).

Definition bulk_byId (w : World PG) (unique : list Z) (visible : TeamScope) (id : Z) : option IpWhitelist :=
  List.find (fun e => iw_id e =? id) (rev (map rowToWhitelist (bulk_rows w unique visible))).

Lemma bulk_byId_some w unique vis row :
  NoDup (map wl_id (w_whitelist w)) -> In row (bulk_rows w unique vis) ->
  bulk_byId w unique vis (wl_id row) = Some (rowToWhitelist row).
Proof.
  intros Hk Hin. unfold bulk_byId. apply (find_unique iw_id _ (rowToWhitelist row)).
  - rewrite map_rev, map_map. apply NoDup_ListNoDup, NoDup_rev, NoDup_ListNoDup. by apply (NoDup_map_filter wl_id).
  - apply in_rev. rewrite rev_involutive. by apply in_map.
Qed.

Lemma bulk_byId_In w unique vis id e :
  bulk_byId w unique vis id = Some e -> exists row, In row (bulk_rows w unique vis) /\ wl_id row = id /\ e = rowToWhitelist row.
Proof.
  intros H. apply find_some in H as [Hin E]. apply Z.eqb_eq in E. apply in_rev, in_map_iff in Hin as (row & <- & Hr).
  by exists row.
Qed.

(** An id passes the loop when a row of the table has it and may be deleted. *)
Lemma bulk_ok_spec w unique vis t id :
  whitelist_keys w -> In id unique ->
  bulk_ok (bulk_byId w unique vis) (resolveTargetTenants (w_directory w) (map rowToWhitelist (bulk_rows w unique vis))) t id = true
  <-> exists row, In row (w_whitelist w) /\ wl_id row = id /\ deletable (w_directory w) t vis row = true.
Proof.
  intros [Hk Hd Hg _] Hid. unfold bulk_ok.
  assert (Hverdict : forall row, In row (bulk_rows w unique vis) ->
    entry_verdict (resolveTargetTenants (w_directory w) (map rowToWhitelist (bulk_rows w unique vis)) (rowToWhitelist row)) t (rowToWhitelist row)
    = whitelistDeleteVerdict (wl_scope row) (wl_tenant_id row) (target_of (w_directory w) (wl_scope row) (wl_scope_id row)) t).
  { intros row Hr. unfold entry_verdict. rewrite resolveTargetTenants_spec by (done || by apply in_map). done. }
  split.
  - destruct (bulk_byId w unique vis id) as [e|] eqn:E; [|done]. apply bulk_byId_In in E as (row & Hr & Hwl & ->).
    rewrite Hverdict by done. intros H. exists row. pose proof Hr as Hr'. apply filter_In in Hr' as [Hin Hp]. boolify.
    split_and!; [done..|]. unfold deletable. rewrite H1. by destruct (whitelistDeleteVerdict _ _ _ _).
  - intros (row & Hin & <- & Hdel). unfold deletable in Hdel. boolify.
    assert (Hr : In row (bulk_rows w unique vis)) by (apply filter_In; rewrite H, andb_true_r, mem_In; done).
    rewrite bulk_byId_some, Hverdict by done. by destruct (whitelistDeleteVerdict _ _ _ _).
Qed.

Lemma bulk_delete_spec en w ids tenantId visible (Hk : whitelist_keys w) :
  exists r w', bulkDelete en ids tenantId visible w = (inr r, w')
  /\ w_whitelist w' = List.filter (fun x => negb (mem (wl_id x) ids && deletable (w_directory w) tenantId visible x)) (w_whitelist w)
  /\ wr_deleted r = Z.of_nat (length (List.filter (fun x => mem (wl_id x) ids && deletable (w_directory w) tenantId visible x) (w_whitelist w)))
  /\ wr_deleted r + wr_forbidden r + wr_notFound r = Z.of_nat (length (uniq ids))
  /\ Z.of_nat (length (wr_errors r)) = Z.min 50 (wr_forbidden r + wr_notFound r)
  /\ w_directory w' = w_directory w /\ w_next_whitelist w' = w_next_whitelist w.
Proof.
  set (del := fun x => mem (wl_id x) ids && deletable (w_directory w) tenantId visible x).
  set (ok := bulk_ok (bulk_byId w (uniq ids) visible)
               (resolveTargetTenants (w_directory w) (map rowToWhitelist (bulk_rows w (uniq ids) visible))) tenantId).
  assert (Hok : forall x, In x (w_whitelist w) -> mem (wl_id x) (List.filter ok (uniq ids)) = del x).
  { intros x Hx. apply eq_bool_prop_intro. unfold del. rewrite !Is_true_true, andb_true_iff, !mem_In, filter_In, uniq_in.
    split; intros [H1 H2]; (split; [done|]).
    - apply bulk_ok_spec in H2 as (row & Hr & E & Hdel); [|done|by apply uniq_in].
      destruct Hk as [Hk _ _ _]. assert (Some row = Some x) as [= ->]; [|done].
      rewrite <- (find_unique wl_id _ _ Hk Hx), <- E. symmetry. by apply find_unique.
    - apply bulk_ok_spec; [done|by apply uniq_in|]. by exists x. }
  assert (Hcount : length (List.filter del (w_whitelist w)) = length (List.filter ok (uniq ids))).
  { apply (count_keys wl_id); [by destruct Hk| | |].
    - apply NoDup_ListNoDup, List.NoDup_filter, NoDup_ListNoDup, uniq_nodup.
    - intros x Hx. rewrite <- Hok, mem_In by done. done.
    - intros k Hin. apply filter_In in Hin as [Hu Ho]. apply bulk_ok_spec in Ho as (row & Hr & E & _); [by exists row|done|done]. }
  destruct (bulk_fold (bulk_byId w (uniq ids) visible)
    (resolveTargetTenants (w_directory w) (map rowToWhitelist (bulk_rows w (uniq ids) visible))) tenantId (uniq ids) no_result [])
    as (H1 & H2 & H3 & H4); [cbn; lia|]. fold ok in H1, H3, H4.
  pose proof (filter_length ok (uniq ids)) as Hsum.
  unfold bulkDelete. unfold bind at 1. unfold get. fold (bulk_rows w (uniq ids) visible).
  fold (bulk_byId w (uniq ids) visible). cbv zeta. change (fun id => bulk_byId w (uniq ids) visible id) with (bulk_byId w (uniq ids) visible) in *.
  destruct (fold_left _ (uniq ids) (no_result, [])) as [result allowed]. cbn [fst snd] in *. rewrite app_nil_l in H1.
  assert (Hdetail : Z.of_nat (length (wr_errors result)) = Z.min 50 (wr_forbidden result + wr_notFound result)).
  { rewrite H4. cbn [wr_errors no_result length wr_forbidden wr_notFound] in *. unfold BULK_DETAIL_MAX. lia. }
  cbn [wr_forbidden wr_notFound wr_deleted no_result] in *. rewrite <- H1 in *.
  destruct allowed as [|a allowed'] eqn:Ea.
  - exists result, w. split; [done|]. assert (Hz : List.filter del (w_whitelist w) = []) by (apply length_zero_iff_nil, Hcount).
    split.
    { symmetry. apply filter_all. intros x Hx. fold (del x). destruct (del x) eqn:Ed; [|done].
      assert (In x (List.filter del (w_whitelist w))) as Hin by (by apply filter_In). by rewrite Hz in Hin. }
    rewrite Hz, H2. split_and!; [done|cbn [length] in *; lia|exact Hdetail|done|done].
  - unfold bind, del_whitelist, emit, modify, ret. eexists _, _. split; [reflexivity|].
    cbn [with_effects with_whitelist w_whitelist wr_deleted wr_forbidden wr_notFound wr_errors].
    assert (Hf : List.filter (fun r => mem (wl_id r) (a :: allowed')) (w_whitelist w) = List.filter del (w_whitelist w))
      by (apply filter_ext_in; exact Hok).
    rewrite Hf. split; [|split_and!; [done|rewrite Hcount; lia|exact Hdetail|done|done]].
    apply filter_ext_in. intros x Hx. by rewrite Hok.
Qed.

(** A bulk delete is the delete rule on each id: it never fails, removes exactly the
    requested rows the caller may delete, counts every distinct id once as deleted,
    forbidden or not found, and details at most the first fifty refusals. *)
Theorem bulk_delete_exact en w ids tenantId visible (Hk : whitelist_keys w) :
  exists r w', bulkDelete en ids tenantId visible w = (inr r, w')
  /\ w_whitelist w' = List.filter (fun x => negb (mem (wl_id x) ids && deletable (w_directory w) tenantId visible x)) (w_whitelist w)
  /\ wr_deleted r = Z.of_nat (length (List.filter (fun x => mem (wl_id x) ids && deletable (w_directory w) tenantId visible x) (w_whitelist w)))
  /\ wr_deleted r + wr_forbidden r + wr_notFound r = Z.of_nat (length (uniq ids))
  /\ Z.of_nat (length (wr_errors r)) = Z.min 50 (wr_forbidden r + wr_notFound r).
Proof.
  destruct (bulk_delete_spec en w ids tenantId visible Hk) as (r & w' & H1 & H2 & H3 & H4 & H5 & _). by exists r, w'.
Qed.

(** ** The delivered list *)

Definition text_of (r : WhitelistRow PG) : string := inet_out (wl_ip r).

Lemma collect_uniq acc rows :
  collect acc rows = acc ++ List.filter (fun s => negb (existsb (String.eqb s) acc)) (uniq (map text_of rows)).
Proof.
  revert acc. induction rows as [|r rows IH]; intros acc; [by rewrite app_nil_r|].
  unfold collect in *. cbn [fold_left map uniq List.filter]. fold (text_of r). rewrite IH. clear IH.
  assert (E : forall x l, negb (existsb (String.eqb x) (l ++ [text_of r]))
                    = negb (existsb (String.eqb x) l) && negb (bool_decide (x = text_of r))).
  { intros x l. rewrite existsb_app. cbn [existsb]. rewrite orb_false_r, negb_orb. f_equal. f_equal.
    apply eq_bool_prop_intro. by rewrite Is_true_true, String.eqb_eq, bool_decide_spec. }
  destruct (existsb (String.eqb (text_of r)) acc) eqn:Er; cbn [negb].
  - f_equal. rewrite filter_filter_implied; [done|]. intros x _ Hx. destruct (decide (x = text_of r)) as [->|Hne].
    + by rewrite Er in Hx.
    + by rewrite bool_decide_false.
  - rewrite <- app_assoc. cbn [app]. f_equal. f_equal.
    induction (uniq (map text_of rows)) as [|x l IHl]; [done|]. cbn [List.filter]. rewrite E.
    destruct (negb (bool_decide (x = text_of r))); cbn [List.filter];
      destruct (negb (existsb (String.eqb x) acc)); cbn [andb]; by rewrite IHl.
Qed.

Lemma collect_app acc l1 l2 : collect (collect acc l1) l2 = collect acc (l1 ++ l2).
Proof. unfold collect. by rewrite fold_left_app. Qed.

Lemma insert_created_In r l x : In x (insert_created r l) <-> x = r \/ In x l.
Proof.
  induction l as [|a l IH]; cbn [insert_created]; [simpl; naive_solver|].
  destruct (wl_created_at r <=? wl_created_at a); simpl in *; [naive_solver|]. rewrite IH. naive_solver.
Qed.
Lemma order_created_In l x : In x (order_created l) <-> In x l.
Proof.
  unfold order_created. induction l as [|a l IH]; cbn [fold_right]; [done|]. rewrite insert_created_In, IH. simpl. naive_solver.
Qed.

(** The four layers, each by creation time. *)
Definition layer (entries : list (WhitelistRow PG)) (scope : string) (scopeId tenantId : option Z) : list (WhitelistRow PG) :=
  order_created (List.filter (fun w => String.eqb (wl_scope w) scope
     && (match scopeId with Some i => opt_eq (wl_scope_id w) i | None => true end)
     && (match tenantId with Some t => opt_eq (wl_tenant_id w) t | None => true end)) entries).

Definition layers (entries : list (WhitelistRow PG)) (deviceId : Z) (groupIds : list Z) (tenantId : Z) : list (WhitelistRow PG) :=
  layer entries "agent" (Some deviceId) (Some tenantId)
  ++ flat_map (fun g => layer entries "group" (Some g) (Some tenantId)) groupIds
  ++ layer entries "tenant" None (Some tenantId)
  ++ layer entries "global" None None.

Lemma layer_In entries s i t x :
  In x (layer entries s i t) <-> In x entries /\ wl_scope x = s
    /\ (forall n, i = Some n -> wl_scope_id x = Some n) /\ (forall n, t = Some n -> wl_tenant_id x = Some n).
Proof.
  unfold layer. rewrite order_created_In, filter_In, !andb_true_iff, String.eqb_eq.
  assert (Hopt : forall (o : option Z) (i : option Z), (match i with Some n => opt_eq o n | None => true end) = true
                   <-> forall n, i = Some n -> o = Some n).
  { intros o [n|]; [|naive_solver]. unfold opt_eq. rewrite bool_decide_eq_true.
    split; [intros -> m Hm; by injection Hm as ->|intros H; by apply H]. }
  rewrite !Hopt. naive_solver.
Qed.

Lemma resolve_layers entries deviceId groupIds tenantId :
  resolveWhitelistForAgent entries deviceId groupIds tenantId = uniq (map text_of (layers entries deviceId groupIds tenantId)).
Proof.
  assert (Hl : forall p q : WhitelistRow PG -> bool, (forall w, p w = q w) ->
      order_created (List.filter p entries) = order_created (List.filter q entries))
    by (intros p q H; f_equal; by apply filter_ext).
  unfold resolveWhitelistForAgent, layers. cbv zeta.
  assert (Hg : forall acc, fold_left (fun cidrs groupId => collect cidrs (order_created (List.filter (fun w =>
       String.eqb (wl_scope w) "group" && opt_eq (wl_scope_id w) groupId && opt_eq (wl_tenant_id w) tenantId) entries))) groupIds acc
     = collect acc (flat_map (fun g => layer entries "group" (Some g) (Some tenantId)) groupIds)).
  { induction groupIds as [|g l IH]; intros acc; [done|]. cbn [fold_left flat_map]. by rewrite IH, collect_app. }
  rewrite Hg, !collect_app, collect_uniq, app_nil_l.
  change (fun s => negb (existsb (String.eqb s) [])) with (fun _ : string => true).
  rewrite filter_all by done. f_equal. f_equal.
  apply (f_equal2 app); [apply Hl; intros w; by destruct (String.eqb _ _)|]. apply (f_equal2 app); [done|].
  apply (f_equal2 app); apply Hl; intros w; by rewrite ?andb_true_r.
Qed.

(** The list delivered to an agent is the match rule used everywhere else: it holds
    the text of an entry exactly when the entry applies to that agent (global, its tenant's,
    its groups', its own; an entry another tenant planted on it never applies), each text
    once, the agent's own entries first, then its groups from the closest, its tenant's and
    the global ones, each by creation time. *)
Theorem delivered_whitelist_exact entries deviceId groupIds tenantId :
  let delivered := resolveWhitelistForAgent entries deviceId groupIds tenantId in
  (forall s, In s delivered <->
     exists w, In w entries /\ text_of w = s
       /\ whereWhitelistApplies {| wc_tenantId := Some tenantId; wc_groupIds := groupIds; wc_deviceId := Some deviceId |} w = true)
  /\ NoDup delivered
  /\ delivered = uniq (map text_of (layers entries deviceId groupIds tenantId)).
Proof.
  cbv zeta. rewrite resolve_layers. split_and!; [|apply uniq_nodup|done]. intros s.
  rewrite uniq_in, in_map_iff. unfold layers.
  assert (H : forall w, In w (layer entries "agent" (Some deviceId) (Some tenantId)
      ++ flat_map (fun g => layer entries "group" (Some g) (Some tenantId)) groupIds
      ++ layer entries "tenant" None (Some tenantId) ++ layer entries "global" None None)
    <-> In w entries /\ whereWhitelistApplies {| wc_tenantId := Some tenantId; wc_groupIds := groupIds; wc_deviceId := Some deviceId |} w = true).
  { intros w. rewrite !in_app_iff, in_flat_map. setoid_rewrite layer_In. unfold whereWhitelistApplies.
    cbn [wc_tenantId wc_groupIds wc_deviceId]. unfold opt_eq. rewrite !orb_true_iff, !andb_true_iff, !bool_decide_eq_true, !String.eqb_eq.
    assert (Hin : opt_in (wl_scope_id w) groupIds = true <-> exists g, In g groupIds /\ wl_scope_id w = Some g).
    { unfold opt_in. destruct (wl_scope_id w) as [g|]; [rewrite mem_In|]; naive_solver. }
    rewrite Hin. naive_solver. }
  setoid_rewrite H. naive_solver.
Qed.

(** ** Tenants do not touch each other's whitelist *)

Inductive WhitelistRequest :=
| W_create (data : js) (userId : Z)
| W_delete (id : Z) (visible : TeamScope)
| W_bulk (ids : list Z) (visible : TeamScope).

(** One request of a tenant. *)
Definition serve (en : Env) (tenantId : Z) (w : World PG) (r : WhitelistRequest) : World PG :=
  match r with
  | W_create data userId => snd (create en data userId tenantId w)
  | W_delete id visible => snd (delete_entry en id tenantId visible w)
  | W_bulk ids visible => snd (bulkDelete en ids tenantId visible w)
  end.

(** A match context of tenant [u]: its device and groups are its own. *)
Definition own_context (d : Directory) (u : Z) (ctx : WhitelistMatchContext) : Prop :=
  wc_tenantId ctx = Some u
  /\ (forall g, In g (wc_groupIds ctx) -> resolveScopeTenant d "group" (Some g) = Some u)
  /\ (forall i, wc_deviceId ctx = Some i -> resolveScopeTenant d "agent" (Some i) = Some u).

Definition applying (ctx : WhitelistMatchContext) (w : World PG) : list (WhitelistRow PG) :=
  List.filter (whereWhitelistApplies ctx) (w_whitelist w).

(** What a request of [t] leaves alone. *)
Definition request_frame (t : Z) (w w' : World PG) : Prop :=
  whitelist_keys w' /\ w_directory w' = w_directory w
  /\ forall u ctx, isMasterTenant (Some t) = false -> u <> t -> own_context (w_directory w) u ctx -> applying ctx w' = applying ctx w.

Lemma frame_refl t w : whitelist_keys w -> request_frame t w w.
Proof. done. Qed.

Lemma not_own_applies d t u ctx r :
  isMasterTenant (Some t) = false -> u <> t -> own_context d u ctx ->
  whitelistDeleteVerdict (wl_scope r) (wl_tenant_id r) (target_of d (wl_scope r) (wl_scope_id r)) t = D_ok ->
  whereWhitelistApplies ctx r = false.
Proof.
  intros Ht Hu (Hc & Hg & Hd) Hv. unfold whitelistDeleteVerdict in Hv. unfold whereWhitelistApplies. rewrite Hc.
  destruct (String.eqb_spec (wl_scope r) "global") as [|Hglob]; [by rewrite Ht in Hv|]. cbn [orb].
  assert (Hcase : default MASTER_TENANT_ID (wl_tenant_id r) = t \/ target_of d (wl_scope r) (wl_scope_id r) = Some t).
  { destruct ((t =? _) || _) eqn:E; [|by rewrite Ht in Hv]. apply orb_true_iff in E as [E|E]; [left; boolify; congruence|right; by boolify]. }
  unfold opt_eq. destruct (decide (wl_tenant_id r = Some u)) as [Eu|Eu];
    [|destruct (wc_deviceId ctx); by rewrite bool_decide_false, !andb_false_r by done].
  rewrite Eu in Hcase. cbn [default] in Hcase. destruct Hcase as [E|Htgt]; [done|].
  unfold target_of, is_target_scope in Htgt. rewrite bool_decide_true by done. rewrite !andb_true_r.
  destruct (String.eqb_spec (wl_scope r) "tenant") as [Es|Es]; [by rewrite Es in Htgt|]. cbn [orb].
  destruct (String.eqb_spec (wl_scope r) "group") as [Es'|Es']; cbn [orb andb] in *.
  - rewrite Es' in *. destruct (opt_in (wl_scope_id r) (wc_groupIds ctx)) eqn:Eg.
    + unfold opt_in in Eg. destruct (wl_scope_id r) as [g|]; [|done]. apply mem_In, Hg in Eg. congruence.
    + cbn [orb]. destruct (wc_deviceId ctx); [|done]. by change (String.eqb "group" "agent") with false.
  - destruct (wc_deviceId ctx) as [i|] eqn:Ei; [|done].
    destruct (String.eqb_spec (wl_scope r) "agent") as [Ea|Ea]; [|done]. cbn [andb] in *. rewrite Ea in *.
    destruct (decide (wl_scope_id r = Some i)) as [Ew|Ew]; [|by rewrite bool_decide_false].
    rewrite Ew in Htgt. rewrite (Hd i eq_refl) in Htgt. congruence.
Qed.

(** Removing rows the tenant may delete. *)
Lemma frame_remove t vis (p : WhitelistRow PG -> bool) w w' :
  whitelist_keys w -> (forall r, In r (w_whitelist w) -> p r = false -> deletable (w_directory w) t vis r = true) ->
  w_whitelist w' = List.filter p (w_whitelist w) -> w_directory w' = w_directory w ->
  w_next_whitelist w' = w_next_whitelist w -> request_frame t w w'.
Proof.
  intros [Hk Hd Hg Hf] Hp Hw Hdir Hn. split; [|split; [done|]].
  - split; rewrite ?Hw, ?Hdir, ?Hn; [by apply NoDup_map_filter|done|done|].
    rewrite Forall_forall in *. intros r Hr. apply Hf. rewrite list_elem_of_In in *. by apply filter_In in Hr as [Hr _].
  - intros u ctx Ht Hu Hc. unfold applying. rewrite Hw. apply filter_filter_implied. intros r Hr Ha.
    destruct (p r) eqn:E; [done|]. apply (Hp r Hr) in E. unfold deletable in E. boolify.
    rewrite (not_own_applies (w_directory w) t u ctx r) in Ha; [done..|]. by destruct (whitelistDeleteVerdict _ _ _ _).
Qed.

Lemma frame_create en data user t w : whitelist_keys w -> request_frame t w (snd (create en data user t w)).
Proof.
  intros Hk. unfold create, bind, get, throw_when, of_sum, of_option, throw, ret.
  destruct (get_field "ip" data) as [| | | |ip| |]; try exact (frame_refl t w Hk).
  destruct (negb (isInetLiteral ip)); [exact (frame_refl t w Hk)|].
  destruct (create_scope (w_directory w) data t) as [e|s] eqn:Es; [exact (frame_refl t w Hk)|].
  destruct (cidr_in (trim ip)) as [x|]; [|exact (frame_refl t w Hk)].
  unfold insert_whitelist. set (row := {| wl_id := w_next_whitelist w |}).
  pose proof Hk as [Hk1 Hk2 Hk3 Hk4].
  assert (Hgrow : Forall (fun r => wl_id r < w_next_whitelist w + 1) (w_whitelist w))
    by (eapply Forall_impl; [exact Hk4|]; intros r Hr; cbv beta in *; lia).
  destruct (existsb _ (w_whitelist w)) eqn:Ex; cbn [snd].
  - split; [split; done|]. split; [done|]. done.
  - cbn [with_effects with_whitelist emit modify snd]. split; [|split; [done|]].
    + split; cbn [w_whitelist w_directory w_next_whitelist with_effects with_whitelist]; [|done|done|].
      * rewrite map_app. apply NoDup_app. split; [done|]. split.
        { intros i Hi Hi'. cbn in Hi'. apply list_elem_of_singleton in Hi' as ->. apply list_elem_of_In, in_map_iff in Hi as (r & E & Hr).
          rewrite Forall_forall in Hk4. specialize (Hk4 r ltac:(by apply list_elem_of_In)). lia. }
        apply NoDup_singleton.
      * apply Forall_app. split; [done|]. repeat constructor. cbn. lia.
    + intros u ctx Ht Hu (Hc & Hg & Hd). unfold applying. cbn [w_whitelist with_effects with_whitelist].
      rewrite List.filter_app. cbn [List.filter].
      assert (Hne : String.eqb (fst s) "global" = false).
      { unfold create_scope in Es. rewrite Ht in Es. repeat case_in Es; simplify_eq; cbn [fst]; try done.
        all: match goal with H : _ || _ = true |- _ => apply orb_true_iff in H as [H|H]; apply String.eqb_eq in H; by subst end. }
      assert (Hrow : whereWhitelistApplies ctx row = false).
      { unfold whereWhitelistApplies. rewrite Hc. cbn [row wl_scope wl_tenant_id wl_scope_id]. rewrite Hne. cbn [orb].
        unfold opt_eq. destruct (wc_deviceId ctx); by rewrite bool_decide_false, !andb_false_r by congruence. }
      by rewrite Hrow, app_nil_r.
Qed.

Lemma frame_serve en t w r : whitelist_keys w -> request_frame t w (serve en t w r).
Proof.
  intros Hk. destruct r as [data user|id vis|ids vis]; cbn [serve].
  - by apply frame_create.
  - destruct (List.find (fun r => wl_id r =? id) (w_whitelist w)) as [row|] eqn:F.
    + apply find_some in F as [Hin E]. apply Z.eqb_eq in E. subst id. rewrite delete_entry_spec by done.
      destruct (refusal _ _ _ _) eqn:R; [by apply frame_refl|]. apply refusal_deletable in R.
      apply (frame_remove t vis (fun r => negb (wl_id r =? wl_id row))); try done.
      intros r Hr E. boolify. destruct Hk as [Hk _ _ _]. assert (Some r = Some row) as [= ->]; [|done].
      rewrite <- (find_unique wl_id _ _ Hk Hin), <- E. symmetry. by apply find_unique.
    + unfold delete_entry, bind, get, of_option. rewrite F. by apply frame_refl.
  - destruct (bulk_delete_spec en w ids t vis Hk) as (r & w' & E & Hw & _ & _ & _ & Hdir & Hn). rewrite E. cbn [snd].
    eapply (frame_remove t vis); [done| |exact Hw|done|done]. intros x Hx Hp. cbv beta in Hp. by boolify.
Qed.

Lemma frame_trans t w1 w2 w3 : request_frame t w1 w2 -> request_frame t w2 w3 -> request_frame t w1 w3.
Proof.
  intros (_ & Hd & H) (Hk' & Hd' & H'). split; [done|]. split; [congruence|]. intros u ctx Ht Hu Hc.
  rewrite (H' u ctx Ht Hu) by (by rewrite Hd). by apply (H u ctx).
Qed.

(** The whitelist of a tenant is its own: whatever sequence of create, delete and bulk
    delete requests another tenant than Default sends, the entries that apply to the agents
    and groups of tenant [u] stay exactly what they were (so no global entry is minted or
    removed either), and the tables keep their keys. *)
Theorem whitelist_isolated en t w requests
    (Hk : whitelist_keys w) (Ht : isMasterTenant (Some t) = false) :
  let w' := fold_left (serve en t) requests w in
  whitelist_keys w' /\ w_directory w' = w_directory w
  /\ List.filter (fun r => String.eqb (wl_scope r) "global") (w_whitelist w')
     = List.filter (fun r => String.eqb (wl_scope r) "global") (w_whitelist w)
  /\ forall u ctx, u <> t -> own_context (w_directory w) u ctx -> applying ctx w' = applying ctx w.
Proof.
  cbv zeta. assert (H : request_frame t w (fold_left (serve en t) requests w)).
  { revert w Hk. induction requests as [|r l IH]; intros w Hk; [by apply frame_refl|]. cbn [fold_left].
    pose proof (frame_serve en t w r Hk) as Hf. eapply frame_trans; [exact Hf|]. apply IH, Hf. }
  destruct H as (H1 & H2 & H3). split_and!; [done|done| |by eauto].
  set (none := {| wc_tenantId := Some (t + 1); wc_groupIds := []; wc_deviceId := None |}).
  assert (Ho : own_context (w_directory w) (t + 1) none) by (split_and!; done).
  specialize (H3 (t + 1) none Ht ltac:(lia) Ho). unfold applying in H3.
  assert (E : forall l : list (WhitelistRow PG), List.filter (fun r => String.eqb (wl_scope r) "global") l
      = List.filter (fun r => String.eqb (wl_scope r) "global") (List.filter (whereWhitelistApplies none) l)).
  { intros l. symmetry. apply filter_filter_implied. intros x _ Hx. unfold whereWhitelistApplies. by rewrite Hx. }
  by rewrite (E (w_whitelist w)), E, H3.
Qed.

End Whitelist.

(** ** A sample world *)

Definition sample_inet (a : Z) (n : Z) : TextInet := {| ti_family := V4; ti_value := a; ti_mask := n |}.

Definition sample_protected : PState := {| cache := None; hostCache := ∅; infra := None |}.
Definition sample_entry (id : Z) (ip : TextInet) (scope : string) (sid tenant : option Z) : WhitelistRow TextPg :=
  {| wl_id := id; wl_ip := ip; wl_label := None; wl_scope := scope; wl_scope_id := sid; wl_tenant_id := tenant;
     wl_created_by := None; wl_created_at := id |}.
Definition sample_world : World TextPg :=
  {| w_bans := []; w_next_ban := 1; w_exclusions := [];
     w_whitelist := [ sample_entry 1 (sample_inet 134744072 32) "global" None None;
                      sample_entry 2 (sample_inet 167772160 8) "tenant" None (Some 3);
                      sample_entry 3 (sample_inet 3405803776 24) "agent" (Some 6) (Some 3) ];
     w_next_whitelist := 4; w_blocked := []; w_directory := sample_dir;
     w_caches := {| accessCache := ∅; existsCache := ∅ |}; w_protected := sample_protected; w_effects := [] |}.
Definition sample_env : Env :=
  {| en_inputs := demo_inputs; en_io := true; en_tenants := sample_db; en_date := fun _ => None |}.

Lemma sample_world_keys : whitelist_keys sample_world.
Proof. split; apply (bool_decide_unpack _); vm_compute; exact I. Qed.

(** Tenant 4 owns device 6: it may remove the entry tenant 3 planted on it. *)
Lemma can_delete_exact_witness :
  exists w', delete_entry sample_env 3 4 Ids_all sample_world = (inr tt, w')
    /\ w_whitelist w' = List.filter (fun r => negb (wl_id r =? 3)) (w_whitelist sample_world).
Proof.
  exact (proj2 (can_delete_exact sample_env sample_world (w_whitelist sample_world)
    (sample_entry 3 (sample_inet 3405803776 24) "agent" (Some 6) (Some 3)) 4 Ids_all sample_world_keys
    (fun _ H => H) (or_intror (or_intror (or_introl eq_refl))))).
Defined.

Lemma bulk_delete_exact_witness :
  exists r w', bulkDelete sample_env [1; 3; 9; 3] 4 Ids_all sample_world = (inr r, w')
    /\ wr_deleted r + wr_forbidden r + wr_notFound r = 3.
Proof.
  destruct (bulk_delete_exact sample_env sample_world [1; 3; 9; 3] 4 Ids_all sample_world_keys) as (r & w' & H & _ & _ & E & _).
  exists r, w'. split; [exact H|exact E].
Defined.

Definition sample_context : WhitelistMatchContext := {| wc_tenantId := Some 3; wc_groupIds := [21; 20]; wc_deviceId := Some 5 |}.
Lemma whitelist_isolated_witness :
  applying sample_context (fold_left (serve sample_env 4) [W_bulk [1; 2; 3] Ids_all; W_delete 2 Ids_all] sample_world)
  = applying sample_context sample_world.
Proof.
  destruct (whitelist_isolated sample_env 4 sample_world [W_bulk [1; 2; 3] Ids_all; W_delete 2 Ids_all] sample_world_keys eq_refl)
    as (_ & _ & _ & H).
  apply (H 3); [lia|]. split_and!; [reflexivity| |].
  - intros g [<-|[<-|[]]]; vm_compute; reflexivity.
  - intros i [= <-]. vm_compute. reflexivity.
Defined.
