(* ===== verification/BanRules.v ===== *)
(** * Ban rows: targets, audiences, states and the lift rule

    The parts of [server/src/services/ban.service.ts] that read rows: what a row is
    delivered as, who hears of it and what each receiver may see, the three list states,
    the single Lift rule, the list of the Bans tab and the delta sent to an agent. *)

From S2P Require Import Prelude JsString JsValue JsNumber JsJson IpValidation ProtectedIps Tenancy Access SocketRooms PgInet Store Whitelist.

(** ** Constants *)

Definition BAN_SCOPES : list string := ["global"; "tenant"; "group"; "agent"].
Definition AGENT_CAPABILITY_CIDR : string := "cidr".
Definition LIFT_EVENT_MAX_ROWS : nat := 500.
Definition LIFT_MIKROTIK_MAX_ROWS : nat := 50.
Definition DEACTIVATE_CHUNK : nat := 5000.
Definition REMOTE_INSERT_CHUNK : nat := 1000.
Definition AUTO_INSERT_CHUNK : nat := 1000.
Definition BULK_LIFT_DETAIL_MAX : nat := 50.

(** [BanLiftReason] *)
Inductive BanLiftReason := L_lift | L_wipe | L_expiry | L_external_withdraw | L_remote_sync.
#[export] Instance BanLiftReason_eq_dec : EqDecision BanLiftReason.
Proof. solve_decision. Defined.
Definition reason_text (r : BanLiftReason) : string :=
  match r with
  | L_lift => "lift" | L_wipe => "wipe" | L_expiry => "expiry"
  | L_external_withdraw => "external_withdraw" | L_remote_sync => "remote_sync"
  end.

Definition BAN_CREATED : string := "ban:created".
Definition BAN_UPDATED : string := "ban:updated".
Definition BAN_LIFTED : string := "ban:lifted".
Definition BAN_BULK_LIFTED : string := "ban:bulkLifted".
Definition BAN_EXCLUDED : string := "ban:excluded".
Definition BAN_EXCLUSION_REMOVED : string := "ban:exclusionRemoved".

Definition of_tenant (t : option Z) : js := match t with Some n => JNum (NInt n) | None => JNull end.

(** [hasCapability]: the stored list is a JSON array or its text. *)
Definition hasCapability (raw : js) (cap : string) : bool :=
  let includes v := match v with JArr l => existsb (fun x => match x with JStr s => String.eqb s cap | _ => false end) l | _ => false end in
  match raw with
  | JStr s => match JSON_parse s with Some v => includes v | None => false end
  | v => includes v
  end.

(** [/^blocklist:([1-9][0-9]{0,9})$/] *)
Definition blocklistIdOfOriginRef (ref : option string) : option Z :=
  let s := default "" ref in
  if starts_with "blocklist:" s then
    let digits := substring 10 (String.length s - 10) s in
    if tenant_id_re digits then Some (digits_value 10 digits) else None
  else None.

Section Rules.
Context {PG : PgInet}.

(** ** Targets *)

(** [whereSameTarget]: the rows of exactly this network, as network address and prefix or
    as a masked inet. *)
Definition whereSameTarget (b : BanRow PG) (t : ParsedCidr) : bool :=
  (bool_decide (inet_in (address t) = Some (b_ip b))
   || bool_decide (inet_in (address t +:+ "/" +:+ dec (prefix t)) = Some (b_ip b)))
  && (prefixSql b =? prefix t).

Definition rowTarget (b : BanRow PG) : option ParsedCidr :=
  parse_text (banTargetRawFromRow (inet_out (b_ip b)) (b_cidr_prefix b)).

Definition deliveredBanTarget (b : BanRow PG) (cidr : bool) : string :=
  match rowTarget b with
  | None => inet_out (b_ip b)
  | Some p => if cidr then cidr_text p else address p
  end.

(** ** What each receiver sees *)

Definition vis (b : BanRow PG) : BanVis :=
  {| bv_scope := b_scope b; bv_tenant := b_tenant_id b; bv_origin := b_origin_tenant_id b |}.

Definition visibleOriginRef (b : BanRow PG) (godView : bool) (caller : option Z) : option string :=
  match b_origin_ref b with
  | None => None
  | Some ref =>
      if godView || negb (starts_with "mikrotik:" ref) then Some ref
      else match caller with
           | Some c => if opt_eq (b_origin_tenant_id b) c then Some ref else Some "mikrotik"
           | None => Some "mikrotik"
           end
  end.

Definition rowToBan (b : BanRow PG) (godView : bool) (caller : option Z) : IpBan :=
  {| ib_id := b_id b; ib_ip := inet_out (b_ip b); ib_cidrPrefix := b_cidr_prefix b; ib_reason := b_reason b;
     ib_banType := b_ban_type b; ib_scope := b_scope b; ib_scopeId := b_scope_id b; ib_tenantId := b_tenant_id b;
     ib_originTenantId := if godView then b_origin_tenant_id b else None;
     ib_isOriginTenant := match caller with Some c => opt_eq (b_origin_tenant_id b) c | None => false end;
     ib_bannedByUserId := if canSeeBanAuthor (vis b) caller then b_banned_by_user_id b else None;
     ib_bannedAt := b_banned_at b; ib_expiresAt := b_expires_at b; ib_isActive := b_is_active b;
     ib_originApp := b_origin_app b; ib_originRef := visibleOriginRef b godView caller |}.

Definition emitBanRow (io : bool) (event : string) (b : BanRow PG) : list Effect :=
  if negb io then []
  else if String.eqb (b_scope b) "global" then
    let perTenant : gmap Z Payload := {[ MASTER_TENANT_ID := P_ban (rowToBan b true (Some MASTER_TENANT_ID)) ]} in
    let perTenant := match b_origin_tenant_id b with
                     | Some origin => if isMasterTenant (Some origin) then perTenant
                                      else <[origin := P_ban (rowToBan b false (Some origin))]> perTenant
                     | None => perTenant
                     end in
    map Emit (emitGlobal io event (P_ban (rowToBan b false None)) perTenant)
  else
    map Emit (emitToTenantAudience io (of_tenant (b_tenant_id b)) event (P_ban (rowToBan b false (b_tenant_id b)))
                (Some (P_ban (rowToBan b true (Some MASTER_TENANT_ID))))).

Definition emitBanEvent (io : bool) (event : string) (b : BanRow PG) (payload : Payload) : list Effect :=
  map Emit (if String.eqb (b_scope b) "global" then emitGlobal io event payload ∅
            else emitToTenantAudience io (of_tenant (b_tenant_id b)) event payload None).

(** [None]: every router. *)
Definition mikrotikAudienceOf (b : BanRow PG) : option (option Z) :=
  if String.eqb (b_scope b) "global" then None else Some (b_tenant_id b).

Definition whitelistContextOf (scope : string) (scopeId tenantId : option Z) : WhitelistMatchContext :=
  match tenantId with
  | None => {| wc_tenantId := None; wc_groupIds := []; wc_deviceId := None |}
  | Some t =>
      if String.eqb scope "global" then {| wc_tenantId := None; wc_groupIds := []; wc_deviceId := None |}
      else if String.eqb scope "group" then
        {| wc_tenantId := Some t; wc_groupIds := match scopeId with Some g => [g] | None => [] end; wc_deviceId := None |}
      else if String.eqb scope "agent" then {| wc_tenantId := Some t; wc_groupIds := []; wc_deviceId := scopeId |}
      else {| wc_tenantId := Some t; wc_groupIds := []; wc_deviceId := None |}
  end.

(** ** Lifecycle states *)

Inductive BanListState := S_active | S_expired | S_lifted.
#[export] Instance BanListState_eq_dec : EqDecision BanListState.
Proof. solve_decision. Defined.

(** [expires_at IS NOT NULL AND expires_at <= now()] *)
Definition past_expiry (now : Z) (b : BanRow PG) : bool :=
  match b_expires_at b with Some e => e <=? now | None => false end.

Definition BAN_EXPIRED_SQL (now : Z) (b : BanRow PG) : bool :=
  match b_expires_at b with
  | None => false
  | Some e => (e <=? now) && (b_is_active b || match b_lifted_at b with None => true | Some l => e <=? l end)
  end.

Definition BAN_STATE_SQL (now : Z) (st : BanListState) (b : BanRow PG) : bool :=
  match st with
  | S_active => b_is_active b && match b_expires_at b with None => true | Some e => now <? e end
  | S_expired => BAN_EXPIRED_SQL now b
  | S_lifted => negb (b_is_active b) && negb (BAN_EXPIRED_SQL now b)
  end.

(** The [CASE ... AS state] of the list. *)
Definition row_state (now : Z) (b : BanRow PG) : BanListState :=
  if BAN_STATE_SQL now S_active b then S_active else if BAN_STATE_SQL now S_expired b then S_expired else S_lifted.

(** ** The Lift rule *)

Inductive BanLiftAction := Act_deactivate | Act_exclude.
Inductive LiftPlan := Plan (a : BanLiftAction) | Plan_refuse (e : CodedError).

Definition BAN_INACTIVE : CodedError := codedError 409 "BAN_INACTIVE" "Ban is no longer active".
Definition BAN_NOT_FOUND : CodedError := codedError 404 "BAN_NOT_FOUND" "Ban not found".

Definition planLift (b : BanRow PG) (tenantId : Z) : LiftPlan :=
  let active a := if b_is_active b then Plan a else Plan_refuse BAN_INACTIVE in
  if isMasterTenant (Some tenantId) then active Act_deactivate
  else if negb (canSeeBan (vis b) (Some tenantId)) then Plan_refuse BAN_NOT_FOUND
  else if String.eqb (b_scope b) "global" then active Act_exclude
  else if negb (opt_eq (b_tenant_id b) tenantId)
  then Plan_refuse (codedError 403 "BAN_FOREIGN_TENANT" "This ban belongs to another tenant")
  else active Act_deactivate.

Definition banTargetError (c : BanTargetErrorCode) (message prefix : string) : CodedError :=
  let message := prefix +:+ message in
  match c with
  | Too_broad => codedError 400 "BAN_TARGET_TOO_WIDE" message
  | Cidr_not_allowed => codedError 400 "BAN_TARGET_CIDR_NOT_ALLOWED" message
  | Reserved | Protected => codedError 400 "BAN_TARGET_RESERVED" message
  | Invalid => codedError 400 "BAN_TARGET_INVALID" message
  end.

(** [teamWritableBanIds], as a test on a row among [ids]. *)
Definition teamWritableBanIds (d : Directory) (rows : list (BanRow PG)) (ids : list Z) (allowed : TeamScope) : list Z :=
  match allowed with
  | Ids_all => ids
  | Ids_list l =>
      match ids with
      | [] => []
      | _ => map b_id (List.filter (fun b => mem (b_id b) ids && whereTeamScopeAllows d (b_scope b) (b_scope_id b) l) rows)
      end
  end.

(** ** The Bans tab *)

Record BanListOptions := {
  bl_tenantId : Z; bl_state : option BanListState; bl_scope : option string; bl_banType : option string;
  bl_tenantIds : list Z; bl_visibleAgentIds : TeamScope; bl_writableAgentIds : TeamScope
}.

(** The WHERE clause of [list]; [search] is the condition of the search text. *)
Definition ban_list_where (now : Z) (d : Directory) (search : BanRow PG -> bool) (o : BanListOptions) (b : BanRow PG) : bool :=
  let godView := seesAllBans (Some (bl_tenantId o)) in
  applyBanVisibility (Some (bl_tenantId o)) (vis b)
  && match bl_state o with Some st => BAN_STATE_SQL now st b | None => true end
  && match bl_scope o with Some s => String.eqb (b_scope b) s | None => true end
  && match bl_banType o with Some s => String.eqb (b_ban_type b) s | None => true end
  && search b
  && (if godView && negb (bool_decide (bl_tenantIds o = []))
      then opt_in (b_tenant_id b) (bl_tenantIds o)
           || (bool_decide (b_tenant_id b = None) && opt_in (b_origin_tenant_id b) (bl_tenantIds o))
      else true)
  && team_allows d (b_scope b) (b_scope_id b) (bl_visibleAgentIds o).

(** [IpBanListItem], without the joined names. *)
Record IpBanListItem := {
  li_ban : IpBan; li_isExcludedByTenant : bool; li_state : BanListState; li_liftedAt : option Z;
  li_liftAction : option BanLiftAction
}.

Definition list_item (now : Z) (w : World PG) (page : list (BanRow PG)) (o : BanListOptions) (b : BanRow PG) : IpBanListItem :=
  let t := bl_tenantId o in
  let writable := teamWritableBanIds (w_directory w) (w_bans w) (map b_id page) (bl_writableAgentIds o) in
  let plan := if mem (b_id b) writable then planLift b t else Plan_refuse BAN_NOT_FOUND in
  {| li_ban := rowToBan b (seesAllBans (Some t)) (Some t);
     li_isExcludedByTenant := excluded (w_exclusions w) (b_id b) t;
     li_state := row_state now b; li_liftedAt := b_lifted_at b;
     li_liftAction := match row_state now b, plan with S_active, Plan a => Some a | _, _ => None end |}.

(** [getById]: the row when the caller may see it, with the author it may see. *)
Definition getById (w : World PG) (id tenantId : Z) : option (BanRow PG * option Z) :=
  match List.find (fun b => b_id b =? id) (w_bans w) with
  | Some b => if canSeeBan (vis b) (Some tenantId)
              then Some (b, match b_banned_by_user_id b with
                            | Some u => if negb (u =? 0) && canSeeBanAuthor (vis b) (Some tenantId) then Some u else None
                            | None => None
                            end)
              else None
  | None => None
  end.

(** [stats]: active bans, bans of the day ([CURRENT_DATE] is [today]). *)
Definition ban_stats (now today : Z) (w : World PG) (tenantId : Z) : Z * Z :=
  let count p := Z.of_nat (length (List.filter (fun b => p b && applyBanVisibility (Some tenantId) (vis b)) (w_bans w))) in
  (count (fun b => b_is_active b && match b_expires_at b with None => true | Some e => now <? e end),
   count (fun b => today <=? b_banned_at b)).

(** ** The delta of an agent or a router *)

(** The rows that apply to a device: in force, in scope, not excluded by the tenant, not
    inside an applicable whitelist entry. *)
Definition ban_applies (now : Z) (w : World PG) (deviceId : Z) (groupIds : list Z) (tenantId : Z) (b : BanRow PG) : bool :=
  b_is_active b
  && match b_expires_at b with None => true | Some e => now <? e end
  && (String.eqb (b_scope b) "global"
      || (String.eqb (b_scope b) "tenant" && opt_eq (b_tenant_id b) tenantId)
      || (String.eqb (b_scope b) "group" && opt_in (b_scope_id b) groupIds && opt_eq (b_tenant_id b) tenantId)
      || (String.eqb (b_scope b) "agent" && opt_eq (b_scope_id b) deviceId && opt_eq (b_tenant_id b) tenantId))
  && negb (excluded (w_exclusions w) (b_id b) tenantId)
  && negb (existsb (fun wl => inet_sup (wl_ip wl) (networkSql b)
        && whereWhitelistApplies {| wc_tenantId := Some tenantId; wc_groupIds := groupIds; wc_deviceId := Some deviceId |} wl)
        (w_whitelist w)).

(** The loop over the rows: delivered texts of the safe ones. *)
Definition wanted_texts (cidr : bool) (unsafe : list Z) (bans : list (BanRow PG)) : list string :=
  uniq (omap (fun b => if mem (b_id b) unsafe then None
                       else option_map (fun p => if cidr then cidr_text p else address p) (rowTarget b)) bans).

(** [const key = p ? targetText(p) : raw] *)
Definition current_key (raw : string) : string :=
  match parse_text raw with Some p => cidr_text p | None => raw end.

Definition ban_delta (wanted : list string) (agentCurrentBans : list js) : list string * list string :=
  let raws := omap (fun v => match v with JStr s => Some s | _ => None end) agentCurrentBans in
  let currentKeys := map current_key raws in
  let remove := uniq (List.filter (fun raw => negb (existsb (String.eqb (current_key raw)) wanted)) raws) in
  let add := List.filter (fun text => negb (existsb (String.eqb text) currentKeys)) wanted in
  (add, remove).

(** [capabilities] is the device's stored list, [unsafe] the registry of the safety audit. *)
Definition computeBanDelta (now : Z) (w : World PG) (unsafe : list Z) (capabilities : js) (deviceId : Z) (groupIds : list Z)
    (tenantId : Z) (agentCurrentBans : list js) (cidr : option bool) : list string * list string :=
  let cidr := match cidr with Some c => c | None => hasCapability capabilities AGENT_CAPABILITY_CIDR end in
  let bans := List.filter (ban_applies now w deviceId groupIds tenantId) (w_bans w) in
  ban_delta (wanted_texts cidr unsafe bans) agentCurrentBans.

(** ** Realtime events *)

Definition emitted (es : list Effect) : list (Emission Payload) :=
  omap (fun e => match e with Emit m => Some m | _ => None end) es.

Lemma emitted_map ms : emitted (map Emit ms) = ms.
Proof. unfold emitted. induction ms as [|m ms IH]; [done|]. cbn [map omap list_omap]. by rewrite IH. Qed.

Lemma validTenant_num t : 0 < t <= max_safe_integer -> validTenant (JNum (NInt t)) = Some t.
Proof. intros H. unfold validTenant, positive_safe. by rewrite (proj2 (Z.ltb_lt 0 t)), (proj2 (Z.leb_le t _)) by lia. Qed.

Lemma validTenant_of_tenant o t : validTenant (of_tenant o) = Some t -> o = Some t.
Proof. destruct o as [n|]; [|done]. cbn. case_match; [|done]. by intros [= ->]. Qed.

(** A global row without owner looks the same to every tenant that is neither Default nor
    its origin. *)
Lemma rowToBan_public b t :
  b_tenant_id b = None -> b_origin_tenant_id b <> Some t -> isMasterTenant (Some t) = false ->
  rowToBan b false (Some t) = rowToBan b false None.
Proof.
  intros Hn Ho Hm.
  assert (Ha : canSeeBanAuthor (vis b) (Some t) = canSeeBanAuthor (vis b) None).
  { unfold canSeeBanAuthor, vis. cbn [bv_tenant bv_origin]. rewrite Hn. unfold seesAllBans. rewrite Hm. cbn [orb isMasterTenant].
    destruct (b_origin_tenant_id b) as [o|]; [|done]. by rewrite !bool_decide_false by congruence. }
  unfold rowToBan, visibleOriginRef, opt_eq. rewrite Ha, bool_decide_false by done. done.
Qed.

(** Realtime and list agree: whatever row is announced, a connected socket receives it
    once and exactly as the Bans tab would show it to its tenant when that tenant may see
    the row, nothing otherwise; the origin tenant and the author of a ban never reach a
    tenant the list hides them from. *)
Theorem ban_event_matches_list s event b
    (Hs : forall t, sk_tenant s = Some t -> 0 < t <= max_safe_integer)
    (Hrow : b_scope b = "global" -> b_tenant_id b = None) :
  received s (emitted (emitBanRow true event b))
  = match audience s with
    | Some t => if canSeeBan (vis b) (Some t) then [P_ban (rowToBan b (seesAllBans (Some t)) (Some t))] else []
    | None => if String.eqb (b_scope b) "global" && negb (sk_2fa_pending s) then [P_ban (rowToBan b false None)] else []
    end.
Proof.
  unfold emitBanRow. cbn [negb]. destruct (String.eqb_spec (b_scope b) "global") as [Eg|Eg]; rewrite emitted_map.
  - specialize (Hrow Eg). rewrite received_global by done. unfold audience.
    destruct (sk_2fa_pending s); [done|]. destruct (sk_tenant s) as [t|]; [|done]. specialize (Hs t eq_refl).
    assert (Hc : canSeeBan (vis b) (Some t) = true) by (unfold canSeeBan, vis; cbn [bv_scope]; by rewrite Eg, orb_true_r).
    rewrite Hc. f_equal. destruct (decide (t = MASTER_TENANT_ID)) as [->|Hm].
    + destruct (b_origin_tenant_id b) as [o|] eqn:Eo; [destruct (isMasterTenant (Some o)) eqn:Em|]; try (by rewrite lookup_singleton_eq).
      rewrite lookup_insert_ne, lookup_singleton_eq; [done|]. intros ->. done.
    + assert (Hnm : isMasterTenant (Some t) = false) by (by apply Z.eqb_neq). unfold seesAllBans. rewrite Hnm.
      destruct (b_origin_tenant_id b) as [o|] eqn:Eo.
      * destruct (isMasterTenant (Some o)) eqn:Em.
        -- rewrite lookup_singleton_ne by congruence. cbn [default]. rewrite rowToBan_public; [done..| |done].
           rewrite Eo. intros [= ->]. congruence.
        -- destruct (decide (o = t)) as [->|Hne]; [by rewrite lookup_insert_eq|].
           rewrite lookup_insert_ne, lookup_singleton_ne by congruence. cbn [default]. rewrite rowToBan_public; [done..| |done].
           rewrite Eo. congruence.
      * rewrite lookup_singleton_ne by congruence. cbn [default]. rewrite rowToBan_public; [done..| |done]. by rewrite Eo.
  - rewrite received_tenant_audience. unfold audience. destruct (sk_2fa_pending s); [done|].
    destruct (sk_tenant s) as [t|]; [|done]. specialize (Hs t eq_refl). unfold canSeeBan, vis, seesAllBans. cbn [bv_scope bv_tenant].
    rewrite (proj2 (String.eqb_neq _ _)) by done. unfold isMasterTenant. destruct (Z.eqb_spec t MASTER_TENANT_ID) as [->|Hm]; [done|].
    cbn [orb]. destruct (b_tenant_id b) as [o|] eqn:Eo; [|done].
    destruct (decide (Some t = Some o)) as [[= ->]|Hne].
    + cbn [of_tenant]. rewrite validTenant_num by done. by rewrite !bool_decide_true by done.
    + rewrite (bool_decide_false (Some t = Some o)) by done. rewrite bool_decide_false; [done|].
      intros Hv. apply validTenant_of_tenant in Hv. congruence.
Qed.

(** ** States *)

(** The three list states partition the rows: every row is in exactly the state its
    badge shows, the [active] state is being enforced, and filtering the list by a state
    keeps exactly the rows of the unfiltered list showing that state. *)
Theorem ban_states_partition now d search o b :
  (forall st, BAN_STATE_SQL now st b = true <-> row_state now b = st)
  /\ (row_state now b = S_active <-> b_is_active b = true /\ past_expiry now b = false)
  /\ forall st, ban_list_where now d search {| bl_tenantId := bl_tenantId o; bl_state := Some st; bl_scope := bl_scope o;
          bl_banType := bl_banType o; bl_tenantIds := bl_tenantIds o; bl_visibleAgentIds := bl_visibleAgentIds o;
          bl_writableAgentIds := bl_writableAgentIds o |} b
      = ban_list_where now d search {| bl_tenantId := bl_tenantId o; bl_state := None; bl_scope := bl_scope o;
          bl_banType := bl_banType o; bl_tenantIds := bl_tenantIds o; bl_visibleAgentIds := bl_visibleAgentIds o;
          bl_writableAgentIds := bl_writableAgentIds o |} b && bool_decide (row_state now b = st).
Proof.
  assert (H : forall st, BAN_STATE_SQL now st b = true <-> row_state now b = st).
  { unfold row_state, BAN_STATE_SQL, BAN_EXPIRED_SQL.
    destruct (b_is_active b), (b_expires_at b) as [e|]; cbn [andb orb negb]; try destruct (Z.ltb_spec now e);
      try (rewrite ?(proj2 (Z.leb_le e now)), ?(proj2 (Z.leb_gt e now)) by lia); cbn [andb orb negb];
      try destruct (b_lifted_at b) as [l|]; try destruct (e <=? l); cbn [andb orb negb]; intros []; split; done. }
  split; [exact H|]. split.
  - rewrite <- (H S_active). unfold BAN_STATE_SQL, past_expiry. destruct (b_is_active b), (b_expires_at b) as [e|]; cbn [andb];
      try (rewrite Z.ltb_lt, Z.leb_gt); naive_solver.
  - intros st. unfold ban_list_where. cbn [bl_tenantId bl_state bl_scope bl_banType bl_tenantIds bl_visibleAgentIds].
    assert (E : BAN_STATE_SQL now st b = bool_decide (row_state now b = st)).
    { apply eq_bool_prop_intro. rewrite bool_decide_spec, Is_true_true. apply H. }
    rewrite E. clear E H. rewrite andb_true_r. destruct (applyBanVisibility _ _); [|done]. cbn [andb].
    destruct (bool_decide _); [by rewrite andb_true_r|by rewrite andb_false_r].
Qed.

(** ** The delta *)

Definition has (l : list string) (s : string) : bool := existsb (String.eqb s) l.
Lemma has_In l s : has l s = true <-> In s l.
Proof.
  unfold has. rewrite existsb_exists. split; [|intros H; exists s; by rewrite String.eqb_refl].
  intros (x & Hx & E). apply String.eqb_eq in E. by subst.
Qed.

(** Delivered texts are their own comparison keys. *)
Lemma delivered_key (p : ParsedCidr) (cidr : bool) : wf_cidr p -> current_key (if cidr then cidr_text p else address p) = if cidr then cidr_text p else address p.
Proof.
  intros Hp. unfold current_key. destruct cidr; [by rewrite parse_text_cidr_text|].
  rewrite (parse_text_plain (host_of p)) by (auto with og; by left).
  unfold cidr_text, host_of. cbn [prefix family]. by rewrite Z.eqb_refl.
Qed.

Lemma wanted_texts_In cidr unsafe bans s :
  In s (wanted_texts cidr unsafe bans) <->
  exists b p, In b bans /\ ~ In (b_id b) unsafe /\ rowTarget b = Some p /\ s = if cidr then cidr_text p else address p.
Proof.
  unfold wanted_texts. rewrite uniq_in, <- list_elem_of_In, list_elem_of_omap. setoid_rewrite list_elem_of_In. split.
  - intros (b & Hb & E). destruct (mem (b_id b) unsafe) eqn:Em; [done|]. destruct (rowTarget b) as [p|] eqn:Er; [|done].
    injection E as <-. exists b, p. split_and!; [done| |done|done]. rewrite <- mem_In. congruence.
  - intros (b & p & Hb & Hu & Hr & ->). exists b. split; [done|]. rewrite <- mem_In in Hu.
    destruct (mem (b_id b) unsafe); [done|]. by rewrite Hr.
Qed.

Lemma wanted_texts_key cidr unsafe bans s : In s (wanted_texts cidr unsafe bans) -> current_key s = s.
Proof.
  intros H. apply wanted_texts_In in H as (b & p & _ & _ & Hr & ->). apply delivered_key. by eapply parse_text_wf.
Qed.

Lemma raws_map current : omap (fun v => match v with JStr s => Some s | _ => None end) (map JStr current) = current.
Proof. induction current as [|s l IH]; [done|]. cbn [map omap list_omap]. by rewrite IH. Qed.

(** What the device enforces after applying a delta. *)
Definition apply_delta (current : list string) (delta : list string * list string) : list string :=
  List.filter (fun raw => negb (has (snd delta) raw)) current ++ fst delta.

Lemma ban_delta_apply wanted current :
  (forall s, In s wanted -> current_key s = s) ->
  forall s, In s (map current_key (apply_delta current (ban_delta wanted (map JStr current)))) <-> In s wanted.
Proof.
  intros Hkey s. unfold apply_delta, ban_delta. rewrite raws_map. cbn [fst snd]. rewrite map_app, in_app_iff, !in_map_iff.
  split.
  - intros [(raw & <- & Hraw)|(x & <- & Hx)].
    + apply filter_In in Hraw as [Hin Hn]. boolify. destruct (existsb (String.eqb (current_key raw)) wanted) eqn:E; [by apply has_In in E|].
      assert (has (uniq (List.filter (fun raw => negb (existsb (String.eqb (current_key raw)) wanted)) current)) raw = true); [|congruence].
      apply has_In, uniq_in, filter_In. by rewrite E.
    + apply filter_In in Hx as [Hx _]. by rewrite Hkey.
  - intros Hs. destruct (existsb (String.eqb s) (map current_key current)) eqn:E.
    + left. apply has_In, in_map_iff in E as (raw & Er & Hraw). exists raw. split; [done|]. apply filter_In. split; [done|].
      apply negb_true_iff. destruct (has _ raw) eqn:Eh; [|done]. apply has_In, uniq_in, filter_In in Eh as [_ Eh]. boolify.
      rewrite Er in Eh. assert (has wanted s = true) by (by apply has_In). unfold has in *. congruence.
    + right. exists s. split; [by apply Hkey|]. apply filter_In. by rewrite E.
Qed.

Lemma ban_delta_stable wanted current :
  (forall s, In s (map current_key current) <-> In s wanted) -> ban_delta wanted (map JStr current) = ([], []).
Proof.
  intros H. unfold ban_delta. rewrite raws_map. f_equal.
  - apply filter_none. intros s Hs. apply negb_false_iff, has_In. by apply H.
  - rewrite filter_none; [done|]. intros raw Hr. apply negb_false_iff, has_In, H. by apply in_map.
Qed.

(** One delta brings a device in line, whatever it enforced before: after applying it
    the device enforces (up to spelling) exactly the delivered texts of the rows in force
    for it that are safe and parsable, a second delta is empty, only texts the device
    reported are removed, and nothing it already enforces is added again. *)
Theorem ban_delta_converges now w unsafe capabilities deviceId groupIds tenantId current cidr :
  let delta l := computeBanDelta now w unsafe capabilities deviceId groupIds tenantId (map JStr l) cidr in
  let enforced := apply_delta current (delta current) in
  let as_cidr := match cidr with Some c => c | None => hasCapability capabilities AGENT_CAPABILITY_CIDR end in
  (forall s, In s (map current_key enforced) <->
     exists b p, In b (w_bans w) /\ ban_applies now w deviceId groupIds tenantId b = true /\ ~ In (b_id b) unsafe
       /\ rowTarget b = Some p /\ s = if as_cidr then cidr_text p else address p)
  /\ delta enforced = ([], [])
  /\ (forall s, In s (snd (delta current)) -> In s current)
  /\ (forall s, In s (fst (delta current)) -> ~ In s (map current_key current)).
Proof.
  cbv zeta. unfold computeBanDelta. set (as_cidr := match cidr with Some c => c | None => _ end).
  set (wanted := wanted_texts as_cidr unsafe _).
  assert (Hkey : forall s, In s wanted -> current_key s = s) by (intros s; apply wanted_texts_key).
  split_and!.
  - intros s. rewrite ban_delta_apply by done. unfold wanted. rewrite wanted_texts_In. setoid_rewrite filter_In. naive_solver.
  - apply ban_delta_stable. intros s. by apply ban_delta_apply.
  - intros s Hs. unfold ban_delta in Hs. rewrite raws_map in Hs. cbn [snd] in Hs. by apply uniq_in, filter_In in Hs as [Hs _].
  - intros s Hs Hin. unfold ban_delta in Hs. rewrite raws_map in Hs. cbn [fst] in Hs. apply filter_In in Hs as [_ Hs].
    apply negb_true_iff in Hs. apply has_In in Hin. unfold has in Hin. congruence.
Qed.

End Rules.

(** ** Sample rows *)

Definition sample_ban (id : Z) (ip : TextInet) (prefix : option Z) (scope : string) (sid tenant origin : option Z) : BanRow TextPg :=
  {| b_id := id; b_ip := ip; b_cidr_prefix := prefix; b_reason := Some "scan"; b_ban_type := "manual"; b_scope := scope;
     b_scope_id := sid; b_tenant_id := tenant; b_origin_tenant_id := origin; b_origin_app := None; b_origin_ref := None;
     b_banned_by_user_id := Some 7; b_banned_at := 0; b_expires_at := None; b_is_active := true; b_lifted_at := None;
     b_lift_reason := None |}.

(** A global ban created from tenant 3: the origin tenant's socket. *)
Lemma ban_event_matches_list_witness :
  received sample_socket (emitted (emitBanRow true BAN_CREATED (sample_ban 9 (sample_inet 3405803776 32) (Some 24) "global" None None (Some 3))))
  = [P_ban (rowToBan (sample_ban 9 (sample_inet 3405803776 32) (Some 24) "global" None None (Some 3)) false (Some 3))].
Proof.
  rewrite (ban_event_matches_list sample_socket BAN_CREATED (sample_ban 9 (sample_inet 3405803776 32) (Some 24) "global" None None (Some 3)));
    [reflexivity| |reflexivity].
  intros t [= <-]. unfold max_safe_integer. lia.
Defined.
