(* ===== verification/BanService.v ===== *)
(** * Ban operations ([BanService] of [server/src/services/ban.service.ts])

    Every operation that writes [ip_bans] or [ip_ban_exclusions], in the monad of [Store].
    The advisory locks only order concurrent requests and leave no trace here: an operation
    is one step of the world. *)

From S2P Require Import Prelude JsString JsValue JsNumber IpValidation ProtectedIps Tenancy Access SocketRooms PgInet Store Whitelist BanRules.
Local Open Scope mon_scope.

Section BanService.
Context {PG : PgInet}.

(** ** Shared steps *)

Definition membership_required : CodedError := codedError 403 "TENANT_MEMBERSHIP_REQUIRED" "You are not a member of this tenant".

Definition use_tenant (en : Env) (userId tenantId : Z) : M PG bool := fun w =>
  let '(ok, c) := canUseTenant (en_tenants en) (en_now en) userId (Some "user") (JNum (NInt tenantId)) (w_caches w) in
  (inr ok, with_caches c w).

Definition assertOperatingMembership (en : Env) (userId tenantId : Z) (isAdmin : bool) : M PG unit :=
  if isAdmin then ret tt
  else if negb (0 <? userId) then throw membership_required
  else (ok <- use_tenant en userId tenantId ;; throw_when (negb ok) membership_required)%mon.

Definition ensure_infra (en : Env) : M PG unit := modify (fun w => with_protected (ProtectedIps.ensureInfraFresh (en_inputs en) (w_protected w)) w).

Definition safety_conflict (en : Env) (t : ParsedCidr) (global : bool) (tenantId : option Z) : M PG (option BanTargetErrorCode) := fun w =>
  let '(c, p) := findBanSafetyConflict (en_inputs en) (w_protected w) t global tenantId in (inr c, with_protected p w).

Definition check_target (en : Env) (raw : js) (allowCidr includeInterfaces : bool) (tenantId : option Z) : M PG BanTargetResult := fun w =>
  let '(r, p) := checkBanTarget (en_inputs en) (w_protected w) raw allowCidr includeInterfaces tenantId in (inr r, with_protected p w).

(** ** Deactivation *)

Definition deactivated (now : Z) (reason : BanLiftReason) (b : BanRow PG) : BanRow PG :=
  {| b_id := b_id b; b_ip := b_ip b; b_cidr_prefix := b_cidr_prefix b; b_reason := b_reason b; b_ban_type := b_ban_type b;
     b_scope := b_scope b; b_scope_id := b_scope_id b; b_tenant_id := b_tenant_id b; b_origin_tenant_id := b_origin_tenant_id b;
     b_origin_app := b_origin_app b; b_origin_ref := b_origin_ref b; b_banned_by_user_id := b_banned_by_user_id b;
     b_banned_at := b_banned_at b; b_expires_at := b_expires_at b; b_is_active := false;
     b_lifted_at := Some now; b_lift_reason := Some (reason_text reason) |}.

Fixpoint deactivate_chunks (now : Z) (reason : BanLiftReason) (cs : list (list Z)) : M PG (list (BanRow PG)) :=
  match cs with
  | [] => ret []
  | c :: r => (done <- update_bans (fun b => mem (b_id b) c && b_is_active b) (deactivated now reason) ;;
               rest <- deactivate_chunks now reason r ;; ret (done ++ rest))%mon
  end.

(** [UPDATE remote_blocked_ips ... SET enabled = false] for one lifted row. *)
Definition disable_entry (b : BanRow PG) (l : list (BlockedIp PG)) : list (BlockedIp PG) :=
  match if String.eqb (b_ban_type b) "remote" then blocklistIdOfOriginRef (b_origin_ref b) else None with
  | None => l
  | Some listId =>
      map (fun e => if (bi_blocklist_id e =? listId) && bi_enabled e && bool_decide (bi_ip e = networkSql b)
                    then entry_enabled false e else e) l
  end.
Definition disableLiftedBlocklistEntries (rows : list (BanRow PG)) : M PG unit :=
  modify (with_blocked (fun l => fold_left (fun l b => disable_entry b l) rows l)).

Definition lift_events (io : bool) (reason : BanLiftReason) (rows : list (BanRow PG)) : list Effect :=
  if (length rows <=? LIFT_EVENT_MAX_ROWS)%nat
  then flat_map (fun b => emitBanEvent io BAN_LIFTED b (P_lifted (b_id b) (reason_text reason))) rows
  else map Emit (emitGlobal io BAN_BULK_LIFTED (P_bulkLifted (Z.of_nat (length rows)) (reason_text reason)) ∅).

Definition lift_pushes (rows : list (BanRow PG)) : list Effect :=
  if (length rows <=? LIFT_MIKROTIK_MAX_ROWS)%nat
  then map (fun b => Push (deliveredBanTarget b true) A_unban (mikrotikAudienceOf b)) rows
  else [Reconcile].

Definition deactivateBans (en : Env) (ids : list Z) (reason : BanLiftReason) : M PG (list (BanRow PG)) :=
  (let unique := uniq (List.filter (fun n => 0 <? n) ids) in
  rows <- deactivate_chunks (en_now en) reason (chunks DEACTIVATE_CHUNK unique) ;;
  match rows with
  | [] => ret []
  | _ =>
      (if bool_decide (reason = L_lift) then disableLiftedBlocklistEntries rows else ret tt) >>
      emit (lift_events (en_io en) reason rows ++ lift_pushes rows) >>
      ret rows
  end)%mon.

Definition count_of (rows : list (BanRow PG)) : Z := Z.of_nat (length rows).

(** [pluck('id')] of the rows matching [p], deactivated. *)
Definition deactivate_where (en : Env) (p : BanRow PG -> bool) (reason : BanLiftReason) : M PG (list (BanRow PG)) :=
  (w <- get ;; deactivateBans en (map b_id (List.filter p (w_bans w))) reason)%mon.

Definition wipeAll (en : Env) : M PG Z := (rows <- deactivate_where en (fun b => b_is_active b) L_wipe ;; ret (count_of rows))%mon.

Definition expireBans (en : Env) : M PG Z :=
  (rows <- deactivate_where en (fun b => b_is_active b && past_expiry (en_now en) b) L_expiry ;; ret (count_of rows))%mon.

Definition expireStale (en : Env) (t : ParsedCidr) : M PG unit :=
  (w <- get ;;
  match map b_id (List.filter (fun b => whereSameTarget b t && b_is_active b && past_expiry (en_now en) b) (w_bans w)) with
  | [] => ret tt
  | ids => deactivateBans en ids L_expiry >> ret tt
  end)%mon.

Definition withdrawExternal (en : Env) (ip sourceApp : string) : M PG Z :=
  match parse_text ip with
  | Some p =>
      if negb (prefix p =? full_prefix p)
      then throw (codedError 400 "BAN_SINGLE_IP_REQUIRED" "ip required (single IPv4/IPv6 address)")
      else (rows <- deactivate_where en (fun b => bool_decide (inet_in (address p) = Some (b_ip b))
                      && String.eqb (b_ban_type b) "external" && bool_decide (b_origin_app b = Some sourceApp) && b_is_active b)
                      L_external_withdraw ;; ret (count_of rows))%mon
  | None => throw (codedError 400 "BAN_SINGLE_IP_REQUIRED" "ip required (single IPv4/IPv6 address)")
  end.

Definition deactivateRemoteBans (en : Env) (originRef : string) : M PG Z :=
  (rows <- deactivate_where en (fun b => bool_decide (b_origin_ref b = Some originRef) && String.eqb (b_ban_type b) "remote" && b_is_active b)
             L_remote_sync ;; ret (count_of rows))%mon.

(** ** Creation *)

(** 1) The raw target of a request. *)
Definition create_raw (data : js) : CodedError + string :=
  match get_field "ip" data with
  | JStr rawIp =>
      let rawPrefix := get_field "cidrPrefix" data in
      if is_nullish rawPrefix || match rawPrefix with JStr EmptyString => true | _ => false end then inr rawIp
      else match to_number rawPrefix with
           | NOther => inl (codedError 400 "BAN_CIDR_PREFIX_INVALID" "Invalid CIDR prefix")
           | NInt n =>
               if str_includes "/" rawIp
               then inl (codedError 400 "BAN_CIDR_PREFIX_TWICE" "Give the prefix either in ip or in cidrPrefix, not both")
               else inr (trim rawIp +:+ "/" +:+ dec n)
           end
  | _ => inl (codedError 400 "BAN_IP_REQUIRED" "ip is required")
  end.

(** 2) Scope, scope id and owning tenant of the new row. *)
Definition create_scope (d : Directory) (data : js) (tenantId : Z) : CodedError + (string * option Z * option Z) :=
  let requested := nullish_or (get_field "scope" data) JNull in
  let derived := if isMasterTenant (Some tenantId) then "global" else "tenant" in
  let default_row := inr (derived, None, if String.eqb derived "global" then None else Some tenantId) in
  match requested with
  | JNull => default_row
  | JStr s =>
      if negb (existsb (String.eqb s) BAN_SCOPES) then inl (codedError 400 "BAN_SCOPE_INVALID" "Invalid scope")
      else if String.eqb s "group" || String.eqb s "agent" then
        match to_number (get_field "scopeId" data) with
        | NInt sid =>
            if sid <=? 0 then inl (codedError 400 "SCOPE_ID_REQUIRED" "scopeId is required for group/agent scope")
            else
              let owner := if String.eqb s "agent" then option_map dev_tenant (find_device d sid)
                           else option_map grp_tenant (find_group d sid) in
              if opt_eq owner tenantId then inr (s, Some sid, Some tenantId)
              else inl (if String.eqb s "agent" then codedError 404 "AGENT_NOT_FOUND" "Agent not found"
                        else codedError 404 "GROUP_NOT_FOUND" "Group not found")
        | NOther => inl (codedError 400 "SCOPE_ID_REQUIRED" "scopeId is required for group/agent scope")
        end
      else if String.eqb s "global" && String.eqb derived "tenant" then
        inl (codedError 403 "BAN_GLOBAL_DEFAULT_TENANT_ONLY" "Global bans can only be created from the Default tenant")
      else if String.eqb s "tenant" && String.eqb derived "global" then
        inl (codedError 400 "BAN_DEFAULT_TENANT_SCOPE" "Bans created from the Default tenant are global: omit the scope, or use a group or agent scope")
      else default_row
  | _ => inl (codedError 400 "BAN_SCOPE_INVALID" "Invalid scope")
  end.

(** 4) Expiry and reason. *)
Definition create_expiry (en : Env) (data : js) : CodedError + option Z :=
  let rawExpires := get_field "expiresAt" data in
  if is_nullish rawExpires || match rawExpires with JStr EmptyString => true | _ => false end then inr None
  else match en_date en rawExpires with
       | None => inl (codedError 400 "BAN_EXPIRES_AT_INVALID" "Invalid expiresAt")
       | Some d => if d <=? en_now en then inl (codedError 400 "BAN_EXPIRES_AT_PAST" "expiresAt must be in the future")
                   else inr (Some d)
       end.
Definition create_reason (data : js) : option string :=
  match get_field "reason" data with
  | JStr s => if is_empty (trim s) then None else Some (substring 0 500 (trim s))
  | _ => None
  end.

Definition unexpired (now : Z) (b : BanRow PG) : bool := match b_expires_at b with None => true | Some e => now <? e end.

(** [ORDER BY (p) DESC LIMIT 1] *)
Definition first_preferring (p : BanRow PG -> bool) (l : list (BanRow PG)) : option (BanRow PG) :=
  match List.find p l with Some b => Some b | None => head l end.

Definition new_ban (en : Env) (ip : inet) (cidrPrefix : option Z) (reason : option string) (ban_type scope : string)
    (scopeId tenantId origin : option Z) (app ref : option string) (by_ expires : option Z) (id : Z) : BanRow PG :=
  {| b_id := id; b_ip := ip; b_cidr_prefix := cidrPrefix; b_reason := reason; b_ban_type := ban_type; b_scope := scope;
     b_scope_id := scopeId; b_tenant_id := tenantId; b_origin_tenant_id := origin; b_origin_app := app; b_origin_ref := ref;
     b_banned_by_user_id := by_; b_banned_at := en_now en; b_expires_at := expires; b_is_active := true;
     b_lifted_at := None; b_lift_reason := None |}.

Definition network_prefix (t : BanTarget) : option Z := if isNetwork t then Some (prefix (bt_parsed t)) else None.

Definition ip_whitelisted : CodedError := codedError 409 "IP_WHITELISTED" "This IP is whitelisted".
Definition already_banned : CodedError := codedError 409 "IP_ALREADY_BANNED" "This IP is already banned".
Definition already_global : CodedError := codedError 409 "IP_ALREADY_BANNED_GLOBALLY" "This IP is already banned globally".
Definition lifted_for_tenant : CodedError :=
  codedError 409 "BAN_LIFTED_FOR_TENANT" "This IP is banned globally but lifted on your tenant: use Re-enable instead".
Definition target_reserved : CodedError := codedError 400 "BAN_TARGET_RESERVED" RESERVED_OR_PROTECTED_MESSAGE.

(** The active rows [create] counts as duplicates of a target in a scope. *)
Definition is_duplicate (now : Z) (t : ParsedCidr) (scope : string) (scopeId rowTenant : option Z) (b : BanRow PG) : bool :=
  whereSameTarget b t && b_is_active b && unexpired now b
  && (String.eqb (b_scope b) "global"
      || (negb (String.eqb scope "global") && String.eqb (b_scope b) scope
          && (default 0 (b_scope_id b) =? default 0 scopeId)
          && match rowTenant with Some t => opt_eq (b_tenant_id b) t | None => false end)).

(** 5) The transaction of [create]. *)
Definition create_tx (en : Env) (t : BanTarget) (scope : string) (scopeId rowTenant : option Z) (expires : option Z)
    (reason : option string) (userId tenantId : Z) : M PG (BanRow PG) :=
  transaction (w <- get ;;
    wl <- of_sum (isWhitelisted (w_whitelist w) (cidr t) (whitelistContextOf scope scopeId rowTenant) M_overlaps) ;;
    throw_when wl ip_whitelisted >>
    match first_preferring (fun b => String.eqb (b_scope b) "global")
            (List.filter (is_duplicate (en_now en) (bt_parsed t) scope scopeId rowTenant) (w_bans w)) with
    | Some dup =>
        if String.eqb (b_scope dup) "global" && negb (String.eqb scope "global")
        then throw (if excluded (w_exclusions w) (b_id dup) tenantId then lifted_for_tenant else already_global)
        else throw already_banned
    | None =>
        ip <- of_option (inet_in (address (bt_parsed t))) invalid_inet ;;
        o <- insert_ban (new_ban en ip (network_prefix t) reason "manual" scope scopeId rowTenant (Some tenantId) None None
                           (if 0 <? userId then Some userId else None) expires) ;;
        of_option o already_banned
    end)%mon.

Definition create (en : Env) (data : js) (userId tenantId : Z) (isAdmin deferMikrotik membershipChecked : bool) : M PG IpBan :=
  ((if membershipChecked then ret tt else assertOperatingMembership en userId tenantId isAdmin) >>
  raw <- of_sum (create_raw data) ;;
  match parseBanTarget (JStr raw) true (in_env (en_inputs en)) with
  | BT_err c m => throw (banTargetError c m "")
  | BT_ok t =>
      w <- get ;;
      s <- of_sum (create_scope (w_directory w) data tenantId) ;;
      let '(scope, scopeId, rowTenant) := s in
      ensure_infra en >>
      c <- safety_conflict en (bt_parsed t) (String.eqb scope "global") rowTenant ;;
      throw_when (bool_decide (is_Some c)) target_reserved >>
      expires <- of_sum (create_expiry en data) ;;
      expireStale en (bt_parsed t) >>
      row <- create_tx en t scope scopeId rowTenant expires (create_reason data) userId tenantId ;;
      emit (emitBanRow (en_io en) BAN_CREATED row) >>
      emit (if deferMikrotik then [] else [Push (deliveredBanTarget row true) A_ban (mikrotikAudienceOf row)]) >>
      ret (rowToBan row (seesAllBans (Some tenantId)) (Some tenantId))
  end)%mon.

(** ** Promotion *)

Definition promoted (ip : inet) (cidrPrefix : option Z) (b : BanRow PG) : BanRow PG :=
  {| b_id := b_id b; b_ip := ip; b_cidr_prefix := cidrPrefix; b_reason := b_reason b; b_ban_type := b_ban_type b;
     b_scope := "global"; b_scope_id := None; b_tenant_id := None; b_origin_tenant_id := b_origin_tenant_id b;
     b_origin_app := b_origin_app b; b_origin_ref := b_origin_ref b; b_banned_by_user_id := b_banned_by_user_id b;
     b_banned_at := b_banned_at b; b_expires_at := b_expires_at b; b_is_active := b_is_active b;
     b_lifted_at := b_lifted_at b; b_lift_reason := b_lift_reason b |}.

Definition promote_tx (en : Env) (t : BanTarget) (banId : Z) : M PG (BanRow PG) :=
  transaction (w <- get ;;
    wl <- of_sum (isWhitelisted (w_whitelist w) (cidr t) (whitelistContextOf "global" None None) M_overlaps) ;;
    throw_when wl ip_whitelisted >>
    throw_when (existsb (fun b => whereSameTarget b (bt_parsed t) && b_is_active b && unexpired (en_now en) b
                           && String.eqb (b_scope b) "global") (w_bans w)) already_global >>
    ip <- of_option (inet_in (address (bt_parsed t))) invalid_inet ;;
    o <- rekey_ban (fun b => (b_id b =? banId) && b_is_active b && negb (String.eqb (b_scope b) "global"))
                   (promoted ip (network_prefix t)) ;;
    updated <- of_option o already_global ;;
    of_option (head updated) BAN_INACTIVE)%mon.

Definition promoteToGlobal (en : Env) (banId tenantId userId : Z) (isAdmin : bool) : M PG IpBan :=
  (throw_when (negb (isMasterTenant (Some tenantId)))
     (codedError 403 "BAN_PROMOTE_DEFAULT_TENANT_ONLY" "Promote to global is only available from the Default tenant") >>
  assertOperatingMembership en userId tenantId isAdmin >>
  w <- get ;;
  ban <- of_option (List.find (fun b => b_id b =? banId) (w_bans w)) BAN_NOT_FOUND ;;
  throw_when (negb (b_is_active ban) || past_expiry (en_now en) ban) BAN_INACTIVE >>
  throw_when (String.eqb (b_scope ban) "global") (codedError 409 "BAN_ALREADY_GLOBAL" "Ban is already global") >>
  match parseBanTarget (JStr (banTargetRawFromRow (inet_out (b_ip ban)) (b_cidr_prefix ban))) true (in_env (en_inputs en)) with
  | BT_err c m => throw (banTargetError c m "Cannot promote this ban: ")
  | BT_ok t =>
      ensure_infra en >>
      c <- safety_conflict en (bt_parsed t) true None ;;
      throw_when (bool_decide (is_Some c)) target_reserved >>
      expireStale en (bt_parsed t) >>
      row <- promote_tx en t banId ;;
      emit (emitBanRow (en_io en) BAN_UPDATED row) >>
      emit [Push (deliveredBanTarget row true) A_ban (mikrotikAudienceOf row)] >>
      ret (rowToBan row (seesAllBans (Some tenantId)) (Some tenantId))
  end)%mon.

(** ** Lift and exclusions *)

Definition excluded_events (io : bool) (event : string) (banId tenantId : Z) : list Effect :=
  map Emit (emitToTenantAudience io (JNum (NInt tenantId)) event (P_exclusion banId tenantId) None).

Definition lift (en : Env) (banId tenantId userId : Z) (isAdmin : bool) (writable : TeamScope) : M PG unit :=
  (assertOperatingMembership en userId tenantId isAdmin >>
  w <- get ;;
  ban <- of_option (List.find (fun b => b_id b =? banId) (w_bans w)) BAN_NOT_FOUND ;;
  throw_when (negb (mem (b_id ban) (teamWritableBanIds (w_directory w) (w_bans w) [b_id ban] writable))) BAN_NOT_FOUND >>
  match planLift ban tenantId with
  | Plan_refuse e => throw e
  | Plan Act_exclude =>
      insert_exclusion banId tenantId (Some userId) >>
      emit (excluded_events (en_io en) BAN_EXCLUDED banId tenantId
            ++ [Push (deliveredBanTarget ban true) A_unban (Some (Some tenantId))])
  | Plan Act_deactivate =>
      lifted <- deactivateBans en [banId] L_lift ;;
      throw_when (match lifted with [] => true | _ => false end) BAN_INACTIVE
  end)%mon.

Record BulkLiftResult := {
  br_lifted : Z; br_excluded : Z; br_skipped : Z; br_refused : Z; br_errors : list (Z * CodedError)
}.
Definition no_lift : BulkLiftResult := {| br_lifted := 0; br_excluded := 0; br_skipped := 0; br_refused := 0; br_errors := [] |}.

Definition lift_refuse (r : BulkLiftResult) (id : Z) (e : CodedError) : BulkLiftResult :=
  {| br_lifted := br_lifted r; br_excluded := br_excluded r;
     br_skipped := if err_status e =? 409 then br_skipped r + 1 else br_skipped r;
     br_refused := if err_status e =? 409 then br_refused r else br_refused r + 1;
     br_errors := if (length (br_errors r) <? BULK_LIFT_DETAIL_MAX)%nat then br_errors r ++ [(id, e)] else br_errors r |}.

(** The loop over the unique ids: refusals, rows to exclude, ids to deactivate. *)
Definition lift_sort (byId : Z -> option (BanRow PG)) (tenantId : Z)
    (acc : BulkLiftResult * list (BanRow PG) * list Z) (id : Z) : BulkLiftResult * list (BanRow PG) * list Z :=
  let '(r, toExclude, toDeactivate) := acc in
  match byId id with
  | None => (lift_refuse r id BAN_NOT_FOUND, toExclude, toDeactivate)
  | Some ban =>
      match planLift ban tenantId with
      | Plan_refuse e => (lift_refuse r id e, toExclude, toDeactivate)
      | Plan Act_exclude => (r, toExclude ++ [ban], toDeactivate)
      | Plan Act_deactivate => (r, toExclude, toDeactivate ++ [id])
      end
  end.

(** INSERT of several exclusions ON CONFLICT DO NOTHING RETURNING ban_id. *)
Fixpoint insert_exclusions (banIds : list Z) (tenantId : Z) (by_ : option Z) : M PG (list Z) :=
  match banIds with
  | [] => ret []
  | id :: r => (ok <- insert_exclusion id tenantId by_ ;; l <- insert_exclusions r tenantId by_ ;; ret (if ok then id :: l else l))%mon
  end.

Definition already_lifted : CodedError := codedError 409 "BAN_ALREADY_LIFTED_FOR_TENANT" "Already lifted on this tenant".

Definition bulk_exclude (en : Env) (toExclude : list (BanRow PG)) (tenantId userId : Z) (r : BulkLiftResult) : M PG BulkLiftResult :=
  match toExclude with
  | [] => ret r
  | _ =>
      (fresh <- insert_exclusions (map b_id toExclude) tenantId (if 0 <? userId then Some userId else None) ;;
      let excluded := List.filter (fun b => mem (b_id b) fresh) toExclude in
      let r := fold_left (fun r b => if mem (b_id b) fresh then r else lift_refuse r (b_id b) already_lifted) toExclude r in
      emit (flat_map (fun b => excluded_events (en_io en) BAN_EXCLUDED (b_id b) tenantId) excluded
            ++ (if (length excluded <=? LIFT_MIKROTIK_MAX_ROWS)%nat
                then map (fun b => Push (deliveredBanTarget b true) A_unban (Some (Some tenantId))) excluded
                else [Reconcile])) >>
      ret {| br_lifted := br_lifted r; br_excluded := Z.of_nat (length excluded); br_skipped := br_skipped r;
             br_refused := br_refused r; br_errors := br_errors r |})%mon
  end.

Definition bulk_deactivate (en : Env) (toDeactivate : list Z) (r : BulkLiftResult) : M PG BulkLiftResult :=
  match toDeactivate with
  | [] => ret r
  | _ =>
      (done <- deactivateBans en toDeactivate L_lift ;;
      let doneIds := map b_id done in
      let r := {| br_lifted := count_of done; br_excluded := br_excluded r; br_skipped := br_skipped r;
                  br_refused := br_refused r; br_errors := br_errors r |} in
      ret (fold_left (fun r id => if mem id doneIds then r else lift_refuse r id BAN_INACTIVE) toDeactivate r))%mon
  end.

Definition bulkLift (en : Env) (ids : list Z) (tenantId userId : Z) (isAdmin : bool) (writableIds : TeamScope) : M PG BulkLiftResult :=
  (assertOperatingMembership en userId tenantId isAdmin >>
  w <- get ;;
  let unique := uniq ids in
  let rows := List.filter (fun b => mem (b_id b) unique) (w_bans w) in
  let writable := teamWritableBanIds (w_directory w) (w_bans w) (map b_id rows) writableIds in
  let byId id := List.find (fun b => b_id b =? id) (rev (List.filter (fun b => mem (b_id b) writable) rows)) in
  let '(r, toExclude, toDeactivate) := fold_left (lift_sort byId tenantId) unique (no_lift, [], []) in
  r <- bulk_exclude en toExclude tenantId userId r ;;
  bulk_deactivate en toDeactivate r)%mon.

Definition excludeForTenant (en : Env) (banId tenantId userId : Z) (isAdmin : bool) : M PG unit :=
  (assertOperatingMembership en userId tenantId isAdmin >>
  w <- get ;;
  ban <- of_option (List.find (fun b => b_id b =? banId) (w_bans w)) BAN_NOT_FOUND ;;
  throw_when (negb (canSeeBan (vis ban) (Some tenantId))) BAN_NOT_FOUND >>
  throw_when (negb (String.eqb (b_scope ban) "global"))
    (codedError 400 "BAN_EXCLUDE_GLOBAL_ONLY" "Only global bans can be excluded per-tenant") >>
  throw_when (negb (b_is_active ban)) BAN_INACTIVE >>
  insert_exclusion banId tenantId (Some userId) >>
  emit (excluded_events (en_io en) BAN_EXCLUDED banId tenantId
        ++ [Push (deliveredBanTarget ban true) A_unban (Some (Some tenantId))]))%mon.

Definition removeExclusion (en : Env) (banId tenantId : Z) : M PG unit :=
  (w <- get ;;
  throw_when (negb (excluded (w_exclusions w) banId tenantId))
    (codedError 404 "BAN_EXCLUSION_NOT_FOUND" "No exclusion found for this ban and tenant") >>
  modify (with_exclusions (List.filter (fun e => negb ((ex_ban_id e =? banId) && (ex_tenant_id e =? tenantId))))) >>
  emit (excluded_events (en_io en) BAN_EXCLUSION_REMOVED banId tenantId) >>
  match List.find (fun b => b_id b =? banId) (w_bans w) with
  | Some ban => if b_is_active ban then emit [Push (deliveredBanTarget ban true) A_ban (Some (Some tenantId))] else ret tt
  | None => ret tt
  end)%mon.

End BanService.
