(* ===== verification/BanImport.v ===== *)
(** * Bans from outside ([createFromExternal] and [createRemoteBans] of ban.service.ts)

    Bans pushed by another application of the suite, and bans imported from remote
    blocklists or routers. *)

From S2P Require Import Prelude JsString JsValue IpValidation ProtectedIps Tenancy Access SocketRooms PgInet Store Whitelist BanRules BanService.
Local Open Scope mon_scope.

Section BanImport.
Context {PG : PgInet}.

Definition no_context : WhitelistMatchContext := {| wc_tenantId := None; wc_groupIds := []; wc_deviceId := None |}.

(** ** External bans *)

Record ExternalArgs := {
  ea_ip : string; ea_reason : option string; ea_sourceApp : string; ea_expiresAt : option Z; ea_masterTenantId : Z
}.

(** [activeGlobal]: the active global rows of the single address. *)
Definition active_global (t : ParsedCidr) (b : BanRow PG) : bool :=
  String.eqb (b_scope b) "global" && b_is_active b
  && bool_decide (inet_in (address t) = Some (b_ip b)) && (prefixSql b =? full_prefix t).

(** Reconcile [expires_at] (null wins, else the later one). *)
Definition next_expiry (current given : option Z) : option Z :=
  match given, current with
  | None, _ => None
  | Some g, Some c => if c <? g then Some g else Some c
  | Some _, None => None
  end.

Definition refreshed (expires : option Z) (app : string) (b : BanRow PG) : BanRow PG :=
  {| b_id := b_id b; b_ip := b_ip b; b_cidr_prefix := b_cidr_prefix b; b_reason := b_reason b; b_ban_type := b_ban_type b;
     b_scope := b_scope b; b_scope_id := b_scope_id b; b_tenant_id := b_tenant_id b; b_origin_tenant_id := b_origin_tenant_id b;
     b_origin_app := match b_origin_app b with Some a => Some a | None => Some app end; b_origin_ref := b_origin_ref b;
     b_banned_by_user_id := b_banned_by_user_id b; b_banned_at := b_banned_at b; b_expires_at := expires;
     b_is_active := b_is_active b; b_lifted_at := b_lifted_at b; b_lift_reason := b_lift_reason b |}.

Record ExternalResult := { er_row : BanRow PG; er_isNew : bool; er_changed : bool }.

(** The transaction: [None] when the insert violates the unique key. *)
Definition external_tx (en : Env) (args : ExternalArgs) (t : ParsedCidr) : M PG (option ExternalResult) :=
  (w <- get ;;
  match first_preferring (fun b => String.eqb (b_ban_type b) "external") (List.filter (active_global t) (w_bans w)) with
  | Some current =>
      if String.eqb (b_ban_type current) "external" then
        let next := next_expiry (b_expires_at current) (ea_expiresAt args) in
        rows <- update_bans (fun b => b_id b =? b_id current) (refreshed next (ea_sourceApp args)) ;;
        row <- of_option (head rows) BAN_NOT_FOUND ;;
        ret (Some {| er_row := row; er_isNew := false; er_changed := true |})
      else ret (Some {| er_row := current; er_isNew := false; er_changed := false |})
  | None =>
      ip <- of_option (inet_in (address t)) invalid_inet ;;
      o <- insert_ban (new_ban en ip None (ea_reason args) "external" "global" None None (Some (ea_masterTenantId args))
                         (Some (ea_sourceApp args)) None None (ea_expiresAt args)) ;;
      ret (option_map (fun b => {| er_row := b; er_isNew := true; er_changed := true |}) o)
  end)%mon.

Definition unique_violation : CodedError := codedError 500 "23505" "duplicate key value violates unique constraint".

Definition createFromExternal (en : Env) (args : ExternalArgs) : M PG (IpBan * bool) :=
  (ensure_infra en >>
  chk <- check_target en (JStr (ea_ip args)) false true None ;;
  match chk with
  | BT_err c m => throw (banTargetError c m "")
  | BT_ok target =>
      let t := bt_parsed target in
      w <- get ;;
      wl <- of_sum (isWhitelisted (w_whitelist w) (address t) no_context M_contains) ;;
      throw_when wl ip_whitelisted >>
      expireStale en t >>
      o <- transaction (external_tx en args t) ;;
      result <- match o with
                | Some r => ret r
                | None =>
                    w <- get ;;
                    row <- of_option (head (List.filter (active_global t) (w_bans w))) unique_violation ;;
                    ret {| er_row := row; er_isNew := false; er_changed := false |}
                end ;;
      let row := er_row result in
      emit (if er_isNew result
            then emitBanRow (en_io en) BAN_CREATED row ++ [Push (deliveredBanTarget row true) A_ban (mikrotikAudienceOf row)]
            else if er_changed result then emitBanRow (en_io en) BAN_UPDATED row else []) >>
      ret (rowToBan row false None, er_isNew result)
  end)%mon.

(** ** Remote bans *)

Record RemoteTarget := { rt_address : string; rt_prefix : Z; rt_isNetwork : bool; rt_reason : option string }.
Record RemoteOptions := {
  ro_originRef : string; ro_originTenantId : option Z; ro_reason : string; ro_whitelist : WhitelistMatchContext;
  ro_respectLifts : bool
}.

(** [t.reason ? t.reason.slice(0, 500) : null], then [COALESCE(t.reason, reason)]. *)
Definition remote_reason (o : RemoteOptions) (t : RemoteTarget) : string :=
  match rt_reason t with
  | Some r => if is_empty r then substring 0 500 (ro_reason o) else substring 0 500 r
  | None => substring 0 500 (ro_reason o)
  end.

(** The three NOT EXISTS of the INSERT ... SELECT, on the rows at the start of the statement. *)
Definition remote_covered (bans : list (BanRow PG)) (x : inet) : bool :=
  existsb (fun b => b_is_active b && String.eqb (b_scope b) "global" && inet_sup (networkSql b) x) bans.
Definition remote_whitelisted (o : RemoteOptions) (entries : list (WhitelistRow PG)) (x : inet) : bool :=
  existsb (fun e => inet_sup (wl_ip e) x && whereWhitelistApplies (ro_whitelist o) e) entries.
Definition remote_lifted (o : RemoteOptions) (bans : list (BanRow PG)) (x : inet) : bool :=
  ro_respectLifts o
  && existsb (fun b => bool_decide (b_origin_ref b = Some (ro_originRef o)) && negb (b_is_active b)
                && bool_decide (b_lift_reason b = Some "lift") && bool_decide (networkSql b = x)) bans.

Definition remote_wanted (o : RemoteOptions) (w : World PG) (x : inet) : bool :=
  negb (remote_covered (w_bans w) x) && negb (remote_whitelisted o (w_whitelist w) x) && negb (remote_lifted o (w_bans w) x).

Definition remote_row (en : Env) (o : RemoteOptions) (t : RemoteTarget) (ip : inet) : Z -> BanRow PG :=
  new_ban en ip (if rt_isNetwork t then Some (rt_prefix t) else None) (Some (remote_reason o t)) "remote" "global" None None
    (ro_originTenantId o) None (Some (ro_originRef o)) None None.

(** The rows of one chunk: an address the database cannot read fails the statement. *)
Definition parse_addresses (ts : list RemoteTarget) : option (list (RemoteTarget * inet)) :=
  fold_right (fun t acc => match inet_in (rt_address t), acc with
                           | Some ip, Some l => Some ((t, ip) :: l)
                           | _, _ => None
                           end) (Some []) ts.

Definition remote_chunk (en : Env) (o : RemoteOptions) (ts : list RemoteTarget) : M PG (list (BanRow PG)) :=
  (w <- get ;;
  rows <- of_option (parse_addresses ts) invalid_inet ;;
  insert_ignore (map (fun r => remote_row en o (fst r) (snd r))
    (List.filter (fun r => remote_wanted o w (set_masklen (snd r) (rt_prefix (fst r)))) rows)))%mon.

Fixpoint remote_chunks (en : Env) (o : RemoteOptions) (cs : list (list RemoteTarget)) : M PG (list (BanRow PG)) :=
  match cs with
  | [] => ret []
  | c :: r => (l <- remote_chunk en o c ;; rest <- remote_chunks en o r ;; ret (l ++ rest))%mon
  end.

Definition created_effects (io : bool) (rows : list (BanRow PG)) : list Effect :=
  (if (length rows <=? LIFT_EVENT_MAX_ROWS)%nat then flat_map (emitBanRow io BAN_CREATED) rows else [])
  ++ (if (length rows <=? LIFT_MIKROTIK_MAX_ROWS)%nat then map (fun b => Push (deliveredBanTarget b true) A_ban None) rows else [Reconcile]).

Definition createRemoteBans (en : Env) (targets : list RemoteTarget) (o : RemoteOptions) : M PG Z :=
  (created <- remote_chunks en o (chunks REMOTE_INSERT_CHUNK targets) ;;
  match created with
  | [] => ret 0
  | _ => emit (created_effects (en_io en) created) >> ret (count_of created)
  end)%mon.

End BanImport.
