(* ===== verification/BanAuthority.v ===== *)
(** * Who may change which ban

    The writes of the ban store as authorised transitions: a tenant other than Default may
    only add rows of its own, deactivate its own rows and rows already expired, and toggle
    its own exclusions; promotions and global rows are for Default and the system. Every
    operation of [BanService] and [BanImport] is a sequence of such transitions, which
    keep the store's invariants and leave other tenants alone. *)

From S2P Require Import Prelude JsString JsValue JsNumber IpValidation ProtectedIps Tenancy Access SocketRooms PgInet Store Hoare Whitelist BanRules BanService BanImport.

(** ** Deactivation, exactly *)

Section Deactivate.
Context {PG : PgInet}.

Definition deact (now : Z) (reason : BanLiftReason) (ids : list Z) (b : BanRow PG) : BanRow PG :=
  if mem (b_id b) ids && b_is_active b then deactivated now reason b else b.

Lemma deactivate_chunks_spec now reason cs w :
  NoDup (concat cs) ->
  deactivate_chunks now reason cs w
  = (inr (flat_map (fun c => map (deactivated now reason) (List.filter (fun b => mem (b_id b) c && b_is_active b) (w_bans w))) cs),
     match cs with [] => w | _ => with_bans (map (deact now reason (concat cs))) w end).
Proof.
  revert w. induction cs as [|c cs IH]; intros w Hnd; [done|]. cbn [deactivate_chunks flat_map concat] in *.
  apply NoDup_app in Hnd as (Hc & Hdis & Hcs). unfold bind, update_bans.
  rewrite IH by done. unfold ret. cbn [with_bans w_bans].
  assert (E : forall c', incl c' (concat cs) -> List.filter (fun b => mem (b_id b) c' && b_is_active b)
      (map (fun b : BanRow PG => if mem (b_id b) c && b_is_active b then deactivated now reason b else b) (w_bans w))
      = List.filter (fun b => mem (b_id b) c' && b_is_active b) (w_bans w)).
  { intros c' Hc'. induction (w_bans w) as [|b l IHl]; [done|]. cbn [map List.filter]. rewrite IHl.
    destruct (mem (b_id b) c && b_is_active b) eqn:Em; [|done]. boolify.
    change (b_is_active (deactivated now reason b)) with false. rewrite andb_false_r.
    destruct (mem (b_id b) c') eqn:Em'; [|done]. exfalso. apply mem_In in H, Em'. apply (Hdis (b_id b)); by apply list_elem_of_In; auto. }
  f_equal.
  - f_equal. f_equal. clear IH. induction cs as [|c1 cs IHc]; [done|]. cbn [flat_map concat] in *.
    rewrite E by (intros x Hx; apply in_app_iff; by left). f_equal. apply IHc.
    + intros x Hx Hx'. apply (Hdis x Hx). apply elem_of_app. by right.
    + by apply NoDup_app in Hcs as (_ & _ & ?).
    + intros c' Hc'. apply E. intros x Hx. apply in_app_iff. right. by apply Hc'.
  - destruct w. unfold with_bans. cbn. destruct cs; cbn; f_equal; rewrite ?map_map; apply map_ext; intros b; unfold deact; cbn [concat].
    + by rewrite app_nil_r.
    + rewrite !mem_app. destruct (mem (b_id b) c && b_is_active b) eqn:Em.
      * boolify. change (b_is_active (deactivated now reason b)) with false. by rewrite andb_false_r, H, H0.
      * destruct (mem (b_id b) c); cbn [andb orb] in *; [|done]. by rewrite Em, andb_false_r.
Qed.

(** The ids a call acts on. *)
Definition act_ids (ids : list Z) : list Z := uniq (List.filter (fun n => 0 <? n) ids).

Definition deactivated_rows (now : Z) (reason : BanLiftReason) (ids : list Z) (bans : list (BanRow PG)) : list (BanRow PG) :=
  flat_map (fun c => map (deactivated now reason) (List.filter (fun b => mem (b_id b) c && b_is_active b) bans))
    (chunks DEACTIVATE_CHUNK (act_ids ids)).

Definition deactivate_world (en : Env) (reason : BanLiftReason) (ids : list Z) (w : World PG) : World PG :=
  match deactivated_rows (en_now en) reason ids (w_bans w) with
  | [] => w
  | rows =>
      with_effects (lift_events (en_io en) reason rows ++ lift_pushes rows)
        (with_blocked (fun l => if bool_decide (reason = L_lift) then fold_left (fun l b => disable_entry b l) rows l else l)
          (with_bans (map (deact (en_now en) reason (act_ids ids))) w))
  end.

Lemma no_rows_same now reason ids (bans : list (BanRow PG)) :
  deactivated_rows now reason ids bans = [] -> map (deact now reason (act_ids ids)) bans = bans.
Proof.
  intros H. rewrite <- (map_id bans) at 2. apply map_ext_in. intros b Hb. unfold deact, id.
  destruct (mem (b_id b) (act_ids ids) && b_is_active b) eqn:E; [|done]. exfalso. boolify.
  rewrite <- (concat_chunks DEACTIVATE_CHUNK (act_ids ids)) in H0 by (unfold DEACTIVATE_CHUNK; lia).
  apply mem_In, in_concat in H0 as (c & Hc & Hin).
  assert (Hr : In (deactivated now reason b) (deactivated_rows now reason ids bans)).
  { unfold deactivated_rows. apply in_flat_map. exists c. split; [done|]. apply in_map, filter_In. split; [done|].
    apply andb_true_iff. split; [by apply mem_In|done]. }
  by rewrite H in Hr.
Qed.

Lemma deactivateBans_spec en ids reason w :
  deactivateBans en ids reason w
  = (inr (deactivated_rows (en_now en) reason ids (w_bans w)), deactivate_world en reason ids w).
Proof.
  unfold deactivateBans. cbv zeta. fold (act_ids ids). unfold bind at 1.
  assert (Hcat : concat (chunks DEACTIVATE_CHUNK (act_ids ids)) = act_ids ids) by (apply concat_chunks; unfold DEACTIVATE_CHUNK; lia).
  rewrite deactivate_chunks_spec by (rewrite Hcat; apply uniq_nodup). rewrite Hcat.
  fold (deactivated_rows (en_now en) reason ids (w_bans w)). unfold deactivate_world.
  destruct (deactivated_rows (en_now en) reason ids (w_bans w)) as [|r rows] eqn:Er.
  - unfold ret. f_equal. apply no_rows_same in Er. destruct (chunks _ _); [done|]. destruct w. unfold with_bans. cbn in *. by rewrite Er.
  - destruct (chunks DEACTIVATE_CHUNK (act_ids ids)) as [|c cs] eqn:Ec.
    { unfold deactivated_rows in Er. by rewrite Ec in Er. }
    unfold bind, emit, modify, ret, disableLiftedBlocklistEntries. destruct (bool_decide (reason = L_lift)); cbn [modify]; [done|].
    destruct w. done.
Qed.

(** What a call returns: the rows it deactivated. *)
Lemma deactivated_rows_In now reason ids (bans : list (BanRow PG)) r :
  In r (deactivated_rows now reason ids bans) <->
  exists b, In b bans /\ b_is_active b = true /\ In (b_id b) ids /\ 0 < b_id b /\ r = deactivated now reason b.
Proof.
  assert (Hcat : concat (chunks DEACTIVATE_CHUNK (act_ids ids)) = act_ids ids) by (apply concat_chunks; unfold DEACTIVATE_CHUNK; lia).
  assert (Hids : forall k, (exists c, In c (chunks DEACTIVATE_CHUNK (act_ids ids)) /\ In k c) <-> In k ids /\ 0 < k).
  { intros k. rewrite <- in_concat, Hcat. unfold act_ids. rewrite uniq_in, filter_In, Z.ltb_lt. done. }
  unfold deactivated_rows. rewrite in_flat_map. split.
  - intros (c & Hc & Hr). apply in_map_iff in Hr as (b & <- & Hb). apply filter_In in Hb as [Hb E]. boolify. apply mem_In in H.
    destruct (proj1 (Hids (b_id b)) (ex_intro _ c (conj Hc H))) as [? ?]. by exists b.
  - intros (b & Hb & Ha & Hin & Hpos & ->). destruct (proj2 (Hids (b_id b)) (conj Hin Hpos)) as (c & Hc & Hk).
    exists c. split; [done|]. apply in_map, filter_In. split; [done|]. by rewrite (proj2 (mem_In _ _) Hk), Ha.
Qed.

End Deactivate.

(** ** Authorised transitions *)

(** Who acts: the system (jobs, imports, other applications) or an operating tenant. *)
Inductive Who := System | Tenant (t : Z).

Section Authority.
Context {PG : PgInet} (now : Z).

Definition default_tenant (t : Z) : bool := isMasterTenant (Some t).

Definition may_insert (who : Who) (b : BanRow PG) : Prop :=
  match who with
  | System => b_scope b = "global" /\ b_tenant_id b = None
  | Tenant t => ((default_tenant t = true /\ b_scope b = "global" /\ b_tenant_id b = None)
                 \/ (b_scope b <> "global" /\ b_tenant_id b = Some t))
                /\ b_ban_type b = "manual" /\ b_origin_ref b = None
  end.

Definition may_deactivate (who : Who) (b : BanRow PG) : Prop :=
  match who with
  | System => True
  | Tenant t => default_tenant t = true \/ past_expiry now b = true \/ (b_scope b <> "global" /\ b_tenant_id b = Some t)
  end.

(** The tables no transition of the ban store touches; of the entries of the remote lists a
    Lift disables some. *)
Definition entries_disabled (l l' : list (BlockedIp PG)) : Prop := Forall2 (fun e e' => e' = e \/ e' = entry_enabled false e) l l'.
Definition rest_same (w w' : World PG) : Prop :=
  w_whitelist w' = w_whitelist w /\ w_directory w' = w_directory w /\ entries_disabled (w_blocked w) (w_blocked w').

Inductive trans (who : Who) : World PG -> World PG -> Prop :=
| t_silent w w' :
    w_bans w' = w_bans w -> w_exclusions w' = w_exclusions w -> w_next_ban w <= w_next_ban w' -> rest_same w w' -> trans who w w'
| t_insert w w' (b : BanRow PG) :
    w_bans w' = w_bans w ++ [b] -> w_exclusions w' = w_exclusions w -> w_next_ban w' = w_next_ban w + 1 -> rest_same w w' ->
    b_id b = w_next_ban w -> b_is_active b = true -> violates (w_bans w) b = false -> may_insert who b -> trans who w w'
| t_deactivate w w' (p : BanRow PG -> bool) (reason : BanLiftReason) :
    w_bans w' = map (fun b => if p b then deactivated now reason b else b) (w_bans w) ->
    w_exclusions w' = w_exclusions w -> w_next_ban w' = w_next_ban w -> rest_same w w' ->
    (forall b, In b (w_bans w) -> p b = true -> b_is_active b = true /\ may_deactivate who b) -> trans who w w'
| t_promote w w' (t id : Z) (ip : inet) (pre : option Z) :
    who = Tenant t -> default_tenant t = true ->
    let p (b : BanRow PG) := (b_id b =? id) && b_is_active b && negb (String.eqb (b_scope b) "global") in
    w_bans w' = map (fun b => if p b then promoted ip pre b else b) (w_bans w) ->
    w_exclusions w' = w_exclusions w -> w_next_ban w' = w_next_ban w -> rest_same w w' ->
    existsb (fun b => violates (List.filter (fun b => negb (p b)) (w_bans w)) b) (map (promoted ip pre) (List.filter p (w_bans w))) = false ->
    trans who w w'
| t_refresh w w' (id : Z) (expires : option Z) (app : string) :
    who = System -> w_bans w' = map (fun b => if b_id b =? id then refreshed expires app b else b) (w_bans w) ->
    w_exclusions w' = w_exclusions w -> w_next_ban w' = w_next_ban w -> rest_same w w' -> trans who w w'
| t_exclude w w' (t banId : Z) (by_ : option Z) :
    who = Tenant t -> w_bans w' = w_bans w -> excluded (w_exclusions w) banId t = false ->
    w_exclusions w' = w_exclusions w ++ [ {| ex_ban_id := banId; ex_tenant_id := t; ex_created_by := by_ |} ] ->
    w_next_ban w' = w_next_ban w -> rest_same w w' -> trans who w w'
| t_include w w' (t banId : Z) :
    who = Tenant t -> w_bans w' = w_bans w ->
    w_exclusions w' = List.filter (fun e => negb ((ex_ban_id e =? banId) && (ex_tenant_id e =? t))) (w_exclusions w) ->
    w_next_ban w' = w_next_ban w -> rest_same w w' -> trans who w w'.

End Authority.

Lemma entries_same {PG : PgInet} (l : list (BlockedIp PG)) : entries_disabled l l.
Proof. induction l; constructor; auto. Qed.
#[export] Hint Resolve entries_same : og.
Lemma entries_disabled_map {PG : PgInet} (f : BlockedIp PG -> bool) l : entries_disabled l (map (fun e => if f e then entry_enabled false e else e) l).
Proof. induction l as [|e l IH]; cbn [map]; constructor; [|done]. destruct (f e); auto. Qed.
Lemma entries_disabled_trans {PG : PgInet} (a b c : list (BlockedIp PG)) : entries_disabled a b -> entries_disabled b c -> entries_disabled a c.
Proof.
  intros H. revert c. induction H as [|e e' a b He _ IH]; intros c Hc; inversion Hc as [|? e2 ? c' He' Hc']; subst; constructor; [|by apply IH].
  destruct He as [->| ->], He' as [->| ->]; auto.
Qed.
Lemma disabled_rows {PG : PgInet} (rows : list (BanRow PG)) l : entries_disabled l (fold_left (fun l b => disable_entry b l) rows l).
Proof.
  revert l. induction rows as [|r rows IH]; intros l; cbn [fold_left]; [apply entries_same|]. eapply entries_disabled_trans; [|apply IH].
  unfold disable_entry. destruct (if String.eqb (b_ban_type r) "remote" then blocklistIdOfOriginRef (b_origin_ref r) else None) as [z|]; [|apply entries_same].
  exact (entries_disabled_map (fun e => (bi_blocklist_id e =? z) && bi_enabled e && bool_decide (bi_ip e = networkSql r)) l).
Qed.

(** ** Invariants of the ban store *)

Section Invariants.
Context {PG : PgInet}.

(** Distinct ids below the sequence, one active row per key of migration 032, no owner on a
    global row, one exclusion per ban and tenant. *)
Record wf_bans (w : World PG) : Prop := {
  wb_ids : NoDup (map b_id (w_bans w));
  wb_range : forall b, In b (w_bans w) -> 0 < b_id b < w_next_ban w;
  wb_next : 0 < w_next_ban w;
  wb_keys : forall b1 b2, In b1 (w_bans w) -> In b2 (w_bans w) -> b_is_active b1 = true -> b_is_active b2 = true ->
              ban_key b1 = ban_key b2 -> b_id b1 = b_id b2;
  wb_global : forall b, In b (w_bans w) -> b_scope b = "global" -> b_tenant_id b = None;
  wb_excluded : NoDup (map (fun e => (ex_ban_id e, ex_tenant_id e)) (w_exclusions w))
}.

(** Updating rows in place. *)
Lemma wf_update (w w' : World PG) (f : BanRow PG -> BanRow PG) :
  wf_bans w -> w_bans w' = map f (w_bans w) -> w_exclusions w' = w_exclusions w -> w_next_ban w' = w_next_ban w ->
  (forall b, In b (w_bans w) -> b_id (f b) = b_id b) ->
  (forall b, In b (w_bans w) -> b_scope (f b) = "global" -> b_tenant_id (f b) = None) ->
  (forall b1 b2, In b1 (w_bans w) -> In b2 (w_bans w) -> b_is_active (f b1) = true -> b_is_active (f b2) = true ->
     ban_key (f b1) = ban_key (f b2) -> b_id b1 = b_id b2) ->
  wf_bans w'.
Proof.
  intros [] Hb He Hn Hid Hg Hk. split; rewrite ?Hb, ?He, ?Hn; try done.
  - rewrite map_map. by rewrite (map_ext_in _ _ _ Hid).
  - intros b Hin. apply in_map_iff in Hin as (c & <- & Hc). rewrite Hid by done. by apply wb_range0.
  - intros b1 b2 H1 H2. apply in_map_iff in H1 as (c1 & <- & H1), H2 as (c2 & <- & H2). intros. rewrite !Hid by done. by apply Hk.
  - intros b Hin. apply in_map_iff in Hin as (c & <- & Hc). by apply Hg.
Qed.

Lemma violates_false (rows : list (BanRow PG)) b r :
  violates rows b = false -> b_is_active b = true -> In r rows -> b_is_active r = true -> ban_key r <> ban_key b.
Proof.
  unfold violates. intros H Hb Hr Ha E. rewrite Hb in H. cbn [andb] in H. rewrite existsb_false_forall in H. specialize (H r Hr).
  unfold same_key in H. rewrite Ha in H. cbn [andb] in H. by apply bool_decide_eq_false in H.
Qed.

Lemma wf_insert (w w' : World PG) b :
  wf_bans w -> w_bans w' = w_bans w ++ [b] -> w_exclusions w' = w_exclusions w -> w_next_ban w' = w_next_ban w + 1 ->
  b_id b = w_next_ban w -> violates (w_bans w) b = false -> (b_scope b = "global" -> b_tenant_id b = None) -> wf_bans w'.
Proof.
  intros [] Hb He Hn Hid Hv Hg. split; rewrite ?Hb, ?He, ?Hn; try done.
  - rewrite map_app. apply NoDup_app. split; [done|]. split; [|apply NoDup_singleton].
    intros i Hi Hi'. cbn in Hi'. apply list_elem_of_singleton in Hi' as ->.
    apply list_elem_of_In, in_map_iff in Hi as (c & E & Hc). apply wb_range0 in Hc. lia.
  - intros c Hc. apply in_app_iff in Hc as [Hc|[<-|[]]]; [apply wb_range0 in Hc|]; lia.
  - lia.
  - intros b1 b2 H1 H2 A1 A2 E. apply in_app_iff in H1 as [H1|[<-|[]]], H2 as [H2|[<-|[]]]; [by apply wb_keys0| | |done].
    + by destruct (violates_false _ _ _ Hv A2 H1 A1).
    + by destruct (violates_false _ _ _ Hv A1 H2 A2).
  - intros c Hc. apply in_app_iff in Hc as [Hc|[<-|[]]]; [by apply wb_global0|done].
Qed.

Lemma trans_wf now who w w' : trans now who w w' -> wf_bans w -> wf_bans w'.
Proof.
  intros [v v' Hb He Hn _|v v' b Hb He Hn _ Hid Ha Hv Hm|v v' p reason Hb He Hn _ Hp|v v' t id ip pre _ Ht p Hb He Hn _ Hv
         |v v' id expires app _ Hb He Hn _|v v' t banId by_ _ Hb Hx He Hn _|v v' t banId _ Hb He Hn _] Hw.
  - destruct Hw. split; rewrite ?Hb, ?He; try done; [|lia]. intros b H. apply wb_range0 in H. lia.
  - apply (wf_insert v v' b); try done. destruct who as [|t]; cbn in Hm; [by intros _; apply Hm|]. destruct Hm as [[(_ & _ & ?)|(? & _)] _]; done.
  - eapply wf_update; [exact Hw|exact Hb|done|done| | |]; cbv beta.
    + intros b _. by destruct (p b).
    + intros b Hin. destruct (p b); cbn; by apply (wb_global v Hw).
    + intros b1 b2 H1 H2 A1 A2. destruct (p b1); [done|]. destruct (p b2); [done|]. by apply (wb_keys v Hw).
  - eapply wf_update; [exact Hw|exact Hb|done|done| | |]; cbv beta.
    + intros b _. by destruct (p b).
    + intros b Hin. destruct (p b); [done|]. by apply (wb_global v Hw).
    + rewrite existsb_false_forall in Hv.
      assert (Hone : forall c1 c2, In c1 (w_bans v) -> In c2 (w_bans v) -> p c1 = true -> p c2 = false ->
                b_is_active (promoted ip pre c1) = true -> b_is_active c2 = true -> ban_key (promoted ip pre c1) <> ban_key c2).
      { intros c1 c2 H1 H2 P1 P2 A1 A2 E.
        assert (Hv1 : violates (List.filter (fun b => negb (p b)) (w_bans v)) (promoted ip pre c1) = false)
          by (apply Hv, in_map, filter_In; done).
        apply (violates_false _ _ c2 Hv1 A1); [|done|done]. apply filter_In. by rewrite P2. }
      intros b1 b2 H1 H2 A1 A2 E. destruct (p b1) eqn:P1, (p b2) eqn:P2.
      * unfold p in P1, P2. boolify. congruence.
      * by destruct (Hone b1 b2).
      * symmetry in E. by destruct (Hone b2 b1).
      * by apply (wb_keys v Hw).
  - eapply wf_update; [exact Hw|exact Hb|done|done| | |]; cbv beta.
    + intros b _. by destruct (b_id b =? id).
    + intros b Hin. destruct (b_id b =? id); cbn; by apply (wb_global v Hw).
    + intros b1 b2 H1 H2 A1 A2 E. destruct (b_id b1 =? id), (b_id b2 =? id); exact (wb_keys v Hw b1 b2 H1 H2 A1 A2 E).
  - destruct Hw. split; rewrite ?Hb, ?Hn; try done. rewrite He, map_app. apply NoDup_app. split; [done|].
    split; [|apply NoDup_singleton]. intros x Hin Hx'. cbn in Hx'. apply list_elem_of_singleton in Hx' as ->.
    apply list_elem_of_In, in_map_iff in Hin as (e & [= E1 E2] & Hin).
    assert (excluded (w_exclusions v) banId t = true); [|congruence].
    apply existsb_exists. exists e. split; [done|]. by rewrite E1, E2, !Z.eqb_refl.
  - destruct Hw. split; rewrite ?Hb, ?Hn; try done. rewrite He. by apply NoDup_map_filter.
Qed.

Lemma trans_rtc_wf now who w w' : rtc (trans now who) w w' -> wf_bans w -> wf_bans w'.
Proof. induction 1; [done|]. intros Hw. eauto using trans_wf. Qed.

End Invariants.

Ltac rest_kept := unfold rest_same; split_and!; [done|done|apply entries_same].
Ltac silent := apply t_silent; split_and?; cbn; (done || lia || rest_kept).

Section Operations.
Context {PG : PgInet} (en : Env) (who : Who).

(** The store's invariants come with every triple. *)
Definition op {A} (P : World PG -> Prop) (m : M PG A) (Q : A -> World PG -> Prop) : Prop :=
  hoare (trans (en_now en) who) (fun w => wf_bans w /\ P w) m (fun a w => wf_bans w /\ Q a w).

Lemma op_of {A} P (m : M PG A) (Q : A -> World PG -> Prop) :
  hoare (trans (en_now en) who) (fun w => wf_bans w /\ P w) m Q -> op P m Q.
Proof.
  intros H w Hw. destruct (H w Hw) as [H1 H2]. split; [done|]. destruct (fst (m w)); [done|]. split; [|done].
  eapply trans_rtc_wf; [done|]. apply Hw.
Qed.

Lemma op_bind {A B} P (m : M PG A) (k : A -> M PG B) Q S : op P m Q -> (forall a, op (Q a) (k a) S) -> op P (bind m k) S.
Proof. intros Hm Hk. eapply hoare_bind; [exact Hm|exact Hk]. Qed.
Lemma op_weaken {A} P P' (m : M PG A) (Q Q' : A -> World PG -> Prop) :
  op P m Q -> (forall w, wf_bans w -> P' w -> P w) -> (forall a w, Q a w -> Q' a w) -> op P' m Q'.
Proof. intros H HP HQ. eapply hoare_weaken; [exact H| |]; naive_solver. Qed.

(** A predicate that only looks at the rows. *)
Definition on_rows (P : World PG -> Prop) : Prop :=
  forall w w', w_bans w' = w_bans w -> w_exclusions w' = w_exclusions w -> w_directory w' = w_directory w -> P w -> P w'.

Lemma op_ret {A} P (a : A) : op P (ret a) (fun x w => x = a /\ P w).
Proof. apply op_of. eapply hoare_weaken; [apply (hoare_ret _ (fun w => wf_bans w /\ P w))|auto|]. naive_solver. Qed.
Lemma op_throw {A} P e (Q : A -> World PG -> Prop) : op P (throw e) Q.
Proof. unfold op. apply hoare_throw. Qed.
Lemma op_get P : op P get (fun a w => a = w /\ P w).
Proof. apply op_of. eapply hoare_weaken; [apply (hoare_get _ (fun w => wf_bans w /\ P w))|auto|]. naive_solver. Qed.
Lemma op_throw_when P c e : op P (throw_when c e) (fun _ w => c = false /\ P w).
Proof. apply op_of. eapply hoare_weaken; [apply (hoare_throw_when _ (fun w => wf_bans w /\ P w))|auto|]. naive_solver. Qed.
Lemma op_of_option {A} P (o : option A) e : op P (of_option o e) (fun a w => o = Some a /\ P w).
Proof. apply op_of. eapply hoare_weaken; [apply (hoare_of_option _ (fun w => wf_bans w /\ P w))|auto|]. naive_solver. Qed.
Lemma op_of_sum {A} P (o : CodedError + A) : op P (of_sum o) (fun a w => o = inr a /\ P w).
Proof. apply op_of. eapply hoare_weaken; [apply (hoare_of_sum _ (fun w => wf_bans w /\ P w))|auto|]. naive_solver. Qed.
Lemma op_transaction {A} P (m : M PG A) Q : op P m Q -> op P (transaction m) Q.
Proof. apply hoare_transaction. Qed.

(** One transition. *)
Lemma op_step {A} P (m : M PG A) (Q : A -> World PG -> Prop) :
  (forall w, wf_bans w -> P w -> trans (en_now en) who w (snd (m w))
     /\ match fst (m w) with inr a => Q a (snd (m w)) | inl _ => True end) -> op P m Q.
Proof. intros H. apply op_of. intros w [Hw HP]. destruct (H w Hw HP). split; [by apply rtc_once|done]. Qed.

Lemma op_emit P es : on_rows P -> op P (emit es) (fun _ => P).
Proof. intros HP. apply op_step. intros w _ Hw. split; [silent|]. by apply (HP w). Qed.

Lemma op_ensure_infra P : on_rows P -> op P (ensure_infra en) (fun _ => P).
Proof. intros HP. apply op_step. intros w _ Hw. split; [silent|]. by apply (HP w). Qed.

Lemma op_safety P t g tid : on_rows P -> op P (safety_conflict en t g tid) (fun _ => P).
Proof.
  intros HP. apply op_step. intros w _ Hw. unfold safety_conflict. destruct (findBanSafetyConflict _ _ _ _ _) as [c p]. cbn [fst snd].
  split; [silent|]. by apply (HP w).
Qed.

Lemma op_check P raw a i tid : on_rows P -> op P (check_target en raw a i tid) (fun _ => P).
Proof.
  intros HP. apply op_step. intros w _ Hw. unfold check_target. destruct (checkBanTarget _ _ _ _ _ _) as [c p]. cbn [fst snd].
  split; [silent|]. by apply (HP w).
Qed.

Lemma op_membership P u t a : on_rows P -> op P (assertOperatingMembership en u t a) (fun _ => P).
Proof.
  intros HP. unfold assertOperatingMembership. destruct a.
  { eapply op_weaken; [apply op_ret|done|]. naive_solver. }
  destruct (negb (0 <? u)); [apply op_throw|]. eapply op_bind.
  - instantiate (1 := fun _ => P). apply op_step. intros w _ Hw. unfold use_tenant.
    destruct (canUseTenant _ _ _ _ _ _) as [ok c]. cbn [fst snd]. split; [silent|]. by apply (HP w).
  - intros ok. eapply op_weaken; [apply op_throw_when|done|]. naive_solver.
Qed.

Lemma op_deactivate P ids reason :
  (forall w b, wf_bans w -> P w -> In b (w_bans w) -> In (b_id b) ids -> b_is_active b = true -> may_deactivate (en_now en) who b) ->
  op P (deactivateBans en ids reason) (fun _ _ => True).
Proof.
  intros HP. apply op_of. intros w [Hwf Hw]. rewrite deactivateBans_spec. cbn [fst snd]. split; [|done]. unfold deactivate_world.
  destruct (deactivated_rows _ _ _ _) as [|r rows] eqn:E; [constructor|]. apply rtc_once.
  apply (t_deactivate _ _ _ _ (fun b => mem (b_id b) (act_ids ids) && b_is_active b) reason); [done..|unfold rest_same; split_and!; [done|done|]|].
  { cbn [w_blocked with_effects with_blocked]. destruct (bool_decide (reason = L_lift)); [apply disabled_rows|apply entries_same]. }
  intros b Hb Hp. boolify. split; [done|]. apply (HP w); [done..| |done].
  apply mem_In in H. unfold act_ids in H. by apply uniq_in, filter_In in H as [H _].
Qed.

(** A row whose id is among those of the rows matching [p] is one of them. *)
Lemma matched_row w (p : BanRow PG -> bool) b :
  wf_bans w -> In b (w_bans w) -> In (b_id b) (map b_id (List.filter p (w_bans w))) -> p b = true.
Proof.
  intros Hw Hb Hin. apply in_map_iff in Hin as (c & E & Hc). apply filter_In in Hc as [Hc Hp].
  assert (Some c = Some b) as [= ->]; [|done].
  rewrite <- (find_unique b_id _ _ (wb_ids w Hw) Hb), <- E. symmetry. by apply find_unique; [apply Hw|].
Qed.

Lemma op_deactivate_where P p reason :
  (forall w b, wf_bans w -> P w -> In b (w_bans w) -> p b = true -> b_is_active b = true -> may_deactivate (en_now en) who b) ->
  op P (deactivate_where en p reason) (fun _ _ => True).
Proof.
  intros HP. unfold deactivate_where. eapply op_bind; [apply op_get|]. intros w0. cbv beta.
  apply op_deactivate. intros w b Hwf [<- Hw] Hb Hin Ha. eapply HP; [done..| |done]. by eapply matched_row.
Qed.

Lemma op_expireStale P t : op P (expireStale en t) (fun _ _ => True).
Proof.
  unfold expireStale. eapply op_bind; [apply op_get|]. intros w0. cbv beta.
  assert (H : op (fun w => w0 = w /\ P w)
    (deactivateBans en (map b_id (List.filter (fun b => whereSameTarget b t && b_is_active b && past_expiry (en_now en) b) (w_bans w0))) L_expiry)
    (fun _ _ => True)).
  { apply op_deactivate. intros w b Hwf [<- _] Hb Hin Ha. unfold may_deactivate. destruct who; [done|]. right. left.
    apply (matched_row _ _ _ Hwf Hb) in Hin. cbv beta in Hin. by boolify. }
  destruct (map b_id _); [eapply op_weaken; [apply op_ret|done|done]|]. eapply op_bind; [exact H|].
  intros a. eapply op_weaken; [apply op_ret|done|done].
Qed.

Lemma op_insert P mk :
  (forall w, P w -> let b := mk (w_next_ban w) in b_id b = w_next_ban w /\ b_is_active b = true /\ may_insert who b) ->
  op P (insert_ban mk) (fun o w => match o with Some b => In b (w_bans w) | None => True end).
Proof.
  intros H. apply op_step. intros w _ Hw. destruct (H w Hw) as (Hid & Ha & Hm). unfold insert_ban. cbv zeta.
  destruct (violates (w_bans w) (mk (w_next_ban w))) eqn:Ev; cbn [fst snd].
  - split; [silent|done].
  - split; [|cbn; apply in_app_iff; right; by left]. eapply t_insert; try done; cbn; try lia; rest_kept.
Qed.

Lemma op_pure {A} (phi : Prop) P (m : M PG A) Q : (phi -> op P m Q) -> op (fun w => phi /\ P w) m Q.
Proof. intros H w (Hw & Hphi & HP). by apply (H Hphi). Qed.

Lemma op_keep {A} P (a : A) : op P (ret a) (fun _ => P).
Proof. apply (op_weaken P P _ (fun x w => x = a /\ P w)); [apply op_ret|done|]. by intros x w [_ ?]. Qed.
Lemma op_done {A} P (a : A) : op P (ret a) (fun _ _ => True).
Proof. by eapply op_weaken; [apply op_ret| |]. Qed.
Lemma op_emit_done P es : op P (emit es) (fun _ _ => True).
Proof. eapply (op_weaken (fun _ => True)); [by apply op_emit|done|done]. Qed.

End Operations.

Ltac step_with L := eapply op_bind; [eapply L|intros ?; cbv beta].
(** Steps that keep a precondition about rows, or [True]. *)
Ltac pure_step := first [step_with op_get | step_with op_throw_when | step_with op_of_option | step_with op_of_sum].
Ltac keep_step := first
  [ step_with op_membership; [done|] | step_with op_ensure_infra; [done|] | step_with op_safety; [done|]
  | step_with op_check; [done|] | step_with op_emit; [done|] | step_with op_expireStale ].

(** ** Every operation *)

Section Requests.
Context {PG : PgInet} (en : Env).

Lemma create_scope_spec d data t s sid rt :
  BanService.create_scope d data t = inr (s, sid, rt) ->
  (default_tenant t = true /\ s = "global" /\ sid = None /\ rt = None)
  \/ (s = "tenant" /\ default_tenant t = false /\ sid = None /\ rt = Some t)
  \/ ((s = "group" \/ s = "agent") /\ rt = Some t /\ exists i, sid = Some i /\ 0 < i /\ resolveScopeTenant d s (Some i) = Some t).
Proof.
  assert (Hd : inr (if isMasterTenant (Some t) then "global" else "tenant", None,
                if String.eqb (if isMasterTenant (Some t) then "global" else "tenant") "global" then None else Some t)
              = (inr (s, sid, rt) : CodedError + (string * option Z * option Z)) ->
            (default_tenant t = true /\ s = "global" /\ sid = None /\ rt = None)
            \/ (s = "tenant" /\ default_tenant t = false /\ sid = None /\ rt = Some t)).
  { unfold default_tenant. destruct (isMasterTenant (Some t)) eqn:Em; cbn; intros [= <- <- <-]; naive_solver. }
  unfold BanService.create_scope. destruct (nullish_or _ _) as [| | | |str| |]; try done; [intros H; apply Hd in H; naive_solver|].
  destruct (negb _); [done|]. destruct (String.eqb str "group" || String.eqb str "agent") eqn:Eg.
  - destruct (to_number _) as [i|]; [|done]. destruct (Z.leb_spec i 0); [done|].
    match goal with |- context [opt_eq ?o t] => destruct (opt_eq o t) eqn:Eo end; [|by destruct (String.eqb str "agent")].
    intros [= <- <- <-]. right. right. apply orb_true_iff in Eg. rewrite !String.eqb_eq in Eg.
    split; [done|]. split; [done|]. exists i. split_and!; [done|lia|]. unfold opt_eq in Eo. apply bool_decide_eq_true in Eo.
    destruct Eg as [-> | ->]; exact Eo.
  - destruct (_ && _); [done|]. destruct (_ && _); [done|]. intros H. apply Hd in H. naive_solver.
Qed.

Lemma op_create_tx P t scope sid rt expires reason user tid :
  (default_tenant tid = true /\ scope = "global" /\ rt = None) \/ (scope <> "global" /\ rt = Some tid) ->
  op en (Tenant tid) P (create_tx en t scope sid rt expires reason user tid) (fun _ _ => True).
Proof.
  intros Hs. unfold create_tx. apply op_transaction. repeat pure_step.
  destruct (first_preferring _ _) as [dup|]; [destruct (_ && _); apply op_throw|]. pure_step.
  eapply op_bind.
  - apply op_insert. intros w _. cbn [new_ban b_id b_is_active]. split_and!; [done..|]. cbn. naive_solver.
  - intros o. cbv beta. eapply op_weaken; [apply op_of_option|done|done].
Qed.

Lemma op_create data user tid admin defer checked :
  op en (Tenant tid) (fun _ => True) (BanService.create en data user tid admin defer checked) (fun _ _ => True).
Proof.
  unfold BanService.create. eapply op_bind with (Q := fun _ _ => True).
  { destruct checked; [apply op_done|by apply op_membership]. }
  intros _. pure_step. destruct (parseBanTarget _ _ _) as [t|]; [|apply op_throw]. pure_step. pure_step.
  destruct a1 as [[scope sid] rt]. apply op_pure. intros Hs.
  eapply op_weaken with (P := fun _ => True); [|done|done].
  keep_step. keep_step. step_with (@op_throw_when _ en (Tenant tid) (fun _ => True)).
  pure_step. keep_step. eapply op_bind.
  { apply op_create_tx. apply create_scope_spec in Hs. naive_solver. }
  intros row. cbv beta. keep_step. keep_step. apply op_done.
Qed.

Lemma op_promote id user tid admin :
  op en (Tenant tid) (fun _ => True) (promoteToGlobal en id tid user admin) (fun _ _ => True).
Proof.
  unfold promoteToGlobal. eapply op_bind; [apply op_throw_when|]. intros ?. cbv beta. apply op_pure. intros Ht. apply negb_false_iff in Ht.
  keep_step. do 4 pure_step. destruct (parseBanTarget _ _ _) as [t|]; [|apply op_throw].
  eapply op_weaken with (P := fun _ => True); [|done|done]. keep_step. keep_step. step_with (@op_throw_when _ en (Tenant tid) (fun _ => True)).
  keep_step. eapply op_bind with (Q := fun _ _ => True).
  - unfold promote_tx. apply op_transaction. do 5 pure_step. eapply op_bind.
    + instantiate (1 := fun _ _ => True). apply op_step. intros w _ _. unfold rekey_ban.
      destruct (existsb _ _) eqn:Ev; cbn [fst snd]; [split; [silent|done]|]. split; [|done].
      eapply (t_promote _ _ _ _ tid id); first [done | rest_kept].
    + intros o. cbv beta. pure_step. eapply op_weaken; [apply op_of_option|done|done].
  - intros row. cbv beta. keep_step. keep_step. apply op_done.
Qed.

Lemma op_exclude tid P banId by_ :
  on_rows (fun w => P (w_bans w)) ->
  op en (Tenant tid) (fun w => P (w_bans w)) (insert_exclusion banId tid by_) (fun _ w => P (w_bans w)).
Proof.
  intros _. apply op_step. intros w _ Hw. unfold insert_exclusion. destruct (excluded (w_exclusions w) banId tid) eqn:E; cbn [fst snd].
  - split; [silent|done].
  - split; [|done]. eapply (t_exclude _ _ _ _ tid banId by_); first [done | rest_kept].
Qed.

(** The plan of a lift is within the tenant's authority. *)
Lemma planLift_allowed (b : BanRow PG) t :
  planLift b t = Plan Act_deactivate -> b_is_active b = true /\ may_deactivate (en_now en) (Tenant t) b.
Proof.
  unfold planLift, may_deactivate, default_tenant. destruct (isMasterTenant (Some t)); [destruct (b_is_active b); naive_solver|].
  destruct (negb _); [done|]. destruct (String.eqb_spec (b_scope b) "global"); [by destruct (b_is_active b)|].
  destruct (opt_eq (b_tenant_id b) t) eqn:Eo; cbn [negb]; [|done]. unfold opt_eq in Eo. apply bool_decide_eq_true in Eo.
  destruct (b_is_active b); [|done]. intros _. split; [done|]. by right; right.
Qed.

Lemma found_row (w : World PG) id b b' :
  wf_bans w -> List.find (fun b => b_id b =? id) (w_bans w) = Some b -> In b' (w_bans w) -> b_id b' = id -> b' = b.
Proof.
  intros Hw Hf Hb E. rewrite <- E in Hf. rewrite (find_unique b_id _ _ (wb_ids w Hw) Hb) in Hf. congruence.
Qed.

Lemma op_lift id user tid admin writable :
  op en (Tenant tid) (fun _ => True) (lift en id tid user admin writable) (fun _ _ => True).
Proof.
  unfold lift. keep_step. do 3 pure_step. destruct (planLift a1 tid) as [[]|e] eqn:Ep; [| |apply op_throw].
  - eapply op_bind.
    + apply op_deactivate. intros w b Hwf (_ & Hf & <- & _) Hb [->|[]] Ha.
      rewrite (found_row _ _ _ _ Hwf Hf Hb eq_refl). by apply planLift_allowed.
    + intros rows. cbv beta. eapply op_weaken; [apply op_throw_when|done|done].
  - eapply op_bind with (Q := fun _ _ => True).
    + eapply op_weaken with (P := fun w => True); [by apply (op_exclude tid (fun _ => True))|done|done].
    + intros _. apply op_emit_done.
Qed.

Lemma op_insert_exclusions P ids tid by_ :
  on_rows (fun w => P (w_bans w)) ->
  op en (Tenant tid) (fun w => P (w_bans w)) (insert_exclusions ids tid by_) (fun _ w => P (w_bans w)).
Proof.
  intros HP. induction ids as [|id ids IH]; cbn [insert_exclusions]; [apply op_keep|].
  eapply op_bind; [by apply op_exclude|]. intros ok. cbv beta. eapply op_bind; [exact IH|]. intros l. cbv beta.
  apply op_keep.
Qed.

Lemma lift_sort_spec byId tid ids r ex de :
  (forall id b, byId id = Some b -> b_id b = id) ->
  forall id, In id (snd (fold_left (lift_sort (PG := PG) byId tid) ids (r, ex, de))) ->
  In id de \/ exists b, byId id = Some b /\ planLift b tid = Plan Act_deactivate.
Proof.
  intros Hid. revert r ex de. induction ids as [|i ids IH]; intros r ex de id Hin; [by left|].
  cbn [fold_left] in Hin. unfold lift_sort at 2 in Hin. destruct (byId i) as [b|] eqn:Eb; [|by eapply IH].
  destruct (planLift b tid) as [[]|e] eqn:Ep; [|by eapply IH|by eapply IH]. apply IH in Hin as [Hin|?]; [|by right].
  apply in_app_iff in Hin as [?|[<-|[]]]; [by left|]. right. by exists b.
Qed.

Lemma op_bulkLift ids user tid admin writable :
  op en (Tenant tid) (fun _ => True) (bulkLift en ids tid user admin writable) (fun _ _ => True).
Proof.
  unfold bulkLift. keep_step. eapply op_bind; [apply op_get|]. intros w0. cbv beta zeta.
  set (byId := fun id => List.find _ (rev _)).
  destruct (fold_left _ _ _) as [[r ex] de] eqn:Ef.
  assert (Hby : forall id b, byId id = Some b -> b_id b = id /\ In b (w_bans w0)).
  { intros id b Hb. apply find_some in Hb as [Hin E]. apply Z.eqb_eq in E. split; [done|].
    apply in_rev in Hin. by do 2 apply filter_In in Hin as [Hin _]. }
  assert (Hde : forall id, In id de -> exists b, byId id = Some b /\ planLift b tid = Plan Act_deactivate).
  { intros id Hin. destruct (lift_sort_spec byId tid (uniq ids) no_lift [] [] (fun id b H => proj1 (Hby id b H)) id) as [[]|?]; [|done].
    rewrite Ef. exact Hin. }
  eapply op_bind with (Q := fun _ w => w_bans w = w_bans w0).
  - unfold bulk_exclude. destruct ex as [|b ex]; [eapply op_weaken; [apply (op_keep _ _ (fun w => w_bans w = w_bans w0))|by intros w _ [<- _]|done]|].
    eapply op_bind.
    + eapply op_weaken; [apply (op_insert_exclusions (fun bs => bs = w_bans w0)); by intros ??->|by intros w _ [<- _]|done].
    + intros fresh. cbv beta zeta. eapply op_bind; [apply op_emit; by intros ??->|]. intros ?. cbv beta.
      apply op_keep.
  - intros r'. cbv beta. unfold bulk_deactivate. destruct de as [|i de]; [apply op_done|]. eapply op_bind.
    + apply op_deactivate. intros w b Hwf Hw Hb Hin Ha. destruct (Hde (b_id b) Hin) as (b' & Hb' & Hp).
      apply Hby in Hb' as [Ei Hb']. rewrite <- Hw in Hb'.
      assert (Some b = Some b') as [= ->]; [|by apply planLift_allowed].
      rewrite <- (find_unique b_id _ _ (wb_ids w Hwf) Hb'), Ei. symmetry. by apply find_unique; [apply Hwf|].
    + intros rows. cbv beta zeta. apply op_done.
Qed.

Lemma op_excludeForTenant id user tid admin :
  op en (Tenant tid) (fun _ => True) (excludeForTenant en id tid user admin) (fun _ _ => True).
Proof.
  unfold excludeForTenant. keep_step. do 5 pure_step. eapply op_bind with (Q := fun _ _ => True).
  - eapply op_weaken with (P := fun w => True); [by apply (op_exclude tid (fun _ => True))|done|done].
  - intros _. apply op_emit_done.
Qed.

Lemma op_removeExclusion id tid : op en (Tenant tid) (fun _ => True) (removeExclusion en id tid) (fun _ _ => True).
Proof.
  unfold removeExclusion. do 2 pure_step. eapply op_bind with (Q := fun _ _ => True).
  - apply op_step. intros w _ _. split; [|done]. eapply (t_include _ _ _ _ tid id); first [done | rest_kept].
  - intros _. keep_step. destruct (List.find _ _) as [b|]; [|apply op_done]. destruct (b_is_active b); [apply op_emit_done|apply op_done].
Qed.

Lemma op_system_where p reason : op en System (fun _ => True) (deactivate_where (PG := PG) en p reason) (fun _ _ => True).
Proof. by apply op_deactivate_where. Qed.

Lemma op_external args : op en System (fun _ => True) (createFromExternal (PG := PG) en args) (fun _ _ => True).
Proof.
  unfold createFromExternal. keep_step. keep_step. destruct a0 as [target|]; [|apply op_throw]. do 3 pure_step. keep_step.
  eapply op_bind with (Q := fun _ _ => True).
  - apply op_transaction. unfold external_tx. pure_step. destruct (first_preferring _ _) as [cur|].
    + destruct (String.eqb _ _); [|apply op_done]. eapply op_bind with (Q := fun _ _ => True).
      * apply op_step. intros w _ _. split; [|done]. eapply (t_refresh _ _ _ _ (b_id cur)); first [done | rest_kept].
      * intros rows. cbv beta. pure_step. apply op_done.
    + pure_step. eapply op_bind.
      * apply op_insert. intros w _. split_and!; [done..|]. cbn. by split.
      * intros o. cbv beta. apply op_done.
  - intros o. cbv beta. eapply op_bind with (Q := fun _ _ => True).
    + destruct o; [apply op_done|]. do 2 pure_step. apply op_done.
    + intros res. cbv beta zeta. keep_step. apply op_done.
Qed.

Lemma op_insert_ignore mks :
  (forall mk, In mk mks -> forall n, b_id (mk n) = n /\ b_is_active (mk n) = true /\ may_insert System (mk n)) ->
  op en System (fun _ => True) (insert_ignore (PG := PG) mks) (fun _ _ => True).
Proof.
  induction mks as [|mk mks IH]; intros H; cbn [insert_ignore]; [apply op_done|]. eapply op_bind with (Q := fun _ _ => True).
  - eapply op_weaken; [apply op_insert|done|done]. intros w _. apply H. by left.
  - intros x. cbv beta. eapply op_bind; [apply IH; intros mk' Hm; apply H; by right|]. intros l. apply op_done.
Qed.

Lemma op_remote targets o : op en System (fun _ => True) (createRemoteBans (PG := PG) en targets o) (fun _ _ => True).
Proof.
  unfold createRemoteBans. eapply op_bind with (Q := fun _ _ => True).
  - induction (chunks REMOTE_INSERT_CHUNK targets) as [|c cs IH]; cbn [remote_chunks]; [apply op_done|].
    eapply op_bind with (Q := fun _ _ => True).
    + unfold remote_chunk. do 2 pure_step. eapply op_weaken with (P := fun _ => True); [apply op_insert_ignore|done|done].
      intros mk Hm n. apply in_map_iff in Hm as (r & <- & _). split_and!; [done..|]. by split.
    + intros l. cbv beta. eapply op_bind; [exact IH|]. intros rest. apply op_done.
  - intros created. destruct created; [apply op_done|]. cbv beta. keep_step. apply op_done.
Qed.

End Requests.

(** ** Requests *)

Inductive TenantOp :=
| T_create (data : js) (userId : Z) (isAdmin deferMikrotik membershipChecked : bool)
| T_promote (banId userId : Z) (isAdmin : bool)
| T_lift (banId userId : Z) (isAdmin : bool) (writable : TeamScope)
| T_bulkLift (ids : list Z) (userId : Z) (isAdmin : bool) (writable : TeamScope)
| T_exclude (banId userId : Z) (isAdmin : bool)
| T_include (banId : Z).

Inductive SystemOp :=
| Y_wipe | Y_expire | Y_withdraw (ip sourceApp : string) | Y_external (args : ExternalArgs)
| Y_remote (targets : list RemoteTarget) (o : RemoteOptions) | Y_deactivateRemote (originRef : string).

Section Serve.
Context {PG : PgInet}.

Definition run_tenant (en : Env) (t : Z) (q : TenantOp) (w : World PG) : World PG :=
  match q with
  | T_create data user admin defer checked => snd (BanService.create en data user t admin defer checked w)
  | T_promote id user admin => snd (promoteToGlobal en id t user admin w)
  | T_lift id user admin writable => snd (lift en id t user admin writable w)
  | T_bulkLift ids user admin writable => snd (bulkLift en ids t user admin writable w)
  | T_exclude id user admin => snd (excludeForTenant en id t user admin w)
  | T_include id => snd (removeExclusion en id t w)
  end.

Definition run_system (en : Env) (q : SystemOp) (w : World PG) : World PG :=
  match q with
  | Y_wipe => snd (wipeAll en w)
  | Y_expire => snd (expireBans en w)
  | Y_withdraw ip app => snd (withdrawExternal en ip app w)
  | Y_external args => snd (createFromExternal en args w)
  | Y_remote targets o => snd (createRemoteBans en targets o w)
  | Y_deactivateRemote ref => snd (deactivateRemoteBans en ref w)
  end.

Lemma op_trans {A} en who (m : M PG A) Q w :
  op en who (fun _ => True) m Q -> wf_bans w -> rtc (trans (en_now en) who) w (snd (m w)).
Proof. intros H Hw. by apply H. Qed.

Lemma run_tenant_trans en t q w : wf_bans w -> rtc (trans (en_now en) (Tenant t)) w (run_tenant en t q w).
Proof.
  intros Hw. destruct q; cbn [run_tenant]; eapply op_trans;
    eauto using op_create, op_promote, op_lift, op_bulkLift, op_excludeForTenant, op_removeExclusion.
Qed.

Lemma op_count en (m : M PG (list (BanRow PG))) :
  op en System (fun _ => True) m (fun _ _ => True) ->
  op en System (fun _ => True) (bind m (fun rows => ret (count_of rows))) (fun _ _ => True).
Proof. intros H. eapply op_bind; [exact H|]. intros rows. apply op_done. Qed.

Lemma run_system_trans en q w : wf_bans w -> rtc (trans (en_now en) System) w (run_system en q w).
Proof.
  intros Hw. destruct q; cbn [run_system]; eapply op_trans; eauto using op_external, op_remote;
    try (apply op_count, op_system_where).
  unfold withdrawExternal. destruct (parse_text ip) as [p|]; [|apply op_throw].
  destruct (negb _); [apply op_throw|]. apply op_count, op_system_where.
Qed.

(** C5. Authority: whatever a request is and however it ends, every change a tenant's
    request makes to the ban store is one its tenant may make. A tenant other than Default
    only adds manual rows of its own below the global scope, deactivates its own rows (or
    rows already expired) and toggles its own exclusions; entries of blocklists are at most
    disabled; only Default mints or promotes global rows; the jobs and imports only add global
    rows, extend external ones and deactivate. *)
Theorem operations_within_authority en w (Hw : wf_bans w) :
  (forall t q, rtc (trans (en_now en) (Tenant t)) w (run_tenant en t q w))
  /\ (forall q, rtc (trans (en_now en) System) w (run_system en q w)).
Proof. split; intros; [by apply run_tenant_trans|by apply run_system_trans]. Qed.

(** ** The store stays consistent *)

Inductive Request := By_tenant (t : Z) (q : TenantOp) | By_system (q : SystemOp).
Definition serve_ban (w : World PG) (r : Env * Request) : World PG :=
  match snd r with By_tenant t q => run_tenant (fst r) t q w | By_system q => run_system (fst r) q w end.

(** C10. Whatever requests arrive, in whatever order and at whatever times, the ban store
    keeps its keys: distinct ids, at most one active row per target, scope and tenant (no
    operation ever leaves two, and the unique index of migration 032 is never in the way of
    a later one), no owner on a global row, one exclusion per ban and tenant. *)
Theorem ban_store_consistent w (requests : list (Env * Request)) (Hw : wf_bans w) :
  wf_bans (fold_left serve_ban requests w).
Proof.
  revert w Hw. induction requests as [|[en [t q|q]] l IH]; intros w Hw; [done|apply IH..]; cbn [serve_ban fst snd].
  - eapply trans_rtc_wf; [by apply run_tenant_trans|done].
  - eapply trans_rtc_wf; [by apply run_system_trans|done].
Qed.

(** ** Tenants are isolated *)

Lemma filter_map_same {A} (p p' : A -> bool) (f : A -> A) l :
  (forall x, In x l -> if p x then f x = x /\ p' x = true else p' (f x) = false) -> List.filter p' (map f l) = List.filter p l.
Proof.
  induction l as [|a l IH]; intros H; [done|]. cbn [map List.filter].
  rewrite IH by (intros x Hx; apply H; by right). specialize (H a (or_introl eq_refl)).
  destruct (p a); [destruct H as [-> ->]; done|by rewrite H].
Qed.

Definition in_force (later : Z) (w : World PG) (deviceId : Z) (groupIds : list Z) (u : Z) : list (BanRow PG) :=
  List.filter (ban_applies later w deviceId groupIds u) (w_bans w).

Lemma not_active_applies later w d g u (b : BanRow PG) : b_is_active b = false -> ban_applies later w d g u b = false.
Proof. unfold ban_applies. by intros ->. Qed.
Lemma expired_applies now later w d g u (b : BanRow PG) : now <= later -> past_expiry now b = true -> ban_applies later w d g u b = false.
Proof.
  unfold ban_applies, past_expiry. intros Hle H. destruct (b_expires_at b) as [e|]; [|done]. boolify.
  rewrite (proj2 (Z.ltb_ge later e)) by lia. by rewrite andb_false_r.
Qed.
Lemma foreign_applies later w d g u t (b : BanRow PG) :
  b_scope b <> "global" -> b_tenant_id b = Some t -> u <> t -> ban_applies later w d g u b = false.
Proof.
  unfold ban_applies, opt_eq. intros Hs Ht Hu. rewrite (proj2 (String.eqb_neq _ _)) by done.
  rewrite Ht, (bool_decide_false (Some t = Some u)) by congruence. cbn [orb andb]. by rewrite ?andb_false_r.
Qed.

Lemma applies_ext later (w w' : World PG) d g u b :
  w_whitelist w' = w_whitelist w -> excluded (w_exclusions w') (b_id b) u = excluded (w_exclusions w) (b_id b) u ->
  ban_applies later w' d g u b = ban_applies later w d g u b.
Proof. unfold ban_applies. by intros -> ->. Qed.

Lemma trans_isolated now later t w w' d g u :
  trans now (Tenant t) w w' -> default_tenant t = false -> u <> t -> now <= later ->
  in_force later w' d g u = in_force later w d g u.
Proof.
  intros H Ht Hu Hle. unfold in_force.
  destruct H as [w w' Hb He _ [Hwl _]|w w' b Hb He _ [Hwl _] _ _ _ Hm|w w' p reason Hb He _ [Hwl _] Hp|w w' t' id ip pre [= <-] Hd
         |w w' id expires app [=]|w w' t' banId by_ [= <-] Hb Hx He _ [Hwl _]|w w' t' banId [= <-] Hb He _ [Hwl _]].
  - rewrite Hb. apply filter_ext. intros b. apply applies_ext; [done|by rewrite He].
  - rewrite Hb, List.filter_app. cbn [List.filter].
    assert (Hf : ban_applies later w' d g u b = false).
    { destruct Hm as [[(Hm & _)|[Hs Hten]] _]; [congruence|]. by eapply foreign_applies. }
    rewrite Hf, app_nil_r. apply filter_ext. intros c. apply applies_ext; [done|by rewrite He].
  - rewrite Hb. apply filter_map_same. intros b Hin. destruct (p b) eqn:Ep.
    + destruct (Hp b Hin Ep) as [_ [Hm|[Hm|[Hs Hten]]]]; [congruence| |].
      * rewrite (expired_applies now) by done. by apply not_active_applies.
      * rewrite (foreign_applies later w d g u t) by done. by apply not_active_applies.
    + assert (E : ban_applies later w' d g u b = ban_applies later w d g u b) by (apply applies_ext; [done|by rewrite He]).
      rewrite E. by destruct (ban_applies later w d g u b).
  - congruence.
  - rewrite Hb. apply filter_ext. intros b. apply applies_ext; [done|]. rewrite He. unfold excluded. rewrite existsb_app.
    cbn [existsb ex_ban_id ex_tenant_id]. rewrite (proj2 (Z.eqb_neq t u)) by done. by rewrite andb_false_r, !orb_false_r.
  - rewrite Hb. apply filter_ext. intros b. apply applies_ext; [done|]. rewrite He. unfold excluded.
    generalize (w_exclusions w). intros xs. induction xs as [|e l IH]; [done|]. cbn [List.filter existsb].
    destruct ((ex_ban_id e =? banId) && (ex_tenant_id e =? t)) eqn:E; cbn [negb].
    + boolify. rewrite IH. rewrite H0, (proj2 (Z.eqb_neq t u)) by done. by rewrite andb_false_r.
    + cbn [existsb]. by rewrite IH.
Qed.

(** C1. Tenant isolation of enforcement: whatever sequence of ban requests a tenant other
    than Default sends, and however each ends, what any device of another tenant is told to
    enforce at any later time is exactly what it would have been told without them. *)
Theorem tenant_enforcement_isolated t (requests : list (Env * TenantOp)) w later
    (Hw : wf_bans w) (Ht : default_tenant t = false) (Hnow : Forall (fun r => en_now (fst r) <= later) requests) :
  let w' := fold_left (fun w r => run_tenant (fst r) t (snd r) w) requests w in
  forall u deviceId groupIds unsafe capabilities current cidr, u <> t ->
    computeBanDelta later w' unsafe capabilities deviceId groupIds u current cidr
    = computeBanDelta later w unsafe capabilities deviceId groupIds u current cidr.
Proof.
  cbv zeta. intros u deviceId groupIds unsafe capabilities current cidr Hu. unfold computeBanDelta.
  fold (in_force later (fold_left (fun w r => run_tenant (fst r) t (snd r) w) requests w) deviceId groupIds u).
  fold (in_force later w deviceId groupIds u). f_equal. f_equal.
  revert w Hw. induction Hnow as [|[en q] l Hle _ IH]; intros w Hw; [done|]. cbn [fold_left fst snd].
  pose proof (run_tenant_trans en t q w Hw) as Hr. rewrite IH by (by eapply trans_rtc_wf).
  clear IH. revert Hr. generalize (run_tenant en t q w). intros w1 Hr. induction Hr as [|w w2 w3 Hs _ IHr]; [done|].
  rewrite IHr by (by eapply trans_wf). by eapply trans_isolated.
Qed.

End Serve.

(** ** A sample store *)

(** A global ban raised by tenant 3, one scoped to tenant 3, one on device 6 of tenant 4,
    and a lifted one; tenant 4 already ignores the global ban. *)
Definition sample_bans : World TextPg :=
  {| w_bans := [ sample_ban 1 (sample_inet 3405803776 32) (Some 24) "global" None None (Some 3);
                 sample_ban 2 (sample_inet 1249763844 32) (Some 32) "tenant" None (Some 3) (Some 3);
                 sample_ban 3 (sample_inet 1249763845 32) (Some 32) "agent" (Some 6) (Some 4) (Some 4);
                 deactivated 5 L_lift (sample_ban 4 (sample_inet 3405803776 32) (Some 24) "global" None None (Some 3)) ];
     w_next_ban := 5;
     w_exclusions := [ {| ex_ban_id := 1; ex_tenant_id := 4; ex_created_by := None |} ];
     w_whitelist := w_whitelist sample_world; w_next_whitelist := 4; w_blocked := []; w_directory := sample_dir;
     w_caches := {| accessCache := ∅; existsCache := ∅ |}; w_protected := sample_protected; w_effects := [] |}.

Lemma sample_bans_wf : wf_bans sample_bans.
Proof.
  split; [apply (bool_decide_unpack _); vm_compute; exact I| |apply (bool_decide_unpack _); vm_compute; exact I| |
          |apply (bool_decide_unpack _); vm_compute; exact I].
  - intros b [<-|[<-|[<-|[<-|[]]]]]; cbn; lia.
  - intros b1 b2 [<-|[<-|[<-|[<-|[]]]]] [<-|[<-|[<-|[<-|[]]]]]; vm_compute; congruence.
  - intros b [<-|[<-|[<-|[<-|[]]]]]; vm_compute; congruence.
Qed.

Definition sample_requests : list (Env * TenantOp) :=
  [ (sample_env, T_lift 1 7 false Ids_all); (sample_env, T_bulkLift [1; 2; 3; 9] 7 true Ids_all); (sample_env, T_exclude 1 7 true) ].

(** Tenant 4 lifts: its own ban goes, the global one is only ignored by it. *)
Lemma operations_within_authority_witness :
  rtc (trans (en_now sample_env) (Tenant 4)) sample_bans (run_tenant sample_env 4 (T_bulkLift [1; 2; 3; 9] 7 true Ids_all) sample_bans)
  /\ map b_is_active (w_bans (run_tenant sample_env 4 (T_bulkLift [1; 2; 3; 9] 7 true Ids_all) sample_bans)) = [true; true; false; false].
Proof.
  split; [|vm_compute; reflexivity].
  apply (proj1 (operations_within_authority sample_env sample_bans sample_bans_wf)).
Defined.

Lemma ban_store_consistent_witness :
  wf_bans (fold_left serve_ban [ (sample_env, By_tenant 1 (T_promote 2 7 true)); (sample_env, By_system Y_expire) ] sample_bans).
Proof. apply (ban_store_consistent sample_bans _ sample_bans_wf). Defined.

Lemma tenant_enforcement_isolated_witness :
  computeBanDelta 1000000000000000000 (fold_left (fun w r => run_tenant (fst r) 4 (snd r) w) sample_requests sample_bans) [] JNull 5 [20] 3 [] (Some true)
  = computeBanDelta 1000000000000000000 sample_bans [] JNull 5 [20] 3 [] (Some true).
Proof.
  exact (tenant_enforcement_isolated 4 sample_requests sample_bans 1000000000000000000 sample_bans_wf eq_refl
    ltac:(repeat constructor; vm_compute; discriminate) 3 5 [20] [] JNull [] _ ltac:(lia)).
Defined.
