(* ===== verification/BanLift.v ===== *)
(** * What a Lift does

    The single Lift rule end to end: what the Bans tab announces ([liftAction]) is what
    [lift] does and what the devices of the tenant then enforce, a bulk Lift is accounted
    for row by row, and a deactivation reports and announces exactly the rows it changed. *)

From S2P Require Import Prelude JsString JsValue JsNumber IpValidation ProtectedIps Tenancy Access SocketRooms PgInet Store Whitelist BanRules BanService BanAuthority.

Section Lift.
Context {PG : PgInet}.

Lemma bind_run {A B} (m : M PG A) (k : A -> M PG B) w a w' : m w = (inr a, w') -> bind m k w = k a w'.
Proof. unfold bind. by intros ->. Qed.

(** The membership check only touches the tenant caches. *)
Lemma membership_rows en user t adm (w w0 : World PG) r :
  assertOperatingMembership en user t adm w = (r, w0) -> exists c, w0 = with_caches c w.
Proof.
  unfold assertOperatingMembership, use_tenant, throw_when, bind, ret, throw.
  assert (E : w = with_caches (w_caches w) w) by by destruct w.
  destruct adm; [intros [= _ <-]; eauto|]. destruct (negb (0 <? user)); [intros [= _ <-]; eauto|].
  destruct (canUseTenant _ _ _ _ _ _) as [ok c]. destruct (negb ok); intros [= _ <-]; eauto.
Qed.

Lemma writable_page d (rows page : list (BanRow PG)) b allowed :
  In b page ->
  mem (b_id b) (teamWritableBanIds d rows (map b_id page) allowed) = mem (b_id b) (teamWritableBanIds d rows [b_id b] allowed).
Proof.
  intros Hin. assert (Hm : In (b_id b) (map b_id page)) by by apply in_map.
  destruct allowed as [|l]; cbn [teamWritableBanIds].
  - rewrite (proj2 (mem_In _ _) Hm). symmetry. apply mem_In. by left.
  - destruct (map b_id page) as [|i ids] eqn:Ep; [done|]. rewrite <- Ep in *. clear Ep.
    apply eq_bool_prop_intro. rewrite !Is_true_true, !mem_In, !in_map_iff.
    split; intros (r & E & Hr); exists r; (split; [done|]); apply filter_In in Hr as [Hr H]; apply filter_In; (split; [done|]);
      boolify; apply andb_true_iff; (split; [|done]); apply mem_In; [left|rewrite E]; by rewrite ?E.
Qed.

Lemma id_inj (w : World PG) b r : wf_bans w -> In b (w_bans w) -> In r (w_bans w) -> b_id r = b_id b -> r = b.
Proof.
  intros Hw Hb Hr E. pose proof (find_unique b_id _ _ (wb_ids w Hw) Hb) as H1. pose proof (find_unique b_id _ _ (wb_ids w Hw) Hr) as H2.
  rewrite E in H2. congruence.
Qed.

(** One row lifted. *)
Definition lifted_row (now : Z) (id : Z) (r : BanRow PG) : BanRow PG := if b_id r =? id then deactivated now L_lift r else r.

Lemma lift_one en (w : World PG) b :
  wf_bans w -> In b (w_bans w) -> b_is_active b = true ->
  deactivated_rows (en_now en) L_lift [b_id b] (w_bans w) <> []
  /\ w_bans (deactivate_world en L_lift [b_id b] w) = map (lifted_row (en_now en) (b_id b)) (w_bans w)
  /\ w_exclusions (deactivate_world en L_lift [b_id b] w) = w_exclusions w.
Proof.
  intros Hw Hb Ha. pose proof (wb_range w Hw b Hb) as Hpos.
  assert (Hin : In (deactivated (en_now en) L_lift b) (deactivated_rows (en_now en) L_lift [b_id b] (w_bans w)))
    by (apply deactivated_rows_In; exists b; split_and!; (done || lia || by left)).
  unfold deactivate_world. destruct (deactivated_rows _ _ _ _) as [|r rows]; [done|]. split_and!; [done| |done].
  cbn [w_bans with_effects with_blocked with_bans]. apply map_ext_in. intros r' Hr'. unfold deact, lifted_row, act_ids.
  cbn [List.filter]. rewrite (proj2 (Z.ltb_lt 0 (b_id b))) by lia. change (mem (b_id r') (uniq [b_id b])) with ((b_id r' =? b_id b) || false).
  rewrite orb_false_r. destruct (Z.eqb_spec (b_id r') (b_id b)) as [E|]; [|done].
  rewrite (id_inj w b r') by done. by rewrite Ha.
Qed.

Lemma lifted_not_applies now later w d g t id (rows : list (BanRow PG)) b :
  In b (map (lifted_row now id) rows) -> b_id b = id -> ban_applies later w d g t b = false.
Proof.
  intros Hin <-. apply in_map_iff in Hin as (r & E & _). apply not_active_applies. revert E. unfold lifted_row.
  destruct (Z.eqb_spec (b_id r) (b_id b)) as [|Hne]; [by intros <-|]. by intros ->.
Qed.

Lemma insert_exclusion_run banId t by_ (w : World PG) :
  exists ok w', insert_exclusion banId t by_ w = (inr ok, w') /\ w_bans w' = w_bans w
    /\ (forall i u, excluded (w_exclusions w') i u = excluded (w_exclusions w) i u || ((i =? banId) && (u =? t))).
Proof.
  unfold insert_exclusion. destruct (excluded (w_exclusions w) banId t) eqn:E.
  - exists false, w. split_and!; [done..|]. intros i u. destruct (Z.eqb_spec i banId) as [->|]; [|by rewrite orb_false_r].
    destruct (Z.eqb_spec u t) as [->|]; [by rewrite E|by rewrite orb_false_r].
  - eexists true, _. split; [done|]. split; [done|]. intros i u. cbn [w_exclusions with_exclusions]. unfold excluded.
    rewrite existsb_app. cbn [existsb ex_ban_id ex_tenant_id]. by rewrite orb_false_r, (Z.eqb_sym banId), (Z.eqb_sym t).
Qed.

Lemma planned_active (b : BanRow PG) t a : planLift b t = Plan a -> b_is_active b = true.
Proof. unfold planLift. destruct (b_is_active b); [done|]. by repeat case_match. Qed.

(** [lift] once the membership check has passed. *)
Lemma lift_run en (w w0 : World PG) b t user adm writable :
  wf_bans w -> In b (w_bans w) -> assertOperatingMembership en user t adm w = (inr tt, w0) ->
  lift en (b_id b) t user adm writable w
  = (throw_when (negb (mem (b_id b) (teamWritableBanIds (w_directory w) (w_bans w) [b_id b] writable))) BAN_NOT_FOUND >>
     match planLift b t with
     | Plan_refuse e => throw e
     | Plan Act_exclude =>
         insert_exclusion (b_id b) t (Some user) >>
         emit (excluded_events (en_io en) BAN_EXCLUDED (b_id b) t ++ [Push (deliveredBanTarget b true) A_unban (Some (Some t))])
     | Plan Act_deactivate =>
         lifted <- deactivateBans en [b_id b] L_lift ;;
         throw_when (match lifted with [] => true | _ => false end) BAN_INACTIVE
     end)%mon w0.
Proof.
  intros Hw Hb Hm. unfold lift. rewrite (bind_run _ _ _ _ _ Hm). destruct (membership_rows _ _ _ _ _ _ _ Hm) as [c ->].
  unfold bind at 1. cbn [get]. unfold get. cbn [with_caches w_bans w_directory].
  by rewrite (find_unique b_id _ _ (wb_ids w Hw) Hb).
Qed.

(** C4. The Lift button keeps its word. For a row of the Bans tab and a member of the
    operating tenant: when the list announces an action, [lift] succeeds; afterwards no
    device of the tenant, in whatever groups and at any later time, has that ban to enforce;
    "deactivate" ends the row and nothing else, "exclude" changes no row and adds only this
    tenant's exclusion. When the list announces none on an active row, [lift] is refused and
    changes neither rows nor exclusions. *)
Theorem lift_honours_list en (w w0 : World PG) page o user adm b
    (Hw : wf_bans w) (Hb : In b (w_bans w)) (Hp : In b page)
    (Hm : assertOperatingMembership en user (bl_tenantId o) adm w = (inr tt, w0)) :
  let t := bl_tenantId o in
  let outcome := lift en (b_id b) t user adm (bl_writableAgentIds o) w in
  match li_liftAction (list_item (en_now en) w page o b) with
  | Some a =>
      fst outcome = inr tt
      /\ (forall later deviceId groupIds b', In b' (w_bans (snd outcome)) -> b_id b' = b_id b ->
            ban_applies later (snd outcome) deviceId groupIds t b' = false)
      /\ match a with
         | Act_deactivate =>
             w_bans (snd outcome) = map (lifted_row (en_now en) (b_id b)) (w_bans w)
             /\ w_exclusions (snd outcome) = w_exclusions w
         | Act_exclude =>
             w_bans (snd outcome) = w_bans w
             /\ forall i u, excluded (w_exclusions (snd outcome)) i u
                            = excluded (w_exclusions w) i u || ((i =? b_id b) && (u =? t))
         end
  | None =>
      row_state (en_now en) b = S_active ->
      (exists e, fst outcome = inl e) /\ w_bans (snd outcome) = w_bans w /\ w_exclusions (snd outcome) = w_exclusions w
  end.
Proof.
  cbv zeta. set (out := lift en (b_id b) _ user adm _ w).
  pose proof (lift_run en w w0 b _ user adm (bl_writableAgentIds o) Hw Hb Hm) as Ho. fold out in Ho. clearbody out.
  destruct (membership_rows _ _ _ _ _ _ _ Hm) as [c ->].
  unfold list_item. cbn [li_liftAction]. rewrite writable_page by done.
  destruct (mem (b_id b) (teamWritableBanIds _ _ [b_id b] _)); cbn [negb throw_when] in Ho;
    [|rewrite Ho; destruct (row_state _ b); intros ?; (done || by split_and!; [eexists|..])].
  unfold bind at 1, ret at 1 in Ho. destruct (planLift b (bl_tenantId o)) as [a|e] eqn:Ep;
    [|rewrite Ho; destruct (row_state _ b); intros ?; (done || by split_and!; [eexists|..])].
  destruct (row_state (en_now en) b); [|done|done]. destruct a.
  - destruct (lift_one en (with_caches c w) b) as (Hne & Hrows & Hex); [by destruct Hw; split|done|by eapply planned_active|].
    rewrite (bind_run _ _ _ _ _ (deactivateBans_spec en [b_id b] L_lift (with_caches c w))) in Ho.
    destruct (deactivated_rows _ _ _ _) as [|r rows]; [done|]. rewrite Ho. cbn [throw_when ret fst snd].
    split_and!; [done| |exact Hrows|exact Hex].
    intros later d g b' Hin E. unfold ret in Hin. cbn [snd] in Hin. rewrite Hrows in Hin. by eapply lifted_not_applies.
  - destruct (insert_exclusion_run (b_id b) (bl_tenantId o) (Some user) (with_caches c w)) as (ok & w' & Hrun & Hrows & Hex).
    rewrite (bind_run _ _ _ _ _ Hrun) in Ho. rewrite Ho. unfold emit, modify. cbn [fst snd with_effects w_bans w_exclusions].
    split_and!; [done| |done|done]. intros later d g b' _ E. unfold ban_applies. cbn [with_effects w_exclusions].
    rewrite Hex, E, !Z.eqb_refl, orb_true_r. cbn [negb]. by rewrite andb_false_r.
Qed.

(** ** Deactivation, exactly *)

Lemma deactivated_rows_nodup now reason ids (bans : list (BanRow PG)) :
  NoDup (map b_id bans) -> NoDup (map b_id (deactivated_rows now reason ids bans)).
Proof.
  intros Hnd. unfold deactivated_rows. assert (Hc : NoDup (concat (chunks DEACTIVATE_CHUNK (act_ids ids))))
    by (rewrite concat_chunks by (unfold DEACTIVATE_CHUNK; lia); apply uniq_nodup).
  revert Hc. generalize (chunks DEACTIVATE_CHUNK (act_ids ids)). intros cs. induction cs as [|c cs IH]; intros Hc; [constructor|].
  cbn [concat flat_map] in *. apply NoDup_app in Hc as (_ & Hdis & Hcs). rewrite map_app, map_map. apply NoDup_app.
  split; [by apply NoDup_map_filter|]. split; [|by apply IH]. intros i Hi Hi'. apply list_elem_of_In in Hi, Hi'.
  apply in_map_iff in Hi as (b & <- & Hb). apply filter_In in Hb as [_ Hb]. boolify. apply mem_In in H.
  apply (Hdis (b_id b)); [by apply list_elem_of_In|]. apply list_elem_of_In.
  apply in_map_iff in Hi' as (r & Er & Hr). apply in_flat_map in Hr as (c' & Hc' & Hr). apply in_map_iff in Hr as (b' & <- & Hb').
  apply filter_In in Hb' as [_ Hb']. boolify. apply mem_In in H1. apply in_concat. exists c'. split; [done|].
  cbn in Er. by rewrite <- Er.
Qed.

(** A row from a remote blocklist points at the entries of that list for its network. *)
Definition behind (r : BanRow PG) (e : BlockedIp PG) : bool :=
  String.eqb (b_ban_type r) "remote" && bool_decide (blocklistIdOfOriginRef (b_origin_ref r) = Some (bi_blocklist_id e))
  && bool_decide (bi_ip e = networkSql r).
Definition disabled (e : BlockedIp PG) : BlockedIp PG := entry_enabled false e.

Lemma disable_entry_map (r : BanRow PG) l : disable_entry r l = map (fun e => if behind r e then disabled e else e) l.
Proof.
  unfold disable_entry, behind. destruct (String.eqb (b_ban_type r) "remote"); cbn [andb]; [|symmetry; apply map_id].
  destruct (blocklistIdOfOriginRef (b_origin_ref r)) as [i|]; [|symmetry; apply map_id].
  apply map_ext. intros e. destruct (Z.eqb_spec (bi_blocklist_id e) i) as [<-|Hne]; cbn [andb];
    [rewrite (bool_decide_true (Some _ = Some _)) by done|by rewrite (bool_decide_false (Some i = _)) by congruence].
  cbn [andb]. destruct (bool_decide (bi_ip e = networkSql r)); rewrite ?andb_false_r, ?andb_true_r; [|done].
  unfold disabled. destruct e as [? ? ? ? ? ? ? ? [] ?]; done.
Qed.

Lemma disable_entries_map (rows : list (BanRow PG)) l :
  fold_left (fun l b => disable_entry b l) rows l = map (fun e => if existsb (fun r => behind r e) rows then disabled e else e) l.
Proof.
  revert l. induction rows as [|r rows IH]; intros l; cbn [fold_left existsb]; [by rewrite map_id|].
  rewrite IH, disable_entry_map, map_map. apply map_ext. intros e.
  assert (E : forall r', behind r' (disabled e) = behind r' e) by done.
  destruct (behind r e); cbn [orb]; [|done]. by destruct (existsb _ rows).
Qed.

Lemma deactivate_world_rows en reason ids (w : World PG) :
  wf_bans w ->
  w_bans (deactivate_world en reason ids w)
  = map (fun b => if mem (b_id b) ids && b_is_active b then deactivated (en_now en) reason b else b) (w_bans w)
  /\ w_whitelist (deactivate_world en reason ids w) = w_whitelist w /\ w_exclusions (deactivate_world en reason ids w) = w_exclusions w.
Proof.
  intros Hw.
  assert (Hmap : map (deact (en_now en) reason (act_ids ids)) (w_bans w)
    = map (fun b => if mem (b_id b) ids && b_is_active b then deactivated (en_now en) reason b else b) (w_bans w)).
  { apply map_ext_in. intros b Hb. unfold deact. replace (mem (b_id b) (act_ids ids)) with (mem (b_id b) ids); [done|].
    apply eq_bool_prop_intro. rewrite !Is_true_true, !mem_In. unfold act_ids. rewrite uniq_in, filter_In, Z.ltb_lt.
    pose proof (wb_range w Hw b Hb). naive_solver lia. }
  pose proof (no_rows_same (en_now en) reason ids (w_bans w)) as Hno. unfold deactivate_world.
  destruct (deactivated_rows _ _ _ _); [|done]. by rewrite <- Hmap, Hno.
Qed.

(** A deactivation reports, applies and announces the same rows: [deactivateBans]
    returns each active requested row once, ends exactly those, and says so - one event per
    row up to 500 rows, one count beyond; one router push per row up to 50 rows, one
    reconciliation beyond; nothing when no row changed. A Lift, and only a Lift, disables
    exactly the remote blocklist entries behind the lifted rows, so that the next
    synchronisation does not bring them back. *)
Theorem deactivate_exact en ids reason (w : World PG) (Hw : wf_bans w) :
  exists rows w', deactivateBans en ids reason w = (inr rows, w')
  /\ NoDup (map b_id rows)
  /\ (forall r, In r rows <-> exists b, In b (w_bans w) /\ b_is_active b = true /\ In (b_id b) ids /\ r = deactivated (en_now en) reason b)
  /\ w_bans w' = map (fun b => if mem (b_id b) ids && b_is_active b then deactivated (en_now en) reason b else b) (w_bans w)
  /\ w_blocked w' = map (fun e => if bool_decide (reason = L_lift) && existsb (fun r => behind r e) rows then disabled e else e) (w_blocked w)
  /\ w_effects w' = w_effects w
       ++ (if (500 <? length rows)%nat
           then map Emit (emitGlobal (en_io en) BAN_BULK_LIFTED (P_bulkLifted (Z.of_nat (length rows)) (reason_text reason)) ∅)
           else flat_map (fun r => emitBanEvent (en_io en) BAN_LIFTED r (P_lifted (b_id r) (reason_text reason))) rows)
       ++ (if (50 <? length rows)%nat then [Reconcile]
           else map (fun r => Push (deliveredBanTarget r true) A_unban (mikrotikAudienceOf r)) rows)
  /\ w_exclusions w' = w_exclusions w /\ w_whitelist w' = w_whitelist w.
Proof.
  rewrite deactivateBans_spec. exists (deactivated_rows (en_now en) reason ids (w_bans w)), (deactivate_world en reason ids w).
  split; [done|]. split; [by apply deactivated_rows_nodup, Hw|].
  assert (Hin : forall r, In r (deactivated_rows (en_now en) reason ids (w_bans w)) <->
    exists b, In b (w_bans w) /\ b_is_active b = true /\ In (b_id b) ids /\ r = deactivated (en_now en) reason b).
  { intros r. rewrite deactivated_rows_In. split; [naive_solver|]. intros (b & Hb & Ha & Hi & ->). exists b. split_and!; try done.
    by apply (wb_range w Hw). }
  split; [exact Hin|].
  destruct (deactivate_world_rows en reason ids w Hw) as (Hrows & Hwl & Hex). split; [exact Hrows|].
  split; [|split; [|by rewrite Hex, Hwl]]; clear Hrows Hwl Hex; unfold deactivate_world; destruct (deactivated_rows _ _ _ _) as [|r rows].
  - cbn [existsb]. rewrite andb_false_r. symmetry. apply map_id.
  - cbn [w_blocked with_effects with_blocked]. destruct (bool_decide (reason = L_lift)); cbn [andb]; [apply disable_entries_map|by rewrite map_id].
  - by rewrite app_nil_r.
  - cbn [w_effects with_effects with_blocked with_bans]. f_equal. unfold lift_events, lift_pushes, LIFT_EVENT_MAX_ROWS, LIFT_MIKROTIK_MAX_ROWS.
    generalize (r :: rows). intros l. rewrite !Nat.ltb_antisym. by destruct (length l <=? 500)%nat, (length l <=? 50)%nat.
Qed.

(** ** Bulk Lift *)

(** The rule for one id on the rows and exclusions, membership aside. *)
Definition lift_step (now : Z) (d : Directory) (t : Z) (writable : TeamScope)
    (st : list (BanRow PG) * list (Z * Z)) (id : Z) : list (BanRow PG) * list (Z * Z) :=
  match List.find (fun b => b_id b =? id) (fst st) with
  | Some b =>
      if mem id (teamWritableBanIds d (fst st) [id] writable) then
        match planLift b t with
        | Plan Act_deactivate => (map (lifted_row now id) (fst st), snd st)
        | Plan Act_exclude => (fst st, if bool_decide ((id, t) ∈ (snd st)) then snd st else snd st ++ [(id, t)])
        | Plan_refuse _ => st
        end
      else st
  | None => st
  end.

Definition exclusion_keys (w : World PG) : list (Z * Z) := map (fun e => (ex_ban_id e, ex_tenant_id e)) (w_exclusions w).
Definition rows_of (w : World PG) : list (BanRow PG) * list (Z * Z) := (w_bans w, exclusion_keys w).

Lemma excluded_keys (l : list Exclusion) i u : excluded l i u = bool_decide ((i, u) ∈ (map (fun e => (ex_ban_id e, ex_tenant_id e)) l)).
Proof.
  apply eq_bool_prop_intro. rewrite !Is_true_true, bool_decide_eq_true, list_elem_of_In, in_map_iff. unfold excluded. rewrite existsb_exists.
  split; intros (e & H1 & H2); exists e; [boolify; subst; done|]. injection H1 as -> ->. by rewrite !Z.eqb_refl.
Qed.

Lemma insert_exclusion_keys banId t by_ (w : World PG) :
  exists w', insert_exclusion banId t by_ w = (inr (negb (excluded (w_exclusions w) banId t)), w')
    /\ w_bans w' = w_bans w /\ w_directory w' = w_directory w
    /\ exclusion_keys w' = if bool_decide ((banId, t) ∈ (exclusion_keys w)) then exclusion_keys w else exclusion_keys w ++ [(banId, t)].
Proof.
  unfold insert_exclusion. rewrite excluded_keys. fold (exclusion_keys w). destruct (bool_decide _); cbn [negb]; [by exists w|].
  eexists. split; [done|]. split_and!; try done. unfold exclusion_keys. cbn [w_exclusions with_exclusions]. by rewrite map_app.
Qed.

Lemma lift_is_step en id t user writable (w : World PG) :
  wf_bans w ->
  let w' := snd (lift en id t user true writable w) in
  rows_of w' = lift_step (en_now en) (w_directory w) t writable (rows_of w) id /\ w_directory w' = w_directory w.
Proof.
  intros Hw. cbv zeta. unfold lift_step, rows_of. cbn [fst snd]. destruct (List.find (fun b => b_id b =? id) (w_bans w)) as [b|] eqn:Ef.
  - apply find_some in Ef as [Hb E]. apply Z.eqb_eq in E. subst id.
    pose proof (lift_run en w w b t user true writable Hw Hb eq_refl) as Ho. set (out := lift en _ _ _ _ _ w) in *. clearbody out.
    destruct (mem (b_id b) _) eqn:Em; cbn [negb throw_when] in Ho; [|by rewrite Ho]. unfold bind at 1, ret at 1 in Ho.
    destruct (planLift b t) as [[]|e] eqn:Ep; [| |by rewrite Ho].
    + destruct (lift_one en w b) as (Hne & Hrows & Hex); [done|done|by eapply planned_active|].
      rewrite (bind_run _ _ _ _ _ (deactivateBans_spec en [b_id b] L_lift w)) in Ho.
      destruct (deactivated_rows _ _ _ _) eqn:Ed; [done|]. rewrite Ho. cbn [throw_when]. unfold ret. cbn [snd].
      unfold exclusion_keys. rewrite Hrows, Hex. split; [done|]. unfold deactivate_world. by rewrite Ed.
    + destruct (insert_exclusion_keys (b_id b) t (Some user) w) as (w' & Hrun & Hrows & Hd & Hex).
      rewrite (bind_run _ _ _ _ _ Hrun) in Ho. rewrite Ho. unfold emit, modify. cbn [snd with_effects w_bans w_directory].
      unfold exclusion_keys in *. cbn [with_effects w_exclusions]. by rewrite Hrows, Hex, Hd.
  - unfold lift, assertOperatingMembership, bind, ret, get, of_option. by rewrite Ef.
Qed.

(** What the bulk reads of an id in the rows it loaded. *)
Definition bulk_plan (w : World PG) (t : Z) (writable : TeamScope) (id : Z) : LiftPlan :=
  match List.find (fun b => b_id b =? id) (w_bans w) with
  | Some b => if mem id (teamWritableBanIds (w_directory w) (w_bans w) [id] writable) then planLift b t else Plan_refuse BAN_NOT_FOUND
  | None => Plan_refuse BAN_NOT_FOUND
  end.
#[local] Instance BanLiftAction_eq_dec : EqDecision BanLiftAction.
Proof. solve_decision. Defined.
Ltac decide_plan :=
  repeat match goal with
  | |- context [bool_decide (@eq BanLiftAction ?x ?y)] =>
      first [rewrite (bool_decide_true (x = y)) by done | rewrite (bool_decide_false (x = y)) by done]
  end.
Definition planned (w : World PG) (t : Z) (writable : TeamScope) (a : BanLiftAction) (ids : list Z) : list Z :=
  List.filter (fun id => match bulk_plan w t writable id with Plan a' => bool_decide (a' = a) | _ => false end) ids.

Lemma step_rows now d t writable (bans : list (BanRow PG)) D exs id :
  ~ In id D -> NoDup (map b_id bans) ->
  let bans' := map (fun r => if mem (b_id r) D then deactivated now L_lift r else r) bans in
  lift_step now d t writable (bans', exs) id
  = match (match List.find (fun b => b_id b =? id) bans with
           | Some b => if mem id (teamWritableBanIds d bans [id] writable) then planLift b t else Plan_refuse BAN_NOT_FOUND
           | None => Plan_refuse BAN_NOT_FOUND end) with
    | Plan Act_deactivate => (map (fun r => if mem (b_id r) (D ++ [id]) then deactivated now L_lift r else r) bans, exs)
    | Plan Act_exclude => (bans', if bool_decide ((id, t) ∈ exs) then exs else exs ++ [(id, t)])
    | Plan_refuse _ => (bans', exs)
    end.
Proof.
  intros HD Hnd. cbv zeta. unfold lift_step. cbn [fst snd].
  assert (Hf : List.find (fun b => b_id b =? id) (map (fun r => if mem (b_id r) D then deactivated now L_lift r else r) bans)
    = List.find (fun b => b_id b =? id) bans).
  { clear Hnd. induction bans as [|b bans IH]; [done|]. cbn [map List.find]. rewrite IH.
    replace (b_id (if mem (b_id b) D then deactivated now L_lift b else b)) with (b_id b) by by destruct (mem (b_id b) D).
    destruct (Z.eqb_spec (b_id b) id) as [E|]; [|done]. destruct (mem (b_id b) D) eqn:Em; [|done].
    apply mem_In in Em. congruence. }
  assert (Ht : mem id (teamWritableBanIds d (map (fun r => if mem (b_id r) D then deactivated now L_lift r else r) bans) [id] writable)
    = mem id (teamWritableBanIds d bans [id] writable)).
  { unfold teamWritableBanIds. destruct writable as [|l]; [done|]. clear. induction bans as [|b bans IH]; [done|].
    cbn [map List.filter]. destruct (mem (b_id b) D) eqn:E.
    - change (b_id (deactivated now L_lift b)) with (b_id b). change (b_scope (deactivated now L_lift b)) with (b_scope b).
      change (b_scope_id (deactivated now L_lift b)) with (b_scope_id b). destruct (_ && _); [|done]. cbn [map mem existsb].
      change (b_id (deactivated now L_lift b)) with (b_id b). f_equal. exact IH.
    - destruct (_ && _); [|done]. cbn [map mem existsb]. f_equal. exact IH. }
  rewrite Hf, Ht. destruct (List.find _ bans) as [b|] eqn:Ef; [|done]. destruct (mem id (teamWritableBanIds d bans [id] writable)); [|done].
  destruct (planLift b t) as [[]|]; [|done|done]. f_equal. rewrite map_map. apply map_ext. intros r.
  rewrite mem_app. change (mem (b_id r) [id]) with ((b_id r =? id) || false). rewrite orb_false_r. unfold lifted_row.
  destruct (mem (b_id r) D) eqn:Em; cbn [orb].
  - change (b_id (deactivated now L_lift r)) with (b_id r). destruct (Z.eqb_spec (b_id r) id) as [E|]; [|done].
    apply mem_In in Em. congruence.
  - done.
Qed.

Lemma map_never now (bans : list (BanRow PG)) : map (fun r => if mem (b_id r) [] then deactivated now L_lift r else r) bans = bans.
Proof. apply map_id. Qed.

(** Lifting the ids one by one, in closed form. *)
Lemma steps_closed en (w : World PG) t writable ids D exs :
  wf_bans w -> NoDup ids -> (forall i, In i ids -> ~ In i D) ->
  fold_left (lift_step (en_now en) (w_directory w) t writable) ids
    (map (fun r => if mem (b_id r) D then deactivated (en_now en) L_lift r else r) (w_bans w), exs)
  = (map (fun r => if mem (b_id r) (D ++ planned w t writable Act_deactivate ids) then deactivated (en_now en) L_lift r else r) (w_bans w),
     fold_left (fun exs id => if bool_decide ((id, t) ∈ exs) then exs else exs ++ [(id, t)]) (planned w t writable Act_exclude ids) exs).
Proof.
  intros Hw. revert D exs. induction ids as [|id ids IH]; intros D exs Hnd HD; cbn [fold_left].
  - unfold planned. cbn [List.filter fold_left]. by rewrite app_nil_r.
  - apply NoDup_cons in Hnd as [Hni Hnd]. rewrite step_rows by (try apply Hw; apply HD; by left).
    unfold planned. cbn [List.filter]. fold (planned w t writable Act_deactivate ids). fold (planned w t writable Act_exclude ids).
    assert (HD' : forall i, In i ids -> ~ In i D) by (intros i Hi; apply HD; by right).
    fold (bulk_plan w t writable id). destruct (bulk_plan w t writable id) as [[]|e].
    + decide_plan. rewrite IH; [|done|].
      * by rewrite <- app_assoc.
      * intros i Hi [?|[->|[]]]%in_app_iff; [by apply (HD' i)|]. by apply Hni, list_elem_of_In.
    + decide_plan. cbn [fold_left]. by rewrite IH.
    + by apply IH.
Qed.

(** The accounting of the bulk: refusals are counted once and detailed up to fifty. *)
Definition counted (r : BulkLiftResult) : Z := br_skipped r + br_refused r.
Definition detailed (r : BulkLiftResult) : Prop :=
  Z.of_nat (length (br_errors r)) = Z.min 50 (counted r) /\ 0 <= br_skipped r /\ 0 <= br_refused r.

Lemma lift_refuse_counts r id e :
  detailed r -> counted (lift_refuse r id e) = counted r + 1 /\ detailed (lift_refuse r id e)
  /\ br_lifted (lift_refuse r id e) = br_lifted r /\ br_excluded (lift_refuse r id e) = br_excluded r.
Proof.
  unfold detailed, counted, lift_refuse, BULK_LIFT_DETAIL_MAX. cbn [br_errors br_skipped br_refused br_lifted br_excluded].
  intros (H1 & H2 & H3). destruct (Nat.ltb_spec (length (br_errors r)) 50); rewrite ?length_app; cbn [length];
    destruct (err_status e =? 409); split_and!; lia.
Qed.

Definition refused_ids (w : World PG) (t : Z) (writable : TeamScope) (ids : list Z) : list Z :=
  List.filter (fun id => match bulk_plan w t writable id with Plan_refuse _ => true | _ => false end) ids.

Lemma lift_sort_fold (w : World PG) t writable (byId : Z -> option (BanRow PG)) ids r ex de :
  (forall id, In id ids -> match byId id with Some b => b_id b = id /\ bulk_plan w t writable id = planLift b t
                                       | None => bulk_plan w t writable id = Plan_refuse BAN_NOT_FOUND end) ->
  detailed r ->
  exists r' ex', fold_left (lift_sort byId t) ids (r, ex, de) = (r', ex ++ ex', de ++ planned w t writable Act_deactivate ids)
    /\ map b_id ex' = planned w t writable Act_exclude ids /\ detailed r' /\ br_lifted r' = br_lifted r /\ br_excluded r' = br_excluded r
    /\ counted r' = counted r + Z.of_nat (length (refused_ids w t writable ids)).
Proof.
  revert r ex de. induction ids as [|id ids IH]; intros r ex de Hby Hr.
  - exists r, []. unfold planned, refused_ids. cbn [fold_left List.filter map length]. rewrite !app_nil_r. split_and!; try done; lia.
  - cbn [fold_left]. assert (Hby' := fun i Hi => Hby i (or_intror Hi)). specialize (Hby id (or_introl eq_refl)).
    unfold planned, refused_ids. cbn [List.filter]. fold (planned w t writable Act_deactivate ids).
    fold (planned w t writable Act_exclude ids). fold (refused_ids w t writable ids). unfold lift_sort at 2.
    assert (Hrefuse : forall e, exists r' ex', fold_left (lift_sort byId t) ids (lift_refuse r id e, ex, de)
        = (r', ex ++ ex', de ++ planned w t writable Act_deactivate ids)
      /\ map b_id ex' = planned w t writable Act_exclude ids /\ detailed r' /\ br_lifted r' = br_lifted r /\ br_excluded r' = br_excluded r
      /\ counted r' = counted r + Z.of_nat (length (id :: refused_ids w t writable ids))).
    { intros e. destruct (lift_refuse_counts r id e Hr) as (C1 & C2 & C3 & C4).
      destruct (IH (lift_refuse r id e) ex de Hby' C2) as (r' & ex' & E & H1 & H2 & H3 & H4 & H5).
      exists r', ex'. rewrite E. cbn [length]. split_and!; try done; lia. }
    destruct (byId id) as [b|]; [destruct Hby as [Ei Hp]; destruct (planLift b t) as [[]|e]|]; rewrite ?Hp, ?Hby; cbn [fold_left];
      [| |by apply Hrefuse|by apply Hrefuse].
    + decide_plan.
      destruct (IH r ex (de ++ [id]) Hby' Hr) as (r' & ex' & E & H). exists r', ex'. rewrite E, <- app_assoc. by split.
    + decide_plan.
      destruct (IH r (ex ++ [b]) de Hby' Hr) as (r' & ex' & E & H1 & H2). exists r', (b :: ex'). rewrite E, <- app_assoc.
      cbn [map]. by rewrite H1, Ei.
Qed.

(** The map the bulk builds finds what [bulk_plan] finds. *)
Lemma bulk_byId (w : World PG) unique t writable id :
  wf_bans w -> In id unique ->
  let rows := List.filter (fun b => mem (b_id b) unique) (w_bans w) in
  let wr := teamWritableBanIds (w_directory w) (w_bans w) (map b_id rows) writable in
  match List.find (fun b => b_id b =? id) (rev (List.filter (fun b => mem (b_id b) wr) rows)) with
  | Some b => b_id b = id /\ bulk_plan w t writable id = planLift b t
  | None => bulk_plan w t writable id = Plan_refuse BAN_NOT_FOUND
  end.
Proof.
  intros Hw Hid. cbv zeta. set (rows := List.filter (fun b => mem (b_id b) unique) (w_bans w)).
  assert (Hin : forall b, In b rows <-> In b (w_bans w) /\ In (b_id b) unique).
  { intros b. unfold rows. rewrite filter_In, mem_In. done. }
  set (wr := teamWritableBanIds _ _ (map b_id rows) writable). set (l := rev _).
  assert (Hl : forall b, In b l <-> In b rows /\ mem (b_id b) wr = true) by (intros b; unfold l; by rewrite <- in_rev, filter_In).
  assert (Hwr : forall b, In b rows -> mem (b_id b) wr = mem (b_id b) (teamWritableBanIds (w_directory w) (w_bans w) [b_id b] writable)).
  { intros b Hb. by apply writable_page. }
  unfold bulk_plan. destruct (List.find _ l) as [b|] eqn:Ef.
  - apply find_some in Ef as [Hb E]. apply Z.eqb_eq in E. subst id. apply Hl in Hb as [Hb Hm]. split; [done|].
    rewrite (find_unique b_id _ _ (wb_ids w Hw)) by by apply Hin. by rewrite <- Hwr, Hm.
  - destruct (List.find _ (w_bans w)) as [b|] eqn:Ef'; [|done]. apply find_some in Ef' as [Hb E]. apply Z.eqb_eq in E. subst id.
    assert (Hb' : In b rows) by by apply Hin. rewrite <- Hwr by done. destruct (mem (b_id b) wr) eqn:Em; [|done].
    exfalso. assert (Hbl : In b l) by by apply Hl. apply (find_none _ _ Ef) in Hbl. by rewrite Z.eqb_refl in Hbl.
Qed.

Definition add_key (t : Z) (exs : list (Z * Z)) (id : Z) : list (Z * Z) := if bool_decide ((id, t) ∈ exs) then exs else exs ++ [(id, t)].
Definition fresh_ids (t : Z) (exs : list (Z * Z)) (ids : list Z) : list Z := List.filter (fun i => negb (bool_decide ((i, t) ∈ exs))) ids.

Lemma fresh_after t exs id ids : id ∉ ids -> fresh_ids t (add_key t exs id) ids = fresh_ids t exs ids.
Proof.
  intros Hni. unfold fresh_ids, add_key. destruct (bool_decide ((id, t) ∈ exs)); [done|]. apply filter_ext_in. intros i Hi.
  f_equal. apply bool_decide_ext. rewrite elem_of_app, list_elem_of_singleton. split; [|by left].
  intros [?|[= ->]]; [done|]. by apply list_elem_of_In in Hi.
Qed.

Lemma insert_exclusions_spec ids t by_ (w : World PG) :
  NoDup ids ->
  exists w', insert_exclusions ids t by_ w = (inr (fresh_ids t (exclusion_keys w) ids), w')
    /\ w_bans w' = w_bans w /\ w_directory w' = w_directory w /\ exclusion_keys w' = fold_left (add_key t) ids (exclusion_keys w).
Proof.
  revert w. induction ids as [|id ids IH]; intros w Hnd; [by exists w|]. apply NoDup_cons in Hnd as [Hni Hnd].
  destruct (insert_exclusion_keys id t by_ w) as (w1 & Hrun & Hb & Hd & Hk). destruct (IH w1 Hnd) as (w2 & Hrun2 & Hb2 & Hd2 & Hk2).
  exists w2. cbn [insert_exclusions]. rewrite (bind_run _ _ _ _ _ Hrun), (bind_run _ _ _ _ _ Hrun2). unfold ret.
  change (if bool_decide ((id, t) ∈ exclusion_keys w) then exclusion_keys w else exclusion_keys w ++ [(id, t)])
    with (add_key t (exclusion_keys w) id) in Hk.
  rewrite Hb2, Hd2, Hk2, Hk, fresh_after by done. split_and!; try done. f_equal. f_equal.
  rewrite excluded_keys. fold (exclusion_keys w). unfold fresh_ids. cbn [List.filter]. by destruct (bool_decide _).
Qed.

Lemma refuse_fold (p : Z -> bool) (e : CodedError) ids r :
  detailed r ->
  let r' := fold_left (fun r id => if p id then r else lift_refuse r id e) ids r in
  detailed r' /\ br_lifted r' = br_lifted r /\ br_excluded r' = br_excluded r
  /\ counted r' = counted r + Z.of_nat (length ids) - Z.of_nat (length (List.filter p ids)).
Proof.
  cbv zeta. revert r. induction ids as [|id ids IH]; intros r Hr; cbn [fold_left List.filter length]; [split_and!; (done || lia)|].
  destruct (p id); cbn [length].
  - destruct (IH r Hr) as (H1 & H2 & H3 & H4). split_and!; (done || lia).
  - destruct (lift_refuse_counts r id e Hr) as (C1 & C2 & C3 & C4). destruct (IH _ C2) as (H1 & H2 & H3 & H4).
    split_and!; (done || congruence || lia).
Qed.

Lemma bulk_exclude_spec en ex t user r (w : World PG) :
  NoDup (map b_id ex) -> detailed r -> br_excluded r = 0 ->
  exists r' w', bulk_exclude en ex t user r w = (inr r', w')
    /\ w_bans w' = w_bans w /\ w_directory w' = w_directory w
    /\ exclusion_keys w' = fold_left (add_key t) (map b_id ex) (exclusion_keys w)
    /\ detailed r' /\ br_lifted r' = br_lifted r
    /\ br_excluded r' = Z.of_nat (length (fresh_ids t (exclusion_keys w) (map b_id ex)))
    /\ counted r' + br_excluded r' = counted r + Z.of_nat (length ex).
Proof.
  intros Hnd Hr H0. unfold bulk_exclude. destruct ex as [|b0 ex0] eqn:Ex; [exists r, w; cbn; split_and!; (done || lia)|].
  rewrite <- Ex in *. clear Ex b0 ex0.
  destruct (insert_exclusions_spec (map b_id ex) t (if 0 <? user then Some user else None) w Hnd) as (w1 & Hrun & Hb & Hd & Hk).
  rewrite (bind_run _ _ _ _ _ Hrun). set (fresh := fresh_ids t (exclusion_keys w) (map b_id ex)).
  assert (Hfr : forall b, In b ex -> mem (b_id b) fresh = negb (bool_decide ((b_id b, t) ∈ exclusion_keys w))).
  { intros b Hb'. apply eq_bool_prop_intro. rewrite !Is_true_true, mem_In. unfold fresh, fresh_ids. rewrite filter_In.
    split; [by intros []|]. intros H. split; [by apply in_map|done]. }
  assert (Hlen : length (List.filter (fun b => mem (b_id b) fresh) ex) = length fresh).
  { rewrite (filter_ext_in _ _ _ Hfr). unfold fresh, fresh_ids. clear. induction ex as [|b ex IH]; [done|].
    cbn [map List.filter]. destruct (negb _); cbn [length]; by rewrite IH. }
  assert (Hfold : fold_left (fun r b => if mem (b_id b) fresh then r else lift_refuse r (b_id b) already_lifted) ex r
    = fold_left (fun r id => if mem id fresh then r else lift_refuse r id already_lifted) (map b_id ex) r)
    by (clear; generalize fresh; clear; intros fresh; revert r; induction ex as [|b ex IH]; intros r; cbn [fold_left map]; [done|apply IH]).
  unfold bind, emit, modify, ret. rewrite Hfold, Hlen. destruct (refuse_fold (fun id => mem id fresh) already_lifted (map b_id ex) r Hr) as (F1 & F2 & F3 & F4).
  eexists _, _. split; [done|]. cbn [with_effects w_bans w_directory br_lifted br_excluded]. split_and!; try done.
  unfold counted in *. cbn [br_skipped br_refused br_excluded]. rewrite F4, length_map.
  replace (List.filter (fun id => mem id fresh) (map b_id ex)) with fresh; [lia|].
  unfold fresh at 1, fresh_ids. apply filter_ext_in. intros i Hi. apply in_map_iff in Hi as (b & <- & Hb'). by rewrite Hfr.
Qed.

Lemma bulk_deactivate_spec en de r (v w : World PG) :
  wf_bans v -> w_bans w = w_bans v -> NoDup de -> (forall i, In i de -> exists b, In b (w_bans w) /\ b_id b = i /\ b_is_active b = true) ->
  detailed r -> br_lifted r = 0 ->
  exists r' w', bulk_deactivate en de r w = (inr r', w')
    /\ w_bans w' = map (fun b => if mem (b_id b) de then deactivated (en_now en) L_lift b else b) (w_bans w)
    /\ w_exclusions w' = w_exclusions w
    /\ detailed r' /\ br_lifted r' = Z.of_nat (length de) /\ br_excluded r' = br_excluded r /\ counted r' = counted r.
Proof.
  intros Hw Ev Hnd Hde Hr H0. unfold bulk_deactivate. destruct de as [|i0 de0] eqn:Ede.
  { exists r, w. split_and!; try done. symmetry. apply map_id. }
  rewrite <- Ede in *. clear Ede i0 de0. rewrite (bind_run _ _ _ _ _ (deactivateBans_spec en de L_lift w)).
  set (rows := deactivated_rows (en_now en) L_lift de (w_bans w)).
  assert (Hids : forall i, In i (map b_id rows) <-> In i de).
  { intros i. rewrite in_map_iff. split.
    - intros (x & <- & Hx). apply deactivated_rows_In in Hx as (b & _ & _ & Hi & _ & ->). done.
    - intros Hi. destruct (Hde i Hi) as (b & Hb & <- & Ha). exists (deactivated (en_now en) L_lift b). split; [done|].
      apply deactivated_rows_In. exists b. split_and!; try done. rewrite Ev in Hb. by apply (wb_range v Hw). }
  assert (Hlen : length rows = length de).
  { rewrite <- (length_map b_id rows). apply Permutation_length, NoDup_Permutation; [apply deactivated_rows_nodup; rewrite Ev; apply Hw|done|].
    intros i. by rewrite !list_elem_of_In. }
  destruct (refuse_fold (fun id => mem id (map b_id rows)) BAN_INACTIVE de
    {| br_lifted := count_of rows; br_excluded := br_excluded r; br_skipped := br_skipped r; br_refused := br_refused r; br_errors := br_errors r |} Hr)
    as (F1 & F2 & F3 & F4).
  eexists _, _. split; [done|].
  assert (Hw' : w_bans (deactivate_world en L_lift de w) = map (deact (en_now en) L_lift (act_ids de)) (w_bans w)
    /\ w_exclusions (deactivate_world en L_lift de w) = w_exclusions w).
  { unfold deactivate_world. pose proof (no_rows_same (en_now en) L_lift de (w_bans w)) as Hno. fold rows in Hno |- *.
    destruct rows; [|done]. by rewrite Hno. }
  destruct Hw' as [-> ->]. split_and!; try done.
  - apply map_ext_in. intros b Hb. unfold deact. replace (mem (b_id b) (act_ids de)) with (mem (b_id b) de).
    + destruct (mem (b_id b) de) eqn:Em; [|done]. apply mem_In in Em. destruct (Hde _ Em) as (b' & Hb' & E & Ha).
      rewrite Ev in Hb, Hb'. rewrite (id_inj v b' b) by done. by rewrite Ha.
    + apply eq_bool_prop_intro. rewrite !Is_true_true, !mem_In. unfold act_ids. rewrite uniq_in, filter_In, Z.ltb_lt.
      rewrite Ev in Hb. pose proof (wb_range v Hw b Hb). naive_solver lia.
  - rewrite F2. cbn [br_lifted]. unfold count_of. by rewrite Hlen.
  - rewrite F4. unfold counted. cbn [br_skipped br_refused]. rewrite (filter_all (fun id => mem id (map b_id rows)) de) by (intros i Hi; apply mem_In; by apply Hids). lia.
Qed.

Lemma planned_NoDup (w : World PG) t writable a ids : NoDup ids -> NoDup (planned w t writable a ids).
Proof.
  unfold planned. intros H. rewrite <- (map_id ids) in H. apply (NoDup_map_filter (fun x => x) (fun id => match bulk_plan w t writable id with
    Plan a' => bool_decide (a' = a) | _ => false end)) in H. by rewrite map_id in H.
Qed.

Lemma plan_counts (w : World PG) t writable ids :
  (length (planned w t writable Act_deactivate ids) + length (planned w t writable Act_exclude ids)
   + length (refused_ids w t writable ids) = length ids)%nat.
Proof.
  unfold planned, refused_ids. induction ids as [|id ids IH]; [done|]. cbn [List.filter length].
  destruct (bulk_plan w t writable id) as [[]|]; decide_plan; cbn [length]; lia.
Qed.

(** Lifting the ids one by one keeps the invariants, so that each step is [lift_step]. *)
Lemma lifts_are_steps en t user writable ids (w : World PG) :
  wf_bans w ->
  rows_of (fold_left (fun w id => snd (lift en id t user true writable w)) ids w)
  = fold_left (lift_step (en_now en) (w_directory w) t writable) ids (rows_of w).
Proof.
  revert w. induction ids as [|id ids IH]; intros w Hw; [done|]. cbn [fold_left].
  destruct (lift_is_step en id t user writable w Hw) as [Hs Hd]. rewrite <- Hs, <- Hd. apply IH.
  eapply trans_rtc_wf; [|exact Hw]. by apply (op_trans en (Tenant t) (lift en id t user true writable) (fun _ _ => True)); [apply op_lift|].
Qed.

(** A bulk Lift is the Lifts it stands for. For a member of the operating tenant it
    never fails, and leaves exactly the rows and exclusions that lifting each distinct id,
    one after the other with the same rule and ignoring refusals, would leave; its counts
    are those of the rows deactivated, newly excluded and refused, every distinct id is
    counted once, and at most fifty refusals are detailed. *)
Theorem bulk_lift_is_lifts en ids t user adm writable (w w0 : World PG)
    (Hw : wf_bans w) (Hm : assertOperatingMembership en user t adm w = (inr tt, w0)) :
  exists r w', bulkLift en ids t user adm writable w = (inr r, w')
  /\ rows_of w' = rows_of (fold_left (fun w id => snd (lift en id t user true writable w)) (uniq ids) w)
  /\ br_lifted r = Z.of_nat (length (planned w t writable Act_deactivate (uniq ids)))
  /\ br_excluded r = Z.of_nat (length (fresh_ids t (exclusion_keys w) (planned w t writable Act_exclude (uniq ids))))
  /\ br_lifted r + br_excluded r + br_skipped r + br_refused r = Z.of_nat (length (uniq ids))
  /\ Z.of_nat (length (br_errors r)) = Z.min 50 (br_skipped r + br_refused r).
Proof.
  rewrite lifts_are_steps by done. set (U := uniq ids). assert (HU : NoDup U) by apply uniq_nodup.
  assert (Hrows : rows_of w = (map (fun r => if mem (b_id r) [] then deactivated (en_now en) L_lift r else r) (w_bans w), exclusion_keys w))
    by by rewrite map_never.
  rewrite Hrows, steps_closed by (done || by intros i _ []). clear Hrows.
  unfold bulkLift. rewrite (bind_run _ _ _ _ _ Hm). destruct (membership_rows _ _ _ _ _ _ _ Hm) as [c ->]. clear Hm.
  unfold bind at 1, get at 1. cbv zeta. fold U. cbn [with_caches w_bans w_directory].
  assert (Hd0 : detailed no_lift) by done.
  destruct (lift_sort_fold w t writable _ U no_lift [] [] (fun id Hid => bulk_byId w U t writable id Hw Hid) Hd0)
    as (r1 & ex & Hsort & Hex & Hd1 & Hl1 & He1 & Hc1). cbn [app] in Hsort. rewrite Hsort. clear Hsort.
  assert (Hndx : NoDup (map b_id ex)) by (rewrite Hex; by apply planned_NoDup).
  destruct (bulk_exclude_spec en ex t user r1 (with_caches c w) Hndx Hd1 He1) as (r2 & w2 & Hrun & Hb2 & _ & Hk2 & Hd2 & Hl2 & He2 & Hc2).
  rewrite (bind_run _ _ _ _ _ Hrun). cbn [with_caches w_bans] in Hb2. change (exclusion_keys (with_caches c w)) with (exclusion_keys w) in *.
  assert (Hde : forall i, In i (planned w t writable Act_deactivate U) -> exists b, In b (w_bans w2) /\ b_id b = i /\ b_is_active b = true).
  { intros i Hi. unfold planned in Hi. apply filter_In in Hi as [_ Hi]. unfold bulk_plan in Hi. rewrite Hb2.
    destruct (List.find _ (w_bans w)) as [b|] eqn:Ef; [|done]. destruct (mem i _); [|done].
    destruct (planLift b t) as [a|] eqn:Ep; [|done]. apply find_some in Ef as [Hb E]. apply Z.eqb_eq in E.
    exists b. split_and!; try done. by eapply planned_active. }
  destruct (bulk_deactivate_spec en (planned w t writable Act_deactivate U) r2 w w2 Hw Hb2 (planned_NoDup _ _ _ _ _ HU) Hde Hd2)
    as (r3 & w3 & Hrun3 & Hb3 & He3 & Hd3 & Hl3 & Hx3 & Hc3); [by rewrite Hl2, Hl1|].
  exists r3, w3. cbn [app]. split; [done|]. pose proof (plan_counts w t writable U) as Hcount.
  rewrite <- Hex, length_map in Hcount. unfold counted in *. destruct Hd3 as (Hd3 & _). unfold counted in Hd3.
  cbn [no_lift br_skipped br_refused] in Hc1. split_and!; [|done| |lia|done].
  - unfold rows_of. rewrite Hb3, Hb2. f_equal. unfold exclusion_keys at 1. rewrite He3. fold (exclusion_keys w2). rewrite Hk2, Hex. done.
  - by rewrite Hx3, He2, Hex.
Qed.

End Lift.

(** ** At work on the sample store *)

Definition sample_options (t : Z) : BanListOptions :=
  {| bl_tenantId := t; bl_state := None; bl_scope := None; bl_banType := None; bl_tenantIds := [];
     bl_visibleAgentIds := Ids_all; bl_writableAgentIds := Ids_list [6] |}.
Definition sample_row : BanRow TextPg := sample_ban 3 (sample_inet 1249763845 32) (Some 32) "agent" (Some 6) (Some 4) (Some 4).

(** The ban on device 6 is announced as removable to tenant 4, and is removed. *)
Lemma lift_honours_list_witness :
  li_liftAction (list_item (en_now sample_env) sample_bans [sample_row] (sample_options 4) sample_row) = Some Act_deactivate
  /\ fst (lift sample_env 3 4 7 true (Ids_list [6]) sample_bans) = inr tt.
Proof.
  split; [vm_compute; reflexivity|].
  pose proof (lift_honours_list sample_env sample_bans sample_bans [sample_row] (sample_options 4) 7 true sample_row
    sample_bans_wf ltac:(do 2 right; by left) ltac:(by left) eq_refl) as H. cbv zeta in H.
  replace (li_liftAction _) with (Some Act_deactivate) in H by (vm_compute; reflexivity).
  exact (proj1 H).
Defined.

Lemma deactivate_exact_witness :
  exists rows w', deactivateBans sample_env [3; 4; 3; 9] L_lift sample_bans = (inr rows, w') /\ NoDup (map b_id rows)
    /\ map b_is_active (w_bans w') = [true; true; false; false].
Proof.
  destruct (deactivate_exact sample_env [3; 4; 3; 9] L_lift sample_bans sample_bans_wf) as (rows & w' & H1 & H2 & _ & H4 & _).
  exists rows, w'. split; [exact H1|]. split; [exact H2|]. rewrite H4. vm_compute. reflexivity.
Defined.

(** Tenant 4 sends its own ban, the global one it already ignores, a foreign one and an
    unknown id: one lifted, one skipped, two refused. *)
Lemma bulk_lift_is_lifts_witness :
  exists r w', bulkLift sample_env [3; 1; 2; 9; 3] 4 7 true Ids_all sample_bans = (inr r, w')
    /\ br_lifted r = 1 /\ br_excluded r = 0 /\ br_skipped r + br_refused r = 3.
Proof.
  destruct (bulk_lift_is_lifts sample_env [3; 1; 2; 9; 3] 4 7 true Ids_all sample_bans sample_bans sample_bans_wf eq_refl)
    as (r & w' & H1 & _ & H3 & H4 & H5 & _).
  assert (E3 : br_lifted r = 1) by (rewrite H3; vm_compute; reflexivity).
  assert (E4 : br_excluded r = 0) by (rewrite H4; vm_compute; reflexivity).
  change (Z.of_nat (length (uniq [3; 1; 2; 9; 3]))) with 4 in H5.
  exists r, w'. split_and!; [exact H1|exact E3|exact E4|lia].
Defined.
