(* ===== verification/BanEntry.v ===== *)
(** * What enters the ban store

    A ban created by hand is sound: safe target, authorised scope, not whitelisted, not a
    duplicate, delivered as the network asked for. A remote import creates exactly the
    targets that are not covered, whitelisted or lifted, and can be repeated. A ban pushed
    by another application is idempotent. *)

From S2P Require Import Prelude JsString JsValue JsNumber IpValidation ProtectedIps Tenancy Access SocketRooms PgInet Store Whitelist BanRules BanService BanImport BanAuthority BanLift.

(** ** Runs of an operation that succeed *)

Section Runs.
Context {PG : PgInet}.

Lemma run_bind {A B} (m : M PG A) (k : A -> M PG B) w b w' :
  bind m k w = (inr b, w') -> exists a w1, m w = (inr a, w1) /\ k a w1 = (inr b, w').
Proof. unfold bind. destruct (m w) as [[e|a] w1]; [done|]. by exists a, w1. Qed.
Lemma run_throw_when c e (w w' : World PG) u : throw_when c e w = (inr u, w') -> c = false /\ w' = w.
Proof. destruct c; [done|]. by intros [= _ <-]. Qed.
Lemma run_of_sum {A} (r : CodedError + A) (w w' : World PG) a : of_sum r w = (inr a, w') -> r = inr a /\ w' = w.
Proof. destruct r; [done|]. by intros [= -> ->]. Qed.
Lemma run_of_option {A} (o : option A) e (w w' : World PG) a : of_option o e w = (inr a, w') -> o = Some a /\ w' = w.
Proof. destruct o; [|done]. by intros [= -> ->]. Qed.
Lemma run_transaction {A} (m : M PG A) (w w' : World PG) a : transaction m w = (inr a, w') -> m w = (inr a, w').
Proof. unfold transaction. by destruct (m w) as [[e|b] w1]. Qed.

(** Rows that wait for the expiry job under the same target are ended first. *)
Definition stale_ended (now : Z) (t : ParsedCidr) (r : BanRow PG) : BanRow PG :=
  if whereSameTarget r t && b_is_active r && past_expiry now r then deactivated now L_expiry r else r.

Lemma expireStale_run en t (w w' : World PG) u :
  wf_bans w -> expireStale en t w = (inr u, w') ->
  w_bans w' = map (stale_ended (en_now en) t) (w_bans w) /\ w_whitelist w' = w_whitelist w /\ w_exclusions w' = w_exclusions w
  /\ w_next_ban w' = w_next_ban w.
Proof.
  intros Hw. unfold expireStale, bind, get. set (p := fun b => whereSameTarget b t && b_is_active b && past_expiry (en_now en) b).
  assert (Hstale : forall r, stale_ended (en_now en) t r = if p r then deactivated (en_now en) L_expiry r else r) by done.
  destruct (map b_id (List.filter p (w_bans w))) as [|i ids] eqn:Ei.
  - intros [= _ <-]. split_and!; try done. symmetry. rewrite <- (map_id (w_bans w)) at 2. apply map_ext_in. intros r Hr.
    rewrite Hstale. destruct (p r) eqn:Ep; [|done]. exfalso.
    assert (Hin : In (b_id r) (map b_id (List.filter p (w_bans w)))) by by apply in_map, filter_In. by rewrite Ei in Hin.
  - rewrite <- Ei. clear i ids Ei. rewrite deactivateBans_spec. intros [= _ <-]. unfold deactivate_world.
    pose proof (no_rows_same (en_now en) L_expiry (map b_id (List.filter p (w_bans w))) (w_bans w)) as Hno.
    assert (Hmap : map (deact (en_now en) L_expiry (act_ids (map b_id (List.filter p (w_bans w))))) (w_bans w)
      = map (stale_ended (en_now en) t) (w_bans w)).
    { apply map_ext_in. intros r Hr. rewrite Hstale. unfold deact.
      replace (mem (b_id r) (act_ids (map b_id (List.filter p (w_bans w))))) with (p r).
      - unfold p. destruct (b_is_active r); [by rewrite !andb_true_r|]. by rewrite !andb_false_r.
      - apply eq_bool_prop_intro. rewrite !Is_true_true, mem_In. unfold act_ids. rewrite uniq_in, filter_In, in_map_iff, Z.ltb_lt.
        split; [intros Hp; split; [exists r; split; [done|by apply filter_In]|by apply (wb_range w Hw)]|].
        intros [(r' & E & Hr') _]. apply filter_In in Hr' as [Hr' Hp]. by rewrite (id_inj w r r') in Hp. }
    destruct (deactivated_rows _ _ _ _); [rewrite <- Hmap, Hno by done; done|]. cbn. done.
Qed.

End Runs.

(** ** Creation *)

Section Create.
Context {PG : PgInet} {L : PgInetLaws PG}.

(** A row stored as an address and a prefix is read back as the network it stands for. *)
Lemma stored_target (b : BanRow PG) t :
  wf_cidr t -> inet_in (address t) = Some (b_ip b) -> b_cidr_prefix b = network_prefix (mk_target t) ->
  rowTarget b = Some t.
Proof.
  intros Hw Hi Hp. destruct (inet_in_host t Hw) as (i & Hi' & Hd). assert (i = b_ip b) as -> by congruence.
  destruct (inet_out_host _ _ Hw Hd) as [Hs Hparse]. unfold rowTarget, banTargetRawFromRow. rewrite Hs, Hp.
  unfold network_prefix, mk_target. cbn [isNetwork bt_parsed].
  destruct (Z.ltb_spec (prefix t) (bits (family t))) as [|Hge]; [exact Hparse|].
  pose proof (wf_prefix t Hw) as Hpre. rewrite (inet_out_parse (b_ip b) (host_of t)); [|by apply host_of_wf|done].
  by rewrite host_of_single by lia.
Qed.

(** The conditions under which a ban may enter: what the request named, and the world it met. *)
Record sound_ban (en : Env) (w : World PG) (data : js) (tenantId : Z) (rows : list (BanRow PG)) (b : BanRow PG) (t : ParsedCidr) : Prop := {
  sb_target : exists raw, create_raw data = inr raw
    /\ accepted (en_inputs en) (ensureInfraFresh (en_inputs en) (w_protected w)) (JStr raw) true (String.eqb (b_scope b) "global") (b_tenant_id b) (mk_target t);
  sb_delivered : deliveredBanTarget b true = cidr_text t;
  sb_scope : (default_tenant tenantId = true /\ b_scope b = "global" /\ b_scope_id b = None /\ b_tenant_id b = None)
    \/ (b_scope b = "tenant" /\ default_tenant tenantId = false /\ b_scope_id b = None /\ b_tenant_id b = Some tenantId)
    \/ ((b_scope b = "group" \/ b_scope b = "agent") /\ b_tenant_id b = Some tenantId
        /\ exists i, b_scope_id b = Some i /\ 0 < i /\ resolveScopeTenant (w_directory w) (b_scope b) (Some i) = Some tenantId);
  sb_not_whitelisted : forall e p, In e (w_whitelist w) -> wf_cidr p -> denotes (wl_ip e) p ->
    whereWhitelistApplies (whitelistContextOf (b_scope b) (b_scope_id b) (b_tenant_id b)) e = true -> cidrOverlaps p t = false;
  sb_no_duplicate : forall r, In r rows -> is_duplicate (en_now en) t (b_scope b) (b_scope_id b) (b_tenant_id b) r = false;
  sb_manual : b_ban_type b = "manual" /\ b_origin_tenant_id b = Some tenantId /\ b_is_active b = true;
  sb_future : match b_expires_at b with Some e => en_now en < e | None => True end
}.

Lemma create_expiry_future en data o : create_expiry en data = inr o -> match o with Some e => en_now en < e | None => True end.
Proof.
  unfold create_expiry. destruct (_ || _); [by intros [= <-]|]. destruct (en_date en _) as [d|]; [|done].
  destruct (Z.leb_spec d (en_now en)); [done|]. by intros [= <-].
Qed.

Lemma first_preferring_none {A} (p : A -> bool) l :
  match List.find p l with Some b => Some b | None => head l end = None -> l = [].
Proof. destruct l as [|a l]; [done|]. cbn [List.find head]. destruct (p a); [done|]. by destruct (List.find p l). Qed.

Lemma is_network_cidr p : isNetwork (mk_target p) = (prefix p <? bits (family p)). Proof. done. Qed.

Lemma create_tx_run en t scope sid rt expires reason user tid (w w' : World PG) b :
  wf_cidr t -> create_tx en (mk_target t) scope sid rt expires reason user tid w = (inr b, w') ->
  exists ip, inet_in (address t) = Some ip
    /\ b = new_ban en ip (network_prefix (mk_target t)) reason "manual" scope sid rt (Some tid) None None (if 0 <? user then Some user else None) expires (w_next_ban w)
    /\ w_bans w' = w_bans w ++ [b]
    /\ List.filter (is_duplicate (en_now en) t scope sid rt) (w_bans w) = []
    /\ (forall e p, In e (w_whitelist w) -> wf_cidr p -> denotes (wl_ip e) p ->
          whereWhitelistApplies (whitelistContextOf scope sid rt) e = true -> cidrOverlaps p t = false).
Proof.
  intros Hw H. unfold create_tx in H. apply run_transaction in H. apply run_bind in H as (v & w1 & [= <- <-] & H).
  apply run_bind in H as (wl & w1 & Hwl & H). apply run_of_sum in Hwl as [Hwl ->].
  apply run_bind in H as ([] & w1 & H1 & H). apply run_throw_when in H1 as [-> ->].
  change (bt_parsed (mk_target t)) with t in H. unfold first_preferring in H.
  destruct (match List.find _ _ with Some _ => _ | None => _ end) as [dup|] eqn:Ef; [by destruct (_ && _)|].
  apply first_preferring_none in Ef. apply run_bind in H as (ip & w1 & Hip & H). apply run_of_option in Hip as [Hip ->].
  apply run_bind in H as (o & w1 & Hins & H). apply run_of_option in H as [-> ->].
  unfold insert_ban in Hins. destruct (violates _ _); [done|]. injection Hins as Hb Hw'.
  exists ip. split_and!; [done|done| |done|].
  - rewrite <- Hw'. cbn. by rewrite Hb.
  - intros e p He Hp Hd Ha. unfold isWhitelisted in Hwl. destruct (inet_in (cidr (mk_target t))) as [x|] eqn:Ex; [|done].
    injection Hwl as Hwl. rewrite existsb_false_forall in Hwl. specialize (Hwl e He). rewrite Ha, andb_true_r in Hwl.
    rewrite <- (inet_overlap_spec (wl_ip e) x p t); [done..|].
    rewrite mk_target_cidr in Ex by done. unfold cidr_text in Ex. destruct (Z.eqb_spec (prefix t) (bits (family t))) as [E|].
    + destruct (inet_in_host t Hw) as (i & Hi & Hdi). rewrite host_of_single in Hdi by done. congruence.
    + destruct (inet_in_network t Hw) as (i & Hi & Hdi). congruence.
Qed.

(** C2. A ban created by hand is sound. When [create] succeeds it adds exactly one row, the
    rows that were expired under the same target being ended first, and that row has: a
    target the safety contract accepts for its scope in the protected set of that moment;
    the scope rule of its tenant (global from Default only, group and agent scopes of the
    tenant's own targets); no applicable whitelist entry sharing an address with it; no
    visible active duplicate; an expiry in the future; and it is delivered to the devices
    as the canonical text of the network asked for. *)
Theorem created_ban_sound en data user tenantId adm defer checked (w w' : World PG) shown
    (Hw : wf_bans w) (Hr : reachable (w_protected w))
    (H : BanService.create en data user tenantId adm defer checked w = (inr shown, w')) :
  exists t b, parse_text (cidr_text t) = Some t
    /\ w_bans w' = map (stale_ended (en_now en) t) (w_bans w) ++ [b]
    /\ shown = rowToBan b (seesAllBans (Some tenantId)) (Some tenantId)
    /\ sound_ban en w data tenantId (map (stale_ended (en_now en) t) (w_bans w)) b t.
Proof.
  unfold BanService.create in H. apply run_bind in H as ([] & w1 & Hm & H).
  assert (Hw1 : exists c, w1 = with_caches c w).
  { destruct checked; [|by eapply membership_rows]. injection Hm as <-. exists (w_caches w). by destruct w. }
  destruct Hw1 as [c ->]. clear Hm. apply run_bind in H as (raw & w1 & Hraw & H). apply run_of_sum in Hraw as [Hraw ->].
  destruct (parseBanTarget _ true _) as [bt|] eqn:Et; [|done]. pose proof Et as Ht. apply parseBanTarget_ok in Ht as (t & Hpt & -> & _).
  pose proof (parseIpOrCidr_wf _ _ Hpt) as Hwf. change (bt_parsed (mk_target t)) with t in H.
  apply run_bind in H as (v & w1 & [= <- <-] & H). apply run_bind in H as ([[scope sid] rt] & w1 & Hs & H).
  apply run_of_sum in Hs as [Hs ->]. apply create_scope_spec in Hs. apply run_bind in H as ([] & w1 & [= <-] & H).
  apply run_bind in H as (cf & w1 & Hc & H). unfold safety_conflict in Hc. cbn [with_caches with_protected w_protected] in Hc.
  set (st := ensureInfraFresh (en_inputs en) (w_protected w)) in *.
  destruct (findBanSafetyConflict (en_inputs en) st t _ rt) as [cf' st'] eqn:Ec. injection Hc as -> <-.
  apply run_bind in H as ([] & w1 & H1 & H). apply run_throw_when in H1 as [Hnone ->]. apply bool_decide_eq_false in Hnone.
  apply run_bind in H as (expires & w1 & He & H). apply run_of_sum in He as [He ->]. apply create_expiry_future in He.
  apply run_bind in H as ([] & w1 & Hst & H). apply expireStale_run in Hst as (Hb1 & Hwl1 & _ & Hn1); [|by destruct Hw; split].
  cbn [with_protected with_caches w_bans w_whitelist w_next_ban] in Hb1, Hwl1, Hn1.
  apply run_bind in H as (b & w2 & Htx & H). apply create_tx_run in Htx as (ip & Hip & Hb & Hb2 & Hdup & Hwl2); [|done].
  apply run_bind in H as ([] & w3 & [= <-] & H). apply run_bind in H as ([] & w4 & [= <-] & H). injection H as <- <-.
  assert (Hst : reachable st) by by apply reach_infra.
  exists t, b. split; [by apply parse_text_cidr_text|]. split; [by rewrite <- Hb1|]. split; [done|]. subst b.
  split; cbn [new_ban b_scope b_scope_id b_tenant_id b_ban_type b_origin_tenant_id b_is_active b_expires_at]; try done.
  - exists raw. split; [done|]. fold st. apply checkBanTarget_accepted; [by apply reachable_wf|]. unfold checkBanTarget.
    rewrite Et. change (bt_parsed (mk_target t)) with t. rewrite Ec. destruct cf; [|done]. by destruct Hnone.
  - unfold deliveredBanTarget. by rewrite (stored_target _ t).
  - intros e p He' Hp Hd Ha. apply (Hwl2 e p); try done. by rewrite Hwl1.
  - intros r Hin. rewrite <- Hb1 in Hin. destruct (is_duplicate _ _ _ _ _ r) eqn:Ed; [|done]. exfalso.
    assert (Hf : In r (List.filter (is_duplicate (en_now en) t scope sid rt) (w_bans w1))) by by apply filter_In. by rewrite Hdup in Hf.
Qed.

End Create.

(** ** Remote imports *)

Section Remote.
Context {PG : PgInet} {L : PgInetLaws PG}.

(** A target as the blocklist and router imports build it: a validated network. *)
Definition remote_target (t : RemoteTarget) (p : ParsedCidr) : Prop :=
  wf_cidr p /\ rt_address t = address p /\ rt_prefix t = prefix p /\ rt_isNetwork t = (prefix p <? bits (family p)).

(** [w'] holds the rows of [w] and more; nothing else an import reads has changed. *)
Definition grown (w w' : World PG) (new : list (BanRow PG)) : Prop :=
  w_bans w' = w_bans w ++ new /\ w_whitelist w' = w_whitelist w.

Lemma wanted_grown o (w w' : World PG) new x : grown w w' new -> remote_wanted o w' x = true -> remote_wanted o w x = true.
Proof.
  intros [Hb Hwl]. unfold remote_wanted, remote_covered, remote_lifted. rewrite Hb, Hwl, !existsb_app.
  destruct (existsb _ (w_bans w)); [done|]. destruct (remote_whitelisted _ _ _); [by rewrite andb_false_r|].
  destruct (ro_respectLifts o); cbn [andb]; [|by destruct (existsb _ new)].
  destruct (existsb _ (w_bans w)); [by rewrite andb_false_r|]. by cbn.
Qed.

Lemma insert_ignore_grows mks (w : World PG) :
  (forall mk i j, In mk mks -> b_is_active (mk i) = true /\ ban_key (mk i) = ban_key (mk j)) ->
  exists new w', insert_ignore mks w = (inr new, w') /\ grown w w' new
    /\ (forall b, In b new -> exists mk i, In mk mks /\ b = mk i)
    /\ (forall mk, In mk mks -> exists r, In r (w_bans w') /\ b_is_active r = true /\ ban_key r = ban_key (mk 0)).
Proof.
  revert w. induction mks as [|mk mks IH]; intros w Hmk.
  { exists [], w. split_and!; try done. split; [by rewrite app_nil_r|done]. }
  cbn [insert_ignore]. unfold insert_ban at 1, bind at 1.
  assert (Hmk' : forall mk0 i j, In mk0 mks -> b_is_active (mk0 i) = true /\ ban_key (mk0 i) = ban_key (mk0 j)) by (intros; apply Hmk; by right).
  destruct (Hmk mk (w_next_ban w) 0 ltac:(by left)) as [Ha Hk].
  destruct (violates (w_bans w) (mk (w_next_ban w))) eqn:Hv.
  - destruct (IH (with_next_ban (w_next_ban w + 1) w) Hmk') as (new & w' & Hrun & Hg & Hnew & Hall).
    exists new, w'. rewrite (bind_run _ _ _ _ _ Hrun). split; [done|]. split; [exact Hg|].
    split; [intros b Hb; destruct (Hnew b Hb) as (m & i & Hm & ->); exists m, i; split; [by right|done]|].
    intros m [<-|Hm]; [|by apply Hall]. unfold violates in Hv. rewrite Ha in Hv. cbn [andb] in Hv.
    apply existsb_exists in Hv as (r & Hr & Hs). unfold same_key in Hs. apply andb_true_iff in Hs as [Hs1 Hs2].
    apply bool_decide_eq_true in Hs2. exists r. destruct Hg as [Hg _]. rewrite Hg. cbn [with_next_ban w_bans].
    split_and!; [apply in_app_iff; by left|done|congruence].
  - destruct (IH (with_bans (fun l => l ++ [mk (w_next_ban w)]) (with_next_ban (w_next_ban w + 1) w)) Hmk') as (new & w' & Hrun & [Hg Hg'] & Hnew & Hall).
    cbn [with_bans with_next_ban w_bans w_whitelist] in Hg, Hg'.
    exists (mk (w_next_ban w) :: new), w'. rewrite (bind_run _ _ _ _ _ Hrun). split; [done|].
    split; [split; [by rewrite Hg, <- app_assoc|done]|]. split.
    + intros b [<-|Hb]; [exists mk, (w_next_ban w); split; [by left|done]|].
      destruct (Hnew b Hb) as (m & i & Hm & ->). exists m, i. split; [by right|done].
    + intros m [<-|Hm]; [|by apply Hall]. exists (mk (w_next_ban w)). rewrite Hg.
      split_and!; [apply in_app_iff; left; apply in_app_iff; right; by left|done|done].
Qed.

(** The row made for a target. *)
Lemma remote_row_network en o t p ip i :
  remote_target t p -> inet_in (rt_address t) = Some ip ->
  let b := remote_row en o t ip i in
  networkSql b = set_masklen ip (rt_prefix t) /\ denotes (networkSql b) p /\ rowTarget b = Some p.
Proof.
  intros (Hw & Ea & Ep & En) Hip. rewrite Ea in Hip. destruct (inet_in_host p Hw) as (i' & Hi' & Hd). assert (i' = ip) as -> by congruence.
  cbv zeta. assert (Hnet : networkSql (remote_row en o t ip i) = set_masklen ip (prefix p)).
  { unfold networkSql, prefixSql. cbn [remote_row new_ban b_ip b_cidr_prefix]. rewrite En, Ep.
    destruct (Z.ltb_spec (prefix p) (bits (family p))); cbn [default]; [done|].
    rewrite (masklen_spec ip (host_of p)) by (done || by apply host_of_wf). cbn [host_of prefix].
    pose proof (wf_prefix p Hw). f_equal. lia. }
  rewrite Hnet, Ep. split; [done|]. split; [by apply set_masklen_host|].
  apply stored_target; [done|exact Hip|]. cbn [remote_row new_ban b_cidr_prefix]. by rewrite En, Ep.
Qed.

Lemma parse_addresses_some ts :
  Forall (fun t => exists p, remote_target t p) ts ->
  exists rows, parse_addresses ts = Some rows /\ map fst rows = ts /\ Forall (fun r => inet_in (rt_address (fst r)) = Some (snd r)) rows.
Proof.
  induction 1 as [|t ts (p & Hw & Ea & _) _ (rows & IH & E & HF)]; [by exists []|].
  destruct (inet_in_host p Hw) as (i & Hi & _). exists ((t, i) :: rows). cbn [parse_addresses fold_right].
  fold (parse_addresses ts). rewrite Ea, Hi, IH. cbn [map fst]. rewrite E. split_and!; [done|done|].
  constructor; [|done]. cbn. by rewrite Ea.
Qed.

Lemma contains_refl p : wf_cidr p -> cidrContains p p = true.
Proof. intros Hw. apply cidrContains_spec; [done|done|]. by split. Qed.

Lemma existsb_In {A} (p : A -> bool) l x : In x l -> p x = true -> existsb p l = true.
Proof. intros. apply existsb_exists. by exists x. Qed.

Lemma chunk_run en o ts (w : World PG) :
  Forall (fun t => exists p, remote_target t p) ts ->
  exists new w', remote_chunk en o ts w = (inr new, w') /\ grown w w' new
    /\ (forall b, In b new -> exists t p ip i, In t ts /\ remote_target t p /\ inet_in (rt_address t) = Some ip
          /\ b = remote_row en o t ip i /\ remote_wanted o w (networkSql b) = true)
    /\ (forall t p x, In t ts -> remote_target t p -> denotes x p -> remote_wanted o w' x = false).
Proof.
  intros Hts. destruct (parse_addresses_some ts Hts) as (rows & Hrows & Hfst & HF). rewrite Forall_forall in HF.
  unfold remote_chunk. unfold bind at 1, get at 1. rewrite Hrows. unfold bind at 1, of_option, ret at 1.
  set (chosen := List.filter _ rows).
  assert (Hin : forall r, In r chosen <-> In r rows /\ remote_wanted o w (set_masklen (snd r) (rt_prefix (fst r))) = true)
    by (intros r; unfold chosen; by rewrite filter_In).
  destruct (insert_ignore_grows (map (fun r => remote_row en o (fst r) (snd r)) chosen) w) as (new & w' & Hrun & Hg & Hnew & Hall).
  { intros mk i j Hmk. apply in_map_iff in Hmk as (r & <- & _). done. }
  exists new, w'. split; [done|]. split; [done|].
  assert (Hrow : forall r, In r rows -> In (fst r) ts /\ inet_in (rt_address (fst r)) = Some (snd r)).
  { intros r Hr. split; [rewrite <- Hfst; by apply in_map|]. by apply HF, list_elem_of_In. }
  rewrite Forall_forall in Hts. split.
  - intros b Hb. destruct (Hnew b Hb) as (mk & i & Hmk & ->). apply in_map_iff in Hmk as (r & <- & Hr). apply Hin in Hr as [Hr Hwant].
    destruct (Hrow r Hr) as [Ht Hip]. destruct (Hts (fst r) ltac:(by apply list_elem_of_In)) as (p & Hp).
    exists (fst r), p, (snd r), i. split_and!; try done. by rewrite (proj1 (remote_row_network en o _ p _ i Hp Hip)).
  - intros t p x Ht Hp Hx. rewrite <- Hfst in Ht. apply in_map_iff in Ht as (r & <- & Hr). destruct (Hrow r Hr) as [_ Hip].
    destruct (remote_row_network en o _ p _ 0 Hp Hip) as (Hnet & Hden & _).
    assert (Hxe : x = set_masklen (snd r) (rt_prefix (fst r))) by (rewrite <- Hnet; eapply denotes_ext; [|done|done]; apply Hp).
    destruct (remote_wanted o w' x) eqn:Hwant; [|done]. exfalso.
    assert (Hc : In r chosen) by (apply Hin; split; [done|]; rewrite <- Hxe; by eapply wanted_grown).
    destruct (Hall (remote_row en o (fst r) (snd r))) as (r' & Hr' & Ha & Hk); [apply in_map_iff; by exists r|].
    injection Hk as K1 K2 K3 _ _. unfold remote_wanted, remote_covered in Hwant.
    rewrite (existsb_In _ (w_bans w') r' Hr') in Hwant; [done|]. rewrite Ha. change (b_scope (remote_row en o r.1 r.2 0)) with "global" in K3.
    rewrite K3. cbn [andb String.eqb]. rewrite (inet_sup_spec _ x p p); [by rewrite contains_refl by apply Hp|apply Hp|apply Hp| |done].
    unfold networkSql. rewrite K1, K2. exact Hden.
Qed.

Lemma grown_trans (w1 w2 w3 : World PG) l1 l2 : grown w1 w2 l1 -> grown w2 w3 l2 -> grown w1 w3 (l1 ++ l2).
Proof. intros [B1 W1] [B2 W2]. split; [by rewrite B2, B1, app_assoc|congruence]. Qed.

Lemma chunks_run en o cs (w : World PG) :
  Forall (fun t => exists p, remote_target t p) (concat cs) ->
  exists new w', remote_chunks en o cs w = (inr new, w') /\ grown w w' new
    /\ (forall b, In b new -> exists t p ip i, In t (concat cs) /\ remote_target t p /\ inet_in (rt_address t) = Some ip
          /\ b = remote_row en o t ip i /\ remote_wanted o w (networkSql b) = true)
    /\ (forall t p x, In t (concat cs) -> remote_target t p -> denotes x p -> remote_wanted o w' x = false).
Proof.
  revert w. induction cs as [|c cs IH]; intros w Hts.
  { exists [], w. split_and!; try done. split; [by rewrite app_nil_r|done]. }
  cbn [concat] in Hts. apply Forall_app in Hts as [Hc Hcs]. destruct (chunk_run en o c w Hc) as (l1 & w1 & R1 & G1 & N1 & A1).
  destruct (IH w1 Hcs) as (l2 & w2 & R2 & G2 & N2 & A2). exists (l1 ++ l2), w2.
  cbn [remote_chunks]. rewrite (bind_run _ _ _ _ _ R1), (bind_run _ _ _ _ _ R2). split; [done|]. split; [by eapply grown_trans|].
  cbn [concat]. split.
  - intros b [Hb|Hb]%in_app_iff.
    + destruct (N1 b Hb) as (t & p & ip & i & Ht & H). exists t, p, ip, i. split; [apply in_app_iff; by left|done].
    + destruct (N2 b Hb) as (t & p & ip & i & Ht & Hp & Hip & E & Hwant). exists t, p, ip, i.
      split; [apply in_app_iff; by right|]. split_and!; try done. by eapply wanted_grown.
  - intros t p x [Ht|Ht]%in_app_iff Hp Hx; [|by eapply A2]. destruct (remote_wanted o w2 x) eqn:E; [|done].
    apply (wanted_grown o w1 w2 l2 x G2) in E. by rewrite (A1 t p x Ht Hp Hx) in E.
Qed.

Lemma import_run en ts o (w : World PG) : Forall (fun t => exists p, remote_target t p) ts ->
  exists new w', createRemoteBans en ts o w = (inr (Z.of_nat (length new)), w') /\ grown w w' new
    /\ (forall b, In b new -> exists t p ip i, In t ts /\ remote_target t p /\ inet_in (rt_address t) = Some ip
          /\ b = remote_row en o t ip i /\ remote_wanted o w (networkSql b) = true)
    /\ (forall t p x, In t ts -> remote_target t p -> denotes x p -> remote_wanted o w' x = false).
Proof.
  intros Hts. assert (Hcat : concat (chunks REMOTE_INSERT_CHUNK ts) = ts) by (apply concat_chunks; unfold REMOTE_INSERT_CHUNK; lia).
  destruct (chunks_run en o (chunks REMOTE_INSERT_CHUNK ts) w) as (new & w' & Hr & Hg & Hnew & Hall); [by rewrite Hcat|].
  rewrite Hcat in Hnew, Hall. unfold createRemoteBans. rewrite (bind_run _ _ _ _ _ Hr). destruct new as [|b new]; [by exists [], w'|].
  eexists (b :: new), _. split; [done|]. by split.
Qed.

(** C11. A remote import creates exactly what is missing. On validated targets it never
    fails; it only adds rows, and every row added is an active global row of the source,
    read back as the network of one of the targets, that was not inside an active global
    ban, nor inside a whitelist entry, nor (when the lifts are respected) lifted by an
    operator before. Afterwards no target is missing: each is covered, whitelisted or
    lifted, so repeating the import adds nothing. *)
Theorem remote_import_exact en ts o (w : World PG) (Hts : Forall (fun t => exists p, remote_target t p) ts) :
  exists new w', createRemoteBans en ts o w = (inr (Z.of_nat (length new)), w')
    /\ w_bans w' = w_bans w ++ new
    /\ (forall b, In b new -> exists t p, In t ts /\ remote_target t p /\ rowTarget b = Some p
          /\ b_scope b = "global" /\ b_ban_type b = "remote" /\ b_is_active b = true /\ b_origin_ref b = Some (ro_originRef o)
          /\ remote_wanted o w (networkSql b) = true)
    /\ (forall t p x, In t ts -> remote_target t p -> denotes x p -> remote_wanted o w' x = false)
    /\ exists w'', createRemoteBans en ts o w' = (inr 0, w'') /\ w_bans w'' = w_bans w'.
Proof.
  assert (Hrun := fun w => import_run en ts o w Hts).
  destruct (Hrun w) as (new & w' & Hr & [Hb Hwl] & Hnew & Hall). exists new, w'. split_and!; try done.
  - intros b Hin. destruct (Hnew b Hin) as (t & p & ip & i & Ht & Hp & Hip & -> & Hwant). exists t, p.
    split_and!; try done. by apply (remote_row_network en o t p ip i).
  - destruct (Hrun w') as (new2 & w2 & Hr2 & [Hb2 _] & Hnew2 & _). destruct new2 as [|b new2]; [exists w2; by rewrite Hb2, app_nil_r|].
    exfalso. destruct (Hnew2 b ltac:(by left)) as (t & p & ip & i & Ht & Hp & Hip & -> & Hwant).
    rewrite (Hall t p) in Hwant; [done|done|done|]. by apply (remote_row_network en o t p ip i).
Qed.

End Remote.

(** ** Bans of other applications *)

Section External.
Context {PG : PgInet} {L : PgInetLaws PG}.

(** No later than, [None] being never. *)
Definition within (a b : option Z) : Prop := match a, b with _, None => True | None, Some _ => False | Some x, Some y => x <= y end.

Lemma next_expiry_extends current given : within current (next_expiry current given) /\ within given (next_expiry current given).
Proof.
  unfold next_expiry, within. destruct given as [g|], current as [c|]; try done. destruct (Z.ltb_spec c g); lia.
Qed.

Lemma find_or_head {A} (p : A -> bool) l x : match List.find p l with Some b => Some b | None => head l end = Some x -> In x l.
Proof. destruct (List.find p l) eqn:E; [intros [= <-]; by apply find_some in E as [? _]|]. destruct l; [done|]. intros [= <-]. by left. Qed.

Lemma head_refreshed (rows : list (BanRow PG)) cur (f : BanRow PG -> BanRow PG) :
  NoDup (map b_id rows) -> In cur rows ->
  head (map f (List.filter (fun b => b_id b =? b_id cur) rows)) = Some (f cur).
Proof.
  intros Hnd Hin. pose proof (find_unique b_id rows cur Hnd Hin) as Hf. induction rows as [|r rows IH]; [done|].
  cbn [List.find List.filter map] in *. destruct (b_id r =? b_id cur); [by injection Hf as ->|]. apply IH; [by apply NoDup_cons in Hnd as [_ ?]| |done].
  destruct Hin as [->|]; [|done]. apply find_some in Hf as [? _]. done.
Qed.

Lemma external_tx_run en args t (w w' : World PG) o :
  NoDup (map b_id (w_bans w)) -> wf_cidr t -> prefix t = bits (family t) ->
  external_tx en args t w = (inr o, w') ->
  (exists cur, In cur (w_bans w) /\ active_global t cur = true /\
     if String.eqb (b_ban_type cur) "external"
     then let next := next_expiry (b_expires_at cur) (ea_expiresAt args) in
          o = Some {| er_row := refreshed next (ea_sourceApp args) cur; er_isNew := false; er_changed := true |}
          /\ w_bans w' = map (fun r => if b_id r =? b_id cur then refreshed next (ea_sourceApp args) r else r) (w_bans w)
     else o = Some {| er_row := cur; er_isNew := false; er_changed := false |} /\ w' = w)
  \/ (List.filter (active_global t) (w_bans w) = [] /\ exists ip b, inet_in (address t) = Some ip
     /\ b = new_ban en ip None (ea_reason args) "external" "global" None None (Some (ea_masterTenantId args)) (Some (ea_sourceApp args)) None None
              (ea_expiresAt args) (w_next_ban w)
     /\ o = Some {| er_row := b; er_isNew := true; er_changed := true |} /\ w_bans w' = w_bans w ++ [b]).
Proof.
  intros Hnd Hw Hfull H. unfold external_tx in H. apply run_bind in H as (v & w1 & [= <- <-] & H). unfold first_preferring in H.
  destruct (match List.find _ _ with Some _ => _ | None => _ end) as [cur|] eqn:Ef.
  - apply find_or_head, filter_In in Ef as [Hin Ha]. left. exists cur. split; [done|]. split; [done|].
    destruct (String.eqb (b_ban_type cur) "external"); [|by injection H as <- <-]. cbv zeta.
    apply run_bind in H as (rows & w1 & [= <- <-] & H). apply run_bind in H as (row & w1 & Ho & H).
    apply run_of_option in Ho as [Hrow ->]. injection H as <- <-. rewrite head_refreshed in Hrow by done.
    injection Hrow as <-. done.
  - apply first_preferring_none in Ef. right. split; [done|]. apply run_bind in H as (ip & w1 & Hip & H).
    apply run_of_option in Hip as [Hip ->]. apply run_bind in H as (o' & w1 & Hins & H). injection H as <- <-.
    unfold insert_ban in Hins. destruct (violates _ _) eqn:Hv.
    + exfalso. unfold violates in Hv. cbn [new_ban b_is_active andb] in Hv. apply existsb_exists in Hv as (r & Hr & Hs).
      unfold same_key in Hs. apply andb_true_iff in Hs as [Ha Hk]. apply bool_decide_eq_true in Hk. injection Hk as K1 K2 K3 _ _.
      assert (Hf : In r (List.filter (active_global t) (w_bans w))); [|by rewrite Ef in Hf]. apply filter_In. split; [done|].
      destruct (inet_in_host t Hw) as (i & Hi & Hd). assert (i = ip) as -> by congruence.
      unfold active_global. rewrite Ha. change (b_scope r = "global") in K3. change (b_ip r = ip) in K1.
      rewrite K3, K1, Hip, bool_decide_true by done. cbn [andb String.eqb]. apply Z.eqb_eq.
      unfold prefixSql at 2 in K2. cbn [new_ban b_ip b_cidr_prefix default] in K2. rewrite K2.
      rewrite (masklen_spec ip (host_of t)) by (done || by apply host_of_wf). done.
    + injection Hins as <- <-. eexists ip, _. by split_and!.
Qed.

(** A ban pushed by another application is idempotent and never undoes a Lift. When
    [createFromExternal] succeeds the target is a single address accepted by the safety
    contract for a global ban. If an active global row of the address exists, no row is
    added and the answer is "not new": an external row only has its expiry moved later
    (never earlier than before, nor than asked) and its origin filled in, any other row is
    left as it is. Otherwise one external row is added. In both cases every row that was
    lifted or scoped stays as it was. *)
Theorem external_push_exact en args (w w' : World PG) shown isNew
    (Hw : wf_bans w) (Hr : reachable (w_protected w)) (H : createFromExternal en args w = (inr (shown, isNew), w')) :
  exists t, parse_text (ea_ip args) = Some t /\ prefix t = bits (family t)
    /\ accepted (en_inputs en) (ensureInfraFresh (en_inputs en) (w_protected w)) (JStr (ea_ip args)) false true None (mk_target t)
    /\ let rows := map (stale_ended (en_now en) t) (w_bans w) in
       if isNew
       then List.filter (active_global t) rows = []
            /\ exists b, w_bans w' = rows ++ [b] /\ b_ban_type b = "external" /\ b_scope b = "global" /\ b_is_active b = true
                 /\ b_expires_at b = ea_expiresAt args /\ b_origin_app b = Some (ea_sourceApp args) /\ rowTarget b = Some t
                 /\ shown = rowToBan b false None
       else exists cur next, In cur rows /\ active_global t cur = true
            /\ within (b_expires_at cur) next
            /\ w_bans w' = map (fun r => if (b_id r =? b_id cur) && String.eqb (b_ban_type cur) "external"
                                         then refreshed next (ea_sourceApp args) r else r) rows
            /\ (b_ban_type cur = "external" -> within (ea_expiresAt args) next).
Proof.
  unfold createFromExternal in H. apply run_bind in H as ([] & w1 & [= <-] & H).
  apply run_bind in H as (chk & w1 & Hc & H). unfold check_target in Hc. cbn [with_protected w_protected] in Hc.
  set (st := ensureInfraFresh (en_inputs en) (w_protected w)) in *.
  destruct (checkBanTarget (en_inputs en) st _ false true None) as [r st'] eqn:Ec. injection Hc as -> <-.
  destruct chk as [bt|]; [|done].
  assert (Hacc : accepted (en_inputs en) st (JStr (ea_ip args)) false true None bt).
  { apply checkBanTarget_accepted; [by apply reachable_wf, reach_infra|by rewrite Ec]. }
  unfold checkBanTarget in Ec. destruct (parseBanTarget _ _ _) as [bt'|] eqn:Et; [|done].
  destruct (findBanSafetyConflict _ _ _ _ _) as [[c|] ?]; [done|]. injection Ec as -> _.
  apply parseBanTarget_ok in Et as (t & Hpt & -> & Hal & _). pose proof (parseIpOrCidr_wf _ _ Hpt) as Hwf.
  assert (Hfull : prefix t = bits (family t)).
  { pose proof (wf_prefix t Hwf). destruct (Z_lt_dec (prefix t) (bits (family t))) as [Hlt|]; [by apply Hal in Hlt|lia]. }
  change (bt_parsed (mk_target t)) with t in H. apply run_bind in H as (v & w1 & [= <- <-] & H).
  apply run_bind in H as (wl & w1 & Hwl & H). apply run_of_sum in Hwl as [Hwl ->].
  apply run_bind in H as ([] & w1 & H1 & H). apply run_throw_when in H1 as [-> ->].
  apply run_bind in H as ([] & w1 & Hst & H). apply expireStale_run in Hst as (Hb1 & _ & _ & _); [|by destruct Hw; split].
  cbn [with_protected w_bans] in Hb1. apply run_bind in H as (o & w2 & Htx & H). apply run_transaction in Htx.
  assert (Hnd : NoDup (map b_id (w_bans w1))).
  { rewrite Hb1, map_map. rewrite (map_ext _ b_id); [by apply Hw|]. intros r. unfold stale_ended. by destruct (_ && _). }
  exists t. split; [exact Hpt|]. split; [done|]. split; [exact Hacc|]. cbv zeta.
  apply external_tx_run in Htx; [|done..]. rewrite <- Hb1.
  destruct Htx as [(cur & Hin & Ha & Hcur)|(Hno & ip & b & Hip & -> & -> & Hb2)].
  - assert (Hres : exists res, o = Some res /\ er_isNew res = false) by (destruct (String.eqb (b_ban_type cur) "external"), Hcur as [-> _]; eauto).
    destruct Hres as (res & -> & Hn). apply run_bind in H as (res' & w3 & [= <- <-] & H).
    apply run_bind in H as ([] & w4 & [= <-] & H). injection H as _ <- <-. rewrite Hn.
    exists cur, (next_expiry (b_expires_at cur) (ea_expiresAt args)). destruct (next_expiry_extends (b_expires_at cur) (ea_expiresAt args)).
    split_and!; try done. cbn [with_effects w_bans].
    destruct (String.eqb (b_ban_type cur) "external"); destruct Hcur as [_ Hcur].
    + rewrite Hcur. apply map_ext. intros r. by rewrite andb_true_r.
    + rewrite Hcur. symmetry. erewrite map_ext; [apply map_id|]. intros r. cbv beta. by rewrite andb_false_r.
  - apply run_bind in H as (res' & w3 & [= <- <-] & H). apply run_bind in H as ([] & w4 & [= <-] & H). injection H as <- <- <-.
    cbn [er_isNew]. split; [done|]. eexists. split; [exact Hb2|]. split_and!; try done.
    apply stored_target; [done|exact Hip|]. cbn [new_ban b_cidr_prefix]. unfold network_prefix. rewrite is_network_cidr.
    by rewrite (proj2 (Z.ltb_ge _ _)) by lia.
Qed.

End External.

(** ** At work on the sample store *)

Lemma sample_reachable : reachable (w_protected sample_bans).
Proof. constructor. Qed.

(** Tenant 3 bans a network it may ban, until a date in the future. *)
Definition sample_request : js := JObj [("ip", JStr " 8.8.4.0/24"); ("reason", JStr "scan")].
Lemma created_ban_sound_witness :
  exists t b w', snd (BanService.create sample_env sample_request 7 3 true false false sample_bans) = w'
    /\ w_bans w' = map (stale_ended (en_now sample_env) t) (w_bans sample_bans) ++ [b] /\ deliveredBanTarget b true = cidr_text t.
Proof.
  assert (Hok : match fst (BanService.create sample_env sample_request 7 3 true false false sample_bans) with inr _ => true | inl _ => false end = true)
    by (vm_compute; reflexivity).
  destruct (BanService.create sample_env sample_request 7 3 true false false sample_bans) as [[e|shown] w'] eqn:E; [discriminate Hok|].
  destruct (created_ban_sound sample_env sample_request 7 3 true false false sample_bans w' shown sample_bans_wf sample_reachable E)
    as (t & b & _ & H2 & _ & H4).
  exists t, b, w'. split; [reflexivity|]. split; [exact H2|exact (sb_delivered _ _ _ _ _ _ _ H4)].
Defined.

(** A blocklist with a new address, one inside the /24 already banned, and a duplicate. *)
Definition sample_target (a : string) (n : Z) (net : bool) : RemoteTarget := {| rt_address := a; rt_prefix := n; rt_isNetwork := net; rt_reason := None |}.
Definition sample_list : list RemoteTarget := [sample_target "8.8.4.4" 32 false; sample_target "203.0.113.9" 32 false; sample_target "8.8.4.4" 32 false].
Definition sample_import : RemoteOptions :=
  {| ro_originRef := "blocklist:1"; ro_originTenantId := Some 1; ro_reason := "list"; ro_whitelist := no_context; ro_respectLifts := true |}.

Lemma sample_list_targets : Forall (fun t => exists p, remote_target t p) sample_list.
Proof.
  assert (H : forall s a, parse_text s = Some {| address := a; family := V4; prefix := 32 |} -> exists p, remote_target (sample_target a 32 false) p).
  { intros s a Hs. eexists. split; [by eapply (parseIpOrCidr_wf (JStr s))|done]. }
  repeat constructor; [apply (H "8.8.4.4")|apply (H "203.0.113.9")|apply (H "8.8.4.4")]; vm_compute; reflexivity.
Qed.

Lemma remote_import_exact_witness :
  exists new w', createRemoteBans sample_env sample_list sample_import sample_bans = (inr (Z.of_nat (length new)), w')
    /\ w_bans w' = w_bans sample_bans ++ new.
Proof.
  destruct (remote_import_exact sample_env sample_list sample_import sample_bans sample_list_targets) as (new & w' & H1 & H2 & _).
  exists new, w'. split; [exact H1|exact H2].
Defined.

Definition sample_push : ExternalArgs :=
  {| ea_ip := "8.8.4.4"; ea_reason := None; ea_sourceApp := "oblihub"; ea_expiresAt := None; ea_masterTenantId := 1 |}.
Lemma external_push_exact_witness :
  exists t w', snd (createFromExternal sample_env sample_push sample_bans) = w' /\ parse_text "8.8.4.4" = Some t
    /\ exists b, w_bans w' = map (stale_ended (en_now sample_env) t) (w_bans sample_bans) ++ [b] /\ b_ban_type b = "external".
Proof.
  assert (Hok : match fst (createFromExternal sample_env sample_push sample_bans) with inr (_, n) => n | inl _ => false end = true)
    by (vm_compute; reflexivity).
  destruct (createFromExternal sample_env sample_push sample_bans) as [[e|[shown new]] w'] eqn:E; [discriminate Hok|]. cbn [fst] in Hok. subst new.
  destruct (external_push_exact sample_env sample_push sample_bans w' shown true sample_bans_wf sample_reachable E)
    as (t & H1 & _ & _ & _ & b & H2 & H3 & _).
  exists t, w'. split; [reflexivity|]. split; [exact H1|]. exists b. split; [exact H2|exact H3].
Defined.
