(* ===== verification/BanEngine.v ===== *)
(** * The auto-ban engine ([BanEngine] of [server/src/services/ban.service.ts])

    One evaluation cycle: the agents evaluated, the failures counted per template window
    behind the lift watermark, the candidates, the batch of global auto-bans with their
    events, the agents under attack, the burst alerts, and the run guard. What the
    settings and template resolvers answer are inputs of the cycle. *)

From S2P Require Import Prelude JsString JsValue JsNumber IpValidation ProtectedIps Tenancy Access SocketRooms BanPolicy PgInet Store Hoare Whitelist BanRules BanService BanImport BanAuthority BanLift BanEntry.
Local Open Scope mon_scope.

Definition AUTO_BAN_BURST_THRESHOLD : Z := 10.
Definition BAN_BURST_QUIET_MS : Z := 24 * 60 * 60 * 1000.
Definition BAN_BURST_SWEEP_MS : Z := 10 * 60 * 1000.
Definition ATTACK_WINDOW_MS : Z := 10 * 60 * 1000.

(** [ResolvedServiceConfig], the fields the engine reads. *)
Record ResolvedServiceConfig := {
  sc_serviceType : string; sc_windowSeconds : Z; sc_threshold : Z; sc_enabled : bool; sc_mode : string
}.
Record EngineDevice := { ed_id : Z; ed_status : string; ed_group : option Z; ed_tenant : Z; ed_evaluate_only : bool }.

(** A row of [ip_events]; times are in milliseconds. *)
Record IpEvent {PG : PgInet} := {
  ev_device : option Z; ev_ip : inet; ev_tenant : Z; ev_service : string; ev_type : string; ev_track_only : bool; ev_time : Z
}.
Arguments IpEvent : clear implicits.

(** What a cycle reads: tables, [autoBanDisabledIds] ([None]: it failed) and
    [resolveForAgents] of a device and its groups ([None]: it failed). *)
Record EngineDb {PG : PgInet} := {
  eb_devices : list EngineDevice;
  eb_evalOnlyGroups : list Z;
  eb_closure : list (Z * Z);       (** (descendant, ancestor), closest first *)
  eb_autoBanOff : option (list Z);
  eb_resolved : option (Z -> list Z -> list ResolvedServiceConfig);
  eb_events : list (IpEvent PG)
}.
Arguments EngineDb : clear implicits.

(** (serviceType, windowSeconds, threshold): the text [windowKey] joins with NUL. *)
Definition WindowKey : Type := string * Z * Z.
Definition windowKey (c : ResolvedServiceConfig) : WindowKey := (sc_serviceType c, sc_windowSeconds c, sc_threshold c).

Record AutoBanCandidate := { ab_ip : string; ab_tenantId : Z; ab_service : string; ab_failureCount : Z }.
Record CreatedAutoBan := { ca_candidate : AutoBanCandidate; ca_id : Z; ca_ttlSeconds : option Z }.

Section Engine.
Context {PG : PgInet} (inet_before : inet -> inet -> bool).

(** ** The agents evaluated *)

Definition ancestryOf (closure : list (Z * Z)) (group : option Z) : list Z :=
  match group with
  | Some g => if g =? 0 then [] else map snd (List.filter (fun r => fst r =? g) closure)
  | None => []
  end.

(** Approved devices that are not in dry-run, with their groups. *)
Definition observed (db : EngineDb PG) : list (EngineDevice * list Z) :=
  List.filter (fun r => negb (ed_evaluate_only (fst r)) && negb (existsb (fun g => mem g (eb_evalOnlyGroups db)) (snd r)))
    (map (fun d => (d, ancestryOf (eb_closure db) (ed_group d))) (List.filter (fun d => String.eqb (ed_status d) "approved") (eb_devices db))).

(** Without those whose auto-ban setting is off; the setting fails open. *)
Definition evaluated (db : EngineDb PG) : list (EngineDevice * list Z) :=
  List.filter (fun r => negb (mem (ed_id (fst r)) (default [] (eb_autoBanOff db)))) (observed db).

(** Enabled ban-mode templates of each device; no resolver answer, no plan. *)
Definition engine_plan (db : EngineDb PG) : list (EngineDevice * list ResolvedServiceConfig) :=
  match eb_resolved db with
  | None => []
  | Some resolve => map (fun r => (fst r, List.filter (fun c => sc_enabled c && String.eqb (sc_mode c) "ban") (resolve (ed_id (fst r)) (snd r)))) (evaluated db)
  end.

(** [windows]: a Map in insertion order, each key with the devices that share it. *)
Fixpoint add_window (k : WindowKey) (dev : Z) (ws : list (WindowKey * list Z)) : list (WindowKey * list Z) :=
  match ws with
  | [] => [(k, [dev])]
  | (k', ds) :: r => if bool_decide (k = k') then (k', if mem dev ds then ds else ds ++ [dev]) :: r else (k', ds) :: add_window k dev r
  end.
Definition windows (plan : list (EngineDevice * list ResolvedServiceConfig)) : list (WindowKey * list Z) :=
  fold_left (fun ws p => fold_left (fun ws c => add_window (windowKey c) (ed_id (fst p)) ws) (snd p) ws) plan [].

(** ** Failures of a window *)

(** [timestamp > COALESCE(max(lifted_at), -infinity)]: newer than every global deactivation
    of the address, those of a remote source excepted. *)
Definition after_watermark (bans : list (BanRow PG)) (e : IpEvent PG) : bool :=
  forallb (fun b => match b_lifted_at b with
                    | Some l => negb (bool_decide (b_ip b = ev_ip e) && String.eqb (b_scope b) "global"
                                      && negb (bool_decide (b_lift_reason b = Some "remote_sync"))) || (l <? ev_time e)
                    | None => true
                    end) bans.

Definition counts (now : Z) (bans : list (BanRow PG)) (k : WindowKey) (devs : list Z) (e : IpEvent PG) : bool :=
  match ev_device e with Some d => mem d devs | None => false end
  && String.eqb (ev_service e) (fst (fst k)) && String.eqb (ev_type e) "auth_failure" && negb (ev_track_only e)
  && (now - snd (fst k) * 1000 <=? ev_time e) && after_watermark bans e.

(** One row of the grouped aggregate. *)
Record Hit := { ht_device : Z; ht_ip : inet; ht_tenant : Z; ht_count : Z }.
Definition event_group (e : IpEvent PG) : Z * inet * Z := (default 0 (ev_device e), ev_ip e, ev_tenant e).

(** ORDER BY device_id, ip *)
Definition group_before (a b : Z * inet * Z) : bool :=
  (fst (fst a) <? fst (fst b)) || ((fst (fst a) =? fst (fst b)) && inet_before (snd (fst a)) (snd (fst b))).
Fixpoint insert_group (g : Z * inet * Z) (l : list (Z * inet * Z)) : list (Z * inet * Z) :=
  match l with
  | [] => [g]
  | x :: r => if group_before x g then x :: insert_group g r else g :: x :: r
  end.
Definition sort_groups (l : list (Z * inet * Z)) : list (Z * inet * Z) := fold_right insert_group [] l.

Definition window_hits (now : Z) (bans : list (BanRow PG)) (events : list (IpEvent PG)) (k : WindowKey) (devs : list Z) : list Hit :=
  let l := List.filter (counts now bans k devs) events in
  omap (fun g => let n := Z.of_nat (length (List.filter (fun e => bool_decide (event_group e = g)) l)) in
                 if snd k <=? n then Some {| ht_device := fst (fst g); ht_ip := snd (fst g); ht_tenant := snd g; ht_count := n |} else None)
    (sort_groups (uniq (map event_group l))).

(** [hits.get(`key|device`)] *)
Definition hits_of (now : Z) (bans : list (BanRow PG)) (events : list (IpEvent PG)) (ws : list (WindowKey * list Z)) (k : WindowKey) (dev : Z) : list Hit :=
  List.filter (fun h => ht_device h =? dev)
    (flat_map (fun w => if bool_decide (fst w = k) then window_hits now bans events k (snd w) else []) ws).

(** [evaluateThresholds], up to the candidates. *)
Definition evaluateThresholds (now : Z) (db : EngineDb PG) (bans : list (BanRow PG)) : list AutoBanCandidate :=
  let plan := engine_plan db in
  let ws := windows plan in
  flat_map (fun p => flat_map (fun c =>
      map (fun h => {| ab_ip := inet_out (ht_ip h); ab_tenantId := ht_tenant h; ab_service := sc_serviceType c; ab_failureCount := ht_count h |})
        (hits_of now bans (eb_events db) ws (windowKey c) (ed_id (fst p)))) (snd p)) plan.

(** ** The bans of a cycle *)

(** Safe candidates by canonical address, the first one of each (the log of refusals is left out). *)
Fixpoint safe_candidates (en : Env) (cs : list AutoBanCandidate) (checked : list string) (acc : list AutoBanCandidate) : M PG (list AutoBanCandidate) :=
  match cs with
  | [] => ret acc
  | c :: r =>
      if existsb (String.eqb (ab_ip c)) checked then safe_candidates en r checked acc
      else (chk <- check_target en (JStr (ab_ip c)) false true None ;;
            let acc := match chk with
                       | BT_err _ _ => acc
                       | BT_ok t =>
                           let ip := address (bt_parsed t) in
                           if existsb (fun a => String.eqb (ab_ip a) ip) acc then acc
                           else acc ++ [ {| ab_ip := ip; ab_tenantId := ab_tenantId c; ab_service := ab_service c; ab_failureCount := ab_failureCount c |} ]
                       end in
            safe_candidates en r (checked ++ [ab_ip c]) acc)%mon
  end.

(** Active global bans of an address or of a network containing it. *)
Definition covering (bans : list (BanRow PG)) (x : inet) : list (BanRow PG) :=
  List.filter (fun b => String.eqb (b_scope b) "global" && b_is_active b && inet_sup (networkSql b) x) bans.

Definition read_addresses (cs : list AutoBanCandidate) : option (list (AutoBanCandidate * inet)) :=
  fold_right (fun c acc => match inet_in (ab_ip c), acc with Some x, Some l => Some ((c, x) :: l) | _, _ => None end) (Some []) cs.

Definition auto_reason (c : AutoBanCandidate) : string :=
  "Auto-ban: " +:+ dec (ab_failureCount c) +:+ " " +:+ ab_service c +:+ " auth failures".

Definition prior_count (bans : list (BanRow PG)) (x : inet) : Z :=
  Z.of_nat (length (List.filter (fun b => bool_decide (b_ip b = x) && (prefixSql b =? masklen (b_ip b))) bans)).

Definition auto_row (en : Env) (policy : BanPolicy) (priors : inet -> Z) (r : AutoBanCandidate * inet) : Z -> BanRow PG :=
  new_ban en (snd r) None (Some (auto_reason (fst r))) "auto" "global" None None (Some (ab_tenantId (fst r))) None None None
    (expiresAt policy (priors (snd r)) (en_now en)).

Fixpoint insert_chunks (cs : list (list (Z -> BanRow PG))) : M PG (list (BanRow PG)) :=
  match cs with
  | [] => ret []
  | c :: r => (l <- insert_ignore c ;; rest <- insert_chunks r ;; ret (l ++ rest))%mon
  end.

(** [idOf], from the text of the rows returned. *)
Definition idOf (rows : list (BanRow PG)) (ip : string) : option Z :=
  fold_left (fun acc b => match parse_text (inet_out (b_ip b)) with Some p => if String.eqb (address p) ip then Some (b_id b) else acc | None => acc end) rows None.

Definition auto_events (io : bool) (b : CreatedAutoBan) : list Effect :=
  let c := ca_candidate b in
  map Emit (emitGlobal io "ban:auto" (P_auto (ca_id b) (ab_ip c) (ab_service c) (ab_failureCount c) None)
              {[ MASTER_TENANT_ID := P_auto (ca_id b) (ab_ip c) (ab_service c) (ab_failureCount c) (Some (ab_tenantId c)) ]})
  ++ [Push (ab_ip c) A_ban None].

(** Bans per origin tenant, a Map in insertion order. *)
Fixpoint bump (t : Z) (l : list (Z * Z)) : list (Z * Z) :=
  match l with
  | [] => [(t, 1)]
  | (t', n) :: r => if t =? t' then (t', n + 1) :: r else (t', n) :: bump t r
  end.
Definition per_tenant (bans : list CreatedAutoBan) : list (Z * Z) := fold_left (fun m b => bump (ab_tenantId (ca_candidate b)) m) bans [].

Definition priors_of (policy : BanPolicy) (w : World PG) (x : inet) : Z := if needsPriorCounts policy then prior_count (w_bans w) x else 0.
Definition global_whitelisted (w : World PG) (x : inet) : bool :=
  existsb (fun e => inet_sup (wl_ip e) x && whereWhitelistApplies no_context e) (w_whitelist w).

(** From the whitelist lookup on: the addresses not covered. *)
Definition insert_auto (en : Env) (policy : BanPolicy) (uncovered : list (AutoBanCandidate * inet)) : M PG (list CreatedAutoBan) :=
  (w <- get ;;
  let toBan := List.filter (fun r => negb (global_whitelisted w (snd r))) uncovered in
  inserted <- insert_chunks (chunks AUTO_INSERT_CHUNK (map (auto_row en policy (priors_of policy w)) toBan)) ;;
  let bans := omap (fun r => option_map (fun id => {| ca_candidate := fst r; ca_id := id;
                                                      ca_ttlSeconds := choice_ttl (ttlFor policy (priors_of policy w (snd r))) |})
                               (idOf inserted (ab_ip (fst r)))) toBan in
  emit (flat_map (auto_events (en_io en)) bans) >>
  ret bans)%mon.

(** Some covering ban is in force. *)
Definition in_force_cover (now : Z) (bans : list (BanRow PG)) (x : inet) : bool :=
  existsb (fun b => negb (past_expiry now b)) (covering bans x).

Definition createAutoBans (en : Env) (policy : BanPolicy) (candidates : list AutoBanCandidate) : M PG (list CreatedAutoBan) :=
  (byAddress <- safe_candidates en candidates [] [] ;;
  w <- get ;;
  addrs <- of_option (read_addresses byAddress) invalid_inet ;;
  let uncovered := List.filter (fun r => negb (in_force_cover (en_now en) (w_bans w) (snd r))) addrs in
  let expiredIds := uniq (flat_map (fun r => map b_id (covering (w_bans w) (snd r))) uncovered) in
  (match expiredIds with [] => ret [] | _ => deactivateBans en expiredIds L_expiry end) >>
  insert_auto en policy uncovered)%mon.

(** ** Agents under attack *)

(** Rows (ban, device) of recent failures on the origin tenant's agents; the devices to
    mark and the notifications to send. *)
Definition attack_rows (now : Z) (events : list (IpEvent PG)) (bans : list CreatedAutoBan) : list (CreatedAutoBan * Z) :=
  flat_map (fun b =>
    map (fun d => (b, d))
      (uniq (omap (fun e => if bool_decide (inet_in (ab_ip (ca_candidate b)) = Some (ev_ip e)) && (ev_tenant e =? ab_tenantId (ca_candidate b))
                               && String.eqb (ev_type e) "auth_failure" && (now - ATTACK_WINDOW_MS <=? ev_time e)
                            then ev_device e else None) events))) bans.
Definition markAgentsUnderAttack (now : Z) (events : list (IpEvent PG)) (bans : list CreatedAutoBan) : list Z * list (Z * CreatedAutoBan) :=
  let rows := attack_rows now events bans in (uniq (map snd rows), map (fun r => (snd r, fst r)) rows).

End Engine.

(** ** Burst alerts *)

(** The stable key: tenant and UTC hour. *)
Definition banBurstKey (tenantId at_ : Z) : Z * Z := (tenantId, at_ / (60 * 60 * 1000)).
Inductive BurstAction := Raise (tenantId : Z) (key : Z * Z) (count : Z) | Resolve (tenantId : Z) (key : Z * Z).
(** An unresolved 'ban_burst' alert. *)
Record BurstAlert := { ba_tenant : Z; ba_key : Z * Z; ba_updated : Z }.

(** [reportBursts]; [open_alerts] as read after the raises. *)
Definition reportBursts (created : list (Z * Z)) (now lastBurstSweepAt : Z) (open_alerts : list BurstAlert) : list BurstAction * Z :=
  let raised := omap (fun c => if snd c <? AUTO_BAN_BURST_THRESHOLD then None else Some (Raise (fst c) (banBurstKey (fst c) now) (snd c))) created in
  if now - lastBurstSweepAt <? BAN_BURST_SWEEP_MS then (raised, lastBurstSweepAt)
  else (raised ++ map (fun a => Resolve (ba_tenant a) (ba_key a)) (List.filter (fun a => ba_updated a <? now - BAN_BURST_QUIET_MS) open_alerts), now).

(** One cycle: the created bans, the agents marked and notified, the burst alerts. *)
Definition engine_cycle {PG : PgInet} (inet_before : inet -> inet -> bool) (en : Env) (policy : BanPolicy) (db : EngineDb PG)
    (lastBurstSweepAt : Z) (open_alerts : list BurstAlert)
    : M PG (list CreatedAutoBan * (list Z * list (Z * CreatedAutoBan)) * (list BurstAction * Z)) :=
  (ensure_infra en >>
  w <- get ;;
  created <- createAutoBans en policy (evaluateThresholds inet_before (en_now en) db (w_bans w)) ;;
  ret (created, markAgentsUnderAttack (en_now en) (eb_events db) created,
       reportBursts (per_tenant created) (en_now en) lastBurstSweepAt open_alerts))%mon.

(** ** The run guard *)

(** The flag, and the cycles whose promise is pending. *)
Record EngineState := { eg_timer : bool; eg_running : bool; eg_cycles : nat; eg_started : nat }.
Inductive EngineStep : EngineState -> EngineState -> Prop :=
| es_start s : EngineStep s {| eg_timer := true; eg_running := eg_running s; eg_cycles := eg_cycles s; eg_started := eg_started s |}
| es_stop s : EngineStep s {| eg_timer := false; eg_running := eg_running s; eg_cycles := eg_cycles s; eg_started := eg_started s |}
| es_skip s : eg_timer s = true -> eg_running s = true -> EngineStep s s
| es_tick s : eg_timer s = true -> eg_running s = false ->
    EngineStep s {| eg_timer := true; eg_running := true; eg_cycles := S (eg_cycles s); eg_started := S (eg_started s) |}
| es_finally s n : eg_cycles s = S n ->   (** the cycle returned or threw *)
    EngineStep s {| eg_timer := eg_timer s; eg_running := false; eg_cycles := n; eg_started := eg_started s |}.
Definition engine_init : EngineState := {| eg_timer := false; eg_running := false; eg_cycles := 0; eg_started := 0 |}.

(** ** Who triggers an auto-ban *)

Section Thresholds.
Context {PG : PgInet} (inet_before : inet -> inet -> bool).

Lemma insert_group_In g l x : In x (insert_group inet_before g l) <-> x = g \/ In x l.
Proof.
  induction l as [|y l IH]; cbn [insert_group]; [cbn; naive_solver|]. destruct (group_before inet_before y g); cbn [In]; [rewrite IH|]; naive_solver.
Qed.
Lemma sort_groups_In l x : In x (sort_groups inet_before l) <-> In x l.
Proof. induction l as [|y l IH]; [done|]. change (sort_groups inet_before (y :: l)) with (insert_group inet_before y (sort_groups inet_before l)).
  rewrite insert_group_In, IH. cbn. naive_solver. Qed.

Lemma add_window_In k dev ws w :
  In w (add_window k dev ws) -> (forall d, In d (snd w) -> (fst w = k /\ d = dev) \/ exists w', In w' ws /\ fst w' = fst w /\ In d (snd w')).
Proof.
  induction ws as [|[k' ds] ws IH]; cbn [add_window].
  - intros [<-|[]] d [<-|[]]. by left.
  - case_bool_decide as E.
    + subst k'. intros [<-|Hin] d Hd; cbn [fst snd] in *.
      * destruct (mem dev ds); [right; exists (k, ds); split; [by left|done]|]. apply in_app_iff in Hd as [Hd|[<-|[]]]; [|by left].
        right. exists (k, ds). split; [by left|done].
      * right. exists w. split; [by right|done].
    + intros [<-|Hin] d Hd; [right; exists (k', ds); split; [by left|done]|].
      destruct (IH Hin d Hd) as [?|(w' & H1 & H2)]; [by left|]. right. exists w'. split; [by right|done].
Qed.

(** Every window a device joined keeps it. *)
Lemma add_window_has k dev ws : exists w, In w (add_window k dev ws) /\ fst w = k /\ In dev (snd w).
Proof.
  induction ws as [|[k' ds] ws (w & Hin & Hw)]; cbn [add_window]; [exists (k, [dev]); cbn; auto|].
  case_bool_decide as E; [subst k'|exists w; split; [by right|done]]. eexists. split; [by left|]. split; [done|]. cbn [snd].
  destruct (mem dev ds) eqn:Em; [by apply mem_In|]. apply in_app_iff. right. by left.
Qed.
Lemma add_window_keeps k dev ws w d : In w ws -> In d (snd w) -> exists w', In w' (add_window k dev ws) /\ fst w' = fst w /\ In d (snd w').
Proof.
  induction ws as [|[k' ds] ws IH]; [done|]. cbn [add_window]. intros [<-|Hin] Hd.
  - case_bool_decide as E; [subst k'|exists (k', ds); split; [by left|done]]. eexists. split; [by left|]. split; [done|]. cbn [snd].
    destruct (mem dev ds); [done|]. apply in_app_iff. by left.
  - case_bool_decide as E; [exists w; split; [by right|done]|]. destruct (IH Hin Hd) as (w' & H1 & H2). exists w'. split; [by right|done].
Qed.

Lemma windows_In plan k d :
  (exists w, In w (windows plan) /\ fst w = k /\ In d (snd w)) <->
  exists p c, In p plan /\ ed_id (fst p) = d /\ In c (snd p) /\ windowKey c = k.
Proof.
  unfold windows.
  assert (Hone : forall dev cs ws, (exists w, In w (fold_left (fun ws c => add_window (windowKey c) dev ws) cs ws) /\ fst w = k /\ In d (snd w)) <->
     (d = dev /\ exists c, In c cs /\ windowKey c = k) \/ exists w, In w ws /\ fst w = k /\ In d (snd w)).
  { intros dev cs. induction cs as [|c cs IH]; intros ws; cbn [fold_left]; [naive_solver|]. rewrite IH. split.
    - intros [(-> & c' & Hc & E)|(w & Hw & E & Hd)]; [left; split; [done|]; exists c'; split; [by right|done]|].
      destruct (add_window_In _ _ _ _ Hw d Hd) as [[E' ->]|(w' & H1 & H2 & H3)].
      + left. split; [done|]. exists c. split; [by left|congruence].
      + right. exists w'. split_and!; [done|congruence|done].
    - intros [(-> & c' & [<-|Hc] & E)|(w & Hw & E & Hd)].
      + right. destruct (add_window_has (windowKey c) dev ws) as (w & H1 & H2 & H3). exists w. split_and!; [done|congruence|done].
      + left. split; [done|]. by exists c'.
      + right. destruct (add_window_keeps (windowKey c) dev ws w d Hw Hd) as (w' & H1 & H2 & H3). exists w'. split_and!; [done|congruence|done]. }
  assert (Hall : forall pl ws, (exists w, In w (fold_left (fun ws p => fold_left (fun ws c => add_window (windowKey c) (ed_id (fst p)) ws) (snd p) ws) pl ws)
      /\ fst w = k /\ In d (snd w)) <->
     (exists p c, In p pl /\ ed_id (fst p) = d /\ In c (snd p) /\ windowKey c = k) \/ exists w, In w ws /\ fst w = k /\ In d (snd w)).
  { intros pl. induction pl as [|p pl IH]; intros ws; cbn [fold_left]; [naive_solver|]. rewrite IH, Hone. cbn [In]. naive_solver. }
  rewrite Hall. naive_solver.
Qed.

(** The failures that count against an address on a device, for a template. *)
Definition failures (now : Z) (bans : list (BanRow PG)) (c : ResolvedServiceConfig) (dev : Z) (x : inet) (t : Z) (e : IpEvent PG) : bool :=
  bool_decide (ev_device e = Some dev) && bool_decide (ev_ip e = x) && (ev_tenant e =? t) && String.eqb (ev_service e) (sc_serviceType c)
  && String.eqb (ev_type e) "auth_failure" && negb (ev_track_only e) && (now - sc_windowSeconds c * 1000 <=? ev_time e) && after_watermark bans e.

Lemma window_hits_In now bans events k devs h :
  In h (window_hits inet_before now bans events k devs) <->
  let l := List.filter (counts now bans k devs) events in
  let g := (ht_device h, ht_ip h, ht_tenant h) in
  In g (map event_group l) /\ ht_count h = Z.of_nat (length (List.filter (fun e => bool_decide (event_group e = g)) l)) /\ snd k <= ht_count h.
Proof.
  unfold window_hits. cbv zeta. rewrite <- list_elem_of_In, list_elem_of_omap. split.
  - intros (g & Hg & E). apply list_elem_of_In in Hg. rewrite sort_groups_In, uniq_in in Hg. destruct (Z.leb_spec (snd k) (Z.of_nat (length
      (List.filter (fun e => bool_decide (event_group e = g)) (List.filter (counts now bans k devs) events))))); [|done].
    injection E as <-. cbn [ht_device ht_ip ht_tenant ht_count]. destruct g as [[d x] t]. by split_and!.
  - intros (Hg & En & Hle). exists (ht_device h, ht_ip h, ht_tenant h). split; [apply list_elem_of_In; by rewrite sort_groups_In, uniq_in|].
    cbn [fst snd]. rewrite <- En, (proj2 (Z.leb_le _ _)) by done. by destruct h.
Qed.

Lemma filter_filter {A} (p q : A -> bool) l : List.filter p (List.filter q l) = List.filter (fun x => q x && p x) l.
Proof. induction l as [|a l IH]; [done|]. cbn [List.filter]. destruct (q a); cbn [List.filter andb]; by rewrite IH. Qed.

(** Dry-run, itself or through a group. *)
Definition in_dry_run (db : EngineDb PG) (dev : EngineDevice) : Prop :=
  ed_evaluate_only dev = true \/ exists g, In g (ancestryOf (eb_closure db) (ed_group dev)) /\ In g (eb_evalOnlyGroups db).

Lemma evaluated_In db dev groups :
  In (dev, groups) (evaluated db) <->
  In dev (eb_devices db) /\ ed_status dev = "approved" /\ groups = ancestryOf (eb_closure db) (ed_group dev)
  /\ ~ in_dry_run db dev /\ ~ (exists off, eb_autoBanOff db = Some off /\ In (ed_id dev) off).
Proof.
  unfold evaluated, observed, in_dry_run. rewrite !filter_In, in_map_iff. cbn [fst snd].
  rewrite andb_true_iff, !negb_true_iff, existsb_false_forall.
  assert (Hoff : mem (ed_id dev) (default [] (eb_autoBanOff db)) = false <-> ~ (exists off, eb_autoBanOff db = Some off /\ In (ed_id dev) off)).
  { rewrite <- not_true_iff_false, mem_In. destruct (eb_autoBanOff db); cbn [default]; [|cbn]; naive_solver. }
  rewrite Hoff. split.
  - intros (((d & [= -> <-] & Hd) & He & Hg) & Hno). apply filter_In in Hd as [Hd Hst]. apply String.eqb_eq in Hst. split_and!; try done.
    intros [H'|(g & H1 & H2)]; [congruence|]. specialize (Hg g H1). apply mem_In in H2. congruence.
  - intros (Hd & Hst & -> & Hn & H). split; [|done]. split; [exists dev; split; [done|]; apply filter_In; by rewrite Hst|].
    split; [destruct (ed_evaluate_only dev); [|done]; exfalso; apply Hn; by left|].
    intros g Hg. destruct (mem g (eb_evalOnlyGroups db)) eqn:E; [|done]. exfalso. apply Hn. right. exists g. split; [done|]. by apply mem_In.
Qed.

Lemma after_watermark_spec bans (e : IpEvent PG) :
  after_watermark bans e = true <->
  forall b l, In b bans -> b_ip b = ev_ip e -> b_scope b = "global" -> b_lift_reason b <> Some "remote_sync" -> b_lifted_at b = Some l -> l < ev_time e.
Proof.
  unfold after_watermark. rewrite forallb_forall. split.
  - intros H b l Hb Hi Hs Hr Hl. specialize (H b Hb). rewrite Hl, Hi, Hs, bool_decide_true, (bool_decide_false (_ = Some "remote_sync")) in H by done.
    cbn [andb negb orb String.eqb] in H. by apply Z.ltb_lt.
  - intros H b Hb. destruct (b_lifted_at b) as [l|] eqn:El; [|done].
    destruct (bool_decide (b_ip b = ev_ip e)) eqn:E1; [|done]. destruct (String.eqb_spec (b_scope b) "global"); [|done].
    destruct (bool_decide (b_lift_reason b = Some "remote_sync")) eqn:E2; [done|]. cbn [andb negb orb].
    apply bool_decide_eq_true in E1. apply bool_decide_eq_false in E2. apply Z.ltb_lt. by apply (H b).
Qed.

Lemma engine_plan_In (db : EngineDb PG) p :
  In p (engine_plan db) <-> exists dev groups resolve, In (dev, groups) (evaluated db) /\ eb_resolved db = Some resolve
    /\ p = (dev, List.filter (fun c => sc_enabled c && String.eqb (sc_mode c) "ban") (resolve (ed_id dev) groups)).
Proof.
  unfold engine_plan. destruct (eb_resolved db) as [resolve|]; [|split; [done|intros (? & ? & ? & _ & [=] & _)]]. rewrite in_map_iff. split.
  - intros ([dev groups] & <- & Hin). by exists dev, groups, resolve.
  - intros (dev & groups & r & Hin & [= <-] & ->). by exists (dev, groups).
Qed.

(** The rows a window counts for a key are the failures of that key. *)
Lemma window_counts_failures now bans cfg dev (x : inet) t devs es : In dev devs ->
  List.filter (fun e => bool_decide (event_group e = (dev, x, t))) (List.filter (counts now bans (windowKey cfg) devs) es)
  = List.filter (failures now bans cfg dev x t) es.
Proof.
  intros Hdev. rewrite filter_filter. apply filter_ext. intros e. unfold counts, failures, event_group, windowKey. cbn [fst snd].
  destruct (ev_device e) as [d|]; [|done]. cbn [default]. destruct (Z.eq_dec d dev) as [->|Hne].
  - rewrite (proj2 (mem_In dev devs)), (bool_decide_true (Some dev = Some dev)) by done. cbn [andb].
    destruct (decide (ev_ip e = x)) as [->|Hx]; [rewrite (bool_decide_true (x = x)) by done|rewrite (bool_decide_false (ev_ip e = x)) by done].
    + destruct (Z.eqb_spec (ev_tenant e) t) as [->|Ht]; [rewrite bool_decide_true by done|rewrite (bool_decide_false ((dev, x, ev_tenant e) = _)) by congruence].
      * by rewrite andb_true_r.
      * by rewrite andb_false_r.
    + rewrite bool_decide_false by congruence. by rewrite andb_false_r.
  - rewrite (bool_decide_false (Some d = Some dev)) by congruence. rewrite (bool_decide_false ((d, _, _) = _)) by congruence. by rewrite andb_false_r.
Qed.

Lemma failures_after_lift now bans cfg dev (x : inet) t e b l :
  failures now bans cfg dev x t e = true -> In b bans -> b_ip b = x -> b_scope b = "global" ->
  b_lift_reason b <> Some "remote_sync" -> b_lifted_at b = Some l -> l < ev_time e.
Proof.
  intros Hf Hb Hi. unfold failures in Hf. apply andb_true_iff in Hf as [Hf Ha]. boolify.
  pose proof (proj1 (after_watermark_spec bans e) Ha b l Hb) as H'. apply H'. congruence.
Qed.

(** C7. Who the engine bans. An address becomes a candidate for a tenant, a service and a
    count exactly when some approved agent, neither in dry-run (itself or through a group)
    nor with auto-ban off, has an enabled ban-mode template of that service for which the
    failures recorded on that very agent, from that address, within the template's window
    and newer than every global deactivation of the address other than a remote
    synchronisation, number the count - at least one, and at least the threshold. *)
Theorem thresholds_exact now (db : EngineDb PG) bans c :
  In c (evaluateThresholds inet_before now db bans) <->
  exists dev cfg x,
    In dev (eb_devices db) /\ ed_status dev = "approved" /\ ~ in_dry_run db dev
    /\ ~ (exists off, eb_autoBanOff db = Some off /\ In (ed_id dev) off)
    /\ (exists resolve, eb_resolved db = Some resolve /\ In cfg (resolve (ed_id dev) (ancestryOf (eb_closure db) (ed_group dev))))
    /\ sc_enabled cfg = true /\ sc_mode cfg = "ban" /\ ab_service c = sc_serviceType cfg /\ ab_ip c = inet_out x
    /\ ab_failureCount c = Z.of_nat (length (List.filter (failures now bans cfg (ed_id dev) x (ab_tenantId c)) (eb_events db)))
    /\ 1 <= ab_failureCount c /\ sc_threshold cfg <= ab_failureCount c
    /\ (forall e b l, failures now bans cfg (ed_id dev) x (ab_tenantId c) e = true -> In b bans -> b_ip b = x -> b_scope b = "global" ->
          b_lift_reason b <> Some "remote_sync" -> b_lifted_at b = Some l -> l < ev_time e).
Proof.
  unfold evaluateThresholds. rewrite in_flat_map. split.
  - intros (p & Hp & Hc). apply engine_plan_In in Hp as Hp'. destruct Hp' as (dev & groups & resolve & Hev & Hres & ->). cbn [fst snd] in Hc.
    apply in_flat_map in Hc as (cfg & Hcfg & Hc). apply in_map_iff in Hc as (h & <- & Hh). unfold hits_of in Hh.
    apply filter_In in Hh as [Hh Hd]. apply Z.eqb_eq in Hd. apply in_flat_map in Hh as (w & Hw & Hh).
    case_bool_decide as Ek; [|done]. apply window_hits_In in Hh as (Hg & Hn & Hle). cbn [fst snd] in *. rewrite Hd in Hg, Hn.
    apply filter_In in Hcfg as [Hcfg Hmode]. boolify. apply in_map_iff in Hg as (e & Eg & He). apply filter_In in He as [He Hcnt].
    assert (Hdev : In (ed_id dev) (snd w)).
    { unfold counts in Hcnt. unfold event_group in Eg. destruct (ev_device e) as [d|]; [|done]. cbn [default] in Eg. injection Eg as <- _ _.
      boolify. by apply mem_In. }
    rewrite window_counts_failures in Hn by done. apply evaluated_In in Hev as (E1 & E2 & -> & E3 & E4). exists dev, cfg, (ht_ip h). cbn [ab_service ab_ip ab_failureCount ab_tenantId].
    split_and!; try done; [by exists resolve| |intros e0 b0 l0; by apply failures_after_lift].
    assert (Hin : In e (List.filter (failures now bans cfg (ed_id dev) (ht_ip h) (ht_tenant h)) (eb_events db))).
    { rewrite <- (window_counts_failures now bans cfg (ed_id dev) (ht_ip h) (ht_tenant h) (snd w) (eb_events db) Hdev). apply filter_In. split; [by apply filter_In|by apply bool_decide_eq_true]. }
    rewrite Hn. destruct (List.filter _ _); [done|]. cbn [length]. lia.
  - intros (dev & cfg & x & E1 & E2 & E3 & E4 & (resolve & Hres & Hcfg) & Hen & Hmode & Es & Ei & Ec & H1 & Hle & _).
    set (groups := ancestryOf (eb_closure db) (ed_group dev)) in *.
    assert (Hev : In (dev, groups) (evaluated db)) by by apply evaluated_In.
    set (p := (dev, List.filter (fun c => sc_enabled c && String.eqb (sc_mode c) "ban") (resolve (ed_id dev) groups))).
    assert (Hp : In p (engine_plan db)) by (apply engine_plan_In; by exists dev, groups, resolve). exists p. split; [done|].
    assert (Hc' : In cfg (snd p)) by (apply filter_In; by rewrite Hen, Hmode).
    apply in_flat_map. exists cfg. split; [done|]. apply in_map_iff.
    exists {| ht_device := ed_id dev; ht_ip := x; ht_tenant := ab_tenantId c; ht_count := ab_failureCount c |}.
    cbn [ht_ip ht_tenant ht_count]. split; [destruct c; cbn in *; by subst|]. unfold hits_of. apply filter_In. cbn [ht_device fst]. split; [|apply Z.eqb_refl].
    destruct (proj2 (windows_In (engine_plan db) (windowKey cfg) (ed_id dev))) as (w & Hw & Ek & Hd); [by exists p, cfg|].
    apply in_flat_map. exists w. split; [done|]. rewrite bool_decide_true by done. apply window_hits_In. cbn [ht_device ht_ip ht_tenant ht_count].
    rewrite window_counts_failures by done. split_and!; [|done|done].
    destruct (List.filter (failures now bans cfg (ed_id dev) x (ab_tenantId c)) (eb_events db)) as [|e es] eqn:Ef; [rewrite Ec in H1; cbn in H1; lia|].
    assert (He : In e (e :: es)) by by left. rewrite <- Ef, <- (window_counts_failures now bans cfg (ed_id dev) x (ab_tenantId c) (snd w) (eb_events db) Hd) in He.
    apply filter_In in He as [He Eg]. apply bool_decide_eq_true in Eg. rewrite <- Eg. by apply in_map.
Qed.

End Thresholds.

(** ** What a cycle bans *)

Section AutoBans.
Context {PG : PgInet} {L : PgInetLaws PG}.

(** A single canonical address. *)
Definition single (s : string) (t : ParsedCidr) : Prop := wf_cidr t /\ prefix t = bits (family t) /\ s = address t.

(** The protected-set states the checks of a cycle that starts in [st0] go through. *)
Definition during (en : Env) (st0 st : PState) : Prop := rtc (fun a b => b = snd (getEntries (en_inputs en) a)) st0 st.

(** The safety contract accepted (refused) a text in one of them. *)
Definition contract_accepts (en : Env) (st0 : PState) (s : string) (t : ParsedCidr) : Prop :=
  exists st, during en st0 st /\ accepted (en_inputs en) st (JStr s) false true None (mk_target t).
Definition contract_refuses (en : Env) (st0 : PState) (s : string) : Prop :=
  exists st c m, during en st0 st /\ fst (checkBanTarget (en_inputs en) st (JStr s) false true None) = BT_err c m.

Lemma during_reachable en st0 st : reachable st0 -> during en st0 st -> reachable st.
Proof. induction 2 as [|a b c -> _ IH]; [done|]. by apply IH, reach_entries. Qed.

Lemma check_during en st0 st raw a g t : during en st0 st -> during en st0 (snd (checkBanTarget (en_inputs en) st raw a g t)).
Proof.
  intros H. unfold checkBanTarget. destruct (parseBanTarget _ _ _) as [bt|]; [|done]. unfold findBanSafetyConflict.
  destruct (g && _); [done|]. unfold findProtectedConflict.
  assert (H' : during en st0 (snd (getEntries (en_inputs en) st))) by (by eapply rtc_r; [exact H|]).
  destruct (getEntries (en_inputs en) st) as [es st']. cbn [snd] in H'. destruct (List.find _ es); [done|].
  by destruct (option_map _ _).
Qed.

Lemma check_single en st0 st s t :
  reachable st0 -> during en st0 st -> fst (checkBanTarget (en_inputs en) st (JStr s) false true None) = BT_ok t ->
  exists p, t = mk_target p /\ parse_text s = Some p /\ single (address p) p /\ contract_accepts en st0 s p.
Proof.
  intros Hr Hd H. pose proof (checkBanTarget_accepted _ _ _ _ _ _ _ (reachable_wf _ (during_reachable _ _ _ Hr Hd)) H) as Hacc.
  unfold checkBanTarget in H. destruct (parseBanTarget _ _ _) as [bt|] eqn:Et; [|done].
  destruct (findBanSafetyConflict _ _ _ _ _) as [[c|] pst]; [done|]. injection H as ->.
  apply parseBanTarget_ok in Et as (p & Hp & -> & Hal & _). pose proof (parseIpOrCidr_wf _ _ Hp) as Hw. exists p.
  split_and!; [done|exact Hp| |by exists st]. split; [done|]. split; [|done]. pose proof (wf_prefix p Hw).
  destruct (Z_lt_dec (prefix p) (bits (family p))) as [Hlt|]; [by apply Hal in Hlt|lia].
Qed.

Definition handled (en : Env) (st0 : PState) (acc : list AutoBanCandidate) (s : string) : Prop :=
  contract_refuses en st0 s \/ exists t a, parse_text s = Some t /\ In a acc /\ ab_ip a = address t.

Definition from_candidate (en : Env) (st0 : PState) (cs : list AutoBanCandidate) (a : AutoBanCandidate) : Prop :=
  exists c t, In c cs /\ parse_text (ab_ip c) = Some t /\ single (ab_ip a) t /\ contract_accepts en st0 (ab_ip c) t
    /\ ab_tenantId a = ab_tenantId c /\ ab_service a = ab_service c /\ ab_failureCount a = ab_failureCount c.

Lemma safe_candidates_run en st0 cs checked acc (w : World PG) :
  reachable st0 -> during en st0 (w_protected w) -> NoDup (map ab_ip acc) -> (forall s, In s checked -> handled en st0 acc s) ->
  exists acc' p, safe_candidates en cs checked acc w = (inr acc', with_protected p w) /\ during en st0 p
    /\ incl acc acc' /\ NoDup (map ab_ip acc')
    /\ (forall a, In a acc' -> In a acc \/ from_candidate en st0 cs a)
    /\ (forall s, In s checked \/ In s (map ab_ip cs) -> handled en st0 acc' s).
Proof.
  revert checked acc w. induction cs as [|c cs IH]; intros checked acc w Hr0 Hr Hnd Hch.
  { exists acc, (w_protected w). split; [by destruct w|]. split_and!; [done|apply incl_refl|done|by intros a; left|]. intros s [Hs|[]]. by apply Hch. }
  cbn [safe_candidates]. assert (Hfrom : forall a, from_candidate en st0 cs a -> from_candidate en st0 (c :: cs) a)
    by (intros a (c' & t & Hc' & H); exists c', t; split; [by right|done]).
  destruct (existsb (String.eqb (ab_ip c)) checked) eqn:Ec.
  { destruct (IH checked acc w Hr0 Hr Hnd Hch) as (acc' & p & H1 & H2 & H3 & H4 & H5 & H6). exists acc', p. split_and!; try done.
    - intros a Ha. destruct (H5 a Ha); [by left|]. right. by apply Hfrom.
    - apply existsb_exists in Ec as (s0 & Hs0 & E). apply String.eqb_eq in E. intros s [Hs|[<-|Hs]]; apply H6; [by left|left; by rewrite E|by right]. }
  unfold bind at 1, check_target at 1. pose proof (check_during en st0 (w_protected w) (JStr (ab_ip c)) false true None Hr) as Hr'.
  pose proof (check_single en st0 (w_protected w) (ab_ip c)) as Hs.
  assert (Herr : forall cd m, fst (checkBanTarget (en_inputs en) (w_protected w) (JStr (ab_ip c)) false true None) = BT_err cd m ->
    contract_refuses en st0 (ab_ip c)) by (intros cd m E; by exists (w_protected w), cd, m).
  destruct (checkBanTarget (en_inputs en) (w_protected w) _ _ _ _) as [r p0]. cbn [fst snd] in *.
  set (acc1 := match r with BT_ok _ => _ | BT_err _ _ => acc end).
  assert (H1 : incl acc acc1 /\ NoDup (map ab_ip acc1) /\ (forall a, In a acc1 -> In a acc \/ from_candidate en st0 (c :: cs) a) /\ handled en st0 acc1 (ab_ip c)).
  { subst acc1. destruct r as [t|cd m]; [|split_and!; [apply incl_refl|done|by intros a; left|left; by eapply Herr]].
    destruct (Hs t Hr0 Hr eq_refl) as (q & -> & Hq & Hsg & Hacc). change (bt_parsed (mk_target q)) with q.
    destruct (existsb (fun a => String.eqb (ab_ip a) (address q)) acc) eqn:Ex.
    - apply existsb_exists in Ex as (a & Ha & E). apply String.eqb_eq in E. split_and!; [apply incl_refl|done|by intros a'; left|]. right. by exists q, a.
    - split; [intros a Ha; apply in_app_iff; by left|]. split.
      + rewrite map_app. apply NoDup_app. split; [done|]. split; [|apply NoDup_singleton]. intros s Hin Hin'.
        cbn in Hin'. apply list_elem_of_singleton in Hin' as ->. apply list_elem_of_In, in_map_iff in Hin as (a & E & Ha).
        rewrite existsb_false_forall in Ex. specialize (Ex a Ha). rewrite E, String.eqb_refl in Ex. done.
      + split; [|right; eexists q, _; split; [done|]; split; [apply in_app_iff; right; by left|done]].
        intros a [Ha|[<-|[]]]%in_app_iff; [by left|]. right. exists c, q. split; [by left|]. by split_and!. }
  destruct H1 as (I1 & N1 & F1 & D1).
  destruct (IH (checked ++ [ab_ip c]) acc1 (with_protected p0 w) Hr0 Hr' N1) as (acc' & p & R1 & R2 & R3 & R4 & R5 & R6).
  { intros s [Hs'|[<-|[]]]%in_app_iff; [|done]. destruct (Hch s Hs') as [?|(t & a & Ht & Ha & E)]; [by left|]. right. exists t, a. split_and!; auto. }
  exists acc', p. split; [by destruct w|]. split_and!; try done.
  - intros a Ha. apply R3, I1, Ha.
  - intros a Ha. destruct (R5 a Ha) as [Ha'|?]; [|by right; apply Hfrom]. by apply F1.
  - intros s [Hs'|[<-|Hs']]; apply R6; [left; apply in_app_iff; by left|left; apply in_app_iff; right; by left|by right].
Qed.

Lemma read_addresses_some acc :
  (forall a, In a acc -> exists t, single (ab_ip a) t) ->
  exists rows, read_addresses acc = Some rows /\ map fst rows = acc /\ (forall r, In r rows -> inet_in (ab_ip (fst r)) = Some (snd r)).
Proof.
  induction acc as [|a acc IH]; intros H; [by exists []|]. destruct IH as (rows & E & Hf & Hi); [intros; apply H; by right|].
  destruct (H a ltac:(by left)) as (t & Hw & _ & Ea). destruct (inet_in_host t Hw) as (x & Hx & _).
  exists ((a, x) :: rows). cbn [read_addresses fold_right]. fold (read_addresses acc). rewrite Ea, Hx, E. cbn [map fst]. rewrite Hf.
  split_and!; [done|done|]. intros r [<-|Hr]; [cbn [fst snd]; by rewrite Ea|by apply Hi].
Qed.

Lemma insert_chunks_grows cs (w : World PG) :
  (forall mk i j, In mk (concat cs) -> b_is_active (mk i) = true /\ ban_key (mk i) = ban_key (mk j)) ->
  exists new w', insert_chunks cs w = (inr new, w') /\ grown w w' new
    /\ (forall b, In b new -> exists mk i, In mk (concat cs) /\ b = mk i)
    /\ (forall mk, In mk (concat cs) -> exists r, In r (w_bans w') /\ b_is_active r = true /\ ban_key r = ban_key (mk 0)).
Proof.
  revert w. induction cs as [|c cs IH]; intros w H.
  { exists [], w. split_and!; try done. split; [by rewrite app_nil_r|done]. }
  cbn [concat] in H. destruct (insert_ignore_grows c w) as (n1 & w1 & R1 & G1 & N1 & A1); [intros; apply H, in_app_iff; by left|].
  destruct (IH w1) as (n2 & w2 & R2 & G2 & N2 & A2); [intros; apply H, in_app_iff; by right|].
  exists (n1 ++ n2), w2. cbn [insert_chunks]. rewrite (bind_run _ _ _ _ _ R1), (bind_run _ _ _ _ _ R2). split; [done|].
  split; [by eapply grown_trans|]. cbn [concat]. split.
  - intros b [Hb|Hb]%in_app_iff; [destruct (N1 b Hb) as (m & i & Hm & ->)|destruct (N2 b Hb) as (m & i & Hm & ->)];
      exists m, i; (split; [apply in_app_iff; auto|done]).
  - intros m [Hm|Hm]%in_app_iff; [|by apply A2]. destruct (A1 m Hm) as (r & Hr & H'). exists r. split; [|done].
    destruct G2 as [-> _]. apply in_app_iff. by left.
Qed.

(** The row made for an address. *)
Lemma auto_row_target en policy priors a x t i :
  single (ab_ip a) t -> inet_in (ab_ip a) = Some x ->
  rowTarget (auto_row (PG := PG) en policy priors (a, x) i) = Some t /\ denotes x t
  /\ networkSql (auto_row (PG := PG) en policy priors (a, x) i) = x.
Proof.
  intros (Hw & Hp & Ea) Hx. rewrite Ea in Hx. destruct (inet_in_host t Hw) as (x' & Hx' & Hd). assert (x' = x) as -> by congruence.
  rewrite host_of_single in Hd by done. split_and!; [|done|].
  - apply stored_target; [done|exact Hx|]. cbn [auto_row new_ban b_cidr_prefix]. unfold network_prefix. rewrite is_network_cidr.
    by rewrite (proj2 (Z.ltb_ge _ _)) by lia.
  - unfold networkSql, prefixSql. cbn [auto_row new_ban b_cidr_prefix b_ip default snd]. apply set_masklen_same.
Qed.

Lemma idOf_some (rows : list (BanRow PG)) s id :
  idOf rows s = Some id -> exists b p, In b rows /\ b_id b = id /\ parse_text (inet_out (b_ip b)) = Some p /\ address p = s.
Proof.
  unfold idOf. assert (H : forall acc, fold_left (fun acc b => match parse_text (inet_out (b_ip b)) with
      Some p => if String.eqb (address p) s then Some (b_id b) else acc | None => acc end) rows acc = Some id ->
      acc = Some id \/ exists b p, In b rows /\ b_id b = id /\ parse_text (inet_out (b_ip b)) = Some p /\ address p = s).
  { induction rows as [|b rows IH]; intros acc H; [by left|]. cbn [fold_left] in H. apply IH in H as [H|(b' & p & Hb' & H)];
      [|right; exists b', p; split; [by right|done]].
    destruct (parse_text (inet_out (b_ip b))) as [p|] eqn:Ep; [|by left]. destruct (String.eqb_spec (address p) s); [|by left].
    right. exists b, p. split; [by left|]. split_and!; try done. congruence. }
  intros E. by destruct (H None E).
Qed.

Lemma idOf_has (rows : list (BanRow PG)) b p : In b rows -> parse_text (inet_out (b_ip b)) = Some p -> exists id, idOf rows (address p) = Some id.
Proof.
  unfold idOf. generalize (@None Z). induction rows as [|b0 rows IH]; intros acc; [done|]. cbn [fold_left]. intros [->|Hb] Hp; [|by apply IH].
  rewrite Hp, String.eqb_refl. clear. generalize (b_id b). induction rows as [|b0 rows IH]; intros i; [by exists i|].
  cbn [fold_left]. destruct (parse_text _); [|apply IH]. destruct (String.eqb _ _); apply IH.
Qed.

Lemma rowTarget_text (b : BanRow PG) : b_cidr_prefix b = None -> rowTarget b = parse_text (inet_out (b_ip b)).
Proof. unfold rowTarget, banTargetRawFromRow. intros ->. by destruct (str_includes _ _). Qed.

(** The engine acts as the system. *)
Lemma op_insert_auto en policy l : op en System (fun _ => True) (insert_auto (PG := PG) en policy l) (fun _ _ => True).
Proof.
  unfold insert_auto. eapply op_bind; [apply op_get|]. intros w. cbv beta zeta. eapply op_weaken with (P := fun _ => True); [|done|done].
  eapply op_bind with (Q := fun _ _ => True); [|intros ins; cbv beta; keep_step; apply op_done].
  assert (H : forall cs, Forall (fun c => forall mk, In mk c -> forall n, b_id (mk n) = n /\ b_is_active (mk n) = true /\ may_insert System (mk n)) cs ->
    op en System (fun _ => True) (insert_chunks (PG := PG) cs) (fun _ _ => True)).
  { induction 1 as [|c cs' Hc _ IH]; cbn [insert_chunks]; [apply op_done|]. eapply op_bind; [by apply op_insert_ignore|]. intros r. cbv beta.
    eapply op_bind; [exact IH|]. intros r'. cbv beta. apply op_done. }
  apply H, Forall_forall. intros c Hc mk Hmk n. apply list_elem_of_In in Hc.
  match type of Hc with In _ ?cs => assert (Hin : In mk (concat cs)) by (apply in_concat; by exists c) end.
  rewrite concat_chunks in Hin by (unfold AUTO_INSERT_CHUNK; lia). apply in_map_iff in Hin as (r & <- & _). split_and!; [done..|]. by split.
Qed.

Lemma op_auto en policy cs : op en System (fun _ => True) (createAutoBans (PG := PG) en policy cs) (fun _ _ => True).
Proof.
  unfold createAutoBans. eapply op_bind with (Q := fun _ _ => True).
  { generalize (@nil string) (@nil AutoBanCandidate). induction cs as [|c cs IH]; intros checked acc; cbn [safe_candidates]; [apply op_done|].
    destruct (existsb _ _); [apply IH|]. keep_step. apply IH. }
  intros acc. cbv beta. pure_step. eapply op_weaken with (P := fun _ => True); [|done|done]. pure_step.
  eapply op_weaken with (P := fun _ => True); [|done|done]. cbv zeta. eapply op_bind with (Q := fun _ _ => True); [|intros ?; apply op_insert_auto].
  destruct (uniq _); [apply op_done|]. by apply op_deactivate.
Qed.

Lemma bind_get {A} (k : World PG -> M PG A) w : bind get k w = k w w.
Proof. done. Qed.

Lemma contains_self (b : BanRow PG) x t : wf_cidr t -> denotes x t -> networkSql b = x -> inet_sup (networkSql b) x = true.
Proof. intros Hw Hd ->. rewrite (inet_sup_spec x x t t) by done. by apply contains_refl. Qed.

Lemma covering_In bans x (b : BanRow PG) :
  In b (covering bans x) <-> In b bans /\ b_scope b = "global" /\ b_is_active b = true /\ inet_sup (networkSql b) x = true.
Proof. unfold covering. rewrite filter_In, !andb_true_iff, String.eqb_eq. naive_solver. Qed.

Lemma insert_auto_run en policy U (w : World PG) :
  (forall r, In r U -> (exists t, single (ab_ip (fst r)) t) /\ inet_in (ab_ip (fst r)) = Some (snd r)) ->
  wf_bans (snd (insert_auto en policy U w)) ->
  exists created new w', insert_auto en policy U w = (inr created, w') /\ w_bans w' = w_bans w ++ new
    /\ (forall b, In b new -> exists r cb i, In r U /\ In cb created /\ ca_id cb = b_id b /\ ca_candidate cb = fst r
          /\ global_whitelisted w (snd r) = false /\ b = auto_row en policy (priors_of policy w) r i)
    /\ (forall cb, In cb created -> exists b, In b new /\ b_id b = ca_id cb)
    /\ (forall r, In r U -> covering (w_bans w') (snd r) <> [] \/ global_whitelisted w (snd r) = true).
Proof.
  intros HU Hwf. set (toBan := List.filter (fun r => negb (global_whitelisted w (snd r))) U).
  assert (HtoBan : forall r, In r toBan <-> In r U /\ global_whitelisted w (snd r) = false)
    by (intros r; unfold toBan; by rewrite filter_In, negb_true_iff).
  set (mks := map (auto_row en policy (priors_of policy w)) toBan).
  assert (Hcat : concat (chunks AUTO_INSERT_CHUNK mks) = mks) by (apply concat_chunks; unfold AUTO_INSERT_CHUNK; lia).
  destruct (insert_chunks_grows (chunks AUTO_INSERT_CHUNK mks) w) as (new & w1 & R & [Hb _] & Hnew & Hall).
  { rewrite Hcat. intros mk i j Hmk. apply in_map_iff in Hmk as (r & <- & _). done. }
  rewrite Hcat in Hnew, Hall.
  assert (Hrow : forall b, In b new -> exists r i, In r toBan /\ b = auto_row en policy (priors_of policy w) r i
                    /\ exists t, single (ab_ip (fst r)) t /\ parse_text (inet_out (b_ip b)) = Some t).
  { intros b Hbn. destruct (Hnew b Hbn) as (mk & i & Hmk & ->). apply in_map_iff in Hmk as (r & <- & Hr'). exists r, i. split; [done|]. split; [done|].
    destruct (HU r (proj1 (proj1 (HtoBan r) Hr'))) as [(t & Ht) Hi]. exists t. split; [done|]. destruct r as [a x].
    rewrite <- rowTarget_text by done. by apply auto_row_target. }
  unfold insert_auto in *. rewrite bind_get in *. cbv zeta in *. fold toBan in Hwf |- *. fold mks in Hwf |- *.
  rewrite (bind_run _ _ _ _ _ R) in *. cbn [snd] in Hwf.
  set (created := omap _ toBan) in *. eexists created, new, _. split; [done|]. cbn [with_effects w_bans].
  assert (Hcr : forall cb, In cb created <-> exists r, In r toBan /\ idOf new (ab_ip (fst r)) = Some (ca_id cb) /\ ca_candidate cb = fst r
      /\ ca_ttlSeconds cb = choice_ttl (ttlFor policy (priors_of policy w (snd r)))).
  { intros cb. unfold created. rewrite <- list_elem_of_In, list_elem_of_omap. split.
    - intros (r & Hr' & E). exists r. split; [by apply list_elem_of_In|]. destruct (idOf new _); [|done]. by injection E as <-.
    - intros (r & Hr' & E & E2 & E3). exists r. split; [by apply list_elem_of_In|]. rewrite E. cbn. destruct cb. cbn in *. by subst. }
  split; [done|]. split; [|split].
  - intros b Hbn. destruct (Hrow b Hbn) as (r & i & Hr' & Eb & t & (Hwt & Hpt & Ea) & Ht).
    destruct (idOf_has new b t Hbn Ht) as [id Hid]. rewrite <- Ea in Hid.
    exists r, {| ca_candidate := fst r; ca_id := id; ca_ttlSeconds := choice_ttl (ttlFor policy (priors_of policy w (snd r))) |}, i.
    apply HtoBan in Hr' as Hr2. destruct Hr2 as [HrU Hnw]. split_and!; try done; [apply Hcr; by exists r|].
    cbn [ca_id]. destruct (idOf_some new _ id Hid) as (b' & q & Hb' & <- & Hq & Eq).
    destruct (Hrow b' Hb') as (r' & i' & Hr'' & Eb' & t' & (Hwt' & Hpt' & Ea') & Ht'). assert (q = t') as -> by congruence.
    assert (Eai : ab_ip (fst r') = ab_ip (fst r)) by congruence.
    assert (Ex : snd r' = snd r).
    { destruct (HU r HrU) as [_ H1]. destruct (HU r' (proj1 (proj1 (HtoBan r') Hr''))) as [_ H2]. congruence. }
    apply (wb_keys _ Hwf); [change (In b' (w_bans w1)); rewrite Hb; apply in_app_iff; by right|change (In b (w_bans w1)); rewrite Hb; apply in_app_iff; by right|by rewrite Eb'|by rewrite Eb|].
    rewrite Eb, Eb'. unfold ban_key, prefixSql. cbn [auto_row new_ban b_ip b_cidr_prefix b_scope b_scope_id b_tenant_id default]. by rewrite Ex.
  - intros cb Hcb. apply Hcr in Hcb as (r & _ & Hid & _). destruct (idOf_some new _ _ Hid) as (b & q & Hbn & E & _). by exists b.
  - intros r HrU. destruct (global_whitelisted w (snd r)) eqn:Eg; [by right|]. left.
    assert (Hr' : In r toBan) by by apply HtoBan.
    destruct (Hall (auto_row en policy (priors_of policy w) r)) as (b & Hb' & Ha & Hk); [by apply in_map|].
    destruct (HU r HrU) as [(t & Ht) Hi]. destruct r as [a x].
    destruct (auto_row_target en policy (priors_of policy w) a x t 0 Ht Hi) as (_ & Hd & Hnet). injection Hk as K1 K2 K3 _ _.
    assert (Hin : In b (covering (w_bans w1) x)).
    { apply covering_In. split_and!; [done|done|done|]. apply (contains_self b x t); [apply Ht|done|]. unfold networkSql in *. by rewrite K1, K2. }
    cbn [snd]. intros E. by rewrite E in Hin.
Qed.

(** Rows waiting for the expiry job that held the address. *)
Definition ended (now : Z) (b b' : BanRow PG) : Prop :=
  b' = b \/ (b_is_active b = true /\ past_expiry now b = true /\ b' = deactivated now L_expiry b).

(** What a new row of the cycle is. *)
Record auto_ban (en : Env) (policy : BanPolicy) (cs : list AutoBanCandidate) (w : World PG) (b : BanRow PG) (a : AutoBanCandidate) : Prop := {
  au_from : from_candidate en (w_protected w) cs a;
  au_target : exists t, single (ab_ip a) t /\ rowTarget b = Some t;
  au_kind : b_ban_type b = "auto" /\ b_scope b = "global" /\ b_tenant_id b = None /\ b_is_active b = true
            /\ b_origin_tenant_id b = Some (ab_tenantId a);
  au_free : exists x, inet_in (ab_ip a) = Some x /\ in_force_cover (en_now en) (w_bans w) x = false /\ global_whitelisted w x = false
            /\ b_expires_at b = expiresAt policy (if needsPriorCounts policy then prior_count (w_bans w) x else 0) (en_now en)
}.

Lemma prior_count_map (f : BanRow PG -> BanRow PG) bans x :
  (forall b, b_ip (f b) = b_ip b /\ b_cidr_prefix (f b) = b_cidr_prefix b) -> prior_count (map f bans) x = prior_count bans x.
Proof.
  intros H. unfold prior_count. f_equal. induction bans as [|b bans IH]; [done|]. cbn [map List.filter].
  destruct (H b) as [H1 H2]. assert (E : prefixSql (f b) = prefixSql b) by (unfold prefixSql; by rewrite H1, H2).
  rewrite H1, E. destruct (_ && _); cbn [length]; by rewrite IH.
Qed.

(** Only rows waiting for the expiry job cover an address that nothing in force covers. *)
Lemma stale_cover_past now (w : World PG) (U : list (AutoBanCandidate * inet)) b : wf_bans w ->
  (forall r, In r U -> in_force_cover now (w_bans w) (snd r) = false) -> In b (w_bans w) ->
  In (b_id b) (uniq (flat_map (fun r => map b_id (covering (w_bans w) (snd r))) U)) -> past_expiry now b = true.
Proof.
  intros Hw HU Hb Hi. rewrite uniq_in, in_flat_map in Hi. destruct Hi as (r & Hr & Hi).
  apply in_map_iff in Hi as (b' & E & Hb'). assert (b' = b) as ->.
  { apply covering_In in Hb' as [Hb' _]. by apply (id_inj w). }
  specialize (HU r Hr). unfold in_force_cover in HU. rewrite existsb_false_forall in HU. specialize (HU b Hb'). by destruct (past_expiry _ b).
Qed.

Lemma deactivate_stale_run en ids (w : World PG) : wf_bans w ->
  exists rows w1, (match ids with [] => ret [] | _ => deactivateBans en ids L_expiry end) w = (inr rows, w1)
    /\ w_bans w1 = map (fun b => if mem (b_id b) ids && b_is_active b then deactivated (en_now en) L_expiry b else b) (w_bans w)
    /\ w_whitelist w1 = w_whitelist w.
Proof.
  intros Hw. destruct ids as [|i0 ids0] eqn:Ei; [exists [], w; split_and!; try done; symmetry; apply map_id|]. rewrite <- Ei.
  eexists _, _. split; [apply deactivateBans_spec|]. destruct (deactivate_world_rows en L_expiry ids w) as (H1 & H2 & _); [done|]. by rewrite H1, H2.
Qed.

Lemma deactivated_ended now ids (bans : list (BanRow PG)) :
  (forall b, In b bans -> In (b_id b) ids -> past_expiry now b = true) ->
  Forall2 (ended now) bans (map (fun b => if mem (b_id b) ids && b_is_active b then deactivated now L_expiry b else b) bans).
Proof.
  induction bans as [|b l IH]; intros H; [constructor|]. cbn [map]. constructor; [|apply IH; intros b' Hb'; apply H; by right].
  destruct (mem (b_id b) ids && b_is_active b) eqn:E; [|by left]. boolify. right. split_and!; try done. apply H; [by left|by apply mem_In].
Qed.

(** C6. A cycle of the engine bans exactly the dangerous addresses it may. From any
    candidates it never fails; it ends expired rows that held an address and adds rows, each
    an active global auto-ban of one single address the safety contract accepts, for the
    tenant of the address's first candidate, not covered by a ban in force nor globally
    whitelisted, lasting what the policy ladder gives for the address's earlier bans; the
    cycle reports one ban per new row and no other. Afterwards every candidate's address is
    refused by the contract, globally whitelisted, or covered by an active global ban. *)
Theorem auto_bans_exact en policy cs (w : World PG) (Hw : wf_bans w) (Hr : reachable (w_protected w)) :
  exists created old new w', createAutoBans en policy cs w = (inr created, w')
    /\ w_bans w' = old ++ new /\ Forall2 (ended (en_now en)) (w_bans w) old
    /\ (forall b, In b new -> exists cb, In cb created /\ ca_id cb = b_id b /\ auto_ban en policy cs w b (ca_candidate cb))
    /\ (forall cb, In cb created -> exists b, In b new /\ b_id b = ca_id cb)
    /\ (forall c, In c cs -> contract_refuses en (w_protected w) (ab_ip c) \/ exists t x, parse_text (ab_ip c) = Some t /\ inet_in (address t) = Some x
          /\ (covering (w_bans w') x <> [] \/ global_whitelisted w x = true)).
Proof.
  assert (Hrtc : wf_bans (snd (createAutoBans en policy cs w))).
  { eapply trans_rtc_wf; [|exact Hw]. exact (op_trans en System (createAutoBans en policy cs) _ w (op_auto en policy cs) Hw). }
  unfold createAutoBans in *.
  destruct (safe_candidates_run en (w_protected w) cs [] [] w Hr) as (acc & p & R1 & Hp & _ & Hnd & Hacc & Hall); [apply rtc_refl|constructor|done|].
  assert (Hfrom : forall a, In a acc -> from_candidate en (w_protected w) cs a) by (intros a Ha; by destruct (Hacc a Ha)).
  rewrite !(bind_run _ _ _ _ _ R1) in *. rewrite !bind_get in *.
  destruct (read_addresses_some acc) as (addrs & Ea & Hfst & Hin); [intros a Ha; destruct (Hfrom a Ha) as (c & t & H); exists t; apply H|].
  assert (R2 : of_option (read_addresses acc) invalid_inet (with_protected p w) = (inr addrs, with_protected p w)) by by rewrite Ea.
  rewrite !(bind_run _ _ _ _ _ R2) in *. cbv zeta in *. change (w_bans (with_protected p w)) with (w_bans w) in *.
  set (U := List.filter _ addrs) in *. set (ids := uniq _) in *.
  assert (HUin : forall r, In r U <-> In r addrs /\ in_force_cover (en_now en) (w_bans w) (snd r) = false)
    by (intros r; unfold U; by rewrite filter_In, negb_true_iff).
  assert (Hids : forall b, In b (w_bans w) -> In (b_id b) ids -> past_expiry (en_now en) b = true).
  { intros b Hb. apply (stale_cover_past _ w U); [done| |done]. intros r Hr'. by apply HUin. }
  destruct (deactivate_stale_run en ids (with_protected p w)) as (rows & w1 & R3 & Hb1 & Hwl1); [by destruct Hw; split|].
  rewrite !(bind_run _ _ _ _ _ R3) in *.
  destruct (insert_auto_run en policy U w1) as (created & new & w2 & R4 & Hb2 & Hnew & Hcr & Hcov); [|done|].
  { intros r Hr'. apply HUin in Hr' as [Hr' _]. split; [|by apply Hin]. destruct (Hfrom (fst r)) as (c & t & H); [rewrite <- Hfst; by apply in_map|].
    exists t. apply H. }
  assert (Hgw : forall x, global_whitelisted w1 x = global_whitelisted w x) by (intros x; unfold global_whitelisted; by rewrite Hwl1).
  assert (Hpri : forall x, priors_of policy w1 x = priors_of policy w x).
  { intros x. unfold priors_of. rewrite Hb1, prior_count_map; [done|]. intros b. by destruct (_ && _). }
  exists created, (w_bans w1), new, w2. split; [done|]. split; [done|]. split; [|split; [|split; [done|]]].
  - rewrite Hb1. by apply deactivated_ended.
  - intros b Hb. destruct (Hnew b Hb) as (r & cb & i & Hr' & Hcb & Eid & Eca & Hnw & ->). exists cb. split; [done|]. split; [done|].
    apply HUin in Hr' as [Hr' Hf]. assert (Hra : In (fst r) acc) by (rewrite <- Hfst; by apply in_map).
    pose proof (Hfrom _ Hra) as (c & t & Hc). rewrite Eca. destruct r as [a x]. cbn [fst snd] in *. split; try done.
    + by apply Hfrom.
    + exists t. split; [apply Hc|]. apply (auto_row_target en policy (priors_of policy w1) a x t i); [apply Hc|by apply (Hin (a, x))].
    + exists x. split_and!; [by apply (Hin (a, x))|done|by rewrite <- Hgw|]. cbn [auto_row new_ban b_expires_at snd]. by rewrite Hpri.
  - intros c Hc. destruct (Hall (ab_ip c)) as [Href|(t & a & Ht & Ha & Eat)]; [right; by apply in_map|by left|]. right.
    rewrite <- Hfst in Ha. apply in_map_iff in Ha as (r & <- & Hr'). pose proof (Hin r Hr') as Hx. rewrite Eat in Hx. exists t, (snd r).
    split_and!; [done|done|]. destruct (in_force_cover (en_now en) (w_bans w) (snd r)) eqn:Ef.
    + left. unfold in_force_cover in Ef. apply existsb_exists in Ef as (b & Hb & Hpe). apply covering_In in Hb as (Hb & Hs & Ha & Hsup).
      assert (Hin2 : In b (covering (w_bans w2) (snd r))); [|intros E; by rewrite E in Hin2]. apply covering_In. split_and!; try done.
      rewrite Hb2. apply in_app_iff. left. rewrite Hb1. apply in_map_iff. exists b. split; [|done].
      destruct (mem (b_id b) ids) eqn:Em; [|done]. apply mem_In in Em. rewrite (Hids b Hb Em) in Hpe. done.
    + rewrite <- Hgw. apply Hcov. by apply HUin.
Qed.

End AutoBans.

(** The run guard never blocks and never overlaps: in every state the engine reaches,
    whatever the ticks, failures, stops and restarts, at most one cycle is working and the
    flag is set exactly while one is; and from every state with the timer on, a further
    cycle can start - at once when none is working, else after the one that works ends. *)
Theorem engine_guard s (Hs : rtc EngineStep engine_init s) :
  (eg_cycles s <= 1)%nat /\ (eg_running s = true <-> eg_cycles s = 1%nat)
  /\ (eg_timer s = true -> exists s', rtc EngineStep s s' /\ eg_started s' = S (eg_started s) /\ eg_cycles s' = 1%nat).
Proof.
  assert (Hinv : (eg_cycles s <= 1)%nat /\ (eg_running s = true <-> eg_cycles s = 1%nat)).
  { assert (H0 : (eg_cycles engine_init <= 1)%nat /\ (eg_running engine_init = true <-> eg_cycles engine_init = 1%nat)) by (cbn; split; [lia|done]).
    revert H0. induction Hs as [|x y z Hst _ IH]; [done|]. intros [H1 H2]. apply IH. clear IH.
    destruct Hst as [s|s|s|s Ht Hr|s n Hn]; cbn [eg_cycles eg_running]; try done.
    - assert (eg_cycles s = 0%nat) as ->; [|split; [lia|done]]. destruct (eg_cycles s) as [|[|n]]; [done| |lia].
      by rewrite (proj2 H2) in Hr.
    - assert (n = 0%nat) as -> by lia. split; [lia|]. split; [done|lia]. }
  destruct Hinv as [H1 H2]. split; [done|]. split; [done|]. intros Ht. destruct (eg_running s) eqn:Er.
  - pose proof (proj1 H2 eq_refl) as Hc. eexists. split; [eapply rtc_l; [by apply (es_finally s 0)|]; apply rtc_once, es_tick; done|done].
  - assert (eg_cycles s = 0%nat) as E0 by (destruct (eg_cycles s) as [|[|n]]; [done|by pose proof (proj2 H2 eq_refl)|lia]).
    eexists. split; [apply rtc_once; by apply es_tick|]. cbn. by rewrite E0.
Qed.

Lemma engine_guard_witness :
  exists s, rtc EngineStep engine_init s /\ eg_running s = true
    /\ exists s', rtc EngineStep s s' /\ eg_started s' = 2%nat /\ eg_cycles s' = 1%nat.
Proof.
  set (s := {| eg_timer := true; eg_running := true; eg_cycles := 1; eg_started := 1 |}).
  assert (Hs : rtc EngineStep engine_init s).
  { eapply rtc_l; [apply es_start|]. apply rtc_once. by apply es_tick. }
  exists s. split; [exact Hs|]. split; [reflexivity|]. exact (proj2 (proj2 (engine_guard s Hs)) eq_refl).
Defined.

(** ** At work on the sample store *)

(** An address with eleven failures on device 5, the banned /24 and a private address. *)
Definition sample_candidates : list AutoBanCandidate :=
  [ {| ab_ip := "8.8.4.4"; ab_tenantId := 3; ab_service := "ssh"; ab_failureCount := 11 |};
    {| ab_ip := "203.0.113.9"; ab_tenantId := 3; ab_service := "ssh"; ab_failureCount := 7 |};
    {| ab_ip := "10.1.2.3"; ab_tenantId := 4; ab_service := "ftp"; ab_failureCount := 9 |};
    {| ab_ip := "8.8.4.4"; ab_tenantId := 4; ab_service := "ftp"; ab_failureCount := 5 |} ].

Lemma auto_bans_exact_witness :
  exists created old new w', createAutoBans sample_env DEFAULT_BAN_POLICY sample_candidates sample_bans = (inr created, w')
    /\ w_bans w' = old ++ new /\ (forall b, In b new -> exists cb, In cb created /\ ca_id cb = b_id b).
Proof.
  destruct (auto_bans_exact sample_env DEFAULT_BAN_POLICY sample_candidates sample_bans sample_bans_wf sample_reachable)
    as (created & old & new & w' & H1 & H2 & _ & H4 & _).
  exists created, old, new, w'. split; [exact H1|]. split; [exact H2|].
  intros b Hb. destruct (H4 b Hb) as (cb & Hcb & E & _). exists cb. split; [exact Hcb|exact E].
Defined.
Example sample_cycle_bans :
  match fst (createAutoBans sample_env DEFAULT_BAN_POLICY sample_candidates sample_bans) with
  | inr l => map (fun cb => (ab_ip (ca_candidate cb), ab_tenantId (ca_candidate cb), ca_id cb)) l
  | inl _ => []
  end = [("8.8.4.4", 3, 5)].
Proof. vm_compute. reflexivity. Qed.
