(* ===== verification/BanSafetyAudit.v ===== *)
(** * The audit of existing bans ([server/src/services/banSafetyAudit.ts])

    The registry of unsafe rows: every active ban is parsed and checked against the
    protected set, the unsafe ones are never delivered. The log and its signature, and the
    interval timer, are left out. *)

From S2P Require Import Prelude JsString JsValue IpValidation ProtectedIps Tenancy Access SocketRooms BanPolicy PgInet Store Whitelist BanRules BanService BanAuthority BanLift BanEntry BanEngine.

Section Audit.
Context {PG : PgInet}.

(** Why a row is unsafe, with the protected-set state after the check. *)
Inductive UnsafeReason := W_code (c : BanTargetErrorCode) | W_protected.
Definition audit_row (i : PInputs) (st : PState) (b : BanRow PG) : option UnsafeReason * PState :=
  match parseBanTarget (JStr (inet_out (b_ip b))) true (in_env i) with
  | BT_err c _ => (Some (W_code c), st)
  | BT_ok t =>
      let '(c, st') := findProtectedConflict i st (bt_parsed t) (String.eqb (b_scope b) "global") None in
      (match c with Some _ => Some W_protected | None => None end, st')
  end.

Definition audited (now : Z) (b : BanRow PG) : bool := b_is_active b && match b_expires_at b with None => true | Some e => now <? e end.
Definition legacy_bulk (b : BanRow PG) : bool :=
  String.eqb (b_ban_type b) "manual" && String.eqb (b_scope b) "global" && bool_decide (b_origin_tenant_id b = None).

Fixpoint audit_rows (i : PInputs) (st : PState) (rows : list (BanRow PG)) : list Z * PState :=
  match rows with
  | [] => ([], st)
  | b :: r =>
      let '(why, st1) := audit_row i st b in
      let '(ids, st2) := audit_rows i st1 r in
      (match why with Some _ => b_id b :: ids | None => ids end, st2)
  end.

(** The new registry, and the two counts returned. *)
Definition refreshUnsafeBanRegistry (i : PInputs) (st : PState) (bans : list (BanRow PG)) : list Z * (Z * Z) * PState :=
  let rows := List.filter (audited (in_now i)) bans in
  let '(ids, st') := audit_rows i st rows in
  (ids, (Z.of_nat (length ids), Z.of_nat (length (List.filter legacy_bulk rows))), st').

(** [isUnsafeBanId] *)
Definition isUnsafeBanId (registry : list Z) (id : Z) : bool := mem id registry.

Lemma audit_row_state en st b : during en st (snd (audit_row (en_inputs en) st b)).
Proof.
  unfold audit_row. destruct (parseBanTarget _ _ _) as [t|]; [|apply rtc_refl]. unfold findProtectedConflict.
  assert (H' : during en st (snd (getEntries (en_inputs en) st))) by (by apply rtc_once).
  destruct (getEntries (en_inputs en) st) as [es st']. cbn [snd] in H'. destruct (List.find _ es); [done|]. by destruct (option_map _ _).
Qed.

Lemma audit_rows_spec en st0 st rows :
  reachable st0 -> during en st0 st ->
  forall b, In b rows ->
  (In (b_id b) (fst (audit_rows (en_inputs en) st rows))) \/
  exists t st1, parse_text (inet_out (b_ip b)) = Some t /\ during en st0 st1
    /\ floor_of (banPrefixFloor (in_env (en_inputs en))) (family t) <= prefix t
    /\ (forall r, In r RESERVED_PARSED -> family r = family t -> forall x, in_cidr r x -> ~ in_cidr t x)
    /\ clear_of_protected (fst (getEntries (en_inputs en) st1)) (infra_list st1) (String.eqb (b_scope b) "global") None t.
Proof.
  intros Hr0. revert st. induction rows as [|b0 rows IH]; intros st Hd b; [done|]. cbn [audit_rows].
  pose proof (audit_row_state en st b0) as Hst. assert (Hd' : during en st0 (snd (audit_row (en_inputs en) st b0))) by (unfold during in *; by etransitivity).
  destruct (audit_row (en_inputs en) st b0) as [why st1] eqn:Ea. cbn [snd] in *. specialize (IH st1 Hd').
  destruct (audit_rows (en_inputs en) st1 rows) as [ids st2]. cbn [fst] in *. intros [->|Hb].
  - destruct why as [s|]; [left; by left|]. right. unfold audit_row in Ea. destruct (parseBanTarget _ _ _) as [bt|] eqn:Et; [|done].
    apply parseBanTarget_ok in Et as (t & Hp & -> & _ & Hf & Hres). pose proof (parseIpOrCidr_wf _ _ Hp) as Hw.
    change (bt_parsed (mk_target t)) with t in Ea. destruct (findProtectedConflict _ _ _ _ _) as [[c|] st3] eqn:Ec; [done|].
    exists t, st. split_and!; [exact Hp|done|done|by apply isReserved_spec|].
    apply findProtectedConflict_none; [by apply reachable_wf, (during_reachable en st0)|done|by rewrite Ec].
  - destruct (IH b Hb) as [Hin|H]; [left; destruct why; [by right|done]|by right].
Qed.

(** C12. What the audit guarantees at delivery. After an audit, a row of the table it read
    that is delivered to any device - in force, not in the registry - and whose network is
    the one its inet text shows has a safe target: within the prefix floor, disjoint from
    the reserved ranges and from the protected entries that count for its scope; a row in
    the registry is never delivered to anyone. *)
Theorem audited_delivery_safe en st0 (w : World PG) deviceId groupIds tenantId (Hr : reachable st0) :
  let registry := fst (fst (refreshUnsafeBanRegistry (en_inputs en) st0 (w_bans w))) in
  forall b, In b (w_bans w) -> ban_applies (en_now en) w deviceId groupIds tenantId b = true ->
  (isUnsafeBanId registry (b_id b) = false -> rowTarget b = parse_text (inet_out (b_ip b)) ->
     exists t st1, rowTarget b = Some t /\ during en st0 st1
       /\ floor_of (banPrefixFloor (in_env (en_inputs en))) (family t) <= prefix t
       /\ (forall r, In r RESERVED_PARSED -> family r = family t -> forall x, in_cidr r x -> ~ in_cidr t x)
       /\ clear_of_protected (fst (getEntries (en_inputs en) st1)) (infra_list st1) (String.eqb (b_scope b) "global") None t)
  /\ (isUnsafeBanId registry (b_id b) = true -> forall cidr, wanted_texts cidr registry [b] = []).
Proof.
  cbv zeta. intros b Hb Ha. unfold refreshUnsafeBanRegistry, isUnsafeBanId.
  pose proof (audit_rows_spec en st0 st0 (List.filter (audited (in_now (en_inputs en))) (w_bans w)) Hr (rtc_refl _ _) b) as H.
  destruct (audit_rows _ _ _) as [ids st']. cbn [fst] in *. split.
  - intros Hn Ht. destruct H as [H|(t & st1 & Hp & H)].
    + apply filter_In. split; [done|]. unfold ban_applies in Ha. unfold audited. change (in_now (en_inputs en)) with (en_now en).
      destruct (b_is_active b); [|done]. cbn [andb] in *. destruct (b_expires_at b); [|done]. by destruct (en_now en <? z).
    + exfalso. apply mem_In in H. congruence.
    + exists t, st1. rewrite Ht. by split.
  - intros Hm cidr. unfold wanted_texts. cbn [omap list_omap]. by rewrite Hm.
Qed.

End Audit.

(** ** The rows the audit does not see *)

(** A network address stored with a separate prefix. *)
Definition wide_row : BanRow TextPg := sample_ban 1 (sample_inet 184549376 32) (Some 8) "global" None None None.

(** The premise on the text is needed: a row stored as a network address and a separate
    prefix is audited as its single address, and passes, but is delivered as the whole
    network, here one the prefix floor refuses. *)
Theorem audit_misses_separate_prefix :
  let w := {| w_bans := [wide_row]; w_next_ban := 2; w_exclusions := []; w_whitelist := []; w_next_whitelist := 1; w_blocked := [];
              w_directory := sample_dir; w_caches := {| accessCache := ∅; existsCache := ∅ |}; w_protected := sample_protected; w_effects := [] |} in
  let registry := fst (fst (refreshUnsafeBanRegistry demo_inputs sample_protected (w_bans w))) in
  registry = []
  /\ computeBanDelta (en_now sample_env) w registry JNull 5 [] 3 [] (Some true) = (["11.0.0.0/8"], [])
  /\ exists m, parseBanTarget (JStr "11.0.0.0/8") true (in_env demo_inputs) = BT_err Too_broad m.
Proof. cbv zeta. split; [vm_compute; reflexivity|]. split; [vm_compute; reflexivity|]. eexists. vm_compute. reflexivity. Qed.

Lemma audited_delivery_safe_witness :
  exists t, rowTarget (sample_ban 3 (sample_inet 1249763845 32) None "agent" (Some 6) (Some 4) (Some 4)) = Some t /\ 8 <= prefix t.
Proof.
  set (b := sample_ban 3 (sample_inet 1249763845 32) None "agent" (Some 6) (Some 4) (Some 4)).
  set (w := with_bans (fun _ => [b]) sample_bans).
  destruct (proj1 (audited_delivery_safe sample_env sample_protected w 6 [] 4 reach_init b (or_introl eq_refl) ltac:(vm_compute; reflexivity)))
    as (t & st1 & H1 & _ & H2 & _); [vm_compute; reflexivity|vm_compute; reflexivity|].
  exists t. split; [exact H1|]. pose proof (floor_bounds (in_env (en_inputs sample_env)) (family t)).
  destruct (family t); lia.
Defined.
