(* ===== verification/AgentUpdate.v ===== *)
(** * Agent update control ([server/src/utils/agentUpdate.ts])

    The pure helpers of the update control: version comparison, the four-level policy,
    the gates of an offer, the frames an agent sends, the build manifest, the figures of
    the paced rollout. Times are milliseconds. *)

From S2P Require Import Prelude JsString JsValue JsNumber.

Inductive AgentUpdatePolicy := Policy_auto | Policy_manual | Policy_off.
#[export] Instance AgentUpdatePolicy_eq : EqDecision AgentUpdatePolicy.
Proof. solve_decision. Defined.

Definition DEFAULT_AGENT_UPDATE_POLICY : AgentUpdatePolicy := Policy_manual.

(** [isAgentUpdatePolicy], as the reading of a stored text. *)
Definition readPolicy (v : string) : option AgentUpdatePolicy :=
  if String.eqb v "auto" then Some Policy_auto
  else if String.eqb v "manual" then Some Policy_manual
  else if String.eqb v "off" then Some Policy_off
  else None.

Inductive AgentUpdatePhase :=
| Offered | Downloading | Verifying | Installing | Restarting | Succeeded | Failed | Cancelled.
#[export] Instance AgentUpdatePhase_eq : EqDecision AgentUpdatePhase.
Proof. solve_decision. Defined.

Definition phase_text (p : AgentUpdatePhase) : string :=
  match p with
  | Offered => "offered" | Downloading => "downloading" | Verifying => "verifying" | Installing => "installing"
  | Restarting => "restarting" | Succeeded => "succeeded" | Failed => "failed" | Cancelled => "cancelled"
  end.

Definition AGENT_REPORTED_UPDATE_PHASES : list AgentUpdatePhase := [Downloading; Verifying; Installing; Restarting; Failed].
Definition PROGRESS_UPDATE_PHASES : list AgentUpdatePhase := [Downloading; Verifying; Installing; Restarting].
Definition in_progress (p : AgentUpdatePhase) : bool := bool_decide (p ∈ PROGRESS_UPDATE_PHASES).

Definition AGENT_UPDATE_REQUEST_TTL_MS : Z := 24 * 3600 * 1000.
Definition UPDATE_OFFER_MIN_INTERVAL_MS : Z := 10 * 60 * 1000.
Definition UPDATE_REQUEST_MAX_OFFERS : Z := 3.
Definition UPDATE_ATTEMPT_TIMEOUT_MS : Z := 10 * 60 * 1000.
Definition MAX_AGENT_CAPABILITIES : nat := 32.
Definition MAX_AGENT_CAPABILITY_LEN : nat := 32.
Definition MAX_UPDATE_ERROR_LEN : nat := 500.
Definition MAX_AGENT_VERSION_LEN : nat := 64.

(** ** Versions *)

(** [Number(digits)]. Every finite double is below [2^1024], which stands for [Infinity]. *)
Definition digits_number (u : string) : Z :=
  match round_double (digits_value 10 u) 1 with NInt z => z | NOther => 2 ^ 1024 end.

Definition goAtoi (s : string) : Z :=
  let '(neg, u) := read_sign s in
  if negb (is_empty u) && str_forall is_digit u
  then (if neg then - digits_number u else digits_number u) else 0.

Definition parseAgentSemver (v : option string) : Z * Z * Z :=
  let s := default "" v in
  let s := match s with String "v" r => r | _ => s end in
  match split "." s with
  | a :: b :: (_ :: _) as rest => (goAtoi a, goAtoi b, goAtoi (join "." rest))
  | _ => (0, 0, 0)
  end.

Definition isStrictlyNewerAgentVersion (remote current : option string) : bool :=
  let '(r0, r1, r2) := parseAgentSemver remote in
  let '(c0, c1, c2) := parseAgentSemver current in
  if negb (r0 =? c0) then c0 <? r0
  else if negb (r1 =? c1) then c1 <? r1
  else c2 <? r2.

(** [\d{1,9}]: the text after it. *)
Definition take_number (s : string) : option string :=
  let '(d, r) := span is_digit s in
  if (1 <=? String.length d)%nat && (String.length d <=? 9)%nat then Some r else None.
Definition take_char (c : ascii) (s : string) : option string :=
  match s with String c' r => if Ascii.eqb c c' then Some r else None | EmptyString => None end.

Definition is_suffix_char (c : ascii) : bool := is_alnum c || Ascii.eqb c "." || Ascii.eqb c "+" || Ascii.eqb c "-".

(** [v?\d{1,9}\.\d{1,9}\.\d{1,9}], then the rest. *)
Definition take_version (v : string) : option string :=
  let s := match v with String "v" r => r | _ => v end in
  s1 ← take_number s; s2 ← take_char "." s1; s3 ← take_number s2; s4 ← take_char "." s3; take_number s4.

Definition isValidServedAgentVersion (v : string) : bool :=
  (String.length v <=? MAX_AGENT_VERSION_LEN)%nat &&
  match take_version v with
  | Some EmptyString => true
  | Some (String c r) => (Ascii.eqb c "-" || Ascii.eqb c "+" || Ascii.eqb c ".") && str_forall is_suffix_char r
  | None => false
  end.

(** ** The policy *)

Record GroupPolicyEntry := { gp_groupId : Z; gp_tenantId : Z; gp_policy : AgentUpdatePolicy }.

Inductive PolicySource := Src_agent | Src_group | Src_tenant | Src_global | Src_default | Src_unresolved.
#[export] Instance PolicySource_eq : EqDecision PolicySource.
Proof. solve_decision. Defined.

Record ResolvedAgentUpdatePolicy := { rp_policy : AgentUpdatePolicy; rp_source : PolicySource; rp_sourceGroupId : option Z }.

Definition resolved (p : AgentUpdatePolicy) (s : PolicySource) (g : option Z) : ResolvedAgentUpdatePolicy :=
  {| rp_policy := p; rp_source := s; rp_sourceGroupId := g |}.

Definition is_off (p : option AgentUpdatePolicy) : bool := bool_decide (p = Some Policy_off).

(** The loop from the farthest group. *)
Definition farthest_off (chain : list GroupPolicyEntry) : option GroupPolicyEntry :=
  find (fun e => is_off (Some (gp_policy e))) (rev chain).

Definition resolveAgentUpdatePolicy (device : option AgentUpdatePolicy) (chain : list GroupPolicyEntry)
    (tenant global : option AgentUpdatePolicy) : ResolvedAgentUpdatePolicy :=
  if is_off global then resolved Policy_off Src_global None
  else if is_off tenant then resolved Policy_off Src_tenant None
  else match farthest_off chain with
  | Some e => resolved Policy_off Src_group (Some (gp_groupId e))
  | None =>
      if is_off device then resolved Policy_off Src_agent None
      else match device with
      | Some p => resolved p Src_agent None
      | None =>
          match chain with
          | e :: _ => resolved (gp_policy e) Src_group (Some (gp_groupId e))
          | [] => match tenant with
                  | Some p => resolved p Src_tenant None
                  | None => match global with
                            | Some p => resolved p Src_global None
                            | None => resolved DEFAULT_AGENT_UPDATE_POLICY Src_default None
                            end
                  end
          end
      end
  end.

(** ** The gates of an offer *)

Definition isUpdateRequestLive (requestedAt : option Z) (requestedVersion served : option string) (now : Z) : bool :=
  match requestedAt, requestedVersion, served with
  | Some at_, Some v, Some s => negb (is_empty v) && String.eqb v s && (now - at_ <? AGENT_UPDATE_REQUEST_TTL_MS)
  | _, _, _ => false
  end.

Definition shouldAdvertiseUpdate (served : option string) (reported : string) (policy : AgentUpdatePolicy)
    (requestLive : bool) (deviceType status : string) : bool :=
  if negb (String.eqb deviceType "agent") then false
  else if negb (String.eqb status "approved") then false
  else match served with
  | None => false
  | Some _ =>
      if is_empty reported then false
      else if negb (isStrictlyNewerAgentVersion served (Some reported)) then false
      else if bool_decide (policy = Policy_off) then false
      else bool_decide (policy = Policy_auto) || requestLive
  end.

(** ** Imports and frames *)

Definition sanitizeImportedAgentGroupConfig (cfg : js) : option (list (string * js)) :=
  if negb (is_object cfg) || is_array cfg then None
  else
    let known := List.filter (fun k => has_field k cfg) ["pushIntervalSeconds"; "maxMissedPushes"; "notificationTypes"] in
    let out := map (fun k => (k, get_field k cfg)) known in
    match get_field "updatePolicy" cfg with
    | JStr p => if String.eqb p "manual" || String.eqb p "off" then Some (out ++ [("updatePolicy", JStr p)]) else Some out
    | _ => Some out
    end.

(** The loop over the reported entries; [out] in order. *)
Fixpoint collect_capabilities (raw : list js) (out : list string) : list string :=
  match raw with
  | [] => out
  | JStr v :: r =>
      let s := trim v in
      if is_empty s || (MAX_AGENT_CAPABILITY_LEN <? String.length s)%nat || bool_decide (s ∈ out)
      then collect_capabilities r out
      else let out := out ++ [s] in
           if (MAX_AGENT_CAPABILITIES <=? length out)%nat then out else collect_capabilities r out
  | _ :: r => collect_capabilities r out
  end.

Definition sanitizeAgentCapabilities (raw : js) : option (list string) :=
  match raw with JArr l => Some (collect_capabilities l []) | _ => None end.

Record ParsedUpdateStatus := { us_targetVersion : string; us_phase : AgentUpdatePhase; us_error : option string }.

Definition reported_phase (s : string) : option AgentUpdatePhase :=
  find (fun p => String.eqb (phase_text p) s) AGENT_REPORTED_UPDATE_PHASES.

Definition parseUpdateStatusFrame (msg : js) : option ParsedUpdateStatus :=
  if negb (is_object msg) then None
  else match get_field "targetVersion" msg with
  | JStr target =>
      if negb (isValidServedAgentVersion target) then None
      else match get_field "phase" msg with
      | JStr ph =>
          match reported_phase ph with
          | None => None
          | Some p =>
              let err := match get_field "error" msg with
                         | JStr e => if is_empty (trim e) then None else Some (substring 0 MAX_UPDATE_ERROR_LEN (trim e))
                         | _ => None
                         end in
              Some {| us_targetVersion := target; us_phase := p; us_error := err |}
          end
      | _ => None
      end
  | _ => None
  end.

(** ** The build manifest

    The artifacts by file name. The size of an artifact, shown on the download page only,
    is left out. *)

Record AgentManifestArtifact := { art_version : string; art_sha256 : string }.
Record AgentManifest := { mf_version : string; mf_artifacts : gmap string AgentManifestArtifact }.

Definition UPDATE_ARTIFACTS : list string :=
  ["obliguard-agent.msi"; "obliguard-agent-linux-amd64"; "obliguard-agent-linux-arm64"; "obliguard-agent-darwin-amd64";
   "obliguard-agent-darwin-arm64"; "obliguard-agent-freebsd-amd64"].

Definition goArch (arch : string) : string :=
  let a := to_lower (trim arch) in
  if String.eqb a "x64" || String.eqb a "x86_64" then "amd64"
  else if String.eqb a "aarch64" then "arm64" else a.

(** [osInfo]: any value; a field of [null] or of a non-object reads as absent. *)
Definition updateArtifactForOs (osInfo : js) : option string :=
  match get_field "platform" osInfo with
  | JStr p =>
      let platform := to_lower (trim p) in
      if String.eqb platform "windows" || String.eqb platform "win32" then Some "obliguard-agent.msi"
      else match get_field "arch" osInfo with
           | JStr a => if is_empty (trim a) then None else Some ("obliguard-agent-" +:+ platform +:+ "-" +:+ goArch a)
           | _ => None
           end
  | _ => None
  end.

(** [[A-Za-z0-9._-]{1,128}] *)
Definition artifact_name (f : string) : bool :=
  (1 <=? String.length f)%nat && (String.length f <=? 128)%nat
  && str_forall (fun c => is_alnum c || Ascii.eqb c "." || Ascii.eqb c "_" || Ascii.eqb c "-") f.

(** One entry of [artifacts]. Assigning the key [__proto__] of an object sets its prototype
    and adds no entry. *)
Definition read_artifact (file : string) (v : js) : option AgentManifestArtifact :=
  if negb (artifact_name file) || String.eqb file "__proto__" || negb (is_object v) then None
  else match get_field "version" v with
  | JStr ver =>
      if is_empty (trim ver) then None
      else Some {| art_version := trim ver;
                   art_sha256 := match get_field "sha256" v with JStr h => to_lower h | _ => "" end |}
  | _ => None
  end.

Definition parseAgentManifest (raw : js) : option AgentManifest :=
  if negb (is_object raw) || is_array raw then None
  else match get_field "artifacts" raw with
  | JObj arts =>
      Some {| mf_version := match get_field "version" raw with JStr v => trim v | _ => "" end;
              mf_artifacts := fold_left (fun m e => match read_artifact (fst e) (snd e) with
                                                    | Some a => <[fst e := a]> m
                                                    | None => m
                                                    end) arts ∅ |}
  | _ => None
  end.

Definition merge_manifest (out m : AgentManifest) : AgentManifest :=
  {| mf_version := if is_empty (mf_version m) then mf_version out else mf_version m;
     mf_artifacts := mf_artifacts m ∪ mf_artifacts out |}.

Definition mergeAgentManifests (l : list AgentManifest) : option AgentManifest :=
  match l with
  | [] => None
  | _ => Some (fold_left merge_manifest l {| mf_version := ""; mf_artifacts := ∅ |})
  end.

(** [manifest.artifacts[f]?.version === served] *)
Definition build_is (m : AgentManifest) (f served : string) : bool :=
  match mf_artifacts m !! f with Some a => String.eqb (art_version a) served | None => false end.

Definition missingBuildsFor (manifest : option AgentManifest) (served : option string) : list string :=
  match manifest, served with
  | Some m, Some s => List.filter (fun f => negb (build_is m f s)) UPDATE_ARTIFACTS
  | _, _ => []
  end.

Definition buildMatchesServed (manifest : option AgentManifest) (served : string) (osInfo : js) : bool :=
  match manifest with
  | None => true
  | Some m => match updateArtifactForOs osInfo with Some f => build_is m f served | None => false end
  end.

(** ** The paced rollout *)

Definition UPDATE_ROLLOUT_MAX_PER_WINDOW : Z := 25.
Definition UPDATE_ROLLOUT_WINDOW_MS : Z := 60000.
Definition UPDATE_ROLLOUT_RESERVATION_MS : Z := 15000.

Definition rolloutWindowHasRoom (counted reserved cap : Z) : bool := counted + reserved <? cap.

(** [Math.ceil(a / b)] for positive [b]. *)
Definition ceil_div (a b : Z) : Z := - (- a / b).

Definition rolloutEstimatedMinutes (targets perWindow windowMs : Z) : Z :=
  if (targets <=? 0) || (perWindow <=? 0) then 0
  else ceil_div targets perWindow * ceil_div windowMs 60000.

Definition rolloutPlatformOf (osInfo : js) : string :=
  match get_field "platform" osInfo with
  | JStr p0 =>
      if is_empty (trim p0) then "unknown"
      else
        let p := to_lower (trim p0) in
        let platform := if String.eqb p "win32" then "windows" else p in
        let arch := match get_field "arch" osInfo with JStr a => if is_empty (trim a) then "" else goArch a | _ => "" end in
        if is_empty arch then platform else platform +:+ "-" +:+ arch
  | _ => "unknown"
  end.

(** ** The served version

    [agent/VERSION] as read from disk ([None]: unreadable), cached for thirty seconds, for
    five when there is nothing to serve. *)

Definition getServedAgentVersion (disk : option string) (now : Z) (cache : option (option string * Z))
    : option string * option (option string * Z) :=
  let miss :=
    let v := match disk with Some raw => if isValidServedAgentVersion raw then Some raw else None | None => None end in
    (v, Some (v, now)) in
  match cache with
  | Some (v, at_) => if now - at_ <? (match v with None => 5000 | Some _ => 30000 end) then (v, cache) else miss
  | None => miss
  end.

(** ** The agent's own gate ([agent/main.go], [startUpdateIfNewer])

    What the Go agent installs: a version of exactly three numbers, strictly newer than its
    own. *)
Definition startUpdateIfNewer (remoteVersion agentVersion : string) : bool :=
  match take_version remoteVersion with
  | Some EmptyString => isStrictlyNewerAgentVersion (Some remoteVersion) (Some agentVersion)
  | _ => false
  end.

(** ** Versions are ordered *)

Definition version_lt (a b : Z * Z * Z) : Prop :=
  let '(a0, a1, a2) := a in let '(b0, b1, b2) := b in a0 < b0 \/ a0 = b0 /\ (a1 < b1 \/ a1 = b1 /\ a2 < b2).

Lemma newer_spec r c : isStrictlyNewerAgentVersion r c = true <-> version_lt (parseAgentSemver c) (parseAgentSemver r).
Proof.
  unfold isStrictlyNewerAgentVersion, version_lt. destruct (parseAgentSemver r) as [[r0 r1] r2], (parseAgentSemver c) as [[c0 c1] c2].
  destruct (Z.eqb_spec r0 c0), (Z.eqb_spec r1 c1); cbn [negb]; rewrite Z.ltb_lt; lia.
Qed.

Lemma newer_irrefl v : isStrictlyNewerAgentVersion v v = false.
Proof.
  apply not_true_iff_false. rewrite newer_spec. unfold version_lt. destruct (parseAgentSemver v) as [[a b] c]. lia.
Qed.

Lemma newer_trans a b c :
  isStrictlyNewerAgentVersion a b = true -> isStrictlyNewerAgentVersion b c = true -> isStrictlyNewerAgentVersion a c = true.
Proof.
  rewrite !newer_spec. unfold version_lt.
  destruct (parseAgentSemver a) as [[a0 a1] a2], (parseAgentSemver b) as [[b0 b1] b2], (parseAgentSemver c) as [[c0 c1] c2]. lia.
Qed.

(** ** The policy against a reference: one list of explicit levels *)

(** Every explicit level, nearest to the agent first. *)
Definition policy_levels (device : option AgentUpdatePolicy) (chain : list GroupPolicyEntry)
    (tenant global : option AgentUpdatePolicy) : list ResolvedAgentUpdatePolicy :=
  match device with Some p => [resolved p Src_agent None] | None => [] end
  ++ map (fun e => resolved (gp_policy e) Src_group (Some (gp_groupId e))) chain
  ++ match tenant with Some p => [resolved p Src_tenant None] | None => [] end
  ++ match global with Some p => [resolved p Src_global None] | None => [] end.

Definition off_level (r : ResolvedAgentUpdatePolicy) : bool := bool_decide (rp_policy r = Policy_off).

(** The farthest 'off', else the nearest level, else the default. *)
Definition policy_reference (levels : list ResolvedAgentUpdatePolicy) : ResolvedAgentUpdatePolicy :=
  match find off_level (rev levels), levels with
  | Some r, _ => r
  | None, r :: _ => r
  | None, [] => resolved DEFAULT_AGENT_UPDATE_POLICY Src_default None
  end.

Lemma find_app {A} (f : A -> bool) l1 l2 : find f (l1 ++ l2) = match find f l1 with Some x => Some x | None => find f l2 end.
Proof. induction l1 as [|x l1 IH]; simpl; [done|]. by destruct (f x). Qed.

Lemma find_map {A B} (g : A -> B) (f : B -> bool) l : find f (map g l) = option_map g (find (fun x => f (g x)) l).
Proof. induction l as [|x l IH]; simpl; [done|]. by destruct (f (g x)). Qed.

Lemma resolve_reference device chain tenant global :
  resolveAgentUpdatePolicy device chain tenant global = policy_reference (policy_levels device chain tenant global).
Proof.
  unfold policy_reference, policy_levels, resolveAgentUpdatePolicy, farthest_off.
  rewrite !rev_app_distr, !find_app, <- map_rev, find_map.
  assert (He : forall l, find (fun x => off_level (resolved (gp_policy x) Src_group (Some (gp_groupId x)))) l
                  = find (fun e => is_off (Some (gp_policy e))) l).
  { induction l as [|x l IH]; simpl; [done|]. rewrite IH. unfold off_level, is_off. cbn [rp_policy resolved].
    by destruct (gp_policy x). }
  rewrite He. destruct (find _ (rev chain)) as [e|] eqn:Ef.
  - apply find_some in Ef as [_ Ef]. unfold is_off in Ef. boolify. injection Ef as Ef.
    destruct global as [[]|], tenant as [[]|]; cbn; rewrite ?Ef; done.
  - destruct chain as [|g chain]; destruct device as [[]|], global as [[]|], tenant as [[]|]; cbn; done.
Qed.

(** The policy of an agent is decided by one rule over its explicit levels (agent,
    groups from the nearest, tenant, global): the farthest 'off' freezes the agent and is
    the level reported, otherwise the nearest level decides, and nothing set is 'manual'. *)
Theorem resolve_policy_exact device chain tenant global :
  resolveAgentUpdatePolicy device chain tenant global = policy_reference (policy_levels device chain tenant global).
Proof. apply resolve_reference. Qed.

(** A policy that is not 'off' means no level is. *)
Lemma reference_not_off levels : rp_policy (policy_reference levels) <> Policy_off -> Forall (fun l => rp_policy l <> Policy_off) levels.
Proof.
  unfold policy_reference. destruct (find off_level (rev levels)) as [r|] eqn:E.
  - apply find_some in E as [_ E]. unfold off_level in E. boolify. done.
  - intros _. apply List.Forall_forall. intros l Hl Ho. eapply find_none in E; [|by apply -> in_rev].
    unfold off_level in E. boolify. done.
Qed.

(** ** What an agent sends is bounded *)

Definition capability_ok (s : string) : Prop :=
  trim s = s /\ is_empty s = false /\ (String.length s <= MAX_AGENT_CAPABILITY_LEN)%nat.

Lemma trim_end_idem s : trim_end (trim_end s) = trim_end s.
Proof.
  induction s as [|c t IH]; [done|]. cbn [trim_end]. destruct (trim_end t) as [|d u] eqn:E.
  - destruct (is_ws c) eqn:Ew; [done|]. cbn. by rewrite Ew.
  - change (trim_end (String c (String d u))) with
      (match trim_end (String d u) with EmptyString => if is_ws c then EmptyString else String c EmptyString | r => String c r end).
    by rewrite IH.
Qed.

Lemma trim_start_idem s : trim_start (trim_start s) = trim_start s.
Proof. induction s as [|c t IH]; [done|]. cbn [trim_start]. destruct (is_ws c) eqn:E; [done|]. cbn [trim_start]. by rewrite E. Qed.

(** Trimming the end never brings a space to the front. *)
Lemma trim_start_end s : trim_start s = s -> trim_start (trim_end s) = trim_end s.
Proof.
  destruct s as [|c t]; [done|]. cbn [trim_start]. destruct (is_ws c) eqn:E.
  - intros H. exfalso. assert (Hl : forall u, (String.length (trim_start u) <= String.length u)%nat).
    { induction u as [|d u IH]; [done|]. cbn [trim_start]. destruct (is_ws d); cbn [String.length] in *; lia. }
    specialize (Hl t). rewrite H in Hl. cbn [String.length] in Hl. lia.
  - intros _. cbn [trim_end]. destruct (trim_end t); rewrite ?E; cbn [trim_start]; by rewrite ?E.
Qed.

Lemma trim_idem s : trim (trim s) = trim s.
Proof.
  unfold trim. rewrite trim_start_end by apply trim_start_idem. apply trim_end_idem.
Qed.

Lemma collect_capabilities_ok raw out :
  Forall capability_ok out -> NoDup out -> (length out < MAX_AGENT_CAPABILITIES)%nat ->
  Forall capability_ok (collect_capabilities raw out) /\ NoDup (collect_capabilities raw out)
  /\ (length (collect_capabilities raw out) <= MAX_AGENT_CAPABILITIES)%nat.
Proof.
  revert out. induction raw as [|v raw IH]; intros out Ho Hn Hl; cbn [collect_capabilities]; [split_and!; (done || lia)|].
  destruct v; try by apply IH.
  destruct (is_empty (trim s) || _ || _) eqn:E; [by apply IH|]. boolify.
  assert (Ht : capability_ok (trim s)) by (split_and!; [apply trim_idem|done|done]).
  assert (Hn' : NoDup (out ++ [trim s])) by (apply NoDup_app; split_and!; [done|set_solver|apply NoDup_singleton]).
  assert (Ho' : Forall capability_ok (out ++ [trim s])) by (apply Forall_app; split; [done|by constructor]).
  destruct (_ <=? length (out ++ _))%nat eqn:El; boolify; [|by apply IH].
  split_and!; [done|done|]. rewrite length_app. cbn [length]. lia.
Qed.

Lemma sanitizeAgentCapabilities_ok raw l :
  sanitizeAgentCapabilities raw = Some l -> Forall capability_ok l /\ NoDup l /\ (length l <= MAX_AGENT_CAPABILITIES)%nat.
Proof.
  destruct raw; try done. intros [= <-]. apply collect_capabilities_ok; [constructor|constructor|cbn; unfold MAX_AGENT_CAPABILITIES; lia].
Qed.

Lemma substring_length n s : (String.length (substring 0 n s) <= n)%nat.
Proof. revert s. induction n as [|n IH]; intros [|c s]; cbn; try lia. specialize (IH s). lia. Qed.

Definition error_ok (e : option string) : Prop :=
  match e with Some e => is_empty e = false /\ (String.length e <= MAX_UPDATE_ERROR_LEN)%nat | None => True end.

(** A frame that parses fits the columns of [agent_update_attempts]. *)
Lemma parseUpdateStatusFrame_ok msg st :
  parseUpdateStatusFrame msg = Some st ->
  (String.length (us_targetVersion st) <= MAX_AGENT_VERSION_LEN)%nat /\ us_phase st ∈ AGENT_REPORTED_UPDATE_PHASES
  /\ error_ok (us_error st).
Proof.
  unfold parseUpdateStatusFrame. intros H. destruct (is_object msg); [|done]. cbn [negb] in H.
  destruct (get_field "targetVersion" msg) as [| | | |target| |]; try done.
  destruct (isValidServedAgentVersion target) eqn:Ev; [|done]. cbn [negb] in H.
  destruct (get_field "phase" msg) as [| | | |ph| |]; try done.
  destruct (reported_phase ph) as [p|] eqn:Ep; [|done]. injection H as <-. cbn [us_targetVersion us_phase us_error].
  apply find_some in Ep as [Ep _]. unfold isValidServedAgentVersion in Ev. boolify.
  split_and!; [done|by apply list_elem_of_In|]. destruct (get_field "error" msg) as [| | | |e| |]; try done.
  destruct (is_empty (trim e)) eqn:Ee; [done|]. split; [|apply substring_length]. by destruct (trim e).
Qed.

(** The server serves versions with a suffix, which the agent never installs. *)
Lemma suffix_never_installed :
  isValidServedAgentVersion "1.3.0-rc1" = true
  /\ shouldAdvertiseUpdate (Some "1.3.0-rc1") "1.2.0" Policy_auto false "agent" "approved" = true
  /\ startUpdateIfNewer "1.3.0-rc1" "1.2.0" = false.
Proof. by split_and!. Qed.
