(* ===== verification/UpdateStore.v ===== *)
(** * State of the agent update control ([server/src/services/agent.service.ts],
    [server/src/services/agentUpdateRollout.service.ts])

    The tables it reads and writes ([agent_devices], [agent_update_attempts] of migration
    031, the policies of tenants and groups), the two policy caches, the slots of the
    rollout window, and what it announces; the primitive reads and writes. Rows are keyed by
    the unique keys of their tables. A statement that fails leaves the tables alone; where
    the code catches such a failure the operation takes whether its database answers. *)

From stdpp Require Import sorting.
From S2P Require Import Prelude JsString JsValue JsNumber Tenancy Access AgentUpdate.

(** [agent_devices], the columns of the update control. *)
Record AgentRow := {
  ar_tenant_id : Z; ar_group_id : option Z; ar_status : string; ar_device_type : string;
  ar_agent_version : option string; ar_os_info : js; ar_update_policy : option string;
  ar_requested_at : option Z; ar_requested_version : option string; ar_requested_by : option Z;
  ar_updating_since : option Z
}.

(** [agent_update_attempts], under [(device_id, target_version)]. *)
Record Attempt := {
  ua_id : Z; ua_offered_count : Z; ua_last_offered_at : option Z; ua_phase : AgentUpdatePhase;
  ua_last_error : option string; ua_updated_at : Z; ua_finished_at : option Z
}.
Abbreviation AttemptKey := (prod Z string).

(** [monitor_groups]: tenant and [agent_group_config]. *)
Record GroupRow := { gr_tenant_id : Z; gr_config : js }.

Inductive UEffect :=
| UE_attempt (tenantId deviceId : Z) (latest : option (string * Attempt))  (** AGENT_DEVICE_UPDATED, the latest attempt *)
| UE_requestCleared (tenantId deviceId : Z)                                (** AGENT_DEVICE_UPDATED, no request any more *)
| UE_updating (tenantId deviceId : Z)                                      (** AGENT_STATUS_CHANGED 'updating' *)
| UE_failedIncident (deviceId : Z) (target reason : string)
| UE_failedResolved (deviceId : Z).

Abbreviation Chains := (gmap Z (list GroupPolicyEntry)).

Record UWorld := {
  uw_devices : gmap Z AgentRow;
  uw_next_device : Z;
  uw_attempts : gmap AttemptKey Attempt;
  uw_next_attempt : Z;
  uw_tenants : gmap Z (option string);          (** [tenants.agent_update_policy] *)
  uw_groups : gmap Z GroupRow;
  uw_closure : list (Z * Z * Z);                (** (ancestor, descendant, depth) *)
  uw_global : option string;                    (** [appConfig.agentGlobal.updatePolicy] *)
  uw_chains : option (option Chains * Z);       (** [_updPolicyCache] *)
  uw_tenantPolicies : option (option (gmap Z AgentUpdatePolicy) * Z);  (** [_tenantPolicyCache] *)
  uw_reservations : gmap Z Z;
  uw_windowFullAt : option Z;
  uw_effects : list UEffect
}.

Definition set_devices f (w : UWorld) : UWorld :=
  {| uw_devices := f (uw_devices w); uw_next_device := uw_next_device w; uw_attempts := uw_attempts w;
     uw_next_attempt := uw_next_attempt w; uw_tenants := uw_tenants w; uw_groups := uw_groups w; uw_closure := uw_closure w;
     uw_global := uw_global w; uw_chains := uw_chains w; uw_tenantPolicies := uw_tenantPolicies w;
     uw_reservations := uw_reservations w; uw_windowFullAt := uw_windowFullAt w; uw_effects := uw_effects w |}.
Definition set_attempts f (w : UWorld) : UWorld :=
  {| uw_devices := uw_devices w; uw_next_device := uw_next_device w; uw_attempts := f (uw_attempts w);
     uw_next_attempt := uw_next_attempt w; uw_tenants := uw_tenants w; uw_groups := uw_groups w; uw_closure := uw_closure w;
     uw_global := uw_global w; uw_chains := uw_chains w; uw_tenantPolicies := uw_tenantPolicies w;
     uw_reservations := uw_reservations w; uw_windowFullAt := uw_windowFullAt w; uw_effects := uw_effects w |}.
Definition set_next_attempt n (w : UWorld) : UWorld :=
  {| uw_devices := uw_devices w; uw_next_device := uw_next_device w; uw_attempts := uw_attempts w;
     uw_next_attempt := n; uw_tenants := uw_tenants w; uw_groups := uw_groups w; uw_closure := uw_closure w;
     uw_global := uw_global w; uw_chains := uw_chains w; uw_tenantPolicies := uw_tenantPolicies w;
     uw_reservations := uw_reservations w; uw_windowFullAt := uw_windowFullAt w; uw_effects := uw_effects w |}.
Definition set_tenants f (w : UWorld) : UWorld :=
  {| uw_devices := uw_devices w; uw_next_device := uw_next_device w; uw_attempts := uw_attempts w;
     uw_next_attempt := uw_next_attempt w; uw_tenants := f (uw_tenants w); uw_groups := uw_groups w; uw_closure := uw_closure w;
     uw_global := uw_global w; uw_chains := uw_chains w; uw_tenantPolicies := uw_tenantPolicies w;
     uw_reservations := uw_reservations w; uw_windowFullAt := uw_windowFullAt w; uw_effects := uw_effects w |}.
Definition set_caches c t (w : UWorld) : UWorld :=
  {| uw_devices := uw_devices w; uw_next_device := uw_next_device w; uw_attempts := uw_attempts w;
     uw_next_attempt := uw_next_attempt w; uw_tenants := uw_tenants w; uw_groups := uw_groups w; uw_closure := uw_closure w;
     uw_global := uw_global w; uw_chains := c; uw_tenantPolicies := t;
     uw_reservations := uw_reservations w; uw_windowFullAt := uw_windowFullAt w; uw_effects := uw_effects w |}.
Definition set_slots f (full : option Z) (w : UWorld) : UWorld :=
  {| uw_devices := uw_devices w; uw_next_device := uw_next_device w; uw_attempts := uw_attempts w;
     uw_next_attempt := uw_next_attempt w; uw_tenants := uw_tenants w; uw_groups := uw_groups w; uw_closure := uw_closure w;
     uw_global := uw_global w; uw_chains := uw_chains w; uw_tenantPolicies := uw_tenantPolicies w;
     uw_reservations := f (uw_reservations w); uw_windowFullAt := full; uw_effects := uw_effects w |}.
Definition add_effects es (w : UWorld) : UWorld :=
  {| uw_devices := uw_devices w; uw_next_device := uw_next_device w; uw_attempts := uw_attempts w;
     uw_next_attempt := uw_next_attempt w; uw_tenants := uw_tenants w; uw_groups := uw_groups w; uw_closure := uw_closure w;
     uw_global := uw_global w; uw_chains := uw_chains w; uw_tenantPolicies := uw_tenantPolicies w;
     uw_reservations := uw_reservations w; uw_windowFullAt := uw_windowFullAt w; uw_effects := uw_effects w ++ es |}.

(** ** Operations as state transformers *)

Definition U (A : Type) : Type := UWorld -> A * UWorld.
Definition uret {A} (a : A) : U A := fun w => (a, w).
Definition ubind {A B} (m : U A) (k : A -> U B) : U B := fun w => let '(a, w') := m w in k a w'.
Definition uget : U UWorld := fun w => (w, w).
Definition umod (f : UWorld -> UWorld) : U unit := fun w => (tt, f w).
Definition uemit (es : list UEffect) : U unit := umod (add_effects es).
Definition uwhen (c : bool) (m : U unit) : U unit := if c then m else uret tt.
Fixpoint ufor {A} (l : list A) (f : A -> U unit) : U unit :=
  match l with [] => uret tt | x :: r => ubind (f x) (fun _ => ufor r f) end.

Declare Scope upd_scope.
Delimit Scope upd_scope with upd.
Notation "x <- m ;; k" := (ubind m (fun x => k)) (at level 90, m at next level, k at level 200, right associativity) : upd_scope.
Notation "m >> k" := (ubind m (fun _ => k)) (at level 90, k at level 200, right associativity) : upd_scope.

(** What an operation reads outside the tables: its clock, the version and the manifest
    served from disk, whether the two policy lookups answer when they are not cached, and
    whether the database answers the operations that catch its failures. *)
Record UEnv := {
  ue_now : Z; ue_served : option string; ue_manifest : option AgentManifest;
  ue_chains_ok : bool; ue_tenants_ok : bool; ue_db : bool
}.

(** ** Policy lookups *)

Definition UPD_POLICY_CACHE_TTL_MS : Z := 15000.
Definition UPD_POLICY_FAILURE_TTL_MS : Z := 5000.

(** [agent_group_config->>'updatePolicy' IN ('auto','manual','off')] of an object. *)
Definition group_policy (config : js) : option AgentUpdatePolicy :=
  match config with
  | JObj _ => match get_field "updatePolicy" config with JStr p => readPolicy p | _ => None end
  | _ => None
  end.

(** A row of the closure join: descendant, depth, entry. *)
Definition chain_rows (w : UWorld) : list (Z * Z * GroupPolicyEntry) :=
  omap (fun '(anc, desc, depth) =>
          g ← uw_groups w !! anc; p ← group_policy (gr_config g);
          Some (desc, depth, {| gp_groupId := anc; gp_tenantId := gr_tenant_id g; gp_policy := p |})) (uw_closure w).

Definition chain_row_le (a b : Z * Z * GroupPolicyEntry) : Prop :=
  fst (fst a) < fst (fst b) \/ fst (fst a) = fst (fst b) /\ snd (fst a) <= snd (fst b).
#[export] Instance chain_row_le_dec a b : Decision (chain_row_le a b).
Proof. unfold chain_row_le. solve_decision. Defined.

Definition push_chain (m : Chains) (r : Z * Z * GroupPolicyEntry) : Chains :=
  let '(desc, _, e) := r in <[desc := default [] (m !! desc) ++ [e]]> m.

Definition loadGroupUpdatePolicyChains (w : UWorld) : Chains :=
  fold_left push_chain (merge_sort chain_row_le (chain_rows w)) ∅.

Definition loadTenantUpdatePolicies (w : UWorld) : gmap Z AgentUpdatePolicy :=
  omap (fun p => p ≫= readPolicy) (uw_tenants w).

(** A cached lookup: a failure is cached too, for less long. *)
Definition cached_lookup {A} (now : Z) (cache : option (option A * Z)) (ok : bool) (load : A) : option A * option (option A * Z) :=
  let miss := let v := if ok then Some load else None in (v, Some (v, now)) in
  match cache with
  | Some (v, at_) =>
      if now - at_ <? (match v with None => UPD_POLICY_FAILURE_TTL_MS | Some _ => UPD_POLICY_CACHE_TTL_MS end) then (v, cache) else miss
  | None => miss
  end.

Definition getGroupUpdatePolicyChains (en : UEnv) : U (option Chains) := fun w =>
  let '(v, c) := cached_lookup (ue_now en) (uw_chains w) (ue_chains_ok en) (loadGroupUpdatePolicyChains w) in
  (v, set_caches c (uw_tenantPolicies w) w).

Definition getTenantUpdatePolicies (en : UEnv) : U (option (gmap Z AgentUpdatePolicy)) := fun w =>
  let '(v, c) := cached_lookup (ue_now en) (uw_tenantPolicies w) (ue_tenants_ok en) (loadTenantUpdatePolicies w) in
  (v, set_caches (uw_chains w) c w).

Definition invalidateAgentUpdatePolicyCache : U unit := umod (set_caches None None).

(** ** Devices as the code sees them *)

(** [AgentDevice], the fields of the update control. *)
Record AgentView := {
  av_id : Z; av_tenantId : Z; av_groupId : option Z; av_status : string; av_deviceType : string;
  av_agentVersion : option string; av_osInfo : js; av_policy : ResolvedAgentUpdatePolicy;
  av_updateAvailable : bool; av_requestedAt : option Z; av_requestedVersion : option string;
  av_updatePending : bool; av_update : option (string * Attempt)
}.

(** The later of two attempts: ORDER BY updated_at DESC, id DESC. *)
Definition later_attempt (a b : string * Attempt) : string * Attempt :=
  if (ua_updated_at (snd a) <? ua_updated_at (snd b))
     || ((ua_updated_at (snd a) =? ua_updated_at (snd b)) && (ua_id (snd a) <? ua_id (snd b))) then b else a.

Definition device_attempts (w : UWorld) (d : Z) : list (string * Attempt) :=
  omap (fun '((d', v), a) => if d' =? d then Some (v, a) else None) (map_to_list (uw_attempts w)).

Definition loadLatestAttempt (w : UWorld) (d : Z) : option (string * Attempt) :=
  match device_attempts w d with
  | [] => None
  | a :: r => Some (fold_left later_attempt r a)
  end.

Definition off_unresolved : ResolvedAgentUpdatePolicy := resolved Policy_off Src_unresolved None.

(** [updCtx] and the policy part of [updateFieldsFor]. *)
Definition devicePolicy (row : AgentRow) (global : option string) (chains : option Chains)
    (tenants : option (gmap Z AgentUpdatePolicy)) : ResolvedAgentUpdatePolicy :=
  let dp := ar_update_policy row ≫= readPolicy in
  let gp := global ≫= readPolicy in
  let groupChain := match ar_group_id row with
                    | None => Some []
                    | Some g => option_map (fun m : Chains => default [] (m !! g)) chains
                    end in
  match groupChain, tenants with
  | Some chain, Some tp =>
      let chain := List.filter (fun e => gp_tenantId e =? ar_tenant_id row) chain in
      resolveAgentUpdatePolicy dp chain (tp !! ar_tenant_id row) gp
  | _, _ => if is_off gp then resolved Policy_off Src_global None else off_unresolved
  end.

(** [rowToDevice] with [updateFieldsFor]. *)
Definition deviceView (en : UEnv) (w : UWorld) (chains : option Chains) (tenants : option (gmap Z AgentUpdatePolicy))
    (d : Z) (row : AgentRow) : AgentView :=
  let r := devicePolicy row (uw_global w) chains tenants in
  let served := ue_served en in
  let available := negb (String.eqb (ar_device_type row) "mikrotik") && String.eqb (ar_status row) "approved"
                   && match served, ar_agent_version row with
                      | Some _, Some v => negb (is_empty v) && isStrictlyNewerAgentVersion served (Some v)
                      | _, _ => false
                      end in
  let live := isUpdateRequestLive (ar_requested_at row) (ar_requested_version row) served (ue_now en) in
  {| av_id := d; av_tenantId := ar_tenant_id row; av_groupId := ar_group_id row; av_status := ar_status row;
     av_deviceType := ar_device_type row; av_agentVersion := ar_agent_version row; av_osInfo := ar_os_info row;
     av_policy := r; av_updateAvailable := available; av_requestedAt := ar_requested_at row;
     av_requestedVersion := ar_requested_version row;
     av_updatePending := live && negb (bool_decide (rp_policy r = Policy_off)) && available;
     av_update := loadLatestAttempt w d |}.

Open Scope upd_scope.

(** [hydrateDeviceRow] / [hydrateDeviceRows]: the lookups, once, then every row. *)
Definition hydrate (en : UEnv) (rows : list (Z * AgentRow)) : U (list AgentView) :=
  chains <- getGroupUpdatePolicyChains en ;;
  tenants <- getTenantUpdatePolicies en ;;
  w <- uget ;;
  uret (map (fun '(d, row) => deviceView en w chains tenants d row) rows).

Definition getDevicesByIdsInTenant (en : UEnv) (ids : list Z) (tenantId : Z) : U (list AgentView) :=
  if bool_decide (ids = []) then uret []
  else w <- uget ;;
       hydrate en (List.filter (fun '(d, row) => mem d ids && (ar_tenant_id row =? tenantId)) (map_to_list (uw_devices w))).

(** [listDevices(tenantId, 'approved', { visibleIds })] *)
Definition listApproved (en : UEnv) (tenantId : Z) (visible : Ids) : U (list AgentView) :=
  w <- uget ;;
  hydrate en (List.filter (fun '(d, row) =>
      (isMasterTenant (Some tenantId) || (ar_tenant_id row =? tenantId)) && String.eqb (ar_status row) "approved"
      && match visible with Ids_all => true | Ids_list l => mem d l end) (map_to_list (uw_devices w))).

(** [emitAttemptPatch] *)
Definition emitAttemptPatch (deviceId : Z) (tenantId : option Z) : U unit :=
  w <- uget ;;
  match (match tenantId with Some t => Some t | None => option_map ar_tenant_id (uw_devices w !! deviceId) end) with
  | Some t => uemit [UE_attempt t deviceId (loadLatestAttempt w deviceId)]
  | None => uret tt
  end.

Definition raiseUpdateFailedIncident (deviceId : Z) (target reason : string) : U unit :=
  w <- uget ;;
  uwhen (bool_decide (is_Some (uw_devices w !! deviceId))) (uemit [UE_failedIncident deviceId target reason]).
