(* ===== verification/UpdateOps.v ===== *)
(** * Operations of the agent update control ([server/src/services/agent.service.ts],
    [server/src/services/agentUpdateRollout.service.ts])

    The slots of the rollout window, the offers and their bookkeeping, what a heartbeat
    does, what agents report, and what administrators ask for. *)

From S2P Require Import Prelude JsString JsValue JsNumber Tenancy Access AgentUpdate UpdateStore.

Open Scope upd_scope.

(** ** Attempts *)

Definition update_attempts (p : AttemptKey -> Attempt -> bool) (f : Attempt -> Attempt) : U unit :=
  umod (set_attempts (map_imap (fun k a => Some (if p k a then f a else a)))).

(** The rows an UPDATE ... RETURNING touches. *)
Definition matching_attempts (w : UWorld) (p : AttemptKey -> Attempt -> bool) : list (AttemptKey * Attempt) :=
  List.filter (fun '(k, a) => p k a) (map_to_list (uw_attempts w)).

(** [{ phase, last_error, finished_at: now, updated_at: now }] *)
Definition close_attempt (phase : AgentUpdatePhase) (error : option string) (now : Z) (a : Attempt) : Attempt :=
  {| ua_id := ua_id a; ua_offered_count := ua_offered_count a; ua_last_offered_at := ua_last_offered_at a; ua_phase := phase;
     ua_last_error := error; ua_updated_at := now; ua_finished_at := Some now |}.
(** The same without [last_error]. *)
Definition cancel_attempt (now : Z) (a : Attempt) : Attempt := close_attempt Cancelled (ua_last_error a) now a.
(** [{ offered_count: 0, phase: 'offered', last_error: null, finished_at: null, updated_at: now }] *)
Definition reopen_attempt (now : Z) (a : Attempt) : Attempt :=
  {| ua_id := ua_id a; ua_offered_count := 0; ua_last_offered_at := ua_last_offered_at a; ua_phase := Offered;
     ua_last_error := None; ua_updated_at := now; ua_finished_at := None |}.
(** [{ phase, last_error, finished_at, updated_at: now }] of a reported phase. *)
Definition report_attempt (phase : AgentUpdatePhase) (error : option string) (now : Z) (a : Attempt) : Attempt :=
  {| ua_id := ua_id a; ua_offered_count := ua_offered_count a; ua_last_offered_at := ua_last_offered_at a; ua_phase := phase;
     ua_last_error := error; ua_updated_at := now;
     ua_finished_at := if bool_decide (phase = Failed) then Some now else None |}.

Definition is_open (p : AgentUpdatePhase) : bool := bool_decide (p = Offered) || in_progress p.

Definition cancelOpenAttempts (en : UEnv) (ids : list Z) : U unit :=
  if negb (ue_db en) then uret tt
  else update_attempts (fun k a => mem (fst k) ids && is_open (ua_phase a)) (cancel_attempt (ue_now en)).

(** ** Requests on devices *)

Definition clear_request (r : AgentRow) : AgentRow :=
  {| ar_tenant_id := ar_tenant_id r; ar_group_id := ar_group_id r; ar_status := ar_status r; ar_device_type := ar_device_type r;
     ar_agent_version := ar_agent_version r; ar_os_info := ar_os_info r; ar_update_policy := ar_update_policy r;
     ar_requested_at := None; ar_requested_version := None; ar_requested_by := None; ar_updating_since := ar_updating_since r |}.
Definition make_request (now : Z) (version : string) (by_ : option Z) (r : AgentRow) : AgentRow :=
  {| ar_tenant_id := ar_tenant_id r; ar_group_id := ar_group_id r; ar_status := ar_status r; ar_device_type := ar_device_type r;
     ar_agent_version := ar_agent_version r; ar_os_info := ar_os_info r; ar_update_policy := ar_update_policy r;
     ar_requested_at := Some now; ar_requested_version := Some version; ar_requested_by := by_;
     ar_updating_since := ar_updating_since r |}.
Definition set_updating (since : option Z) (r : AgentRow) : AgentRow :=
  {| ar_tenant_id := ar_tenant_id r; ar_group_id := ar_group_id r; ar_status := ar_status r; ar_device_type := ar_device_type r;
     ar_agent_version := ar_agent_version r; ar_os_info := ar_os_info r; ar_update_policy := ar_update_policy r;
     ar_requested_at := ar_requested_at r; ar_requested_version := ar_requested_version r; ar_requested_by := ar_requested_by r;
     ar_updating_since := since |}.
Definition set_status (status : string) (r : AgentRow) : AgentRow :=
  {| ar_tenant_id := ar_tenant_id r; ar_group_id := ar_group_id r; ar_status := status; ar_device_type := ar_device_type r;
     ar_agent_version := ar_agent_version r; ar_os_info := ar_os_info r; ar_update_policy := ar_update_policy r;
     ar_requested_at := ar_requested_at r; ar_requested_version := ar_requested_version r; ar_requested_by := ar_requested_by r;
     ar_updating_since := ar_updating_since r |}.
(** The metadata of a heartbeat. *)
Definition set_reported (version : string) (osInfo : js) (r : AgentRow) : AgentRow :=
  {| ar_tenant_id := ar_tenant_id r; ar_group_id := ar_group_id r; ar_status := ar_status r; ar_device_type := ar_device_type r;
     ar_agent_version := Some version; ar_os_info := osInfo; ar_update_policy := ar_update_policy r;
     ar_requested_at := ar_requested_at r; ar_requested_version := ar_requested_version r; ar_requested_by := ar_requested_by r;
     ar_updating_since := None |}.

Definition update_devices (p : Z -> AgentRow -> bool) (f : AgentRow -> AgentRow) : U unit :=
  umod (set_devices (map_imap (fun d r => Some (if p d r then f r else r)))).
Definition matching_devices (w : UWorld) (p : Z -> AgentRow -> bool) : list Z :=
  map fst (List.filter (fun '(d, r) => p d r) (map_to_list (uw_devices w))).
Definition has_request (r : AgentRow) : bool := bool_decide (is_Some (ar_requested_at r)).

Definition clearUpdateRequestIfUnchanged (d readAt : Z) : U bool :=
  let p := fun d' r => (d' =? d) && match ar_requested_at r with Some t => Z.abs (t - readAt) <? 2 | None => false end in
  w <- uget ;;
  update_devices p clear_request >>
  uret (bool_decide (matching_devices w p <> [])).

Definition request_over (en : UEnv) (v : AgentView) (reported : string) (at_ : Z) : bool :=
  let reqV := av_requestedVersion v in
  if negb (String.eqb (av_status v) "approved") then true
  else if bool_decide (rp_policy (av_policy v) = Policy_off) && negb (bool_decide (rp_source (av_policy v) = Src_unresolved)) then true
  else match reqV with
  | None | Some EmptyString => true
  | Some _ =>
      if negb (isStrictlyNewerAgentVersion reqV (Some reported)) then true
      else if AGENT_UPDATE_REQUEST_TTL_MS <=? ue_now en - at_ then true
      else match ue_served en with Some s => negb (bool_decide (reqV = Some s)) | None => false end
  end.

Definition without_request (v : AgentView) : AgentView :=
  {| av_id := av_id v; av_tenantId := av_tenantId v; av_groupId := av_groupId v; av_status := av_status v;
     av_deviceType := av_deviceType v; av_agentVersion := av_agentVersion v; av_osInfo := av_osInfo v; av_policy := av_policy v;
     av_updateAvailable := av_updateAvailable v; av_requestedAt := None; av_requestedVersion := None;
     av_updatePending := false; av_update := av_update v |}.

Definition reconcileUpdateRequest (en : UEnv) (v : AgentView) (reported : string) : U AgentView :=
  match av_requestedAt v with
  | None => uret v
  | Some at_ =>
      if negb (request_over en v reported at_) || negb (ue_db en) then uret v
      else cleared <- clearUpdateRequestIfUnchanged (av_id v) at_ ;;
           uret (if cleared then without_request v else v)
  end.

(** ** Outcome of the attempts on a heartbeat *)

(** One open attempt read at the start of the loop; the result: whether it changed. *)
Definition reconcile_attempt (en : UEnv) (d : Z) (reported : string) (connectedAt : option Z) (v : string) (a : Attempt) : U bool :=
  let now := ue_now en in
  if negb (isStrictlyNewerAgentVersion (Some v) (Some reported)) then
    update_attempts (fun k a => bool_decide (k = (d, v)) && negb (bool_decide (ua_phase a = Succeeded))) (close_attempt Succeeded None now) >>
    uemit [UE_failedResolved d] >> uret true
  else if negb (bool_decide (ua_phase a = Installing) || bool_decide (ua_phase a = Restarting)) then uret false
  else
    let reconnected := match connectedAt with
                       | Some c => ua_updated_at a <? c
                       | None => 2 * 60000 <=? now - ua_updated_at a
                       end in
    if negb reconnected then uret false
    else update_attempts (fun k a' => bool_decide (k = (d, v)) && bool_decide (ua_phase a' = ua_phase a))
           (close_attempt Failed (Some "reverted_or_failed") now) >>
         raiseUpdateFailedIncident d v "the agent came back on its previous version" >> uret true.

Fixpoint reconcile_attempts (en : UEnv) (d : Z) (reported : string) (connectedAt : option Z) (l : list (string * Attempt)) : U bool :=
  match l with
  | [] => uret false
  | (v, a) :: r => c <- reconcile_attempt en d reported connectedAt v a ;;
                   c' <- reconcile_attempts en d reported connectedAt r ;; uret (c || c')
  end.

Definition reconcileUpdateAttempts (en : UEnv) (v : AgentView) (reported : string) (connectedAt : option Z) : U unit :=
  if is_empty reported || negb (ue_db en) then uret tt
  else w <- uget ;;
       changed <- reconcile_attempts en (av_id v) reported connectedAt
                    (List.filter (fun '(_, a) => negb (bool_decide (ua_phase a = Succeeded))) (device_attempts w (av_id v))) ;;
       uwhen changed (emitAttemptPatch (av_id v) (Some (av_tenantId v))).

(** ** The rollout window *)

Definition FULL_RECHECK_MS : Z := 1000.

(** Rows offered in the window ending at [now]. *)
Definition in_window (now : Z) (a : Attempt) : bool :=
  match ua_last_offered_at a with Some t => (now - UPDATE_ROLLOUT_WINDOW_MS <? t) && (t <=? now) | None => false end.
Definition countRolloutOffersInWindow (now : Z) (w : UWorld) : Z :=
  Z.of_nat (size (filter (fun ka => in_window now (snd ka) = true) (uw_attempts w))).

(** A reservation still holding its slot at [now]. *)
Definition live_slot (now at_ : Z) : bool := Z.abs (now - at_) <? UPDATE_ROLLOUT_RESERVATION_MS.
Definition purgeReservations (now : Z) (m : gmap Z Z) : gmap Z Z := filter (fun da => live_slot now (snd da) = true) m.

(** A slot is asked for under a lock, with the clock [now] the heartbeat read when it began to
    look at its version. Before the count is awaited: *)
Inductive SlotStart := Slot_held | Slot_refused | Slot_count.
Definition slot_begin (now d : Z) : U SlotStart := fun w =>
  let m := purgeReservations now (uw_reservations w) in
  let full := uw_windowFullAt w in
  if bool_decide (is_Some (m !! d)) then (Slot_held, set_slots (fun _ => <[d := now]> m) full w)
  else if match full with Some t => (t <=? now) && (now - t <? FULL_RECHECK_MS) | None => false end
  then (Slot_refused, set_slots (fun _ => m) full w)
  else (Slot_count, set_slots (fun _ => m) full w).
(** After it, on the reservations as they are by then: *)
Definition slot_decide (now counted d : Z) : U bool := fun w =>
  if negb (rolloutWindowHasRoom counted (Z.of_nat (size (uw_reservations w))) UPDATE_ROLLOUT_MAX_PER_WINDOW)
  then (false, set_slots id (Some now) w)
  else (true, set_slots (insert d now) None w).

(** Both at once, nothing happening during the count; [None]: the count fails. [UpdateWindow]
    lets the rest of the server go on between them. *)
Definition reserveRolloutSlot (en : UEnv) (d : Z) : U (option bool) :=
  start <- slot_begin (ue_now en) d ;;
  match start with
  | Slot_held => uret (Some true)
  | Slot_refused => uret (Some false)
  | Slot_count =>
      if negb (ue_db en) then uret None
      else w <- uget ;; b <- slot_decide (ue_now en) (countRolloutOffersInWindow (ue_now en) w) d ;; uret (Some b)
  end.

Definition releaseRolloutSlot (d : Z) : U unit := fun w => (tt, set_slots (delete d) (uw_windowFullAt w) w).

(** A failed reservation is caught by [resolveAdvertisedVersion]: nothing is advertised. *)
Definition withRolloutSlot (en : UEnv) (d : Z) (served : string) : U (option string) :=
  r <- reserveRolloutSlot en d ;; uret (match r with Some true => Some served | _ => None end).

(** ** Offers *)

Definition is_fresh (p : AgentUpdatePhase) : bool := bool_decide (p = Cancelled) || bool_decide (p = Succeeded).

Definition resolveAdvertisedVersion (en : UEnv) (v : AgentView) (reported : string) : U (option string) :=
  let now := ue_now en in
  let requestLive := isUpdateRequestLive (av_requestedAt v) (av_requestedVersion v) (ue_served en) now in
  match ue_served en with
  | None => uret None
  | Some served =>
      if negb (shouldAdvertiseUpdate (Some served) reported (rp_policy (av_policy v)) requestLive (av_deviceType v) (av_status v)) then uret None
      else if negb (buildMatchesServed (ue_manifest en) served (av_osInfo v)) then uret None
      else if negb (ue_db en) then uret None
      else w <- uget ;;
      match uw_attempts w !! (av_id v, served) with
      | None => withRolloutSlot en (av_id v) served
      | Some a =>
          if match ua_last_offered_at a with Some t => now - t <? UPDATE_OFFER_MIN_INTERVAL_MS | None => false end then uret None
          else if in_progress (ua_phase a) && (now - ua_updated_at a <? UPDATE_ATTEMPT_TIMEOUT_MS) then uret None
          else if is_fresh (ua_phase a) || (ua_offered_count a <? UPDATE_REQUEST_MAX_OFFERS) then withRolloutSlot en (av_id v) served
          else
            let p := fun (k : AttemptKey) b => bool_decide (k = (av_id v, served))
                       && negb (bool_decide (ua_phase b ∈ [Failed; Succeeded; Cancelled])) in
            update_attempts p (close_attempt Failed (Some "no_progress") now) >>
            match av_requestedAt v with
            | Some at_ => clearUpdateRequestIfUnchanged (av_id v) at_ >> uret tt
            | None => uret tt
            end >>
            uwhen (bool_decide (matching_attempts w p <> []))
              (emitAttemptPatch (av_id v) (Some (av_tenantId v)) >>
               raiseUpdateFailedIncident (av_id v) served "no progress after 3 offers") >>
            uret None
      end
  end.

(** The upsert of an offer: [None] when its WHERE refuses it. *)
Definition offered_attempt (now id : Z) (old : option Attempt) : option Attempt :=
  match old with
  | None => Some {| ua_id := id; ua_offered_count := 1; ua_last_offered_at := Some now; ua_phase := Offered;
                    ua_last_error := None; ua_updated_at := now; ua_finished_at := None |}
  | Some a =>
      if (match ua_last_offered_at a with None => true | Some t => t <? now - UPDATE_OFFER_MIN_INTERVAL_MS end)
         && (is_fresh (ua_phase a) || (ua_offered_count a <? UPDATE_REQUEST_MAX_OFFERS))
      then Some {| ua_id := ua_id a; ua_offered_count := if is_fresh (ua_phase a) then 1 else ua_offered_count a + 1;
                   ua_last_offered_at := Some now; ua_phase := Offered; ua_last_error := None;
                   ua_updated_at := now; ua_finished_at := None |}
      else None
  end.

(** The device must exist (foreign key): otherwise the statement fails. The sequence of the
    ids advances whenever the INSERT is tried. *)
Definition store_offer (now : Z) (db : bool) (d : Z) (version : string) : U bool :=
  w <- uget ;;
  if negb db || negb (bool_decide (is_Some (uw_devices w !! d))) then uret false
  else match offered_attempt now (uw_next_attempt w) (uw_attempts w !! (d, version)) with
       | Some a => umod (fun w => set_next_attempt (uw_next_attempt w + 1) (set_attempts (insert (d, version) a) w)) >>
                   emitAttemptPatch d None >> uret true
       | None => umod (fun w => set_next_attempt (uw_next_attempt w + 1) w) >> uret false
       end.
Definition recordUpdateOffer (en : UEnv) (d : Z) (version : string) : U bool :=
  counted <- store_offer (ue_now en) (ue_db en) d version ;;
  releaseRolloutSlot d >> uret counted.

(** ** A heartbeat

    The part of [handlePush] on a registered device: its metadata, the reconciliations, the
    gates of its status, the version to advertise. An HTTP push counts the offer before it
    answers; a channel frame is counted by the hub once written. *)

Definition heartbeat (en : UEnv) (d : Z) (version : string) (osInfo : js) (connectedAt : option Z) : U (option string) :=
  update_devices (fun d' _ => d' =? d) (set_reported version osInfo) >>
  w <- uget ;;
  match uw_devices w !! d with
  | None => uret None
  | Some row =>
      views <- hydrate en [(d, row)] ;;
      match views with
      | [] => uret None
      | v :: _ =>
          v <- reconcileUpdateRequest en v version ;;
          uwhen (String.eqb (av_status v) "approved" && String.eqb (av_deviceType v) "agent")
            (reconcileUpdateAttempts en v version connectedAt) >>
          if String.eqb (av_status v) "pending" || String.eqb (av_status v) "refused" || String.eqb (av_status v) "suspended"
          then uret None
          else resolveAdvertisedVersion en v (if is_empty version then default "" (av_agentVersion v) else version)
      end
  end.

Definition http_push (en : UEnv) (d : Z) (version : string) (osInfo : js) : U (option string) :=
  advertised <- heartbeat en d version osInfo None ;;
  match advertised with
  | None => uret None
  | Some v => counted <- recordUpdateOffer en d v ;; uret (if counted then Some v else None)
  end.

(** ** Reports of the agent *)

Definition applyUpdateStatus (en : UEnv) (d tenantId : Z) (st : ParsedUpdateStatus) : U bool :=
  w <- uget ;;
  if negb (ue_db en) then uret false
  else match uw_devices w !! d with
  | None => uret false
  | Some row =>
      if negb ((ar_tenant_id row =? tenantId) && String.eqb (ar_status row) "approved") then uret false
      else
        let now := ue_now en in
        let failed := bool_decide (us_phase st = Failed) in
        let err := if failed then Some (default "failed" (us_error st)) else None in
        let key := (d, us_targetVersion st) in
        let old := uw_attempts w !! key in
        let base := default {| ua_id := uw_next_attempt w; ua_offered_count := 0; ua_last_offered_at := None; ua_phase := us_phase st;
                               ua_last_error := err; ua_updated_at := now; ua_finished_at := None |} old in
        umod (fun w => set_next_attempt (uw_next_attempt w + 1) w) >>
        if match old with Some a => bool_decide (ua_phase a = Succeeded) | None => false end then uret false
        else
          umod (set_attempts (insert key (report_attempt (us_phase st) err now base))) >>
          uwhen failed
            (update_devices (fun d' r => (d' =? d) && bool_decide (is_Some (ar_updating_since r))) (set_updating None) >>
             raiseUpdateFailedIncident d (us_targetVersion st) (default "reported by the agent" (us_error st))) >>
          emitAttemptPatch d (Some tenantId) >> uret true
  end.

(** The latest open attempt (ORDER BY updated_at DESC). *)
Definition latest_open (w : UWorld) (d : Z) : option (string * Attempt) :=
  match List.filter (fun '(_, a) => bool_decide (ua_phase a ∈ [Offered; Downloading; Verifying])) (device_attempts w d) with
  | [] => None
  | a :: r => Some (fold_left (fun a b => if ua_updated_at (snd a) <? ua_updated_at (snd b) then b else a) r a)
  end.

Definition setDeviceUpdating (en : UEnv) (d tenantId : Z) : U unit :=
  let now := ue_now en in
  update_devices (fun d' _ => d' =? d) (set_updating (Some now)) >>
  w <- uget ;;
  (if negb (ue_db en) then uret tt
   else match latest_open w d with
   | Some (v, _) =>
       update_attempts (fun k _ => bool_decide (k = (d, v))) (report_attempt Installing None now) >>
       emitAttemptPatch d (Some tenantId)
   | None =>
       match ue_served en with
       | Some s =>
           if isStrictlyNewerAgentVersion (Some s) (Some (default "" (uw_devices w !! d ≫= ar_agent_version)))
           then applyUpdateStatus en d tenantId {| us_targetVersion := s; us_phase := Installing; us_error := None |} >> uret tt
           else uret tt
       | None => uret tt
       end
   end) >>
  uemit [UE_updating tenantId d].

(** ** The cleanup job *)

Definition cleanupStuckUpdating (en : UEnv) : U unit :=
  let now := ue_now en in
  let cutoff := now - UPDATE_ATTEMPT_TIMEOUT_MS in
  w <- uget ;;
  let stuck := matching_devices w (fun _ r => match ar_updating_since r with Some t => t <? cutoff | None => false end) in
  let p := fun (k : AttemptKey) a => in_progress (ua_phase a) && ((ua_updated_at a <? cutoff) || mem (fst k) stuck) in
  let timedOut := map fst (matching_attempts w p) in
  update_attempts p (close_attempt Failed (Some "timeout") now) >>
  let ids := uniq (stuck ++ map fst timedOut) in
  if bool_decide (ids = []) then uret tt
  else
    update_devices (fun d r => mem d ids && bool_decide (is_Some (ar_updating_since r))) (set_updating None) >>
    ufor timedOut (fun k => raiseUpdateFailedIncident (fst k) (snd k) "timeout") >>
    ufor ids (fun d => emitAttemptPatch d None).

(** ** Requests of administrators *)

Record UpdateRequestResult := {
  ur_requested : Z; ur_targetVersion : option string;
  ur_off : Z; ur_current : Z; ur_notUpdatable : Z; ur_notFound : Z
}.

Inductive RequestClass := R_notUpdatable | R_off | R_current | R_eligible.
#[export] Instance RequestClass_eq : EqDecision RequestClass.
Proof. solve_decision. Defined.

Definition has_version (v : AgentView) : bool := match av_agentVersion v with Some s => negb (is_empty s) | None => false end.

Definition request_class (served : string) (v : AgentView) : RequestClass :=
  if negb (String.eqb (av_deviceType v) "agent") || negb (String.eqb (av_status v) "approved") || negb (has_version v)
     || bool_decide (rp_source (av_policy v) = Src_unresolved) then R_notUpdatable
  else if bool_decide (rp_policy (av_policy v) = Policy_off) then R_off
  else if negb (isStrictlyNewerAgentVersion (Some served) (av_agentVersion v)) then R_current
  else R_eligible.

Definition of_class (served : string) (c : RequestClass) (l : list AgentView) : list AgentView :=
  List.filter (fun v => bool_decide (request_class served v = c)) l.
Definition count {A} (l : list A) : Z := Z.of_nat (length l).

Definition requestUpdate (en : UEnv) (ids : list Z) (tenantId : Z) (userId : option Z) : U UpdateRequestResult :=
  let uniqueIds := uniq ids in
  match ue_served en with
  | None => uret {| ur_requested := 0; ur_targetVersion := None; ur_off := 0; ur_current := 0;
                    ur_notUpdatable := count uniqueIds; ur_notFound := 0 |}
  | Some served =>
      devices <- getDevicesByIdsInTenant en uniqueIds tenantId ;;
      let eligible := map av_id (of_class served R_eligible devices) in
      uwhen (bool_decide (eligible <> []))
        (update_devices (fun d r => mem d eligible && (ar_tenant_id r =? tenantId)) (make_request (ue_now en) served userId) >>
         update_attempts (fun k a => mem (fst k) eligible && String.eqb (snd k) served && negb (bool_decide (ua_phase a = Succeeded)))
           (reopen_attempt (ue_now en))) >>
      uret {| ur_requested := count eligible; ur_targetVersion := Some served;
              ur_off := count (of_class served R_off devices); ur_current := count (of_class served R_current devices);
              ur_notUpdatable := count (of_class served R_notUpdatable devices); ur_notFound := count uniqueIds - count devices |}
  end.

Definition cancelUpdateRequest (en : UEnv) (d tenantId : Z) : U bool :=
  let p := fun d' r => (d' =? d) && (ar_tenant_id r =? tenantId) && has_request r in
  w <- uget ;;
  update_devices p clear_request >>
  let found := bool_decide (matching_devices w p <> []) in
  uwhen found (cancelOpenAttempts en [d]) >> uret found.

Definition cancelUpdateRequests (en : UEnv) (ids : list Z) (tenantId : Z) (emit : bool) : U Z :=
  if bool_decide (ids = []) then uret 0
  else
    let p := fun d r => mem d ids && (ar_tenant_id r =? tenantId) && has_request r in
    w <- uget ;;
    let cleared := matching_devices w p in
    update_devices p clear_request >>
    cancelOpenAttempts en cleared >>
    uwhen emit (uemit (map (UE_requestCleared tenantId) cleared)) >>
    uret (count cleared).

(** The group and its sub-groups. *)
Definition subtree (w : UWorld) (groupId : Z) : list Z :=
  omap (fun '(anc, desc, _) => if anc =? groupId then Some desc else None) (uw_closure w).
Definition in_subtree (w : UWorld) (groupId : Z) (r : AgentRow) : bool :=
  match ar_group_id r with Some g => mem g (subtree w groupId) | None => false end.

Definition requestGroupUpdate (en : UEnv) (groupId tenantId : Z) (userId : option Z) (writable : Ids) : U (option UpdateRequestResult) :=
  w <- uget ;;
  match uw_groups w !! groupId with
  | Some g =>
      if negb (gr_tenant_id g =? tenantId) then uret None
      else
        let ids := matching_devices w (fun d r => in_subtree w groupId r && (ar_tenant_id r =? tenantId)
                     && String.eqb (ar_status r) "approved" && String.eqb (ar_device_type r) "agent"
                     && match writable with Ids_all => true | Ids_list l => mem d l end) in
        r <- requestUpdate en ids tenantId userId ;; uret (Some r)
  | None => uret None
  end.

Definition retryUpdate (en : UEnv) (d tenantId : Z) (userId : option Z) : U UpdateRequestResult :=
  r <- requestUpdate en [d] tenantId userId ;;
  uwhen (ur_requested r =? 1) (emitAttemptPatch d (Some tenantId)) >> uret r.

(** ** Policies and devices *)

Definition policy_text (p : AgentUpdatePolicy) : string :=
  match p with Policy_auto => "auto" | Policy_manual => "manual" | Policy_off => "off" end.

Definition getTenantUpdatePolicy (tenantId : Z) (w : UWorld) : option AgentUpdatePolicy :=
  match uw_tenants w !! tenantId with Some (Some p) => readPolicy p | _ => None end.

(** [None]: no such tenant; otherwise the previous policy. *)
Definition setTenantUpdatePolicy (en : UEnv) (tenantId : Z) (policy : option AgentUpdatePolicy) : U (option (option AgentUpdatePolicy)) :=
  w <- uget ;;
  let before := getTenantUpdatePolicy tenantId w in
  match uw_tenants w !! tenantId with
  | None => uret None
  | Some _ =>
      umod (set_tenants (insert tenantId (option_map policy_text policy))) >>
      invalidateAgentUpdatePolicyCache >>
      uwhen (is_off policy)
        (let cleared := matching_devices w (fun _ r => (ar_tenant_id r =? tenantId) && has_request r) in
         let all := matching_devices w (fun _ r => ar_tenant_id r =? tenantId) in
         update_devices (fun _ r => (ar_tenant_id r =? tenantId) && has_request r) clear_request >>
         cancelOpenAttempts en all >>
         uemit (map (UE_requestCleared tenantId) cleared)) >>
      uret (Some before)
  end.

Definition cancelOpenAttemptsForGroup (en : UEnv) (groupId : Z) : U unit :=
  w <- uget ;; cancelOpenAttempts en (matching_devices w (fun _ r => in_subtree w groupId r)).

Definition cancelAllOpenAttempts (en : UEnv) : U unit :=
  w <- uget ;;
  cancelOpenAttempts en (uniq (map (fun ka => fst (fst ka)) (matching_attempts w (fun _ a => is_open (ua_phase a))))).

Definition suspendDevice (en : UEnv) (d : Z) : U unit :=
  update_devices (fun d' _ => d' =? d) (fun r => clear_request (set_status "suspended" r)) >> cancelOpenAttempts en [d].

Definition reinstateDevice (d : Z) : U unit := update_devices (fun d' _ => d' =? d) (set_status "approved").

(** Deletion cascades to the attempts. *)
Definition deleteDevice (d tenantId : Z) : U bool :=
  w <- uget ;;
  match uw_devices w !! d with
  | Some r => if ar_tenant_id r =? tenantId
              then umod (fun w => set_attempts (filter (fun ka => fst (fst ka) <> d)) (set_devices (delete d) w)) >> uret true
              else uret false
  | None => uret false
  end.
