(* ===== verification/UpdateRollout.v ===== *)
(** * Fleet rollout ([server/src/services/agentUpdateRollout.service.ts])

    "Update all outdated", its preview and "cancel all": which agents an update reaches and
    the figures announced. The lists of names and the sorting of the preview are left out. *)

From stdpp Require Import sorting.
From S2P Require Import Prelude JsString JsValue Tenancy Access AgentUpdate UpdateStore UpdateOps.

Open Scope upd_scope.

Record RolloutScope := { rs_tenantId : Z; rs_writableIds : Ids }.

Inductive Klass := K_unknown | K_current | K_frozen | K_noBuild | K_failed | K_eligible.
#[export] Instance Klass_eq : EqDecision Klass.
Proof. solve_decision. Defined.

Definition targets_served (v : AgentView) (served : string) : option Attempt :=
  match av_update v with Some (t, a) => if String.eqb t served then Some a else None | None => None end.

Definition classify (v : AgentView) (served : option string) (manifest : option AgentManifest) : Klass :=
  if negb (has_version v) then K_unknown
  else match served with
  | None => K_current
  | Some s =>
      if negb (isStrictlyNewerAgentVersion served (av_agentVersion v)) then K_current
      else if bool_decide (rp_policy (av_policy v) = Policy_off) || bool_decide (rp_source (av_policy v) = Src_unresolved) then K_frozen
      else if negb (buildMatchesServed manifest s (av_osInfo v)) then K_noBuild
      else match targets_served v s with
           | Some a => if bool_decide (ua_phase a = Failed) then K_failed else K_eligible
           | None => K_eligible
           end
  end.

Definition isInFlight (v : AgentView) (served : option string) : bool :=
  match served with
  | Some s => negb (is_empty s) && match targets_served v s with Some a => in_progress (ua_phase a) | None => false end
  | None => false
  end.

Definition frozenLevelOf (v : AgentView) : PolicySource :=
  match rp_source (av_policy v) with Src_default => Src_unresolved | s => s end.

Definition scopeAgents (en : UEnv) (scope : RolloutScope) : U (list AgentView) :=
  l <- listApproved en (rs_tenantId scope) (rs_writableIds scope) ;;
  uret (List.filter (fun v => String.eqb (av_deviceType v) "agent") l).

(** ** Preview *)

Record Progress := { pg_waiting : Z; pg_offered : Z; pg_inProgress : Z; pg_succeeded : Z; pg_failed : Z }.
Record Preview := {
  pv_outdated : Z; pv_targets : Z; pv_toRequest : Z; pv_alreadyRequested : Z; pv_inFlight : Z; pv_auto : Z; pv_online : Z;
  pv_noBuild : Z; pv_failed : Z; pv_unknownVersion : Z; pv_pending : Z;
  pv_byLevel : list PolicySource;                 (** level of each frozen agent *)
  pv_byTenant : gmap Z (Z * Z);                   (** targets, frozen *)
  pv_byGroup : gmap (Z * option Z) Z;
  pv_byPlatform : gmap string Z;
  pv_progress : Progress
}.

Definition empty_preview : Preview :=
  {| pv_outdated := 0; pv_targets := 0; pv_toRequest := 0; pv_alreadyRequested := 0; pv_inFlight := 0; pv_auto := 0; pv_online := 0;
     pv_noBuild := 0; pv_failed := 0; pv_unknownVersion := 0; pv_pending := 0; pv_byLevel := []; pv_byTenant := ∅; pv_byGroup := ∅;
     pv_byPlatform := ∅; pv_progress := {| pg_waiting := 0; pg_offered := 0; pg_inProgress := 0; pg_succeeded := 0; pg_failed := 0 |} |}.

(** [if (c) n++] *)
Definition incr (c : bool) (n : Z) : Z := if c then n + 1 else n.
Definition bump {K} `{Countable K} (k : K) (m : gmap K Z) : gmap K Z := <[k := default 0 (m !! k) + 1]> m.

Definition progress_step (v : AgentView) (served : option string) (p : Progress) : Progress :=
  let waiting := {| pg_waiting := incr (av_updatePending v) (pg_waiting p); pg_offered := pg_offered p; pg_inProgress := pg_inProgress p;
                    pg_succeeded := pg_succeeded p; pg_failed := pg_failed p |} in
  match (match served with Some s => if is_empty s then None else targets_served v s | None => None end) with
  | None => waiting
  | Some a =>
      match ua_phase a with
      | Succeeded => {| pg_waiting := pg_waiting p; pg_offered := pg_offered p; pg_inProgress := pg_inProgress p;
                        pg_succeeded := pg_succeeded p + 1; pg_failed := pg_failed p |}
      | Failed => {| pg_waiting := pg_waiting p; pg_offered := pg_offered p; pg_inProgress := pg_inProgress p;
                     pg_succeeded := pg_succeeded p; pg_failed := pg_failed p + 1 |}
      | Offered => {| pg_waiting := pg_waiting p; pg_offered := pg_offered p + 1; pg_inProgress := pg_inProgress p;
                      pg_succeeded := pg_succeeded p; pg_failed := pg_failed p |}
      | Cancelled => waiting
      | _ => {| pg_waiting := pg_waiting p; pg_offered := pg_offered p; pg_inProgress := pg_inProgress p + 1;
                pg_succeeded := pg_succeeded p; pg_failed := pg_failed p |}
      end
  end.

(** One iteration of the loop over the agents of the scope. *)
Definition preview_step (served : option string) (manifest : option AgentManifest) (online : Z -> bool) (p : Preview) (v : AgentView) : Preview :=
  let k := classify v served manifest in
  let outdated := negb (bool_decide (k = K_unknown) || bool_decide (k = K_current)) in
  let frozen := bool_decide (k = K_frozen) in
  let target := bool_decide (k = K_eligible) in
  let flying := isInFlight v served in
  let '(tn, fr) := default (0, 0) (pv_byTenant p !! av_tenantId v) in
  {| pv_outdated := incr outdated (pv_outdated p);
     pv_targets := incr target (pv_targets p);
     pv_toRequest := incr (target && negb flying && negb (av_updatePending v)) (pv_toRequest p);
     pv_alreadyRequested := incr (target && negb flying && av_updatePending v) (pv_alreadyRequested p);
     pv_inFlight := incr (target && flying) (pv_inFlight p);
     pv_auto := incr (target && bool_decide (rp_policy (av_policy v) = Policy_auto)) (pv_auto p);
     pv_online := incr (target && online (av_id v)) (pv_online p);
     pv_noBuild := incr (bool_decide (k = K_noBuild)) (pv_noBuild p);
     pv_failed := incr (bool_decide (k = K_failed)) (pv_failed p);
     pv_unknownVersion := incr (bool_decide (k = K_unknown)) (pv_unknownVersion p);
     pv_pending := incr (bool_decide (is_Some (av_requestedAt v))) (pv_pending p);
     pv_byLevel := if frozen then pv_byLevel p ++ [frozenLevelOf v] else pv_byLevel p;
     pv_byTenant := if outdated then <[av_tenantId v := (incr target tn, incr frozen fr)]> (pv_byTenant p) else pv_byTenant p;
     pv_byGroup := if target then bump (av_tenantId v, av_groupId v) (pv_byGroup p) else pv_byGroup p;
     pv_byPlatform := if target then bump (rolloutPlatformOf (av_osInfo v)) (pv_byPlatform p) else pv_byPlatform p;
     pv_progress := progress_step v served (pv_progress p) |}.

Definition preview_of (en : UEnv) (online : Z -> bool) (l : list AgentView) : Preview :=
  fold_left (preview_step (ue_served en) (ue_manifest en) online) l empty_preview.

Definition preview (en : UEnv) (online : Z -> bool) (scope : RolloutScope) : U Preview :=
  l <- scopeAgents en scope ;; uret (preview_of en online l).

(** ** Update all, cancel all *)

(** The devices of each tenant, tenants in ascending order. *)
Definition per_tenant (l : list (Z * Z)) : list (Z * list Z) :=
  map (fun t => (t, omap (fun '(t', d) => if t' =? t then Some d else None) l)) (merge_sort Z.le (uniq (map fst l))).

Definition to_request (en : UEnv) (v : AgentView) : bool :=
  bool_decide (classify v (ue_served en) (ue_manifest en) = K_eligible) && negb (av_updatePending v || isInFlight v (ue_served en)).

Record UpdateAllResult := {
  al_requested : Z; al_off : Z; al_current : Z; al_notUpdatable : Z; al_notFound : Z; al_byTenant : list (Z * Z)
}.
Definition add_result (t : Z) (r : UpdateRequestResult) (acc : UpdateAllResult) : UpdateAllResult :=
  {| al_requested := al_requested acc + ur_requested r; al_off := al_off acc + ur_off r; al_current := al_current acc + ur_current r;
     al_notUpdatable := al_notUpdatable acc + ur_notUpdatable r; al_notFound := al_notFound acc + ur_notFound r;
     al_byTenant := al_byTenant acc ++ [(t, ur_requested r)] |}.

Fixpoint request_all (en : UEnv) (userId : option Z) (l : list (Z * list Z)) (acc : UpdateAllResult) : U UpdateAllResult :=
  match l with
  | [] => uret acc
  | (t, ids) :: r => res <- requestUpdate en ids t userId ;; request_all en userId r (add_result t res acc)
  end.

Definition updateAll (en : UEnv) (online : Z -> bool) (scope : RolloutScope) (userId : option Z) : U (UpdateAllResult * Preview) :=
  devices <- scopeAgents en scope ;;
  let wanted := List.filter (to_request en) devices in
  res <- request_all en userId (per_tenant (map (fun v => (av_tenantId v, av_id v)) wanted))
           {| al_requested := 0; al_off := 0; al_current := 0; al_notUpdatable := 0; al_notFound := 0; al_byTenant := [] |} ;;
  p <- preview en online scope ;; uret (res, p).

Definition BULK_EMIT_MAX : Z := 100.

Fixpoint cancel_each (en : UEnv) (l : list (Z * list Z)) (acc : Z * list (Z * Z)) : U (Z * list (Z * Z)) :=
  match l with
  | [] => uret acc
  | (t, ids) :: r =>
      n <- cancelUpdateRequests en ids t (count ids <=? BULK_EMIT_MAX) ;;
      cancel_each en r (fst acc + n, if 0 <? n then snd acc ++ [(t, n)] else snd acc)
  end.

(** The count, the counts by tenant, and the agents an automatic policy goes on updating. *)
Definition cancelAll (en : UEnv) (scope : RolloutScope) : U (Z * list (Z * Z) * Z) :=
  w <- uget ;;
  match rs_writableIds scope with
  | Ids_list [] => uret (0, [], 0)
  | _ =>
      let rows := List.filter (fun '(d, r) => has_request r
                    && (isMasterTenant (Some (rs_tenantId scope)) || (ar_tenant_id r =? rs_tenantId scope))
                    && match rs_writableIds scope with Ids_all => true | Ids_list l => mem d l end) (map_to_list (uw_devices w)) in
      res <- cancel_each en (per_tenant (map (fun '(d, r) => (ar_tenant_id r, d)) rows)) (0, []) ;;
      l <- scopeAgents en scope ;;
      uret (res, count (List.filter (fun v => bool_decide (rp_policy (av_policy v) = Policy_auto)
                          && bool_decide (classify v (ue_served en) (ue_manifest en) = K_eligible)) l))
  end.
