(* ===== verification/UpdateSteps.v ===== *)
(** * The statements of the agent update control

    Every operation of [UpdateOps] and [UpdateRollout] is a sequence of a few kinds of
    statements, each with the author it needs: the agent itself, a job of the server, an
    administrator. The invariants of the other files are proved on the statements. *)

From S2P Require Import Prelude JsString JsValue JsNumber Tenancy Access AgentUpdate UpdateStore UpdateOps UpdateRollout.

(** [By_policy t]: an administrator sets the policy of tenant [t]. *)
Inductive Author := By_admin | By_policy (tenantId : Z) | By_job | By_agent (d : Z) (reported : string).
Definition is_admin (au : Author) : bool := match au with By_admin | By_policy _ => true | _ => false end.

Definition upd (p : AttemptKey -> Attempt -> bool) (f : Attempt -> Attempt) (w : UWorld) : UWorld :=
  set_attempts (map_imap (fun k a => Some (if p k a then f a else a))) w.

(** What a version text may be: one the server serves or an agent reports in a frame. *)
Definition version_ok (v : string) : Prop := (String.length v <= MAX_AGENT_VERSION_LEN)%nat.

Inductive stmt (en : UEnv) (au : Author) : relation UWorld :=
| st_rest w w' :
    uw_attempts w' = uw_attempts w -> uw_reservations w' = uw_reservations w -> uw_windowFullAt w' = uw_windowFullAt w ->
    dom (uw_devices w') = dom (uw_devices w) -> uw_next_device w' = uw_next_device w -> uw_tenants w' = uw_tenants w ->
    (forall d r', uw_devices w' !! d = Some r' -> exists r, uw_devices w !! d = Some r /\ ar_tenant_id r = ar_tenant_id r') ->
    uw_chains w' = uw_chains w -> uw_tenantPolicies w' = uw_tenantPolicies w -> stmt en au w w'
| st_chains w : stmt en au w (snd (getGroupUpdatePolicyChains en w))
| st_tenantPolicies w : stmt en au w (snd (getTenantUpdatePolicies en w))
| st_fail p reason w : error_ok (Some reason) -> stmt en au w (upd p (close_attempt Failed (Some reason) (ue_now en)) w)
| st_succeed p d reported w :
    au = By_agent d reported -> is_empty reported = false ->
    (forall k a, p k a = true -> fst k = d /\ isStrictlyNewerAgentVersion (Some (snd k)) (Some reported) = false) ->
    stmt en au w (upd p (close_attempt Succeeded None (ue_now en)) w)
| st_cancel p w :
    is_admin au = true -> (forall k a, p k a = true -> is_open (ua_phase a) = true) -> stmt en au w (upd p (cancel_attempt (ue_now en)) w)
| st_reopen p w : is_admin au = true -> stmt en au w (upd p (reopen_attempt (ue_now en)) w)
| st_installing p w : is_admin au = false -> stmt en au w (upd p (report_attempt Installing None (ue_now en)) w)
| st_report d v ph err base w :
    is_admin au = false -> is_Some (uw_devices w !! d) -> version_ok v -> ph ∈ AGENT_REPORTED_UPDATE_PHASES -> error_ok err ->
    (ph <> Failed -> err = None) ->
    match uw_attempts w !! (d, v) with
    | Some a => base = a /\ ua_phase a <> Succeeded
    | None => ua_offered_count base = 0 /\ ua_last_offered_at base = None
    end ->
    stmt en au w (set_attempts (insert (d, v) (report_attempt ph err (ue_now en) base)) w)
| st_slot d w : stmt en au w (snd (reserveRolloutSlot en d w))
| st_delete d w :
    is_admin au = true -> stmt en au w (set_attempts (filter (fun ka => fst (fst ka) <> d)) (set_devices (delete d) w))
| st_tenant t p w :
    au = By_policy t -> stmt en au w (set_caches None None (set_tenants (insert t p) w)).

(** ** Operations keep a preorder of worlds *)

Section Keeps.
Context (R : relation UWorld).

Definition keeps {A} (m : U A) : Prop := forall w, rtc R w (snd (m w)).

Lemma keeps_ret {A} (a : A) : keeps (uret a).
Proof. intros w. constructor. Qed.
Lemma keeps_get : keeps uget.
Proof. intros w. constructor. Qed.
Lemma keeps_bind {A B} (m : U A) (k : A -> U B) : keeps m -> (forall a, keeps (k a)) -> keeps (ubind m k).
Proof. intros Hm Hk w. unfold ubind. specialize (Hm w). destruct (m w) as [a w']. etransitivity; [apply Hm|apply Hk]. Qed.
(** The same when every result of the first operation satisfies [P]. *)
Lemma keeps_bind_val {A B} (P : A -> Prop) (m : U A) (k : A -> U B) :
  keeps m -> (forall w, P (fst (m w))) -> (forall a, P a -> keeps (k a)) -> keeps (ubind m k).
Proof.
  intros Hm HP Hk w. unfold ubind. specialize (Hm w). specialize (HP w). destruct (m w) as [a w'].
  etransitivity; [apply Hm|by apply Hk].
Qed.
Lemma keeps_mod f : (forall w, R w (f w)) -> keeps (umod f).
Proof. intros H w. apply rtc_once, H. Qed.
(** Two writes in a row. *)
Lemma keeps_mod2 {A} f g (m : U A) :
  (forall w, R w (g (f w))) -> keeps m -> keeps (ubind (umod f) (fun _ => ubind (umod g) (fun _ => m))).
Proof. intros H Hm w. eapply rtc_l; [apply H|apply Hm]. Qed.
Lemma keeps_when c m : (c = true -> keeps m) -> keeps (uwhen c m).
Proof. intros H. destruct c; [by apply H|apply keeps_ret]. Qed.
Lemma keeps_for {A} (l : list A) f : (forall x, keeps (f x)) -> keeps (ufor l f).
Proof. intros H. induction l as [|x l IH]; [apply keeps_ret|]. cbn [ufor]. apply keeps_bind; [apply H|intros _; apply IH]. Qed.

End Keeps.

Create HintDb upd.
#[export] Hint Resolve keeps_ret keeps_get : upd.

(** Follows the structure of an operation down to its statements. *)
Ltac ukeep :=
  repeat first
    [ solve [auto with upd]
    | lazymatch goal with
      | |- keeps _ (uret _) => apply keeps_ret
      | |- keeps _ (ubind _ _) => apply keeps_bind; [|intros ?]
      | |- keeps _ (uwhen _ _) => apply keeps_when; intros ?
      | |- keeps _ (ufor _ _) => apply keeps_for; intros ?
      | |- keeps _ (if ?c then _ else _) => destruct c eqn:?
      | |- keeps _ (match ?x with _ => _ end) => destruct x eqn:?
      | |- keeps _ (let _ := _ in _) => cbv zeta
      end ].

(** ** Elementary statements *)

Section Elementary.
Context (en : UEnv) (au : Author).
Abbreviation S := (stmt en au).

Lemma keeps_rest f :
  (forall w, uw_attempts (f w) = uw_attempts w /\ uw_reservations (f w) = uw_reservations w /\ uw_windowFullAt (f w) = uw_windowFullAt w
     /\ uw_devices (f w) = uw_devices w /\ uw_next_device (f w) = uw_next_device w /\ uw_tenants (f w) = uw_tenants w
     /\ uw_chains (f w) = uw_chains w /\ uw_tenantPolicies (f w) = uw_tenantPolicies w) -> keeps S (umod f).
Proof.
  intros H. apply keeps_mod. intros w. destruct (H w) as (H1 & H2 & H3 & H4 & H5 & H6 & H7 & H8).
  apply st_rest; try done; [by rewrite H4|]. intros d r. rewrite H4. eauto.
Qed.

Lemma keeps_emit es : keeps S (uemit es).
Proof. by apply keeps_rest. Qed.

Lemma keeps_sequence : keeps S (umod (fun w => set_next_attempt (uw_next_attempt w + 1) w)).
Proof. by apply keeps_rest. Qed.

(** An UPDATE of [agent_devices] that leaves the tenants alone. *)
Lemma keeps_devices p f : (forall r, ar_tenant_id (f r) = ar_tenant_id r) -> keeps S (update_devices p f).
Proof.
  intros Hf. apply keeps_mod. intros w. apply st_rest; try done.
  - cbn. apply set_eq. intros d. rewrite !elem_of_dom, map_lookup_imap. by destruct (uw_devices w !! d).
  - intros d r'. cbn. rewrite map_lookup_imap. destruct (uw_devices w !! d) as [r|]; [|done]. cbn. intros [= <-].
    exists r. split; [done|]. by destruct (p d r).
Qed.

Lemma keeps_clear_request p : keeps S (update_devices p clear_request).
Proof. by apply keeps_devices. Qed.
Lemma keeps_updating p o : keeps S (update_devices p (set_updating o)).
Proof. by apply keeps_devices. Qed.

Lemma keeps_chains : keeps S (getGroupUpdatePolicyChains en).
Proof. intros w. apply rtc_once, st_chains. Qed.
Lemma keeps_tenantPolicies : keeps S (getTenantUpdatePolicies en).
Proof. intros w. apply rtc_once, st_tenantPolicies. Qed.

Lemma keeps_fail p reason :
  negb (is_empty reason) && (String.length reason <=? MAX_UPDATE_ERROR_LEN)%nat = true ->
  keeps S (update_attempts p (close_attempt Failed (Some reason) (ue_now en))).
Proof. intros H. boolify. apply keeps_mod. intros w. by apply st_fail. Qed.

Lemma keeps_cancelOpen ids : is_admin au = true -> keeps S (cancelOpenAttempts en ids).
Proof.
  intros H. unfold cancelOpenAttempts. destruct (ue_db en); cbn [negb]; [|apply keeps_ret]. apply keeps_mod. intros w.
  apply st_cancel; [done|]. intros k a Hp. by boolify.
Qed.

End Elementary.
#[export] Hint Resolve keeps_emit keeps_sequence keeps_clear_request keeps_updating keeps_chains keeps_tenantPolicies : upd.

(** ** The operations *)

Section Operations.
Context (en : UEnv).

Lemma keeps_hydrate au rows : keeps (stmt en au) (hydrate en rows).
Proof. unfold hydrate. ukeep. Qed.
Hint Resolve keeps_hydrate : upd.

Lemma keeps_getDevices au ids t : keeps (stmt en au) (getDevicesByIdsInTenant en ids t).
Proof. unfold getDevicesByIdsInTenant. ukeep. Qed.
Lemma keeps_listApproved au t v : keeps (stmt en au) (listApproved en t v).
Proof. unfold listApproved. ukeep. Qed.
Lemma keeps_emitAttempt au d t : keeps (stmt en au) (emitAttemptPatch d t).
Proof. unfold emitAttemptPatch. ukeep. Qed.
Lemma keeps_incident au d v r : keeps (stmt en au) (raiseUpdateFailedIncident d v r).
Proof. unfold raiseUpdateFailedIncident. ukeep. Qed.
Lemma keeps_clearIfUnchanged au d t : keeps (stmt en au) (clearUpdateRequestIfUnchanged d t).
Proof. unfold clearUpdateRequestIfUnchanged. ukeep. Qed.
Hint Resolve keeps_getDevices keeps_listApproved keeps_emitAttempt keeps_incident keeps_clearIfUnchanged : upd.

Lemma keeps_reconcileRequest au v r : keeps (stmt en au) (reconcileUpdateRequest en v r).
Proof. unfold reconcileUpdateRequest. ukeep. Qed.

Lemma keeps_reconcile_attempt d reported c v a :
  is_empty reported = false -> keeps (stmt en (By_agent d reported)) (reconcile_attempt en d reported c v a).
Proof.
  intros Hr. unfold reconcile_attempt. ukeep.
  - apply keeps_mod. intros w. eapply st_succeed; [reflexivity|done|]. intros k b Hp. boolify. by subst k.
  - by apply keeps_fail.
Qed.

Lemma keeps_reconcileAttempts v reported c :
  keeps (stmt en (By_agent (av_id v) reported)) (reconcileUpdateAttempts en v reported c).
Proof.
  unfold reconcileUpdateAttempts. destruct (is_empty reported) eqn:Hr; cbn [orb]; [apply keeps_ret|]. ukeep.
  generalize (List.filter (fun '(_, a) => negb (bool_decide (ua_phase a = Succeeded))) (device_attempts a (av_id v))) as l.
  induction l as [|[t b] l IH]; cbn [reconcile_attempts]; ukeep. by apply keeps_reconcile_attempt.
Qed.

Lemma keeps_reserve au d : keeps (stmt en au) (reserveRolloutSlot en d).
Proof. intros w. apply rtc_once, st_slot. Qed.
Hint Resolve keeps_reserve : upd.
Lemma keeps_slot au d s : keeps (stmt en au) (withRolloutSlot en d s).
Proof. unfold withRolloutSlot. ukeep. Qed.
Hint Resolve keeps_reconcileRequest keeps_reconcileAttempts keeps_slot : upd.

Lemma keeps_resolveAdvertised au v r : keeps (stmt en au) (resolveAdvertisedVersion en v r).
Proof. unfold resolveAdvertisedVersion. ukeep. by apply keeps_fail. Qed.
Hint Resolve keeps_resolveAdvertised : upd.

Lemma keeps_applyStatus au d t st :
  is_admin au = false -> version_ok (us_targetVersion st) -> us_phase st ∈ AGENT_REPORTED_UPDATE_PHASES -> error_ok (us_error st) ->
  keeps (stmt en au) (applyUpdateStatus en d t st).
Proof.
  intros Hau Hv Hp He w. unfold applyUpdateStatus, ubind at 1, uget. destruct (negb (ue_db en)); [constructor|].
  destruct (uw_devices w !! d) as [row|] eqn:Ed; [|constructor]. destruct (negb _); [constructor|].
  set (w1 := set_next_attempt (uw_next_attempt w + 1) w).
  assert (H1 : stmt en au w w1) by (apply st_rest; try done; intros; eauto).
  unfold ubind at 1, umod at 1. fold w1. eapply rtc_l; [exact H1|].
  destruct (match uw_attempts w !! (d, us_targetVersion st) with Some a => _ | None => _ end) eqn:Es; [constructor|].
  set (err := if bool_decide (us_phase st = Failed) then Some (default "failed" (us_error st)) else None).
  set (base := default _ (uw_attempts w !! (d, us_targetVersion st))).
  unfold ubind at 1, umod at 1. cbn [fst snd]. eapply rtc_l.
  { apply (st_report en au d (us_targetVersion st) (us_phase st) err base w1); [done|cbn; eauto|done|done| | |].
    - subst err. destruct (bool_decide (us_phase st = Failed)); [|done]. destruct (us_error st); [done|]. split; [done|by apply Nat.leb_le].
    - subst err. intros Hne. by rewrite bool_decide_false.
    - subst base. cbn. destruct (uw_attempts w !! (d, us_targetVersion st)) as [a|]; [|done]. cbn. by boolify. }
  match goal with |- rtc _ _ (snd (?m _)) => enough (Hm : keeps (stmt en au) m) by apply Hm end. ukeep.
Qed.

Lemma keeps_setUpdating d r t :
  version_ok (default "" (ue_served en)) -> keeps (stmt en (By_agent d r)) (setDeviceUpdating en d t).
Proof.
  intros Hv. unfold setDeviceUpdating. ukeep.
  - apply keeps_mod. intros w. by apply st_installing.
  - apply keeps_applyStatus; [done|done|cbn; set_solver|done].
Qed.

Lemma keeps_cleanup : keeps (stmt en By_job) (cleanupStuckUpdating en).
Proof. unfold cleanupStuckUpdating. ukeep. by apply keeps_fail. Qed.

Lemma hydrate_val rows w :
  exists chains tenants w', fst (hydrate en rows w) = map (fun '(d, row) => deviceView en w' chains tenants d row) rows.
Proof.
  unfold hydrate, ubind, uget, uret. destruct (getGroupUpdatePolicyChains en w) as [c w1].
  destruct (getTenantUpdatePolicies en w1) as [t w2]. cbn [fst]. eauto.
Qed.

Lemma reconcileRequest_id v r w : av_id (fst (reconcileUpdateRequest en v r w)) = av_id v.
Proof.
  unfold reconcileUpdateRequest. destruct (av_requestedAt v) as [at_|]; [|done]. destruct (_ || _); [done|].
  unfold ubind, uret. destruct (clearUpdateRequestIfUnchanged (av_id v) at_ w) as [[] w']; done.
Qed.

Lemma keeps_heartbeat d r os c : keeps (stmt en (By_agent d r)) (heartbeat en d r os c).
Proof.
  unfold heartbeat. apply keeps_bind; [by apply keeps_devices|intros _]. apply keeps_bind; [apply keeps_get|intros w].
  destruct (uw_devices w !! d) as [row|]; [|apply keeps_ret].
  apply (keeps_bind_val _ (fun l => Forall (fun v => av_id v = d) l)); [apply keeps_hydrate| |].
  { intros w'. destruct (hydrate_val [(d, row)] w') as (cs & ts & w2 & ->). by repeat constructor. }
  intros [|v l] Hv; [apply keeps_ret|]. apply Forall_cons in Hv as [Hv _].
  apply (keeps_bind_val _ (fun v => av_id v = d)); [apply keeps_reconcileRequest|intros w'; by rewrite reconcileRequest_id|].
  intros v' Hv'. ukeep. rewrite <- Hv'. apply keeps_reconcileAttempts.
Qed.

(** ** Administrators *)

Lemma keeps_requestUpdate ids t u : keeps (stmt en By_admin) (requestUpdate en ids t u).
Proof.
  unfold requestUpdate. ukeep; [by apply keeps_devices|]. apply keeps_mod. intros w. by apply st_reopen.
Qed.
Hint Resolve keeps_requestUpdate : upd.

Lemma keeps_requestGroup g t u wr : keeps (stmt en By_admin) (requestGroupUpdate en g t u wr).
Proof. unfold requestGroupUpdate. ukeep. Qed.
Lemma keeps_retry d t u : keeps (stmt en By_admin) (retryUpdate en d t u).
Proof. unfold retryUpdate. ukeep. Qed.

Lemma keeps_cancel_admin ids : keeps (stmt en By_admin) (cancelOpenAttempts en ids).
Proof. by apply keeps_cancelOpen. Qed.
Lemma keeps_cancel_policy t ids : keeps (stmt en (By_policy t)) (cancelOpenAttempts en ids).
Proof. by apply keeps_cancelOpen. Qed.
Hint Resolve keeps_cancel_admin keeps_cancel_policy : upd.

Lemma keeps_cancelRequest d t : keeps (stmt en By_admin) (cancelUpdateRequest en d t).
Proof. unfold cancelUpdateRequest. ukeep. Qed.
Lemma keeps_cancelRequests ids t e : keeps (stmt en By_admin) (cancelUpdateRequests en ids t e).
Proof. unfold cancelUpdateRequests. ukeep. Qed.
Hint Resolve keeps_cancelRequests : upd.

Lemma keeps_setTenant t p : keeps (stmt en (By_policy t)) (setTenantUpdatePolicy en t p).
Proof.
  unfold setTenantUpdatePolicy. apply keeps_bind; [apply keeps_get|intros w]. destruct (uw_tenants w !! t); [|apply keeps_ret].
  apply keeps_mod2; [intros w'; by apply st_tenant|]. ukeep.
Qed.

Lemma keeps_cancelGroup g : keeps (stmt en By_admin) (cancelOpenAttemptsForGroup en g).
Proof. unfold cancelOpenAttemptsForGroup. ukeep. Qed.
Lemma keeps_cancelAllOpen : keeps (stmt en By_admin) (cancelAllOpenAttempts en).
Proof. unfold cancelAllOpenAttempts. ukeep. Qed.
Lemma keeps_suspend d : keeps (stmt en By_admin) (suspendDevice en d).
Proof. unfold suspendDevice. ukeep. by apply keeps_devices. Qed.
Lemma keeps_reinstate d : keeps (stmt en By_admin) (reinstateDevice d).
Proof. by apply keeps_devices. Qed.

Lemma keeps_delete d t : keeps (stmt en By_admin) (deleteDevice d t).
Proof. unfold deleteDevice. ukeep. apply keeps_mod. intros w. by apply st_delete. Qed.

Lemma keeps_scopeAgents au s : keeps (stmt en au) (scopeAgents en s).
Proof. unfold scopeAgents. ukeep. Qed.
Hint Resolve keeps_scopeAgents : upd.
Lemma keeps_preview au o s : keeps (stmt en au) (preview en o s).
Proof. unfold preview. ukeep. Qed.
Hint Resolve keeps_preview : upd.

Lemma keeps_request_all u l acc : keeps (stmt en By_admin) (request_all en u l acc).
Proof. revert acc. induction l as [|[t ids] l IH]; intros acc; cbn [request_all]; ukeep. Qed.
Lemma keeps_cancel_each l acc : keeps (stmt en By_admin) (cancel_each en l acc).
Proof. revert acc. induction l as [|[t ids] l IH]; intros acc; cbn [cancel_each]; ukeep. Qed.
Hint Resolve keeps_request_all keeps_cancel_each : upd.

Lemma keeps_updateAll o s u : keeps (stmt en By_admin) (updateAll en o s u).
Proof. unfold updateAll. ukeep. Qed.
Lemma keeps_cancelAll s : keeps (stmt en By_admin) (cancelAll en s).
Proof. unfold cancelAll. ukeep. Qed.

End Operations.

(** ** Requests *)

Inductive URequest :=
| Q_heartbeat (d : Z) (version : string) (osInfo : js) (connectedAt : option Z)
| Q_status (d tenantId : Z) (msg : js)
| Q_updating (d tenantId : Z)
| Q_cleanup
| Q_update (ids : list Z) (tenantId : Z) (userId : option Z)
| Q_updateGroup (groupId tenantId : Z) (userId : option Z) (writable : Ids)
| Q_retry (d tenantId : Z) (userId : option Z)
| Q_cancel (d tenantId : Z)
| Q_updateAll (online : Z -> bool) (scope : RolloutScope) (userId : option Z)
| Q_cancelAll (scope : RolloutScope)
| Q_preview (online : Z -> bool) (scope : RolloutScope)
| Q_tenantPolicy (tenantId : Z) (policy : option AgentUpdatePolicy)
| Q_cancelGroup (groupId : Z)
| Q_cancelOpen
| Q_suspend (d : Z)
| Q_reinstate (d : Z)
| Q_delete (d tenantId : Z).

(** An [update_status] frame of the channel of a device ([_handleUpdateStatus] of the hub). *)
Definition handleUpdateStatus (en : UEnv) (d tenantId : Z) (msg : js) : U bool :=
  match parseUpdateStatusFrame msg with Some st => applyUpdateStatus en d tenantId st | None => uret false end.

(** The world after a request. *)
Definition serve (en : UEnv) (q : URequest) (w : UWorld) : UWorld :=
  match q with
  | Q_heartbeat d v os c => snd (heartbeat en d v os c w)
  | Q_status d t msg => snd (handleUpdateStatus en d t msg w)
  | Q_updating d t => snd (setDeviceUpdating en d t w)
  | Q_cleanup => snd (cleanupStuckUpdating en w)
  | Q_update ids t u => snd (requestUpdate en ids t u w)
  | Q_updateGroup g t u wr => snd (requestGroupUpdate en g t u wr w)
  | Q_retry d t u => snd (retryUpdate en d t u w)
  | Q_cancel d t => snd (cancelUpdateRequest en d t w)
  | Q_updateAll o s u => snd (updateAll en o s u w)
  | Q_cancelAll s => snd (cancelAll en s w)
  | Q_preview o s => snd (preview en o s w)
  | Q_tenantPolicy t p => snd (setTenantUpdatePolicy en t p w)
  | Q_cancelGroup g => snd (cancelOpenAttemptsForGroup en g w)
  | Q_cancelOpen => snd (cancelAllOpenAttempts en w)
  | Q_suspend d => snd (suspendDevice en d w)
  | Q_reinstate d => snd (reinstateDevice d w)
  | Q_delete d t => snd (deleteDevice d t w)
  end.

Definition author (q : URequest) : Author :=
  match q with
  | Q_heartbeat d v _ _ => By_agent d v
  | Q_status d _ _ | Q_updating d _ => By_agent d ""
  | Q_cleanup | Q_preview _ _ => By_job
  | Q_tenantPolicy t _ => By_policy t
  | _ => By_admin
  end.

(** The served version comes from [getServedAgentVersion]. *)
Definition served_ok (en : UEnv) : Prop := match ue_served en with Some v => isValidServedAgentVersion v = true | None => True end.

Lemma served_version_ok en : served_ok en -> version_ok (default "" (ue_served en)).
Proof.
  unfold served_ok, version_ok. destruct (ue_served en) as [v|]; cbn; [|lia].
  unfold isValidServedAgentVersion. intros H. by boolify.
Qed.

(** Every request is a sequence of statements its author may make. *)
Lemma serve_stmts en q w : served_ok en -> rtc (stmt en (author q)) w (serve en q w).
Proof.
  intros Hs. destruct q; cbn [serve author].
  - apply keeps_heartbeat.
  - unfold handleUpdateStatus. destruct (parseUpdateStatusFrame msg) as [st|] eqn:E; [|constructor].
    apply parseUpdateStatusFrame_ok in E as (? & ? & ?). by apply keeps_applyStatus.
  - apply keeps_setUpdating. by apply served_version_ok.
  - apply keeps_cleanup.
  - apply keeps_requestUpdate.
  - apply keeps_requestGroup.
  - apply keeps_retry.
  - apply keeps_cancelRequest.
  - apply keeps_updateAll.
  - apply keeps_cancelAll.
  - apply keeps_preview.
  - apply keeps_setTenant.
  - apply keeps_cancelGroup.
  - apply keeps_cancelAllOpen.
  - apply keeps_suspend.
  - apply keeps_reinstate.
  - apply keeps_delete.
Qed.
