(* ===== verification/UpdatePacing.v ===== *)
(** * The paced rollout keeps its bounds

    The server with its frames on the way: a heartbeat may grant a version, the frame that
    carries it is counted once written, or dropped. Over every interleaving of heartbeats,
    frames, reports, jobs and administrators: the spacing and the budget of the offers, and
    the shape of the attempts. A heartbeat is one step here; [UpdateWindow] cuts it at the
    awaits of its slot. *)

From S2P Require Import Prelude JsString JsValue JsNumber Tenancy Access AgentUpdate UpdateStore UpdateOps UpdateRollout UpdateSteps.

(** ** The system *)

(** [s_frames]: the frame on the way to each device, with the version it carries and when it
    was granted; [s_log]: the offers counted so far, with their times; [s_clock]: the time of
    the last step. *)
Record Sys := { s_world : UWorld; s_clock : Z; s_frames : gmap Z (string * Z); s_log : list (Z * string * Z) }.

Definition is_heartbeat (q : URequest) : bool := match q with Q_heartbeat _ _ _ _ => true | _ => false end.

Definition enrol (row : AgentRow) (w : UWorld) : UWorld :=
  {| uw_devices := <[uw_next_device w := row]> (uw_devices w); uw_next_device := uw_next_device w + 1;
     uw_attempts := uw_attempts w; uw_next_attempt := uw_next_attempt w; uw_tenants := uw_tenants w; uw_groups := uw_groups w;
     uw_closure := uw_closure w; uw_global := uw_global w; uw_chains := uw_chains w; uw_tenantPolicies := uw_tenantPolicies w;
     uw_reservations := uw_reservations w; uw_windowFullAt := uw_windowFullAt w; uw_effects := uw_effects w |}.

(** The clock never goes back. A device has one frame on the way at a time; a frame is
    counted within the life of a reservation ([UPDATE_ROLLOUT_RESERVATION_MS], which the
    code chose for that) or never. [ok]: the authors that act. *)
Inductive sys_step (ok : Author -> Prop) : Sys -> Sys -> Prop :=
| sy_request en q w c fr l :
    c <= ue_now en -> served_ok en -> is_heartbeat q = false -> ok (author q) ->
    sys_step ok {| s_world := w; s_clock := c; s_frames := fr; s_log := l |}
             {| s_world := serve en q w; s_clock := ue_now en; s_frames := fr; s_log := l |}
| sy_heartbeat en d reported os conn granted w w' c fr l :
    c <= ue_now en -> served_ok en -> fr !! d = None -> ok (By_agent d reported) -> heartbeat en d reported os conn w = (granted, w') ->
    sys_step ok {| s_world := w; s_clock := c; s_frames := fr; s_log := l |}
             {| s_world := w'; s_clock := ue_now en;
                s_frames := match granted with Some v => <[d := (v, ue_now en)]> fr | None => fr end; s_log := l |}
| sy_count en d v at_ counted w w' c fr l :
    c <= ue_now en -> fr !! d = Some (v, at_) -> ue_now en - at_ < UPDATE_ROLLOUT_RESERVATION_MS ->
    recordUpdateOffer en d v w = (counted, w') ->
    sys_step ok {| s_world := w; s_clock := c; s_frames := fr; s_log := l |}
             {| s_world := w'; s_clock := ue_now en; s_frames := delete d fr;
                s_log := if counted then l ++ [(d, v, ue_now en)] else l |}
| sy_drop d w c fr l :
    sys_step ok {| s_world := w; s_clock := c; s_frames := fr; s_log := l |}
             {| s_world := w; s_clock := c; s_frames := delete d fr; s_log := l |}
| sy_enrol row w c fr l :
    sys_step ok {| s_world := w; s_clock := c; s_frames := fr; s_log := l |}
             {| s_world := enrol row w; s_clock := c; s_frames := fr; s_log := l |}.

Definition empty_world : UWorld :=
  {| uw_devices := ∅; uw_next_device := 1; uw_attempts := ∅; uw_next_attempt := 1; uw_tenants := ∅; uw_groups := ∅; uw_closure := [];
     uw_global := None; uw_chains := None; uw_tenantPolicies := None; uw_reservations := ∅; uw_windowFullAt := None; uw_effects := [] |}.

(** Any configuration of tenants and groups, no device yet, nothing offered. *)
Definition initial (s : Sys) : Prop :=
  uw_devices (s_world s) = ∅ /\ uw_attempts (s_world s) = ∅ /\ uw_reservations (s_world s) = ∅ /\ s_frames s = ∅ /\ s_log s = [].

Definition anyone : Author -> Prop := fun _ => True.
Definition reachable (s : Sys) : Prop := exists s0, initial s0 /\ rtc (sys_step anyone) s0 s.

(** Reservations untouched, no offer dated anew. *)
Definition calm (w w' : UWorld) : Prop :=
  uw_reservations w' = uw_reservations w
  /\ forall k a', uw_attempts w' !! k = Some a' ->
       ua_last_offered_at a' = None \/ exists a, uw_attempts w !! k = Some a /\ ua_last_offered_at a' = ua_last_offered_at a.

Lemma lookup_upd p f w k a' :
  uw_attempts (upd p f w) !! k = Some a' <-> exists a, uw_attempts w !! k = Some a /\ a' = if p k a then f a else a.
Proof.
  cbn. rewrite map_lookup_imap. destruct (uw_attempts w !! k) as [a|]; cbn; split.
  - intros [= <-]. eauto.
  - by intros (b & [= <-] & ->).
  - done.
  - by intros (b & ? & _).
Qed.

Lemma calm_upd p f w : (forall a, ua_last_offered_at (f a) = ua_last_offered_at a) -> calm w (upd p f w).
Proof.
  intros Hf. split; [done|]. intros k a' H. apply lookup_upd in H as (a & Ha & ->). right. exists a. split; [done|].
  by destruct (p k a).
Qed.

Lemma calm_same w w' : uw_reservations w' = uw_reservations w -> uw_attempts w' = uw_attempts w -> calm w w'.
Proof. intros Hr Ha. split; [done|]. intros k a' H. right. exists a'. by rewrite <- Ha. Qed.

(** Reading the two policy caches. *)
Lemma chains_rest en w :
  uw_attempts (snd (getGroupUpdatePolicyChains en w)) = uw_attempts w /\ uw_reservations (snd (getGroupUpdatePolicyChains en w)) = uw_reservations w
  /\ uw_devices (snd (getGroupUpdatePolicyChains en w)) = uw_devices w /\ uw_next_device (snd (getGroupUpdatePolicyChains en w)) = uw_next_device w
  /\ uw_tenants (snd (getGroupUpdatePolicyChains en w)) = uw_tenants w
  /\ uw_tenantPolicies (snd (getGroupUpdatePolicyChains en w)) = uw_tenantPolicies w.
Proof. unfold getGroupUpdatePolicyChains. by destruct (cached_lookup _ _ _ _). Qed.
Lemma tenantPolicies_rest en w :
  uw_attempts (snd (getTenantUpdatePolicies en w)) = uw_attempts w /\ uw_reservations (snd (getTenantUpdatePolicies en w)) = uw_reservations w
  /\ uw_devices (snd (getTenantUpdatePolicies en w)) = uw_devices w /\ uw_next_device (snd (getTenantUpdatePolicies en w)) = uw_next_device w
  /\ uw_tenants (snd (getTenantUpdatePolicies en w)) = uw_tenants w.
Proof. unfold getTenantUpdatePolicies. by destruct (cached_lookup _ _ _ _). Qed.

Lemma stmt_calm en au w w' : stmt en au w w' -> calm w w' \/ exists d, w' = snd (reserveRolloutSlot en d w).
Proof.
  destruct 1; try (by right; eauto); left; try (by apply calm_upd).
  - by apply calm_same.
  - destruct (chains_rest en w) as (? & ? & _). by apply calm_same.
  - destruct (tenantPolicies_rest en w) as (? & ? & _). by apply calm_same.
  - split; [done|]. intros k a'. cbn [set_attempts uw_attempts]. destruct (decide (k = (d, v))) as [->|Hn].
    + rewrite lookup_insert_eq. intros [= <-]. cbn. destruct (uw_attempts w !! (d, v)) as [a|] eqn:E.
      * right. exists a. by destruct H5 as [-> _].
      * left. by destruct H5.
    + rewrite lookup_insert_ne by done. eauto.
  - split; [done|]. intros k a' Hk. right. exists a'. split; [|done]. cbn in Hk. by apply map_lookup_filter_Some in Hk as [Hk _].
  - by apply calm_same.
Qed.

(** ** Counting an offer *)

Lemma emitAttempt_rest d t w : exists es, emitAttemptPatch d t w = (tt, add_effects es w) \/ emitAttemptPatch d t w = (tt, w).
Proof.
  unfold emitAttemptPatch, ubind, uget. destruct (match t with Some _ => _ | None => _ end) as [t'|]; [|by exists []; right].
  eexists. left. reflexivity.
Qed.

Lemma record_spec en d v w :
  uw_reservations (snd (recordUpdateOffer en d v w)) = delete d (uw_reservations w)
  /\ uw_devices (snd (recordUpdateOffer en d v w)) = uw_devices w
  /\ uw_next_device (snd (recordUpdateOffer en d v w)) = uw_next_device w
  /\ if fst (recordUpdateOffer en d v w)
     then is_Some (uw_devices w !! d) /\ exists a, offered_attempt (ue_now en) (uw_next_attempt w) (uw_attempts w !! (d, v)) = Some a
          /\ uw_attempts (snd (recordUpdateOffer en d v w)) = <[(d, v) := a]> (uw_attempts w)
     else uw_attempts (snd (recordUpdateOffer en d v w)) = uw_attempts w.
Proof.
  unfold recordUpdateOffer, store_offer, ubind, uget. destruct (negb (ue_db en) || negb (bool_decide (is_Some (uw_devices w !! d)))) eqn:E; [done|].
  boolify. destruct (offered_attempt _ _ _) as [a|] eqn:Ea; [|done].
  unfold umod, uret. match goal with |- context [emitAttemptPatch d None ?x] => destruct (emitAttempt_rest d None x) as (es & [->| ->]) end.
  all: cbn; split_and!; try done; by exists a.
Qed.

Lemma offered_time now id old a : offered_attempt now id old = Some a -> ua_last_offered_at a = Some now.
Proof. unfold offered_attempt. destruct old as [b|]; [case_match; [|done]|]; by intros [= <-]. Qed.

(** What a grant says of the agent: the view it was decided on, from the lookups made in
    this heartbeat. *)
Definition hb_row (d : Z) (r : string) (os : js) (w : UWorld) : UWorld := snd (update_devices (fun d' _ => d' =? d) (set_reported r os) w).

Lemma heartbeat_granted en d r os c w s w' :
  heartbeat en d r os c w = (Some s, w') ->
  exists row v w2,
    let w1 := hb_row d r os w in
    let '(chains, wc) := getGroupUpdatePolicyChains en w1 in
    let '(tenants, wt) := getTenantUpdatePolicies en wc in
    uw_devices w1 !! d = Some row
    /\ v = fst (reconcileUpdateRequest en (deviceView en wt chains tenants d row) r wt)
    /\ rtc (stmt en (By_agent d r)) w w2
    /\ resolveAdvertisedVersion en v (if is_empty r then default "" (av_agentVersion v) else r) w2 = (Some s, w').
Proof.
  unfold heartbeat, ubind at 1. fold (hb_row d r os w). change (update_devices _ _ w) with (tt, hb_row d r os w). cbn [fst snd].
  unfold ubind at 1, uget at 1. destruct (uw_devices (hb_row d r os w) !! d) as [row|] eqn:Ed; [|done].
  unfold ubind at 1. unfold hydrate, ubind at 1.
  destruct (getGroupUpdatePolicyChains en (hb_row d r os w)) as [chains wc] eqn:Ec.
  unfold ubind at 1. destruct (getTenantUpdatePolicies en wc) as [tenants wt] eqn:Et.
  unfold ubind at 1, uget at 1, uret at 1. cbn [map].
  unfold ubind at 1. destruct (reconcileUpdateRequest en (deviceView en wt chains tenants d row) r wt) as [v w2] eqn:Er.
  unfold ubind at 1. destruct (uwhen _ _ w2) as [u w3] eqn:Ew. destruct (_ || _); [done|]. intros H. exists row, v, w3.
  cbv zeta. rewrite ?Ec, ?Et, ?Er. split_and!; [done|done| |done].
  etransitivity; [apply (keeps_devices en (By_agent d r) (fun d' _ => d' =? d) (set_reported r os)); done|].
  fold (hb_row d r os w). etransitivity; [apply keeps_chains|]. rewrite Ec. cbn [snd].
  etransitivity; [apply keeps_tenantPolicies|]. rewrite Et. cbn [snd].
  etransitivity; [apply (keeps_reconcileRequest en (By_agent d r) (deviceView en wt chains tenants d row) r)|]. rewrite Er. cbn [snd].
  assert (Hv : av_id v = d).
  { pose proof (reconcileRequest_id en (deviceView en wt chains tenants d row) r wt) as Hv. by rewrite Er in Hv. }
  assert (Hk : keeps (stmt en (By_agent d r)) (uwhen (String.eqb (av_status v) "approved" && String.eqb (av_deviceType v) "agent")
                (reconcileUpdateAttempts en v r c))).
  { apply keeps_when. intros _. rewrite <- Hv. apply keeps_reconcileAttempts. }
  specialize (Hk w2). by rewrite Ew in Hk.
Qed.

(** ** A sample run: one agent of an automatic tenant *)

Definition sample_agent : AgentRow :=
  {| ar_tenant_id := 2; ar_group_id := None; ar_status := "approved"; ar_device_type := "agent"; ar_agent_version := Some "1.0.0";
     ar_os_info := JNull; ar_update_policy := None; ar_requested_at := None; ar_requested_version := None; ar_requested_by := None;
     ar_updating_since := None |}.
Definition sample_update_world : UWorld := set_tenants (fun _ => {[ 2 := Some "auto" ]}) empty_world.
Definition sample_update_env (t : Z) : UEnv :=
  {| ue_now := t; ue_served := Some "1.1.0"; ue_manifest := None; ue_chains_ok := true; ue_tenants_ok := true; ue_db := true |}.

Definition sample_heartbeat (t : Z) (w : UWorld) : option string * UWorld := heartbeat (sample_update_env t) 1 "1.0.0" JNull None w.
Definition sample_record (t : Z) (w : UWorld) : bool * UWorld := recordUpdateOffer (sample_update_env t) 1 "1.1.0" w.

(** The world after [enrol], then after each offer (a heartbeat at [t], its frame counted a
    second later). *)
Definition sample_enrolled : UWorld := enrol sample_agent sample_update_world.
Definition sample_offer (t : Z) (w : UWorld) : UWorld := snd (sample_record (t + 1000) (snd (sample_heartbeat t w))).

Definition sample_sys (w : UWorld) (c : Z) (l : list (Z * string * Z)) : Sys := {| s_world := w; s_clock := c; s_frames := ∅; s_log := l |}.

(** An offer that is granted and counted: two steps, of the agent alone. *)
Lemma sample_offer_steps ok t w c l :
  c <= t -> ok (By_agent 1 "1.0.0") -> fst (sample_heartbeat t w) = Some "1.1.0" -> fst (sample_record (t + 1000) (snd (sample_heartbeat t w))) = true ->
  rtc (sys_step ok) (sample_sys w c l) (sample_sys (sample_offer t w) (t + 1000) (l ++ [(1, "1.1.0", t + 1000)])).
Proof.
  intros Hc Ho Hh Hr. unfold sample_offer. destruct (sample_heartbeat t w) as [g w1] eqn:E1. cbn [fst snd] in *. subst g.
  destruct (sample_record (t + 1000) w1) as [cnt w2] eqn:E2. cbn [fst snd] in *. subst cnt.
  eapply rtc_l; [apply (sy_heartbeat ok (sample_update_env t) 1 "1.0.0" JNull None (Some "1.1.0") w w1 c ∅ l); try done|].
  eapply rtc_l; [|replace (∅ : gmap Z (string * Z)) with (delete 1 (<[1 := ("1.1.0", t)]> (∅ : gmap Z (string * Z)))) by (by rewrite delete_insert_id); constructor].
  eapply (sy_count ok (sample_update_env (t + 1000)) 1 "1.1.0" t true); cbn [ue_now sample_update_env]; [lia|apply lookup_insert_eq| |exact E2].
  unfold UPDATE_ROLLOUT_RESERVATION_MS. lia.
Qed.

Definition sample_first : UWorld := sample_offer 0 sample_enrolled.
Definition sample_second : UWorld := sample_offer 700000 sample_first.
Definition sample_third : UWorld := sample_offer 1400000 sample_second.

Lemma sample_enrolled_reachable : reachable (sample_sys sample_enrolled 0 []).
Proof.
  exists (sample_sys sample_update_world 0 []). split; [by split_and!|]. apply rtc_once, sy_enrol.
Qed.

Lemma sample_three_offers ok :
  ok (By_agent 1 "1.0.0") ->
  rtc (sys_step ok) (sample_sys sample_enrolled 0 [])
    (sample_sys sample_third 1401000 [(1, "1.1.0", 1000); (1, "1.1.0", 701000); (1, "1.1.0", 1401000)]).
Proof.
  intros Ho. etransitivity; [apply (sample_offer_steps ok 0); [lia|done|by vm_compute|by vm_compute]|].
  etransitivity; [apply (sample_offer_steps ok 700000); [lia|done|by vm_compute|by vm_compute]|].
  apply (sample_offer_steps ok 1400000); [lia|done|by vm_compute|by vm_compute].
Qed.

Lemma sample_third_reachable :
  reachable (sample_sys sample_third 1401000 [(1, "1.1.0", 1000); (1, "1.1.0", 701000); (1, "1.1.0", 1401000)]).
Proof.
  destruct sample_enrolled_reachable as (s0 & H0 & H). exists s0. split; [done|]. etransitivity; [exact H|by apply sample_three_offers].
Qed.
