(* ===== verification/UpdateWindow.v ===== *)
(** * The window of the rollout

    [reserveRolloutSlot] and [recordUpdateOffer] cut where they await: the heartbeats that look
    at their version at once, the slot they ask for one after the other under [slotLock], the
    count of the offers, the frames on the way and the offers being counted. The cap of 25
    offers a minute over every interleaving, what it misses, and a run that exceeds it. *)

From S2P Require Import Prelude JsString JsValue JsNumber Tenancy Access AgentUpdate UpdateStore UpdateOps UpdateRollout UpdateSteps UpdatePacing.

(** ** The server *)

(** A heartbeat that looks at its version, with the clock it read then. *)
Record Ask := { ak_id : Z; ak_device : Z; ak_now : Z }.
(** An offer being counted, with the clock read when its frame was written; [of_counted] is the
    answer of the statement. *)
Record Offer := { of_device : Z; of_version : string; of_now : Z; of_counted : option bool }.
(** [wi_looking]: heartbeats on their way to the slot; [wi_queue]: those that wait for
    [slotLock], the first in front; [wi_running]: the one that holds it and awaits its count,
    with the count once read; [wi_frames]: the devices granted a version. *)
Record Win := {
  wi_world : UWorld; wi_clock : Z; wi_next : Z; wi_looking : list Ask; wi_queue : list Ask; wi_running : option (Ask * option Z);
  wi_frames : list Z; wi_offers : list Offer
}.

Inductive WEvent :=
| W_tick (now : Z)
| W_look (d : Z)               (** [resolveAdvertisedVersion(device, ..., _now())] *)
| W_leave (i : nat)            (** one of its gates refuses *)
| W_join (i : nat)             (** [slotLock.then(run, run)] *)
| W_begin                      (** [run] starts *)
| W_count                      (** the database counts *)
| W_fail                       (** or fails *)
| W_decide                     (** [run] goes on *)
| W_drop (i : nat)             (** a frame that is never written *)
| W_record (i : nat) (v : string)  (** [recordUpdateOffer(deviceId, version)], its frame written *)
| W_store (i : nat) (db : bool)    (** its statement runs *)
| W_settle (i : nat)           (** it answers, and [finally] *)
| W_other (w : UWorld).        (** any other statement *)

Definition set_world (w : UWorld) (s : Win) : Win := {|
  wi_world := w; wi_clock := wi_clock s; wi_next := wi_next s; wi_looking := wi_looking s; wi_queue := wi_queue s; wi_running := wi_running s;
  wi_frames := wi_frames s; wi_offers := wi_offers s |}.
Definition set_asks (looking queue : list Ask) (running : option (Ask * option Z)) (s : Win) : Win := {|
  wi_world := wi_world s; wi_clock := wi_clock s; wi_next := wi_next s; wi_looking := looking; wi_queue := queue; wi_running := running;
  wi_frames := wi_frames s; wi_offers := wi_offers s |}.
Definition set_frames (frames : list Z) (offers : list Offer) (s : Win) : Win := {|
  wi_world := wi_world s; wi_clock := wi_clock s; wi_next := wi_next s; wi_looking := wi_looking s; wi_queue := wi_queue s; wi_running := wi_running s;
  wi_frames := frames; wi_offers := offers |}.
Definition answered (b : bool) (o : Offer) : Offer := {| of_device := of_device o; of_version := of_version o; of_now := of_now o; of_counted := Some b |}.

(** [None]: the step is not possible. *)
Definition win_apply (e : WEvent) (s : Win) : option Win :=
  match e with
  | W_tick now =>
      if wi_clock s <=? now
      then Some {| wi_world := wi_world s; wi_clock := now; wi_next := wi_next s; wi_looking := wi_looking s; wi_queue := wi_queue s;
                   wi_running := wi_running s; wi_frames := wi_frames s; wi_offers := wi_offers s |} else None
  | W_look d =>
      Some {| wi_world := wi_world s; wi_clock := wi_clock s; wi_next := wi_next s + 1;
              wi_looking := wi_looking s ++ [{| ak_id := wi_next s; ak_device := d; ak_now := wi_clock s |}]; wi_queue := wi_queue s;
              wi_running := wi_running s; wi_frames := wi_frames s; wi_offers := wi_offers s |}
  | W_leave i => Some (set_asks (delete i (wi_looking s)) (wi_queue s) (wi_running s) s)
  | W_join i =>
      a ← wi_looking s !! i; Some (set_asks (delete i (wi_looking s)) (wi_queue s ++ [a]) (wi_running s) s)
  | W_begin =>
      match wi_running s, wi_queue s with
      | None, a :: q =>
          let '(start, w) := slot_begin (ak_now a) (ak_device a) (wi_world s) in
          let s' := set_world w (set_asks (wi_looking s) q (match start with Slot_count => Some (a, None) | _ => None end) s) in
          Some (match start with Slot_held => set_frames (wi_frames s ++ [ak_device a]) (wi_offers s) s' | _ => s' end)
      | _, _ => None
      end
  | W_count =>
      match wi_running s with
      | Some (a, None) => Some (set_asks (wi_looking s) (wi_queue s) (Some (a, Some (countRolloutOffersInWindow (ak_now a) (wi_world s)))) s)
      | _ => None
      end
  | W_fail => match wi_running s with Some (a, None) => Some (set_asks (wi_looking s) (wi_queue s) None s) | _ => None end
  | W_decide =>
      match wi_running s with
      | Some (a, Some c) =>
          let '(granted, w) := slot_decide (ak_now a) c (ak_device a) (wi_world s) in
          let s' := set_world w (set_asks (wi_looking s) (wi_queue s) None s) in
          Some (if (granted : bool) then set_frames (wi_frames s ++ [ak_device a]) (wi_offers s) s' else s')
      | _ => None
      end
  | W_drop i => Some (set_frames (delete i (wi_frames s)) (wi_offers s) s)
  | W_record i v =>
      d ← wi_frames s !! i;
      Some (set_frames (delete i (wi_frames s)) (wi_offers s ++ [{| of_device := d; of_version := v; of_now := wi_clock s; of_counted := None |}]) s)
  | W_store i db =>
      match wi_offers s !! i with
      | Some o =>
          if bool_decide (of_counted o = None)
          then let '(b, w) := store_offer (of_now o) db (of_device o) (of_version o) (wi_world s) in
               Some (set_world w (set_frames (wi_frames s) (<[i := answered b o]> (wi_offers s)) s))
          else None
      | None => None
      end
  | W_settle i =>
      match wi_offers s !! i with
      | Some o =>
          if bool_decide (of_counted o = None) then None
          else Some (set_world (snd (releaseRolloutSlot (of_device o) (wi_world s))) (set_frames (wi_frames s) (delete i (wi_offers s)) s))
      | None => None
      end
  | W_other _ => None
  end.

(** The other statements leave the slots alone and date no offer ([UpdatePacing.stmt_calm]). *)
Inductive win_step : Win -> WEvent -> Win -> Prop :=
| ws_apply s e s' : win_apply e s = Some s' -> win_step s e s'
| ws_other s w : calm (wi_world s) w -> win_step s (W_other w) (set_world w s).

(** The server has just started: nothing under way, no slot, and the offers already counted fit. *)
Record started (s : Win) : Prop := {
  st_slots : uw_reservations (wi_world s) = ∅;
  st_asks : wi_looking s = [] /\ wi_queue s = [] /\ wi_running s = None;
  st_offers : wi_frames s = [] /\ wi_offers s = [];
  st_dated : forall k a t, uw_attempts (wi_world s) !! k = Some a -> ua_last_offered_at a = Some t -> t <= wi_clock s;
  st_fits : countRolloutOffersInWindow (wi_clock s) (wi_world s) <= UPDATE_ROLLOUT_MAX_PER_WINDOW
}.
(** Runs, each step with the state it found, the newest first. *)
Inductive win_run : list (Win * WEvent) -> Win -> Prop :=
| wr_start s : started s -> win_run [] s
| wr_step tr s e s' : win_run tr s -> win_step s e s' -> win_run ((s, e) :: tr) s'.

(** ** What a run misses *)

Definition has_slot (s : Win) (d : Z) : bool := bool_decide (is_Some (uw_reservations (wi_world s) !! d)).
(** An offer of the device is counted, its slot about to be released. *)
Definition settling (offers : list Offer) (d : Z) : bool := existsb (fun o => (of_device o =? d) && bool_decide (of_counted o = Some true)) offers.
(** The slots whose offer is still to be counted. *)
Definition open_slots (s : Win) : Z :=
  Z.of_nat (size (filter (fun dt => settling (wi_offers s) (fst dt) = false) (uw_reservations (wi_world s)))).

(** The offer a step counts, and those counted since a heartbeat read its clock. *)
Definition stored (s : Win) (e : WEvent) : option AttemptKey :=
  match e with
  | W_store i db =>
      o ← wi_offers s !! i;
      if bool_decide (of_counted o = None) && fst (store_offer (of_now o) db (of_device o) (of_version o) (wi_world s))
      then Some (of_device o, of_version o) else None
  | _ => None
  end.
Definition begins (id : Z) (s : Win) (e : WEvent) : bool := match e with W_look _ => wi_next s =? id | _ => false end.
Fixpoint stored_since (id : Z) (tr : list (Win * WEvent)) : list AttemptKey :=
  match tr with
  | [] => []
  | (s, e) :: tr' =>
      if begins id s e then []
      else match stored s e with Some k => k :: stored_since id tr' | None => stored_since id tr' end
  end.
(** Since the heartbeat read its clock an offer was counted that no longer holds a slot of its
    own: its count may not show it, nor do the reservations. *)
Definition overtaken (s : Win) (tr : list (Win * WEvent)) (a : Ask) : bool :=
  let ds := map fst (stored_since (ak_id a) tr) in
  negb (bool_decide (NoDup ds) && forallb (fun d => has_slot s d && settling (wi_offers s) d) ds).
(** A slot granted to an overtaken heartbeat, or an offer counted for a device that holds no
    slot for it (released by another offer, or purged after 15 seconds). *)
Definition slips (s : Win) (e : WEvent) (tr : list (Win * WEvent)) : bool :=
  match e with
  | W_decide =>
      match wi_running s with
      | Some (a, Some c) => fst (slot_decide (ak_now a) c (ak_device a) (wi_world s)) && overtaken s tr a
      | _ => false
      end
  | _ => match stored s e with Some k => negb (has_slot s (fst k) && negb (settling (wi_offers s) (fst k))) | None => false end
  end.
(** The offers of the last minute and the slots of those to come. *)
Definition load (now : Z) (s : Win) : Z := countRolloutOffersInWindow now (wi_world s) + open_slots s.
(** The slips since the load was last under the cap. *)
Fixpoint excess (tr : list (Win * WEvent)) : Z :=
  match tr with
  | [] => 0
  | (s, e) :: tr' => (if load (wi_clock s) s <=? UPDATE_ROLLOUT_MAX_PER_WINDOW then 0 else excess tr') + Z.b2z (slips s e tr')
  end.

(** ** Counting in maps *)

Lemma size_filter_le {K A B} `{Countable K} (P : K * A -> Prop) `{!forall x, Decision (P x)} (Q : K * B -> Prop) `{!forall x, Decision (Q x)}
    (m : gmap K A) (m' : gmap K B) :
  (forall k b, m' !! k = Some b -> Q (k, b) -> exists a, m !! k = Some a /\ P (k, a)) -> (size (filter Q m') <= size (filter P m))%nat.
Proof.
  intros Hm. rewrite <- !size_dom. apply subseteq_size. intros k. rewrite !elem_of_dom. intros [b Hb].
  apply map_lookup_filter_Some in Hb as [Hb Hq]. destruct (Hm k b Hb Hq) as (a & Ha & Hp). exists a. by apply map_lookup_filter_Some.
Qed.
Lemma size_filter_split {K A} `{Countable K} (P Q R : K * A -> Prop) `{!forall x, Decision (P x)} `{!forall x, Decision (Q x)} `{!forall x, Decision (R x)} (m : gmap K A) :
  (forall k a, m !! k = Some a -> P (k, a) -> Q (k, a) \/ R (k, a)) -> (size (filter P m) <= size (filter Q m) + size (filter R m))%nat.
Proof.
  intros Hm. rewrite <- !size_dom. transitivity (size (dom (filter Q m) ∪ dom (filter R m))).
  - apply subseteq_size. intros k. rewrite elem_of_union, !elem_of_dom. intros [a Ha]. apply map_lookup_filter_Some in Ha as [Ha Hp].
    destruct (Hm k a Ha Hp); [left|right]; exists a; by apply map_lookup_filter_Some.
  - rewrite size_union_alt. pose proof (subseteq_size (dom (filter R m) ∖ dom (filter Q m)) (dom (filter R m))) as Hs. specialize (Hs ltac:(set_solver)). lia.
Qed.
Lemma size_filter_insert {K A} `{Countable K} (P : K * A -> Prop) `{!forall x, Decision (P x)} (m : gmap K A) k a :
  (size (filter P (<[k := a]> m)) <= S (size (filter P m)))%nat.
Proof.
  rewrite <- !size_dom. transitivity (size ({[k]} ∪ dom (filter P m))).
  - apply subseteq_size. intros k'. rewrite elem_of_union, elem_of_singleton, !elem_of_dom. intros [b Hb]. apply map_lookup_filter_Some in Hb as [Hb Hp].
    destruct (decide (k' = k)) as [->|Hn]; [by left|right]. rewrite lookup_insert_ne in Hb by done. exists b. by apply map_lookup_filter_Some.
  - rewrite size_union_alt, size_singleton. pose proof (subseteq_size (dom (filter P m) ∖ {[k]}) (dom (filter P m))) as Hs. specialize (Hs ltac:(set_solver)). lia.
Qed.
Lemma size_filter_parts {K A} `{Countable K} (P Q : K * A -> Prop) `{!forall x, Decision (P x)} `{!forall x, Decision (Q x)} (m : gmap K A) :
  (forall x, P x -> Q x -> False) -> (size (filter P m) + size (filter Q m) <= size m)%nat.
Proof.
  intros Hpq. rewrite <- !size_dom, <- size_union.
  - apply subseteq_size. pose proof (dom_filter_subseteq P m). pose proof (dom_filter_subseteq Q m). set_solver.
  - intros k. rewrite !elem_of_dom. intros [a Ha] [b Hb]. apply map_lookup_filter_Some in Ha as [Ha Hp]. apply map_lookup_filter_Some in Hb as [Hb Hq].
    simplify_eq. by apply (Hpq (k, a)).
Qed.
(** A list without repetition inside a domain is no longer than it. *)
Lemma NoDup_length_dom {K A} `{Countable K} (l : list K) (m : gmap K A) : NoDup l -> (forall k, k ∈ l -> is_Some (m !! k)) -> (length l <= size m)%nat.
Proof.
  intros Hn Hl. rewrite <- size_dom, <- (size_list_to_set (C := gset K) l Hn). apply subseteq_size. intros k. rewrite elem_of_list_to_set, elem_of_dom. apply Hl.
Qed.

(** Rows counted at [now] whose key is not in [S]. *)
Definition others (now : Z) (S : list AttemptKey) (w : UWorld) : Z :=
  Z.of_nat (size (filter (fun ka => in_window now (snd ka) = true /\ fst ka ∉ S) (uw_attempts w))).
Lemma others_bound now S w : countRolloutOffersInWindow now w <= others now S w + Z.of_nat (length S).
Proof.
  unfold countRolloutOffersInWindow, others.
  pose proof (size_filter_split (fun ka : AttemptKey * Attempt => in_window now (snd ka) = true) (fun ka => in_window now (snd ka) = true /\ fst ka ∉ S) (fun ka => fst ka ∈ S)
    (uw_attempts w)) as H.
  assert (Hs : (size (filter (fun ka : AttemptKey * Attempt => fst ka ∈ S) (uw_attempts w)) <= length S)%nat).
  { rewrite <- size_dom. transitivity (size (list_to_set S : gset AttemptKey)).
    - apply subseteq_size. intros k. rewrite elem_of_dom, elem_of_list_to_set. intros [a Ha]. by apply map_lookup_filter_Some in Ha as [_ Ha].
    - clear. induction S as [|k S IH]; [by rewrite list_to_set_nil, size_empty|]. cbn [list_to_set length]. rewrite size_union_alt.
      pose proof (subseteq_size (list_to_set S ∖ {[k]}) (list_to_set S : gset AttemptKey)) as Hk. rewrite size_singleton. specialize (Hk ltac:(set_solver)). lia. }
  enough (size (filter (fun ka : AttemptKey * Attempt => in_window now (snd ka) = true) (uw_attempts w))
    <= size (filter (fun ka => in_window now (snd ka) = true /\ fst ka ∉ S) (uw_attempts w)) + size (filter (fun ka => fst ka ∈ S) (uw_attempts w)))%nat by lia.
  apply H. intros k a _ Hw. cbn in *. destruct (decide (k ∈ S)); [by right|by left].
Qed.

Lemma in_window_later now now' a :
  (forall t, ua_last_offered_at a = Some t -> t <= now) -> now <= now' -> in_window now' a = true -> in_window now a = true.
Proof.
  unfold in_window. destruct (ua_last_offered_at a) as [t|]; [|done]. intros Ht Hn. specialize (Ht t eq_refl).
  rewrite !andb_true_iff, !Z.ltb_lt, !Z.leb_le. lia.
Qed.

(** ** The invariant *)

Definition dated (now : Z) (w : UWorld) : Prop := forall k a t, uw_attempts w !! k = Some a -> ua_last_offered_at a = Some t -> t <= now.
Definition asks (s : Win) : list Ask := wi_looking s ++ wi_queue s ++ match wi_running s with Some (a, _) => [a] | None => [] end.
(** Every offer dated after the clock of the heartbeat was counted since it read it. *)
Definition ask_ok (tr : list (Win * WEvent)) (s : Win) (a : Ask) : Prop :=
  ak_id a < wi_next s /\ ak_now a <= wi_clock s
  /\ forall k b t, uw_attempts (wi_world s) !! k = Some b -> ua_last_offered_at b = Some t -> k ∉ stored_since (ak_id a) tr -> t <= ak_now a.

(** [s'] has at most the load of [s]: no row is counted anew, no slot opened. *)
Lemma load_le now now' s s' :
  (forall k b, uw_attempts (wi_world s') !! k = Some b -> in_window now' b = true -> exists a, uw_attempts (wi_world s) !! k = Some a /\ in_window now a = true) ->
  (forall d t, uw_reservations (wi_world s') !! d = Some t -> settling (wi_offers s') d = false ->
     is_Some (uw_reservations (wi_world s) !! d) /\ settling (wi_offers s) d = false) ->
  load now' s' <= load now s.
Proof.
  intros Ha Hr. unfold load, countRolloutOffersInWindow, open_slots.
  assert (H1 : (size (filter (fun ka : AttemptKey * Attempt => in_window now' (snd ka) = true) (uw_attempts (wi_world s')))
    <= size (filter (fun ka : AttemptKey * Attempt => in_window now (snd ka) = true) (uw_attempts (wi_world s))))%nat) by (apply size_filter_le; apply Ha).
  enough (size (filter (fun dt : Z * Z => settling (wi_offers s') (fst dt) = false) (uw_reservations (wi_world s')))
    <= size (filter (fun dt : Z * Z => settling (wi_offers s) (fst dt) = false) (uw_reservations (wi_world s))))%nat by lia.
  apply size_filter_le. intros d t Hd Hs. cbn in *. destruct (Hr d t Hd Hs) as [[u Hu] Hs']. by exists u.
Qed.

Record win_ok (tr : list (Win * WEvent)) (s : Win) : Prop := {
  wk_dated : dated (wi_clock s) (wi_world s);
  wk_offers : forall o, o ∈ wi_offers s -> of_now o <= wi_clock s;
  wk_asks : forall a, a ∈ asks s -> ask_ok tr s a;
  wk_count : forall a c, wi_running s = Some (a, Some c) -> others (wi_clock s) (stored_since (ak_id a) tr) (wi_world s) <= c;
  wk_slots : Z.of_nat (size (uw_reservations (wi_world s))) <= UPDATE_ROLLOUT_MAX_PER_WINDOW;
  wk_load : load (wi_clock s) s <= UPDATE_ROLLOUT_MAX_PER_WINDOW + excess tr
}.

(** ** What one step changes *)

(** [s'] comes after [s] by [e], in these terms only. *)
Record moves (tr : list (Win * WEvent)) (s : Win) (e : WEvent) (s' : Win) : Prop := {
  mv_clock : wi_clock s <= wi_clock s';
  mv_rows : forall k b t, uw_attempts (wi_world s') !! k = Some b -> ua_last_offered_at b = Some t ->
    (exists a, uw_attempts (wi_world s) !! k = Some a /\ ua_last_offered_at a = Some t) \/ (stored s e = Some k /\ t <= wi_clock s);
  mv_offers : forall o, o ∈ wi_offers s' -> of_now o <= wi_clock s';
  mv_asks : forall a, a ∈ asks s' ->
    (a ∈ asks s /\ wi_next s <= wi_next s')
    \/ (begins (ak_id a) s e = true /\ ak_id a < wi_next s' /\ ak_now a = wi_clock s /\ wi_world s' = wi_world s);
  mv_count : forall a c, wi_running s' = Some (a, Some c) ->
    wi_running s = Some (a, Some c) \/ (wi_running s = Some (a, None) /\ c = countRolloutOffersInWindow (ak_now a) (wi_world s));
  mv_slots : Z.of_nat (size (uw_reservations (wi_world s'))) <= UPDATE_ROLLOUT_MAX_PER_WINDOW;
  mv_load : load (wi_clock s') s' <= load (wi_clock s) s + Z.b2z (slips s e tr) \/ load (wi_clock s') s' <= UPDATE_ROLLOUT_MAX_PER_WINDOW
}.

Lemma running_asks s a c : wi_running s = Some (a, c) -> a ∈ asks s.
Proof. intros H. unfold asks. rewrite H. set_solver. Qed.

(** What was counted since an older heartbeat began only grows. *)
Lemma stored_since_old tr s e a :
  ak_id a < wi_next s -> stored_since (ak_id a) ((s, e) :: tr) = match stored s e with Some k => k :: stored_since (ak_id a) tr | None => stored_since (ak_id a) tr end.
Proof.
  intros Ha. cbn [stored_since]. replace (begins (ak_id a) s e) with false; [done|].
  destruct e; cbn; try done. symmetry. apply Z.eqb_neq. lia.
Qed.

Lemma win_ok_moves tr s e s' : win_ok tr s -> moves tr s e s' -> win_ok ((s, e) :: tr) s'.
Proof.
  intros [Hd Ho Ha Hc Hs Hl] [Mk Mr Mo Ma Mc Ms Ml].
  assert (Hold : forall a, a ∈ asks s -> stored_since (ak_id a) ((s, e) :: tr) =
    match stored s e with Some k => k :: stored_since (ak_id a) tr | None => stored_since (ak_id a) tr end).
  { intros a Hin. apply stored_since_old. by destruct (Ha a Hin). }
  assert (Hrow : forall a k b t, a ∈ asks s -> uw_attempts (wi_world s') !! k = Some b -> ua_last_offered_at b = Some t ->
    k ∉ stored_since (ak_id a) ((s, e) :: tr) -> k ∉ stored_since (ak_id a) tr /\ exists b', uw_attempts (wi_world s) !! k = Some b' /\ ua_last_offered_at b' = Some t).
  { intros a k b t Hin Hk Hb. rewrite (Hold a Hin). intros Hn. destruct (Mr k b t Hk Hb) as [Hx|[Hst _]]; [|rewrite Hst in Hn; set_solver].
    split; [|done]. destruct (stored s e); set_solver. }
  split.
  - intros k b t Hk Hb. destruct (Mr k b t Hk Hb) as [(b' & Hb' & Ht)|[_ Ht]]; [specialize (Hd k b' t Hb' Ht)|]; lia.
  - done.
  - intros a Hin. destruct (Ma a Hin) as [[Hin' Hn]|(Hb & Hi & Hnow & Hw)].
    + destruct (Ha a Hin') as (H1 & H2 & H3). split_and!; [lia..|]. intros k b t Hk Hb Hns.
      destruct (Hrow a k b t Hin' Hk Hb Hns) as [Hns' (b' & Hb' & Ht)]. by eapply H3.
    + split_and!; [done|lia|]. intros k b t Hk Hb' _. rewrite Hw in Hk. rewrite Hnow. by eapply Hd.
  - intros a c Hr. destruct (Mc a c Hr) as [Hr'|[Hr' ->]]; pose proof (running_asks _ _ _ Hr') as Hin.
    + etransitivity; [|apply (Hc a c Hr')]. unfold others. apply inj_le, size_filter_le.
      intros k b Hk [Hw Hns]. cbn in *. unfold in_window in Hw. destruct (ua_last_offered_at b) as [t|] eqn:Eb; [|done].
      destruct (Hrow a k b t Hin Hk Eb Hns) as [Hns' (b' & Hb' & Ht)]. exists b'. split; [done|]. split; [|done].
      apply (in_window_later _ (wi_clock s')); [|done|by unfold in_window; rewrite Ht]. intros t' Ht'. by eapply Hd.
    + unfold others, countRolloutOffersInWindow. apply inj_le, size_filter_le.
      intros k b Hk [Hw Hns]. cbn in *. unfold in_window in Hw. destruct (ua_last_offered_at b) as [t|] eqn:Eb; [|done].
      destruct (Hrow a k b t Hin Hk Eb Hns) as [Hns' (b' & Hb' & Ht)]. exists b'. split; [done|].
      destruct (Ha a Hin) as (_ & Hnow & H3). apply (in_window_later _ (wi_clock s')); [|lia|by unfold in_window; rewrite Ht].
      intros t' Ht'. by eapply H3.
  - done.
  - cbn [excess]. destruct Ml as [Ml|Ml].
    + destruct (Z.leb_spec (load (wi_clock s) s) UPDATE_ROLLOUT_MAX_PER_WINDOW); lia.
    + assert (0 <= excess tr); [|destruct (load _ s <=? _), (slips s e tr); cbn; lia].
      clear. induction tr as [|[s e] tr IH]; cbn [excess]; [lia|]. destruct (_ <=? _), (slips s e tr); cbn; lia.
Qed.

(** ** The operations *)

Lemma slot_begin_spec now d w :
  uw_attempts (snd (slot_begin now d w)) = uw_attempts w
  /\ forall k t, uw_reservations (snd (slot_begin now d w)) !! k = Some t -> is_Some (uw_reservations w !! k).
Proof.
  assert (Hp : forall k t, purgeReservations now (uw_reservations w) !! k = Some t -> is_Some (uw_reservations w !! k)).
  { intros k t Hk. apply map_lookup_filter_Some in Hk as [Hk _]. eauto. }
  unfold slot_begin. case_bool_decide as Hd; [|by repeat case_match]. cbn. split; [done|]. intros k t.
  destruct (decide (k = d)) as [->|Hn]; [intros _; destruct Hd; eauto|]. rewrite lookup_insert_ne by done. apply Hp.
Qed.
Lemma slot_decide_spec now c d w :
  let r := slot_decide now c d w in
  uw_attempts (snd r) = uw_attempts w
  /\ if fst r then c + Z.of_nat (size (uw_reservations w)) < UPDATE_ROLLOUT_MAX_PER_WINDOW /\ uw_reservations (snd r) = <[d := now]> (uw_reservations w)
     else uw_reservations (snd r) = uw_reservations w.
Proof.
  unfold slot_decide. destruct (rolloutWindowHasRoom _ _ _) eqn:E; cbn; [|done]. unfold rolloutWindowHasRoom in E. boolify. done.
Qed.
Lemma store_offer_spec now db d v w :
  let r := store_offer now db d v w in
  uw_reservations (snd r) = uw_reservations w
  /\ if fst r then exists a, ua_last_offered_at a = Some now /\ uw_attempts (snd r) = <[(d, v) := a]> (uw_attempts w)
     else uw_attempts (snd r) = uw_attempts w.
Proof.
  unfold store_offer, ubind, uget. destruct (_ || _); [done|]. destruct (offered_attempt _ _ _) as [a|] eqn:Ea; [|done].
  unfold umod, uret. match goal with |- context [emitAttemptPatch d None ?x] => destruct (emitAttempt_rest d None x) as (es & [->| ->]) end.
  all: cbn; split; [done|]; exists a; split; [by eapply offered_time|done].
Qed.

(** ** The offers being counted *)

Definition counts_for (d : Z) (o : Offer) : bool := (of_device o =? d) && bool_decide (of_counted o = Some true).
Lemma settling_app l l' d : settling (l ++ l') d = settling l d || settling l' d.
Proof. apply existsb_app. Qed.
Lemma settling_at l i o d : l !! i = Some o -> settling l d = counts_for d o || settling (delete i l) d.
Proof.
  intros Hi. rewrite <- (take_drop_middle l i o Hi) at 1. rewrite delete_take_drop, !settling_app. cbn.
  fold (counts_for d o). by destruct (settling (take i l) d), (counts_for d o).
Qed.
Lemma settling_insert l i o o' d : l !! i = Some o -> settling (<[i := o']> l) d = counts_for d o' || settling (delete i l) d.
Proof.
  intros Hi. rewrite (settling_at _ i o'); [|by apply list_lookup_insert_eq; eapply lookup_lt_Some]. f_equal.
  f_equal. rewrite !delete_take_drop, take_insert_ge, drop_insert_lt by lia. done.
Qed.

#[local] Arguments settling : simpl never.
#[local] Arguments store_offer : simpl never.

(** ** Every step *)

(** A step that dates no offer and opens no slot. *)
Lemma moves_calm tr s e s' :
  win_ok tr s -> wi_clock s <= wi_clock s' ->
  (forall k b t, uw_attempts (wi_world s') !! k = Some b -> ua_last_offered_at b = Some t -> exists a, uw_attempts (wi_world s) !! k = Some a /\ ua_last_offered_at a = Some t) ->
  (forall d t, uw_reservations (wi_world s') !! d = Some t -> is_Some (uw_reservations (wi_world s) !! d) /\ (settling (wi_offers s') d = false -> settling (wi_offers s) d = false)) ->
  (forall o, o ∈ wi_offers s' -> o ∈ wi_offers s \/ of_now o <= wi_clock s') ->
  (forall a, a ∈ asks s' ->
    (a ∈ asks s /\ wi_next s <= wi_next s')
    \/ (begins (ak_id a) s e = true /\ ak_id a < wi_next s' /\ ak_now a = wi_clock s /\ wi_world s' = wi_world s)) ->
  (forall a c, wi_running s' = Some (a, Some c) ->
    wi_running s = Some (a, Some c) \/ (wi_running s = Some (a, None) /\ c = countRolloutOffersInWindow (ak_now a) (wi_world s))) ->
  moves tr s e s'.
Proof.
  intros [Hd Ho _ _ Hs _] Hk Hr Hm Hof Ha Hc. split; try done.
  - intros k b t Hb Ht. left. by eapply Hr.
  - intros o Hin. destruct (Hof o Hin) as [Hin'|]; [|done]. specialize (Ho o Hin'). lia.
  - etransitivity; [|apply Hs]. rewrite <- !size_dom. apply inj_le, subseteq_size. intros d. rewrite !elem_of_dom. intros [t Ht]. by destruct (Hm d t Ht).
  - left. assert (load (wi_clock s') s' <= load (wi_clock s) s); [|destruct (slips s e tr); cbn; lia]. apply load_le.
    + intros k b Hb Hw. unfold in_window in Hw. destruct (ua_last_offered_at b) as [t|] eqn:Et; [|done].
      destruct (Hr k b t Hb Et) as (a & Hka & Hat). exists a. split; [done|].
      apply (in_window_later _ (wi_clock s')); [|done|unfold in_window; by rewrite Hat]. intros t' Ht'. by eapply Hd.
    + intros d t Hdt Hst. destruct (Hm d t Hdt) as [? Hx]. auto.
Qed.

Ltac same_rows := let k := fresh in let b := fresh in let t := fresh in intros k b t ? ?; exists b; done.

Lemma moves_tick tr s now s' : win_ok tr s -> win_apply (W_tick now) s = Some s' -> moves tr s (W_tick now) s'.
Proof.
  cbn. intros Hok H. destruct (Z.leb_spec (wi_clock s) now); simplify_eq. apply moves_calm; cbn; try done; [same_rows|by left|..].
  - intros a Ha. by left.
  - intros a c Ha. by left.
Qed.
Lemma moves_look tr s d s' : win_ok tr s -> win_apply (W_look d) s = Some s' -> moves tr s (W_look d) s'.
Proof.
  cbn. intros Hok [= <-]. apply moves_calm; cbn; try done; [same_rows|by left|..].
  - intros a Ha. unfold asks in *. cbn in Ha. rewrite <- app_assoc in Ha. rewrite !elem_of_app, list_elem_of_singleton in Ha.
    destruct Ha as [Ha|[->|Ha]]; cbn; [left; split; [set_solver|lia]|right; split_and!; [apply Z.eqb_refl|lia|done|done]|left; split; [set_solver|lia]].
  - intros a c Ha. by left.
Qed.
(** The heartbeats on their way move on, or are given up. *)
Lemma moves_asks tr s e looking queue running :
  win_ok tr s -> (forall a, a ∈ looking ++ queue ++ match running with Some (a, _) => [a] | None => [] end -> a ∈ asks s) ->
  (forall a c, running = Some (a, Some c) ->
    wi_running s = Some (a, Some c) \/ (wi_running s = Some (a, None) /\ c = countRolloutOffersInWindow (ak_now a) (wi_world s))) ->
  moves tr s e (set_asks looking queue running s).
Proof. intros Hok Ha Hc. apply moves_calm; cbn; try done; [same_rows|by left|]. intros a Hin. left. split; [by apply Ha|done]. Qed.
Lemma moves_leave tr s i s' : win_ok tr s -> win_apply (W_leave i) s = Some s' -> moves tr s (W_leave i) s'.
Proof.
  cbn. intros Hok [= <-]. apply moves_asks; [done| |by left]. intros a. unfold asks. rewrite !elem_of_app.
  intros [Ha|Ha]; [left; by eapply list_elem_of_delete_inv|by right].
Qed.
Lemma moves_join tr s i s' : win_ok tr s -> win_apply (W_join i) s = Some s' -> moves tr s (W_join i) s'.
Proof.
  cbn. intros Hok H. destruct (wi_looking s !! i) as [x|] eqn:E; cbn in H; simplify_eq. apply moves_asks; [done| |by left].
  intros a. unfold asks. rewrite !elem_of_app, list_elem_of_singleton.
  intros [Ha|[[Ha| ->]|Ha]]; [left; by eapply list_elem_of_delete_inv|by right; left|left; by eapply list_elem_of_lookup_2|by right; right].
Qed.
Lemma moves_count tr s s' : win_ok tr s -> win_apply W_count s = Some s' -> moves tr s W_count s'.
Proof.
  cbn. intros Hok H. destruct (wi_running s) as [[x [c|]]|] eqn:E; simplify_eq. apply moves_asks; [done| |].
  - intros a. unfold asks. by rewrite E.
  - intros a c [= <- <-]. by right.
Qed.
Lemma moves_fail tr s s' : win_ok tr s -> win_apply W_fail s = Some s' -> moves tr s W_fail s'.
Proof.
  cbn. intros Hok H. destruct (wi_running s) as [[x [c|]]|] eqn:E; simplify_eq. apply moves_asks; [done| |done]. intros a. unfold asks. set_solver.
Qed.
Lemma moves_drop tr s i s' : win_ok tr s -> win_apply (W_drop i) s = Some s' -> moves tr s (W_drop i) s'.
Proof. cbn. intros Hok [= <-]. apply moves_calm; cbn; try done; [same_rows|by left|by left|by left]. Qed.
Lemma moves_record tr s i v s' : win_ok tr s -> win_apply (W_record i v) s = Some s' -> moves tr s (W_record i v) s'.
Proof.
  cbn. intros Hok H. destruct (wi_frames s !! i) as [d|]; cbn in H; simplify_eq. apply moves_calm; cbn; try done; [same_rows| | |by left|by left].
  - intros k t Hk. split; [by exists t|]. rewrite settling_app. unfold settling at 2. cbn. rewrite andb_false_r. by destruct (settling (wi_offers s) k).
  - intros o. rewrite elem_of_app, list_elem_of_singleton. intros [Ho| ->]; [by left|by right].
Qed.
Lemma moves_settle tr s i s' : win_ok tr s -> win_apply (W_settle i) s = Some s' -> moves tr s (W_settle i) s'.
Proof.
  cbn. intros Hok H. destruct (wi_offers s !! i) as [o|] eqn:E; [|done]. case_bool_decide; simplify_eq.
  apply moves_calm; cbn; try done; [same_rows| | |by left|by left].
  - intros k t Hk. apply lookup_delete_Some in Hk as [Hn Hk]. split; [by exists t|]. rewrite (settling_at _ _ _ _ E). unfold counts_for.
    by replace (of_device o =? k) with false by (symmetry; by apply Z.eqb_neq).
  - intros x Hx. left. by eapply list_elem_of_delete_inv.
Qed.
Lemma moves_other tr s w : win_ok tr s -> calm (wi_world s) w -> moves tr s (W_other w) (set_world w s).
Proof.
  intros Hok [Hr Hc]. apply moves_calm; cbn; try done; [|rewrite Hr; intros k t Hk; split; [by exists t|done]|by left|by left|by left].
  intros k b t Hk Hb. destruct (Hc k b Hk) as [Hx|(a & Ha & Hx)]; [congruence|]. exists a. split; [done|congruence].
Qed.
Lemma moves_begin tr s s' : win_ok tr s -> win_apply W_begin s = Some s' -> moves tr s W_begin s'.
Proof.
  cbn. intros Hok H. destruct (wi_running s) as [|] eqn:Er; [done|]. destruct (wi_queue s) as [|a q] eqn:Eq; [done|].
  pose proof (slot_begin_spec (ak_now a) (ak_device a) (wi_world s)) as [Ha Hm].
  destruct (slot_begin (ak_now a) (ak_device a) (wi_world s)) as [start w]. cbn in Ha, Hm.
  assert (Hw : wi_world s' = w /\ wi_offers s' = wi_offers s /\ wi_clock s' = wi_clock s /\ wi_next s' = wi_next s
    /\ (forall x, x ∈ asks s' -> x ∈ asks s) /\ forall x c, wi_running s' <> Some (x, Some c)).
  { unfold asks. rewrite Er, Eq. destruct start; simplify_eq; cbn; split_and!; try done; set_solver. }
  destruct Hw as (Hw & Hof & Hk & Hn & Hx & Hc). apply moves_calm; rewrite ?Hw, ?Hof, ?Hk, ?Hn, ?Ha; try done; [same_rows| |by left| |].
  - intros k t Ht. split; [by eapply Hm|done].
  - intros x Hin. left. split; [by apply Hx|done].
  - intros x c Hr. by destruct (Hc x c).
Qed.

(** A grant that is not overtaken: what the count misses is in the reservations. *)
Lemma not_overtaken_load tr s a c :
  win_ok tr s -> wi_running s = Some (a, Some c) -> overtaken s tr a = false ->
  load (wi_clock s) s <= c + Z.of_nat (size (uw_reservations (wi_world s))).
Proof.
  intros Hok Hr. unfold overtaken. rewrite negb_false_iff, andb_true_iff, bool_decide_eq_true. intros [Hn Hf].
  rewrite forallb_forall in Hf. set (S := stored_since (ak_id a) tr) in *. set (m := uw_reservations (wi_world s)) in *.
  pose proof (wk_count _ _ Hok a c Hr) as Hc. pose proof (others_bound (wi_clock s) S (wi_world s)) as Hb.
  assert (Hl : (length (map fst S) <= size (filter (fun dt : Z * Z => settling (wi_offers s) (fst dt) = true) m))%nat).
  { apply NoDup_length_dom; [done|]. intros d Hd. apply list_elem_of_In, Hf in Hd. unfold has_slot in Hd. rewrite andb_true_iff, bool_decide_eq_true in Hd. destruct Hd as [[t Ht] Hset].
    exists t. by apply map_lookup_filter_Some. }
  rewrite length_map in Hl.
  pose proof (size_filter_parts (fun dt : Z * Z => settling (wi_offers s) (fst dt) = true) (fun dt => settling (wi_offers s) (fst dt) = false) m) as Hsz.
  specialize (Hsz ltac:(intros x Hx Hx'; congruence)). unfold load, open_slots. fold m. fold S in Hc. lia.
Qed.
Lemma moves_decide tr s s' : win_ok tr s -> win_apply W_decide s = Some s' -> moves tr s W_decide s'.
Proof.
  intros Hok H. cbn in H. destruct (wi_running s) as [[a [c|]]|] eqn:Er; [|done|done].
  pose proof (slot_decide_spec (ak_now a) c (ak_device a) (wi_world s)) as Hspec. cbv zeta in Hspec.
  destruct (slot_decide (ak_now a) c (ak_device a) (wi_world s)) as [b w] eqn:Ed. cbn [fst snd] in Hspec. destruct Hspec as [Ha Hm].
  assert (Hw : wi_world s' = w /\ wi_offers s' = wi_offers s /\ wi_clock s' = wi_clock s /\ wi_next s' = wi_next s
    /\ (forall x, x ∈ asks s' -> x ∈ asks s) /\ wi_running s' = None).
  { unfold asks. rewrite Er. destruct b; simplify_eq; cbn; split_and!; try done; set_solver. }
  destruct Hw as (Hw & Hof & Hk & Hn & Hx & Hc). destruct b.
  - destruct Hm as [Hroom Hm]. split; rewrite ?Hw, ?Hof, ?Hk, ?Hn, ?Ha, ?Hc; try done.
    + intros k b t Hb Ht. left. by exists b.
    + apply (wk_offers _ _ Hok).
    + intros x Hin. left. split; [by apply Hx|done].
    + rewrite Hm, map_size_insert. pose proof (wk_count _ _ Hok a c Er) as Hp. unfold others in Hp. destruct (_ !! _); unfold id; lia.
    + assert (Hle : load (wi_clock s) s' <= load (wi_clock s) s + 1).
      { unfold load, open_slots, countRolloutOffersInWindow. rewrite Hw, Hof, Ha, Hm.
        pose proof (size_filter_insert (fun dt : Z * Z => settling (wi_offers s) (fst dt) = false) (uw_reservations (wi_world s)) (ak_device a) (ak_now a)). lia. }
      destruct (overtaken s tr a) eqn:Eo.
      * left. unfold slips. rewrite Er, Ed, Eo. cbn. lia.
      * right. pose proof (not_overtaken_load tr s a c Hok Er Eo). lia.
  - apply moves_calm; rewrite ?Hw, ?Hof, ?Hk, ?Hn, ?Ha, ?Hm, ?Hc; try done; [same_rows|by left|].
    + intros x Hin. left. split; [by apply Hx|done].
Qed.
(** An offer answered stops its slot from being open. *)
Lemma settling_answered l i o b d :
  l !! i = Some o -> settling (<[i := answered b o]> l) d = false -> settling l d = (of_device o =? d) && bool_decide (of_counted o = Some true).
Proof. intros Hi. rewrite (settling_insert _ _ _ _ _ Hi), (settling_at _ _ _ _ Hi). intros H. apply orb_false_iff in H as [_ ->]. apply orb_false_r. Qed.
Lemma open_slots_answered s i o w :
  wi_offers s !! i = Some o -> of_counted o = None -> uw_reservations w = uw_reservations (wi_world s) ->
  let s' := set_world w (set_frames (wi_frames s) (<[i := answered true o]> (wi_offers s)) s) in
  open_slots s' + Z.b2z (has_slot s (of_device o) && negb (settling (wi_offers s) (of_device o))) <= open_slots s.
Proof.
  intros Hi Hn Hw. unfold open_slots. cbn. rewrite Hw.
  assert (Hself : settling (<[i := answered true o]> (wi_offers s)) (of_device o) = true).
  { rewrite (settling_insert _ _ _ _ _ Hi). unfold counts_for. cbn. by rewrite Z.eqb_refl. }
  assert (Hsub : forall d, settling (<[i := answered true o]> (wi_offers s)) d = false -> settling (wi_offers s) d = false).
  { intros d Hd. rewrite (settling_answered _ _ _ _ _ Hi Hd), Hn. apply andb_false_r. }
  destruct (has_slot s (of_device o) && _) eqn:E.
  - apply andb_true_iff in E as [Hs Hno]. unfold has_slot in Hs. rewrite bool_decide_eq_true in Hs. destruct Hs as [t Ht]. rewrite negb_true_iff in Hno.
    enough (size (filter (fun dt : Z * Z => settling (<[i := answered true o]> (wi_offers s)) (fst dt) = false) (uw_reservations (wi_world s))) + 1
      <= size (filter (fun dt : Z * Z => settling (wi_offers s) (fst dt) = false) (uw_reservations (wi_world s))))%nat by (cbn; lia).
    rewrite <- !size_dom, <- (size_singleton (C := gset Z) (of_device o)), <- size_union.
    + apply subseteq_size. intros d. rewrite elem_of_union, elem_of_singleton, !elem_of_dom. intros [[u Hd]| ->].
      * apply map_lookup_filter_Some in Hd as [Hd Hst]. exists u. apply map_lookup_filter_Some. auto.
      * exists t. by apply map_lookup_filter_Some.
    + intros d. rewrite elem_of_dom, elem_of_singleton. intros [u Hd] ->. apply map_lookup_filter_Some in Hd as [_ Hst]. cbn in Hst. congruence.
  - enough (size (filter (fun dt : Z * Z => settling (<[i := answered true o]> (wi_offers s)) (fst dt) = false) (uw_reservations (wi_world s)))
      <= size (filter (fun dt : Z * Z => settling (wi_offers s) (fst dt) = false) (uw_reservations (wi_world s))))%nat by (cbn; lia).
    apply size_filter_le. intros d t Hd Hst. exists t. auto.
Qed.
Lemma offers_answered s i o b x : wi_offers s !! i = Some o -> x ∈ <[i := answered b o]> (wi_offers s) -> exists y, y ∈ wi_offers s /\ of_now x = of_now y.
Proof.
  intros Hi Hx. apply list_elem_of_lookup in Hx as [j Hj]. apply list_lookup_insert_Some in Hj as [(<- & <- & _)|[_ Hj]].
  - exists o. split; [by eapply list_elem_of_lookup_2|done].
  - exists x. split; [by eapply list_elem_of_lookup_2|done].
Qed.
Lemma moves_stored tr s i db s' : win_ok tr s -> win_apply (W_store i db) s = Some s' -> moves tr s (W_store i db) s'.
Proof.
  intros Hok H. cbn in H. destruct (wi_offers s !! i) as [o|] eqn:Ei; [|done]. case_bool_decide as Hn; [|done].
  pose proof (store_offer_spec (of_now o) db (of_device o) (of_version o) (wi_world s)) as Hspec. cbv zeta in Hspec.
  assert (Hst : stored s (W_store i db) = if fst (store_offer (of_now o) db (of_device o) (of_version o) (wi_world s)) then Some (of_device o, of_version o) else None).
  { cbn. rewrite Ei. cbn. by rewrite (bool_decide_true (of_counted o = None) Hn). }
  destruct (store_offer (of_now o) db (of_device o) (of_version o) (wi_world s)) as [b w] eqn:Eo. cbn [fst snd] in Hspec, Hst. destruct Hspec as [Hr Ha].
  simplify_eq. destruct b.
  - destruct Ha as (a & Hat & Ha). split; cbn [set_world set_frames wi_world wi_clock wi_next wi_offers]; try done.
    + rewrite Ha. intros k b t Hk Hb. destruct (decide (k = (of_device o, of_version o))) as [->|Hne].
      * right. rewrite lookup_insert_eq in Hk. simplify_eq. split; [done|]. apply (wk_offers _ _ Hok). by eapply list_elem_of_lookup_2.
      * rewrite lookup_insert_ne in Hk by done. left. by exists b.
    + intros x Hx. destruct (offers_answered _ _ _ _ _ Ei Hx) as (y & Hy & ->). by apply (wk_offers _ _ Hok).
    + intros x Hx. by left.
    + intros x c Hx. by left.
    + rewrite Hr. apply (wk_slots _ _ Hok).
    + left. pose proof (open_slots_answered s i o w Ei Hn Hr) as Hop. cbv zeta in Hop.
      unfold slips. rewrite Hst. cbn [fst]. unfold load. cbn [set_world set_frames wi_world]. unfold countRolloutOffersInWindow. rewrite Ha.
      pose proof (size_filter_insert (fun ka : AttemptKey * Attempt => in_window (wi_clock s) (snd ka) = true) (uw_attempts (wi_world s)) (of_device o, of_version o) a).
      destruct (has_slot s (of_device o) && _); cbn in *; lia.
  - apply moves_calm; cbn [set_world set_frames wi_world wi_clock wi_next wi_offers]; rewrite ?Ha, ?Hr; try done; [same_rows| | |by left|by left].
    + intros k t Hk. split; [by exists t|]. intros Hs. rewrite (settling_answered _ _ _ _ _ Ei Hs), Hn. apply andb_false_r.
    + intros x Hx. destruct (offers_answered _ _ _ _ _ Ei Hx) as (y & Hy & ->). right. by apply (wk_offers _ _ Hok).
Qed.

Lemma started_ok s : started s -> win_ok [] s.
Proof.
  intros [Hs (H1 & H2 & H3) [_ Ho] Hd Hf]. split; try done.
  - rewrite Ho. set_solver.
  - unfold asks. rewrite H1, H2, H3. set_solver.
  - by rewrite H3.
  - rewrite Hs. by rewrite map_size_empty.
  - unfold load, open_slots. rewrite Hs, map_filter_empty, map_size_empty. cbn [excess]. lia.
Qed.
Lemma win_run_ok tr s : win_run tr s -> win_ok tr s.
Proof.
  induction 1 as [s Hs|tr s e s' Hr IH Hstep]; [by apply started_ok|]. apply (win_ok_moves tr s e s' IH). destruct Hstep as [s e s' H|s w H].
  - destruct e; eauto using moves_tick, moves_look, moves_leave, moves_join, moves_begin, moves_count, moves_fail, moves_decide, moves_drop, moves_record,
      moves_stored, moves_settle. done.
  - by apply moves_other.
Qed.

Lemma load_later tr s now : win_run tr s -> wi_clock s <= now -> load now s <= load (wi_clock s) s.
Proof.
  intros Hr Hn. apply load_le; [|intros d t Hd; split; [by exists t|done]]. intros k b Hb Hw. exists b. split; [done|].
  apply (in_window_later _ now); [|done|done]. intros t Ht. by eapply (wk_dated _ _ (win_run_ok _ _ Hr)).
Qed.

(** No step of the run slipped. *)
Fixpoint slip_free (tr : list (Win * WEvent)) : bool :=
  match tr with [] => true | (s, e) :: tr' => negb (slips s e tr') && slip_free tr' end.
Lemma slip_free_excess tr : slip_free tr = true -> excess tr = 0.
Proof.
  induction tr as [|[s e] tr IH]; [done|]. cbn [slip_free excess]. rewrite andb_true_iff, negb_true_iff. intros [-> Hs]. cbn.
  rewrite (IH Hs). by case_match.
Qed.


(** ** Runs *)

Fixpoint win_exec (l : list WEvent) (tr : list (Win * WEvent)) (s : Win) : option (list (Win * WEvent) * Win) :=
  match l with [] => Some (tr, s) | e :: l' => s' ← win_apply e s; win_exec l' ((s, e) :: tr) s' end.
Lemma win_exec_run l tr s tr' s' : win_run tr s -> win_exec l tr s = Some (tr', s') -> win_run tr' s'.
Proof.
  revert tr s. induction l as [|e l IH]; intros tr s Hr; cbn; [by intros [= <- <-]|].
  destruct (win_apply e s) as [s1|] eqn:E; [|done]. apply IH. eapply wr_step; [exact Hr|by apply ws_apply].
Qed.

Lemma win_exec_ends {A} (f : Win -> A) l s x : started s -> f ∘ snd <$> win_exec l [] s = Some x -> exists tr s', win_run tr s' /\ f s' = x.
Proof.
  intros Hs. destruct (win_exec l [] s) as [[tr s']|] eqn:E; [|done]. intros [= <-]. exists tr, s'. split; [|done].
  by apply (win_exec_run l [] s); [apply wr_start|].
Qed.

(** [n] approved agents of an automatic tenant, at time 0. *)
Definition fleet (n : nat) : Win := {|
  wi_world := Nat.iter n (enrol sample_agent) sample_update_world; wi_clock := 0; wi_next := 0; wi_looking := []; wi_queue := []; wi_running := None;
  wi_frames := []; wi_offers := [] |}.
Lemma fleet_started n : started (fleet n).
Proof.
  assert (Hf : uw_reservations (wi_world (fleet n)) = ∅ /\ uw_attempts (wi_world (fleet n)) = ∅) by (induction n as [|n IH]; [done|exact IH]).
  destruct Hf as [Hr Ha]. split; try done.
  - intros k a t. by rewrite Ha.
  - unfold countRolloutOffersInWindow. by rewrite Ha, map_filter_empty, map_size_empty.
Qed.
(** The next in the queue is granted a slot, its frame written and counted, its slot released. *)
Definition served_slot : list WEvent := [W_begin; W_count; W_decide; W_record 0 "1.1.0"; W_store 0 true; W_settle 0].
(** One heartbeat after the other, a millisecond apart. *)
Definition in_turn (n : nat) : list WEvent := concat (map (fun i => [W_tick (Z.of_nat i); W_look (Z.of_nat i); W_join 0] ++ served_slot) (seq 1 n)).
(** The heartbeats look at once, at time 0, and are served from time 1 on. *)
Definition at_once (n : nat) : list WEvent :=
  map (fun i => W_look (Z.of_nat i)) (seq 1 n) ++ replicate n (W_join 0) ++ [W_tick 1] ++ concat (replicate n served_slot).
Definition offers_after (l : list WEvent) (n : nat) : option Z :=
  r ← win_exec l [] (fleet n); Some (countRolloutOffersInWindow (wi_clock (snd r)) (wi_world (snd r))).

(** Served in turn, a 26th heartbeat is refused its slot. *)
Example in_turn_capped : offers_after (in_turn 25) 26 = Some 25 /\ offers_after (in_turn 25 ++ [W_look 26; W_join 0; W_begin; W_count; W_decide; W_record 0 "1.1.0"]) 26 = None.
Proof. by vm_compute. Qed.
(** 26 heartbeats that look at their version at once are all offered it within the minute: each
    counts the window that ended when it looked, and finds the slots of the others released. *)
Lemma burst_exceeds_cap : exists tr s, win_run tr s /\ wi_clock s = 1 /\ countRolloutOffersInWindow 1 (wi_world s) = 26.
Proof.
  destruct (win_exec_ends (fun s => (wi_clock s, countRolloutOffersInWindow 1 (wi_world s))) (at_once 26) (fleet 26) (1, 26)) as (tr & s & Hr & E).
  - apply fleet_started.
  - by vm_compute.
  - exists tr, s. injection E as Hc Hn. by split_and!.
Qed.

