(* ===== verification/UpdateLifecycle.v ===== *)
(** * Life of the update attempts

    The shape every attempt keeps (the columns and the phase check of migration 031, and what
    a phase says of the other columns), the spacing of the offers, and the end of the offer
    loop of an agent that never gets to the version. *)

From S2P Require Import Prelude JsString JsValue JsNumber Tenancy Access AgentUpdate UpdateStore UpdateOps UpdateRollout UpdateSteps UpdatePacing.

Definition TERMINAL_UPDATE_PHASES : list AgentUpdatePhase := [Succeeded; Failed; Cancelled].

(** A row of [agent_update_attempts] at time [now]. *)
Record attempt_ok (now : Z) (v : string) (a : Attempt) : Prop := {
  ao_version : version_ok v;
  ao_count : 0 <= ua_offered_count a <= UPDATE_REQUEST_MAX_OFFERS;
  ao_finished : is_Some (ua_finished_at a) <-> ua_phase a ∈ TERMINAL_UPDATE_PHASES;
  ao_error : error_ok (ua_last_error a);
  ao_failed : is_Some (ua_last_error a) -> ua_phase a = Failed;
  ao_offered : 1 <= ua_offered_count a -> is_Some (ua_last_offered_at a);
  ao_times : match ua_last_offered_at a with Some t => t <= ua_updated_at a | None => True end /\ ua_updated_at a <= now
}.

Record world_ok (now : Z) (w : UWorld) : Prop := {
  wk_attempts : forall k a, uw_attempts w !! k = Some a -> attempt_ok now (snd k) a;
  wk_device : forall k a, uw_attempts w !! k = Some a -> is_Some (uw_devices w !! fst k);
  wk_ids : forall d, is_Some (uw_devices w !! d) -> d < uw_next_device w
}.

Lemma attempt_ok_later now now' v a : now <= now' -> attempt_ok now v a -> attempt_ok now' v a.
Proof. intros Hn []. split; try done. destruct ao_times0. split; [done|lia]. Qed.

Lemma world_ok_later now now' w : now <= now' -> world_ok now w -> world_ok now' w.
Proof. intros Hn []. split; try done. intros k a H. eapply attempt_ok_later; eauto. Qed.

Definition offered_past (now : Z) (a : Attempt) : Prop := match ua_last_offered_at a with Some t => t <= now | None => True end.

Lemma attempt_past now v a : attempt_ok now v a -> offered_past now a.
Proof. intros []. unfold offered_past. destruct ao_times0 as [H1 H2]. destruct (ua_last_offered_at a); [lia|done]. Qed.

Lemma close_ok now v a ph err :
  ph ∈ TERMINAL_UPDATE_PHASES -> error_ok err -> (is_Some err -> ph = Failed) -> attempt_ok now v a ->
  attempt_ok now v (close_attempt ph err now a).
Proof.
  intros Hp He Hf Ha. pose proof (attempt_past _ _ _ Ha) as Ht. destruct Ha. by split.
Qed.

(** What [report_attempt] keeps of the row. *)
Lemma report_ok now v a ph err :
  ph ∈ AGENT_REPORTED_UPDATE_PHASES -> error_ok err -> (ph <> Failed -> err = None) ->
  version_ok v -> 0 <= ua_offered_count a <= UPDATE_REQUEST_MAX_OFFERS ->
  (1 <= ua_offered_count a -> is_Some (ua_last_offered_at a)) -> offered_past now a ->
  attempt_ok now v (report_attempt ph err now a).
Proof.
  intros Hp He Hf Hv Hc Ho Ht. split; cbn; try done.
  - destruct (decide (ph = Failed)) as [->|Hn]; [rewrite bool_decide_true by done|rewrite bool_decide_false by done].
    + split; [intros _; unfold TERMINAL_UPDATE_PHASES; set_solver|eauto].
    + split; [by intros [? ?]|]. intros Hx. unfold TERMINAL_UPDATE_PHASES, AGENT_REPORTED_UPDATE_PHASES in *. set_solver.
  - intros [x ->]. destruct (decide (ph = Failed)) as [|Hn]; [done|]. by specialize (Hf Hn).
Qed.

Lemma report_same_ok now v a ph err :
  ph ∈ AGENT_REPORTED_UPDATE_PHASES -> error_ok err -> (ph <> Failed -> err = None) -> attempt_ok now v a ->
  attempt_ok now v (report_attempt ph err now a).
Proof. intros ? ? ? Ha. pose proof (attempt_past _ _ _ Ha). destruct Ha. by apply report_ok. Qed.

Lemma reopen_ok now v a : attempt_ok now v a -> attempt_ok now v (reopen_attempt now a).
Proof.
  intros Ha. pose proof (attempt_past _ _ _ Ha) as Ht. destruct Ha. split; cbn; try done.
  - split; [by intros [? ?]|]. unfold TERMINAL_UPDATE_PHASES. set_solver.
Qed.

Lemma open_error now v a : attempt_ok now v a -> is_open (ua_phase a) = true -> ua_last_error a = None.
Proof.
  intros [] Ho. destruct (ua_last_error a); [|done]. rewrite ao_failed0 in Ho by eauto. done.
Qed.

Lemma upd_ok now p f w :
  (forall k a, p k a = true -> attempt_ok now (snd k) a -> attempt_ok now (snd k) (f a)) -> world_ok now w -> world_ok now (upd p f w).
Proof.
  intros Hf []. split; [| |done].
  - intros k a' H. apply lookup_upd in H as (a & Ha & ->). specialize (wk_attempts0 k a Ha). destruct (p k a) eqn:E; [by apply Hf|done].
  - intros k a' H. apply lookup_upd in H as (a & Ha & _). by eapply wk_device0.
Qed.

Lemma world_ok_same now w w' :
  uw_attempts w' = uw_attempts w -> dom (uw_devices w') = dom (uw_devices w) -> uw_next_device w' = uw_next_device w ->
  world_ok now w -> world_ok now w'.
Proof.
  intros Ha Hd Hn []. split.
  - intros k a. rewrite Ha. apply wk_attempts0.
  - intros k a. rewrite Ha. intros H. apply elem_of_dom. rewrite Hd. apply elem_of_dom. eauto.
  - intros d H. rewrite Hn. apply wk_ids0. apply elem_of_dom. rewrite <- Hd. by apply elem_of_dom.
Qed.

Lemma reserve_rest en d w :
  uw_attempts (snd (reserveRolloutSlot en d w)) = uw_attempts w /\ uw_devices (snd (reserveRolloutSlot en d w)) = uw_devices w
  /\ uw_next_device (snd (reserveRolloutSlot en d w)) = uw_next_device w /\ uw_tenants (snd (reserveRolloutSlot en d w)) = uw_tenants w
  /\ uw_chains (snd (reserveRolloutSlot en d w)) = uw_chains w /\ uw_tenantPolicies (snd (reserveRolloutSlot en d w)) = uw_tenantPolicies w.
Proof. unfold reserveRolloutSlot, slot_begin, slot_decide, ubind, uget, uret. by repeat case_match; simplify_eq. Qed.

Lemma stmt_ok en au w w' : stmt en au w w' -> world_ok (ue_now en) w -> world_ok (ue_now en) w'.
Proof.
  destruct 1; intros Hw.
  - by eapply world_ok_same.
  - destruct (chains_rest en w) as (? & _ & Hd & ? & _). eapply world_ok_same; [done|by rewrite Hd|done|done].
  - destruct (tenantPolicies_rest en w) as (? & _ & Hd & ? & _). eapply world_ok_same; [done|by rewrite Hd|done|done].
  - apply upd_ok; [|done]. intros k a _. apply close_ok; [set_solver|done|done].
  - apply upd_ok; [|done]. intros k a _. apply close_ok; [set_solver|done|by intros [? ?]].
  - apply upd_ok; [|done]. intros k a Hp Ha. assert (He : ua_last_error a = None) by (eapply open_error; eauto).
    unfold cancel_attempt. rewrite He. apply close_ok; [set_solver|done|by intros [? ?]|done].
  - apply upd_ok; [|done]. intros k a _. apply reopen_ok.
  - apply upd_ok; [|done]. intros k a _. apply report_same_ok; [set_solver|done|done].
  - destruct Hw. split; [| |done].
    + intros k a'. cbn. destruct (decide (k = (d, v))) as [->|Hn]; [|rewrite lookup_insert_ne by done; apply wk_attempts0].
      rewrite lookup_insert_eq. intros [= <-]. cbn. destruct (uw_attempts w !! (d, v)) as [a|] eqn:E.
      * destruct H5 as [-> _]. apply report_same_ok; try done. by apply (wk_attempts0 (d, v)).
      * destruct H5 as [H5 H6]. apply report_ok; try done; rewrite ?H5; unfold offered_past, UPDATE_REQUEST_MAX_OFFERS; rewrite ?H6; lia.
    + intros k a'. cbn. destruct (decide (k = (d, v))) as [->|Hn]; [done|rewrite lookup_insert_ne by done; apply wk_device0].
  - destruct (reserve_rest en d w) as (? & Hd & ? & _). eapply world_ok_same; [done|by rewrite Hd|done|done].
  - destruct Hw. split; cbn.
    + intros k a Hk. apply map_lookup_filter_Some in Hk as [Hk _]. by apply wk_attempts0.
    + intros k a Hk. apply map_lookup_filter_Some in Hk as [Hk Hn]. cbn in Hn. rewrite lookup_delete_ne by done. by eapply wk_device0.
    + intros d' [r Hr]. apply lookup_delete_Some in Hr as [_ Hr]. apply wk_ids0. eauto.
  - by apply (world_ok_same _ w).
Qed.

Lemma stmts_ok en au w w' : rtc (stmt en au) w w' -> world_ok (ue_now en) w -> world_ok (ue_now en) w'.
Proof. induction 1; [done|]. intros Hw. apply IHrtc. by eapply stmt_ok. Qed.

Lemma offered_ok now id v old a :
  version_ok v -> (forall b, old = Some b -> attempt_ok now v b) -> offered_attempt now id old = Some a -> attempt_ok now v a.
Proof.
  intros Hv Ho. unfold offered_attempt. destruct old as [b|].
  - destruct (_ && _) eqn:E; [|done]. intros [= <-]. boolify. destruct (Ho b eq_refl). split; cbn; try done.
    + destruct (is_fresh (ua_phase b)) eqn:Ef; [unfold UPDATE_REQUEST_MAX_OFFERS; lia|]. cbn in H0. boolify. lia.
    + split; [by intros [? ?]|]. unfold TERMINAL_UPDATE_PHASES. set_solver.
  - intros [= <-]. split; cbn; try done. split; [by intros [? ?]|]. unfold TERMINAL_UPDATE_PHASES. set_solver.
Qed.

(** ** The log of the offers *)

(** Every offer counted is that of an existing device's row, dated no later than its last
    offer, or of a device deleted since. *)
Definition logged (now : Z) (w : UWorld) (e : Z * string * Z) : Prop :=
  let '(d, v, t) := e in
  d < uw_next_device w /\ t <= now
  /\ (is_Some (uw_devices w !! d) -> exists a t', uw_attempts w !! (d, v) = Some a /\ ua_last_offered_at a = Some t' /\ t <= t').

(** Statements keep the rows of the devices that stay, with the time of their last offer. *)
Definition keeps_rows (w w' : UWorld) : Prop :=
  uw_next_device w' = uw_next_device w
  /\ (forall d, is_Some (uw_devices w' !! d) -> is_Some (uw_devices w !! d))
  /\ forall k a, uw_attempts w !! k = Some a -> is_Some (uw_devices w' !! fst k) ->
       exists a', uw_attempts w' !! k = Some a' /\ ua_last_offered_at a' = ua_last_offered_at a.

Lemma keeps_rows_upd p f w : (forall a, ua_last_offered_at (f a) = ua_last_offered_at a) -> keeps_rows w (upd p f w).
Proof.
  intros Hf. split_and!; [done|done|]. intros k a Hk _. exists (if p k a then f a else a). split; [apply lookup_upd; eauto|].
  by destruct (p k a).
Qed.

Lemma keeps_rows_same w w' :
  uw_attempts w' = uw_attempts w -> dom (uw_devices w') = dom (uw_devices w) -> uw_next_device w' = uw_next_device w -> keeps_rows w w'.
Proof.
  intros Ha Hd Hn. split_and!; [done| |].
  - intros d H. apply elem_of_dom. rewrite <- Hd. by apply elem_of_dom.
  - intros k a Hk _. exists a. by rewrite Ha.
Qed.

Lemma stmt_keeps_rows en au w w' : stmt en au w w' -> keeps_rows w w'.
Proof.
  destruct 1; try by apply keeps_rows_upd.
  - by apply keeps_rows_same.
  - destruct (chains_rest en w) as (? & _ & Hd & ? & _). apply keeps_rows_same; [done|by rewrite Hd|done].
  - destruct (tenantPolicies_rest en w) as (? & _ & Hd & ? & _). apply keeps_rows_same; [done|by rewrite Hd|done].
  - split_and!; [done|done|]. intros k a Hk _. cbn. destruct (decide (k = (d, v))) as [->|Hn].
    + rewrite lookup_insert_eq. eexists. split; [reflexivity|]. cbn. rewrite Hk in H5. by destruct H5 as [-> _].
    + rewrite lookup_insert_ne by done. eauto.
  - destruct (reserve_rest en d w) as (? & Hd & ? & _). apply keeps_rows_same; [done|by rewrite Hd|done].
  - split_and!; [done| |].
    + intros d' [r Hr]. cbn in Hr. apply lookup_delete_Some in Hr as [_ Hr]. eauto.
    + intros k a Hk [r Hr]. cbn in *. apply lookup_delete_Some in Hr as [Hn _]. exists a. split; [|done]. apply map_lookup_filter_Some. split; [done|]. cbn. congruence.
  - by apply keeps_rows_same.
Qed.

Lemma keeps_rows_logged now now' w w' e : now <= now' -> keeps_rows w w' -> logged now w e -> logged now' w' e.
Proof.
  destruct e as [[d v] t]. intros Hle (Hn & Hd & Ha) (H1 & H2 & H3). split_and!; [by rewrite Hn|lia|].
  intros Hs. destruct (H3 (Hd d Hs)) as (a & t' & Hk & Hl & Ht). destruct (Ha _ _ Hk Hs) as (a' & Hk' & Hl').
  exists a', t'. by rewrite Hl'.
Qed.

Lemma stmts_logged en au now w w' e : now <= ue_now en -> rtc (stmt en au) w w' -> logged now w e -> logged (ue_now en) w' e.
Proof.
  intros Hle H. revert now Hle. induction H as [w|w1 w2 w3 H _ IH]; intros now Hle He.
  - eapply keeps_rows_logged; [exact Hle| |exact He]. by apply keeps_rows_same.
  - apply (IH (ue_now en)); [lia|]. eapply keeps_rows_logged; [exact Hle|by eapply stmt_keeps_rows|exact He].
Qed.

(** Two offers of the same version to the same device are more than ten minutes apart. *)
Definition apart (e1 e2 : Z * string * Z) : Prop :=
  let '(d1, v1, t1) := e1 in let '(d2, v2, t2) := e2 in d1 = d2 -> v1 = v2 -> t1 + UPDATE_OFFER_MIN_INTERVAL_MS < t2.

Lemma pairs_snoc {A} (R : A -> A -> Prop) l x : ForallOrdPairs R l -> Forall (fun y => R y x) l -> ForallOrdPairs R (l ++ [x]).
Proof.
  induction 1 as [|y l Hy Hl IH]; intros Hx; cbn; [by repeat constructor|]. apply Forall_cons in Hx as [Hyx Hx].
  constructor; [|by apply IH]. apply List.Forall_app. split; [done|by constructor].
Qed.

Lemma offered_spacing now id old a :
  offered_attempt now id old = Some a ->
  match old with Some b => match ua_last_offered_at b with Some t => t + UPDATE_OFFER_MIN_INTERVAL_MS < now | None => True end | None => True end.
Proof.
  unfold offered_attempt. destruct old as [b|]; [|done]. destruct (_ && _) eqn:E; [|done]. intros _. boolify.
  destruct (ua_last_offered_at b); [|done]. boolify. lia.
Qed.

(** ** The invariant *)

Record orderly (s : Sys) : Prop := {
  od_world : world_ok (s_clock s) (s_world s);
  od_frames : forall d v at_, s_frames s !! d = Some (v, at_) -> version_ok v;
  od_log : Forall (logged (s_clock s) (s_world s)) (s_log s);
  od_apart : ForallOrdPairs apart (s_log s)
}.

Lemma record_logged en d v w now e :
  now <= ue_now en -> logged now w e -> logged (ue_now en) (snd (recordUpdateOffer en d v w)) e.
Proof.
  destruct e as [[d' v'] t]. intros Hle (H1 & H2 & H3). destruct (record_spec en d v w) as (_ & Hd & Hn & Ha).
  split_and!; [by rewrite Hn|lia|]. rewrite Hd. intros Hs. destruct (H3 Hs) as (a & t' & Hk & Hl & Ht).
  destruct (fst _); [|rewrite Ha; eauto]. destruct Ha as (_ & b & Hb & ->). destruct (decide ((d', v') = (d, v))) as [He|Hne].
  - rewrite He, lookup_insert_eq. exists b, (ue_now en). split_and!; [done|by eapply offered_time|lia].
  - rewrite lookup_insert_ne by congruence. eauto.
Qed.

Lemma record_ok en d v w :
  version_ok v -> world_ok (ue_now en) w -> world_ok (ue_now en) (snd (recordUpdateOffer en d v w)).
Proof.
  intros Hv Hw. destruct (record_spec en d v w) as (_ & Hd & Hn & Ha).
  destruct (fst _); [|by eapply world_ok_same; [exact Ha|by rewrite Hd|exact Hn|]].
  destruct Ha as (Hex & a & Hoff & Ha). destruct Hw. split.
  - intros k b. rewrite Ha. destruct (decide (k = (d, v))) as [->|Hne]; [|rewrite lookup_insert_ne by done; apply wk_attempts0].
    rewrite lookup_insert_eq. intros [= <-]. eapply offered_ok; [done| |exact Hoff]. intros b Hb. apply (wk_attempts0 (d, v) b Hb).
  - intros k b. rewrite Ha, Hd. destruct (decide (k = (d, v))) as [->|Hne]; [done|rewrite lookup_insert_ne by done; apply wk_device0].
  - rewrite Hd, Hn. exact wk_ids0.
Qed.

Lemma resolve_served en v r w s w' : resolveAdvertisedVersion en v r w = (Some s, w') -> ue_served en = Some s.
Proof.
  unfold resolveAdvertisedVersion. destruct (ue_served en) as [served|]; [|done].
  assert (Hslot : forall w0, withRolloutSlot en (av_id v) served w0 = (Some s, w') -> Some served = Some s).
  { intros w0. unfold withRolloutSlot, ubind. destruct (reserveRolloutSlot en (av_id v) w0) as [[[]|] w1]; try done. by intros [= <- _]. }
  destruct (negb (shouldAdvertiseUpdate _ _ _ _ _ _)); [done|]. destruct (negb (buildMatchesServed _ _ _)); [done|].
  destruct (negb (ue_db en)); [done|]. unfold ubind at 1, uget at 1.
  destruct (uw_attempts w !! (av_id v, served)) as [a|]; [|apply Hslot].
  destruct (match ua_last_offered_at a with Some t => _ | None => _ end); [done|]. destruct (in_progress _ && _); [done|].
  destruct (is_fresh _ || _); [apply Hslot|]. unfold ubind, uwhen, uret. repeat case_match; intros; simplify_eq.
Qed.

Lemma heartbeat_served en d r os c w s w' : heartbeat en d r os c w = (Some s, w') -> ue_served en = Some s.
Proof.
  intros H. apply heartbeat_granted in H as (row & v & w2 & H). cbv zeta in H.
  destruct (getGroupUpdatePolicyChains en _) as [chains wc], (getTenantUpdatePolicies en wc) as [tenants wt].
  destruct H as (_ & _ & _ & H). by eapply resolve_served.
Qed.

Lemma orderly_initial s : initial s -> orderly s.
Proof.
  intros (Hd & Ha & Hr & Hf & Hl). split.
  - split; [intros k a|intros k a|intros d]; rewrite ?Ha, ?Hd; try done. by intros [? ?].
  - intros d v at_. by rewrite Hf.
  - rewrite Hl. constructor.
  - rewrite Hl. constructor.
Qed.

Lemma log_later en au c w w' l :
  c <= ue_now en -> rtc (stmt en au) w w' -> Forall (logged c w) l -> Forall (logged (ue_now en) w') l.
Proof. intros Hc H Hl. eapply Forall_impl; [exact Hl|]. intros e. by apply stmts_logged with (now := c) (au := au). Qed.

Lemma orderly_step ok s s' : sys_step ok s s' -> orderly s -> orderly s'.
Proof.
  intros H [Hw Hf Hl Ha]. destruct H as [en q w c fr l Hc Hs Hq Ho|en d r os conn g w w' c fr l Hc Hs Hfr Ho E|en d v at_ cnt w w' c fr l Hc Hfr Hlt E|d w c fr l|row w c fr l];
    cbn [s_world s_clock s_frames s_log] in *.
  - pose proof (serve_stmts en q w Hs) as Hst. split; cbn [s_world s_clock s_frames s_log]; [|done| |done].
    + eapply stmts_ok; [exact Hst|by eapply world_ok_later].
    + by eapply log_later.
  - pose proof (keeps_heartbeat en d r os conn w) as Hst. rewrite E in Hst. cbn [snd] in Hst.
    split; cbn [s_world s_clock s_frames s_log]; [| | |done].
    + eapply stmts_ok; [exact Hst|by eapply world_ok_later].
    + destruct g as [v0|]; [|done]. intros d' v at_. destruct (decide (d = d')) as [<-|Hn]; [|rewrite lookup_insert_ne by done; apply Hf].
      rewrite lookup_insert_eq. intros [= <- <-]. apply heartbeat_served in E. pose proof (served_version_ok en Hs) as Hv. by rewrite E in Hv.
    + by eapply log_later.
  - apply (world_ok_later _ _ _ Hc) in Hw. pose proof (record_ok en d v w (Hf d v at_ Hfr) Hw) as Hw'. rewrite E in Hw'.
    assert (Hl' : Forall (logged (ue_now en) w') l).
    { eapply Forall_impl; [exact Hl|]. intros e He. pose proof (record_logged en d v w c e Hc He) as Hr. by rewrite E in Hr. }
    split; cbn [s_world s_clock s_frames s_log]; [done| | |].
    + intros d' v' at' H. apply lookup_delete_Some in H as [_ H]. by eapply Hf.
    + destruct cnt; [|done]. apply Forall_app. split; [done|]. apply Forall_singleton.
      destruct (record_spec en d v w) as (_ & Hd & Hn & Hr). rewrite E in Hd, Hn, Hr. cbn [fst snd] in *. destruct Hr as (Hex & a & Hoff & Hk).
      split_and!; [rewrite Hn; by apply (wk_ids _ _ Hw)|lia|]. intros _. exists a, (ue_now en). rewrite Hk, lookup_insert_eq.
      split_and!; [done|by eapply offered_time|lia].
    + destruct cnt; [|done]. apply pairs_snoc; [done|].
      destruct (record_spec en d v w) as (_ & _ & _ & Hr). rewrite E in Hr. cbn [fst snd] in Hr. destruct Hr as (Hex & a & Hoff & _).
      apply offered_spacing in Hoff. eapply Forall_impl; [exact Hl|]. intros [[d1 v1] t1] (_ & _ & He) -> ->.
      destruct (He Hex) as (b & t' & Hb & Hb' & Ht). rewrite Hb, Hb' in Hoff. lia.
  - split; [done| |done|done]. intros d' v' at' H. cbn in H. apply lookup_delete_Some in H as [_ H]. by eapply Hf.
  - destruct Hw. split; [split| | |]; cbn [s_world s_clock s_frames s_log]; try done.
    + intros k a Hk. cbn in *. destruct (wk_device0 k a Hk) as [r Hr]. destruct (decide (uw_next_device w = fst k)) as [<-|Hn]; [rewrite lookup_insert_eq; eauto|].
      rewrite lookup_insert_ne by done. eauto.
    + intros d. cbn. destruct (decide (uw_next_device w = d)) as [<-|Hn]; [lia|]. rewrite lookup_insert_ne by done. intros Hd. specialize (wk_ids0 d Hd). lia.
    + eapply Forall_impl; [exact Hl|]. intros [[d v] t] (H1 & H2 & H3). split_and!; cbn; [lia|done|]. rewrite lookup_insert_ne by lia. exact H3.
Qed.

Lemma orderly_reachable s : reachable s -> orderly s.
Proof.
  intros (s0 & H0 & H). apply orderly_initial in H0. induction H as [|x y z Hxy Hyz IH]; [done|]. apply IH. by eapply orderly_step.
Qed.

(** C40. Every update attempt is well formed in every reachable state: its device exists, its
    target fits the column, its offers are between 0 and 3 and dated once there is one, it is
    finished exactly in the phases 'succeeded', 'failed' and 'cancelled', and only a failed
    attempt carries an error, of at most 500 characters. *)
Theorem attempts_well_formed s k a :
  reachable s -> uw_attempts (s_world s) !! k = Some a ->
  attempt_ok (s_clock s) (snd k) a /\ is_Some (uw_devices (s_world s) !! fst k).
Proof. intros H Hk. apply orderly_reachable in H as [[] _ _ _]. eauto. Qed.

(** The times at which version [v] was offered to device [d], in order. *)
Definition offer_times (d : Z) (v : string) (log : list (Z * string * Z)) : list Z :=
  omap (fun '(d', v', t) => if bool_decide ((d', v') = (d, v)) then Some t else None) log.

Lemma pairs_nth {A} (R : A -> A -> Prop) l1 x l2 y l3 : ForallOrdPairs R (l1 ++ x :: l2 ++ y :: l3) -> R x y.
Proof.
  induction l1 as [|z l1 IH]; cbn; intros H; inversion H as [|? ? Hx Hr]; subst; [|by apply IH].
  rewrite List.Forall_forall in Hx. apply Hx, in_or_app. right. by left.
Qed.

Lemma spaced_times d v log : ForallOrdPairs apart log -> ForallOrdPairs (fun t1 t2 => t1 + UPDATE_OFFER_MIN_INTERVAL_MS < t2) (offer_times d v log).
Proof.
  induction 1 as [|[[d1 v1] t1] log Hx _ IH]; cbn; [constructor|]. case_bool_decide as E; [|exact IH]. constructor; [|exact IH].
  apply List.Forall_forall. intros t Ht. apply list_elem_of_In, list_elem_of_omap in Ht as ([[d2 v2] t2] & Hin & Ht).
  case_bool_decide as E2; [|done]. injection Ht as <-. rewrite List.Forall_forall in Hx.
  apply list_elem_of_In in Hin. specialize (Hx _ Hin). simplify_eq. by apply Hx.
Qed.

(** Whatever administrators click and agents report, two offers of a version to an agent
    are more than ten minutes apart: no download loop is faster than that. *)
Theorem offers_spaced s l1 l2 l3 d v t1 t2 :
  reachable s -> offer_times d v (s_log s) = l1 ++ t1 :: l2 ++ t2 :: l3 -> t1 + UPDATE_OFFER_MIN_INTERVAL_MS < t2.
Proof.
  intros H Hl. apply orderly_reachable in H as [_ _ _ Ha]. apply (spaced_times d v) in Ha. rewrite Hl in Ha.
  exact (pairs_nth _ _ _ _ _ _ Ha).
Qed.

Lemma attempts_well_formed_witness :
  exists a, uw_attempts sample_third !! (1, "1.1.0") = Some a /\ attempt_ok 1401000 "1.1.0" a /\ is_Some (uw_devices sample_third !! 1).
Proof.
  destruct (uw_attempts sample_third !! (1, "1.1.0")) as [a|] eqn:E; [|by vm_compute in E].
  exists a. split; [done|]. apply (attempts_well_formed _ (1, "1.1.0") a sample_third_reachable E).
Defined.

Lemma offers_spaced_witness : 1000 + UPDATE_OFFER_MIN_INTERVAL_MS < 1401000.
Proof. exact (offers_spaced _ [] [701000] [] 1 "1.1.0" 1000 1401000 sample_third_reachable eq_refl). Defined.

(** ** What a failed attempt does next

    An attempt the agent reported as failed is offered again ten minutes later, until its
    third offer: only 'failed' with no offer left waits for a retry. *)
Lemma failed_offered_again now id a :
  ua_phase a = Failed -> ua_offered_count a < UPDATE_REQUEST_MAX_OFFERS ->
  match ua_last_offered_at a with Some t => t + UPDATE_OFFER_MIN_INTERVAL_MS < now | None => True end ->
  is_Some (offered_attempt now id (Some a)).
Proof.
  intros Hp Hc Ht. unfold offered_attempt. rewrite (proj2 (Z.ltb_lt _ _) Hc), orb_true_r, andb_true_r.
  destruct (ua_last_offered_at a) as [t|]; [|eauto]. rewrite (proj2 (Z.ltb_lt _ _)) by lia. eauto.
Qed.
