(* ===== verification/UpdateTermination.v ===== *)
(** * The offer loop ends

    Left to itself (no administrator asks again, the agent never reports the version), an
    agent is offered a version three times at most, then never again. *)

From S2P Require Import Prelude JsString JsValue JsNumber Tenancy Access AgentUpdate UpdateStore UpdateOps UpdateRollout UpdateSteps UpdatePacing UpdateLifecycle.

(** What happens without an administrator, device [d] never reporting version [v] or a
    later one. *)
Definition unattended (d : Z) (v : string) (au : Author) : Prop :=
  match au with
  | By_admin | By_policy _ => False
  | By_job => True
  | By_agent d' reported =>
      d' = d -> is_empty reported = true \/ isStrictlyNewerAgentVersion (Some v) (Some reported) = true
  end.

(** The offers left: a fresh attempt has them all. *)
Definition budget (k : AttemptKey) (w : UWorld) : Z :=
  match uw_attempts w !! k with
  | Some a => if is_fresh (ua_phase a) then UPDATE_REQUEST_MAX_OFFERS else UPDATE_REQUEST_MAX_OFFERS - ua_offered_count a
  | None => UPDATE_REQUEST_MAX_OFFERS
  end.

Lemma budget_range now w k : world_ok now w -> 0 <= budget k w <= UPDATE_REQUEST_MAX_OFFERS.
Proof.
  intros [Hw _ _]. unfold budget. destruct (uw_attempts w !! k) as [a|] eqn:E; [|unfold UPDATE_REQUEST_MAX_OFFERS; lia].
  destruct (Hw k a E). unfold UPDATE_REQUEST_MAX_OFFERS in *. destruct (is_fresh _); lia.
Qed.

(** An update that does not freshen the row, nor lower its count, leaves no more offers. *)
Lemma budget_upd now p f w k :
  world_ok now w ->
  (forall a, p k a = true -> is_fresh (ua_phase (f a)) = false /\ ua_offered_count (f a) = ua_offered_count a) ->
  budget k (upd p f w) <= budget k w.
Proof.
  intros Hw Hf. pose proof (budget_range now w k Hw) as Hr. unfold budget in *. cbn. rewrite map_lookup_imap.
  destruct (uw_attempts w !! k) as [a|] eqn:E; cbn in *; [|lia]. destruct (p k a) eqn:Ep; [|lia].
  destruct (Hf a Ep) as [-> ->]. destruct (is_fresh (ua_phase a)); [|lia].
  destruct Hw as [Hw _ _]. destruct (Hw k a E). lia.
Qed.

Lemma stmt_budget en au w w' d v :
  unattended d v au -> stmt en au w w' -> world_ok (ue_now en) w -> budget (d, v) w' <= budget (d, v) w.
Proof.
  intros Hau H Hw. destruct H; try (by subst au); try (by destruct au).
  - unfold budget. rewrite H. lia.
  - destruct (chains_rest en w) as [Ha _]. unfold budget. rewrite Ha. lia.
  - destruct (tenantPolicies_rest en w) as [Ha _]. unfold budget. rewrite Ha. lia.
  - by apply budget_upd with (ue_now en).
  - subst au. apply budget_upd with (ue_now en); [done|]. intros a Hp. exfalso. apply H1 in Hp as [Hd Hn]. cbn in Hd, Hn.
    destruct (Hau (eq_sym Hd)) as [He|He]; congruence.
  - by apply budget_upd with (ue_now en).
  - pose proof (budget_range _ _ (d, v) Hw) as Hr. unfold budget in *. cbn. destruct (decide ((d0, v0) = (d, v))) as [[= -> ->]|Hne].
    + rewrite lookup_insert_eq. cbn. assert (is_fresh ph = false) as ->.
      { unfold is_fresh. unfold AGENT_REPORTED_UPDATE_PHASES in *. rewrite !bool_decide_false; [done| |]; intros ->; set_solver. }
      destruct (uw_attempts w !! (d, v)) as [a|] eqn:E.
      * destruct H5 as [-> _]. destruct Hw as [Hw _ _]. destruct (Hw _ _ E). destruct (is_fresh _); lia.
      * destruct H5 as [-> _]. lia.
    + rewrite lookup_insert_ne by done. lia.
  - destruct (reserve_rest en d0 w) as [Ha _]. unfold budget. rewrite Ha. lia.
Qed.

Lemma stmts_budget en au w w' d v :
  unattended d v au -> rtc (stmt en au) w w' -> world_ok (ue_now en) w -> budget (d, v) w' <= budget (d, v) w.
Proof.
  intros Hau H. induction H as [|w1 w2 w3 H _ IH]; intros Hw; [lia|]. pose proof (stmt_budget _ _ _ _ _ _ Hau H Hw).
  specialize (IH (stmt_ok _ _ _ _ H Hw)). lia.
Qed.

(** The offers of a version to a device in a log. *)
Definition offers (d : Z) (v : string) (l : list (Z * string * Z)) : Z :=
  Z.of_nat (length (List.filter (fun e => bool_decide (fst e = (d, v))) l)).

Lemma record_budget en d' v' w d v :
  budget (d, v) (snd (recordUpdateOffer en d' v' w))
  + (if fst (recordUpdateOffer en d' v' w) && bool_decide ((d', v') = (d, v)) then 1 else 0) <= budget (d, v) w.
Proof.
  destruct (record_spec en d' v' w) as (_ & _ & _ & Hr). destruct (fst _); cbn [andb]; [|unfold budget; rewrite Hr; lia].
  destruct Hr as (_ & a & Ha & Hk). unfold budget. rewrite Hk. case_bool_decide as E.
  - rewrite E, lookup_insert_eq. rewrite E in Ha. unfold offered_attempt in Ha. destruct (uw_attempts w !! (d, v)) as [b|].
    + destruct (_ && _); [|done]. injection Ha as <-. cbn [ua_phase ua_offered_count]. change (is_fresh Offered) with false. cbv iota.
      destruct (is_fresh (ua_phase b)); unfold UPDATE_REQUEST_MAX_OFFERS; lia.
    + injection Ha as <-. cbn [ua_phase ua_offered_count]. change (is_fresh Offered) with false. unfold UPDATE_REQUEST_MAX_OFFERS. lia.
  - rewrite lookup_insert_ne by done. lia.
Qed.

Lemma offers_snoc d v l d' v' t : offers d v (l ++ [(d', v', t)]) = offers d v l + (if bool_decide ((d', v') = (d, v)) then 1 else 0).
Proof. unfold offers. rewrite List.filter_app, length_app. cbn. destruct (bool_decide _); cbn; lia. Qed.

Lemma own_step d v s s' :
  sys_step (unattended d v) s s' -> orderly s ->
  offers d v (s_log s') + budget (d, v) (s_world s') <= offers d v (s_log s) + budget (d, v) (s_world s).
Proof.
  intros H [Hw _ _ _]. destruct H as [en q w c fr l Hc Hs Hq Ho|en d' r os conn g w w' c fr l Hc Hs Hfr Ho E|en d' v' at_ cnt w w' c fr l Hc Hfr Hlt E|d' w c fr l|row w c fr l];
    cbn [s_world s_clock s_log] in *; try lia.
  - pose proof (stmts_budget en _ _ _ d v Ho (serve_stmts en q w Hs) (world_ok_later _ _ _ Hc Hw)). lia.
  - pose proof (keeps_heartbeat en d' r os conn w) as Hst. rewrite E in Hst.
    pose proof (stmts_budget en _ _ _ d v Ho Hst (world_ok_later _ _ _ Hc Hw)). cbn in *. lia.
  - pose proof (record_budget en d' v' w d v) as Hr. rewrite E in Hr. cbn [fst snd] in Hr. destruct cnt; cbn [andb] in Hr; [|lia].
    rewrite offers_snoc. lia.
  - done.
Qed.

Lemma own_run d v s s' :
  rtc (sys_step (unattended d v)) s s' -> orderly s ->
  orderly s' /\ offers d v (s_log s') + budget (d, v) (s_world s') <= offers d v (s_log s) + budget (d, v) (s_world s).
Proof.
  induction 1 as [|s1 s2 s3 H _ IH]; intros Ho; [split; [done|lia]|].
  pose proof (own_step d v _ _ H Ho). destruct (IH (orderly_step _ _ _ H Ho)) as [H1 H2]. split; [done|lia].
Qed.

(** A grant needs an offer left. *)
Lemma grant_budget en v r w s w' : resolveAdvertisedVersion en v r w = (Some s, w') -> 1 <= budget (av_id v, s) w.
Proof.
  intros H. pose proof (resolve_served _ _ _ _ _ _ H) as Hs. unfold resolveAdvertisedVersion in H. rewrite Hs in H.
  destruct (negb (shouldAdvertiseUpdate _ _ _ _ _ _)); [done|]. destruct (negb (buildMatchesServed _ _ _)); [done|].
  destruct (negb (ue_db en)); [done|]. unfold ubind at 1, uget at 1 in H. unfold budget.
  destruct (uw_attempts w !! (av_id v, s)) as [a|]; [|unfold UPDATE_REQUEST_MAX_OFFERS; lia].
  destruct (match ua_last_offered_at a with Some t => _ | None => _ end); [done|]. destruct (in_progress _ && _); [done|].
  destruct (is_fresh (ua_phase a)); cbn [orb] in H; [unfold UPDATE_REQUEST_MAX_OFFERS; lia|].
  destruct (ua_offered_count a <? UPDATE_REQUEST_MAX_OFFERS) eqn:Ec; [boolify; lia|].
  unfold ubind, uwhen, uret in H. repeat case_match; simplify_eq.
Qed.

(** The world a grant is decided in follows from the heartbeat's statements. *)
Lemma heartbeat_budget en d r os c w s w' :
  unattended d s (By_agent d r) -> world_ok (ue_now en) w ->
  heartbeat en d r os c w = (Some s, w') -> 1 <= budget (d, s) w.
Proof.
  intros Hau Hw H. apply heartbeat_granted in H as (row & v & w2 & H). cbv zeta in H.
  destruct (getGroupUpdatePolicyChains en _) as [chains wc], (getTenantUpdatePolicies en wc) as [tenants wt].
  destruct H as (_ & -> & Hst & Hr). apply grant_budget in Hr. rewrite reconcileRequest_id in Hr. cbn [av_id deviceView] in Hr.
  pose proof (stmts_budget _ _ _ _ _ _ Hau Hst Hw). lia.
Qed.

(** C30. The offer loop of an agent that never reports the version ends: without an
    administrator asking again, whatever else the agents, the frames and the jobs do, it is
    offered the version at most three more times, and once it was, no heartbeat of that agent
    is granted the version again. *)
Theorem offers_end d v s s' :
  reachable s -> rtc (sys_step (unattended d v)) s s' ->
  offers d v (s_log s') <= offers d v (s_log s) + UPDATE_REQUEST_MAX_OFFERS
  /\ (offers d v (s_log s') = offers d v (s_log s) + UPDATE_REQUEST_MAX_OFFERS ->
      forall en reported os conn, s_clock s' <= ue_now en -> unattended d v (By_agent d reported) ->
      fst (heartbeat en d reported os conn (s_world s')) <> Some v).
Proof.
  intros Hs Hrun. apply orderly_reachable in Hs. destruct (own_run d v s s' Hrun Hs) as [Hs' Hb].
  pose proof (budget_range _ _ (d, v) (od_world _ Hs)). pose proof (budget_range _ _ (d, v) (od_world _ Hs')). split; [lia|].
  intros Hn en reported os conn Hc Hau He. destruct (heartbeat en d reported os conn (s_world s')) as [g w'] eqn:E. cbn in He. subst g.
  pose proof (heartbeat_budget _ _ _ _ _ _ _ _ Hau (world_ok_later _ _ _ Hc (od_world _ Hs')) E). lia.
Qed.

(** Three offers in 24 minutes, then nothing. *)
Lemma offers_end_witness :
  fst (heartbeat (sample_update_env 2101000) 1 "1.0.0" JNull None sample_third) <> Some "1.1.0".
Proof.
  apply (offers_end 1 "1.1.0" _ _ sample_enrolled_reachable (sample_three_offers (unattended 1 "1.1.0") (fun _ => or_intror eq_refl)));
    [reflexivity|cbn; lia|intros _; by right].
Defined.
