(* ===== verification/UpdateFreeze.v ===== *)
(** * Only the agents the policy lets are offered an update

    What a grant implies of the agent, and the freeze of a tenant: from the moment its
    policy is 'off', whatever the caches held. *)

From S2P Require Import Prelude JsString JsValue JsNumber Tenancy Access AgentUpdate UpdateStore UpdateOps UpdateRollout UpdateSteps UpdatePacing UpdateLifecycle.

(** ** The gates of a grant *)

Lemma resolve_gate en v r w s w' :
  resolveAdvertisedVersion en v r w = (Some s, w') ->
  ue_served en = Some s
  /\ shouldAdvertiseUpdate (Some s) r (rp_policy (av_policy v))
       (isUpdateRequestLive (av_requestedAt v) (av_requestedVersion v) (Some s) (ue_now en)) (av_deviceType v) (av_status v) = true
  /\ buildMatchesServed (ue_manifest en) s (av_osInfo v) = true.
Proof.
  intros H. pose proof (resolve_served _ _ _ _ _ _ H) as Hs. unfold resolveAdvertisedVersion in H. rewrite Hs in H.
  destruct (shouldAdvertiseUpdate _ _ _ _ _ _) eqn:E1; [|done]. destruct (buildMatchesServed _ _ _) eqn:E2; [|done]. done.
Qed.

Lemma advertise_spec s r p live ty st :
  shouldAdvertiseUpdate (Some s) r p live ty st = true ->
  ty = "agent" /\ st = "approved" /\ isStrictlyNewerAgentVersion (Some s) (Some r) = true /\ p <> Policy_off /\ (p = Policy_auto \/ live = true).
Proof.
  unfold shouldAdvertiseUpdate. destruct (String.eqb ty "agent") eqn:E1; [|done]. destruct (String.eqb st "approved") eqn:E2; [|done].
  cbn [negb]. destruct (is_empty r); [done|]. destruct (isStrictlyNewerAgentVersion (Some s) (Some r)); [|done]. cbn [negb].
  destruct (bool_decide (p = Policy_off)) eqn:E3; [done|]. intros H. boolify. apply orb_true_iff in H as [H|H]; boolify; split_and!; auto.
Qed.

(** The reconciliation of a request leaves the policy, and a request it keeps is the row's. *)
Lemma reconcileRequest_view en v r w :
  let v' := fst (reconcileUpdateRequest en v r w) in
  v' = v \/ v' = without_request v.
Proof.
  unfold reconcileUpdateRequest. destruct (av_requestedAt v) as [at_|]; [|by left]. destruct (_ || _); [by left|].
  unfold ubind, uret. destruct (clearUpdateRequestIfUnchanged (av_id v) at_ w) as [[] w']; [by right|by left].
Qed.

(** The lookups read the caches and the tables they load. *)
Lemma tenantPolicies_reads en w1 w2 :
  uw_tenantPolicies w1 = uw_tenantPolicies w2 -> uw_tenants w1 = uw_tenants w2 ->
  fst (getTenantUpdatePolicies en w1) = fst (getTenantUpdatePolicies en w2).
Proof.
  intros H1 H2. unfold getTenantUpdatePolicies, loadTenantUpdatePolicies. rewrite H1, H2. by destruct (cached_lookup _ _ _ _).
Qed.

Lemma chains_hb en d r os w : fst (getGroupUpdatePolicyChains en (hb_row d r os w)) = fst (getGroupUpdatePolicyChains en w).
Proof.
  unfold getGroupUpdatePolicyChains. change (loadGroupUpdatePolicyChains (hb_row d r os w)) with (loadGroupUpdatePolicyChains w).
  change (uw_chains (hb_row d r os w)) with (uw_chains w). by destruct (cached_lookup _ _ _ _).
Qed.

Lemma lookups_global en w :
  uw_global (snd (getGroupUpdatePolicyChains en w)) = uw_global w /\ uw_global (snd (getTenantUpdatePolicies en w)) = uw_global w.
Proof.
  unfold getGroupUpdatePolicyChains, getTenantUpdatePolicies.
  by destruct (cached_lookup _ _ _ (loadGroupUpdatePolicyChains w)), (cached_lookup _ _ _ (loadTenantUpdatePolicies w)).
Qed.

(** The view a grant was decided on. *)
Lemma granted_view en d r os c w s w' :
  heartbeat en d r os c w = (Some s, w') ->
  exists row,
    let chains := fst (getGroupUpdatePolicyChains en w) in
    let tenants := fst (getTenantUpdatePolicies en w) in
    let p := rp_policy (devicePolicy row (uw_global w) chains tenants) in
    uw_devices w !! d = Some row /\ ue_served en = Some s
    /\ ar_device_type row = "agent" /\ ar_status row = "approved" /\ isStrictlyNewerAgentVersion (Some s) (Some r) = true
    /\ buildMatchesServed (ue_manifest en) s os = true /\ p <> Policy_off
    /\ (p = Policy_auto \/ isUpdateRequestLive (ar_requested_at row) (ar_requested_version row) (Some s) (ue_now en) = true).
Proof.
  intros H. apply heartbeat_granted in H as (row & v & w2 & H). cbv zeta in H.
  pose proof (chains_hb en d r os w) as Hc. destruct (lookups_global en (hb_row d r os w)) as [Hg1 _]. destruct (chains_rest en (hb_row d r os w)) as (_ & _ & _ & _ & Htn & Htc).
  destruct (getGroupUpdatePolicyChains en (hb_row d r os w)) as [chains wc] eqn:Ec. cbn [fst snd] in Hc, Htn, Htc, Hg1.
  pose proof (tenantPolicies_reads en wc w Htc Htn) as Ht.
  destruct (lookups_global en wc) as [_ Hg2]. destruct (getTenantUpdatePolicies en wc) as [tenants wt] eqn:Et. cbn [fst snd] in Ht, Hg2.
  rewrite Hg1 in Hg2. destruct H as (Hd & Hv & _ & H).
  unfold hb_row in Hd. cbn in Hd. rewrite map_lookup_imap in Hd. destruct (uw_devices w !! d) as [row0|] eqn:Er; [|done].
  cbn in Hd. rewrite Z.eqb_refl in Hd. injection Hd as <-. exists row0. cbv zeta. rewrite <- Hc, <- Ht.
  apply resolve_gate in H as (Hs & Ha & Hb). apply advertise_spec in Ha as (Hty & Hst & Hn & Hoff & Hp).
  destruct (reconcileRequest_view en (deviceView en wt chains tenants d (set_reported r os row0)) r wt) as [Hv'|Hv'];
    cbv zeta in Hv'; rewrite Hv' in Hv; subst v; cbn in Hty, Hst, Hoff, Hp, Hb, Hn; rewrite Hg2 in Hoff, Hp;
    replace (if is_empty r then r else r) with r in Hn by (by destruct (is_empty r)); split_and!; try done.
  by destruct Hp as [Hp|Hp]; [left|].
Qed.

(** The explicit levels above an agent, as the lookups of a heartbeat give them: only groups
    of the agent's own tenant count. *)
Definition agent_levels (row : AgentRow) (global : option string) (chain : list GroupPolicyEntry) (tenants : gmap Z AgentUpdatePolicy)
    : list ResolvedAgentUpdatePolicy :=
  policy_levels (ar_update_policy row ≫= readPolicy) (List.filter (fun e => gp_tenantId e =? ar_tenant_id row) chain)
    (tenants !! ar_tenant_id row) (global ≫= readPolicy).

(** The group chain of an agent: it needs the lookup only when it is in a group. *)
Definition agent_chain (row : AgentRow) (chains : option Chains) (chain : list GroupPolicyEntry) : Prop :=
  match ar_group_id row with
  | None => chain = []
  | Some g => exists m, chains = Some m /\ chain = default [] (m !! g)
  end.

Lemma devicePolicy_levels row global chains tenants :
  rp_policy (devicePolicy row global chains tenants) <> Policy_off ->
  exists chain tp, agent_chain row chains chain /\ tenants = Some tp
    /\ devicePolicy row global chains tenants = policy_reference (agent_levels row global chain tp).
Proof.
  unfold devicePolicy, agent_chain, agent_levels. intros H.
  assert (Hno : forall g, rp_policy (if is_off g then resolved Policy_off Src_global None else off_unresolved) = Policy_off).
  { intros g. by destruct (is_off g). }
  destruct (ar_group_id row) as [g|]; [destruct chains as [m|]|]; cbn [option_map] in *; try (by rewrite Hno in H);
    (destruct tenants as [tp|]; [|by rewrite Hno in H]); do 2 eexists; (split_and!; [eauto|done|apply resolve_reference]).
Qed.

(** An update is granted only to an approved agent, older than the served version, with a
    build for its platform, when every explicit level above it was read in this heartbeat and
    none is 'off', and the policy is 'auto' or the agent has a live request for exactly the
    served version. *)
Theorem grant_allowed en d r os c w s w' :
  heartbeat en d r os c w = (Some s, w') ->
  exists row chain tenants,
    uw_devices w !! d = Some row
    /\ ar_device_type row = "agent" /\ ar_status row = "approved"
    /\ ue_served en = Some s /\ isStrictlyNewerAgentVersion (Some s) (Some r) = true /\ buildMatchesServed (ue_manifest en) s os = true
    /\ agent_chain row (fst (getGroupUpdatePolicyChains en w)) chain /\ fst (getTenantUpdatePolicies en w) = Some tenants
    /\ let levels := agent_levels row (uw_global w) chain tenants in
       Forall (fun l => rp_policy l <> Policy_off) levels
       /\ (rp_policy (policy_reference levels) = Policy_auto
           \/ isUpdateRequestLive (ar_requested_at row) (ar_requested_version row) (Some s) (ue_now en) = true).
Proof.
  intros H. apply granted_view in H as (row & Hd & Hs & Hty & Hst & Hn & Hb & Hoff & Hp).
  destruct (devicePolicy_levels _ _ _ _ Hoff) as (chain & tp & Hc & Ht & He). rewrite He in Hoff, Hp.
  exists row, chain, tp. cbv zeta. split_and!; try done. by apply reference_not_off.
Qed.

(** ** A frozen tenant *)

(** The policy of [t] is 'off', and so is what the cache knows of it. *)
Definition tenant_frozen (t : Z) (w : UWorld) : Prop :=
  uw_tenants w !! t = Some (Some "off")
  /\ match uw_tenantPolicies w with Some (Some m, _) => m !! t = Some Policy_off | _ => True end.

Lemma load_frozen t w : uw_tenants w !! t = Some (Some "off") -> loadTenantUpdatePolicies w !! t = Some Policy_off.
Proof. intros H. unfold loadTenantUpdatePolicies. by rewrite lookup_omap, H. Qed.

Lemma lookup_frozen en t w :
  tenant_frozen t w ->
  match fst (getTenantUpdatePolicies en w) with Some m => m !! t = Some Policy_off | None => True end
  /\ tenant_frozen t (snd (getTenantUpdatePolicies en w)).
Proof.
  intros [Ht Hc]. pose proof (load_frozen t w Ht) as Hl. unfold getTenantUpdatePolicies, cached_lookup, tenant_frozen.
  destruct (uw_tenantPolicies w) as [[[m|] at_]|]; repeat case_match; simplify_eq/=; split_and!; done.
Qed.

Lemma stmt_frozen en au t w w' : stmt en au w w' -> au <> By_policy t -> tenant_frozen t w -> tenant_frozen t w'.
Proof.
  intros H Hau Hf. destruct H; try done.
  - destruct Hf as [Ht Hc]. unfold tenant_frozen. match goal with E : uw_tenantPolicies w' = _ |- _ => rewrite E end. split; congruence.
  - destruct Hf as [Ht Hc]. destruct (chains_rest en w) as (_ & _ & _ & _ & H1 & H2). unfold tenant_frozen. by rewrite H1, H2.
  - by apply lookup_frozen.
  - destruct Hf as [Ht Hc]. destruct (reserve_rest en d w) as (_ & _ & _ & H1 & _ & H2). unfold tenant_frozen. by rewrite H1, H2.
  - split; [|done]. cbn. rewrite lookup_insert_ne by congruence. by destruct Hf.
Qed.

Lemma stmts_frozen en au t w w' : rtc (stmt en au) w w' -> au <> By_policy t -> tenant_frozen t w -> tenant_frozen t w'.
Proof. induction 1; [done|]. intros Hau Hf. apply IHrtc; [done|]. by eapply stmt_frozen. Qed.

(** Setting the policy to 'off' freezes the tenant. *)
Lemma set_off_frozen en t w before w' :
  setTenantUpdatePolicy en t (Some Policy_off) w = (Some before, w') -> tenant_frozen t w'.
Proof.
  unfold setTenantUpdatePolicy, ubind at 1, uget. destruct (uw_tenants w !! t); [|done].
  unfold ubind at 1, umod at 1. cbn [option_map policy_text]. unfold ubind at 1. unfold invalidateAgentUpdatePolicyCache, umod at 1.
  set (w1 := set_caches None None (set_tenants (insert t (Some "off")) w)).
  assert (H1 : tenant_frozen t w1) by (split; [apply lookup_insert_eq|done]).
  match goal with |- (ubind ?m _ w1 = _) -> _ => set (rest := m) end. unfold ubind at 1. destruct (rest w1) as [u w2] eqn:Er.
  intros [= _ <-]. assert (Hk : keeps (stmt en By_admin) rest) by (subst rest; ukeep; by apply keeps_cancelOpen).
  specialize (Hk w1). rewrite Er in Hk. by eapply stmts_frozen.
Qed.

Lemma record_policies en d v w :
  uw_tenants (snd (recordUpdateOffer en d v w)) = uw_tenants w /\ uw_tenantPolicies (snd (recordUpdateOffer en d v w)) = uw_tenantPolicies w.
Proof.
  unfold recordUpdateOffer, store_offer, ubind, uget. destruct (_ || _); [done|]. destruct (offered_attempt _ _ _); [|done].
  unfold umod, uret. match goal with |- context [emitAttemptPatch d None ?x] => destruct (emitAttempt_rest d None x) as (es & [->| ->]) end; done.
Qed.

(** Every author but one that sets the policy of [t] again. *)
Definition not_policy_of (t : Z) (au : Author) : Prop := au <> By_policy t.

Lemma frozen_step t s s' : sys_step (not_policy_of t) s s' -> tenant_frozen t (s_world s) -> tenant_frozen t (s_world s').
Proof.
  intros H Hf. destruct H as [en q w c fr l Hc Hs Hq Ho|en d r os conn g w w' c fr l Hc Hs Hfr Ho E|en d v at_ cnt w w' c fr l Hc Hfr Hlt E|d w c fr l|row w c fr l];
    cbn [s_world] in *; try done.
  - by eapply stmts_frozen; [by apply serve_stmts| |].
  - pose proof (keeps_heartbeat en d r os conn w) as Hst. rewrite E in Hst. by eapply stmts_frozen; [exact Hst| |].
  - destruct Hf as [Ht Hc']. destruct (record_policies en d v w) as [H1 H2]. rewrite E in H1, H2. cbn in H1, H2. unfold tenant_frozen. by rewrite H1, H2.
Qed.

(** Freezing a tenant stops its updates at once and for as long as nobody sets its policy
    again: in every later state, whatever administrators request, whatever the caches held,
    no heartbeat of an agent of the tenant is granted a version. *)
Theorem frozen_tenant_never_offered en t w before w' c fr l s' en' d r os conn row :
  setTenantUpdatePolicy en t (Some Policy_off) w = (Some before, w') ->
  rtc (sys_step (not_policy_of t)) {| s_world := w'; s_clock := c; s_frames := fr; s_log := l |} s' ->
  uw_devices (s_world s') !! d = Some row -> ar_tenant_id row = t ->
  fst (heartbeat en' d r os conn (s_world s')) = None.
Proof.
  intros H Hrun Hd Ht. apply set_off_frozen in H.
  assert (Hf : tenant_frozen t (s_world s')).
  { clear Hd. remember {| s_world := w' |} as s0 eqn:E. assert (H0 : tenant_frozen t (s_world s0)) by (by subst s0). clear E H.
    induction Hrun; [done|]. apply IHHrun. by eapply frozen_step. }
  destruct (heartbeat en' d r os conn (s_world s')) as [[v|] w2] eqn:E; [|done].
  apply granted_view in E as (row' & Hd' & _ & _ & _ & _ & _ & Hoff & _). simplify_eq.
  destruct (devicePolicy_levels _ _ _ _ Hoff) as (chain & tp & _ & Htp & He). rewrite He in Hoff.
  destruct (lookup_frozen en' _ _ Hf) as [Hl _]. rewrite Htp in Hl. apply reference_not_off in Hoff.
  unfold agent_levels, policy_levels in Hoff. rewrite Hl, !Forall_app in Hoff. destruct Hoff as (_ & _ & Hoff & _).
  rewrite Forall_singleton in Hoff. by destruct Hoff.
Qed.

Lemma grant_allowed_witness :
  exists row chain tenants,
    uw_devices sample_enrolled !! 1 = Some row
    /\ agent_chain row (fst (getGroupUpdatePolicyChains (sample_update_env 0) sample_enrolled)) chain
    /\ fst (getTenantUpdatePolicies (sample_update_env 0) sample_enrolled) = Some tenants
    /\ rp_policy (policy_reference (agent_levels row None chain tenants)) = Policy_auto.
Proof.
  destruct (sample_heartbeat 0 sample_enrolled) as [g w'] eqn:E.
  assert (Hg : fst (sample_heartbeat 0 sample_enrolled) = Some "1.1.0") by (by vm_compute). rewrite E in Hg. cbn in Hg. subst g.
  destruct (grant_allowed _ _ _ _ _ _ _ _ E) as (row & chain & tenants & Hd & _ & _ & _ & _ & _ & Hc & Ht & _ & Hp).
  exists row, chain, tenants. split_and!; [done|done|done|]. destruct Hp as [Hp|Hp]; [done|]. vm_compute in Hd. injection Hd as <-. by vm_compute in Hp.
Defined.

(** The automatic tenant is frozen while its cache still says 'auto'. *)
Lemma frozen_tenant_never_offered_witness :
  fst (heartbeat (sample_update_env 700000) 1 "1.0.0" JNull None
         (snd (setTenantUpdatePolicy (sample_update_env 2000) 2 (Some Policy_off) sample_first))) = None.
Proof.
  destruct (setTenantUpdatePolicy (sample_update_env 2000) 2 (Some Policy_off) sample_first) as [b w'] eqn:E.
  assert (Hb : fst (setTenantUpdatePolicy (sample_update_env 2000) 2 (Some Policy_off) sample_first) = Some (Some Policy_auto)) by (by vm_compute).
  assert (Hrow : uw_devices (snd (setTenantUpdatePolicy (sample_update_env 2000) 2 (Some Policy_off) sample_first)) !! 1
                 = Some (set_reported "1.0.0" JNull sample_agent)) by (by vm_compute).
  rewrite E in Hb, Hrow. cbn [fst snd] in *. subst b.
  exact (frozen_tenant_never_offered (sample_update_env 2000) 2 sample_first (Some Policy_auto) w' 2000 ∅ [] (sample_sys w' 2000 [])
           (sample_update_env 700000) 1 "1.0.0" JNull None _ E (rtc_refl _ _) Hrow eq_refl).
Defined.
