(* ===== verification/UpdateAll.v ===== *)
(** * "Update all outdated" does what its preview says

    The agents it requests are exactly those the preview counts as to be requested, and
    nothing else changes. *)

From stdpp Require Import sorting.
From S2P Require Import Prelude JsString JsValue Tenancy Access AgentUpdate UpdateStore UpdateOps UpdateRollout.

(** ** The lookups of one moment *)

Lemma cached_lookup_again {A} now (cache : option (option A * Z)) ok load ok' load' :
  let '(v, c) := cached_lookup now cache ok load in cached_lookup now c ok' load' = (v, c).
Proof.
  unfold cached_lookup.
  assert (Hnow : forall v : option A, (now - now <? match v with None => UPD_POLICY_FAILURE_TTL_MS | Some _ => UPD_POLICY_CACHE_TTL_MS end) = true).
  { intros [|]; rewrite Z.sub_diag; done. }
  destruct cache as [[v at_]|]; [destruct (now - at_ <? _) eqn:E; [by rewrite E|]|]; by rewrite Hnow.
Qed.

Definition chains_at (en : UEnv) (w : UWorld) : option Chains := fst (getGroupUpdatePolicyChains en w).
Definition tenants_at (en : UEnv) (w : UWorld) : option (gmap Z AgentUpdatePolicy) := fst (getTenantUpdatePolicies en w).
(** The world once both lookups are cached. *)
Definition warm (en : UEnv) (w : UWorld) : UWorld := snd (getTenantUpdatePolicies en (snd (getGroupUpdatePolicyChains en w))).

Definition view_at (en : UEnv) (w : UWorld) (dr : Z * AgentRow) : AgentView :=
  deviceView en w (chains_at en w) (tenants_at en w) (fst dr) (snd dr).

Lemma warm_eq en w :
  warm en w = set_caches (snd (cached_lookup (ue_now en) (uw_chains w) (ue_chains_ok en) (loadGroupUpdatePolicyChains w)))
                (snd (cached_lookup (ue_now en) (uw_tenantPolicies w) (ue_tenants_ok en) (loadTenantUpdatePolicies w))) w.
Proof.
  unfold warm, getGroupUpdatePolicyChains. destruct (cached_lookup _ (uw_chains w) _ _) as [v c]. cbn [snd]. unfold getTenantUpdatePolicies.
  cbn [set_caches uw_tenantPolicies uw_chains]. change (loadTenantUpdatePolicies (set_caches c (uw_tenantPolicies w) w)) with (loadTenantUpdatePolicies w).
  by destruct (cached_lookup _ (uw_tenantPolicies w) _ _).
Qed.

Lemma hydrate_eq en rows w : hydrate en rows w = (map (view_at en w) rows, warm en w).
Proof.
  unfold hydrate, warm, view_at, chains_at, tenants_at, ubind, uget, uret, getGroupUpdatePolicyChains.
  destruct (cached_lookup _ (uw_chains w) _ _) as [v c]. cbn [fst snd]. unfold getTenantUpdatePolicies.
  cbn [set_caches uw_tenantPolicies uw_chains]. change (loadTenantUpdatePolicies (set_caches c (uw_tenantPolicies w) w)) with (loadTenantUpdatePolicies w).
  destruct (cached_lookup _ (uw_tenantPolicies w) _ _) as [v' c']. cbn [fst snd]. f_equal. apply map_ext. by intros [d row].
Qed.


Lemma lookups_from_warm en w0 w :
  uw_chains w = uw_chains (warm en w0) -> uw_tenantPolicies w = uw_tenantPolicies (warm en w0) ->
  chains_at en w = chains_at en w0 /\ tenants_at en w = tenants_at en w0 /\ warm en w = w.
Proof.
  rewrite warm_eq. cbn [set_caches uw_chains uw_tenantPolicies]. intros Hc Ht.
  pose proof (cached_lookup_again (ue_now en) (uw_chains w0) (ue_chains_ok en) (loadGroupUpdatePolicyChains w0) (ue_chains_ok en) (loadGroupUpdatePolicyChains w)) as H1.
  pose proof (cached_lookup_again (ue_now en) (uw_tenantPolicies w0) (ue_tenants_ok en) (loadTenantUpdatePolicies w0) (ue_tenants_ok en) (loadTenantUpdatePolicies w)) as H2.
  rewrite warm_eq. unfold chains_at, tenants_at, getGroupUpdatePolicyChains, getTenantUpdatePolicies. rewrite Hc, Ht.
  destruct (cached_lookup _ (uw_chains w0) _ _) as [v c]. destruct (cached_lookup _ (uw_tenantPolicies w0) _ _) as [v' c'].
  cbn [snd fst] in *. rewrite H1, H2. cbn. split_and!; [done|done|]. destruct w. cbn in *. subst. done.
Qed.

(** ** Requests on a set of agents *)

(** Every agent of [ids] gets the request; its open or failed attempts at the version restart. *)
Definition apply_requests (en : UEnv) (u : option Z) (served : string) (ids : list Z) (w : UWorld) : UWorld :=
  set_attempts (map_imap (fun k a => Some (if mem (fst k) ids && String.eqb (snd k) served && negb (bool_decide (ua_phase a = Succeeded))
                                           then reopen_attempt (ue_now en) a else a)))
    (set_devices (map_imap (fun d r => Some (if mem d ids then make_request (ue_now en) served u r else r))) w).

Lemma map_imap_compose {K} `{Countable K} {A} (f g : K -> A -> A) (m : gmap K A) :
  map_imap (fun k a => Some (g k a)) (map_imap (fun k a => Some (f k a)) m) = map_imap (fun k a => Some (g k (f k a))) m.
Proof. apply map_eq. intros k. rewrite !map_lookup_imap. by destruct (m !! k). Qed.

Lemma map_imap_same {K} `{Countable K} {A} (f g : K -> A -> A) (m : gmap K A) :
  (forall k a, m !! k = Some a -> f k a = g k a) -> map_imap (fun k a => Some (f k a)) m = map_imap (fun k a => Some (g k a)) m.
Proof. intros Hf. apply map_eq. intros k. rewrite !map_lookup_imap. destruct (m !! k) as [a|] eqn:E; [|done]. cbn. by rewrite Hf. Qed.

Lemma apply_requests_app en u s l1 l2 w :
  apply_requests en u s l2 (apply_requests en u s l1 w) = apply_requests en u s (l1 ++ l2) w.
Proof.
  unfold apply_requests. destruct w. unfold set_attempts, set_devices. cbn. rewrite !map_imap_compose. f_equal.
  - apply map_imap_same. intros d r _. rewrite mem_app. by destruct (mem d l1), (mem d l2).
  - apply map_imap_same. intros k a _. rewrite mem_app.
    destruct (mem (fst k) l1), (mem (fst k) l2), (String.eqb (snd k) s), (bool_decide (ua_phase a = Succeeded)) eqn:E; cbn; rewrite ?E; done.
Qed.

Lemma apply_requests_nil en u s w : apply_requests en u s [] w = w.
Proof.
  destruct w. unfold apply_requests, set_attempts, set_devices. cbn. f_equal; apply map_eq; intros k; rewrite map_lookup_imap; by destruct (_ !! k).
Qed.

(** The devices of a list of ids, all present, as rows. *)
Lemma matching_ids (m : gmap Z AgentRow) (p : Z -> AgentRow -> bool) (ids : list Z) :
  NoDup ids -> (forall d, In d ids <-> exists r, m !! d = Some r /\ p d r = true) ->
  map fst (List.filter (fun '(d, r) => p d r) (map_to_list m)) ≡ₚ ids.
Proof.
  intros Hn Hm. apply NoDup_Permutation; [|done|].
  - apply NoDup_map_filter. apply NoDup_fst_map_to_list.
  - intros d. rewrite !list_elem_of_In. rewrite Hm, in_map_iff. split.
    + intros ([d' r] & <- & Hin). apply filter_In in Hin as [Hin Hp]. apply list_elem_of_In, elem_of_map_to_list in Hin. eauto.
    + intros (r & Hd & Hp). exists (d, r). split; [done|]. apply filter_In. split; [|done]. by apply list_elem_of_In, elem_of_map_to_list.
Qed.

Lemma uniq_id {A} `{EqDecision A} (l : list A) : NoDup l -> uniq l = l.
Proof.
  induction 1 as [|x l Hx Hl IH]; cbn; [done|]. rewrite IH. f_equal. apply filter_all. intros y Hy.
  apply negb_true_iff, bool_decide_eq_false. intros ->. by apply Hx, list_elem_of_In.
Qed.

(** An agent the bulk action may request: of the tenant, and one [requestUpdate] accepts. *)
Definition requestable (en : UEnv) (served : string) (w : UWorld) (t d : Z) : Prop :=
  exists row, uw_devices w !! d = Some row /\ ar_tenant_id row = t /\ request_class served (view_at en w (d, row)) = R_eligible.

(** The caches hold the lookups made in [w0] at the same moment. *)
Definition same_lookups (en : UEnv) (w0 w : UWorld) : Prop :=
  uw_chains w = uw_chains (warm en w0) /\ uw_tenantPolicies w = uw_tenantPolicies (warm en w0) /\ uw_global w = uw_global w0.

Lemma view_class en w0 w served d row :
  same_lookups en w0 w -> request_class served (view_at en w (d, row)) = request_class served (view_at en w0 (d, row)).
Proof.
  intros (Hc & Ht & Hg). destruct (lookups_from_warm en w0 w Hc Ht) as (H1 & H2 & _).
  unfold view_at, deviceView. rewrite H1, H2, Hg. reflexivity.
Qed.

Lemma getDevices_eq en ids t w :
  ids <> [] ->
  getDevicesByIdsInTenant en ids t w
  = (map (view_at en w) (List.filter (fun '(d, row) => mem d ids && (ar_tenant_id row =? t)) (map_to_list (uw_devices w))), warm en w).
Proof. intros Hn. unfold getDevicesByIdsInTenant. rewrite bool_decide_false by done. apply hydrate_eq. Qed.

Lemma requestUpdate_eq en ids t u w0 w served :
  ue_served en = Some served -> same_lookups en w0 w -> NoDup ids -> ids <> [] ->
  (forall d, In d ids -> requestable en served w t d) ->
  requestUpdate en ids t u w
  = ({| ur_requested := count ids; ur_targetVersion := Some served; ur_off := 0; ur_current := 0; ur_notUpdatable := 0; ur_notFound := 0 |},
     apply_requests en u served ids w).
Proof.
  intros Hs Hl Hn Hne Hr. unfold requestUpdate. rewrite Hs, (uniq_id _ Hn). unfold ubind at 1. rewrite getDevices_eq by done.
  destruct Hl as (Hc & Ht & Hg). destruct (lookups_from_warm en w0 w Hc Ht) as (_ & _ & ->).
  set (rows := List.filter (fun '(d, row) => mem d ids && (ar_tenant_id row =? t)) (map_to_list (uw_devices w))).
  assert (Hp : map fst rows ≡ₚ ids).
  { apply matching_ids; [done|]. intros d. split.
    - intros Hd. destruct (Hr d Hd) as (row & Hrow & Htn & _). exists row. split; [done|]. apply andb_true_iff. split; [by apply mem_In|by apply Z.eqb_eq].
    - intros (row & _ & H). apply andb_true_iff in H as [H _]. by apply mem_In. }
  assert (Hall : forall v, In v (map (view_at en w) rows) -> request_class served v = R_eligible).
  { intros v Hv. apply in_map_iff in Hv as ([d row] & <- & Hin). apply filter_In in Hin as [Hin H]. apply andb_true_iff in H as [H _].
    apply list_elem_of_In, elem_of_map_to_list in Hin. destruct (Hr d) as (row' & Hrow & _ & Hcl); [by apply mem_In|]. by simplify_eq. }
  assert (He : of_class served R_eligible (map (view_at en w) rows) = map (view_at en w) rows).
  { apply filter_all. intros v Hv. by apply bool_decide_eq_true, Hall. }
  assert (Hz : forall c, c <> R_eligible -> of_class served c (map (view_at en w) rows) = []).
  { intros c Hcn. apply filter_none. intros v Hv. apply bool_decide_eq_false. rewrite (Hall v Hv). congruence. }
  rewrite He, !Hz by done. cbn zeta.
  replace (map av_id (map (view_at en w) rows)) with (map fst rows) by (rewrite map_map; by apply map_ext).
  assert (Hmem : forall d, mem d (map fst rows) = mem d ids).
  { intros d. apply eq_true_iff_eq. rewrite !mem_In, <- !list_elem_of_In. by rewrite Hp. }
  rewrite bool_decide_true by (intros Hx; rewrite Hx in Hp; by apply Permutation_nil in Hp). cbn [uwhen].
  assert (Hlen : count (map fst rows) = count ids) by (unfold count; by rewrite Hp).
  assert (Hlen' : count (map (view_at en w) rows) = count ids) by (rewrite <- Hlen; unfold count; by rewrite !length_map).
  unfold ubind, uret, update_devices, update_attempts, umod. rewrite Hlen, Hlen'. f_equal; [f_equal; lia|].
  unfold apply_requests, set_attempts, set_devices. cbn. f_equal.
  - apply map_imap_same. intros d r Hd. rewrite Hmem. destruct (mem d ids) eqn:Em; [|done]. cbn.
    apply mem_In in Em. destruct (Hr d Em) as (row & Hrow & <- & _). simplify_eq. by rewrite Z.eqb_refl.
  - apply map_imap_same. intros k a _. by rewrite Hmem.
Qed.

(** ** Tenant by tenant *)

Lemma requestable_later en w0 w served t d ids u :
  same_lookups en w0 w -> ~ In d ids -> requestable en served w t d -> requestable en served (apply_requests en u served ids w) t d.
Proof.
  intros Hl Hn (row & Hrow & Ht & Hcl). exists row. split_and!; [|done|].
  - cbn. rewrite map_lookup_imap, Hrow. cbn. destruct (mem d ids) eqn:E; [|done]. by apply mem_In in E.
  - rewrite (view_class en w0 w) in Hcl by done. by rewrite (view_class en w0).
Qed.

Lemma request_all_eq en u served w0 L acc w :
  ue_served en = Some served -> same_lookups en w0 w ->
  Forall (fun ti => snd ti <> [] /\ forall d, In d (snd ti) -> requestable en served w (fst ti) d) L ->
  NoDup (concat (map snd L)) ->
  request_all en u L acc w
  = ({| al_requested := al_requested acc + count (concat (map snd L)); al_off := al_off acc; al_current := al_current acc;
        al_notUpdatable := al_notUpdatable acc; al_notFound := al_notFound acc;
        al_byTenant := al_byTenant acc ++ map (fun ti => (fst ti, count (snd ti))) L |},
     apply_requests en u served (concat (map snd L)) w).
Proof.
  intros Hs. revert acc w. induction L as [|[t ids] L IH]; intros acc w Hl HL Hn; cbn [request_all map concat].
  - rewrite apply_requests_nil, Z.add_0_r, app_nil_r. by destruct acc.
  - apply Forall_cons in HL as [[Hne Hr] HL]. cbn [map concat fst snd] in *. apply NoDup_app in Hn as (Hn1 & Hd & Hn2).
    unfold ubind. rewrite (requestUpdate_eq en ids t u w0 w served) by done. rewrite IH; [|exact Hl| |done].
    + rewrite apply_requests_app. f_equal. unfold add_result. cbn. unfold count. rewrite length_app. f_equal; try lia.
      by rewrite <- app_assoc.
    + apply List.Forall_forall. intros [t' ids'] Hin. rewrite List.Forall_forall in HL. destruct (HL _ Hin) as [Hne' Hr'].
      split; [done|]. intros d Hdin. eapply requestable_later; [exact Hl| |by apply Hr'].
      intros Hc. apply (Hd d); [by apply list_elem_of_In|]. apply list_elem_of_In, in_concat. exists ids'. split; [|done]. by apply (in_map snd _ _ Hin).
Qed.

Lemma group_In t l d : In d (omap (fun '(t', d) => if (t' : Z) =? t then Some (d : Z) else None) l) <-> In (t, d) l.
Proof.
  rewrite <- list_elem_of_In, list_elem_of_omap. split.
  - intros ([t' d'] & Hin & He). destruct (Z.eqb_spec t' t); simplify_eq. by apply list_elem_of_In.
  - intros H. exists (t, d). split; [by apply list_elem_of_In|]. by rewrite Z.eqb_refl.
Qed.

Lemma groups_NoDup l ts :
  NoDup (map snd l) -> NoDup ts ->
  NoDup (concat (map (fun t => omap (fun '(t', d) => if (t' : Z) =? t then Some (d : Z) else None) l) ts)).
Proof.
  intros Hl Ht. induction Ht as [|t ts Hx Ht IH]; cbn; [constructor|]. apply NoDup_app. split_and!; [| |exact IH].
  - clear -Hl. induction l as [|[t' d] l IHl]; cbn; [constructor|]. cbn in Hl. apply NoDup_cons in Hl as [Hd Hl].
    destruct (t' =? t); [|by apply IHl]. apply NoDup_cons. split; [|by apply IHl]. intros H. apply list_elem_of_In, group_In in H.
    apply Hd, list_elem_of_In. by apply (in_map snd _ (t, d)).
  - intros d Hd1 Hd2. apply list_elem_of_In, group_In in Hd1. apply list_elem_of_In, in_concat in Hd2 as (g & Hg & Hd2).
    apply in_map_iff in Hg as (t' & <- & Ht'). apply group_In in Hd2. enough (t = t') by (subst; by apply Hx, list_elem_of_In).
    clear -Hl Hd1 Hd2. induction l as [|[a b] l IHl]; [done|]. cbn in Hl. apply NoDup_cons in Hl as [Hb Hl].
    destruct Hd1 as [H1|H1], Hd2 as [H2|H2]; simplify_eq; [done| | |by apply IHl].
    + exfalso. apply Hb, list_elem_of_In. by apply (in_map snd _ (t', d)).
    + exfalso. apply Hb, list_elem_of_In. by apply (in_map snd _ (t, d)).
Qed.

Lemma per_tenant_spec l :
  NoDup (map snd l) ->
  NoDup (concat (map snd (per_tenant l))) /\ concat (map snd (per_tenant l)) ≡ₚ map snd l
  /\ Forall (fun ti => snd ti <> [] /\ forall d, In d (snd ti) -> In (fst ti, d) l) (per_tenant l).
Proof.
  intros Hl. set (ts := merge_sort Z.le (uniq (map fst l))).
  assert (Hts : forall t, In t ts <-> In t (map fst l)).
  { intros t. rewrite <- (uniq_in (map fst l)), <- !list_elem_of_In. subst ts. by rewrite (merge_sort_Permutation Z.le). }
  assert (Hn : NoDup ts) by (subst ts; rewrite (merge_sort_Permutation Z.le); apply uniq_nodup).
  assert (Hm : map snd (per_tenant l) = map (fun t => omap (fun '(t', d) => if (t' : Z) =? t then Some (d : Z) else None) l) ts)
    by (unfold per_tenant; by rewrite map_map).
  assert (Hnd : NoDup (concat (map snd (per_tenant l)))) by (rewrite Hm; by apply groups_NoDup).
  split_and!; [done| |].
  - apply NoDup_Permutation; [done..|]. intros d. rewrite !list_elem_of_In, Hm, in_concat, in_map_iff. split.
    + intros (g & Hg & Hd). apply in_map_iff in Hg as (t & <- & _). apply group_In in Hd. by exists (t, d).
    + intros ([t d'] & <- & Hin). eexists. split; [apply in_map_iff; exists t; split; [reflexivity|]|by apply group_In].
      apply Hts. by apply (in_map fst _ _ Hin).
  - apply List.Forall_forall. intros ti Hin. unfold per_tenant in Hin. apply in_map_iff in Hin as (t & <- & Ht). cbn. split.
    + apply Hts in Ht. apply in_map_iff in Ht as ([t' d] & <- & Hin). intros He. apply (in_nil (a := d)). rewrite <- He. by apply group_In.
    + intros d. apply group_In.
Qed.

(** ** The bulk action *)

Definition scope_rows (scope : RolloutScope) (w : UWorld) : list (Z * AgentRow) :=
  List.filter (fun '(d, row) =>
      (isMasterTenant (Some (rs_tenantId scope)) || (ar_tenant_id row =? rs_tenantId scope)) && String.eqb (ar_status row) "approved"
      && match rs_writableIds scope with Ids_all => true | Ids_list l => mem d l end) (map_to_list (uw_devices w)).

Definition scope_views (en : UEnv) (scope : RolloutScope) (w : UWorld) : list AgentView :=
  List.filter (fun v => String.eqb (av_deviceType v) "agent") (map (view_at en w) (scope_rows scope w)).

Lemma scopeAgents_eq en scope w : scopeAgents en scope w = (scope_views en scope w, warm en w).
Proof. unfold scopeAgents, listApproved, ubind, uget. by rewrite hydrate_eq. Qed.

Definition wanted (en : UEnv) (scope : RolloutScope) (w : UWorld) : list AgentView := List.filter (to_request en) (scope_views en scope w).

Lemma wanted_nodup en scope w : NoDup (map av_id (wanted en scope w)).
Proof.
  unfold wanted, scope_views. do 2 apply NoDup_map_filter. rewrite map_map. change (map (fun x => av_id (view_at en w x)) (scope_rows scope w)) with (map fst (scope_rows scope w)).
  apply NoDup_map_filter, NoDup_fst_map_to_list.
Qed.

(** What the preview counts as to be requested, the request accepts. *)
Lemma wanted_requestable en scope w v :
  In v (wanted en scope w) -> exists served, ue_served en = Some served /\ requestable en served w (av_tenantId v) (av_id v).
Proof.
  intros H. apply filter_In in H as [H Hr]. apply filter_In in H as [H Hty]. apply in_map_iff in H as ([d row] & <- & H).
  apply filter_In in H as [H Hs]. apply list_elem_of_In, elem_of_map_to_list in H. unfold to_request in Hr. apply andb_true_iff in Hr as [Hk _].
  apply bool_decide_eq_true in Hk. apply andb_true_iff in Hs as [Hs _]. apply andb_true_iff in Hs as [_ Hs].
  set (v := view_at en w (d, row)) in *. unfold classify in Hk. destruct (negb (has_version v)) eqn:E1; [done|].
  destruct (ue_served en) as [served|]; [|done]. exists served. split; [done|]. exists row. split_and!; [done|done|]. change (av_id v) with d. fold v.
  unfold request_class. rewrite E1. destruct (negb (isStrictlyNewerAgentVersion _ _)) eqn:E2; [done|].
  destruct (bool_decide (rp_policy (av_policy v) = Policy_off)) eqn:E3; [done|].
  destruct (bool_decide (rp_source (av_policy v) = Src_unresolved)) eqn:E4; [done|].
  rewrite Hty. change (av_status v) with (ar_status row). rewrite Hs. reflexivity.
Qed.

(** The counters of the preview against filters of the list. *)
Lemma preview_toRequest en online l p :
  pv_toRequest (fold_left (preview_step (ue_served en) (ue_manifest en) online) l p) = pv_toRequest p + count (List.filter (to_request en) l).
Proof.
  revert p. induction l as [|v l IH]; intros p; cbn [fold_left List.filter]; [unfold count; cbn; lia|]. rewrite IH.
  assert (He : pv_toRequest (preview_step (ue_served en) (ue_manifest en) online p v) = incr (to_request en v) (pv_toRequest p)).
  { unfold preview_step, to_request. destruct (default (0, 0) _) as [a b]. cbn [pv_toRequest]. f_equal.
    by destruct (bool_decide _), (isInFlight v _), (av_updatePending v). }
  rewrite He. unfold incr, count. destruct (to_request en v); cbn [length]; lia.
Qed.

Lemma toRequest_preview en online scope w : pv_toRequest (fst (preview en online scope w)) = count (wanted en scope w).
Proof. unfold preview, ubind, uret. rewrite scopeAgents_eq. cbn [fst]. unfold preview_of. by rewrite preview_toRequest. Qed.

Lemma updateAll_eq en online scope u w :
  let ids := map av_id (wanted en scope w) in
  exists L : list (Z * list Z), concat (map snd L) ≡ₚ ids /\
  forall res p w', updateAll en online scope u w = ((res, p), w') ->
    al_requested res = count ids /\ al_off res = 0 /\ al_current res = 0 /\ al_notUpdatable res = 0 /\ al_notFound res = 0
    /\ uw_devices w' = uw_devices (apply_requests en u (default "" (ue_served en)) (concat (map snd L)) w)
    /\ uw_attempts w' = uw_attempts (apply_requests en u (default "" (ue_served en)) (concat (map snd L)) w).
Proof.
  intros ids. set (l := map (fun v => (av_tenantId v, av_id v)) (wanted en scope w)).
  assert (Hl : map snd l = ids) by (subst l ids; by rewrite map_map).
  assert (Hnd : NoDup (map snd l)) by (rewrite Hl; apply wanted_nodup).
  destruct (per_tenant_spec l Hnd) as (H1 & H2 & H3). exists (per_tenant l). split; [by rewrite H2, Hl|].
  intros res p w'. unfold updateAll. unfold ubind at 1. rewrite scopeAgents_eq. fold (wanted en scope w). fold l.
  assert (Hcount : count (concat (map snd (per_tenant l))) = count ids) by (unfold count; by rewrite H2, Hl).
  destruct (lookups_from_warm en w (warm en w) eq_refl eq_refl) as (Hch & Hte & _).
  destruct (ue_served en) as [served|] eqn:Es.
  - unfold ubind. rewrite (request_all_eq en u served w).
    + unfold preview, ubind, uret. rewrite scopeAgents_eq. intros [= <- <- <-]. cbn [al_requested al_off al_current al_notUpdatable al_notFound].
      rewrite Hcount. split_and!; try done; rewrite !warm_eq; reflexivity.
    + done.
    + split_and!; try done. by rewrite warm_eq.
    + eapply Forall_impl; [exact H3|]. intros [t g] [Hne Hin]. split; [done|]. intros d Hd. specialize (Hin d Hd). cbn in Hin.
      subst l. apply in_map_iff in Hin as (v & [= <- <-] & Hv). destruct (wanted_requestable _ _ _ _ Hv) as (s' & Hs' & row & Hrow & Ht & Hcl).
      rewrite Es in Hs'. injection Hs' as ->. exists row. split_and!; [by rewrite warm_eq|done|].
      rewrite (view_class en w); [done|]. split_and!; try done. by rewrite warm_eq.
    + done.
  - assert (Hnil : l = []).
    { subst l. destruct (wanted en scope w) as [|v vs] eqn:E; [done|]. destruct (wanted_requestable en scope w v) as (s' & Hs' & _); [rewrite E; by left|]. congruence. }
    rewrite Hnil in *. unfold ubind, preview, uret. change (per_tenant []) with ([] : list (Z * list Z)). cbn [request_all concat map].
    unfold uret, ubind. rewrite scopeAgents_eq. intros [= <- <- <-]. cbn [al_requested al_off al_current al_notUpdatable al_notFound].
    rewrite <- Hl, apply_requests_nil. split_and!; try done; rewrite !warm_eq; reflexivity.
Qed.

(** "Update all outdated" does what its preview announced: it requests exactly the agents
    the preview counts as to be requested, none of them is refused, each of them and no other
    device gets the request for the served version, and of the attempts only theirs at that
    version restart. *)
Theorem update_all_exact en online scope user w :
  let '(result, p, w') := updateAll en online scope user w in
  let ids := map av_id (wanted en scope w) in
  let served := default "" (ue_served en) in
  al_requested result = pv_toRequest (fst (preview en online scope w))
  /\ al_off result = 0 /\ al_current result = 0 /\ al_notUpdatable result = 0 /\ al_notFound result = 0
  /\ (forall d, uw_devices w' !! d = (fun r => if mem d ids then make_request (ue_now en) served user r else r) <$> uw_devices w !! d)
  /\ (forall k, uw_attempts w' !! k
        = (fun a => if mem (fst k) ids && String.eqb (snd k) served && negb (bool_decide (ua_phase a = Succeeded))
                    then reopen_attempt (ue_now en) a else a) <$> uw_attempts w !! k).
Proof.
  destruct (updateAll en online scope user w) as [[res p] w'] eqn:E. intros ids served.
  destruct (updateAll_eq en online scope user w) as (L & HL & H). destruct (H _ _ _ E) as (Hr & Ho & Hc & Hu & Hf & Hd & Ha).
  assert (Hmem : forall d, mem d (concat (map snd L)) = mem d ids).
  { intros d. apply eq_true_iff_eq. rewrite !mem_In, <- !list_elem_of_In. by rewrite HL. }
  rewrite toRequest_preview. split_and!; try done.
  - rewrite Hr. unfold count. by rewrite length_map.
  - intros d. rewrite Hd. cbn. rewrite map_lookup_imap. destruct (uw_devices w !! d); cbn; by rewrite ?Hmem.
  - intros k. rewrite Ha. cbn. rewrite map_lookup_imap. destruct (uw_attempts w !! k); cbn; by rewrite ?Hmem.
Qed.
