(* ===== verification/Query.v ===== *)
(** * Queries and errors

    What the services share beyond the tables: [ORDER BY] as a stable insertion sort, and
    the error monad of code that throws before it writes. *)

From Stdlib Require Import Sorting.Sorted.
From S2P Require Import Prelude Access.

(** ** ORDER BY *)

Section Sort.
Context {A : Type}.
Variable le : A -> A -> bool.

Fixpoint insert_by (x : A) (l : list A) : list A :=
  match l with
  | [] => [x]
  | y :: r => if le x y then x :: y :: r else y :: insert_by x r
  end.

(** Equal rows keep their table order. *)
Definition order_by (l : list A) : list A := fold_right insert_by [] l.

Lemma insert_by_perm x l : insert_by x l ≡ₚ x :: l.
Proof.
  induction l as [|y l IH]; cbn [insert_by]; [done|]. destruct (le x y); [done|].
  rewrite IH. apply Permutation_swap.
Qed.

Lemma order_by_perm l : order_by l ≡ₚ l.
Proof. induction l as [|x l IH]; [done|]. cbn [order_by fold_right]. rewrite insert_by_perm. by apply Permutation_cons. Qed.

Lemma order_by_In x l : In x (order_by l) <-> In x l.
Proof. by rewrite <- !list_elem_of_In, order_by_perm. Qed.

Hypothesis le_total : forall x y, le x y = false -> le y x = true.
Hypothesis le_trans : forall x y z, le x y = true -> le y z = true -> le x z = true.

Lemma insert_by_head x y l : HdRel (fun a b => le a b = true) y l -> le y x = true -> HdRel (fun a b => le a b = true) y (insert_by x l).
Proof. destruct l as [|z l]; cbn [insert_by]; intros H Hy; [by constructor|]. inversion H. destruct (le x z); by constructor. Qed.

Lemma order_by_sorted l : Sorted (fun a b => le a b = true) (order_by l).
Proof.
  induction l as [|x l IH]; [constructor|]. change (order_by (x :: l)) with (insert_by x (order_by l)).
  induction IH as [|y l' Hs IHs Hy]; [repeat constructor|]. cbn [insert_by]. destruct (le x y) eqn:E.
  - constructor; [by constructor|by constructor].
  - constructor; [done|]. apply insert_by_head; [done|by apply le_total].
Qed.

(** Of two rows, the earlier one is not after the other. *)
Lemma order_by_before l l1 x l2 y l3 : order_by l = l1 ++ x :: l2 ++ y :: l3 -> le x y = true.
Proof.
  intros E. assert (H : StronglySorted (fun a b => le a b = true) (order_by l)).
  { apply Sorted_StronglySorted; [|apply order_by_sorted]. intros a b c. apply le_trans. }
  rewrite E in H. clear E. induction l1 as [|z l1 IH]; cbn in H; apply StronglySorted_inv in H as [Hs Hf]; [|by apply IH].
  rewrite List.Forall_forall in Hf. apply Hf, in_or_app. right. by left.
Qed.

End Sort.

(** ** Code that may throw *)

Definition sbind {A B} (m : CodedError + A) (k : A -> CodedError + B) : CodedError + B :=
  match m with inl e => inl e | inr a => k a end.
Definition require (c : bool) (e : CodedError) : CodedError + unit := if c then inr tt else inl e.
Definition some_or {A} (o : option A) (e : CodedError) : CodedError + A := match o with Some a => inr a | None => inl e end.
(** A check that answers the error it throws. *)
Definition passes (o : option CodedError) : CodedError + unit := match o with Some e => inl e | None => inr tt end.

Declare Scope err_scope.
Delimit Scope err_scope with err.
Notation "x <- m ;; k" := (sbind m (fun x => k)) (at level 90, m at next level, k at level 200, right associativity) : err_scope.
Notation "m >> k" := (sbind m (fun _ => k)) (at level 90, k at level 200, right associativity) : err_scope.

Lemma sbind_inr {A B} (m : CodedError + A) (k : A -> CodedError + B) b :
  sbind m k = inr b <-> exists a, m = inr a /\ k a = inr b.
Proof. destruct m as [e|a]; cbn; split; [done|by intros (? & ? & _)|eauto|by intros (? & [= <-] & ?)]. Qed.

Lemma require_inr c e u : require c e = inr u <-> c = true.
Proof. destruct c; cbn; [by destruct u|done]. Qed.

Lemma some_or_inr {A} (o : option A) e a : some_or o e = inr a <-> o = Some a.
Proof. destruct o; cbn; split; congruence. Qed.

Lemma passes_inr o u : passes o = inr u <-> o = None.
Proof. destruct o; cbn; [done|by destruct u]. Qed.

(** Read a throwing computation that returned. *)
Ltac returned H :=
  repeat match type of H with
  | sbind _ _ = inr _ => let x := fresh "x" in let E := fresh "E" in apply sbind_inr in H as (x & E & H)
  end.
