(* ===== verification/RateLimit.v ===== *)
(** * Rate limit policies ([server/src/services/rateLimitPolicy.service.ts])

    Limits per source address, global or local to a tenant, a group or an agent: their
    validation, who may write which, and the rules delivered to an agent. Error messages are
    the code's without the refused value. *)

From S2P Require Import Prelude JsString JsValue JsNumber Tenancy Access Query.
Local Open Scope err_scope.

(** ** Rows *)

Definition MAX_LIST : nat := 1000.
Definition MAX_LIMIT_VALUE : Z := 1000000.
Definition MIN_BAN_MULTIPLIER : Z := 2.
Definition MAX_BAN_MULTIPLIER : Z := 1000.
Definition MAX_BAN_TTL_SECONDS : Z := 10 * 365 * 24 * 3600.
Definition MAX_INT4 : Z := 2147483647.
Definition TYPES : list string := ["connection"; "rate"; "volume"].
Definition SCOPES : list string := ["global"; "tenant"; "group"; "agent"].

(** [rate_limit_policies] (migration 021). *)
Record PolicyRow := {
  rl_id : Z; rl_type : string; rl_scope : string; rl_scope_id : option Z; rl_tenant_id : option Z; rl_enabled : bool;
  rl_port : option Z; rl_max_value : Z; rl_ban_multiplier : option Z; rl_action : string; rl_ban_ttl_seconds : option Z;
  rl_created_by : option Z; rl_created_at : Z; rl_updated_at : Z
}.

Record Limits := { lm_rows : list PolicyRow; lm_next : Z }.

(** ** Validation *)

(** The fields of a merged request, unchecked. *)
Record RawFields := {
  rf_type : js; rf_scope : js; rf_scopeId : js; rf_enabled : js; rf_port : js; rf_maxValue : js;
  rf_banMultiplier : js; rf_action : js; rf_banTtlSeconds : js
}.
Record PolicyFields := {
  pf_type : string; pf_scope : string; pf_scopeId : option Z; pf_enabled : bool; pf_port : option Z; pf_maxValue : Z;
  pf_banMultiplier : option Z; pf_action : string; pf_banTtlSeconds : option Z
}.

Definition isIntIn (v : js) (lo hi : Z) : option Z :=
  match safe_integer v with Some z => if (lo <=? z) && (z <=? hi) then Some z else None | None => None end.

(** [list.includes(v)] *)
Definition one_of (l : list string) (v : js) : option string :=
  match v with JStr s => if existsb (String.eqb s) l then Some s else None | _ => None end.

(** A field that may be null. *)
Definition null_or (v : js) (lo hi : Z) : option (option Z) :=
  if is_null v then Some None else option_map Some (isIntIn v lo hi).

Definition targeted (scope : js) : bool :=
  match scope with JStr s => String.eqb s "group" || String.eqb s "agent" | _ => false end.

Definition bad (code message : string) : CodedError := codedError 400 code message.

(** drop everywhere; reject for connection and rate; shape for volume only. *)
Definition actions_of (type : string) : list string := if String.eqb type "volume" then ["drop"; "shape"] else ["drop"; "reject"].

Definition validatePolicyFields (p : RawFields) : CodedError + PolicyFields :=
  scope <- some_or (one_of SCOPES (rf_scope p)) (bad "RATE_LIMIT_SCOPE_INVALID" "Unknown rate limit scope") ;;
  require (negb (targeted (rf_scope p) && is_nullish (rf_scopeId p)))
    (bad "SCOPE_ID_REQUIRED" "scopeId is required for group/agent scope") >>
  scopeId <- some_or (null_or (rf_scopeId p) 1 MAX_INT4) (bad "SCOPE_ID_INVALID" "Invalid scopeId") ;;
  type <- some_or (one_of TYPES (rf_type p)) (bad "RATE_LIMIT_TYPE_INVALID" "Invalid rate limit type") ;;
  maxValue <- some_or (isIntIn (rf_maxValue p) 1 MAX_LIMIT_VALUE)
    (bad "RATE_LIMIT_MAX_VALUE_INVALID" "maxValue must be an integer between 1 and 1000000") ;;
  port <- some_or (null_or (rf_port p) 1 65535) (bad "PORT_INVALID" "port must be an integer between 1 and 65535") ;;
  enabled <- some_or (match rf_enabled p with JBool b => Some b | _ => None end) (bad "FIELD_BOOLEAN" "enabled must be a boolean") ;;
  action <- some_or (one_of (actions_of type) (rf_action p)) (bad "RATE_LIMIT_ACTION_INVALID" "action does not suit the limit") ;;
  multiplier <- some_or (null_or (rf_banMultiplier p) MIN_BAN_MULTIPLIER MAX_BAN_MULTIPLIER)
    (bad "RATE_LIMIT_BAN_MULTIPLIER_INVALID" "banMultiplier must be an integer between 2 and 1000") ;;
  ttl <- some_or (null_or (rf_banTtlSeconds p) 1 MAX_BAN_TTL_SECONDS)
    (bad "RATE_LIMIT_BAN_TTL_INVALID" "banTtlSeconds must be an integer between 1 and 315360000") ;;
  inr {| pf_type := type; pf_scope := scope; pf_scopeId := scopeId; pf_enabled := enabled; pf_port := port;
         pf_maxValue := maxValue; pf_banMultiplier := multiplier; pf_action := action; pf_banTtlSeconds := ttl |}.

Definition js_id (o : option Z) : js := match o with Some z => JNum (NInt z) | None => JNull end.

Definition assertTargetWritable (d : Directory) (p : PolicyFields) (tenantId : Z) : option CodedError :=
  if String.eqb (pf_scope p) "global" && negb (isMasterTenant (Some tenantId))
  then Some (codedError 403 "RATE_LIMIT_GLOBAL_DEFAULT_TENANT_ONLY" "Global rate limit policies can only be created from the Default tenant")
  else if String.eqb (pf_scope p) "group" || String.eqb (pf_scope p) "agent"
  then assertScopeInTenant d (pf_scope p) (js_id (pf_scopeId p)) tenantId Write
  else None.

(** [v === undefined || v === null || v === ''] *)
Definition unset (v : js) : bool := is_nullish v || match v with JStr s => is_empty s | _ => false end.
Definition optInt (v : js) : js := if unset v then JNull else v.

(** The digits test is [/^d+$/]: the letter [d], one or more times. *)
Definition only_d (s : string) : bool := negb (is_empty s) && str_forall (Ascii.eqb "d") s.
Definition optScopeId (v : js) : js :=
  if unset v then JNull
  else match v with
       | JNum n => JNum n
       | JStr s => JNum (if only_d s then str_to_number s else NOther)
       | _ => JNum NOther
       end.

Definition sent (data : js) (key : string) : bool := has_field key data && negb (is_undefined (get_field key data)).

(** ** Writes *)

Definition row_of (id : Z) (p : PolicyFields) (tenantId : Z) (createdBy : option Z) (createdAt now : Z) : PolicyRow :=
  {| rl_id := id; rl_type := pf_type p; rl_scope := pf_scope p; rl_scope_id := pf_scopeId p;
     rl_tenant_id := if String.eqb (pf_scope p) "global" then None else Some tenantId; rl_enabled := pf_enabled p;
     rl_port := pf_port p; rl_max_value := pf_maxValue p; rl_ban_multiplier := pf_banMultiplier p; rl_action := pf_action p;
     rl_ban_ttl_seconds := pf_banTtlSeconds p; rl_created_by := createdBy; rl_created_at := createdAt; rl_updated_at := now |}.

Definition create_fields (data : js) : RawFields :=
  let scope := nullish_or (get_field "scope" data) (JStr "global") in
  {| rf_type := get_field "type" data; rf_scope := scope;
     rf_scopeId := if targeted scope then optScopeId (get_field "scopeId" data) else JNull;
     rf_enabled := nullish_or (get_field "enabled" data) (JBool true); rf_port := optInt (get_field "port" data);
     rf_maxValue := get_field "maxValue" data; rf_banMultiplier := optInt (get_field "banMultiplier" data);
     rf_action := nullish_or (get_field "action" data) (JStr "drop"); rf_banTtlSeconds := optInt (get_field "banTtlSeconds" data) |}.

Definition create (d : Directory) (now : Z) (data : js) (userId tenantId : Z) (s : Limits) : (CodedError + PolicyRow) * Limits :=
  match (fields <- validatePolicyFields (create_fields data) ;;
         passes (assertTargetWritable d fields tenantId) >> inr fields) with
  | inl e => (inl e, s)
  | inr fields =>
      let row := row_of (lm_next s) fields tenantId (if userId =? 0 then None else Some userId) now now in
      (inr row, {| lm_rows := lm_rows s ++ [row]; lm_next := lm_next s + 1 |})
  end.

Definition policy_not_found : CodedError := codedError 404 "RATE_LIMIT_POLICY_NOT_FOUND" "Rate limit policy not found".

(** Who may edit a policy. *)
Definition edit_refusal (row : PolicyRow) (tenantId : Z) : option CodedError :=
  if String.eqb (rl_scope row) "global" then
    if isMasterTenant (Some tenantId) then None
    else Some (codedError 403 "RATE_LIMIT_GLOBAL_DEFAULT_TENANT_ONLY" "A global rate limit policy can only be edited from the Default tenant")
  else if default MASTER_TENANT_ID (rl_tenant_id row) =? tenantId then None
  else if isMasterTenant (Some tenantId) then
    Some (codedError 403 "FOREIGN_TENANT_READ_ONLY" "This rate limit policy belongs to another tenant: read-only from the Default tenant")
  else Some policy_not_found.

Definition update_fields (cur : PolicyRow) (data : js) : RawFields :=
  let pick key current := if sent data key then get_field key data else current in
  let scope := pick "scope" (JStr (rl_scope cur)) in
  let opt_pick key current := if sent data key then optInt (get_field key data) else js_id current in
  {| rf_type := pick "type" (JStr (rl_type cur)); rf_scope := scope;
     rf_scopeId := if negb (targeted scope) then JNull
                   else if sent data "scopeId" then optScopeId (get_field "scopeId" data)
                   else match scope with JStr s => if String.eqb s (rl_scope cur) then js_id (rl_scope_id cur) else JNull | _ => JNull end;
     rf_enabled := pick "enabled" (JBool (rl_enabled cur)); rf_port := opt_pick "port" (rl_port cur);
     rf_maxValue := pick "maxValue" (JNum (NInt (rl_max_value cur)));
     rf_banMultiplier := opt_pick "banMultiplier" (rl_ban_multiplier cur);
     rf_action := pick "action" (JStr (rl_action cur)); rf_banTtlSeconds := opt_pick "banTtlSeconds" (rl_ban_ttl_seconds cur) |}.

Definition object_keys (v : js) : list string := match v with JObj l => map fst l | _ => [] end.
Definition disableOnly (fields : RawFields) (data : js) : bool :=
  match rf_enabled fields with JBool false => true | _ => false end
  && forallb (fun k => String.eqb k "enabled" || is_undefined (get_field k data)) (object_keys data).

Definition disable_row (now : Z) (r : PolicyRow) : PolicyRow :=
  {| rl_id := rl_id r; rl_type := rl_type r; rl_scope := rl_scope r; rl_scope_id := rl_scope_id r; rl_tenant_id := rl_tenant_id r;
     rl_enabled := false; rl_port := rl_port r; rl_max_value := rl_max_value r; rl_ban_multiplier := rl_ban_multiplier r;
     rl_action := rl_action r; rl_ban_ttl_seconds := rl_ban_ttl_seconds r; rl_created_by := rl_created_by r;
     rl_created_at := rl_created_at r; rl_updated_at := now |}.

Definition replace_row (id : Z) (f : PolicyRow -> PolicyRow) (s : Limits) : Limits :=
  {| lm_rows := map (fun r => if rl_id r =? id then f r else r) (lm_rows s); lm_next := lm_next s |}.

Definition update (d : Directory) (now id : Z) (data : js) (tenantId : Z) (s : Limits) : (CodedError + PolicyRow) * Limits :=
  match List.find (fun r => rl_id r =? id) (lm_rows s) with
  | None => (inl policy_not_found, s)
  | Some row =>
      match edit_refusal row tenantId with
      | Some e => (inl e, s)
      | None =>
          let raw := update_fields row data in
          if disableOnly raw data then (inr (disable_row now row), replace_row id (disable_row now) s)
          else match (fields <- validatePolicyFields raw ;; passes (assertTargetWritable d fields tenantId) >> inr fields) with
               | inl e => (inl e, s)
               | inr fields =>
                   let f r := row_of (rl_id r) fields tenantId (rl_created_by r) (rl_created_at r) now in
                   (inr (f row), replace_row id f s)
               end
      end
  end.

Definition delete_refusal (d : Directory) (row : PolicyRow) (tenantId : Z) : option CodedError :=
  let target := if targeted (JStr (rl_scope row)) then resolveScopeTenant d (rl_scope row) (rl_scope_id row) else None in
  match whitelistDeleteVerdict (rl_scope row) (rl_tenant_id row) target tenantId with
  | D_forbidden_global =>
      Some (codedError 403 "RATE_LIMIT_GLOBAL_DEFAULT_TENANT_ONLY" "A global rate limit policy can only be removed from the Default tenant")
  | D_forbidden_foreign =>
      Some (codedError 403 "FOREIGN_TENANT_READ_ONLY" "This rate limit policy belongs to another tenant: read-only from the Default tenant")
  | D_not_found => Some policy_not_found
  | D_ok => None
  end.

Definition delete (d : Directory) (id tenantId : Z) (s : Limits) : option CodedError * Limits :=
  match List.find (fun r => rl_id r =? id) (lm_rows s) with
  | None => (Some policy_not_found, s)
  | Some row =>
      match delete_refusal d row tenantId with
      | Some e => (Some e, s)
      | None => (None, {| lm_rows := List.filter (fun r => negb (rl_id r =? id)) (lm_rows s); lm_next := lm_next s |})
      end
  end.

(** ** Lists *)

Definition created_le (a b : PolicyRow) : bool :=
  (rl_created_at a <? rl_created_at b) || ((rl_created_at a =? rl_created_at b) && (rl_id a <=? rl_id b)).
Definition scope_le (le : string -> string -> bool) (a b : PolicyRow) : bool :=
  if String.eqb (rl_scope a) (rl_scope b) then created_le a b else le (rl_scope a) (rl_scope b).

Definition narrowed (tenantId : Z) (tenantIds : option (list Z)) (r : PolicyRow) : bool :=
  negb (isMasterTenant (Some tenantId)) || whereReadTenants (readTenantsFor (JNum (NInt tenantId)) tenantIds) (rl_tenant_id r).

Definition listByScope (d : Directory) (scope : string) (scopeId : option Z) (tenantId : Z) (tenantIds : option (list Z))
    (s : Limits) : CodedError + list PolicyRow :=
  let own r := isMasterTenant (Some tenantId) || bool_decide (rl_tenant_id r = Some tenantId) in
  let in_scope r := String.eqb (rl_scope r) scope in
  let answer p := firstn MAX_LIST (order_by created_le (List.filter (fun r => p r && narrowed tenantId tenantIds r) (lm_rows s))) in
  if String.eqb scope "global" then inr (answer in_scope)
  else if String.eqb scope "tenant" then inr (answer (fun r => in_scope r && own r))
  else if targeted (JStr scope) then
    let owned r := isMasterTenant (Some tenantId) || orOwnedScopeRows d tenantId (rl_scope r) (rl_scope_id r) in
    match scopeId with
    | Some i =>
        passes (assertScopeInTenant d scope (JNum (NInt i)) tenantId Read) >>
        inr (answer (fun r => in_scope r && bool_decide (rl_scope_id r = Some i) && owned r))
    | None => inr (answer (fun r => in_scope r && owned r))
    end
  else inl (bad "RATE_LIMIT_SCOPE_INVALID" "Unknown rate limit scope").

(** [le]: the collation of the [scope] column. *)
Definition listAll (d : Directory) (le : string -> string -> bool) (tenantId : Z) (tenantIds : option (list Z)) (s : Limits) : list PolicyRow :=
  let visible r := isMasterTenant (Some tenantId) || String.eqb (rl_scope r) "global"
                   || (String.eqb (rl_scope r) "tenant" && bool_decide (rl_tenant_id r = Some tenantId))
                   || orOwnedScopeRows d tenantId (rl_scope r) (rl_scope_id r) in
  firstn MAX_LIST (order_by (scope_le le) (List.filter (fun r => visible r && narrowed tenantId tenantIds r) (lm_rows s))).

(** ** The rules of an agent *)

Record RateLimitRule := {
  ru_type : string; ru_port : option Z; ru_maxValue : Z; ru_banMultiplier : option Z; ru_action : string; ru_banTtlSeconds : option Z
}.
Definition rule_of (r : PolicyRow) : RateLimitRule :=
  {| ru_type := rl_type r; ru_port := rl_port r; ru_maxValue := rl_max_value r; ru_banMultiplier := rl_ban_multiplier r;
     ru_action := rl_action r; ru_banTtlSeconds := rl_ban_ttl_seconds r |}.

(** [`${row.type}:${row.port ?? 'all'}`] *)
Definition limit_key (r : PolicyRow) : string := rl_type r +:+ ":" +:+ match rl_port r with Some p => dec p | None => "all" end.

(** The map keeps its insertion order; the first writer of a key wins. *)
Definition collect_row (acc : list (string * RateLimitRule)) (r : PolicyRow) : list (string * RateLimitRule) :=
  if negb (rl_enabled r) then acc
  else if existsb (fun kr => String.eqb (fst kr) (limit_key r)) acc then acc
  else acc ++ [(limit_key r, rule_of r)].
Definition collect (acc : list (string * RateLimitRule)) (rows : list PolicyRow) : list (string * RateLimitRule) := fold_left collect_row rows acc.

Definition created_first (a b : PolicyRow) : bool := rl_created_at a <=? rl_created_at b.
(** One query: the enabled rows of a scope, oldest first. *)
Definition scope_query (p : PolicyRow -> bool) (s : Limits) : list PolicyRow :=
  order_by created_first (List.filter (fun r => p r && rl_enabled r) (lm_rows s)).

Definition at_scope (scope : string) (scopeId : option Z) (tenantId : option Z) (r : PolicyRow) : bool :=
  String.eqb (rl_scope r) scope
  && match scopeId with Some i => bool_decide (rl_scope_id r = Some i) | None => true end
  && match tenantId with Some t => bool_decide (rl_tenant_id r = Some t) | None => true end.

(** [enforcement]: app_config 'rateLimitEnforcement' is on. *)
Definition resolveForAgent (enforcement : bool) (deviceId : Z) (groupIds : list Z) (tenantId : Z) (ignoreEnforcement : bool)
    (s : Limits) : list RateLimitRule :=
  if negb ignoreEnforcement && negb enforcement then []
  else
    let r := collect [] (scope_query (at_scope "agent" (Some deviceId) (Some tenantId)) s) in
    let r := fold_left (fun acc g => collect acc (scope_query (at_scope "group" (Some g) (Some tenantId)) s)) groupIds r in
    let r := collect r (scope_query (at_scope "tenant" None (Some tenantId)) s) in
    map snd (collect r (scope_query (at_scope "global" None None) s)).

(** ** What the writes keep *)

Definition int_in (lo hi : Z) (o : option Z) : Prop := match o with Some z => lo <= z <= hi | None => True end.

(** The columns of a row: their bounds, an action that suits the type, a target exactly for
    the group and agent scopes, an owner exactly for the local ones. *)
Record policy_ok (r : PolicyRow) : Prop := {
  po_type : In (rl_type r) TYPES;
  po_scope : In (rl_scope r) SCOPES;
  po_action : In (rl_action r) (actions_of (rl_type r));
  po_max : 1 <= rl_max_value r <= MAX_LIMIT_VALUE;
  po_port : int_in 1 65535 (rl_port r);
  po_multiplier : int_in MIN_BAN_MULTIPLIER MAX_BAN_MULTIPLIER (rl_ban_multiplier r);
  po_ttl : int_in 1 MAX_BAN_TTL_SECONDS (rl_ban_ttl_seconds r);
  po_target : int_in 1 MAX_INT4 (rl_scope_id r) /\ (is_Some (rl_scope_id r) <-> targeted (JStr (rl_scope r)) = true);
  po_owner : is_Some (rl_tenant_id r) <-> rl_scope r <> "global"
}.

Record limits_ok (s : Limits) : Prop := {
  lo_ids : NoDup (map rl_id (lm_rows s));
  lo_fresh : Forall (fun r => rl_id r < lm_next s) (lm_rows s);
  lo_rows : Forall policy_ok (lm_rows s)
}.

Lemma one_of_some l v s : one_of l v = Some s -> v = JStr s /\ In s l.
Proof.
  destruct v; cbn; try done. destruct (existsb _ l) eqn:E; [|done]. intros [= <-]. split; [done|].
  apply existsb_exists in E as (x & Hx & E). apply String.eqb_eq in E. by subst x.
Qed.

Lemma isIntIn_some v lo hi z : isIntIn v lo hi = Some z -> lo <= z <= hi.
Proof. unfold isIntIn. destruct (safe_integer v); [|done]. destruct (_ && _) eqn:E; [|done]. intros [= <-]. boolify. lia. Qed.

Lemma null_or_some v lo hi o : null_or v lo hi = Some o -> int_in lo hi o /\ (o = None <-> is_null v = true).
Proof.
  unfold null_or. destruct (is_null v) eqn:E; [by intros [= <-]|]. destruct (isIntIn v lo hi) eqn:Ei; cbn; [|done].
  intros [= <-]. split; [by eapply isIntIn_some|done].
Qed.

(** A validated request gives a row of the table. *)
Lemma validated_row raw fields id t by_ c now :
  validatePolicyFields raw = inr fields -> (targeted (rf_scope raw) = false -> rf_scopeId raw = JNull) ->
  policy_ok (row_of id fields t by_ c now).
Proof.
  intros H Hs. unfold validatePolicyFields in H. returned H. injection H as <-.
  repeat match goal with E : some_or _ _ = inr _ |- _ => apply some_or_inr in E | E : require _ _ = inr _ |- _ => apply require_inr in E end.
  repeat match goal with
  | E : one_of _ _ = Some _ |- _ => apply one_of_some in E as [? ?]
  | E : null_or _ _ _ = Some _ |- _ => apply null_or_some in E as [? ?]
  | E : isIntIn _ _ _ = Some _ |- _ => apply isIntIn_some in E
  end.
  split; cbn -[targeted In]; try done.
  - split; [done|]. match goal with E : rf_scope raw = JStr _ |- _ => rewrite E in * end. rewrite <- not_eq_None_Some.
    destruct (targeted (JStr _)) eqn:Et; cbn [negb andb] in *.
    + split; [done|]. intros _. match goal with H : _ = None <-> _ |- _ <> None => rewrite H end. by destruct (rf_scopeId raw).
    + rewrite Hs in * by done. split; [|done]. intros Hn. exfalso. apply Hn.
      match goal with H : ?o = None <-> is_null JNull = true |- ?o = None => by apply H end.
  - match goal with |- is_Some (if String.eqb ?s "global" then _ else _) <-> _ => destruct (String.eqb_spec s "global") end.
    + split; [by intros [? ?]|done].
    + split; [done|eauto].
Qed.

Lemma create_target data : targeted (rf_scope (create_fields data)) = false -> rf_scopeId (create_fields data) = JNull.
Proof. unfold create_fields. cbn -[targeted]. by intros ->. Qed.

Lemma update_target cur data : targeted (rf_scope (update_fields cur data)) = false -> rf_scopeId (update_fields cur data) = JNull.
Proof. unfold update_fields. cbn -[targeted]. by intros ->. Qed.

Lemma disable_ok now r : policy_ok r -> policy_ok (disable_row now r).
Proof. intros []. by split. Qed.

Lemma replace_ids id f rows : (forall r, rl_id (f r) = rl_id r) -> map rl_id (map (fun r => if rl_id r =? id then f r else r) rows) = map rl_id rows.
Proof. intros Hf. rewrite map_map. apply map_ext. intros r. destruct (rl_id r =? id); [apply Hf|done]. Qed.

Lemma replace_ok id f s :
  limits_ok s -> (forall r, rl_id (f r) = rl_id r) -> (forall r, In r (lm_rows s) -> rl_id r = id -> policy_ok (f r)) ->
  limits_ok (replace_row id f s).
Proof.
  intros [Hk Hf Hr] Hid Hp. split; cbn [lm_rows lm_next replace_row].
  - by rewrite replace_ids.
  - apply Forall_map. eapply Forall_impl; [exact Hf|]. intros r Hlt. cbn. destruct (rl_id r =? id); [by rewrite Hid|done].
  - apply Forall_map. rewrite List.Forall_forall in Hr |- *. intros r Hin. cbn. destruct (Z.eqb_spec (rl_id r) id); [by apply Hp|by apply Hr].
Qed.

Lemma limits_create_ok d now data user t s : limits_ok s -> limits_ok (snd (create d now data user t s)).
Proof.
  intros Hok. unfold create. destruct (sbind _ _) as [e|fields] eqn:E; [done|]. cbn [snd]. returned E.
  injection E as <-. destruct Hok as [Hk Hf Hr]. split; cbn [lm_rows lm_next].
  - rewrite map_app. apply NoDup_app. split_and!; [done| |apply NoDup_singleton].
    intros i Hi Hi'. apply list_elem_of_singleton in Hi' as ->. apply list_elem_of_In, in_map_iff in Hi as (r & Hid & Hr').
    rewrite List.Forall_forall in Hf. specialize (Hf r Hr'). cbn in Hid. lia.
  - apply Forall_app. split; [|by repeat constructor; cbn; lia]. eapply Forall_impl; [exact Hf|]. cbn. lia.
  - apply Forall_app. split; [done|]. apply Forall_singleton. eapply validated_row; [done|apply create_target].
Qed.

Lemma limits_update_ok d now id data t s : limits_ok s -> limits_ok (snd (update d now id data t s)).
Proof.
  intros Hok. unfold update. destruct (List.find _ (lm_rows s)) as [row|] eqn:F; [|done].
  destruct (edit_refusal row t); [done|]. destruct (disableOnly _ _); cbn [snd].
  - apply replace_ok; [done|done|]. intros r Hin _. apply disable_ok. destruct Hok as [_ _ Hr]. rewrite List.Forall_forall in Hr. by apply Hr.
  - destruct (sbind _ _) as [e|fields] eqn:E; [done|]. cbn [snd]. returned E. injection E as <-.
    apply replace_ok; [done|done|]. intros r _ _. eapply validated_row; [done|apply update_target].
Qed.

Lemma limits_delete_ok d id t s : limits_ok s -> limits_ok (snd (delete d id t s)).
Proof.
  intros Hok. unfold delete. destruct (List.find _ (lm_rows s)) as [row|]; [|done]. destruct (delete_refusal d row t); [done|].
  destruct Hok as [Hk Hf Hr]. cbn [snd]. split; cbn [lm_rows lm_next].
  - by apply NoDup_map_filter.
  - rewrite List.Forall_forall in Hf |- *. intros r H. apply filter_In in H as [H _]. by apply Hf.
  - rewrite List.Forall_forall in Hr |- *. intros r H. apply filter_In in H as [H _]. by apply Hr.
Qed.

(** ** Which rows reach an agent *)

(** An agent: its id, its groups from the nearest, its tenant. *)
Record LimitContext := { lc_device : Z; lc_groups : list Z; lc_tenant : Z }.

Definition resolve_in (enforcement ignoreEnforcement : bool) (c : LimitContext) (s : Limits) : list RateLimitRule :=
  resolveForAgent enforcement (lc_device c) (lc_groups c) (lc_tenant c) ignoreEnforcement s.

(** The four levels of the resolution, one query each (one per group), nearest first. *)
Definition level_tests (c : LimitContext) : list (PolicyRow -> bool) :=
  at_scope "agent" (Some (lc_device c)) (Some (lc_tenant c))
  :: map (fun g => at_scope "group" (Some g) (Some (lc_tenant c))) (lc_groups c)
  ++ [at_scope "tenant" None (Some (lc_tenant c)); at_scope "global" None None].

Fixpoint level_from (n : nat) (tests : list (PolicyRow -> bool)) (r : PolicyRow) : option nat :=
  match tests with
  | [] => None
  | p :: rest => if p r then Some n else level_from (S n) rest r
  end.
(** How near a row is to the agent; [None]: it does not reach it. *)
Definition level (c : LimitContext) (r : PolicyRow) : option nat := level_from 0 (level_tests c) r.
Definition reaches (c : LimitContext) (r : PolicyRow) : bool := existsb (fun p => p r) (level_tests c).

Definition level_rows (c : LimitContext) (s : Limits) : list PolicyRow :=
  concat (map (fun p => scope_query p s) (level_tests c)).

Lemma limits_collect_app acc l1 l2 : collect acc (l1 ++ l2) = collect (collect acc l1) l2.
Proof. apply fold_left_app. Qed.

Lemma resolve_levels e i c s :
  resolve_in e i c s = if negb i && negb e then [] else map snd (collect [] (level_rows c s)).
Proof.
  unfold resolve_in, resolveForAgent, level_rows, level_tests. destruct (negb i && negb e); [done|].
  cbn [map concat]. rewrite map_app, concat_app. cbn [map concat]. rewrite app_nil_r, map_map, !limits_collect_app.
  do 3 f_equal. generalize (collect [] (scope_query (at_scope "agent" (Some (lc_device c)) (Some (lc_tenant c))) s)).
  induction (lc_groups c) as [|g l IH]; intros acc; [done|]. cbn [map concat fold_left]. rewrite limits_collect_app. apply IH.
Qed.

Lemma level_reaches c r : is_Some (level c r) <-> reaches c r = true.
Proof.
  unfold level, reaches. generalize 0%nat. induction (level_tests c) as [|p l IH]; intros n; cbn.
  - split; [by intros [? ?]|done].
  - destruct (p r); cbn; [by split; eauto|apply IH].
Qed.

(** Only the rows that reach the agent count. *)
Lemma resolve_filter e i c s s' :
  List.filter (reaches c) (lm_rows s) = List.filter (reaches c) (lm_rows s') -> resolve_in e i c s = resolve_in e i c s'.
Proof.
  intros H. rewrite !resolve_levels. destruct (negb i && negb e); [done|]. do 2 f_equal. unfold level_rows. f_equal.
  apply List.map_ext_in. intros p Hp. unfold scope_query. f_equal.
  assert (E : forall l, List.filter (fun r => p r && rl_enabled r) l = List.filter (fun r => p r && rl_enabled r) (List.filter (reaches c) l)).
  { intros l. symmetry. apply filter_filter_implied. intros r _ Hr. boolify. unfold reaches. apply existsb_exists. eauto. }
  by rewrite E, H, <- E.
Qed.

(** ** Tenants do not reach each other's agents *)

Inductive LimitRequest :=
| L_create (data : js) (userId : Z)
| L_update (id : Z) (data : js)
| L_delete (id : Z).

Definition serve (d : Directory) (tenantId : Z) (s : Limits) (q : Z * LimitRequest) : Limits :=
  let '(now, q) := q in
  match q with
  | L_create data userId => snd (create d now data userId tenantId s)
  | L_update id data => snd (update d now id data tenantId s)
  | L_delete id => snd (delete d id tenantId s)
  end.

(** The context of an agent of tenant [u], in groups of [u]. *)
Definition context_of (d : Directory) (u : Z) (c : LimitContext) : Prop :=
  lc_tenant c = u /\ resolveScopeTenant d "agent" (Some (lc_device c)) = Some u
  /\ Forall (fun g => resolveScopeTenant d "group" (Some g) = Some u) (lc_groups c).

Lemma reaches_spec c r :
  reaches c r = true ->
  rl_scope r = "global"
  \/ rl_tenant_id r = Some (lc_tenant c)
     /\ (rl_scope r = "tenant" \/ rl_scope r = "agent" /\ rl_scope_id r = Some (lc_device c)
         \/ rl_scope r = "group" /\ exists g, In g (lc_groups c) /\ rl_scope_id r = Some g).
Proof.
  intros H. apply existsb_exists in H as (p & Hp & Hr).
  assert (Hat : forall sc sid t, at_scope sc sid t r = true -> rl_scope r = sc /\ (forall i, sid = Some i -> rl_scope_id r = Some i)
    /\ (forall u, t = Some u -> rl_tenant_id r = Some u)).
  { intros sc sid t Ha. unfold at_scope in Ha. boolify. split_and!; [done| |].
    - intros i ->. by boolify.
    - intros u ->. by boolify. }
  destruct Hp as [<-|Hp]; [apply Hat in Hr as (? & Hi & Ht); right; split; [by apply Ht|]; right; left; by split; [|apply Hi]|].
  apply in_app_or in Hp as [Hp|[<-|[<-|[]]]].
  - apply in_map_iff in Hp as (g & <- & Hg). apply Hat in Hr as (? & Hi & Ht). right. split; [by apply Ht|]. right. right.
    split; [done|]. exists g. split; [done|by apply Hi].
  - apply Hat in Hr as (? & _ & Ht). right. split; [by apply Ht|by left].
  - apply Hat in Hr as (? & _). by left.
Qed.

Lemma reaches_disable now c r : reaches c (disable_row now r) = reaches c r.
Proof.
  unfold reaches, level_tests. cbn [existsb]. f_equal. rewrite !existsb_app. f_equal.
  induction (lc_groups c) as [|g l IH]; [done|]. cbn [map existsb]. by rewrite IH.
Qed.

(** A local row of tenant [t] reaches no agent of another tenant. *)
Lemma local_unreached c r t : rl_scope r <> "global" -> rl_tenant_id r = Some t -> t <> lc_tenant c -> reaches c r = false.
Proof. intros Hs Ht Hne. destruct (reaches c r) eqn:E; [|done]. apply reaches_spec in E as [?|[E _]]; congruence. Qed.

Lemma written_local d fields t id by_ c0 now c :
  isMasterTenant (Some t) = false -> assertTargetWritable d fields t = None -> t <> lc_tenant c ->
  reaches c (row_of id fields t by_ c0 now) = false.
Proof.
  intros Ht Ha Hne. unfold assertTargetWritable in Ha. rewrite Ht in Ha. cbn [negb] in Ha. rewrite andb_true_r in Ha.
  destruct (String.eqb_spec (pf_scope fields) "global") as [|Hs]; [done|].
  apply local_unreached with t; cbn; [done| |done]. by rewrite (proj2 (String.eqb_neq _ _) Hs).
Qed.

Lemma editable_local row t c :
  isMasterTenant (Some t) = false -> edit_refusal row t = None -> t <> lc_tenant c -> reaches c row = false.
Proof.
  intros Ht He Hne. unfold edit_refusal in He. rewrite Ht in He. destruct (String.eqb_spec (rl_scope row) "global") as [|Hs]; [done|].
  destruct (Z.eqb_spec (default MASTER_TENANT_ID (rl_tenant_id row)) t) as [Eo|]; [|done].
  destruct (rl_tenant_id row) as [o|] eqn:Er; cbn in Eo; subst t; [by apply local_unreached with o|by vm_compute in Ht].
Qed.

Lemma deletable_unreached d row t c u :
  isMasterTenant (Some t) = false -> t <> u -> context_of d u c -> delete_refusal d row t = None -> reaches c row = false.
Proof.
  intros Ht Hne (Hu & Hd & Hg) He. destruct (reaches c row) eqn:Er; [|done]. exfalso. apply reaches_spec in Er.
  unfold delete_refusal, whitelistDeleteVerdict in He. rewrite Ht in He.
  destruct (String.eqb_spec (rl_scope row) "global") as [|Hs]; [done|]. destruct Er as [|[Ho Hr]]; [done|].
  rewrite Ho in He. cbn [from_option id] in He. rewrite (proj2 (Z.eqb_neq t (lc_tenant c))) in He by congruence. cbn [orb] in He.
  rewrite bool_decide_false in He; [done|]. unfold targeted.
  destruct Hr as [-> |[[-> ->]|[-> (g & Hin & ->)]]]; cbn [String.eqb Ascii.eqb Bool.eqb orb]; [done|congruence|].
  rewrite List.Forall_forall in Hg. rewrite (Hg g Hin). congruence.
Qed.

Lemma replace_unreached c id f s row :
  limits_ok s -> List.find (fun r => rl_id r =? id) (lm_rows s) = Some row -> reaches c row = false -> reaches c (f row) = false ->
  List.filter (reaches c) (lm_rows (replace_row id f s)) = List.filter (reaches c) (lm_rows s).
Proof.
  intros [Hk _ _] F H1 H2. cbn [replace_row lm_rows].
  assert (Hone : forall r, In r (lm_rows s) -> rl_id r = id -> r = row).
  { intros r Hin <-. pose proof (find_unique rl_id (lm_rows s) r Hk Hin). congruence. }
  revert Hone. generalize (lm_rows s). intros l Hone. induction l as [|r l IH]; [done|]. cbn [map List.filter].
  rewrite IH by (intros x Hx; apply Hone; by right). destruct (Z.eqb_spec (rl_id r) id) as [E|]; [|done].
  rewrite (Hone r (or_introl eq_refl) E) in *. by rewrite H1, H2.
Qed.

Lemma serve_isolated d t u c s q :
  limits_ok s -> isMasterTenant (Some t) = false -> t <> u -> context_of d u c ->
  List.filter (reaches c) (lm_rows (serve d t s q)) = List.filter (reaches c) (lm_rows s).
Proof.
  intros Hok Ht Hne Hc. assert (Hlc : t <> lc_tenant c) by (destruct Hc; congruence). destruct q as [now [data user|id data|id]]; cbn [serve].
  - unfold create. destruct (sbind _ _) as [e|fields] eqn:E; [done|]. cbn [snd lm_rows]. returned E. injection E as <-.
    rewrite List.filter_app. cbn [List.filter]. apply passes_inr in E1. rewrite (written_local d) by done. by rewrite app_nil_r.
  - unfold update. destruct (List.find _ (lm_rows s)) as [row|] eqn:F; [|done]. destruct (edit_refusal row t) eqn:He; [done|].
    pose proof (editable_local row t c Ht He Hlc) as Hrow. destruct (disableOnly _ _); cbn [snd].
    + apply replace_unreached with row; [done|done|done|by rewrite reaches_disable].
    + destruct (sbind _ _) as [e|fields] eqn:E; [done|]. cbn [snd]. returned E. injection E as <-. apply passes_inr in E1.
      apply replace_unreached with row; [done|done|done|]. by apply (written_local d).
  - unfold delete. destruct (List.find _ (lm_rows s)) as [row|] eqn:F; [|done]. destruct (delete_refusal d row t) eqn:He; [done|].
    cbn [snd lm_rows]. apply filter_filter_implied. intros r Hin Hr. destruct (Z.eqb_spec (rl_id r) id) as [E|]; [|done].
    destruct Hok as [Hk _ _]. pose proof (find_unique rl_id _ _ Hk Hin) as Hf. rewrite E, F in Hf. injection Hf as ->.
    by rewrite (deletable_unreached d r t c u) in Hr.
Qed.

Lemma limits_serve_ok d t s q : limits_ok s -> limits_ok (serve d t s q).
Proof. destruct q as [now [data user|id data|id]]; cbn [serve]; intros H; [by apply limits_create_ok|by apply limits_update_ok|by apply limits_delete_ok]. Qed.

(** The limits of a tenant are its own: whatever requests another tenant than Default
    sends, the rules delivered to the agents of tenant [u] do not change, and the table keeps
    its keys, bounds and owners. *)
Theorem limits_isolated d t s requests (Hok : limits_ok s) (Ht : isMasterTenant (Some t) = false) :
  let s' := fold_left (serve d t) requests s in
  limits_ok s'
  /\ forall u c enforcement ignoreEnforcement, t <> u -> context_of d u c ->
       resolve_in enforcement ignoreEnforcement c s' = resolve_in enforcement ignoreEnforcement c s.
Proof.
  cbv zeta. revert s Hok. induction requests as [|q l IH]; intros s Hok; [done|]. cbn [fold_left].
  destruct (IH (serve d t s q) (limits_serve_ok d t s q Hok)) as [H1 H2]. split; [done|]. intros u c e i Hne Hc.
  rewrite (H2 u c e i Hne Hc). apply resolve_filter. by apply (serve_isolated d t u).
Qed.

(** ** The nearest limit wins *)

Lemma limit_key_inj r r' : limit_key r = limit_key r' <-> (rl_type r, rl_port r) = (rl_type r', rl_port r').
Proof.
  split; [|unfold limit_key; by intros [= -> ->]]. intros H.
  assert (Hp : forall o : option Z, str_includes ":" (match o with Some p => dec p | None => "all" end) = false)
    by (intros [p|]; [by apply dec_absent|done]).
  assert (Hall : forall p, dec p <> "all").
  { intros p E. pose proof (dec_chars p) as Hd. by rewrite E in Hd. }
  unfold limit_key in H. cbn [String.append] in H. apply split_last_inj in H as [-> H]; [|apply Hp..].
  destruct (rl_port r), (rl_port r'); [by apply dec_inj in H as ->|by apply Hall in H| |done]. symmetry in H. by apply Hall in H.
Qed.

Lemma has_key k acc : existsb (fun kr : string * RateLimitRule => String.eqb (fst kr) k) acc = true <-> In k (map fst acc).
Proof.
  rewrite existsb_exists, in_map_iff. split; intros (x & H1 & H2); exists x; [apply String.eqb_eq in H2|rewrite String.eqb_eq]; tauto.
Qed.

(** The map holds the first enabled row of each key. *)
Lemma collect_spec rows :
  NoDup (map fst (collect [] rows))
  /\ (forall k ru, In (k, ru) (collect [] rows) -> exists l1 r l2, rows = l1 ++ r :: l2 /\ rl_enabled r = true /\ limit_key r = k
        /\ rule_of r = ru /\ Forall (fun r' => rl_enabled r' = true -> limit_key r' <> k) l1)
  /\ (forall r, In r rows -> rl_enabled r = true -> In (limit_key r) (map fst (collect [] rows))).
Proof.
  induction rows as [|r rows (IH1 & IH2 & IH3)] using rev_ind; [split_and!; [constructor|done|done]|].
  replace (collect [] (rows ++ [r])) with (collect_row (collect [] rows) r) by (by rewrite limits_collect_app). unfold collect_row.
  assert (Hold : forall k ru, In (k, ru) (collect [] rows) -> exists l1 x l2, rows ++ [r] = l1 ++ x :: l2 /\ rl_enabled x = true
    /\ limit_key x = k /\ rule_of x = ru /\ Forall (fun r' => rl_enabled r' = true -> limit_key r' <> k) l1).
  { intros k ru H. destruct (IH2 k ru H) as (l1 & x & l2 & -> & H'). exists l1, x, (l2 ++ [r]). by rewrite <- app_assoc. }
  destruct (rl_enabled r) eqn:Er; cbn [negb].
  - destruct (existsb _ _) eqn:E; [|].
    + split_and!; [done|done|]. intros x Hx Hen. apply in_app_or in Hx as [Hx|[<-|[]]]; [by apply IH3|by apply has_key].
    + apply not_true_iff_false in E. rewrite has_key in E. rewrite map_app. split_and!.
      * apply NoDup_app. split_and!; [done| |apply NoDup_singleton]. intros k Hk Hk'. apply list_elem_of_singleton in Hk' as ->.
        by apply E, list_elem_of_In.
      * intros k ru H. apply in_app_or in H as [H|[[= <- <-]|[]]]; [by apply Hold|]. exists rows, r, []. split_and!; [done..|].
        apply List.Forall_forall. intros x Hx Hen Hk. apply E. rewrite <- Hk. by apply IH3.
      * intros x Hx Hen. apply in_or_app. apply in_app_or in Hx as [Hx|[<-|[]]]; [left; by apply IH3|right; by left].
  - split_and!; [done|done|]. intros x Hx Hen. apply in_app_or in Hx as [Hx|[<-|[]]]; [by apply IH3|congruence].
Qed.

Lemma level_from_ge n tests r a : level_from n tests r = Some a -> (n <= a)%nat.
Proof.
  revert n. induction tests as [|p l IH]; intros n; cbn; [done|]. destruct (p r); [by intros [= <-]|]. intros H%IH. lia.
Qed.

(** [r] is not after [r'] in the order of the levels. *)
Definition not_after (a b : option nat) (r r' : PolicyRow) : Prop :=
  match a, b with
  | Some a, Some b => (a < b)%nat \/ a = b /\ rl_created_at r <= rl_created_at r'
  | _, _ => False
  end.

Lemma scope_query_In p s r : In r (scope_query p s) <-> In r (lm_rows s) /\ p r = true /\ rl_enabled r = true.
Proof. unfold scope_query. rewrite order_by_In, filter_In, andb_true_iff. tauto. Qed.

Lemma query_before p s l1 r l2 r' : scope_query p s = l1 ++ r :: l2 -> In r' l2 -> rl_created_at r <= rl_created_at r'.
Proof.
  intros E Hin. apply in_split in Hin as (m1 & m2 & ->). apply Z.leb_le.
  refine (order_by_before created_first _ _ _ l1 r m1 r' m2 E); unfold created_first; intros; rewrite ?Z.leb_le, ?Z.leb_gt in *; lia.
Qed.

Lemma level_order s tests n l1 r l2 r' :
  concat (map (fun p => scope_query p s) tests) = l1 ++ r :: l2 -> ~ In r l1 -> ~ In r' l1 ->
  In r' (lm_rows s) -> rl_enabled r' = true -> existsb (fun p => p r') tests = true ->
  not_after (level_from n tests r) (level_from n tests r') r r'.
Proof.
  intros H Hr Hr' Hin Hen. revert n l1 H Hr Hr'. induction tests as [|p tests IH]; intros n l1 H Hr Hr' Hex; [done|].
  assert (Hrow : In r (lm_rows s) /\ rl_enabled r = true).
  { assert (Hc : In r (l1 ++ r :: l2)) by (apply in_or_app; right; by left). rewrite <- H in Hc. apply in_concat in Hc as (q & Hq & Hc).
    apply in_map_iff in Hq as (p' & <- & _). apply scope_query_In in Hc. tauto. }
  cbn [map concat] in H. cbn [existsb] in Hex. cbn [level_from].
  assert (Hskip : forall m, l1 = scope_query p s ++ m -> concat (map (fun p => scope_query p s) tests) = m ++ r :: l2 ->
    not_after (if p r then Some n else level_from (S n) tests r) (if p r' then Some n else level_from (S n) tests r') r r').
  { intros m -> Hm. assert (Hno : forall x, In x (lm_rows s) -> rl_enabled x = true -> ~ In x (scope_query p s ++ m) -> p x = false).
    { intros x Hx He Hn. destruct (p x) eqn:E; [|done]. exfalso. apply Hn, in_or_app. left. by apply scope_query_In. }
    rewrite (Hno r), (Hno r') in * by tauto. apply (IH (S n) m Hm); [| |done]; intros Hx; [apply Hr|apply Hr']; apply in_or_app; by right. }
  apply List.app_eq_app in H as (m & [[Hm Hl]|[Hm Hl]]); [|by apply Hskip with m].
  destruct m as [|y m]; [rewrite app_nil_r in Hm; apply Hskip with []; [by rewrite app_nil_r|done]|].
  injection Hl as <- Hl. assert (Hpr : In r (scope_query p s)) by (rewrite Hm; apply in_or_app; right; by left).
  apply scope_query_In in Hpr as (_ & -> & _). destruct (p r') eqn:Ep.
  - right. split; [done|]. assert (Hq : In r' (scope_query p s)) by (by apply scope_query_In). rewrite Hm in Hq.
    apply in_app_or in Hq as [Hq|[<-|Hq]]; [done|lia|]. by apply (query_before p s l1 r m).
  - cbn [orb] in Hex. destruct (level_from (S n) tests r') as [b|] eqn:El.
    + left. apply level_from_ge in El. lia.
    + exfalso. clear -Hex El. revert n El. induction tests as [|q tests IH]; intros n El; [done|]. cbn in *.
      destruct (q r'); [done|]. by apply (IH Hex (S n)).
Qed.

(** The limits of an agent are resolved exactly: nothing while enforcement is off;
    otherwise one rule per type and port, taken from an enabled row that reaches the agent and
    that no other such row precedes (a nearer level, or the same level and an older row), and
    every enabled row that reaches the agent has the rule of its type and port. *)
Theorem resolve_exact c s ignoreEnforcement :
  resolve_in false false c s = []
  /\ NoDup (map (fun ru => (ru_type ru, ru_port ru)) (resolve_in true ignoreEnforcement c s))
  /\ (forall ru, In ru (resolve_in true ignoreEnforcement c s) -> exists r, In r (lm_rows s) /\ rl_enabled r = true
        /\ reaches c r = true /\ rule_of r = ru
        /\ forall r', In r' (lm_rows s) -> rl_enabled r' = true -> reaches c r' = true ->
             (rl_type r', rl_port r') = (rl_type r, rl_port r) -> not_after (level c r) (level c r') r r')
  /\ (forall r, In r (lm_rows s) -> rl_enabled r = true -> reaches c r = true ->
        exists ru, In ru (resolve_in true ignoreEnforcement c s) /\ (ru_type ru, ru_port ru) = (rl_type r, rl_port r)).
Proof.
  destruct (collect_spec (level_rows c s)) as (Hk & Hin & Hall). rewrite !resolve_levels, andb_false_r.
  assert (Hrows : forall r, In r (level_rows c s) <-> In r (lm_rows s) /\ rl_enabled r = true /\ reaches c r = true).
  { intros r. unfold level_rows, reaches. rewrite in_concat, existsb_exists. split.
    - intros (q & Hq & Hr). apply in_map_iff in Hq as (p & <- & Hp). apply scope_query_In in Hr. split_and!; try tauto. exists p. tauto.
    - intros (H1 & H2 & p & Hp & Hr). exists (scope_query p s). split; [apply in_map_iff; eauto|]. by apply scope_query_In. }
  assert (Hrule : forall k ru, In (k, ru) (collect [] (level_rows c s)) -> exists r, rule_of r = ru /\ limit_key r = k).
  { intros k ru H. apply Hin in H as (l1 & r & l2 & _ & _ & H1 & H2 & _). eauto. }
  split_and!; [done| | |].
  - apply NoDup_fmap_1 with (f := fun tp : string * option Z => fst tp +:+ ":" +:+ match snd tp with Some p => dec p | None => "all" end).
    unfold fmap. rewrite map_map. change list_fmap with map. rewrite map_map. replace (map _ (collect _ _)) with (map fst (collect [] (level_rows c s))); [done|].
    apply map_ext_in. intros [k ru] H. apply Hrule in H as (r & <- & <-). done.
  - intros ru H. apply in_map_iff in H as ([k ru'] & Heq & H). cbn in Heq. subst ru'.
    apply Hin in H as (l1 & r & l2 & Hl & Hen & Hkey & Hru & Hfirst). rewrite List.Forall_forall in Hfirst.
    assert (Hr : In r (level_rows c s)) by (rewrite Hl; apply in_or_app; right; by left). apply Hrows in Hr as (H1 & H2 & H3).
    exists r. split_and!; [done..|]. intros r' H1' H2' H3' Heq. apply limit_key_inj in Heq.
    apply (level_order s (level_tests c) 0 l1 r l2 r'); [done| | |done|done|exact H3'].
    + intros Hx. by apply (Hfirst r Hx).
    + intros Hx. apply (Hfirst r' Hx); [done|congruence].
  - intros r H1 H2 H3. assert (Hr : In r (level_rows c s)) by (by apply Hrows). specialize (Hall r Hr H2).
    apply in_map_iff in Hall as ([k ru] & Hke & H). cbn in Hke. destruct (Hrule k ru H) as (r' & <- & Hk'). exists (rule_of r').
    split; [apply in_map_iff; by exists (k, rule_of r')|]. cbn. apply limit_key_inj. congruence.
Qed.

(** ** The scope id of a text *)

(** [optScopeId] is documented to accept a number or a decimal string, but its test
    [/^d+$/] lost the backslash of [\d]: a group or agent policy whose scopeId is the text of
    a number is refused, from every tenant and for every id, where the number itself goes
    through that check. *)
Theorem scope_id_text_refused d now data userId tenantId s n
    (Hs : get_field "scope" data = JStr "group" \/ get_field "scope" data = JStr "agent")
    (Hn : 1 <= n <= MAX_INT4) (Hid : get_field "scopeId" data = JStr (dec n)) :
  create d now data userId tenantId s = (inl (bad "SCOPE_ID_INVALID" "Invalid scopeId"), s)
  /\ null_or (optScopeId (JNum (NInt n))) 1 MAX_INT4 = Some (Some n)
  /\ str_to_number (dec n) = NInt n.
Proof.
  assert (He : is_empty (dec n) = false) by (unfold dec; destruct (Z.ltb_spec n 0); [lia|by apply to_base_nonempty]).
  assert (Hd : only_d (dec n) = false).
  { pose proof (dec_chars n) as H. unfold only_d. destruct (dec n) as [|c t]; [done|]. cbn [str_forall is_empty negb andb] in H |- *.
    destruct (Ascii.eqb_spec "d" c) as [<-|]; [done|done]. }
  assert (Hopt : optScopeId (JStr (dec n)) = JNum NOther) by (unfold optScopeId, unset; by rewrite He, Hd).
  split_and!.
  - unfold create. assert (Hv : validatePolicyFields (create_fields data) = inl (bad "SCOPE_ID_INVALID" "Invalid scopeId")); [|by rewrite Hv].
    unfold validatePolicyFields, create_fields. rewrite Hid, Hopt. by destruct Hs as [-> | ->].
  - unfold null_or, optScopeId, unset, isIntIn. cbn [is_nullish is_undefined is_null orb safe_integer].
    unfold MAX_INT4, max_safe_integer in *. rewrite (proj2 (Z.leb_le (Z.abs n) _)) by lia. by rewrite !(proj2 (Z.leb_le _ _)) by lia.
  - apply str_to_number_dec. unfold MAX_INT4 in *. lia.
Qed.

(** ** A sample *)

Definition sample_limit (id : Z) (scope : string) (sid tenant port : option Z) (max : Z) : PolicyRow :=
  {| rl_id := id; rl_type := "rate"; rl_scope := scope; rl_scope_id := sid; rl_tenant_id := tenant; rl_enabled := true; rl_port := port;
     rl_max_value := max; rl_ban_multiplier := None; rl_action := "drop"; rl_ban_ttl_seconds := None; rl_created_by := None;
     rl_created_at := id; rl_updated_at := id |}.
Definition sample_limits : Limits :=
  {| lm_rows := [sample_limit 1 "global" None None None 100; sample_limit 2 "group" (Some 20) (Some 3) None 50;
                 sample_limit 3 "agent" (Some 5) (Some 3) (Some 22) 5]; lm_next := 4 |}.
Definition sample_limit_context : LimitContext := {| lc_device := 5; lc_groups := [21; 20]; lc_tenant := 3 |}.

Lemma sample_limits_ok : limits_ok sample_limits.
Proof.
  split; [by apply (bool_decide_unpack _); vm_compute|repeat constructor; cbn; lia|].
  repeat (apply Forall_cons; split); [| | |constructor]; split; cbn -[Z.le]; unfold MAX_LIMIT_VALUE, MAX_INT4;
    try (split_and!; lia); try tauto; try (split; [by intros [? ?]|done]); split; try lia; split; try done; eauto.
  all: by intros [? ?].
Qed.

Lemma limits_isolated_witness :
  map ru_maxValue (resolve_in true false sample_limit_context sample_limits) = [5; 50]
  /\ resolve_in true false sample_limit_context
       (fold_left (serve sample_dir 4)
          [(10, L_create (JObj [("type", JStr "rate"); ("scope", JStr "agent"); ("scopeId", JNum (NInt 6)); ("maxValue", JNum (NInt 1))]) 7);
           (11, L_delete 3); (12, L_update 2 (JObj [("enabled", JBool false)]))] sample_limits)
     = resolve_in true false sample_limit_context sample_limits.
Proof.
  split; [by vm_compute|]. refine (proj2 (limits_isolated sample_dir 4 sample_limits _ sample_limits_ok eq_refl) 3 sample_limit_context true false _ _).
  - done.
  - split_and!; [done|done|]. repeat constructor.
Defined.

Lemma scope_id_text_refused_witness :
  err_code (match fst (create sample_dir 10 (JObj [("type", JStr "rate"); ("scope", JStr "group"); ("scopeId", JStr "20"); ("maxValue", JNum (NInt 9))]) 7 3 sample_limits)
            with inl e => e | inr _ => policy_not_found end) = "SCOPE_ID_INVALID".
Proof.
  rewrite (proj1 (scope_id_text_refused sample_dir 10
    (JObj [("type", JStr "rate"); ("scope", JStr "group"); ("scopeId", JStr "20"); ("maxValue", JNum (NInt 9))]) 7 3 sample_limits 20
    (or_introl eq_refl) ltac:(unfold MAX_INT4; lia) eq_refl)). done.
Defined.
