(* ===== verification/GroupTree.v ===== *)
(** * Groups and their closure table ([server/src/services/group.service.ts])

    Groups form a forest by [parent_id]; [group_closure] stores every ancestor of every group
    with its distance, and all the inheritance of the server (permissions, settings, update
    policies) reads it. The operations that write the two tables, with the guards of
    [server/src/controllers/groups.controller.ts]; the writes of the group configuration
    columns are in [SettingsStore]. *)

From S2P Require Import Prelude JsString JsValue Tenancy Access Query.

(** ** Tables *)

(** [monitor_groups] *)
Record GroupNode := {
  gn_name : string; gn_slug : string; gn_description : option string; gn_parent : option Z; gn_sort_order : Z;
  gn_is_general : bool; gn_evaluate_only : bool; gn_tenant : Z
}.

(** [group_closure] by its primary key (ancestor, descendant). *)
Abbreviation Closure := (gmap (Z * Z) Z).

Record Forest := { fo_groups : gmap Z GroupNode; fo_closure : Closure; fo_next : Z }.

Definition set_parent (p : option Z) (g : GroupNode) : GroupNode :=
  {| gn_name := gn_name g; gn_slug := gn_slug g; gn_description := gn_description g; gn_parent := p; gn_sort_order := gn_sort_order g;
     gn_is_general := gn_is_general g; gn_evaluate_only := gn_evaluate_only g; gn_tenant := gn_tenant g |}.
Definition set_sort_order (n : Z) (g : GroupNode) : GroupNode :=
  {| gn_name := gn_name g; gn_slug := gn_slug g; gn_description := gn_description g; gn_parent := gn_parent g; gn_sort_order := n;
     gn_is_general := gn_is_general g; gn_evaluate_only := gn_evaluate_only g; gn_tenant := gn_tenant g |}.

(** ** Slugs *)

(** [.replace(/[^a-z0-9]+/g, '-')]: [dash] tells whether the run has its dash already. *)
Definition is_slug_char (c : ascii) : bool := is_lower c || is_digit c.
Fixpoint dashed (dash : bool) (s : string) : string :=
  match s with
  | EmptyString => EmptyString
  | String c r => if is_slug_char c then String c (dashed false r)
                  else if dash then dashed true r else String "-" (dashed true r)
  end.
(** [.replace(/^-|-$/g, '')] *)
Definition strip_dashes (s : string) : string :=
  strip_last "-" (match s with String c r => if Ascii.eqb c "-" then r else s | EmptyString => s end).
Definition slugify (name : string) : string := strip_dashes (dashed false (to_lower name)).

Definition slug_taken (groups : gmap Z GroupNode) (excludeId : option Z) (slug : string) : bool :=
  existsb (fun '(id, g) => String.eqb (gn_slug g) slug && negb (bool_decide (excludeId = Some id))) (map_to_list groups).

(** The loop of [ensureUniqueSlug]: [candidate], then [slug-1], [slug-2]...; one unit of fuel
    per candidate. *)
Fixpoint unique_slug (fuel : nat) (taken : string -> bool) (slug candidate : string) (i : Z) : option string :=
  match fuel with
  | O => None
  | S fuel => if taken candidate then unique_slug fuel taken slug (slug +:+ "-" +:+ dec i) (i + 1) else Some candidate
  end.
(** A group more than the table holds is enough ([slug_found]). *)
Definition ensureUniqueSlug (groups : gmap Z GroupNode) (slug : string) (excludeId : option Z) : option string :=
  unique_slug (S (size groups)) (slug_taken groups excludeId) slug slug 1.

(** ** Closure queries *)

(** Rows [(ancestor, depth)] of a descendant, [(descendant, depth)] of an ancestor. *)
Definition ancestors_of (c : Closure) (d : Z) : list (Z * Z) :=
  omap (fun '((a, d'), k) => if d' =? d then Some (a, k) else None) (map_to_list c).
Definition descendants_of (c : Closure) (a : Z) : list (Z * Z) :=
  omap (fun '((a', d), k) => if a' =? a then Some (d, k) else None) (map_to_list c).

Definition getDescendantIds (s : Forest) (groupId : Z) : list Z := map fst (descendants_of (fo_closure s) groupId).
(** Root first. *)
Definition getAncestors (s : Forest) (groupId : Z) : list Z :=
  map fst (order_by (fun x y => snd y <=? snd x) (List.filter (fun ak => 0 <? snd ak) (ancestors_of (fo_closure s) groupId))).

(** INSERT of several rows: [None] when one of them breaks the primary key. *)
Fixpoint insert_closure (rows : list (Z * Z * Z)) (c : Closure) : option Closure :=
  match rows with
  | [] => Some c
  | (k, v) :: r => match c !! k with Some _ => None | None => insert_closure r (<[k := v]> c) end
  end.

(** ** Operations *)

(** What is thrown: a foreign key or primary key violation, the error of [move]; [E_slug]:
    the search of a slug did not end, which [slug_found] excludes. *)
Inductive GroupError := E_parent | E_duplicate | E_descendant | E_slug.

Record CreateGroup := {
  cg_name : string; cg_description : option string; cg_parentId : option Z; cg_sortOrder : option Z; cg_isGeneral : option bool
}.

Definition create (data : CreateGroup) (tenantId : Z) (s : Forest) : (GroupError + Z) * Forest :=
  match ensureUniqueSlug (fo_groups s) (slugify (cg_name data)) None with
  | None => (inl E_slug, s)
  | Some slug =>
      if match cg_parentId data with Some p => bool_decide (fo_groups s !! p = None) | None => false end then (inl E_parent, {| fo_groups := fo_groups s; fo_closure := fo_closure s; fo_next := fo_next s + 1 |})
      else
        let id := fo_next s in
        let row := {| gn_name := cg_name data; gn_slug := slug; gn_description := cg_description data; gn_parent := cg_parentId data;
                      gn_sort_order := default 0 (cg_sortOrder data); gn_is_general := default false (cg_isGeneral data);
                      gn_evaluate_only := false; gn_tenant := tenantId |} in
        let s1 := {| fo_groups := <[id := row]> (fo_groups s); fo_closure := fo_closure s; fo_next := id + 1 |} in
        match insert_closure [(id, id, 0)] (fo_closure s1) with
        | None => (inl E_duplicate, s1)
        | Some c1 =>
            let s2 := {| fo_groups := fo_groups s1; fo_closure := c1; fo_next := fo_next s1 |} in
            let rows := match cg_parentId data with
                        | Some p => if p =? 0 then [] else map (fun '(a, k) => (a, id, k + 1)) (ancestors_of c1 p)
                        | None => []
                        end in
            match insert_closure rows c1 with
            | None => (inl E_duplicate, s2)
            | Some c2 => (inr id, {| fo_groups := fo_groups s2; fo_closure := c2; fo_next := fo_next s2 |})
            end
        end
  end.

Record UpdateGroup := {
  ug_name : option string; ug_description : option (option string); ug_sortOrder : option Z; ug_isGeneral : option bool;
  ug_evaluateOnly : option bool
}.

Definition update (id : Z) (data : UpdateGroup) (s : Forest) : (GroupError + option GroupNode) * Forest :=
  match (match ug_name data with
         | Some n => option_map (fun sl => Some (n, sl)) (ensureUniqueSlug (fo_groups s) (slugify n) (Some id))
         | None => Some None
         end) with
  | None => (inl E_slug, s)
  | Some named =>
      match fo_groups s !! id with
      | None => (inr None, s)
      | Some g =>
          let g' := {| gn_name := match named with Some (n, _) => n | None => gn_name g end;
                       gn_slug := match named with Some (_, sl) => sl | None => gn_slug g end;
                       gn_description := default (gn_description g) (ug_description data); gn_parent := gn_parent g;
                       gn_sort_order := default (gn_sort_order g) (ug_sortOrder data);
                       gn_is_general := default (gn_is_general g) (ug_isGeneral data);
                       gn_evaluate_only := default (gn_evaluate_only g) (ug_evaluateOnly data); gn_tenant := gn_tenant g |} in
          (inr (Some g'), {| fo_groups := <[id := g']> (fo_groups s); fo_closure := fo_closure s; fo_next := fo_next s |})
      end
  end.

(** The links from outside a subtree into it. *)
Definition outside_link (sub : list Z) (k : Z * Z) : bool := mem (snd k) sub && negb (mem (fst k) sub).

Definition move (id : Z) (newParentId : option Z) (s : Forest) : (GroupError + option GroupNode) * Forest :=
  match fo_groups s !! id with
  | None => (inr None, s)
  | Some g =>
      if match newParentId with Some p => bool_decide (is_Some (fo_closure s !! (id, p))) | None => false end
      then (inl E_descendant, s)
      else
        let descIds := getDescendantIds s id in
        let c1 := filter (fun kv => outside_link descIds (fst kv) = false) (fo_closure s) in
        let s1 := {| fo_groups := fo_groups s; fo_closure := c1; fo_next := fo_next s |} in
        let rows := match newParentId with
                    | Some p => flat_map (fun '(a, k) => map (fun '(d, m) => (a, d, k + m + 1)) (descendants_of c1 id)) (ancestors_of c1 p)
                    | None => []
                    end in
        match insert_closure rows c1 with
        | None => (inl E_duplicate, s1)
        | Some c2 =>
            let s2 := {| fo_groups := fo_groups s; fo_closure := c2; fo_next := fo_next s |} in
            if match newParentId with Some p => bool_decide (fo_groups s !! p = None) | None => false end then (inl E_parent, s2)
            else (inr (Some (set_parent newParentId g)),
                  {| fo_groups := <[id := set_parent newParentId g]> (fo_groups s); fo_closure := c2; fo_next := fo_next s |})
        end
  end.

(** ON DELETE CASCADE of [parent_id], one generation per unit of fuel. *)
Definition children (groups : gmap Z GroupNode) (dead : gset Z) : gset Z :=
  dom (filter (fun kg => match gn_parent (snd kg) with Some p => bool_decide (p ∈ dead) | None => false end = true) groups).
Fixpoint cascade (fuel : nat) (groups : gmap Z GroupNode) (dead : gset Z) : gset Z :=
  match fuel with
  | O => dead
  | S fuel => cascade fuel groups (dead ∪ children groups dead)
  end.

(** The deleted ids whose settings rows are dropped, and the tables. *)
Definition delete_group (id : Z) (s : Forest) : bool * list Z * Forest :=
  let subtree := getDescendantIds s id in
  match fo_groups s !! id with
  | None => (false, [], s)
  | Some _ =>
      let dead := cascade (size (fo_groups s)) (fo_groups s) {[ id ]} in
      (true, uniq (id :: subtree),
       {| fo_groups := filter (fun kg => fst kg ∉ dead) (fo_groups s);
          fo_closure := filter (fun kv => (fst (fst kv) ∉ dead) /\ (snd (fst kv) ∉ dead)) (fo_closure s); fo_next := fo_next s |})
  end.

Definition reorder (items : list (Z * Z)) (tenantId : Z) (s : Forest) : Forest :=
  {| fo_groups := fold_left (fun m '(id, n) => match m !! id with
                                               | Some g => if gn_tenant g =? tenantId then <[id := set_sort_order n g]> m else m
                                               | None => m
                                               end) items (fo_groups s);
     fo_closure := fo_closure s; fo_next := fo_next s |}.

(** ** Handlers *)

Definition loadGroup (id tenantId : Z) (mode : Mode) (s : Forest) : Z + GroupNode :=
  match fo_groups s !! id with
  | None => inl 404
  | Some g => match deviceAccessVerdict (gn_tenant g) tenantId mode with
              | V_ok => inr g
              | V_forbidden => inl 403
              | V_not_found => inl 404
              end
  end.

(** The message of an error thrown by the service (the database's own are internal). *)
Definition error_message (e : GroupError) : string :=
  match e with E_descendant => "Cannot move group into its own descendant" | _ => "" end.

(** What [errorHandler] answers to an error of the service: a foreign key or unique
    violation is a client error ([mapPgError]), a plain [Error] an internal one. *)
Definition service_status (e : GroupError) : Z :=
  match e with E_parent => 400 | E_duplicate => 409 | E_descendant | E_slug => 500 end.
(** The catch of the move handler. *)
Definition move_status (e : GroupError) : Z := if contains "circular" (error_message e) then 400 else service_status e.

(** [mayWrite]: what the permission service answers for the new parent. *)
Definition moveHandler (id : Z) (newParentId : option Z) (tenantId : Z) (mayWrite : bool) (s : Forest) : Z * Forest :=
  match loadGroup id tenantId Write s with
  | inl st => (st, s)
  | inr _ =>
      match (match newParentId with Some p => match loadGroup p tenantId Write s with inl st => Some st | inr _ => None end | None => None end) with
      | Some st => (st, s)
      | None =>
          if negb mayWrite && bool_decide (is_Some newParentId) then (403, s)
          else match move id newParentId s with
               | (inl e, s') => (move_status e, s')
               | (inr None, s') => (404, s')
               | (inr (Some _), s') => (200, s')
               end
      end
  end.

(** [mayCreate]: what the permission checks of the handler answer. *)
Definition createHandler (data : CreateGroup) (tenantId : Z) (mayCreate : bool) (s : Forest) : Z * Forest :=
  let verdict := match cg_parentId data with
                 | Some p => if p =? 0 then V_ok
                             else match fo_groups s !! p with
                                  | Some parent => deviceAccessVerdict (gn_tenant parent) tenantId Write
                                  | None => V_not_found
                                  end
                 | None => V_ok
                 end in
  match verdict with
  | V_forbidden => (403, s)
  | V_not_found => (400, s)
  | V_ok => if negb mayCreate then (403, s)
            else match create data tenantId s with
                 | (inl e, s') => (service_status e, s')
                 | (inr _, s') => (201, s')
                 end
  end.

Definition deleteHandler (id tenantId : Z) (s : Forest) : Z * Forest :=
  match loadGroup id tenantId Write s with
  | inl st => (st, s)
  | inr _ => let '(deleted, _, s') := delete_group id s in (if deleted then 200 else 404, s')
  end.

Definition updateHandler (id : Z) (data : UpdateGroup) (tenantId : Z) (s : Forest) : Z * Forest :=
  match loadGroup id tenantId Write s with
  | inl st => (st, s)
  | inr _ => match update id data s with
             | (inl e, s') => (service_status e, s')
             | (inr None, s') => (404, s')
             | (inr (Some _), s') => (200, s')
             end
  end.

(** [mayWrite]: RW on every reordered group, or the bypass. *)
Definition reorderHandler (items : list (Z * Z)) (tenantId : Z) (mayWrite : bool) (s : Forest) : Z * Forest :=
  let verdict it := match fo_groups s !! fst it with Some g => deviceAccessVerdict (gn_tenant g) tenantId Write | None => V_not_found end in
  if bool_decide (items = []) then (400, s)
  else match List.find (fun it => match verdict it with V_ok => false | _ => true end) items with
       | Some it => (match verdict it with V_forbidden => 403 | _ => 404 end, s)
       | None => if negb mayWrite then (403, s) else (200, reorder items tenantId s)
       end.

(** A request of a tenant. *)
Inductive GroupRequest :=
| G_create (data : CreateGroup) (allowed : bool)
| G_update (id : Z) (data : UpdateGroup)
| G_move (id : Z) (newParentId : option Z) (allowed : bool)
| G_delete (id : Z)
| G_reorder (items : list (Z * Z)) (allowed : bool).

Definition serve (s : Forest) (q : Z * GroupRequest) : Forest :=
  let '(t, q) := q in
  snd (match q with
       | G_create data ok => createHandler data t ok s
       | G_update id data => updateHandler id data t s
       | G_move id np ok => moveHandler id np t ok s
       | G_delete id => deleteHandler id t s
       | G_reorder items ok => reorderHandler items t ok s
       end).

(** ** The forest behind the closure *)

(** The [n]-th ancestor of a group by [parent_id]. *)
Fixpoint up (groups : gmap Z GroupNode) (n : nat) (d : Z) : option Z :=
  match groups !! d with
  | None => None
  | Some g => match n with
              | O => Some d
              | S n => match gn_parent g with Some p => up groups n p | None => None end
              end
  end.

(** The closure holds exactly the ancestors with their distances. *)
Definition closure_exact (s : Forest) : Prop :=
  forall a d k, fo_closure s !! (a, d) = Some k <-> exists n, k = Z.of_nat n /\ up (fo_groups s) n d = Some a.

(** No two groups share a slug. *)
Definition slugs_unique (groups : gmap Z GroupNode) : Prop :=
  forall d d' g g', groups !! d = Some g -> groups !! d' = Some g' -> gn_slug g = gn_slug g' -> d = d'.

Record forest_ok (s : Forest) : Prop := {
  ok_closure : closure_exact s;
  ok_parents : forall d g p, fo_groups s !! d = Some g -> gn_parent g = Some p -> is_Some (fo_groups s !! p);
  ok_ids : forall d, is_Some (fo_groups s !! d) -> 0 < d < fo_next s;
  ok_slugs : slugs_unique (fo_groups s)
}.

Lemma up_0 g d a : up g 0 d = Some a <-> d = a /\ is_Some (g !! d).
Proof. cbn. destruct (g !! d); split; [intros [= ->]; eauto|by intros [-> _]|done|by intros [_ [? ?]]]. Qed.

Lemma up_dom g n d a : up g n d = Some a -> is_Some (g !! d) /\ is_Some (g !! a).
Proof.
  revert d. induction n as [|n IH]; intros d; cbn; destruct (g !! d) as [r|] eqn:E; try done.
  - intros [= <-]. rewrite E. eauto.
  - destruct (gn_parent r); [|done]. intros H. apply IH in H as [_ ?]. eauto.
Qed.

Lemma up_add g n m d : up g (n + m) d = up g n d ≫= up g m.
Proof.
  revert d. induction n as [|n IH]; intros d.
  - cbn [Nat.add]. destruct (g !! d) as [r|] eqn:E.
    + assert (up g 0 d = Some d) as -> by (apply up_0; rewrite E; eauto). done.
    + assert (up g 0 d = None) as -> by (cbn; by rewrite E). destruct m; cbn; by rewrite E.
  - cbn [Nat.add up]. destruct (g !! d) as [r|]; [|done]. destruct (gn_parent r); [apply IH|done].
Qed.

(** A group is at one distance of each of its ancestors: there is no cycle. *)
Lemma up_unique s n m d a :
  closure_exact s -> up (fo_groups s) n d = Some a -> up (fo_groups s) m d = Some a -> n = m.
Proof.
  intros H Hn Hm. assert (H1 : fo_closure s !! (a, d) = Some (Z.of_nat n)) by (apply H; eauto).
  assert (H2 : fo_closure s !! (a, d) = Some (Z.of_nat m)) by (apply H; eauto). rewrite H1 in H2. injection H2. lia.
Qed.

(** Two groups changed at one id, with the same ids: the ancestors below it are the same. *)
Lemma up_below g g' id n d :
  (forall x, x <> id -> g' !! x = g !! x) -> (is_Some (g' !! id) <-> is_Some (g !! id)) ->
  (forall j, (j < n)%nat -> up g j d <> Some id) -> up g' n d = up g n d.
Proof.
  intros Hg Hid. revert d. induction n as [|n IH]; intros d Hj.
  - cbn. destruct (decide (d = id)) as [->|Hne]; [|by rewrite Hg]. rewrite <- !not_eq_None_Some in Hid.
    destruct (g' !! id), (g !! id); try done; exfalso; naive_solver.
  - cbn. assert (Hne : d <> id \/ g !! d = None).
    { destruct (g !! d) eqn:E; [left|by right]. intros ->. apply (Hj 0%nat); [lia|]. apply up_0. rewrite E. eauto. }
    destruct (decide (d = id)) as [->|Hd].
    + destruct Hne as [|E]; [done|]. rewrite E. destruct (g' !! id) eqn:E'; [|done]. exfalso. rewrite E in Hid. by destruct (proj1 Hid (ex_intro _ _ eq_refl)).
    + rewrite (Hg d Hd). destruct (g !! d) as [r|] eqn:E; [|done]. destruct (gn_parent r) as [p|] eqn:Ep; [|done].
      apply IH. intros j Hlt H. apply (Hj (S j)); [lia|]. cbn. by rewrite E, Ep.
Qed.

(** ** The queries and the inserts *)

Lemma ancestors_In c d a k : In (a, k) (ancestors_of c d) <-> c !! (a, d) = Some k.
Proof.
  unfold ancestors_of. rewrite <- list_elem_of_In, list_elem_of_omap. split.
  - intros ([[a' d'] k'] & H & E). apply elem_of_map_to_list in H. destruct (Z.eqb_spec d' d); [|done]. by simplify_eq.
  - intros H. exists ((a, d), k). rewrite elem_of_map_to_list, Z.eqb_refl. done.
Qed.

Lemma descendants_In c a d m : In (d, m) (descendants_of c a) <-> c !! (a, d) = Some m.
Proof.
  unfold descendants_of. rewrite <- list_elem_of_In, list_elem_of_omap. split.
  - intros ([[a' d'] k'] & H & E). apply elem_of_map_to_list in H. destruct (Z.eqb_spec a' a); [|done]. by simplify_eq.
  - intros H. exists ((a, d), m). rewrite elem_of_map_to_list, Z.eqb_refl. done.
Qed.

(** The rows of one side of a key are distinct on the other. *)
Lemma NoDup_omap_key {K V A} (f : K * V -> option A) (key : A -> K) (l : list (K * V)) :
  NoDup (map fst l) -> (forall kv a, f kv = Some a -> key a = fst kv) -> NoDup (omap f l).
Proof.
  intros Hl Hf. induction l as [|kv l IH]; [constructor|]. cbn in Hl. apply NoDup_cons in Hl as [Hn Hl].
  cbn. destruct (f kv) as [a|] eqn:E; [|by apply IH]. constructor; [|by apply IH]. intros Ha.
  apply list_elem_of_omap in Ha as (kv' & Hin & E'). apply Hn. rewrite <- (Hf _ _ E), (Hf _ _ E'). by apply list_elem_of_fmap_2.
Qed.

Lemma NoDup_fst {A B} (l : list (A * B)) : NoDup l -> (forall a b b', In (a, b) l -> In (a, b') l -> b = b') -> NoDup (map fst l).
Proof.
  induction l as [|[a b] l IH]; intros Hl Hf; [constructor|]. apply NoDup_cons in Hl as [Hn Hl]. cbn. constructor.
  - intros Ha. apply list_elem_of_In, in_map_iff in Ha as ([a' b'] & Ea & Hin). cbn in Ea. subst a'.
    rewrite (Hf a b b') in Hn; [by apply Hn, list_elem_of_In|by left|by right].
  - apply IH; [done|]. intros x y y' H H'. apply (Hf x); by right.
Qed.

Lemma ancestors_NoDup c d : NoDup (map fst (ancestors_of c d)).
Proof.
  apply NoDup_fst; [|intros a k k'; rewrite !ancestors_In; congruence].
  apply (NoDup_omap_key _ (fun ak => (fst ak, d))); [apply NoDup_fst_map_to_list|]. intros [[a' d'] k'] [a k].
  destruct (Z.eqb_spec d' d); [|done]. by intros [= -> ->]; subst.
Qed.

Lemma descendants_NoDup c a : NoDup (map fst (descendants_of c a)).
Proof.
  apply NoDup_fst; [|intros d k k'; rewrite !descendants_In; congruence].
  apply (NoDup_omap_key _ (fun dk => (a, fst dk))); [apply NoDup_fst_map_to_list|]. intros [[a' d'] k'] [d k].
  destruct (Z.eqb_spec a' a); [|done]. by intros [= -> ->]; subst.
Qed.

Lemma insert_closure_ok rows c :
  NoDup (map fst rows) -> (forall k v, In (k, v) rows -> c !! k = None) ->
  exists c', insert_closure rows c = Some c' /\ forall k v, c' !! k = Some v <-> c !! k = Some v \/ In (k, v) rows.
Proof.
  revert c. induction rows as [|[k v] rows IH]; intros c Hn Hc; [exists c; cbn; naive_solver|].
  cbn [map] in Hn. apply NoDup_cons in Hn as [Hk Hn]. cbn [insert_closure]. rewrite (Hc k v) by (by left).
  assert (Hfresh : forall k' v', In (k', v') rows -> k' <> k).
  { intros k' v' Hin ->. apply Hk. apply (list_elem_of_fmap_2 fst rows (k, v')). by apply list_elem_of_In. }
  destruct (IH (<[k := v]> c) Hn) as (c' & Hi & Hl).
  { intros k' v' Hin. rewrite lookup_insert_ne by (symmetry; by eapply Hfresh). apply (Hc k' v'). by right. }
  exists c'. split; [done|]. intros k' v'. rewrite Hl. destruct (decide (k' = k)) as [->|Hne].
  - rewrite lookup_insert_eq. rewrite (Hc k v) by (by left). split.
    + intros [[= ->]|H]; right; [by left|by right].
    + intros [?|[[= ->]|H]]; [done|by left|by right].
  - rewrite lookup_insert_ne by done. split; [intros [?|?]; [by left|right; by right]|intros [?|[[= -> ->]|?]]; [by left|done|by right]].
Qed.

(** ** Slugs are found *)

Lemma dashed_name_inj slug i j : slug +:+ "-" +:+ dec i = slug +:+ "-" +:+ dec j -> i = j.
Proof. intros H. apply dec_inj. induction slug as [|c slug IH]; cbn in H; [by injection H|]. injection H as H. by apply IH. Qed.

(** Every candidate tried is taken, and all are distinct. *)
Lemma unique_slug_none fuel taken slug i candidate :
  unique_slug fuel taken slug candidate i = None ->
  forall n, (n < fuel)%nat -> taken (match n with O => candidate | S n => slug +:+ "-" +:+ dec (i + Z.of_nat n) end) = true.
Proof.
  revert i candidate. induction fuel as [|fuel IH]; intros i candidate H n Hn; [lia|]. cbn in H.
  destruct (taken candidate) eqn:E; [|done]. destruct n as [|n]; [done|]. specialize (IH _ _ H n ltac:(lia)).
  destruct n as [|n]; [by rewrite Z.add_0_r|]. by replace (i + Z.of_nat (S n)) with (i + 1 + Z.of_nat n) by lia.
Qed.

Lemma unique_slug_some fuel taken slug i candidate r : unique_slug fuel taken slug candidate i = Some r -> taken r = false.
Proof.
  revert i candidate. induction fuel as [|fuel IH]; intros i candidate; cbn; [done|]. destruct (taken candidate) eqn:E; [apply IH|by intros [= <-]].
Qed.

Lemma slug_taken_spec groups ex slug :
  slug_taken groups ex slug = true <-> exists id g, groups !! id = Some g /\ gn_slug g = slug /\ ex <> Some id.
Proof.
  unfold slug_taken. rewrite existsb_exists. split.
  - intros ([id g] & Hin & H). boolify. exists id, g. rewrite <- list_elem_of_In, elem_of_map_to_list in Hin. by split_and!.
  - intros (id & g & Hl & <- & He). exists (id, g). rewrite <- list_elem_of_In, elem_of_map_to_list, String.eqb_refl. split; [done|].
    by rewrite bool_decide_false.
Qed.

(** The search of a free slug ends: its loop has no bound in the code, but among a
    candidate more than there are groups one is free, and the slug returned is held by no
    other group. *)
Theorem slug_found groups slug excludeId :
  exists r, ensureUniqueSlug groups slug excludeId = Some r
    /\ forall id g, groups !! id = Some g -> gn_slug g = r -> excludeId = Some id.
Proof.
  unfold ensureUniqueSlug. destruct (unique_slug _ _ _ _ _) as [r|] eqn:E.
  - exists r. split; [done|]. apply unique_slug_some in E. intros id g Hg Hs. destruct (decide (excludeId = Some id)) as [|Hne]; [done|].
    assert (Ht : slug_taken groups excludeId r = true) by (apply slug_taken_spec; eauto). congruence.
  - exfalso. pose proof (unique_slug_none _ _ _ _ _ E) as Hall.
    set (cand n := match n with O => slug | S n => slug +:+ "-" +:+ dec (1 + Z.of_nat n) end).
    assert (Hsub : forall n, (n <= size groups)%nat -> exists id g, groups !! id = Some g /\ gn_slug g = cand n).
    { intros n Hn. specialize (Hall n ltac:(lia)). apply slug_taken_spec in Hall as (id & g & H1 & H2 & _). eauto. }
    assert (Hinj : forall n m, cand n = cand m -> n = m).
    { intros [|n] [|m]; unfold cand; intros H; [done| | |].
      - exfalso. assert (Hl := f_equal String.length H). rewrite !length_app_str in Hl. cbn in Hl. lia.
      - exfalso. assert (Hl := f_equal String.length H). rewrite !length_app_str in Hl. cbn in Hl. lia.
      - apply dashed_name_inj in H. lia. }
    set (slugs := map (fun kg : Z * GroupNode => gn_slug (snd kg)) (map_to_list groups)).
    assert (Hlen : (length (map cand (seq 0 (S (size groups)))) <= length slugs)%nat).
    { apply NoDup_incl_length.
      - apply NoDup_ListNoDup, NoDup_fmap_2; [intros n m; apply Hinj|apply NoDup_seq].
      - intros x Hx. apply in_map_iff in Hx as (n & <- & Hn). apply in_seq in Hn. destruct (Hsub n ltac:(lia)) as (id & g & H1 & H2).
        apply in_map_iff. exists (id, g). split; [done|]. by apply list_elem_of_In, elem_of_map_to_list. }
    unfold slugs in Hlen. rewrite !length_map, length_seq, length_map_to_list in Hlen. lia.
Qed.

(** ** Every operation keeps the closure exact *)

Lemma closure_self s d : closure_exact s -> is_Some (fo_groups s !! d) -> fo_closure s !! (d, d) = Some 0.
Proof. intros H Hd. apply H. exists 0%nat. split; [done|]. by apply up_0. Qed.

Lemma closure_up s a d k : closure_exact s -> fo_closure s !! (a, d) = Some k -> 0 <= k /\ up (fo_groups s) (Z.to_nat k) d = Some a.
Proof. intros H Hk. apply H in Hk as (n & -> & Hn). split; [lia|]. by rewrite Nat2Z.id. Qed.

Lemma slugs_insert groups id g :
  slugs_unique groups -> (forall d x, d <> id -> groups !! d = Some x -> gn_slug x <> gn_slug g) -> slugs_unique (<[id := g]> groups).
Proof.
  intros Hs Hg d d' x x' Hx Hx' He. apply lookup_insert_Some in Hx as [[<- <-]|[Hd Hx]], Hx' as [[<- <-]|[Hd' Hx']].
  - done.
  - by destruct (Hg d' x').
  - by destruct (Hg d x).
  - by apply (Hs d d' x x').
Qed.

(** A group without a parent change: same forest. *)
Lemma same_parent_ok s id g g' :
  forest_ok s -> fo_groups s !! id = Some g -> gn_parent g' = gn_parent g ->
  (forall d x, d <> id -> fo_groups s !! d = Some x -> gn_slug x <> gn_slug g') ->
  forest_ok {| fo_groups := <[id := g']> (fo_groups s); fo_closure := fo_closure s; fo_next := fo_next s |}.
Proof.
  intros [Hc Hp Hi Hs] Hg Hpar Hsl.
  assert (Hup : forall n d, up (<[id := g']> (fo_groups s)) n d = up (fo_groups s) n d).
  { induction n as [|n IH]; intros d; cbn; (destruct (decide (d = id)) as [->|Hne]; [rewrite lookup_insert_eq, Hg|rewrite lookup_insert_ne by done]); try done.
    - rewrite Hpar. destruct (gn_parent g); [apply IH|done].
    - destruct (fo_groups s !! d) as [x|]; [|done]. destruct (gn_parent x); [apply IH|done]. }
  split; cbn [fo_groups fo_closure fo_next].
  - intros a d k. setoid_rewrite Hup. apply Hc.
  - intros d x p Hx Hxp. rewrite lookup_insert_is_Some. destruct (decide (id = p)) as [->|Hne]; [by left|right; split; [done|]].
    destruct (decide (d = id)) as [->|Hd]; [rewrite lookup_insert_eq in Hx; simplify_eq; apply (Hp id g); congruence|].
    rewrite lookup_insert_ne in Hx by done. by apply (Hp d x).
  - intros d Hd. apply Hi. rewrite lookup_insert_is_Some in Hd. destruct Hd as [<-|[_ Hd]]; [eauto|done].
  - by apply slugs_insert.
Qed.

Lemma forest_update_ok id data s : forest_ok s -> forest_ok (snd (update id data s)).
Proof.
  intros Hok. unfold update.
  destruct (match ug_name data with Some n => _ | None => _ end) as [named|] eqn:En; [|done].
  destruct (fo_groups s !! id) as [g|] eqn:Hg; [|done]. cbn [snd]. eapply same_parent_ok; [done|exact Hg|done|].
  intros d x Hne Hx. cbn [gn_slug]. destruct named as [[n sl]|].
  - destruct (ug_name data) as [n'|]; [|done]. destruct (slug_found (fo_groups s) (slugify n') (Some id)) as (r & Hr & Hu).
    rewrite Hr in En. cbn in En. injection En as -> <-. intros He. specialize (Hu d x Hx He). congruence.
  - intros He. apply Hne. by apply (ok_slugs s Hok d id x g).
Qed.

Lemma forest_reorder_ok items t s : forest_ok s -> forest_ok (reorder items t s).
Proof.
  unfold reorder. intros Hok. assert (H : forall m, forest_ok {| fo_groups := m; fo_closure := fo_closure s; fo_next := fo_next s |} ->
    forest_ok {| fo_groups := fold_left (fun m '(id, n) => match m !! id with
                                               | Some g => if gn_tenant g =? t then <[id := set_sort_order n g]> m else m
                                               | None => m
                                               end) items m; fo_closure := fo_closure s; fo_next := fo_next s |}).
  { induction items as [|[id n] items IH]; intros m Hm; [done|]. cbn [fold_left]. apply IH. destruct (m !! id) as [g|] eqn:Hg; [|done].
    destruct (gn_tenant g =? t); [|done]. apply (same_parent_ok _ id g (set_sort_order n g) Hm Hg); [done|].
    intros d x Hne Hx He. apply Hne. by apply (ok_slugs _ Hm d id x g). }
  apply H. by destruct s.
Qed.

Lemma forest_create_ok data t s : forest_ok s -> 0 < fo_next s -> forest_ok (snd (create data t s)).
Proof.
  intros Hok Hnext. unfold create. destruct (slug_found (fo_groups s) (slugify (cg_name data)) None) as (slug & -> & Hslug).
  pose proof Hok as [Hc Hp Hi Hs]. set (new := fo_next s) in *.
  assert (Hnew : fo_groups s !! new = None).
  { destruct (fo_groups s !! new) eqn:E; [|done]. assert (Hlt : 0 < new < fo_next s) by (apply Hi; rewrite E; eauto). unfold new in Hlt. lia. }
  destruct (match cg_parentId data with Some p => _ | None => _ end) eqn:Epar.
  { cbn [snd]. split; cbn [fo_groups fo_closure fo_next]; [exact Hc|exact Hp| |exact Hs]. intros d Hd. apply Hi in Hd. lia. }
  assert (Hfree : forall x y, x = new \/ y = new -> fo_closure s !! (x, y) = None).
  { intros x y Hxy. destruct (fo_closure s !! (x, y)) as [k|] eqn:E; [|done]. apply Hc in E as (n & _ & E). apply up_dom in E as [[? ?] [? ?]].
    destruct Hxy as [-> | ->]; congruence. }
  cbn [insert_closure fo_closure]. rewrite Hfree by (by left). cbn [fo_groups fo_next].
  set (g := {| gn_name := cg_name data |}). set (c1 := <[(new, new) := 0]> (fo_closure s)).
  set (anc := match cg_parentId data with Some p => if p =? 0 then [] else ancestors_of c1 p | None => [] end).
  assert (Hanc : forall a k, In (a, k) anc <-> exists p, cg_parentId data = Some p /\ fo_closure s !! (a, p) = Some k).
  { intros a k. unfold anc. destruct (cg_parentId data) as [p|]; [|split; [done|by intros (? & ? & _)]].
    apply bool_decide_eq_false, not_eq_None_Some in Epar. assert (Hpos := Hi p Epar). rewrite (proj2 (Z.eqb_neq p 0)) by lia.
    rewrite ancestors_In. unfold c1. rewrite lookup_insert_ne by (intros [= _ ->]; destruct Epar; congruence).
    split; [eauto|by intros (? & [= <-] & ?)]. }
  set (rows := map (fun '(a, k) => (a, new, k + 1)) anc).
  replace (match cg_parentId data with Some p => _ | None => [] end) with rows
    by (unfold rows, anc; destruct (cg_parentId data) as [p|]; [destruct (p =? 0)|]; done).
  destruct (insert_closure_ok rows c1) as (c2 & -> & Hc2).
  { unfold rows. rewrite map_map. replace (map _ anc) with (map (fun a => (a, new)) (map fst anc)).
    - apply NoDup_fmap_2; [intros ?? [=]; done|]. unfold anc. destruct (cg_parentId data) as [p|]; [|constructor].
      destruct (p =? 0); [constructor|apply ancestors_NoDup].
    - rewrite map_map. apply map_ext. by intros [a k]. }
  { intros [a d] v Hin. unfold rows in Hin. apply in_map_iff in Hin as ([a' k] & [= <- <- _] & Hin). apply Hanc in Hin as (p & Hpar & Hin).
    unfold c1. rewrite lookup_insert_ne; [by apply Hfree; right|]. intros [= <-]. rewrite Hfree in Hin by (by left). done. }
  cbn [snd]. set (s' := {| fo_groups := <[new := g]> (fo_groups s) |}).
  assert (Hold : forall d, is_Some (fo_groups s !! d) -> d <> new) by (intros d [? ?] ->; congruence).
  assert (Hup : forall n d, is_Some (fo_groups s !! d) -> up (<[new := g]> (fo_groups s)) n d = up (fo_groups s) n d).
  { induction n as [|n IH]; intros d Hd; cbn; rewrite lookup_insert_ne by (by apply not_eq_sym, Hold); [done|].
    destruct (fo_groups s !! d) as [x|] eqn:Ex; [|done]. destruct (gn_parent x) as [p|] eqn:Ep; [|done]. apply IH. by apply (Hp d x). }
  assert (Hupnew : forall n a, up (<[new := g]> (fo_groups s)) n new = Some a <->
    n = 0%nat /\ a = new \/ exists m p, n = S m /\ cg_parentId data = Some p /\ up (fo_groups s) m p = Some a).
  { intros [|n] a; cbn; rewrite lookup_insert_eq; cbn [g gn_parent]; [split; [intros [= <-]; by left|intros [[_ ->]|(? & ? & ? & _)]; done]|].
    destruct (cg_parentId data) as [p|] eqn:Ep; [|split; [done|by intros [[? _]|(? & ? & _ & ? & _)]]].
    apply bool_decide_eq_false, not_eq_None_Some in Epar. rewrite Hup by done. split.
    - intros H. right. by exists n, p.
    - by intros [[? _]|(m & p' & [= ->] & [= ->] & H)]. }
  split; cbn [s' fo_groups fo_closure fo_next].
  - intros a d k. cbn [s' fo_closure fo_groups]. rewrite Hc2. unfold c1. destruct (decide (d = new)) as [->|Hd].
    + setoid_rewrite Hupnew. rewrite lookup_insert_Some. unfold rows. rewrite in_map_iff. split.
      * intros [[[[= ->] <-]|[_ H]]|([a' k'] & [= <- <-] & H)]; [exists 0%nat; split; [done|by left]|by rewrite Hfree in H by (by right)|].
        apply Hanc in H as (p & Hpp & H). apply closure_up in H as [Hk H]; [|done]. exists (S (Z.to_nat k')). split; [lia|]. right. eauto.
      * intros (n & -> & [[-> ->]|(m & p & -> & Hpp & H)]); [left; by left|]. right. exists (a, Z.of_nat m).
        split; [f_equal; lia|]. apply Hanc. exists p. split; [done|]. apply Hc. eauto.
    + rewrite lookup_insert_ne by congruence. assert (Hr : ~ In (a, d, k) rows).
      { unfold rows. rewrite in_map_iff. by intros ([? ?] & [= _ ?] & _). }
      split.
      * intros [H|H]; [|done]. apply Hc in H as (n & -> & H). exists n. split; [done|]. rewrite Hup; [done|]. by apply up_dom in H as [? _].
      * intros (n & -> & H). left. apply Hc. exists n. split; [done|]. rewrite <- Hup; [done|]. apply up_dom in H as [H _].
        by rewrite lookup_insert_ne in H by done.
  - intros d x p Hx Hxp. rewrite lookup_insert_is_Some. destruct (decide (new = p)) as [->|Hne]; [by left|right; split; [done|]].
    destruct (decide (d = new)) as [->|Hd].
    + rewrite lookup_insert_eq in Hx. injection Hx as <-. cbn in Hxp. rewrite Hxp in Epar. by apply bool_decide_eq_false, not_eq_None_Some in Epar.
    + rewrite lookup_insert_ne in Hx by done. by apply (Hp d x).
  - intros d Hd. rewrite lookup_insert_is_Some in Hd. destruct Hd as [<-|[_ Hd]]; [unfold new; lia|]. apply Hi in Hd. unfold new. lia.
  - apply slugs_insert; [done|]. intros d x _ Hx He. by apply (Hslug d x) in He.
Qed.

(** *** Moving a subtree *)

Section Move.
Variables (s : Forest) (id : Z) (g : GroupNode) (np : option Z).
Hypothesis Hok : forest_ok s.
Hypothesis Hg : fo_groups s !! id = Some g.
(** The check of [move]: the new parent is not under the group. *)
Hypothesis Hnp : forall p, np = Some p -> fo_closure s !! (id, p) = None.

Definition moved : gmap Z GroupNode := <[id := set_parent np g]> (fo_groups s).
Definition under (d : Z) : Prop := is_Some (fo_closure s !! (id, d)).

Lemma under_up d : under d <-> exists m, up (fo_groups s) m d = Some id.
Proof.
  destruct Hok as [Hc _ _ _]. split.
  - intros [k Hk]. apply Hc in Hk as (m & _ & H). eauto.
  - intros [m Hm]. exists (Z.of_nat m). apply Hc. eauto.
Qed.

Lemma moved_below n d : (forall j, (j < n)%nat -> up (fo_groups s) j d <> Some id) -> up moved n d = up (fo_groups s) n d.
Proof.
  apply up_below; [intros x Hx; by apply lookup_insert_ne, not_eq_sym|]. unfold moved. rewrite lookup_insert_eq, Hg. split; eauto.
Qed.

(** Outside the subtree nothing changes; inside, the path goes on from the new parent. *)
Lemma moved_outside n d : ~ under d -> up moved n d = up (fo_groups s) n d.
Proof. intros Hd. apply moved_below. intros j _ H. apply Hd, under_up. eauto. Qed.

Lemma moved_inside m n d : up (fo_groups s) m d = Some id -> (n <= m)%nat -> up moved n d = up (fo_groups s) n d.
Proof. intros Hm Hn. apply moved_below. intros j Hj H. destruct Hok as [Hc _ _ _]. pose proof (up_unique s m j d id Hc Hm H). lia. Qed.

Lemma moved_above m j d : up (fo_groups s) m d = Some id -> up moved (m + S j) d = np ≫= up (fo_groups s) j.
Proof.
  intros Hm. rewrite up_add, (moved_inside m m) by (done || lia). rewrite Hm. change (Some id ≫= up moved (S j)) with (up moved (S j) id).
  assert (Hid : moved !! id = Some (set_parent np g)) by apply lookup_insert_eq. cbn [up]. rewrite Hid. cbn [set_parent gn_parent].
  case_eq np; [intros p E|done]. apply moved_outside. unfold under. rewrite (Hnp p E). by intros [? ?].
Qed.

Definition sub : list Z := getDescendantIds s id.
Definition kept : Closure := filter (fun kv => outside_link sub (fst kv) = false) (fo_closure s).

Lemma sub_spec d : mem d sub = true <-> under d.
Proof.
  unfold sub, getDescendantIds. rewrite mem_In, in_map_iff. split.
  - intros ([d' k] & <- & H). apply descendants_In in H. by exists k.
  - intros [k Hk]. exists (d, k). split; [done|]. by apply descendants_In.
Qed.

Lemma kept_lookup a d k : kept !! (a, d) = Some k <-> fo_closure s !! (a, d) = Some k /\ (under d -> under a).
Proof.
  unfold kept. rewrite map_lookup_filter_Some. unfold outside_link. cbn [fst snd].
  rewrite andb_false_iff, negb_false_iff, sub_spec, <- not_true_iff_false, sub_spec.
  destruct (decide (is_Some (fo_closure s !! (id, d)))); unfold under; tauto.
Qed.

Lemma under_self : under id.
Proof. apply under_up. exists 0%nat. apply up_0. split; [done|]. rewrite Hg. eauto. Qed.

(** Ancestors of the new parent are outside the subtree. *)
Lemma above_outside p a k : np = Some p -> fo_closure s !! (a, p) = Some k -> ~ under a.
Proof.
  intros Hp Ha Hu. apply under_up in Hu as [m Hm]. destruct Hok as [Hc _ _ _]. apply closure_up in Ha as [_ Ha]; [|done].
  assert (Hx : up (fo_groups s) (Z.to_nat k + m) p = Some id) by (rewrite up_add; by rewrite Ha).
  assert (Hu : under p) by (apply under_up; eauto). unfold under in Hu. rewrite (Hnp p Hp) in Hu. by destruct Hu.
Qed.

Definition moved_rows : list (Z * Z * Z) :=
  match np with
  | Some p => flat_map (fun '(a, k) => map (fun '(d, m) => (a, d, k + m + 1)) (descendants_of kept id)) (ancestors_of kept p)
  | None => []
  end.

Lemma rows_In a d v :
  In (a, d, v) moved_rows <-> exists p k m, np = Some p /\ fo_closure s !! (a, p) = Some k /\ fo_closure s !! (id, d) = Some m /\ v = k + m + 1.
Proof.
  unfold moved_rows. destruct np as [p|] eqn:Ep; [|split; [done|by intros (? & ? & ? & ? & _)]]. rewrite in_flat_map. split.
  - intros ([a' k] & Ha & Hd). apply in_map_iff in Hd as ([d' m] & [= <- <- <-] & Hd). apply ancestors_In, kept_lookup in Ha as [Ha _].
    apply descendants_In, kept_lookup in Hd as [Hd _]. eauto 8.
  - intros (p' & k & m & [= <-] & Ha & Hd & ->). exists (a, k). split.
    + apply ancestors_In, kept_lookup. split; [done|]. intros Hu. unfold under in Hu. rewrite (Hnp p eq_refl) in Hu. by destruct Hu.
    + apply in_map_iff. exists (d, m). split; [done|]. apply descendants_In, kept_lookup. split; [done|]. intros _. apply under_self.
Qed.

Lemma rows_insert : exists c, insert_closure moved_rows kept = Some c
  /\ forall a d v, c !! (a, d) = Some v <-> kept !! (a, d) = Some v \/ In (a, d, v) moved_rows.
Proof.
  destruct (insert_closure_ok moved_rows kept) as (c & Hi & Hl).
  - unfold moved_rows. destruct np as [p|]; [|constructor].
    assert (Hprod : forall l, NoDup (map fst l) -> NoDup (map fst (flat_map (fun '(a, k) => map (fun '(d, m) => (a, d, k + m + 1)) (descendants_of kept id)) l : list (Z * Z * Z)))).
    { induction l as [|[a k] l IH]; intros Hl; [constructor|]. cbn [map fst] in Hl. apply NoDup_cons in Hl as [Ha Hl].
      cbn [flat_map]. rewrite map_app. apply NoDup_app. split_and!; [| |by apply IH].
      - rewrite map_map. replace (map _ _) with (map (fun d => (a, d)) (map fst (descendants_of kept id))) by (rewrite map_map; apply map_ext; by intros [? ?]).
        apply NoDup_fmap_2; [by intros ?? [= ]|apply descendants_NoDup].
      - intros [a' d'] H1 H2. apply Ha. apply list_elem_of_In, in_map_iff in H1 as ([[? ?] ?] & [= -> ->] & H1).
        apply in_map_iff in H1 as ([? ?] & [= -> _ _] & _). apply list_elem_of_In, in_map_iff in H2 as ([[? ?] ?] & [= -> ->] & H2).
        apply in_flat_map in H2 as ([a'' k''] & Hin & H2). apply in_map_iff in H2 as ([? ?] & [= -> _ _] & _).
        apply list_elem_of_In, in_map_iff. by exists (a', k''). }
    apply Hprod, ancestors_NoDup.
  - intros [a d] v Hin. apply rows_In in Hin as (p & k & m & Hp & Ha & Hd & _). destruct (kept !! (a, d)) as [x|] eqn:E; [|done].
    apply kept_lookup in E as [_ E]. exfalso. apply (above_outside p a k Hp Ha), E. unfold under. eauto.
  - exists c. split; [done|]. intros a d v. apply Hl.
Qed.

Lemma moved_closure (c : Closure) :
  (forall a d v, c !! (a, d) = Some v <-> kept !! (a, d) = Some v \/ In (a, d, v) moved_rows) ->
  forall a d v, c !! (a, d) = Some v <-> exists n, v = Z.of_nat n /\ up moved n d = Some a.
Proof.
  intros Hl a d v. rewrite Hl, kept_lookup, rows_In. pose proof (ok_closure s Hok) as Hc.
  destruct (decide (is_Some (fo_closure s !! (id, d)))) as [Hu|Hu].
  - pose proof (proj1 (under_up d) Hu) as [m Hm]. split.
    + intros [[H Hua]|(p & k & m' & Hp & Ha & Hd & ->)].
      * apply closure_up in H as [Hv H]; [|done]. exists (Z.to_nat v). split; [lia|].
        apply under_up in Hua as [j Hj]; [|done]. assert (Hx : up (fo_groups s) (Z.to_nat v + j) d = Some id) by (rewrite up_add; by rewrite H).
        pose proof (up_unique s _ _ _ _ Hc Hx Hm). rewrite (moved_inside m) by (done || lia). exact H.
      * apply closure_up in Ha as [Hk Ha]; [|done]. apply closure_up in Hd as [Hm' Hd]; [|done].
        exists (Z.to_nat m' + S (Z.to_nat k))%nat. split; [lia|]. rewrite moved_above by exact Hd. by rewrite Hp.
    + intros (n & -> & H). destruct (le_lt_dec n m) as [Hle|Hlt].
      * rewrite (moved_inside m) in H by done. left. split; [apply Hc; eauto|]. intros _. apply under_up. exists (m - n)%nat.
        replace m with (n + (m - n))%nat in Hm by lia. rewrite up_add, H in Hm. exact Hm.
      * replace n with (m + S (n - m - 1))%nat in H by lia. rewrite moved_above in H by done. destruct np as [p|] eqn:Ep; [|done]. cbn in H.
        right. exists p, (Z.of_nat (n - m - 1)), (Z.of_nat m). split_and!; [done|apply Hc; eauto|apply Hc; eauto|lia].
  - setoid_rewrite (fun n => moved_outside n d Hu). split.
    + intros [[H _]|(p & k & m & _ & _ & Hd & _)]; [by apply Hc|]. exfalso. apply Hu. eauto.
    + intros H. left. split; [by apply Hc|]. intros Hu'. by destruct Hu.
Qed.

End Move.

Lemma forest_move_ok id np s :
  forest_ok s -> (forall p, np = Some p -> is_Some (fo_groups s !! p)) ->
  forest_ok (snd (move id np s))
  /\ (fst (move id np s) = inl E_descendant \/ exists r, fst (move id np s) = inr r).
Proof.
  intros Hok Hpar. unfold move. destruct (fo_groups s !! id) as [g|] eqn:Hg; [|split; [done|right; eauto]].
  destruct (match np with Some p => bool_decide (is_Some (fo_closure s !! (id, p))) | None => false end) eqn:En; [split; [done|by left]|].
  assert (Hnp : forall p, np = Some p -> fo_closure s !! (id, p) = None).
  { intros p ->. apply bool_decide_eq_false in En. destruct (fo_closure s !! (id, p)); [|done]. exfalso. eauto. }
  destruct (rows_insert s id g np Hok Hg Hnp) as (c & Hi & Hl). unfold moved_rows, kept, sub in Hi. rewrite Hi.
  destruct (match np with Some p => bool_decide (fo_groups s !! p = None) | None => false end) eqn:Ep.
  { destruct np as [p|]; [|done]. apply bool_decide_eq_true in Ep. destruct (Hpar p eq_refl). congruence. }
  cbn [fst snd]. split; [|right; eauto]. pose proof Hok as [_ Hp Hids Hs]. split; cbn [fo_groups fo_closure fo_next].
  - intros a d v. by apply (moved_closure s id g np Hok Hg Hnp).
  - intros d x p Hx Hxp. rewrite lookup_insert_is_Some. destruct (decide (id = p)) as [|Hne]; [by left|right; split; [done|]].
    apply lookup_insert_Some in Hx as [[<- <-]|[Hd Hx]]; [by apply Hpar|by apply (Hp d x)].
  - intros d Hd. apply Hids. rewrite lookup_insert_is_Some in Hd. destruct Hd as [<-|[_ Hd]]; [eauto|done].
  - apply slugs_insert; [done|]. intros d x Hd Hx He. apply Hd. by apply (Hs d id x g).
Qed.

(** *** Deleting a subtree *)

Lemma children_spec groups dead x :
  x ∈ children groups dead <-> exists g p, groups !! x = Some g /\ gn_parent g = Some p /\ p ∈ dead.
Proof.
  unfold children. rewrite elem_of_dom. split.
  - intros [g H]. apply map_lookup_filter_Some in H as [Hx H]. cbn in H. destruct (gn_parent g) as [p|] eqn:Ep; [|done].
    apply bool_decide_eq_true_1 in H. eauto.
  - intros (g & p & Hx & Hp & Hd). exists g. apply map_lookup_filter_Some. split; [done|]. cbn. rewrite Hp. by rewrite bool_decide_true.
Qed.

(** After [n] generations: the groups at most [n] steps under a deleted one. *)
Lemma cascade_spec fuel groups dead x :
  (forall y, y ∈ dead -> is_Some (groups !! y)) ->
  x ∈ cascade fuel groups dead <-> exists n y, (n <= fuel)%nat /\ y ∈ dead /\ up groups n x = Some y.
Proof.
  revert dead. induction fuel as [|fuel IH]; intros dead Hd; cbn [cascade].
  - split; [intros H; exists 0%nat, x; split_and!; [done|done|]; apply up_0; by split; [|apply Hd]|].
    intros (n & y & Hn & Hy & H). replace n with 0%nat in H by lia. by apply up_0 in H as [-> _].
  - rewrite IH; [|intros y [Hy|Hy]%elem_of_union; [by apply Hd|apply children_spec in Hy as (? & ? & ? & _); eauto]]. split.
    + intros (n & y & Hn & [Hy|Hy]%elem_of_union & H); [exists n, y; split_and!; [lia|done|done]|].
      apply children_spec in Hy as (g & p & Hg & Hp & Hy). exists (n + 1)%nat, p. split_and!; [lia|done|]. rewrite up_add, H. cbn. rewrite Hg, Hp.
      destruct (Hd p Hy) as [gp Hgp]. apply (up_0 groups p p). eauto.
    + intros (n & y & Hn & Hy & H). destruct (decide (n <= fuel)%nat) as [Hle|Hgt]; [exists n, y; split_and!; [done|set_solver|done]|].
      assert (n = fuel + 1)%nat as -> by lia. rewrite up_add in H. destruct (up groups fuel x) as [z|] eqn:Ez; [|done]. cbn in H.
      destruct (groups !! z) as [g|] eqn:Eg; [|done]. destruct (gn_parent g) as [p|] eqn:Ep; [|done].
      exists fuel, z. split_and!; [done| |done]. apply elem_of_union_r, children_spec. exists g, p. split_and!; [done|done|].
      change (up groups 0 p = Some y) in H. apply up_0 in H as [-> _]. done.
Qed.

(** A path visits each group once: it is shorter than the table. *)
Lemma up_bounded s n d a : closure_exact s -> up (fo_groups s) n d = Some a -> (n < size (fo_groups s))%nat.
Proof.
  intros Hc H. set (node j := default 0 (up (fo_groups s) j d)).
  assert (Hnode : forall j, (j <= n)%nat -> up (fo_groups s) j d = Some (node j)).
  { intros j Hj. unfold node. destruct (up (fo_groups s) j d) eqn:E; [done|]. replace n with (j + (n - j))%nat in H by lia.
    by rewrite up_add, E in H. }
  assert (Hlen : (length (map node (seq 0 (S n))) <= length (map fst (map_to_list (fo_groups s))))%nat).
  { apply NoDup_incl_length.
    - rewrite <- NoDup_ListNoDup. apply NoDup_fmap_2_strong; [|apply NoDup_seq]. intros i j Hi Hj E.
      apply list_elem_of_In, in_seq in Hi, Hj. apply (up_unique s i j d (node i)); [done|by apply Hnode; lia|rewrite E; by apply Hnode; lia].
    - intros x Hx. apply in_map_iff in Hx as (j & <- & Hj). apply in_seq in Hj. assert (Hj' : up (fo_groups s) j d = Some (node j)) by (apply Hnode; lia).
      apply up_dom in Hj' as [_ [g Hg]]. apply in_map_iff. exists (node j, g). split; [done|]. by apply list_elem_of_In, elem_of_map_to_list. }
  rewrite !length_map, length_seq, length_map_to_list in Hlen. lia.
Qed.

(** The generations of [delete_group] reach the whole subtree. *)
Lemma dead_spec s id x :
  forest_ok s -> is_Some (fo_groups s !! id) ->
  x ∈ cascade (size (fo_groups s)) (fo_groups s) {[ id ]} <-> is_Some (fo_closure s !! (id, x)).
Proof.
  intros Hok Hid. pose proof (ok_closure s Hok) as Hc. rewrite cascade_spec by (by intros y ->%elem_of_singleton). split.
  - intros (n & y & _ & ->%elem_of_singleton & H). exists (Z.of_nat n). apply Hc. eauto.
  - intros [k Hk]. apply closure_up in Hk as [_ H]; [|done]. exists (Z.to_nat k), id. split_and!; [|set_solver|done].
    apply up_bounded in H; [lia|done].
Qed.

Lemma forest_delete_ok id s : forest_ok s -> forest_ok (snd (delete_group id s)).
Proof.
  intros Hok. unfold delete_group. destruct (fo_groups s !! id) as [g|] eqn:Hg; [|done]. cbn [snd].
  set (dead := cascade _ _ _). pose proof Hok as [Hc Hp Hids Hs].
  assert (Hdead : forall x, x ∈ dead <-> exists n, up (fo_groups s) n x = Some id).
  { intros x. unfold dead. rewrite dead_spec by eauto. split.
    - intros [k H]. apply closure_up in H as [_ H]; eauto.
    - intros [n H]. exists (Z.of_nat n). apply Hc. eauto. }
  assert (Habove : forall n d a, d ∉ dead -> up (fo_groups s) n d = Some a -> a ∉ dead).
  { intros n d a Hd H Ha. apply Hd, Hdead. apply Hdead in Ha as [m Ha]. exists (n + m)%nat. rewrite up_add, H. exact Ha. }
  set (live := filter (fun kg => fst kg ∉ dead) (fo_groups s)).
  assert (Hlive : forall d, d ∉ dead -> live !! d = fo_groups s !! d).
  { intros d Hd. unfold live. destruct (fo_groups s !! d) as [x|] eqn:E; [by apply map_lookup_filter_Some|].
    apply map_lookup_filter_None. by left. }
  assert (Hgone : forall d, is_Some (live !! d) -> d ∉ dead) by (intros d [x Hx]; by apply map_lookup_filter_Some in Hx as [_ ?]).
  assert (Hup : forall n d, d ∉ dead -> up live n d = up (fo_groups s) n d).
  { induction n as [|n IH]; intros d Hd; cbn; rewrite Hlive by done; [done|]. destruct (fo_groups s !! d) as [x|] eqn:Ex; [|done].
    destruct (gn_parent x) as [p|] eqn:Ep; [|done]. apply IH. intros Hpd. apply Hdead in Hpd as [m Hm]. apply Hd, Hdead. exists (S m). cbn. by rewrite Ex, Ep. }
  split; cbn [fo_groups fo_closure fo_next].
  - intros a d k. cbn [fo_closure fo_groups]. rewrite map_lookup_filter_Some. cbn [fst snd]. split.
    + intros (H & Ha & Hd). apply Hc in H as (n & -> & H). exists n. split; [done|]. by rewrite Hup.
    + intros (n & -> & H). pose proof H as H'. apply up_dom in H' as [Hd Ha]. apply Hgone in Hd, Ha. rewrite Hup in H by done.
      split; [apply Hc; eauto|done].
  - intros d x p Hx Hxp. apply map_lookup_filter_Some in Hx as [Hx Hd]. cbn in Hd. rewrite Hlive; [by apply (Hp d x)|].
    apply (Habove 1%nat d p Hd). cbn. rewrite Hx, Hxp. destruct (Hp d x p Hx Hxp) as [gp Hgp]. by rewrite Hgp.
  - intros d Hd. apply Hids. pose proof (Hgone d Hd) as Hn. by rewrite <- (Hlive d Hn).
  - intros d d' x x' Hx Hx'. apply map_lookup_filter_Some in Hx as [Hx _], Hx' as [Hx' _]. by apply (Hs d d').
Qed.

(** ** Tenants share no group *)

(** A group and its parent belong to the same tenant. *)
Definition local_parents (groups : gmap Z GroupNode) : Prop :=
  forall d g p gp, groups !! d = Some g -> gn_parent g = Some p -> groups !! p = Some gp -> gn_tenant gp = gn_tenant g.

Lemma local_up groups n d a g ga :
  local_parents groups -> up groups n d = Some a -> groups !! d = Some g -> groups !! a = Some ga -> gn_tenant ga = gn_tenant g.
Proof.
  intros Hl. revert d g. induction n as [|n IH]; intros d g H Hd Ha.
  - apply up_0 in H as [-> _]. congruence.
  - cbn in H. rewrite Hd in H. destruct (gn_parent g) as [p|] eqn:Ep; [|done]. destruct (up_dom _ _ _ _ H) as [[gp Hp] _].
    rewrite (IH p gp H Hp Ha). by apply (Hl d g p gp).
Qed.

(** A group written with a parent of its tenant. *)
Lemma local_insert groups id g :
  local_parents groups ->
  (forall p gp, gn_parent g = Some p -> groups !! p = Some gp -> p <> id -> gn_tenant gp = gn_tenant g) ->
  (forall g0, groups !! id = Some g0 -> gn_tenant g0 = gn_tenant g) -> (groups !! id = None -> forall d x, groups !! d = Some x -> gn_parent x <> Some id) ->
  local_parents (<[id := g]> groups).
Proof.
  intros Hl Hg Ht Hnew d x p xp Hx Hp Hxp.
  apply lookup_insert_Some in Hx as [[Hd <-]|[Hd Hx]], Hxp as [[Hi <-]|[Hi Hxp]].
  - done.
  - by apply (Hg p xp).
  - subst p. destruct (groups !! id) as [g0|] eqn:E; [|by destruct (Hnew eq_refl d x Hx)].
    rewrite <- (Ht g0 eq_refl). by apply (Hl d x id g0).
  - by apply (Hl d x p xp).
Qed.

Lemma local_same groups id g g' :
  local_parents groups -> groups !! id = Some g -> gn_parent g' = gn_parent g -> gn_tenant g' = gn_tenant g ->
  local_parents (<[id := g']> groups).
Proof.
  intros Hl Hg Hp Ht. apply local_insert; [done| | |congruence].
  - intros p gp Hgp Hl' _. rewrite Ht. apply (Hl id g p gp); congruence.
  - intros g0 H. congruence.
Qed.

Record served_ok (s : Forest) : Prop := { sv_forest : forest_ok s; sv_next : 0 < fo_next s; sv_local : local_parents (fo_groups s) }.

Lemma load_own id t s g : loadGroup id t Write s = inr g -> fo_groups s !! id = Some g /\ gn_tenant g = t.
Proof.
  unfold loadGroup. destruct (fo_groups s !! id) as [x|]; [|done]. destruct (deviceAccessVerdict (gn_tenant x) t Write) eqn:E; [|done..].
  intros [= <-]. apply verdict_ok_iff in E as [E|[? _]]; [done|done].
Qed.

Lemma create_served data t ok s : served_ok s -> served_ok (snd (createHandler data t ok s)).
Proof.
  intros Hs. unfold createHandler. set (verdict := match cg_parentId data with Some p => _ | None => V_ok end).
  destruct verdict eqn:Ev; [|done..]. destruct (negb ok); [done|].
  assert (Hpar : forall p gp, cg_parentId data = Some p -> fo_groups s !! p = Some gp -> gn_tenant gp = t).
  { intros p gp Hp Hgp. unfold verdict in Ev. rewrite Hp in Ev.
    destruct (Z.eqb_spec p 0) as [E0|]; [destruct Hs as [[_ _ Hi _] _ _]; assert (0 < p < fo_next s) by (apply Hi; eauto); lia|].
    rewrite Hgp in Ev. apply verdict_ok_iff in Ev as [?|[? _]]; done. }
  clear verdict Ev.
  destruct Hs as [Hok Hn Hl]. pose proof (forest_create_ok data t s Hok Hn) as Hok'.
  assert (Hrest : 0 < fo_next (snd (create data t s)) /\ local_parents (fo_groups (snd (create data t s)))).
  { unfold create. destruct (slug_found (fo_groups s) (slugify (cg_name data)) None) as (slug & -> & _).
    destruct (match cg_parentId data with Some p => _ | None => _ end) eqn:Ep; [split; [cbn; lia|done]|].
    assert (Hins : forall gd, gn_parent gd = cg_parentId data -> gn_tenant gd = t -> local_parents (<[fo_next s := gd]> (fo_groups s))).
    { intros gd H1 H2. apply local_insert; [done| | |].
      - intros p gp Hp Hgp _. rewrite H2. apply (Hpar p); congruence.
      - intros g0 Hg0. destruct Hok as [_ _ Hi _]. assert (0 < fo_next s < fo_next s) by (apply Hi; eauto). lia.
      - intros Hnone d x Hx Hp. destruct Hok as [_ Hpp _ _]. destruct (Hpp d x _ Hx Hp). congruence. }
    cbn [insert_closure fo_closure]. destruct (fo_closure s !! _); [split; [cbn; lia|by apply Hins]|]. cbn [fo_groups fo_next].
    destruct (insert_closure _ _); (split; [cbn; lia|by apply Hins]). }
  destruct (create data t s) as [[e|i] s'] eqn:E; cbn [snd] in *; split; tauto.
Qed.

Lemma move_served id np t ok s : served_ok s -> served_ok (snd (moveHandler id np t ok s)).
Proof.
  intros [Hok Hn Hl]. unfold moveHandler. destruct (loadGroup id t Write s) as [st|g] eqn:El; [done|].
  destruct (match np with Some p => _ | None => None end) as [st|] eqn:Ep; [done|]. destruct (_ && _); [done|].
  apply load_own in El as [Hg Ht].
  assert (Hpar : forall p, np = Some p -> exists gp, fo_groups s !! p = Some gp /\ gn_tenant gp = t).
  { intros p ->. destruct (loadGroup p t Write s) as [|gp] eqn:E; [done|]. apply load_own in E as [? ?]. eauto. }
  destruct (forest_move_ok id np s Hok) as [Hok' _]; [intros p Hp; destruct (Hpar p Hp) as (gp & ? & _); eauto|].
  assert (Hrest : 0 < fo_next (snd (move id np s)) /\ local_parents (fo_groups (snd (move id np s)))).
  { unfold move. rewrite Hg. destruct (match np with Some p => bool_decide (is_Some _) | None => false end); [done|].
    destruct (insert_closure _ _); [|done]. destruct (match np with Some p => bool_decide (_ = None) | None => false end); [done|].
    split; [done|]. cbn [snd fo_groups]. apply local_insert; [done| |intros gx Hgx; cbn; congruence|congruence].
    intros p gp Hp Hgp _. cbn in *. destruct (Hpar p Hp) as (gp' & ? & ?). congruence. }
  destruct (move id np s) as [[e|[r|]] s'] eqn:E; cbn [snd] in *; split; tauto.
Qed.

Lemma forest_serve_ok s q : served_ok s -> served_ok (serve s q).
Proof.
  intros Hs. destruct q as [t [data ok|id data|id np ok|id|items ok]]; cbn [serve].
  - by apply create_served.
  - unfold updateHandler. destruct (loadGroup id t Write s) as [st|g] eqn:El; [done|]. apply load_own in El as [Hg _].
    destruct Hs as [Hok Hn Hl]. pose proof (forest_update_ok id data s Hok) as Hok'.
    assert (Hrest : fo_next (snd (update id data s)) = fo_next s /\ local_parents (fo_groups (snd (update id data s)))).
    { unfold update. destruct (match ug_name data with Some n => _ | None => _ end); [|done]. rewrite Hg. split; [done|]. by eapply local_same. }
    destruct (update id data s) as [[e|[r|]] s']; cbn [snd] in *; destruct Hrest as [Hnx ?]; (split; [done|by rewrite Hnx|done]).
  - by apply move_served.
  - unfold deleteHandler. destruct (loadGroup id t Write s) as [st|g] eqn:El; [done|].
    destruct Hs as [Hok Hn Hl]. pose proof (forest_delete_ok id s Hok) as Hok'. revert Hok'. unfold delete_group.
    destruct (fo_groups s !! id); cbn [snd]; intros Hok'; split; try done. cbn [fo_groups].
    intros d x p xp Hx Hp Hxp. apply map_lookup_filter_Some in Hx as [Hx _], Hxp as [Hxp _]. by apply (Hl d x p xp).
  - unfold reorderHandler. destruct (bool_decide _); [done|]. destruct (List.find _ _); [done|]. destruct (negb ok); [done|]. cbn [snd].
    destruct Hs as [Hok Hn Hl]. split; [by apply forest_reorder_ok|done|]. unfold reorder. cbn [fo_groups].
    clear Hok Hn. revert Hl. generalize (fo_groups s). induction items as [|[id n] items IH]; intros m Hl; [done|]. cbn [fold_left]. apply IH.
    destruct (m !! id) as [g|] eqn:Hg; [|done]. destruct (gn_tenant g =? t); [|done]. by eapply local_same.
Qed.

Definition empty_forest : Forest := {| fo_groups := ∅; fo_closure := ∅; fo_next := 1 |}.

Lemma served_ok_empty : served_ok empty_forest.
Proof.
  assert (He : forall d : Z, ~ is_Some ((∅ : gmap Z GroupNode) !! d)) by (intros d H; rewrite lookup_empty in H; by destruct H).
  split; [split|done|].
  - intros a d k. split; [done|]. intros (n & _ & H). apply up_dom in H as [H _]. by apply He in H.
  - intros d g p H. by destruct (He d); eauto.
  - intros d H. by apply He in H.
  - intros d d' g g' H. by destruct (He d); eauto.
  - intros d g p gp H. by destruct (He d); eauto.
Qed.

Lemma served_ok_run requests : served_ok (fold_left serve requests empty_forest).
Proof.
  assert (H : forall s, served_ok s -> served_ok (fold_left serve requests s)).
  { induction requests as [|q l IH]; intros s Hs; [done|]. apply IH. by apply forest_serve_ok. }
  apply H, served_ok_empty.
Qed.

(** C38. Whatever groups the tenants create, rename, move, reorder and delete, the closure
    table is the ancestry of the groups: it holds (ancestor, descendant, depth) exactly when
    the ancestor is [depth] parents above the descendant; no group is above itself, the
    ancestors of a group belong to its tenant, and slugs are unique. *)
Theorem closure_is_ancestry requests :
  let s := fold_left serve requests empty_forest in
  (forall a d k, fo_closure s !! (a, d) = Some k <-> exists n, k = Z.of_nat n /\ up (fo_groups s) n d = Some a)
  /\ (forall n d, up (fo_groups s) n d = Some d -> n = 0%nat)
  /\ (forall n d a gd ga, up (fo_groups s) n d = Some a -> fo_groups s !! d = Some gd -> fo_groups s !! a = Some ga -> gn_tenant ga = gn_tenant gd)
  /\ slugs_unique (fo_groups s).
Proof.
  cbv zeta. destruct (served_ok_run requests) as [Hok _ Hl]. split_and!; [by apply ok_closure| | |by apply ok_slugs].
  - intros n d H. apply (up_unique (fold_left serve requests empty_forest) n 0 d d); [by apply ok_closure|done|]. apply up_0. split; [done|]. by apply up_dom in H as [? _].
  - intros n d a gd ga H Hd Ha. by apply (local_up (fo_groups (fold_left serve requests empty_forest)) n d a).
Qed.

(** A deletion takes the group and exactly the groups under it, and the settings rows
    dropped with it are those of the same ids. *)
Theorem delete_removes_subtree s id
    (Hok : forest_ok s) (Hid : is_Some (fo_groups s !! id)) :
  let '(deleted, ids, s') := delete_group id s in
  deleted = true
  /\ (forall d, In d ids <-> exists n, up (fo_groups s) n d = Some id)
  /\ (forall d, fo_groups s' !! d = if bool_decide (d ∈ ids) then None else fo_groups s !! d)
  /\ (forall a d, is_Some (fo_closure s' !! (a, d)) <-> is_Some (fo_closure s !! (a, d)) /\ ~ In d ids).
Proof.
  unfold delete_group. destruct Hid as [g Hg]. rewrite Hg. pose proof (ok_closure s Hok) as Hc.
  assert (Hd : forall d, In d (uniq (id :: getDescendantIds s id)) <-> is_Some (fo_closure s !! (id, d))).
  { intros d. rewrite uniq_in, <- (sub_spec s id d), mem_In. unfold sub. split; [|by right]. intros [<-|H]; [|done].
    apply mem_In, sub_spec. eapply under_self; [done|exact Hg]. }
  assert (Hdead : forall d, d ∈ cascade (size (fo_groups s)) (fo_groups s) {[ id ]} <-> In d (uniq (id :: getDescendantIds s id)))
    by (intros d; rewrite Hd; apply dead_spec; eauto).
  split_and!; [done| | |].
  - intros d. rewrite Hd. apply (under_up s id Hok d).
  - intros d. cbn [fo_groups]. case_bool_decide as Hin; rewrite list_elem_of_In, <- Hdead in Hin.
    + apply map_lookup_filter_None. right. intros x _ Hx. by apply Hx.
    + destruct (fo_groups s !! d) as [x|] eqn:E; [by apply map_lookup_filter_Some|apply map_lookup_filter_None; by left].
  - intros a d. cbn [fo_closure]. split.
    + intros [k H]. apply map_lookup_filter_Some in H as (H & _ & Hn). cbn in Hn. rewrite Hdead in Hn. eauto.
    + intros [[k H] Hn]. exists k. apply map_lookup_filter_Some. split; [done|]. cbn. rewrite Hdead. split; [|by rewrite Hdead].
      intros Ha. rewrite Hd in Ha. apply Hn, Hd. apply (under_up s id Hok d). apply (under_up s id Hok a) in Ha as [j Hj].
      apply closure_up in H as [_ H]; [|done]. exists (Z.to_nat k + j)%nat. rewrite up_add, H. exact Hj.
Qed.

(** C32. The move of a group under itself or one of its sub-groups changes nothing, but its
    answer is an internal error: the handler means a 400, which it only gives to an error whose
    message includes 'circular', and the service's message does not. *)
Theorem cycle_move_internal_error s id p t mayWrite g gp
    (Hid : fo_groups s !! id = Some g) (Hp : fo_groups s !! p = Some gp) (Hg : gn_tenant g = t) (Hgp : gn_tenant gp = t)
    (Hmay : mayWrite = true) (Hunder : is_Some (fo_closure s !! (id, p))) :
  moveHandler id (Some p) t mayWrite s = (500, s).
Proof.
  unfold moveHandler, loadGroup. rewrite Hid, Hp, Hg, Hgp, Hmay. unfold deviceAccessVerdict. rewrite Z.eqb_refl. cbn [negb andb].
  unfold move. rewrite Hid. rewrite bool_decide_true by done. done.
Qed.

(** ** A sample *)

Definition sample_group (name : string) (parent : option Z) : GroupRequest :=
  G_create {| cg_name := name; cg_description := None; cg_parentId := parent; cg_sortOrder := None; cg_isGeneral := None |} true.
Definition sample_forest : Forest :=
  fold_left serve [(3, sample_group "Web servers" None); (3, sample_group "Paris" (Some 1)); (3, sample_group "Paris" None);
                   (3, G_move 3 (Some 2) true)] empty_forest.

Lemma sample_forest_ok : forest_ok sample_forest.
Proof. apply served_ok_run. Qed.

Lemma delete_removes_subtree_witness :
  fst (delete_group 2 sample_forest) = (true, [2; 3]) /\ fo_groups (snd (delete_group 2 sample_forest)) !! 3 = None.
Proof.
  assert (Hid : is_Some (fo_groups sample_forest !! 2)) by (vm_compute; eauto).
  pose proof (delete_removes_subtree sample_forest 2 sample_forest_ok Hid) as H.
  destruct (delete_group 2 sample_forest) as [[b ids] s'] eqn:E. destruct H as (-> & _ & H & _).
  assert (Hids : ids = [2; 3]) by (change ids with (snd (fst (true, ids, s'))); rewrite <- E; by vm_compute).
  subst ids. split; [done|]. cbn [snd]. by rewrite H.
Defined.

Lemma cycle_move_internal_error_witness : moveHandler 1 (Some 3) 3 true sample_forest = (500, sample_forest).
Proof.
  refine (cycle_move_internal_error sample_forest 1 3 3 true
    {| gn_name := "Web servers"; gn_slug := "web-servers"; gn_description := None; gn_parent := None; gn_sort_order := 0;
       gn_is_general := false; gn_evaluate_only := false; gn_tenant := 3 |}
    {| gn_name := "Paris"; gn_slug := "paris-1"; gn_description := None; gn_parent := Some 2; gn_sort_order := 0;
       gn_is_general := false; gn_evaluate_only := false; gn_tenant := 3 |} _ _ eq_refl eq_refl eq_refl _).
  - by vm_compute.
  - by vm_compute.
  - exists 2. by vm_compute.
Defined.
