(* ===== verification/AgentCommand.v ===== *)
(** * The agent command queue ([server/src/services/agentCommand.service.ts])

    Commands an administrator queues for an agent (uninstall, restart, firewall resync), what
    a contact of the agent takes out of the queue, its acknowledgements, the sweep, and the job
    that deletes the agents that received an uninstall ([cleanupUninstalledDevices] of
    agent.service.ts). Times are milliseconds. *)

From S2P Require Import Prelude JsString JsValue JsJson Tenancy Access Query.

(** ** Rows *)

Inductive CommandType := Uninstall | Restart | Firewall_resync.
Inductive CommandStatus := Queued | Sent | Acked | Succeeded | Failed | Expired.
#[export] Instance CommandType_eq : EqDecision CommandType.
Proof. solve_decision. Defined.
#[export] Instance CommandStatus_eq : EqDecision CommandStatus.
Proof. solve_decision. Defined.

Definition COMMAND_TTL_MS (t : CommandType) : option Z := match t with Uninstall => None | _ => Some (24 * 3600000) end.
Definition RESULT_TIMEOUT_MS : Z := 15 * 60000.
Definition DRAIN_LIMIT : nat := 10.
Definition MAX_RESULT_CHARS : Z := 4000.
Definition UNINSTALL_GRACE_MS : Z := 10 * 60 * 1000.

Definition command_text (t : CommandType) : string :=
  match t with Uninstall => "uninstall" | Restart => "restart" | Firewall_resync => "firewall_resync" end.
Definition isAgentCommandType (v : js) : option CommandType :=
  match v with JStr s => List.find (fun t => String.eqb (command_text t) s) [Uninstall; Restart; Firewall_resync] | _ => None end.

(** [agent_commands] (migration 042), by id. *)
Record Command := {
  cm_device : Z; cm_tenant : Z; cm_type : CommandType; cm_payload : js; cm_status : CommandStatus; cm_result : option js;
  cm_legacy : bool; cm_created_by : option Z; cm_created_at : Z; cm_sent_at : option Z; cm_acked_at : option Z;
  cm_finished_at : option Z; cm_expires_at : option Z
}.

(** The columns of [agent_devices] the queue reads and writes. *)
Record CommandDevice := { cd_tenant : Z; cd_type : option string; cd_status : string; cd_pending_command : option string; cd_uninstall_at : option Z }.

(** The tables, the sequence of the ids, the rows announced to the tenant audience. *)
Record CommandQueue := { q_devices : gmap Z CommandDevice; q_commands : gmap Z Command; q_next : Z; q_emitted : list (Z * Command) }.

Definition is_open (s : CommandStatus) : bool := match s with Queued | Sent | Acked => true | _ => false end.
(** [outstanding]: the open rows with no result yet, one per device and type (the partial
    unique index of migration 042). *)
Definition outstanding (c : Command) : bool := is_open (cm_status c) && bool_decide (cm_finished_at c = None).

(** ** Values *)

Definition AGENT_COMMAND_CAPABILITY : string := "cmdqueue".
Definition hasAgentCapability (raw : js) (cap : string) : bool :=
  match (match raw with JStr s => JSON_parse s | v => Some v end) with
  | Some (JArr l) => existsb (fun v => match v with JStr s => String.eqb s cap | _ => false end) l
  | _ => false
  end.

Definition jsonObject (v : js) : option js :=
  match (match v with JStr s => JSON_parse s | v => Some v end) with
  | Some (JObj l) => Some (JObj l)
  | _ => None
  end.

(** The length of [JSON.stringify(v)], escapes included; [other] is what a number that is not
    an integer prints to. *)
Definition escaped_length (c : ascii) : Z :=
  if (code c =? 34) || (code c =? 92) then 2
  else if 32 <=? code c then 1
  else if in_range 8 10 c || (code c =? 12) || (code c =? 13) then 2 else 6.
Fixpoint chars_length (s : string) : Z := match s with EmptyString => 0 | String c r => escaped_length c + chars_length r end.
Definition quoted_length (s : string) : Z := 2 + chars_length s.
Fixpoint json_length (other : Z) (v : js) : Z :=
  match v with
  | JUndefined | JNull => 4
  | JBool b => if b then 4 else 5
  | JNum (NInt z) => Z.of_nat (String.length (dec z))
  | JNum NOther => other
  | JStr s => quoted_length s
  | JArr l => 2 + (fix go (l : list js) := match l with [] => 0 | [x] => json_length other x | x :: r => json_length other x + 1 + go r end) l
  | JObj l => 2 + (fix go (l : list (string * js)) :=
                     match l with
                     | [] => 0
                     | [(k, x)] => quoted_length k + 1 + json_length other x
                     | (k, x) :: r => quoted_length k + 1 + json_length other x + 1 + go r
                     end) l
  end.

Definition sanitizeCommandResult (other : Z) (raw : js) : option js :=
  match (match raw with
         | JStr s => if is_empty (trim s) then None else Some (JObj [("message", JStr (trim s))])
         | _ => jsonObject raw
         end) with
  | None => None
  | Some obj =>
      if json_length other obj <=? MAX_RESULT_CHARS then Some obj
      else
        let error := match get_field "error" obj with JStr s => Some s | _ => None end in
        let message := match get_field "message" obj with JStr s => s | _ => "" end in
        Some (JObj [(match error with Some _ => "error" | None => "message" end, JStr (substring 0 1000 (default message error)));
                    ("truncated", JBool true)])
  end.

(** [String(n)] of a number a row id may be; [trim] of a text; then [/^[1-9][0-9]{0,17}$/]. *)
Definition ack_id (raw : js) : option Z :=
  let text := match raw with JNum (NInt z) => dec z | JStr s => trim s | _ => "" end in
  match text with
  | String c r => if is_digit19 c && str_forall is_digit r && (String.length r <=? 17)%nat then Some (digits_value 10 text) else None
  | EmptyString => None
  end.

(** ** Writes *)

Definition set_queue_devices f (q : CommandQueue) : CommandQueue :=
  {| q_devices := f (q_devices q); q_commands := q_commands q; q_next := q_next q; q_emitted := q_emitted q |}.
Definition set_queue_commands f (q : CommandQueue) : CommandQueue :=
  {| q_devices := q_devices q; q_commands := f (q_commands q); q_next := q_next q; q_emitted := q_emitted q |}.
(** [emitCommand] *)
Definition emit_rows (rows : list (Z * Command)) (q : CommandQueue) : CommandQueue :=
  {| q_devices := q_devices q; q_commands := q_commands q; q_next := q_next q; q_emitted := q_emitted q ++ rows |}.

(** UPDATE ... WHERE ... RETURNING *. *)
Definition update_commands (p : Z -> Command -> bool) (f : Command -> Command) (q : CommandQueue) : CommandQueue :=
  set_queue_commands (map_imap (fun i c => Some (if p i c then f c else c))) q.
Definition returned_rows (p : Z -> Command -> bool) (f : Command -> Command) (q : CommandQueue) : list (Z * Command) :=
  map (fun '(i, c) => (i, f c)) (List.filter (fun '(i, c) => p i c) (map_to_list (q_commands q))).

Definition update_device (d : Z) (f : CommandDevice -> CommandDevice) (q : CommandQueue) : CommandQueue := set_queue_devices (alter f d) q.
Definition set_pending (v : option string) (d : CommandDevice) : CommandDevice :=
  {| cd_tenant := cd_tenant d; cd_type := cd_type d; cd_status := cd_status d; cd_pending_command := v; cd_uninstall_at := cd_uninstall_at d |}.
Definition set_uninstall_at (v : option Z) (d : CommandDevice) : CommandDevice :=
  {| cd_tenant := cd_tenant d; cd_type := cd_type d; cd_status := cd_status d; cd_pending_command := cd_pending_command d; cd_uninstall_at := v |}.

(** The columns an UPDATE sets, the others kept. *)
Definition with_status (s : CommandStatus) (result : option js) (legacy : bool) (sent acked finished : option Z) (c : Command) : Command :=
  {| cm_device := cm_device c; cm_tenant := cm_tenant c; cm_type := cm_type c; cm_payload := cm_payload c; cm_status := s;
     cm_result := result; cm_legacy := legacy; cm_created_by := cm_created_by c; cm_created_at := cm_created_at c; cm_sent_at := sent;
     cm_acked_at := acked; cm_finished_at := finished; cm_expires_at := cm_expires_at c |}.
Definition mark_sent (now : Z) (c : Command) : Command :=
  with_status Sent (cm_result c) (cm_legacy c) (Some now) (cm_acked_at c) (cm_finished_at c) c.
Definition mark_legacy (now : Z) (c : Command) : Command :=
  with_status Sent (cm_result c) true (Some now) (cm_acked_at c) (Some now) c.
Definition mark_queued (c : Command) : Command := with_status Queued (cm_result c) false None (cm_acked_at c) None c.
Definition mark_expired (now : Z) (c : Command) : Command :=
  with_status Expired (cm_result c) (cm_legacy c) (cm_sent_at c) (cm_acked_at c) (Some now) c.
Definition mark_failed (now : Z) (error : string) (c : Command) : Command :=
  with_status Failed (Some (JObj [("error", JStr error)])) (cm_legacy c) (cm_sent_at c) (cm_acked_at c) (Some now) c.
Definition mark_acked (now : Z) (result : option js) (c : Command) : Command :=
  with_status Acked (match result with Some r => Some r | None => cm_result c end) (cm_legacy c) (cm_sent_at c) (Some now) (cm_finished_at c) c.
Definition mark_done (status : CommandStatus) (now : Z) (result : option js) (c : Command) : Command :=
  with_status status result (cm_legacy c) (cm_sent_at c) (Some (default now (cm_acked_at c))) (Some now) c.

(** ** Operations *)

Definition device_not_found : CodedError := codedError 404 "AGENT_NOT_FOUND" "Device not found".
Definition command_outstanding : CodedError := codedError 409 "commandOutstanding" "This command is already pending for this agent".

Definition has_outstanding (d : Z) (t : CommandType) (q : CommandQueue) : bool :=
  existsb (fun '(_, c) => (cm_device c =? d) && bool_decide (cm_type c = t) && outstanding c) (map_to_list (q_commands q)).

Definition new_command (d tenant : Z) (t : CommandType) (payload : js) (by_ : option Z) (now : Z) (expires : option Z) : Command :=
  {| cm_device := d; cm_tenant := tenant; cm_type := t; cm_payload := payload; cm_status := Queued; cm_result := None; cm_legacy := false;
     cm_created_by := by_; cm_created_at := now; cm_sent_at := None; cm_acked_at := None; cm_finished_at := None; cm_expires_at := expires |}.
Definition insert_command (c : Command) (q : CommandQueue) : CommandQueue :=
  {| q_devices := q_devices q; q_commands := <[q_next q := c]> (q_commands q); q_next := q_next q + 1; q_emitted := q_emitted q |}.

(** The time a command is dropped at when it was not delivered. *)
Definition expiry (t : CommandType) (now : Z) : option Z := option_map (fun ttl => now + ttl) (COMMAND_TTL_MS t).

Definition enqueue (now d tenantId : Z) (t : CommandType) (payload : js) (createdBy : option Z) (q : CommandQueue)
    : (CodedError + Z * Command) * CommandQueue :=
  match q_devices q !! d with
  | None => (inl device_not_found, q)
  | Some dev =>
      if negb (cd_tenant dev =? tenantId) then (inl device_not_found, q)
      else if has_outstanding d t q then (inl command_outstanding, q)
      else
        let c := new_command d tenantId t payload createdBy now (expiry t now) in
        let q' := insert_command c q in
        let q' := if bool_decide (t = Uninstall) then update_device d (set_pending (Some "uninstall")) q' else q' in
        (inr (q_next q, c), emit_rows [(q_next q, c)] q')
  end.

(** The ids the command was queued for: a 404 and a 409 are skipped. *)
Fixpoint enqueueMany (now : Z) (ids : list Z) (tenantId : Z) (t : CommandType) (createdBy : option Z) (q : CommandQueue) : list Z * CommandQueue :=
  match ids with
  | [] => ([], q)
  | d :: r =>
      let '(res, q) := enqueue now d tenantId t (JObj []) createdBy q in
      let '(l, q) := enqueueMany now r tenantId t createdBy q in
      (match res with inr _ => d :: l | inl _ => l end, q)
  end.

(** What a drain hands to the hub: the rows claimed, and whether they are legacy. *)
Record CommandClaim := { cl_rows : list (Z * Command); cl_legacy : bool }.
Definition no_claim : CommandClaim := {| cl_rows := []; cl_legacy := false |}.

Definition queued_of (d : Z) (c : Command) : bool := (cm_device c =? d) && bool_decide (cm_status c = Queued).
Definition past_deadline (now : Z) (c : Command) : bool := match cm_expires_at c with Some e => e <=? now | None => false end.
Definition oldest_first (a b : Z * Command) : bool :=
  (cm_created_at (snd a) <? cm_created_at (snd b)) || ((cm_created_at (snd a) =? cm_created_at (snd b)) && (fst a <=? fst b)).

(** The expired rows first, then a pending uninstall without a row gets one. *)
Definition claim_prepare (now d : Z) (dev : CommandDevice) (q : CommandQueue) : CommandQueue :=
  let q := update_commands (fun _ c => queued_of d c && past_deadline now c) (mark_expired now) q in
  if bool_decide (cd_pending_command dev = Some "uninstall") && negb (has_outstanding d Uninstall q)
  then insert_command (new_command d (cd_tenant dev) Uninstall (JObj []) None now None) q else q.

Definition claim (now d : Z) (cmdqueue : bool) (q : CommandQueue) : CommandClaim * CommandQueue :=
  match q_devices q !! d with
  | None => (no_claim, q)
  | Some dev =>
      if negb (String.eqb (cd_status dev) "approved") then (no_claim, q)
      else
        let expired := returned_rows (fun _ c => queued_of d c && past_deadline now c) (mark_expired now) q in
        let q := claim_prepare now d dev q in
        let ids := if cmdqueue
                   then map fst (firstn DRAIN_LIMIT (order_by oldest_first (List.filter (fun ic => queued_of d (snd ic)) (map_to_list (q_commands q)))))
                   else map fst (List.filter (fun ic => queued_of d (snd ic) && bool_decide (cm_type (snd ic) = Uninstall)) (map_to_list (q_commands q))) in
        let f := if cmdqueue then mark_sent now else mark_legacy now in
        let rows := order_by (fun a b => fst a <=? fst b) (returned_rows (fun i _ => mem i ids) f q) in
        let q := update_commands (fun i _ => mem i ids) f q in
        let q := if existsb (fun ic => bool_decide (cm_type (snd ic) = Uninstall)) rows
                 then update_device d (fun x => set_uninstall_at (Some now)
                        (if bool_decide (cd_pending_command dev = Some "uninstall") then set_pending None x else x)) q
                 else q in
        ({| cl_rows := rows; cl_legacy := negb cmdqueue && negb (bool_decide (rows = [])) |}, emit_rows (expired ++ rows) q)
  end.

(** [None]: a row that goes back meets an outstanding one of its device and type, and the
    unique index refuses the whole statement. *)
Definition goes_back (ids : list Z) (i : Z) (c : Command) : bool :=
  mem i ids && bool_decide (cm_status c = Sent) && (bool_decide (cm_finished_at c = None) || cm_legacy c).
Definition back_violates (ids : list Z) (q : CommandQueue) : bool :=
  let rows := map_to_list (q_commands q) in
  existsb (fun '(i, c) => goes_back ids i c
             && existsb (fun '(j, c') => negb (j =? i) && (cm_device c' =? cm_device c) && bool_decide (cm_type c' = cm_type c)
                                         && (goes_back ids j c' || outstanding c')) rows) rows.

Definition requeue (ids : list Z) (q : CommandQueue) : option CommandQueue :=
  if bool_decide (ids = []) then Some q
  else if back_violates ids q then None
  else
    let back := returned_rows (goes_back ids) mark_queued q in
    let q := update_commands (goes_back ids) mark_queued q in
    let q := fold_left (fun q ic => update_device (cm_device (snd ic)) (fun x => set_uninstall_at None (set_pending (Some "uninstall") x)) q)
               (List.filter (fun ic => bool_decide (cm_type (snd ic) = Uninstall)) back) q in
    Some (emit_rows back q).

Definition requeueLegacyUninstall (d since : Z) (q : CommandQueue) : option CommandQueue :=
  requeue (map fst (List.filter (fun ic => (cm_device (snd ic) =? d) && bool_decide (cm_type (snd ic) = Uninstall)
                                           && bool_decide (cm_status (snd ic) = Sent) && cm_legacy (snd ic)
                                           && match cm_sent_at (snd ic) with Some t => since <=? t | None => false end)
                             (map_to_list (q_commands q)))) q.

Definition fail (now id d : Z) (error : string) (q : CommandQueue) : CommandQueue :=
  let p := fun i c => (i =? id) && (cm_device c =? d) && is_open (cm_status c) in
  emit_rows (returned_rows p (mark_failed now error) q) (update_commands p (mark_failed now error) q).

Definition ack (other now d : Z) (rawId rawStatus rawResult : js) (q : CommandQueue) : option (Z * Command) * CommandQueue :=
  match ack_id rawId with
  | None => (None, q)
  | Some id =>
      let result := sanitizeCommandResult other rawResult in
      let mine c := (cm_device c =? d) && bool_decide (cm_finished_at c = None) in
      match (match rawStatus with
             | JStr s => if String.eqb s "acked" then Some (fun c => mine c && bool_decide (cm_status c = Sent), mark_acked now result)
                         else if String.eqb s "succeeded" || String.eqb s "failed"
                         then Some (fun c => mine c && (bool_decide (cm_status c = Sent) || bool_decide (cm_status c = Acked)),
                                    mark_done (if String.eqb s "failed" then Failed else Succeeded) now result)
                         else None
             | _ => None
             end) with
      | None => (None, q)
      | Some (p, f) =>
          match q_commands q !! id with
          | None => (None, q)
          | Some c =>
              if negb (p c) then (None, q)
              else
                let q := emit_rows [(id, f c)] (update_commands (fun i c => (i =? id) && p c) f q) in
                (Some (id, f c), if bool_decide (cm_status (f c) = Failed) && bool_decide (cm_type c = Uninstall)
                                 then update_device d (set_uninstall_at None) q else q)
          end
      end
  end.

Definition sweep (now : Z) (q : CommandQueue) : Z * CommandQueue :=
  let p1 := fun (_ : Z) c => bool_decide (cm_status c = Queued) && past_deadline now c in
  let expired := returned_rows p1 (mark_expired now) q in
  let q := update_commands p1 (mark_expired now) q in
  let p2 := fun (_ : Z) c => (bool_decide (cm_status c = Sent) || bool_decide (cm_status c = Acked)) && bool_decide (cm_finished_at c = None)
                 && match cm_sent_at c with Some t => t <? now - RESULT_TIMEOUT_MS | None => false end in
  let f2 := mark_failed now "No result reported by the agent" in
  let timedOut := returned_rows p2 f2 q in
  let q := update_commands p2 f2 q in
  (Z.of_nat (length expired + length timedOut), emit_rows (expired ++ timedOut) q).

(** ** What uses the queue in agent.service.ts *)

(** A queue command, or a legacy value of [pending_command]. *)
Definition sendCommand (now id : Z) (command : string) (tenantId : Z) (createdBy : option Z) (q : CommandQueue)
    : (CodedError + bool) * CommandQueue :=
  match isAgentCommandType (JStr command) with
  | Some t =>
      match enqueue now id tenantId t (JObj []) createdBy q with
      | (inr _, q') => (inr true, q')
      | (inl e, q') => (if err_status e =? 404 then inr false else inl e, q')
      end
  | None =>
      match q_devices q !! id with
      | Some dev => if cd_tenant dev =? tenantId then (inr true, update_device id (set_pending (Some command)) q) else (inr false, q)
      | None => (inr false, q)
      end
  end.

Definition bulkSendCommand (now : Z) (ids : list Z) (command : string) (tenantId : Z) (createdBy : option Z) (q : CommandQueue)
    : list Z * CommandQueue :=
  match ids with
  | [] => ([], q)
  | _ =>
      match isAgentCommandType (JStr command) with
      | Some t => enqueueMany now ids tenantId t createdBy q
      | None =>
          let p kd := mem (fst kd) ids && (cd_tenant (snd kd) =? tenantId) in
          (map fst (List.filter p (map_to_list (q_devices q))),
           set_queue_devices (map_imap (fun d dev => Some (if p (d, dev) then set_pending (Some command) dev else dev))) q)
      end
  end.

(** The deletion of a device cascades to its commands. *)
Definition delete_devices (ids : list Z) (q : CommandQueue) : CommandQueue :=
  {| q_devices := filter (fun kd => mem (fst kd) ids = false) (q_devices q);
     q_commands := filter (fun kc => mem (cm_device (snd kc)) ids = false) (q_commands q); q_next := q_next q; q_emitted := q_emitted q |}.

Definition cleanup_due (now : Z) (dev : CommandDevice) : bool :=
  match cd_uninstall_at dev with Some t => t <? now - UNINSTALL_GRACE_MS | None => false end.
Definition cleanupUninstalledDevices (now : Z) (q : CommandQueue) : CommandQueue :=
  delete_devices (map fst (List.filter (fun kd => cleanup_due now (snd kd)) (map_to_list (q_devices q)))) q.

(** [agentRows] and [queueUninstallAll] of tenant.service.ts. *)
Definition agentRows (tenantId : Z) (dev : CommandDevice) : bool :=
  (cd_tenant dev =? tenantId) && String.eqb (default "agent" (cd_type dev)) "agent".
Definition uninstall_wanted (tenantId : Z) (dev : CommandDevice) : bool :=
  agentRows tenantId dev && String.eqb (cd_status dev) "approved" && bool_decide (cd_uninstall_at dev = None).
Definition queueUninstallAll (tenantId : Z) (q : CommandQueue) : list Z * CommandQueue :=
  (map fst (List.filter (fun kd => uninstall_wanted tenantId (snd kd)) (map_to_list (q_devices q))),
   set_queue_devices (fmap (fun dev => if uninstall_wanted tenantId dev then set_pending (Some "uninstall") dev else dev)) q).

(** The legacy command of a heartbeat ([handlePush]): a queued uninstall is claimed by an agent
    without the queue; any other value is delivered and cleared. *)
Definition push_command (now d : Z) (cmdqueue : bool) (q : CommandQueue) : option string * CommandQueue :=
  match q_devices q !! d with
  | None => (None, q)
  | Some dev =>
      match cd_pending_command dev with
      | None => (None, q)
      | Some c =>
          if String.eqb c "uninstall" then
            if cmdqueue then (None, q)
            else let '(cl, q) := claim now d false q in (if cl_legacy cl then Some "uninstall" else None, q)
          else if is_empty c then (None, q)
          else (Some c, update_device d (set_pending None) q)
      end
  end.

(** [_deliverCommands] of obliguardHub.service.ts on an open channel: [prepared] is whether the
    ban list of a resync could be resolved, [written] whether a frame was. A requeue that fails
    is only logged by the callers. *)
Definition deliverCommands (now d : Z) (cmdqueue : bool) (prepared written : Z -> bool) (q : CommandQueue) : bool * CommandQueue :=
  let '(cl, q) := claim now d cmdqueue q in
  let back ids q := default q (requeue ids q) in
  if cl_legacy cl then
    if existsb (fun ic => written (fst ic)) (firstn 1 (cl_rows cl)) then (true, q) else (false, back (map fst (cl_rows cl)) q)
  else if negb cmdqueue then (false, q)
  else
    let ready ic := negb (bool_decide (cm_type (snd ic) = Firewall_resync)) || prepared (fst ic) in
    let q := fold_left (fun q ic => if ready ic then q else fail now (fst ic) d "The ban list could not be resolved" q) (cl_rows cl) q in
    let frames := List.filter ready (cl_rows cl) in
    (existsb (fun ic => written (fst ic)) frames, back (map fst (List.filter (fun ic => negb (written (fst ic))) frames)) q).

(** ** Requests *)

Inductive QueueRequest :=
| C_enrol (d tenant : Z) (type : option string) (status : string)
| C_status (d : Z) (status : string)
| C_send (now d : Z) (command : string) (tenant : Z) (by_ : option Z)
| C_sendMany (now : Z) (ids : list Z) (command : string) (tenant : Z) (by_ : option Z)
| C_claim (now d : Z) (cmdqueue : bool)
| C_push (now d : Z) (cmdqueue : bool)
| C_deliver (now d : Z) (cmdqueue : bool) (prepared written : Z -> bool)
| C_requeue (ids : list Z)
| C_requeueLegacy (d since : Z)
| C_fail (now id d : Z) (error : string)
| C_ack (other now d : Z) (rawId rawStatus rawResult : js)
| C_sweep (now : Z)
| C_uninstallAll (tenant : Z)
| C_cleanup (now : Z)
| C_delete (ids : list Z).

Definition serve (q : CommandQueue) (r : QueueRequest) : CommandQueue :=
  match r with
  | C_enrol d tenant type status =>
      match q_devices q !! d with
      | Some _ => q
      | None => set_queue_devices (insert d {| cd_tenant := tenant; cd_type := type; cd_status := status; cd_pending_command := None; cd_uninstall_at := None |}) q
      end
  | C_status d status => update_device d (fun x => {| cd_tenant := cd_tenant x; cd_type := cd_type x; cd_status := status;
                            cd_pending_command := cd_pending_command x; cd_uninstall_at := cd_uninstall_at x |}) q
  | C_send now d command tenant by_ => snd (sendCommand now d command tenant by_ q)
  | C_sendMany now ids command tenant by_ => snd (bulkSendCommand now ids command tenant by_ q)
  | C_claim now d cmdqueue => snd (claim now d cmdqueue q)
  | C_push now d cmdqueue => snd (push_command now d cmdqueue q)
  | C_deliver now d cmdqueue prepared written => snd (deliverCommands now d cmdqueue prepared written q)
  | C_requeue ids => default q (requeue ids q)
  | C_requeueLegacy d since => default q (requeueLegacyUninstall d since q)
  | C_fail now id d error => fail now id d error q
  | C_ack other now d rawId rawStatus rawResult => snd (ack other now d rawId rawStatus rawResult q)
  | C_sweep now => snd (sweep now q)
  | C_uninstallAll tenant => snd (queueUninstallAll tenant q)
  | C_cleanup now => cleanupUninstalledDevices now q
  | C_delete ids => delete_devices ids q
  end.

Definition empty_queue : CommandQueue := {| q_devices := ∅; q_commands := ∅; q_next := 1; q_emitted := [] |}.

(** ** Statements

    Every request is a sequence of four kinds of statements: rows change without opening one,
    a row is queued where none is outstanding, rows go back to the queue, devices change. *)

Definition closed (c : Command) : bool := match cm_status c with Succeeded | Failed | Expired => true | _ => false end.

(** What no statement changes of a row. *)
Definition same_command (c c' : Command) : Prop :=
  cm_device c' = cm_device c /\ cm_tenant c' = cm_tenant c /\ cm_type c' = cm_type c /\ cm_payload c' = cm_payload c
  /\ cm_created_by c' = cm_created_by c /\ cm_created_at c' = cm_created_at c /\ cm_expires_at c' = cm_expires_at c.

(** The columns of a row in each status. *)
Definition row_ok (c : Command) : Prop :=
  match cm_status c with
  | Queued => cm_sent_at c = None /\ cm_acked_at c = None /\ cm_finished_at c = None /\ cm_legacy c = false
  | Sent => is_Some (cm_sent_at c) /\ cm_acked_at c = None
            /\ (cm_legacy c = false /\ cm_finished_at c = None \/ cm_legacy c = true /\ cm_type c = Uninstall /\ cm_finished_at c = cm_sent_at c)
  | Acked => is_Some (cm_sent_at c) /\ is_Some (cm_acked_at c) /\ cm_finished_at c = None /\ cm_legacy c = false
  | Succeeded => is_Some (cm_sent_at c) /\ is_Some (cm_acked_at c) /\ is_Some (cm_finished_at c) /\ cm_legacy c = false
  | Failed => is_Some (cm_finished_at c)
  | Expired => is_Some (cm_finished_at c) /\ cm_sent_at c = None /\ is_Some (cm_expires_at c)
  end.

(** A change of one row: never of a closed one, never opening it, never back from an
    acknowledgement; an uninstall keeps the time it was delivered at. *)
Record advances (c c' : Command) : Prop := {
  av_same : same_command c c';
  av_open : closed c = false;
  av_row : row_ok c';
  av_outstanding : outstanding c' = true -> outstanding c = true;
  av_acked : cm_status c = Acked -> cm_status c' ∈ [Acked; Succeeded; Failed];
  av_sent : forall t, cm_sent_at c = Some t -> cm_sent_at c' = Some t
}.

Definition rows_unique (m : gmap Z Command) : Prop :=
  forall i j c c', m !! i = Some c -> m !! j = Some c' -> outstanding c = true -> outstanding c' = true ->
    cm_device c = cm_device c' -> cm_type c = cm_type c' -> i = j.

(** The cleanup job only deletes a device that took an uninstall, at the time it counts from. *)
Definition uninstalls_taken (q : CommandQueue) : Prop :=
  forall d dev t, q_devices q !! d = Some dev -> cd_uninstall_at dev = Some t ->
    exists i c, q_commands q !! i = Some c /\ cm_device c = d /\ cm_type c = Uninstall /\ cm_sent_at c = Some t.

Record queue_ok (q : CommandQueue) : Prop := {
  qo_rows : forall i c, q_commands q !! i = Some c -> row_ok c /\ cm_expires_at c = expiry (cm_type c) (cm_created_at c);
  qo_fresh : forall i, is_Some (q_commands q !! i) -> i < q_next q;
  qo_devices : forall i c, q_commands q !! i = Some c -> is_Some (q_devices q !! cm_device c);
  qo_unique : rows_unique (q_commands q);
  qo_taken : uninstalls_taken q
}.

Lemma update_lookup p f q i : q_commands (update_commands p f q) !! i = (fun c => if p i c then f c else c) <$> q_commands q !! i.
Proof. cbn. rewrite map_lookup_imap. by destruct (q_commands q !! i). Qed.

(** Announcements are not part of the invariant. *)
Lemma emit_ok rows q : queue_ok q -> queue_ok (emit_rows rows q).
Proof. intros []. by split. Qed.

Lemma update_commands_ok p f q :
  queue_ok q -> (forall i c, q_commands q !! i = Some c -> p i c = true -> advances c (f c)) -> queue_ok (update_commands p f q).
Proof.
  intros [Hr Hn Hd Hu Ht] Hf.
  assert (Hrow : forall i c', q_commands (update_commands p f q) !! i = Some c' -> exists c, q_commands q !! i = Some c /\ (c' = c \/ advances c c')).
  { intros i c' H. rewrite update_lookup in H. destruct (q_commands q !! i) as [c|] eqn:E; [|done]. cbn in H. injection H as <-.
    exists c. split; [done|]. destruct (p i c) eqn:Ep; [right; by eapply Hf|by left]. }
  split.
  - intros i c' H. apply Hrow in H as (c & Hc & [->|[(_ & _ & Hty & _ & _ & Hcr & He) _ H _ _ _]]); [by apply (Hr i)|].
    split; [done|]. rewrite He, Hty, Hcr. by apply (Hr i).
  - intros i [c' H]. apply Hrow in H as (c & Hc & _). apply Hn. eauto.
  - intros i c' H. apply Hrow in H as (c & Hc & [->|[(Hdev & _) _ _ _ _ _]]); [by apply (Hd i)|]. rewrite Hdev. by apply (Hd i).
  - intros i j c1 c2 H1 H2 O1 O2 E1 E2. apply Hrow in H1 as (x1 & X1 & H1), H2 as (x2 & X2 & H2).
    assert (K1 : outstanding x1 = true /\ cm_device x1 = cm_device c1 /\ cm_type x1 = cm_type c1)
      by (destruct H1 as [->|[(? & ? & ? & _) _ _ Ho _ _]]; [done|split_and!; [by apply Ho|done|done]]).
    assert (K2 : outstanding x2 = true /\ cm_device x2 = cm_device c2 /\ cm_type x2 = cm_type c2)
      by (destruct H2 as [->|[(? & ? & ? & _) _ _ Ho _ _]]; [done|split_and!; [by apply Ho|done|done]]).
    destruct K1 as (? & ? & ?), K2 as (? & ? & ?). apply (Hu i j x1 x2); try done; congruence.
  - intros d dev t H1 H2. destruct (Ht d dev t H1 H2) as (i & c & Hi & Hdev & Hty & Hs). exists i, (if p i c then f c else c).
    rewrite update_lookup, Hi. split; [done|]. destruct (p i c) eqn:Ep; [|done].
    destruct (Hf i c Hi Ep) as [(Hdev' & _ & Hty' & _) _ _ _ _ Hs']. split_and!; [congruence|congruence|by apply Hs'].
Qed.

Lemma devices_ok f q :
  queue_ok q -> (forall d, is_Some (q_devices q !! d) -> is_Some (f (q_devices q) !! d)) ->
  (forall d dev t, f (q_devices q) !! d = Some dev -> cd_uninstall_at dev = Some t ->
     exists i c, q_commands q !! i = Some c /\ cm_device c = d /\ cm_type c = Uninstall /\ cm_sent_at c = Some t) ->
  queue_ok (set_queue_devices f q).
Proof. intros [Hr Hn Hd Hu Ht] Hex Hun. split; cbn; [done|done| |done|done]. intros i c Hi. apply Hex. by apply (Hd i). Qed.

Lemma update_device_ok d f q :
  queue_ok q ->
  (forall dev t, q_devices q !! d = Some dev -> cd_uninstall_at (f dev) = Some t ->
     exists i c, q_commands q !! i = Some c /\ cm_device c = d /\ cm_type c = Uninstall /\ cm_sent_at c = Some t) ->
  queue_ok (update_device d f q).
Proof.
  intros Hok Hf. apply devices_ok; [done| |].
  - intros d' [dev H]. rewrite lookup_alter. case_decide; [subst; rewrite H|]; eauto.
  - intros d' dev t H Hun. rewrite lookup_alter in H. case_decide as E; [subst d'|by apply (qo_taken q Hok d' dev)].
    destruct (q_devices q !! d) as [x|] eqn:Ex; [|done]. cbn in H. injection H as <-. by apply (Hf x).
Qed.

(** A device update that leaves, or clears, the time of its uninstall. *)
Lemma update_device_keeps d f q :
  queue_ok q -> (forall dev, cd_uninstall_at (f dev) = cd_uninstall_at dev \/ cd_uninstall_at (f dev) = None) -> queue_ok (update_device d f q).
Proof.
  intros Hok Hf. apply update_device_ok; [done|]. intros dev t H Hun. destruct (Hf dev) as [E|E]; [|congruence].
  rewrite E in Hun. by apply (qo_taken q Hok d dev).
Qed.

Lemma has_outstanding_spec d t q :
  has_outstanding d t q = false -> forall i c, q_commands q !! i = Some c -> cm_device c = d -> cm_type c = t -> outstanding c = false.
Proof.
  intros H i c Hi Hd Ht. unfold has_outstanding in H. rewrite existsb_false_forall in H.
  assert (Hin : In (i, c) (map_to_list (q_commands q))) by (by apply list_elem_of_In, elem_of_map_to_list).
  specialize (H _ Hin). cbn in H. rewrite Hd, Z.eqb_refl, bool_decide_true in H by done. exact H.
Qed.

Lemma insert_command_ok c q :
  queue_ok q -> cm_status c = Queued -> row_ok c -> cm_expires_at c = expiry (cm_type c) (cm_created_at c) ->
  is_Some (q_devices q !! cm_device c) -> has_outstanding (cm_device c) (cm_type c) q = false -> queue_ok (insert_command c q).
Proof.
  intros [Hr Hn Hd Hu Ht] Hs Hrow Hexp Hdev Ho. pose proof (has_outstanding_spec _ _ _ Ho) as Hno.
  assert (Hnew : q_commands q !! q_next q = None).
  { destruct (q_commands q !! q_next q) eqn:E; [|done]. assert (q_next q < q_next q) by (apply Hn; eauto). lia. }
  split; cbn.
  - intros i c' [[<- <-]|[_ H]]%lookup_insert_Some; [done|by apply (Hr i)].
  - intros i H. rewrite lookup_insert_is_Some in H. destruct H as [<-|[_ H]]; [lia|]. specialize (Hn i H). lia.
  - intros i c' [[<- <-]|[_ H]]%lookup_insert_Some; [done|by apply (Hd i)].
  - intros i j c1 c2 [[<- <-]|[Hi H1]]%lookup_insert_Some [[<- <-]|[Hj H2]]%lookup_insert_Some O1 O2 E1 E2; [done| | |by apply (Hu i j c1 c2)].
    + rewrite (Hno j c2) in O2; [done|done|congruence|congruence].
    + rewrite (Hno i c1) in O1; [done|done|congruence|congruence].
  - intros d dev t H1 H2. destruct (Ht d dev t H1 H2) as (i & c' & Hi & H). exists i, c'. split; [|done].
    cbn. rewrite lookup_insert_ne; [done|]. intros <-. congruence.
Qed.

(** ** The life of a row *)

(** A closed row is left alone, an acknowledged one only ends, the rest of a row never changes. *)
Definition later (c c' : Command) : Prop :=
  c' = c \/ closed c = false /\ same_command c c' /\ (cm_status c = Acked -> cm_status c' ∈ [Acked; Succeeded; Failed]).

Record life (q q' : CommandQueue) : Prop := {
  lf_next : q_next q <= q_next q';
  lf_rows : forall i c, q_commands q !! i = Some c -> q_commands q' !! i = None \/ exists c', q_commands q' !! i = Some c' /\ later c c';
  lf_gone : forall i, i < q_next q -> q_commands q !! i = None -> q_commands q' !! i = None
}.

(** An operation keeps the invariant and moves rows forward. *)
Definition sound (q q' : CommandQueue) : Prop := queue_ok q -> queue_ok q' /\ life q q'.

Lemma later_trans c1 c2 c3 : later c1 c2 -> later c2 c3 -> later c1 c3.
Proof.
  intros [->|(H1 & H2 & H3)] [->|(K1 & K2 & K3)]; [by left|by right|by right|right].
  split_and!; [done|unfold same_command in *; intuition congruence|]. intros Ha. specialize (H3 Ha).
  destruct (cm_status c2) eqn:E; try set_solver; unfold closed in K1; by rewrite E in K1.
Qed.

Lemma life_refl q : life q q.
Proof. split; [done| |done]. intros i c H. right. exists c. split; [done|by left]. Qed.

Lemma sound_refl q : sound q q.
Proof. intros H. split; [done|apply life_refl]. Qed.

Lemma sound_trans q1 q2 q3 : sound q1 q2 -> sound q2 q3 -> sound q1 q3.
Proof.
  intros H12 H23 Hok. destruct (H12 Hok) as [Hok2 [Hn Hr Hg]]. destruct (H23 Hok2) as [Hok3 [Hn' Hr' Hg']]. split; [done|]. split.
  - lia.
  - intros i c Hi. destruct (Hr i c Hi) as [Hnone|(c' & Hc' & Hl)].
    + left. apply Hg'; [|done]. pose proof (qo_fresh q1 Hok i ltac:(eauto)). lia.
    + destruct (Hr' i c' Hc') as [?|(c'' & ? & ?)]; [by left|right]. exists c''. split; [done|by eapply later_trans].
  - intros i Hi Hnone. apply Hg'; [lia|by apply Hg].
Qed.

Lemma sound_emit rows q : sound q (emit_rows rows q).
Proof. intros H. split; [by apply emit_ok|]. split; [done| |done]. intros i c Hi. right. exists c. split; [done|by left]. Qed.

Lemma advances_later c c' : advances c c' -> later c c'.
Proof. intros []. right. by split_and!. Qed.

Lemma sound_update p f q :
  (forall i c, queue_ok q -> q_commands q !! i = Some c -> p i c = true -> advances c (f c)) -> sound q (update_commands p f q).
Proof.
  intros Hf Hok. split; [by apply update_commands_ok; eauto|]. split; [done| |].
  - intros i c Hi. right. rewrite update_lookup, Hi. cbn. eexists. split; [done|]. destruct (p i c) eqn:E; [by eapply advances_later, Hf|by left].
  - intros i _ Hi. by rewrite update_lookup, Hi.
Qed.

Lemma sound_device d f q :
  (forall dev, cd_uninstall_at (f dev) = cd_uninstall_at dev \/ cd_uninstall_at (f dev) = None) -> sound q (update_device d f q).
Proof.
  intros Hf Hok. split; [by apply update_device_keeps|]. split; [done| |done]. intros i c Hi. right. exists c. split; [done|by left].
Qed.

Lemma sound_insert d tenant t payload by_ now expires q :
  expires = expiry t now -> is_Some (q_devices q !! d) -> has_outstanding d t q = false ->
  sound q (insert_command (new_command d tenant t payload by_ now expires) q).
Proof.
  intros He Hd Ho Hok. split; [by apply insert_command_ok|]. pose proof (qo_fresh q Hok) as Hn. split; cbn; [lia| |].
  - intros i c Hi. right. exists c. split; [|by left]. rewrite lookup_insert_ne; [done|]. intros <-.
    assert (q_next q < q_next q) by (apply Hn; eauto). lia.
  - intros i Hlt Hi. rewrite lookup_insert_ne by lia. done.
Qed.

(** ** Every request is sound *)

(** The conditions of a statement as propositions, every disjunction a case. *)
Ltac reveal :=
  cbn beta in *;
  repeat first
    [ match goal with
      | H : bool_decide _ = true |- _ => apply bool_decide_eq_true in H
      | H : bool_decide _ = false |- _ => apply bool_decide_eq_false in H
      | H : _ || _ = true |- _ => apply orb_true_iff in H as [H|H]
      end
    | progress boolify ].

Lemma enqueue_sound now d tenant t payload by_ q : sound q (snd (enqueue now d tenant t payload by_ q)).
Proof.
  unfold enqueue. destruct (q_devices q !! d) as [dev|] eqn:Hd; [|apply sound_refl]. destruct (negb _); [apply sound_refl|].
  destruct (has_outstanding d t q) eqn:Ho; [apply sound_refl|]. cbn [snd]. eapply sound_trans; [|apply sound_emit].
  set (c := new_command _ _ _ _ _ _ _). apply sound_trans with (insert_command c q).
  - apply sound_insert; [by destruct t|eauto|done].
  - destruct (bool_decide _); [|apply sound_refl]. apply sound_device. by left.
Qed.

Lemma enqueueMany_sound now ids tenant t by_ q : sound q (snd (enqueueMany now ids tenant t by_ q)).
Proof.
  revert q. induction ids as [|d ids IH]; intros q; [apply sound_refl|]. cbn [enqueueMany].
  pose proof (enqueue_sound now d tenant t (JObj []) by_ q) as H. destruct (enqueue _ _ _ _ _ _ q) as [res q1]. cbn [snd] in H.
  pose proof (IH q1) as H1. destruct (enqueueMany now ids tenant t by_ q1) as [l q2]. cbn [snd] in *. by eapply sound_trans.
Qed.

(** The changes of one row that are not a delivery nor a return. *)
Lemma expire_advances now c : row_ok c -> cm_status c = Queued -> past_deadline now c = true -> advances c (mark_expired now c).
Proof.
  intros Hr Hs Hp. unfold row_ok in Hr. rewrite Hs in Hr. destruct Hr as (H1 & H2 & H3 & H4). unfold past_deadline in Hp.
  split; cbn; [done|by unfold closed; rewrite Hs| |done|by rewrite Hs|done]. unfold row_ok. cbn. destruct (cm_expires_at c); [|done]. by eauto.
Qed.

Lemma deliver_advances now c : row_ok c -> cm_status c = Queued -> advances c (mark_sent now c).
Proof.
  intros Hr Hs. unfold row_ok in Hr. rewrite Hs in Hr. destruct Hr as (H1 & H2 & H3 & H4).
  split; cbn; [done|by unfold closed; rewrite Hs| | |by rewrite Hs|by rewrite H1].
  - unfold row_ok. cbn. split_and!; [eauto|done|by left].
  - intros _. unfold outstanding. by rewrite Hs, H3.
Qed.

Lemma deliver_legacy_advances now c : row_ok c -> cm_status c = Queued -> cm_type c = Uninstall -> advances c (mark_legacy now c).
Proof.
  intros Hr Hs Ht. unfold row_ok in Hr. rewrite Hs in Hr. destruct Hr as (H1 & H2 & H3 & H4).
  split; cbn; [done|by unfold closed; rewrite Hs| | |by rewrite Hs|by rewrite H1].
  - unfold row_ok. cbn. split_and!; [eauto|done|by right].
  - by unfold outstanding.
Qed.

Lemma fail_advances now error c : is_open (cm_status c) = true -> advances c (mark_failed now error c).
Proof.
  intros Hs. split; cbn; [done|by unfold closed; destruct (cm_status c)| |done|intros _; set_solver|done]. unfold row_ok. cbn. eauto.
Qed.

Lemma acked_advances now r c : row_ok c -> cm_status c = Sent -> cm_finished_at c = None -> advances c (mark_acked now r c).
Proof.
  intros Hr Hs Hf. unfold row_ok in Hr. rewrite Hs in Hr. destruct Hr as (H1 & H2 & [[H3 H4]|(H3 & H4 & H5)]); [|destruct H1; congruence].
  split; cbn; [done|by unfold closed; rewrite Hs| | |intros _; set_solver|done].
  - unfold row_ok. cbn. split_and!; eauto.
  - intros _. unfold outstanding. by rewrite Hs, H4.
Qed.

Lemma done_advances status now r c :
  row_ok c -> cm_status c ∈ [Sent; Acked] -> cm_finished_at c = None -> status ∈ [Succeeded; Failed] -> advances c (mark_done status now r c).
Proof.
  intros Hr Hs Hf Hst. assert (Hc : closed c = false) by (unfold closed; destruct (cm_status c); set_solver).
  split; cbn; [done|done| | |intros _; set_solver|done].
  - assert (Hl : is_Some (cm_sent_at c) /\ cm_legacy c = false).
    { unfold row_ok in Hr. destruct (cm_status c) eqn:E; try set_solver; try tauto. destruct Hr as (H1 & _ & H3). destruct H3 as [[? _]|(_ & _ & H5)]; [done|destruct H1; congruence]. }
    destruct Hl. unfold row_ok. cbn. destruct status; try set_solver; cbn; eauto 10.
  - unfold outstanding. cbn. destruct status; set_solver.
Qed.

Lemma fail_sound now id d error q : sound q (fail now id d error q).
Proof.
  unfold fail. eapply sound_trans; [|apply sound_emit]. apply sound_update. intros i c _ _ H. reveal. by apply fail_advances.
Qed.

Lemma sweep_sound now q : sound q (snd (sweep now q)).
Proof.
  unfold sweep. cbn [snd]. eapply sound_trans; [|apply sound_emit]. eapply sound_trans; apply sound_update.
  - intros i c Hok Hi H. reveal. apply expire_advances; [by apply (qo_rows q Hok i)|done|done].
  - intros i c _ _ H. reveal; apply fail_advances; by rewrite H.
Qed.

Lemma ack_sound other now d rawId rawStatus rawResult q : sound q (snd (ack other now d rawId rawStatus rawResult q)).
Proof.
  unfold ack. destruct (ack_id rawId) as [id|]; [|apply sound_refl]. set (result := sanitizeCommandResult other rawResult).
  set (mine := fun c => (cm_device c =? d) && bool_decide (cm_finished_at c = None)). cbv zeta.
  destruct (match rawStatus with JStr s => _ | _ => None end) as [[p f]|] eqn:E; [|apply sound_refl].
  assert (Hpf : forall c, row_ok c -> p c = true -> advances c (f c)).
  { destruct rawStatus as [| | | |s| |]; try done. destruct (String.eqb s "acked").
    - injection E as <- <-. intros c Hr H. unfold mine in H. reveal. by apply acked_advances.
    - destruct (_ || _); [|done]. injection E as <- <-. intros c Hr H. unfold mine in H.
      reveal; (apply done_advances; [done|set_solver|done|destruct (String.eqb s "failed"); set_solver]). }
  destruct (q_commands q !! id) as [c|] eqn:Hc; [|apply sound_refl]. destruct (negb (p c)); [apply sound_refl|]. cbn [snd].
  assert (Hup : sound q (emit_rows [(id, f c)] (update_commands (fun i c => (i =? id) && p c) f q))).
  { eapply sound_trans; [|apply sound_emit]. apply sound_update. intros i x Hok Hi H. reveal. apply Hpf; [by apply (qo_rows q Hok i)|done]. }
  destruct (_ && _); [|done]. eapply sound_trans; [exact Hup|]. apply sound_device. by right.
Qed.

(** Changes that leave the rows alone. *)
Lemma life_same q q' : q_commands q' = q_commands q -> q_next q' = q_next q -> life q q'.
Proof.
  intros Hc Hn. split; [lia| |by rewrite Hc]. intros i c Hi. right. exists c. rewrite Hc. split; [done|by left].
Qed.

Lemma claim_prepare_sound now d dev q : q_devices q !! d = Some dev -> sound q (claim_prepare now d dev q).
Proof.
  intros Hd. unfold claim_prepare. set (q1 := update_commands _ _ q). apply sound_trans with q1.
  - apply sound_update. intros i c Hok Hi H. unfold queued_of in H. reveal.
    apply expire_advances; [by apply (qo_rows q Hok i)|done|done].
  - destruct (bool_decide (cd_pending_command dev = _) && negb _) eqn:E; [|apply sound_refl]. reveal. apply sound_insert; [done|by exists dev|done].
Qed.

(** What a claim takes: queued rows of the device; of an agent without the queue, uninstalls. *)
Definition claim_ids (d : Z) (cmdqueue : bool) (q : CommandQueue) : list Z :=
  if cmdqueue
  then map fst (firstn DRAIN_LIMIT (order_by oldest_first (List.filter (fun ic => queued_of d (snd ic)) (map_to_list (q_commands q)))))
  else map fst (List.filter (fun ic => queued_of d (snd ic) && bool_decide (cm_type (snd ic) = Uninstall)) (map_to_list (q_commands q))).

Lemma claim_ids_queued d cmdqueue q i c :
  q_commands q !! i = Some c -> mem i (claim_ids d cmdqueue q) = true ->
  cm_device c = d /\ cm_status c = Queued /\ (cmdqueue = false -> cm_type c = Uninstall).
Proof.
  intros Hi H. unfold claim_ids in H. rewrite mem_In in H.
  assert (K : exists c', q_commands q !! i = Some c' /\ queued_of d c' = true /\ (cmdqueue = false -> cm_type c' = Uninstall)).
  { destruct cmdqueue; apply in_map_iff in H as ([j c'] & <- & H); cbn [fst] in *.
    - apply list_elem_of_In, elem_of_take in H. destruct H as (n & H & _). apply list_elem_of_lookup_2, list_elem_of_In, order_by_In, filter_In in H as [H E].
      exists c'. split_and!; [by apply elem_of_map_to_list, list_elem_of_In|done|done].
    - apply filter_In in H as [H E]. reveal. exists c'. split_and!; [by apply elem_of_map_to_list, list_elem_of_In|done|done]. }
  destruct K as (c' & Hc' & Hq & Ht). assert (c' = c) as -> by congruence. unfold queued_of in Hq. reveal. auto.
Qed.

Lemma returned_rows_In p f q i c : In (i, c) (returned_rows p f q) <-> exists c0, q_commands q !! i = Some c0 /\ p i c0 = true /\ c = f c0.
Proof.
  unfold returned_rows. rewrite in_map_iff. split.
  - intros ([j c0] & [= <- <-] & H). apply filter_In in H as [H Hp]. exists c0. split_and!; [by apply elem_of_map_to_list, list_elem_of_In|done|done].
  - intros (c0 & H & Hp & ->). exists (i, c0). split; [done|]. apply filter_In. split; [by apply list_elem_of_In, elem_of_map_to_list|done].
Qed.

Lemma claim_sound now d cmdqueue q : sound q (snd (claim now d cmdqueue q)).
Proof.
  unfold claim. destruct (q_devices q !! d) as [dev|] eqn:Hd; [|apply sound_refl]. destruct (negb _); [apply sound_refl|].
  pose proof (claim_prepare_sound now d dev q Hd) as H1. set (q1 := claim_prepare now d dev q) in *. cbv zeta.
  fold (claim_ids d cmdqueue q1). set (ids := claim_ids d cmdqueue q1). set (f := if cmdqueue then mark_sent now else mark_legacy now).
  set (rows := order_by _ (returned_rows (fun i _ => mem i ids) f q1)). cbn [snd].
  eapply sound_trans; [exact H1|]. eapply sound_trans; [|apply sound_emit]. apply sound_trans with (update_commands (fun i _ => mem i ids) f q1).
  - apply sound_update. intros i c Hok Hi H. cbn beta in H. pose proof (claim_ids_queued d cmdqueue q1 i c Hi H) as (Hdev & Hs & Ht).
    pose proof (qo_rows q1 Hok i c Hi) as [Hr _]. unfold f. destruct cmdqueue; [by apply deliver_advances|]. apply deliver_legacy_advances; auto.
  - destruct (existsb _ rows) eqn:E; [|apply sound_refl]. intros Hok. split; [|by apply life_same].
    apply existsb_exists in E as ([i c'] & Hin & Hty). cbn in Hty. apply bool_decide_eq_true in Hty.
    apply order_by_In, returned_rows_In in Hin as (c & Hi & Hm & ->). pose proof (claim_ids_queued d cmdqueue q1 i c Hi Hm) as (Hdev & Hs & _).
    apply update_device_ok; [done|]. intros x t _ Ht. assert (t = now) as -> by (destruct (bool_decide _) in Ht; cbn in Ht; congruence).
    exists i, (f c). rewrite update_lookup, Hi. cbn. rewrite Hm. unfold f in *. by destruct cmdqueue.
Qed.

(** ** Rows that go back *)

Lemma mark_queued_later c : cm_status c = Sent -> later c (mark_queued c).
Proof. intros H. right. unfold closed. rewrite H. by split_and!. Qed.

Lemma back_violates_spec ids q i j c c' :
  back_violates ids q = false -> q_commands q !! i = Some c -> q_commands q !! j = Some c' -> goes_back ids i c = true ->
  cm_device c' = cm_device c -> cm_type c' = cm_type c -> goes_back ids j c' || outstanding c' = true -> j = i.
Proof.
  intros H Hi Hj Hg Hd Ht Ho. destruct (decide (j = i)) as [|Hne]; [done|exfalso]. unfold back_violates in H. cbv zeta in H.
  rewrite existsb_false_forall in H. apply elem_of_map_to_list, list_elem_of_In in Hi, Hj. specialize (H _ Hi). cbn beta iota in H.
  rewrite Hg in H. cbn in H. rewrite existsb_false_forall in H. specialize (H _ Hj). cbn beta iota in H.
  rewrite Hd, Z.eqb_refl, bool_decide_true, Ho in H by done. rewrite (proj2 (Z.eqb_neq j i) Hne) in H. done.
Qed.

(** The updates of the devices of a list of rows. *)
Definition each_device (f : CommandDevice -> CommandDevice) (l : list (Z * Command)) (q : CommandQueue) : CommandQueue :=
  fold_left (fun q ic => update_device (cm_device (snd ic)) f q) l q.

Lemma each_device_rows f l q : q_commands (each_device f l q) = q_commands q /\ q_next (each_device f l q) = q_next q.
Proof. revert q. induction l as [|x l IH]; intros q; [done|]. cbn. by destruct (IH (update_device (cm_device (snd x)) f q)). Qed.

Lemma each_device_some f l q d : is_Some (q_devices q !! d) -> is_Some (q_devices (each_device f l q) !! d).
Proof.
  revert q. induction l as [|x l IH]; intros q H; [done|]. cbn. apply IH. cbn. rewrite lookup_alter_is_Some. done.
Qed.

Lemma each_device_cleared f l q d dev t :
  (forall x, cd_uninstall_at (f x) = None) -> q_devices (each_device f l q) !! d = Some dev -> cd_uninstall_at dev = Some t ->
  q_devices q !! d = Some dev /\ forall ic, In ic l -> cm_device (snd ic) <> d.
Proof.
  intros Hf. revert q. induction l as [|x l IH]; intros q H Ht; [done|]. cbn in H. apply IH in H as [H Hl]; [|done].
  cbn in H. rewrite lookup_alter in H. case_decide as E.
  - subst d. destruct (q_devices q !! _); [|done]. cbn in H. injection H as <-. by rewrite Hf in Ht.
  - split; [done|]. intros ic [<-|Hin]; [done|by apply Hl].
Qed.

Lemma requeue_sound ids q q' : requeue ids q = Some q' -> sound q q'.
Proof.
  unfold requeue. destruct (bool_decide (ids = [])); [intros [= <-]; apply sound_refl|]. destruct (back_violates ids q) eqn:Hv; [done|].
  intros H. injection H as <-. eapply sound_trans; [|apply sound_emit]. set (q1 := update_commands _ _ q).
  set (back := List.filter _ _). set (f := fun x => set_uninstall_at None (set_pending (Some "uninstall") x)).
  change (sound q (each_device f back q1)). destruct (each_device_rows f back q1) as [Hc Hn].
  intros Hok. pose proof Hok as [Hr Hfresh Hdev Hu Ht].
  assert (Hl : forall i, q_commands q1 !! i = (fun c => if goes_back ids i c then mark_queued c else c) <$> q_commands q !! i) by apply update_lookup.
  assert (Hinv : forall i c', q_commands q1 !! i = Some c' -> exists c, q_commands q !! i = Some c /\ c' = (if goes_back ids i c then mark_queued c else c)).
  { intros i c' H. rewrite Hl in H. destruct (q_commands q !! i) as [c|]; [|done]. injection H as <-. eauto. }
  assert (Hsent : forall i c, goes_back ids i c = true -> cm_status c = Sent) by (intros i c H; unfold goes_back in H; by reveal).
  assert (Hout : forall i c, goes_back ids i c || outstanding c = outstanding (if goes_back ids i c then mark_queued c else c))
    by (intros i c; by destruct (goes_back ids i c)).
  assert (Hcols : forall i c, cm_device (if goes_back ids i c then mark_queued c else c) = cm_device c
                           /\ cm_type (if goes_back ids i c then mark_queued c else c) = cm_type c) by (intros i c; by destruct (goes_back ids i c)).
  split; [split|].
  - intros i c'. rewrite Hc. intros H. apply Hinv in H as (c & Hi & ->). destruct (Hr i c Hi) as [H1 H2]. destruct (goes_back ids i c) eqn:E; [|done].
    split; [|done]. apply Hsent in E. unfold row_ok in *. cbn. rewrite E in H1. by destruct H1 as (_ & ? & _).
  - intros i. rewrite Hc, Hn. intros [c' H]. apply Hinv in H as (c & Hi & _). apply Hfresh. eauto.
  - intros i c'. rewrite Hc. intros H. apply Hinv in H as (c & Hi & ->). apply each_device_some. rewrite (proj1 (Hcols i c)). by apply (Hdev i).
  - intros i j c1 c2. rewrite Hc. intros H1 H2 O1 O2 E1 E2. apply Hinv in H1 as (x1 & X1 & ->), H2 as (x2 & X2 & ->).
    rewrite <- Hout in O1, O2. rewrite (proj1 (Hcols i x1)), (proj1 (Hcols j x2)) in E1. rewrite (proj2 (Hcols i x1)), (proj2 (Hcols j x2)) in E2.
    destruct (goes_back ids i x1) eqn:G1; [symmetry; by apply (back_violates_spec ids q i j x1 x2)|].
    destruct (goes_back ids j x2) eqn:G2; [by apply (back_violates_spec ids q j i x2 x1 Hv X2 X1 G2 E1 E2); rewrite G1|]. by apply (Hu i j x1 x2).
  - intros d dev t H1 H2. destruct (each_device_cleared f back q1 d dev t ltac:(done) H1 H2) as [H1' Hnot]. clear H1; rename H1' into H1. destruct (Ht d dev t H1 H2) as (i & c & Hi & Hd & Hty & Hs).
    exists i, c. rewrite Hc, Hl, Hi. cbn. destruct (goes_back ids i c) eqn:E; [|done]. exfalso. apply (Hnot (i, mark_queued c)); [|done].
    unfold back. apply filter_In. split; [apply returned_rows_In; eauto|]. cbn. by apply bool_decide_eq_true.
  - split; [rewrite Hn; done| |]; intros i; rewrite Hc, Hl.
    + intros c Hi. right. rewrite Hi. cbn. eexists. split; [done|]. destruct (goes_back ids i c) eqn:E; [|by left]. by eapply mark_queued_later, Hsent.
    + intros _ Hi. by rewrite Hi.
Qed.

Lemma requeue_default_sound ids q : sound q (default q (requeue ids q)).
Proof. destruct (requeue ids q) as [q'|] eqn:E; [by eapply requeue_sound|apply sound_refl]. Qed.

(** ** Deletions and the other requests *)

Lemma delete_devices_sound ids q : sound q (delete_devices ids q).
Proof.
  intros [Hr Hn Hd Hu Ht]. unfold delete_devices. split; [split|]; cbn.
  - intros i c [H _]%map_lookup_filter_Some. by apply (Hr i).
  - intros i [c [H _]%map_lookup_filter_Some]. apply Hn. eauto.
  - intros i c [H Hm]%map_lookup_filter_Some. destruct (Hd i c H) as [dev Hdev]. exists dev. apply map_lookup_filter_Some. done.
  - intros i j c c' [H1 _]%map_lookup_filter_Some [H2 _]%map_lookup_filter_Some. by apply Hu.
  - intros d dev t [H Hm]%map_lookup_filter_Some Hun. destruct (Ht d dev t H Hun) as (i & c & Hi & Hc & Hrest).
    exists i, c. split; [|done]. apply map_lookup_filter_Some. split; [done|]. cbn in *. by rewrite Hc.
  - split; cbn; [done| |].
    + intros i c Hi. destruct (mem (cm_device c) ids) eqn:E.
      * left. apply map_lookup_filter_None. right. intros c' Hc'. cbn. rewrite Hi in Hc'. injection Hc' as <-. by rewrite E.
      * right. exists c. split; [|by left]. by apply map_lookup_filter_Some.
    + intros i _ Hi. apply map_lookup_filter_None. by left.
Qed.

(** Statements over the devices that only set [pending_command]. *)
Lemma sound_devices f q :
  (forall d, is_Some (q_devices q !! d) -> is_Some (f (q_devices q) !! d)) ->
  (forall d dev t, f (q_devices q) !! d = Some dev -> cd_uninstall_at dev = Some t -> exists x, q_devices q !! d = Some x /\ cd_uninstall_at x = Some t) ->
  sound q (set_queue_devices f q).
Proof.
  intros H1 H2 Hok. split; [|by apply life_same]. apply devices_ok; [done|done|]. intros d dev t H Ht.
  destruct (H2 d dev t H Ht) as (x & Hx & Hxt). by apply (qo_taken q Hok d x).
Qed.

Lemma queueUninstallAll_sound tenant q : sound q (snd (queueUninstallAll tenant q)).
Proof.
  apply sound_devices.
  - intros d H. by rewrite lookup_fmap, fmap_is_Some.
  - intros d dev t H Ht. rewrite lookup_fmap in H. destruct (q_devices q !! d) as [x|]; [|done]. injection H as <-. exists x. split; [done|].
    by destruct (uninstall_wanted tenant x).
Qed.

Lemma bulkSendCommand_sound now ids command tenant by_ q : sound q (snd (bulkSendCommand now ids command tenant by_ q)).
Proof.
  unfold bulkSendCommand. destruct ids as [|d0 ids]; [apply sound_refl|]. destruct (isAgentCommandType _); [apply enqueueMany_sound|].
  apply sound_devices.
  - intros d [x Hx]. rewrite map_lookup_imap, Hx. cbn. eauto.
  - intros d dev t H Ht. rewrite map_lookup_imap in H. destruct (q_devices q !! d) as [x|]; [|done]. cbn in H. injection H as <-. exists x. split; [done|].
    by destruct (_ && _).
Qed.

Lemma sendCommand_sound now d command tenant by_ q : sound q (snd (sendCommand now d command tenant by_ q)).
Proof.
  unfold sendCommand. destruct (isAgentCommandType _) as [t|].
  - pose proof (enqueue_sound now d tenant t (JObj []) by_ q) as H. by destruct (enqueue _ _ _ _ _ _ _) as [[e|r] q'].
  - destruct (q_devices q !! d) as [dev|]; [|apply sound_refl]. destruct (_ =? _); [|apply sound_refl]. apply sound_device. by left.
Qed.

Lemma push_sound now d cmdqueue q : sound q (snd (push_command now d cmdqueue q)).
Proof.
  unfold push_command. pose proof (claim_sound now d false q) as H. destruct (claim now d false q) as [cl q1]. cbn [snd] in H.
  assert (Hp : sound q (update_device d (set_pending None) q)) by (apply sound_device; by left).
  destruct (q_devices q !! d) as [dev|]; [|apply sound_refl]. destruct (cd_pending_command dev) as [s|]; [|apply sound_refl].
  destruct (String.eqb s _); [destruct cmdqueue; [apply sound_refl|done]|]. destruct (is_empty s); [apply sound_refl|exact Hp].
Qed.

Lemma deliver_sound now d cmdqueue prepared written q : sound q (snd (deliverCommands now d cmdqueue prepared written q)).
Proof.
  unfold deliverCommands. pose proof (claim_sound now d cmdqueue q) as H. destruct (claim now d cmdqueue q) as [cl q1]. cbn [snd] in H.
  cbv zeta. destruct (cl_legacy cl); [destruct (existsb _ _); [done|]; eapply sound_trans; [done|apply requeue_default_sound]|].
  destruct (negb cmdqueue); [done|]. cbn [snd]. set (back := map fst _).
  eapply sound_trans; [exact H|]. set (q2 := fold_left _ _ _). apply sound_trans with q2; [|apply requeue_default_sound].
  unfold q2. clear H q2 back. generalize (cl_rows cl). intros l. revert q1. induction l as [|ic l IH]; intros q1; [apply sound_refl|]. cbn [fold_left].
  eapply sound_trans; [|apply IH]. destruct (_ || _); [apply sound_refl|apply fail_sound].
Qed.

Lemma serve_sound q r : sound q (serve q r).
Proof.
  destruct r; cbn [serve].
  - destruct (q_devices q !! d) eqn:E; [apply sound_refl|]. apply sound_devices.
    + intros d' H. rewrite lookup_insert_is_Some. destruct (decide (d = d')); auto.
    + intros d' dev t [[<- <-]|[_ H]]%lookup_insert_Some Ht; [done|eauto].
  - apply sound_device. by left.
  - apply sendCommand_sound.
  - apply bulkSendCommand_sound.
  - apply claim_sound.
  - apply push_sound.
  - apply deliver_sound.
  - apply requeue_default_sound.
  - apply requeue_default_sound.
  - apply fail_sound.
  - apply ack_sound.
  - apply sweep_sound.
  - apply queueUninstallAll_sound.
  - apply delete_devices_sound.
  - apply delete_devices_sound.
Qed.

Lemma empty_queue_ok : queue_ok empty_queue.
Proof.
  split; cbn.
  - intros i c H. by rewrite lookup_empty in H.
  - intros i H. rewrite lookup_empty in H. by destruct H.
  - intros i c H. by rewrite lookup_empty in H.
  - intros i j c c' H. by rewrite lookup_empty in H.
  - intros d dev t H. cbn in H. by rewrite lookup_empty in H.
Qed.

Lemma serve_all_sound rs q : sound q (fold_left serve rs q).
Proof. revert q. induction rs as [|r rs IH]; intros q; [apply sound_refl|]. cbn. eapply sound_trans; [apply serve_sound|apply IH]. Qed.

(** The queue after any sequence of requests. *)
Definition queue_after (rs : list QueueRequest) : CommandQueue := fold_left serve rs empty_queue.

Lemma queue_after_ok rs : queue_ok (queue_after rs).
Proof. apply serve_all_sound, empty_queue_ok. Qed.

(** ** What a claim hands out *)

Lemma claim_prepare_row now d dev q i c :
  q_commands (claim_prepare now d dev q) !! i = Some c -> queued_of d c = true ->
  (q_commands q !! i = Some c /\ past_deadline now c = false) \/ (i = q_next q /\ cm_type c = Uninstall /\ cm_expires_at c = None).
Proof.
  unfold claim_prepare. intros H Hq.
  assert (K : forall i c, q_commands (update_commands (fun _ c => queued_of d c && past_deadline now c) (mark_expired now) q) !! i = Some c ->
                queued_of d c = true -> q_commands q !! i = Some c /\ past_deadline now c = false).
  { intros j x Hj Hx. rewrite update_lookup in Hj. destruct (q_commands q !! j) as [y|]; [|done]. cbn in Hj. injection Hj as Hj. unfold past_deadline in *.
    destruct (queued_of d y) eqn:Ey; cbn in Hj; [|subst; congruence].
    destruct (match cm_expires_at y with Some e => e <=? now | None => false end) eqn:Ep; subst x; [|done].
    unfold queued_of in Hx. cbn in Hx. by rewrite andb_false_r in Hx. }
  destruct (bool_decide (cd_pending_command dev = _) && _); [|left; by apply K]. cbn in H. apply lookup_insert_Some in H as [[<- <-]|[_ H]]; [by right|left; by apply K].
Qed.

Lemma claim_rows now d cmdqueue q i c :
  In (i, c) (cl_rows (fst (claim now d cmdqueue q))) ->
  exists dev c0, q_devices q !! d = Some dev /\ cd_status dev = "approved"
    /\ q_commands (claim_prepare now d dev q) !! i = Some c0 /\ mem i (claim_ids d cmdqueue (claim_prepare now d dev q)) = true
    /\ c = (if cmdqueue then mark_sent now c0 else mark_legacy now c0)
    /\ q_commands (snd (claim now d cmdqueue q)) !! i = Some c.
Proof.
  unfold claim. destruct (q_devices q !! d) as [dev|] eqn:Hd; [|done]. destruct (String.eqb (cd_status dev) "approved") eqn:Ea; [|done].
  apply String.eqb_eq in Ea. cbn [negb]. cbv zeta. fold (claim_ids d cmdqueue (claim_prepare now d dev q)). set (q1 := claim_prepare now d dev q).
  set (f := if cmdqueue then mark_sent now else mark_legacy now). cbn [fst snd cl_rows].
  intros H. apply order_by_In, returned_rows_In in H as (c0 & Hi & Hm & ->). exists dev, c0. split_and!; try done.
  - unfold f. by destruct cmdqueue.
  - destruct (existsb _ _); cbn; rewrite map_lookup_imap, Hi; cbn; by rewrite Hm.
Qed.

Lemma claim_rows_queued now d cmdqueue q i c :
  In (i, c) (cl_rows (fst (claim now d cmdqueue q))) ->
  (exists c0, q_commands q !! i = Some c0 /\ cm_status c0 = Queued) \/ (i = q_next q /\ cm_type c = Uninstall).
Proof.
  intros H. apply claim_rows in H as (dev & c0 & Hd & _ & Hi & Hm & -> & _). pose proof (claim_ids_queued _ _ _ _ _ Hi Hm) as (Hdev & Hs & Ht).
  apply claim_prepare_row in Hi as [[Hi _]|(-> & Hty & _)]; [left; eauto| |]; [right|].
  - split; [done|]. by destruct cmdqueue.
  - unfold queued_of. by rewrite Hdev, Z.eqb_refl, bool_decide_true.
Qed.

Lemma claim_rows_keys now d cmdqueue q :
  List.NoDup (map fst (cl_rows (fst (claim now d cmdqueue q)))) /\ (cmdqueue = true -> (length (cl_rows (fst (claim now d cmdqueue q))) <= DRAIN_LIMIT)%nat).
Proof.
  unfold claim. destruct (q_devices q !! d) as [dev|]; [|split; [constructor|cbn; lia]]. destruct (negb _); [split; [constructor|cbn; lia]|].
  cbv zeta. fold (claim_ids d cmdqueue (claim_prepare now d dev q)). set (q1 := claim_prepare now d dev q). set (ids := claim_ids d cmdqueue q1).
  set (f := if cmdqueue then mark_sent now else mark_legacy now). cbn [fst cl_rows]. set (rows := returned_rows _ f q1).
  assert (Hn : List.NoDup (map fst rows)).
  { unfold rows, returned_rows. rewrite map_map. rewrite (map_ext _ fst) by (by intros [j x]).
    pose proof (NoDup_fst_map_to_list (q_commands q1)) as Hk. apply NoDup_ListNoDup in Hk. revert Hk.
    generalize (map_to_list (q_commands q1)). intros l. induction l as [|[j x] l IH]; intros Hk; [constructor|]. cbn in *. inversion Hk; subst.
    destruct (mem j ids); [|by apply IH]. cbn. constructor; [|by apply IH]. rewrite in_map_iff. intros ([j' x'] & E & Hin). cbn in E. subst.
    apply filter_In in Hin as [Hin _]. match goal with H : ~ In _ _ |- _ => apply H end. apply in_map_iff. exists (j, x'). by split. }
  assert (Hp : map fst (order_by (fun a b : Z * Command => fst a <=? fst b) rows) ≡ₚ map fst rows) by (apply Permutation_map, order_by_perm).
  split; [by eapply Permutation_NoDup; [symmetry|]|]. intros ->. rewrite <- (length_map fst), Hp.
  transitivity (length ids); [|unfold ids, claim_ids; rewrite length_map, length_firstn; lia].
  apply NoDup_incl_length; [done|]. intros i Hi. apply in_map_iff in Hi as ([j x] & <- & Hi). apply returned_rows_In in Hi as (c0 & _ & Hm & _). by apply mem_In.
Qed.

(** ** Properties *)

(** C37. After any sequence of requests, acknowledgements, claims, requeues, sweeps and
    deletions: every row has the columns of its status and the deadline of its type, its device
    exists, its id was given once, a device has at most one outstanding row per type, and a
    device waits for its deletion only when an uninstall row of it was handed over at that time. *)
Theorem queue_consistent (rs : list QueueRequest) : queue_ok (queue_after rs).
Proof. apply queue_after_ok. Qed.

(** The life of a command: whatever happens after, a row keeps its device, tenant, type,
    payload, author and deadline, a closed row never changes, an acknowledged row only ends, a
    deleted id never comes back. *)
Theorem command_lifecycle (rs rs' : list QueueRequest) :
  let q := queue_after rs in let q' := queue_after (rs ++ rs') in
  (forall i c c', q_commands q !! i = Some c -> q_commands q' !! i = Some c' ->
     same_command c c' /\ (closed c = true -> c' = c) /\ (cm_status c = Acked -> cm_status c' ∈ [Acked; Succeeded; Failed]))
  /\ (forall i, i < q_next q -> q_commands q !! i = None -> q_commands q' !! i = None).
Proof.
  cbv zeta. unfold queue_after. rewrite fold_left_app. fold (queue_after rs). destruct (serve_all_sound rs' _ (queue_after_ok rs)) as [_ [Hn Hr Hg]].
  split; [|done]. intros i c c' Hi Hi'. destruct (Hr i c Hi) as [Hnone|(c1 & Hc1 & Hl)]; [congruence|]. assert (c1 = c') as -> by congruence.
  destruct Hl as [->|(Hc & Hs & Ha)]; [split_and!; [done|done|set_solver]|]. split_and!; [done|congruence|done].
Qed.

(** Two requests of the same uninstall: the second is refused while the first is pending, and the
    answer of the agent closes the row for good. *)
Lemma command_lifecycle_witness :
  let rs := [C_enrol 7 1 None "approved"; C_send 0 7 "uninstall" 1 (Some 3); C_claim 10 7 true] in
  let q := queue_after rs in
  let q' := queue_after (rs ++ [C_ack 0 20 7 (JStr "1") (JStr "acked") JNull; C_ack 0 30 7 (JNum (NInt 1)) (JStr "succeeded") JNull]) in
  (exists c c', q_commands q !! 1 = Some c /\ q_commands q' !! 1 = Some c' /\ cm_status c = Sent /\ cm_status c' = Succeeded /\ same_command c c')
  /\ q_commands q' !! 0 = None.
Proof.
  set (rs := [_; _; _]). set (rs' := [C_ack _ _ _ (JStr _) _ _; _]). split.
  - exists (default (new_command 0 0 Restart JNull None 0 None) (q_commands (queue_after rs) !! 1)),
      (default (new_command 0 0 Restart JNull None 0 None) (q_commands (queue_after (rs ++ rs')) !! 1)).
    split_and!; try (vm_compute; reflexivity).
    apply (proj1 (command_lifecycle rs rs') 1); vm_compute; reflexivity.
  - apply (proj2 (command_lifecycle rs rs') 0); vm_compute; reflexivity.
Defined.

(** What an agent is handed: at most ten rows, each once, of an approved device of its own,
    marked as sent now, none past its deadline; without the queue only uninstalls, as legacy
    deliveries; and no later claim hands one of them over again. *)
Theorem claim_exact (rs : list QueueRequest) (now d : Z) (cmdqueue : bool) :
  let q := queue_after rs in let cl := fst (claim now d cmdqueue q) in let q' := snd (claim now d cmdqueue q) in
  Forall (fun '(i, c) =>
      q_commands q' !! i = Some c /\ cm_device c = d /\ cm_status c = Sent /\ cm_sent_at c = Some now /\ past_deadline now c = false
      /\ (cd_status <$> q_devices q !! d) = Some "approved"
      /\ cm_legacy c = negb cmdqueue /\ (cmdqueue || bool_decide (cm_type c = Uninstall)) = true) (cl_rows cl)
  /\ List.NoDup (map fst (cl_rows cl))
  /\ (length (cl_rows cl) <= (if cmdqueue then DRAIN_LIMIT else length (cl_rows cl)))%nat
  /\ forall now' d' cmdqueue' i, ~ (In i (map fst (cl_rows cl)) /\ In i (map fst (cl_rows (fst (claim now' d' cmdqueue' q'))))).
Proof.
  cbv zeta. set (q := queue_after rs). pose proof (claim_rows_keys now d cmdqueue q) as [Hn Hl]. split_and!.
  - apply Forall_forall. intros [i c] Hin%list_elem_of_In. apply claim_rows in Hin as (dev & c0 & Hd & Ha & Hi & Hm & -> & Hq').
    pose proof (claim_ids_queued _ _ _ _ _ Hi Hm) as (Hdev & Hs & Ht). split; [done|].
    assert (Hp : past_deadline now c0 = false /\ cm_legacy c0 = false).
    { pose proof (claim_prepare_sound now d dev q Hd (queue_after_ok rs)) as [Hok1 _]. pose proof (qo_rows _ Hok1 i c0 Hi) as [Hr _].
      unfold row_ok in Hr. rewrite Hs in Hr. apply claim_prepare_row in Hi as [[_ Hp]|(_ & _ & He)]; [tauto| |].
      - unfold past_deadline. rewrite He. tauto.
      - unfold queued_of. by rewrite Hdev, Z.eqb_refl, bool_decide_true. }
    destruct Hp as [Hp Hl0]. rewrite Hd. cbn. rewrite Ha. unfold past_deadline in *. destruct cmdqueue; cbn; split_and!; try done. apply bool_decide_eq_true. by apply Ht.
  - done.
  - destruct cmdqueue; [by apply Hl|lia].
  - intros now' d' cq i [H1 H2]. apply in_map_iff in H1 as ([j c] & E1 & H1), H2 as ([j' c'] & E2 & H2). cbn in E1, E2. subst j j'.
    apply claim_rows in H1 as (dev & c0 & _ & _ & _ & _ & -> & Hq').
    destruct (claim_rows_queued _ _ _ _ _ _ H2) as [(x & Hx & Hs)|[-> _]].
    + rewrite Hq' in Hx. injection Hx as <-. by destruct cmdqueue.
    + destruct (claim_sound now d cmdqueue q (queue_after_ok rs)) as [Hok' _]. pose proof (qo_fresh _ Hok' _ ltac:(eauto)). lia.
Qed.

(** Tests of literal statuses and types. *)
Ltac decide_status :=
  repeat match goal with
         | |- context [bool_decide (?a = ?b :> ?T)] =>
             first [unify T CommandStatus | unify T CommandType];
             let x := eval vm_compute in (bool_decide (a = b)) in
             lazymatch x with true => idtac | false => idtac end; change (bool_decide (a = b)) with x
         end; cbn [andb orb negb].

Lemma sent_limit t now : (t <? now - 15 * 60000) = (t + 900000 <? now).
Proof. destruct (Z.ltb_spec t (now - 15 * 60000)), (Z.ltb_spec (t + 900000) now); done || lia. Qed.

(** The rows a sweep must close: a restart or a resync not delivered within a day, a command an
    agent of the queue got more than fifteen minutes ago and never ended. *)
Definition overdue (now : Z) (c : Command) : bool :=
  match cm_status c with
  | Queued => negb (bool_decide (cm_type c = Uninstall)) && (cm_created_at c + 86400000 <=? now)
  | Sent | Acked => negb (cm_legacy c) && match cm_sent_at c with Some t => t + 900000 <? now | None => false end
  | _ => false
  end.

(** C31. A sweep closes every overdue command, at the time it runs, and changes no other row: a
    command never stays pending for ever, except an uninstall that waits for its agent. *)
Theorem sweep_closes (rs : list QueueRequest) (now : Z) :
  let q := queue_after rs in let q' := snd (sweep now q) in
  forall i, match q_commands q !! i with
            | None => q_commands q' !! i = None
            | Some c => exists c', q_commands q' !! i = Some c'
                /\ (if overdue now c then closed c' = true /\ cm_finished_at c' = Some now /\ same_command c c' else c' = c)
            end.
Proof.
  cbv zeta. intros i. pose proof (queue_after_ok rs) as Hok. set (q := queue_after rs) in *. unfold sweep. cbn [snd q_commands emit_rows].
  rewrite !update_lookup. destruct (q_commands q !! i) as [c|] eqn:Hi; [|done]. cbn. eexists. split; [done|].
  pose proof (qo_rows _ Hok _ _ Hi) as [Hr He]. unfold overdue, past_deadline, row_ok, expiry, closed, RESULT_TIMEOUT_MS in *.
  rewrite He. destruct (cm_status c) eqn:Es; decide_status.
  - destruct (cm_type c) eqn:Et; cbn [option_map COMMAND_TTL_MS]; decide_status; rewrite ?Es; decide_status; [done| |];
      (replace (24 * 3600000) with 86400000 by lia; destruct (_ <=? now); cbn [andb]; [|rewrite Es]; decide_status; done).
  - destruct Hr as ([t Ht] & _ & [[-> ->]|(-> & _ & Hf)]); rewrite Es, Ht; decide_status; [|by rewrite Hf, Ht].
    rewrite (bool_decide_true (None = None)) by done. cbn [andb]. rewrite sent_limit. destruct (_ <? now); cbn; [done|by rewrite ?Es].
  - destruct Hr as ([t Ht] & _ & -> & ->). rewrite Es, Ht. decide_status.
    rewrite (bool_decide_true (None = None)) by done. cbn [andb]. rewrite sent_limit. destruct (_ <? now); cbn; [done|by rewrite ?Es].
  - rewrite Es. by decide_status.
  - rewrite Es. by decide_status.
  - rewrite Es. by decide_status.
Qed.

(** ** What modelling showed *)

(** A legacy uninstall whose frame was not written should go back to the queue. When the same
    uninstall is requested between the claim and the requeue (the legacy row is finished, so
    nothing is outstanding), the unique index refuses the requeue; the device keeps the time of
    the claim and the cleanup job deletes an agent that received nothing. *)
Lemma requeue_refused_deletes :
  let q0 := queue_after [C_enrol 7 1 None "approved"; C_send 0 7 "uninstall" 1 (Some 3)] in
  let '(cl, q1) := claim 10 7 false q0 in
  let '(answer, q2) := enqueue 11 7 1 Uninstall (JObj []) (Some 4) q1 in
  cl_legacy cl = true /\ (exists r, answer = inr r) /\ requeue (map fst (cl_rows cl)) q2 = None
  /\ q_devices (cleanupUninstalledDevices (10 + UNINSTALL_GRACE_MS + 1) q2) !! 7 = None.
Proof. vm_compute. split_and!; [done|by eexists|done|done]. Qed.

(** Stored results are documented as at most [MAX_RESULT_CHARS] once serialized; the message kept
    of a longer one is cut at 1000 characters before it is escaped. *)
Lemma result_bound_missed :
  let text := String.concat "" (repeat (String (Ascii.ascii_of_nat 1) "") 5000) in
  match sanitizeCommandResult 0 (JObj [("error", JStr text)]) with
  | Some r => MAX_RESULT_CHARS < json_length 0 r
  | None => False
  end.
Proof. vm_compute. done. Qed.
