(* ===== verification/SettingsStore.v ===== *)
(** * The settings rows ([shared/src/settingsDefaults.ts], [server/src/services/settings.service.ts])

    The keys an agent inherits over global, tenant, group chain and agent: their definitions,
    what a level may store, the writes with their mirror in the older columns, and the older
    endpoints that write the columns first ([updateAgentGroupConfig] of group.service.ts,
    [updateDevice] and [bulkUpdateDevices] of agent.service.ts, [patchAgentGlobal] of
    appConfig.controller.ts). Resolution is in [SettingsResolve]. *)

From S2P Require Import Prelude JsString JsValue JsJson Tenancy Access Query GroupTree.

(** ** Definitions of the keys *)

Inductive SettingLevel := L_global | L_tenant | L_group | L_agent.
Inductive Resolution := Nearest | AnyTrue | PerField | External.
Inductive SettingType := T_number | T_boolean | T_enum | T_flags.
#[export] Instance SettingLevel_eq : EqDecision SettingLevel.
Proof. solve_decision. Defined.
#[export] Instance SettingLevel_countable : Countable SettingLevel.
Proof.
  refine (inj_countable' (fun l => match l with L_global => 0%nat | L_tenant => 1%nat | L_group => 2%nat | L_agent => 3%nat end)
            (fun n => match n with 0%nat => L_global | 1%nat => L_tenant | 2%nat => L_group | _ => L_agent end) _). by intros [].
Defined.
#[export] Instance Resolution_eq : EqDecision Resolution.
Proof. solve_decision. Defined.
#[export] Instance SettingType_eq : EqDecision SettingType.
Proof. solve_decision. Defined.

Definition ALL_LEVELS : list SettingLevel := [L_global; L_tenant; L_group; L_agent].
Definition WINDOWS_FIREWALL_BACKENDS : list string := ["auto"; "wfp"; "netsh"].
Definition NOTIFICATION_TYPE_FIELDS : list string := ["global"; "down"; "up"; "threat"; "attack"].

(** [SettingRawValue]: the flags are an object whose absent fields inherit. *)
Abbreviation Flags := (gmap string bool).
Inductive SettingValue := V_num (z : Z) | V_bool (b : bool) | V_text (s : string) | V_flags (f : Flags).
#[export] Instance SettingValue_eq : EqDecision SettingValue.
Proof. solve_decision. Defined.

Record SettingDefinition := {
  sd_key : string; sd_type : SettingType; sd_min : option Z; sd_max : option Z; sd_options : list string;
  sd_default : SettingValue; sd_scopes : list SettingLevel; sd_resolution : Resolution
}.
Definition number_setting key lo hi d : SettingDefinition :=
  {| sd_key := key; sd_type := T_number; sd_min := Some lo; sd_max := Some hi; sd_options := []; sd_default := V_num d;
     sd_scopes := ALL_LEVELS; sd_resolution := Nearest |}.
Definition boolean_setting key d scopes r : SettingDefinition :=
  {| sd_key := key; sd_type := T_boolean; sd_min := None; sd_max := None; sd_options := []; sd_default := V_bool d;
     sd_scopes := scopes; sd_resolution := r |}.
Definition enum_setting key options d scopes r : SettingDefinition :=
  {| sd_key := key; sd_type := T_enum; sd_min := None; sd_max := None; sd_options := options; sd_default := V_text d;
     sd_scopes := scopes; sd_resolution := r |}.

Definition all_true : Flags := list_to_map (map (fun f => (f, true)) NOTIFICATION_TYPE_FIELDS).
Definition SETTINGS_DEFINITIONS : list SettingDefinition :=
  [ number_setting "checkIntervalSeconds" 10 86400 60;
    number_setting "maxMissedPushes" 1 20 2;
    boolean_setting "autoBanEnabled" true ALL_LEVELS Nearest;
    boolean_setting "evaluateOnly" false [L_group; L_agent] AnyTrue;
    enum_setting "windowsFirewallBackend" WINDOWS_FIREWALL_BACKENDS "auto" ALL_LEVELS Nearest;
    {| sd_key := "notificationTypes"; sd_type := T_flags; sd_min := None; sd_max := None; sd_options := []; sd_default := V_flags all_true;
       sd_scopes := ALL_LEVELS; sd_resolution := PerField |};
    enum_setting "updatePolicy" ["auto"; "manual"; "off"] "manual" [] External ].

Definition getSettingDefinition (key : string) : option SettingDefinition :=
  List.find (fun d => String.eqb (sd_key d) key) SETTINGS_DEFINITIONS.
Definition isSettingWritableAt (key : string) (level : SettingLevel) : bool :=
  match getSettingDefinition key with Some d => bool_decide (level ∈ sd_scopes d) | None => false end.

(** ** Validation *)

Definition invalid (code message : string) : CodedError := codedError 400 code message.

(** [min === undefined || v >= min] and the same for [max]. *)
Definition within (lo hi : option Z) (z : Z) : bool :=
  match lo with Some l => l <=? z | None => true end && match hi with Some h => z <=? h | None => true end.
Definition is_notification_field (k : string) : bool := existsb (String.eqb k) NOTIFICATION_TYPE_FIELDS.

Fixpoint read_flags (l : list (string * js)) (out : Flags) : CodedError + Flags :=
  match l with
  | [] => inr out
  | (k, v) :: r =>
      if negb (is_notification_field k) then inl (invalid "FIELD_UNKNOWN" "Unknown field")
      else if is_nullish v then read_flags r out
      else match v with
           | JBool b => read_flags r (<[k := b]> out)
           | _ => inl (invalid "FIELD_BOOLEAN_OR_NULL" "must be true, false or null")
           end
  end.
Definition some_flags (f : Flags) : option SettingValue := if bool_decide (f = ∅) then None else Some (V_flags f).

(** The value to store; [None] of a valid value means no explicit value. *)
Definition normalizeSettingValue (def : SettingDefinition) (value : js) : CodedError + option SettingValue :=
  match sd_type def with
  | T_number =>
      match value with
      | JNum (NInt z) => if within (sd_min def) (sd_max def) z then inr (Some (V_num z)) else inl (invalid "FIELD_INTEGER_RANGE" "out of range")
      | _ => inl (invalid "FIELD_INTEGER" "must be an integer")
      end
  | T_boolean => match value with JBool b => inr (Some (V_bool b)) | _ => inl (invalid "FIELD_BOOLEAN" "must be true or false") end
  | T_enum =>
      match value with
      | JStr s => if existsb (String.eqb s) (sd_options def) then inr (Some (V_text s)) else inl (invalid "FIELD_ONE_OF" "must be one of")
      | _ => inl (invalid "FIELD_ONE_OF" "must be one of")
      end
  | T_flags =>
      match value with
      | JObj l => match read_flags l ∅ with inl e => inl e | inr f => inr (some_flags f) end
      | _ => inl (invalid "FIELD_OBJECT" "must be an object")
      end
  end.

Definition writableDefinition (key : js) (level : SettingLevel) : CodedError + SettingDefinition :=
  match (match key with JStr k => getSettingDefinition k | _ => None end) with
  | None => inl (invalid "SETTING_UNKNOWN" "Unknown setting key")
  | Some def =>
      if bool_decide (sd_resolution def = External) then inl (invalid "SETTING_EXTERNAL" "is managed by its own controls")
      else if bool_decide (level ∈ sd_scopes def) then inr def
      else inl (invalid "SETTING_LEVEL_INVALID" "cannot be set at this level")
  end.

(** ** Legacy notification types *)

Definition flagsToLegacyTypes (flags : option Flags) : js :=
  match flags with
  | None => JNull
  | Some f => JObj (map (fun k => (k, match f !! k with Some b => JBool b | None => JNull end)) NOTIFICATION_TYPE_FIELDS)
  end.
Definition js_bool (v : js) : option bool := match v with JBool b => Some b | _ => None end.
Definition legacyTypesToFlags (raw : js) : option Flags :=
  match (match raw with JStr s => JSON_parse s | v => Some v end) with
  | Some (JObj l) =>
      let out := fold_left (fun (acc : Flags) f => match js_bool (get_field f (JObj l)) with Some b => <[f := b]> acc | None => acc end)
                   NOTIFICATION_TYPE_FIELDS ∅ in
      if bool_decide (out = ∅) then None else Some out
  | _ => None
  end.

(** ** State *)

(** A row of [settings] by its unique indexes (level, scope_id, key), with its tenant. *)
Abbreviation RowKey := (SettingLevel * option Z * string)%type.

(** The settings columns of [agent_devices]. *)
Record AgentColumns := {
  ac_tenant : Z; ac_group : option Z; ac_evaluate_only : bool; ac_override : bool; ac_check_interval : Z;
  ac_max_missed : option Z; ac_types : js
}.

(** [st_configs]: [agent_group_config] of the groups that have one; [st_global]: the JSON
    [agent_global_config] of app_config. *)
Record SettingsDb := {
  st_rows : gmap RowKey (SettingValue * Z); st_forest : Forest; st_configs : gmap Z js; st_tenants : gmap Z string;
  st_agents : gmap Z AgentColumns; st_global : js
}.

Definition set_rows f (s : SettingsDb) : SettingsDb :=
  {| st_rows := f (st_rows s); st_forest := st_forest s; st_configs := st_configs s; st_tenants := st_tenants s;
     st_agents := st_agents s; st_global := st_global s |}.
Definition set_configs f (s : SettingsDb) : SettingsDb :=
  {| st_rows := st_rows s; st_forest := st_forest s; st_configs := f (st_configs s); st_tenants := st_tenants s;
     st_agents := st_agents s; st_global := st_global s |}.
Definition set_forest f (s : SettingsDb) : SettingsDb :=
  {| st_rows := st_rows s; st_forest := f (st_forest s); st_configs := st_configs s; st_tenants := st_tenants s;
     st_agents := st_agents s; st_global := st_global s |}.
Definition set_agents f (s : SettingsDb) : SettingsDb :=
  {| st_rows := st_rows s; st_forest := st_forest s; st_configs := st_configs s; st_tenants := st_tenants s;
     st_agents := f (st_agents s); st_global := st_global s |}.
Definition set_global v (s : SettingsDb) : SettingsDb :=
  {| st_rows := st_rows s; st_forest := st_forest s; st_configs := st_configs s; st_tenants := st_tenants s;
     st_agents := st_agents s; st_global := v |}.

Definition has_group (g : Z) (s : SettingsDb) : bool := bool_decide (is_Some (fo_groups (st_forest s) !! g)).

(** ** Writes *)

(** [{ ...a, ...b }]; an undefined value is left out when the object is stored. *)
Definition spread (a b : list (string * js)) : list (string * js) := fold_left (fun acc kv => obj_set (fst kv) (snd kv) acc) b a.
Definition fields_of (v : js) : list (string * js) := match v with JObj l => l | _ => [] end.
Definition without_field (k : string) (l : list (string * js)) : list (string * js) := List.filter (fun kv => negb (String.eqb (fst kv) k)) l.
Definition null_config : list (string * js) := [("pushIntervalSeconds", JNull); ("maxMissedPushes", JNull); ("notificationTypes", JNull)].
Definition null_global : js := JObj [("checkIntervalSeconds", JNull); ("maxMissedPushes", JNull); ("notificationTypes", JNull)].

(** [mergeGroupConfigColumn] *)
Definition merged_config (current : js) (patch : list (string * js)) : js :=
  JObj (without_field "heartbeatMonitoring" (spread (spread null_config (fields_of current)) patch)).
Definition mergeGroupConfigColumn (g : Z) (patch : list (string * js)) (s : SettingsDb) : SettingsDb :=
  if has_group g s then set_configs (fun m => <[g := merged_config (default JNull (m !! g)) patch]> m) s else s.

(** [setAgentGlobal] *)
Definition setAgentGlobal (patch : list (string * js)) (s : SettingsDb) : SettingsDb :=
  set_global (JObj (spread (fields_of (st_global s)) patch)) s.

Definition update_agent (d : Z) f (s : SettingsDb) : SettingsDb := set_agents (alter f d) s.
Definition set_override (o : option Z) (a : AgentColumns) : AgentColumns :=
  {| ac_tenant := ac_tenant a; ac_group := ac_group a; ac_evaluate_only := ac_evaluate_only a;
     ac_override := match o with Some _ => true | None => false end; ac_check_interval := default (ac_check_interval a) o;
     ac_max_missed := ac_max_missed a; ac_types := ac_types a |}.
Definition set_missed (o : option Z) (a : AgentColumns) : AgentColumns :=
  {| ac_tenant := ac_tenant a; ac_group := ac_group a; ac_evaluate_only := ac_evaluate_only a; ac_override := ac_override a;
     ac_check_interval := ac_check_interval a; ac_max_missed := o; ac_types := ac_types a |}.
Definition set_types (v : js) (a : AgentColumns) : AgentColumns :=
  {| ac_tenant := ac_tenant a; ac_group := ac_group a; ac_evaluate_only := ac_evaluate_only a; ac_override := ac_override a;
     ac_check_interval := ac_check_interval a; ac_max_missed := ac_max_missed a; ac_types := v |}.
Definition set_dry_run (b : bool) (a : AgentColumns) : AgentColumns :=
  {| ac_tenant := ac_tenant a; ac_group := ac_group a; ac_evaluate_only := b; ac_override := ac_override a;
     ac_check_interval := ac_check_interval a; ac_max_missed := ac_max_missed a; ac_types := ac_types a |}.

Definition value_num (v : option SettingValue) : option Z := match v with Some (V_num z) => Some z | _ => None end.
Definition value_flags (v : option SettingValue) : option Flags := match v with Some (V_flags f) => Some f | _ => None end.
Definition num_js (o : option Z) : js := match o with Some z => JNum (NInt z) | None => JNull end.

Definition LEGACY_KEYS : list string := ["checkIntervalSeconds"; "maxMissedPushes"; "notificationTypes"].
(** [legacyValue] *)
Definition legacy_value (key : string) (v : option SettingValue) : js :=
  if String.eqb key "notificationTypes" then flagsToLegacyTypes (value_flags v) else num_js (value_num v).

Definition mirrorLegacy (level : SettingLevel) (scopeId : option Z) (key : string) (v : option SettingValue) (s : SettingsDb) : SettingsDb :=
  if negb (existsb (String.eqb key) LEGACY_KEYS) then s
  else
    match level, scopeId with
    | L_global, _ => setAgentGlobal [(key, legacy_value key v)] s
    | L_group, Some g =>
        mergeGroupConfigColumn g [(if String.eqb key "checkIntervalSeconds" then "pushIntervalSeconds" else key, legacy_value key v)] s
    | L_agent, Some d =>
        update_agent d (if String.eqb key "checkIntervalSeconds" then set_override (value_num v)
                        else if String.eqb key "maxMissedPushes" then set_missed (value_num v)
                        else set_types (legacy_value key v)) s
    | _, _ => s
    end.

Definition dry_run_group (b : bool) (g : GroupNode) : GroupNode :=
  {| gn_name := gn_name g; gn_slug := gn_slug g; gn_description := gn_description g; gn_parent := gn_parent g; gn_sort_order := gn_sort_order g;
     gn_is_general := gn_is_general g; gn_evaluate_only := b; gn_tenant := gn_tenant g |}.
Definition map_groups f (s : Forest) : Forest := {| fo_groups := f (fo_groups s); fo_closure := fo_closure s; fo_next := fo_next s |}.
Definition writeEvaluateOnly (level : SettingLevel) (scopeId : option Z) (b : bool) (s : SettingsDb) : SettingsDb :=
  match scopeId with
  | None => s
  | Some id => if bool_decide (level = L_group) then set_forest (map_groups (alter (dry_run_group b) id)) s else update_agent id (set_dry_run b) s
  end.

Record SettingTarget := { tg_level : SettingLevel; tg_scope : option Z; tg_tenant : Z }.
(** [scopeWhere] and the two conflict targets: a global row has no scope id. *)
Definition row_key (t : SettingTarget) (key : string) : RowKey := (tg_level t, tg_scope t, key).
Definition row_tenant (t : SettingTarget) : Z := if bool_decide (tg_level t = L_global) then MASTER_TENANT_ID else tg_tenant t.

(** What [write] does once the key and the value are valid. *)
Definition store_setting (t : SettingTarget) (def : SettingDefinition) (stored : option SettingValue) (mirror : bool) (s : SettingsDb) : SettingsDb :=
  let s := if bool_decide (sd_resolution def = AnyTrue)
           then writeEvaluateOnly (tg_level t) (tg_scope t) (bool_decide (stored = Some (V_bool true))) s
           else match stored with
                | None => set_rows (delete (row_key t (sd_key def))) s
                | Some v => set_rows (<[row_key t (sd_key def) := (v, row_tenant t)]>) s
                end in
  if mirror then mirrorLegacy (tg_level t) (tg_scope t) (sd_key def) stored s else s.

(** The checks of [write]: the definition and the value to store. *)
Definition check_setting (level : SettingLevel) (key value : js) : CodedError + (SettingDefinition * option SettingValue) :=
  match writableDefinition key level with
  | inl e => inl e
  | inr def =>
      if is_null value then inr (def, None)
      else match normalizeSettingValue def value with inl e => inl e | inr stored => inr (def, stored) end
  end.
Definition write (t : SettingTarget) (key value : js) (mirror : bool) (s : SettingsDb) : (CodedError + option SettingValue) * SettingsDb :=
  match writableDefinition key (tg_level t) with
  | inl e => (inl e, s)
  | inr _ =>
      if negb (bool_decide (tg_level t = L_global)) && bool_decide (tg_scope t = None) then (inl (invalid "SCOPE_ID_REQUIRED" "Missing scope id"), s)
      else match check_setting (tg_level t) key value with
           | inl e => (inl e, s)
           | inr (def, stored) => (inr stored, store_setting t def stored mirror s)
           end
  end.

(** All entries are validated before the first one is written. *)
Fixpoint write_each (t : SettingTarget) (entries : list (js * js)) (mirror : bool) (s : SettingsDb) : option CodedError * SettingsDb :=
  match entries with
  | [] => (None, s)
  | (k, v) :: r => match write t k v mirror s with
                   | (inl e, s) => (Some e, s)
                   | (inr _, s) => write_each t r mirror s
                   end
  end.
Fixpoint first_invalid (level : SettingLevel) (entries : list (js * js)) : option CodedError :=
  match entries with
  | [] => None
  | (k, v) :: r => match check_setting level k v with inl e => Some e | inr _ => first_invalid level r end
  end.
Definition writeMany (t : SettingTarget) (entries : list (js * js)) (mirror : bool) (s : SettingsDb) : option CodedError * SettingsDb :=
  match first_invalid (tg_level t) entries with
  | Some e => (Some e, s)
  | None => write_each t entries mirror s
  end.

Definition in_scopes (level : SettingLevel) (ids : list Z) (k : RowKey) : bool :=
  bool_decide (fst (fst k) = level) && match snd (fst k) with Some i => mem i ids | None => false end.
Definition removeScopes (level : SettingLevel) (ids : list Z) (s : SettingsDb) : SettingsDb :=
  set_rows (filter (fun kv : RowKey * (SettingValue * Z) => in_scopes level ids (fst kv) = false)) s.

Definition getOwn (level : SettingLevel) (scopeId : option Z) (s : SettingsDb) : gmap string SettingValue :=
  let rows := list_to_map (omap (fun def =>
      if bool_decide (sd_resolution def = External) || bool_decide (sd_resolution def = AnyTrue) || negb (bool_decide (level ∈ sd_scopes def)) then None
      else match st_rows s !! (level, scopeId, sd_key def) with Some (v, _) => Some (sd_key def, v) | None => None end) SETTINGS_DEFINITIONS) in
  let dry := match level, scopeId with
             | L_group, Some g => match fo_groups (st_forest s) !! g with Some x => gn_evaluate_only x | None => false end
             | L_agent, Some d => match st_agents s !! d with Some a => ac_evaluate_only a | None => false end
             | _, _ => false
             end in
  if dry then <["evaluateOnly" := V_bool true]> rows else rows.

(** ** The older endpoints *)

(** [updateAgentGroupConfig]: the cascade keys of the patch become rows, the column keeps the
    patch as it is. [None]: no such group. *)
Definition CASCADE_GROUP_KEYS : list (string * string) :=
  [("pushIntervalSeconds", "checkIntervalSeconds"); ("maxMissedPushes", "maxMissedPushes"); ("notificationTypes", "notificationTypes")].
Definition cascade_value (legacy : string) (raw : js) : js :=
  if String.eqb legacy "notificationTypes"
  then match legacyTypesToFlags raw with Some f => JObj (map (fun kv => (fst kv, JBool (snd kv))) (map_to_list f)) | None => JNull end
  else if is_nullish raw then JNull else raw.
Definition cascade_writes (keys : list (string * string)) (config : js) : list (js * js) :=
  omap (fun '(legacy, key) => if has_field legacy config then Some (JStr key, cascade_value legacy (get_field legacy config)) else None) keys.

Definition updateAgentGroupConfig (id : Z) (config : js) (s : SettingsDb) : option (option CodedError) * SettingsDb :=
  match fo_groups (st_forest s) !! id with
  | None => (None, s)
  | Some g =>
      let t := {| tg_level := L_group; tg_scope := Some id; tg_tenant := gn_tenant g |} in
      let writes := cascade_writes CASCADE_GROUP_KEYS config in
      match first_invalid L_group writes with
      | Some e => (Some (Some e), s)
      | None =>
          let s := mergeGroupConfigColumn id (fields_of config) s in
          let '(e, s) := writeMany t writes false s in (Some e, s)
      end
  end.

(** The settings part of [patchAgentGlobal]. *)
Definition GLOBAL_KEYS : list (string * string) := map (fun k => (k, k)) LEGACY_KEYS.
Definition patchAgentGlobal (body : js) (s : SettingsDb) : option CodedError * SettingsDb :=
  let writes := cascade_writes GLOBAL_KEYS body in
  match first_invalid L_global writes with
  | Some e => (Some e, s)
  | None =>
      let patch := omap (fun k => if has_field k body then Some (k, get_field k body) else None) LEGACY_KEYS in
      let s := set_global (JObj (without_field "heartbeatMonitoring" (fields_of (st_global (setAgentGlobal patch s))))) s in
      writeMany {| tg_level := L_global; tg_scope := None; tg_tenant := MASTER_TENANT_ID |} writes false s
  end.

(** [clampCheckInterval] of an integer column. *)
Definition clampCheckInterval (v : Z) : Z := Z.min 86400 (Z.max 10 (if v =? 0 then 60 else v)).

(** The settings fields of [updateDevice]; an outer [None] is an absent field. *)
Record UpdateDevice := {
  ud_group : option (option Z); ud_checkInterval : option Z; ud_override : option bool; ud_maxMissed : option (option Z);
  ud_types : option js; ud_evaluateOnly : option bool
}.
Definition device_writes (data : UpdateDevice) (cur : AgentColumns) : list (js * js) :=
  (match ud_checkInterval data, ud_override data with
   | None, None => []
   | ci, o => [(JStr "checkIntervalSeconds",
                if default (ac_override cur) o then JNum (NInt (default (clampCheckInterval (ac_check_interval cur)) ci)) else JNull)]
   end)
  ++ (match ud_maxMissed data with Some v => [(JStr "maxMissedPushes", num_js v)] | None => [] end)
  ++ (match ud_types data with Some v => [(JStr "notificationTypes", cascade_value "notificationTypes" v)] | None => [] end).
Definition is_truthy (v : js) : bool :=
  match v with JUndefined | JNull => false | JBool b => b | JNum (NInt z) => negb (z =? 0) | JNum NOther => true | JStr s => negb (is_empty s) | _ => true end.
Definition update_columns (data : UpdateDevice) (a : AgentColumns) : AgentColumns :=
  {| ac_tenant := ac_tenant a; ac_group := default (ac_group a) (ud_group data);
     ac_evaluate_only := default (ac_evaluate_only a) (ud_evaluateOnly data); ac_override := default (ac_override a) (ud_override data);
     ac_check_interval := default (ac_check_interval a) (ud_checkInterval data);
     ac_max_missed := match ud_maxMissed data with Some v => v | None => ac_max_missed a end;
     ac_types := match ud_types data with Some v => if is_truthy v then v else JNull | None => ac_types a end |}.
Definition updateDevice (id : Z) (data : UpdateDevice) (s : SettingsDb) : option CodedError * SettingsDb :=
  match st_agents s !! id with
  | None => (None, s)
  | Some cur =>
      let writes := device_writes data cur in
      match first_invalid L_agent writes with
      | Some e => (Some e, s)
      | None => writeMany {| tg_level := L_agent; tg_scope := Some id; tg_tenant := ac_tenant cur |} writes false
                  (update_agent id (update_columns data) s)
      end
  end.

(** The override switch of [bulkUpdateDevices]: the columns, then a row per device of the
    tenant. *)
Definition bulk_override (tenantId : Z) (on : bool) (ids : list Z) (s : SettingsDb) : SettingsDb :=
  let rows := List.filter (fun kv => mem (fst kv) ids && (ac_tenant (snd kv) =? tenantId)) (map_to_list (st_agents s)) in
  let s := fold_left (fun s kv => update_agent (fst kv) (update_columns {| ud_group := None; ud_checkInterval := None; ud_override := Some on;
                        ud_maxMissed := None; ud_types := None; ud_evaluateOnly := None |}) s) rows s in
  fold_left (fun s kv => snd (write {| tg_level := L_agent; tg_scope := Some (fst kv); tg_tenant := tenantId |} (JStr "checkIntervalSeconds")
                               (if on then JNum (NInt (clampCheckInterval (ac_check_interval (snd kv)))) else JNull) false s)) rows s.

(** ** Handlers *)

(** [groupsController.updateAgentGroupConfig]: the known keys only, the update policy for a
    platform administrator. *)
Definition AGENT_GROUP_CONFIG_KEYS : list string := ["pushIntervalSeconds"; "maxMissedPushes"; "notificationTypes"; "updatePolicy"].
Definition clean_config (src : js) : list (string * js) :=
  omap (fun k => if has_field k src then Some (k, get_field k src) else None) AGENT_GROUP_CONFIG_KEYS.
Definition valid_policy (v : js) : bool :=
  match v with JNull => true | JStr s => existsb (String.eqb s) ["auto"; "manual"; "off"] | _ => false end.
Definition groupConfigHandler (id tenantId : Z) (platformAdmin : bool) (config : js) (s : SettingsDb) : Z * SettingsDb :=
  match loadGroup id tenantId Write (st_forest s) with
  | inl st => (st, s)
  | inr _ =>
      match config with
      | JObj _ =>
          let clean := JObj (clean_config config) in
          if has_field "updatePolicy" clean && negb platformAdmin then (403, s)
          else if has_field "updatePolicy" clean && negb (valid_policy (get_field "updatePolicy" clean)) then (400, s)
          else match updateAgentGroupConfig id clean s with
               | (None, s) => (200, s)
               | (Some None, s) => (200, s)
               | (Some (Some e), s) => (err_status e, s)
               end
      | _ => (400, s)
      end
  end.

(** [resolveTarget] for a write; [mayWrite] is what the permission checks of the level answer
    (the route guards of the global level). *)
Definition resolveTarget (level : SettingLevel) (scopeId : Z) (operating : Z) (mayWrite : bool) (s : SettingsDb) : Z + SettingTarget :=
  let guard owner k := match deviceAccessVerdict owner operating Write with
                       | V_ok => k
                       | V_forbidden => inl 403
                       | V_not_found => inl 404
                       end in
  let allowed t := if mayWrite then inr t else inl 403 in
  match level with
  | L_global => if isMasterTenant (Some operating) then allowed {| tg_level := L_global; tg_scope := None; tg_tenant := MASTER_TENANT_ID |} else inl 403
  | L_tenant => guard scopeId (allowed {| tg_level := L_tenant; tg_scope := Some scopeId; tg_tenant := scopeId |})
  | L_group => match fo_groups (st_forest s) !! scopeId with
               | None => inl 404
               | Some g => guard (gn_tenant g) (allowed {| tg_level := L_group; tg_scope := Some scopeId; tg_tenant := gn_tenant g |})
               end
  | L_agent => match st_agents s !! scopeId with
               | None => inl 404
               | Some a => guard (ac_tenant a) (allowed {| tg_level := L_agent; tg_scope := Some scopeId; tg_tenant := ac_tenant a |})
               end
  end.

(** [settingsController.set], with one or several entries. *)
Definition setHandler (level : SettingLevel) (scopeId operating : Z) (mayWrite : bool) (entries : list (js * js)) (s : SettingsDb) : Z * SettingsDb :=
  match first_invalid level entries with
  | Some e => (err_status e, s)
  | None => match resolveTarget level scopeId operating mayWrite s with
            | inl st => (st, s)
            | inr t => match writeMany t entries true s with
                       | (None, s) => (200, s)
                       | (Some e, s) => (err_status e, s)
                       end
            end
  end.
(** [settingsController.reset] *)
Definition resetHandler (level : SettingLevel) (scopeId operating : Z) (mayWrite : bool) (key : string) (s : SettingsDb) : Z * SettingsDb :=
  match writableDefinition (JStr key) level with
  | inl e => (err_status e, s)
  | inr def => match resolveTarget level scopeId operating mayWrite s with
               | inl st => (st, s)
               | inr t => match write t (JStr (sd_key def)) JNull true s with
                          | (inl e, s) => (err_status e, s)
                          | (inr _, s) => (200, s)
                          end
               end
  end.

(** The rows deleted with a group: the database sets its agents' group to null and drops the
    sub-groups, [removeScopes] drops their settings rows. *)
Definition forget_groups (gone : Z -> bool) (s : SettingsDb) : SettingsDb :=
  set_agents (fmap (fun a => match ac_group a with
                             | Some g => if gone g
                                         then {| ac_tenant := ac_tenant a; ac_group := None; ac_evaluate_only := ac_evaluate_only a; ac_override := ac_override a;
                                                 ac_check_interval := ac_check_interval a; ac_max_missed := ac_max_missed a; ac_types := ac_types a |}
                                         else a
                             | None => a
                             end))
    (set_configs (filter (fun kv => gone (fst kv) = false)) s).
Definition groupRequest (t : Z) (r : GroupRequest) (s : SettingsDb) : SettingsDb :=
  match r with
  | G_delete id =>
      match loadGroup id t Write (st_forest s) with
      | inl _ => s
      | inr _ =>
          let '(deleted, ids, forest') := delete_group id (st_forest s) in
          let s := forget_groups (fun g => negb (bool_decide (is_Some (fo_groups forest' !! g)))) (set_forest (fun _ => forest') s) in
          if deleted then removeScopes L_group ids s else s
      end
  | _ => set_forest (fun f => serve f (t, r)) s
  end.

Inductive SettingsRequest :=
| S_set (level : SettingLevel) (scopeId : Z) (mayWrite : bool) (entries : list (js * js))
| S_reset (level : SettingLevel) (scopeId : Z) (mayWrite : bool) (key : string)
| S_groupConfig (id : Z) (platformAdmin : bool) (config : js)
| S_global (platformAdmin : bool) (body : js)
| S_device (id : Z) (data : UpdateDevice)
| S_bulk (on : bool) (ids : list Z)
| S_group (r : GroupRequest)
| S_enrol (d : Z) (checkInterval : Z)
| S_delete (ids : list Z).

(** A request of the operating tenant [t]; the device routes check the owner of the device. *)
Definition serve (s : SettingsDb) (q : Z * SettingsRequest) : SettingsDb :=
  let '(t, r) := q in
  match r with
  | S_set level id ok entries => snd (setHandler level id t ok entries s)
  | S_reset level id ok key => snd (resetHandler level id t ok key s)
  | S_groupConfig id admin config => snd (groupConfigHandler id t admin config s)
  | S_global admin body => if admin then snd (patchAgentGlobal body s) else s
  | S_device id data => match st_agents s !! id with
                        | Some a => if ac_tenant a =? t then snd (updateDevice id data s) else s
                        | None => s
                        end
  | S_bulk on ids => bulk_override t on ids s
  | S_group r => groupRequest t r s
  | S_enrol d ci => match st_agents s !! d with
                    | Some _ => s
                    | None => set_agents (<[d := {| ac_tenant := t; ac_group := None; ac_evaluate_only := false; ac_override := false;
                                                    ac_check_interval := ci; ac_max_missed := None; ac_types := JNull |}]>) s
                    end
  | S_delete ids =>
      let own := List.filter (fun d => match st_agents s !! d with Some a => ac_tenant a =? t | None => false end) ids in
      removeScopes L_agent own (set_agents (filter (fun kv => mem (fst kv) own = false)) s)
  end.

Definition empty_settings : SettingsDb :=
  {| st_rows := ∅; st_forest := empty_forest; st_configs := ∅; st_tenants := ∅; st_agents := ∅; st_global := null_global |}.
