(* ===== verification/SettingsSync.v ===== *)
(** * Settings: the rows are valid and the older columns mirror them

    The invariant of [SettingsStore]: what every row holds, and that the columns the rows
    replace say the same for every group, agent and for the global level, whichever endpoint
    wrote last. *)

From S2P Require Import Prelude JsString JsValue JsJson Tenancy Access Query GroupTree SettingsStore.

(** ** Objects *)

Lemma assoc_set k k' v l : assoc k (obj_set k' v l) = if String.eqb k' k then Some v else assoc k l.
Proof.
  induction l as [|[k0 x] l IH]; cbn [obj_set assoc]; [done|]. destruct (String.eqb_spec k0 k') as [->|Hn]; cbn [assoc].
  - by destruct (String.eqb_spec k' k).
  - rewrite IH. destruct (String.eqb_spec k0 k) as [->|], (String.eqb_spec k' k) as [->|]; congruence.
Qed.

Lemma assoc_notin k l : k ∉ map fst l -> assoc k l = None.
Proof.
  induction l as [|[k0 x] l IH]; cbn; intros H; [done|]. apply not_elem_of_cons in H as [H1 H2].
  destruct (String.eqb_spec k0 k); [congruence|by apply IH].
Qed.

Lemma assoc_spread k a b : NoDup (map fst b) -> assoc k (spread a b) = match assoc k b with Some v => Some v | None => assoc k a end.
Proof.
  revert a. induction b as [|[k0 x] b IH]; intros a H; [done|]. cbn in H. apply NoDup_cons in H as [Hn H]. unfold spread in *. cbn [fold_left fst snd].
  rewrite IH by done. rewrite assoc_set. cbn [assoc]. destruct (String.eqb_spec k0 k) as [->|]; [by rewrite assoc_notin|done].
Qed.

Lemma assoc_without k k' l : assoc k (without_field k' l) = if String.eqb k k' then None else assoc k l.
Proof.
  unfold without_field. induction l as [|[k0 x] l IH]; cbn; [by destruct (String.eqb k k')|].
  destruct (String.eqb_spec k0 k') as [->|Hn]; cbn; rewrite IH; destruct (String.eqb_spec k k') as [->|Hk]; try done.
  - destruct (String.eqb_spec k' k); congruence.
  - destruct (String.eqb_spec k0 k'); congruence.
Qed.

Lemma assoc_omap k (f : string -> option js) keys : NoDup keys ->
  assoc k (omap (fun x => match f x with Some v => Some (x, v) | None => None end) keys) = if bool_decide (k ∈ keys) then f k else None.
Proof.
  induction keys as [|k0 keys IH]; intros H; [done|]. apply NoDup_cons in H as [Hn H]. cbn [omap list_omap].
  destruct (String.eqb_spec k0 k) as [->|Hk].
  - rewrite bool_decide_true by set_solver. change (omap ?g (k :: keys)) with (match g k with Some y => y :: omap g keys | None => omap g keys end).
    cbv beta. destruct (f k) eqn:E; cbn [assoc]; [by rewrite String.eqb_refl|]. rewrite IH by done. by rewrite bool_decide_false.
  - change (omap ?g (k0 :: keys)) with (match g k0 with Some y => y :: omap g keys | None => omap g keys end). cbv beta.
    assert (E : bool_decide (k ∈ k0 :: keys) = bool_decide (k ∈ keys)) by (apply bool_decide_ext; set_solver). rewrite E.
    destruct (f k0); cbn [assoc]; [|by apply IH]. destruct (String.eqb_spec k0 k); [done|by apply IH].
Qed.

Lemma get_field_obj k l : get_field k (JObj l) = default JUndefined (assoc k l).
Proof. done. Qed.
Lemma has_field_obj k l : has_field k (JObj l) = match assoc k l with Some _ => true | None => false end.
Proof. done. Qed.
Lemma get_fields_of k v : get_field k v = default JUndefined (assoc k (fields_of v)).
Proof. by destruct v. Qed.

(** Objects with distinct keys, as parsing and spreading make them. *)
Definition object_ok (v : js) : Prop := NoDup (map fst (fields_of v)).

Lemma set_keys k v l : NoDup (map fst l) -> NoDup (map fst (obj_set k v l)).
Proof.
  assert (H : forall k l, map fst (obj_set k v l) = if bool_decide (k ∈ map fst l) then map fst l else map fst l ++ [k]).
  { clear. intros k l. induction l as [|[k0 x] l IH]; cbn [obj_set map fst app]; [done|]. destruct (String.eqb_spec k0 k) as [->|Hn].
    - rewrite bool_decide_true by set_solver. done.
    - cbn [map fst]. rewrite IH. repeat case_bool_decide; set_solver. }
  intros Hl. rewrite H. case_bool_decide as E; [done|]. apply NoDup_app. split_and!; [done| |apply NoDup_singleton]. set_solver.
Qed.

Lemma spread_keys a b : NoDup (map fst a) -> NoDup (map fst (spread a b)).
Proof. unfold spread. revert a. induction b as [|[k v] b IH]; intros a H; [done|]. cbn. by apply IH, set_keys. Qed.

Lemma without_keys k l : NoDup (map fst l) -> NoDup (map fst (without_field k l)).
Proof.
  unfold without_field. induction l as [|[k0 x] l IH]; cbn; [done|]. intros [Hn H]%NoDup_cons. destruct (negb _); [|by apply IH]. cbn.
  apply NoDup_cons. split; [|by apply IH]. intros Hk. apply Hn. rewrite list_elem_of_In, in_map_iff in Hk |- *.
  destruct Hk as (y & E & Hy). exists y. split; [done|]. by apply filter_In in Hy as [? _].
Qed.

(** ** Flags *)

Definition flags_ok (f : Flags) : Prop := f <> ∅ /\ forall k, is_Some (f !! k) -> k ∈ NOTIFICATION_TYPE_FIELDS.

Lemma notification_field k : is_notification_field k = true <-> k ∈ NOTIFICATION_TYPE_FIELDS.
Proof.
  unfold is_notification_field. rewrite existsb_exists. split.
  - intros (x & Hx & E). apply String.eqb_eq in E as ->. by apply list_elem_of_In.
  - intros H. exists k. split; [by apply list_elem_of_In|by apply String.eqb_refl].
Qed.

Lemma read_flags_ok l out f :
  read_flags l out = inr f -> (forall k, is_Some (out !! k) -> k ∈ NOTIFICATION_TYPE_FIELDS) -> forall k, is_Some (f !! k) -> k ∈ NOTIFICATION_TYPE_FIELDS.
Proof.
  revert out. induction l as [|[k v] l IH]; cbn [read_flags]; intros out H Hout; [by injection H as <-|].
  destruct (negb (is_notification_field k)) eqn:E; [done|]. apply negb_false_iff, notification_field in E.
  destruct (is_nullish v); [by apply (IH out)|]. destruct v; try done. apply (IH _ H). intros k' Hk'.
  rewrite lookup_insert_is_Some in Hk'. destruct Hk' as [<-|[_ Hk']]; [done|by apply Hout].
Qed.

Lemma some_flags_ok f v : some_flags f = Some v -> (forall k, is_Some (f !! k) -> k ∈ NOTIFICATION_TYPE_FIELDS) -> v = V_flags f /\ flags_ok f.
Proof. unfold some_flags. case_bool_decide; [done|]. by intros [= <-]. Qed.

(** The flags of an object holding one boolean per key of a map. *)
Lemma read_flags_map (f : Flags) : (forall k, is_Some (f !! k) -> k ∈ NOTIFICATION_TYPE_FIELDS) ->
  read_flags (map (fun kv => (fst kv, JBool (snd kv))) (map_to_list f)) ∅ = inr f.
Proof.
  intros Hf. assert (H : forall l out, (forall k b, In (k, b) l -> k ∈ NOTIFICATION_TYPE_FIELDS) ->
    read_flags (map (fun kv => (fst kv, JBool (snd kv))) l) out = inr (fold_left (fun m kv => <[fst kv := snd kv]> m) l out)).
  { induction l as [|[k b] l IH]; intros out Hl; [done|]. cbn [map read_flags fst snd fold_left].
    rewrite (proj2 (notification_field k)) by (apply (Hl k b); by left). cbn. apply IH. intros. eapply Hl. by right. }
  rewrite H.
  - f_equal. rewrite <- (list_to_map_to_list f) at 2. pose proof (NoDup_fst_map_to_list f) as Hn. revert Hn.
    generalize (map_to_list f). intros l. assert (G : forall l (m : Flags), NoDup l.*1 -> fold_left (fun m kv => <[fst kv := snd kv]> m) l m = list_to_map l ∪ m).
    { clear. induction l as [|[k b] l IH]; intros m Hn; cbn; [by rewrite (left_id_L ∅ (∪))|]. cbn in Hn. apply NoDup_cons in Hn as [Hk Hn]. rewrite IH by done.
      rewrite <- insert_union_l. symmetry. apply insert_union_r. by apply not_elem_of_list_to_map_1. }
    intros Hn. rewrite G by done. by rewrite (right_id_L ∅ (∪)).
  - intros k b Hin. apply Hf. exists b. by apply elem_of_map_to_list, list_elem_of_In.
Qed.

(** Folding over the fields reads the flags of an object. *)
Lemma fold_fields (g : string -> option bool) keys (m : Flags) k :
  fold_left (fun (acc : Flags) f => match g f with Some b => <[f := b]> acc | None => acc end) keys m !! k
  = if bool_decide (k ∈ keys) then match g k with Some b => Some b | None => m !! k end else m !! k.
Proof.
  revert m. induction keys as [|x keys IH]; intros m; cbn [fold_left]; [done|]. rewrite IH.
  assert (E : bool_decide (k ∈ x :: keys) = bool_decide (k = x) || bool_decide (k ∈ keys)).
  { apply eq_bool_prop_intro. rewrite orb_True, !bool_decide_spec. apply elem_of_cons. }
  rewrite E. destruct (decide (k = x)) as [->|Hn].
  - rewrite (bool_decide_true (x = x)) by done. cbn. destruct (g x) as [b|] eqn:Eg; [rewrite lookup_insert_eq|]; by destruct (bool_decide _).
  - rewrite (bool_decide_false (k = x)) by done. cbn. destruct (g x) as [b|]; [|done]. by rewrite lookup_insert_ne by done.
Qed.

Lemma legacy_flags_lookup l k :
  fold_left (fun (acc : Flags) f => match js_bool (get_field f (JObj l)) with Some b => <[f := b]> acc | None => acc end) NOTIFICATION_TYPE_FIELDS ∅ !! k
  = if bool_decide (k ∈ NOTIFICATION_TYPE_FIELDS) then js_bool (get_field k (JObj l)) else None.
Proof. rewrite fold_fields, lookup_empty. case_bool_decide; [|done]. by destruct (js_bool _). Qed.

(** The legacy form of flags reads back as the flags. *)
Lemma legacy_types_roundtrip f : flags_ok f -> legacyTypesToFlags (flagsToLegacyTypes (Some f)) = Some f.
Proof.
  intros [Hne Hf]. unfold flagsToLegacyTypes, legacyTypesToFlags. cbv zeta. set (l := map _ _). set (out := fold_left _ _ _).
  assert (E : out = f).
  { apply map_eq. intros k. unfold out. rewrite legacy_flags_lookup. case_bool_decide as Hk.
    - unfold l. rewrite get_field_obj. cbn in Hk. apply elem_of_cons in Hk as [->|Hk]; [cbn; by destruct (f !! _)|].
      apply elem_of_cons in Hk as [->|Hk]; [cbn; by destruct (f !! _)|]. apply elem_of_cons in Hk as [->|Hk]; [cbn; by destruct (f !! _)|].
      apply elem_of_cons in Hk as [->|Hk]; [cbn; by destruct (f !! _)|]. apply elem_of_cons in Hk as [->|Hk]; [cbn; by destruct (f !! _)|].
      by apply elem_of_nil in Hk.
    - destruct (f !! k) eqn:E; [|done]. destruct Hk. apply Hf. eauto. }
  rewrite E. by rewrite bool_decide_false.
Qed.

Lemma legacy_flags_ok raw f : legacyTypesToFlags raw = Some f -> flags_ok f.
Proof.
  unfold legacyTypesToFlags. destruct (match raw with JStr s => JSON_parse s | v => Some v end) as [[| | | | | |l]|]; try done. cbv zeta.
  set (out := fold_left _ _ _). case_bool_decide as H; [done|]. intros [= <-]. split; [done|]. intros k Hk. unfold out in Hk.
  rewrite legacy_flags_lookup in Hk. case_bool_decide; [done|by destruct Hk].
Qed.

(** ** Valid values *)

Definition value_ok (def : SettingDefinition) (v : SettingValue) : Prop :=
  match sd_type def, v with
  | T_number, V_num z => within (sd_min def) (sd_max def) z = true
  | T_boolean, V_bool _ => True
  | T_enum, V_text s => s ∈ sd_options def
  | T_flags, V_flags f => flags_ok f
  | _, _ => False
  end.

Lemma normalize_ok def value v : normalizeSettingValue def value = inr (Some v) -> value_ok def v.
Proof.
  unfold normalizeSettingValue, value_ok. destruct (sd_type def), value; try done.
  - destruct n as [z|]; [|done]. destruct (within _ _ z) eqn:E; [|done]. by intros [= <-].
  - by intros [= <-].
  - destruct (existsb _ _) eqn:E; [|done]. intros [= <-]. apply existsb_exists in E as (x & Hx & E). apply String.eqb_eq in E as ->. by apply list_elem_of_In.
  - destruct (read_flags _ _) as [|f] eqn:E; [done|]. intros [= H]. apply some_flags_ok in H as [-> H]; [done|].
    eapply read_flags_ok; [done|]. intros k Hk. rewrite lookup_empty in Hk. by destruct Hk.
Qed.

(** A stored value read back as a request is the same value. *)
Definition value_js (v : SettingValue) : js :=
  match v with
  | V_num z => JNum (NInt z) | V_bool b => JBool b | V_text s => JStr s
  | V_flags f => JObj (map (fun kv => (fst kv, JBool (snd kv))) (map_to_list f))
  end.

Lemma normalize_stored def v : value_ok def v -> normalizeSettingValue def (value_js v) = inr (Some v).
Proof.
  unfold normalizeSettingValue, value_ok. destruct (sd_type def), v; try done; cbn [value_js].
  - by intros ->.
  - intros H. rewrite (proj2 (existsb_exists _ _)); [done|]. exists s. split; [by apply list_elem_of_In|by apply String.eqb_refl].
  - intros [Hne Hf]. rewrite read_flags_map by done. unfold some_flags. by rewrite bool_decide_false.
Qed.

(** ** The invariant *)

Definition js_num (v : js) : option Z := match v with JNum (NInt z) => Some z | _ => None end.
(** What a legacy column says about a key. *)
Definition legacy_says (key : string) (v : js) : option SettingValue :=
  if String.eqb key "notificationTypes" then V_flags <$> legacyTypesToFlags v else V_num <$> js_num v.

(** The explicit value of a key at a level. *)
Definition own (s : SettingsDb) (l : SettingLevel) (sc : option Z) (k : string) : option SettingValue := fst <$> st_rows s !! (l, sc, k).
Definition mirrored (own : string -> option SettingValue) (legacy : string -> js) : Prop :=
  forall k, k ∈ LEGACY_KEYS -> own k = legacy_says k (legacy k).

Definition config_name (key : string) : string := if String.eqb key "checkIntervalSeconds" then "pushIntervalSeconds" else key.
Definition group_legacy (s : SettingsDb) (g : Z) (key : string) : js := get_field (config_name key) (default JNull (st_configs s !! g)).
Definition agent_legacy (a : AgentColumns) (key : string) : js :=
  if String.eqb key "checkIntervalSeconds" then (if ac_override a then JNum (NInt (clampCheckInterval (ac_check_interval a))) else JNull)
  else if String.eqb key "maxMissedPushes" then num_js (ac_max_missed a)
  else ac_types a.

(** A stored row: a key of its level, a valid value, the tenant of its scope. *)
Definition row_valid (l : SettingLevel) (k : string) (v : SettingValue) : Prop :=
  exists def, getSettingDefinition k = Some def /\ sd_resolution def <> External /\ sd_resolution def <> AnyTrue /\ l ∈ sd_scopes def /\ value_ok def v.
Definition row_live (s : SettingsDb) (l : SettingLevel) (sc : option Z) (t : Z) : Prop :=
  match l, sc with
  | L_global, None => t = MASTER_TENANT_ID
  | L_tenant, Some i => t = i
  | L_group, Some g => gn_tenant <$> fo_groups (st_forest s) !! g = Some t
  | L_agent, Some d => ac_tenant <$> st_agents s !! d = Some t
  | _, _ => False
  end.

Record settings_ok (s : SettingsDb) : Prop := {
  so_forest : served_ok (st_forest s);
  so_rows : forall l sc k v t, st_rows s !! (l, sc, k) = Some (v, t) -> row_valid l k v /\ row_live s l sc t;
  so_configs : forall g c, st_configs s !! g = Some c -> is_Some (fo_groups (st_forest s) !! g) /\ object_ok c;
  so_global_object : object_ok (st_global s);
  so_group : forall g, is_Some (fo_groups (st_forest s) !! g) -> mirrored (own s L_group (Some g)) (group_legacy s g);
  so_global : mirrored (own s L_global None) (fun k => get_field k (st_global s));
  so_agent : forall d a, st_agents s !! d = Some a -> mirrored (own s L_agent (Some d)) (agent_legacy a)
}.

(** A target a handler resolved. *)
Definition target_ok (s : SettingsDb) (t : SettingTarget) : Prop := row_live s (tg_level t) (tg_scope t) (row_tenant t).

Lemma definition_key k def : getSettingDefinition k = Some def -> sd_key def = k.
Proof. intros H. apply List.find_some in H as [_ H]. by apply String.eqb_eq. Qed.

Lemma writable_spec key l def :
  writableDefinition key l = inr def -> exists k, key = JStr k /\ getSettingDefinition k = Some def /\ sd_resolution def <> External /\ l ∈ sd_scopes def.
Proof.
  unfold writableDefinition. destruct key as [| | | |k| |]; try done. destruct (getSettingDefinition k) as [d|] eqn:E; [|done].
  case_bool_decide; [done|]. case_bool_decide; [|done]. intros [= <-]. eauto.
Qed.

Lemma check_spec l key value def stored :
  check_setting l key value = inr (def, stored) ->
  writableDefinition key l = inr def /\ (forall v, stored = Some v -> value_ok def v).
Proof.
  unfold check_setting. destruct (writableDefinition key l) as [|d]; [done|]. destruct (is_null value); [by intros [= <- <-]|].
  destruct (normalizeSettingValue d value) as [|st] eqn:E; [done|]. intros [= <- <-]. split; [done|]. intros v ->. by eapply normalize_ok.
Qed.

Lemma legacy_definition k def : k ∈ LEGACY_KEYS -> getSettingDefinition k = Some def ->
  sd_resolution def <> AnyTrue /\ sd_type def = (if String.eqb k "notificationTypes" then T_flags else T_number).
Proof.
  intros H. repeat (apply elem_of_cons in H as [->|H]; [cbn; by intros [= <-]|]). by apply elem_of_nil in H.
Qed.

(** The mirrored value of a valid row says the same. *)
Lemma legacy_value_says k def stored :
  k ∈ LEGACY_KEYS -> getSettingDefinition k = Some def -> (forall v, stored = Some v -> value_ok def v) -> stored = legacy_says k (legacy_value k stored).
Proof.
  intros Hk Hd Hv. destruct (legacy_definition k def Hk Hd) as [_ Ht]. unfold legacy_says, legacy_value. destruct stored as [v|].
  - specialize (Hv v eq_refl). unfold value_ok in Hv. rewrite Ht in Hv. destruct (String.eqb k "notificationTypes"), v; try done.
    cbn [value_flags]. by rewrite legacy_types_roundtrip.
  - by destruct (String.eqb k "notificationTypes").
Qed.

(** ** What the columns say after a write *)

Lemma says_nothing k v : is_nullish v = true -> legacy_says k v = None.
Proof. intros H. unfold legacy_says. destruct v; try done; by destruct (String.eqb _ _). Qed.

Lemma config_name_legacy k : k ∈ LEGACY_KEYS -> config_name k ∈ map fst null_config /\ config_name k <> "heartbeatMonitoring".
Proof. intros H. repeat (apply elem_of_cons in H as [->|H]; [split; [set_solver|done]|]). by apply elem_of_nil in H. Qed.

Lemma merged_says current patch k :
  object_ok current -> NoDup (map fst patch) -> k ∈ LEGACY_KEYS ->
  legacy_says k (get_field (config_name k) (merged_config current patch))
  = match assoc (config_name k) patch with Some v => legacy_says k v | None => legacy_says k (get_field (config_name k) current) end.
Proof.
  intros Hc Hp Hk. destruct (config_name_legacy k Hk) as [Hin Hne]. unfold merged_config. rewrite get_field_obj, assoc_without.
  destruct (String.eqb_spec (config_name k) "heartbeatMonitoring"); [done|]. rewrite !assoc_spread by done.
  destruct (assoc (config_name k) patch) as [v|]; [done|]. rewrite (get_fields_of _ current). destruct (assoc (config_name k) (fields_of current)); [done|]. cbn [default].
  rewrite !says_nothing; [done|done|]. cbn in Hin.
  repeat (apply elem_of_cons in Hin as [->|Hin]; [done|]). by apply elem_of_nil in Hin.
Qed.

Lemma merged_object current patch : object_ok (merged_config current patch).
Proof. apply without_keys, spread_keys, spread_keys. by apply (bool_decide_unpack _). Qed.

Lemma global_says g patch k :
  NoDup (map fst patch) ->
  get_field k (JObj (spread (fields_of g) patch)) = match assoc k patch with Some v => v | None => get_field k g end.
Proof. intros Hp. rewrite get_field_obj, assoc_spread by done. rewrite (get_fields_of k g). by destruct (assoc k patch). Qed.

(** ** A change of state *)

Lemma settings_ok_step s s' :
  settings_ok s -> served_ok (st_forest s') ->
  (forall g, gn_tenant <$> fo_groups (st_forest s') !! g = gn_tenant <$> fo_groups (st_forest s) !! g) ->
  (forall d, ac_tenant <$> st_agents s' !! d = ac_tenant <$> st_agents s !! d) ->
  (forall l sc k v t, st_rows s' !! (l, sc, k) = Some (v, t) -> st_rows s !! (l, sc, k) = Some (v, t) \/ (row_valid l k v /\ row_live s l sc t)) ->
  (forall g c, st_configs s' !! g = Some c -> st_configs s !! g = Some c \/ (is_Some (fo_groups (st_forest s) !! g) /\ object_ok c)) ->
  object_ok (st_global s') ->
  (forall g, is_Some (fo_groups (st_forest s) !! g) -> mirrored (own s' L_group (Some g)) (group_legacy s' g)) ->
  mirrored (own s' L_global None) (fun k => get_field k (st_global s')) ->
  (forall d a, st_agents s' !! d = Some a -> mirrored (own s' L_agent (Some d)) (agent_legacy a)) ->
  settings_ok s'.
Proof.
  intros Hok Hf Hg Ha Hr Hc Hgo H1 H2 H3.
  assert (Hgs : forall g, is_Some (fo_groups (st_forest s') !! g) <-> is_Some (fo_groups (st_forest s) !! g)).
  { intros g. rewrite <- !(fmap_is_Some gn_tenant). by rewrite Hg. }
  assert (Hlive : forall l sc t, row_live s l sc t -> row_live s' l sc t).
  { intros l sc t. unfold row_live. destruct l, sc; try done; congruence. }
  split; try done.
  - intros l sc k v t H. apply Hr in H as [H|[H1' H2']]; [|by auto]. apply so_rows in H as [? ?]; [|done]. auto.
  - intros g c H. apply Hc in H as [H|[? ?]]; [apply so_configs in H as [? ?]; [|done]|]; split; try done; by apply Hgs.
  - intros g H. apply H1. by apply Hgs.
Qed.

(** ** Frames of the statements *)

Lemma mirror_rows l sc k v s : st_rows (mirrorLegacy l sc k v s) = st_rows s /\ st_forest (mirrorLegacy l sc k v s) = st_forest s.
Proof.
  unfold mirrorLegacy, mergeGroupConfigColumn, setAgentGlobal, update_agent. destruct (negb _); [done|].
  destruct l, sc; try done. by destruct (has_group _ _).
Qed.

Lemma dry_rows l sc b s : st_rows (writeEvaluateOnly l sc b s) = st_rows s /\ st_configs (writeEvaluateOnly l sc b s) = st_configs s /\ st_global (writeEvaluateOnly l sc b s) = st_global s.
Proof. unfold writeEvaluateOnly, update_agent. destruct sc; [|done]. by destruct (bool_decide _). Qed.

Lemma own_store t def stored mirror s l sc k :
  own (store_setting t def stored mirror s) l sc k
  = if bool_decide (sd_resolution def <> AnyTrue /\ (l, sc, k) = row_key t (sd_key def)) then stored else own s l sc k.
Proof.
  unfold own, store_setting. set (s1 := if bool_decide (sd_resolution def = AnyTrue) then _ else _).
  assert (E : st_rows (if mirror then mirrorLegacy (tg_level t) (tg_scope t) (sd_key def) stored s1 else s1) = st_rows s1)
    by (destruct mirror; [apply mirror_rows|done]).
  rewrite E. clear E. unfold s1. destruct (decide (sd_resolution def = AnyTrue)) as [Ha|Ha].
  - rewrite bool_decide_true by done. rewrite (proj1 (dry_rows _ _ _ _)). by rewrite bool_decide_false by tauto.
  - rewrite bool_decide_false by done. destruct (decide ((l, sc, k) = row_key t (sd_key def))) as [Hk|Hk].
    + rewrite bool_decide_true by done. rewrite Hk. destruct stored as [v|]; cbn [set_rows st_rows]; [by rewrite lookup_insert_eq|by rewrite lookup_delete_eq].
    + rewrite bool_decide_false by tauto. destruct stored as [v|]; cbn [set_rows st_rows]; [by rewrite lookup_insert_ne by done|by rewrite lookup_delete_ne by done].
Qed.

Lemma store_row t def stored mirror s l sc k v tn :
  st_rows (store_setting t def stored mirror s) !! (l, sc, k) = Some (v, tn) ->
  st_rows s !! (l, sc, k) = Some (v, tn)
  \/ sd_resolution def <> AnyTrue /\ (l, sc, k) = row_key t (sd_key def) /\ stored = Some v /\ tn = row_tenant t.
Proof.
  unfold store_setting. set (s1 := if bool_decide (sd_resolution def = AnyTrue) then _ else _).
  assert (E : st_rows (if mirror then mirrorLegacy (tg_level t) (tg_scope t) (sd_key def) stored s1 else s1) = st_rows s1)
    by (destruct mirror; [apply mirror_rows|done]).
  rewrite E. clear E. unfold s1. case_bool_decide; [rewrite (proj1 (dry_rows _ _ _ _)); auto|].
  destruct stored as [x|]; cbn [set_rows st_rows].
  - intros [[<- [= <- <-]]|[_ H']]%lookup_insert_Some; [right|by left]. done.
  - intros [_ H']%lookup_delete_Some. by left.
Qed.

Lemma dry_forest_ok b id s : served_ok s -> served_ok (map_groups (alter (dry_run_group b) id) s).
Proof.
  intros [Hok Hn Hl]. destruct (fo_groups s !! id) as [g|] eqn:Hg.
  - assert (E : map_groups (alter (dry_run_group b) id) s = {| fo_groups := <[id := dry_run_group b g]> (fo_groups s); fo_closure := fo_closure s; fo_next := fo_next s |}).
    { unfold map_groups. f_equal. apply map_eq. intros i. rewrite lookup_alter, lookup_insert. case_decide; [subst; by rewrite Hg|done]. }
    rewrite E. split; [|done|by apply (local_same (fo_groups s) id g)]. apply (same_parent_ok s id g); [done|done|done|].
    intros d x Hd Hx Hs. apply Hd. by eapply (ok_slugs _ Hok d id x g).
  - assert (E : map_groups (alter (dry_run_group b) id) s = s); [|by rewrite E].
    unfold map_groups. destruct s as [m c n]. cbn in *. f_equal. apply map_eq. intros i. rewrite lookup_alter. case_decide; [subst; by rewrite Hg|done].
Qed.

(** What no store changes: who owns a group or an agent. *)
Lemma store_owners t def stored mirror s :
  (forall g, gn_tenant <$> fo_groups (st_forest (store_setting t def stored mirror s)) !! g = gn_tenant <$> fo_groups (st_forest s) !! g)
  /\ (forall d, ac_tenant <$> st_agents (store_setting t def stored mirror s) !! d = ac_tenant <$> st_agents s !! d).
Proof.
  assert (Hm : forall l sc k v s0 d, ac_tenant <$> st_agents (mirrorLegacy l sc k v s0) !! d = ac_tenant <$> st_agents s0 !! d).
  { intros l sc k v s0 d. unfold mirrorLegacy, mergeGroupConfigColumn, setAgentGlobal. destruct (negb _); [done|].
    destruct l, sc; try done; [by destruct (has_group _ _)|]. cbn [update_agent set_agents st_agents]. rewrite lookup_alter. case_decide; [subst|done].
    destruct (st_agents s0 !! _); [|done]. cbn. by repeat case_match. }
  unfold store_setting. set (s1 := if bool_decide (sd_resolution def = AnyTrue) then _ else _).
  assert (H1 : (forall g, gn_tenant <$> fo_groups (st_forest s1) !! g = gn_tenant <$> fo_groups (st_forest s) !! g)
             /\ (forall d, ac_tenant <$> st_agents s1 !! d = ac_tenant <$> st_agents s !! d)).
  { unfold s1. case_bool_decide; [|by destruct stored]. unfold writeEvaluateOnly. destruct (tg_scope t) as [i|]; [|done]. case_bool_decide; cbn.
    - split; [|done]. intros g. rewrite lookup_alter. case_decide; [subst|done]. by destruct (fo_groups (st_forest s) !! _).
    - split; [done|]. intros d. rewrite lookup_alter. case_decide; [subst|done]. by destruct (st_agents s !! _). }
  destruct mirror; [|done]. destruct H1 as [Hg Ha]. split; [|intros d; by rewrite Hm]. intros g. by rewrite (proj2 (mirror_rows _ _ _ _ _)).
Qed.

(** ** What the columns say after the mirror *)

Lemma legacy_key_dec key : existsb (String.eqb key) LEGACY_KEYS = bool_decide (key ∈ LEGACY_KEYS).
Proof.
  apply eq_bool_prop_intro. rewrite bool_decide_spec, Is_true_true, existsb_exists. split.
  - intros (x & Hx & E). apply String.eqb_eq in E as ->. by apply list_elem_of_In.
  - intros H. exists key. split; [by apply list_elem_of_In|apply String.eqb_refl].
Qed.

Lemma config_name_inj k k' : k ∈ LEGACY_KEYS -> k' ∈ LEGACY_KEYS -> config_name k = config_name k' -> k = k'.
Proof.
  intros H H'. unfold config_name. destruct (String.eqb_spec k "checkIntervalSeconds") as [->|Hn], (String.eqb_spec k' "checkIntervalSeconds") as [->|Hn']; try done.
  - intros <-. unfold LEGACY_KEYS in H'. set_solver.
  - intros ->. unfold LEGACY_KEYS in H. set_solver.
Qed.

Lemma mirror_group l sc key v s g k :
  (forall c, st_configs s !! g = Some c -> object_ok c) -> k ∈ LEGACY_KEYS -> is_Some (fo_groups (st_forest s) !! g) ->
  legacy_says k (group_legacy (mirrorLegacy l sc key v s) g k)
  = if bool_decide (l = L_group /\ sc = Some g /\ key = k) then legacy_says k (legacy_value k v) else legacy_says k (group_legacy s g k).
Proof.
  intros Hok Hk Hg. unfold mirrorLegacy. rewrite legacy_key_dec. destruct (decide (key ∈ LEGACY_KEYS)) as [Hkey|Hkey].
  2:{ rewrite bool_decide_false by done. cbn. rewrite bool_decide_false; [done|]. by intros (_ & _ & ->). }
  rewrite bool_decide_true by done. cbn [negb]. destruct l; try (rewrite bool_decide_false by naive_solver; by destruct sc).
  destruct sc as [g'|]; [|by rewrite bool_decide_false by naive_solver]. unfold mergeGroupConfigColumn.
  destruct (decide (g' = g)) as [->|Hn].
  2:{ rewrite bool_decide_false by naive_solver. destruct (has_group g' s); [|done]. unfold group_legacy. cbn. by rewrite lookup_insert_ne. }
  unfold has_group. rewrite bool_decide_true by done. unfold group_legacy at 1. cbn [set_configs st_configs]. rewrite lookup_insert_eq. cbn [default id].
  rewrite merged_says; [| |apply NoDup_singleton|done].
  - cbn [assoc]. fold (config_name key). destruct (String.eqb_spec (config_name key) (config_name k)) as [E|E].
    + apply config_name_inj in E as ->; [|done|done]. by rewrite bool_decide_true.
    + rewrite bool_decide_false; [done|]. naive_solver.
  - destruct (st_configs s !! g) as [c|] eqn:E; [by apply Hok|]. by apply (bool_decide_unpack _).
Qed.

Lemma mirror_global l sc key v s k :
  k ∈ LEGACY_KEYS ->
  legacy_says k (get_field k (st_global (mirrorLegacy l sc key v s)))
  = if bool_decide (l = L_global /\ key = k) then legacy_says k (legacy_value k v) else legacy_says k (get_field k (st_global s)).
Proof.
  intros Hk. unfold mirrorLegacy. rewrite legacy_key_dec. destruct (decide (key ∈ LEGACY_KEYS)) as [Hkey|Hkey].
  2:{ rewrite bool_decide_false by done. cbn. rewrite bool_decide_false; [done|]. by intros (_ & ->). }
  rewrite bool_decide_true by done. cbn [negb]. unfold mergeGroupConfigColumn.
  destruct l; try (rewrite bool_decide_false by naive_solver; destruct sc; by try destruct (has_group _ _)).
  cbn [setAgentGlobal set_global st_global]. rewrite global_says by apply NoDup_singleton. cbn [assoc].
  destruct (String.eqb_spec key k) as [->|E]; [by rewrite bool_decide_true|rewrite bool_decide_false; [done|]]. naive_solver.
Qed.

Lemma mirror_agent l sc key v s d a k :
  k ∈ LEGACY_KEYS -> st_agents (mirrorLegacy l sc key v s) !! d = Some a ->
  (key = "checkIntervalSeconds" -> forall z, v = Some (V_num z) -> 10 <= z <= 86400) ->
  exists a0, st_agents s !! d = Some a0
    /\ legacy_says k (agent_legacy a k) = if bool_decide (l = L_agent /\ sc = Some d /\ key = k) then legacy_says k (legacy_value k v) else legacy_says k (agent_legacy a0 k).
Proof.
  intros Hk Ha Hz. unfold mirrorLegacy in Ha. rewrite legacy_key_dec in Ha. destruct (decide (key ∈ LEGACY_KEYS)) as [Hkey|Hkey].
  2:{ rewrite bool_decide_false in Ha by done. cbn in Ha. exists a. split; [done|]. rewrite bool_decide_false; [done|]. by intros (_ & _ & ->). }
  rewrite bool_decide_true in Ha by done. cbn [negb] in Ha. unfold mergeGroupConfigColumn in Ha.
  assert (Hsame : st_agents s !! d = Some a -> l <> L_agent \/ sc <> Some d -> exists a0, st_agents s !! d = Some a0
    /\ legacy_says k (agent_legacy a k) = if bool_decide (l = L_agent /\ sc = Some d /\ key = k) then legacy_says k (legacy_value k v) else legacy_says k (agent_legacy a0 k)).
  { intros H Hn. exists a. split; [done|]. rewrite bool_decide_false; [done|]. naive_solver. }
  destruct l; try (apply Hsame; [destruct sc; by try destruct (has_group _ _)|by left]).
  destruct sc as [d'|]; [|apply Hsame; [done|by right]]. cbn [update_agent set_agents st_agents] in Ha. rewrite lookup_alter in Ha.
  case_decide as E; [subst d'|apply Hsame; [done|right; congruence]]. destruct (st_agents s !! d) as [a0|]; [|done]. cbn in Ha. injection Ha as <-.
  exists a0. split; [done|]. clear Hsame.
  repeat (apply elem_of_cons in Hkey as [->|Hkey]; [|]); try by apply elem_of_nil in Hkey.
  all: repeat (apply elem_of_cons in Hk as [->|Hk]; [|]); try by apply elem_of_nil in Hk.
  all: try (rewrite bool_decide_false by naive_solver; cbn; reflexivity).
  all: rewrite bool_decide_true by done; cbn; try reflexivity.
  - destruct v as [[z| | |]|]; cbn; try done. unfold agent_legacy, legacy_says. cbn. do 2 f_equal. unfold clampCheckInterval. specialize (Hz eq_refl z eq_refl).
    destruct (Z.eqb_spec z 0); lia.
Qed.

(** ** Writes with their mirror *)

(** The columns after a store: a dry-run write touches none of the legacy ones. *)
Lemma dry_agent_legacy l sc b s d a k :
  st_agents (writeEvaluateOnly l sc b s) !! d = Some a -> exists a0, st_agents s !! d = Some a0 /\ agent_legacy a k = agent_legacy a0 k.
Proof.
  unfold writeEvaluateOnly. destruct sc as [i|]; [|eauto]. case_bool_decide; [cbn; eauto|]. cbn [update_agent set_agents st_agents]. rewrite lookup_alter.
  case_decide; [subst|eauto]. destruct (st_agents s !! _) as [a0|]; [|done]. cbn. intros [= <-]. exists a0. done.
Qed.

Lemma store_forest_ok t def stored mirror s : served_ok (st_forest s) -> served_ok (st_forest (store_setting t def stored mirror s)).
Proof.
  intros Hok. unfold store_setting. set (s1 := if bool_decide (sd_resolution def = AnyTrue) then _ else _).
  assert (H : served_ok (st_forest s1)).
  { unfold s1. case_bool_decide; [|by destruct stored]. unfold writeEvaluateOnly. destruct (tg_scope t); [|done].
    case_bool_decide; cbn; [|done]. by apply dry_forest_ok. }
  destruct mirror; [|done]. by rewrite (proj2 (mirror_rows _ _ _ _ _)).
Qed.

(** The state before the mirror: the rows changed, the legacy columns did not. *)
Definition stored_rows (t : SettingTarget) (def : SettingDefinition) (stored : option SettingValue) (s : SettingsDb) : SettingsDb :=
  store_setting t def stored false s.

Lemma stored_columns t def stored s :
  st_configs (stored_rows t def stored s) = st_configs s /\ st_global (stored_rows t def stored s) = st_global s
  /\ (forall d a k, st_agents (stored_rows t def stored s) !! d = Some a -> exists a0, st_agents s !! d = Some a0 /\ agent_legacy a k = agent_legacy a0 k).
Proof.
  unfold stored_rows, store_setting. case_bool_decide.
  - destruct (dry_rows (tg_level t) (tg_scope t) (bool_decide (stored = Some (V_bool true))) s) as (_ & ? & ?). split_and!; [done|done|].
    intros d a k. apply dry_agent_legacy.
  - split_and!; destruct stored; try done; eauto.
Qed.

(** The rows a store writes. *)
Lemma store_row_ok t def stored mirror s l sc k v tn :
  settings_ok s -> target_ok s t -> writableDefinition (JStr (sd_key def)) (tg_level t) = inr def -> (forall v, stored = Some v -> value_ok def v) ->
  st_rows (store_setting t def stored mirror s) !! (l, sc, k) = Some (v, tn) ->
  st_rows s !! (l, sc, k) = Some (v, tn) \/ row_valid l k v /\ row_live s l sc tn.
Proof.
  intros Hok Ht Hd Hv H. apply store_row in H as [H|(Ha & [= -> -> ->] & -> & ->)]; [by left|right]. split; [|done].
  apply writable_spec in Hd as (k & [= <-] & Hd & He & Hl). exists def. split_and!; try done. by apply Hv.
Qed.

Lemma mirrored_says own legacy legacy' :
  mirrored own legacy -> (forall k, k ∈ LEGACY_KEYS -> legacy_says k (legacy' k) = legacy_says k (legacy k)) -> mirrored own legacy'.
Proof. intros H E k Hk. rewrite E by done. by apply H. Qed.

(** The configs a statement leaves are those of live groups. *)
Lemma mirror_configs l sc k v s g c :
  st_configs (mirrorLegacy l sc k v s) !! g = Some c ->
  st_configs s !! g = Some c \/ (is_Some (fo_groups (st_forest s) !! g) /\ object_ok c).
Proof.
  unfold mirrorLegacy, mergeGroupConfigColumn, setAgentGlobal, update_agent. destruct (negb _); [auto|].
  destruct l, sc as [i|]; cbn; auto. unfold has_group. case_bool_decide as Hi; [|auto]. cbn.
  intros [[<- <-]|[_ H]]%lookup_insert_Some; [right|by left]. split; [done|apply merged_object].
Qed.

Lemma mirror_global_object l sc k v s : object_ok (st_global s) -> object_ok (st_global (mirrorLegacy l sc k v s)).
Proof.
  intros Hok. unfold mirrorLegacy, mergeGroupConfigColumn, setAgentGlobal, update_agent. destruct (negb _); [apply Hok|].
  destruct l, sc as [i|]; try apply Hok; [| |destruct (has_group _ _); apply Hok]; by apply spread_keys.
Qed.

Lemma number_bounds def z : getSettingDefinition "checkIntervalSeconds" = Some def -> value_ok def (V_num z) -> 10 <= z <= 86400.
Proof. cbn. intros [= <-]. unfold value_ok, within. cbn [sd_type sd_min sd_max number_setting]. intros H. boolify. lia. Qed.

(** A valid write with its mirror keeps the rows and the columns together. *)
Lemma store_mirrored_ok t def stored s :
  settings_ok s -> target_ok s t -> writableDefinition (JStr (sd_key def)) (tg_level t) = inr def -> (forall v, stored = Some v -> value_ok def v) ->
  settings_ok (store_setting t def stored true s).
Proof.
  intros Hok Ht Hd Hv. set (s1 := stored_rows t def stored s).
  change (store_setting t def stored true s) with (mirrorLegacy (tg_level t) (tg_scope t) (sd_key def) stored s1).
  destruct (stored_columns t def stored s) as (Hcfg & Hglob & Hag). fold s1 in Hcfg, Hglob, Hag.
  destruct (store_owners t def stored true s) as [Hg Ha].
  assert (Hkd : getSettingDefinition (sd_key def) = Some def) by (by apply writable_spec in Hd as (k & [= <-] & ? & _)).
  assert (Hown : forall l sc k, own (mirrorLegacy (tg_level t) (tg_scope t) (sd_key def) stored s1) l sc k
                   = if bool_decide (sd_resolution def <> AnyTrue /\ (l, sc, k) = row_key t (sd_key def)) then stored else own s l sc k)
    by (intros; apply (own_store t def stored true s)).
  (* a legacy key of the target says the stored value, the rest is as before *)
  assert (Hkey : forall l sc legacy, mirrored (own s l sc) legacy -> forall legacy',
      (forall k, k ∈ LEGACY_KEYS -> legacy_says k (legacy' k)
         = if bool_decide (tg_level t = l /\ tg_scope t = sc /\ sd_key def = k) then legacy_says k (legacy_value k stored) else legacy_says k (legacy k)) ->
      mirrored (own (mirrorLegacy (tg_level t) (tg_scope t) (sd_key def) stored s1) l sc) legacy').
  { intros l sc legacy Hm legacy' Hl k Hk. rewrite Hown, Hl by done. destruct (decide (tg_level t = l /\ tg_scope t = sc /\ sd_key def = k)) as [(E1 & E2 & E3)|Hn].
    - rewrite (bool_decide_true (_ /\ _ /\ _)) by done. subst k. rewrite bool_decide_true; [by apply (legacy_value_says _ def)|].
      split; [by apply (legacy_definition _ _ Hk Hkd)|]. unfold row_key. congruence.
    - rewrite (bool_decide_false (_ /\ _ /\ _)) by done. rewrite bool_decide_false; [by apply Hm|]. intros [_ [= -> -> ->]]. by apply Hn. }
  apply (settings_ok_step s); try done.
  - by apply (store_forest_ok t def stored true), so_forest.
  - intros l sc k v tn. by apply (store_row_ok t def stored true s).
  - intros g c H. apply mirror_configs in H. rewrite Hcfg in H. unfold s1, stored_rows in H. destruct H as [?|[H1 H2]]; [by left|right]. split; [|done].
    rewrite <- (fmap_is_Some gn_tenant), <- (proj1 (store_owners t def stored false s)). by rewrite fmap_is_Some.
  - apply mirror_global_object. rewrite Hglob. apply Hok.
  - intros g Hgrp. apply (Hkey L_group (Some g) (group_legacy s g)); [by apply so_group|]. intros k Hk.
    rewrite mirror_group; [|intros c; rewrite Hcfg; intros E; by apply (so_configs s Hok) in E as [_ ?]|done|].
    + unfold group_legacy. by rewrite Hcfg.
    + rewrite <- (fmap_is_Some gn_tenant). rewrite (proj1 (store_owners t def stored false s)). by rewrite fmap_is_Some.
  - apply (Hkey L_global None (fun k => get_field k (st_global s))); [by apply so_global|]. intros k Hk. rewrite mirror_global by done. rewrite Hglob.
    match goal with |- (if ?b then _ else _) = (if ?c then _ else _) => assert (E : b = c); [|by rewrite E] end.
    apply bool_decide_ext. split; [|tauto]. intros [E1 E2]. unfold target_ok, row_live in Ht. rewrite E1 in Ht. by destruct (tg_scope t).
  - intros d a Hd'. pose proof (mirror_agent (tg_level t) (tg_scope t) (sd_key def) stored s1 d a) as Hm.
    assert (Hz : sd_key def = "checkIntervalSeconds" -> forall z, stored = Some (V_num z) -> 10 <= z <= 86400).
    { intros E z ->. apply (number_bounds def); [by rewrite <- E|by apply Hv]. }
    assert (Ha0 : exists a0, st_agents s !! d = Some a0 /\ forall k, k ∈ LEGACY_KEYS -> legacy_says k (agent_legacy a k)
        = if bool_decide (tg_level t = L_agent /\ tg_scope t = Some d /\ sd_key def = k) then legacy_says k (legacy_value k stored) else legacy_says k (agent_legacy a0 k)).
    { destruct (st_agents s !! d) as [a0|] eqn:E0.
      2:{ specialize (Ha d). rewrite E0 in Ha. change (store_setting t def stored true s) with (mirrorLegacy (tg_level t) (tg_scope t) (sd_key def) stored s1) in Ha. by rewrite Hd' in Ha. }
      exists a0. split; [done|]. intros k Hk. destruct (Hm k Hk Hd' Hz) as (a1 & H1 & ->). destruct (Hag d a1 k H1) as (a2 & H2 & E2).
      assert (a2 = a0) as -> by congruence. by rewrite E2. }
    destruct Ha0 as (a0 & H0 & Hl). apply (Hkey L_agent (Some d) (agent_legacy a0)); [by apply so_agent|done].
Qed.

(** ** Writes without a mirror *)

Definition stored_of (l : SettingLevel) (k : string) (v : js) : option SettingValue :=
  match check_setting l (JStr k) v with inr (_, st) => st | inl _ => None end.
Definition entries_of (kvs : list (string * js)) : list (js * js) := map (fun kv => (JStr (fst kv), snd kv)) kvs.

Lemma first_invalid_cons l k v r : first_invalid l ((k, v) :: r) = None <-> (exists p, check_setting l k v = inr p) /\ first_invalid l r = None.
Proof. cbn. destruct (check_setting l k v) as [e|p]; [|naive_solver]. split; [done|]. by intros [[? ?] _]. Qed.

(** One write of a legacy key at a scope: only its row changes. *)
Lemma plain_write t k v s :
  k ∈ LEGACY_KEYS -> (tg_level t = L_global \/ tg_scope t <> None) -> (exists p, check_setting (tg_level t) (JStr k) v = inr p) ->
  exists def, writableDefinition (JStr k) (tg_level t) = inr def /\ sd_key def = k /\ sd_resolution def <> AnyTrue
    /\ (forall x, stored_of (tg_level t) k v = Some x -> value_ok def x)
    /\ write t (JStr k) v false s = (inr (stored_of (tg_level t) k v), store_setting t def (stored_of (tg_level t) k v) false s).
Proof.
  intros Hk Hsc [[def st] Hc]. pose proof (check_spec _ _ _ _ _ Hc) as [Hd Hv]. unfold stored_of. rewrite Hc. exists def.
  pose proof (writable_spec _ _ _ Hd) as (k' & [= <-] & Hdk & _). split_and!; [done|by apply definition_key|by apply (legacy_definition k def)|done|].
  unfold write. rewrite Hd, Hc. destruct Hsc as [->|Hsc]; [done|]. by rewrite (bool_decide_false (tg_scope t = None)), andb_false_r by done.
Qed.

(** A sequence of them. *)
Lemma plain_writes t kvs s :
  (forall k, k ∈ map fst kvs -> k ∈ LEGACY_KEYS) -> NoDup (map fst kvs) -> (tg_level t = L_global \/ tg_scope t <> None) ->
  first_invalid (tg_level t) (entries_of kvs) = None ->
  let s' := snd (write_each t (entries_of kvs) false s) in
  fst (write_each t (entries_of kvs) false s) = None
  /\ s' = set_rows (fun _ => st_rows s') s
  /\ (forall l sc k, own s' l sc k = if bool_decide ((l, sc) = (tg_level t, tg_scope t))
                                   then match assoc k kvs with Some v => stored_of (tg_level t) k v | None => own s l sc k end else own s l sc k)
  /\ (forall l sc k v tn, st_rows s' !! (l, sc, k) = Some (v, tn) ->
        st_rows s !! (l, sc, k) = Some (v, tn) \/ row_valid l k v /\ l = tg_level t /\ sc = tg_scope t /\ tn = row_tenant t).
Proof.
  intros Hk Hn Hsc. revert s. induction kvs as [|[k v] kvs IH]; intros s Hf; cbv zeta.
  { cbn [entries_of map write_each fst snd]. split_and!; [done|by destruct s| |auto]. intros l sc k. by case_bool_decide. }
  cbn [entries_of map fst snd] in Hf, Hn. apply first_invalid_cons in Hf as [Hc Hf]. apply NoDup_cons in Hn as [Hkn Hn].
  destruct (plain_write t k v s) as (def & Hd & Hkey & Hany & Hval & Hw); [apply Hk; cbn; set_solver|done|done|].
  cbn [entries_of map write_each fst snd]. rewrite Hw. set (s1 := store_setting t def _ false s).
  destruct (IH ltac:(intros x Hx; apply Hk; cbn; set_solver) Hn s1 Hf) as (H0 & H1 & H2 & H3). fold (entries_of kvs).
  set (s2 := snd (write_each t (entries_of kvs) false s1)) in *.
  assert (Es1 : s1 = set_rows (fun _ => st_rows s1) s).
  { unfold s1, store_setting. rewrite bool_decide_false by done. by destruct (stored_of _ _ _), s. }
  split_and!.
  - done.
  - rewrite H1, Es1. done.
  - intros l sc k'. rewrite H2. unfold s1. rewrite own_store, Hkey. cbn [assoc].
    case_bool_decide as Hls; [injection Hls as -> ->|rewrite bool_decide_false by (unfold row_key; intros [_ [= -> -> _]]; done); done].
    destruct (String.eqb_spec k k') as [->|Hne].
    + rewrite assoc_notin by done. by rewrite bool_decide_true.
    + rewrite bool_decide_false; [done|]. intros [_ [= E]]. done.
  - intros l sc k' v' tn H. apply H3 in H as [H|H]; [|by right]. unfold s1 in H. apply store_row in H as [H|(_ & [= -> -> ->] & Hst & ->)]; [by left|right].
    split; [|done]. pose proof (writable_spec _ _ _ Hd) as (k0 & [= <-] & Hdk & He & Hl). rewrite Hkey. exists def. split_and!; try done. by apply Hval.
Qed.

(** The cascade value of a legacy field is what the field says. *)
Lemma cascade_says l k raw p :
  k ∈ LEGACY_KEYS -> check_setting l (JStr k) (cascade_value k raw) = inr p -> stored_of l k (cascade_value k raw) = legacy_says k raw.
Proof.
  intros Hk Hc. unfold stored_of. rewrite Hc. destruct p as [def st]. pose proof (check_spec _ _ _ _ _ Hc) as [Hd _].
  pose proof (writable_spec _ _ _ Hd) as (k' & [= <-] & Hdk & _). destruct (legacy_definition k def Hk Hdk) as [_ Ht].
  unfold check_setting in Hc. rewrite Hd in Hc. unfold cascade_value, legacy_says in *. destruct (String.eqb_spec k "notificationTypes") as [->|Hne].
  - destruct (legacyTypesToFlags raw) as [f|] eqn:Ef; [|cbn in Hc; by injection Hc as <-].
    change (JObj (map _ (map_to_list f))) with (value_js (V_flags f)) in Hc. rewrite normalize_stored in Hc; [cbn in Hc; by injection Hc as <-|].
    unfold value_ok. rewrite Ht. by eapply legacy_flags_ok.
  - destruct (is_nullish raw) eqn:En; [cbn in Hc; injection Hc as <-; by destruct raw|].
    destruct (is_null raw) eqn:En'; [unfold is_nullish in En; by rewrite En', orb_true_r in En|]. unfold normalizeSettingValue in Hc. rewrite Ht in Hc.
    destruct raw as [| | |[z|]| | |]; try done. destruct (within _ _ z); [|done]. by injection Hc as <-.
Qed.

(** ** The older endpoints *)

(** The writes of the legacy fields a request carries. *)
Definition legacy_writes (raw : string -> option js) : list (string * js) :=
  omap (fun k => match cascade_value k <$> raw k with Some v => Some (k, v) | None => None end) LEGACY_KEYS.

Lemma legacy_keys_nodup : NoDup LEGACY_KEYS.
Proof. by apply (bool_decide_unpack _). Qed.

Lemma legacy_writes_assoc raw k : k ∈ LEGACY_KEYS -> assoc k (legacy_writes raw) = cascade_value k <$> raw k.
Proof. intros Hk. unfold legacy_writes. rewrite (assoc_omap k (fun k => cascade_value k <$> raw k)) by apply legacy_keys_nodup. by rewrite bool_decide_true. Qed.

Lemma legacy_writes_keys raw : (forall k, k ∈ map fst (legacy_writes raw) -> k ∈ LEGACY_KEYS) /\ NoDup (map fst (legacy_writes raw)).
Proof.
  unfold legacy_writes, LEGACY_KEYS. cbn [omap list_omap]. destruct (raw "checkIntervalSeconds"), (raw "maxMissedPushes"), (raw "notificationTypes"); cbn;
    (split; [intros k Hk; set_solver|by apply (bool_decide_unpack _)]).
Qed.

Lemma first_invalid_assoc l kvs k v : first_invalid l (entries_of kvs) = None -> assoc k kvs = Some v -> exists p, check_setting l (JStr k) v = inr p.
Proof.
  induction kvs as [|[k0 x] kvs IH]; [done|]. cbn [entries_of map fst snd]. intros [Hc H]%first_invalid_cons. cbn [assoc].
  destruct (String.eqb_spec k0 k) as [->|]; [by intros [= <-]|by apply IH].
Qed.

(** An endpoint that changes the columns of one scope, then writes the rows of the same fields. *)
Section Compat.
Variables (s s1 : SettingsDb) (t : SettingTarget) (raw : string -> option js).
Let s' := snd (write_each t (entries_of (legacy_writes raw)) false s1).
Hypothesis Hok : settings_ok s.
Hypothesis Ht : target_ok s t.
Hypothesis Hvalid : first_invalid (tg_level t) (entries_of (legacy_writes raw)) = None.
Hypothesis Hrows : st_rows s1 = st_rows s.

Lemma compat_scope : tg_level t = L_global \/ tg_scope t <> None.
Proof. unfold target_ok, row_live in Ht. destruct (tg_level t), (tg_scope t); auto; done. Qed.

Lemma compat_state : s' = set_rows (fun _ => st_rows s') s1.
Proof. apply (plain_writes t (legacy_writes raw)); [apply legacy_writes_keys|apply legacy_writes_keys|apply compat_scope|apply Hvalid]. Qed.

Lemma compat_answer : fst (writeMany t (entries_of (legacy_writes raw)) false s1) = None /\ snd (writeMany t (entries_of (legacy_writes raw)) false s1) = s'.
Proof.
  unfold writeMany. rewrite Hvalid. split; [|done].
  apply (plain_writes t (legacy_writes raw)); [apply legacy_writes_keys|apply legacy_writes_keys|apply compat_scope|apply Hvalid].
Qed.

Lemma compat_rows l sc k v tn :
  st_rows s' !! (l, sc, k) = Some (v, tn) -> st_rows s !! (l, sc, k) = Some (v, tn) \/ row_valid l k v /\ row_live s l sc tn.
Proof.
  intros H. apply (plain_writes t (legacy_writes raw)) in H as [H|(H1 & -> & -> & ->)];
    [left; by rewrite <- Hrows|right; by split|apply legacy_writes_keys|apply legacy_writes_keys|apply compat_scope|apply Hvalid].
Qed.

Lemma compat_own l sc k :
  k ∈ LEGACY_KEYS ->
  own s' l sc k = if bool_decide ((l, sc) = (tg_level t, tg_scope t))
                  then match raw k with Some v => legacy_says k v | None => own s l sc k end else own s l sc k.
Proof.
  intros Hk. destruct (plain_writes t (legacy_writes raw)) with (s := s1) as (_ & _ & H & _);
    [apply legacy_writes_keys|apply legacy_writes_keys|apply compat_scope|apply Hvalid|]. rewrite H.
  assert (E : own s1 l sc k = own s l sc k) by (unfold own; by rewrite Hrows). rewrite E. case_bool_decide; [|done].
  pose proof (legacy_writes_assoc raw k Hk) as Ha. rewrite Ha. destruct (raw k) as [v|]; [|done]. cbn [fmap option_fmap option_map] in *.
  destruct (first_invalid_assoc _ _ _ _ Hvalid Ha) as [p Hp]. by eapply cascade_says.
Qed.

Lemma compat_target legacy legacy' :
  mirrored (own s (tg_level t) (tg_scope t)) legacy ->
  (forall k, k ∈ LEGACY_KEYS -> legacy_says k (legacy' k) = match raw k with Some v => legacy_says k v | None => legacy_says k (legacy k) end) ->
  mirrored (own s' (tg_level t) (tg_scope t)) legacy'.
Proof.
  intros Hm Hl k Hk. rewrite compat_own, bool_decide_true, Hl by done. destruct (raw k); [done|by apply Hm].
Qed.

Lemma compat_other l sc legacy :
  (l, sc) <> (tg_level t, tg_scope t) -> mirrored (own s l sc) legacy -> mirrored (own s' l sc) legacy.
Proof. intros Hn Hm k Hk. rewrite compat_own, bool_decide_false by done. by apply Hm. Qed.
End Compat.

Lemma cascade_writes_eq name config :
  cascade_writes (map (fun k => (name k, k)) LEGACY_KEYS) config
  = entries_of (omap (fun k => if has_field (name k) config then Some (k, cascade_value (name k) (get_field (name k) config)) else None) LEGACY_KEYS).
Proof. unfold cascade_writes, LEGACY_KEYS. cbn. by destruct (has_field (name "checkIntervalSeconds") config), (has_field (name "maxMissedPushes") config), (has_field (name "notificationTypes") config). Qed.

Definition config_raw (config : js) (k : string) : option js := if has_field (config_name k) config then Some (get_field (config_name k) config) else None.
Lemma group_writes config : cascade_writes CASCADE_GROUP_KEYS config = entries_of (legacy_writes (config_raw config)).
Proof.
  change CASCADE_GROUP_KEYS with (map (fun k => (config_name k, k)) LEGACY_KEYS). rewrite cascade_writes_eq. unfold legacy_writes, config_raw, LEGACY_KEYS. cbn.
  by destruct (has_field "pushIntervalSeconds" config), (has_field "maxMissedPushes" config), (has_field "notificationTypes" config).
Qed.
Definition body_raw (body : js) (k : string) : option js := if has_field k body then Some (get_field k body) else None.
Lemma global_writes body : cascade_writes GLOBAL_KEYS body = entries_of (legacy_writes (body_raw body)).
Proof.
  unfold GLOBAL_KEYS. rewrite (cascade_writes_eq (fun k => k)). unfold legacy_writes, body_raw, LEGACY_KEYS. cbn.
  by destruct (has_field "checkIntervalSeconds" body), (has_field "maxMissedPushes" body), (has_field "notificationTypes" body).
Qed.

Lemma group_config_ok gid config s : settings_ok s -> object_ok config -> match config with JObj _ => True | _ => False end ->
  settings_ok (snd (updateAgentGroupConfig gid config s)).
Proof.
  intros Hok Hobj Hcfg. unfold updateAgentGroupConfig. destruct (fo_groups (st_forest s) !! gid) as [g|] eqn:Hg; [|done].
  set (t := {| tg_level := L_group; tg_scope := Some gid; tg_tenant := gn_tenant g |}). rewrite group_writes.
  destruct (first_invalid L_group _) eqn:Hv; [done|]. set (s1 := mergeGroupConfigColumn gid (fields_of config) s).
  assert (Hlive : target_ok s t) by (unfold target_ok, row_live, t; cbn; by rewrite Hg).
  assert (E1 : s1 = set_configs (fun m => <[gid := merged_config (default JNull (m !! gid)) (fields_of config)]> m) s).
  { unfold s1, mergeGroupConfigColumn, has_group. rewrite bool_decide_true; [done|by rewrite Hg]. }
  destruct (compat_answer s s1 t (config_raw config) Hlive Hv) as [Ha Hs]. destruct (writeMany t _ false s1) as [e s2]. cbn [fst snd] in *. subst e s2.
  pose proof (compat_state s s1 t (config_raw config) Hlive Hv) as Est. set (s' := snd (write_each t _ false s1)) in *.
  assert (Hrows : st_rows s1 = st_rows s) by (by rewrite E1).
  assert (Ef : st_forest s' = st_forest s /\ st_agents s' = st_agents s /\ st_global s' = st_global s) by (rewrite Est, E1; done). destruct Ef as (Ef & Ea & Egl).
  assert (Ecfg : st_configs s' = <[gid := merged_config (default JNull (st_configs s !! gid)) (fields_of config)]> (st_configs s)) by (rewrite Est, E1; done).
  apply (settings_ok_step s); rewrite ?Ef, ?Ea, ?Egl; try done.
  - apply Hok.
  - intros l sc k v tn. by apply (compat_rows s s1 t (config_raw config)).
  - intros g' c. rewrite Ecfg. intros [[<- <-]|[_ H]]%lookup_insert_Some; [right|by left]. split; [by rewrite Hg|apply merged_object].
  - apply Hok.
  - intros g' Hg'. destruct (decide (g' = gid)) as [->|Hn].
    + apply (compat_target s s1 t (config_raw config) Hlive Hv Hrows (group_legacy s gid)); [by apply so_group|].
      intros k Hk. unfold group_legacy. rewrite Ecfg, lookup_insert_eq. cbn [default id].
      rewrite merged_says; [|by destruct (st_configs s !! gid) as [c|] eqn:E; [apply (so_configs s Hok) in E as [_ ?]|apply (bool_decide_unpack _)]|done|done].
      unfold config_raw. destruct config as [| | | | | |l]; try done. rewrite has_field_obj, get_field_obj. cbn [fields_of]. by destruct (assoc _ l).
    + apply (compat_other s s1 t (config_raw config)); try done; [unfold t; cbn; congruence|].
      unfold group_legacy. rewrite Ecfg, lookup_insert_ne by done. by apply so_group.
  - apply (compat_other s s1 t (config_raw config)); try done. by apply so_global.
  - intros d a Hd. apply (compat_other s s1 t (config_raw config)); try done. by apply so_agent.
Qed.

Lemma global_patch_ok body s : settings_ok s -> settings_ok (snd (patchAgentGlobal body s)).
Proof.
  intros Hok. unfold patchAgentGlobal. rewrite global_writes. destruct (first_invalid L_global _) eqn:Hv; [done|]. cbv zeta.
  set (patch := omap (fun k => if has_field k body then Some (k, get_field k body) else None) LEGACY_KEYS).
  set (s1 := set_global _ s). set (t := {| tg_level := L_global; tg_scope := None; tg_tenant := MASTER_TENANT_ID |}).
  assert (Hlive : target_ok s t) by done.
  destruct (compat_answer s s1 t (body_raw body) Hlive Hv) as [Ha Hs]. rewrite Hs.
  pose proof (compat_state s s1 t (body_raw body) Hlive Hv) as Est. set (s' := snd (write_each t _ false s1)) in *.
  assert (Hrows : st_rows s1 = st_rows s) by done.
  assert (Ef : st_forest s' = st_forest s /\ st_agents s' = st_agents s /\ st_configs s' = st_configs s /\ st_global s' = st_global s1) by (rewrite Est; done).
  destruct Ef as (Ef & Ea & Ec & Egl).
  assert (Hpatch : forall k, k ∈ LEGACY_KEYS -> assoc k patch = body_raw body k).
  { intros k Hk. unfold patch. replace (omap _ LEGACY_KEYS) with (omap (fun k => match body_raw body k with Some v => Some (k, v) | None => None end) LEGACY_KEYS).
    - rewrite (assoc_omap k (body_raw body)) by apply legacy_keys_nodup. by rewrite bool_decide_true.
    - unfold body_raw, LEGACY_KEYS. cbn. by destruct (has_field _ body), (has_field _ body), (has_field _ body). }
  assert (Hpk : NoDup (map fst patch)).
  { unfold patch, LEGACY_KEYS. cbn. destruct (has_field _ body), (has_field _ body), (has_field _ body); cbn; by apply (bool_decide_unpack _). }
  apply (settings_ok_step s); rewrite ?Ef, ?Ea, ?Ec, ?Egl; try done.
  - apply Hok.
  - intros l sc k v tn. by apply (compat_rows s s1 t (body_raw body)).
  - auto.
  - apply without_keys, spread_keys, Hok.
  - intros g Hg. apply (compat_other s s1 t (body_raw body)); try done. unfold group_legacy. rewrite Ec. by apply so_group.
  - apply (compat_target s s1 t (body_raw body) Hlive Hv Hrows (fun k => get_field k (st_global s))); [by apply so_global|]. intros k Hk.
    unfold s1. cbn [set_global st_global setAgentGlobal fields_of]. rewrite get_field_obj, assoc_without.
    destruct (String.eqb_spec k "heartbeatMonitoring") as [->|]; [by destruct (config_name_legacy _ Hk)|].
    rewrite assoc_spread, Hpatch by done. rewrite (get_fields_of k (st_global s)). by destruct (body_raw body k).
  - intros d a Hd. apply (compat_other s s1 t (body_raw body)); try done. by apply so_agent.
Qed.

(** What [updateDevice] writes. *)
Definition device_raw (data : UpdateDevice) (cur : AgentColumns) (k : string) : option js :=
  if String.eqb k "checkIntervalSeconds" then
    match ud_checkInterval data, ud_override data with
    | None, None => None
    | ci, o => Some (if default (ac_override cur) o then JNum (NInt (default (clampCheckInterval (ac_check_interval cur)) ci)) else JNull)
    end
  else if String.eqb k "maxMissedPushes" then num_js <$> ud_maxMissed data
  else ud_types data.

Lemma device_writes_eq data cur : device_writes data cur = entries_of (legacy_writes (device_raw data cur)).
Proof.
  unfold device_writes, legacy_writes, LEGACY_KEYS, device_raw. cbn.
  destruct (ud_checkInterval data), (ud_override data) as [o|], (ud_maxMissed data) as [m|], (ud_types data); cbn; try done;
    try destruct (default _ _); try destruct o; try destruct (ac_override cur); try destruct m; done.
Qed.

Lemma interval_checked l c p : check_setting l (JStr "checkIntervalSeconds") (JNum (NInt c)) = inr p -> 10 <= c <= 86400.
Proof.
  unfold check_setting. destruct (writableDefinition _ _) as [|def] eqn:Hd; [done|]. apply writable_spec in Hd as (k & [= <-] & Hd & _).
  cbn in Hd. injection Hd as <-. cbn [is_null]. unfold normalizeSettingValue. cbn [sd_type number_setting]. destruct (within _ _ c) eqn:E; [|done]. intros _.
  unfold within in E. cbn [sd_min sd_max number_setting] in E. boolify. lia.
Qed.

Lemma clamp_valid c : 10 <= c <= 86400 -> clampCheckInterval c = c.
Proof. intros H. unfold clampCheckInterval. destruct (Z.eqb_spec c 0); lia. Qed.

Lemma falsy_types v : is_truthy v = false -> legacyTypesToFlags v = None.
Proof. destruct v as [| |b|[z|]|s| |]; try done. by destruct s. Qed.

(** The columns of the update say what the rows will. *)
Lemma update_columns_says data cur k :
  first_invalid L_agent (entries_of (legacy_writes (device_raw data cur))) = None -> k ∈ LEGACY_KEYS ->
  legacy_says k (agent_legacy (update_columns data cur) k)
  = match device_raw data cur k with Some v => legacy_says k v | None => legacy_says k (agent_legacy cur k) end.
Proof.
  intros Hv Hk. assert (Hchk : forall c, device_raw data cur "checkIntervalSeconds" = Some (JNum (NInt c)) -> 10 <= c <= 86400).
  { intros c Hc. destruct (first_invalid_assoc _ _ "checkIntervalSeconds" (JNum (NInt c)) Hv) as [p Hp]; [|by eapply interval_checked].
    rewrite legacy_writes_assoc by (unfold LEGACY_KEYS; set_solver). by rewrite Hc. }
  apply elem_of_cons in Hk as [->|Hk].
  - unfold device_raw, agent_legacy in Hchk |- *. cbn [String.eqb Ascii.eqb Bool.eqb] in Hchk |- *.
    destruct (ud_checkInterval data) as [c|] eqn:Ec, (ud_override data) as [o|] eqn:Eo;
      unfold update_columns; cbn [ac_override ac_check_interval]; rewrite ?Ec, ?Eo; cbn [default id]; try done.
    + destruct o; [|done]. by rewrite clamp_valid by (by apply Hchk).
    + destruct (ac_override cur); [|done]. by rewrite clamp_valid by (by apply Hchk).
  - apply elem_of_cons in Hk as [->|Hk].
    + unfold device_raw, agent_legacy, update_columns. cbn. by destruct (ud_maxMissed data).
    + apply elem_of_cons in Hk as [->|Hk]; [|by apply elem_of_nil in Hk]. unfold device_raw, agent_legacy, update_columns. cbn.
      destruct (ud_types data) as [v|]; [|done]. destruct (is_truthy v) eqn:E; [done|]. unfold legacy_says. cbn. by rewrite (falsy_types v E).
Qed.

(** Columns of one agent changed, then its rows written. *)
Lemma device_compat_ok gid cur data s :
  settings_ok s -> st_agents s !! gid = Some cur -> first_invalid L_agent (entries_of (legacy_writes (device_raw data cur))) = None ->
  settings_ok (snd (write_each {| tg_level := L_agent; tg_scope := Some gid; tg_tenant := ac_tenant cur |}
                      (entries_of (legacy_writes (device_raw data cur))) false (update_agent gid (update_columns data) s))).
Proof.
  intros Hok Hcur Hv. set (s1 := update_agent gid (update_columns data) s). set (t := {| tg_level := L_agent; tg_scope := Some gid; tg_tenant := ac_tenant cur |}).
  assert (Hlive : target_ok s t) by (unfold target_ok, row_live, t; cbn; by rewrite Hcur).
  pose proof (compat_state s s1 t (device_raw data cur) Hlive Hv) as Est. set (s' := snd (write_each t _ false s1)) in *.
  assert (Hrows : st_rows s1 = st_rows s) by done.
  assert (Ef : st_forest s' = st_forest s /\ st_configs s' = st_configs s /\ st_global s' = st_global s /\ st_agents s' = st_agents s1) by (rewrite Est; done).
  destruct Ef as (Ef & Ec & Egl & Ea).
  apply (settings_ok_step s); rewrite ?Ef, ?Ec, ?Egl; try done.
  - apply Hok.
  - intros d. rewrite Ea. cbn [s1 update_agent set_agents st_agents]. rewrite lookup_alter. case_decide; [subst|done]. by destruct (st_agents s !! _).
  - intros l sc k v tn. by apply (compat_rows s s1 t (device_raw data cur)).
  - auto.
  - apply Hok.
  - intros g Hg. apply (compat_other s s1 t (device_raw data cur)); try done. unfold group_legacy. rewrite Ec. by apply so_group.
  - apply (compat_other s s1 t (device_raw data cur)); try done. by apply so_global.
  - intros d a. rewrite Ea. cbn [s1 update_agent set_agents st_agents]. rewrite lookup_alter. case_decide as E.
    + subst d. rewrite Hcur. intros [= <-]. apply (compat_target s s1 t (device_raw data cur) Hlive Hv Hrows (agent_legacy cur)); [by apply so_agent|].
      intros k Hk. by apply update_columns_says.
    + intros Hd. apply (compat_other s s1 t (device_raw data cur)); try done; [unfold t; cbn; congruence|by apply so_agent].
Qed.

Lemma settings_update_device_ok gid data s : settings_ok s -> settings_ok (snd (updateDevice gid data s)).
Proof.
  intros Hok. unfold updateDevice. destruct (st_agents s !! gid) as [cur|] eqn:Hc; [|done]. rewrite device_writes_eq.
  destruct (first_invalid L_agent _) eqn:Hv; [done|]. unfold writeMany. cbn [tg_level]. rewrite Hv. by apply device_compat_ok.
Qed.

(** ** The override switch of several agents *)

Lemma fold_interleave {S A} (U W : S -> A -> S) l s :
  (forall s a b, W (U s a) b = U (W s b) a) -> fold_left W l (fold_left U l s) = fold_left (fun s a => W (U s a) a) l s.
Proof.
  intros H. assert (Hc : forall l s a, W (fold_left U l s) a = fold_left U l (W s a)).
  { clear l s. induction l as [|b l IH]; intros s a; [done|]. cbn [fold_left]. by rewrite IH, H. }
  revert s. induction l as [|a l IH]; intros s; [done|]. cbn [fold_left]. by rewrite <- IH, Hc.
Qed.

Definition override_data (on : bool) : UpdateDevice :=
  {| ud_group := None; ud_checkInterval := None; ud_override := Some on; ud_maxMissed := None; ud_types := None; ud_evaluateOnly := None |}.
Definition override_value (on : bool) (a : AgentColumns) : js := if on then JNum (NInt (clampCheckInterval (ac_check_interval a))) else JNull.
Definition override_write (tenantId : Z) (on : bool) (s : SettingsDb) (kv : Z * AgentColumns) : SettingsDb :=
  snd (write {| tg_level := L_agent; tg_scope := Some (fst kv); tg_tenant := tenantId |} (JStr "checkIntervalSeconds") (override_value on (snd kv)) false s).

Lemma override_valid on a : exists def, check_setting L_agent (JStr "checkIntervalSeconds") (override_value on a)
  = inr (def, if on then Some (V_num (clampCheckInterval (ac_check_interval a))) else None) /\ sd_resolution def = Nearest.
Proof.
  set (def := number_setting "checkIntervalSeconds" 10 86400 60). exists def. split; [|done].
  assert (Hd : writableDefinition (JStr "checkIntervalSeconds") L_agent = inr def) by reflexivity.
  unfold check_setting. rewrite Hd. destruct on; [|done]. cbn [override_value is_null]. unfold normalizeSettingValue. cbn [sd_type number_setting def].
  assert (H : 10 <= clampCheckInterval (ac_check_interval a) <= 86400) by (unfold clampCheckInterval; lia).
  unfold within. cbn [sd_min sd_max number_setting def]. rewrite (proj2 (Z.leb_le 10 _)), (proj2 (Z.leb_le _ 86400)) by lia. done.
Qed.

Lemma override_writes_eq on a : legacy_writes (device_raw (override_data on) a) = [("checkIntervalSeconds", override_value on a)].
Proof. unfold legacy_writes, LEGACY_KEYS, device_raw, override_value. cbn. by destruct on. Qed.

Lemma override_write_eq tenantId on s kv :
  override_write tenantId on s kv
  = set_rows (if on then <[(L_agent, Some (fst kv), "checkIntervalSeconds") := (V_num (clampCheckInterval (ac_check_interval (snd kv))), tenantId)]>
              else delete (L_agent, Some (fst kv), "checkIntervalSeconds")) s.
Proof.
  destruct (override_valid on (snd kv)) as (def & Hc & Hr). pose proof (check_spec _ _ _ _ _ Hc) as [Hd _].
  unfold override_write, write. cbn [tg_level tg_scope]. rewrite Hd, (bool_decide_false (Some (fst kv) = None)) by done. rewrite andb_false_r, Hc. cbn [snd].
  unfold store_setting. rewrite Hr. apply writable_spec in Hd as (k & [= <-] & Hd & _). apply definition_key in Hd as ->. by destruct on.
Qed.

Lemma override_step tenantId on s kv : settings_ok s -> st_agents s !! fst kv = Some (snd kv) -> ac_tenant (snd kv) = tenantId ->
  settings_ok (override_write tenantId on (update_agent (fst kv) (update_columns (override_data on)) s) kv).
Proof.
  intros Hok Hd <-. destruct (override_valid on (snd kv)) as (def & Hc & _).
  pose proof (device_compat_ok (fst kv) (snd kv) (override_data on) s Hok Hd) as H. rewrite override_writes_eq in H.
  cbn [entries_of map fst snd first_invalid write_each] in H. rewrite Hc in H. specialize (H eq_refl). unfold override_write.
  destruct (write _ _ _ _ _) as [[e|x] s']; done.
Qed.

Lemma bulk_override_ok tenantId on ids s : settings_ok s -> settings_ok (bulk_override tenantId on ids s).
Proof.
  intros Hok. unfold bulk_override. set (rows := List.filter _ _).
  change (settings_ok (fold_left (override_write tenantId on) rows
            (fold_left (fun s kv => update_agent (fst kv) (update_columns (override_data on)) s) rows s))).
  rewrite fold_interleave by (intros; by rewrite !override_write_eq).
  assert (Hrows : forall kv, In kv rows -> st_agents s !! fst kv = Some (snd kv) /\ ac_tenant (snd kv) = tenantId).
  { intros [d a] H. apply filter_In in H as [H E]. boolify. split; [by apply elem_of_map_to_list, list_elem_of_In|done]. }
  assert (Hn : NoDup (map fst rows)) by (apply NoDup_map_filter; apply NoDup_fst_map_to_list).
  clearbody rows. revert s Hok Hrows. induction rows as [|kv rows IH]; intros s Hok Hrows; [done|]. cbn [fold_left]. cbn in Hn. apply NoDup_cons in Hn as [Hk Hn].
  apply IH; [done|by destruct (Hrows kv (or_introl eq_refl)); apply override_step|].
  intros kv' Hin. destruct (Hrows kv' (or_intror Hin)) as [H1 H2]. split; [|done]. rewrite override_write_eq. cbn [set_rows update_agent set_agents st_agents].
  rewrite lookup_alter_ne; [done|]. intros E. apply Hk. rewrite E. by apply list_elem_of_In, in_map.
Qed.

(** ** The settings endpoints *)

Lemma target_live t def stored mirror s : target_ok s t -> target_ok (store_setting t def stored mirror s) t.
Proof.
  destruct (store_owners t def stored mirror s) as [Hg Ha]. unfold target_ok, row_live. destruct (tg_level t), (tg_scope t); try done; congruence.
Qed.

Lemma write_ok t key value s : settings_ok s -> target_ok s t -> settings_ok (snd (write t key value true s)) /\ target_ok (snd (write t key value true s)) t.
Proof.
  intros Hok Ht. unfold write. destruct (writableDefinition _ _) eqn:Hw; [done|]. destruct (_ && _); [done|].
  destruct (check_setting _ _ _) as [|[def stored]] eqn:Hc; [done|]. apply check_spec in Hc as [Hd Hv]. cbn [snd]. split; [|by apply target_live].
  apply store_mirrored_ok; [done|done| |done]. pose proof (writable_spec _ _ _ Hd) as (k & -> & Hk & _). by rewrite (definition_key _ _ Hk).
Qed.

Lemma write_each_ok t entries s : settings_ok s -> target_ok s t -> settings_ok (snd (write_each t entries true s)).
Proof.
  revert s. induction entries as [|[k v] entries IH]; intros s Hok Ht; [done|]. cbn [write_each].
  destruct (write_ok t k v s Hok Ht) as [Hok' Ht']. destruct (write t k v true s) as [[e|x] s']; [done|by apply IH].
Qed.

Lemma resolve_ok level scopeId operating mayWrite s t : resolveTarget level scopeId operating mayWrite s = inr t -> target_ok s t.
Proof.
  unfold resolveTarget, target_ok, row_live, row_tenant. destruct level.
  - destruct (isMasterTenant _), mayWrite; try done. by intros [= <-].
  - destruct (deviceAccessVerdict _ _ _), mayWrite; try done. by intros [= <-].
  - destruct (fo_groups (st_forest s) !! scopeId) as [g|] eqn:Hg; [|done]. destruct (deviceAccessVerdict _ _ _), mayWrite; try done.
    intros [= <-]. cbn. by rewrite Hg.
  - destruct (st_agents s !! scopeId) as [a|] eqn:Ha; [|done]. destruct (deviceAccessVerdict _ _ _), mayWrite; try done.
    intros [= <-]. cbn. by rewrite Ha.
Qed.

Lemma set_handler_ok level scopeId t ok entries s : settings_ok s -> settings_ok (snd (setHandler level scopeId t ok entries s)).
Proof.
  intros Hok. unfold setHandler. destruct (first_invalid _ _); [done|]. destruct (resolveTarget _ _ _ _ _) as [|tg] eqn:Ht; [done|].
  apply resolve_ok in Ht. unfold writeMany. destruct (first_invalid _ _); [done|]. pose proof (write_each_ok tg entries s Hok Ht) as H.
  by destruct (write_each _ _ _ _) as [[e|] s'].
Qed.

Lemma reset_handler_ok level scopeId t ok key s : settings_ok s -> settings_ok (snd (resetHandler level scopeId t ok key s)).
Proof.
  intros Hok. unfold resetHandler. destruct (writableDefinition _ _) as [|def]; [done|]. destruct (resolveTarget _ _ _ _ _) as [|tg] eqn:Ht; [done|].
  apply resolve_ok in Ht. destruct (write_ok tg (JStr (sd_key def)) JNull s Hok Ht) as [H _]. by destruct (write _ _ _ _ _) as [[e|x] s'].
Qed.

Lemma clean_keys config : NoDup (map fst (clean_config config)).
Proof.
  unfold clean_config, AGENT_GROUP_CONFIG_KEYS. cbn.
  destruct (has_field "pushIntervalSeconds" config), (has_field "maxMissedPushes" config), (has_field "notificationTypes" config), (has_field "updatePolicy" config);
    by apply (bool_decide_unpack _).
Qed.

Lemma group_handler_ok gid t admin config s : settings_ok s -> settings_ok (snd (groupConfigHandler gid t admin config s)).
Proof.
  intros Hok. unfold groupConfigHandler. destruct (loadGroup _ _ _ _); [done|]. destruct config as [| | | | | |l]; try done. cbv zeta.
  destruct (_ && _); [done|]. destruct (_ && _); [done|].
  pose proof (group_config_ok gid (JObj (clean_config (JObj l))) s Hok (clean_keys _) I) as H. by destruct (updateAgentGroupConfig _ _ _) as [[[e|]|] s'].
Qed.

(** ** Groups and agents come and go *)

Lemma groups_kept f q : served_ok f -> (forall i, snd q <> G_delete i) ->
  forall g x, fo_groups f !! g = Some x -> gn_tenant <$> fo_groups (GroupTree.serve f q) !! g = Some (gn_tenant x).
Proof.
  intros [Hok Hn Hl] Hq g x Hg. assert (Hsame : gn_tenant <$> fo_groups f !! g = Some (gn_tenant x)) by (by rewrite Hg).
  destruct q as [t [data ok|i data|i np ok|i|items ok]]; cbn [GroupTree.serve snd] in *.
  - unfold createHandler. set (verdict := match cg_parentId data with Some p => _ | None => V_ok end). destruct verdict; [|done..]. destruct (negb ok); [done|].
    assert (Hne : fo_next f <> g) by (intros <-; assert (0 < fo_next f < fo_next f) by (apply (ok_ids _ Hok); eauto); lia).
    unfold create. destruct (ensureUniqueSlug _ _ _); [|done]. destruct (match cg_parentId data with Some p => _ | None => _ end); [done|]. cbv zeta.
    destruct (insert_closure [_] _); [|cbn; by rewrite lookup_insert_ne]. destruct (insert_closure _ _); cbn; by rewrite lookup_insert_ne.
  - unfold updateHandler. destruct (loadGroup _ _ _ _); [done|]. unfold update. destruct (match ug_name data with Some n => _ | None => _ end); [|done].
    destruct (fo_groups f !! i) as [y|] eqn:Hi; [|done]. cbn. destruct (decide (i = g)) as [->|]; [rewrite lookup_insert_eq; cbn; congruence|by rewrite lookup_insert_ne].
  - unfold moveHandler. destruct (loadGroup _ _ _ _); [done|]. destruct (match np with Some p => _ | None => None end); [done|]. destruct (_ && _); [done|].
    unfold move. destruct (fo_groups f !! i) as [y|] eqn:Hi; [|done]. destruct (match np with Some p => bool_decide (is_Some _) | None => false end); [done|].
    destruct (insert_closure _ _); [|done]. destruct (match np with Some p => bool_decide (_ = None) | None => false end); [done|]. cbn.
    destruct (decide (i = g)) as [->|]; [rewrite lookup_insert_eq; cbn; congruence|by rewrite lookup_insert_ne].
  - by destruct (Hq i).
  - unfold reorderHandler. destruct (bool_decide _); [done|]. destruct (List.find _ _); [done|]. destruct (negb ok); [done|]. cbn [snd reorder fo_groups].
    clear - Hsame. revert Hsame. generalize (fo_groups f). induction items as [|[i n] items IH]; intros m Hm; [done|]. cbn [fold_left]. apply IH.
    destruct (m !! i) as [y|] eqn:Hi; [|done]. destruct (gn_tenant y =? t); [|done].
    destruct (decide (i = g)) as [->|]; [rewrite lookup_insert_eq, <- Hm, Hi; done|by rewrite lookup_insert_ne].
Qed.

Lemma config_absent s g : st_configs s !! g = None -> forall k, legacy_says k (group_legacy s g k) = None.
Proof. intros H k. unfold group_legacy. rewrite H. by apply says_nothing. Qed.

(** More groups, those there were kept. *)
Lemma forest_grown_ok s f : settings_ok s -> served_ok f ->
  (forall g x, fo_groups (st_forest s) !! g = Some x -> gn_tenant <$> fo_groups f !! g = Some (gn_tenant x)) -> settings_ok (set_forest (fun _ => f) s).
Proof.
  intros Hok Hf Hk. assert (Hkeep : forall g t, gn_tenant <$> fo_groups (st_forest s) !! g = Some t -> gn_tenant <$> fo_groups f !! g = Some t).
  { intros g t H. destruct (fo_groups (st_forest s) !! g) as [x|] eqn:E; [|done]. injection H as <-. by apply Hk. }
  split; cbn [set_forest st_forest st_rows st_configs st_global st_agents]; try apply Hok; [done| | |].
  - intros l sc k v t H. apply so_rows in H as [H1 H2]; [|done]. split; [done|]. unfold row_live in *. destruct l, sc; try done. by apply Hkeep.
  - intros g c H. apply so_configs in H as [[x Hx] H2]; [|done]. split; [|done]. rewrite <- (fmap_is_Some gn_tenant). rewrite (Hkeep g (gn_tenant x)); [done|by rewrite Hx].
  - intros g _. destruct (fo_groups (st_forest s) !! g) as [x|] eqn:E; [by apply (so_group s Hok g); rewrite E|]. intros k _.
    change (own (set_forest (fun _ => f) s) L_group (Some g) k) with (own s L_group (Some g) k).
    change (group_legacy (set_forest (fun _ => f) s) g k) with (group_legacy s g k).
    rewrite config_absent; [|destruct (st_configs s !! g) eqn:Ec; [|done]; apply (so_configs s Hok) in Ec as [[y Hy] _]; congruence].
    unfold own. destruct (st_rows s !! (L_group, Some g, k)) as [[v t]|] eqn:Er; [|done]. apply (so_rows s Hok) in Er as [_ H]. cbn in H. by rewrite E in H.
Qed.

Lemma scopes_own level ids s l sc k :
  own (removeScopes level ids s) l sc k = if in_scopes level ids (l, sc, k) then None else own s l sc k.
Proof.
  unfold own, removeScopes. cbn [set_rows st_rows]. destruct (in_scopes level ids (l, sc, k)) eqn:E.
  - rewrite (proj2 (map_lookup_filter_None _ _ _)); [done|]. right. intros x _. cbn. by rewrite E.
  - destruct (st_rows s !! (l, sc, k)) as [x|] eqn:H.
    + by rewrite (proj2 (map_lookup_filter_Some _ _ _ _) (conj H E)).
    + rewrite (proj2 (map_lookup_filter_None _ _ _)); [done|by left].
Qed.

Lemma scopes_row level ids s l sc k x :
  st_rows (removeScopes level ids s) !! (l, sc, k) = Some x -> st_rows s !! (l, sc, k) = Some x /\ in_scopes level ids (l, sc, k) = false.
Proof. unfold removeScopes. cbn [set_rows st_rows]. by intros [? ?]%map_lookup_filter_Some. Qed.

Lemma in_scopes_spec level ids l sc k : in_scopes level ids (l, sc, k) = true <-> exists i, l = level /\ sc = Some i /\ In i ids.
Proof.
  unfold in_scopes. cbn [fst snd]. rewrite andb_true_iff, bool_decide_eq_true. destruct sc as [i|]; [rewrite mem_In|]; naive_solver.
Qed.
Lemma in_scopes_none level ids l sc k : (forall i, l = level -> sc = Some i -> ~ In i ids) -> in_scopes level ids (l, sc, k) = false.
Proof. intros H. apply not_true_iff_false. rewrite in_scopes_spec. naive_solver. Qed.

(** Groups removed with their columns and rows; the agents lose their group. *)
Lemma groups_removed_ok s f ids :
  settings_ok s -> served_ok f ->
  (forall g x, fo_groups f !! g = Some x <-> fo_groups (st_forest s) !! g = Some x /\ ~ In g ids) ->
  settings_ok (removeScopes L_group ids (forget_groups (fun g => negb (bool_decide (is_Some (fo_groups f !! g)))) (set_forest (fun _ => f) s))).
Proof.
  intros Hok Hf Hk. set (s1 := forget_groups _ _).
  assert (Hag : forall d a, st_agents s1 !! d = Some a -> exists a0, st_agents s !! d = Some a0 /\ ac_tenant a0 = ac_tenant a /\ forall k, agent_legacy a k = agent_legacy a0 k).
  { intros d a. unfold s1. cbn [forget_groups set_agents st_agents set_configs set_forest]. rewrite lookup_fmap.
    destruct (st_agents s !! d) as [a0|]; [|done]. intros [= <-]. exists a0. repeat case_match; done. }
  assert (Hten : forall d a, st_agents s !! d = Some a -> ac_tenant <$> st_agents s1 !! d = Some (ac_tenant a)).
  { intros d a H. unfold s1. cbn [forget_groups set_agents st_agents set_configs set_forest]. rewrite lookup_fmap, H. cbn. repeat case_match; done. }
  assert (Hcf : forall g c, st_configs s1 !! g = Some c -> st_configs s !! g = Some c /\ is_Some (fo_groups f !! g)).
  { intros g c. unfold s1. cbn [forget_groups set_agents st_configs set_configs set_forest]. intros [H E]%map_lookup_filter_Some. cbn in E. split; [done|].
    apply negb_false_iff in E. by apply bool_decide_eq_true in E. }
  assert (Hlive : forall l sc k v t, st_rows (removeScopes L_group ids s1) !! (l, sc, k) = Some (v, t) -> st_rows s !! (l, sc, k) = Some (v, t)
                    /\ (l = L_group -> forall g, sc = Some g -> ~ In g ids)).
  { intros l sc k v t [H E]%scopes_row. split; [exact H|]. intros -> g -> Hin. apply not_true_iff_false in E. apply E, in_scopes_spec. eauto. }
  split.
  - exact Hf.
  - intros l sc k v t H. apply Hlive in H as [H Hn]. apply so_rows in H as [H1 H2]; [|done]. split; [done|]. unfold row_live in *.
    destruct l, sc as [i|]; try done; cbn [removeScopes set_rows st_forest st_agents].
    + change (st_forest s1) with f. destruct (fo_groups (st_forest s) !! i) as [x|] eqn:E; [|done]. specialize (Hn eq_refl i eq_refl).
      by rewrite (proj2 (Hk i x) (conj E Hn)).
    + destruct (st_agents s !! i) as [a|] eqn:E; [|done]. rewrite (Hten i a E). exact H2.
  - intros g c H. apply Hcf in H as [H Hg]. split; [exact Hg|]. by apply (so_configs s Hok) in H as [_ ?].
  - apply (so_global_object s Hok).
  - intros g Hg. change (is_Some (fo_groups f !! g)) in Hg. pose proof Hg as [x Hx]. apply Hk in Hx as [Hx Hn].
    assert (Hm : mirrored (own s L_group (Some g)) (group_legacy s g)) by (apply so_group; eauto). intros k Hkey. rewrite scopes_own.
    rewrite in_scopes_none by (intros i _ [= <-]; done). change (own s1 L_group (Some g) k) with (own s L_group (Some g) k). rewrite Hm by done.
    assert (Ec : st_configs (removeScopes L_group ids s1) !! g = st_configs s !! g); [|unfold group_legacy; by rewrite Ec].
    unfold s1. cbn [removeScopes set_rows forget_groups set_agents st_configs set_configs set_forest]. rewrite map_lookup_filter.
    destruct (st_configs s !! g) as [c|]; [|done]. cbn. rewrite (bool_decide_true (is_Some _)) by done. done.
  - intros k Hkey. rewrite scopes_own, in_scopes_none by done. by apply (so_global s Hok).
  - intros d a H. destruct (Hag d a H) as (a0 & H0 & _ & Hl). intros k Hkey. rewrite scopes_own, in_scopes_none by done. rewrite Hl. by apply (so_agent s Hok).
Qed.

(** What a deletion leaves of the groups. *)
Lemma deleted_groups f gid : forest_ok f -> is_Some (fo_groups f !! gid) ->
  fst (fst (delete_group gid f)) = true
  /\ forall g x, fo_groups (snd (delete_group gid f)) !! g = Some x <-> fo_groups f !! g = Some x /\ ~ In g (snd (fst (delete_group gid f))).
Proof.
  intros Hok [y Hy]. unfold delete_group. rewrite Hy. cbn [fst snd fo_groups]. split; [done|]. intros g x. rewrite map_lookup_filter_Some. cbn [fst].
  rewrite dead_spec by eauto. rewrite uniq_in. assert (E : is_Some (fo_closure f !! (gid, g)) <-> In g (gid :: getDescendantIds f gid)).
  { rewrite <- (sub_spec f gid g), mem_In. unfold sub. split; [by right|]. intros [<-|H]; [|done]. apply mem_In, sub_spec. by eapply under_self. }
  by rewrite E.
Qed.

Lemma group_request_ok t r s : settings_ok s -> settings_ok (groupRequest t r s).
Proof.
  intros Hok. assert (Hgrow : forall q, (forall i, snd q <> G_delete i) -> settings_ok (set_forest (fun f => GroupTree.serve f q) s)).
  { intros q Hq. apply (forest_grown_ok s (GroupTree.serve (st_forest s) q) Hok); [apply forest_serve_ok, Hok|by apply groups_kept, Hq; apply Hok]. }
  destruct r as [data ok|i data|i np ok|i|items ok]; cbn [groupRequest]; try (by apply Hgrow).
  destruct (loadGroup i t Write (st_forest s)) as [|g] eqn:Hl; [done|]. pose proof (load_own _ _ _ _ Hl) as [Hg _].
  destruct (deleted_groups (st_forest s) i) as [Hd Hk]; [apply Hok|by rewrite Hg|].
  pose proof (forest_serve_ok (st_forest s) (t, G_delete i) (so_forest s Hok)) as Hf. cbn [GroupTree.serve] in Hf. unfold deleteHandler in Hf. rewrite Hl in Hf.
  destruct (delete_group i (st_forest s)) as [[deleted ids] f] eqn:E. cbn [fst snd] in *. subst deleted. by apply groups_removed_ok.
Qed.

Lemma enrol_ok t d ci s : settings_ok s -> settings_ok (serve s (t, S_enrol d ci)).
Proof.
  intros Hok. cbn [serve]. destruct (st_agents s !! d) eqn:Hd; [done|]. split; cbn [set_agents st_agents st_forest st_rows st_configs st_global]; try apply Hok.
  - intros l sc k v tn H. apply so_rows in H as [H1 H2]; [|done]. split; [done|]. unfold row_live in *. destruct l, sc as [i|]; try done.
    cbn [set_agents st_agents]. rewrite lookup_insert. case_decide as E; [subst i; by rewrite Hd in H2|done].
  - intros i a [[<- <-]|[Hn H]]%lookup_insert_Some; [|by apply (so_agent s Hok)]. intros k Hk. unfold own. cbn [set_agents st_rows].
    destruct (st_rows s !! (L_agent, Some d, k)) as [[v tn]|] eqn:Er; [apply (so_rows s Hok) in Er as [_ H]; cbn in H; by rewrite Hd in H|].
    repeat (apply elem_of_cons in Hk as [->|Hk]; [done|]). by apply elem_of_nil in Hk.
Qed.

Lemma delete_agents_ok t ids s : settings_ok s -> settings_ok (serve s (t, S_delete ids)).
Proof.
  intros Hok. cbn [serve]. cbv zeta. set (gone := List.filter _ ids). set (s1 := set_agents _ s).
  assert (Hag : forall d a, st_agents s1 !! d = Some a <-> st_agents s !! d = Some a /\ ~ In d gone).
  { intros d a. unfold s1. cbn [set_agents st_agents]. rewrite map_lookup_filter_Some. cbn [fst]. by rewrite <- not_true_iff_false, mem_In. }
  split; try apply Hok.
  - intros l sc k v tn H. apply scopes_row in H as [H E]. apply (so_rows s Hok) in H as [H1 H2]. split; [done|]. unfold row_live in *.
    destruct l, sc as [i|]; try done. cbn [removeScopes set_rows st_agents]. destruct (st_agents s !! i) as [a|] eqn:Ea; [|done].
    assert (Hn : ~ In i gone) by (intros Hin; apply not_true_iff_false in E; apply E, in_scopes_spec; eauto). by rewrite (proj2 (Hag i a) (conj Ea Hn)).
  - intros g Hg k Hk. rewrite scopes_own, in_scopes_none by done. by apply (so_group s Hok).
  - intros k Hk. rewrite scopes_own, in_scopes_none by done. by apply (so_global s Hok).
  - intros d a H. apply Hag in H as [H Hn]. intros k Hk. rewrite scopes_own, in_scopes_none by (intros i _ [= <-]; done). by apply (so_agent s Hok).
Qed.

Lemma settings_serve_ok s q : settings_ok s -> settings_ok (serve s q).
Proof.
  intros Hok. destruct q as [t [level i ok entries|level i ok key|i admin config|admin body|i data|on ids|r|d ci|ids]].
  - by apply set_handler_ok.
  - by apply reset_handler_ok.
  - by apply group_handler_ok.
  - cbn [serve]. destruct admin; [by apply global_patch_ok|done].
  - cbn [serve]. destruct (st_agents s !! i); [|done]. destruct (_ =? _); [by apply settings_update_device_ok|done].
  - by apply bulk_override_ok.
  - by apply group_request_ok.
  - by apply enrol_ok.
  - by apply delete_agents_ok.
Qed.

Lemma settings_ok_empty : settings_ok empty_settings.
Proof.
  split; cbn [empty_settings st_forest st_rows st_configs st_global st_agents].
  - apply served_ok_empty.
  - intros l sc k v t H. by rewrite lookup_empty in H.
  - intros g c H. by rewrite lookup_empty in H.
  - by apply (bool_decide_unpack _).
  - intros g Hg. cbn in Hg. rewrite lookup_empty in Hg. by destruct Hg.
  - intros k Hk. repeat (apply elem_of_cons in Hk as [->|Hk]; [done|]). by apply elem_of_nil in Hk.
  - intros d a H. by rewrite lookup_empty in H.
Qed.

Lemma settings_ok_run requests : settings_ok (fold_left serve requests empty_settings).
Proof.
  assert (H : forall s, settings_ok s -> settings_ok (fold_left serve requests s)).
  { induction requests as [|q l IH]; intros s Hs; [done|]. apply IH. by apply settings_serve_ok. }
  apply H, settings_ok_empty.
Qed.

(** C34. Whatever sequence of writes, resets, older endpoints, group and agent changes: every row
    holds a valid value of a key of its level, belongs to the tenant of its group or agent,
    which still exists, and the columns the rows replace say the same as the rows for every
    group, every agent and the global level. *)
Theorem settings_consistent requests :
  let s := fold_left serve requests empty_settings in
  (forall l sc k v t, st_rows s !! (l, sc, k) = Some (v, t) -> row_valid l k v /\ row_live s l sc t)
  /\ (forall g k, is_Some (fo_groups (st_forest s) !! g) -> k ∈ LEGACY_KEYS -> own s L_group (Some g) k = legacy_says k (group_legacy s g k))
  /\ (forall d a k, st_agents s !! d = Some a -> k ∈ LEGACY_KEYS -> own s L_agent (Some d) k = legacy_says k (agent_legacy a k))
  /\ (forall k, k ∈ LEGACY_KEYS -> own s L_global None k = legacy_says k (get_field k (st_global s))).
Proof.
  cbv zeta. destruct (settings_ok_run requests) as [_ Hr _ _ Hg Hgl Ha]. split_and!; [done| | |done].
  - intros g k H. by apply Hg.
  - intros d a k H. by apply Ha.
Qed.
