(* ===== verification/SettingsResolve.v ===== *)
(** * Settings resolution ([server/src/services/agentConfig.service.ts])

    The one cascade every agent knob goes through: default, global, tenant, the groups of the
    chain from the root down, the agent. A snapshot of the rows, groups and closure is read,
    the chain of a device built from it, and each key resolved with its source. *)

From Stdlib Require Import Sorting.Sorted.
From S2P Require Import Prelude JsString JsValue JsJson Tenancy Access Query GroupTree SettingsStore SettingsSync.

(** ** Snapshot *)

Record GroupInfo := { gi_name : string; gi_tenant : Z; gi_evaluate_only : bool }.

(** [sn_ancestry]: a group's ancestors, itself first. *)
Record Snapshot := {
  sn_rows : gmap string (gmap string SettingValue); sn_groups : gmap Z GroupInfo; sn_ancestry : gmap Z (list Z);
  sn_tenants : gmap Z string
}.

Definition CASCADE_DEFS : list SettingDefinition := List.filter (fun d => negb (bool_decide (sd_resolution d = External))) SETTINGS_DEFINITIONS.
Definition STORED_KEYS : list string := map sd_key (List.filter (fun d => negb (bool_decide (sd_resolution d = AnyTrue))) CASCADE_DEFS).

Definition level_name (l : SettingLevel) : string :=
  match l with L_global => "global" | L_tenant => "tenant" | L_group => "group" | L_agent => "agent" end.
Definition rowKey (l : SettingLevel) (scopeId : option Z) : string :=
  level_name l +:+ ":" +:+ match scopeId with Some i => dec i | None => "" end.

Definition add_row (k : RowKey) (x : SettingValue * Z) (m : gmap string (gmap string SettingValue)) : gmap string (gmap string SettingValue) :=
  if existsb (String.eqb (snd k)) STORED_KEYS
  then let rk := rowKey (fst (fst k)) (snd (fst k)) in <[rk := <[snd k := fst x]> (default ∅ (m !! rk))]> m
  else m.
(** [list.push(ancestor)] of the descendant. *)
Definition add_ancestor (m : gmap Z (list Z)) (c : Z * Z * Z) : gmap Z (list Z) :=
  let '(a, d, _) := c in <[d := default [] (m !! d) ++ [a]]> m.
(** ORDER BY descendant_id, depth *)
Definition closure_before (x y : Z * Z * Z) : bool :=
  let '(_, d, k) := x in let '(_, d', k') := y in (d <? d') || ((d =? d') && (k <=? k')).

(** The four queries of [loadSnapshot] run on their own: each may see another state of the
    database. *)
Definition loadFrom (rows groups closure tenants : SettingsDb) : Snapshot :=
  {| sn_rows := map_fold add_row ∅ (st_rows rows);
     sn_groups := (fun g => {| gi_name := gn_name g; gi_tenant := gn_tenant g; gi_evaluate_only := gn_evaluate_only g |}) <$> fo_groups (st_forest groups);
     sn_ancestry := fold_left add_ancestor (order_by closure_before (map_to_list (fo_closure (st_forest closure)))) ∅;
     sn_tenants := st_tenants tenants |}.
(** Read while nothing is written. *)
Definition loadSnapshot (s : SettingsDb) : Snapshot := loadFrom s s s s.

(** ** One chain *)

Record ChainLevel := { cl_level : SettingLevel; cl_scope : option Z; cl_name : string; cl_evaluate_only : bool }.

(** A stored value usable for the key; anything else is ignored. *)
Definition coerce (def : SettingDefinition) (raw : SettingValue) : option SettingValue :=
  match sd_type def, raw with
  | T_number, V_num z => if within (sd_min def) (sd_max def) z then Some raw else None
  | T_boolean, V_bool _ => Some raw
  | T_enum, V_text s => if existsb (String.eqb s) (sd_options def) then Some raw else None
  | T_flags, V_flags _ => Some raw
  | _, _ => None
  end.

(** The source of a value: [None] is the default. *)
Record Source := { src_level : option SettingLevel; src_id : option Z; src_name : string }.
Definition DEFAULT_SOURCE : Source := {| src_level := None; src_id := None; src_name := "Default" |}.
Definition source_of (l : ChainLevel) : Source := {| src_level := Some (cl_level l); src_id := cl_scope l; src_name := cl_name l |}.
Record ResolvedValue := { rv_value : SettingValue; rv_source : Source; rv_fields : gmap string (bool * Source) }.

(** [snap.rows.get(rowKey(...))?.get(def.key)] *)
Definition stored_at (snap : Snapshot) (l : SettingLevel) (scopeId : option Z) (key : string) : option SettingValue :=
  sn_rows snap !! rowKey l scopeId ≫= fun m => m !! key.
Definition explicit (snap : Snapshot) (def : SettingDefinition) (lvl : ChainLevel) : option SettingValue :=
  stored_at snap (cl_level lvl) (cl_scope lvl) (sd_key def) ≫= coerce def.

Definition resolve_any (def : SettingDefinition) (chain : list ChainLevel) : ResolvedValue :=
  match fold_left (fun hit lvl => if cl_evaluate_only lvl then Some lvl else hit) chain None with
  | Some hit => {| rv_value := V_bool true; rv_source := source_of hit; rv_fields := ∅ |}
  | None => {| rv_value := sd_default def; rv_source := DEFAULT_SOURCE; rv_fields := ∅ |}
  end.

Definition FieldState := (gmap string (bool * Source) * option ChainLevel)%type.
Definition read_field (raw : Flags) (lvl : ChainLevel) (st : FieldState) (f : string) : FieldState :=
  match raw !! f with
  | Some b => (<[f := (b, source_of lvl)]> (fst st), Some lvl)
  | None => st
  end.
Definition read_level (snap : Snapshot) (def : SettingDefinition) (st : FieldState) (lvl : ChainLevel) : FieldState :=
  match explicit snap def lvl with
  | Some (V_flags raw) => fold_left (read_field raw lvl) NOTIFICATION_TYPE_FIELDS st
  | _ => st
  end.
Definition default_flags (def : SettingDefinition) : Flags := match sd_default def with V_flags f => f | _ => ∅ end.
Definition default_fields (def : SettingDefinition) : gmap string (bool * Source) :=
  list_to_map (map (fun f => (f, (default false (default_flags def !! f), DEFAULT_SOURCE))) NOTIFICATION_TYPE_FIELDS).
Definition resolve_fields (snap : Snapshot) (def : SettingDefinition) (chain : list ChainLevel) : ResolvedValue :=
  let '(fields, nearest) := fold_left (read_level snap def) chain (default_fields def, None) in
  {| rv_value := V_flags (fst <$> fields); rv_source := match nearest with Some l => source_of l | None => DEFAULT_SOURCE end; rv_fields := fields |}.

Definition resolve_nearest (snap : Snapshot) (def : SettingDefinition) (chain : list ChainLevel) : ResolvedValue :=
  fold_left (fun res lvl => match explicit snap def lvl with
                            | Some v => {| rv_value := v; rv_source := source_of lvl; rv_fields := ∅ |}
                            | None => res
                            end) chain {| rv_value := sd_default def; rv_source := DEFAULT_SOURCE; rv_fields := ∅ |}.

Definition resolve_one (snap : Snapshot) (chain : list ChainLevel) (def : SettingDefinition) : ResolvedValue :=
  match sd_resolution def with
  | AnyTrue => resolve_any def chain
  | PerField => resolve_fields snap def chain
  | _ => resolve_nearest snap def chain
  end.
Definition resolveChain (snap : Snapshot) (chain : list ChainLevel) : gmap string ResolvedValue :=
  fold_left (fun out def => <[sd_key def := resolve_one snap chain def]> out) CASCADE_DEFS ∅.

(** ** The levels of a device *)

Definition tenantLevel (snap : Snapshot) (t : Z) : ChainLevel :=
  {| cl_level := L_tenant; cl_scope := Some t; cl_name := default ("Tenant " +:+ dec t) (sn_tenants snap !! t); cl_evaluate_only := false |}.
(** Root first, the groups of the tenant only; [withSelf] false drops the group itself. *)
Definition groupLevels (snap : Snapshot) (groupId : option Z) (t : Z) (withSelf : bool) : list ChainLevel :=
  match groupId with
  | None => []
  | Some g =>
      omap (fun i => if negb withSelf && (i =? g) then None
                     else match sn_groups snap !! i with
                          | Some x => if gi_tenant x =? t
                                      then Some {| cl_level := L_group; cl_scope := Some i; cl_name := gi_name x; cl_evaluate_only := gi_evaluate_only x |}
                                      else None
                          | None => None
                          end) (rev (default [g] (sn_ancestry snap !! g)))
  end.
Definition GLOBAL_LEVEL : ChainLevel := {| cl_level := L_global; cl_scope := None; cl_name := "Global"; cl_evaluate_only := false |}.

Record DeviceConfigRef := { dr_id : Z; dr_tenant : Z; dr_group : option Z; dr_evaluate_only : bool }.
Definition agent_level (i : Z) (dry : bool) : ChainLevel :=
  {| cl_level := L_agent; cl_scope := Some i; cl_name := "This agent"; cl_evaluate_only := dry |}.
Definition deviceChain (snap : Snapshot) (ref : DeviceConfigRef) : list ChainLevel :=
  [GLOBAL_LEVEL; tenantLevel snap (dr_tenant ref)] ++ groupLevels snap (dr_group ref) (dr_tenant ref) true
  ++ [agent_level (dr_id ref) (dr_evaluate_only ref)].

(** ** Operations *)

Record ResolvedAgentSettings := {
  ra_checkInterval : Z; ra_maxMissed : Z; ra_evaluateOnly : bool; ra_autoBan : bool; ra_backend : string; ra_types : Flags;
  ra_sources : gmap string ResolvedValue
}.
Definition as_num (v : option ResolvedValue) : Z := match v with Some {| rv_value := V_num z |} => z | _ => 0 end.
Definition as_bool (v : option ResolvedValue) : bool := match v with Some {| rv_value := V_bool b |} => b | _ => false end.
Definition as_text (v : option ResolvedValue) : string := match v with Some {| rv_value := V_text s |} => s | _ => "" end.
Definition as_flags (v : option ResolvedValue) : Flags := match v with Some {| rv_value := V_flags f |} => f | _ => ∅ end.
Definition toSettings (m : gmap string ResolvedValue) : ResolvedAgentSettings :=
  {| ra_checkInterval := as_num (m !! "checkIntervalSeconds"); ra_maxMissed := as_num (m !! "maxMissedPushes");
     ra_evaluateOnly := as_bool (m !! "evaluateOnly"); ra_autoBan := as_bool (m !! "autoBanEnabled");
     ra_backend := as_text (m !! "windowsFirewallBackend"); ra_types := as_flags (m !! "notificationTypes"); ra_sources := m |}.

Definition resolveForDevice (snap : Snapshot) (ref : DeviceConfigRef) : ResolvedAgentSettings := toSettings (resolveChain snap (deviceChain snap ref)).
Definition resolveForDevices (snap : Snapshot) (refs : list DeviceConfigRef) : gmap Z ResolvedAgentSettings :=
  fold_left (fun out ref => <[dr_id ref := resolveForDevice snap ref]> out) refs ∅.

Definition refOf (d : Z) (a : AgentColumns) : DeviceConfigRef :=
  {| dr_id := d; dr_tenant := ac_tenant a; dr_group := ac_group a; dr_evaluate_only := ac_evaluate_only a |}.
Definition resolveForDeviceId (snap : Snapshot) (s : SettingsDb) (d : Z) : option ResolvedAgentSettings :=
  (fun a => resolveForDevice snap (refOf d a)) <$> st_agents s !! d.

Definition DEFAULT_GRACE_MS : Z := 60 * 2 * 1000.
(** [lookup]: the resolved settings, [None] when the device is gone or the lookup failed. *)
Definition offlineGraceMs (lookup : option ResolvedAgentSettings) : Z :=
  match lookup with Some r => ra_checkInterval r * ra_maxMissed r * 1000 | None => DEFAULT_GRACE_MS end.
Definition resolveNotificationTypesForDevice (lookup : option ResolvedAgentSettings) : Flags :=
  match lookup with Some r => ra_types r | None => all_true end.
Definition autoBanDisabledIds (snap : Snapshot) (refs : list DeviceConfigRef) : gset Z :=
  dom (filter (fun kv : Z * ResolvedAgentSettings => ra_autoBan (snd kv) = false) (resolveForDevices snap refs)).

(** The settings view of a level, without the update policy's lines. *)
Record ScopeView := {
  sv_resolved : gmap string ResolvedValue; sv_overrides : gmap string SettingValue; sv_effective : gmap string ResolvedValue
}.
Definition view_levels (snap : Snapshot) (level : SettingLevel) (scopeId : Z) (owner : Z) (s : SettingsDb) : list ChainLevel * ChainLevel :=
  match level with
  | L_global => ([], GLOBAL_LEVEL)
  | L_tenant => ([GLOBAL_LEVEL], tenantLevel snap scopeId)
  | L_group =>
      let g := sn_groups snap !! scopeId in
      ([GLOBAL_LEVEL; tenantLevel snap owner] ++ groupLevels snap (Some scopeId) owner false,
       {| cl_level := L_group; cl_scope := Some scopeId; cl_name := match g with Some x => gi_name x | None => "Group " +:+ dec scopeId end;
          cl_evaluate_only := match g with Some x => gi_evaluate_only x | None => false end |})
  | L_agent =>
      let ref := match st_agents s !! scopeId with
                 | Some a => refOf scopeId a
                 | None => {| dr_id := scopeId; dr_tenant := owner; dr_group := None; dr_evaluate_only := false |}
                 end in
      ([GLOBAL_LEVEL; tenantLevel snap (dr_tenant ref)] ++ groupLevels snap (dr_group ref) (dr_tenant ref) true,
       agent_level scopeId (dr_evaluate_only ref))
  end.
Definition getScopeView (snap : Snapshot) (level : SettingLevel) (scopeId : Z) (owner : Z) (s : SettingsDb) : ScopeView :=
  let '(above, self) := view_levels snap level scopeId owner s in
  {| sv_resolved := resolveChain snap above;
     sv_overrides := getOwn level (if bool_decide (level = L_global) then None else Some scopeId) s;
     sv_effective := resolveChain snap (above ++ [self]) |}.

(** ** The snapshot holds the rows *)

Lemma dec_nonempty i : is_empty (dec i) = false.
Proof. unfold dec. destruct (i <? 0); [done|]. apply to_base_nonempty. Qed.

Lemma rowKey_inj l sc l' sc' : rowKey l sc = rowKey l' sc' -> l = l' /\ sc = sc'.
Proof.
  unfold rowKey. change (":" +:+ ?x) with (String ":" x). intros H.
  apply split_head_inj in H as [Hl Hs]; [|by destruct l|by destruct l']. split; [by destruct l, l'|].
  destruct sc as [i|], sc' as [j|]; [f_equal; by apply dec_inj| | |done].
  - by pose proof (dec_nonempty i) as Hn; rewrite Hs in Hn.
  - by pose proof (dec_nonempty j) as Hn; rewrite <- Hs in Hn.
Qed.

Lemma stored_key k : existsb (String.eqb k) STORED_KEYS = bool_decide (k ∈ STORED_KEYS).
Proof.
  apply eq_bool_prop_intro. rewrite bool_decide_spec, Is_true_true, existsb_exists. split.
  - intros (x & Hx & E). apply String.eqb_eq in E as ->. by apply list_elem_of_In.
  - intros H. exists k. split; [by apply list_elem_of_In|apply String.eqb_refl].
Qed.

Lemma stored_lookup s l sc k : stored_at (loadSnapshot s) l sc k = if bool_decide (k ∈ STORED_KEYS) then own s l sc k else None.
Proof.
  unfold stored_at, own. cbn [loadSnapshot loadFrom sn_rows]. revert l sc k.
  apply (map_fold_weak_ind (fun (r : gmap string (gmap string SettingValue)) m => forall l sc k, (r !! rowKey l sc ≫= fun x => x !! k) = if bool_decide (k ∈ STORED_KEYS) then fst <$> m !! (l, sc, k) else None)).
  - intros l sc k. rewrite !lookup_empty. by case_bool_decide.
  - intros [[l0 sc0] k0] [v t] m r Hm IH l sc k. unfold add_row. cbn [fst snd]. rewrite stored_key. rewrite lookup_insert. case_decide as E.
    + injection E as -> -> ->. case_bool_decide; [|by rewrite IH, bool_decide_false]. rewrite lookup_insert_eq. cbn. by rewrite lookup_insert_eq.
    + rewrite <- IH. case_bool_decide; [|done]. rewrite lookup_insert. case_decide as Er; [|done]. apply rowKey_inj in Er as [-> ->]. cbn.
      rewrite lookup_insert_ne by congruence. by destruct (r !! rowKey l sc).
Qed.

(** ** The ancestry is the chain of parents *)

(** The groups of a chain, nearest first. *)
Fixpoint parents (groups : gmap Z GroupNode) (fuel : nat) (g : Z) : list Z :=
  match fuel, groups !! g with
  | S fuel, Some x => g :: match gn_parent x with Some p => parents groups fuel p | None => [] end
  | _, _ => []
  end.
Definition group_chain (s : Forest) (g : Z) : list Z := parents (fo_groups s) (size (fo_groups s)) g.

Lemma parents_lookup groups fuel g i : parents groups fuel g !! i = if bool_decide (i < fuel)%nat then up groups i g else None.
Proof.
  revert g i. induction fuel as [|fuel IH]; intros g i; cbn [parents]; [by rewrite bool_decide_false by lia|].
  destruct (groups !! g) as [x|] eqn:E.
  - destruct i as [|i]; cbn [up]; rewrite E; [by rewrite bool_decide_true by lia|].
    assert (Hb : bool_decide (S i < S fuel)%nat = bool_decide (i < fuel)%nat) by (apply bool_decide_ext; lia). rewrite Hb.
    destruct (gn_parent x) as [p|]; [by apply (IH p)|clear Hb; by destruct (bool_decide _)].
  - destruct i; cbn [up]; rewrite E; by destruct (bool_decide _).
Qed.

Lemma chain_lookup s g i : closure_exact s -> group_chain s g !! i = up (fo_groups s) i g.
Proof.
  intros Hc. unfold group_chain. rewrite parents_lookup. case_bool_decide; [done|]. destruct (up (fo_groups s) i g) as [a|] eqn:E; [|done].
  apply up_bounded in E; [|done]. lia.
Qed.

(** A sorted list of distinct integers without a gap counts from its start. *)
Lemma downset_index c l i k :
  StronglySorted Z.le l -> NoDup l -> (forall x, x ∈ l -> c <= x /\ (c < x -> x - 1 ∈ l)) -> l !! i = Some k -> k = c + Z.of_nat i.
Proof.
  revert c i. induction l as [|x l IH]; intros c i Hs Hn Hd Hi; [done|]. apply StronglySorted_inv in Hs as [Hs Hx]. rewrite List.Forall_forall in Hx.
  apply NoDup_cons in Hn as [Hxn Hn]. assert (Hle : forall y, y ∈ l -> x <= y) by (intros y Hy; by apply Hx, list_elem_of_In).
  assert (x = c) as ->. { destruct (Hd x ltac:(set_solver)) as [H1 H2]. destruct (decide (c < x)) as [Hlt|]; [|lia].
    specialize (H2 Hlt). apply elem_of_cons in H2 as [H2|H2]; [lia|]. specialize (Hle _ H2). lia. }
  destruct i as [|i]; [cbn in Hi; injection Hi as <-; lia|]. cbn in Hi. rewrite (IH (c + 1) i Hs Hn); [lia| |done].
  intros y Hy. destruct (Hd y ltac:(set_solver)) as [H1 H2]. assert (y <> c) by (intros ->; done). split; [lia|]. intros Hlt.
  assert (Hy' : y - 1 ∈ c :: l) by (apply H2; lia). apply elem_of_cons in Hy' as [E|]; [lia|done].
Qed.

Lemma sorted_filter {A} (R : A -> A -> Prop) (p : A -> bool) l : StronglySorted R l -> StronglySorted R (List.filter p l).
Proof.
  induction 1 as [|x l Hs IH Hx]; cbn; [constructor|]. destruct (p x); [|done]. constructor; [done|].
  rewrite List.Forall_forall in Hx |- *. intros y Hy. apply filter_In in Hy as [Hy _]. by apply Hx.
Qed.

Lemma sorted_map {A B} (R : A -> A -> Prop) (R' : B -> B -> Prop) (f : A -> B) l :
  StronglySorted R l -> (forall x y, In x l -> In y l -> R x y -> R' (f x) (f y)) -> StronglySorted R' (map f l).
Proof.
  induction 1 as [|x l Hs IH Hx]; intros H; cbn; [constructor|]. constructor; [apply IH; intros; by apply H; [right|right|]|].
  rewrite List.Forall_forall in Hx |- *. intros y Hy. apply in_map_iff in Hy as (z & <- & Hz). apply H; [by left|by right|by apply Hx].
Qed.

Lemma closure_before_spec a d k a' d' k' : closure_before (a, d, k) (a', d', k') = true <-> d < d' \/ d = d' /\ k <= k'.
Proof. unfold closure_before. rewrite orb_true_iff, andb_true_iff, Z.ltb_lt, Z.eqb_eq, Z.leb_le. done. Qed.

Definition closure_rows (s : Forest) : list (Z * Z * Z) := order_by closure_before (map_to_list (fo_closure s)).
Definition rows_of (s : Forest) (d : Z) : list (Z * Z * Z) := List.filter (fun c => snd (fst c) =? d) (closure_rows s).

Lemma ancestry_rows l m d :
  let own := map (fun c => fst (fst c)) (List.filter (fun c : Z * Z * Z => snd (fst c) =? d) l) in
  fold_left add_ancestor l m !! d = match own with [] => m !! d | _ => Some (default [] (m !! d) ++ own) end.
Proof.
  cbv zeta. revert m. induction l as [|[[a d'] k] l IH]; intros m; [done|]. cbn [fold_left List.filter fst snd]. rewrite IH. cbn [add_ancestor].
  destruct (Z.eqb_spec d' d) as [->|Hn]; [|by rewrite lookup_insert_ne by done]. rewrite lookup_insert_eq. cbn [map default fst].
  destruct (map _ (List.filter _ l)) as [|x r]; [done|]. cbn [id]. by rewrite <- (assoc_L (++)).
Qed.

Lemma rows_of_In s d c : In c (rows_of s d) <-> snd (fst c) = d /\ fo_closure s !! fst c = Some (snd c).
Proof.
  unfold rows_of, closure_rows. rewrite filter_In, order_by_In, Z.eqb_eq, <- list_elem_of_In. destruct c as [ad k]. cbn [fst snd].
  rewrite elem_of_map_to_list. tauto.
Qed.

Lemma rows_of_index s d i c : closure_exact s -> rows_of s d !! i = Some c -> snd c = Z.of_nat i.
Proof.
  intros Hc Hi. set (D := map snd (rows_of s d)). assert (HD : forall k, k ∈ D <-> exists a, fo_closure s !! (a, d) = Some k).
  { intros k. unfold D. rewrite list_elem_of_In, in_map_iff. split.
    - intros ([[a d'] k'] & <- & H). apply rows_of_In in H as [E H]. cbn in *. subst d'. eauto.
    - intros [a Ha]. exists ((a, d), k). split; [done|]. by apply rows_of_In. }
  change (snd c = 0 + Z.of_nat i). apply (downset_index 0 D i).
  - unfold D. apply (sorted_map (fun x y => closure_before x y = true)).
    + apply sorted_filter. apply Sorted_StronglySorted.
      * intros [[? ?] ?] [[? ?] ?] [[? ?] ?]. rewrite !closure_before_spec. lia.
      * apply order_by_sorted. intros [[? ?] ?] [[? ?] ?]. rewrite <- not_true_iff_false, !closure_before_spec. lia.
    + intros [[a x] k] [[a' x'] k'] Hx Hy. apply rows_of_In in Hx as [E _], Hy as [E' _]. cbn in E, E'. subst x x'. rewrite closure_before_spec. cbn [snd]. lia.
  - unfold D. change (map snd (rows_of s d)) with (snd <$> rows_of s d). apply NoDup_fmap_2_strong.
    + intros [[a x] k] [[a' x'] k'] Hx Hy. rewrite list_elem_of_In in Hx, Hy. apply rows_of_In in Hx as [E Hx], Hy as [E' Hy]. cbn in *. subst x x'. intros <-.
      apply Hc in Hx as (n & -> & Hx), Hy as (n' & E & Hy). apply Nat2Z.inj in E as <-. congruence.
    + rewrite <- (map_id (rows_of s d)). apply NoDup_map_filter. rewrite map_id. unfold closure_rows. rewrite order_by_perm. apply NoDup_map_to_list.
  - intros k Hk. apply HD in Hk as [a Ha]. pose proof Ha as Ha'. apply Hc in Ha as (n & -> & Ha). split; [lia|]. intros Hlt. apply HD.
    destruct n as [|n]; [lia|]. replace (Z.of_nat (S n) - 1) with (Z.of_nat n) by lia. replace (S n) with (n + 1)%nat in Ha by lia. rewrite up_add in Ha.
    destruct (up (fo_groups s) n d) as [b|] eqn:Eb; [|done]. exists b. apply Hc. eauto.
  - unfold D. rewrite list_lookup_fmap, Hi. done.
Qed.

Lemma rows_chain s d : closure_exact s -> map (fun c => fst (fst c)) (rows_of s d) = group_chain s d.
Proof.
  intros Hc. apply list_eq. intros i. rewrite list_lookup_fmap, chain_lookup by done. destruct (rows_of s d !! i) as [c|] eqn:Ei; cbn [fmap option_fmap option_map].
  - pose proof (rows_of_index s d i c Hc Ei) as Hk. apply list_elem_of_lookup_2, list_elem_of_In, rows_of_In in Ei as [Ed Ei]. destruct c as [[a d'] k]. cbn in *. subst d' k.
    apply closure_up in Ei as [_ Ei]; [|done]. by rewrite Nat2Z.id in Ei.
  - destruct (up (fo_groups s) i d) as [a|] eqn:Eu; [|done]. exfalso. assert (Hin : In ((a, d), Z.of_nat i) (rows_of s d)).
    { apply rows_of_In. split; [done|]. apply Hc. eauto. }
    apply list_elem_of_In, list_elem_of_lookup in Hin as [j Hj]. pose proof (rows_of_index s d j _ Hc Hj) as E. cbn in E. apply Nat2Z.inj in E as <-. congruence.
Qed.

Lemma ancestry_chain s g : closure_exact (st_forest s) ->
  default [g] (sn_ancestry (loadSnapshot s) !! g) = match group_chain (st_forest s) g with [] => [g] | l => l end.
Proof.
  intros Hc. cbn [loadSnapshot loadFrom sn_ancestry]. rewrite ancestry_rows, lookup_empty. fold (closure_rows (st_forest s)). fold (rows_of (st_forest s) g).
  rewrite rows_chain by done. by destruct (group_chain _ g).
Qed.

Lemma omap_rev {A B} (f : A -> option B) l : omap f (rev l) = rev (omap f l).
Proof.
  induction l as [|x l IH]; [done|]. cbn [rev]. rewrite omap_app, IH. change (omap f (x :: l)) with (match f x with Some y => y :: omap f l | None => omap f l end).
  change (omap f [x]) with (match f x with Some y => [y] | None => [] end). destruct (f x); [done|by rewrite app_nil_r].
Qed.

(** The level of a group of the tenant. *)
Definition group_level (s : SettingsDb) (t : Z) (g : Z) : option ChainLevel :=
  match fo_groups (st_forest s) !! g with
  | Some x => if gn_tenant x =? t then Some {| cl_level := L_group; cl_scope := Some g; cl_name := gn_name x; cl_evaluate_only := gn_evaluate_only x |} else None
  | None => None
  end.

Lemma group_levels s g t : closure_exact (st_forest s) ->
  groupLevels (loadSnapshot s) (Some g) t true = rev (omap (group_level s t) (group_chain (st_forest s) g)).
Proof.
  intros Hc. unfold groupLevels. rewrite ancestry_chain, omap_rev by done. f_equal. cbn [negb andb].
  assert (E : forall l, omap (M:=list) (fun i => match sn_groups (loadSnapshot s) !! i with
      | Some x => if gi_tenant x =? t then Some {| cl_level := L_group; cl_scope := Some i; cl_name := gi_name x; cl_evaluate_only := gi_evaluate_only x |} else None
      | None => None end) l = omap (M:=list) (group_level s t) l).
  { intros l. apply list_omap_ext. apply Forall2_same_length_lookup. split; [done|]. intros j x y Hx Hy. assert (x = y) as <- by congruence.
    unfold group_level. cbn [loadSnapshot loadFrom sn_groups]. rewrite lookup_fmap. by destruct (fo_groups (st_forest s) !! x). }
  rewrite E. destruct (group_chain (st_forest s) g) as [|x l] eqn:Eg; [|done]. cbn. unfold group_level.
  pose proof (chain_lookup (st_forest s) g 0 Hc) as H. rewrite Eg in H. cbn in H. by destruct (fo_groups (st_forest s) !! g).
Qed.

(** ** Each rule is a search from the nearest level *)

Section First.
Context {A B : Type}.
Fixpoint first_of (f : A -> option B) (l : list A) : option (A * B) :=
  match l with
  | [] => None
  | x :: l => match f x with Some v => Some (x, v) | None => first_of f l end
  end.

Lemma fold_nearest {R} (f : A -> option B) (k : A -> B -> R) l d :
  fold_left (fun r x => match f x with Some v => k x v | None => r end) l d = match first_of f (rev l) with Some (x, v) => k x v | None => d end.
Proof.
  induction l as [|x l IH] using rev_ind; [done|]. rewrite fold_left_app, rev_app_distr. cbn. destruct (f x); [done|apply IH].
Qed.
End First.

Lemma first_of_map {A A' B} (f : A' -> option B) (h : A -> A') l : first_of f (map h l) = (fun xv => (h (fst xv), snd xv)) <$> first_of (fun x => f (h x)) l.
Proof. induction l as [|x l IH]; [done|]. cbn. by destruct (f (h x)). Qed.
Lemma first_of_ext {A B} (f g : A -> option B) l : (forall x, f x = g x) -> first_of f l = first_of g l.
Proof. intros H. induction l as [|x l IH]; [done|]. cbn. by rewrite H, IH. Qed.

Lemma resolve_nearest_search snap def chain :
  resolve_nearest snap def chain = match first_of (explicit snap def) (rev chain) with
    | Some (lvl, v) => {| rv_value := v; rv_source := source_of lvl; rv_fields := ∅ |}
    | None => {| rv_value := sd_default def; rv_source := DEFAULT_SOURCE; rv_fields := ∅ |} end.
Proof. apply (fold_nearest (explicit snap def)). Qed.

Definition flagged (lvl : ChainLevel) : option unit := if cl_evaluate_only lvl then Some tt else None.
Lemma resolve_any_search def chain :
  resolve_any def chain = match first_of flagged (rev chain) with
    | Some (lvl, _) => {| rv_value := V_bool true; rv_source := source_of lvl; rv_fields := ∅ |}
    | None => {| rv_value := sd_default def; rv_source := DEFAULT_SOURCE; rv_fields := ∅ |} end.
Proof.
  unfold resolve_any. assert (E : forall h, fold_left (fun hit lvl => if cl_evaluate_only lvl then Some lvl else hit) chain h
    = fold_left (fun r x => match flagged x with Some v => (fun x _ => Some x) x v | None => r end) chain h).
  { induction chain as [|x chain IH]; intros h; [done|]. cbn. unfold flagged at 2. by destruct (cl_evaluate_only x). }
  rewrite E, fold_nearest. by destruct (first_of flagged (rev chain)) as [[lvl []]|].
Qed.

Definition field_at (snap : Snapshot) (def : SettingDefinition) (f : string) (lvl : ChainLevel) : option bool :=
  match explicit snap def lvl with Some (V_flags raw) => raw !! f | _ => None end.

Lemma read_field_lookup raw lvl keys st f :
  fst (fold_left (read_field raw lvl) keys st) !! f
  = if bool_decide (f ∈ keys) then match raw !! f with Some b => Some (b, source_of lvl) | None => fst st !! f end else fst st !! f.
Proof.
  revert st. induction keys as [|x keys IH]; intros st; [done|]. cbn [fold_left]. rewrite IH.
  assert (E : fst (read_field raw lvl st x) !! f = if bool_decide (f = x) then match raw !! f with Some b => Some (b, source_of lvl) | None => fst st !! f end else fst st !! f).
  { unfold read_field. destruct (decide (f = x)) as [<-|Hn].
    - rewrite bool_decide_true by done. destruct (raw !! f); [cbn; by rewrite lookup_insert_eq|done].
    - rewrite bool_decide_false by done. destruct (raw !! x); [cbn; by rewrite lookup_insert_ne by done|done]. }
  rewrite E. destruct (decide (f = x)) as [->|Hn].
  - rewrite (bool_decide_true (x = x)) by done. rewrite (bool_decide_true (x ∈ x :: keys)) by set_solver. destruct (raw !! x); by destruct (bool_decide _).
  - rewrite (bool_decide_false (f = x)) by done. assert (E' : bool_decide (f ∈ x :: keys) = bool_decide (f ∈ keys)) by (apply bool_decide_ext; set_solver). by rewrite E'.
Qed.

Lemma fields_search snap def chain st f : f ∈ NOTIFICATION_TYPE_FIELDS ->
  fst (fold_left (read_level snap def) chain st) !! f
  = match first_of (field_at snap def f) (rev chain) with Some (lvl, b) => Some (b, source_of lvl) | None => fst st !! f end.
Proof.
  intros Hf. induction chain as [|x chain IH] using rev_ind; [done|]. rewrite fold_left_app, rev_app_distr. cbn [fold_left rev app first_of].
  unfold read_level at 1. unfold field_at at 1. destruct (explicit snap def x) as [[| | |raw]|]; try exact IH.
  rewrite read_field_lookup, bool_decide_true by done. destruct (raw !! f); [done|exact IH].
Qed.

Lemma fold_insert_key {A B} (key : A -> string) (f : A -> B) l (m : gmap string B) x :
  x ∈ l -> NoDup (map key l) -> fold_left (fun out y => <[key y := f y]> out) l m !! key x = Some (f x).
Proof.
  assert (Hout : forall l (m : gmap string B) k, k ∉ map key l -> fold_left (fun out y => <[key y := f y]> out) l m !! k = m !! k).
  { clear. induction l as [|y l IH]; intros m k Hk; [done|]. cbn in *. apply not_elem_of_cons in Hk as [H1 H2]. rewrite IH by done. by rewrite lookup_insert_ne. }
  revert m. induction l as [|y l IH]; intros m Hx Hn; [by apply elem_of_nil in Hx|]. cbn in *. apply NoDup_cons in Hn as [Hy Hn].
  apply elem_of_cons in Hx as [->|Hx]; [|by apply IH]. rewrite Hout by done. apply lookup_insert_eq.
Qed.

Lemma resolve_chain_lookup snap chain def : def ∈ CASCADE_DEFS -> resolveChain snap chain !! sd_key def = Some (resolve_one snap chain def).
Proof. intros H. apply (fold_insert_key sd_key (resolve_one snap chain)); [done|]. by apply (bool_decide_unpack _). Qed.

(** ** The specification: going up from the agent *)

Lemma coerce_ok def v : value_ok def v -> coerce def v = Some v.
Proof.
  unfold value_ok, coerce. destruct (sd_type def), v; try done; [by intros ->|]. intros H. rewrite (proj2 (existsb_exists _ _)); [done|].
  exists s. split; [by apply list_elem_of_In|apply String.eqb_refl].
Qed.

Lemma definition_of def : def ∈ SETTINGS_DEFINITIONS -> getSettingDefinition (sd_key def) = Some def.
Proof. intros H. repeat (apply elem_of_cons in H as [->|H]; [done|]). by apply elem_of_nil in H. Qed.

Lemma cascade_def def : def ∈ CASCADE_DEFS <-> def ∈ SETTINGS_DEFINITIONS /\ sd_resolution def <> External.
Proof. unfold CASCADE_DEFS. rewrite !list_elem_of_In, filter_In, negb_true_iff, bool_decide_eq_false. done. Qed.

Lemma explicit_own s def lvl : settings_ok s -> def ∈ CASCADE_DEFS -> sd_resolution def <> AnyTrue ->
  explicit (loadSnapshot s) def lvl = own s (cl_level lvl) (cl_scope lvl) (sd_key def).
Proof.
  intros Hok Hd Ha. unfold explicit. rewrite stored_lookup, bool_decide_true.
  - unfold own. destruct (st_rows s !! _) as [[v t]|] eqn:E; [|done]. apply (so_rows s Hok) in E as [(def' & H1 & _ & _ & _ & H2) _]. cbn.
    apply cascade_def in Hd as [Hd _]. rewrite (definition_of def Hd) in H1. injection H1 as <-. by apply coerce_ok.
  - unfold STORED_KEYS. apply list_elem_of_In, in_map, filter_In. rewrite negb_true_iff, bool_decide_eq_false. split; [by apply list_elem_of_In|done].
Qed.

(** The groups an agent inherits from, nearest first: those of its own tenant. *)
Definition inherited_groups (s : SettingsDb) (a : AgentColumns) : list Z :=
  match ac_group a with
  | Some g => List.filter (fun i => bool_decide (gn_tenant <$> fo_groups (st_forest s) !! i = Some (ac_tenant a))) (group_chain (st_forest s) g)
  | None => []
  end.
Definition nearest_first (s : SettingsDb) (d : Z) (a : AgentColumns) : list (SettingLevel * option Z) :=
  [(L_agent, Some d)] ++ map (fun g => (L_group, Some g)) (inherited_groups s a) ++ [(L_tenant, Some (ac_tenant a)); (L_global, None)].

Definition nearest_value (s : SettingsDb) (d : Z) (a : AgentColumns) (key : string) : option ((SettingLevel * option Z) * SettingValue) :=
  first_of (fun ls => own s (fst ls) (snd ls) key) (nearest_first s d a).
Definition own_flag (s : SettingsDb) (f : string) (ls : SettingLevel * option Z) : option bool :=
  match own s (fst ls) (snd ls) "notificationTypes" with Some (V_flags raw) => raw !! f | _ => None end.
Definition nearest_flag (s : SettingsDb) (d : Z) (a : AgentColumns) (f : string) : option ((SettingLevel * option Z) * bool) :=
  first_of (own_flag s f) (nearest_first s d a).
Definition dry_run_above (s : SettingsDb) (a : AgentColumns) : bool :=
  ac_evaluate_only a
  || existsb (fun g => match fo_groups (st_forest s) !! g with Some x => gn_evaluate_only x | None => false end) (inherited_groups s a).

Definition scope_of (l : ChainLevel) : SettingLevel * option Z := (cl_level l, cl_scope l).

Lemma inherited_levels s t l :
  map scope_of (omap (group_level s t) l) = map (fun g => (L_group, Some g)) (List.filter (fun i => bool_decide (gn_tenant <$> fo_groups (st_forest s) !! i = Some t)) l)
  /\ existsb cl_evaluate_only (omap (group_level s t) l)
     = existsb (fun g => match fo_groups (st_forest s) !! g with Some x => gn_evaluate_only x | None => false end)
         (List.filter (fun i => bool_decide (gn_tenant <$> fo_groups (st_forest s) !! i = Some t)) l).
Proof.
  induction l as [|g l [IH1 IH2]]; [done|]. change (omap (group_level s t) (g :: l)) with (match group_level s t g with Some y => y :: omap (group_level s t) l | None => omap (group_level s t) l end).
  cbn [List.filter]. destruct (fo_groups (st_forest s) !! g) as [x|] eqn:E; cbn [fmap option_fmap option_map].
  - assert (Eg : group_level s t g = if gn_tenant x =? t then Some {| cl_level := L_group; cl_scope := Some g; cl_name := gn_name x; cl_evaluate_only := gn_evaluate_only x |} else None)
      by (unfold group_level; by rewrite E).
    rewrite Eg. destruct (Z.eqb_spec (gn_tenant x) t) as [->|Hn].
    + rewrite bool_decide_true by done. cbn [map existsb scope_of cl_level cl_scope cl_evaluate_only]. rewrite IH1, IH2, E. done.
    + rewrite bool_decide_false by congruence. done.
  - assert (Eg : group_level s t g = None) by (unfold group_level; by rewrite E). rewrite Eg. by rewrite bool_decide_false.
Qed.

Lemma device_levels s d a : closure_exact (st_forest s) ->
  map scope_of (rev (deviceChain (loadSnapshot s) (refOf d a))) = nearest_first s d a
  /\ existsb cl_evaluate_only (rev (deviceChain (loadSnapshot s) (refOf d a))) = dry_run_above s a.
Proof.
  intros Hc. unfold deviceChain, nearest_first, dry_run_above, inherited_groups. cbn [refOf dr_id dr_tenant dr_group dr_evaluate_only]. rewrite !rev_app_distr.
  destruct (ac_group a) as [g|]; [|split; [done|cbn; by rewrite !orb_false_r]]. rewrite group_levels, rev_involutive by done.
  destruct (inherited_levels s (ac_tenant a) (group_chain (st_forest s) g)) as [H1 H2]. rewrite !map_app, !existsb_app, H1, H2. split; [done|].
  cbn. by rewrite !orb_false_r.
Qed.

Lemma first_of_flag l : (match first_of flagged l with Some _ => true | None => false end) = existsb cl_evaluate_only l.
Proof. induction l as [|x l IH]; [done|]. cbn. unfold flagged at 1. by destruct (cl_evaluate_only x). Qed.

Section Device.
Variables (s : SettingsDb) (d : Z) (a : AgentColumns).
Hypothesis Hok : settings_ok s.
Let chain := deviceChain (loadSnapshot s) (refOf d a).

Lemma nearest_resolved def : def ∈ SETTINGS_DEFINITIONS -> sd_resolution def = Nearest ->
  exists rv, resolveChain (loadSnapshot s) chain !! sd_key def = Some rv
    /\ rv_value rv = match nearest_value s d a (sd_key def) with Some (_, v) => v | None => sd_default def end
    /\ (src_level (rv_source rv), src_id (rv_source rv)) = match nearest_value s d a (sd_key def) with Some ((l, sc), _) => (Some l, sc) | None => (None, None) end.
Proof.
  intros Hd Hr. assert (Hc : def ∈ CASCADE_DEFS) by (apply cascade_def; rewrite Hr; done).
  rewrite (resolve_chain_lookup _ _ _ Hc). eexists. split; [done|]. unfold resolve_one. rewrite Hr, resolve_nearest_search.
  assert (E : nearest_value s d a (sd_key def) = (fun xv => (scope_of (fst xv), snd xv)) <$> first_of (explicit (loadSnapshot s) def) (rev chain)).
  { unfold nearest_value. destruct (device_levels s d a (ok_closure _ (sv_forest _ (so_forest s Hok)))) as [<- _]. rewrite first_of_map. f_equal. apply first_of_ext. intros lvl.
    rewrite explicit_own by (done || by rewrite Hr). done. }
  rewrite E. by destruct (first_of _ _) as [[lvl v]|].
Qed.

Lemma dry_run_resolved : as_bool (resolveChain (loadSnapshot s) chain !! "evaluateOnly") = dry_run_above s a.
Proof.
  set (def := boolean_setting "evaluateOnly" false [L_group; L_agent] AnyTrue).
  assert (E : resolveChain (loadSnapshot s) chain !! "evaluateOnly" = Some (resolve_one (loadSnapshot s) chain def))
    by (apply (resolve_chain_lookup _ _ def); vm_compute; set_solver).
  rewrite E. unfold resolve_one. cbn [sd_resolution def boolean_setting]. rewrite resolve_any_search.
  rewrite <- (proj2 (device_levels s d a (ok_closure _ (sv_forest _ (so_forest s Hok))))), <- first_of_flag. by destruct (first_of flagged _) as [[lvl u]|].
Qed.

Lemma flag_resolved f : f ∈ NOTIFICATION_TYPE_FIELDS ->
  as_flags (resolveChain (loadSnapshot s) chain !! "notificationTypes") !! f = Some (match nearest_flag s d a f with Some (_, b) => b | None => true end).
Proof.
  intros Hf. set (def := {| sd_key := "notificationTypes"; sd_type := T_flags; sd_min := None; sd_max := None; sd_options := []; sd_default := V_flags all_true;
       sd_scopes := ALL_LEVELS; sd_resolution := PerField |}).
  assert (Hc : def ∈ CASCADE_DEFS) by (apply cascade_def; split; [unfold SETTINGS_DEFINITIONS; set_solver|done]).
  pose proof (resolve_chain_lookup (loadSnapshot s) chain def Hc) as E. cbn [sd_key def] in E. rewrite E. unfold resolve_one. cbn [sd_resolution def]. unfold resolve_fields.
  pose proof (fields_search (loadSnapshot s) def chain (default_fields def, None) f Hf) as H. destruct (fold_left _ chain _) as [fields nearest]. cbn [fst as_flags rv_value] in *.
  rewrite lookup_fmap, H. assert (En : nearest_flag s d a f = (fun xv => (scope_of (fst xv), snd xv)) <$> first_of (field_at (loadSnapshot s) def f) (rev chain)).
  { unfold nearest_flag. destruct (device_levels s d a (ok_closure _ (sv_forest _ (so_forest s Hok)))) as [<- _]. rewrite first_of_map. f_equal. apply first_of_ext. intros lvl.
    unfold field_at, own_flag. rewrite explicit_own by done. done. }
  rewrite En. destruct (first_of _ _) as [[lvl b]|]; [done|]. cbn.
  repeat (apply elem_of_cons in Hf as [->|Hf]; [done|]). by apply elem_of_nil in Hf.
Qed.
End Device.

(** A number is always within the bounds of its key, whatever the rows hold. *)
Lemma number_resolved snap chain key lo hi dflt :
  number_setting key lo hi dflt ∈ SETTINGS_DEFINITIONS -> lo <= dflt <= hi -> lo <= as_num (resolveChain snap chain !! key) <= hi.
Proof.
  intros Hd Hb. set (def := number_setting key lo hi dflt) in *. assert (Hc : def ∈ CASCADE_DEFS) by (apply cascade_def; by split).
  pose proof (resolve_chain_lookup snap chain def Hc) as E. cbn [sd_key def number_setting] in E. rewrite E.
  unfold resolve_one. cbn [sd_resolution def number_setting]. rewrite resolve_nearest_search.
  assert (Hx : forall l lvl v, first_of (explicit snap def) l = Some (lvl, v) -> exists z, v = V_num z /\ lo <= z <= hi).
  { induction l as [|x l IH]; [done|]. cbn. intros lvl v. destruct (explicit snap def x) as [y|] eqn:Ey; [|apply IH]. intros [= _ <-].
    unfold explicit in Ey. destruct (stored_at _ _ _ _) as [raw|]; [|done]. cbn in Ey. unfold coerce in Ey. cbn [sd_type def number_setting] in Ey.
    destruct raw as [z| | |]; try done. destruct (within _ _ z) eqn:Ew; [|done]. injection Ey as <-. exists z. split; [done|].
    unfold within in Ew. cbn [sd_min sd_max def number_setting] in Ew. boolify. lia. }
  destruct (first_of _ _) as [[lvl v]|] eqn:Ef; [|done]. destruct (Hx _ _ _ Ef) as (z & -> & Hz). done.
Qed.

(** ** The views *)

(** A map read from one entry per key. *)
Lemma keyed_lookup {V} (f : SettingDefinition -> option (string * V)) l def :
  (forall x y, f x = Some y -> fst y = sd_key x) -> NoDup (map sd_key l) -> def ∈ l ->
  (list_to_map (omap f l) : gmap string V) !! sd_key def = snd <$> f def.
Proof.
  intros Hf. assert (Hout : forall l', sd_key def ∉ map sd_key l' -> (list_to_map (omap f l') : gmap string V) !! sd_key def = None).
  { induction l' as [|z l' IH]; [done|]. cbn [map]. intros H. apply not_elem_of_cons in H as [H1 H2].
    change (omap f (z :: l')) with (match f z with Some y => y :: omap f l' | None => omap f l' end). destruct (f z) as [[k v]|] eqn:Ez; [|by apply IH].
    cbn. apply Hf in Ez. cbn in Ez. subst k. rewrite lookup_insert_ne by done. by apply IH. }
  induction l as [|x l IH]; intros Hn Hx; [by apply elem_of_nil in Hx|]. cbn in Hn. apply NoDup_cons in Hn as [Hxn Hn].
  change (omap f (x :: l)) with (match f x with Some y => y :: omap f l | None => omap f l end). apply elem_of_cons in Hx as [<-|Hx].
  - destruct (f def) as [[k v]|] eqn:E; [|by apply Hout]. apply Hf in E. cbn in E. subst k. cbn. by rewrite lookup_insert_eq.
  - destruct (f x) as [[k v]|] eqn:Ex; [|by apply IH]. apply Hf in Ex. cbn in Ex. subst k. cbn.
    rewrite lookup_insert_ne; [by apply IH|]. intros E. apply Hxn. rewrite E. by apply list_elem_of_In, in_map, list_elem_of_In.
Qed.

Lemma own_writable s level sc def : settings_ok s -> def ∈ SETTINGS_DEFINITIONS -> is_Some (own s level sc (sd_key def)) -> level ∈ sd_scopes def.
Proof.
  intros Hok Hd. unfold own. destruct (st_rows s !! _) as [[v t]|] eqn:E; [|by intros [? ?]]. intros _.
  apply (so_rows s Hok) in E as [(def' & H1 & _ & _ & H2 & _) _]. rewrite (definition_of def Hd) in H1. by injection H1 as <-.
Qed.

Lemma getOwn_lookup s level sc def :
  settings_ok s -> def ∈ SETTINGS_DEFINITIONS -> sd_resolution def = Nearest -> getOwn level sc s !! sd_key def = own s level sc (sd_key def).
Proof.
  intros Hok Hd Hr. unfold getOwn. set (rows := list_to_map _). set (dry := match level, sc with L_group, Some g => _ | _, _ => _ end).
  assert (Hk : sd_key def <> "evaluateOnly").
  { intros E. unfold SETTINGS_DEFINITIONS in Hd. repeat (apply elem_of_cons in Hd as [->|Hd]; [done|]). by apply elem_of_nil in Hd. }
  assert (E : (rows : gmap string SettingValue) !! sd_key def = own s level sc (sd_key def)); [|destruct dry; [by rewrite lookup_insert_ne by done|done]].
  unfold rows. rewrite keyed_lookup; [|intros x y; destruct (_ || _); [done|]; destruct (st_rows s !! _) as [[v t]|]; [by intros [= <-]|done]|by apply (bool_decide_unpack _)|done].
  rewrite Hr. rewrite (bool_decide_false (Nearest = External)), (bool_decide_false (Nearest = AnyTrue)) by done. cbn [orb].
  pose proof (own_writable s level sc def Hok Hd) as Hl. unfold own in Hl |- *. destruct (st_rows s !! _) as [[v t]|] eqn:Er.
  - rewrite bool_decide_true by (apply Hl; eauto). done.
  - by destruct (negb _).
Qed.

Lemma nearest_app snap def chain lvl :
  resolve_nearest snap def (chain ++ [lvl])
  = match explicit snap def lvl with Some v => {| rv_value := v; rv_source := source_of lvl; rv_fields := ∅ |} | None => resolve_nearest snap def chain end.
Proof. unfold resolve_nearest. by rewrite fold_left_app. Qed.

Lemma view_self snap level i owner s :
  cl_level (snd (view_levels snap level i owner s)) = level
  /\ cl_scope (snd (view_levels snap level i owner s)) = if bool_decide (level = L_global) then None else Some i.
Proof. by destruct level. Qed.

(** ** Properties *)

(** C35. After any requests, what an agent is told is what going up from it gives: a key has the
    value of the nearest of the agent, the groups of its tenant from its own one to the root,
    its tenant and the global level that sets it, with that level as its source, else the
    default; the dry run holds as soon as the agent or one of these groups has it; each
    notification type is decided on its own, by the nearest level that sets it. *)
Theorem resolution_goes_up requests d a
    (Hd : st_agents (fold_left serve requests empty_settings) !! d = Some a) :
  let s := fold_left serve requests empty_settings in
  let r := resolveForDevice (loadSnapshot s) (refOf d a) in
  (forall def, def ∈ SETTINGS_DEFINITIONS -> sd_resolution def = Nearest -> exists rv, ra_sources r !! sd_key def = Some rv
     /\ rv_value rv = match nearest_value s d a (sd_key def) with Some (_, v) => v | None => sd_default def end
     /\ (src_level (rv_source rv), src_id (rv_source rv)) = match nearest_value s d a (sd_key def) with Some ((l, sc), _) => (Some l, sc) | None => (None, None) end)
  /\ ra_evaluateOnly r = dry_run_above s a
  /\ (forall f, f ∈ NOTIFICATION_TYPE_FIELDS -> ra_types r !! f = Some (match nearest_flag s d a f with Some (_, b) => b | None => true end)).
Proof.
  cbv zeta. pose proof (settings_ok_run requests) as Hok. split_and!.
  - intros def. by apply nearest_resolved.
  - by apply dry_run_resolved.
  - intros f. by apply flag_resolved.
Qed.

(** The offline grace of an agent lies between 10 seconds and 20 days whatever the settings
    rows hold, so that the hub's [setTimeout] never gets a delay over its 32-bit limit. *)
Theorem grace_fits_timer snap ref :
  let ms := offlineGraceMs (Some (resolveForDevice snap ref)) in
  10 * 1000 <= ms <= 20 * 86400 * 1000 /\ ms < 2 ^ 31 - 1.
Proof.
  cbv zeta. cbn [offlineGraceMs]. unfold resolveForDevice, toSettings. cbn [ra_checkInterval ra_maxMissed].
  pose proof (number_resolved snap (deviceChain snap ref) "checkIntervalSeconds" 10 86400 60 ltac:(unfold SETTINGS_DEFINITIONS; set_solver) ltac:(lia)).
  pose proof (number_resolved snap (deviceChain snap ref) "maxMissedPushes" 1 20 2 ltac:(unfold SETTINGS_DEFINITIONS; set_solver) ltac:(lia)).
  set (x := as_num _) in *. set (y := as_num _) in *. nia.
Qed.

(** The settings panel of a level: its effective value is the level's own override when it
    lists one, with the level as source, and the inherited value otherwise. *)
Theorem scope_view_exact requests level i owner def
    (Hd : def ∈ SETTINGS_DEFINITIONS) (Hr : sd_resolution def = Nearest) :
  let s := fold_left serve requests empty_settings in
  let v := getScopeView (loadSnapshot s) level i owner s in
  exists inherited effective,
    sv_resolved v !! sd_key def = Some inherited /\ sv_effective v !! sd_key def = Some effective
    /\ match sv_overrides v !! sd_key def with
       | Some x => rv_value effective = x /\ src_level (rv_source effective) = Some level
       | None => effective = inherited
       end.
Proof.
  cbv zeta. set (s := fold_left serve requests empty_settings). pose proof (settings_ok_run requests) as Hok. fold s in Hok.
  assert (Hc : def ∈ CASCADE_DEFS) by (apply cascade_def; by rewrite Hr). unfold getScopeView.
  destruct (view_self (loadSnapshot s) level i owner s) as [Hl Hs]. destruct (view_levels _ level i owner s) as [above self]. cbn [sv_resolved sv_effective sv_overrides snd] in *.
  do 2 eexists. split; [by apply resolve_chain_lookup|]. split; [by apply resolve_chain_lookup|].
  rewrite getOwn_lookup by done. unfold resolve_one. rewrite Hr, nearest_app, explicit_own by (done || by rewrite Hr). rewrite Hl, Hs.
  destruct (own _ _ _ _); [|done]. cbn. by rewrite Hl.
Qed.

Lemma nearest_levels def : def ∈ SETTINGS_DEFINITIONS -> sd_resolution def = Nearest -> sd_scopes def = ALL_LEVELS.
Proof. intros Hd. unfold SETTINGS_DEFINITIONS in Hd. repeat (apply elem_of_cons in Hd as [->|Hd]; [done|]). by apply elem_of_nil in Hd. Qed.

Lemma value_checked level def v : def ∈ SETTINGS_DEFINITIONS -> sd_resolution def = Nearest -> value_ok def v ->
  writableDefinition (JStr (sd_key def)) level = inr def /\ check_setting level (JStr (sd_key def)) (value_js v) = inr (def, Some v).
Proof.
  intros Hd Hr Hv. assert (Hw : writableDefinition (JStr (sd_key def)) level = inr def).
  { unfold writableDefinition. rewrite (definition_of def Hd). rewrite Hr, (bool_decide_false (Nearest = External)) by done.
    rewrite (nearest_levels def Hd Hr). rewrite bool_decide_true; [done|]. unfold ALL_LEVELS. destruct level; set_solver. }
  split; [done|]. unfold check_setting. rewrite Hw, normalize_stored by done. by destruct v.
Qed.

(** A valid value set on an agent is what the agent resolves to from then on, with the agent
    as its source. *)
Theorem set_then_resolved requests d a def v
    (Hd : st_agents (fold_left serve requests empty_settings) !! d = Some a)
    (Hdef : def ∈ SETTINGS_DEFINITIONS) (Hr : sd_resolution def = Nearest) (Hv : value_ok def v) :
  let '(status, s') := setHandler L_agent d (ac_tenant a) true [(JStr (sd_key def), value_js v)] (fold_left serve requests empty_settings) in
  status = 200
  /\ exists a' rv, st_agents s' !! d = Some a'
     /\ ra_sources (resolveForDevice (loadSnapshot s') (refOf d a')) !! sd_key def = Some rv
     /\ rv_value rv = v /\ src_level (rv_source rv) = Some L_agent /\ src_id (rv_source rv) = Some d.
Proof.
  set (s := fold_left serve requests empty_settings) in *. pose proof (settings_ok_run requests) as Hok. fold s in Hok.
  pose proof (set_handler_ok L_agent d (ac_tenant a) true [(JStr (sd_key def), value_js v)] s Hok) as Hok'.
  destruct (value_checked L_agent def v Hdef Hr Hv) as [Hw Hc]. unfold setHandler, resolveTarget, writeMany in *. cbn [first_invalid tg_level] in *.
  rewrite Hc, Hd in *. unfold deviceAccessVerdict in *. rewrite Z.eqb_refl in *. cbn [first_invalid tg_level] in *. rewrite Hc in *. cbn [write_each] in *.
  unfold write in *. cbn [tg_level tg_scope] in *. rewrite Hw in *.
  rewrite (bool_decide_false (Some d = None)), andb_false_r, Hc in * by done. cbn [snd] in Hok'. set (t := {| tg_level := L_agent |}) in *.
  set (s' := store_setting t def (Some v) true s) in *. split; [done|].
  assert (Ha' : exists a', st_agents s' !! d = Some a').
  { destruct (store_owners t def (Some v) true s) as [_ H]. specialize (H d). rewrite Hd in H. fold s' in H. destruct (st_agents s' !! d); [eauto|done]. }
  destruct Ha' as [a' Ha']. destruct (nearest_resolved s' d a' Hok' def Hdef Hr) as (rv & Hrv & Hval & Hsrc). exists a', rv.
  assert (Hn : nearest_value s' d a' (sd_key def) = Some ((L_agent, Some d), v)).
  { unfold nearest_value, nearest_first. cbn [app first_of fst snd]. unfold s'. rewrite own_store, bool_decide_true; [done|]. by rewrite Hr. }
  rewrite Hn in Hval, Hsrc. by injection Hsrc as ? ?.
Qed.

(** ** A sample: two groups, an agent in the inner one *)

Definition interval_entry (z : Z) : list (js * js) := [(JStr "checkIntervalSeconds", JNum (NInt z))].
Definition in_group (g : Z) : UpdateDevice :=
  {| ud_group := Some (Some g); ud_checkInterval := None; ud_override := None; ud_maxMissed := None; ud_types := None; ud_evaluateOnly := None |}.
Definition sample_requests : list (Z * SettingsRequest) :=
  [(3, S_group (sample_group "Web servers" None)); (3, S_group (sample_group "Paris" (Some 1))); (3, S_enrol 7 60); (3, S_device 7 (in_group 2));
   (1, S_set L_global 0 true (interval_entry 300)); (3, S_set L_group 1 true (interval_entry 120))].
Definition sample_settings : SettingsDb := fold_left serve sample_requests empty_settings.
Definition sample_agent : AgentColumns :=
  {| ac_tenant := 3; ac_group := Some 2; ac_evaluate_only := false; ac_override := false; ac_check_interval := 60; ac_max_missed := None; ac_types := JNull |}.
Definition interval_def : SettingDefinition := number_setting "checkIntervalSeconds" 10 86400 60.

Lemma sample_agent_columns : st_agents sample_settings !! 7 = Some sample_agent.
Proof. by vm_compute. Qed.
Lemma interval_def_listed : interval_def ∈ SETTINGS_DEFINITIONS.
Proof. unfold SETTINGS_DEFINITIONS. set_solver. Qed.

Lemma resolution_goes_up_witness :
  exists rv, ra_sources (resolveForDevice (loadSnapshot sample_settings) (refOf 7 sample_agent)) !! "checkIntervalSeconds" = Some rv
    /\ rv_value rv = V_num 120 /\ src_level (rv_source rv) = Some L_group /\ src_id (rv_source rv) = Some 1.
Proof.
  destruct (resolution_goes_up sample_requests 7 sample_agent sample_agent_columns) as (H & _ & _).
  destruct (H interval_def interval_def_listed eq_refl) as (rv & H1 & H2 & H3). exists rv. fold sample_settings in H1, H2, H3.
  assert (E : nearest_value sample_settings 7 sample_agent (sd_key interval_def) = Some ((L_group, Some 1), V_num 120)) by (by vm_compute).
  rewrite E in H2, H3. injection H3 as H3 H4. split_and!; [exact H1|exact H2|exact H3|exact H4].
Defined.

Lemma scope_view_exact_witness :
  exists inherited effective,
    sv_resolved (getScopeView (loadSnapshot sample_settings) L_group 1 3 sample_settings) !! "checkIntervalSeconds" = Some inherited
    /\ sv_effective (getScopeView (loadSnapshot sample_settings) L_group 1 3 sample_settings) !! "checkIntervalSeconds" = Some effective
    /\ rv_value effective = V_num 120.
Proof.
  destruct (scope_view_exact sample_requests L_group 1 3 interval_def interval_def_listed eq_refl) as (i & e & H1 & H2 & H3). exists i, e. split_and!; [exact H1|exact H2|].
  fold sample_settings in H3. assert (E : sv_overrides (getScopeView (loadSnapshot sample_settings) L_group 1 3 sample_settings) !! sd_key interval_def = Some (V_num 120)) by (by vm_compute).
  rewrite E in H3. apply H3.
Defined.

Lemma set_then_resolved_witness :
  fst (setHandler L_agent 7 3 true [(JStr "checkIntervalSeconds", JNum (NInt 45))] sample_settings) = 200.
Proof.
  pose proof (set_then_resolved sample_requests 7 sample_agent interval_def (V_num 45) sample_agent_columns interval_def_listed eq_refl eq_refl) as H.
  cbn [sd_key interval_def number_setting value_js ac_tenant sample_agent] in H. fold sample_settings in H.
  destruct (setHandler _ _ _ _ _ _) as [st s']. apply H.
Defined.
