(* ===== verification/SettingsIsolation.v ===== *)
(** * Settings stay within a tenant

    A request of a tenant other than the Default one changes nothing of what the agents of
    another tenant resolve to: their rows, their groups, their dry-run flags. *)

From S2P Require Import Prelude JsString JsValue JsJson Tenancy Access Query GroupTree SettingsStore SettingsSync SettingsResolve.

(** ** What a tenant resolves from *)

(** The scopes a tenant's agents read. *)
Definition scope_in (s : SettingsDb) (t : Z) (l : SettingLevel) (sc : option Z) : Prop :=
  l = L_global \/ row_live s l sc t.

Record tenant_same (t : Z) (s s' : SettingsDb) : Prop := {
  ts_forest : served_ok (st_forest s');
  ts_groups : forall g x, gn_tenant x = t -> fo_groups (st_forest s) !! g = Some x <-> fo_groups (st_forest s') !! g = Some x;
  ts_agents : forall d a, st_agents s !! d = Some a -> ac_tenant a = t ->
    exists a', st_agents s' !! d = Some a' /\ ac_tenant a' = t /\ ac_evaluate_only a' = ac_evaluate_only a /\ inherited_groups s' a' = inherited_groups s a;
  ts_rows : forall l sc k, scope_in s t l sc -> own s' l sc k = own s l sc k;
  ts_tenants : st_tenants s' = st_tenants s
}.

Lemma up_own groups t n g x : (forall d y p, groups !! d = Some y -> gn_parent y = Some p -> is_Some (groups !! p)) -> local_parents groups ->
  groups !! g = Some x -> gn_tenant x = t -> forall a, up groups n g = Some a -> exists y, groups !! a = Some y /\ gn_tenant y = t.
Proof. intros Hp Hl Hg Ht a Ha. destruct (up_dom _ _ _ _ Ha) as [_ [y Hy]]. exists y. split; [done|]. by rewrite (local_up groups n g a x y). Qed.

Lemma up_same groups groups' t n g x :
  (forall d y p, groups !! d = Some y -> gn_parent y = Some p -> is_Some (groups !! p)) -> local_parents groups ->
  (forall d y, gn_tenant y = t -> groups !! d = Some y <-> groups' !! d = Some y) ->
  groups !! g = Some x -> gn_tenant x = t -> up groups' n g = up groups n g.
Proof.
  intros Hp Hl Hs. revert g x. induction n as [|n IH]; intros g x Hg Ht; cbn; rewrite Hg, (proj1 (Hs g x Ht) Hg); [done|].
  destruct (gn_parent x) as [p|] eqn:Ep; [|done]. destruct (Hp g x p Hg Ep) as [y Hy]. apply (IH p y Hy). rewrite <- Ht. by apply (Hl g x p y).
Qed.

Lemma own_chain f t g x : served_ok f -> fo_groups f !! g = Some x -> forall i, i ∈ group_chain f g -> gn_tenant <$> fo_groups f !! i = Some t <-> gn_tenant x = t.
Proof.
  intros [Hok _ Hl] Hg i Hi. apply list_elem_of_lookup in Hi as [n Hn]. rewrite chain_lookup in Hn by apply Hok.
  destruct (up_own (fo_groups f) (gn_tenant x) n g x) with (a := i) as (y & -> & Hy); try done; [by apply Hok|]. cbn. split; [intros [= <-]|intros <-]; congruence.
Qed.

Lemma chain_dead f g : fo_groups f !! g = None -> group_chain f g = [].
Proof. intros H. unfold group_chain. destruct (size _); [done|]. cbn. by rewrite H. Qed.

Lemma filter_ext_list {A} (p q : A -> bool) l : (forall x, x ∈ l -> p x = q x) -> List.filter p l = List.filter q l.
Proof. intros H. apply List.filter_ext_in. intros x Hx. by apply H, list_elem_of_In. Qed.

(** The groups a tenant's agent inherits from are decided by the groups of the tenant. *)
Lemma tenant_chain f f' t g :
  served_ok f -> served_ok f' -> (forall d y, gn_tenant y = t -> fo_groups f !! d = Some y <-> fo_groups f' !! d = Some y) ->
  List.filter (fun i => bool_decide (gn_tenant <$> fo_groups f' !! i = Some t)) (group_chain f' g)
  = List.filter (fun i => bool_decide (gn_tenant <$> fo_groups f !! i = Some t)) (group_chain f g).
Proof.
  intros Hf Hf' Hs.
  assert (Hempty : forall f0, served_ok f0 -> (forall x, fo_groups f0 !! g = Some x -> gn_tenant x <> t) ->
    List.filter (fun i => bool_decide (gn_tenant <$> fo_groups f0 !! i = Some t)) (group_chain f0 g) = []).
  { intros f0 H0 Hx. destruct (fo_groups f0 !! g) as [x|] eqn:E; [|by rewrite chain_dead]. apply filter_none. intros i Hi.
    apply bool_decide_eq_false. intros H. apply (Hx x eq_refl). by apply (own_chain f0 t g x H0 E i); [apply list_elem_of_In|]. }
  assert (Hdec : (exists x, fo_groups f !! g = Some x /\ gn_tenant x = t) \/ ~ (exists x, fo_groups f !! g = Some x /\ gn_tenant x = t)).
  { destruct (fo_groups f !! g) as [x|]; [destruct (decide (gn_tenant x = t))|]; naive_solver. }
  destruct Hdec as [(x & Hx & Ht)|Hn].
  - assert (Ec : group_chain f' g = group_chain f g).
    { apply list_eq. intros i. rewrite !chain_lookup by (apply Hf || apply Hf'). destruct Hf as [Hok _ Hl]. eapply (up_same _ _ t i g x); try done. by apply Hok. }
    rewrite Ec. apply filter_ext_list. intros i Hi. apply bool_decide_ext. pose proof (own_chain f t g x Hf Hx i Hi) as H1.
    rewrite H1. pose proof (proj1 (Hs g x Ht) Hx) as Hx'. rewrite <- Ec in Hi. by rewrite (own_chain f' t g x Hf' Hx' i Hi).
  - rewrite !Hempty; [done|done|intros x Hx Ht; apply Hn; eauto|done|].
    intros x Hx Ht. apply Hn. exists x. split; [by apply Hs|done].
Qed.

Lemma same_refl t s : served_ok (st_forest s) -> tenant_same t s s.
Proof. intros H. split; [done|done|eauto 10|done|done]. Qed.

Lemma same_scope t s s' l sc : tenant_same t s s' -> scope_in s t l sc -> scope_in s' t l sc.
Proof.
  intros [_ Hg Ha _ _] [->|H]; [by left|right]. unfold row_live in *. destruct l, sc as [i|]; try done.
  - destruct (fo_groups (st_forest s) !! i) as [x|] eqn:E; [|done]. injection H as H. by rewrite (proj1 (Hg i x H) E), <- H.
  - destruct (st_agents s !! i) as [a|] eqn:E; [|done]. injection H as H. destruct (Ha i a E H) as (a' & -> & Ht & _). by rewrite <- Ht.
Qed.

Lemma same_trans t s1 s2 s3 : tenant_same t s1 s2 -> tenant_same t s2 s3 -> tenant_same t s1 s3.
Proof.
  intros H12 H23. split.
  - apply (ts_forest t s2 s3 H23).
  - intros g x Hx. by rewrite (ts_groups t s1 s2 H12 g x Hx), (ts_groups t s2 s3 H23 g x Hx).
  - intros d a Hd Ht. destruct (ts_agents t s1 s2 H12 d a Hd Ht) as (a2 & H2 & Ht2 & He2 & Hi2).
    destruct (ts_agents t s2 s3 H23 d a2 H2 Ht2) as (a3 & H3 & Ht3 & He3 & Hi3). exists a3. split_and!; congruence.
  - intros l sc k Hsc. rewrite (ts_rows t s2 s3 H23 l sc k) by (by apply (same_scope t s1)). by apply (ts_rows t s1 s2 H12).
  - by rewrite (ts_tenants t s2 s3 H23), (ts_tenants t s1 s2 H12).
Qed.

Lemma inherited_same t s s' a a' :
  served_ok (st_forest s) -> served_ok (st_forest s') ->
  (forall g x, gn_tenant x = t -> fo_groups (st_forest s) !! g = Some x <-> fo_groups (st_forest s') !! g = Some x) ->
  ac_tenant a = t -> ac_tenant a' = t ->
  (ac_group a' = ac_group a \/ ac_group a' = None /\ exists g, ac_group a = Some g /\ gn_tenant <$> fo_groups (st_forest s) !! g <> Some t) ->
  inherited_groups s' a' = inherited_groups s a.
Proof.
  intros Hs Hs' Hg Ha Ha' Hgrp. unfold inherited_groups. rewrite Ha, Ha'. destruct Hgrp as [->|(-> & g & -> & Hn)].
  - destruct (ac_group a) as [g|]; [by apply tenant_chain|done].
  - destruct (fo_groups (st_forest s) !! g) as [x|] eqn:E; [|by rewrite chain_dead]. symmetry. apply filter_none. intros i Hi. apply bool_decide_eq_false.
    intros H. apply Hn. cbn. f_equal. by apply (own_chain (st_forest s) t g x Hs E i); [apply list_elem_of_In|].
Qed.

(** A change of the rows, groups and agents of another tenant. *)
Lemma same_intro t s s' :
  served_ok (st_forest s) -> served_ok (st_forest s') ->
  (forall g x, gn_tenant x = t -> fo_groups (st_forest s) !! g = Some x <-> fo_groups (st_forest s') !! g = Some x) ->
  (forall d a, st_agents s !! d = Some a -> ac_tenant a = t -> exists a', st_agents s' !! d = Some a' /\ ac_tenant a' = t /\ ac_evaluate_only a' = ac_evaluate_only a
     /\ (ac_group a' = ac_group a \/ ac_group a' = None /\ exists g, ac_group a = Some g /\ gn_tenant <$> fo_groups (st_forest s) !! g <> Some t)) ->
  (forall l sc k, scope_in s t l sc -> own s' l sc k = own s l sc k) -> st_tenants s' = st_tenants s ->
  tenant_same t s s'.
Proof.
  intros Hs Hs' Hg Ha Hr Hn. split; try done. intros d a Hd Ht. destruct (Ha d a Hd Ht) as (a' & H1 & H2 & H3 & H4). exists a'. split_and!; try done.
  by apply (inherited_same t).
Qed.

(** ** Writes *)

(** A target below the global level, of tenant [u]. *)
Definition local_target (s : SettingsDb) (u : Z) (tg : SettingTarget) : Prop := tg_level tg <> L_global /\ row_live s (tg_level tg) (tg_scope tg) u.

Lemma local_store u tg def stored mirror s : local_target s u tg -> local_target (store_setting tg def stored mirror s) u tg.
Proof.
  destruct (store_owners tg def stored mirror s) as [Hg Ha]. intros [Hl H]. split; [done|]. unfold row_live in *. destruct (tg_level tg), (tg_scope tg); try done; congruence.
Qed.

Lemma other_scope s t u tg l sc : local_target s u tg -> t <> u -> scope_in s t l sc -> (l, sc) <> (tg_level tg, tg_scope tg).
Proof. intros [Hl H] Hn [->|H'] [= E1 E2]; [congruence|]. subst l sc. unfold row_live in *. destruct (tg_level tg), (tg_scope tg); congruence. Qed.

Lemma mirror_agents l sc k v s d :
  st_agents (mirrorLegacy l sc k v s) !! d = st_agents s !! d
  \/ (l = L_agent /\ sc = Some d /\ exists f, st_agents (mirrorLegacy l sc k v s) !! d = f <$> st_agents s !! d).
Proof.
  unfold mirrorLegacy, mergeGroupConfigColumn, setAgentGlobal, update_agent. destruct (negb _); [by left|].
  destruct l, sc as [i|]; try (by left); [left; by destruct (has_group _ _)|]. cbn [set_agents st_agents]. rewrite lookup_alter. case_decide as E; [subst i|by left]. right. eauto.
Qed.

Lemma dry_agents l sc b s d :
  st_agents (writeEvaluateOnly l sc b s) !! d = st_agents s !! d \/ (l <> L_group /\ sc = Some d).
Proof.
  unfold writeEvaluateOnly, update_agent. destruct sc as [i|]; [|by left]. case_bool_decide; [by left|]. cbn [set_agents st_agents]. rewrite lookup_alter.
  case_decide as E; [subst i|by left]. right. done.
Qed.

Lemma store_tenants tg def stored mirror s : st_tenants (store_setting tg def stored mirror s) = st_tenants s.
Proof.
  assert (Hm : forall l sc k v s0, st_tenants (mirrorLegacy l sc k v s0) = st_tenants s0).
  { intros l sc k v s0. unfold mirrorLegacy, mergeGroupConfigColumn, setAgentGlobal, update_agent. destruct (negb _); [done|]. destruct l, sc; try done. by destruct (has_group _ _). }
  unfold store_setting. set (s1 := if bool_decide (sd_resolution def = AnyTrue) then _ else _).
  assert (E : st_tenants s1 = st_tenants s); [|destruct mirror; [by rewrite Hm|done]].
  unfold s1. case_bool_decide; [|by destruct stored]. unfold writeEvaluateOnly, update_agent. destruct (tg_scope tg); [|done]. by case_bool_decide.
Qed.

Lemma store_same t u tg def stored mirror s :
  served_ok (st_forest s) -> (forall l, l ∈ sd_scopes def -> sd_resolution def = AnyTrue -> l = L_group \/ l = L_agent) -> tg_level tg ∈ sd_scopes def ->
  local_target s u tg -> t <> u -> tenant_same t s (store_setting tg def stored mirror s).
Proof.
  intros Hs Hsc Hin Hl Hn. apply same_intro; [done|by apply store_forest_ok| | | |by apply store_tenants].
  - intros g x Hx. unfold store_setting. set (s1 := if bool_decide (sd_resolution def = AnyTrue) then _ else _).
    assert (E : st_forest (if mirror then mirrorLegacy (tg_level tg) (tg_scope tg) (sd_key def) stored s1 else s1) = st_forest s1) by (destruct mirror; [apply mirror_rows|done]).
    rewrite E. unfold s1. case_bool_decide; [|by destruct stored]. unfold writeEvaluateOnly. destruct (tg_scope tg) as [i|] eqn:Es; [|done].
    case_bool_decide as El; [|done]. cbn [set_forest st_forest map_groups fo_groups]. rewrite lookup_alter. case_decide as Ei; [subst i|done].
    destruct Hl as [_ Hl]. rewrite El, Es in Hl. cbn in Hl. destruct (fo_groups (st_forest s) !! g) as [y|] eqn:Eg; [|done]. injection Hl as Hl. cbn.
    split; intros [= <-]; [congruence|]. cbn in Hx. congruence.
  - intros d a Hd Ha. exists a. split_and!; [|done|done|by left]. rewrite <- Hd.
    assert (Ho : (tg_level tg, tg_scope tg) <> (L_agent, Some d)).
    { intros [= E1 E2]. destruct Hl as [_ Hl]. rewrite E1, E2 in Hl. cbn in Hl. rewrite Hd in Hl. cbn in Hl. congruence. }
    unfold store_setting. set (s1 := if bool_decide (sd_resolution def = AnyTrue) then _ else _).
    assert (E1 : st_agents s1 !! d = st_agents s !! d).
    { unfold s1. case_bool_decide as Hr; [|by destruct stored]. destruct (dry_agents (tg_level tg) (tg_scope tg) (bool_decide (stored = Some (V_bool true))) s d) as [?|[H1 H2]]; [done|].
      destruct (Hsc _ Hin Hr) as [?|El]; [done|]. by rewrite El, H2 in Ho. }
    destruct mirror; [|done]. rewrite <- E1. destruct (mirror_agents (tg_level tg) (tg_scope tg) (sd_key def) stored s1 d) as [?|(H1 & H2 & _)]; [done|]. by rewrite H1, H2 in Ho.
  - intros l sc k Hk. rewrite own_store, bool_decide_false; [done|]. unfold row_key. intros [_ [= E1 E2 _]]. apply (other_scope s t u tg l sc) in Hk; [|done|done]. congruence.
Qed.

Lemma dry_run_levels k def : getSettingDefinition k = Some def -> forall l, l ∈ sd_scopes def -> sd_resolution def = AnyTrue -> l = L_group \/ l = L_agent.
Proof.
  intros Hd l. apply List.find_some in Hd as [Hd _]. cbn in Hd. repeat (destruct Hd as [<-|Hd]; [cbn; try done; intros Hl _; set_solver|]). done.
Qed.

Lemma write_same t u tg key value mirror s :
  served_ok (st_forest s) -> local_target s u tg -> t <> u ->
  tenant_same t s (snd (write tg key value mirror s)) /\ local_target (snd (write tg key value mirror s)) u tg.
Proof.
  intros Hs Hl Hn. unfold write. destruct (writableDefinition _ _); [split; [by apply same_refl|done]|]. destruct (_ && _); [split; [by apply same_refl|done]|].
  destruct (check_setting _ _ _) as [|[def stored]] eqn:Hc; [split; [by apply same_refl|done]|]. cbn [snd]. split; [|by apply local_store].
  apply check_spec in Hc as [Hc _]. apply writable_spec in Hc as (k & _ & Hd & _ & Hin). apply (store_same t u); try done. by apply (dry_run_levels k).
Qed.

Lemma write_each_same t u tg entries mirror s :
  served_ok (st_forest s) -> local_target s u tg -> t <> u -> tenant_same t s (snd (write_each tg entries mirror s)).
Proof.
  revert s. induction entries as [|[k v] entries IH]; intros s Hs Hl Hn; [by apply same_refl|]. cbn [write_each].
  destruct (write_same t u tg k v mirror s Hs Hl Hn) as [H1 H2]. destruct (write tg k v mirror s) as [[e|x] s1]; [done|]. cbn [snd] in *.
  apply (same_trans t s s1); [done|]. apply IH; [apply (ts_forest t s s1 H1)|done|done].
Qed.

Lemma writeMany_same t u tg entries mirror s :
  served_ok (st_forest s) -> local_target s u tg -> t <> u -> tenant_same t s (snd (writeMany tg entries mirror s)).
Proof. intros. unfold writeMany. destruct (first_invalid _ _); [by apply same_refl|by apply (write_each_same t u)]. Qed.

(** ** Endpoints *)

Lemma resolve_local level scopeId u mayWrite s tg : u <> MASTER_TENANT_ID -> resolveTarget level scopeId u mayWrite s = inr tg -> local_target s u tg.
Proof.
  intros Hu. unfold resolveTarget, local_target, row_live. destruct level.
  - unfold isMasterTenant. rewrite (proj2 (Z.eqb_neq _ _) Hu). done.
  - destruct (deviceAccessVerdict _ _ _) eqn:Ev; try done. apply verdict_ok_iff in Ev as [->|[? _]]; [|done]. destruct mayWrite; [|done]. by intros [= <-].
  - destruct (fo_groups (st_forest s) !! scopeId) as [g|] eqn:Hg; [|done]. destruct (deviceAccessVerdict _ _ _) eqn:Ev; try done.
    apply verdict_ok_iff in Ev as [<-|[? _]]; [|done]. destruct mayWrite; [|done]. intros [= <-]. cbn. by rewrite Hg.
  - destruct (st_agents s !! scopeId) as [a|] eqn:Ha; [|done]. destruct (deviceAccessVerdict _ _ _) eqn:Ev; try done.
    apply verdict_ok_iff in Ev as [<-|[? _]]; [|done]. destruct mayWrite; [|done]. intros [= <-]. cbn. by rewrite Ha.
Qed.

(** Only columns that no resolution reads change. *)
Lemma columns_same t s s' :
  served_ok (st_forest s) -> st_forest s' = st_forest s -> st_rows s' = st_rows s -> st_agents s' = st_agents s -> st_tenants s' = st_tenants s ->
  tenant_same t s s'.
Proof.
  intros Hs Hf Hr Ha Hn. apply same_intro; rewrite ?Hf, ?Ha; try done; [eauto 8|]. intros l sc k _. unfold own. by rewrite Hr.
Qed.

Lemma group_config_same t u gid admin config s :
  served_ok (st_forest s) -> t <> u -> tenant_same t s (snd (groupConfigHandler gid u admin config s)).
Proof.
  intros Hs Hn. unfold groupConfigHandler. destruct (loadGroup gid u Write _) as [|g] eqn:Hl; [by apply same_refl|]. apply load_own in Hl as [Hg Hu].
  destruct config as [| | | | | |l]; try by apply same_refl. cbv zeta. destruct (_ && _); [by apply same_refl|]. destruct (_ && _); [by apply same_refl|].
  unfold updateAgentGroupConfig. rewrite Hg. destruct (first_invalid _ _); [by apply same_refl|]. set (s1 := mergeGroupConfigColumn _ _ s). set (tg := {| tg_level := L_group |}).
  assert (H1 : tenant_same t s s1) by (apply columns_same; try done; unfold s1, mergeGroupConfigColumn; by destruct (has_group _ _)).
  assert (Hf : st_forest s1 = st_forest s) by (unfold s1, mergeGroupConfigColumn; by destruct (has_group _ _)).
  pose proof (writeMany_same t u tg (cascade_writes CASCADE_GROUP_KEYS (JObj (clean_config (JObj l)))) false s1 (ts_forest _ _ _ H1)) as H2.
  destruct (writeMany _ _ _ _) as [e s2]. cbn [snd] in H2. assert (tenant_same t s s2) by (apply (same_trans t s s1); [done|]; apply H2; [split; [done|]; cbn; rewrite Hf, Hg; cbn; congruence|done]).
  by destruct e.
Qed.

(** Columns of an agent of another tenant. *)
Lemma agent_same t u d data s a :
  served_ok (st_forest s) -> st_agents s !! d = Some a -> ac_tenant a = u -> t <> u -> tenant_same t s (update_agent d (update_columns data) s).
Proof.
  intros Hs Hd Ha Hn. apply same_intro; try done. intros d' a' Hd' Ha'. exists a'. split_and!; try done; [|by left]. cbn [update_agent set_agents st_agents].
  rewrite lookup_alter_ne; [done|]. intros ->. congruence.
Qed.

Lemma device_same t u d data s a :
  served_ok (st_forest s) -> st_agents s !! d = Some a -> ac_tenant a = u -> t <> u -> tenant_same t s (snd (updateDevice d data s)).
Proof.
  intros Hs Hd Ha Hn. unfold updateDevice. rewrite Hd. destruct (first_invalid _ _); [by apply same_refl|].
  pose proof (agent_same t u d data s a Hs Hd Ha Hn) as H1. apply (same_trans t s _ _ H1). apply (writeMany_same t u); [by apply (ts_forest _ _ _ H1)| |done].
  split; [done|]. cbn [row_live tg_level tg_scope update_agent set_agents st_agents]. rewrite lookup_alter, decide_True, Hd by done. by cbn; f_equal.
Qed.

Lemma bulk_same t u on ids s : served_ok (st_forest s) -> t <> u -> tenant_same t s (bulk_override u on ids s).
Proof.
  intros Hs Hn. unfold bulk_override. set (rows := List.filter _ _).
  assert (Hrows : forall kv, In kv rows -> st_agents s !! fst kv = Some (snd kv) /\ ac_tenant (snd kv) = u).
  { intros [d a] H. apply filter_In in H as [H E]. boolify. split; [by apply elem_of_map_to_list, list_elem_of_In|done]. }
  set (owned := fun s0 : SettingsDb => forall kv, In kv rows -> ac_tenant <$> st_agents s0 !! fst kv = Some u).
  assert (H1 : forall l s0, incl l rows -> served_ok (st_forest s0) -> owned s0 ->
    tenant_same t s0 (fold_left (fun s kv => update_agent (fst kv) (update_columns (override_data on)) s) l s0)
    /\ owned (fold_left (fun s kv => update_agent (fst kv) (update_columns (override_data on)) s) l s0)).
  { induction l as [|kv l IH]; intros s0 Hl Hs0 Ho; [split; [by apply same_refl|done]|]. cbn [fold_left]. pose proof (Ho kv (Hl kv (or_introl eq_refl))) as Hkv.
    destruct (st_agents s0 !! fst kv) as [a|] eqn:Ea; [|done]. injection Hkv as Hkv. pose proof (agent_same t u (fst kv) (override_data on) s0 a Hs0 Ea Hkv Hn) as Hstep.
    destruct (IH (update_agent (fst kv) (update_columns (override_data on)) s0)) as [Ha Hb]; [intros x Hx; apply Hl; by right|by apply (ts_forest _ _ _ Hstep)| |].
    - intros kv' Hin. cbn [update_agent set_agents st_agents]. rewrite lookup_alter. case_decide as E; [|by apply Ho]. rewrite Ea. by cbn; f_equal.
    - split; [by apply (same_trans t s0 _ _ Hstep)|done]. }
  assert (H2 : forall l s0, incl l rows -> served_ok (st_forest s0) -> owned s0 -> tenant_same t s0 (fold_left (override_write u on) l s0)).
  { induction l as [|kv l IH]; intros s0 Hl Hs0 Ho; [by apply same_refl|]. cbn [fold_left].
    assert (Hloc : local_target s0 u {| tg_level := L_agent; tg_scope := Some (fst kv); tg_tenant := u |}) by (split; [done|]; by apply Ho, Hl; left).
    destruct (write_same t u _ (JStr "checkIntervalSeconds") (override_value on (snd kv)) false s0 Hs0 Hloc Hn) as [Hstep _]. fold (override_write u on s0 kv) in Hstep.
    apply (same_trans t s0 _ _ Hstep). apply IH; [intros x Hx; apply Hl; by right|by apply (ts_forest _ _ _ Hstep)|]. intros kv' Hin. rewrite override_write_eq. by apply Ho. }
  assert (Ho : owned s) by (intros kv Hin; destruct (Hrows kv Hin) as [-> <-]; done). destruct (H1 rows s (incl_refl _) Hs Ho) as [Ha Hb].
  apply (same_trans t s _ _ Ha). apply (H2 rows); [apply incl_refl|by apply (ts_forest _ _ _ Ha)|done].
Qed.

(** ** Groups and agents *)

Lemma insert_foreign t u (m : gmap Z GroupNode) i y :
  gn_tenant y = u -> t <> u -> (forall y0, m !! i = Some y0 -> gn_tenant y0 = u) ->
  forall g x, gn_tenant x = t -> m !! g = Some x <-> <[i := y]> m !! g = Some x.
Proof.
  intros Hy Hn Hi g x Hx. rewrite lookup_insert. case_decide as E; [subst g|done]. split; [intros H; specialize (Hi _ H); congruence|intros [= ->]; congruence].
Qed.

Lemma deleted_tenant f i u g : served_ok f -> gn_tenant <$> fo_groups f !! i = Some u -> In g (snd (fst (delete_group i f))) -> gn_tenant <$> fo_groups f !! g = Some u.
Proof.
  intros [Hok _ Hl] Hi Hin. unfold delete_group in Hin. destruct (fo_groups f !! i) as [gi|] eqn:Ei; [|done]. cbn [fst snd] in Hin. rewrite uniq_in in Hin.
  assert (Hunder : is_Some (fo_closure f !! (i, g))).
  { rewrite <- (sub_spec f i g), mem_In. unfold sub. destruct Hin as [<-|Hin]; [|done]. apply mem_In, sub_spec. by eapply under_self. }
  destruct Hunder as [k Hc]. apply closure_up in Hc as [_ Hc]; [|by apply Hok]. pose proof Hc as Hc'. apply up_dom in Hc' as [[x Hx] _]. rewrite Hx. cbn.
  injection Hi as <-. f_equal. symmetry. by apply (local_up _ _ _ _ _ _ Hl Hc Hx Ei).
Qed.

Lemma foreign_groups f u r t : served_ok f -> t <> u ->
  forall g x, gn_tenant x = t -> fo_groups f !! g = Some x <-> fo_groups (GroupTree.serve f (u, r)) !! g = Some x.
Proof.
  intros Hf Hn g x Hx. pose proof Hf as [Hok Hnx Hl]. destruct r as [data ok|i data|i np ok|i|items ok]; cbn [GroupTree.serve].
  - unfold createHandler. set (verdict := match cg_parentId data with Some p => _ | None => V_ok end). destruct verdict; [|done..]. destruct (negb ok); [done|].
    assert (Hfresh : forall y0, fo_groups f !! fo_next f = Some y0 -> gn_tenant y0 = u)
      by (intros y0 H0; assert (0 < fo_next f < fo_next f) by (apply (ok_ids _ Hok); eauto); lia).
    unfold create. destruct (ensureUniqueSlug _ _ _); [|done]. destruct (match cg_parentId data with Some p => _ | None => _ end); [done|]. cbv zeta.
    destruct (insert_closure [_] _); [|cbn; by apply (insert_foreign t u)]. destruct (insert_closure _ _); cbn; by apply (insert_foreign t u).
  - unfold updateHandler. destruct (loadGroup i u Write f) as [|g0] eqn:El; [done|]. apply load_own in El as [Hi Hu]. unfold update.
    destruct (match ug_name data with Some n => _ | None => _ end); [|done]. rewrite Hi. cbn. apply (insert_foreign t u); [done|done|congruence|done].
  - unfold moveHandler. destruct (loadGroup i u Write f) as [|g0] eqn:El; [done|]. apply load_own in El as [Hi Hu].
    destruct (match np with Some p => _ | None => None end); [done|]. destruct (_ && _); [done|].
    unfold move. rewrite Hi. destruct (match np with Some p => bool_decide (is_Some _) | None => false end); [done|].
    destruct (insert_closure _ _); [|done]. destruct (match np with Some p => bool_decide (_ = None) | None => false end); [done|]. cbn.
    apply (insert_foreign t u); [done|done|congruence|done].
  - unfold deleteHandler. destruct (loadGroup i u Write f) as [|g0] eqn:El; [done|]. apply load_own in El as [Hi Hu].
    destruct (deleted_groups f i Hok ltac:(eauto)) as [_ Hk]. destruct (delete_group i f) as [[b ids] f'] eqn:Ed. cbn [fst snd] in *. rewrite Hk.
    split; [|by intros [? _]]. intros Hg. split; [done|]. intros Hin.
    pose proof (deleted_tenant f i u g Hf ltac:(rewrite Hi; cbn; by f_equal)) as H. rewrite Ed in H. specialize (H Hin). rewrite Hg in H. injection H as H. congruence.
  - unfold reorderHandler. destruct (bool_decide _); [done|]. destruct (List.find _ _); [done|]. destruct (negb ok); [done|]. cbn [snd reorder fo_groups].
    clear - Hn Hx. generalize (fo_groups f). induction items as [|[i n] items IH]; intros m; [done|]. cbn [fold_left]. rewrite <- IH.
    destruct (m !! i) as [y|] eqn:Hi; [|done]. destruct (Z.eqb_spec (gn_tenant y) u) as [Hy|]; [|done].
    apply (insert_foreign t u); [done|done|congruence|done].
Qed.

Lemma scopes_same t u level ids s s1 l sc k :
  tenant_same t s s1 -> t <> u -> (forall i, In i ids -> row_live s level (Some i) u) -> level <> L_global -> scope_in s t l sc ->
  own (removeScopes level ids s1) l sc k = own s l sc k.
Proof.
  intros H1 Hn Hids Hl Hsc. rewrite scopes_own, in_scopes_none; [by apply (ts_rows _ _ _ H1)|]. intros i -> -> Hin. specialize (Hids i Hin).
  destruct Hsc as [?|Hsc]; [done|]. unfold row_live in *. destruct level; congruence.
Qed.

Lemma group_request_same t u r s : served_ok (st_forest s) -> t <> u -> tenant_same t s (groupRequest u r s).
Proof.
  intros Hs Hn. assert (Hgrow : tenant_same t s (set_forest (fun f => GroupTree.serve f (u, r)) s)).
  { apply same_intro; try done; [by apply forest_serve_ok|by apply foreign_groups|eauto 8]. }
  destruct r as [data ok|i data|i np ok|i|items ok]; try exact Hgrow. cbn [groupRequest].
  destruct (loadGroup i u Write (st_forest s)) as [|g] eqn:Hl; [by apply same_refl|]. pose proof (load_own _ _ _ _ Hl) as [Hg Hu].
  pose proof (forest_serve_ok (st_forest s) (u, G_delete i) Hs) as Hf. pose proof (foreign_groups (st_forest s) u (G_delete i) t Hs Hn) as Hfg.
  pose proof (fun x => deleted_tenant (st_forest s) i u x Hs ltac:(rewrite Hg; cbn; by f_equal)) as Hids.
  cbn [GroupTree.serve] in Hf, Hfg. unfold deleteHandler in Hf, Hfg. rewrite Hl in Hf, Hfg. destruct (delete_group i (st_forest s)) as [[deleted ids] f]. cbn [fst snd] in *.
  set (gone := fun x => negb (bool_decide (is_Some (fo_groups f !! x)))). set (s1 := forget_groups gone (set_forest (fun _ => f) s)).
  assert (H1 : tenant_same t s s1).
  { apply same_intro; try done. intros d a Hd Ha. unfold s1. cbn [forget_groups set_agents st_agents set_configs set_forest]. rewrite lookup_fmap, Hd. cbn.
    destruct (ac_group a) as [x|] eqn:Ex; [|eauto 8]. destruct (gone x) eqn:Eg; [|exists a; split_and!; try done; left; congruence].
    eexists. split; [done|]. split_and!; try done. right. split; [done|]. exists x. split; [done|]. intros H. unfold gone in Eg. apply negb_true_iff, bool_decide_eq_false in Eg.
    apply Eg. destruct (fo_groups (st_forest s) !! x) as [y|] eqn:Ey; [|done]. injection H as H. exists y. by apply (Hfg x y H). }
  destruct deleted; [|done]. apply (same_trans t s s1); [done|]. split; [apply (ts_forest _ _ _ H1)|done|intros d a Hd Ha; exists a; done| |done].
  intros l sc k Hsc. rewrite scopes_own, in_scopes_none; [done|]. intros x -> -> Hin. specialize (Hids x Hin). destruct Hsc as [?|Hsc]; [done|]. cbn in Hsc.
  destruct (fo_groups f !! x) as [y|] eqn:Ey; [|done]. injection Hsc as Hy. change (fo_groups (st_forest s1)) with (fo_groups f) in Ey. apply (Hfg x y Hy) in Ey. rewrite Ey in Hids. injection Hids as ?. congruence.
Qed.

Lemma serve_same t u q s :
  served_ok (st_forest s) -> u <> MASTER_TENANT_ID -> t <> u -> (forall body, q <> S_global true body) -> tenant_same t s (serve s (u, q)).
Proof.
  intros Hs Hu Hn Hq. destruct q as [level i ok entries|level i ok key|i admin config|admin body|i data|on ids|r|d ci|ids]; cbn [serve].
  - unfold setHandler. destruct (first_invalid _ _); [by apply same_refl|]. destruct (resolveTarget _ _ _ _ _) as [|tg] eqn:Ht; [by apply same_refl|].
    apply resolve_local in Ht; [|done]. pose proof (writeMany_same t u tg entries true s Hs Ht Hn) as H. by destruct (writeMany _ _ _ _) as [[e|] s1].
  - unfold resetHandler. destruct (writableDefinition _ _) as [|def]; [by apply same_refl|]. destruct (resolveTarget _ _ _ _ _) as [|tg] eqn:Ht; [by apply same_refl|].
    apply resolve_local in Ht; [|done]. destruct (write_same t u tg (JStr (sd_key def)) JNull true s Hs Ht Hn) as [H _]. by destruct (write _ _ _ _ _) as [[e|x] s1].
  - by apply group_config_same.
  - destruct admin; [by destruct (Hq body)|by apply same_refl].
  - destruct (st_agents s !! i) as [a|] eqn:Ha; [|by apply same_refl]. destruct (Z.eqb_spec (ac_tenant a) u) as [E|]; [by apply (device_same t u i data s a)|by apply same_refl].
  - by apply bulk_same.
  - by apply group_request_same.
  - destruct (st_agents s !! d) eqn:Hd; [by apply same_refl|]. apply same_intro; try done.
    intros i a Hi Ha. exists a. split_and!; try done; [|by left]. cbn [set_agents st_agents]. rewrite lookup_insert_ne; [done|]. intros ->. congruence.
  - cbv zeta. set (gone := List.filter _ ids). set (s1 := set_agents _ s).
    assert (Hgone : forall i, In i gone -> ac_tenant <$> st_agents s !! i = Some u).
    { intros i Hi. apply filter_In in Hi as [_ Hi]. destruct (st_agents s !! i) as [a|]; [|done]. boolify. cbn. by f_equal. }
    apply same_intro; try done.
    + intros i a Hi Ha. exists a. split_and!; try done; [|by left]. cbn [removeScopes set_rows st_agents set_agents s1]. apply map_lookup_filter_Some. split; [done|]. cbn.
      apply not_true_iff_false. rewrite mem_In. intros Hin. apply Hgone in Hin. rewrite Hi in Hin. injection Hin as Hin. congruence.
    + intros l sc k Hsc. rewrite scopes_own, in_scopes_none; [done|]. intros i -> -> Hin. apply Hgone in Hin. destruct Hsc as [?|Hsc]; [done|]. cbn in Hsc. congruence.
Qed.

(** ** The resolution reads nothing else *)

Lemma omap_group_levels s t l :
  omap (group_level s t) l = omap (group_level s t) (List.filter (fun i => bool_decide (gn_tenant <$> fo_groups (st_forest s) !! i = Some t)) l).
Proof.
  induction l as [|g l IH]; [done|]. change (omap (group_level s t) (g :: l)) with (match group_level s t g with Some y => y :: omap (group_level s t) l | None => omap (group_level s t) l end).
  cbn [List.filter]. case_bool_decide as H.
  - change (omap (group_level s t) (g :: ?r)) with (match group_level s t g with Some y => y :: omap (group_level s t) r | None => omap (group_level s t) r end). by rewrite <- IH.
  - rewrite <- IH. unfold group_level at 1. destruct (fo_groups (st_forest s) !! g) as [x|]; [|done]. destruct (Z.eqb_spec (gn_tenant x) t) as [E|]; [|done]. destruct H. cbn. by f_equal.
Qed.

Lemma group_level_same s s' t g : tenant_same t s s' -> group_level s' t g = group_level s t g.
Proof.
  intros H. unfold group_level. pose proof (ts_groups t s s' H g) as Hg.
  destruct (fo_groups (st_forest s) !! g) as [x|] eqn:E, (fo_groups (st_forest s') !! g) as [y|] eqn:E'; try done.
  - destruct (Z.eqb_spec (gn_tenant x) t) as [Ex|Ex], (Z.eqb_spec (gn_tenant y) t) as [Ey|Ey]; try done.
    + destruct (Hg x Ex) as [H1 _]. specialize (H1 eq_refl). by injection H1 as ->.
    + destruct (Hg x Ex) as [H1 _]. specialize (H1 eq_refl). congruence.
    + destruct (Hg y Ey) as [_ H1]. specialize (H1 eq_refl). congruence.
  - destruct (Z.eqb_spec (gn_tenant x) t) as [Ex|Ex]; [|done]. destruct (Hg x Ex) as [H1 _]. by specialize (H1 eq_refl).
  - destruct (Z.eqb_spec (gn_tenant y) t) as [Ey|Ey]; [|done]. destruct (Hg y Ey) as [_ H1]. by specialize (H1 eq_refl).
Qed.

Lemma device_levels_same s s' t d a a' :
  served_ok (st_forest s) -> tenant_same t s s' -> ac_tenant a = t -> ac_tenant a' = t -> ac_evaluate_only a' = ac_evaluate_only a ->
  inherited_groups s' a' = inherited_groups s a ->
  deviceChain (loadSnapshot s') (refOf d a') = deviceChain (loadSnapshot s) (refOf d a).
Proof.
  intros Hs H Ha Ha' He Hi. unfold deviceChain. cbn [refOf dr_id dr_tenant dr_group dr_evaluate_only]. rewrite He, Ha, Ha'. unfold tenantLevel. cbn [loadSnapshot loadFrom sn_tenants].
  rewrite (ts_tenants _ _ _ H). do 2 f_equal.
  assert (Hlv : forall s0 b, served_ok (st_forest s0) -> ac_tenant b = t -> groupLevels (loadSnapshot s0) (ac_group b) t true = rev (omap (group_level s0 t) (inherited_groups s0 b))).
  { intros s0 b H0 Hb. unfold inherited_groups. rewrite Hb. destruct (ac_group b); [|done]. rewrite group_levels by apply H0. by rewrite omap_group_levels. }
  rewrite !Hlv, Hi; [|done|done|by apply (ts_forest _ _ _ H)|done].
  assert (E : omap (group_level s' t) (inherited_groups s a) = omap (group_level s t) (inherited_groups s a)); [|by rewrite E].
  apply list_omap_ext, Forall2_same_length_lookup. split; [done|]. intros j x y Hx Hy. assert (x = y) as <- by congruence. by apply group_level_same.
Qed.

Lemma fold_left_same {A B} (f g : A -> B -> A) l x : (forall y b, b ∈ l -> f y b = g y b) -> fold_left f l x = fold_left g l x.
Proof. revert x. induction l as [|b l IH]; intros x H; [done|]. cbn. rewrite H by set_solver. apply IH. intros. apply H. set_solver. Qed.

Lemma explicit_same s s' t def lvl : tenant_same t s s' -> scope_in s t (cl_level lvl) (cl_scope lvl) -> explicit (loadSnapshot s') def lvl = explicit (loadSnapshot s) def lvl.
Proof. intros H Hsc. unfold explicit. rewrite !stored_lookup. by rewrite (ts_rows _ _ _ H). Qed.

Lemma resolve_same s s' t chain :
  tenant_same t s s' -> (forall lvl, lvl ∈ chain -> scope_in s t (cl_level lvl) (cl_scope lvl)) -> resolveChain (loadSnapshot s') chain = resolveChain (loadSnapshot s) chain.
Proof.
  intros H Hc. unfold resolveChain. apply fold_left_same. intros out def _. f_equal. unfold resolve_one. destruct (sd_resolution def); try done.
  - apply fold_left_same. intros res lvl Hl. by rewrite (explicit_same s s' t) by (try apply Hc; done).
  - unfold resolve_fields. replace (fold_left (read_level (loadSnapshot s') def) chain (default_fields def, None))
      with (fold_left (read_level (loadSnapshot s) def) chain (default_fields def, None)); [done|].
    apply fold_left_same. intros st lvl Hl. unfold read_level. by rewrite (explicit_same s s' t) by (try apply Hc; done).
  - apply fold_left_same. intros res lvl Hl. by rewrite (explicit_same s s' t) by (try apply Hc; done).
Qed.

Lemma chain_scopes s d a lvl : settings_ok s -> st_agents s !! d = Some a -> lvl ∈ deviceChain (loadSnapshot s) (refOf d a) -> scope_in s (ac_tenant a) (cl_level lvl) (cl_scope lvl).
Proof.
  intros Hok Hd Hin. unfold deviceChain in Hin. cbn [refOf dr_id dr_tenant dr_group dr_evaluate_only] in Hin. apply elem_of_app in Hin as [Hin|Hin].
  - apply elem_of_cons in Hin as [->|Hin]; [by left|]. apply list_elem_of_singleton in Hin as ->. by right.
  - apply elem_of_app in Hin as [Hin|Hin]; [|apply list_elem_of_singleton in Hin as ->; right; cbn; by rewrite Hd].
    destruct (ac_group a) as [g|]; [|by apply elem_of_nil in Hin]. rewrite group_levels in Hin by apply (ok_closure _ (sv_forest _ (so_forest s Hok))).
    rewrite list_elem_of_In, <- in_rev in Hin. apply list_elem_of_In, list_elem_of_omap in Hin as (i & _ & Hi). unfold group_level in Hi.
    destruct (fo_groups (st_forest s) !! i) as [x|] eqn:E; [|done]. destruct (Z.eqb_spec (gn_tenant x) (ac_tenant a)) as [Ex|]; [|done]. injection Hi as <-.
    right. cbn. rewrite E. cbn. by f_equal.
Qed.

(** The agent is still there, in its tenant, and resolves to exactly the same settings. *)
Definition resolves_alike (s s' : SettingsDb) (d : Z) (a : AgentColumns) : Prop :=
  exists a', st_agents s' !! d = Some a' /\ ac_tenant a' = ac_tenant a
    /\ resolveForDevice (loadSnapshot s') (refOf d a') = resolveForDevice (loadSnapshot s) (refOf d a).

(** C36. No request of a tenant other than the Default one changes what an agent of another tenant
    resolves to, apart from the older endpoint of the global agent configuration. *)
Theorem settings_isolated requests u q d a
    (Hu : u <> MASTER_TENANT_ID) (Hq : forall body, q <> S_global true body)
    (Hd : st_agents (fold_left serve requests empty_settings) !! d = Some a) (Ha : ac_tenant a <> u) :
  let s := fold_left serve requests empty_settings in
  resolves_alike s (serve s (u, q)) d a.
Proof.
  cbv zeta. set (s := fold_left serve requests empty_settings) in *. pose proof (settings_ok_run requests) as Hok. fold s in Hok.
  pose proof (serve_same (ac_tenant a) u q s (so_forest s Hok) Hu Ha Hq) as H.
  destruct (ts_agents _ _ _ H d a Hd eq_refl) as (a' & H1 & H2 & H3 & H4). exists a'. split_and!; [done|done|]. unfold resolveForDevice.
  rewrite (device_levels_same s _ (ac_tenant a) d a a' (so_forest s Hok) H eq_refl H2 H3 H4). f_equal. apply (resolve_same s _ (ac_tenant a) _ H).
  intros lvl Hl. by apply (chain_scopes s d a).
Qed.

(** The older endpoint changes the global settings whatever tenant is operated. *)
Lemma agent_global_any_tenant u :
  own (serve empty_settings (u, S_global true (JObj [("checkIntervalSeconds", JNum (NInt 300))]))) L_global None "checkIntervalSeconds" = Some (V_num 300).
Proof. by vm_compute. Qed.

Lemma settings_isolated_witness :
  exists a', st_agents (serve sample_settings (4, S_set L_tenant 4 true (interval_entry 45))) !! 7 = Some a' /\ ac_tenant a' = 3.
Proof.
  destruct (settings_isolated sample_requests 4 (S_set L_tenant 4 true (interval_entry 45)) 7 sample_agent) as (a' & H1 & H2 & _).
  - by vm_compute.
  - done.
  - exact sample_agent_columns.
  - by vm_compute.
  - exists a'. split; [exact H1|exact H2].
Defined.
