(* ===== verification/SettingsCache.v ===== *)
(** * The cached snapshot of the settings ([server/src/services/agentConfig.service.ts])

    [getSnapshot] and [invalidate] as the event loop interleaves them: the database is written
    by requests that call [invalidate] when they are done, snapshots are loaded by four
    queries that each see the database of their moment, and a load ends in two callbacks. *)

From S2P Require Import Prelude JsString JsValue JsJson Tenancy Access Query GroupTree SettingsStore SettingsSync SettingsResolve.

Definition SNAPSHOT_TTL_MS : Z := 15000.

(** A snapshot by the states of the database its four queries saw (the number of statements
    that had changed it). *)
Record Versions := { vs_rows : nat; vs_groups : nat; vs_closure : nat; vs_tenants : nat }.

(** A running [loadSnapshot]: the generation it started under (and the version covered by
    then), what its queries have seen, its value once all four are done. *)
Record Load := {
  ld_gen : Z; ld_floor : nat; ld_rows : option nat; ld_groups : option nat; ld_closure : option nat; ld_tenants : option nat; ld_value : option Versions
}.
Definition new_load (gen : Z) (floor : nat) : Load :=
  {| ld_gen := gen; ld_floor := floor; ld_rows := None; ld_groups := None; ld_closure := None; ld_tenants := None; ld_value := None |}.

(** [cc_snapshot], [cc_loading], [cc_generation] are the module's variables (a snapshot with its
    [at]), [cc_loads] the promises; [cc_covered] is the version of the database at the last
    [invalidate]. [cc_waiting] holds the calls that await a load, [cc_served] the answers, both
    with the version that was covered when the call was made. *)
Record Cache := {
  cc_now : Z; cc_version : nat; cc_covered : nat; cc_snapshot : option (Versions * Z); cc_loading : option nat; cc_generation : Z;
  cc_loads : gmap nat Load; cc_next : nat; cc_waiting : gmap nat (nat * nat); cc_served : gmap nat (Versions * nat)
}.

Inductive Query4 := Q_rows | Q_groups | Q_closure | Q_tenants.
Inductive Event :=
| E_tick (ms : Z) (** time passes *)
| E_write (** a statement changes the database *)
| E_invalidate
| E_get (call : nat)
| E_read (load : nat) (q : Query4) (** a query answers *)
| E_then (load : nat) (** all four have: the [then] callback *)
| E_finally (load : nat) (** the [finally] callback; the callers resume *)
| E_fail (load : nat) (** a query fails: only [finally] runs, the callers get the error *).

Definition read_query (v : nat) (q : Query4) (l : Load) : Load :=
  let once o := match o with Some x => Some x | None => Some v end in
  {| ld_gen := ld_gen l; ld_floor := ld_floor l; ld_rows := match q with Q_rows => once (ld_rows l) | _ => ld_rows l end;
     ld_groups := match q with Q_groups => once (ld_groups l) | _ => ld_groups l end;
     ld_closure := match q with Q_closure => once (ld_closure l) | _ => ld_closure l end;
     ld_tenants := match q with Q_tenants => once (ld_tenants l) | _ => ld_tenants l end; ld_value := ld_value l |}.
Definition all_read (l : Load) : option Versions :=
  match ld_rows l, ld_groups l, ld_closure l, ld_tenants l with
  | Some a, Some b, Some c, Some d => Some {| vs_rows := a; vs_groups := b; vs_closure := c; vs_tenants := d |}
  | _, _, _, _ => None
  end.
Definition with_value (v : Versions) (l : Load) : Load :=
  {| ld_gen := ld_gen l; ld_floor := ld_floor l; ld_rows := ld_rows l; ld_groups := ld_groups l; ld_closure := ld_closure l; ld_tenants := ld_tenants l; ld_value := Some v |}.

Definition invalidate (c : Cache) : Cache :=
  {| cc_now := cc_now c; cc_version := cc_version c; cc_covered := cc_version c; cc_snapshot := None; cc_loading := None;
     cc_generation := cc_generation c + 1; cc_loads := cc_loads c; cc_next := cc_next c; cc_waiting := cc_waiting c; cc_served := cc_served c |}.

Definition fresh_snapshot (c : Cache) : option Versions :=
  match cc_snapshot c with Some (v, at_) => if cc_now c - at_ <? SNAPSHOT_TTL_MS then Some v else None | None => None end.
Definition getSnapshot (call : nat) (c : Cache) : Cache :=
  match fresh_snapshot c with
  | Some v => {| cc_now := cc_now c; cc_version := cc_version c; cc_covered := cc_covered c; cc_snapshot := cc_snapshot c; cc_loading := cc_loading c;
                 cc_generation := cc_generation c; cc_loads := cc_loads c; cc_next := cc_next c; cc_waiting := cc_waiting c;
                 cc_served := <[call := (v, cc_covered c)]> (cc_served c) |}
  | None =>
      let '(p, loads, next) := match cc_loading c with
                               | Some p => (p, cc_loads c, cc_next c)
                               | None => (cc_next c, <[cc_next c := new_load (cc_generation c) (cc_covered c)]> (cc_loads c), S (cc_next c))
                               end in
      {| cc_now := cc_now c; cc_version := cc_version c; cc_covered := cc_covered c; cc_snapshot := cc_snapshot c; cc_loading := Some p;
         cc_generation := cc_generation c; cc_loads := loads; cc_next := next; cc_waiting := <[call := (p, cc_covered c)]> (cc_waiting c); cc_served := cc_served c |}
  end.

(** [.then((s) => { if (gen === _generation) _snapshot = s; return s; })] *)
Definition load_then (p : nat) (c : Cache) : Cache :=
  match cc_loads c !! p with
  | Some l => match ld_value l, all_read l with
              | None, Some v =>
                  {| cc_now := cc_now c; cc_version := cc_version c; cc_covered := cc_covered c;
                     cc_snapshot := if ld_gen l =? cc_generation c then Some (v, cc_now c) else cc_snapshot c; cc_loading := cc_loading c;
                     cc_generation := cc_generation c; cc_loads := <[p := with_value v l]> (cc_loads c); cc_next := cc_next c;
                     cc_waiting := cc_waiting c; cc_served := cc_served c |}
              | _, _ => c
              end
  | None => c
  end.
(** The calls waiting on a load and what they get. *)
Definition answers (p : nat) (v : Versions) (c : Cache) : gmap nat (Versions * nat) :=
  (fun w => (v, snd w)) <$> filter (fun kw : nat * (nat * nat) => fst (snd kw) = p) (cc_waiting c).
(** [.finally(() => { if (_loading === p) _loading = null; })] *)
Definition load_ends (p : nat) (v : option Versions) (c : Cache) : Cache :=
  {| cc_now := cc_now c; cc_version := cc_version c; cc_covered := cc_covered c; cc_snapshot := cc_snapshot c;
     cc_loading := if bool_decide (cc_loading c = Some p) then None else cc_loading c; cc_generation := cc_generation c;
     cc_loads := delete p (cc_loads c); cc_next := cc_next c;
     cc_waiting := filter (fun kw : nat * (nat * nat) => fst (snd kw) <> p) (cc_waiting c);
     cc_served := match v with Some v => answers p v c ∪ cc_served c | None => cc_served c end |}.

Definition step (c : Cache) (e : Event) : Cache :=
  match e with
  | E_tick ms => {| cc_now := cc_now c + Z.max 0 ms; cc_version := cc_version c; cc_covered := cc_covered c; cc_snapshot := cc_snapshot c; cc_loading := cc_loading c;
                    cc_generation := cc_generation c; cc_loads := cc_loads c; cc_next := cc_next c; cc_waiting := cc_waiting c; cc_served := cc_served c |}
  | E_write => {| cc_now := cc_now c; cc_version := S (cc_version c); cc_covered := cc_covered c; cc_snapshot := cc_snapshot c; cc_loading := cc_loading c;
                  cc_generation := cc_generation c; cc_loads := cc_loads c; cc_next := cc_next c; cc_waiting := cc_waiting c; cc_served := cc_served c |}
  | E_invalidate => invalidate c
  | E_get call => match cc_waiting c !! call, cc_served c !! call with
                  | None, None => getSnapshot call c
                  | _, _ => c
                  end
  | E_read p q => {| cc_now := cc_now c; cc_version := cc_version c; cc_covered := cc_covered c; cc_snapshot := cc_snapshot c; cc_loading := cc_loading c;
                     cc_generation := cc_generation c; cc_loads := alter (read_query (cc_version c) q) p (cc_loads c); cc_next := cc_next c;
                     cc_waiting := cc_waiting c; cc_served := cc_served c |}
  | E_then p => load_then p c
  | E_finally p => match cc_loads c !! p with
                   | Some l => match ld_value l with Some v => load_ends p (Some v) c | None => c end
                   | None => c
                   end
  | E_fail p => match cc_loads c !! p with
                | Some l => match ld_value l with None => load_ends p None c | Some _ => c end
                | None => c
                end
  end.

Definition start : Cache :=
  {| cc_now := 0; cc_version := 0; cc_covered := 0; cc_snapshot := None; cc_loading := None; cc_generation := 0; cc_loads := ∅; cc_next := 0;
     cc_waiting := ∅; cc_served := ∅ |}.

(** ** What a snapshot covers *)

(** All four queries saw the database between two of its versions. *)
Definition covers (n m : nat) (v : Versions) : Prop :=
  (n <= vs_rows v <= m /\ n <= vs_groups v <= m /\ n <= vs_closure v <= m /\ n <= vs_tenants v <= m)%nat.
Definition seen_from (n m : nat) (o : option nat) : Prop := match o with Some x => (n <= x <= m)%nat | None => True end.

Record load_ok (c : Cache) (l : Load) : Prop := {
  lo_floor : (ld_floor l <= cc_version c)%nat;
  lo_gen : ld_gen l <= cc_generation c;
  lo_current : ld_gen l = cc_generation c -> ld_floor l = cc_covered c;
  lo_rows : seen_from (ld_floor l) (cc_version c) (ld_rows l);
  lo_groups : seen_from (ld_floor l) (cc_version c) (ld_groups l);
  lo_closure : seen_from (ld_floor l) (cc_version c) (ld_closure l);
  lo_tenants : seen_from (ld_floor l) (cc_version c) (ld_tenants l);
  lo_value : forall v, ld_value l = Some v -> all_read l = Some v
}.
Record cache_ok (c : Cache) : Prop := {
  ca_covered : (cc_covered c <= cc_version c)%nat;
  ca_snapshot : forall v at_, cc_snapshot c = Some (v, at_) -> covers (cc_covered c) (cc_version c) v /\ at_ <= cc_now c;
  ca_loading : forall p, cc_loading c = Some p -> exists l, cc_loads c !! p = Some l /\ ld_gen l = cc_generation c;
  ca_loads : forall p l, cc_loads c !! p = Some l -> (p < cc_next c)%nat /\ load_ok c l;
  ca_waiting : forall r p n, cc_waiting c !! r = Some (p, n) -> exists l, cc_loads c !! p = Some l /\ (n <= ld_floor l)%nat;
  ca_served : forall r v n, cc_served c !! r = Some (v, n) -> covers n (cc_version c) v
}.

Lemma all_read_covers c l v : load_ok c l -> all_read l = Some v -> covers (ld_floor l) (cc_version c) v.
Proof.
  intros [_ _ _ H1 H2 H3 H4 _]. unfold all_read. destruct (ld_rows l), (ld_groups l), (ld_closure l), (ld_tenants l); try done. intros [= <-].
  unfold covers, seen_from in *. cbn. lia.
Qed.

Lemma load_ok_later c c' l :
  load_ok c l -> (cc_version c <= cc_version c')%nat -> cc_generation c <= cc_generation c' -> (ld_gen l = cc_generation c' -> ld_floor l = cc_covered c') -> load_ok c' l.
Proof.
  intros [H1 H2 H3 H4 H5 H6 H7 H8] Hv Hg Hc. split; try done; try lia; unfold seen_from in *; [destruct (ld_rows l)|destruct (ld_groups l)|destruct (ld_closure l)|destruct (ld_tenants l)]; lia || done.
Qed.

(** A step that changes neither the generation nor what it covers. *)
Lemma load_ok_same c c' l : load_ok c l -> (cc_version c <= cc_version c')%nat -> cc_generation c' = cc_generation c -> cc_covered c' = cc_covered c -> load_ok c' l.
Proof. intros H Hv Hg Hc. apply (load_ok_later c); [done|done|lia|]. rewrite Hg, Hc. apply H. Qed.

Lemma covers_le n n' m m' v : (n <= n')%nat -> (m' <= m)%nat -> covers n' m' v -> covers n m v.
Proof. unfold covers. lia. Qed.

Lemma invalidate_ok c : cache_ok c -> cache_ok (invalidate c).
Proof.
  intros [H1 H2 H3 H4 H5 H6]. split; cbn [invalidate cc_covered cc_version cc_snapshot cc_loading cc_loads cc_next cc_waiting cc_served cc_now]; try done.
  intros p l Hl. destruct (H4 p l Hl) as [Hp Hok]. split; [done|]. apply (load_ok_later c); [done|done|cbn; lia|]. cbn. intros E. pose proof (lo_gen c l Hok). lia.
Qed.

Lemma get_ok call c : cache_ok c -> cache_ok (getSnapshot call c).
Proof.
  intros [H1 H2 H3 H4 H5 H6]. unfold getSnapshot. destruct (fresh_snapshot c) as [v|] eqn:Ef.
  - split; try done; cbn [cc_covered cc_version cc_snapshot cc_loading cc_loads cc_next cc_waiting cc_served cc_now].
    + intros p l Hl. destruct (H4 p l Hl) as [? ?]. split; [done|]. by apply (load_ok_same c).
    + intros r x n. intros [[<- [= <- <-]]|[_ H]]%lookup_insert_Some; [|by apply (H6 r)]. unfold fresh_snapshot in Ef.
      destruct (cc_snapshot c) as [[w t]|]; [|done]. destruct (_ <? _); [|done]. injection Ef as <-. by destruct (H2 w t).
  - destruct (cc_loading c) as [p|] eqn:El.
    + split; try done; cbn [cc_covered cc_version cc_snapshot cc_loading cc_loads cc_next cc_waiting cc_served cc_now].
      * intros q l Hl. destruct (H4 q l Hl) as [? ?]. split; [done|]. by apply (load_ok_same c).
      * intros r q n. intros [[<- [= <- <-]]|[_ H]]%lookup_insert_Some; [|by apply (H5 r)]. destruct (H3 p eq_refl) as (l & Hl & Hg). exists l. split; [done|].
        destruct (H4 p l Hl) as [_ Hok]. by rewrite (lo_current c l Hok Hg).
    + assert (Hnew : load_ok c (new_load (cc_generation c) (cc_covered c))) by (by split).
      split; try done; cbn [cc_covered cc_version cc_snapshot cc_loading cc_loads cc_next cc_waiting cc_served cc_now].
      * intros q [= <-]. exists (new_load (cc_generation c) (cc_covered c)). by rewrite lookup_insert_eq.
      * intros q l. intros [[<- <-]|[_ Hl]]%lookup_insert_Some; [split; [lia|by apply (load_ok_same c)]|]. destruct (H4 q l Hl) as [? ?]. split; [lia|by apply (load_ok_same c)].
      * intros r q n. intros [[<- [= <- <-]]|[_ H]]%lookup_insert_Some; [eexists; rewrite lookup_insert_eq; done|].
        destruct (H5 r q n H) as (l & Hl & Hn). exists l. split; [|done]. rewrite lookup_insert_ne; [done|]. destruct (H4 q l Hl). lia.
Qed.

Lemma then_ok p c : cache_ok c -> cache_ok (load_then p c).
Proof.
  intros Hc. pose proof Hc as [H1 H2 H3 H4 H5 H6]. unfold load_then. destruct (cc_loads c !! p) as [l|] eqn:Hl; [|done]. destruct (ld_value l) eqn:Hv; [done|].
  destruct (all_read l) as [v|] eqn:Ha; [|done]. destruct (H4 p l Hl) as [Hp Hok].
  assert (Hw : load_ok c (with_value v l)) by (destruct Hok; split; try done; by intros x [= <-]).
  split; try done; cbn [cc_covered cc_version cc_snapshot cc_loading cc_loads cc_next cc_waiting cc_served cc_now cc_generation].
  - intros x t. destruct (Z.eqb_spec (ld_gen l) (cc_generation c)) as [E|]; [|by apply H2]. intros [= <- <-]. split; [|lia].
    rewrite <- (lo_current c l Hok E). by apply (all_read_covers c).
  - intros q Hq. destruct (H3 q Hq) as (l' & Hl' & Hg). destruct (decide (p = q)) as [<-|Hn].
    + exists (with_value v l). rewrite lookup_insert_eq. split; [done|]. cbn. congruence.
    + exists l'. by rewrite lookup_insert_ne.
  - intros q l'. intros [[<- <-]|[_ Hl']]%lookup_insert_Some; [split; [done|by apply (load_ok_same c)]|]. destruct (H4 q l' Hl'). split; [done|by apply (load_ok_same c)].
  - intros r q n H. destruct (H5 r q n H) as (l' & Hl' & Hn). destruct (decide (p = q)) as [<-|Hne].
    + exists (with_value v l). rewrite lookup_insert_eq. split; [done|]. cbn. congruence.
    + exists l'. by rewrite lookup_insert_ne.
Qed.

Lemma ends_ok p l o c :
  cache_ok c -> cc_loads c !! p = Some l -> (forall v, o = Some v -> covers (ld_floor l) (cc_version c) v) -> cache_ok (load_ends p o c).
Proof.
  intros [H1 H2 H3 H4 H5 H6] Hl Ho. split; try done; cbn [load_ends cc_covered cc_version cc_snapshot cc_loading cc_loads cc_next cc_waiting cc_served cc_now cc_generation].
  - intros q. case_bool_decide as E; [done|]. intros Hq. destruct (H3 q Hq) as (l' & Hl' & Hg). exists l'. split; [|done]. rewrite lookup_delete_ne; [done|]. congruence.
  - intros q l' [_ Hl']%lookup_delete_Some. destruct (H4 q l' Hl'). split; [done|by apply (load_ok_same c)].
  - intros r q n [H Hne]%map_lookup_filter_Some. cbn in Hne. destruct (H5 r q n H) as (l' & Hl' & Hn). exists l'. by rewrite lookup_delete_ne.
  - intros r v n. destruct o as [v0|]; [|by apply H6]. intros [H|[_ H]]%lookup_union_Some_raw; [|by apply (H6 r)]. unfold answers in H.
    rewrite lookup_fmap in H. destruct (filter _ (cc_waiting c) !! r) as [[q m]|] eqn:E; [|done]. cbn in H. injection H as <- <-.
    apply map_lookup_filter_Some in E as [E Eq]. cbn in Eq. subst q. destruct (H5 r p m E) as (l' & Hl' & Hn). apply (covers_le _ (ld_floor l) _ (cc_version c)); [congruence|done|by apply Ho].
Qed.

Lemma seen_once n m o : seen_from n m o -> (n <= m)%nat -> seen_from n m (match o with Some x => Some x | None => Some m end).
Proof. by destruct o. Qed.

Lemma read_ok p q c : cache_ok c -> cache_ok (step c (E_read p q)).
Proof.
  intros [H1 H2 H3 H4 H5 H6]. split; try done; cbn [step cc_covered cc_version cc_snapshot cc_loading cc_loads cc_next cc_waiting cc_served cc_now cc_generation].
  - intros i Hi. destruct (H3 i Hi) as (l & Hl & Hg). rewrite lookup_alter. case_decide; [subst; rewrite Hl; cbn; eauto|eauto].
  - intros i l. rewrite lookup_alter. case_decide as E; [subst i|by intros Hl; destruct (H4 i l Hl); split; [|apply (load_ok_same c)]].
    destruct (cc_loads c !! p) as [l0|] eqn:Hl; [|done]. cbn. intros [= <-]. destruct (H4 p l0 Hl) as [Hp [G1 G2 G3 G4 G5 G6 G7 G8]]. split; [done|].
    split; cbn; try done; try (destruct q; cbn; try done; by apply seen_once).
    intros v Hv. specialize (G8 v Hv). unfold all_read in *. cbn. destruct (ld_rows l0), (ld_groups l0), (ld_closure l0), (ld_tenants l0); try done. by destruct q.
  - intros r i n H. destruct (H5 r i n H) as (l & Hl & Hn). rewrite lookup_alter. case_decide; [subst; rewrite Hl; cbn; eauto|eauto].
Qed.

Lemma step_ok c e : cache_ok c -> cache_ok (step c e).
Proof.
  intros Hc. destruct e as [ms| | |call|p q|p|p|p].
  - destruct Hc as [H1 H2 H3 H4 H5 H6]. split; try done; cbn [step cc_snapshot cc_now cc_loads cc_next].
    + intros v t H. destruct (H2 v t H). split; [done|lia].
    + intros p l Hl. destruct (H4 p l Hl). split; [done|by apply (load_ok_same c)].
  - destruct Hc as [H1 H2 H3 H4 H5 H6]. split; try done; cbn [step cc_version cc_covered cc_loads cc_next cc_snapshot cc_served cc_now].
    + lia.
    + intros v t H. destruct (H2 v t H). split; [|done]. apply (covers_le _ (cc_covered c) _ (cc_version c)); [done|lia|done].
    + intros p l Hl. destruct (H4 p l Hl). split; [done|]. apply (load_ok_same c); try done. cbn. lia.
    + intros r v n H. apply (covers_le _ n _ (cc_version c)); [done|lia|by apply (H6 r)].
  - by apply invalidate_ok.
  - cbn [step]. destruct (cc_waiting c !! call), (cc_served c !! call); try done. by apply get_ok.
  - by apply read_ok.
  - by apply then_ok.
  - cbn [step]. destruct (cc_loads c !! p) as [l|] eqn:Hl; [|done]. destruct (ld_value l) as [v|] eqn:Hv; [|done]. apply (ends_ok p l); [done|done|].
    intros x [= <-]. destruct (ca_loads c Hc p l Hl) as [_ Hok]. by apply (all_read_covers c), (lo_value c).
  - cbn [step]. destruct (cc_loads c !! p) as [l|] eqn:Hl; [|done]. destruct (ld_value l); [done|]. by apply (ends_ok p l).
Qed.

Lemma start_ok : cache_ok start.
Proof. split; try done; cbn; intros; by rewrite lookup_empty in *. Qed.

Lemma cache_ok_run events : cache_ok (fold_left step events start).
Proof.
  assert (H : forall c, cache_ok c -> cache_ok (fold_left step events c)).
  { induction events as [|e l IH]; intros c Hc; [done|]. apply IH. by apply step_ok. }
  apply H, start_ok.
Qed.

(** ** Read your writes *)

(** The version a call must see, wherever it stands. *)
Record asked (call n : nat) (c : Cache) : Prop := {
  as_covered : (n <= cc_covered c)%nat;
  as_waiting : forall p m, cc_waiting c !! call = Some (p, m) -> (n <= m)%nat;
  as_served : forall v m, cc_served c !! call = Some (v, m) -> (n <= m)%nat
}.

Lemma asked_step call n c e : cache_ok c -> asked call n c -> asked call n (step c e).
Proof.
  intros Hc [H1 H2 H3]. destruct e as [ms| | |call'|p q|p|p|p]; cbn [step].
  - by split.
  - by split.
  - split; try done. cbn. pose proof (ca_covered c Hc). lia.
  - destruct (cc_waiting c !! call') eqn:Ew, (cc_served c !! call') eqn:Es; try done. unfold getSnapshot.
    destruct (fresh_snapshot c); [|destruct (cc_loading c)]; (split; cbn; [done| |]); try done; intros ? ? [[<- [= <- <-]]|[_ H]]%lookup_insert_Some; eauto.
  - by split.
  - unfold load_then. destruct (cc_loads c !! p) as [l|]; [|done]. destruct (ld_value l); [done|]. destruct (all_read l); [|done]. by split.
  - destruct (cc_loads c !! p) as [l|]; [|done]. destruct (ld_value l) as [v|]; [|done]. split; cbn; [done| |].
    + intros q m [H _]%map_lookup_filter_Some. by apply (H2 q).
    + intros w m [H|[_ H]]%lookup_union_Some_raw; [|by apply (H3 w)]. unfold answers in H. rewrite lookup_fmap in H.
      destruct (filter _ (cc_waiting c) !! call) as [[q m']|] eqn:E; [|done]. injection H as <- <-. apply map_lookup_filter_Some in E as [E _]. by apply (H2 q).
  - destruct (cc_loads c !! p) as [l|]; [|done]. destruct (ld_value l) as [v|]; [done|]. split; cbn; [done| |done].
    intros q m [H _]%map_lookup_filter_Some. by apply (H2 q).
Qed.

Lemma asked_run call n l c : cache_ok c -> asked call n c -> asked call n (fold_left step l c).
Proof. revert c. induction l as [|e l IH]; intros c Hc H; [done|]. apply IH; [by apply step_ok|by apply asked_step]. Qed.

(** The data behind the versions, [db_at n] being the database after [n] statements. *)
Definition snapshot_of (db_at : nat -> SettingsDb) (v : Versions) : Snapshot :=
  loadFrom (db_at (vs_rows v)) (db_at (vs_groups v)) (db_at (vs_closure v)) (db_at (vs_tenants v)).

Lemma covers_exact db_at n v : covers n n v -> snapshot_of db_at v = loadSnapshot (db_at n).
Proof.
  unfold covers, snapshot_of, loadSnapshot. destruct v as [a b c d]. cbn. intros (A & B & C & D).
  assert (a = n) as -> by lia. assert (b = n) as -> by lia. assert (c = n) as -> by lia. by assert (d = n) as -> by lia.
Qed.

(** A call made after an [invalidate], however the loads, writes and other calls interleave,
    is answered from queries that all ran after the writes that invalidation followed: a request
    that has changed settings and invalidated never reads older ones; when nothing was written
    in between, the answer is the snapshot of the database as it is. *)
Theorem snapshot_sees_invalidated before call after v n
    (Hnew : cc_waiting (fold_left step before start) !! call = None /\ cc_served (fold_left step before start) !! call = None)
    (Hserved : cc_served (fold_left step (before ++ E_get call :: after) start) !! call = Some (v, n)) :
  let covered := cc_covered (fold_left step before start) in
  let version := cc_version (fold_left step (before ++ E_get call :: after) start) in
  covers covered version v /\ (version = covered -> forall db_at, snapshot_of db_at v = loadSnapshot (db_at covered)).
Proof.
  cbv zeta. set (c0 := fold_left step before start) in *.
  pose proof (ca_served _ (cache_ok_run (before ++ E_get call :: after)) call v n Hserved) as Hv.
  set (c := fold_left step (before ++ E_get call :: after) start) in *. assert (Ha : asked call (cc_covered c0) c0).
  { destruct Hnew as [Hw Hs]. split; [done|intros p m H; congruence|intros w m H; congruence]. }
  assert (Hn : (cc_covered c0 <= n)%nat).
  { apply (as_served call (cc_covered c0) c) with v; [|done]. unfold c. rewrite fold_left_app. apply asked_run; [apply cache_ok_run|done]. }
  assert (H : covers (cc_covered c0) (cc_version c) v) by (by apply (covers_le _ n _ (cc_version c))).
  split; [done|]. intros E db_at. apply covers_exact. by rewrite E in H.
Qed.

(** A call before the write, whose load spans it, and one after the invalidation. *)
Definition sample_events : list Event :=
  [E_get 0; E_read 0 Q_rows; E_write; E_read 0 Q_groups; E_invalidate].
Definition sample_after : list Event :=
  [E_read 0 Q_closure; E_read 0 Q_tenants; E_then 0; E_finally 0;
   E_read 1 Q_rows; E_read 1 Q_groups; E_read 1 Q_closure; E_read 1 Q_tenants; E_then 1; E_finally 1].

Lemma snapshot_sees_invalidated_witness :
  covers 1 1 {| vs_rows := 1; vs_groups := 1; vs_closure := 1; vs_tenants := 1 |}
  /\ fst <$> cc_served (fold_left step (sample_events ++ E_get 1 :: sample_after) start) !! 0%nat
     = Some {| vs_rows := 0; vs_groups := 1; vs_closure := 1; vs_tenants := 1 |}.
Proof.
  split; [|by vm_compute].
  refine (proj1 (snapshot_sees_invalidated sample_events 1 sample_after {| vs_rows := 1; vs_groups := 1; vs_closure := 1; vs_tenants := 1 |} 1 _ _)).
  - by vm_compute.
  - by vm_compute.
Defined.
