(* ===== verification/Pagination.v ===== *)
(** * Query strings of the lists ([server/src/utils/pagination.ts])

    Pages, limits, sort keys and search boxes read from a query string. The searches end in
    SQL: [Like] is what they use of ILIKE, with its documented behaviour as laws. *)

From S2P Require Import Prelude JsString JsValue IpValidation PgInet.

(** [toInt]: plain decimal strings of one to nine digits. *)
Definition unsigned (s : string) : option Z :=
  if str_forall is_digit s && negb (is_empty s) && (String.length s <=? 9)%nat then Some (digits_value 10 s) else None.
Definition toInt (v : js) : option Z :=
  match v with
  | JStr raw => match trim raw with
                | String "-" r => option_map Z.opp (unsigned r)
                | s => unsigned s
                end
  | _ => None
  end.
Definition at_least (lo : Z) (v : option Z) (d : Z) : Z := match v with Some z => if lo <=? z then z else d | None => d end.

Record Paging := { pg_page : Z; pg_size : Z; pg_offset : Z }.
Definition parsePaging (query : js) (defaultSize : Z) (max : option Z) (pageParam sizeParam : option string) : Paging :=
  let page := Z.min (at_least 1 (toInt (get_field (default "page" pageParam) query)) 1) 100000 in
  let size := Z.min (at_least 1 (toInt (get_field (default "pageSize" sizeParam) query)) defaultSize) (default 1000 max) in
  {| pg_page := page; pg_size := size; pg_offset := (page - 1) * size |}.
(** Limit and offset. *)
Definition parseLimitOffset (query : js) (defaultLimit : Z) (max : option Z) : Z * Z :=
  (Z.min (at_least 1 (toInt (get_field "limit" query)) defaultLimit) (default 1000 max),
   Z.min (at_least 0 (toInt (get_field "offset" query)) 0) 1000000).

Inductive SortOrder := Asc | Desc.
Record Sort := { so_by : string; so_order : SortOrder; so_explicit : bool }.
Definition parseSort (query : js) (allowed : list string) (sortBy : string) (sortOrder : SortOrder) : Sort :=
  let known := match get_field "sortBy" query with JStr k => existsb (String.eqb k) allowed | _ => false end in
  {| so_by := match get_field "sortBy" query with JStr k => if known then k else sortBy | _ => sortBy end;
     so_order := match get_field "sortOrder" query with
                 | JStr o => if String.eqb o "asc" then Asc else if String.eqb o "desc" then Desc else sortOrder
                 | _ => sortOrder
                 end;
     so_explicit := known |}.

(** [None] is undefined. *)
Definition queryString (v : js) (maxLen : nat) : option string :=
  match v with
  | JStr raw => if is_empty (trim raw) then None else Some (substring 0 maxLen (trim raw))
  | _ => None
  end.

(** [dates] is the reading of a date by [new Date(v)]: [None] for an invalid one. The result
    is undefined, null or a date. *)
Inductive QueryDate := D_undefined | D_null | D_date (ms : Z).
Definition queryDate (dates : string -> option Z) (v : js) : QueryDate :=
  match v with
  | JUndefined => D_undefined
  | JStr s => if is_empty s then D_undefined
              else if (64 <? String.length s)%nat then D_null
              else match dates s with Some d => D_date d | None => D_null end
  | _ => D_null
  end.

(** [v.replace(/[\\%_]/g, (c) => '\\' + c)] *)
Definition is_like_meta (c : ascii) : bool := Ascii.eqb c "\" || Ascii.eqb c "%" || Ascii.eqb c "_".
Fixpoint like_escape (v : string) : string :=
  match v with
  | EmptyString => EmptyString
  | String c r => if is_like_meta c then String "\" (String c (like_escape r)) else String c (like_escape r)
  end.
Definition likeContains (v : string) : string := String "%" (like_escape v +:+ "%").

Inductive IpSearch := IS_exact (value : string) | IS_cidr (value : string) | IS_text (pattern : string).
Definition parseIpSearch (raw : string) : IpSearch :=
  match parseIpOrCidr (JStr raw) with
  | Some p => if prefix p =? bits (family p) then IS_exact (address p) else IS_cidr (address p +:+ "/" +:+ dec (prefix p))
  | None => IS_text (likeContains (substring 0 64 raw))
  end.

(** ** LIKE *)

Fixpoint suffixes (s : string) : list string := s :: match s with String _ r => suffixes r | EmptyString => [] end.

(** [s ILIKE pattern], with the default escape character; [fold] is what the database does to
    a character to ignore its case. *)
Class Like := { ilike : string -> string -> bool; fold_case : ascii -> ascii }.
Definition literal `{Like} (c : ascii) (rest : string -> bool) (s : string) : bool :=
  match s with String d r => Ascii.eqb (fold_case c) (fold_case d) && rest r | EmptyString => false end.
Class LikeLaws (L : Like) := {
  like_nil s : ilike s "" = is_empty s;
  like_percent p s : ilike s (String "%" p) = existsb (fun t => ilike t p) (suffixes s);
  like_any p s : ilike s (String "_" p) = match s with String _ r => ilike r p | EmptyString => false end;
  like_quoted c p s : ilike s (String "\" (String c p)) = literal c (fun r => ilike r p) s;
  like_char c p s : is_like_meta c = false -> ilike s (String c p) = literal c (fun r => ilike r p) s
}.

Fixpoint like_text (p : string) : string -> bool :=
  match p with
  | EmptyString => is_empty
  | String "%" p' => fun s => existsb (like_text p') (suffixes s)
  | String "_" p' => fun s => match s with String _ r => like_text p' r | EmptyString => false end
  | String "\" (String c p') => fun s => match s with String d r => Ascii.eqb (char_lower c) (char_lower d) && like_text p' r | EmptyString => false end
  | String c p' => fun s => match s with String d r => Ascii.eqb (char_lower c) (char_lower d) && like_text p' r | EmptyString => false end
  end.
#[export] Instance TextLike : Like := { ilike s p := like_text p s; fold_case := char_lower }.
#[export] Instance TextLike_laws : LikeLaws TextLike.
Proof.
  split; try done. intros c p s Hc. unfold is_like_meta in Hc. cbn [ilike TextLike].
  destruct c as [[] [] [] [] [] [] [] []]; try done.
Qed.

(** The rows a search keeps: [ipSearchSql] applied to a column [host] prints. *)
Definition ip_search_matches `{PG : PgInet} `{L : Like} (host : inet -> string) (q : IpSearch) (i : inet) : option bool :=
  match q with
  | IS_exact v => option_map (fun j => bool_decide (i = j)) (inet_in v)
  | IS_cidr v => option_map (fun j => inet_sup j i) (inet_in v)
  | IS_text p => Some (ilike (host i) p)
  end.

(** ** Bounds *)

Lemma at_least_lo lo v d : lo <= d -> lo <= at_least lo v d.
Proof. unfold at_least. destruct v as [z|]; [|done]. destruct (Z.leb_spec lo z); lia. Qed.

Theorem paging_bounded query defaultSize max pageParam sizeParam
    (Hd : 1 <= defaultSize) (Hm : 1 <= default 1000 max) :
  let p := parsePaging query defaultSize max pageParam sizeParam in
  1 <= pg_page p <= 100000 /\ 1 <= pg_size p <= default 1000 max /\ 0 <= pg_offset p <= 99999 * default 1000 max.
Proof.
  cbv zeta. unfold parsePaging. cbn [pg_page pg_size pg_offset].
  pose proof (at_least_lo 1 (toInt (get_field (default "page" pageParam) query)) 1 ltac:(lia)).
  pose proof (at_least_lo 1 (toInt (get_field (default "pageSize" sizeParam) query)) defaultSize Hd).
  set (m := default 1000 max) in *. set (a := at_least 1 _ 1) in *. set (b := at_least 1 _ defaultSize) in *.
  assert (1 <= Z.min a 100000 <= 100000) by lia. assert (1 <= Z.min b m <= m) by lia. nia.
Qed.

Lemma sort_key_known query allowed sortBy sortOrder :
  let s := parseSort query allowed sortBy sortOrder in
  (so_explicit s = true -> In (so_by s) allowed) /\ (so_explicit s = false -> so_by s = sortBy).
Proof.
  cbv zeta. unfold parseSort. cbn [so_by so_explicit]. destruct (get_field "sortBy" query) as [| | | |k| |]; try done.
  destruct (existsb (String.eqb k) allowed) eqn:E; split; try done. intros _. apply existsb_exists in E as (x & Hx & E). by apply String.eqb_eq in E as ->.
Qed.

(** ** A search is a substring test *)

Section Search.
Context `{L : Like} `{!LikeLaws L}.

Fixpoint fold_text (s : string) : string := match s with EmptyString => EmptyString | String c r => String (fold_case c) (fold_text r) end.

Lemma like_escape_literal v p s :
  ilike s (like_escape v +:+ p) = match v with EmptyString => ilike s p | String c r => literal c (fun t => ilike t (like_escape r +:+ p)) s end.
Proof.
  destruct v as [|c v]; [done|]. cbn [like_escape]. destruct (is_like_meta c) eqn:E; cbn [String.append]; [by rewrite like_quoted|by rewrite like_char].
Qed.

Lemma any_suffix s : existsb (fun t => is_empty t) (suffixes s) = true.
Proof. induction s as [|c s IH]; [done|]. cbn. by rewrite IH. Qed.

Lemma existsb_ext {A} (f g : A -> bool) l : (forall x, f x = g x) -> existsb f l = existsb g l.
Proof. intros H. induction l as [|x l IH]; [done|]. cbn. by rewrite H, IH. Qed.

Lemma like_prefix v s : ilike s (like_escape v +:+ "%") = starts_with (fold_text v) (fold_text s).
Proof.
  revert s. induction v as [|c v IH]; intros s; rewrite like_escape_literal.
  - rewrite like_percent. erewrite existsb_ext by (intros; apply like_nil). by rewrite any_suffix.
  - destruct s as [|d s]; [done|]. cbn [literal fold_text starts_with]. by rewrite IH.
Qed.

Lemma suffix_contains (v s : string) : existsb (fun t => starts_with (fold_text v) (fold_text t)) (suffixes s) = contains (fold_text v) (fold_text s).
Proof. induction s as [|d s IH]; [cbn; by rewrite orb_false_r|]. cbn [suffixes existsb fold_text contains]. by rewrite IH. Qed.

Lemma search_is_substring v s : ilike s (likeContains v) = contains (fold_text v) (fold_text s).
Proof. unfold likeContains. rewrite like_percent. erewrite existsb_ext by (intros; apply like_prefix). apply suffix_contains. Qed.
End Search.

(** The boxes that filter a list by address: a network finds exactly the rows inside it, an
    address exactly itself, and any other text the rows whose printed address contains it,
    its metacharacters taken literally. *)
Theorem ip_search_exact `{PG : PgInet} `{!PgInetLaws PG} `{L : Like} `{!LikeLaws L} (host : inet -> string) raw i q
    (Hq : wf_cidr q) (Hi : denotes i q) :
  ip_search_matches host (parseIpSearch raw) i
  = Some (match parse_text raw with
          | Some p => if prefix p =? bits (family p) then bool_decide (p = q) else cidrContains p q
          | None => contains (fold_text (substring 0 64 raw)) (fold_text (host i))
          end).
Proof.
  unfold parseIpSearch, parseIpOrCidr. destruct (parse_text raw) as [p|] eqn:E.
  - pose proof (parse_text_wf _ _ E) as Hp. destruct (Z.eqb_spec (prefix p) (bits (family p))) as [Ef|Ef].
    + cbn [ip_search_matches]. destruct (inet_in_host p Hp) as (j & -> & Hj). rewrite host_of_single in Hj by done. cbn. do 2 f_equal.
      apply bool_decide_ext. split; [intros ->; by apply (denotes_inj j)|intros ->; by apply (denotes_ext i j q)].
    + cbn [ip_search_matches]. destruct (inet_in_network p Hp) as (j & -> & Hj). cbn. f_equal. by apply inet_sup_spec.
  - cbn [ip_search_matches]. by rewrite search_is_substring.
Qed.

Lemma paging_bounded_witness :
  1 <= pg_page (parsePaging (JObj [("page", JStr "3"); ("pageSize", JStr "5000")]) 50 None None None) <= 100000.
Proof. apply (paging_bounded (JObj [("page", JStr "3"); ("pageSize", JStr "5000")]) 50 None None None); cbn; lia. Defined.

Definition sample_host : ParsedCidr := {| address := "203.0.113.7"; family := V4; prefix := 32 |}.
Definition search_inet : TextInet := {| ti_family := V4; ti_value := 3405803783; ti_mask := 32 |}.
Lemma ip_search_exact_witness :
  ip_search_matches (PG := TextPg) ti_out (parseIpSearch "203.0.113.0/24") search_inet = Some true
  /\ ip_search_matches (PG := TextPg) ti_out (parseIpSearch "113_") search_inet = Some false.
Proof.
  assert (Hq : wf_cidr sample_host) by (apply (parse_text_wf "203.0.113.7"); by vm_compute).
  assert (Hi : denotes (PgInetLaws := TextPgLaws) search_inet sample_host) by (by vm_compute).
  split; (rewrite (ip_search_exact (PG := TextPg) ti_out _ search_inet sample_host Hq Hi); by vm_compute).
Defined.
