(* ===== verification/CsvExport.v ===== *)
(** * CSV exports ([server/src/utils/csv.ts])

    The field and document writers, with a reader of RFC 4180 documents as their
    specification, and the masks of anonymous mode. *)

From S2P Require Import Prelude JsString JsValue.

(** ** Fields *)

Definition quote : ascii := "034".
Definition comma : ascii := ",".
Definition cr : ascii := "013".
Definition lf : ascii := "010".
Definition tab : ascii := "009".

(** Numbers are integers or not finite; a date carries its [toISOString], [None] when it is
    invalid. *)
Inductive CsvCell := C_null | C_number (z : Z) | C_not_finite | C_boolean (b : bool) | C_date (iso : option string) | C_text (s : string).

(** [/^[=+\-@\t\r]/.test(s)] *)
Definition starts_formula (s : string) : bool :=
  match s with
  | String c _ => Ascii.eqb c "=" || Ascii.eqb c "+" || Ascii.eqb c "-" || Ascii.eqb c "@" || Ascii.eqb c tab || Ascii.eqb c cr
  | EmptyString => false
  end.
(** The test of a quote, a comma, a carriage return or a line feed. *)
Definition is_special (c : ascii) : bool := Ascii.eqb c quote || Ascii.eqb c comma || Ascii.eqb c cr || Ascii.eqb c lf.
Definition guard_formula (s : string) : string := if starts_formula s then String "'" s else s.
Fixpoint double_quotes (s : string) : string :=
  match s with
  | EmptyString => EmptyString
  | String c r => if Ascii.eqb c quote then String quote (String quote (double_quotes r)) else String c (double_quotes r)
  end.
Definition quoted_if_needed (s : string) : string :=
  if str_exists is_special s then String quote (double_quotes s +:+ String quote "") else s.

Definition csvField (value : CsvCell) : string :=
  match value with
  | C_null | C_not_finite => ""
  | C_number z => dec z
  | C_boolean b => if b then "true" else "false"
  | C_date iso => quoted_if_needed (guard_formula (default "" iso))
  | C_text s => quoted_if_needed (guard_formula s)
  end.
Definition crlf : string := String cr (String lf "").
Definition csv_line (row : list CsvCell) : string := join (String comma "") (map csvField row).
Definition toCsv (headers : list string) (rows : list (list CsvCell)) : string :=
  join crlf (csv_line (map C_text headers) :: map csv_line rows) +:+ crlf.

(** [csvDate]: [parsed] is [new Date(value)] for a text, [None] when it is invalid. *)
Definition csvDate (parsed : string -> option string) (value : option string) : string :=
  match value with
  | None => ""
  | Some v => if is_empty v then "" else match parsed v with Some iso => iso | None => v end
  end.
Definition wantsAnon (query : js) : bool :=
  match get_field "anon" query with JStr s => String.eqb s "1" || String.eqb s "true" | _ => false end.

(** ** Masks: a text whose masked characters are bullets *)

Inductive Mark := Shown (c : ascii) | Bullet.
#[export] Instance Mark_eq : EqDecision Mark.
Proof. solve_decision. Defined.
Definition shown (s : string) : list Mark := map Shown (String.list_ascii_of_string s).

(** The address before a slash, and the rest with the slash. *)
Fixpoint cut_slash (s : string) : string * string :=
  match s with
  | EmptyString => ("", "")
  | String c r => if Ascii.eqb c "/" then ("", s) else let '(a, b) := cut_slash r in (String c a, b)
  end.
Fixpoint join_marks (sep : ascii) (l : list (list Mark)) : list Mark :=
  match l with
  | [] => []
  | [x] => x
  | x :: r => x ++ Shown sep :: join_marks sep r
  end.
Definition anonIp (value : option string) : list Mark :=
  match value with
  | None => []
  | Some v =>
      if is_empty v then []
      else
        let '(ip, cidr) := cut_slash v in
        if str_includes ":" ip
        then match split ":" ip with
             | [] => shown cidr
             | g :: r => shown g ++ Shown ":" :: join_marks ":" (map (fun _ => repeat Bullet 4) r) ++ shown cidr
             end
        else match split "." ip with
             | [] => shown cidr
             | g :: r => shown g ++ Shown "." :: join_marks "." (map (fun p => repeat Bullet (String.length p)) r) ++ shown cidr
             end
  end.
Definition anonUsername (value : option string) : list Mark :=
  match value with
  | Some (String c r) => if is_empty r then [Bullet] else Shown c :: repeat Bullet (Nat.min (String.length r) 6)
  | _ => []
  end.
Definition anonHostname (value : option string) : list Mark :=
  match value with
  | Some v => if is_empty v then []
              else if (String.length v <=? 3)%nat then repeat Bullet 3
              else shown (substring 0 3 v) ++ repeat Bullet (Nat.min (String.length v - 3) 8)
  | None => []
  end.
Definition anonLog (value : option string) : list Mark :=
  match value with
  | Some v => if is_empty v then [] else repeat Bullet 3 ++ shown " [anonymized log] " ++ repeat Bullet 3
  | None => []
  end.
Record CsvMaskers := {
  mk_ip : option string -> list Mark; mk_username : option string -> list Mark; mk_hostname : option string -> list Mark; mk_log : option string -> list Mark
}.
Definition plain (v : option string) : list Mark := shown (default "" v).
Definition csvMaskers (anon : bool) : CsvMaskers :=
  if anon then {| mk_ip := anonIp; mk_username := anonUsername; mk_hostname := anonHostname; mk_log := anonLog |}
  else {| mk_ip := plain; mk_username := plain; mk_hostname := plain; mk_log := plain |}.

(** ** The specification: a reader of RFC 4180 documents *)

Inductive ReadState := R_start | R_plain | R_quoted | R_quote | R_cr.
Fixpoint read_csv (st : ReadState) (s field : string) (row : list string) (rows : list (list string)) : option (list (list string)) :=
  match s with
  | EmptyString => match st, row with R_start, [] => Some rows | _, _ => None end
  | String c r =>
      let ends f := if Ascii.eqb c comma then read_csv R_start r "" (row ++ [f]) rows
                    else if Ascii.eqb c cr then read_csv R_cr r "" (row ++ [f]) rows else None in
      match st with
      | R_start => if Ascii.eqb c quote then read_csv R_quoted r "" row rows
                   else if is_special c then ends "" else read_csv R_plain r (String c "") row rows
      | R_plain => if is_special c then ends field else read_csv R_plain r (field +:+ String c "") row rows
      | R_quoted => if Ascii.eqb c quote then read_csv R_quote r field row rows else read_csv R_quoted r (field +:+ String c "") row rows
      | R_quote => if Ascii.eqb c quote then read_csv R_quoted r (field +:+ String c "") row rows else ends field
      | R_cr => if Ascii.eqb c lf then read_csv R_start r "" [] (rows ++ [row]) else None
      end
  end.
Definition readCsv (s : string) : option (list (list string)) := read_csv R_start s "" [] [].

(** What a cell holds once read. *)
Definition cell_text (value : CsvCell) : string :=
  match value with
  | C_null | C_not_finite => ""
  | C_number z => dec z
  | C_boolean b => if b then "true" else "false"
  | C_date iso => guard_formula (default "" iso)
  | C_text s => guard_formula s
  end.

(** ** Reading back *)

Lemma app_cons_str c (a b : string) : String c a +:+ b = String c (a +:+ b).
Proof. done. Qed.

Lemma read_plain_text f s field row rows :
  str_exists is_special f = false -> read_csv R_plain (f +:+ s) field row rows = read_csv R_plain s (field +:+ f) row rows.
Proof.
  revert field. induction f as [|c f IH]; intros field H; [by rewrite app_nil_r_str|]. cbn [str_exists] in H. apply orb_false_iff in H as [Hc H].
  rewrite app_cons_str. cbn [read_csv]. rewrite Hc, IH by done. by rewrite app_assoc_str.
Qed.

Lemma read_quoted_text f s field row rows :
  read_csv R_quoted (double_quotes f +:+ String quote s) field row rows = read_csv R_quote s (field +:+ f) row rows.
Proof.
  revert field. induction f as [|c f IH]; intros field; [cbn [double_quotes String.append read_csv]; rewrite Ascii.eqb_refl; by rewrite app_nil_r_str|].
  cbn [double_quotes]. destruct (Ascii.eqb_spec c quote) as [->|Hn].
  - rewrite !app_cons_str. cbn [read_csv]. rewrite !Ascii.eqb_refl. rewrite IH. by rewrite app_assoc_str.
  - rewrite app_cons_str. cbn [read_csv]. rewrite (proj2 (Ascii.eqb_neq c quote) Hn), IH. by rewrite app_assoc_str.
Qed.

(** A field followed by a comma or a line end. *)
Definition after_field (c : ascii) (s : string) (row : list string) (rows : list (list string)) : option (list (list string)) :=
  if Ascii.eqb c comma then read_csv R_start s "" row rows else read_csv R_cr s "" row rows.

Lemma read_quoted_if_needed t c s row rows : c = comma \/ c = cr ->
  read_csv R_start (quoted_if_needed t +:+ String c s) "" row rows = after_field c s (row ++ [t]) rows.
Proof.
  intros Hc. unfold quoted_if_needed, after_field. destruct (str_exists is_special t) eqn:E.
  - rewrite app_cons_str. cbn [read_csv]. rewrite Ascii.eqb_refl, app_assoc_str. change (String quote "" +:+ String c s) with (String quote (String c s)).
    rewrite read_quoted_text. cbn [String.append read_csv]. destruct Hc as [->| ->]; done.
  - destruct t as [|a t]; [destruct Hc as [->| ->]; done|]. pose proof E as E'. cbn [str_exists] in E'. apply orb_false_iff in E' as [Ha Ht].
    rewrite app_cons_str. cbn [read_csv]. assert (Hq : Ascii.eqb a quote = false) by (unfold is_special in Ha; by destruct (Ascii.eqb a quote)).
    rewrite Hq, Ha. rewrite read_plain_text by done. cbn [String.append read_csv]. destruct Hc as [->| ->]; done.
Qed.

Lemma plain_field t : str_exists is_special t = false -> quoted_if_needed t = t.
Proof. unfold quoted_if_needed. by intros ->. Qed.

Lemma field_is_quoted v : csvField v = quoted_if_needed (cell_text v).
Proof.
  destruct v as [|z| |[]|iso|s]; try done. cbn [csvField cell_text]. rewrite plain_field; [done|].
  rewrite str_exists_forall, negb_false_iff. eapply str_forall_impl; [|apply dec_chars]. intros c. cbn. unfold is_special, is_digit, in_range.
  intros H. rewrite !negb_orb, !andb_true_iff, !negb_true_iff, !Ascii.eqb_neq. split_and!; intros ->; done.
Qed.

Lemma read_line l s row rows : l <> [] ->
  read_csv R_start (csv_line l +:+ crlf +:+ s) "" row rows = read_csv R_start s "" [] (rows ++ [row ++ map cell_text l]).
Proof.
  intros Hl. revert row. induction l as [|v l IH]; intros row; [done|]. clear Hl. unfold csv_line in *. cbn [map].
  destruct l as [|w l].
  - cbn [map join]. rewrite field_is_quoted. change (crlf +:+ s) with (String cr (String lf s)). rewrite read_quoted_if_needed by auto. done.
  - rewrite join_cons by done. rewrite !app_assoc_str, field_is_quoted.
    change (String comma "" +:+ ?x) with (String comma x). rewrite read_quoted_if_needed by auto.
    change (after_field comma ?s ?r ?rows) with (read_csv R_start s "" r rows). rewrite IH by done. by rewrite <- app_assoc.
Qed.

Lemma read_lines ls rows : Forall (fun l => l <> []) ls -> ls <> [] ->
  read_csv R_start (join crlf (map csv_line ls) +:+ crlf) "" [] rows = Some (rows ++ map (map cell_text) ls).
Proof.
  revert rows. induction ls as [|l ls IH]; intros rows Hf Hne; [done|]. inversion Hf as [|? ? Hl Hf']; subst. cbn [map].
  destruct ls as [|l' ls].
  - cbn [map join]. rewrite <- (app_nil_r_str crlf) at 1. by rewrite read_line.
  - rewrite join_cons by done. rewrite !app_assoc_str. rewrite read_line by done. rewrite IH by done. by rewrite <- app_assoc.
Qed.

(** An export read back gives the header and every cell in its place, whatever separators,
    quotes and line breaks the texts hold, and no text it gives starts with a character a
    spreadsheet would take for a formula. *)
Theorem csv_roundtrip headers rows
    (Hh : headers <> []) (Hr : Forall (fun l => l <> []) rows) :
  readCsv (toCsv headers rows) = Some (map (map cell_text) (map C_text headers :: rows))
  /\ (forall row v, In row (map C_text headers :: rows) -> In v row -> (forall z, v <> C_number z) -> starts_formula (cell_text v) = false).
Proof.
  split.
  - unfold readCsv, toCsv. apply (read_lines (map C_text headers :: rows)); [|done]. constructor; [by destruct headers|done].
  - intros row v _ _ Hv. destruct v as [|z| |[]|iso|s]; try done; [by destruct (Hv z)| |]; cbn [cell_text]; unfold guard_formula.
    + by destruct (starts_formula (default "" iso)) eqn:E.
    + by destruct (starts_formula s) eqn:E.
Qed.

Lemma csv_roundtrip_witness :
  readCsv (toCsv ["ip"; "label"] [[C_text "=1+2"; C_text (String quote (String comma (String lf "x")))]; [C_number (-5); C_null]])
  = Some [["ip"; "label"]; ["'=1+2"; String quote (String comma (String lf "x"))]; ["-5"; ""]].
Proof.
  refine (proj1 (csv_roundtrip ["ip"; "label"] [[C_text "=1+2"; C_text (String quote (String comma (String lf "x")))]; [C_number (-5); C_null]] _ _)).
  - done.
  - by repeat constructor.
Defined.

(** ** What anonymous mode shows *)

Lemma cut_slash_absent s : str_includes "/" s = false -> cut_slash s = (s, "").
Proof.
  unfold str_includes. induction s as [|c s IH]; [done|]. cbn [str_exists cut_slash]. intros [Hc H]%orb_false_iff.
  rewrite Ascii.eqb_sym, Hc, IH by done. done.
Qed.

(** Two addresses with the same first number, their other numbers of the same lengths, are
    shown alike: nothing else of them is left. *)
Lemma anon_ip_shape v v' g r r' :
  is_empty v = false -> is_empty v' = false -> str_includes "/" v = false -> str_includes "/" v' = false ->
  str_includes ":" v = false -> str_includes ":" v' = false ->
  split "." v = g :: r -> split "." v' = g :: r' -> map String.length r = map String.length r' ->
  anonIp (Some v) = anonIp (Some v').
Proof.
  intros He He' Hs Hs' Hc Hc' Hv Hv' Hl. unfold anonIp. rewrite He, He', (cut_slash_absent v), (cut_slash_absent v'), Hc, Hc', Hv, Hv' by done.
  do 4 f_equal. rewrite <- (map_map String.length (fun n => repeat Bullet n)), Hl. by rewrite map_map.
Qed.

(** A masked name is one character and at most six bullets. *)
Lemma anon_username_short v : (length (anonUsername v) <= 7)%nat.
Proof.
  destruct v as [[|c r]|]; cbn; [lia| |lia]. destruct (is_empty r); cbn; [lia|]. rewrite repeat_length. lia.
Qed.
