(* ===== verification/ClientIp.v ===== *)
(** * The address of a client ([server/src/utils/clientIp.ts])

    A request comes from its socket's peer, and carries an X-Forwarded-For list its sender can
    pre-fill. The list is walked from the right while the current hop is a trusted proxy, for
    a bounded number of hops. *)

From S2P Require Import Prelude JsString JsValue JsNumber NodeNet.

(** ** Addresses *)

(** [\d+$] and [\d{1,3}] *)
Definition digits1 (s : string) : bool := str_forall is_digit s && negb (is_empty s).
Definition digits13 (s : string) : bool := digits1 s && (String.length s <=? 3)%nat.

(** What follows the bracket or the fourth number: nothing or a port. *)
Definition is_port_suffix (s : string) : bool := match s with EmptyString => true | String c r => Ascii.eqb c ":" && digits1 r end.
(** The text up to a character, and what follows it. *)
Fixpoint cut_at (stop : ascii) (s : string) : option (string * string) :=
  match s with
  | EmptyString => None
  | String c r => if Ascii.eqb c stop then Some ("", r)
                  else match cut_at stop r with Some (a, b) => Some (String c a, b) | None => None end
  end.
Definition stripPort (s : string) : string :=
  let v6 := match s with
            | String "[" r => match cut_at "]" r with
                              | Some (a, b) => if negb (is_empty a) && is_port_suffix b then Some a else None
                              | None => None
                              end
            | _ => None
            end in
  match v6 with
  | Some a => a
  | None => match cut_at ":" s with
            | Some (a, b) => if (length (split "." a) =? 4)%nat && forallb digits13 (split "." a) && digits1 b then a else s
            | None => s
            end
  end.

(** [/^::ffff:(?=\d+\.\d+\.\d+\.\d+$)/i] *)
Definition mapped_prefix : string := "::ffff:".
Definition strip_mapped (s : string) : string :=
  let rest := substring 7 (String.length s - 7) s in
  if String.eqb (to_lower (substring 0 7 s)) mapped_prefix && (length (split "." rest) =? 4)%nat && forallb digits1 (split "." rest) then rest else s.
(** [.replace(/%.*$/, '')]: the dot stops at line ends. *)
Definition is_line_end (c : ascii) : bool := Ascii.eqb c "010" || Ascii.eqb c "013".
Fixpoint cut_zone (s : string) : string :=
  match s with
  | EmptyString => EmptyString
  | String c r => if Ascii.eqb c "%" && negb (str_exists is_line_end r) then EmptyString else String c (cut_zone r)
  end.
Definition normalizeIp (raw : option string) : string := cut_zone (strip_mapped (stripPort (trim (default "" raw)))).

(** ** Trusted proxies *)

(** A rule of the [BlockList]: an address, or a subnet with its bits. *)
Record Rule := { ru_ip : string; ru_bits : option Z; ru_family : Z }.

Definition KEYWORDS (e : string) : option (list string) :=
  if String.eqb e "loopback" then Some ["127.0.0.0/8"; "::1/128"]
  else if String.eqb e "linklocal" then Some ["169.254.0.0/16"; "fe80::/10"]
  else if String.eqb e "uniquelocal" then Some ["10.0.0.0/8"; "172.16.0.0/12"; "192.168.0.0/16"; "fc00::/7"]
  else None.

(** [ownSubnets]: the interfaces are name, family, cidr and internal flag. *)
Record IfaceAddress := { if_ipv4 : bool; if_cidr : option string; if_internal : bool }.
Definition is_docker_iface (name : string) : bool :=
  existsb (fun p => starts_with p name) ["docker"; "br-"; "veth"; "cni"; "flannel"; "cali"; "vxlan"].
Definition ownSubnets (ifaces : list (string * list IfaceAddress)) : list string :=
  let hostNetns := existsb (fun i => String.eqb (fst i) "docker0") ifaces in
  flat_map (fun '(name, addrs) =>
      if hostNetns && negb (is_docker_iface name) then []
      else omap (fun a => match if_cidr a with
                          | Some c => if if_ipv4 a && negb (is_empty c) && negb (if_internal a) then Some c else None
                          | None => None
                          end) addrs) ifaces.

Definition compile_entry (entry : string) : option Rule :=
  let parts := split "/" entry in
  let ip := nth 0 parts "" in
  let fam := isIP ip in
  if fam =? 0 then None
  else match nth_error parts 1 with
       | None => Some {| ru_ip := ip; ru_bits := None; ru_family := fam |}
       | Some bitsText =>
           if digits13 bitsText && (digits_value 10 bitsText <=? (if fam =? 4 then 32 else 128))
           then Some {| ru_ip := ip; ru_bits := Some (digits_value 10 bitsText); ru_family := fam |}
           else None
       end.
Fixpoint all_some {A} (l : list (option A)) : option (list A) :=
  match l with
  | [] => Some []
  | Some x :: r => option_map (cons x) (all_some r)
  | None :: _ => None
  end.
(** [None]: an invalid entry throws. *)
Definition compileTrustedProxies (ifaces : list (string * list IfaceAddress)) (spec : string) : option (list Rule) :=
  let entries := List.filter (fun e => negb (is_empty e)) (map (fun e => to_lower (trim e)) (split "," spec)) in
  all_some (map compile_entry (flat_map (fun e => if String.eqb e "self" then ownSubnets ifaces else default [e] (KEYWORDS e)) entries)).
(** [check] is [BlockList.check] of node. *)
Definition trusts (check : list Rule -> string -> Z -> bool) (rules : list Rule) (addr : string) : bool :=
  let ip := normalizeIp (Some addr) in negb (isIP ip =? 0) && check rules ip (isIP ip).

Definition DEFAULT_TRUSTED_PROXIES : string := "loopback, self, 172.16.0.0/12".
Definition NON_PUBLIC_SPEC : string :=
  "0.0.0.0/8, 10.0.0.0/8, 100.64.0.0/10, 127.0.0.0/8, 169.254.0.0/16, 172.16.0.0/12, 192.168.0.0/16, ::1/128, fc00::/7, fe80::/10".
Definition DEFAULT_TRUSTED_PROXY_HOPS : Z := 2.
(** [None]: the process stops. *)
Definition trustedProxyHops (raw : option string) : option Z :=
  match raw with
  | None => Some DEFAULT_TRUSTED_PROXY_HOPS
  | Some s => if is_empty (trim s) then Some DEFAULT_TRUSTED_PROXY_HOPS
              else match str_to_number s with NInt n => if (1 <=? n) && (n <=? 10) then Some n else None | NOther => None end
  end.

(** ** The walk *)

Record ResolvedClient := { rc_ip : string; rc_relay : bool; rc_untrustedForwarder : bool }.

(** The header: one text, or several when it was sent more than once. *)
Definition header_text (forwardedFor : option (list string)) : string := default "" (option_map (join ",") forwardedFor).
Definition hops_of (header : string) : list string :=
  List.filter (fun h => negb (is_empty h)) (map (fun h => normalizeIp (Some h)) (split "," header)).

(** [rhops] are the hops from the right; the current address, the hops left, whether an entry
    was malformed, the budget left. *)
Fixpoint walk (trusted : string -> bool) (rhops : list string) (budget : nat) (current : string) : string * list string * bool * nat :=
  match rhops, budget with
  | next :: r, S budget' =>
      if negb (is_empty current) && trusted current
      then if isIP next =? 0 then (current, r, true, budget') else walk trusted r budget' next
      else (current, rhops, false, budget)
  | _, _ => (current, rhops, false, budget)
  end.
Definition resolveClient (nonPublic : string -> bool) (socketAddress : option string) (forwardedFor : option (list string))
    (trusted : string -> bool) (maxHops : nat) : ResolvedClient :=
  let '(current, rest, malformed, budget) := walk trusted (rev (hops_of (header_text forwardedFor))) maxHops (normalizeIp socketAddress) in
  let forwarded := malformed || negb (bool_decide (rest = [])) in
  if is_empty current || trusted current then {| rc_ip := current; rc_relay := true; rc_untrustedForwarder := false |}
  else
    let relay := forwarded && nonPublic current in
    {| rc_ip := current; rc_relay := relay; rc_untrustedForwarder := relay && (0 <? budget)%nat |}.
Definition resolveClientIp nonPublic socketAddress forwardedFor trusted maxHops : string :=
  rc_ip (resolveClient nonPublic socketAddress forwardedFor trusted maxHops).
Definition isRelayAddress (trusted : string -> bool) (ip : option string) : bool :=
  match ip with None => true | Some a => is_empty a || trusted a end.

(** [warnedForwarders]: one warning per address, fifty addresses. *)
Definition warnUntrustedForwarder (warned : list string) (ip : string) : bool * list string :=
  if existsb (String.eqb ip) warned || (50 <=? length warned)%nat then (false, warned) else (true, warned ++ [ip]).
Definition clientAddress (nonPublic trusted : string -> bool) (maxHops : nat) (socketAddress : option string) (forwardedFor : option (list string))
    (warned : list string) : ResolvedClient * list string :=
  let r := resolveClient nonPublic socketAddress forwardedFor trusted maxHops in
  (r, if rc_untrustedForwarder r then snd (warnUntrustedForwarder warned (rc_ip r)) else warned).

(** ** What a sender can choose *)

Lemma walk_prefix trusted l r r' n c : (n <= length l)%nat -> fst (fst (fst (walk trusted (l ++ r) n c))) = fst (fst (fst (walk trusted (l ++ r') n c))).
Proof.
  revert n c. induction l as [|h l IH]; intros n c Hn.
  - assert (n = 0)%nat as -> by (cbn in Hn; lia). cbn. by destruct r, r'.
  - cbn [app walk]. destruct n as [|n]; [done|]. destruct (negb (is_empty c) && trusted c); [|done]. destruct (isIP h =? 0); [done|]. apply IH. cbn in Hn. lia.
Qed.

Lemma walk_source trusted l n c :
  let ip := fst (fst (fst (walk trusted l n c))) in
  ip = c \/ exists i, (i < n)%nat /\ nth_error l i = Some ip /\ isIP ip <> 0
    /\ (forall h, In h (c :: firstn i l) -> is_empty h = false /\ trusted h = true).
Proof.
  cbv zeta. revert n c. induction l as [|h l IH]; intros n c; [by left|]. destruct n as [|n]; [by left|]. cbn [walk].
  destruct (negb (is_empty c) && trusted c) eqn:E; [|by left]. apply andb_true_iff in E as [E1 E2]. apply negb_true_iff in E1.
  destruct (Z.eqb_spec (isIP h) 0) as [E0|E0]; [by left|]. destruct (IH n h) as [H|(i & Hi & Hn & Hip & Ht)].
  - right. exists 0%nat. rewrite H. split_and!; [lia|done|done|]. intros x [<-|[]]. done.
  - right. exists (S i). split_and!; [lia|done|done|]. cbn [firstn]. intros x [<-|Hx]; [done|]. apply (Ht x Hx).
Qed.

Lemma walk_untrusted trusted l n c : trusted c = false -> walk trusted l n c = (c, l, false, n).
Proof. intros H. destruct l, n; try done. cbn. by rewrite H, andb_false_r. Qed.

Lemma resolve_ip nonPublic sock fwd trusted n :
  rc_ip (resolveClient nonPublic sock fwd trusted n) = fst (fst (fst (walk trusted (rev (hops_of (header_text fwd))) n (normalizeIp sock)))).
Proof. unfold resolveClient. destruct (walk _ _ _ _) as [[[c l] m] b]. by destruct (is_empty c || trusted c). Qed.

Lemma split_app sep a b : split sep (a +:+ String sep b) = split sep a ++ split sep b.
Proof.
  induction a as [|c a IH]; cbn [String.append split]; [by rewrite Ascii.eqb_refl|]. destruct (Ascii.eqb c sep); [by rewrite IH|].
  rewrite IH. destruct (split sep a) eqn:E; [by destruct (split_nonempty sep a)|done].
Qed.

Lemma hops_app a b : hops_of (a +:+ String "," b) = hops_of a ++ hops_of b.
Proof. unfold hops_of. by rewrite split_app, map_app, List.filter_app. Qed.

Lemma walk_stops trusted l r n c :
  trusted (fst (fst (fst (walk trusted l n c)))) = false -> fst (fst (fst (walk trusted (l ++ r) n c))) = fst (fst (fst (walk trusted l n c))).
Proof.
  revert n c. induction l as [|h l IH]; intros n c; [cbn [walk fst app]; intros H; by rewrite walk_untrusted|].
  cbn [app walk]. destruct n as [|n]; [done|]. destruct (negb (is_empty c) && trusted c); [|done]. destruct (isIP h =? 0); [done|]. apply IH.
Qed.

(** The address a client is known by, when its own part of the list is followed by what our
    proxies wrote and either this fills the hop budget or ends at an address that is not a
    proxy: whatever the client sent, the address is the same; it is the socket's peer or one
    of the last hops, every hop after it being a trusted proxy; and a peer that is not a
    trusted proxy is always its own address. *)
Theorem client_ip_unforgeable nonPublic trusted maxHops sock client tail
    (Htail : (maxHops <= length (hops_of tail))%nat \/ trusted (resolveClientIp nonPublic sock (Some [tail]) trusted maxHops) = false) :
  let ip := resolveClientIp nonPublic sock (Some [client +:+ String "," tail]) trusted maxHops in
  ip = resolveClientIp nonPublic sock (Some [tail]) trusted maxHops
  /\ (ip = normalizeIp sock
      \/ exists i, (i < maxHops)%nat /\ nth_error (rev (hops_of tail)) i = Some ip /\ isIP ip <> 0
           /\ forall h, In h (normalizeIp sock :: firstn i (rev (hops_of tail))) -> trusted h = true)
  /\ (trusted (normalizeIp sock) = false -> ip = normalizeIp sock).
Proof.
  cbv zeta. unfold resolveClientIp in *. rewrite !resolve_ip in *. cbn [header_text option_map default join] in *. cbn [id] in *.
  rewrite hops_app, rev_app_distr.
  assert (E : fst (fst (fst (walk trusted (rev (hops_of tail) ++ rev (hops_of client)) maxHops (normalizeIp sock))))
              = fst (fst (fst (walk trusted (rev (hops_of tail)) maxHops (normalizeIp sock))))).
  { destruct Htail as [Hn|Ht]; [|by apply walk_stops]. rewrite (walk_prefix _ _ _ []) by (by rewrite length_rev). by rewrite app_nil_r. }
  rewrite E. split_and!; [done| |].
  - destruct (walk_source trusted (rev (hops_of tail)) maxHops (normalizeIp sock)) as [H|(i & H1 & H2 & H3 & H4)]; [by left|right].
    exists i. split_and!; try done. intros h Hh. by destruct (H4 h Hh).
  - intros H. by rewrite walk_untrusted.
Qed.

Definition sample_trusted (a : string) : bool := existsb (String.eqb a) ["127.0.0.1"; "172.18.0.2"].
Lemma client_ip_unforgeable_witness :
  resolveClientIp (fun _ => false) (Some "127.0.0.1") (Some ["8.8.8.8, 172.18.0.2, 127.0.0.1" +:+ String "," " 203.0.113.9, 172.18.0.2"]) sample_trusted 2 = "203.0.113.9".
Proof.
  refine (eq_trans (proj1 (client_ip_unforgeable (fun _ => false) sample_trusted 2 (Some "127.0.0.1") "8.8.8.8, 172.18.0.2, 127.0.0.1" " 203.0.113.9, 172.18.0.2" _)) _).
  - left. by vm_compute.
  - by vm_compute.
Defined.

(** ** The trusted list *)

Lemma all_some_in {A} (l : list (option A)) r : all_some l = Some r -> forall x, In x r -> In (Some x) l.
Proof.
  revert r. induction l as [|[y|] l IH]; intros r H; [by injection H as <-| |done]. cbn in H. destruct (all_some l) as [r'|]; [|done]. injection H as <-.
  intros x [->|Hx]; [by left|right; by apply (IH r')].
Qed.

(** A list that compiles holds addresses and prefixes of their family only: an empty or
    overlong prefix is never read as /0. *)
Theorem trusted_rules_valid ifaces spec rules r
    (H : compileTrustedProxies ifaces spec = Some rules) (Hr : In r rules) :
  isIP (ru_ip r) = ru_family r /\ (ru_family r = 4 \/ ru_family r = 6)
  /\ match ru_bits r with Some n => 0 <= n <= (if ru_family r =? 4 then 32 else 128) | None => True end.
Proof.
  unfold compileTrustedProxies in H. apply (all_some_in _ _ H) in Hr. apply in_map_iff in Hr as (e & He & _). unfold compile_entry in He.
  destruct (Z.eqb_spec (isIP (nth 0 (split "/" e) "")) 0) as [|Hne]; [done|].
  assert (Hf : isIP (nth 0 (split "/" e) "") = 4 \/ isIP (nth 0 (split "/" e) "") = 6).
  { unfold isIP in *. destruct (is_ipv4 _); [by left|]. destruct (is_ipv6 _); [by right|done]. }
  destruct (nth_error (split "/" e) 1) as [b|]; [|by injection He as <-]. destruct (digits13 b && _) eqn:Eb; [|done]. injection He as <-. cbn.
  apply andb_true_iff in Eb as [_ Eb]. apply Z.leb_le in Eb. split_and!; [done|done|apply digits_value_nonneg; lia|done].
Qed.

Lemma trusted_rules_valid_witness :
  exists rules, compileTrustedProxies [] DEFAULT_TRUSTED_PROXIES = Some rules
    /\ isIP (ru_ip {| ru_ip := "172.16.0.0"; ru_bits := Some 12; ru_family := 4 |}) = 4.
Proof.
  exists [{| ru_ip := "127.0.0.0"; ru_bits := Some 8; ru_family := 4 |}; {| ru_ip := "::1"; ru_bits := Some 128; ru_family := 6 |};
          {| ru_ip := "172.16.0.0"; ru_bits := Some 12; ru_family := 4 |}].
  assert (E : compileTrustedProxies [] DEFAULT_TRUSTED_PROXIES
    = Some [{| ru_ip := "127.0.0.0"; ru_bits := Some 8; ru_family := 4 |}; {| ru_ip := "::1"; ru_bits := Some 128; ru_family := 6 |};
            {| ru_ip := "172.16.0.0"; ru_bits := Some 12; ru_family := 4 |}]) by (by vm_compute).
  split; [exact E|]. exact (proj1 (trusted_rules_valid [] DEFAULT_TRUSTED_PROXIES _ _ E (or_intror (or_intror (or_introl eq_refl))))).
Defined.
