(* ===== verification/SsrfGuard.v ===== *)
(** * Targets of outbound requests ([server/src/utils/ssrfGuard.ts])

    A URL an operator gives is fetched only when its host, and every address its host
    resolves to, is public. [new URL] and the DNS lookup are arguments. *)

From S2P Require Import Prelude JsString JsValue NodeNet IpValidation.

Definition PRIVATE_RANGES : list string :=
  ["0.0.0.0/8"; "10.0.0.0/8"; "100.64.0.0/10"; "127.0.0.0/8"; "169.254.0.0/16"; "172.16.0.0/12"; "192.168.0.0/16"; "224.0.0.0/4"; "240.0.0.0/4";
   "::/96"; "64:ff9b::/96"; "64:ff9b:1::/48"; "2001::/32"; "2002::/16"; "fc00::/7"; "fe80::/10"; "ff00::/8"].
Definition PRIVATE_PARSED : list ParsedCidr := omap parse_text PRIVATE_RANGES.

Definition isPrivateAddress (ip : string) : bool :=
  match parse_text ip with
  | None => true
  | Some p => existsb (fun r => cidrContains r p) PRIVATE_PARSED
  end.
Definition isPrivateIPv4 (ip : string) : bool := (isIP ip =? 4) && isPrivateAddress ip.
Definition isPrivateIPv6 (ip : string) : bool := (isIP ip =? 6) && isPrivateAddress ip.

(** What the guard reads of a parsed URL. *)
Record Url := { url_protocol : string; url_username : string; url_password : string; url_hostname : string }.

Inductive Refusal := R_invalid | R_scheme | R_credentials | R_localhost | R_private (address : string) | R_unresolved.

(** [lookup]: every address of a host, [None] when it does not resolve. *)
Definition assertPublicHttpUrl (parse_url : string -> option Url) (lookup : string -> option (list string)) (rawUrl : string)
    (allowUnresolved : bool) : Refusal + Url :=
  match parse_url rawUrl with
  | None => inl R_invalid
  | Some url =>
      if negb (String.eqb (url_protocol url) "http:") && negb (String.eqb (url_protocol url) "https:") then inl R_scheme
      else if negb (is_empty (url_username url)) || negb (is_empty (url_password url)) then inl R_credentials
      else
        let hostname := to_lower (strip_brackets (url_hostname url)) in
        if is_empty hostname then inl R_invalid
        else if String.eqb hostname "localhost" || ends_with ".localhost" hostname || String.eqb hostname "localhost.localdomain" then inl R_localhost
        else if negb (isIP hostname =? 0) then (if isPrivateAddress hostname then inl (R_private hostname) else inr url)
        else match lookup hostname with
             | None | Some [] => if allowUnresolved then inr url else inl R_unresolved
             | Some answers => match List.find isPrivateAddress answers with
                               | Some a => inl (R_private a)
                               | None => inr url
                               end
             end
  end.

(** ** What is let through *)

(** A text that reads as a network inside no private range; an address is in none of them. *)
Definition public_address (ip : string) : Prop :=
  exists p, parse_text ip = Some p
    /\ forall r text, In text PRIVATE_RANGES -> parse_text text = Some r -> family r = family p ->
         ~ (forall x, in_cidr p x -> in_cidr r x) /\ (prefix p = bits (family p) -> ~ in_cidr r (valueOf p)).

Lemma private_ranges_parse text : In text PRIVATE_RANGES -> is_Some (parse_text text).
Proof.
  assert (H : forallb (fun t => match parse_text t with Some _ => true | None => false end) PRIVATE_RANGES = true) by (by vm_compute).
  intros Hin. rewrite forallb_forall in H. specialize (H text Hin). destruct (parse_text text); [eauto|done].
Qed.

Lemma single_in_cidr p x : prefix p = bits (family p) -> in_cidr p x -> x = valueOf p.
Proof. unfold in_cidr, size_of. intros ->. rewrite Z.sub_diag. change (2 ^ 0) with 1. lia. Qed.

Lemma not_private_public ip : isPrivateAddress ip = false -> public_address ip.
Proof.
  unfold isPrivateAddress, public_address. destruct (parse_text ip) as [p|] eqn:E; [|done]. intros H. exists p. split; [done|].
  intros r text Hin Hr Hf. assert (Hrp : In r PRIVATE_PARSED).
  { unfold PRIVATE_PARSED. apply list_elem_of_In, list_elem_of_omap. exists text. split; [by apply list_elem_of_In|done]. }
  assert (Hn : ~ (forall x, in_cidr p x -> in_cidr r x)).
  { intros Hsub. rewrite existsb_false_forall in H. specialize (H r Hrp). cbn in H.
    rewrite (proj2 (cidrContains_spec r p (parse_text_wf _ _ Hr) (parse_text_wf _ _ E))) in H; done. }
  split; [exact Hn|]. intros Hp Hx. apply Hn. intros x Hxp. by rewrite (single_in_cidr p x Hp Hxp).
Qed.

(** A URL that is let through is http or https, carries no credentials, names a host that is
    not the local one, and leads to public addresses only: its literal address, or every
    address its host resolves to; a host that does not resolve is let through only on
    request. *)
Theorem fetch_target_public parse_url lookup rawUrl allowUnresolved url
    (H : assertPublicHttpUrl parse_url lookup rawUrl allowUnresolved = inr url) :
  let hostname := to_lower (strip_brackets (url_hostname url)) in
  parse_url rawUrl = Some url /\ In (url_protocol url) ["http:"; "https:"] /\ url_username url = "" /\ url_password url = ""
  /\ hostname <> "localhost"
  /\ (isIP hostname <> 0 -> public_address hostname)
  /\ (isIP hostname = 0 -> match lookup hostname with
                           | Some (a :: l) => Forall public_address (a :: l)
                           | _ => allowUnresolved = true
                           end).
Proof.
  cbv zeta. unfold assertPublicHttpUrl in H. destruct (parse_url rawUrl) as [u|]; [|done].
  destruct (negb _ && negb _) eqn:Ep; [done|]. destruct (negb _ || negb _) eqn:Ec; [done|]. cbv zeta in H.
  set (h := to_lower (strip_brackets (url_hostname u))) in H. destruct (is_empty h); [done|]. destruct (_ || _ || _) eqn:El; [done|].
  assert (Hu : u = url /\ (isIP h <> 0 -> public_address h)
     /\ (isIP h = 0 -> match lookup h with Some (a :: l) => Forall public_address (a :: l) | _ => allowUnresolved = true end)).
  { destruct (Z.eqb_spec (isIP h) 0) as [E0|E0]; cbn [negb] in H.
    - destruct (lookup h) as [[|a l]|].
      + destruct allowUnresolved; [|done]. injection H as <-. done.
      + destruct (List.find isPrivateAddress (a :: l)) eqn:Ef; [done|]. injection H as <-. split_and!; [done|done|]. intros _.
        apply List.Forall_forall. intros x Hx. apply not_private_public. rewrite find_none_iff in Ef. by apply Ef.
      + destruct allowUnresolved; [|done]. injection H as <-. done.
    - destruct (isPrivateAddress h) eqn:Epr; [done|]. injection H as <-. split_and!; [done| |done]. intros _. by apply not_private_public. }
  destruct Hu as (<- & H1 & H2). apply orb_false_iff in Ec as [Eu Epw]. apply negb_false_iff in Eu, Epw. split_and!; try done.
  - apply andb_false_iff in Ep as [E|E]; apply negb_false_iff, String.eqb_eq in E; cbn; auto.
  - by destruct (url_username u).
  - by destruct (url_password u).
  - intros E. fold h in E. rewrite E in El. done.
Qed.

Definition sample_url (raw : string) : option Url :=
  if String.eqb raw "https://lists.example/drop.txt"
  then Some {| url_protocol := "https:"; url_username := ""; url_password := ""; url_hostname := "lists.example" |} else None.
Definition sample_lookup (host : string) : option (list string) := if String.eqb host "lists.example" then Some ["203.0.113.9"; "2606:4700::1"] else None.
Lemma fetch_target_public_witness : Forall public_address ["203.0.113.9"; "2606:4700::1"].
Proof.
  assert (H : assertPublicHttpUrl sample_url sample_lookup "https://lists.example/drop.txt" false
    = inr {| url_protocol := "https:"; url_username := ""; url_password := ""; url_hostname := "lists.example" |}) by (by vm_compute).
  destruct (fetch_target_public sample_url sample_lookup _ _ _ H) as (_ & _ & _ & _ & _ & _ & Hd). exact (Hd eq_refl).
Defined.
