(* ===== verification/Secrets.v ===== *)
(** * Secrets at rest ([server/src/utils/crypto.ts], the TOTP envelope of twoFactor.service.ts)

    Credentials and TOTP secrets are stored encrypted with AES-256-GCM under a key derived
    from one of the configured secrets. Decryption tries every configured key, so a value
    stays readable when a key is introduced or the session secret rotated. *)

From S2P Require Import Prelude JsString.

(** ** What the code uses of node's crypto: texts are hexadecimal *)

Class Ciphers := {
  sha256 : string -> string;
  gcm_seal : string -> string -> string -> string * string;
  gcm_open : string -> string -> string -> string -> option string
}.

Definition colon_free (s : string) : Prop := str_includes ":" s = false /\ s <> "".

(** [gcm_seal key iv plain] is the ciphertext and the tag; opening checks the tag. *)
Class CipherLaws (C : Ciphers) := {
  gcm_open_seal key iv plain : gcm_open key iv (snd (gcm_seal key iv plain)) (fst (gcm_seal key iv plain)) = Some plain;
  gcm_other_key key key' iv plain : key <> key' -> gcm_open key' iv (snd (gcm_seal key iv plain)) (fst (gcm_seal key iv plain)) = None;
  gcm_tag_hex key iv plain : colon_free (snd (gcm_seal key iv plain));
  gcm_text_hex key iv plain : plain <> "" -> colon_free (fst (gcm_seal key iv plain))
}.

Section Secrets.
Context `{C : Ciphers}.

(** ** Keys *)

Record CryptoKeyConfig := {
  kc_sessionSecret : string;
  kc_credentialEncryptionKey : option string;
  kc_previousSessionSecret : option string
}.

(** [a || b] on a setting that may be unset or empty. *)
Definition or_text (a : option string) (b : string) : string :=
  match a with Some s => if is_empty s then b else s | None => b end.
Definition current_secret (c : CryptoKeyConfig) : string := or_text (kc_credentialEncryptionKey c) (kc_sessionSecret c).
Definition encryptionKey (c : CryptoKeyConfig) : string := sha256 (current_secret c).

(** [new Set(l)]: the first of equal values. *)
Fixpoint uniq_texts (l : list string) : list string :=
  match l with
  | [] => []
  | x :: r => x :: List.filter (fun y => negb (String.eqb x y)) (uniq_texts r)
  end.
Definition accepted_secrets (c : CryptoKeyConfig) : list string :=
  List.filter (fun s => negb (is_empty s))
    (match kc_credentialEncryptionKey c with Some s => [s] | None => [] end ++ [kc_sessionSecret c]
     ++ match kc_previousSessionSecret c with Some s => [s] | None => [] end).
Definition decryptionKeys (c : CryptoKeyConfig) : list string := map sha256 (uniq_texts (accepted_secrets c)).

(** ** Encryption *)

(** [iv] is the random nonce. *)
Definition encryptSecret (c : CryptoKeyConfig) (iv plaintext : string) : string :=
  let '(enc, tag) := gcm_seal (encryptionKey c) iv plaintext in iv +:+ ":" +:+ tag +:+ ":" +:+ enc.

Fixpoint first_opened (keys : list string) (iv tag enc : string) : option string :=
  match keys with
  | [] => None
  | k :: r => match gcm_open k iv tag enc with Some p => Some p | None => first_opened r iv tag enc end
  end.
(** [None]: it throws. *)
Definition decryptSecret (c : CryptoKeyConfig) (encrypted : string) : option string :=
  match split ":" encrypted with
  | iv :: tag :: enc :: _ => if is_empty iv || is_empty tag || is_empty enc then None else first_opened (decryptionKeys c) iv tag enc
  | _ => None
  end.

(** ** The TOTP envelope *)

Definition TOTP_SECRET_PREFIX : string := "enc:v1:".
Definition sealTotpSecret (c : CryptoKeyConfig) (iv secret : string) : string := TOTP_SECRET_PREFIX +:+ encryptSecret c iv (trim secret).
Definition isSealedTotpSecret (stored : option string) : bool := match stored with Some s => starts_with TOTP_SECRET_PREFIX s | None => false end.
Definition openTotpSecret (c : CryptoKeyConfig) (stored : option string) : option string :=
  match stored with
  | None => None
  | Some s =>
      if is_empty s then None
      else if negb (starts_with TOTP_SECRET_PREFIX s) then (if is_empty (trim s) then None else Some (trim s))
      else decryptSecret c (substring 7 (String.length s - 7) s)
  end.

(** ** Reading back *)

Context `{!CipherLaws C}.

Lemma uniq_texts_in x l : In x (uniq_texts l) <-> In x l.
Proof.
  induction l as [|y l IH]; [done|]. cbn [uniq_texts In]. rewrite filter_In, IH. destruct (String.eqb_spec y x) as [->|E]; cbn; intuition congruence.
Qed.

Lemma first_opened_sealed keys key iv plain :
  first_opened keys iv (snd (gcm_seal key iv plain)) (fst (gcm_seal key iv plain)) = if existsb (String.eqb key) keys then Some plain else None.
Proof.
  induction keys as [|k keys IH]; [done|]. cbn [first_opened existsb]. destruct (String.eqb_spec key k) as [<-|Hk]; [by rewrite gcm_open_seal|].
  by rewrite gcm_other_key, IH.
Qed.

Lemma decrypt_encrypted c c' iv plain :
  colon_free iv -> plain <> "" ->
  decryptSecret c' (encryptSecret c iv plain) = if existsb (String.eqb (encryptionKey c)) (decryptionKeys c') then Some plain else None.
Proof.
  intros [Hi Hi'] Hp. unfold decryptSecret, encryptSecret. pose proof (gcm_tag_hex (encryptionKey c) iv plain) as [Ht Ht'].
  pose proof (gcm_text_hex (encryptionKey c) iv plain Hp) as [He He']. pose proof (first_opened_sealed (decryptionKeys c') (encryptionKey c) iv plain) as Ho.
  destruct (gcm_seal (encryptionKey c) iv plain) as [enc tag]. cbn [fst snd] in *. cbn [String.append].
  rewrite (split_app_sep ":" iv) by done. rewrite (split_app_sep ":" tag) by done. rewrite (split_absent ":" enc) by done. rewrite <- Ho.
  destruct iv; [done|]. destruct tag; [done|]. by destruct enc.
Qed.

Lemma starts_with_self p s : starts_with p (p +:+ s) = true.
Proof. induction p as [|c p IH]; [done|]. cbn. by rewrite Ascii.eqb_refl. Qed.

(** C33. A secret encrypted under one configuration is read back under another exactly when the
    key it was encrypted with is still among the accepted ones, as it is with the
    configuration itself, after a credential key is introduced and after the session secret
    is rotated; a TOTP secret stored before encryption is read as it is. *)
Theorem secret_survives_rotation (c c' : CryptoKeyConfig) iv secret
    (Hiv : colon_free iv) (Hs : trim secret <> "") :
  openTotpSecret c' (Some (sealTotpSecret c iv secret))
    = (if existsb (String.eqb (encryptionKey c)) (decryptionKeys c') then Some (trim secret) else None)
  /\ (In (current_secret c) (accepted_secrets c') ->
      openTotpSecret c' (Some (sealTotpSecret c iv secret)) = Some (trim secret))
  /\ (starts_with TOTP_SECRET_PREFIX secret = false -> openTotpSecret c' (Some secret) = Some (trim secret)).
Proof.
  assert (E : openTotpSecret c' (Some (sealTotpSecret c iv secret))
    = if existsb (String.eqb (encryptionKey c)) (decryptionKeys c') then Some (trim secret) else None).
  { unfold openTotpSecret, sealTotpSecret. rewrite starts_with_self. cbn [negb]. rewrite <- (decrypt_encrypted c c' iv (trim secret) Hiv Hs).
    set (e := encryptSecret c iv (trim secret)). change (is_empty (TOTP_SECRET_PREFIX +:+ e)) with false. cbn iota. f_equal.
    unfold TOTP_SECRET_PREFIX. cbn [String.append String.length substring]. rewrite !Nat.sub_succ, Nat.sub_0_r.
    clear. induction e as [|x e IH]; [done|]. cbn. by rewrite IH. }
  rewrite E. split_and!; [done| |].
  - intros Hin. rewrite (proj2 (existsb_exists _ _)); [done|]. exists (encryptionKey c). split; [|apply String.eqb_refl].
    unfold encryptionKey, decryptionKeys. apply in_map. by apply uniq_texts_in.
  - intros Hp. unfold openTotpSecret. rewrite Hp. cbn [negb]. destruct secret as [|x s]; [done|]. cbn [is_empty]. by destruct (trim (String x s)).
Qed.
End Secrets.

(** ** A concrete cipher, for the examples *)

Definition nibble (n : nat) : ascii := ascii_of_nat (97 + n).
Definition unnibble (c : ascii) : nat := nat_of_ascii c - 97.
Fixpoint to_nibbles (s : string) : string :=
  match s with EmptyString => EmptyString | String c r => String (nibble (nat_of_ascii c / 16)) (String (nibble (nat_of_ascii c mod 16)) (to_nibbles r)) end.
Fixpoint of_nibbles (s : string) : string :=
  match s with String a (String b r) => String (ascii_of_nat (unnibble a * 16 + unnibble b)) (of_nibbles r) | _ => EmptyString end.
#[export] Instance TestCiphers : Ciphers := {
  sha256 s := to_nibbles s;
  gcm_seal key iv plain := (to_nibbles plain, String "t" (to_nibbles key));
  gcm_open key iv tag enc := if String.eqb tag (String "t" (to_nibbles key)) then Some (of_nibbles enc) else None
}.

Lemma nibbles_roundtrip s : of_nibbles (to_nibbles s) = s.
Proof. induction s as [|c s IH]; [done|]. cbn [to_nibbles of_nibbles]. rewrite IH. f_equal. destruct c as [[] [] [] [] [] [] [] []]; by vm_compute. Qed.

Lemma nibbles_colon_free s : str_includes ":" (to_nibbles s) = false.
Proof.
  unfold str_includes. induction s as [|c s IH]; [done|]. cbn [to_nibbles str_exists]. rewrite IH. destruct c as [[] [] [] [] [] [] [] []]; by vm_compute.
Qed.

#[export] Instance TestCiphers_laws : CipherLaws TestCiphers.
Proof.
  split; cbn [gcm_open gcm_seal TestCiphers fst snd].
  - intros. by rewrite String.eqb_refl, nibbles_roundtrip.
  - intros key key' iv plain Hk. destruct (String.eqb_spec (String "t" (to_nibbles key)) (String "t" (to_nibbles key'))) as [E|]; [|done].
    injection E as E. apply (f_equal of_nibbles) in E. by rewrite !nibbles_roundtrip in E.
  - intros. split; [|done]. unfold str_includes. cbn [str_exists]. apply nibbles_colon_free.
  - intros key iv plain Hp. split; [apply nibbles_colon_free|]. by destruct plain.
Qed.

(** The key of an instance whose session secret was rotated, then given a credential key. *)
Definition before_rotation : CryptoKeyConfig := {| kc_sessionSecret := "s1"; kc_credentialEncryptionKey := None; kc_previousSessionSecret := None |}.
Definition after_rotation : CryptoKeyConfig := {| kc_sessionSecret := "s2"; kc_credentialEncryptionKey := Some "k"; kc_previousSessionSecret := Some "s1" |}.
Lemma secret_survives_rotation_witness :
  openTotpSecret after_rotation (Some (sealTotpSecret before_rotation "ab12" "JBSWY3DP")) = Some "JBSWY3DP".
Proof.
  refine (proj1 (proj2 (secret_survives_rotation before_rotation after_rotation "ab12" "JBSWY3DP" _ _)) _).
  - split; [by vm_compute|done].
  - by vm_compute.
  - cbn. right. right. by left.
Defined.
