(* ===== verification/SignInStore.v ===== *)
(** * Accounts, sessions and the requests that use them

    The world of the sign-in: the users table, the settings it reads, the session store, the
    cache of the session guard, the password-reset tokens, the mails sent, the audit rows and
    the TOTP steps claimed. A handler runs on the session its request came with; what it
    wrote there before it throws is kept, as the session is saved when the response ends. *)

From S2P Require Import Prelude JsString JsValue JsNumber Secrets.

(** ** Sessions *)

Record PendingEmailOtp := { po_codeHash : string; po_email : string; po_expires : Z; po_attempts : Z }.
Record PendingTotp := { pt_secret : string; pt_expiresAt : Z; pt_replaces : bool }.
Inductive StepUpMethod := Totp | Email | Password.
#[export] Instance StepUpMethod_eq : EqDecision StepUpMethod.
Proof. solve_decision. Defined.
(** [stepUpAt], [stepUpMethod] and [stepUpUserId] are always written together. *)
Record StepUpProof := { sp_at : Z; sp_method : StepUpMethod; sp_user : Z }.

Record Session := {
  ss_userId : option Z; ss_role : option string;
  ss_pendingMfaUserId : option Z; ss_pendingEmailOtp : option PendingEmailOtp;
  ss_pendingTotp : option PendingTotp; ss_pendingEmailOtpSetup : option PendingEmailOtp;
  ss_stepUp : option StepUpProof; ss_stepUpEmailOtp : option PendingEmailOtp; ss_stepUpEmailSentAt : option Z
}.
Definition empty_session : Session := {|
  ss_userId := None; ss_role := None; ss_pendingMfaUserId := None; ss_pendingEmailOtp := None; ss_pendingTotp := None;
  ss_pendingEmailOtpSetup := None; ss_stepUp := None; ss_stepUpEmailOtp := None; ss_stepUpEmailSentAt := None |}.

Definition set_identity (u : Z) (role : string) (s : Session) : Session := {|
  ss_userId := Some u; ss_role := Some role; ss_pendingMfaUserId := ss_pendingMfaUserId s; ss_pendingEmailOtp := ss_pendingEmailOtp s;
  ss_pendingTotp := ss_pendingTotp s; ss_pendingEmailOtpSetup := ss_pendingEmailOtpSetup s;
  ss_stepUp := ss_stepUp s; ss_stepUpEmailOtp := ss_stepUpEmailOtp s; ss_stepUpEmailSentAt := ss_stepUpEmailSentAt s |}.
Definition set_role (role : option string) (s : Session) : Session := {|
  ss_userId := ss_userId s; ss_role := role; ss_pendingMfaUserId := ss_pendingMfaUserId s; ss_pendingEmailOtp := ss_pendingEmailOtp s;
  ss_pendingTotp := ss_pendingTotp s; ss_pendingEmailOtpSetup := ss_pendingEmailOtpSetup s;
  ss_stepUp := ss_stepUp s; ss_stepUpEmailOtp := ss_stepUpEmailOtp s; ss_stepUpEmailSentAt := ss_stepUpEmailSentAt s |}.
Definition set_pendingMfa (u : option Z) (s : Session) : Session := {|
  ss_userId := ss_userId s; ss_role := ss_role s; ss_pendingMfaUserId := u; ss_pendingEmailOtp := ss_pendingEmailOtp s;
  ss_pendingTotp := ss_pendingTotp s; ss_pendingEmailOtpSetup := ss_pendingEmailOtpSetup s;
  ss_stepUp := ss_stepUp s; ss_stepUpEmailOtp := ss_stepUpEmailOtp s; ss_stepUpEmailSentAt := ss_stepUpEmailSentAt s |}.
Definition set_pendingTotp (p : option PendingTotp) (s : Session) : Session := {|
  ss_userId := ss_userId s; ss_role := ss_role s; ss_pendingMfaUserId := ss_pendingMfaUserId s; ss_pendingEmailOtp := ss_pendingEmailOtp s;
  ss_pendingTotp := p; ss_pendingEmailOtpSetup := ss_pendingEmailOtpSetup s;
  ss_stepUp := ss_stepUp s; ss_stepUpEmailOtp := ss_stepUpEmailOtp s; ss_stepUpEmailSentAt := ss_stepUpEmailSentAt s |}.
Definition set_stepUp (p : option StepUpProof) (s : Session) : Session := {|
  ss_userId := ss_userId s; ss_role := ss_role s; ss_pendingMfaUserId := ss_pendingMfaUserId s; ss_pendingEmailOtp := ss_pendingEmailOtp s;
  ss_pendingTotp := ss_pendingTotp s; ss_pendingEmailOtpSetup := ss_pendingEmailOtpSetup s;
  ss_stepUp := p; ss_stepUpEmailOtp := ss_stepUpEmailOtp s; ss_stepUpEmailSentAt := ss_stepUpEmailSentAt s |}.
Definition set_stepUpEmailSentAt (t : option Z) (s : Session) : Session := {|
  ss_userId := ss_userId s; ss_role := ss_role s; ss_pendingMfaUserId := ss_pendingMfaUserId s; ss_pendingEmailOtp := ss_pendingEmailOtp s;
  ss_pendingTotp := ss_pendingTotp s; ss_pendingEmailOtpSetup := ss_pendingEmailOtpSetup s;
  ss_stepUp := ss_stepUp s; ss_stepUpEmailOtp := ss_stepUpEmailOtp s; ss_stepUpEmailSentAt := t |}.

(** The three places a pending e-mail code is kept. *)
Inductive OtpKey := pendingEmailOtp | pendingEmailOtpSetup | stepUpEmailOtp.
Definition otp_of (k : OtpKey) (s : Session) : option PendingEmailOtp :=
  match k with pendingEmailOtp => ss_pendingEmailOtp s | pendingEmailOtpSetup => ss_pendingEmailOtpSetup s | stepUpEmailOtp => ss_stepUpEmailOtp s end.
Definition set_otp (k : OtpKey) (p : option PendingEmailOtp) (s : Session) : Session := {|
  ss_userId := ss_userId s; ss_role := ss_role s; ss_pendingMfaUserId := ss_pendingMfaUserId s;
  ss_pendingEmailOtp := match k with pendingEmailOtp => p | _ => ss_pendingEmailOtp s end;
  ss_pendingTotp := ss_pendingTotp s;
  ss_pendingEmailOtpSetup := match k with pendingEmailOtpSetup => p | _ => ss_pendingEmailOtpSetup s end;
  ss_stepUp := ss_stepUp s;
  ss_stepUpEmailOtp := match k with stepUpEmailOtp => p | _ => ss_stepUpEmailOtp s end;
  ss_stepUpEmailSentAt := ss_stepUpEmailSentAt s |}.

(** ** Accounts *)

(** The columns of a user the sign-in reads; a null flag counts as false. *)
Record Account := {
  ac_username : string; ac_role : string; ac_is_active : bool;
  ac_password_hash : option string; ac_foreign_source : option string; ac_email : option string;
  ac_totp_enabled : bool; ac_totp_secret : option string; ac_email_otp_enabled : bool; ac_totp_last_step : option Z
}.
Definition set_totp (enabled : bool) (secret : option string) (a : Account) : Account := {|
  ac_username := ac_username a; ac_role := ac_role a; ac_is_active := ac_is_active a; ac_password_hash := ac_password_hash a;
  ac_foreign_source := ac_foreign_source a; ac_email := ac_email a; ac_totp_enabled := enabled; ac_totp_secret := secret;
  ac_email_otp_enabled := ac_email_otp_enabled a; ac_totp_last_step := ac_totp_last_step a |}.
Definition set_last_step (step : Z) (a : Account) : Account := {|
  ac_username := ac_username a; ac_role := ac_role a; ac_is_active := ac_is_active a; ac_password_hash := ac_password_hash a;
  ac_foreign_source := ac_foreign_source a; ac_email := ac_email a; ac_totp_enabled := ac_totp_enabled a; ac_totp_secret := ac_totp_secret a;
  ac_email_otp_enabled := ac_email_otp_enabled a; ac_totp_last_step := Some step |}.
Definition set_email_otp (b : bool) (a : Account) : Account := {|
  ac_username := ac_username a; ac_role := ac_role a; ac_is_active := ac_is_active a; ac_password_hash := ac_password_hash a;
  ac_foreign_source := ac_foreign_source a; ac_email := ac_email a; ac_totp_enabled := ac_totp_enabled a; ac_totp_secret := ac_totp_secret a;
  ac_email_otp_enabled := b; ac_totp_last_step := ac_totp_last_step a |}.
Definition set_password (h : string) (a : Account) : Account := {|
  ac_username := ac_username a; ac_role := ac_role a; ac_is_active := ac_is_active a; ac_password_hash := Some h;
  ac_foreign_source := ac_foreign_source a; ac_email := ac_email a; ac_totp_enabled := ac_totp_enabled a; ac_totp_secret := ac_totp_secret a;
  ac_email_otp_enabled := ac_email_otp_enabled a; ac_totp_last_step := ac_totp_last_step a |}.
Definition set_email (e : option string) (a : Account) : Account := {|
  ac_username := ac_username a; ac_role := ac_role a; ac_is_active := ac_is_active a; ac_password_hash := ac_password_hash a;
  ac_foreign_source := ac_foreign_source a; ac_email := e; ac_totp_enabled := ac_totp_enabled a; ac_totp_secret := ac_totp_secret a;
  ac_email_otp_enabled := ac_email_otp_enabled a; ac_totp_last_step := ac_totp_last_step a |}.

(** [!!(row.totp_enabled && row.totp_secret)] *)
Definition has_totp (a : Account) : bool := ac_totp_enabled a && negb (is_empty (default "" (ac_totp_secret a))).
Definition is_obligate (a : Account) : bool := bool_decide (ac_foreign_source a = Some "obligate").

(** ** The world *)

(** app_config, and whether the OTP SMTP server accepts mail. *)
Record SignInConfig := { cf_otp_smtp_server_id : option Z; cf_force_2fa : bool; cf_disable2faForce : bool; cf_smtp_up : bool; cf_keys : CryptoKeyConfig }.
Record ResetToken := { rt_id : Z; rt_user : Z; rt_hash : string; rt_expires : Z; rt_used : bool }.
Record SessionStore := { st_sessions : gmap Z Session; st_next : Z }.
Record GuardEntry := { ge_active : bool; ge_role : option string; ge_at : Z }.
Record Mail := { ml_to : string; ml_code : string }.
Record AuditRow := { ar_action : string; ar_user : option Z; ar_success : bool; ar_detail : string }.
(** A successful claim of a TOTP step by the conditional UPDATE. *)
Record Claim := { cl_user : Z; cl_step : Z; cl_at : Z }.
Record Log := { lg_mails : list Mail; lg_audit : list AuditRow; lg_claims : list Claim }.

Record World := {
  sw_now : Z; sw_users : gmap Z Account; sw_config : SignInConfig; sw_resets : list ResetToken;
  sw_store : SessionStore; sw_guard : gmap Z GuardEntry; sw_log : Log
}.
Definition on_users (f : gmap Z Account -> gmap Z Account) (w : World) : World := {|
  sw_now := sw_now w; sw_users := f (sw_users w); sw_config := sw_config w; sw_resets := sw_resets w;
  sw_store := sw_store w; sw_guard := sw_guard w; sw_log := sw_log w |}.
Definition on_resets (f : list ResetToken -> list ResetToken) (w : World) : World := {|
  sw_now := sw_now w; sw_users := sw_users w; sw_config := sw_config w; sw_resets := f (sw_resets w);
  sw_store := sw_store w; sw_guard := sw_guard w; sw_log := sw_log w |}.
Definition on_sessions (f : gmap Z Session -> gmap Z Session) (w : World) : World := {|
  sw_now := sw_now w; sw_users := sw_users w; sw_config := sw_config w; sw_resets := sw_resets w;
  sw_store := {| st_sessions := f (st_sessions (sw_store w)); st_next := st_next (sw_store w) |};
  sw_guard := sw_guard w; sw_log := sw_log w |}.
Definition on_guard (f : gmap Z GuardEntry -> gmap Z GuardEntry) (w : World) : World := {|
  sw_now := sw_now w; sw_users := sw_users w; sw_config := sw_config w; sw_resets := sw_resets w;
  sw_store := sw_store w; sw_guard := f (sw_guard w); sw_log := sw_log w |}.
Definition on_log (f : Log -> Log) (w : World) : World := {|
  sw_now := sw_now w; sw_users := sw_users w; sw_config := sw_config w; sw_resets := sw_resets w;
  sw_store := sw_store w; sw_guard := sw_guard w; sw_log := f (sw_log w) |}.
(** The session id drawn is one never used before. *)
Definition new_session (old : Z) (w : World) : World := {|
  sw_now := sw_now w; sw_users := sw_users w; sw_config := sw_config w; sw_resets := sw_resets w;
  sw_store := {| st_sessions := <[st_next (sw_store w) := empty_session]> (delete old (st_sessions (sw_store w)));
                 st_next := st_next (sw_store w) + 1 |};
  sw_guard := sw_guard w; sw_log := sw_log w |}.
Definition session_of (w : World) (sid : Z) : Session := default empty_session (st_sessions (sw_store w) !! sid).

(** ** Handlers *)

(** The world and the id of the request's session. *)
Record HS := { hs_world : World; hs_sid : Z }.
(** [next(err)], or an answer of [status >= 400]; [ft_rejected] is
    [res.locals.currentPasswordRejected]. *)
Record Fault := { ft_status : Z; ft_message : string; ft_rejected : bool }.
Definition Handler (A : Type) : Type := HS -> HS * (Fault + A).

Definition hret {A} (a : A) : Handler A := fun h => (h, inr a).
Definition hbind {A B} (m : Handler A) (k : A -> Handler B) : Handler B :=
  fun h => match m h with (h', inr a) => k a h' | (h', inl e) => (h', inl e) end.
Declare Scope signin_scope.
Delimit Scope signin_scope with signin.
Notation "x <- m ;; k" := (hbind m (fun x => k)) (at level 90, m at next level, k at level 200, right associativity) : signin_scope.
Notation "m >> k" := (hbind m (fun _ => k)) (at level 90, k at level 200, right associativity) : signin_scope.
Open Scope signin_scope.

Definition fail {A} (status : Z) (message : string) : Handler A := fun h => (h, inl {| ft_status := status; ft_message := message; ft_rejected := false |}).
Definition reject {A} (status : Z) (message : string) : Handler A := fun h => (h, inl {| ft_status := status; ft_message := message; ft_rejected := true |}).
Definition reads {A} (f : World -> A) : Handler A := fun h => (h, inr (f (hs_world h))).
Definition writes (f : World -> World) : Handler unit := fun h => ({| hs_world := f (hs_world h); hs_sid := hs_sid h |}, inr tt).
Definition session : Handler Session := fun h => (h, inr (session_of (hs_world h) (hs_sid h))).
Definition modify_session (f : Session -> Session) : Handler unit :=
  fun h => ({| hs_world := on_sessions (<[hs_sid h := f (session_of (hs_world h) (hs_sid h))]>) (hs_world h); hs_sid := hs_sid h |}, inr tt).
(** [regenerateSession]: the old session is destroyed. *)
Definition regenerateSession : Handler unit :=
  fun h => ({| hs_world := new_session (hs_sid h) (hs_world h); hs_sid := st_next (sw_store (hs_world h)) |}, inr tt).
Definition current_sid : Handler Z := fun h => (h, inr (hs_sid h)).
Definition now : Handler Z := reads sw_now.
Definition account (u : Z) : Handler (option Account) := reads (fun w => sw_users w !! u).
Definition audit (action : string) (user : option Z) (success : bool) (detail : string) : Handler unit :=
  writes (on_log (fun l => {| lg_mails := lg_mails l; lg_audit := {| ar_action := action; ar_user := user; ar_success := success; ar_detail := detail |} :: lg_audit l; lg_claims := lg_claims l |})).
Definition when (b : bool) (m : Handler unit) : Handler unit := if b then m else hret tt.

(** [String(v)] on a value of a JSON body. A number that is not an integer prints as no code
    does. *)
Fixpoint js_String (v : js) : string :=
  match v with
  | JUndefined => "undefined"
  | JNull => "null"
  | JBool b => if b then "true" else "false"
  | JNum (NInt z) => dec z
  | JNum NOther => "NaN"
  | JStr s => s
  | JArr l => join "," (map (fun x => match x with JUndefined | JNull => "" | _ => js_String x end) l)
  | JObj _ => "[object Object]"
  end.
(** [String(v ?? '')] *)
Definition text_or_empty (v : js) : string := js_String (nullish_or v (JStr "")).
(** [typeof v === 'string' || typeof v === 'number' ? String(v).trim() : ''] *)
Definition code_of (v : js) : string := match v with JStr _ | JNum _ => trim (js_String v) | _ => "" end.
Definition str_of (v : js) : string := match v with JStr s => s | _ => "" end.
(** [v === s] *)
Definition is_str (s : string) (v : js) : bool := match v with JStr t => String.eqb t s | _ => false end.
(** [/^\d{6}$/] *)
Definition six_digits (s : string) : bool := (String.length s =? 6)%nat && str_forall is_digit s.
