(* ===== verification/TwoFactor.v ===== *)
(** * Second factors ([services/twoFactor.service.ts], [controllers/twoFactor.controller.ts])

    TOTP codes with their anti-replay step, e-mail codes kept as a hash in the session, the
    profile routes that add, replace and remove factors, and the second step of a sign-in. *)

From S2P Require Import Prelude JsString JsValue JsNumber Secrets SignInStore.

(** bcrypt, and the TOTP library: [totp_validate secret token ms window] is the drift in steps
    it found, [None] for none; the outer option is [None] when it throws. *)
Class Authenticators := {
  bcrypt_compare : string -> string -> bool;
  bcrypt_hash : string -> string;
  totp_validate : string -> string -> Z -> Z -> option (option Z)
}.
Class AuthenticatorLaws (A : Authenticators) := {
  bcrypt_compare_hash p : bcrypt_compare p (bcrypt_hash p) = true;
  totp_drift secret token ms window d : totp_validate secret token ms window = Some (Some d) -> - window <= d <= window
}.

Section TwoFactor.
Context `{C : Ciphers} `{A : Authenticators}.

Definition comparePassword (password hash : string) : bool := bcrypt_compare password hash.
Definition hashPassword (password : string) : string := bcrypt_hash password.

(** ** TOTP *)

Definition TOTP_PERIOD_S : Z := 30.
Definition TOTP_WINDOW : Z := 1.

Definition verifyTotpStep (secret code : string) (window nowMs : Z) : option Z :=
  let token := trim code in
  if negb (six_digits token) then None
  else match totp_validate (trim secret) token nowMs window with
       | Some (Some delta) => Some (nowMs / 1000 / TOTP_PERIOD_S + delta)
       | _ => None
       end.

(** One conditional UPDATE. *)
Definition newer_step (step : Z) (a : Account) : bool := match ac_totp_last_step a with None => true | Some l => l <? step end.
Definition claim_step (userId step : Z) (f : Account -> Account) (w : World) : World :=
  on_log (fun l => {| lg_mails := lg_mails l; lg_audit := lg_audit l;
                      lg_claims := {| cl_user := userId; cl_step := step; cl_at := sw_now w |} :: lg_claims l |})
    (on_users (alter (fun a => f (set_last_step step a)) userId) w).
Definition claim_if (userId step : Z) (cond : Account -> bool) (f : Account -> Account) : Handler bool :=
  row <- account userId;;
  match row with
  | Some a => if newer_step step a && cond a then writes (claim_step userId step f) >> hret true else hret false
  | None => hret false
  end.
Definition acceptTotpStep (userId step : Z) : Handler bool :=
  if negb ((Z.abs step <=? max_safe_integer) && (0 <? step)) then hret false else claim_if userId step (fun _ => true) id.

(** [secret ? ... : null]: an empty secret is no secret. *)
Definition live_secret (keys : CryptoKeyConfig) (stored : option string) : option string :=
  match openTotpSecret keys stored with Some s => if is_empty s then None else Some s | None => None end.

(** ** E-mail codes *)

Definition EMAIL_OTP_TTL_MS : Z := 10 * 60 * 1000.
Definition EMAIL_OTP_MAX_ATTEMPTS : Z := 5.

Definition hashEmailOtp (code : string) : string := sha256 (trim code).
(** [draw] is the number drawn between 100000 and 999999. *)
Definition newEmailOtp (email : string) (draw : Z) : Handler (string * PendingEmailOtp) :=
  t <- now;;
  let code := dec draw in
  hret (code, {| po_codeHash := hashEmailOtp code; po_email := email; po_expires := t + EMAIL_OTP_TTL_MS; po_attempts := 0 |}).
Definition emailOtpMatches (pending : PendingEmailOtp) (code : js) (t : Z) : bool :=
  if po_expires pending <? t then false
  else
    let typed := trim (text_or_empty code) in
    if negb (six_digits typed) then false else String.eqb (hashEmailOtp typed) (po_codeHash pending).
Definition sendEmailOtp (smtpServerId : Z) (toEmail code : string) : Handler unit :=
  up <- reads (fun w => cf_smtp_up (sw_config w));;
  if up then writes (on_log (fun l => {| lg_mails := {| ml_to := toEmail; ml_code := code |} :: lg_mails l; lg_audit := lg_audit l; lg_claims := lg_claims l |}))
  else fail 500 "SMTP server not configured for OTP".

(** A wrong code counts against the pending code, the last one drops it. *)
Definition counted (pending : PendingEmailOtp) (drop : bool) : option PendingEmailOtp :=
  let attempts := po_attempts pending + 1 in
  if drop || (EMAIL_OTP_MAX_ATTEMPTS <=? attempts) then None
  else Some {| po_codeHash := po_codeHash pending; po_email := po_email pending; po_expires := po_expires pending; po_attempts := attempts |}.
Definition consumeEmailOtp (key : OtpKey) (code : js) : Handler bool :=
  s <- session;;
  match otp_of key s with
  | None => hret false
  | Some pending =>
      t <- now;;
      if emailOtpMatches pending code t then hret true
      else modify_session (set_otp key (counted pending (po_expires pending <? t))) >> hret false
  end.

(** ** The proof that opens the profile routes *)

Definition checkFactorProof (userId : Z) (body : js) : Handler unit :=
  row <- account userId;;
  keys <- reads (fun w => cf_keys (sw_config w));;
  t <- now;;
  match row with
  | None => fail 401 "User not found"
  | Some a =>
      if has_totp a then
        let code := code_of (get_field "currentCode" body) in
        if is_empty code then fail 400 "Current authenticator code required"
        else
          let refused := audit "profile.factor_proof" (Some userId) false "totp" >> reject 400 "Invalid code" in
          match live_secret keys (ac_totp_secret a) with
          | Some secret =>
              match verifyTotpStep secret code TOTP_WINDOW t with
              | Some step => ok <- acceptTotpStep userId step;; if (ok : bool) then hret tt else refused
              | None => refused
              end
          | None => refused
          end
      else if is_obligate a then fail 403 "The second factors of an Obligate account are managed in Obligate"
      else
        let password := str_of (get_field "currentPassword" body) in
        if is_empty password then fail 400 "Current password required"
        else
          let refused := audit "profile.factor_proof" (Some userId) false "password" >> reject 400 "Invalid password" in
          match ac_password_hash a with
          | Some h => if negb (is_empty h) && comparePassword password h then hret tt else refused
          | None => refused
          end
  end.

(** ** Profile routes *)

Definition PENDING_TOTP_TTL_MS : Z := 10 * 60 * 1000.
Definition clearPendingTotp : Handler unit := modify_session (set_pendingTotp None).

(** [fresh] is the secret drawn by the TOTP library. *)
Definition totpSetup (userId : Z) (body : js) (fresh : string) : Handler string :=
  row <- account userId;;
  match row with
  | None => fail 401 "User not found"
  | Some a =>
      (if has_totp a || ac_email_otp_enabled a then checkFactorProof userId body else hret tt) >>
      (t <- now;;
       modify_session (set_pendingTotp (Some {| pt_secret := fresh; pt_expiresAt := t + PENDING_TOTP_TTL_MS; pt_replaces := has_totp a |})) >>
       hret fresh)
  end.

(** [nonce] is the one of the encryption of the secret. *)
Definition totpEnable (userId : Z) (body : js) (nonce : string) : Handler unit :=
  s <- session;;
  t <- now;;
  keys <- reads (fun w => cf_keys (sw_config w));;
  match ss_pendingTotp s with
  | None => fail 400 "No pending TOTP setup. Call /setup first."
  | Some p =>
      if is_empty (pt_secret p) then fail 400 "No pending TOTP setup. Call /setup first."
      else if pt_expiresAt p <? t then clearPendingTotp >> fail 400 "TOTP setup expired. Call /setup again."
      else match verifyTotpStep (pt_secret p) (text_or_empty (get_field "code" body)) TOTP_WINDOW t with
           | None => fail 400 "Invalid code"
           | Some step =>
               updated <- claim_if userId step (fun a => pt_replaces p || negb (ac_totp_enabled a && bool_decide (is_Some (ac_totp_secret a))))
                            (set_totp true (Some (sealTotpSecret keys nonce (pt_secret p))));;
               if (updated : bool) then
                 clearPendingTotp >> audit "profile.totp_enabled" (Some userId) true (if pt_replaces p then "replaced" else "added")
               else
                 cur <- account userId;;
                 if match cur ≫= ac_totp_last_step with Some l => step <=? l | None => false end
                 then fail 400 "This code was already used. Wait for the next code."
                 else clearPendingTotp >> fail 409 "Two-factor authentication was enabled in the meantime. Start the setup again."
           end
  end.

Definition totpDisable (userId : Z) (body : js) : Handler unit :=
  row <- account userId;;
  let hadTotp := match row with Some a => has_totp a | None => false end in
  (if hadTotp then checkFactorProof userId body else hret tt) >>
  writes (on_users (alter (set_totp false None) userId)) >>
  clearPendingTotp >>
  when hadTotp (audit "profile.totp_disabled" (Some userId) true "").

Definition lower_trim (s : string) : string := to_lower (trim s).
(** [lower(trim(email))]: SQL trims spaces only. *)
Fixpoint spaces_start (s : string) : string := match s with String " " t => spaces_start t | _ => s end.
Fixpoint spaces_end (s : string) : string :=
  match s with
  | EmptyString => EmptyString
  | String c t => match spaces_end t with EmptyString => if Ascii.eqb c " " then EmptyString else String c EmptyString | t' => String c t' end
  end.
Definition sql_lower_trim (s : string) : string := to_lower (spaces_end (spaces_start s)).
(** [cfg.otp_smtp_server_id]: zero is falsy. *)
Definition otp_server (w : World) : option Z :=
  match cf_otp_smtp_server_id (sw_config w) with Some n => if n =? 0 then None else Some n | None => None end.

Definition emailSetup (userId : Z) (body : js) (draw : Z) : Handler string :=
  row <- account userId;;
  server <- reads otp_server;;
  let profileEmail := trim (default "" (row ≫= ac_email)) in
  if is_empty profileEmail then fail 400 "Set an e-mail address in your profile first."
  else
    let asked := trim (str_of (get_field "email" body)) in
    if negb (is_empty asked) && negb (String.eqb (to_lower asked) (to_lower profileEmail))
    then fail 400 "Codes are sent to the e-mail address of your profile. Change it in your profile first."
    else match server with
         | None => fail 400 "No SMTP server configured for OTP. Ask your administrator."
         | Some smtp =>
             checkFactorProof userId body >>
             (cp <- newEmailOtp profileEmail draw;;
              modify_session (set_otp pendingEmailOtpSetup (Some (snd cp))) >>
              sendEmailOtp smtp profileEmail (fst cp) >> hret profileEmail)
         end.

Definition emailEnable (userId : Z) (body : js) : Handler unit :=
  s <- session;;
  t <- now;;
  match ss_pendingEmailOtpSetup s with
  | None => fail 400 "No pending email OTP setup. Call /setup first."
  | Some pending =>
      if po_expires pending <? t then modify_session (set_otp pendingEmailOtpSetup None) >> fail 400 "Code expired"
      else
        ok <- consumeEmailOtp pendingEmailOtpSetup (get_field "code" body);;
        if negb ok then fail 400 "Invalid code"
        else
          modify_session (set_otp pendingEmailOtpSetup None) >>
          (row <- account userId;;
           match row with
           | Some a =>
               if bool_decide (option_map sql_lower_trim (ac_email a) = Some (lower_trim (po_email pending)))
               then writes (on_users (alter (set_email_otp true) userId)) >> audit "profile.email_otp_enabled" (Some userId) true ""
               else fail 409 "Your e-mail address changed during the setup. Start again."
           | None => fail 409 "Your e-mail address changed during the setup. Start again."
           end)
  end.

Definition emailDisable (userId : Z) (body : js) : Handler unit :=
  row <- account userId;;
  let had := match row with Some a => ac_email_otp_enabled a | None => false end in
  (if had then checkFactorProof userId body else hret tt) >>
  writes (on_users (alter (set_email_otp false) userId)) >>
  modify_session (set_otp pendingEmailOtpSetup None) >>
  when had (audit "profile.email_otp_disabled" (Some userId) true "").

(** ** The second step of a sign-in *)

(** [draw] is the nonce of the encryption of a secret stored in plain text. *)
Definition verify_factor (userId : Z) (a : Account) (body : js) (nonce : string) : Handler bool :=
  keys <- reads (fun w => cf_keys (sw_config w));;
  t <- now;;
  let code := get_field "code" body in
  match get_field "method" body with
  | JStr m =>
      if String.eqb m "totp" && has_totp a then
        match live_secret keys (ac_totp_secret a) with
        | Some secret =>
            match verifyTotpStep secret (text_or_empty code) TOTP_WINDOW t with
            | Some step =>
                ok <- acceptTotpStep userId step;;
                when ((ok : bool) && negb (isSealedTotpSecret (ac_totp_secret a)))
                  (writes (on_users (alter (fun b => if bool_decide (ac_totp_secret b = ac_totp_secret a)
                                                     then set_totp (ac_totp_enabled b) (Some (sealTotpSecret keys nonce secret)) b else b) userId))) >>
                hret ok
            | None => hret false
            end
        | None => hret false
        end
      else if String.eqb m "email" && ac_email_otp_enabled a then consumeEmailOtp pendingEmailOtp code
      else hret false
  | _ => hret false
  end.

(** [Number] truthiness of an id kept in the session. *)
Definition truthy_id (o : option Z) : option Z := match o with Some u => if u =? 0 then None else Some u | None => None end.

Definition mfaVerify (body : js) (nonce : string) : Handler unit :=
  s <- session;;
  match truthy_id (ss_pendingMfaUserId s) with
  | None => fail 400 "No pending 2FA session"
  | Some userId =>
      row <- account userId;;
      match row with
      | Some a =>
          if negb (ac_is_active a) then
            modify_session (fun s => set_otp pendingEmailOtp None (set_pendingMfa None s)) >> fail 400 "No pending 2FA session"
          else
            valid <- verify_factor userId a body nonce;;
            let method := if is_str "email" (get_field "method" body) then "email" else "totp" in
            if negb valid then audit "auth.login" (Some userId) false method >> fail 401 "Invalid code"
            else
              regenerateSession >>
              modify_session (set_identity userId (ac_role a)) >>
              audit "auth.login" (Some userId) true method
      | None => modify_session (fun s => set_otp pendingEmailOtp None (set_pendingMfa None s)) >> fail 400 "No pending 2FA session"
      end
  end.

Definition resendEmail (draw : Z) : Handler unit :=
  s <- session;;
  match truthy_id (ss_pendingMfaUserId s) with
  | None => fail 400 "No pending 2FA session"
  | Some userId =>
      row <- account userId;;
      server <- reads otp_server;;
      match row with
      | Some a =>
          let email := default "" (ac_email a) in
          if negb (ac_email_otp_enabled a) || is_empty email then fail 400 "Email OTP not configured for this user"
          else match server with
               | None => fail 400 "No SMTP server configured for OTP"
               | Some smtp =>
                   cp <- newEmailOtp email draw;;
                   modify_session (set_otp pendingEmailOtp (Some (snd cp))) >> sendEmailOtp smtp email (fst cp)
               end
      | None => fail 400 "Email OTP not configured for this user"
      end
  end.
End TwoFactor.

(** ** Concrete authenticators, for the examples *)

#[export] Instance TestAuthenticators : Authenticators := {
  bcrypt_compare p h := String.eqb (String "h" p) h;
  bcrypt_hash p := String "h" p;
  totp_validate secret token ms window :=
    if String.eqb token "123456" && (0 <=? window) then Some (Some 0) else if String.eqb token "000000" then None else Some None
}.
#[export] Instance TestAuthenticators_laws : AuthenticatorLaws TestAuthenticators.
Proof.
  split; cbn [bcrypt_compare bcrypt_hash totp_validate TestAuthenticators].
  - intros p. apply String.eqb_refl.
  - intros secret token ms window d. destruct (String.eqb token "123456" && (0 <=? window)) eqn:E; [|by destruct (String.eqb token "000000")].
    apply andb_true_iff in E as [_ E]. apply Z.leb_le in E. intros [= <-]. lia.
Qed.

(** A code counts for its own 30 second step and the one on either side. *)
Lemma totp_window `{A : Authenticators} `{!AuthenticatorLaws A} secret code nowMs step :
  verifyTotpStep secret code TOTP_WINDOW nowMs = Some step ->
  nowMs / 1000 / TOTP_PERIOD_S - TOTP_WINDOW <= step <= nowMs / 1000 / TOTP_PERIOD_S + TOTP_WINDOW.
Proof.
  unfold verifyTotpStep. cbv zeta. destruct (negb _); [done|]. destruct (totp_validate _ _ _ _) as [[d|]|] eqn:E; [|done..].
  apply totp_drift in E. intros [= <-]. lia.
Qed.
