(* ===== verification/SignIn.v ===== *)
(** * Sign-in, sign-out and revocation

    auth.service.ts and auth.controller.ts (password sign-in, sign-out), sessionUserGuard.ts
    (the account behind every request), userSessions.service.ts (revocation),
    require2faSetup.ts (forced second factor), profile.controller.ts (e-mail and password
    changes), passwordReset.service.ts, the credential routes of users.controller.ts and the
    session an SSO callback opens. *)

From S2P Require Import Prelude JsString JsValue JsNumber Query Secrets SignInStore TwoFactor.

Section SignIn.
Context `{C : Ciphers} `{A : Authenticators}.

(** ** Password sign-in *)

Fixpoint find_row (p : Account -> bool) (l : list (Z * Account)) : option (Z * Account) :=
  match l with [] => None | x :: r => if p (snd x) then Some x else find_row p r end.
Definition first_user (p : Account -> bool) (w : World) : option (Z * Account) := find_row p (map_to_list (sw_users w)).

(** [!password_hash]: null or empty. *)
Definition password_of (a : Account) : option string :=
  match ac_password_hash a with Some h => if is_empty h then None else Some h | None => None end.
(** The comparison with a dummy hash only takes time. *)
Definition authenticate (username password : string) : Handler (option (Z * Account)) :=
  row <- reads (first_user (fun a => String.eqb (ac_username a) username && ac_is_active a));;
  hret match row with
       | Some (u, a) =>
           match password_of a with
           | Some h => if negb (is_obligate a) && comparePassword password h then Some (u, a) else None
           | None => None
           end
       | None => None
       end.

Inductive LoginReply := Requires2fa (totp email : bool) | SignedIn (userId : Z).

Definition login (username password : string) (draw : Z) : Handler LoginReply :=
  user <- authenticate username password;;
  match user with
  | None =>
      known <- reads (first_user (fun a => String.eqb (ac_username a) username));;
      audit "auth.login" (option_map fst known) false "password" >> fail 401 "Invalid username or password"
  | Some (u, a) =>
      regenerateSession >>
      if ac_totp_enabled a || ac_email_otp_enabled a then
        modify_session (set_pendingMfa (Some u)) >>
        (server <- reads otp_server;;
         let email := default "" (ac_email a) in
         (if ac_email_otp_enabled a && negb (is_empty email)
          then match server with
               | Some smtp =>
                   cp <- newEmailOtp email draw;;
                   modify_session (set_otp pendingEmailOtp (Some (snd cp))) >> sendEmailOtp smtp email (fst cp)
               | None => hret tt
               end
          else hret tt) >>
         hret (Requires2fa (ac_totp_enabled a) (ac_email_otp_enabled a)))
      else
        modify_session (set_identity u (ac_role a)) >> audit "auth.login" (Some u) true "password" >> hret (SignedIn u)
  end.

(** [session.destroy] *)
Definition destroy_session : Handler unit := fun h => ({| hs_world := on_sessions (delete (hs_sid h)) (hs_world h); hs_sid := hs_sid h |}, inr tt).
Definition logout : Handler unit :=
  s <- session;;
  (match truthy_id (ss_userId s) with Some u => audit "auth.logout" (Some u) true "" | None => hret tt end) >> destroy_session.

(** The end of the SSO callback: [localUserId] and the role are those of the verified assertion. *)
Definition ssoSession (localUserId : Z) (admin : bool) : Handler bool :=
  regenerateSession >>
  writes (on_guard (delete localUserId)) >>
  (row <- account localUserId;;
   match row with
   | Some a =>
       if ac_is_active a then modify_session (set_identity localUserId (if admin then "admin" else "user")) >> hret true
       else audit "auth.sso_login" (Some localUserId) false "account_disabled" >> hret false
   | None => audit "auth.sso_login" (Some localUserId) false "account_disabled" >> hret false
   end).

(** ** The account behind a request *)

Definition GUARD_TTL_MS : Z := 5000.
Definition GUARD_MAX_ENTRIES : Z := 10000.
Definition invalidateUserState (userId : Z) : Handler unit := writes (on_guard (delete userId)).

(** What the users table answers: the columns [is_active] and [role], or no row. *)
Definition user_row (w : World) (userId : Z) : option (bool * string) := option_map (fun a => (ac_is_active a, ac_role a)) (sw_users w !! userId).
Definition read_user_state (row : option (bool * string)) (t : Z) : GuardEntry := {|
  ge_active := match row with Some (active, _) => active | None => false end;
  ge_role := option_map snd row;
  ge_at := t |}.
Definition remember_state (userId : Z) (e : GuardEntry) (m : gmap Z GuardEntry) : gmap Z GuardEntry :=
  <[userId := e]> (if GUARD_MAX_ENTRIES <=? Z.of_nat (size m) then ∅ else m).
(** Before the query is awaited: the state kept, when it is recent enough. *)
Definition cached_state (userId : Z) : Handler (option GuardEntry) :=
  hit <- reads (fun w => sw_guard w !! userId);;
  t <- now;;
  hret match hit with Some c => if t - ge_at c <? GUARD_TTL_MS then Some c else None | None => None end.
(** After it: the row may be older than the cache it is written to. *)
Definition fill_state (userId : Z) (row : option (bool * string)) : Handler GuardEntry :=
  t <- now;;
  writes (on_guard (remember_state userId (read_user_state row t))) >> hret (read_user_state row t).
(** The lookup of a request whose answer comes before anything else happens; the file
    SignInRuns also lets it come later. *)
Definition loadUserState (userId : Z) : Handler GuardEntry :=
  hit <- cached_state userId;;
  match hit with
  | Some c => hret c
  | None => row <- reads (fun w => user_row w userId);; fill_state userId row
  end.
Definition sessionUserGuard : Handler unit :=
  s <- session;;
  match truthy_id (ss_userId s) with
  | None => hret tt
  | Some u =>
      state <- loadUserState u;;
      match ge_role state with
      | Some r =>
          if negb (ge_active state) || is_empty r then regenerateSession
          else if bool_decide (ss_role s = Some r) then hret tt else modify_session (set_role (Some r))
      | None => regenerateSession
      end
  end.
Definition requireAuth {B} (m : Z -> Handler B) : Handler B :=
  s <- session;;
  match truthy_id (ss_userId s) with Some u => m u | None => fail 401 "Authentication required" end.

(** ** Revocation *)

Definition of_user (userId : Z) (s : Session) : bool :=
  bool_decide (ss_userId s = Some userId) || bool_decide (ss_pendingMfaUserId s = Some userId).
Definition destroyForUser (userId : Z) (exceptSid : option Z) : Handler unit :=
  invalidateUserState userId >>
  writes (on_sessions (filter (fun kv => of_user userId (snd kv) = false \/ exceptSid = Some (fst kv)))).

(** ** The forced second factor *)

Definition needs2faSetup (w : World) (userId : Z) : bool :=
  if cf_disable2faForce (sw_config w) then false
  else match sw_users w !! userId with
       | Some a => if negb (cf_force_2fa (sw_config w)) then false else if is_obligate a then false else negb (has_totp a) && negb (ac_email_otp_enabled a)
       | None => false
       end.
Definition isExempt (method path : string) : bool :=
  starts_with "/api/auth/" path || String.eqb path "/api/auth" || starts_with "/api/profile/2fa/" path
  || (String.eqb method "GET" && (String.eqb path "/api/profile" || String.eqb path "/api/profile/")).
Definition require2faSetup (method path : string) : Handler unit :=
  s <- session;;
  match truthy_id (ss_userId s) with
  | None => hret tt
  | Some u => if isExempt method path then hret tt
              else needs <- reads (fun w => needs2faSetup w u);;
                   if (needs : bool) then fail 403 "Two-factor authentication must be set up before using the application" else hret tt
  end.

(** ** Profile *)

(** The columns [email] and [currentPassword] of [PUT /profile]; [None] for a body without
    an email. *)
Definition updateEmail (userId : Z) (email : option (option string)) (currentPassword : string) : Handler unit :=
  row <- account userId;;
  match row with
  | None => fail 404 "User not found"
  | Some a =>
      match email with
      | None => hret tt
      | Some e =>
          let nextEmail := match e with Some s => if is_empty s then None else Some (trim s) | None => None end in
          let norm (o : option string) := match o with Some s => lower_trim s | None => "" end in
          if String.eqb (norm nextEmail) (norm (ac_email a)) then hret tt
          else if is_obligate a then fail 400 "The email of an Obligate account is managed in Obligate"
          else match password_of a with
               | None => fail 400 "This account has no local password: its email address cannot be changed here"
               | Some h =>
                   if is_empty currentPassword then fail 400 "The current password is required to change the email address"
                   else if negb (comparePassword currentPassword h)
                   then audit "profile.email_changed" (Some userId) false "wrong_current_password" >> reject 400 "Current password is incorrect"
                   else
                     taken <- reads (fun w => match nextEmail with
                                              | Some x => if is_empty x then false
                                                          else existsb (fun '(u, b) => negb (u =? userId) && bool_decide (option_map to_lower (ac_email b) = Some (lower_trim x))) (map_to_list (sw_users w))
                                              | None => false
                                              end);;
                     if (taken : bool) then fail 409 "This email address is already in use"
                     else writes (on_users (alter (set_email nextEmail) userId)) >> audit "profile.email_changed" (Some userId) true ""
               end
      end
  end.

(** Keeps what is not pending. *)
Definition kept_identity (s : Session) : Session := {|
  ss_userId := ss_userId s; ss_role := ss_role s; ss_pendingMfaUserId := None; ss_pendingEmailOtp := None; ss_pendingTotp := None;
  ss_pendingEmailOtpSetup := None; ss_stepUp := ss_stepUp s; ss_stepUpEmailOtp := ss_stepUpEmailOtp s; ss_stepUpEmailSentAt := ss_stepUpEmailSentAt s |}.
Definition regenerateKeepingIdentity : Handler unit :=
  s <- session;; regenerateSession >> modify_session (fun _ => kept_identity s).
Definition changePassword (userId : Z) (currentPassword newPassword : string) : Handler unit :=
  row <- account userId;;
  match row with
  | None => fail 404 "User not found"
  | Some a =>
      match (if is_obligate a then None else password_of a) with
      | None => fail 400 "This account signs in through Obligate"
      | Some h =>
          if negb (comparePassword currentPassword h)
          then audit "profile.password_changed" (Some userId) false "wrong_current_password" >> reject 400 "Current password is incorrect"
          else
            writes (on_users (alter (set_password (hashPassword newPassword)) userId)) >>
            regenerateKeepingIdentity >>
            (sid <- current_sid;; destroyForUser userId (Some sid)) >>
            audit "profile.password_changed" (Some userId) true ""
      end
  end.

(** ** Password reset by a mailed link *)

Definition TOKEN_EXPIRY_MS : Z := 60 * 60 * 1000.
Definition users_by_id (w : World) : list (Z * Account) := order_by (fun x y => fst x <=? fst y) (map_to_list (sw_users w)).
(** [rawToken] is drawn; the mail is sent when the server is set. *)
Definition requestReset (email rawToken : string) : Handler unit :=
  user <- reads (fun w => find_row (fun a => bool_decide (ac_email a = Some email) && negb (is_obligate a)) (users_by_id w));;
  t <- now;;
  match user with
  | None => hret tt
  | Some (u, _) =>
      writes (on_resets (fun l =>
        List.filter (fun r => negb ((rt_user r =? u) && negb (rt_used r))) l
        ++ [{| rt_id := 1 + fold_right (fun r m => Z.max (rt_id r) m) 0 l; rt_user := u; rt_hash := sha256 rawToken; rt_expires := t + TOKEN_EXPIRY_MS; rt_used := false |}])) >>
      (server <- reads otp_server;;
       match server with
       | None => hret tt
       | Some smtp =>
           up <- reads (fun w => cf_smtp_up (sw_config w));;
           if (up : bool) then sendEmailOtp smtp email rawToken else hret tt
       end)
  end.
Definition usable_token (w : World) (rawToken : string) (r : ResetToken) : bool :=
  String.eqb (rt_hash r) (sha256 rawToken) && negb (rt_used r) && (sw_now w <? rt_expires r)
  && match sw_users w !! rt_user r with Some a => negb (is_obligate a) | None => false end.
Definition validateToken (w : World) (rawToken : string) : option Z := option_map rt_user (List.find (usable_token w rawToken) (sw_resets w)).
Definition mark_used (id : Z) (r : ResetToken) : ResetToken :=
  if rt_id r =? id then {| rt_id := rt_id r; rt_user := rt_user r; rt_hash := rt_hash r; rt_expires := rt_expires r; rt_used := true |} else r.
Definition resetPassword (rawToken newPassword : string) : Handler Z :=
  row <- reads (fun w => List.find (usable_token w rawToken) (sw_resets w));;
  match row with
  | None => audit "auth.password_reset" None false "invalid_or_expired_link" >> fail 400 "Invalid or expired reset token"
  | Some r =>
      writes (fun w => on_resets (map (mark_used (rt_id r))) (on_users (alter (set_password (hashPassword newPassword)) (rt_user r)) w)) >>
      audit "auth.password_reset" (Some (rt_user r)) true "" >> hret (rt_user r)
  end.

(** ** Credentials of another account, by a manager ([manageable]: userScope lets them) *)

Definition resetUserPassword (byUser userId : Z) (manageable : bool) (password : string) : Handler unit :=
  row <- account userId;;
  if userId =? byUser then fail 400 "Use your profile to change your own password"
  else if negb manageable then fail 403 "NOT_MANAGEABLE"
  else match row with
       | None => fail 404 "User not found"
       | Some a =>
           if bool_decide (is_Some (ac_foreign_source a)) then fail 400 "Cannot change password of an SSO user"
           else
             writes (on_users (alter (set_password (hashPassword password)) userId)) >>
             destroyForUser userId None >>
             audit "user.password_reset" (Some byUser) true ""
       end.
Definition resetMfa (byUser userId : Z) (manageable : bool) : Handler unit :=
  row <- account userId;;
  if userId =? byUser then fail 400 "Use your profile to manage your own two-factor authentication"
  else if negb manageable then fail 403 "NOT_MANAGEABLE"
  else match row with
       | None => fail 404 "User not found"
       | Some _ =>
           writes (on_users (alter (fun a => set_email_otp false (set_totp false None a)) userId)) >>
           destroyForUser userId None >>
           audit "user.2fa_reset" (Some byUser) true ""
       end.
End SignIn.
