(* ===== verification/StepUp.v ===== *)
(** * Step-up confirmation ([services/stepUp.service.ts], [middleware/stepUp.ts])

    A fixed list of sensitive actions needs a proof of the account holder given in the
    session within the last ten minutes. *)

From S2P Require Import Prelude JsString JsValue JsNumber Tenancy Access Secrets SignInStore TwoFactor SignIn.

(** ** Actions and methods *)

Definition STEP_UP_ACTIONS : list string :=
  ["bans.wipe"; "ipReputation.wipe"; "bans.liftGlobal"; "bans.promote"; "whitelist.global"; "tenant.delete"; "agents.uninstall";
   "agents.delete"; "firewall.write"; "appConfig.secrets"; "users.role"; "users.credentials"; "keys.manage"; "remoteBlocklists.write"].
Definition isStepUpAction (v : js) : bool := match v with JStr s => existsb (String.eqb s) STEP_UP_ACTIONS | _ => false end.
Definition method_name (m : StepUpMethod) : string := match m with Totp => "totp" | Email => "email" | Password => "password" end.
Definition read_method (v : js) : option StepUpMethod :=
  match v with
  | JStr "totp" => Some Totp
  | JStr "email" => Some Email
  | JStr "password" => Some Password
  | _ => None
  end.
Definition STEP_UP_TTL_MS : Z := 10 * 60 * 1000.
Definition STEP_UP_EMAIL_COOLDOWN_MS : Z := 30 * 1000.

Section StepUp.
Context `{C : Ciphers} `{A : Authenticators}.

(** An active account. *)
Definition loadAccount (w : World) (userId : Z) : option Account :=
  match sw_users w !! userId with Some a => if ac_is_active a then Some a else None | None => None end.
Definition methodsFor (w : World) (a : Account) : list StepUpMethod :=
  (if has_totp a then [Totp] else [])
  ++ (if ac_email_otp_enabled a && bool_decide (is_Some (otp_server w)) && negb (is_empty (trim (default "" (ac_email a)))) then [Email] else [])
  ++ (if negb (has_totp a) && negb (ac_email_otp_enabled a) && bool_decide (is_Some (password_of a)) then [Password] else []).

(** ** The state of a session *)

Definition fresh_proof (s : Session) (t : Z) : option StepUpProof :=
  match truthy_id (ss_userId s), ss_stepUp s with
  | Some u, Some p => if (sp_user p =? u) && (0 <=? t - sp_at p) && (t - sp_at p <? STEP_UP_TTL_MS) then Some p else None
  | _, _ => None
  end.
Definition isFresh (s : Session) (t : Z) : bool := bool_decide (is_Some (fresh_proof s t)).
Definition clear : Handler unit := modify_session (fun s => set_otp stepUpEmailOtp None (set_stepUpEmailSentAt None (set_stepUp None s))).

Inductive StepUpState := St_fresh (method : StepUpMethod) (expiresAt : Z) | St_exempt | St_required (methods : list StepUpMethod) | St_unknown_user.
Definition state : Handler StepUpState :=
  s <- session;;
  t <- now;;
  match truthy_id (ss_userId s) with
  | None => hret St_unknown_user
  | Some u =>
      match fresh_proof s t with
      | Some p => hret (St_fresh (sp_method p) (sp_at p + STEP_UP_TTL_MS))
      | None =>
          row <- reads (fun w => loadAccount w u);;
          methods <- reads (fun w => match row with Some a => methodsFor w a | None => [] end);;
          hret match row with
               | None => St_unknown_user
               | Some a => if is_obligate a then St_exempt else St_required methods
               end
      end
  end.

(** ** The proof *)

Definition email_of (a : Account) : string := trim (default "" (ac_email a)).
Definition sendEmailCode (userId : Z) (draw : Z) : Handler unit :=
  row <- reads (fun w => loadAccount w userId);;
  s <- session;;
  t <- now;;
  match row with
  | None => fail 401 "UNKNOWN_USER"
  | Some a =>
      methods <- reads (fun w => methodsFor w a);;
      if is_obligate a then fail 400 "STEP_UP_NOT_NEEDED"
      else if negb (bool_decide (Email ∈ methods)) then fail 400 "STEP_UP_METHOD_UNAVAILABLE"
      else if match ss_stepUpEmailSentAt s with Some at0 => (0 <=? t - at0) && (t - at0 <? STEP_UP_EMAIL_COOLDOWN_MS) | None => false end
      then fail 429 "STEP_UP_EMAIL_COOLDOWN"
      else
        server <- reads otp_server;;
        cp <- newEmailOtp (email_of a) draw;;
        modify_session (fun s => set_stepUpEmailSentAt (Some t) (set_otp stepUpEmailOtp (Some (snd cp)) s)) >>
        match server with
        | Some smtp => sendEmailOtp smtp (email_of a) (fst cp)
        | None => fail 500 "SMTP server not configured for OTP"
        end
  end.

Definition auditResult (userId : Z) (m : StepUpMethod) (success : bool) : Handler unit :=
  audit (if success then "auth.stepUp" else "auth.stepUp.failed") (Some userId) success (method_name m).
(** A proof that is not good: audited, and counted by the limiter of the route. *)
Definition refuse_proof (userId : Z) (m : StepUpMethod) (code : string) : Handler bool := auditResult userId m false >> reject 400 code.

(** Each is [true] for a good proof, [false] for a wrong one. *)
Definition check_totp (userId : Z) (a : Account) (code : js) : Handler bool :=
  t <- now;;
  keys <- reads (fun w => cf_keys (sw_config w));;
  if negb (six_digits (code_of code)) then fail 400 "STEP_UP_CODE_REQUIRED"
  else match live_secret keys (ac_totp_secret a) with
       | None => hret false
       | Some secret =>
           match verifyTotpStep secret (code_of code) TOTP_WINDOW t with
           | None => hret false
           | Some step => ok <- acceptTotpStep userId step;;
                          if (ok : bool) then hret true else refuse_proof userId Totp "STEP_UP_CODE_USED"
           end
       end.
Definition check_email (a : Account) (code : js) : Handler bool :=
  s <- session;;
  t <- now;;
  match ss_stepUpEmailOtp s with
  | None => fail 400 "STEP_UP_EMAIL_NOT_SENT"
  | Some pending =>
      if is_empty (code_of code) then fail 400 "STEP_UP_CODE_REQUIRED"
      else
        let sameAddress := String.eqb (lower_trim (po_email pending)) (lower_trim (default "" (ac_email a))) in
        if sameAddress && emailOtpMatches pending (JStr (code_of code)) t
        then modify_session (set_otp stepUpEmailOtp None) >> hret true
        else modify_session (set_otp stepUpEmailOtp (counted pending (negb sameAddress || (po_expires pending <? t)))) >> hret false
  end.
Definition check_password (a : Account) (password : js) : Handler bool :=
  if is_empty (str_of password) then fail 400 "STEP_UP_PASSWORD_REQUIRED"
  else hret match password_of a with Some h => comparePassword (str_of password) h | None => false end.

Definition verify (userId : Z) (method code password : js) : Handler StepUpMethod :=
  row <- reads (fun w => loadAccount w userId);;
  match row with
  | None => fail 401 "UNKNOWN_USER"
  | Some a =>
      methods <- reads (fun w => methodsFor w a);;
      if is_obligate a then fail 400 "STEP_UP_NOT_NEEDED"
      else match read_method method with
           | None => fail 400 "STEP_UP_METHOD_INVALID"
           | Some m =>
               if negb (bool_decide (m ∈ methods)) then fail 400 "STEP_UP_METHOD_UNAVAILABLE"
               else
                 valid <- match m with Totp => check_totp userId a code | Email => check_email a code | Password => check_password a password end;;
                 if negb valid then refuse_proof userId m "STEP_UP_INVALID" >> hret m
                 else
                   t <- now;;
                   modify_session (set_stepUp (Some {| sp_at := t; sp_method := m; sp_user := userId |})) >>
                   auditResult userId m true >> hret m
           end
  end.

(** ** The gate *)

Inductive Gate := Gate_pass | Gate_exempt | Gate_no_proof | Gate_prove (methods : list StepUpMethod).
(** What the guard lets through calls [next()]. *)
Definition gate_open (g : Gate) : bool := match g with Gate_pass | Gate_exempt => true | _ => false end.
Definition requireStepUp (action : string) (sensitive : bool) : Handler Gate :=
  s <- session;;
  match truthy_id (ss_userId s) with
  | None => hret Gate_pass
  | Some u =>
      if negb sensitive then hret Gate_pass
      else
        st <- state;;
        match st with
        | St_fresh _ _ | St_unknown_user => hret Gate_pass
        | St_exempt => audit "auth.stepUp.exempt" (Some u) true action >> hret Gate_exempt
        | St_required methods => if bool_decide (methods = []) then hret Gate_no_proof else hret (Gate_prove methods)
        end
  end.

(** POST /profile/2fa/step-up *)
Inductive StepUpReply := Sent | Confirmed (m : StepUpMethod).
Definition stepUpVerify (userId : Z) (body : js) (draw : Z) : Handler StepUpReply :=
  let code := get_field "code" body in
  let wantsEmailCode := is_str "email" (get_field "method" body) && match code with JUndefined | JNull => true | JStr s => is_empty s | _ => false end in
  if wantsEmailCode then sendEmailCode userId draw >> hret Sent
  else m <- verify userId (get_field "method" body) code (get_field "password" body);; hret (Confirmed m).
End StepUp.
