(* ===== verification/StepUpGate.v ===== *)
(** * The sensitive branches ([middleware/stepUp.ts], with the readings of the controllers)

    The predicates that decide whether a request is sensitive read the same ids and bodies
    as the controllers behind them, which parse more or less strictly. *)

From S2P Require Import Prelude JsString JsValue JsNumber Tenancy Access SignInStore.

(** ** Readings *)

(** [parseInt(raw, 10)]: [None] is NaN. *)
Definition parse_int (raw : string) : option number :=
  let '(neg, s) := read_sign (trim_start raw) in
  let '(digits, _) := span is_digit s in
  if is_empty digits then None else Some (let n := round_double (digits_value 10 digits) 1 in if neg : bool then num_neg n else n).
Definition max_int4 : Z := 2147483647.
Definition in_int4 (n : number) : option Z := match positive_safe n with Some z => if z <=? max_int4 then Some z else None | None => None end.

Definition bodyOf (body : js) : js := match body with JObj _ => body | _ => JObj [] end.
Definition digits_only (s : string) : bool := str_forall is_digit s && negb (is_empty s).
Definition body_id (v : js) : option Z :=
  match v with
  | JNum n => positive_safe n
  | JStr s => if digits_only s then positive_safe (str_to_number s) else None
  | _ => None
  end.
Definition bodyIds (body : js) : list Z :=
  match get_field "ids" (bodyOf body) with JArr l => omap body_id (firstn 1000 l) | _ => [] end.
Definition paramIds (raw : string) : list Z :=
  let a := match in_int4 (str_to_number raw) with Some z => [z] | None => [] end in
  let b := match parse_int raw with Some n => match in_int4 n with Some z => [z] | None => [] end | None => [] end in
  a ++ List.filter (fun z => negb (existsb (Z.eqb z) a)) b.

(** ** Predicates: the rows are those of the table at the time of the check *)

Record BanFacts := { bf_id : Z; bf_global : bool; bf_active : bool }.
Definition operatingDefault (tenant : option Z) : bool := isMasterTenant tenant.
Definition any_row (ids : list Z) (p : BanFacts -> bool) (rows : list BanFacts) : bool :=
  existsb (fun r => existsb (Z.eqb (bf_id r)) ids && p r) rows.
Definition active_global (r : BanFacts) : bool := bf_global r && bf_active r.
Definition isGlobalLift (tenant : option Z) (rawId : string) (bans : list BanFacts) : bool :=
  operatingDefault tenant && any_row (paramIds rawId) active_global bans.
Definition isActiveBan (rawId : string) (bans : list BanFacts) : bool := any_row (paramIds rawId) bf_active bans.
Definition isGlobalBulkLift (tenant : option Z) (body : js) (bans : list BanFacts) : bool :=
  operatingDefault tenant && any_row (bodyIds body) active_global bans.
Definition isGlobalWhitelistCreate (tenant : option Z) (body : js) : bool :=
  operatingDefault tenant
  && negb (is_str "group" (get_field "scope" (bodyOf body))) && negb (is_str "agent" (get_field "scope" (bodyOf body))).
Definition isGlobalWhitelistDelete (tenant : option Z) (rawId : string) (entries : list BanFacts) : bool :=
  operatingDefault tenant && any_row (paramIds rawId) bf_global entries.
Definition isGlobalWhitelistBulkDelete (tenant : option Z) (body : js) (entries : list BanFacts) : bool :=
  operatingDefault tenant && any_row (bodyIds body) bf_global entries.

(** [:id] is an agent of the operating tenant, by id or by uuid. *)
Definition isDeviceInTenant (d : Directory) (tenant : option Z) (rawId : string) : bool :=
  match tenant with
  | None => false
  | Some t => match lookup_agent d (JStr rawId) with Some (Some x) => dev_tenant x =? t | _ => false end
  end.
Definition hasDevicesInTenant (d : Directory) (tenant : option Z) (body : js) : bool :=
  match get_field "deviceIds" (bodyOf body), tenant with
  | JArr l, Some t =>
      let ids := omap (fun v => positive_safe (to_number v)) (firstn 5000 l) in
      existsb (fun x => existsb (Z.eqb (dev_id x)) ids && (dev_tenant x =? t)) (d_devices d)
  | _, _ => false
  end.
Definition isUninstallCommand (body : js) : bool := is_str "uninstall" (get_field "command" (bodyOf body)).
Record KeyFacts := { kf_id : Z; kf_tenant : Z }.
Definition isKeyInTenant (tenant : option Z) (rawId : string) (keys : list KeyFacts) : bool :=
  match tenant with
  | None => false
  | Some t => existsb (fun k => existsb (Z.eqb (kf_id k)) (paramIds rawId) && (kf_tenant k =? t)) keys
  end.
Definition isKeyActivationChange (tenant : option Z) (rawId : string) (body : js) (keys : list KeyFacts) : bool :=
  has_field "isActive" (bodyOf body) && isKeyInTenant tenant rawId keys.
Definition allOf (preds : list bool) : bool := forallb (fun p => p) preds.

Definition STEP_UP_CONFIG_KEYS : list string :=
  ["obligate_enabled"; "oblitools_api_key"; "oblitools_push_enabled"; "allow_2fa"; "force_2fa"; "otp_smtp_server_id"].
Definition isSecretConfigKey (key : string) : bool := existsb (String.eqb key) STEP_UP_CONFIG_KEYS.
Definition isPrivilegedUserCreate (body : js) : bool :=
  is_str "admin" (get_field "role" (bodyOf body)) || is_str "admin" (get_field "tenantRole" (bodyOf body)).
(** The roles of the users table. *)
Definition isUserRoleChange (rawId : string) (body : js) (users : list (Z * string)) : bool :=
  if negb (has_field "role" (bodyOf body)) then false
  else match paramIds rawId with
       | [] => true
       | ids =>
           let rows := List.filter (fun u => existsb (Z.eqb (fst u)) ids) users in
           bool_decide (rows = []) || existsb (fun u => negb (is_str (snd u) (get_field "role" (bodyOf body)))) rows
       end.

(** ** The readings of the controllers *)

(** [parseBulkIds]; [None]: 400. *)
Definition BULK_LIFT_MAX : Z := 1000.
Definition ten_digits (s : string) : bool := str_forall is_digit s && (1 <=? String.length s)%nat && (String.length s <=? 10)%nat.
Definition bulk_id (v : js) : option Z :=
  match v with
  | JNum n => in_int4 n
  | JStr s => if ten_digits s then in_int4 (str_to_number s) else None
  | _ => None
  end.
Fixpoint all_ids (l : list js) : option (list Z) :=
  match l with
  | [] => Some []
  | v :: r => match bulk_id v, all_ids r with Some z, Some zs => Some (z :: zs) | _, _ => None end
  end.
Definition dedup_Z (l : list Z) : list Z := fold_right (fun z acc => z :: List.filter (fun y => negb (y =? z)) acc) [] l.
Definition parseBulkIds (raw : js) (max : nat) : option (list Z) :=
  match raw with
  | JArr l => if (length l =? 0)%nat || (max <? length l)%nat then None else option_map dedup_Z (all_ids l)
  | _ => None
  end.
(** [sanitizeDeviceIds]. *)
Definition positive_int (n : number) : option Z := match n with NInt z => if 0 <? z then Some z else None | NOther => None end.
Definition sanitizeDeviceIds (raw : js) : option (list Z) :=
  match raw with
  | JArr l => if (length l =? 0)%nat || (5000 <? length l)%nat then None
              else match dedup_Z (omap (fun v => positive_int (to_number v)) l) with [] => None | ids => Some ids end
  | _ => None
  end.

(** ** The gate reads every id a controller acts on *)

Lemma dedup_in z l : In z (dedup_Z l) -> In z l.
Proof.
  induction l as [|x l IH]; [done|]. cbn [dedup_Z fold_right]. intros [->|Hin]; [by left|].
  apply filter_In in Hin as [Hin _]. right. by apply IH.
Qed.

Lemma all_ids_in l zs z : all_ids l = Some zs -> In z zs -> exists v, In v l /\ bulk_id v = Some z.
Proof.
  revert zs. induction l as [|v l IH]; cbn [all_ids]; intros zs Hl Hz; [injection Hl as <-; done|].
  destruct (bulk_id v) as [x|] eqn:E; [|done]. destruct (all_ids l) as [xs|] eqn:El; [|done]. injection Hl as <-.
  destruct Hz as [->|Hz]; [exists v; split; [by left|done]|]. destruct (IH xs eq_refl Hz) as (v' & Hv & Hb). exists v'. split; [by right|done].
Qed.

Lemma bulk_id_body v z : bulk_id v = Some z -> body_id v = Some z.
Proof.
  unfold bulk_id, body_id, in_int4. intros Hv. destruct v as [| | |n|s| |]; try done.
  - destruct (positive_safe n) as [y|]; [|done]. by destruct (y <=? max_int4).
  - unfold ten_digits, digits_only in *. destruct (str_forall is_digit s); [|done]. destruct s as [|c s]; [done|].
    cbn [String.length andb negb is_empty] in *. destruct (Nat.leb_spec (S (String.length s)) 10); [|by rewrite andb_false_r in Hv].
    destruct (positive_safe (str_to_number (String c s))) as [y|]; [|done]. by destruct (y <=? max_int4).
Qed.

Lemma bulk_ids_covered body max ids z :
  (max <= 1000)%nat -> parseBulkIds (get_field "ids" (bodyOf body)) max = Some ids -> In z ids -> In z (bodyIds body).
Proof.
  unfold parseBulkIds, bodyIds. destruct (get_field "ids" (bodyOf body)) as [| | | | |l|]; try done. intros Hm Hp Hz.
  destruct ((length l =? 0)%nat || (max <? length l)%nat) eqn:E; [done|]. apply orb_false_iff in E as [_ E]. apply Nat.ltb_ge in E.
  rewrite firstn_all2 by lia. destruct (all_ids l) as [zs|] eqn:El; [|done]. injection Hp as <-. apply dedup_in in Hz.
  destruct (all_ids_in l zs z El Hz) as (v & Hv & Hb). apply bulk_id_body in Hb. apply list_elem_of_In, list_elem_of_omap. exists v.
  split; [by apply list_elem_of_In|done].
Qed.

Lemma in_int4_spec n z : n = NInt z -> 0 < z <= max_int4 -> in_int4 n = Some z.
Proof.
  intros -> Hz. unfold in_int4, positive_safe, max_int4, max_safe_integer in *. destruct (Z.ltb_spec 0 z); [|lia].
  destruct (Z.leb_spec z (2 ^ 53 - 1)); [|lia]. cbn. destruct (Z.leb_spec z 2147483647); [done|lia].
Qed.

(** Whatever a controller reads from the path, as a number or leniently, is among the ids
    the gate looks up. *)
Lemma param_covered raw z :
  (str_to_number raw = NInt z \/ parse_int raw = Some (NInt z)) -> 0 < z <= max_int4 -> In z (paramIds raw).
Proof.
  intros Hraw Hz. unfold paramIds. set (a := match in_int4 (str_to_number raw) with Some x => [x] | None => [] end).
  destruct (existsb (Z.eqb z) a) eqn:Ea.
  - apply in_or_app. left. apply existsb_exists in Ea as (x & Hx & E). by apply Z.eqb_eq in E as ->.
  - destruct Hraw as [E|E].
    + exfalso. subst a. rewrite (in_int4_spec _ z E Hz) in Ea. cbn in Ea. by rewrite Z.eqb_refl in Ea.
    + apply in_or_app. right. rewrite E, (in_int4_spec _ z eq_refl Hz). apply filter_In. split; [by left|]. by rewrite Ea.
Qed.

Lemma any_row_covers ids p rows r : any_row ids p rows = false -> In r rows -> In (bf_id r) ids -> p r = false.
Proof.
  unfold any_row. intros Hn Hr Hid. destruct (p r) eqn:E; [|done]. exfalso. assert (existsb (fun x => existsb (Z.eqb (bf_id x)) ids && p x) rows = true); [|congruence].
  apply existsb_exists. exists r. split; [done|]. rewrite E, andb_true_r. apply existsb_exists. exists (bf_id r). split; [done|apply Z.eqb_refl].
Qed.

(** A request of Default the gate takes for harmless really is: the ban a lift reads from
    its path, strictly or leniently, and every ban a bulk lift accepts, is not an active
    global one; the same for the global entries of the whitelist; and no agent of the
    operating tenant is among those a bulk uninstall or deletion accepts. *)
Theorem harmless_branch_harmless (tenant : option Z) (rawId : string) (body : js) (rows : list BanFacts) (r : BanFacts) (d : Directory)
    (Hr : In r rows) (Hid : 0 < bf_id r <= max_int4) :
  (operatingDefault tenant = true ->
     (isGlobalLift tenant rawId rows = false -> str_to_number rawId = NInt (bf_id r) \/ parse_int rawId = Some (NInt (bf_id r)) -> active_global r = false)
     /\ (forall ids, isGlobalBulkLift tenant body rows = false -> parseBulkIds (get_field "ids" (bodyOf body)) (Z.to_nat BULK_LIFT_MAX) = Some ids -> In (bf_id r) ids -> active_global r = false)
     /\ (isGlobalWhitelistDelete tenant rawId rows = false -> str_to_number rawId = NInt (bf_id r) \/ parse_int rawId = Some (NInt (bf_id r)) -> bf_global r = false))
  /\ (forall ids x t, tenant = Some t -> hasDevicesInTenant d tenant body = false -> sanitizeDeviceIds (get_field "deviceIds" (bodyOf body)) = Some ids ->
        In x (d_devices d) -> dev_id x <= max_int4 -> In (dev_id x) ids -> dev_tenant x <> t).
Proof.
  split.
  - intros Hdef. split_and!.
    + intros Hg Hraw. unfold isGlobalLift in Hg. rewrite Hdef in Hg. apply (any_row_covers _ _ _ r Hg Hr). by apply param_covered.
    + intros ids Hg Hp Hin. unfold isGlobalBulkLift in Hg. rewrite Hdef in Hg. apply (any_row_covers _ _ _ r Hg Hr).
      apply (bulk_ids_covered body (Z.to_nat BULK_LIFT_MAX) ids); [apply Nat.leb_le; by vm_compute|done|done].
    + intros Hg Hraw. unfold isGlobalWhitelistDelete in Hg. rewrite Hdef in Hg. apply (any_row_covers _ _ _ r Hg Hr). by apply param_covered.
  - intros ids x t -> Hn Hs Hx Hmax Hin Ht. unfold hasDevicesInTenant in Hn. unfold sanitizeDeviceIds in Hs.
    destruct (get_field "deviceIds" (bodyOf body)) as [| | | | |l|]; try done.
    destruct ((length l =? 0)%nat || (5000 <? length l)%nat) eqn:E; [done|]. apply orb_false_iff in E as [_ E]. apply Nat.ltb_ge in E.
    cbv zeta in Hn. rewrite firstn_all2 in Hn by lia. rewrite existsb_false_forall in Hn. specialize (Hn x Hx). rewrite Ht, Z.eqb_refl, andb_true_r in Hn.
    assert (Hi : In (dev_id x) (omap (fun v => positive_int (to_number v)) l)).
    { apply dedup_in. destruct (dedup_Z (omap _ l)) as [|y ys]; [done|]. by injection Hs as <-. }
    apply list_elem_of_In, list_elem_of_omap in Hi as (v & Hv & Ev). rewrite existsb_false_forall in Hn.
    assert (Hin2 : In (dev_id x) (omap (fun v => positive_safe (to_number v)) l)).
    { apply list_elem_of_In, list_elem_of_omap. exists v. split; [done|]. unfold positive_int, positive_safe in *. destruct (to_number v) as [z|]; [|done].
      destruct (0 <? z); [|done]. injection Ev as ->. cbn [andb]. destruct (Z.leb_spec (dev_id x) max_safe_integer) as [|Hz]; [done|].
      exfalso. change max_int4 with 2147483647 in *. change max_safe_integer with 9007199254740991 in *. lia. }
    specialize (Hn _ Hin2). by rewrite Z.eqb_refl in Hn.
Qed.

Definition sample_rows : list BanFacts := [{| bf_id := 12; bf_global := true; bf_active := false |}; {| bf_id := 7; bf_global := false; bf_active := true |}].
Lemma harmless_branch_harmless_witness : active_global {| bf_id := 7; bf_global := false; bf_active := true |} = false.
Proof.
  refine (proj1 (proj1 (harmless_branch_harmless (Some 1) "7abc" (JObj []) sample_rows {| bf_id := 7; bf_global := false; bf_active := true |} sample_dir _ _) _) _ _).
  - right. by left.
  - cbn. unfold max_int4. lia.
  - by vm_compute.
  - by vm_compute.
  - right. by vm_compute.
Defined.
