(* ===== verification/SignInEffects.v ===== *)
(** * What a handler can do to the sessions and to the TOTP steps

    Every handler is a composition of a few writes. A preorder of states that each of these
    writes respects is respected by the handlers: [tame] (no session gains an identity, a
    pending sign-in or a step-up), [keeps_claims] (TOTP steps are claimed in increasing
    order) and [keeps_locked] (a disabled account stays locked out) are such preorders. *)

From Stdlib Require Import Sorting.Sorted.
From S2P Require Import Prelude JsString JsValue JsNumber Secrets SignInStore TwoFactor SignIn StepUp.

Create HintDb signin.

(** ** Handlers that respect a preorder of states *)

Section Respects.
Variable R : HS -> HS -> Prop.
Context `{!PreOrder R}.

Definition Respects {B} (m : Handler B) : Prop := forall h, R h (fst (m h)).

Lemma respects_pure {B} (m : Handler B) : (forall h, fst (m h) = h) -> Respects m.
Proof. intros Hm h. by rewrite Hm. Qed.
Lemma respects_bind {B D} (m : Handler B) (k : B -> Handler D) : Respects m -> (forall x, Respects (k x)) -> Respects (hbind m k).
Proof.
  intros Hm Hk h. unfold hbind. specialize (Hm h). destruct (m h) as [h' [e|a]]; [done|]. cbn [fst] in Hm. etransitivity; [exact Hm|apply Hk].
Qed.
Lemma respects_when b m : Respects m -> Respects (when b m).
Proof. intros Hm. destruct b; [done|]. by apply respects_pure. Qed.
End Respects.

Ltac handler_step :=
  match goal with
  | |- Respects _ (hbind _ _) => apply respects_bind; [try typeclasses eauto|..|intros]
  | |- Respects _ (when _ _) => apply respects_when; [try typeclasses eauto|]
  | |- Respects _ (hret _) => apply respects_pure; [try typeclasses eauto|done]
  | |- Respects _ (fail _ _) => apply respects_pure; [try typeclasses eauto|done]
  | |- Respects _ (reject _ _) => apply respects_pure; [try typeclasses eauto|done]
  | |- Respects _ (reads _) => apply respects_pure; [try typeclasses eauto|done]
  | |- Respects _ session => apply respects_pure; [try typeclasses eauto|done]
  | |- Respects _ now => apply respects_pure; [try typeclasses eauto|done]
  | |- Respects _ current_sid => apply respects_pure; [try typeclasses eauto|done]
  | |- Respects _ (account _) => apply respects_pure; [try typeclasses eauto|done]
  | |- Respects _ (match ?x with _ => _ end) => destruct x
  end.
Ltac handler := repeat first [progress intros | solve [eauto with signin] | handler_step | progress cbv zeta].

(** ** Sessions *)

(** What a session may become without anybody proving anything. *)
Definition kept_or_dropped {X} (a b : option X) : Prop := b = a \/ b = None.
Definition same_identity (s s' : Session) : Prop :=
  kept_or_dropped (ss_userId s) (ss_userId s') /\ kept_or_dropped (ss_pendingMfaUserId s) (ss_pendingMfaUserId s')
  /\ kept_or_dropped (ss_stepUp s) (ss_stepUp s').
#[export] Instance same_identity_preorder : PreOrder same_identity.
Proof.
  unfold same_identity, kept_or_dropped. split; [intros s; auto|]. intros s1 s2 s3 (A1 & A2 & A3) (B1 & B2 & B3).
  intuition congruence.
Qed.
Lemma same_identity_empty s : same_identity s empty_session.
Proof. unfold same_identity, kept_or_dropped. cbn. auto. Qed.

Definition next_sid (h : HS) : Z := st_next (sw_store (hs_world h)).
Definition sessions (h : HS) : gmap Z Session := st_sessions (sw_store (hs_world h)).
Definition at_sid (h : HS) (k : Z) : Session := session_of (hs_world h) k.

Record tame (h h' : HS) : Prop := {
  tame_now : sw_now (hs_world h') = sw_now (hs_world h);
  tame_next : next_sid h <= next_sid h';
  tame_sid : hs_sid h' = hs_sid h \/ next_sid h <= hs_sid h' < next_sid h';
  tame_in k s' : sessions h' !! k = Some s' ->
    same_identity (at_sid h k) s' /\ (is_Some (sessions h !! k) \/ k = hs_sid h \/ next_sid h <= k < next_sid h')
}.

Lemma at_sid_some h k s : sessions h !! k = Some s -> at_sid h k = s.
Proof. unfold at_sid, session_of, sessions. by intros ->. Qed.
Lemma at_sid_none h k : sessions h !! k = None -> at_sid h k = empty_session.
Proof. unfold at_sid, session_of, sessions. by intros ->. Qed.

(** ** The writes of the handlers *)

(** A change of an account that is not the claim of a step, nor its activation. *)
Definition plain_change (f : Account -> Account) : Prop :=
  forall a, ac_totp_last_step (f a) = ac_totp_last_step a /\ ac_is_active (f a) = ac_is_active a.
(** A change of a session that proves nothing. *)
Definition plain_session (f : Session -> Session) : Prop := forall s, same_identity s (f s).

Record Harmless (R : HS -> HS -> Prop) : Prop := {
  hl_preorder :: PreOrder R;
  hl_alter f u : plain_change f -> Respects R (writes (on_users (alter f u)));
  hl_claim u s c f : plain_change f -> Respects R (claim_if u s c f);
  hl_log f : (forall l, lg_claims (f l) = lg_claims l /\ exists new, lg_audit (f l) = new ++ lg_audit l) -> Respects R (writes (on_log f));
  hl_resets f : Respects R (writes (on_resets f));
  hl_forget u : Respects R (writes (on_guard (delete u)));
  hl_load u : Respects R (loadUserState u);
  hl_restrict f : (forall m k (s : Session), f m !! k = Some s -> m !! k = Some s) -> Respects R (writes (on_sessions f));
  hl_modify f : plain_session f -> Respects R (modify_session f);
  hl_destroy : Respects R destroy_session
}.

Ltac plain := first [ intros ?; done | intros ?; unfold same_identity, kept_or_dropped; cbn; tauto ].

Section Handlers.
Context `{C : Ciphers} `{A : Authenticators}.
Context (R : HS -> HS -> Prop) (HR : Harmless R).
#[local] Instance R_preorder : PreOrder R := hl_preorder R HR.

Definition r_resets := hl_resets R HR.
Definition r_forget := hl_forget R HR.
Definition r_load := hl_load R HR.
Definition r_destroy := hl_destroy R HR.
Lemma r_audit a u b d : Respects R (audit a u b d).
Proof. apply (hl_log R HR). intros l. split; [done|]. by eexists [_]. Qed.
Lemma r_otp k p : Respects R (modify_session (set_otp k p)).
Proof. apply (hl_modify R HR). plain. Qed.
Lemma r_pendingTotp p : Respects R (modify_session (set_pendingTotp p)).
Proof. apply (hl_modify R HR). plain. Qed.
Lemma r_role r : Respects R (modify_session (set_role r)).
Proof. apply (hl_modify R HR). plain. Qed.
Lemma r_forget_pending : Respects R (modify_session (fun s => set_otp pendingEmailOtp None (set_pendingMfa None s))).
Proof. apply (hl_modify R HR). plain. Qed.
Lemma r_sent_at t p : Respects R (modify_session (fun s => set_stepUpEmailSentAt t (set_otp stepUpEmailOtp p s))).
Proof. apply (hl_modify R HR). plain. Qed.
Lemma r_totp b o u : Respects R (writes (on_users (alter (set_totp b o) u))).
Proof. apply (hl_alter R HR). plain. Qed.
Lemma r_email_otp b u : Respects R (writes (on_users (alter (set_email_otp b) u))).
Proof. apply (hl_alter R HR). plain. Qed.
Lemma r_password h u : Respects R (writes (on_users (alter (set_password h) u))).
Proof. apply (hl_alter R HR). plain. Qed.
Lemma r_email e u : Respects R (writes (on_users (alter (set_email e) u))).
Proof. apply (hl_alter R HR). plain. Qed.
Lemma r_accept u s : Respects R (acceptTotpStep u s).
Proof. unfold acceptTotpStep. destruct (negb _); [handler|]. by apply (hl_claim R HR). Qed.
#[local] Hint Resolve r_resets r_forget r_load r_destroy r_audit r_otp r_pendingTotp r_role
  r_forget_pending r_sent_at r_totp r_email_otp r_password r_email r_accept : signin.

Lemma r_newEmailOtp e d : Respects R (newEmailOtp e d).
Proof. unfold newEmailOtp. handler. Qed.
Lemma r_sendEmailOtp n e c : Respects R (sendEmailOtp n e c).
Proof. unfold sendEmailOtp. handler. apply (hl_log R HR). intros l. split; [done|]. by exists []. Qed.
Lemma r_consume k c : Respects R (consumeEmailOtp k c).
Proof. unfold consumeEmailOtp. handler. Qed.
Lemma r_proof u b : Respects R (checkFactorProof u b).
Proof. unfold checkFactorProof. handler. Qed.
#[local] Hint Resolve r_newEmailOtp r_sendEmailOtp r_consume r_proof : signin.

Lemma r_totpSetup u b f : Respects R (totpSetup u b f).
Proof. unfold totpSetup. handler. Qed.
Lemma r_totpEnable u b n : Respects R (totpEnable u b n).
Proof. unfold totpEnable, clearPendingTotp. handler. apply (hl_claim R HR). plain. Qed.
Lemma r_totpDisable u b : Respects R (totpDisable u b).
Proof. unfold totpDisable, clearPendingTotp. handler. Qed.
Lemma r_emailSetup u b d : Respects R (emailSetup u b d).
Proof. unfold emailSetup. handler. Qed.
Lemma r_emailEnable u b : Respects R (emailEnable u b).
Proof. unfold emailEnable. handler. Qed.
Lemma r_emailDisable u b : Respects R (emailDisable u b).
Proof. unfold emailDisable. handler. Qed.
Lemma r_verify_factor u a b n : Respects R (verify_factor u a b n).
Proof. unfold verify_factor. handler. apply (hl_alter R HR). intros y. by case_bool_decide. Qed.
Lemma r_resendEmail d : Respects R (resendEmail d).
Proof. unfold resendEmail. handler. Qed.
Lemma r_authenticate u p : Respects R (authenticate u p).
Proof. unfold authenticate. handler. Qed.
Lemma r_logout : Respects R logout.
Proof. unfold logout. handler. Qed.
Lemma r_sessionUserGuard : Respects R regenerateSession -> Respects R sessionUserGuard.
Proof. intros Hr. unfold sessionUserGuard. handler. Qed.
Lemma r_destroyForUser u e : Respects R (destroyForUser u e).
Proof.
  unfold destroyForUser, invalidateUserState. handler. apply (hl_restrict R HR). intros m k s Hk. by apply map_lookup_filter_Some in Hk as [Hk _].
Qed.
#[local] Hint Resolve r_destroyForUser : signin.
Lemma r_updateEmail u e p : Respects R (updateEmail u e p).
Proof. unfold updateEmail. handler. Qed.
Lemma r_requestReset e t : Respects R (requestReset e t).
Proof. unfold requestReset. handler. Qed.
Lemma r_resetPassword t p : Respects R (resetPassword t p).
Proof.
  unfold resetPassword. handler. intros h. etransitivity; [apply (r_password (hashPassword p) (rt_user r) h)|].
  apply (hl_resets R HR (map (mark_used (rt_id r))) (fst (writes (on_users (alter (set_password (hashPassword p)) (rt_user r))) h))).
Qed.
Lemma r_resetUserPassword b u m p : Respects R (resetUserPassword b u m p).
Proof. unfold resetUserPassword. handler. Qed.
Lemma r_resetMfa b u m : Respects R (resetMfa b u m).
Proof. unfold resetMfa. handler. apply (hl_alter R HR). plain. Qed.
Lemma r_state : Respects R state.
Proof. unfold state. handler. Qed.
#[local] Hint Resolve r_state : signin.
Lemma r_sendEmailCode u d : Respects R (sendEmailCode u d).
Proof. unfold sendEmailCode. handler. Qed.
Lemma r_check_totp u a c : Respects R (check_totp u a c).
Proof. unfold check_totp, refuse_proof, auditResult. handler. Qed.
Lemma r_check_email a c : Respects R (check_email a c).
Proof. unfold check_email. handler. Qed.
Lemma r_check_password a c : Respects R (check_password a c).
Proof. unfold check_password. handler. Qed.
Lemma r_requireStepUp a s : Respects R (requireStepUp a s).
Proof. unfold requireStepUp. handler. Qed.

(** ** The handlers that write an identity or a proof *)

Section Proving.
Hypothesis any_modify : forall f, Respects R (modify_session f).
Hypothesis renews : Respects R regenerateSession.
#[local] Hint Resolve any_modify renews r_authenticate r_verify_factor r_check_totp r_check_email r_check_password r_sendEmailCode : signin.
Lemma r_login u p d : Respects R (login u p d).
Proof. unfold login. handler. Qed.
Lemma r_mfaVerify b n : Respects R (mfaVerify b n).
Proof. unfold mfaVerify. handler. Qed.
Lemma r_sso u a : Respects R (ssoSession u a).
Proof. unfold ssoSession. handler. Qed.
Lemma r_changePassword u c p : Respects R (changePassword u c p).
Proof. unfold changePassword, regenerateKeepingIdentity. handler. Qed.
Lemma r_stepUpVerify u b d : Respects R (stepUpVerify u b d).
Proof. unfold stepUpVerify, verify, refuse_proof, auditResult. handler. Qed.
End Proving.
End Handlers.

#[export] Hint Resolve r_totpSetup r_totpEnable r_totpDisable r_emailSetup r_emailEnable r_emailDisable r_verify_factor r_resendEmail r_authenticate
  r_logout r_sessionUserGuard r_destroyForUser r_updateEmail r_requestReset r_resetPassword r_resetUserPassword r_resetMfa r_sendEmailCode
  r_check_totp r_check_email r_check_password r_requireStepUp : signin.

(** ** No session gains anything *)

#[export] Instance tame_preorder : PreOrder tame.
Proof.
  split.
  - intros h. split; [done|lia|by left|]. intros k s' Hk. rewrite (at_sid_some h k s' Hk). split; [done|]. left. by exists s'.
  - intros h1 h2 h3 H1 H2. destruct H1 as [N1 X1 S1 I1], H2 as [N2 X2 S2 I2]. split; [congruence|lia|destruct S1, S2; lia|].
    intros k s' Hk. destruct (I2 k s' Hk) as [Hs He]. destruct (sessions h2 !! k) as [s2|] eqn:E2.
    + destruct (I1 k s2 E2) as [Hs1 He1]. rewrite (at_sid_some _ _ _ E2) in Hs. split; [by transitivity s2|].
      destruct He1 as [|[|]]; [by left|right; by left|right; right; lia].
    + rewrite (at_sid_none _ _ E2) in Hs. split; [etransitivity; [apply same_identity_empty|exact Hs]|].
      destruct He as [[? ?]|[->|]]; [congruence| |right; right; lia]. destruct S1 as [->|]; [right; by left|right; right; lia].
Qed.

Lemma tame_writes f : (forall w, sw_store (f w) = sw_store w /\ sw_now (f w) = sw_now w) -> Respects tame (writes f).
Proof.
  intros Hf h. destruct (Hf (hs_world h)) as [E1 E2]. destruct h as [w sid]. cbn in *.
  split; unfold next_sid, at_sid, session_of, sessions; cbn; rewrite ?E1, ?E2; [done|lia|by left|].
  intros k s' Hk. rewrite Hk. split; [done|]. left. by exists s'.
Qed.

Lemma tame_modify f : (forall s, same_identity s (f s)) -> Respects tame (modify_session f).
Proof.
  intros Hf [w sid]. split; unfold next_sid, at_sid, session_of, sessions; cbn; [done|lia|by left|].
  intros k s' Hk. destruct (decide (k = sid)) as [->|Hne].
  - rewrite lookup_insert_eq in Hk. injection Hk as <-. split; [apply Hf|right; by left].
  - rewrite lookup_insert_ne in Hk by done. rewrite Hk. split; [done|]. left. by exists s'.
Qed.

Lemma tame_regenerate : Respects tame regenerateSession.
Proof.
  intros [w sid]. split; unfold next_sid, at_sid, session_of, sessions; cbn; [done|lia|right; lia|].
  intros k s' Hk. destruct (decide (k = st_next (sw_store w))) as [->|Hne].
  - rewrite lookup_insert_eq in Hk. injection Hk as <-. split; [apply same_identity_empty|right; right; lia].
  - rewrite lookup_insert_ne in Hk by done. apply lookup_delete_Some in Hk as [Hne' Hk]. rewrite Hk. split; [done|]. left. by exists s'.
Qed.

Lemma tame_restrict f : (forall m k (s : Session), f m !! k = Some s -> m !! k = Some s) -> Respects tame (writes (on_sessions f)).
Proof.
  intros Hf [w sid]. split; unfold next_sid, at_sid, session_of, sessions; cbn; [done|lia|by left|].
  intros k s' Hk. apply Hf in Hk. rewrite Hk. split; [done|]. left. by exists s'.
Qed.

Lemma tame_destroy : Respects tame destroy_session.
Proof.
  intros [w sid]. split; unfold next_sid, at_sid, session_of, sessions; cbn; [done|lia|by left|].
  intros k s' Hk. apply lookup_delete_Some in Hk as [_ Hk]. rewrite Hk. split; [done|]. left. by exists s'.
Qed.

Lemma tame_harmless `{C : Ciphers} `{A : Authenticators} : Harmless tame.
Proof.
  split.
  - typeclasses eauto.
  - intros. by apply tame_writes.
  - intros u s c f _. unfold claim_if. handler. by apply tame_writes.
  - intros. by apply tame_writes.
  - intros. by apply tame_writes.
  - intros. by apply tame_writes.
  - intros u. unfold loadUserState, cached_state, fill_state. handler; by apply tame_writes.
  - exact tame_restrict.
  - exact tame_modify.
  - exact tame_destroy.
Qed.

(** ** The session of the request *)

Definition same_sid (h h' : HS) : Prop := hs_sid h' = hs_sid h.
#[export] Instance same_sid_preorder : PreOrder same_sid.
Proof. split; [done|]. intros h1 h2 h3 H1 H2. unfold same_sid in *. congruence. Qed.
Lemma same_sid_harmless `{C : Ciphers} `{A : Authenticators} : Harmless same_sid.
Proof.
  split; try (by intros; intros h); [typeclasses eauto| |].
  - intros u s c f _. unfold claim_if. handler. by intros h.
  - intros u. unfold loadUserState, cached_state, fill_state. handler; by intros h.
Qed.

(** ** What is written down stays written *)

Definition keeps_log (c : Claim) (row : AuditRow) (h h' : HS) : Prop :=
  (In c (lg_claims (sw_log (hs_world h))) -> In c (lg_claims (sw_log (hs_world h'))))
  /\ (In row (lg_audit (sw_log (hs_world h))) -> In row (lg_audit (sw_log (hs_world h')))).
#[export] Instance keeps_log_preorder c row : PreOrder (keeps_log c row).
Proof. split; [done|]. intros h1 h2 h3 [] []. unfold keeps_log. auto. Qed.
Lemma log_writes c row f : (forall w, sw_log (f w) = sw_log w) -> Respects (keeps_log c row) (writes f).
Proof. intros Hf [w sid]. unfold keeps_log. cbn. by rewrite Hf. Qed.
Lemma keeps_log_harmless `{C : Ciphers} `{A : Authenticators} c row : Harmless (keeps_log c row).
Proof.
  split; try (by intros; intros h); try (by intros; apply log_writes); [typeclasses eauto| | |].
  - intros u s p f _. unfold claim_if. handler. intros [w sid]. unfold keeps_log. cbn. split; [by right|done].
  - intros f Hf [w sid]. unfold keeps_log. cbn. destruct (Hf (sw_log w)) as [-> [new ->]]. split; [done|]. intros Hr. apply in_or_app. by right.
  - intros u. unfold loadUserState, cached_state, fill_state. handler; by apply log_writes.
Qed.

(** ** TOTP steps *)

Definition steps_of (u : Z) (l : list Claim) : list Z := map cl_step (List.filter (fun c => cl_user c =? u) l).
(** The steps claimed by a user decrease from the newest on, and none is above the one
    recorded in the account. *)
Definition claims_ok (w : World) : Prop :=
  forall u, StronglySorted Z.gt (steps_of u (lg_claims (sw_log w)))
    /\ forall a, sw_users w !! u = Some a ->
         match ac_totp_last_step a with Some l => Forall (fun s => s <= l) (steps_of u (lg_claims (sw_log w))) | None => steps_of u (lg_claims (sw_log w)) = [] end.

Definition keeps_claims (h h' : HS) : Prop := claims_ok (hs_world h) -> claims_ok (hs_world h').
#[export] Instance keeps_claims_preorder : PreOrder keeps_claims.
Proof. split; [by intros h H|]. intros h1 h2 h3 H1 H2 H. auto. Qed.

(** The users keep their last step, or are dropped. *)
Lemma claims_ok_users w f :
  (forall u a, sw_users (f w) !! u = Some a -> exists a0, sw_users w !! u = Some a0 /\ ac_totp_last_step a = ac_totp_last_step a0) ->
  lg_claims (sw_log (f w)) = lg_claims (sw_log w) -> claims_ok w -> claims_ok (f w).
Proof.
  intros Hu Hc H u. rewrite Hc. destruct (H u) as [H1 H2]. split; [done|]. intros a Ha. destruct (Hu u a Ha) as (a0 & Ha0 & ->). by apply H2.
Qed.

Lemma claims_writes f : (forall w, sw_users (f w) = sw_users w /\ lg_claims (sw_log (f w)) = lg_claims (sw_log w)) -> Respects keeps_claims (writes f).
Proof.
  intros Hf [w sid] H. cbn in *. destruct (Hf w) as [E1 E2]. apply claims_ok_users; [|done|done]. intros u a. rewrite E1. eauto.
Qed.

Lemma claim_ok w u a s f :
  sw_users w !! u = Some a -> newer_step s a = true -> (forall b, ac_totp_last_step (f b) = ac_totp_last_step b) ->
  claims_ok w -> claims_ok (claim_step u s f w).
Proof.
  intros Hu Hn Hf H v. destruct (H v) as [H1 H2]. cbn [claim_step on_log sw_log lg_claims on_users sw_users]. unfold steps_of. cbn [List.filter].
  destruct (Z.eqb_spec u v) as [<-|Hv]; cbn [cl_user].
  - rewrite Z.eqb_refl. cbn [map cl_step]. fold (steps_of u (lg_claims (sw_log w))). unfold newer_step in Hn. specialize (H2 a Hu). split.
    + constructor; [done|]. destruct (ac_totp_last_step a) as [l|]; [|by rewrite H2]. apply Z.ltb_lt in Hn. eapply Forall_impl; [exact H2|]. cbn. lia.
    + intros b. rewrite lookup_alter. case_decide; [|done]. rewrite Hu. cbn. intros [= <-]. rewrite Hf. cbn [set_last_step ac_totp_last_step].
      constructor; [lia|]. destruct (ac_totp_last_step a) as [l|]; [|by rewrite H2]. apply Z.ltb_lt in Hn. eapply Forall_impl; [exact H2|]. cbn. lia.
  - rewrite (proj2 (Z.eqb_neq u v)) by done. fold (steps_of v (lg_claims (sw_log w))). split; [done|]. intros b. rewrite lookup_alter_ne by done. apply H2.
Qed.

Lemma claims_harmless `{C : Ciphers} `{A : Authenticators} : Harmless keeps_claims.
Proof.
  split.
  - typeclasses eauto.
  - intros f u Hf [w sid] H. cbn in *. apply (claims_ok_users w (on_users (alter f u))); [|done|done].
    intros v a. cbn. rewrite lookup_alter. case_decide as E; [|eauto]. subst v. destruct (sw_users w !! u) as [b|]; cbn; [|done]. intros [= <-].
    exists b. split; [done|apply Hf].
  - intros u s c f Hf [w sid] H. unfold claim_if, account, hbind, reads. cbn [hs_world]. destruct (sw_users w !! u) as [a|] eqn:Hu; [|done].
    destruct (newer_step s a && c a) eqn:E; [|done]. apply andb_true_iff in E as [E _]. cbn. apply (claim_ok w u a); [done|done| |done]. intros b. apply Hf.
  - intros f Hf. apply claims_writes. intros w. cbn. by rewrite (proj1 (Hf _)).
  - intros. by apply claims_writes.
  - intros. by apply claims_writes.
  - intros u. unfold loadUserState, cached_state, fill_state. handler; by apply claims_writes.
  - by intros f _ h H.
  - by intros f _ h H.
  - by intros h H.
Qed.

(** ** A disabled account *)

(** The account is disabled or gone. *)
Definition inactive (u : Z) (w : World) : Prop := forall a, sw_users w !! u = Some a -> ac_is_active a = false.
(** And every cached state that says otherwise is one of [P]. *)
Definition locked_but (P : GuardEntry -> Prop) (u : Z) (w : World) : Prop :=
  inactive u w /\ forall e, sw_guard w !! u = Some e -> ge_active e = true -> P e.
(** No cached state says otherwise. *)
Definition locked (u : Z) (w : World) : Prop := inactive u w /\ forall e, sw_guard w !! u = Some e -> ge_active e = false.
Definition keeps_locked (P : GuardEntry -> Prop) (u : Z) (h h' : HS) : Prop := locked_but P u (hs_world h) -> locked_but P u (hs_world h').
#[export] Instance keeps_locked_preorder P u : PreOrder (keeps_locked P u).
Proof. split; [by intros h H|]. intros h1 h2 h3 H1 H2 H. unfold keeps_locked in *. auto. Qed.

Lemma locked_but_any P u w : locked u w -> locked_but P u w.
Proof. intros [H1 H2]. split; [done|]. intros e He Ha. rewrite (H2 e He) in Ha. done. Qed.
Lemma locked_but_weaken (P Q : GuardEntry -> Prop) u w : (forall e, P e -> Q e) -> locked_but P u w -> locked_but Q u w.
Proof. intros HPQ [H1 H2]. split; [done|]. intros e He Ha. by apply HPQ, H2. Qed.

Lemma locked_writes P u f : (forall w, sw_users (f w) = sw_users w /\ sw_guard (f w) = sw_guard w) -> Respects (keeps_locked P u) (writes f).
Proof. intros Hf [w sid] [H1 H2]. cbn in *. destruct (Hf w) as [E1 E2]. split; [intros a; rewrite E1; apply H1|intros e; rewrite E2; apply H2]. Qed.

Lemma inactive_alter u f v w : (forall a, ac_is_active (f a) = ac_is_active a) -> inactive u w -> inactive u (on_users (alter f v) w).
Proof.
  intros Hf H a. cbn. rewrite lookup_alter. case_decide as E; [|apply H]. subst v. destruct (sw_users w !! u) as [b|] eqn:Eb; cbn; [|done].
  intros [= <-]. rewrite Hf. by apply H.
Qed.

(** A state written to the cache counts when it is the account's and says it is active. *)
Lemma fill_locked P u v row h :
  locked_but P u (hs_world h) -> (v = u -> ge_active (read_user_state row (sw_now (hs_world h))) = true -> P (read_user_state row (sw_now (hs_world h)))) ->
  locked_but P u (hs_world (fst (fill_state v row h))).
Proof.
  intros [H1 H2] HP. split; [done|]. intros e. cbn. unfold remember_state. destruct (decide (v = u)) as [->|Hv].
  - rewrite lookup_insert_eq. intros [= <-]. by apply HP.
  - rewrite lookup_insert_ne by done. destruct (GUARD_MAX_ENTRIES <=? _); [by rewrite lookup_empty|apply H2].
Qed.
Lemma load_split u h :
  (exists c, sw_guard (hs_world h) !! u = Some c /\ sw_now (hs_world h) - ge_at c < GUARD_TTL_MS /\ loadUserState u h = (h, inr c))
  \/ loadUserState u h = fill_state u (user_row (hs_world h) u) h.
Proof.
  unfold loadUserState, cached_state, hbind, reads, now. cbn. destruct (sw_guard (hs_world h) !! u) as [c|]; [|by right].
  destruct (Z.ltb_spec (sw_now (hs_world h) - ge_at c) GUARD_TTL_MS); [left; by exists c|by right].
Qed.
Lemma inactive_row u w t : inactive u w -> ge_active (read_user_state (user_row w u) t) = false.
Proof. intros H. unfold user_row. cbn. destruct (sw_users w !! u) as [a|] eqn:E; cbn; [by apply H|done]. Qed.

Lemma locked_harmless `{C : Ciphers} `{A : Authenticators} P u : Harmless (keeps_locked P u).
Proof.
  split.
  - typeclasses eauto.
  - intros f v Hf [w sid] [H1 H2]. split; [|done]. apply inactive_alter; [|done]. intros a. apply Hf.
  - intros v s c f Hf [w sid] [H1 H2]. unfold claim_if, account, hbind, reads. cbn [hs_world]. destruct (sw_users w !! v) as [a|] eqn:Hu; [|done].
    destruct (newer_step s a && c a); [|done]. cbn. split; [|done]. apply (inactive_alter u (fun b => f (set_last_step s b)) v w); [|done]. intros b. by rewrite (proj2 (Hf _)).
  - intros. by apply locked_writes.
  - intros. by apply locked_writes.
  - intros v [w sid] [H1 H2]. split; [done|]. cbn. intros e He. apply lookup_delete_Some in He as [_ He]. by apply H2.
  - intros v h H. destruct (load_split v h) as [(c & _ & _ & ->)| ->]; [done|]. apply fill_locked; [done|]. intros -> Ha.
    by rewrite (inactive_row u (hs_world h) _ (proj1 H)) in Ha.
  - by intros f _ h H.
  - by intros f _ h H.
  - by intros h H.
Qed.
