(* ===== verification/SignInRuns.v ===== *)
(** * Every run of the sign-in

    Requests as a browser sends them, each served on the session it names, after the guard
    of the account; between them time passes, accounts change, sessions expire or are written
    back by a request that was under way, and the guard of one gets the answer of a query it
    made before. *)

From Stdlib Require Import Sorting.Sorted.
From S2P Require Import Prelude JsString JsValue JsNumber Secrets SignInStore TwoFactor SignIn StepUp SignInEffects.

Section Runs.
Context `{C : Ciphers} `{A : Authenticators}.

(** ** Requests *)

Inductive Request :=
| Rq_login (username password : string) (draw : Z)
| Rq_logout
| Rq_mfa_verify (body : js) (nonce : string)
| Rq_mfa_resend (draw : Z)
| Rq_sso (user : Z) (admin : bool)
| Rq_totp_setup (body : js) (fresh : string)
| Rq_totp_enable (body : js) (nonce : string)
| Rq_totp_disable (body : js)
| Rq_email_setup (body : js) (draw : Z)
| Rq_email_enable (body : js)
| Rq_email_disable (body : js)
| Rq_step_up (body : js) (draw : Z)
| Rq_sensitive (action : string) (sensitive : bool)
| Rq_update_email (email : option (option string)) (currentPassword : string)
| Rq_change_password (currentPassword newPassword : string)
| Rq_forgot (email rawToken : string)
| Rq_reset (rawToken newPassword : string)
| Rq_reset_user_password (user : Z) (manageable : bool) (password : string)
| Rq_reset_user_mfa (user : Z) (manageable : bool)
| Rq_other (method path : string).

Inductive Reply := Rp_done | Rp_login (r : LoginReply) | Rp_sso (signed : bool) | Rp_gate (g : Gate) | Rp_stepUp (r : StepUpReply).
Definition answer {B} (f : B -> Reply) (m : Handler B) : Handler Reply := x <- m;; hret (f x).
Abbreviation done_by m := (answer (fun _ => Rp_done) m).
(** A route behind [requireStepUp(action)]. *)
Definition behind_gate {B} (action : string) (m : Handler B) : Handler B :=
  g <- requireStepUp action true;; if gate_open g then m else fail (match g with Gate_no_proof => 403 | _ => 401 end) "TWO_FACTOR_REQUIRED".

Definition handle (r : Request) : Handler Reply :=
  match r with
  | Rq_login u p d => answer Rp_login (login u p d)
  | Rq_logout => requireAuth (fun _ => done_by logout)
  | Rq_mfa_verify b n => done_by (mfaVerify b n)
  | Rq_mfa_resend d => done_by (resendEmail d)
  | Rq_sso u a => answer Rp_sso (ssoSession u a)
  | Rq_totp_setup b f => requireAuth (fun u => done_by (totpSetup u b f))
  | Rq_totp_enable b n => requireAuth (fun u => done_by (totpEnable u b n))
  | Rq_totp_disable b => requireAuth (fun u => done_by (totpDisable u b))
  | Rq_email_setup b d => requireAuth (fun u => done_by (emailSetup u b d))
  | Rq_email_enable b => requireAuth (fun u => done_by (emailEnable u b))
  | Rq_email_disable b => requireAuth (fun u => done_by (emailDisable u b))
  | Rq_step_up b d => requireAuth (fun u => answer Rp_stepUp (stepUpVerify u b d))
  | Rq_sensitive a s => requireAuth (fun _ => answer Rp_gate (requireStepUp a s))
  | Rq_update_email e p => requireAuth (fun u => done_by (updateEmail u e p))
  | Rq_change_password c p => requireAuth (fun u => done_by (changePassword u c p))
  | Rq_forgot e t => done_by (requestReset e t)
  | Rq_reset t p => done_by (resetPassword t p)
  | Rq_reset_user_password v m p => requireAuth (fun u => done_by (behind_gate "users.credentials" (resetUserPassword u v m p)))
  | Rq_reset_user_mfa v m => requireAuth (fun u => done_by (behind_gate "users.credentials" (resetMfa u v m)))
  | Rq_other m p => requireAuth (fun _ => done_by (require2faSetup m p))
  end.

(** An unknown session id is never taken over: a new one is drawn. *)
Definition opened (w : World) (sid : Z) : HS :=
  if bool_decide (is_Some (st_sessions (sw_store w) !! sid)) then {| hs_world := w; hs_sid := sid |}
  else {| hs_world := new_session sid w; hs_sid := st_next (sw_store w) |}.
(** What the handler finds: the session opened, the account checked. *)
Definition guarded (w : World) (sid : Z) : HS := fst (sessionUserGuard (opened w sid)).

(** ** Runs *)

(** A request is recorded with the state its handler found and the one it left. *)
Inductive Event :=
| Ev_request (before : World) (sid : Z) (r : Request) (after : World) (sid' : Z) (out : Fault + Reply)
| Ev_env (before after : World)
| Ev_lookup (w : World) (user : Z)
| Ev_answer (before : World) (user : Z) (row : option (bool * string)) (after : World).
Definition ev_before (e : Event) : World := match e with Ev_request b _ _ _ _ _ | Ev_env b _ | Ev_lookup b _ | Ev_answer b _ _ _ => b end.
Definition ev_after (e : Event) : World := match e with Ev_request _ _ _ a _ _ | Ev_env _ a | Ev_lookup a _ | Ev_answer _ _ _ a => a end.

(** The guard of a request awaits the users table. What the table answered ([Ev_lookup]) is
    written to the cache when the request goes on ([Ev_answer]), which may be after other
    requests and changes; the request is then served as any other, and finds that state. *)
Fixpoint drop_first (x : Z * option (bool * string)) (l : list (Z * option (bool * string))) : list (Z * option (bool * string)) :=
  match l with [] => [] | y :: l' => if decide (x = y) then l' else y :: drop_first x l' end.
Fixpoint pending (tr : list Event) : list (Z * option (bool * string)) :=
  match tr with
  | [] => []
  | Ev_lookup w u :: tr' => (u, user_row w u) :: pending tr'
  | Ev_answer _ u row _ :: tr' => drop_first (u, row) (pending tr')
  | _ :: tr' => pending tr'
  end.
Definition filled (u : Z) (row : option (bool * string)) (w : World) : World := hs_world (fst (fill_state u row {| hs_world := w; hs_sid := 0 |})).
Definition misses (u : Z) (w : World) : Prop := snd (cached_state u {| hs_world := w; hs_sid := 0 |}) = inr None.

(** A session as it was at some point of the run. *)
Definition held (tr : list Event) (k : Z) (s : Session) : Prop :=
  exists e, In e tr /\ (st_sessions (sw_store (ev_before e)) !! k = Some s \/ st_sessions (sw_store (ev_after e)) !! k = Some s).

(** Anything else that happens: administration, synchronisation, expiry, and a request that
    loaded its session earlier and saves it now. The steps of an account are written by the
    claims only, and ids are not reused. *)
Record env_step (tr : list Event) (w w' : World) : Prop := {
  env_now : sw_now w <= sw_now w';
  env_next : st_next (sw_store w) <= st_next (sw_store w');
  env_claims : lg_claims (sw_log w') = lg_claims (sw_log w);
  env_users u a' : sw_users w' !! u = Some a' ->
    (exists a, sw_users w !! u = Some a /\ ac_totp_last_step a' = ac_totp_last_step a)
    \/ (steps_of u (lg_claims (sw_log w)) = [] /\ ac_totp_last_step a' = None);
  env_sessions k s : st_sessions (sw_store w') !! k = Some s -> held tr k s;
  env_guard u e : sw_guard w' !! u = Some e -> sw_guard w !! u = Some e
}.

Inductive run : World -> list Event -> Prop :=
| run_start w : st_sessions (sw_store w) = ∅ -> sw_guard w = ∅ -> lg_claims (sw_log w) = [] -> run w []
| run_request w tr sid r h o : run w tr -> handle r (guarded w sid) = (h, o) ->
    run (hs_world h) (Ev_request (hs_world (guarded w sid)) (hs_sid (guarded w sid)) r (hs_world h) (hs_sid h) o :: tr)
| run_env w w' tr : run w tr -> env_step tr w w' -> run w' (Ev_env w w' :: tr)
| run_lookup w tr u : run w tr -> misses u w -> run w (Ev_lookup w u :: tr)
| run_answer w tr u row : run w tr -> (u, row) ∈ pending tr -> run (filled u row w) (Ev_answer w u row (filled u row w) :: tr).

(** Requests one after the other, each with the session it names. *)
Fixpoint exec (w : World) (tr : list Event) (l : list (Z * Request)) : World * list Event :=
  match l with
  | [] => (w, tr)
  | (sid, r) :: l' =>
      let g := guarded w sid in
      let res := handle r g in
      exec (hs_world (fst res)) (Ev_request (hs_world g) (hs_sid g) r (hs_world (fst res)) (hs_sid (fst res)) (snd res) :: tr) l'
  end.
Lemma run_served w tr sid r : run w tr ->
  let g := guarded w sid in let res := handle r g in
  run (hs_world (fst res)) (Ev_request (hs_world g) (hs_sid g) r (hs_world (fst res)) (hs_sid (fst res)) (snd res) :: tr).
Proof. intros H g res. apply run_request; [done|]. by destruct res eqn:E. Qed.
Lemma exec_run w tr l : run w tr -> run (fst (exec w tr l)) (snd (exec w tr l)).
Proof.
  revert w tr. induction l as [|[sid r] l IH]; intros w tr H; [done|]. cbn [exec]. apply IH. by apply run_served.
Qed.

End Runs.

(** ** A concrete run *)

Definition sample_keys : CryptoKeyConfig := before_rotation.
Definition alice : Account := {|
  ac_username := "alice"; ac_role := "user"; ac_is_active := true; ac_password_hash := Some "hpw"; ac_foreign_source := None;
  ac_email := Some "alice@example.org"; ac_totp_enabled := true; ac_totp_secret := Some "JBSWY3DP"; ac_email_otp_enabled := false; ac_totp_last_step := None |}.
Definition sample_world : World := {|
  sw_now := 1800000000000; sw_users := {[ 3 := alice ]};
  sw_config := {| cf_otp_smtp_server_id := None; cf_force_2fa := false; cf_disable2faForce := false; cf_smtp_up := true; cf_keys := sample_keys |};
  sw_resets := []; sw_store := {| st_sessions := ∅; st_next := 1 |}; sw_guard := ∅;
  sw_log := {| lg_mails := []; lg_audit := []; lg_claims := [] |} |}.
(** The password, then the authenticator code in the session that had it. *)
Definition sample_sign_in : list (Z * Request) :=
  [(0, Rq_login "alice" "pw" 0); (2, Rq_mfa_verify (JObj [("method", JStr "totp"); ("code", JStr "123456")]) "n0")].
Definition signed_in_run : World * list Event := exec (C := TestCiphers) (A := TestAuthenticators) sample_world [] sample_sign_in.
Lemma signed_in_run_ok : run (C := TestCiphers) (A := TestAuthenticators) (fst signed_in_run) (snd signed_in_run).
Proof. apply exec_run. by apply run_start. Qed.
(** Half a minute later, an agent confirms an action with the next code. *)
Definition later (w : World) : World := {|
  sw_now := sw_now w + 30000; sw_users := sw_users w; sw_config := sw_config w; sw_resets := sw_resets w; sw_store := sw_store w;
  sw_guard := sw_guard w; sw_log := sw_log w |}.
