(* ===== verification/SignInSafety.v ===== *)
(** * What holds in every run of the sign-in

    The histories of a run say where an identity and a step-up come from; the theorems that
    every session has one, that a TOTP step is accepted once, that a sensitive action was
    confirmed, and that a disabled account is out. *)

From Stdlib Require Import Sorting.Sorted.
From S2P Require Import Prelude JsString JsValue JsNumber Secrets SignInStore TwoFactor SignIn StepUp SignInEffects SignInRuns.

Section Safety.
Context `{C : Ciphers} `{A : Authenticators}.

(** ** Where an identity comes from *)

Definition password_accepted (w : World) (username password : string) (u : Z) (a : Account) : Prop :=
  sw_users w !! u = Some a /\ ac_username a = username /\ ac_is_active a = true /\ is_obligate a = false
  /\ exists h, password_of a = Some h /\ comparePassword password h = true.
(** From the world [w] a request finds to the world [w'] it leaves: the step of the code is
    newer than the last one, and is claimed. *)
Definition totp_accepted (w w' : World) (u : Z) (a : Account) (code : string) : Prop :=
  has_totp a = true /\ exists secret step, live_secret (cf_keys (sw_config w)) (ac_totp_secret a) = Some secret
    /\ verifyTotpStep secret code TOTP_WINDOW (sw_now w) = Some step /\ newer_step step a = true
    /\ In {| cl_user := u; cl_step := step; cl_at := sw_now w |} (lg_claims (sw_log w')).
Definition factor_accepted (w w' : World) (sid : Z) (body : js) (u : Z) : Prop :=
  exists a, sw_users w !! u = Some a /\ ac_is_active a = true
    /\ (totp_accepted w w' u a (text_or_empty (get_field "code" body))
        \/ (ac_email_otp_enabled a = true
            /\ exists p, ss_pendingEmailOtp (session_of w sid) = Some p /\ emailOtpMatches p (get_field "code" body) (sw_now w) = true)).

Inductive pending_login : list Event -> Z -> Z -> Prop :=
| pl_password w sid name pw d w' sid' o tr u a :
    password_accepted w name pw u a -> st_next (sw_store w) <= sid' ->
    pending_login (Ev_request w sid (Rq_login name pw d) w' sid' o :: tr) sid' u
| pl_later e tr sid u : pending_login tr sid u -> pending_login (e :: tr) sid u.

(** A session is an account's by a password alone when it has no second factor, by a second
    factor given in a session that had its password, by an assertion of Obligate, or by the
    renewal of such a session; each time under a session id nobody had before. *)
Inductive signed_in : list Event -> Z -> Z -> Prop :=
| si_password w sid name pw d w' sid' o tr u a :
    password_accepted w name pw u a -> ac_totp_enabled a = false -> ac_email_otp_enabled a = false -> st_next (sw_store w) <= sid' ->
    signed_in (Ev_request w sid (Rq_login name pw d) w' sid' o :: tr) sid' u
| si_factor w sid body n w' sid' o tr u :
    pending_login tr sid u -> factor_accepted w w' sid body u -> st_next (sw_store w) <= sid' ->
    signed_in (Ev_request w sid (Rq_mfa_verify body n) w' sid' o :: tr) sid' u
| si_sso w sid u b w' sid' o tr a :
    sw_users w !! u = Some a -> ac_is_active a = true -> st_next (sw_store w) <= sid' ->
    signed_in (Ev_request w sid (Rq_sso u b) w' sid' o :: tr) sid' u
| si_renewed w sid c p w' sid' o tr u :
    signed_in tr sid u -> st_next (sw_store w) <= sid' -> signed_in (Ev_request w sid (Rq_change_password c p) w' sid' o :: tr) sid' u
| si_later e tr sid u : signed_in tr sid u -> signed_in (e :: tr) sid u.

(** ** Where a step-up comes from *)

Definition proof_accepted (w w' : World) (sid u : Z) (a : Account) (body : js) (m : StepUpMethod) : Prop :=
  match m with
  | Totp => totp_accepted w w' u a (code_of (get_field "code" body))
  | Email => exists p, ss_stepUpEmailOtp (session_of w sid) = Some p /\ lower_trim (po_email p) = lower_trim (default "" (ac_email a))
             /\ emailOtpMatches p (JStr (code_of (get_field "code" body))) (sw_now w) = true
  | Password => has_totp a = false /\ ac_email_otp_enabled a = false
                /\ exists h, password_of a = Some h /\ comparePassword (str_of (get_field "password" body)) h = true
  end.

Inductive proved : list Event -> Z -> StepUpProof -> Prop :=
| pr_now w sid body d w' o tr u a m :
    truthy_id (ss_userId (session_of w sid)) = Some u -> loadAccount w u = Some a -> is_obligate a = false -> proof_accepted w w' sid u a body m ->
    proved (Ev_request w sid (Rq_step_up body d) w' sid o :: tr) sid {| sp_at := sw_now w; sp_method := m; sp_user := u |}
| pr_renewed w sid c p w' sid' o tr x :
    proved tr sid x -> proved (Ev_request w sid (Rq_change_password c p) w' sid' o :: tr) sid' x
| pr_later e tr sid x : proved tr sid x -> proved (e :: tr) sid x.
(** The account a request was served as. *)
Definition served_as (e : Event) : option Z :=
  match e with Ev_request b sid _ _ _ _ => truthy_id (ss_userId (session_of b sid)) | _ => None end.

(** ** Sessions whose identity, pending sign-in and step-up have a history *)

Definition session_ok (tr : list Event) (k : Z) (s : Session) : Prop :=
  (forall u, ss_userId s = Some u -> signed_in tr k u) /\ (forall u, ss_pendingMfaUserId s = Some u -> pending_login tr k u)
  /\ (forall p, ss_stepUp s = Some p -> proved tr k p).
Definition justified (tr : list Event) (h : HS) : Prop := forall k, session_ok tr k (at_sid h k).

Lemma session_ok_same tr k s s' : same_identity s s' -> session_ok tr k s -> session_ok tr k s'.
Proof.
  unfold same_identity, kept_or_dropped, session_ok. intros (H1 & H2 & H3) (K1 & K2 & K3). split_and!; intros x Hx.
  - apply K1. destruct H1; congruence.
  - apply K2. destruct H2; congruence.
  - apply K3. destruct H3; congruence.
Qed.

Lemma session_ok_empty tr k : session_ok tr k empty_session.
Proof. by unfold session_ok. Qed.

Lemma session_ok_later tr e k s : session_ok tr k s -> session_ok (e :: tr) k s.
Proof. intros (H1 & H2 & H3). split_and!; intros x Hx; [apply si_later|apply pl_later|apply pr_later]; auto. Qed.

Lemma justified_later tr e h : justified tr h -> justified (e :: tr) h.
Proof. intros H k. apply session_ok_later, H. Qed.

Lemma justified_tame tr h h' : tame h h' -> justified tr h -> justified tr h'.
Proof.
  intros T H k. destruct (sessions h' !! k) as [s'|] eqn:E; [|rewrite (at_sid_none _ _ E); apply session_ok_empty].
  rewrite (at_sid_some _ _ _ E). destruct (tame_in _ _ T k s' E) as [Hs _]. by apply (session_ok_same tr k (at_sid h k)).
Qed.

Lemma justified_modify tr h f :
  justified tr h -> session_ok tr (hs_sid h) (f (at_sid h (hs_sid h))) -> justified tr (fst (modify_session f h)).
Proof.
  intros H Hf k. unfold modify_session, at_sid, session_of. cbn. destruct (decide (k = hs_sid h)) as [->|Hne].
  - by rewrite lookup_insert_eq.
  - rewrite lookup_insert_ne by done. apply H.
Qed.

Lemma bind_fst {B D} (m : Handler B) (k : B -> Handler D) h :
  fst (hbind m k h) = match snd (m h) with inr a => fst (k a (fst (m h))) | inl _ => fst (m h) end.
Proof. unfold hbind. by destruct (m h) as [h' [e|a]]. Qed.

(** A tame handler followed by one that keeps the sessions justified. *)
Lemma justified_bind {B D} tr (m : Handler B) (k : B -> Handler D) h :
  justified tr (fst (m h)) -> (forall a, snd (m h) = inr a -> justified tr (fst (k a (fst (m h))))) -> justified tr (fst (hbind m k h)).
Proof. intros Hm Hk. rewrite bind_fst. destruct (snd (m h)) as [e|a] eqn:E; [done|by apply Hk]. Qed.

Lemma justified_tail {B} tr (m : Handler B) h : Respects tame m -> justified tr h -> justified tr (fst (m h)).
Proof. intros Hm. apply justified_tame, Hm. Qed.

(** The handlers that only do harmless writes, for the sessions and for the session id. *)
Definition t_audit := r_audit tame tame_harmless.
Definition t_otp := r_otp tame tame_harmless.
Definition t_newEmailOtp := r_newEmailOtp tame tame_harmless.
Definition t_sendEmailOtp := r_sendEmailOtp tame tame_harmless.
Definition t_verify_factor := r_verify_factor tame tame_harmless.
Definition t_forget_pending := r_forget_pending tame tame_harmless.
Definition t_forget := r_forget tame tame_harmless.
Definition t_password := r_password tame tame_harmless.
Definition t_destroyForUser := r_destroyForUser tame tame_harmless.
Definition s_audit := r_audit same_sid same_sid_harmless.
Definition s_newEmailOtp := r_newEmailOtp same_sid same_sid_harmless.
Definition s_sendEmailOtp := r_sendEmailOtp same_sid same_sid_harmless.
Definition s_verify_factor := r_verify_factor same_sid same_sid_harmless.
Definition s_destroyForUser := r_destroyForUser same_sid same_sid_harmless.
Lemma s_modify f : Respects same_sid (modify_session f).
Proof. by intros h. Qed.
#[local] Hint Resolve t_audit t_otp t_newEmailOtp t_sendEmailOtp t_verify_factor t_forget_pending t_forget t_password t_destroyForUser tame_regenerate
  s_audit s_newEmailOtp s_sendEmailOtp s_verify_factor s_destroyForUser s_modify : signin.

(** ** Password sign-in *)

Lemma find_row_some p l x : find_row p l = Some x -> In x l /\ p (snd x) = true.
Proof.
  induction l as [|y l IH]; cbn [find_row]; [done|]. destruct (p (snd y)) eqn:E; [intros [= ->]; split; [by left|done]|].
  intros H. destruct (IH H) as [H1 H2]. split; [by right|done].
Qed.

Lemma authenticate_accepts name pw h u a :
  snd (authenticate name pw h) = inr (Some (u, a)) -> password_accepted (hs_world h) name pw u a.
Proof.
  unfold authenticate, hbind, reads, first_user. cbn. destruct (find_row _ _) as [[v b]|] eqn:E; [|done].
  apply find_row_some in E as [Hin Hp]. cbn in Hp. apply andb_true_iff in Hp as [Hn Ha]. apply String.eqb_eq in Hn.
  destruct (password_of b) as [ph|] eqn:Ep; [|done]. destruct (is_obligate b) eqn:Eo; [done|]. cbn [negb andb].
  destruct (comparePassword pw ph) eqn:Ec; [|done]. intros [= <- <-]. split_and!; [|done|done|done|eauto].
  apply elem_of_map_to_list. by apply list_elem_of_In.
Qed.

Lemma authenticate_keeps name pw h : fst (authenticate name pw h) = h.
Proof. done. Qed.

(** What follows the identification, on the session just renewed. *)
Definition login_renewed (u : Z) (a : Account) (d : Z) : Handler LoginReply :=
  if ac_totp_enabled a || ac_email_otp_enabled a then
    modify_session (set_pendingMfa (Some u)) >>
    (server <- reads otp_server;;
     let email := default "" (ac_email a) in
     (if ac_email_otp_enabled a && negb (is_empty email)
      then match server with
           | Some smtp => cp <- newEmailOtp email d;; modify_session (set_otp pendingEmailOtp (Some (snd cp))) >> sendEmailOtp smtp email (fst cp)
           | None => hret tt
           end
      else hret tt) >>
     hret (Requires2fa (ac_totp_enabled a) (ac_email_otp_enabled a)))
  else modify_session (set_identity u (ac_role a)) >> audit "auth.login" (Some u) true "password" >> hret (SignedIn u).

Lemma login_split name pw d h :
  (exists u a, password_accepted (hs_world h) name pw u a /\ fst (login name pw d h) = fst (login_renewed u a d (fst (regenerateSession h))))
  \/ tame h (fst (login name pw d h)).
Proof.
  pose proof (authenticate_accepts name pw h) as Ha. unfold login. rewrite bind_fst, authenticate_keeps.
  destruct (snd (authenticate name pw h)) as [e|[[u a]|]]; [right; reflexivity|left|right].
  - exists u, a. split; [by apply Ha|]. reflexivity.
  - match goal with |- tame h (fst (?m h)) => assert (Hm : Respects tame m) by (handler) end. apply Hm.
Qed.
Lemma login_renewed_justified tr u a d h :
  at_sid h (hs_sid h) = empty_session -> justified tr h -> pending_login tr (hs_sid h) u ->
  (ac_totp_enabled a = false -> ac_email_otp_enabled a = false -> signed_in tr (hs_sid h) u) ->
  justified tr (fst (login_renewed u a d h)) /\ hs_sid (fst (login_renewed u a d h)) = hs_sid h.
Proof.
  intros He H Hp Hs. split.
  - unfold login_renewed. destruct (ac_totp_enabled a || ac_email_otp_enabled a) eqn:E.
    + apply justified_bind.
      * apply justified_modify; [done|]. rewrite He. unfold session_ok. cbn. split_and!; [done|congruence|done].
      * intros [] _. apply justified_tail; [handler|]. apply justified_modify; [done|]. rewrite He. unfold session_ok. cbn. split_and!; [done|congruence|done].
    + apply orb_false_iff in E as [E1 E2]. specialize (Hs E1 E2). assert (Hm : justified tr (fst (modify_session (set_identity u (ac_role a)) h))).
      { apply justified_modify; [done|]. rewrite He. unfold session_ok. cbn. split_and!; [congruence|done|done]. }
      apply justified_bind; [done|]. intros [] _. apply justified_tail; [handler|done].
  - assert (Hm : Respects same_sid (login_renewed u a d)) by (unfold login_renewed; handler). apply Hm.
Qed.

Lemma regenerated_empty h : at_sid (fst (regenerateSession h)) (hs_sid (fst (regenerateSession h))) = empty_session.
Proof. unfold at_sid, session_of. cbn. by rewrite lookup_insert_eq. Qed.
Lemma regenerated_sid h : hs_sid (fst (regenerateSession h)) = next_sid h.
Proof. done. Qed.

Lemma login_justified tr h name pw d h' o :
  justified tr h -> handle (Rq_login name pw d) h = (h', o) ->
  justified (Ev_request (hs_world h) (hs_sid h) (Rq_login name pw d) (hs_world h') (hs_sid h') o :: tr) h'.
Proof.
  intros H Hh. set (ev := Ev_request _ _ _ _ _ _). assert (Eh : h' = fst (login name pw d h)).
  { rewrite <- (f_equal fst Hh : _ = h'). cbn [handle]. unfold answer. rewrite bind_fst. by destruct (snd (login name pw d h)). }
  destruct (login_split name pw d h) as [(u & a & Ha & E)|T]; [|apply (justified_tame _ h); [by rewrite Eh|by apply justified_later]].
  assert (J : justified (ev :: tr) (fst (regenerateSession h))).
  { apply (justified_tame _ h); [apply tame_regenerate|by apply justified_later]. }
  assert (Hsid : hs_sid h' = next_sid h).
  { rewrite Eh, E. assert (Hm : Respects same_sid (login_renewed u a d)) by (unfold login_renewed; handler). by rewrite (Hm (fst (regenerateSession h))). }
  rewrite Eh, E. apply login_renewed_justified; [apply regenerated_empty|done|..]; rewrite regenerated_sid, <- Hsid.
  - apply (pl_password _ _ _ _ _ _ _ _ _ u a); [done|rewrite Hsid; unfold next_sid; lia].
  - intros H1 H2. apply (si_password _ _ _ _ _ _ _ _ _ u a); [done|done|done|rewrite Hsid; unfold next_sid; lia].
Qed.

(** ** The second factor *)

Lemma claim_if_true u s c f h : snd (claim_if u s c f h) = inr true -> exists a, sw_users (hs_world h) !! u = Some a /\ newer_step s a = true /\ c a = true.
Proof.
  unfold claim_if, account, hbind, reads. cbn. destruct (sw_users (hs_world h) !! u) as [a|]; [|done].
  destruct (newer_step s a && c a) eqn:E; [|done]. apply andb_true_iff in E as [E1 E2]. eauto.
Qed.
Lemma accept_true u s h : snd (acceptTotpStep u s h) = inr true ->
  exists a, sw_users (hs_world h) !! u = Some a /\ newer_step s a = true
    /\ In {| cl_user := u; cl_step := s; cl_at := sw_now (hs_world h) |} (lg_claims (sw_log (hs_world (fst (acceptTotpStep u s h))))).
Proof.
  unfold acceptTotpStep. destruct (negb _); [done|]. intros H. destruct (claim_if_true _ _ _ _ _ H) as (a & H1 & H2 & _). exists a. split_and!; [done|done|].
  unfold claim_if, account, hbind, reads. cbn. rewrite H1, H2. by left.
Qed.

(** A claim stays in the log. *)
Definition l_harmless c := keeps_log_harmless c {| ar_action := ""; ar_user := None; ar_success := false; ar_detail := "" |}.
Definition l_audit c := r_audit _ (l_harmless c).
Definition l_check_totp c := r_check_totp _ (l_harmless c).
Definition l_check_email c := r_check_email _ (l_harmless c).
Definition l_check_password c := r_check_password _ (l_harmless c).
Definition l_verify_factor c := r_verify_factor _ (l_harmless c).
Lemma consume_true k c h : snd (consumeEmailOtp k c h) = inr true ->
  exists p, otp_of k (at_sid h (hs_sid h)) = Some p /\ emailOtpMatches p c (sw_now (hs_world h)) = true.
Proof.
  unfold consumeEmailOtp, hbind, session, now, reads, at_sid. cbn. destruct (otp_of k (session_of (hs_world h) (hs_sid h))) as [p|]; [|done].
  destruct (emailOtpMatches p c (sw_now (hs_world h))) eqn:E; [|done]. eauto.
Qed.

Lemma snd_bind {B D} (m : Handler B) (k : B -> Handler D) h x :
  snd (hbind m k h) = inr x -> exists a, snd (m h) = inr a /\ snd (k a (fst (m h))) = inr x.
Proof. unfold hbind. destruct (m h) as [h1 [e|a]]; [done|]. intros H. by exists a. Qed.

(** With [is_str "totp" method] and an authenticator, the code itself was accepted. *)
Lemma verify_factor_totp u a body n h :
  sw_users (hs_world h) !! u = Some a -> is_str "totp" (get_field "method" body) = true -> has_totp a = true -> snd (verify_factor u a body n h) = inr true ->
  totp_accepted (hs_world h) (hs_world (fst (verify_factor u a body n h))) u a (text_or_empty (get_field "code" body)).
Proof.
  intros Hu Hm Ht Hv. split; [done|]. unfold verify_factor in *. apply snd_bind in Hv as (keys & [= <-] & Hv).
  apply snd_bind in Hv as (t & [= <-] & Hv). rewrite bind_fst. cbn [fst snd reads]. rewrite bind_fst. cbn [fst snd reads now] in *.
  destruct (get_field "method" body) as [| | | |m| |]; try done. cbn [is_str] in Hm. rewrite Hm, Ht in *. cbn [andb] in *.
  destruct (live_secret _ _) as [secret|] eqn:El; [|done]. destruct (verifyTotpStep _ _ _ _) as [step|] eqn:Es; [|done]. exists secret, step.
  apply snd_bind in Hv as (ok & Hok & Hv). apply snd_bind in Hv as ([] & _ & [= ->]). destruct (accept_true _ _ _ Hok) as (b & Hb & Hn & Hc). cbn in Hb.
  split_and!; [done|done|congruence|]. rewrite bind_fst, Hok.
  match goal with |- In ?c (lg_claims (sw_log (hs_world (fst (?k ?h1))))) =>
    assert (Hk : Respects (keeps_log c {| ar_action := ""; ar_user := None; ar_success := false; ar_detail := "" |}) k) by (handler; by apply log_writes) end.
  by apply Hk.
Qed.
Lemma verify_factor_true u a body n h :
  sw_users (hs_world h) !! u = Some a -> ac_is_active a = true -> snd (verify_factor u a body n h) = inr true ->
  factor_accepted (hs_world h) (hs_world (fst (verify_factor u a body n h))) (hs_sid h) body u.
Proof.
  intros Hu Ha Hv. exists a. split_and!; [done|done|]. destruct (is_str "totp" (get_field "method" body) && has_totp a) eqn:Et.
  - apply andb_true_iff in Et as [Et1 Et2]. left. by apply verify_factor_totp.
  - unfold verify_factor in Hv. apply snd_bind in Hv as (keys & [= <-] & Hv). apply snd_bind in Hv as (t & [= <-] & Hv). cbn [fst reads now] in Hv.
    destruct (get_field "method" body) as [| | | |m| |]; try done. cbn [is_str] in Et. rewrite Et in Hv.
    destruct (String.eqb m "email" && ac_email_otp_enabled a) eqn:Em; [|done]. apply andb_true_iff in Em as [_ Em]. right. split; [done|].
    exact (consume_true pendingEmailOtp _ _ Hv).
Qed.
Lemma answer_fst {B} (f : B -> Reply) (m : Handler B) h : fst (answer f m h) = fst (m h).
Proof. unfold answer. rewrite bind_fst. by destruct (snd (m h)). Qed.
Lemma handled_fst r h h' o : handle r h = (h', o) -> h' = fst (handle r h).
Proof. by intros ->. Qed.

(** An identity written on a session just renewed. *)
Lemma identify_justified tr h u role (tail : Handler unit) :
  Respects tame tail -> at_sid h (hs_sid h) = empty_session -> justified tr h -> signed_in tr (hs_sid h) u ->
  justified tr (fst ((modify_session (set_identity u role) >> tail) h)).
Proof.
  intros Ht He H Hs. assert (Hm : justified tr (fst (modify_session (set_identity u role) h))).
  { apply justified_modify; [done|]. rewrite He. unfold session_ok. cbn. split_and!; [congruence|done|done]. }
  apply justified_bind; [done|]. intros [] _. by apply justified_tail.
Qed.

Lemma truthy_id_some o u : truthy_id o = Some u -> o = Some u.
Proof. destruct o as [v|]; cbn; [|done]. by destruct (v =? 0). Qed.

Lemma mfa_split body n h :
  (exists u a m h1, ss_pendingMfaUserId (at_sid h (hs_sid h)) = Some u /\ factor_accepted (hs_world h) (hs_world h1) (hs_sid h) body u /\ tame h h1
     /\ fst (mfaVerify body n h) = fst ((modify_session (set_identity u (ac_role a)) >> audit "auth.login" (Some u) true m) (fst (regenerateSession h1))))
  \/ tame h (fst (mfaVerify body n h)).
Proof.
  unfold mfaVerify. rewrite bind_fst. cbn [session snd fst].
  destruct (truthy_id (ss_pendingMfaUserId (session_of (hs_world h) (hs_sid h)))) as [u|] eqn:Et; [|right; reflexivity].
  apply truthy_id_some in Et. rewrite bind_fst. cbn [account reads snd fst].
  destruct (sw_users (hs_world h) !! u) as [a|] eqn:Eu; [|right].
  2: { match goal with |- tame h (fst (?m h)) => assert (Hm : Respects tame m) by (handler) end. apply Hm. }
  destruct (ac_is_active a) eqn:Ea; cbn [negb]; [|right].
  2: { match goal with |- tame h (fst (?m h)) => assert (Hm : Respects tame m) by (handler) end. apply Hm. }
  rewrite bind_fst. destruct (snd (verify_factor u a body n h)) as [e|ok] eqn:Ev; [right; by apply t_verify_factor|]. cbv zeta.
  destruct ok; cbn [negb].
  - left. exists u, a, (if is_str "email" (get_field "method" body) then "email" else "totp"), (fst (verify_factor u a body n h)).
    split_and!; [done|by apply (verify_factor_true u a body n)|by apply t_verify_factor|]. by rewrite bind_fst.
  - right. transitivity (fst (verify_factor u a body n h)); [apply t_verify_factor|].
    match goal with |- tame ?h1 (fst (?m ?h1)) => assert (Hm : Respects tame m) by (handler) end. apply Hm.
Qed.

Definition claims_kept (w w' : World) : Prop := forall c, In c (lg_claims (sw_log w)) -> In c (lg_claims (sw_log w')).
Lemma totp_accepted_mono w w1 w2 u a code : claims_kept w1 w2 -> totp_accepted w w1 u a code -> totp_accepted w w2 u a code.
Proof. intros K (H & secret & step & H1 & H2 & H3 & H4). split; [done|]. exists secret, step. split_and!; [done..|by apply K]. Qed.
Lemma respects_kept {B} (m : Handler B) h : (forall c row, Respects (keeps_log c row) m) -> claims_kept (hs_world h) (hs_world (fst (m h))).
Proof. intros Hm c. apply (Hm c {| ar_action := ""; ar_user := None; ar_success := false; ar_detail := "" |} h). Qed.
Lemma k_modify c row f : Respects (keeps_log c row) (modify_session f).
Proof. by intros h. Qed.
Lemma k_audit c row x u b d : Respects (keeps_log c row) (audit x u b d).
Proof. apply r_audit, keeps_log_harmless. Qed.
#[local] Hint Resolve k_modify k_audit : signin.

Lemma mfa_justified tr h body n h' o :
  justified tr h -> handle (Rq_mfa_verify body n) h = (h', o) ->
  justified (Ev_request (hs_world h) (hs_sid h) (Rq_mfa_verify body n) (hs_world h') (hs_sid h') o :: tr) h'.
Proof.
  intros H Hh. set (ev := Ev_request _ _ _ _ _ _). pose proof (handled_fst _ _ _ _ Hh) as Eh. cbn [handle] in Eh. rewrite answer_fst in Eh.
  destruct (mfa_split body n h) as [(u & a & m & h1 & Hp & Hf & T & E)|T]; [|apply (justified_tame _ h); [by rewrite Eh|by apply justified_later]].
  assert (Hsid : hs_sid h' = next_sid h1).
  { rewrite Eh, E. assert (Hm : Respects same_sid (modify_session (set_identity u (ac_role a)) >> audit "auth.login" (Some u) true m)) by (handler).
    by rewrite (Hm (fst (regenerateSession h1))). }
  rewrite Eh, E. apply identify_justified; [handler|apply regenerated_empty| |].
  - apply (justified_tame _ h1); [apply tame_regenerate|]. apply (justified_tame _ h); [done|by apply justified_later].
  - rewrite regenerated_sid, <- Hsid. apply si_factor; [| |].
    + by apply (proj1 (proj2 (H (hs_sid h)))).
    + destruct Hf as (b & H1 & H2 & H3). exists b. split_and!; [done|done|]. destruct H3 as [H3|H3]; [left|by right].
      apply (totp_accepted_mono _ (hs_world h1)); [|done]. rewrite Eh, E. change (hs_world h1) with (hs_world h1).
      match goal with |- claims_kept _ (hs_world (fst (?m ?h2))) => apply (respects_kept m h2) end. intros c row. handler.
    + rewrite Hsid. apply (tame_next _ _ T).
Qed.

(** ** The sign-in through Obligate, the change of a password *)

Lemma sso_justified tr h u b h' o :
  justified tr h -> handle (Rq_sso u b) h = (h', o) ->
  justified (Ev_request (hs_world h) (hs_sid h) (Rq_sso u b) (hs_world h') (hs_sid h') o :: tr) h'.
Proof.
  intros H Hh. set (ev := Ev_request _ _ _ _ _ _). pose proof (handled_fst _ _ _ _ Hh) as Eh. cbn [handle] in Eh. rewrite answer_fst in Eh.
  set (h1 := fst (writes (on_guard (delete u)) (fst (regenerateSession h)))). assert (T : tame h h1).
  { transitivity (fst (regenerateSession h)); [apply tame_regenerate|apply t_forget]. }
  assert (J : justified (ev :: tr) h1) by (apply (justified_tame _ h); [done|by apply justified_later]).
  unfold ssoSession in Eh. rewrite !bind_fst in Eh. cbn [snd regenerateSession writes account reads fst] in Eh. fold h1 in Eh.
  destruct (sw_users (hs_world h) !! u) as [a|] eqn:Eu; cbn in Eu, Eh; rewrite Eu in Eh; cbn in Eh.
  - destruct (ac_is_active a) eqn:Ea.
    + assert (Hsid : hs_sid h' = next_sid h) by (rewrite Eh; done).
      assert (E : h' = fst ((modify_session (set_identity u (if b then "admin" else "user")) >> hret tt) h1)) by (rewrite Eh; done).
      rewrite E. apply identify_justified; [handler|exact (regenerated_empty h)|done|].
      change (hs_sid h1) with (next_sid h). rewrite <- Hsid. apply (si_sso _ _ _ _ _ _ _ _ a); [done|done|rewrite Hsid; unfold next_sid; lia].
    + rewrite Eh. apply (justified_tame _ h1); [|done]. by apply t_audit.
  - rewrite Eh. apply (justified_tame _ h1); [|done]. by apply t_audit.
Qed.
Lemma change_split u cur new h :
  (exists h0, tame h h0 /\ fst (changePassword u cur new h)
     = fst ((modify_session (fun _ => kept_identity (at_sid h (hs_sid h))) >> ((sid <- current_sid;; destroyForUser u (Some sid)) >> audit "profile.password_changed" (Some u) true ""))
              (fst (regenerateSession h0))))
  \/ tame h (fst (changePassword u cur new h)).
Proof.
  unfold changePassword. rewrite bind_fst. cbn [account reads snd fst]. destruct (sw_users (hs_world h) !! u) as [a|] eqn:Eu; [|right; reflexivity].
  destruct (if is_obligate a then None else password_of a) as [ph|]; [|right; reflexivity].
  destruct (negb (comparePassword cur ph)).
  - right. match goal with |- tame h (fst (?m h)) => assert (Hm : Respects tame m) by (handler) end. apply Hm.
  - left. exists (fst (writes (on_users (alter (set_password (hashPassword new)) u)) h)). split; [apply t_password|].
    rewrite bind_fst. cbn [writes snd fst]. unfold regenerateKeepingIdentity. by rewrite !bind_fst.
Qed.

Lemma session_ok_renewed tr e k k' s :
  (forall u, ss_userId s = Some u -> signed_in (e :: tr) k' u) -> (forall p, ss_stepUp s = Some p -> proved (e :: tr) k' p) ->
  session_ok tr k s -> session_ok (e :: tr) k' (kept_identity s).
Proof. intros H1 H2 _. unfold session_ok. cbn. split_and!; [done|congruence|done]. Qed.

Lemma change_justified tr h cur new h' o :
  justified tr h -> handle (Rq_change_password cur new) h = (h', o) ->
  justified (Ev_request (hs_world h) (hs_sid h) (Rq_change_password cur new) (hs_world h') (hs_sid h') o :: tr) h'.
Proof.
  intros H Hh. set (ev := Ev_request _ _ _ _ _ _). pose proof (handled_fst _ _ _ _ Hh) as Eh. cbn [handle] in Eh. unfold requireAuth in Eh.
  rewrite bind_fst in Eh. cbn [session snd fst] in Eh. destruct (truthy_id _) as [u|]; [|cbn in Eh; subst h'; by apply justified_later].
  rewrite answer_fst in Eh. destruct (change_split u cur new h) as [(h0 & T & E)|T]; [|apply (justified_tame _ h); [by rewrite Eh|by apply justified_later]].
  rewrite E in Eh. clear E. set (tail := (sid <- current_sid;; destroyForUser u (Some sid)) >> audit "profile.password_changed" (Some u) true "") in Eh.
  set (h1 := fst (regenerateSession h0)) in Eh. assert (Ht : Respects tame tail) by (unfold tail; handler).
  assert (Hs : Respects same_sid (modify_session (fun _ => kept_identity (at_sid h (hs_sid h))) >> tail)) by (unfold tail; handler).
  assert (Hsid : hs_sid h' = next_sid h0) by (rewrite Eh; by rewrite (Hs h1)).
  assert (J : justified (ev :: tr) h1).
  { apply (justified_tame _ h0); [apply tame_regenerate|]. apply (justified_tame _ h); [done|by apply justified_later]. }
  assert (Hm : justified (ev :: tr) (fst (modify_session (fun _ => kept_identity (at_sid h (hs_sid h))) h1))).
  { apply justified_modify; [done|]. destruct (H (hs_sid h)) as (K1 & K2 & K3). change (hs_sid h1) with (next_sid h0). rewrite <- Hsid.
    apply (session_ok_renewed tr ev (hs_sid h)); [| |by split_and!].
    - intros v Hv. apply si_renewed; [by apply K1|]. rewrite Hsid. apply (tame_next _ _ T).
    - intros p Hp. apply pr_renewed. by apply K3. }
  rewrite Eh. apply justified_bind; [done|]. intros [] _. by apply justified_tail.
Qed.

(** ** A step-up *)

Definition t_check_totp := r_check_totp tame tame_harmless.
Definition t_check_email := r_check_email tame tame_harmless.
Definition t_check_password := r_check_password tame tame_harmless.
Definition t_sendEmailCode := r_sendEmailCode tame tame_harmless.
Definition s_check_totp := r_check_totp same_sid same_sid_harmless.
Definition s_check_email := r_check_email same_sid same_sid_harmless.
Definition s_check_password := r_check_password same_sid same_sid_harmless.
#[local] Hint Resolve t_check_totp t_check_email t_check_password t_sendEmailCode s_check_totp s_check_email s_check_password : signin.

Definition checked (m : StepUpMethod) (u : Z) (a : Account) (body : js) : Handler bool :=
  match m with
  | Totp => check_totp u a (get_field "code" body)
  | Email => check_email a (get_field "code" body)
  | Password => check_password a (get_field "password" body)
  end.

Lemma methods_in w a m : m ∈ methodsFor w a ->
  match m with Totp => has_totp a = true | Email => ac_email_otp_enabled a = true | Password => has_totp a = false /\ ac_email_otp_enabled a = false end.
Proof.
  unfold methodsFor. rewrite !elem_of_app. intros [H|[H|H]].
  - destruct (has_totp a); [|by apply elem_of_nil in H]. apply list_elem_of_singleton in H as ->. done.
  - destruct (ac_email_otp_enabled a); cbn [andb] in H; [|by apply elem_of_nil in H]. destruct (bool_decide _ && _); [|by apply elem_of_nil in H].
    by apply list_elem_of_singleton in H as ->.
  - destruct (has_totp a), (ac_email_otp_enabled a); cbn [negb andb] in H; try by apply elem_of_nil in H.
    destruct (bool_decide _); [|by apply elem_of_nil in H]. by apply list_elem_of_singleton in H as ->.
Qed.

Lemma checked_true m u a body h :
  sw_users (hs_world h) !! u = Some a -> m ∈ methodsFor (hs_world h) a -> snd (checked m u a body h) = inr true ->
  proof_accepted (hs_world h) (hs_world (fst (checked m u a body h))) (hs_sid h) u a body m.
Proof.
  intros Hu Hm Hc. apply methods_in in Hm. destruct m; cbn [checked proof_accepted] in *.
  - split; [done|]. unfold check_totp in *. apply snd_bind in Hc as (t & [= <-] & Hc). apply snd_bind in Hc as (keys & [= <-] & Hc).
    rewrite bind_fst. cbn [fst snd now reads]. rewrite bind_fst. cbn [fst snd now reads] in *. destruct (negb (six_digits _)); [done|]. destruct (live_secret _ _) as [secret|] eqn:El; [|done]. destruct (verifyTotpStep _ _ _ _) as [step|] eqn:Es; [|done].
    exists secret, step. apply snd_bind in Hc as (ok & Hok & Hc). destruct ok.
    + destruct (accept_true _ _ _ Hok) as (b & Hb & Hn & Hin). cbn in Hb. split_and!; [done|done|congruence|]. by rewrite bind_fst, Hok.
    + exfalso. unfold refuse_proof in Hc. by apply snd_bind in Hc as (? & ? & Hc).
  - unfold check_email in Hc. apply snd_bind in Hc as (s & [= <-] & Hc). apply snd_bind in Hc as (t & [= <-] & Hc). cbn [fst now reads session] in Hc.
    destruct (ss_stepUpEmailOtp _) as [p|] eqn:Ep; [|done]. exists p. split; [done|]. destruct (is_empty _); [done|]. cbv zeta in Hc.
    destruct (String.eqb _ _ && emailOtpMatches _ _ _) eqn:E.
    + apply andb_true_iff in E as [E1 E2]. apply String.eqb_eq in E1. done.
    + by apply snd_bind in Hc as ([] & _ & Hc).
  - destruct Hm as [Hm1 Hm2]. split_and!; [done|done|]. unfold check_password in Hc. destruct (is_empty _); [done|]. injection Hc as Hc.
    destruct (password_of a) as [ph|]; [|done]. eauto.
Qed.
Definition stamped (u : Z) (m : StepUpMethod) (t : Z) : Handler StepUpMethod :=
  modify_session (set_stepUp (Some {| sp_at := t; sp_method := m; sp_user := u |})) >> auditResult u m true >> hret m.

Lemma verify_split u method code password h :
  let body := JObj [("code", code); ("password", password)] in
  (exists a m, loadAccount (hs_world h) u = Some a /\ is_obligate a = false /\ proof_accepted (hs_world h) (hs_world (fst (checked m u a body h))) (hs_sid h) u a body m
     /\ fst (verify u method code password h) = fst (stamped u m (sw_now (hs_world h)) (fst (checked m u a body h))))
  \/ tame h (fst (verify u method code password h)).
Proof.
  intros body. unfold verify. rewrite bind_fst. cbn [reads snd fst]. destruct (loadAccount (hs_world h) u) as [a|] eqn:El; [|right; reflexivity].
  rewrite bind_fst. cbn [reads snd fst]. destruct (is_obligate a) eqn:Eo; [right; reflexivity|]. destruct (read_method method) as [m|]; [|right; reflexivity].
  destruct (bool_decide (m ∈ methodsFor (hs_world h) a)) eqn:Em; cbn [negb]; [|right; reflexivity]. apply bool_decide_eq_true in Em.
  assert (Hu : sw_users (hs_world h) !! u = Some a).
  { unfold loadAccount in El. destruct (sw_users (hs_world h) !! u) as [b|]; [|done]. destruct (ac_is_active b); congruence. }
  assert (Ec : match m with Totp => check_totp u a code | Email => check_email a code | Password => check_password a password end = checked m u a body).
  { by destruct m. }
  rewrite Ec, bind_fst. assert (Tc : tame h (fst (checked m u a body h))).
  { assert (Hc : Respects tame (checked m u a body)) by (unfold checked; handler). apply Hc. }
  destruct (snd (checked m u a body h)) as [e|ok] eqn:Ev; [by right|]. destruct ok; cbn [negb].
  - left. exists a, m. split_and!; [done|done|by apply (checked_true m u a body)|]. rewrite bind_fst. cbn [now reads snd fst]. by rewrite (tame_now _ _ Tc).
  - right. etransitivity; [exact Tc|].
    match goal with |- tame ?h1 (fst (?k ?h1)) => assert (Hm : Respects tame k) by (unfold refuse_proof, auditResult; handler) end. apply Hm.
Qed.

Lemma proof_accepted_body w w1 w2 sid u a body body' m :
  get_field "code" body = get_field "code" body' -> get_field "password" body = get_field "password" body' -> claims_kept w1 w2 ->
  proof_accepted w w1 sid u a body m -> proof_accepted w w2 sid u a body' m.
Proof. intros E1 E2 K. unfold proof_accepted. rewrite E1, E2. destruct m; [by apply totp_accepted_mono|done|done]. Qed.

Lemma stepUp_justified tr h body d h' o :
  justified tr h -> handle (Rq_step_up body d) h = (h', o) ->
  justified (Ev_request (hs_world h) (hs_sid h) (Rq_step_up body d) (hs_world h') (hs_sid h') o :: tr) h'.
Proof.
  intros H Hh. set (ev := Ev_request _ _ _ _ _ _). pose proof (handled_fst _ _ _ _ Hh) as Eh. cbn [handle] in Eh. unfold requireAuth in Eh.
  rewrite bind_fst in Eh. cbn [session snd fst] in Eh. destruct (truthy_id _) as [u|] eqn:Eu; [|cbn in Eh; subst h'; by apply justified_later].
  rewrite answer_fst in Eh. unfold stepUpVerify in Eh. cbv zeta in Eh.
  destruct (is_str "email" (get_field "method" body) && _).
  { rewrite bind_fst in Eh. apply (justified_tame _ h); [|by apply justified_later]. rewrite Eh.
    destruct (snd (sendEmailCode u d h)); apply t_sendEmailCode. }
  rewrite bind_fst in Eh. set (v := verify u (get_field "method" body) (get_field "code" body) (get_field "password" body)) in Eh.
  assert (Ev : h' = fst (v h)) by (rewrite Eh; by destruct (snd (v h))). clear Eh.
  destruct (verify_split u (get_field "method" body) (get_field "code" body) (get_field "password" body) h) as [(a & m & Ha & Ho & Hp & E)|T];
    [|apply (justified_tame _ h); [by rewrite Ev|by apply justified_later]].
  fold v in E. rewrite E in Ev. set (b' := JObj _) in *. set (h1 := fst (checked m u a b' h)) in *.
  assert (Tc : tame h h1). { assert (Hc : Respects tame (checked m u a b')) by (unfold checked; handler). apply Hc. }
  assert (Sc : hs_sid h1 = hs_sid h). { assert (Hc : Respects same_sid (checked m u a b')) by (unfold checked; handler). apply Hc. }
  assert (J : justified (ev :: tr) h1) by (apply (justified_tame _ h); [done|by apply justified_later]).
  assert (Hsid : hs_sid h' = hs_sid h).
  { rewrite Ev. assert (Hs : Respects same_sid (stamped u m (sw_now (hs_world h)))) by (unfold stamped, auditResult; handler). by rewrite (Hs h1). }
  rewrite Ev. unfold stamped. assert (Hm : justified (ev :: tr) (fst (modify_session (set_stepUp (Some {| sp_at := sw_now (hs_world h); sp_method := m; sp_user := u |})) h1))).
  { apply justified_modify; [done|]. destruct (J (hs_sid h1)) as (K1 & K2 & K3). unfold session_ok. cbn [set_stepUp ss_userId ss_pendingMfaUserId ss_stepUp].
    split_and!; [exact K1|exact K2|]. intros p [= <-]. rewrite Sc. unfold ev. rewrite Hsid. apply (pr_now _ _ _ _ _ _ _ _ a); [done|done|done|].
    apply (proof_accepted_body _ (hs_world h1) _ _ _ _ b'); [done|done| |done]. rewrite Ev. apply (respects_kept (stamped u m (sw_now (hs_world h))) h1).
    intros c row. unfold stamped, auditResult. handler. }
  apply justified_bind; [done|]. intros [] _. apply justified_tail; [unfold auditResult; handler|done].
Qed.
(** ** Every other request *)

Definition proves (r : Request) : bool :=
  match r with Rq_login _ _ _ | Rq_mfa_verify _ _ | Rq_sso _ _ | Rq_change_password _ _ | Rq_step_up _ _ => true | _ => false end.

Section Handled.
Context (R : HS -> HS -> Prop) (HR : Harmless R).
#[local] Instance R_pre : PreOrder R := hl_preorder R HR.

Lemma r_answer {B} (f : B -> Reply) (m : Handler B) : Respects R m -> Respects R (answer f m).
Proof. intros Hm. unfold answer. handler. Qed.
Lemma r_auth {B} (m : Z -> Handler B) : (forall u, Respects R (m u)) -> Respects R (requireAuth m).
Proof. intros Hm. unfold requireAuth. handler. Qed.
Lemma r_behind {B} a (m : Handler B) : Respects R m -> Respects R (behind_gate a m).
Proof. intros Hm. unfold behind_gate. handler. Qed.
Lemma r_require2faSetup m p : Respects R (require2faSetup m p).
Proof. unfold require2faSetup. handler. Qed.
#[local] Hint Resolve r_answer r_auth r_behind r_require2faSetup : signin.

Lemma handle_harmless r : proves r = false -> Respects R (handle r).
Proof. intros Hp. destruct r; try done; cbn [handle]; eauto 10 with signin. Qed.

Hypothesis any_modify : forall f, Respects R (modify_session f).
Hypothesis renews : Respects R regenerateSession.
Lemma handle_any r : Respects R (handle r).
Proof.
  destruct (proves r) eqn:E; [|by apply handle_harmless].
  destruct r; try done; cbn [handle]; repeat first [apply r_auth; intros | apply r_answer].
  - by apply r_login.
  - by apply r_mfaVerify.
  - by apply r_sso.
  - by apply r_stepUpVerify.
  - by apply r_changePassword.
Qed.
End Handled.

Lemma request_justified tr h r h' o :
  justified tr h -> handle r h = (h', o) -> justified (Ev_request (hs_world h) (hs_sid h) r (hs_world h') (hs_sid h') o :: tr) h'.
Proof.
  intros H Hh. destruct (proves r) eqn:Ep.
  - destruct r; try done; [by apply login_justified|by apply mfa_justified|by apply sso_justified|by apply stepUp_justified|by apply change_justified].
  - apply (justified_tame _ h); [|by apply justified_later]. rewrite (handled_fst _ _ _ _ Hh). by apply (handle_harmless tame tame_harmless).
Qed.

(** ** The state a request is handled in *)

Lemma opened_tame w sid : tame {| hs_world := w; hs_sid := sid |} (opened w sid).
Proof. unfold opened. case_bool_decide; [reflexivity|]. apply (tame_regenerate {| hs_world := w; hs_sid := sid |}). Qed.
Lemma guarded_tame w sid : tame {| hs_world := w; hs_sid := sid |} (guarded w sid).
Proof. transitivity (opened w sid); [apply opened_tame|]. apply (r_sessionUserGuard tame tame_harmless tame_regenerate). Qed.

Definition world_justified (tr : list Event) (w : World) : Prop := justified tr {| hs_world := w; hs_sid := 0 |}.
Lemma world_justified_any tr w sid : world_justified tr w <-> justified tr {| hs_world := w; hs_sid := sid |}.
Proof. done. Qed.

Lemma held_later tr e k s : held tr k s -> held (e :: tr) k s.
Proof. intros (x & Hx & H). exists x. split; [by right|done]. Qed.

(** What the answer of a late query leaves is what an event of the run already had. *)
Lemma quiet_held tr e w k s : st_sessions (sw_store (ev_before e)) = st_sessions (sw_store w) -> st_sessions (sw_store (ev_after e)) = st_sessions (sw_store w) ->
  held (e :: tr) k s -> st_sessions (sw_store w) !! k = Some s \/ held tr k s.
Proof. intros E1 E2 (x & [<-|Hx] & Hk); [left; rewrite E1, E2 in Hk; tauto|right; by exists x]. Qed.
Lemma quiet_justified tr e w w' :
  st_sessions (sw_store w') = st_sessions (sw_store w) ->
  (forall k s, held (e :: tr) k s -> st_sessions (sw_store w) !! k = Some s \/ held tr k s) ->
  world_justified tr w /\ (forall k s, held tr k s -> session_ok tr k s) ->
  world_justified (e :: tr) w' /\ forall k s, held (e :: tr) k s -> session_ok (e :: tr) k s.
Proof.
  intros E Hq [IH1 IH2]. split.
  - intros k. unfold at_sid, session_of. cbn. rewrite E. apply session_ok_later, (IH1 k).
  - intros k s Hk. destruct (Hq k s Hk) as [Hs|Hs]; apply session_ok_later; [|by apply IH2].
    specialize (IH1 k). unfold at_sid, session_of in IH1. cbn in IH1. by rewrite Hs in IH1.
Qed.

Lemma run_justified w tr : run w tr -> world_justified tr w /\ forall k s, held tr k s -> session_ok tr k s.
Proof.
  induction 1 as [w Hs Hg Hc|w tr sid r h o Hr [IH1 IH2] Hh|w w' tr Hr [IH1 IH2] He|w tr u Hr IH Hm|w tr u row Hr IH Hp].
  - split; [|by intros k s (e & [] & _)]. intros k. unfold at_sid, session_of. cbn. rewrite Hs, lookup_empty. apply session_ok_empty.
  - assert (Jg : justified tr (guarded w sid)) by (apply (justified_tame _ {| hs_world := w; hs_sid := sid |}); [apply guarded_tame|exact IH1]).
    pose proof (request_justified tr (guarded w sid) r h o Jg Hh) as Jh. split; [exact Jh|].
    intros k s (e & [<-|He] & Hk); [|apply session_ok_later, IH2; by exists e]. cbn [ev_before ev_after] in Hk. destruct Hk as [Hk|Hk].
    + apply session_ok_later. specialize (Jg k). by rewrite (at_sid_some (guarded w sid) k s Hk) in Jg.
    + specialize (Jh k). by rewrite (at_sid_some h k s Hk) in Jh.
  - assert (J : world_justified (Ev_env w w' :: tr) w').
    { intros k. unfold at_sid, session_of. cbn. destruct (st_sessions (sw_store w') !! k) as [s|] eqn:E; [|apply session_ok_empty].
      apply session_ok_later, IH2. by apply (env_sessions _ _ _ He). }
    split; [exact J|]. intros k s (e & [<-|Hin] & Hk); [|apply session_ok_later, IH2; by exists e]. cbn [ev_before ev_after] in Hk. destruct Hk as [Hk|Hk].
    + apply session_ok_later. specialize (IH1 k). unfold at_sid, session_of in IH1. cbn in IH1. by rewrite Hk in IH1.
    + specialize (J k). unfold at_sid, session_of in J. cbn in J. by rewrite Hk in J.
  - apply (quiet_justified tr _ w); [done| |exact IH]. intros k s. by apply quiet_held.
  - apply (quiet_justified tr _ w); [done| |exact IH]. intros k s. by apply quiet_held.
Qed.
(** ** Session ids are never reused *)

Definition fresh_ok (h : HS) : Prop := hs_sid h < next_sid h /\ forall k, is_Some (sessions h !! k) -> k < next_sid h.
Definition keeps_fresh (h h' : HS) : Prop := fresh_ok h -> fresh_ok h' /\ next_sid h <= next_sid h'.
#[local] Instance keeps_fresh_preorder : PreOrder keeps_fresh.
Proof.
  split; [by intros h H; split; [done|lia]|]. intros h1 h2 h3 H1 H2 H. destruct (H1 H) as [H' L1]. destruct (H2 H') as [H'' L2]. split; [done|lia].
Qed.
Lemma tame_keeps_fresh h h' : tame h h' -> keeps_fresh h h'.
Proof.
  intros [_ N S I] [F1 F2]. split; [|done]. split; [destruct S; lia|]. intros k [s Hk]. destruct (I k s Hk) as [_ [He|[->|]]]; [|lia..].
  specialize (F2 k He). lia.
Qed.
Lemma fresh_harmless : Harmless keeps_fresh.
Proof.
  pose proof tame_harmless as T. split; [typeclasses eauto|..]; intros; intros h; apply tame_keeps_fresh; [by apply (hl_alter _ T)|by apply (hl_claim _ T)
    |by apply (hl_log _ T)|by apply (hl_resets _ T)|by apply (hl_forget _ T)|by apply (hl_load _ T)|by apply (hl_restrict _ T)|by apply (hl_modify _ T)|by apply (hl_destroy _ T)].
Qed.
Lemma fresh_modify f : Respects keeps_fresh (modify_session f).
Proof.
  intros [w sid] [F1 F2]. unfold fresh_ok, next_sid, sessions in *. cbn in *. split; [|lia]. split; [done|]. intros k [s Hk].
  destruct (decide (k = sid)) as [->|Hne]; [done|]. rewrite lookup_insert_ne in Hk by done. apply F2. by exists s.
Qed.
Lemma fresh_regenerate : Respects keeps_fresh regenerateSession.
Proof. intros h. apply tame_keeps_fresh, tame_regenerate. Qed.

Definition world_fresh (w : World) : Prop := forall k, is_Some (st_sessions (sw_store w) !! k) -> k < st_next (sw_store w).
Lemma guarded_fresh w sid : world_fresh w -> fresh_ok (guarded w sid) /\ st_next (sw_store w) <= next_sid (guarded w sid).
Proof.
  intros H. assert (Ho : fresh_ok (opened w sid) /\ st_next (sw_store w) <= next_sid (opened w sid)).
  { unfold opened, fresh_ok, next_sid, sessions. case_bool_decide as E; cbn; [split; [split; [by apply H|done]|lia]|]. split; [|lia]. split; [lia|].
    intros k [s Hk]. destruct (decide (k = st_next (sw_store w))) as [->|Hne]; [lia|]. rewrite lookup_insert_ne in Hk by done.
    apply lookup_delete_Some in Hk as [_ Hk]. specialize (H k ltac:(by exists s)). lia. }
  destruct Ho as [Ho Ln]. destruct (r_sessionUserGuard keeps_fresh fresh_harmless fresh_regenerate (opened w sid) Ho) as [Hg Lg].
  split; [done|]. unfold guarded. lia.
Qed.

Lemma run_fresh w tr : run w tr -> world_fresh w /\ forall k s, held tr k s -> k < st_next (sw_store w).
Proof.
  induction 1 as [w Hs Hg Hc|w tr sid r h o Hr [IH1 IH2] Hh|w w' tr Hr [IH1 IH2] He|w tr u Hr [IH1 IH2] Hm|w tr u row Hr [IH1 IH2] Hp].
  - split; [|by intros k s (e & [] & _)]. intros k. rewrite Hs, lookup_empty. by intros [? ?].
  - destruct (guarded_fresh w sid IH1) as [Fg Lg].
    destruct (handle_any keeps_fresh fresh_harmless fresh_modify fresh_regenerate r (guarded w sid) Fg) as [Fh Lh]. rewrite Hh in Fh, Lh. cbn [fst] in Fh, Lh.
    split; [exact (proj2 Fh)|]. intros k s (e & [<-|He] & Hk).
    + cbn [ev_before ev_after] in Hk. destruct Hk as [Hk|Hk]; [|apply (proj2 Fh); by exists s].
      assert (k < next_sid (guarded w sid)) by (apply (proj2 Fg); by exists s). unfold next_sid in *. lia.
    + assert (k < st_next (sw_store w)) by (apply (IH2 k s); by exists e). unfold next_sid in *. lia.
  - pose proof (env_next _ _ _ He) as Ln. assert (F : world_fresh w').
    { intros k [s Hk]. apply (env_sessions _ _ _ He) in Hk. specialize (IH2 k s Hk). lia. }
    split; [done|]. intros k s (e & [<-|Hin] & Hk).
    + cbn [ev_before ev_after] in Hk. destruct Hk as [Hk|Hk]; [|apply F; by exists s]. specialize (IH1 k ltac:(by exists s)). lia.
    + specialize (IH2 k s ltac:(by exists e)). lia.
  - split; [done|]. intros k s Hk. destruct (quiet_held tr (Ev_lookup w u) w k s) as [Hs|Hs]; [done|done|done|apply IH1; by exists s|by apply (IH2 k s)].
  - split; [done|]. intros k s Hk. destruct (quiet_held tr (Ev_answer w u row (filled u row w)) w k s) as [Hs|Hs]; [done|done|done|apply IH1; by exists s|by apply (IH2 k s)].
Qed.

(** C14. In every run, whatever requests are sent to whatever sessions and whatever a request
    under way writes back, a session that is an account's was opened by its password when the
    account had no second factor, by a second factor given where its password had been
    accepted, or by an assertion of Obligate, and each time under an id above all those ever
    held: an id planted beforehand never becomes a signed-in one. *)
Theorem identity_needs_proof w tr k s u
    (Hr : run w tr) (Hk : st_sessions (sw_store w) !! k = Some s) (Hu : ss_userId s = Some u) :
  signed_in tr k u /\ (forall k' s', held tr k' s' -> k' < st_next (sw_store w)).
Proof.
  split; [|apply (run_fresh w tr Hr)]. destruct (run_justified w tr Hr) as [J _]. specialize (J k). unfold at_sid, session_of in J. cbn in J.
  rewrite Hk in J. by apply J.
Qed.

(** ** TOTP codes are never accepted twice *)

Lemma keeps_claims_modify f : Respects keeps_claims (modify_session f).
Proof. by intros h H. Qed.
Lemma keeps_claims_regenerate : Respects keeps_claims regenerateSession.
Proof. by intros h H. Qed.

Lemma opened_users w sid : sw_users (hs_world (opened w sid)) = sw_users w /\ sw_log (hs_world (opened w sid)) = sw_log w /\ sw_guard (hs_world (opened w sid)) = sw_guard w.
Proof. unfold opened. by case_bool_decide. Qed.

Lemma run_claims w tr : run w tr -> claims_ok w.
Proof.
  induction 1 as [w Hs Hg Hc|w tr sid r h o Hr IH Hh|w w' tr Hr IH He|w tr u Hr IH Hm|w tr u row Hr IH Hp].
  - intros u. rewrite Hc. split; [constructor|]. intros a _. by destruct (ac_totp_last_step a).
  - assert (Hg : claims_ok (hs_world (guarded w sid))).
    { apply (r_sessionUserGuard keeps_claims claims_harmless keeps_claims_regenerate). destruct (opened_users w sid) as (E1 & E2 & _).
      intros u. rewrite E1, E2. apply IH. }
    pose proof (handle_any keeps_claims claims_harmless keeps_claims_modify keeps_claims_regenerate r (guarded w sid) Hg) as H. by rewrite Hh in H.
  - intros u. rewrite (env_claims _ _ _ He). destruct (IH u) as [H1 H2]. split; [done|]. intros a' Ha.
    destruct (env_users _ _ _ He u a' Ha) as [(a & Hu & ->)|[E ->]]; [by apply H2|done].
  - exact IH.
  - exact IH.
Qed.

(** The authenticator code a request was let through with, read off the request, the state it
    was handled in and its success alone: the account, and the time step the code is valid
    for. [None] when no code was needed. *)
Definition code_step (w : World) (secret : option string) (code : string) : option Z :=
  secret ≫= fun s => verifyTotpStep s code TOTP_WINDOW (sw_now w).
Definition account_code (w : World) (needed : Account -> bool) (u : Z) (code : string) : option (Z * option Z) :=
  match sw_users w !! u with
  | Some a => if has_totp a && needed a then Some (u, code_step w (live_secret (cf_keys (sw_config w)) (ac_totp_secret a)) code) else None
  | None => None
  end.
Definition code_used (w : World) (s : Session) (r : Request) (rp : Reply) : option (Z * option Z) :=
  let current (body : js) := code_of (get_field "currentCode" body) in
  let always (_ : Account) := true in
  match r with
  | Rq_mfa_verify body _ =>
      if is_str "totp" (get_field "method" body)
      then truthy_id (ss_pendingMfaUserId s) ≫= fun u => account_code w always u (text_or_empty (get_field "code" body)) else None
  | Rq_step_up body _ =>
      match rp with
      | Rp_stepUp (Confirmed Totp) => truthy_id (ss_userId s) ≫= fun u => account_code w always u (code_of (get_field "code" body))
      | _ => None
      end
  | Rq_totp_enable body _ =>
      truthy_id (ss_userId s) ≫= fun u => ss_pendingTotp s ≫= fun p => Some (u, code_step w (Some (pt_secret p)) (text_or_empty (get_field "code" body)))
  | Rq_totp_setup body _ | Rq_totp_disable body | Rq_email_setup body _ => truthy_id (ss_userId s) ≫= fun u => account_code w always u (current body)
  | Rq_email_disable body => truthy_id (ss_userId s) ≫= fun u => account_code w ac_email_otp_enabled u (current body)
  | _ => None
  end.
Definition totp_used (e : Event) : option (Z * option Z) :=
  match e with Ev_request b sid r _ _ (inr rp) => code_used b (session_of b sid) r rp | _ => None end.
(** The steps of the codes an account was let through with, newest first. *)
Definition used_steps (u : Z) (tr : list Event) : list Z :=
  omap (fun e => match totp_used e with Some (v, Some s) => if v =? u then Some s else None | _ => None end) tr.

(** The step is newer than the account's last one, and is claimed for it. *)
Definition claims (w w' : World) (u step : Z) : Prop :=
  exists a, sw_users w !! u = Some a /\ newer_step step a = true
    /\ In {| cl_user := u; cl_step := step; cl_at := sw_now w |} (lg_claims (sw_log w')).
Definition claims_code (w w' : World) (uc : Z * option Z) : Prop := exists step, snd uc = Some step /\ claims w w' (fst uc) step.

Lemma claims_code_mono w w1 w2 uc : claims_kept w1 w2 -> claims_code w w1 uc -> claims_code w w2 uc.
Proof. intros K (step & Hs & a & Ha & Hn & Hc). exists step. split; [done|]. exists a. split_and!; [done|done|by apply K]. Qed.
Lemma totp_claims w w' u a needed code uc :
  sw_users w !! u = Some a -> totp_accepted w w' u a code -> account_code w needed u code = Some uc -> claims_code w w' uc.
Proof.
  intros Ha (_ & secret & step & Hl & Hv & Hn & Hc). unfold account_code. rewrite Ha. destruct (has_totp a && needed a); [|done]. intros [= <-].
  exists step. cbn [fst snd]. split; [by rewrite Hl|by exists a].
Qed.

Lemma answer_ran {B} (f : B -> Reply) (m : Handler B) h h' rp : answer f m h = (h', inr rp) -> exists x, snd (m h) = inr x /\ h' = fst (m h) /\ rp = f x.
Proof. unfold answer, hbind. destruct (m h) as [h1 [e|x]]; [done|]. intros [= <- <-]. by exists x. Qed.
Lemma auth_ran {B} (m : Z -> Handler B) h h' rp : requireAuth m h = (h', inr rp) ->
  exists u, truthy_id (ss_userId (at_sid h (hs_sid h))) = Some u /\ m u h = (h', inr rp).
Proof.
  unfold requireAuth, hbind, session, at_sid. destruct (truthy_id _) as [u|]; [by exists u|done].
Qed.

(** What follows an accepted code only adds to the log. *)
Lemma claims_then {B D} (m : Handler B) (k : B -> Handler D) h x w uc :
  snd (m h) = inr x -> (forall c row, Respects (keeps_log c row) (k x)) ->
  claims_code w (hs_world (fst (m h))) uc -> claims_code w (hs_world (fst (hbind m k h))) uc.
Proof. intros Hm Hk H. rewrite bind_fst, Hm. eapply claims_code_mono; [by apply respects_kept|exact H]. Qed.

Lemma proof_claims needed u a body h uc x :
  sw_users (hs_world h) !! u = Some a -> snd (checkFactorProof u body h) = inr x ->
  account_code (hs_world h) needed u (code_of (get_field "currentCode" body)) = Some uc ->
  claims_code (hs_world h) (hs_world (fst (checkFactorProof u body h))) uc.
Proof.
  intros Hu Hp Hc. unfold account_code in Hc. rewrite Hu in Hc. destruct (has_totp a && needed a) eqn:En; [|done]. injection Hc as <-.
  apply andb_true_iff in En as [Et _]. unfold checkFactorProof in *. apply snd_bind in Hp as (? & [= <-] & Hp). apply snd_bind in Hp as (? & [= <-] & Hp).
  apply snd_bind in Hp as (? & [= <-] & Hp). rewrite bind_fst. cbn [fst snd account reads now] in *. rewrite bind_fst. cbn [fst snd reads]. rewrite bind_fst. cbn [fst snd reads now].
  rewrite Hu, Et in *. cbv zeta in *. destruct (is_empty (code_of _)); [done|].
  assert (Hno : forall y, snd ((audit "profile.factor_proof" (Some u) false "totp" >> reject (A := unit) 400 "Invalid code") h) <> inr y) by done.
  unfold code_step. destruct (live_secret _ _) as [secret|]; [|by apply Hno in Hp]. cbn [mbind option_bind].
  destruct (verifyTotpStep _ _ _ _) as [step|]; [|by apply Hno in Hp]. apply snd_bind in Hp as (ok & Hok & Hp). destruct ok; [|by apply snd_bind in Hp as (? & _ & Hp)].
  exists step. split; [done|]. destruct (accept_true _ _ _ Hok) as (b & Hb & Hn & Hin). exists b. cbn [fst]. split_and!; [done|done|]. by rewrite bind_fst, Hok.
Qed.

Lemma k_writes c row f : (forall w, sw_log (f w) = sw_log w) -> Respects (keeps_log c row) (writes f).
Proof. apply log_writes. Qed.
Lemma k_newEmailOtp c row e d : Respects (keeps_log c row) (newEmailOtp e d).
Proof. apply r_newEmailOtp, keeps_log_harmless. Qed.
Lemma k_sendEmailOtp c row n e x : Respects (keeps_log c row) (sendEmailOtp n e x).
Proof. apply r_sendEmailOtp, keeps_log_harmless. Qed.
Lemma k_regenerate c row : Respects (keeps_log c row) regenerateSession.
Proof. by intros h. Qed.
#[local] Hint Resolve k_newEmailOtp k_sendEmailOtp k_regenerate : signin.
#[local] Hint Extern 1 (Respects _ (writes _)) => (apply k_writes; done) : signin.

Lemma mfa_claims body n h x u uc :
  truthy_id (ss_pendingMfaUserId (at_sid h (hs_sid h))) = Some u -> is_str "totp" (get_field "method" body) = true ->
  snd (mfaVerify body n h) = inr x -> account_code (hs_world h) (fun _ => true) u (text_or_empty (get_field "code" body)) = Some uc ->
  claims_code (hs_world h) (hs_world (fst (mfaVerify body n h))) uc.
Proof.
  intros Hu Hm Hx Hc. unfold mfaVerify in *. rewrite bind_fst. cbn [session snd fst]. apply snd_bind in Hx as (? & [= <-] & Hx). cbn [session fst] in Hx.
  change (session_of (hs_world h) (hs_sid h)) with (at_sid h (hs_sid h)) in *. rewrite Hu in *. rewrite bind_fst. cbn [account reads fst snd].
  apply snd_bind in Hx as (? & [= <-] & Hx). cbn [account reads fst] in Hx. unfold account_code in Hc. destruct (sw_users (hs_world h) !! u) as [a|] eqn:Ea; [|done].
  destruct (ac_is_active a) eqn:Eact; cbn [negb] in *; [|by apply snd_bind in Hx as (? & _ & Hx)].
  apply snd_bind in Hx as (valid & Hv & Hx). cbv zeta in *. destruct valid; cbn [negb] in Hx; [|by apply snd_bind in Hx as (? & _ & Hx)].
  apply (claims_then _ _ _ true); [exact Hv|intros c row; handler|].
  apply (totp_claims _ _ u a (fun _ => true) (text_or_empty (get_field "code" body))); [done| |unfold account_code; by rewrite Ea].
  apply verify_factor_totp; [done|done| |done]. by destruct (has_totp a).
Qed.

Lemma enable_claims u body n h p x :
  ss_pendingTotp (at_sid h (hs_sid h)) = Some p -> snd (totpEnable u body n h) = inr x ->
  claims_code (hs_world h) (hs_world (fst (totpEnable u body n h))) (u, code_step (hs_world h) (Some (pt_secret p)) (text_or_empty (get_field "code" body))).
Proof.
  intros Hp Hx. unfold totpEnable in *. rewrite bind_fst. cbn [session snd fst]. apply snd_bind in Hx as (? & [= <-] & Hx). cbn [session fst] in Hx.
  rewrite bind_fst. cbn [now reads snd fst]. apply snd_bind in Hx as (? & [= <-] & Hx). cbn [now reads fst] in Hx.
  rewrite bind_fst. cbn [reads snd fst]. apply snd_bind in Hx as (? & [= <-] & Hx). cbn [reads fst] in Hx.
  change (session_of (hs_world h) (hs_sid h)) with (at_sid h (hs_sid h)) in *. rewrite Hp in *. destruct (is_empty (pt_secret p)); [done|].
  destruct (pt_expiresAt p <? _); [by apply snd_bind in Hx as (? & _ & Hx)|].
  unfold code_step. cbn [mbind option_bind]. destruct (verifyTotpStep _ _ _ _) as [step|]; [|done].
  apply snd_bind in Hx as (ok & Hok & Hx). destruct ok.
  - apply (claims_then _ _ _ true); [exact Hok|intros c row; unfold clearPendingTotp; handler|]. exists step. split; [done|].
    destruct (claim_if_true _ _ _ _ _ Hok) as (a & Ha & Hn & Hc). exists a. cbn [fst]. split_and!; [done|done|].
    unfold claim_if, account, hbind, reads. cbn -[newer_step]. rewrite Ha, Hn, Hc. by left.
  - apply snd_bind in Hx as (cur & _ & Hx). destruct (match _ with Some _ => _ | None => _ end); [done|]. by apply snd_bind in Hx as (? & _ & Hx).
Qed.

Lemma stepUp_claims u body d h uc :
  snd (stepUpVerify u body d h) = inr (Confirmed Totp) -> account_code (hs_world h) (fun _ => true) u (code_of (get_field "code" body)) = Some uc ->
  claims_code (hs_world h) (hs_world (fst (stepUpVerify u body d h))) uc.
Proof.
  intros Hx Hc. unfold stepUpVerify in *. cbv zeta in *. destruct (is_str "email" _ && _); [by apply snd_bind in Hx as (? & _ & Hx)|].
  apply snd_bind in Hx as (m & Hv & [= ->]). apply (claims_then _ _ _ Totp); [exact Hv|intros c row; handler|].
  unfold verify in *. rewrite bind_fst. cbn [reads snd fst]. apply snd_bind in Hv as (? & [= <-] & Hv). cbn [reads fst] in Hv.
  destruct (loadAccount (hs_world h) u) as [a|] eqn:El; [|done]. rewrite bind_fst. cbn [reads snd fst]. apply snd_bind in Hv as (? & [= <-] & Hv). cbn [reads fst] in Hv.
  destruct (is_obligate a); [done|]. destruct (read_method _) as [m|]; [|done]. destruct (bool_decide (m ∈ _)) eqn:Em; cbn [negb] in *; [|done].
  apply bool_decide_eq_true in Em. apply snd_bind in Hv as (ok & Hok & Hv). destruct ok; cbn [negb] in Hv; [|by apply snd_bind in Hv as (? & ? & ?)].
  assert (m = Totp) as ->. { apply snd_bind in Hv as (? & _ & Hv). apply snd_bind in Hv as (? & _ & Hv). by apply snd_bind in Hv as (? & _ & [= ->]). }
  assert (Hu : sw_users (hs_world h) !! u = Some a). { unfold loadAccount in El. destruct (sw_users (hs_world h) !! u) as [b|]; [|done]. destruct (ac_is_active b); congruence. }
  apply (claims_then _ _ _ true); [exact Hok|intros c row; unfold refuse_proof, auditResult; handler|].
  apply (totp_claims _ _ u a (fun _ => true) (code_of (get_field "code" body))); [done| |done].
  exact (checked_true Totp u a body h Hu Em Hok).
Qed.

(** A factor proof, whatever the route does after it. *)
Lemma proof_then {D} needed u a body h uc (b : bool) (k : unit -> Handler D) x :
  sw_users (hs_world h) !! u = Some a -> account_code (hs_world h) needed u (code_of (get_field "currentCode" body)) = Some uc ->
  (has_totp a && needed a = true -> b = true) -> (forall c row, Respects (keeps_log c row) (k tt)) ->
  snd (hbind (if b then checkFactorProof u body else hret tt) k h) = inr x ->
  claims_code (hs_world h) (hs_world (fst (hbind (if b then checkFactorProof u body else hret tt) k h))) uc.
Proof.
  intros Hu Hc Hb Hk Hx. assert (b = true) as ->. { apply Hb. unfold account_code in Hc. rewrite Hu in Hc. by destruct (has_totp a && needed a). }
  apply snd_bind in Hx as ([] & Hp & _). apply (claims_then _ _ _ tt); [exact Hp|exact Hk|]. by apply (proof_claims needed u a body h uc tt).
Qed.
Lemma code_account w needed u code uc : account_code w needed u code = Some uc -> exists a, sw_users w !! u = Some a /\ has_totp a && needed a = true.
Proof. unfold account_code. destruct (sw_users w !! u) as [a|]; [|done]. exists a. split; [done|]. by destruct (has_totp a && needed a). Qed.

Lemma setup_claims u body f h x uc :
  snd (totpSetup u body f h) = inr x -> account_code (hs_world h) (fun _ => true) u (code_of (get_field "currentCode" body)) = Some uc ->
  claims_code (hs_world h) (hs_world (fst (totpSetup u body f h))) uc.
Proof.
  intros Hx Hc. destruct (code_account _ _ _ _ _ Hc) as (a & Ha & Hn). unfold totpSetup in *. rewrite bind_fst. cbn [account reads snd fst].
  apply snd_bind in Hx as (? & [= <-] & Hx). cbn [account reads fst] in Hx. rewrite Ha in *.
  eapply (proof_then (fun _ => true)); [exact Ha|exact Hc| |intros c row; handler|exact Hx]. intros E. rewrite andb_true_r in E. by rewrite E.
Qed.
Lemma disable_claims u body h x uc :
  snd (totpDisable u body h) = inr x -> account_code (hs_world h) (fun _ => true) u (code_of (get_field "currentCode" body)) = Some uc ->
  claims_code (hs_world h) (hs_world (fst (totpDisable u body h))) uc.
Proof.
  intros Hx Hc. destruct (code_account _ _ _ _ _ Hc) as (a & Ha & Hn). unfold totpDisable in *. rewrite bind_fst. cbn [account reads snd fst].
  apply snd_bind in Hx as (? & [= <-] & Hx). cbn [account reads fst] in Hx. rewrite Ha in *. cbv zeta in *.
  eapply (proof_then (fun _ => true)); [exact Ha|exact Hc| |intros c row; unfold clearPendingTotp; handler|exact Hx]. intros E. by rewrite andb_true_r in E.
Qed.
Lemma email_setup_claims u body d h x uc :
  snd (emailSetup u body d h) = inr x -> account_code (hs_world h) (fun _ => true) u (code_of (get_field "currentCode" body)) = Some uc ->
  claims_code (hs_world h) (hs_world (fst (emailSetup u body d h))) uc.
Proof.
  intros Hx Hc. destruct (code_account _ _ _ _ _ Hc) as (a & Ha & Hn). unfold emailSetup in *. rewrite bind_fst. cbn [account reads snd fst].
  apply snd_bind in Hx as (? & [= <-] & Hx). cbn [account reads fst] in Hx. rewrite bind_fst. cbn [reads snd fst].
  apply snd_bind in Hx as (? & [= <-] & Hx). cbn [reads fst] in Hx. cbv zeta in *. destruct (is_empty _); [done|]. destruct (negb _ && negb _); [done|].
  destruct (otp_server _) as [smtp|]; [|done].
  refine (proof_then (fun _ => true) u a body h uc true _ x Ha Hc _ _ Hx); [done|intros c row; handler].
Qed.
Lemma email_disable_claims u body h x uc :
  snd (emailDisable u body h) = inr x -> account_code (hs_world h) ac_email_otp_enabled u (code_of (get_field "currentCode" body)) = Some uc ->
  claims_code (hs_world h) (hs_world (fst (emailDisable u body h))) uc.
Proof.
  intros Hx Hc. destruct (code_account _ _ _ _ _ Hc) as (a & Ha & Hn). unfold emailDisable in *. rewrite bind_fst. cbn [account reads snd fst].
  apply snd_bind in Hx as (? & [= <-] & Hx). cbn [account reads fst] in Hx. rewrite Ha in *. cbv zeta in *.
  eapply (proof_then ac_email_otp_enabled); [exact Ha|exact Hc| |intros c row; handler|exact Hx]. intros E. by apply andb_true_iff in E as [_ E].
Qed.

(** Whatever the route, the code it let the request through with was newer and was claimed. *)
Lemma request_claims r h h' rp uc :
  handle r h = (h', inr rp) -> code_used (hs_world h) (at_sid h (hs_sid h)) r rp = Some uc -> claims_code (hs_world h) (hs_world h') uc.
Proof.
  intros Hh Hc. destruct r; cbn [code_used] in Hc; try done; cbn [handle] in Hh.
  - destruct (is_str "totp" _) eqn:Em; [|done]. destruct (answer_ran _ _ _ _ _ Hh) as (x & Hx & -> & _). apply bind_Some in Hc as (u & Hu & Hc).
    by apply (mfa_claims body nonce h x u).
  - destruct (auth_ran _ _ _ _ Hh) as (u & Hu & Ha). destruct (answer_ran _ _ _ _ _ Ha) as (x & Hx & -> & _). rewrite Hu in Hc. by apply (setup_claims u body fresh h x).
  - destruct (auth_ran _ _ _ _ Hh) as (u & Hu & Ha). destruct (answer_ran _ _ _ _ _ Ha) as (x & Hx & -> & _). rewrite Hu in Hc.
    apply bind_Some in Hc as (? & [= <-] & Hc). apply bind_Some in Hc as (p & Hp & [= <-]). by apply (enable_claims u body nonce h p x).
  - destruct (auth_ran _ _ _ _ Hh) as (u & Hu & Ha). destruct (answer_ran _ _ _ _ _ Ha) as (x & Hx & -> & _). rewrite Hu in Hc. by apply (disable_claims u body h x).
  - destruct (auth_ran _ _ _ _ Hh) as (u & Hu & Ha). destruct (answer_ran _ _ _ _ _ Ha) as (x & Hx & -> & _). rewrite Hu in Hc. by apply (email_setup_claims u body draw h x).
  - destruct (auth_ran _ _ _ _ Hh) as (u & Hu & Ha). destruct (answer_ran _ _ _ _ _ Ha) as (x & Hx & -> & _). rewrite Hu in Hc. by apply (email_disable_claims u body h x).
  - destruct (auth_ran _ _ _ _ Hh) as (u & Hu & Ha). destruct (answer_ran _ _ _ _ _ Ha) as (x & Hx & -> & ->). rewrite Hu in Hc.
    destruct x as [|[| |]]; try done. by apply (stepUp_claims u body draw h).
Qed.

(** The codes used so far are valid for steps below every newer one, and all claimed. *)
Definition used_ok (u : Z) (w : World) (tr : list Event) : Prop :=
  StronglySorted Z.gt (used_steps u tr) /\ forall s, In s (used_steps u tr) -> exists t, In {| cl_user := u; cl_step := s; cl_at := t |} (lg_claims (sw_log w)).
Lemma used_later u w w' e tr : totp_used e = None -> claims_kept w w' -> used_ok u w tr -> used_ok u w' (e :: tr).
Proof.
  intros He K [H1 H2]. unfold used_ok, used_steps. cbn [omap list_omap]. rewrite He. split; [exact H1|]. intros s Hs. destruct (H2 s Hs) as (t & Ht). exists t. by apply K.
Qed.
Lemma claimed_step u s t l : In {| cl_user := u; cl_step := s; cl_at := t |} l -> In s (steps_of u l).
Proof. intros H. unfold steps_of. apply in_map_iff. exists {| cl_user := u; cl_step := s; cl_at := t |}. split; [done|]. apply filter_In. split; [done|apply Z.eqb_refl]. Qed.
Lemma newer_above w u s a : claims_ok w -> sw_users w !! u = Some a -> newer_step s a = true -> forall x, In x (steps_of u (lg_claims (sw_log w))) -> s > x.
Proof.
  intros H Ha Hn x Hx. destruct (H u) as [_ H2]. specialize (H2 a Ha). unfold newer_step in Hn. destruct (ac_totp_last_step a) as [l|].
  - apply Z.ltb_lt in Hn. rewrite List.Forall_forall in H2. specialize (H2 x Hx). lia.
  - rewrite H2 in Hx. destruct Hx.
Qed.

Lemma guarded_claims w sid : claims_ok w -> claims_kept w (hs_world (guarded w sid)) /\ claims_ok (hs_world (guarded w sid)).
Proof.
  intros H. destruct (opened_users w sid) as (E1 & E2 & _). split.
  - intros c Hc. apply (r_sessionUserGuard _ (keeps_log_harmless c {| ar_action := ""; ar_user := None; ar_success := false; ar_detail := "" |}) (k_regenerate _ _) (opened w sid)).
    by rewrite E2.
  - apply (r_sessionUserGuard keeps_claims claims_harmless keeps_claims_regenerate). intros u. rewrite E1, E2. apply H.
Qed.

Lemma request_used u w tr g r h o :
  claims_ok (hs_world g) -> used_ok u (hs_world g) tr -> handle r g = (h, o) ->
  used_ok u (hs_world h) (Ev_request (hs_world g) (hs_sid g) r (hs_world h) (hs_sid h) o :: tr)
  /\ forall v so, totp_used (Ev_request (hs_world g) (hs_sid g) r w (hs_sid h) o) = Some (v, so) -> is_Some so.
Proof.
  intros Hc Hu Hh. assert (K : claims_kept (hs_world g) (hs_world h)).
  { intros c. pose proof (handle_any _ (keeps_log_harmless c {| ar_action := ""; ar_user := None; ar_success := false; ar_detail := "" |}) (k_modify _ _) (k_regenerate _ _) r g) as H.
    rewrite Hh in H. apply H. }
  destruct o as [f|rp]; [split; [by apply (used_later u (hs_world g))|done]|].
  assert (Et : forall x, totp_used (Ev_request (hs_world g) (hs_sid g) r x (hs_sid h) (inr rp)) = code_used (hs_world g) (at_sid g (hs_sid g)) r rp) by done.
  destruct (code_used (hs_world g) (at_sid g (hs_sid g)) r rp) as [[v so]|] eqn:E;
    [|split; [by apply (used_later u (hs_world g)); [rewrite Et| |]|by intros v so; rewrite Et]].
  destruct (request_claims r g h rp (v, so) Hh E) as (s & Hs & a & Ha & Hn & Hin). cbn [fst snd] in *. subst so. split; [|intros v' so'; rewrite Et; intros [= <- <-]; by exists s].
  destruct Hu as [H1 H2]. unfold used_ok, used_steps. cbn [omap list_omap]. rewrite Et.
  destruct (Z.eqb_spec v u) as [->|Hv]; [|split; [exact H1|]; intros s' Hs'; destruct (H2 s' Hs') as (t & Ht); exists t; by apply K]. split.
  - constructor; [exact H1|]. apply List.Forall_forall. intros x Hx. destruct (H2 x Hx) as (t & Ht).
    apply (newer_above (hs_world g) u s a Hc Ha Hn). by apply (claimed_step u x t).
  - intros s' [<-|Hs']; [by eexists|]. destruct (H2 s' Hs') as (t & Ht). exists t. by apply K.
Qed.

Lemma run_used u w tr : run w tr -> used_ok u w tr /\ forall e v so, In e tr -> totp_used e = Some (v, so) -> is_Some so.
Proof.
  induction 1 as [w Hs Hg Hc|w tr sid r h o Hr [IH1 IH2] Hh|w w' tr Hr [IH1 IH2] He|w tr x Hr [IH1 IH2] Hm|w tr x row Hr [IH1 IH2] Hp].
  - split; [split; [constructor|by intros s []]|by intros e v so []].
  - destruct (guarded_claims w sid (run_claims w tr Hr)) as [K Hg]. assert (Hu : used_ok u (hs_world (guarded w sid)) tr).
    { destruct IH1 as [H1 H2]. split; [exact H1|]. intros s Hs. destruct (H2 s Hs) as (t & Ht). exists t. by apply K. }
    destruct (request_used u (hs_world h) tr (guarded w sid) r h o Hg Hu Hh) as [H1 H2]. split; [exact H1|].
    intros e v so [<-|Hin]; [apply H2|by apply (IH2 e)].
  - split; [|intros e v so [<-|Hin]; [done|by apply (IH2 e)]]. apply (used_later u w); [done| |done]. intros c. by rewrite (env_claims _ _ _ He).
  - split; [|intros e v so [<-|Hin]; [done|by apply (IH2 e)]]. apply (used_later u w); [done|by intros c|done].
  - split; [|intros e v so [<-|Hin]; [done|by apply (IH2 e)]]. apply (used_later u w); [done|by intros c|done].
Qed.

(** C16. In every run the authenticator codes an account is let through with, at sign-in, as the
    proof of a profile change, when an authenticator is enabled or as a step-up, are valid for
    time steps that strictly increase: no code is accepted twice, by the same route or by
    another, and none older than one accepted. *)
Theorem totp_step_once w tr u (Hr : run w tr) :
  (forall e v so, In e tr -> totp_used e = Some (v, so) -> is_Some so)
  /\ StronglySorted Z.gt (used_steps u tr) /\ NoDup (used_steps u tr).
Proof.
  destruct (run_used u w tr Hr) as [[Hs _] Hu]. split; [exact Hu|]. split; [exact Hs|]. induction Hs as [|x l Hs IH Hf]; constructor; [|done].
  intros Hin. rewrite List.Forall_forall in Hf. apply list_elem_of_In in Hin. specialize (Hf x Hin). lia.
Qed.

(** ** Sensitive actions *)

(** The action a request performs behind the gate, and whether the gate let it through. *)
Definition gated (r : Request) : option string :=
  match r with
  | Rq_sensitive a true => Some a
  | Rq_reset_user_password _ _ _ | Rq_reset_user_mfa _ _ => Some "users.credentials"
  | _ => None
  end.
Definition passed (o : Fault + Reply) : bool := match o with inr (Rp_gate g) => gate_open g | inr _ => true | inl _ => false end.
Definition exempt_row (u : Z) (action : string) : AuditRow :=
  {| ar_action := "auth.stepUp.exempt"; ar_user := Some u; ar_success := true; ar_detail := action |}.

Lemma gate_passed action u h g :
  truthy_id (ss_userId (at_sid h (hs_sid h))) = Some u -> snd (requireStepUp action true h) = inr g -> gate_open g = true ->
  loadAccount (hs_world h) u = None
  \/ (exists a, loadAccount (hs_world h) u = Some a /\ is_obligate a = true /\ In (exempt_row u action) (lg_audit (sw_log (hs_world (fst (requireStepUp action true h))))))
  \/ (exists p, fresh_proof (at_sid h (hs_sid h)) (sw_now (hs_world h)) = Some p).
Proof.
  intros Hu Hs Hg. unfold requireStepUp in *. rewrite bind_fst. apply snd_bind in Hs as (s & [= <-] & Hs). cbn [session snd fst] in *.
  change (session_of (hs_world h) (hs_sid h)) with (at_sid h (hs_sid h)) in *. rewrite Hu in *. cbn [negb] in *.
  assert (Es : fst (state h) = h /\ snd (state h) = inr (match fresh_proof (at_sid h (hs_sid h)) (sw_now (hs_world h)) with
      | Some p => St_fresh (sp_method p) (sp_at p + STEP_UP_TTL_MS)
      | None => match loadAccount (hs_world h) u with
                | None => St_unknown_user
                | Some a => if is_obligate a then St_exempt else St_required (methodsFor (hs_world h) a)
                end
      end)).
  { unfold state, hbind, session, now, reads. cbn. change (session_of (hs_world h) (hs_sid h)) with (at_sid h (hs_sid h)). rewrite Hu.
    destruct (fresh_proof _ _); [done|]. by destruct (loadAccount (hs_world h) u). }
  destruct Es as [Ef Es]. rewrite bind_fst, Ef, Es. unfold hbind in Hs. rewrite (surjective_pairing (state h)), Ef, Es in Hs.
  destruct (fresh_proof _ _) as [p|] eqn:Ep; [right; right; by exists p|]. destruct (loadAccount (hs_world h) u) as [a|] eqn:El; [|by left].
  destruct (is_obligate a) eqn:Eo; [right; left; exists a; split_and!; [done|done|by left]|]. cbn [snd] in Hs.
  destruct (bool_decide _); injection Hs as <-; done.
Qed.

Lemma fresh_proof_some s t p u : truthy_id (ss_userId s) = Some u -> fresh_proof s t = Some p ->
  ss_stepUp s = Some p /\ sp_user p = u /\ 0 <= t - sp_at p < STEP_UP_TTL_MS.
Proof.
  intros Hu. unfold fresh_proof. rewrite Hu. destruct (ss_stepUp s) as [q|]; [|done]. destruct ((sp_user q =? u) && _ && _) eqn:E; [|done].
  intros [= <-]. apply andb_true_iff in E as [E E3]. apply andb_true_iff in E as [E1 E2]. apply Z.eqb_eq in E1. apply Z.leb_le in E2. apply Z.ltb_lt in E3.
  split_and!; [done|done|lia|lia].
Qed.

Lemma snd_answer {B} (f : B -> Reply) (m : Handler B) h o : snd (answer f m h) = inr o -> exists x, snd (m h) = inr x /\ o = f x.
Proof. unfold answer. intros H. apply snd_bind in H as (x & Hx & [= <-]). eauto. Qed.

Lemma behind_passed {B} action (m : Handler B) h x : snd (behind_gate action m h) = inr x ->
  exists g, snd (requireStepUp action true h) = inr g /\ gate_open g = true.
Proof.
  unfold behind_gate. intros H. apply snd_bind in H as (g & Hg & H). exists g. split; [done|]. by destruct (gate_open g).
Qed.

(** Whatever lets a gated request through, it was the gate, on the session of an account. *)
Lemma gated_passed r action h h' o :
  gated r = Some action -> handle r h = (h', o) -> passed o = true ->
  exists u g, truthy_id (ss_userId (at_sid h (hs_sid h))) = Some u /\ snd (requireStepUp action true h) = inr g /\ gate_open g = true
    /\ forall row, In row (lg_audit (sw_log (hs_world (fst (requireStepUp action true h))))) -> In row (lg_audit (sw_log (hs_world h'))).
Proof.
  intros Hg Hh Hp. pose proof (f_equal snd Hh) as Ho. pose proof (handled_fst _ _ _ _ Hh) as Eh. cbn [snd] in Ho.
  assert (Hk : forall {B} (m : Handler B) h0 row, Respects (keeps_log {| cl_user := 0; cl_step := 0; cl_at := 0 |} row) m ->
     In row (lg_audit (sw_log (hs_world h0))) -> In row (lg_audit (sw_log (hs_world (fst (m h0)))))).
  { intros B m h0 row Hm. apply (Hm h0). }
  destruct r; try done; cbn [gated handle] in *; unfold requireAuth in *; rewrite bind_fst in Eh; cbn [session snd fst] in Eh;
    change (session_of (hs_world h) (hs_sid h)) with (at_sid h (hs_sid h)) in *; unfold hbind at 1 in Ho; cbn [session] in Ho;
    change (session_of (hs_world h) (hs_sid h)) with (at_sid h (hs_sid h)) in *;
    (destruct (truthy_id (ss_userId (at_sid h (hs_sid h)))) as [u|] eqn:Eu; [|cbn in Ho; subst o; done]); rewrite answer_fst in Eh.
  - destruct sensitive; [|done]. injection Hg as ->. destruct o as [f|rp]; [done|]. destruct (snd_answer _ _ _ _ Ho) as (g & Hs & ->).
    exists u, g. split_and!; [done|done|done|]. intros row. by rewrite Eh.
  - injection Hg as <-. destruct o as [f|rp]; [done|]. destruct (snd_answer _ _ _ _ Ho) as (x & Hs & ->).
    destruct (behind_passed _ _ _ _ Hs) as (g & H1 & H2). exists u, g. split_and!; [done|done|done|]. intros row Hrow. rewrite Eh.
    unfold behind_gate. rewrite bind_fst, H1, H2. apply Hk; [|done]. apply r_resetUserPassword, keeps_log_harmless.
  - injection Hg as <-. destruct o as [f|rp]; [done|]. destruct (snd_answer _ _ _ _ Ho) as (x & Hs & ->).
    destruct (behind_passed _ _ _ _ Hs) as (g & H1 & H2). exists u, g. split_and!; [done|done|done|]. intros row Hrow. rewrite Eh.
    unfold behind_gate. rewrite bind_fst, H1, H2. apply Hk; [|done]. apply r_resetMfa, keeps_log_harmless.
Qed.

(** C15. A sensitive action is let through only for an account that gave a valid proof in that
    session, or in the one it was renewed from, less than ten minutes before; an account
    Obligate manages is let through with an audit row, and an account that is gone or
    disabled is left to the other guards. *)
Theorem sensitive_needs_proof w tr b sid r w' sid' o action
    (Hr : run w (Ev_request b sid r w' sid' o :: tr)) (Hg : gated r = Some action) (Ho : passed o = true) :
  exists u, truthy_id (ss_userId (session_of b sid)) = Some u
    /\ (loadAccount b u = None
        \/ (exists a, loadAccount b u = Some a /\ is_obligate a = true /\ In (exempt_row u action) (lg_audit (sw_log w')))
        \/ (exists p, proved tr sid p /\ sp_user p = u /\ 0 <= sw_now b - sp_at p < STEP_UP_TTL_MS)).
Proof.
  inversion Hr as [|w0 tr0 sid0 r0 h o0 Hr0 Hh| | |]; subst.
  assert (Jg : justified tr (guarded w0 sid0)).
  { apply (justified_tame _ {| hs_world := w0; hs_sid := sid0 |}); [apply guarded_tame|exact (proj1 (run_justified _ _ Hr0))]. }
  destruct (gated_passed r action (guarded w0 sid0) h o Hg Hh Ho) as (u & g & Hu & Hs & Hop & Hrow). exists u. split; [exact Hu|].
  destruct (gate_passed action u (guarded w0 sid0) g Hu Hs Hop) as [H|[(a & Ha & Hob & Hin)|[p Hp]]]; [by left|right; left|right; right].
  - exists a. split_and!; [done|done|by apply Hrow].
  - exists p. destruct (fresh_proof_some _ _ _ _ Hu Hp) as (H1 & H2 & H3). split_and!; [by apply Jg|done|lia|lia].
Qed.

(** ** A disabled account *)

Lemma keeps_locked_modify P u f : Respects (keeps_locked P u) (modify_session f).
Proof. by intros h H. Qed.
Lemma keeps_locked_regenerate P u : Respects (keeps_locked P u) regenerateSession.
Proof. by intros h H. Qed.

Lemma same_guard_session u h : sessions (fst (loadUserState u h)) = sessions h /\ hs_sid (fst (loadUserState u h)) = hs_sid h.
Proof. destruct (load_split u h) as [(c & _ & _ & ->)| ->]; done. Qed.

(** A request stays the account's only by a recent cached state that says it is active. *)
Lemma guard_locked P u h : locked_but P u (hs_world h) -> let g := fst (sessionUserGuard h) in
  truthy_id (ss_userId (at_sid g (hs_sid g))) = Some u -> exists e, P e /\ ge_active e = true /\ sw_now (hs_world h) - ge_at e < GUARD_TTL_MS.
Proof.
  intros [Hi Hl] g. subst g. unfold sessionUserGuard. rewrite bind_fst. cbn [session snd fst]. change (session_of (hs_world h) (hs_sid h)) with (at_sid h (hs_sid h)).
  destruct (truthy_id (ss_userId (at_sid h (hs_sid h)))) as [v|] eqn:Ev; [|cbn; congruence]. rewrite bind_fst.
  destruct (same_guard_session v h) as [Es Eh]. assert (Ea : at_sid (fst (loadUserState v h)) (hs_sid (fst (loadUserState v h))) = at_sid h (hs_sid h)).
  { unfold at_sid, session_of, sessions in *. by rewrite Es, Eh. }
  destruct (decide (v = u)) as [->|Hne].
  - destruct (load_split u h) as [(c & Hc & Ht & ->)| ->]; cbn [fst snd].
    + destruct (ge_active c) eqn:Hac; [intros _; exists c; split_and!; [by apply Hl|done|done]|]. cbn [negb orb]. destruct (ge_role c); by rewrite regenerated_empty.
    + unfold fill_state. cbn [hbind now reads writes hret fst snd]. rewrite (inactive_row u (hs_world h) _ Hi). cbn [negb orb]. destruct (ge_role _); by rewrite regenerated_empty.
  - set (h1 := fst (loadUserState v h)) in *. destruct (snd (loadUserState v h)) as [er|e]; [rewrite Ea, Ev; congruence|].
    destruct (ge_role e) as [r|]; [|by rewrite regenerated_empty]. destruct (negb (ge_active e) || is_empty r); [by rewrite regenerated_empty|].
    case_bool_decide; [cbn [hret fst]; rewrite Ea, Ev; congruence|].
    unfold modify_session, at_sid, session_of. cbn. rewrite lookup_insert_eq. cbn. fold (session_of (hs_world h1) (hs_sid h1)).
    change (session_of (hs_world h1) (hs_sid h1)) with (at_sid h1 (hs_sid h1)). rewrite Ea, Ev. congruence.
Qed.

(** A query answered in [tr] had read the account active before the run [tr1] ended. *)
Definition late_answer (tr tr1 : list Event) (u t : Z) : Prop :=
  exists x role y, In (Ev_answer x u (Some (true, role)) y) tr /\ (u, Some (true, role)) ∈ pending tr1 /\ t = sw_now x.

Lemma drop_first_in x y l : x ∈ drop_first y l -> x ∈ l.
Proof.
  induction l as [|z l IH]; cbn [drop_first]; [done|]. destruct (decide (y = z)); [by right|]. intros H. apply elem_of_cons in H as [->|H]; [by left|right; by apply IH].
Qed.
(** What the account's pending queries read is old, once it is disabled. *)
Lemma pending_old u row tr tr1 e0 :
  (forall e, In e tr -> inactive u (ev_after e)) -> ge_active (read_user_state row 0) = true ->
  (forall x w, e0 <> Ev_lookup x w) -> (u, row) ∈ pending (tr ++ e0 :: tr1) -> (u, row) ∈ pending tr1.
Proof.
  intros Hi Ha H0. induction tr as [|e tr IH]; cbn [app].
  - destruct e0; cbn [pending]; [done|done|by destruct (H0 w user)|apply drop_first_in].
  - specialize (IH (fun e' He => Hi e' (or_intror He))). destruct e as [| |x v|]; cbn [pending]; [exact IH|exact IH| |intros H; by apply IH, (drop_first_in _ _ _ H)].
    intros H. apply elem_of_cons in H as [[= -> ->]|H]; [|by apply IH]. exfalso.
    rewrite (inactive_row v x 0) in Ha; [done|]. apply (Hi (Ev_lookup x v)). by left.
Qed.

Lemma disabled_run w w0 w1 tr1 tr2 u :
  run w (tr2 ++ Ev_env w0 w1 :: tr1) -> locked u w1 -> (forall e, In e tr2 -> inactive u (ev_after e)) ->
  locked_but (fun e => late_answer tr2 tr1 u (ge_at e)) u w
  /\ forall newer e older, tr2 = newer ++ e :: older -> served_as e = Some u ->
       exists t, late_answer older tr1 u t /\ sw_now (ev_before e) - t < GUARD_TTL_MS.
Proof.
  intros Hr Hl. revert w Hr. induction tr2 as [|e tr2 IH]; intros w Hr Hi; cbn [app] in Hr.
  { inversion Hr; subst. split; [by apply locked_but_any|]. intros [|? ?] ? ? [=]. }
  assert (Hw : forall t, late_answer tr2 tr1 u t -> late_answer (e :: tr2) tr1 u t).
  { intros t (x & role & y & H1 & H2 & H3). exists x, role, y. split_and!; [by right|done|done]. }
  assert (Hlater : forall x, run x (tr2 ++ Ev_env w0 w1 :: tr1) ->
    (locked_but (fun g => late_answer tr2 tr1 u (ge_at g)) u x -> locked_but (fun g => late_answer (e :: tr2) tr1 u (ge_at g)) u w
       /\ (served_as e = Some u -> exists t, late_answer tr2 tr1 u t /\ sw_now (ev_before e) - t < GUARD_TTL_MS)) ->
    locked_but (fun g => late_answer (e :: tr2) tr1 u (ge_at g)) u w
    /\ forall newer e' older, e :: tr2 = newer ++ e' :: older -> served_as e' = Some u ->
         exists t, late_answer older tr1 u t /\ sw_now (ev_before e') - t < GUARD_TTL_MS).
  { intros x Hx Hs. destruct (IH x Hx (fun e' He => Hi e' (or_intror He))) as [Il Is]. destruct (Hs Il) as [S1 S2]. split; [exact S1|].
    intros [|? newer] e' older [= <- E]; [by rewrite <- E|]. by apply (Is newer). }
  pose proof (Hi e (or_introl eq_refl)) as Hie.
  inversion Hr as [|x tr sid r h o Hr0 Hh|x y tr Hr0 He|x tr v Hr0 Hm|x tr v row Hr0 Hp]; subst; apply (Hlater _ Hr0); intros L; (split; [|try done]).
  - assert (Ho : locked_but (fun g => late_answer tr2 tr1 u (ge_at g)) u (hs_world (opened x sid))).
    { destruct (opened_users x sid) as (E1 & _ & E3). destruct L as [X1 X2]. split; [intros a; rewrite E1; apply X1|intros e'; rewrite E3; apply X2]. }
    pose proof (r_sessionUserGuard _ (locked_harmless _ u) (keeps_locked_regenerate _ u) (opened x sid) Ho) as Hg.
    pose proof (handle_any _ (locked_harmless _ u) (keeps_locked_modify _ u) (keeps_locked_regenerate _ u) r (guarded x sid) Hg) as H. rewrite Hh in H.
    by apply (locked_but_weaken (fun g => late_answer tr2 tr1 u (ge_at g))); [intros ?; apply Hw|].
  - intros Hs. assert (Ho : locked_but (fun g => late_answer tr2 tr1 u (ge_at g)) u (hs_world (opened x sid))).
    { destruct (opened_users x sid) as (E1 & _ & E3). destruct L as [X1 X2]. split; [intros a; rewrite E1; apply X1|intros e'; rewrite E3; apply X2]. }
    destruct (guard_locked _ u (opened x sid) Ho Hs) as (g & H1 & _ & H2). exists (ge_at g). split; [exact H1|]. cbn [ev_before].
    unfold guarded. by rewrite (tame_now _ _ (r_sessionUserGuard tame tame_harmless tame_regenerate (opened x sid))).
  - destruct L as [X1 X2]. split; [done|]. intros g Hge Hac. apply Hw, (X2 g); [|done]. by apply (env_guard _ _ _ He).
  - by apply (locked_but_weaken (fun g => late_answer tr2 tr1 u (ge_at g))); [intros ?; apply Hw|].
  - apply (fill_locked _ u v row {| hs_world := x; hs_sid := 0 |}).
    + by apply (locked_but_weaken (fun g => late_answer tr2 tr1 u (ge_at g))); [intros ?; apply Hw|].
    + intros -> Hac. destruct row as [[act role]|]; [|done]. cbn in Hac. subst act. exists x, role, (filled u (Some (true, role)) x). split_and!; [by left| |done].
      by apply (pending_old u (Some (true, role)) tr2 tr1 (Ev_env w0 w1) (fun e' He => Hi e' (or_intror He))).
Qed.

(** C17. Once an account is disabled or deleted and its cached state dropped, and for as long as
    it stays so, whatever sessions are written back late, a request is served as that account
    only within five seconds of the answer to a query that was under way at that moment and had
    read the account still active; when there was no such query, none is served at all. *)
Theorem disabled_stays_out w w0 w1 tr1 tr2 u newer e older
    (Hr : run w (tr2 ++ Ev_env w0 w1 :: tr1)) (Hl : locked u w1) (Hi : forall x, In x tr2 -> inactive u (ev_after x))
    (He : tr2 = newer ++ e :: older) (Hs : served_as e = Some u) :
  exists x role y, In (Ev_answer x u (Some (true, role)) y) older /\ sw_now (ev_before e) - sw_now x < GUARD_TTL_MS
    /\ (u, Some (true, role)) ∈ pending tr1.
Proof.
  destruct (proj2 (disabled_run w w0 w1 tr1 tr2 u Hr Hl Hi) newer e older He Hs) as (t & (x & role & y & H1 & H2 & ->) & H3). by exists x, role, y.
Qed.
End Safety.

(** ** Examples *)

Definition sample_session : Session := {|
  ss_userId := Some 3; ss_role := Some "user"; ss_pendingMfaUserId := None; ss_pendingEmailOtp := None; ss_pendingTotp := None;
  ss_pendingEmailOtpSetup := None; ss_stepUp := None; ss_stepUpEmailOtp := None; ss_stepUpEmailSentAt := None |}.

Lemma identity_needs_proof_witness : signed_in (C := TestCiphers) (A := TestAuthenticators) (snd signed_in_run) 3 3.
Proof.
  refine (proj1 (identity_needs_proof (C := TestCiphers) (A := TestAuthenticators) (fst signed_in_run) (snd signed_in_run) 3 sample_session 3 signed_in_run_ok _ _)).
  - by vm_compute.
  - done.
Defined.

Lemma run_sessions `{C : Ciphers} `{A : Authenticators} w tr k s : run w tr -> tr <> [] -> st_sessions (sw_store w) !! k = Some s -> held tr k s.
Proof. intros Hr Hne Hk. destruct Hr; [done|eexists; split; [by left|right; exact Hk]..]. Qed.

Lemma later_run `{C : Ciphers} `{A : Authenticators} w tr : run w tr -> tr <> [] -> run (later w) (Ev_env w (later w) :: tr).
Proof.
  intros Hr Hne. apply run_env; [done|]. split; cbn; [lia|lia|done|eauto| |done]. intros k s Hk. by apply (run_sessions w).
Qed.

Lemma signed_in_nonempty : snd signed_in_run <> [].
Proof. unfold signed_in_run. cbn [exec sample_sign_in snd]. discriminate. Qed.

Definition sample_confirm : list (Z * Request) :=
  [(3, Rq_step_up (JObj [("method", JStr "totp"); ("code", JStr "123456")]) 0); (3, Rq_sensitive "bans.wipe" true)].
Definition confirmed_run : World * list Event :=
  exec (C := TestCiphers) (A := TestAuthenticators) (later (fst signed_in_run)) (Ev_env (fst signed_in_run) (later (fst signed_in_run)) :: snd signed_in_run) sample_confirm.
Lemma confirmed_run_ok : run (C := TestCiphers) (A := TestAuthenticators) (fst confirmed_run) (snd confirmed_run).
Proof.
  exact (exec_run (C := TestCiphers) (A := TestAuthenticators) (later (fst signed_in_run)) (Ev_env (fst signed_in_run) (later (fst signed_in_run)) :: snd signed_in_run) sample_confirm
           (later_run (C := TestCiphers) (A := TestAuthenticators) _ _ signed_in_run_ok signed_in_nonempty)).
Qed.
(** The code of the sign-in and the next one: two steps, the newest first. *)
Lemma totp_step_once_witness :
  used_steps (C := TestCiphers) (A := TestAuthenticators) 3 (snd confirmed_run) = [60000001; 60000000]
  /\ StronglySorted Z.gt (used_steps (C := TestCiphers) (A := TestAuthenticators) 3 (snd confirmed_run)).
Proof.
  split; [by vm_compute|].
  exact (proj1 (proj2 (totp_step_once (C := TestCiphers) (A := TestAuthenticators) (fst confirmed_run) (snd confirmed_run) 3 confirmed_run_ok))).
Defined.
Lemma sensitive_needs_proof_witness :
  match snd confirmed_run with
  | Ev_request b sid r w' sid' o :: tr => exists u, truthy_id (ss_userId (session_of b sid)) = Some u /\ passed o = true
  | _ => False
  end.
Proof.
  pose proof confirmed_run_ok as Hr. destruct (snd confirmed_run) as [|[b sid r w' sid' o| | |] tr] eqn:E; [by vm_compute in E| |by vm_compute in E..].
  assert (Hg : gated r = Some "bans.wipe" /\ passed o = true) by (vm_compute in E; injection E as <- <- <- <- <- <- <-; done).
  destruct (sensitive_needs_proof (C := TestCiphers) (A := TestAuthenticators) _ tr b sid r w' sid' o "bans.wipe" Hr (proj1 Hg) (proj2 Hg)) as (u & Hu & _).
  exists u. split; [exact Hu|exact (proj2 Hg)].
Defined.

Definition disable (u : Z) (w : World) : World := on_guard (delete u) (on_users (alter (fun a => {|
  ac_username := ac_username a; ac_role := ac_role a; ac_is_active := false; ac_password_hash := ac_password_hash a; ac_foreign_source := ac_foreign_source a;
  ac_email := ac_email a; ac_totp_enabled := ac_totp_enabled a; ac_totp_secret := ac_totp_secret a; ac_email_otp_enabled := ac_email_otp_enabled a;
  ac_totp_last_step := ac_totp_last_step a |}) u) w).
Lemma disable_run `{C : Ciphers} `{A : Authenticators} u w tr : run w tr -> tr <> [] -> run (disable u w) (Ev_env w (disable u w) :: tr).
Proof.
  intros Hr Hne. apply run_env; [done|]. split; cbn; [lia|lia|done| | |].
  - intros v a. rewrite lookup_alter. case_decide as E; [|eauto]. subst v. destruct (sw_users w !! u) as [b|]; cbn; [|done]. intros [= <-]. eauto.
  - intros k s Hk. by apply (run_sessions w).
  - intros v e He. by apply lookup_delete_Some in He as [_ He].
Qed.
(** A request that presents the session of the account just disabled is served as nobody. *)
Definition after_disable : HS := guarded (disable 3 (fst signed_in_run)) 3.
Example disabled_is_refused : truthy_id (ss_userId (session_of (hs_world after_disable) (hs_sid after_disable))) = None.
Proof. by vm_compute. Qed.

(** The query of an earlier request read the account active, and its answer comes after the
    account was disabled and its cached state dropped: a request that presents the session is
    then served as the disabled account. *)
Definition late_world : World := filled 3 (Some (true, "user")) (disable 3 (fst signed_in_run)).
Definition late_before : list Event :=
  Ev_answer (disable 3 (fst signed_in_run)) 3 (Some (true, "user")) late_world
  :: Ev_env (fst signed_in_run) (disable 3 (fst signed_in_run)) :: Ev_lookup (fst signed_in_run) 3 :: snd signed_in_run.
Definition late_served : HS * (Fault + Reply) := handle (C := TestCiphers) (A := TestAuthenticators) (Rq_other "GET" "/api/bans") (guarded late_world 3).
Definition late_event : Event :=
  Ev_request (hs_world (guarded late_world 3)) (hs_sid (guarded late_world 3)) (Rq_other "GET" "/api/bans")
    (hs_world (fst late_served)) (hs_sid (fst late_served)) (snd late_served).
Lemma late_run : run (C := TestCiphers) (A := TestAuthenticators) (hs_world (fst late_served)) (late_event :: late_before).
Proof.
  apply (run_served (C := TestCiphers) (A := TestAuthenticators) late_world late_before 3 (Rq_other "GET" "/api/bans")).
  apply run_answer.
  - apply disable_run; [|done]. apply run_lookup; [exact signed_in_run_ok|by vm_compute].
  - apply list_elem_of_In. vm_compute. by left.
Qed.
Lemma late_answer_serves_disabled :
  run (C := TestCiphers) (A := TestAuthenticators) (hs_world (fst late_served)) (late_event :: late_before)
  /\ inactive 3 (ev_before late_event) /\ served_as late_event = Some 3 /\ passed (snd late_served) = true.
Proof. split; [exact late_run|]. split_and!; [|by vm_compute|by vm_compute]. intros a Ha. vm_compute in Ha. by injection Ha as <-. Qed.
Lemma disabled_stays_out_witness :
  exists x role y, In (Ev_answer x 3 (Some (true, role)) y) late_before /\ sw_now (ev_before late_event) - sw_now x < GUARD_TTL_MS.
Proof.
  destruct (disabled_stays_out (C := TestCiphers) (A := TestAuthenticators) (hs_world (fst late_served)) (fst signed_in_run) (disable 3 (fst signed_in_run))
    (Ev_lookup (fst signed_in_run) 3 :: snd signed_in_run)
    [late_event; Ev_answer (disable 3 (fst signed_in_run)) 3 (Some (true, "user")) late_world] 3 [] late_event
    [Ev_answer (disable 3 (fst signed_in_run)) 3 (Some (true, "user")) late_world] late_run) as (x & role & y & [E|[]] & Ht & _).
  - split; [|by vm_compute]. intros a Ha. vm_compute in Ha. by injection Ha as <-.
  - intros x [<-|[<-|[]]] a Ha; vm_compute in Ha; by injection Ha as <-.
  - done.
  - by vm_compute.
  - exists x, role, y. split; [left; exact E|exact Ht].
Defined.

(** ** What a reset link does not do *)

(** A password reset by link changes the password and nothing else of the account, and leaves
    every session open; a password change in the profile closes the other ones. *)
Lemma reset_keeps_sessions `{C : Ciphers} `{A : Authenticators} token password h :
  sessions (fst (resetPassword token password h)) = sessions h.
Proof.
  unfold resetPassword. rewrite bind_fst. cbn [reads snd fst]. by destruct (List.find _ _).
Qed.

(** The first authenticator of an account needs no proof: a session is enough to add it. *)
Lemma first_totp_needs_no_proof `{C : Ciphers} `{A : Authenticators} u a body secret h :
  sw_users (hs_world h) !! u = Some a -> has_totp a = false -> ac_email_otp_enabled a = false ->
  snd (totpSetup u body secret h) = inr secret.
Proof. intros Hu H1 H2. unfold totpSetup, hbind, account, reads. cbn. by rewrite Hu, H1, H2. Qed.
