(* ===== verification/UserScope.v ===== *)
(** * Accounts, memberships and who may manage them ([services/userScope.service.ts])

    The world of user administration: accounts, their roles in the tenants, the permission
    sets the roles name, teams and grants; and the domination rules that bound what a manager
    who is not a platform administrator may do. The rights themselves are those of [Access],
    read through [dir_of]. *)

From S2P Require Import Prelude JsString JsValue JsNumber JsJson Tenancy Access Query.

(** ** Tables *)

Record UserRow := { us_username : string; us_display : option string; us_role : string; us_active : bool; us_foreign : option string }.
Record SetRow := { ps_id : Z; ps_name : string; ps_slug : string; ps_caps : js; ps_default : bool }.
Record TeamRow := { tm_team : Team; tm_name : string; tm_description : option string }.
Record GrantRow := { gw_id : Z; gw_grant : Grant }.

(** What the operations do outside the tables: sessions destroyed, the cached account state
    dropped, the memberships announced as changed. *)
Inductive Effect := Eff_sessions (user : Z) | Eff_state (user : Z) | Eff_membership (user : Z).

Record AdminWorld := {
  aw_users : gmap Z UserRow;
  aw_user_tenants : list (Z * Z * string);
  aw_sets : list SetRow;
  aw_teams : list TeamRow;
  aw_members : list (Z * Z);
  aw_grants : list GrantRow;
  aw_tenants : list Z;
  aw_groups : list Group;
  aw_devices : list Device;
  aw_closure : list (Z * Z);
  aw_next : Z;
  aw_effects : list Effect
}.
(** The rows the permission checks read. *)
Definition dir_of (w : AdminWorld) : Directory := {|
  d_devices := aw_devices w; d_groups := aw_groups w; d_closure := aw_closure w; d_teams := map tm_team (aw_teams w);
  d_memberships := aw_members w; d_grants := map gw_grant (aw_grants w); d_user_tenants := aw_user_tenants w;
  d_permission_sets := map (fun r => (ps_slug r, ps_caps r)) (aw_sets w) |}.

Definition with_users (f : gmap Z UserRow -> gmap Z UserRow) (w : AdminWorld) : AdminWorld := {|
  aw_users := f (aw_users w); aw_user_tenants := aw_user_tenants w; aw_sets := aw_sets w; aw_teams := aw_teams w;
  aw_members := aw_members w; aw_grants := aw_grants w; aw_tenants := aw_tenants w; aw_groups := aw_groups w;
  aw_devices := aw_devices w; aw_closure := aw_closure w; aw_next := aw_next w; aw_effects := aw_effects w |}.
Definition with_user_tenants (f : list (Z * Z * string) -> list (Z * Z * string)) (w : AdminWorld) : AdminWorld := {|
  aw_users := aw_users w; aw_user_tenants := f (aw_user_tenants w); aw_sets := aw_sets w; aw_teams := aw_teams w;
  aw_members := aw_members w; aw_grants := aw_grants w; aw_tenants := aw_tenants w; aw_groups := aw_groups w;
  aw_devices := aw_devices w; aw_closure := aw_closure w; aw_next := aw_next w; aw_effects := aw_effects w |}.
Definition with_sets (f : list SetRow -> list SetRow) (w : AdminWorld) : AdminWorld := {|
  aw_users := aw_users w; aw_user_tenants := aw_user_tenants w; aw_sets := f (aw_sets w); aw_teams := aw_teams w;
  aw_members := aw_members w; aw_grants := aw_grants w; aw_tenants := aw_tenants w; aw_groups := aw_groups w;
  aw_devices := aw_devices w; aw_closure := aw_closure w; aw_next := aw_next w; aw_effects := aw_effects w |}.
(** Teams, their members and their grants. *)
Definition with_teams (teams : list TeamRow) (members : list (Z * Z)) (grants : list GrantRow) (w : AdminWorld) : AdminWorld := {|
  aw_users := aw_users w; aw_user_tenants := aw_user_tenants w; aw_sets := aw_sets w; aw_teams := teams;
  aw_members := members; aw_grants := grants; aw_tenants := aw_tenants w; aw_groups := aw_groups w;
  aw_devices := aw_devices w; aw_closure := aw_closure w; aw_next := aw_next w; aw_effects := aw_effects w |}.
(** The ids of a sequence are never given twice. *)
Definition next_id (w : AdminWorld) : AdminWorld := {|
  aw_users := aw_users w; aw_user_tenants := aw_user_tenants w; aw_sets := aw_sets w; aw_teams := aw_teams w;
  aw_members := aw_members w; aw_grants := aw_grants w; aw_tenants := aw_tenants w; aw_groups := aw_groups w;
  aw_devices := aw_devices w; aw_closure := aw_closure w; aw_next := aw_next w + 1; aw_effects := aw_effects w |}.
Definition emit (e : Effect) (w : AdminWorld) : AdminWorld := {|
  aw_users := aw_users w; aw_user_tenants := aw_user_tenants w; aw_sets := aw_sets w; aw_teams := aw_teams w;
  aw_members := aw_members w; aw_grants := aw_grants w; aw_tenants := aw_tenants w; aw_groups := aw_groups w;
  aw_devices := aw_devices w; aw_closure := aw_closure w; aw_next := aw_next w; aw_effects := e :: aw_effects w |}.

(** ** Actors and roles *)

Record ScopeActor := { sa_user : Z; sa_platform : bool; sa_tenant : Z }.
(** The user and the platform role of the session, the operating tenant. *)
Definition actorFromReq (userId : Z) (role : option string) (tenantId : Z) : ScopeActor :=
  {| sa_user := userId; sa_platform := bool_decide (role = Some "admin"); sa_tenant := tenantId |}.

Definition TENANT_ROLE_DEFAULT : string := "user".
Definition normaliseTenantRole (role : string) : string :=
  let r := trim role in if is_empty r then TENANT_ROLE_DEFAULT else normalizeTenantRole r.

Inductive Caps := Caps_all | Caps_set (set : list string).
Definition find_set (w : AdminWorld) (slug : string) : option SetRow := List.find (fun r => String.eqb (ps_slug r) slug) (aw_sets w).
(** The strings of a stored list of capabilities, given as an array or as its JSON text. *)
Definition parseCaps (raw : js) : list string :=
  match (match raw with JStr s => default (JArr []) (JSON_parse s) | _ => raw end) with
  | JArr l => omap (fun c => match c with JStr s => Some s | _ => None end) l
  | _ => []
  end.
Definition capsOfRole (w : AdminWorld) (role : string) : option Caps :=
  if String.eqb role TENANT_ROLE_ADMIN then Some Caps_all
  else match find_set w role with
       | None => None
       | Some r => Some (Caps_set (expandCapabilities (parseCaps (ps_caps r))))
       end.
(** The stored role of a membership. *)
Definition role_row (w : AdminWorld) (userId tenantId : Z) : option string :=
  option_map snd (List.find (fun r => (fst (fst r) =? userId) && (snd (fst r) =? tenantId)) (aw_user_tenants w)).
Definition membershipRole (w : AdminWorld) (userId tenantId : Z) : option string := option_map normaliseTenantRole (role_row w userId tenantId).

(** ** Domination *)

Definition Refusal : Type := string * string.
Definition MORE_PERMISSIONS : Refusal := ("USER_HAS_MORE_PERMISSIONS", "This user has permissions you do not hold").
Definition FOREIGN_TENANT : Refusal := ("USER_MANAGE_FOREIGN_TENANT", "This user also belongs to a tenant where you cannot manage users").
Definition refusalFor (w : AdminWorld) (actor : ScopeActor) (tenantId : Z) (targetRole : string) : option Refusal :=
  let callerRole := membershipRole w (sa_user actor) tenantId in
  if bool_decide (callerRole = Some TENANT_ROLE_ADMIN) then None
  else if String.eqb targetRole TENANT_ROLE_ADMIN
  then Some ("TENANT_ADMIN_MANAGE_REQUIRES_ADMIN", "Only an administrator of each of this user's tenants can manage a tenant administrator")
  else match match callerRole with Some r => capsOfRole w r | None => None end with
       | Some Caps_all => None
       | None => Some FOREIGN_TENANT
       | Some (Caps_set held) =>
           if negb (existsb (String.eqb "users.manage") held) then Some FOREIGN_TENANT
           else match capsOfRole w targetRole with
                | Some Caps_all => Some MORE_PERMISSIONS
                | Some (Caps_set wanted) => if forallb (fun c => existsb (String.eqb c) held) wanted then None else Some MORE_PERMISSIONS
                | None => None
                end
       end.

Definition valid_id (id : Z) : bool := (0 <? id) && (id <=? max_safe_integer).
Definition memberships (w : AdminWorld) (userId : Z) : list (Z * string) :=
  map (fun r => (snd (fst r), snd r)) (List.filter (fun r => fst (fst r) =? userId) (aw_user_tenants w)).
Definition USER_NOT_FOUND : CodedError := codedError 404 "USER_NOT_FOUND" "User not found".
(** The refusal of the first membership that has one. *)
Fixpoint first_refusal (w : AdminWorld) (actor : ScopeActor) (rows : list (Z * string)) : option Refusal :=
  match rows with
  | [] => None
  | (t, role) :: r => match refusalFor w actor t (normaliseTenantRole role) with Some x => Some x | None => first_refusal w actor r end
  end.
Open Scope err_scope.
Definition assertManageableTarget (w : AdminWorld) (actor : ScopeActor) (targetId : Z) : CodedError + UserRow :=
  require (valid_id targetId) (codedError 400 "USER_ID_INVALID" "Invalid user id") >>
  (target <- some_or (aw_users w !! targetId) USER_NOT_FOUND;;
   if sa_platform actor then inr target
   else
     let rows := memberships w targetId in
     require (existsb (fun r => fst r =? sa_tenant actor) rows) USER_NOT_FOUND >>
     require (negb (String.eqb (us_role target) "admin")) (codedError 403 "ADMIN_PLATFORM_ONLY" "Only a platform administrator can manage an administrator account") >>
     require (is_empty (default "" (us_foreign target))) (codedError 403 "SSO_USER_MANAGED" "SSO accounts are managed in Obligate") >>
     match first_refusal w actor rows with
     | Some (code, message) => inl (codedError 403 code message)
     | None => inr target
     end).
Definition assertReadableTarget (w : AdminWorld) (actor : ScopeActor) (targetId : Z) : CodedError + unit :=
  require (valid_id targetId) (codedError 400 "USER_ID_INVALID" "Invalid user id") >>
  if sa_platform actor || (sa_tenant actor =? MASTER_TENANT_ID) then inr tt
  else require (bool_decide (is_Some (role_row w targetId (sa_tenant actor)))) USER_NOT_FOUND.

Definition unknown_role (role : string) : CodedError :=
  codedError 400 "invalidTenantRole" ("Unknown role '" +:+ role +:+ "': it must be the slug of a permission set").
Definition assertGrantableRole (w : AdminWorld) (actor : ScopeActor) (role : string) : CodedError + unit :=
  if sa_platform actor then inr tt
  else if String.eqb role TENANT_ROLE_ADMIN then
    require (bool_decide (membershipRole w (sa_user actor) (sa_tenant actor) = Some TENANT_ROLE_ADMIN))
      (codedError 403 "TENANT_ADMIN_GRANT_REQUIRES_ADMIN" "Only a tenant administrator can grant the tenant administrator role")
  else
    require (bool_decide (is_Some (find_set w role))) (unknown_role role) >>
    match refusalFor w actor (sa_tenant actor) role with
    | Some _ => inl (codedError 403 "ROLE_EXCEEDS_OWN_PERMISSIONS" "You can only grant a role whose permissions you hold")
    | None => inr tt
    end.

(** The target and its current role in the operating tenant. *)
Definition assertMembershipChange (w : AdminWorld) (actor : ScopeActor) (targetId : Z) (nextRole : option string) : CodedError + (UserRow * option string) :=
  require (negb ((targetId =? sa_user actor) && negb (sa_platform actor))) (codedError 403 "CANNOT_CHANGE_OWN_ACCESS" "You cannot change your own tenant access") >>
  (target <- assertManageableTarget w actor targetId;;
   match nextRole with Some r => assertGrantableRole w actor r | None => inr tt end >>
   inr (target, membershipRole w targetId (sa_tenant actor))).

(** ** The list of memberships to store *)

Definition invalid_assignments (message : string) : CodedError := codedError 400 "TENANT_ASSIGNMENTS_INVALID" message.
Definition ASSIGNMENTS_SHAPE : string := "assignments must be an array of { tenantId, role }".
Fixpoint parse_assignments (seen : list Z) (l : list js) : CodedError + list (Z * string) :=
  match l with
  | [] => inr []
  | a :: r =>
      t <- some_or (match safe_integer (get_field "tenantId" a) with Some z => if 0 <? z then Some z else None | None => None end)
             (invalid_assignments "Invalid tenant id");;
      role <- some_or (match get_field "role" a with JStr s => if is_empty s then None else Some s | _ => None end) (invalid_assignments ASSIGNMENTS_SHAPE);;
      require (negb (mem t seen)) (codedError 400 "TENANT_ASSIGNMENT_DUPLICATE" "Duplicate tenantId in assignments") >>
      (rest <- parse_assignments (t :: seen) r;; inr ((t, normaliseTenantRole role) :: rest))
  end.
Definition resolveTenantAssignments (w : AdminWorld) (actor : ScopeActor) (targetId : Z) (assignments : js) : CodedError + list (Z * string) :=
  wanted <- match assignments with JArr l => parse_assignments [] l | _ => inl (invalid_assignments ASSIGNMENTS_SHAPE) end;;
  if sa_platform actor then inr wanted
  else
    let next := List.find (fun a => fst a =? sa_tenant actor) wanted in
    assertMembershipChange w actor targetId (option_map snd next) >>
    let current := map (fun r => (fst r, normaliseTenantRole (snd r))) (memberships w targetId) in
    let kept := List.filter (fun r => negb (fst r =? sa_tenant actor)) current in
    let same (a : Z * string) := match List.find (fun k => fst k =? fst a) kept with Some k => String.eqb (snd k) (snd a) | None => false end in
    require (forallb (fun a => (fst a =? sa_tenant actor) || same a) wanted) (codedError 403 "TENANT_ACCESS_CURRENT_ONLY" "You can only change access to the current tenant") >>
    inr (kept ++ match next with Some n => [n] | None => [] end).
