(* ===== verification/UserAdmin.v ===== *)
(** * Account and membership operations

    services/userAdmin.service.ts and the writes of user.service.ts behind it, the routes in
    front (users.controller.ts, the member routes of tenant.routes.ts) and
    permissionSet.service.ts. An operation is its checks, then its writes. *)

From S2P Require Import Prelude JsString JsValue JsNumber JsJson Tenancy Access Query UserScope.

Definition Outcome : Type := AdminWorld * (CodedError + unit).
(** Checks that throw before the first write. *)
Definition checked {A} (w : AdminWorld) (c : CodedError + A) (writes : A -> AdminWorld) : Outcome :=
  match c with inl e => (w, inl e) | inr a => (writes a, inr tt) end.
Definition refused (w : AdminWorld) (e : CodedError) : Outcome := (w, inl e).

(** ** Administrators that remain *)

Definition is_active_admin (r : UserRow) : bool := String.eqb (us_role r) "admin" && us_active r.
Definition otherActivePlatformAdmins (w : AdminWorld) (exceptId : Z) : nat :=
  length (List.filter (fun ur => is_active_admin (snd ur) && negb (fst ur =? exceptId)) (map_to_list (aw_users w))).
Definition is_active_user (w : AdminWorld) (u : Z) : bool := match aw_users w !! u with Some r => us_active r | None => false end.
Definition otherActiveTenantAdmins (w : AdminWorld) (tenantId exceptId : Z) : nat :=
  length (List.filter (fun r => (snd (fst r) =? tenantId) && String.eqb (snd r) TENANT_ROLE_ADMIN && is_active_user w (fst (fst r)) && negb (fst (fst r) =? exceptId))
            (aw_user_tenants w)).
Definition adminTenantsOf (w : AdminWorld) (userId : Z) : list Z :=
  map (fun r => snd (fst r)) (List.filter (fun r => (fst (fst r) =? userId) && String.eqb (snd r) TENANT_ROLE_ADMIN) (aw_user_tenants w)).
Definition LAST_TENANT_ADMIN : CodedError := codedError 400 "LAST_TENANT_ADMIN" "Cannot remove the last administrator of this tenant".
Definition assertTenantsKeepAnAdmin (w : AdminWorld) (actor : ScopeActor) (userId : Z) (leaving : list Z) : CodedError + unit :=
  if sa_platform actor then inr tt
  else require (forallb (fun t => negb (otherActiveTenantAdmins w t userId =? 0)%nat) leaving) LAST_TENANT_ADMIN.

(** ** Roles ([permissionSetService.resolveRole]) *)

Definition slug_char (c : ascii) : bool := is_lower c || is_digit c || Ascii.eqb c "_" || Ascii.eqb c "-".
Definition SLUG_RE (s : string) : bool :=
  match s with
  | EmptyString => false
  | String c r => (is_lower c || is_digit c) && str_forall slug_char r && (String.length r <=? 63)%nat
  end.
Definition resolveRole (w : AdminWorld) (raw : js) : CodedError + string :=
  match raw with
  | JStr s =>
      if is_empty s then inl (codedError 400 "invalidTenantRole" "role must be the slug of a permission set")
      else
        let role := normalizeTenantRole s in
        if String.eqb role TENANT_ROLE_ADMIN then inr role
        else require (SLUG_RE role && bool_decide (is_Some (find_set w role))) (unknown_role s) >> inr role
  | _ => inl (codedError 400 "invalidTenantRole" "role must be the slug of a permission set")
  end.
Fixpoint resolve_roles (w : AdminWorld) (l : list (Z * string)) : CodedError + list (Z * string) :=
  match l with
  | [] => inr []
  | (t, role) :: r => role' <- resolveRole w (JStr role);; (rest <- resolve_roles w r;; inr ((t, role') :: rest))
  end.

(** ** Rows ([user.service], [tenant.service]) *)

Definition insert_user (r : UserRow) (w : AdminWorld) : AdminWorld := next_id (with_users <[aw_next w := r]> w).
(** The memberships and the teams go with the account. *)
Definition delete_user (u : Z) (w : AdminWorld) : AdminWorld :=
  with_teams (aw_teams w) (List.filter (fun m => negb (snd m =? u)) (aw_members w)) (aw_grants w)
    (with_user_tenants (List.filter (fun r => negb (fst (fst r) =? u))) (with_users (delete u) w)).
Definition same_key (u t : Z) (r : Z * Z * string) : bool := (fst (fst r) =? u) && (snd (fst r) =? t).
Definition addUser (tenantId userId : Z) (role : string) (w : AdminWorld) : AdminWorld :=
  let role := normalizeTenantRole role in
  with_user_tenants (fun l => if existsb (same_key userId tenantId) l
                              then map (fun r => if same_key userId tenantId r then (userId, tenantId, role) else r) l
                              else l ++ [(userId, tenantId, role)]) w.
Definition removeUser (tenantId userId : Z) (w : AdminWorld) : AdminWorld :=
  with_user_tenants (List.filter (fun r => negb (same_key userId tenantId r))) w.
Definition updateUserRole (tenantId userId : Z) (role : string) (w : AdminWorld) : AdminWorld :=
  let role := normalizeTenantRole role in
  with_user_tenants (map (fun r => if same_key userId tenantId r then (userId, tenantId, role) else r)) w.
Definition setUserTenantAssignments (userId : Z) (assignments : list (Z * string)) (w : AdminWorld) : AdminWorld :=
  with_user_tenants (fun l => List.filter (fun r => negb (fst (fst r) =? userId)) l
                              ++ map (fun a => (userId, fst a, normalizeTenantRole (snd a))) assignments) w.
Definition username_taken (w : AdminWorld) (except : option Z) (name : string) : bool :=
  existsb (fun ur => String.eqb (us_username (snd ur)) name && negb (bool_decide (Some (fst ur) = except))) (map_to_list (aw_users w)).

(** ** Accounts *)

Record CreateUser := { cu_username : string; cu_password : string; cu_display : option string; cu_role : option string; cu_tenantRole : option string }.
Record UpdateUser := { uu_username : option string; uu_display : option (option string); uu_role : option string; uu_active : option bool }.

Definition USERNAME_TAKEN : CodedError := codedError 409 "USERNAME_TAKEN" "Username already exists".
(** The role the new account gets in the operating tenant, if any. *)
Definition create_checks (w : AdminWorld) (actor : ScopeActor) (data : CreateUser) : CodedError + option string :=
  require (negb (bool_decide (cu_role data = Some "admin") && negb (sa_platform actor)))
    (codedError 403 "ADMIN_PLATFORM_ONLY" "Only a platform administrator can create an administrator account") >>
  (tenantRole <- (if bool_decide (is_Some (cu_tenantRole data)) || negb (sa_platform actor) then
                    require (valid_id (sa_tenant actor)) (codedError 400 "NO_TENANT_SELECTED" "No tenant selected") >>
                    (role <- resolveRole w (JStr (normaliseTenantRole (default "" (cu_tenantRole data))));;
                     assertGrantableRole w actor role >> inr (Some role))
                  else inr None);;
   require (negb (username_taken w None (cu_username data))) USERNAME_TAKEN >> inr tenantRole).
Definition createUserAccount (w : AdminWorld) (actor : ScopeActor) (data : CreateUser) : Outcome :=
  match create_checks w actor data with
  | inl e => refused w e
  | inr tenantRole =>
      let u := aw_next w in
      let w1 := insert_user {| us_username := cu_username data; us_display := (match cu_display data with Some s => if is_empty s then None else Some s | None => None end); us_role := default "user" (cu_role data);
                               us_active := true; us_foreign := None |} w in
      match tenantRole with
      | None => (w1, inr tt)
      | Some role =>
          if mem (sa_tenant actor) (aw_tenants w1) then (with_user_tenants (fun l => l ++ [(u, sa_tenant actor, role)]) w1, inr tt)
          else (delete_user u w1, inl (codedError 500 "" "insert or update on table user_tenants violates foreign key constraint"))
      end
  end.

Definition apply_update (data : UpdateUser) (r : UserRow) : UserRow := {|
  us_username := default (us_username r) (uu_username data); us_display := default (us_display r) (uu_display data);
  us_role := default (us_role r) (uu_role data); us_active := default (us_active r) (uu_active data); us_foreign := us_foreign r |}.
Definition changes_role (data : UpdateUser) (r : UserRow) : bool :=
  match uu_role data with Some role => negb (String.eqb role (us_role r)) | None => false end.
Definition LAST_PLATFORM_ADMIN (what : string) : CodedError := codedError 400 "LAST_PLATFORM_ADMIN" what.
Definition update_checks (w : AdminWorld) (actor : ScopeActor) (targetId : Z) (data : UpdateUser) : CodedError + UserRow :=
  scoped <- assertManageableTarget w actor targetId;;
  require (negb (changes_role data scoped && negb (sa_platform actor)))
    (codedError 403 "USER_ROLE_PLATFORM_ONLY" "Only a platform administrator can change a user role") >>
  require (negb (negb (sa_platform actor) && (targetId =? sa_user actor) && bool_decide (uu_active data = Some false)))
    (codedError 400 "CANNOT_DISABLE_SELF" "You cannot disable your own account") >>
  require (negb (bool_decide (us_foreign scoped = Some "obligate") && (bool_decide (is_Some (uu_role data)) || bool_decide (is_Some (uu_active data)))))
    (codedError 400 "SSO_USER_MANAGED" "Cannot modify SSO user - manage from Obligate") >>
  require (negb (match uu_username data with Some n => negb (is_empty (default "" (us_foreign scoped))) && negb (String.eqb n (us_username scoped)) | None => false end))
    (codedError 400 "SSO_USER_MANAGED" "Cannot change username of an SSO user") >>
  require (negb ((bool_decide (uu_role data = Some "user") || bool_decide (uu_active data = Some false)) && is_active_admin scoped
                 && (otherActivePlatformAdmins w targetId =? 0)%nat))
    (LAST_PLATFORM_ADMIN "Cannot remove the last active admin") >>
  (if bool_decide (uu_active data = Some false) && us_active scoped
   then assertTenantsKeepAnAdmin w actor targetId (adminTenantsOf w targetId) else inr tt) >>
  require (negb (match uu_username data with Some n => username_taken w (Some targetId) n | None => false end)) (codedError 409 "" "Username already exists") >>
  inr scoped.
Definition update_writes (targetId : Z) (data : UpdateUser) (scoped : UserRow) (w : AdminWorld) : AdminWorld :=
  let w1 := with_users (alter (apply_update data) targetId) w in
  let user := apply_update data scoped in
  let demoted := String.eqb (us_role scoped) "admin" && negb (String.eqb (us_role user) "admin") in
  emit (if demoted || (us_active scoped && negb (us_active user)) then Eff_sessions targetId else Eff_state targetId) w1.
Definition updateUserAccount (w : AdminWorld) (actor : ScopeActor) (targetId : Z) (data : UpdateUser) : Outcome :=
  checked w (update_checks w actor targetId data) (fun scoped => update_writes targetId data scoped w).

Definition delete_checks (w : AdminWorld) (actor : ScopeActor) (targetId : Z) : CodedError + UserRow :=
  require (negb (targetId =? sa_user actor)) (codedError 400 "CANNOT_DELETE_SELF" "Cannot delete your own account") >>
  (scoped <- assertManageableTarget w actor targetId;;
   require (negb (bool_decide (us_foreign scoped = Some "obligate") && us_active scoped))
     (codedError 400 "SSO_USER_MANAGED" "Cannot delete an active SSO user - manage from Obligate") >>
   require (negb (String.eqb (us_role scoped) "admin" && (otherActivePlatformAdmins w targetId =? 0)%nat)) (LAST_PLATFORM_ADMIN "Cannot delete the last admin") >>
   (if us_active scoped then assertTenantsKeepAnAdmin w actor targetId (adminTenantsOf w targetId) else inr tt) >>
   inr scoped).
Definition delete_writes (targetId : Z) (w : AdminWorld) : AdminWorld := emit (Eff_sessions targetId) (delete_user targetId w).
Definition deleteUserAccount (w : AdminWorld) (actor : ScopeActor) (targetId : Z) : Outcome :=
  checked w (delete_checks w actor targetId) (fun _ => delete_writes targetId w).

(** ** Memberships *)

Definition TENANT_NOT_FOUND : CodedError := codedError 404 "TENANT_NOT_FOUND" "Tenant not found".
Definition tenants_checks (w : AdminWorld) (actor : ScopeActor) (targetId : Z) (assignments : js) : CodedError + list (Z * string) :=
  resolved <- resolveTenantAssignments w actor targetId assignments;;
  require (forallb (fun a => mem (fst a) (aw_tenants w)) resolved) TENANT_NOT_FOUND >>
  (rows <- resolve_roles w resolved;;
   let after := map fst (List.filter (fun r => String.eqb (snd r) TENANT_ROLE_ADMIN) rows) in
   assertTenantsKeepAnAdmin w actor targetId (List.filter (fun t => negb (mem t after)) (adminTenantsOf w targetId)) >> inr rows).
Definition setUserTenants (w : AdminWorld) (actor : ScopeActor) (targetId : Z) (assignments : js) : Outcome :=
  checked w (tenants_checks w actor targetId assignments)
    (fun rows => emit (Eff_membership targetId) (setUserTenantAssignments targetId rows w)).
Definition membership_checks (w : AdminWorld) (actor : ScopeActor) (targetId : Z) (role : option string) : CodedError + unit :=
  tc <- assertMembershipChange w actor targetId role;;
  if bool_decide (snd tc = Some TENANT_ROLE_ADMIN) && negb (bool_decide (role = Some TENANT_ROLE_ADMIN))
  then assertTenantsKeepAnAdmin w actor targetId [sa_tenant actor] else inr tt.
Definition membership_write (tenantId targetId : Z) (role : option string) (w : AdminWorld) : AdminWorld :=
  match role with None => removeUser tenantId targetId w | Some r => addUser tenantId targetId r w end.
Definition setTenantMembership (w : AdminWorld) (actor : ScopeActor) (targetId : Z) (role : option string) : Outcome :=
  if sa_platform actor then refused w (codedError 500 "" "setTenantMembership is the delegated (non platform admin) path")
  else
    checked w (membership_checks w actor targetId role)
      (fun _ => emit (Eff_membership targetId) (membership_write (sa_tenant actor) targetId role w)).

(** ** Permission sets *)

Definition PROTECTED_PERMISSION_SETS : list string := ["admin"; "user"; "viewer"].
Definition isProtectedSlug (slug : string) : bool := existsb (String.eqb slug) PROTECTED_PERMISSION_SETS.
Definition validateName (name : js) : CodedError + string :=
  match name with
  | JStr s => require (negb (is_empty (trim s)) && (String.length (trim s) <=? 64)%nat) (codedError 400 "PERMISSION_SET_NAME_INVALID" "name must be 1-64 characters") >> inr (trim s)
  | _ => inl (codedError 400 "PERMISSION_SET_NAME_INVALID" "name must be 1-64 characters")
  end.
Definition validateSlug (slug : js) : CodedError + string :=
  s <- some_or (match slug with JStr s => if SLUG_RE s then Some s else None | _ => None end)
         (codedError 400 "PERMISSION_SET_SLUG_INVALID" "slug must be 1-64 lowercase letters, digits, - or _");;
  require (negb (String.eqb s "member" || isProtectedSlug s)) (codedError 409 "permissionSetSlugReserved" ("The slug '" +:+ s +:+ "' is reserved")) >> inr s.
Fixpoint known_capabilities (l : list js) : option (list string) :=
  match l with
  | [] => Some []
  | JStr c :: r => match expandCapability c with [] => None | _ => option_map (cons c) (known_capabilities r) end
  | _ :: _ => None
  end.
Definition validateCapabilities (caps : js) : CodedError + list string :=
  match caps with
  | JArr l => cs <- some_or (known_capabilities l) (codedError 400 "unknownCapability" "Unknown capability");; inr (expandCapabilities cs)
  | _ => inl (codedError 400 "FIELD_ARRAY" "capabilities must be an array")
  end.
Definition stored_caps (l : list string) : js := JArr (map JStr l).
Definition slug_taken (w : AdminWorld) (except : option Z) (slug : string) : bool :=
  existsb (fun r => String.eqb (ps_slug r) slug && negb (bool_decide (Some (ps_id r) = except))) (aw_sets w).
Definition SLUG_TAKEN : CodedError := codedError 409 "permissionSetSlugTaken" "A permission set with this slug already exists".
Definition createSet (w : AdminWorld) (name slug capabilities : js) : Outcome :=
  checked w
    (n <- validateName name;; (s <- validateSlug slug;; (c <- validateCapabilities (nullish_or capabilities (JArr []));;
     require (negb (slug_taken w None s)) SLUG_TAKEN >> inr {| ps_id := aw_next w; ps_name := n; ps_slug := s; ps_caps := stored_caps c; ps_default := false |})))
    (fun r => next_id (with_sets (fun l => l ++ [r]) w)).
Definition SET_NOT_FOUND : CodedError := codedError 404 "PERMISSION_SET_NOT_FOUND" "Permission set not found".
Definition set_protected (message : string) : CodedError := codedError 400 "permissionSetProtected" message.
Definition updated_set (w : AdminWorld) (existing : SetRow) (name slug capabilities : js) : CodedError + SetRow :=
  let prot := isProtectedSlug (ps_slug existing) in
  newName <- (if is_undefined name then inr (ps_name existing)
              else n <- validateName name;;
                   require (String.eqb n (ps_name existing) || negb prot) (set_protected "A built-in permission set cannot be renamed") >> inr n);;
  newSlug <- (if is_undefined slug || match slug with JStr s => String.eqb s (ps_slug existing) | _ => false end then inr (ps_slug existing)
              else require (negb prot) (set_protected "A built-in permission set cannot be renamed") >> validateSlug slug);;
  newCaps <- (if is_undefined capabilities then inr (ps_caps existing)
              else caps <- validateCapabilities capabilities;;
                   if String.eqb (ps_slug existing) TENANT_ROLE_ADMIN
                   then require (bool_decide (expandCapabilities (parseCaps (ps_caps existing)) = caps)) (set_protected "The admin permission set always holds every capability") >> inr (ps_caps existing)
                   else inr (stored_caps caps));;
  require (negb (slug_taken w (Some (ps_id existing)) newSlug)) SLUG_TAKEN >>
  inr {| ps_id := ps_id existing; ps_name := newName; ps_slug := newSlug; ps_caps := newCaps; ps_default := ps_default existing |}.
(** The memberships holding a renamed slug move along. *)
Definition rename_role (old new : string) (l : list (Z * Z * string)) : list (Z * Z * string) :=
  map (fun r => if String.eqb (snd r) old then (fst r, new) else r) l.
Definition updateSet (w : AdminWorld) (id : Z) (name slug capabilities : js) : Outcome :=
  checked w
    (existing <- some_or (List.find (fun r => ps_id r =? id) (aw_sets w)) SET_NOT_FOUND;;
     (r <- updated_set w existing name slug capabilities;; inr (existing, r)))
    (fun er => with_user_tenants (rename_role (ps_slug (fst er)) (ps_slug (snd er)))
                 (with_sets (map (fun x => if ps_id x =? id then snd er else x)) w)).
Definition deleteSet (w : AdminWorld) (id : Z) : Outcome :=
  checked w
    (existing <- some_or (List.find (fun r => ps_id r =? id) (aw_sets w)) SET_NOT_FOUND;;
     require (negb (isProtectedSlug (ps_slug existing))) (set_protected "A built-in permission set cannot be deleted") >>
     require (negb (existsb (fun r => String.eqb (snd r) (ps_slug existing)) (aw_user_tenants w)))
       (codedError 409 "permissionSetInUse" "This permission set is the role of tenant memberships"))
    (fun _ => with_sets (List.filter (fun r => negb (ps_id r =? id))) w).

(** ** Routes *)

(** [requireCapability('users.manage')] in the tenant given. *)
Definition INSUFFICIENT : CodedError := codedError 403 "" "Insufficient permissions".
Definition may_manage_users (w : AdminWorld) (actor : ScopeActor) (tenantId : Z) : bool :=
  hasCapability (dir_of w) (sa_user actor) (sa_platform actor) (Some tenantId) "users.manage".
Definition valid_username (s : string) : bool :=
  (3 <=? String.length s)%nat && (String.length s <=? 64)%nat && str_forall (fun c => is_alnum c || Ascii.eqb c "_" || Ascii.eqb c "." || Ascii.eqb c "-") s.
Definition valid_opt {A} (p : A -> bool) (o : option A) : bool := match o with Some a => p a | None => true end.
Definition valid_role (r : string) : bool := String.eqb r "admin" || String.eqb r "user".
Definition valid_display (o : option string) : bool := valid_opt (fun s => (String.length s <=? 128)%nat) o.
Definition createUserSchema (d : CreateUser) : bool :=
  valid_username (cu_username d) && (6 <=? String.length (cu_password d))%nat && (String.length (cu_password d) <=? 128)%nat
  && valid_display (cu_display d) && valid_opt valid_role (cu_role d)
  && valid_opt (fun s => (1 <=? String.length s)%nat && (String.length s <=? 64)%nat) (cu_tenantRole d).
Definition updateUserSchema (d : UpdateUser) : bool :=
  valid_opt valid_username (uu_username d) && valid_opt valid_display (uu_display d) && valid_opt valid_role (uu_role d).
Definition VALIDATION : CodedError := codedError 400 "" "Validation failed".

Inductive Request :=
| Create_user (data : CreateUser)
| Update_user (rawId : string) (data : UpdateUser)
| Delete_user (rawId : string)
| Set_tenants (rawId : string) (assignments : js)
| Member_add (rawTenant : string) (userId role : js)
| Member_role (rawTenant rawUser : string) (role : js)
| Member_remove (rawTenant rawUser : string)
| Set_create (name slug capabilities : js)
| Set_update (rawId : string) (name slug capabilities : js)
| Set_delete (rawId : string).

(** The tenant whose rows the request acts on, for a caller that is not a platform
    administrator. *)
Definition operated (actor : ScopeActor) (q : Request) : option Z :=
  match q with
  | Member_add t _ _ | Member_role t _ _ | Member_remove t _ => positive_safe (str_to_number t)
  | Set_create _ _ _ | Set_update _ _ _ _ | Set_delete _ => None
  | _ => Some (sa_tenant actor)
  end.
Definition delegated (actor : ScopeActor) (tenantId : Z) : ScopeActor := {| sa_user := sa_user actor; sa_platform := sa_platform actor; sa_tenant := tenantId |}.

Definition users_route (w : AdminWorld) (actor : ScopeActor) (k : Outcome) : Outcome :=
  if may_manage_users w actor (sa_tenant actor) then k else refused w INSUFFICIENT.
Definition with_user_id (w : AdminWorld) (rawId : string) (k : Z -> Outcome) : Outcome :=
  match positive_safe (str_to_number rawId) with Some id => k id | None => refused w (codedError 404 "" "User not found") end.
Definition members_route (w : AdminWorld) (actor : ScopeActor) (rawTenant : string) (k : Z -> Outcome) : Outcome :=
  match positive_safe (str_to_number rawTenant) with
  | Some t => if sa_platform actor || may_manage_users w actor t then k t else refused w INSUFFICIENT
  | None => refused w (if sa_platform actor then codedError 400 "" "Invalid id" else INSUFFICIENT)
  end.
Definition with_member_id (w : AdminWorld) (raw : js) (k : Z -> Outcome) : Outcome :=
  match positive_safe (to_number raw) with Some u => k u | None => refused w (codedError 400 "" "Invalid userId") end.
Definition with_role (w : AdminWorld) (raw : js) (k : string -> Outcome) : Outcome :=
  match resolveRole w raw with inr role => k role | inl e => refused w e end.
Definition sets_route (w : AdminWorld) (actor : ScopeActor) (k : Outcome) : Outcome := if sa_platform actor then k else refused w INSUFFICIENT.
Definition with_set_id (w : AdminWorld) (rawId : string) (k : Z -> Outcome) : Outcome :=
  match positive_safe (str_to_number rawId) with Some id => k id | None => refused w (codedError 400 "" "Invalid ID") end.

(** The direct path of a platform administrator. *)
Definition direct (w : AdminWorld) (userId : Z) (f : AdminWorld -> AdminWorld) : Outcome := (emit (Eff_membership userId) (f w), inr tt).
Definition setTenants (w : AdminWorld) (actor : ScopeActor) (id : Z) (assignments : js) : Outcome :=
  if sa_platform actor then
    match aw_users w !! id with
    | None => refused w (codedError 404 "" "User not found")
    | Some r => if bool_decide (us_foreign r = Some "obligate")
                then refused w (codedError 400 "" "Cannot modify SSO user tenant access - manage from Obligate")
                else setUserTenants w actor id assignments
    end
  else setUserTenants w actor id assignments.
Definition memberAdd (w : AdminWorld) (actor : ScopeActor) (t u : Z) (role : string) : Outcome :=
  if negb (mem t (aw_tenants w)) then refused w (codedError 404 "" "Tenant not found")
  else if negb (sa_platform actor) then setTenantMembership w (delegated actor t) u (Some role)
  else match aw_users w !! u with Some _ => direct w u (addUser t u role) | None => refused w (codedError 404 "" "User not found") end.

Definition serve (w : AdminWorld) (actor : ScopeActor) (q : Request) : Outcome :=
  match q with
  | Create_user d => users_route w actor (if createUserSchema d then createUserAccount w actor d else refused w VALIDATION)
  | Update_user raw d => users_route w actor (if updateUserSchema d then with_user_id w raw (fun id => updateUserAccount w actor id d) else refused w VALIDATION)
  | Delete_user raw => users_route w actor (with_user_id w raw (fun id => deleteUserAccount w actor id))
  | Set_tenants raw a => users_route w actor (with_user_id w raw (fun id => setTenants w actor id a))
  | Member_add rt ru r =>
      members_route w actor rt (fun t => with_member_id w ru (fun u =>
        match r with
        | JUndefined => memberAdd w actor t u TENANT_ROLE_DEFAULT
        | _ => with_role w r (memberAdd w actor t u)
        end))
  | Member_role rt ru r =>
      members_route w actor rt (fun t => with_member_id w (JStr ru) (fun u => with_role w r (fun role =>
        if sa_platform actor then direct w u (updateUserRole t u role) else setTenantMembership w (delegated actor t) u (Some role))))
  | Member_remove rt ru =>
      members_route w actor rt (fun t => with_member_id w (JStr ru) (fun u =>
        if sa_platform actor then direct w u (removeUser t u) else setTenantMembership w (delegated actor t) u None))
  | Set_create n s c => sets_route w actor (createSet w n s c)
  | Set_update raw n s c => sets_route w actor (with_set_id w raw (fun id => updateSet w id n s c))
  | Set_delete raw => sets_route w actor (with_set_id w raw (fun id => deleteSet w id))
  end.

(** Requests one after the other, each from its actor. *)
Definition serve_all (w : AdminWorld) (l : list (ScopeActor * Request)) : AdminWorld :=
  fold_left (fun w aq => fst (serve w (fst aq) (snd aq))) l w.
