(* ===== verification/UserRows.v ===== *)
(** * The rows of user administration

    What each write does to the role of an account in a tenant, and the consistency of the
    tables, which every request keeps. *)

From S2P Require Import Prelude JsString JsValue JsNumber JsJson Tenancy Access Query UserScope UserAdmin.

(** ** The role of an account in a tenant *)

Lemma same_key_true u t r : same_key u t r = true <-> fst r = (u, t).
Proof. unfold same_key. destruct r as [[a b] c]. cbn. rewrite andb_true_iff, !Z.eqb_eq. split; [by intros [-> ->]|by intros [= -> ->]]. Qed.

Lemma find_key_app {A} (p : A -> bool) l l' : List.find p (l ++ l') = match List.find p l with Some x => Some x | None => List.find p l' end.
Proof. induction l as [|x l IH]; [done|]. cbn. by destruct (p x). Qed.

Lemma role_row_find w u t : role_row w u t = option_map snd (List.find (same_key u t) (aw_user_tenants w)).
Proof. done. Qed.

Definition role_in (l : list (Z * Z * string)) (u t : Z) : option string := option_map snd (List.find (same_key u t) l).

Lemma role_in_app l l' u t : role_in (l ++ l') u t = match role_in l u t with Some r => Some r | None => role_in l' u t end.
Proof. unfold role_in. rewrite find_key_app. by destruct (List.find _ l). Qed.

Lemma role_in_filter p l u t :
  (forall r, same_key u t r = true -> p r = true) -> role_in (List.filter p l) u t = role_in l u t.
Proof.
  intros Hp. unfold role_in. induction l as [|r l IH]; [done|]. cbn. destruct (same_key u t r) eqn:E; [rewrite (Hp r E); cbn; by rewrite E|].
  destruct (p r); cbn; [by rewrite E|done].
Qed.

Lemma role_in_filtered_out p l u t :
  (forall r, same_key u t r = true -> p r = false) -> role_in (List.filter p l) u t = None.
Proof.
  intros Hp. unfold role_in. induction l as [|r l IH]; [done|]. cbn. destruct (p r) eqn:E; [|done]. cbn.
  destruct (same_key u t r) eqn:E'; [by rewrite (Hp r E') in E|done].
Qed.

Lemma role_in_map f l u t :
  (forall r, fst (f r) = fst r) -> role_in (map f l) u t = option_map (fun r => snd (f r)) (List.find (same_key u t) l).
Proof.
  intros Hf. unfold role_in. induction l as [|r l IH]; [done|]. cbn [map List.find].
  assert (E : same_key u t (f r) = same_key u t r) by (unfold same_key; by rewrite Hf). rewrite E. by destruct (same_key u t r).
Qed.

Lemma same_key_refl u t role : same_key u t (u, t, role) = true.
Proof. by apply same_key_true. Qed.

Lemma role_in_In l u t role : NoDup (map fst l) -> In (u, t, role) l <-> role_in l u t = Some role.
Proof.
  intros Hn. unfold role_in. induction l as [|[[a b] c] l IH]; [done|]. cbn [map] in Hn. apply NoDup_cons in Hn as [Hx Hn].
  cbn [List.find In]. destruct (same_key u t (a, b, c)) eqn:E.
  - apply same_key_true in E as [= -> ->]. cbn. split; [|by intros [= ->]; left]. intros [[= ->]|Hin]; [done|]. exfalso. apply Hx.
    apply list_elem_of_In, (in_map fst _ _ Hin).
  - rewrite <- (IH Hn). split; [|by right]. intros [[= -> -> ->]|]; [|done]. by rewrite same_key_refl in E.
Qed.

Lemma role_in_none l u t : role_in l u t = None <-> ~ In (u, t) (map fst l).
Proof.
  unfold role_in. induction l as [|[[a b] c] l IH]; [cbn; tauto|]. cbn [List.find map In fst]. destruct (same_key u t (a, b, c)) eqn:E.
  - apply same_key_true in E as [= -> ->]. cbn. split; [done|]. intros H. exfalso. apply H. by left.
  - rewrite IH. split; [|tauto]. intros H [[= -> ->]|]; [|done]. by rewrite same_key_refl in E.
Qed.

Lemma role_addUser tenantId userId role w u t :
  role_row (addUser tenantId userId role w) u t
  = if (u =? userId) && (t =? tenantId) then Some (normalizeTenantRole role) else role_row w u t.
Proof.
  rewrite !role_row_find. unfold addUser. cbn [aw_user_tenants with_user_tenants].
  set (l := aw_user_tenants w). fold (role_in l u t).
  set (row := (userId, tenantId, normalizeTenantRole role)). destruct (existsb (same_key userId tenantId) l) eqn:E.
  - fold (role_in (map (fun r => if same_key userId tenantId r then row else r) l) u t). rewrite role_in_map.
    + unfold role_in. destruct (Z.eqb_spec u userId) as [->|Hu]; [destruct (Z.eqb_spec t tenantId) as [->|Ht]|]; cbn [andb].
      * apply existsb_exists in E as (x & Hx & E). destruct (List.find (same_key userId tenantId) l) as [y|] eqn:F; [|by rewrite (find_none _ _ F x Hx) in E].
        cbn. apply find_some in F as [_ F]. by rewrite F.
      * destruct (List.find (same_key userId t) l) as [y|] eqn:F; [|done]. cbn. apply find_some in F as [_ F]. apply same_key_true in F.
        destruct (same_key userId tenantId y) eqn:G; [|done]. apply same_key_true in G. congruence.
      * destruct (List.find (same_key u t) l) as [y|] eqn:F; [|done]. cbn. apply find_some in F as [_ F]. apply same_key_true in F.
        destruct (same_key userId tenantId y) eqn:G; [|done]. apply same_key_true in G. congruence.
    + intros r. destruct (same_key userId tenantId r) eqn:G; [|done]. apply same_key_true in G. by rewrite G.
  - fold (role_in (l ++ [row]) u t). rewrite role_in_app. unfold role_in at 2. cbn [List.find]. unfold row, same_key at 1. cbn [fst snd].
    rewrite (Z.eqb_sym userId), (Z.eqb_sym tenantId). destruct ((u =? userId) && (t =? tenantId)) eqn:G; [|by destruct (role_in l u t)].
    apply andb_true_iff in G as [G1 G2]. apply Z.eqb_eq in G1 as ->. apply Z.eqb_eq in G2 as ->. destruct (role_in l userId tenantId) as [r|] eqn:F; [|done].
    exfalso. unfold role_in in F. destruct (List.find _ l) as [y|] eqn:Y; [|done]. apply find_some in Y as [Y1 Y2].
    rewrite existsb_false_forall in E. by rewrite (E y Y1) in Y2.
Qed.

Lemma role_removeUser tenantId userId w u t :
  role_row (removeUser tenantId userId w) u t = if (u =? userId) && (t =? tenantId) then None else role_row w u t.
Proof.
  rewrite !role_row_find. cbn [removeUser aw_user_tenants with_user_tenants]. destruct ((u =? userId) && (t =? tenantId)) eqn:G.
  - apply andb_true_iff in G as [G1 G2]. apply Z.eqb_eq in G1 as ->. apply Z.eqb_eq in G2 as ->. apply role_in_filtered_out. intros r ->. done.
  - apply role_in_filter. intros r H. destruct (same_key userId tenantId r) eqn:E; [|done]. apply same_key_true in H, E. rewrite H in E. injection E as -> ->.
    by rewrite !Z.eqb_refl in G.
Qed.

Lemma role_delete_user d w u t : role_row (delete_user d w) u t = if u =? d then None else role_row w u t.
Proof.
  rewrite !role_row_find. cbn [delete_user aw_user_tenants with_user_tenants with_teams with_users]. destruct (Z.eqb_spec u d) as [->|E].
  - apply role_in_filtered_out. intros r H. apply same_key_true in H. rewrite H. cbn. by rewrite Z.eqb_refl.
  - apply role_in_filter. intros r H. apply same_key_true in H. rewrite H. cbn. by apply negb_true_iff, Z.eqb_neq.
Qed.

(** The role a list of assignments gives in a tenant. *)
Definition assigned (l : list (Z * string)) (t : Z) : option string :=
  option_map (fun a => normalizeTenantRole (snd a)) (List.find (fun a => fst a =? t) l).

Lemma role_setUserTenantAssignments x l w u t :
  role_row (setUserTenantAssignments x l w) u t = if u =? x then assigned l t else role_row w u t.
Proof.
  rewrite !role_row_find. cbn [setUserTenantAssignments aw_user_tenants with_user_tenants]. rewrite find_key_app.
  pose proof (role_in_filter (fun r => negb (fst (fst r) =? x)) (aw_user_tenants w) u t) as H1.
  pose proof (role_in_filtered_out (fun r => negb (fst (fst r) =? x)) (aw_user_tenants w) u t) as H2. unfold role_in in *.
  set (rows := map (fun a => (x, fst a, normalizeTenantRole (snd a))) l).
  assert (Hr : option_map snd (List.find (same_key u t) rows) = if u =? x then assigned l t else None).
  { unfold rows, assigned. clear. induction l as [|[a r] l IH]; [by destruct (u =? x)|]. cbn [map List.find fst snd]. unfold same_key at 1. cbn [fst snd].
    rewrite (Z.eqb_sym x u). destruct (u =? x) eqn:E; cbn [andb]; [|exact IH]. destruct (a =? t); [done|exact IH]. }
  destruct (Z.eqb_spec u x) as [->|E].
  - rewrite <- Hr. destruct (List.find (same_key x t) (List.filter _ _)) as [y|] eqn:F; [|done]. exfalso. cbn in H2. enough (Some (snd y) = None) by done.
    apply H2. intros r Hk. apply same_key_true in Hk. rewrite Hk. cbn. by rewrite Z.eqb_refl.
  - assert (H : forall r, same_key u t r = true -> negb (fst (fst r) =? x) = true).
    { intros r Hk. apply same_key_true in Hk. rewrite Hk. cbn. by apply negb_true_iff, Z.eqb_neq. }
    specialize (H1 H). destruct (List.find (same_key u t) (List.filter _ _)) as [y|]; [exact H1|]. rewrite <- H1. exact Hr.
Qed.

Lemma role_updateUserRole tenantId userId role w u t :
  role_row (updateUserRole tenantId userId role w) u t
  = if (u =? userId) && (t =? tenantId) then option_map (fun _ => normalizeTenantRole role) (role_row w u t) else role_row w u t.
Proof.
  rewrite !role_row_find. cbn [updateUserRole aw_user_tenants with_user_tenants].
  set (f := fun r => if same_key userId tenantId r then (userId, tenantId, normalizeTenantRole role) else r).
  fold (role_in (map f (aw_user_tenants w)) u t). rewrite role_in_map.
  - destruct (List.find (same_key u t) (aw_user_tenants w)) as [y|] eqn:F; [|by destruct (_ && _)]. cbn. apply find_some in F as [_ F].
    apply same_key_true in F. unfold f, same_key. rewrite F. cbn [fst snd]. by destruct (_ && _).
  - intros r. unfold f. destruct (same_key userId tenantId r) eqn:G; [|done]. apply same_key_true in G. by rewrite G.
Qed.

(** ** Consistency *)

Definition slugs (w : AdminWorld) : list string := map ps_slug (aw_sets w).
(** A stored role: a slug that names a set, ["member"] standing for ["user"]. *)
Definition known_role (w : AdminWorld) (r : string) : Prop :=
  SLUG_RE r = true /\ (r = TENANT_ROLE_ADMIN \/ In (normalizeTenantRole r) (slugs w)).
Record consistent (w : AdminWorld) : Prop := {
  cs_ids u : is_Some (aw_users w !! u) -> u < aw_next w;
  cs_keys : NoDup (map fst (aw_user_tenants w));
  cs_rows u t r : In (u, t, r) (aw_user_tenants w) -> is_Some (aw_users w !! u) /\ In t (aw_tenants w) /\ known_role w r;
  cs_set_ids : NoDup (map ps_id (aw_sets w));
  cs_set_fresh r : In r (aw_sets w) -> ps_id r < aw_next w;
  cs_slugs : NoDup (slugs w);
  cs_slug_form s : In s (slugs w) -> SLUG_RE s = true /\ s <> "member";
  cs_builtin s : In s PROTECTED_PERMISSION_SETS -> In s (slugs w)
}.

Lemma find_set_slug w s : is_Some (find_set w s) <-> In s (slugs w).
Proof.
  unfold find_set, slugs. rewrite in_map_iff. split.
  - intros [r H]. apply find_some in H as [H E]. apply String.eqb_eq in E. by exists r.
  - intros (r & E & H). destruct (List.find _ _) as [x|] eqn:F; [by exists x|]. pose proof (find_none _ _ F r H) as G. cbn in G. by rewrite E, String.eqb_refl in G.
Qed.

(** The two consistent worlds share their sets. *)
Lemma known_role_sets w w' r : aw_sets w' = aw_sets w -> known_role w r -> known_role w' r.
Proof. unfold known_role, slugs. by intros ->. Qed.

(** What changes the memberships only. *)
Lemma consistent_rows w f :
  consistent w -> NoDup (map fst (f (aw_user_tenants w))) ->
  (forall u t r, In (u, t, r) (f (aw_user_tenants w)) -> is_Some (aw_users w !! u) /\ In t (aw_tenants w) /\ known_role w r) ->
  consistent (with_user_tenants f w).
Proof. intros [] Hk Hr. by split. Qed.
Lemma consistent_emit e w : consistent w -> consistent (emit e w).
Proof. intros []. by split. Qed.

Lemma consistent_filter p w : consistent w -> consistent (with_user_tenants (List.filter p) w).
Proof.
  intros H. apply consistent_rows; [done| |].
  - by apply NoDup_map_filter, cs_keys.
  - intros u t r Hin. apply filter_In in Hin as [Hin _]. by apply (cs_rows w H).
Qed.
Lemma consistent_removeUser t u w : consistent w -> consistent (removeUser t u w).
Proof. apply consistent_filter. Qed.

Lemma SLUG_RE_normalize r : SLUG_RE r = true -> SLUG_RE (normalizeTenantRole r) = true.
Proof. intros H. unfold normalizeTenantRole. by destruct (String.eqb r "member"). Qed.
Lemma normalize_idem r : normalizeTenantRole (normalizeTenantRole r) = normalizeTenantRole r.
Proof. unfold normalizeTenantRole. destruct (String.eqb r "member") eqn:E; [done|by rewrite E]. Qed.
Lemma known_role_normalize w r : known_role w r -> known_role w (normalizeTenantRole r).
Proof.
  intros [H1 H2]. split; [by apply SLUG_RE_normalize|]. rewrite normalize_idem. destruct H2 as [->|H2]; [by left|by right].
Qed.

Lemma NoDup_map_same {A B} (f : A -> A) (key : A -> B) l : (forall x, key (f x) = key x) -> NoDup (map key l) -> NoDup (map key (map f l)).
Proof. intros Hf. rewrite map_map. by rewrite (map_ext _ _ Hf). Qed.

Lemma consistent_addUser t u role w :
  consistent w -> is_Some (aw_users w !! u) -> In t (aw_tenants w) -> known_role w role -> consistent (addUser t u role w).
Proof.
  intros H Hu Ht Hr. apply known_role_normalize in Hr. apply consistent_rows; [done| |].
  - destruct (existsb (same_key u t) (aw_user_tenants w)) eqn:E.
    + apply NoDup_map_same; [|by apply cs_keys]. intros r. destruct (same_key u t r) eqn:G; [|done]. apply same_key_true in G. by rewrite G.
    + rewrite map_app. apply NoDup_app. split_and!; [by apply cs_keys| |by apply NoDup_singleton]. intros k Hk. cbn. rewrite list_elem_of_singleton. intros ->.
      apply list_elem_of_In, in_map_iff in Hk as (x & Ex & Hx). rewrite existsb_false_forall in E. specialize (E x Hx).
      by rewrite (proj2 (same_key_true u t x) Ex) in E.
  - intros u' t' r Hin. destruct (existsb _ _).
    + apply in_map_iff in Hin as (x & Ex & Hx). destruct (same_key u t x); [by injection Ex as <- <- <-|]. subst x. by apply (cs_rows w H).
    + apply in_app_or in Hin as [Hin|[[= <- <- <-]|[]]]; [by apply (cs_rows w H)|done].
Qed.
Lemma consistent_updateUserRole t u role w : consistent w -> known_role w role -> consistent (updateUserRole t u role w).
Proof.
  intros H Hr. apply known_role_normalize in Hr. apply consistent_rows; [done| |].
  - apply NoDup_map_same; [|by apply cs_keys]. intros r. destruct (same_key u t r) eqn:G; [|done]. apply same_key_true in G. by rewrite G.
  - intros u' t' r Hin. apply in_map_iff in Hin as (x & Ex & Hx). destruct (same_key u t x) eqn:G.
    + injection Ex as <- <- <-. apply same_key_true in G. destruct x as [k r']. cbn in G. subst k. destruct (cs_rows w H u t r' Hx) as (? & ? & _). done.
    + subst x. by apply (cs_rows w H).
Qed.
Lemma consistent_assignments u l w :
  consistent w -> is_Some (aw_users w !! u) -> NoDup (map fst l) ->
  (forall t r, In (t, r) l -> In t (aw_tenants w) /\ known_role w r) -> consistent (setUserTenantAssignments u l w).
Proof.
  intros H Hu Hn Hl. apply consistent_rows; [done| |].
  - rewrite map_app. apply NoDup_app. split_and!.
    + by apply NoDup_map_filter, cs_keys.
    + intros k Hk Hk'. apply list_elem_of_In, in_map_iff in Hk as (x & <- & Hx). apply filter_In in Hx as [_ Hx].
      apply list_elem_of_In, in_map_iff in Hk' as (y & Ey & Hy). apply in_map_iff in Hy as (a & <- & Ha). cbn in Ey. rewrite <- Ey in Hx. cbn in Hx. by rewrite Z.eqb_refl in Hx.
    + rewrite map_map. cbn. replace (map (fun x => (u, fst x)) l) with (map (pair u) (map fst l)) by by rewrite map_map.
      apply NoDup_fmap_2; [|done]. by intros a b [= ->].
  - intros u' t r Hin. apply in_app_or in Hin as [Hin|Hin].
    + apply filter_In in Hin as [Hin _]. by apply (cs_rows w H).
    + apply in_map_iff in Hin as ([t' r'] & [= <- <- <-] & Ha). destruct (Hl t' r' Ha) as [H1 H2]. split_and!; [done|done|by apply known_role_normalize].
Qed.

Lemma consistent_insert_user r w : consistent w -> consistent (insert_user r w).
Proof.
  intros []. split; try done.
  - intros u [x Hx]. cbn in *. destruct (Z.eq_dec u (aw_next w)) as [->|E]; [lia|]. rewrite lookup_insert_ne in Hx by done.
    pose proof (cs_ids0 u (mk_is_Some _ _ Hx)). lia.
  - intros u t s Hin. cbn in *. destruct (cs_rows0 u t s Hin) as (H1 & H2 & H3). split_and!; [|done|done].
    destruct (Z.eq_dec u (aw_next w)) as [->|E]; [by rewrite lookup_insert_eq|by rewrite lookup_insert_ne].
  - intros x Hx. cbn in *. pose proof (cs_set_fresh0 x Hx). lia.
Qed.
Lemma consistent_delete_user u w : consistent w -> consistent (delete_user u w).
Proof.
  intros []. split; try done.
  - intros x Hx. cbn in *. apply cs_ids0. destruct (Z.eq_dec x u) as [->|E]; [by rewrite lookup_delete_eq in Hx; destruct Hx|by rewrite lookup_delete_ne in Hx].
  - by apply NoDup_map_filter.
  - intros x t r Hin. cbn in *. apply filter_In in Hin as [Hin Hx]. cbn in Hx. boolify. destruct (cs_rows0 x t r Hin) as (H1 & H2 & H3).
    split_and!; [by rewrite lookup_delete_ne|done|done].
Qed.
Lemma consistent_alter_user f u w : consistent w -> consistent (with_users (alter f u) w).
Proof.
  intros []. split; try done.
  - intros x Hx. cbn in *. apply cs_ids0. destruct (Z.eq_dec x u) as [->|E]; [rewrite lookup_alter_eq in Hx|by rewrite lookup_alter_ne in Hx].
    by destruct (aw_users w !! u); [|destruct Hx].
  - intros x t r Hin. cbn in *. destruct (cs_rows0 x t r Hin) as (H1 & H2 & H3). split_and!; [|done|done].
    destruct (Z.eq_dec x u) as [->|E]; [rewrite lookup_alter_eq|by rewrite lookup_alter_ne]. by destruct H1 as [y ->].
Qed.

(** ** Permission sets *)

Lemma slug_taken_false w except s r : slug_taken w except s = false -> In r (aw_sets w) -> ps_slug r = s -> Some (ps_id r) = except.
Proof.
  intros H Hr <-. unfold slug_taken in H. rewrite existsb_false_forall in H. specialize (H r Hr). rewrite String.eqb_refl in H. cbn [andb] in H. by boolify.
Qed.
Lemma validateSlug_ok v s : validateSlug v = inr s -> SLUG_RE s = true /\ s <> "member" /\ isProtectedSlug s = false.
Proof.
  intros H. unfold validateSlug in H. returned H. apply some_or_inr in E. apply require_inr in E0. injection H as ->.
  destruct v; try done. destruct (SLUG_RE s0) eqn:Es; [|done]. injection E as ->. boolify. done.
Qed.

Lemma consistent_add_set r w :
  consistent w -> ps_id r = aw_next w -> SLUG_RE (ps_slug r) = true -> ps_slug r <> "member" -> slug_taken w None (ps_slug r) = false ->
  consistent (next_id (with_sets (fun l => l ++ [r]) w)).
Proof.
  intros [] Hid Hs Hm Ht. split; cbn.
  - intros u Hu. specialize (cs_ids0 u Hu). lia.
  - done.
  - intros u t x Hin. destruct (cs_rows0 u t x Hin) as (H1 & H2 & H3 & H4). split_and!; [done|done|]. split; [done|].
    destruct H4 as [->|H4]; [by left|right]. unfold slugs. cbn. rewrite map_app. apply in_or_app. by left.
  - rewrite map_app. apply NoDup_app. split_and!; [done| |by apply NoDup_singleton]. intros k Hk. cbn. rewrite list_elem_of_singleton. intros ->.
    apply list_elem_of_In, in_map_iff in Hk as (x & Ex & Hx). specialize (cs_set_fresh0 x Hx). lia.
  - intros x Hx. apply in_app_or in Hx as [Hx|[<-|[]]]; [specialize (cs_set_fresh0 x Hx)|]; lia.
  - unfold slugs. cbn. rewrite map_app. apply NoDup_app. split_and!; [done| |by apply NoDup_singleton]. intros k Hk. cbn. rewrite list_elem_of_singleton. intros ->.
    apply list_elem_of_In, in_map_iff in Hk as (x & Ex & Hx). by pose proof (slug_taken_false w None _ x Ht Hx Ex).
  - intros s Hin. unfold slugs in Hin. cbn in Hin. rewrite map_app in Hin. apply in_app_or in Hin as [Hin|[<-|[]]]; [by apply cs_slug_form0|done].
  - intros s Hin. unfold slugs. cbn. rewrite map_app. apply in_or_app. left. by apply cs_builtin0.
Qed.

Lemma NoDup_key {A B} (key : A -> B) l x y : NoDup (map key l) -> In x l -> In y l -> key x = key y -> x = y.
Proof.
  intros Hn. induction l as [|a l IH]; [done|]. cbn in Hn. apply NoDup_cons in Hn as [Ha Hn]. intros [->|Hx] [->|Hy] E; [done| | |by apply IH].
  - exfalso. apply Ha. rewrite E. by apply list_elem_of_In, in_map.
  - exfalso. apply Ha. rewrite <- E. by apply list_elem_of_In, in_map.
Qed.

(** The slugs after one row was replaced. *)
Lemma slugs_replace w e r s :
  NoDup (map ps_id (aw_sets w)) -> In e (aw_sets w) -> ps_id r = ps_id e ->
  In s (map ps_slug (map (fun x => if ps_id x =? ps_id e then r else x) (aw_sets w)))
  <-> s = ps_slug r \/ (s <> ps_slug e /\ In s (slugs w)) \/ (In s (slugs w) /\ exists x, In x (aw_sets w) /\ ps_slug x = s /\ x <> e).
Proof.
  intros Hn He Hr. rewrite map_map, in_map_iff. split.
  - intros (x & <- & Hx). destruct (Z.eqb_spec (ps_id x) (ps_id e)) as [E|E]; [by left|right]. right. split; [by apply in_map|].
    exists x. split_and!; [done|done|]. by intros ->.
  - intros [->|[[Hs Hin]|[_ (x & Hx & <- & Hne)]]].
    + exists e. by rewrite Z.eqb_refl.
    + apply in_map_iff in Hin as (x & <- & Hx). exists x. split; [|done]. destruct (Z.eqb_spec (ps_id x) (ps_id e)) as [E|E]; [|done].
      exfalso. apply Hs. by rewrite (NoDup_key ps_id _ x e Hn Hx He E).
    + exists x. split; [|done]. destruct (Z.eqb_spec (ps_id x) (ps_id e)) as [E|E]; [|done]. exfalso. apply Hne. by apply (NoDup_key ps_id _ x e Hn).
Qed.

Lemma updated_set_ok w e n s c r :
  updated_set w e n s c = inr r ->
  ps_id r = ps_id e /\ slug_taken w (Some (ps_id e)) (ps_slug r) = false
  /\ (ps_slug r = ps_slug e \/ (isProtectedSlug (ps_slug e) = false /\ SLUG_RE (ps_slug r) = true /\ ps_slug r <> "member")).
Proof.
  intros H. unfold updated_set in H. cbv zeta in H. returned H. injection H as <-. cbn [ps_id ps_slug]. apply require_inr in E2. boolify.
  split_and!; [done|done|]. destruct (is_undefined s || _); [left; by injection E0|right]. returned E0. apply require_inr in E3. boolify.
  by apply validateSlug_ok in E0 as (? & ? & _).
Qed.

Lemma consistent_update_set w id e r n s c :
  consistent w -> List.find (fun x => ps_id x =? id) (aw_sets w) = Some e -> updated_set w e n s c = inr r ->
  consistent (with_user_tenants (rename_role (ps_slug e) (ps_slug r)) (with_sets (map (fun x => if ps_id x =? id then r else x)) w)).
Proof.
  intros H He Hu. apply find_some in He as [He Eid]. apply Z.eqb_eq in Eid as <-. apply updated_set_ok in Hu as (Hid & Ht & Hs).
  pose proof (cs_set_ids w H) as Hn. pose proof (fun x => slugs_replace w e r x Hn He Hid) as Hsl.
  assert (Hform : SLUG_RE (ps_slug r) = true /\ ps_slug r <> "member").
  { destruct Hs as [->|(_ & H1 & H2)]; [|done]. by apply (cs_slug_form w H), in_map. }
  assert (Hkeep : forall x, In x (slugs w) -> x <> ps_slug e \/ ps_slug r = ps_slug e ->
                    In x (map ps_slug (map (fun x => if ps_id x =? ps_id e then r else x) (aw_sets w)))).
  { intros x Hx Hor. apply Hsl. destruct (String.eqb_spec x (ps_slug e)) as [->|E]; [|by right; left]. left. by destruct Hor as [|<-]. }
  split; cbn.
  - apply (cs_ids w H).
  - unfold rename_role. apply NoDup_map_same; [|by apply cs_keys]. intros x. by destruct (String.eqb _ _).
  - intros u t x Hin. unfold rename_role in Hin. apply in_map_iff in Hin as ([[u' t'] x'] & Ex & Hin). cbn [fst snd] in Ex.
    destruct (cs_rows w H u' t' x' Hin) as (H1 & H2 & H3 & H4). destruct (String.eqb_spec x' (ps_slug e)) as [E|E].
    + injection Ex as <- <- <-. split_and!; [done|done|]. split; [by apply Hform|right]. unfold slugs. cbn [aw_sets with_user_tenants with_sets].
      apply Hsl. left. unfold normalizeTenantRole. destruct (String.eqb_spec (ps_slug r) "member"); [by destruct Hform|done].
    + injection Ex as <- <- <-. split_and!; [done|done|]. split; [done|]. destruct H4 as [->|H4]; [by left|right]. apply Hkeep; [done|].
      destruct (String.eqb_spec x' "member") as [->|Hm].
      * destruct Hs as [->|(Hp & _)]; [by right|left]. unfold normalizeTenantRole. cbn. intros Eu. by rewrite <- Eu in Hp.
      * left. unfold normalizeTenantRole. by apply String.eqb_neq in Hm as ->.
  - apply NoDup_map_same; [|done]. intros x. destruct (Z.eqb_spec (ps_id x) (ps_id e)) as [E|E]; [by rewrite Hid|done].
  - intros x Hx. apply in_map_iff in Hx as (y & <- & Hy). destruct (_ =? _); [rewrite Hid|]; by apply (cs_set_fresh w H).
  - unfold slugs. cbn. rewrite map_map.
    apply NoDup_fmap_2_strong; [|by apply (NoDup_fmap_1 ps_id)].
    intros x y Hx Hy E. apply list_elem_of_In in Hx, Hy. destruct (Z.eqb_spec (ps_id x) (ps_id e)) as [E1|E1], (Z.eqb_spec (ps_id y) (ps_id e)) as [E2|E2].
    + apply (NoDup_key ps_id _ x y Hn Hx Hy). congruence.
    + exfalso. symmetry in E. pose proof (slug_taken_false w _ _ y Ht Hy E) as G. congruence.
    + exfalso. pose proof (slug_taken_false w _ _ x Ht Hx E) as G. congruence.
    + by apply (NoDup_key ps_slug (aw_sets w) x y (cs_slugs w H)).
  - intros x Hx. unfold slugs in Hx. cbn in Hx. apply Hsl in Hx as [->|[[_ Hx]|[Hx _]]]; [done|by apply (cs_slug_form w H)..].
  - intros x Hx. apply Hkeep; [by apply (cs_builtin w H)|]. destruct Hs as [->|(Hp & _)]; [by right|left]. intros ->.
    unfold isProtectedSlug in Hp. rewrite existsb_false_forall in Hp. specialize (Hp _ Hx). by rewrite String.eqb_refl in Hp.
Qed.

Lemma consistent_delete_set w id e :
  consistent w -> List.find (fun x => ps_id x =? id) (aw_sets w) = Some e -> isProtectedSlug (ps_slug e) = false ->
  existsb (fun r => String.eqb (snd r) (ps_slug e)) (aw_user_tenants w) = false ->
  consistent (with_sets (List.filter (fun r => negb (ps_id r =? id))) w).
Proof.
  intros H He Hp Hu. apply find_some in He as [He Eid]. apply Z.eqb_eq in Eid as <-. pose proof (cs_set_ids w H) as Hn.
  assert (Hkeep : forall x, In x (slugs w) -> x <> ps_slug e -> In x (map ps_slug (List.filter (fun r => negb (ps_id r =? ps_id e)) (aw_sets w)))).
  { intros x Hx Hne. apply in_map_iff in Hx as (y & <- & Hy). apply in_map, filter_In. split; [done|]. apply negb_true_iff, Z.eqb_neq. intros E. apply Hne.
    by rewrite (NoDup_key ps_id _ y e Hn Hy He E). }
  assert (Hprot : forall x, In x PROTECTED_PERMISSION_SETS -> x <> ps_slug e).
  { intros x Hx ->. unfold isProtectedSlug in Hp. rewrite existsb_false_forall in Hp. specialize (Hp _ Hx). by rewrite String.eqb_refl in Hp. }
  destruct H. split; cbn; try done.
  - intros u t x Hin. destruct (cs_rows0 u t x Hin) as (H1 & H2 & H3 & H4). split_and!; [done|done|]. split; [done|].
    destruct H4 as [->|H4]; [by left|right]. apply Hkeep; [done|]. destruct (String.eqb_spec x "member") as [->|Hm].
    + apply Hprot. cbn. tauto.
    + intros Ee. rewrite existsb_false_forall in Hu. specialize (Hu _ Hin). cbn in Hu. unfold normalizeTenantRole in Ee. apply String.eqb_neq in Hm. rewrite Hm in Ee.
      by rewrite Ee, String.eqb_refl in Hu.
  - by apply NoDup_map_filter.
  - intros r Hr. apply filter_In in Hr as [Hr _]. by apply cs_set_fresh0.
  - by apply NoDup_map_filter.
  - intros s Hs. apply in_map_iff in Hs as (y & <- & Hy). apply filter_In in Hy as [Hy _]. by apply cs_slug_form0, in_map.
  - intros s Hs. apply Hkeep; [by apply cs_builtin0|by apply Hprot].
Qed.
