(* ===== verification/UserSafety.v ===== *)
(** * What user administration guarantees

    Every request is one of a few transitions, and the theorems go through them: the tables
    stay consistent, an active platform administrator always remains, a manager who is not
    one never gives away, nor takes over, more than it holds, and never leaves a tenant
    without its administrator. *)

From S2P Require Import Prelude JsString JsValue JsNumber JsJson Tenancy Access Query UserScope UserAdmin UserRows.

(** ** What a passed check says *)

Lemma manageable_ok w actor id r :
  assertManageableTarget w actor id = inr r ->
  aw_users w !! id = Some r
  /\ (sa_platform actor = false ->
      existsb (fun m => fst m =? sa_tenant actor) (memberships w id) = true /\ us_role r <> "admin" /\ is_empty (default "" (us_foreign r)) = true
      /\ first_refusal w actor (memberships w id) = None).
Proof.
  intros H. unfold assertManageableTarget in H. apply sbind_inr in H as (u1 & _ & H). apply sbind_inr in H as (r' & Hr & H). apply some_or_inr in Hr.
  destruct (sa_platform actor).
  - injection H as ->. by split.
  - cbv zeta in H. apply sbind_inr in H as (? & H1 & H). apply sbind_inr in H as (? & H2 & H). apply sbind_inr in H as (? & H3 & H).
    apply require_inr in H1, H2, H3. boolify. destruct (first_refusal _ _ _) as [[c m]|]; [done|]. injection H as ->. split_and!; done.
Qed.

Lemma membership_change_ok w actor id next tc :
  assertMembershipChange w actor id next = inr tc ->
  (sa_platform actor = false -> id <> sa_user actor) /\ assertManageableTarget w actor id = inr (fst tc)
  /\ match next with Some r => assertGrantableRole w actor r = inr tt | None => True end
  /\ snd tc = membershipRole w id (sa_tenant actor).
Proof.
  intros H. unfold assertMembershipChange in H. apply sbind_inr in H as (u1 & H1 & H). apply sbind_inr in H as (r & Hr & H). apply sbind_inr in H as (u2 & H2 & H).
  injection H as <-. apply require_inr in H1. split_and!; [|done|by destruct next, u2|done]. intros Hp. rewrite Hp, andb_true_r in H1. by boolify.
Qed.

(** The memberships a delegated manager stores: those of the other tenants as they are, and
    the one it may give in its own. *)
Lemma assignments_ok w actor id a l :
  resolveTenantAssignments w actor id a = inr l ->
  if sa_platform actor then NoDup (map fst l)
  else exists next tc,
    assertMembershipChange w actor id (option_map snd next) = inr tc
    /\ match next with Some n => fst n = sa_tenant actor | None => True end
    /\ l = List.filter (fun r => negb (fst r =? sa_tenant actor)) (map (fun r => (fst r, normaliseTenantRole (snd r))) (memberships w id))
           ++ match next with Some n => [n] | None => [] end.
Proof.
  intros H. unfold resolveTenantAssignments in H. apply sbind_inr in H as (wanted & Hw & H). destruct (sa_platform actor).
  - injection H as <-. destruct a as [| | | | |l0|]; try done. enough (forall seen, parse_assignments seen l0 = inr wanted -> NoDup (map fst wanted) /\ forall t, In t seen -> ~ In t (map fst wanted)) as G by by apply (G []).
    clear. revert wanted. induction l0 as [|x l IH]; intros wanted seen H; cbn [parse_assignments] in H.
    + injection H as <-. split; [constructor|by intros ? _ []].
    + apply sbind_inr in H as (t & _ & H). apply sbind_inr in H as (role & _ & H). apply sbind_inr in H as (? & Hs & H). apply sbind_inr in H as (rest & Hr & H).
      injection H as <-. apply require_inr in Hs. boolify. destruct (IH rest (t :: seen) Hr) as [H1 H2]. cbn [map fst]. split.
      * constructor; [|done]. intros Hin. apply list_elem_of_In in Hin. apply (H2 t); [by left|done].
      * intros y Hy [->|Hin]; [|by apply (H2 y); [right|]]. apply mem_In in Hy. congruence.
  - cbv zeta in H. apply sbind_inr in H as (tc & Htc & H). apply sbind_inr in H as (? & _ & H). injection H as <-.
    exists (List.find (fun x => fst x =? sa_tenant actor) wanted), tc. split_and!; [done| |done].
    destruct (List.find _ wanted) as [n|] eqn:F; [|done]. apply find_some in F as [_ F]. by apply Z.eqb_eq in F.
Qed.

(** ** Transitions *)

(** What a request did, with the checks that let it. *)
Inductive transition (w : AdminWorld) (actor : ScopeActor) : Request -> AdminWorld -> Prop :=
| T_refused q : transition w actor q w
| T_create d tenantRole : createUserSchema d = true -> create_checks w actor d = inr tenantRole ->
    transition w actor (Create_user d) (fst (createUserAccount w actor d))
| T_update raw id d scoped : updateUserSchema d = true -> update_checks w actor id d = inr scoped ->
    transition w actor (Update_user raw d) (update_writes id d scoped w)
| T_delete raw id scoped : delete_checks w actor id = inr scoped -> transition w actor (Delete_user raw) (delete_writes id w)
| T_tenants raw id a rows : tenants_checks w actor id a = inr rows -> is_Some (aw_users w !! id) ->
    transition w actor (Set_tenants raw a) (emit (Eff_membership id) (setUserTenantAssignments id rows w))
| T_member q t id role : sa_platform actor = false -> operated actor q = Some t -> match role with Some r => known_role w r /\ normalizeTenantRole r = r | None => True end ->
    membership_checks w (delegated actor t) id role = inr tt ->
    transition w actor q (emit (Eff_membership id) (membership_write t id role w))
| T_direct_add q t u role : sa_platform actor = true -> known_role w role -> is_Some (aw_users w !! u) -> In t (aw_tenants w) ->
    transition w actor q (emit (Eff_membership u) (addUser t u role w))
| T_direct_role q t u role : sa_platform actor = true -> known_role w role -> transition w actor q (emit (Eff_membership u) (updateUserRole t u role w))
| T_direct_remove q t u : sa_platform actor = true -> transition w actor q (emit (Eff_membership u) (removeUser t u w))
| T_sets q w' : sa_platform actor = true -> aw_users w' = aw_users w -> (consistent w -> consistent w') -> transition w actor q w'.

Lemma resolveRole_known w v role : consistent w -> resolveRole w v = inr role -> known_role w role /\ normalizeTenantRole role = role.
Proof.
  intros Hc H. unfold resolveRole in H. destruct v as [| | | |s| |]; try done. destruct (is_empty s); [done|]. cbv zeta in H.
  destruct (String.eqb_spec (normalizeTenantRole s) TENANT_ROLE_ADMIN) as [E|E].
  - injection H as <-. rewrite E. split; [|done]. split; [done|by left].
  - returned H. apply require_inr in E0. injection H as <-. boolify. split; [|apply normalize_idem]. split; [done|right].
    rewrite normalize_idem. by apply find_set_slug.
Qed.
Lemma default_role_known w : consistent w -> known_role w TENANT_ROLE_DEFAULT /\ normalizeTenantRole TENANT_ROLE_DEFAULT = TENANT_ROLE_DEFAULT.
Proof. intros H. split; [|done]. split; [done|right]. apply (cs_builtin w H). cbn. tauto. Qed.

Lemma transition_checked {A} w actor q (c : CodedError + A) f :
  (forall a, c = inr a -> transition w actor q (f a)) -> transition w actor q (fst (checked w c f)).
Proof. destruct c as [e|a]; cbn; intros H; [constructor|by apply H]. Qed.

Lemma transition_membership w actor q t id role :
  sa_platform actor = false -> operated actor q = Some t -> match role with Some r => known_role w r /\ normalizeTenantRole r = r | None => True end ->
  transition w actor q (fst (setTenantMembership w (delegated actor t) id role)).
Proof.
  intros Hp Ht Hr. unfold setTenantMembership. cbn [delegated sa_platform sa_tenant]. rewrite Hp. apply transition_checked. intros [] H. by apply T_member.
Qed.
Lemma transition_memberAdd w actor q t u role :
  operated actor q = Some t -> known_role w role /\ normalizeTenantRole role = role -> transition w actor q (fst (memberAdd w actor t u role)).
Proof.
  intros Ht Hr. unfold memberAdd. destruct (mem t (aw_tenants w)) eqn:Em; [|constructor]. cbn [negb]. destruct (sa_platform actor) eqn:Ep; cbn [negb].
  - destruct (aw_users w !! u) eqn:Eu; [|constructor]. apply T_direct_add; [done|by apply Hr|by eexists|by apply mem_In].
  - by apply transition_membership.
Qed.

Lemma transition_sets w actor q :
  (forall n s c, q = Set_create n s c -> transition w actor q (fst (createSet w n s c)))
  /\ (forall raw id n s c, q = Set_update raw n s c -> sa_platform actor = true -> transition w actor q (fst (updateSet w id n s c)))
  /\ (forall raw id, q = Set_delete raw -> sa_platform actor = true -> transition w actor q (fst (deleteSet w id)))
  \/ sa_platform actor = false.
Proof.
  destruct (sa_platform actor) eqn:Hp; [left|by right]. split_and!.
  - intros n s c _. apply transition_checked. intros r H. returned H. apply require_inr in E2. boolify. injection H as <-.
    apply validateSlug_ok in E0 as (H1 & H2 & _). apply T_sets; [done|done|]. intros Hc. by apply consistent_add_set.
  - intros raw id n s c _ _. apply transition_checked. intros [e r] H. returned H. apply some_or_inr in E. injection H as <- <-.
    apply T_sets; [done|done|]. intros Hc. by apply (consistent_update_set w id _ _ n s c).
  - intros raw id _ _. apply transition_checked. intros [] H. returned H. apply some_or_inr in E. apply require_inr in E0, H. boolify.
    apply T_sets; [done|done|]. intros Hc. by apply (consistent_delete_set w id x).
Qed.

Lemma setTenants_transition w actor raw id a : transition w actor (Set_tenants raw a) (fst (setTenants w actor id a)).
Proof.
  assert (H : is_Some (aw_users w !! id) \/ sa_platform actor = false -> transition w actor (Set_tenants raw a) (fst (setUserTenants w actor id a))).
  { intros Hu. apply transition_checked. intros rows H. apply (T_tenants w actor raw id a rows H). destruct Hu as [|Hp]; [done|].
    unfold tenants_checks in H. apply sbind_inr in H as (l & Hl & _). apply assignments_ok in Hl. rewrite Hp in Hl. destruct Hl as (next & tc & Htc & _).
    apply membership_change_ok in Htc as (_ & Hm & _). apply manageable_ok in Hm as [Hm _]. by eexists. }
  unfold setTenants. destruct (sa_platform actor) eqn:Hp; [|by apply H; right]. destruct (aw_users w !! id) as [r|] eqn:Eu; [|constructor].
  case_bool_decide; [constructor|]. apply H. by left.
Qed.

Theorem serve_transition w actor q : consistent w -> transition w actor q (fst (serve w actor q)).
Proof.
  intros Hc. destruct q as [d|raw d|raw|raw a|rt ru r|rt ru r|rt ru|n s c|raw n s c|raw]; cbn [serve].
  - unfold users_route. destruct (may_manage_users _ _ _); [|constructor]. destruct (createUserSchema d) eqn:Es; [|constructor].
    destruct (create_checks w actor d) as [e|role] eqn:E; [|by apply (T_create w actor d role)]. unfold createUserAccount. rewrite E. constructor.
  - unfold users_route, with_user_id. destruct (may_manage_users _ _ _); [|constructor]. destruct (updateUserSchema d) eqn:Es; [|constructor].
    destruct (positive_safe _) as [id|]; [|constructor]. apply transition_checked. intros x H. by apply T_update.
  - unfold users_route, with_user_id. destruct (may_manage_users _ _ _); [|constructor].
    destruct (positive_safe _) as [id|]; [|constructor]. apply transition_checked. intros x H. by apply (T_delete w actor raw id x).
  - unfold users_route, with_user_id. destruct (may_manage_users _ _ _); [|constructor].
    destruct (positive_safe _) as [id|]; [|constructor]. apply setTenants_transition.
  - unfold members_route, with_member_id, with_role. destruct (positive_safe (str_to_number rt)) as [t|] eqn:Et; [|constructor].
    destruct (_ || _); [|constructor]. destruct (positive_safe (to_number ru)) as [u|]; [|constructor].
    assert (Hr : forall v, transition w actor (Member_add rt ru r) (fst (match resolveRole w v with inl e => refused w e | inr role => memberAdd w actor t u role end))).
    { intros v. destruct (resolveRole w v) as [e|role] eqn:E; [constructor|]. apply transition_memberAdd; [done|by apply (resolveRole_known w v)]. }
    destruct r; try apply Hr. apply transition_memberAdd; [done|by apply default_role_known].
  - unfold members_route, with_member_id, with_role. destruct (positive_safe (str_to_number rt)) as [t|] eqn:Et; [|constructor].
    destruct (_ || _); [|constructor]. destruct (positive_safe (to_number _)) as [u|]; [|constructor].
    destruct (resolveRole w r) as [e|role] eqn:E; [constructor|]. pose proof (resolveRole_known w r role Hc E) as Hk. destruct (sa_platform actor) eqn:Hp.
    + apply T_direct_role; [done|apply Hk].
    + by apply transition_membership.
  - unfold members_route, with_member_id. destruct (positive_safe (str_to_number rt)) as [t|] eqn:Et; [|constructor].
    destruct (_ || _); [|constructor]. destruct (positive_safe (to_number _)) as [u|]; [|constructor]. destruct (sa_platform actor) eqn:Hp.
    + by apply T_direct_remove.
    + by apply transition_membership.
  - unfold sets_route. destruct (sa_platform actor) eqn:Hp; [|constructor]. destruct (transition_sets w actor (Set_create n s c)) as [(H & _ & _)|]; [by apply H|congruence].
  - unfold sets_route, with_set_id. destruct (sa_platform actor) eqn:Hp; [|constructor]. destruct (positive_safe _) as [id|]; [|constructor].
    destruct (transition_sets w actor (Set_update raw n s c)) as [(_ & H & _)|]; [by apply (H raw id)|congruence].
  - unfold sets_route, with_set_id. destruct (sa_platform actor) eqn:Hp; [|constructor]. destruct (positive_safe _) as [id|]; [|constructor].
    destruct (transition_sets w actor (Set_delete raw)) as [(_ & _ & H)|]; [by apply (H raw id)|congruence].
Qed.

(** ** The tables stay consistent *)

Lemma memberships_In w u t r : In (t, r) (memberships w u) <-> In (u, t, r) (aw_user_tenants w).
Proof.
  unfold memberships. rewrite in_map_iff. split.
  - intros ([[a b] c] & [= <- <-] & H). apply filter_In in H as [H E]. cbn in E. by apply Z.eqb_eq in E as ->.
  - intros H. exists (u, t, r). split; [done|]. apply filter_In. split; [done|apply Z.eqb_refl].
Qed.
Lemma memberships_NoDup w u : consistent w -> NoDup (map fst (memberships w u)).
Proof.
  intros H. unfold memberships. rewrite map_map. cbn [fst]. pose proof (cs_keys w H) as Hn. induction (aw_user_tenants w) as [|[[a b] c] l IH]; [constructor|].
  cbn [map] in Hn. apply NoDup_cons in Hn as [Hx Hn]. cbn [List.filter fst]. destruct (Z.eqb_spec a u) as [->|E]; [|by apply IH]. cbn [map fst snd]. constructor; [|by apply IH].
  intros Hin. apply Hx. apply list_elem_of_In, in_map_iff in Hin as (y & Ey & Hy). apply filter_In in Hy as [Hy Eu]. apply Z.eqb_eq in Eu.
  apply list_elem_of_In, in_map_iff. exists y. split; [|done]. destruct y as [[y1 y2] y3]. cbn in *. by subst.
Qed.

Lemma resolve_roles_ok w l rows :
  consistent w -> resolve_roles w l = inr rows ->
  map fst rows = map fst l
  /\ forall t r, In (t, r) rows -> known_role w r /\ normalizeTenantRole r = r.
Proof.
  intros Hc. revert rows. induction l as [|[t role] l IH]; intros rows H; cbn [resolve_roles] in H; [by injection H as <-|].
  apply sbind_inr in H as (role' & Hr & H). apply sbind_inr in H as (rest & Hrest & H). injection H as <-. destruct (IH rest Hrest) as [H1 H2].
  split; [cbn; by rewrite H1|]. intros t0 r [[= <- <-]|Hin]; [by apply (resolveRole_known w (JStr role))|by apply (H2 t0)].
Qed.

Lemma tenants_checks_ok w actor id a rows :
  tenants_checks w actor id a = inr rows ->
  exists l, resolveTenantAssignments w actor id a = inr l /\ resolve_roles w l = inr rows /\ (forall t r, In (t, r) l -> In t (aw_tenants w))
    /\ (let after := map fst (List.filter (fun r => String.eqb (snd r) TENANT_ROLE_ADMIN) rows) in
        assertTenantsKeepAnAdmin w actor id (List.filter (fun t => negb (mem t after)) (adminTenantsOf w id)) = inr tt).
Proof.
  intros H. unfold tenants_checks in H. apply sbind_inr in H as (l & Hl & H). apply sbind_inr in H as (? & Ht & H). apply sbind_inr in H as (rows' & Hr & H).
  cbv zeta in H. apply sbind_inr in H as ([] & Hk & H). injection H as ->. exists l. split_and!; [done|done| |done]. apply require_inr in Ht. intros t r Hin.
  rewrite forallb_forall in Ht. apply mem_In. by apply (Ht (t, r)).
Qed.

Lemma resolved_NoDup w actor id a l : consistent w -> resolveTenantAssignments w actor id a = inr l -> NoDup (map fst l).
Proof.
  intros Hc H. apply assignments_ok in H. destruct (sa_platform actor); [done|]. destruct H as (next & tc & _ & Hn & ->). rewrite map_app.
  assert (Hk : NoDup (map fst (map (fun r => (fst r, normaliseTenantRole (snd r))) (memberships w id)))) by (rewrite map_map; by apply memberships_NoDup).
  apply NoDup_app. split_and!; [by apply NoDup_map_filter| |].
  - intros k Hk1 Hk2. destruct next as [n|]; [|by apply not_elem_of_nil in Hk2]. cbn in Hk2. apply list_elem_of_singleton in Hk2 as ->.
    apply list_elem_of_In, in_map_iff in Hk1 as (y & Ey & Hy). apply filter_In in Hy as [_ Hy]. rewrite Ey, Hn, Z.eqb_refl in Hy. done.
  - destruct next; [apply NoDup_singleton|constructor].
Qed.

Lemma append_addUser u t role w :
  role_row w u t = None -> normalizeTenantRole role = role -> with_user_tenants (fun l => l ++ [(u, t, role)]) w = addUser t u role w.
Proof.
  intros Hn Hr. unfold addUser. rewrite Hr. unfold with_user_tenants. f_equal. destruct (existsb (same_key u t) (aw_user_tenants w)) eqn:E; [|done].
  exfalso. apply existsb_exists in E as (x & Hx & E). rewrite role_row_find in Hn. destruct (List.find _ _) as [y|] eqn:F; [done|].
  by rewrite (find_none _ _ F x Hx) in E.
Qed.

Definition new_account (d : CreateUser) : UserRow := {|
  us_username := cu_username d; us_display := (match cu_display d with Some s => if is_empty s then None else Some s | None => None end);
  us_role := default "user" (cu_role d); us_active := true; us_foreign := None |}.
(** A creation inserts the account, then its membership; without the tenant, the account goes again. *)
Lemma create_result w actor d role :
  consistent w -> create_checks w actor d = inr role ->
  let w1 := insert_user (new_account d) w in
  fst (createUserAccount w actor d)
  = match role with
    | None => w1
    | Some r => if mem (sa_tenant actor) (aw_tenants w) then addUser (sa_tenant actor) (aw_next w) r w1 else delete_user (aw_next w) w1
    end
  /\ (forall r, role = Some r -> known_role w r /\ normalizeTenantRole r = r /\ assertGrantableRole w actor r = inr tt)
  /\ (sa_platform actor = false -> cu_role d <> Some "admin").
Proof.
  intros Hc H w1. assert (Hok : (forall r, role = Some r -> known_role w r /\ normalizeTenantRole r = r /\ assertGrantableRole w actor r = inr tt)
    /\ (sa_platform actor = false -> cu_role d <> Some "admin")).
  { unfold create_checks in H. apply sbind_inr in H as (? & H1 & H). apply sbind_inr in H as (tr & H2 & H). apply sbind_inr in H as (? & _ & H). injection H as ->.
    apply require_inr in H1. split.
    - intros r ->. destruct (_ || _); [|done]. apply sbind_inr in H2 as (? & _ & H2). apply sbind_inr in H2 as (r' & Hr & H2). apply sbind_inr in H2 as ([] & Hg & H2).
      injection H2 as ->. destruct (resolveRole_known w _ r Hc Hr). done.
    - intros Hp. rewrite Hp, andb_true_r in H1. by boolify. }
  split; [|done]. unfold createUserAccount. rewrite H. destruct role as [r|]; [|done]. change (aw_tenants (insert_user _ w)) with (aw_tenants w).
  destruct (mem _ _); [|done]. cbn [fst]. rewrite append_addUser; [done| |by apply Hok].
  rewrite role_row_find. change (aw_user_tenants (insert_user _ w)) with (aw_user_tenants w). fold (role_in (aw_user_tenants w) (aw_next w) (sa_tenant actor)).
  apply role_in_none. intros Hin. apply in_map_iff in Hin as ([k r'] & Ek & Hin). cbn in Ek. subst k. destruct (cs_rows w Hc _ _ _ Hin) as (Hu & _).
  pose proof (cs_ids w Hc _ Hu). lia.
Qed.

Lemma member_in_tenant w actor id r : consistent w -> sa_platform actor = false -> assertManageableTarget w actor id = inr r -> In (sa_tenant actor) (aw_tenants w).
Proof.
  intros Hc Hp H. apply manageable_ok in H as [_ H]. destruct (H Hp) as (Hm & _). apply existsb_exists in Hm as ([t role] & Hin & E). cbn in E. apply Z.eqb_eq in E as ->.
  apply memberships_In in Hin. by apply (cs_rows w Hc) in Hin as (_ & ? & _).
Qed.

Lemma membership_checks_ok w actor id role :
  membership_checks w actor id role = inr tt ->
  exists tc, assertMembershipChange w actor id role = inr tc
  /\ (membershipRole w id (sa_tenant actor) = Some TENANT_ROLE_ADMIN -> role <> Some TENANT_ROLE_ADMIN -> assertTenantsKeepAnAdmin w actor id [sa_tenant actor] = inr tt).
Proof.
  intros H. unfold membership_checks in H. apply sbind_inr in H as (tc & Htc & H). exists tc. split; [done|]. intros Hm Hr.
  pose proof (membership_change_ok _ _ _ _ _ Htc) as (_ & _ & _ & E). rewrite E, Hm in H.
  rewrite bool_decide_eq_true_2 in H by done. by rewrite bool_decide_eq_false_2 in H.
Qed.

Lemma transition_consistent w actor q w' : consistent w -> transition w actor q w' -> consistent w'.
Proof.
  intros Hc H. destruct H as [q|d role Hs Hch|raw id d scoped Hs Hch|raw id scoped Hch|raw id a rows Hch Hu|q t id role Hp Ht Hr Hch|q t u role Hp Hr Hu Ht|q t u role Hp Hr|q t u Hp|q w' Hp Hu Hc'].
  - done.
  - destruct (create_result w actor d role Hc Hch) as (-> & Hok & _). assert (H1 : consistent (insert_user (new_account d) w)) by by apply consistent_insert_user.
    destruct role as [r|]; [|done]. destruct (mem _ _) eqn:Em; [|by apply consistent_delete_user]. apply consistent_addUser; [done| |by apply mem_In|].
    + cbn. rewrite lookup_insert_eq. by eexists.
    + apply (known_role_sets w); [done|]. by apply Hok.
  - apply consistent_emit, consistent_alter_user, Hc.
  - by apply consistent_emit, consistent_delete_user.
  - apply consistent_emit. destruct (tenants_checks_ok _ _ _ _ _ Hch) as (l & Hl & Hr & Ht & _). destruct (resolve_roles_ok w l rows Hc Hr) as [E Hk].
    apply consistent_assignments; [done|done| |].
    + rewrite E. by apply (resolved_NoDup w actor id a).
    + intros t r Hin. split; [|by apply (Hk t)]. apply (in_map fst) in Hin. rewrite E in Hin. apply in_map_iff in Hin as ([t' r'] & Et & Hin). cbn in Et. subst t'. by apply (Ht t r').
  - apply consistent_emit. apply membership_checks_ok in Hch as (tc & Htc & _). apply membership_change_ok in Htc as (_ & Hm & _).
    destruct role as [r|]; cbn [membership_write]; [|by apply consistent_removeUser]. apply consistent_addUser; [done| | |by apply Hr].
    + apply manageable_ok in Hm as [Hm _]. by eexists.
    + by apply (member_in_tenant w (delegated actor t) id (fst tc)).
  - by apply consistent_emit, consistent_addUser.
  - by apply consistent_emit, consistent_updateUserRole.
  - by apply consistent_emit, consistent_removeUser.
  - by apply Hc'.
Qed.

Lemma serve_all_consistent w l : consistent w -> consistent (serve_all w l).
Proof.
  unfold serve_all. revert w. induction l as [|[actor q] l IH]; intros w H; [done|]. cbn [fold_left fst snd]. apply IH.
  apply (transition_consistent w actor q); [done|by apply serve_transition].
Qed.

(** ** A platform administrator remains *)

Definition has_admin (w : AdminWorld) : Prop := exists u r, aw_users w !! u = Some r /\ is_active_admin r = true.

Lemma other_admin w id : (otherActivePlatformAdmins w id =? 0)%nat = false -> exists u r, aw_users w !! u = Some r /\ is_active_admin r = true /\ u <> id.
Proof.
  intros H. unfold otherActivePlatformAdmins in H. destruct (List.filter _ _) as [|[u r] l] eqn:F; [done|].
  assert (Hin : In (u, r) ((u, r) :: l)) by by left. rewrite <- F in Hin. apply filter_In in Hin as [Hin E]. cbn in E. boolify.
  exists u, r. split_and!; [|done|done]. apply elem_of_map_to_list. by apply list_elem_of_In.
Qed.

Lemma update_checks_ok w actor id d scoped :
  update_checks w actor id d = inr scoped ->
  assertManageableTarget w actor id = inr scoped
  /\ (sa_platform actor = false -> changes_role d scoped = false)
  /\ (uu_role d = Some "user" \/ uu_active d = Some false -> is_active_admin scoped = true -> (otherActivePlatformAdmins w id =? 0)%nat = false)
  /\ (uu_active d = Some false -> us_active scoped = true -> assertTenantsKeepAnAdmin w actor id (adminTenantsOf w id) = inr tt).
Proof.
  intros H. unfold update_checks in H. apply sbind_inr in H as (r & Hm & H). apply sbind_inr in H as (? & H1 & H). apply sbind_inr in H as (? & _ & H).
  apply sbind_inr in H as (? & _ & H). apply sbind_inr in H as (? & _ & H). apply sbind_inr in H as (? & H2 & H). apply sbind_inr in H as ([] & H3 & H).
  apply sbind_inr in H as (? & _ & H). injection H as ->. apply require_inr in H1, H2. split_and!; [done| | |].
  - intros Hp. rewrite Hp, andb_true_r in H1. by boolify.
  - intros Hc Ha. rewrite Ha, andb_true_r in H2. destruct (_ =? 0)%nat; [|done]. rewrite andb_true_r in H2. apply negb_true_iff, orb_false_iff in H2 as [G1 G2].
    boolify. by destruct Hc.
  - intros E1 E2. rewrite E2, bool_decide_eq_true_2 in H3 by done. exact H3.
Qed.
Lemma delete_checks_ok w actor id scoped :
  delete_checks w actor id = inr scoped ->
  id <> sa_user actor /\ assertManageableTarget w actor id = inr scoped
  /\ (us_role scoped = "admin" -> (otherActivePlatformAdmins w id =? 0)%nat = false)
  /\ (us_active scoped = true -> assertTenantsKeepAnAdmin w actor id (adminTenantsOf w id) = inr tt).
Proof.
  intros H. unfold delete_checks in H. apply sbind_inr in H as (? & H1 & H). apply sbind_inr in H as (r & Hm & H). apply sbind_inr in H as (? & _ & H).
  apply sbind_inr in H as (? & H2 & H). apply sbind_inr in H as ([] & H3 & H). injection H as ->. apply require_inr in H1, H2. boolify.
  split_and!; [done|done| |].
  - intros E. rewrite E in H2. exact H2.
  - intros E. by rewrite E in H3.
Qed.

Lemma updated_admin d r : valid_opt valid_role (uu_role d) = true -> is_active_admin r = true -> uu_role d <> Some "user" -> uu_active d <> Some false ->
  is_active_admin (apply_update d r) = true.
Proof.
  intros Hv Ha Hr Hd. unfold is_active_admin in *. boolify. cbn. destruct (uu_role d) as [role|].
  - cbn in Hv. unfold valid_role in Hv. apply orb_true_iff in Hv as [Hv|Hv]; apply String.eqb_eq in Hv as ->; [|done]. cbn. destruct (uu_active d) as [[]|]; done.
  - cbn. rewrite H. cbn. destruct (uu_active d) as [[]|]; done.
Qed.

Lemma transition_admin w actor q w' : consistent w -> transition w actor q w' -> has_admin w -> has_admin w'.
Proof.
  intros Hc H (u & r & Hu & Ha). assert (Hlt : u <> aw_next w) by (pose proof (cs_ids w Hc u (mk_is_Some _ _ Hu)); lia).
  destruct H as [q|d role Hs Hch|raw id d scoped Hs Hch|raw id scoped Hch|raw id a rows Hch Hx|q t id role Hp Ht Hr Hch|q t x role Hp Hr Hx Ht|q t x role Hp Hr|q t x Hp|q w' Hp Hx Hc'].
  - by exists u, r.
  - destruct (create_result w actor d role Hc Hch) as (-> & _). exists u, r. split; [|done].
    destruct role as [role|]; [destruct (mem _ _)|]; cbn; rewrite ?lookup_delete_ne by done; by rewrite lookup_insert_ne.
  - apply update_checks_ok in Hch as (Hm & _ & Hl & _). apply manageable_ok in Hm as [Hm _]. destruct (Z.eq_dec u id) as [->|E].
    + assert (r = scoped) as -> by congruence. destruct (decide (uu_role d = Some "user" \/ uu_active d = Some false)) as [Hd|Hd].
      * destruct (other_admin w id (Hl Hd Ha)) as (v & s & Hv & Hsa & Hne). exists v, s. split; [|done]. cbn. by rewrite lookup_alter_ne.
      * exists id, (apply_update d scoped). split; [cbn; by rewrite lookup_alter_eq, Hu|]. apply updated_admin; [|done|tauto|tauto].
        unfold updateUserSchema in Hs. by boolify.
    + exists u, r. split; [|done]. cbn. by rewrite lookup_alter_ne.
  - apply delete_checks_ok in Hch as (_ & Hm & Hl & _). apply manageable_ok in Hm as [Hm _]. destruct (Z.eq_dec u id) as [->|E].
    + assert (r = scoped) as -> by congruence. unfold is_active_admin in Ha. boolify.
      destruct (other_admin w id (Hl H)) as (v & s & Hv & Hsa & Hne). exists v, s. split; [|done]. cbn. by rewrite lookup_delete_ne.
    + exists u, r. split; [|done]. cbn. by rewrite lookup_delete_ne.
  - by exists u, r.
  - exists u, r. by destruct role.
  - by exists u, r.
  - by exists u, r.
  - by exists u, r.
  - exists u, r. by rewrite Hx.
Qed.

(** C18. Whatever requests are served, by whomever, the tables stay consistent (fresh ids, one
    role per account and tenant, every stored role known, the built-in sets present) and an
    instance that has an active platform administrator keeps one. *)
Theorem admin_remains w l (Hc : consistent w) (Ha : has_admin w) : consistent (serve_all w l) /\ has_admin (serve_all w l).
Proof.
  unfold serve_all. revert w Hc Ha. induction l as [|[actor q] l IH]; intros w Hc Ha; [done|]. cbn [fold_left fst snd]. pose proof (serve_transition w actor q Hc) as Ht.
  apply IH; [by apply (transition_consistent w actor q)|by apply (transition_admin w actor q)].
Qed.

(** ** A tenant keeps its administrator *)

Definition tenant_has_admin (w : AdminWorld) (t : Z) : Prop := exists u, role_row w u t = Some TENANT_ROLE_ADMIN /\ is_active_user w u = true.

Lemma role_row_In w u t r : consistent w -> In (u, t, r) (aw_user_tenants w) <-> role_row w u t = Some r.
Proof. intros H. apply role_in_In, H. Qed.

Lemma adminTenantsOf_In w u t : consistent w -> In t (adminTenantsOf w u) <-> role_row w u t = Some TENANT_ROLE_ADMIN.
Proof.
  intros H. unfold adminTenantsOf. rewrite in_map_iff, <- (role_row_In w u t _ H). split.
  - intros ([[a b] c] & <- & Hin). apply filter_In in Hin as [Hin E]. cbn in *. boolify. by subst.
  - intros Hin. exists (u, t, TENANT_ROLE_ADMIN). split; [done|]. apply filter_In. split; [done|]. cbn. by rewrite Z.eqb_refl.
Qed.

Lemma other_tenant_admin w actor u leaving t :
  consistent w -> sa_platform actor = false -> assertTenantsKeepAnAdmin w actor u leaving = inr tt -> In t leaving ->
  exists v, role_row w v t = Some TENANT_ROLE_ADMIN /\ is_active_user w v = true /\ v <> u.
Proof.
  intros Hc Hp H Ht. unfold assertTenantsKeepAnAdmin in H. rewrite Hp in H. apply require_inr in H. rewrite forallb_forall in H. specialize (H t Ht). boolify.
  unfold otherActiveTenantAdmins in H. destruct (List.filter _ _) as [|[[v t'] r] l] eqn:F; [done|].
  assert (Hin : In (v, t', r) ((v, t', r) :: l)) by by left. rewrite <- F in Hin. apply filter_In in Hin as [Hin E]. cbn in E. boolify. subst.
  exists v. split_and!; [by apply role_row_In|done|done].
Qed.

Lemma known_role_normalise w r : known_role w r -> normaliseTenantRole r = normalizeTenantRole r.
Proof.
  intros [H _]. unfold normaliseTenantRole. enough (E : trim r = r) by (rewrite E; destruct r; [done|by cbn]).
  apply trim_id. unfold SLUG_RE in H. destruct r as [|c r]; [done|]. boolify.
  assert (G : forall s, str_forall slug_char s = true -> str_exists is_ws s = false).
  { clear. induction s as [|x s IH]; [done|]. cbn. intros H. boolify. rewrite IH by done. rewrite orb_false_r.
    revert H. destruct x as [[] [] [] [] [] [] [] []]; by vm_compute. }
  cbn [str_exists]. rewrite G by done. rewrite orb_false_r. revert H. destruct c as [[] [] [] [] [] [] [] []]; by vm_compute.
Qed.
Lemma membershipRole_role w u t : consistent w -> membershipRole w u t = option_map normalizeTenantRole (role_row w u t).
Proof.
  intros Hc. unfold membershipRole. destruct (role_row w u t) as [r|] eqn:E; [|done]. cbn. f_equal. apply (known_role_normalise w).
  apply role_row_In in E; [|done]. by apply (cs_rows w Hc) in E as (_ & _ & ?).
Qed.

Lemma find_assigned l t r : NoDup (map fst l) -> In (t, r) l -> assigned l t = Some (normalizeTenantRole r).
Proof.
  intros Hn Hin. unfold assigned. destruct (List.find _ l) as [a|] eqn:F.
  - apply find_some in F as [Fa Ft]. apply Z.eqb_eq in Ft. by rewrite (NoDup_key fst l a (t, r) Hn Fa Hin Ft).
  - pose proof (find_none _ _ F _ Hin) as G. cbn in G. by rewrite Z.eqb_refl in G.
Qed.
Lemma find_unassigned l t : ~ In t (map fst l) -> assigned l t = None.
Proof.
  intros H. unfold assigned. destruct (List.find _ l) as [a|] eqn:F; [|done]. apply find_some in F as [Fa Ft]. apply Z.eqb_eq in Ft. destruct H. subst t. by apply in_map.
Qed.
Lemma resolve_roles_map w l rows : resolve_roles w l = inr rows -> rows = map (fun a => (fst a, normalizeTenantRole (snd a))) l.
Proof.
  revert rows. induction l as [|[t role] l IH]; intros rows H; cbn [resolve_roles] in H; [by injection H as <-|].
  apply sbind_inr in H as (role' & Hr & H). apply sbind_inr in H as (rest & Hrest & H). injection H as <-. rewrite (IH rest Hrest). cbn. f_equal. f_equal.
  unfold resolveRole in Hr. destruct (is_empty role); [done|]. cbv zeta in Hr. destruct (String.eqb _ _); [by injection Hr|]. apply sbind_inr in Hr as (? & _ & Hr). by injection Hr.
Qed.
Lemma resolve_roles_assigned w l rows t : resolve_roles w l = inr rows -> assigned rows t = assigned l t.
Proof.
  intros H. rewrite (resolve_roles_map w l rows H). unfold assigned. clear. induction l as [|[a r] l IH]; [done|]. cbn. destruct (a =? t); [cbn; by rewrite normalize_idem|exact IH].
Qed.

Lemma role_membership_write t' id role w u t :
  role_row (membership_write t' id role w) u t = if (u =? id) && (t =? t') then option_map normalizeTenantRole role else role_row w u t.
Proof. destruct role as [r|]; cbn [membership_write option_map]; [apply role_addUser|apply role_removeUser]. Qed.

Lemma active_user_fresh w u : consistent w -> is_active_user w u = true -> u <> aw_next w.
Proof.
  intros Hc H. unfold is_active_user in H. destruct (aw_users w !! u) eqn:E; [|done]. pose proof (cs_ids w Hc u (mk_is_Some _ _ E)). lia.
Qed.

Section Keeps.
Context (w : AdminWorld) (actor : ScopeActor) (t : Z) (Hc : consistent w) (Hp : sa_platform actor = false).

Lemma tenant_keeps_create d role : create_checks w actor d = inr role -> tenant_has_admin w t -> tenant_has_admin (fst (createUserAccount w actor d)) t.
Proof.
  intros Hch (u & Hu & Ha). destruct (create_result w actor d role Hc Hch) as (-> & _). pose proof (active_user_fresh w u Hc Ha) as Hlt.
  exists u. unfold is_active_user in *. apply Z.eqb_neq in Hlt as Hlt'.
  destruct role as [role|]; [destruct (mem _ _)|]; rewrite ?role_addUser, ?role_delete_user, ?Hlt'; cbn [andb]; (split; [done|]);
    cbn; rewrite ?lookup_delete_ne by done; by rewrite lookup_insert_ne.
Qed.

Lemma tenant_keeps_update id d scoped : update_checks w actor id d = inr scoped -> tenant_has_admin w t -> tenant_has_admin (update_writes id d scoped w) t.
Proof.
  intros Hch (u & Hu & Ha). apply update_checks_ok in Hch as (Hm & _ & _ & Hk). apply manageable_ok in Hm as [Hm _].
  assert (Hsame : forall v, v <> id -> is_active_user (update_writes id d scoped w) v = is_active_user w v).
  { intros v Hv. unfold is_active_user. cbn. by rewrite lookup_alter_ne. }
  destruct (Z.eq_dec u id) as [->|E]; [|by exists u; rewrite Hsame]. unfold is_active_user in Ha. rewrite Hm in Ha.
  destruct (decide (uu_active d = Some false)) as [Hd|Hd].
  - destruct (other_tenant_admin w actor id _ t Hc Hp (Hk Hd Ha)) as (v & Hv & Hva & Hne); [by apply adminTenantsOf_In|]. exists v. by rewrite Hsame.
  - exists id. split; [done|]. unfold is_active_user. cbn. rewrite lookup_alter_eq, Hm. cbn. rewrite Ha. by destruct (uu_active d) as [[]|].
Qed.

Lemma tenant_keeps_delete id scoped : delete_checks w actor id = inr scoped -> tenant_has_admin w t -> tenant_has_admin (delete_writes id w) t.
Proof.
  intros Hch (u & Hu & Ha). apply delete_checks_ok in Hch as (_ & Hm & _ & Hk). apply manageable_ok in Hm as [Hm _].
  assert (Hsame : forall v, v <> id -> role_row (delete_writes id w) v t = role_row w v t /\ is_active_user (delete_writes id w) v = is_active_user w v).
  { intros v Hv. apply Z.eqb_neq in Hv as Hv'. unfold is_active_user. split; [|cbn; by rewrite lookup_delete_ne].
    change (role_row (delete_user id w) v t = role_row w v t). by rewrite role_delete_user, Hv'. }
  destruct (Z.eq_dec u id) as [->|E]; [|exists u; by destruct (Hsame u E) as [-> ->]]. unfold is_active_user in Ha. rewrite Hm in Ha.
  destruct (other_tenant_admin w actor id _ t Hc Hp (Hk Ha)) as (v & Hv & Hva & Hne); [by apply adminTenantsOf_In|]. exists v. by destruct (Hsame v Hne) as [-> ->].
Qed.

Lemma tenant_keeps_tenants id a rows : tenants_checks w actor id a = inr rows -> tenant_has_admin w t -> tenant_has_admin (setUserTenantAssignments id rows w) t.
Proof.
  intros Hch (u & Hu & Ha). destruct (tenants_checks_ok _ _ _ _ _ Hch) as (l & Hl & Hr & _ & Hk). destruct (resolve_roles_ok w l rows Hc Hr) as [Ef _].
  pose proof (resolved_NoDup w actor id a l Hc Hl) as Hn. rewrite <- Ef in Hn.
  destruct (Z.eqb_spec u id) as [->|E]; [|exists u; rewrite role_setUserTenantAssignments; by apply Z.eqb_neq in E as ->].
  cbv zeta in Hk. set (after := map fst (List.filter _ rows)) in Hk. destruct (mem t after) eqn:Em.
  - exists id. rewrite role_setUserTenantAssignments, Z.eqb_refl. split; [|done]. apply mem_In, in_map_iff in Em as ([t0 r] & Et & Hin). cbn in Et. subst t0.
    apply filter_In in Hin as [Hin E]. cbn in E. apply String.eqb_eq in E as ->. by rewrite (find_assigned rows t TENANT_ROLE_ADMIN).
  - destruct (other_tenant_admin w actor id _ t Hc Hp Hk) as (v & Hv & Hva & Hne).
    + apply filter_In. split; [by apply adminTenantsOf_In|by rewrite Em].
    + exists v. rewrite role_setUserTenantAssignments. by apply Z.eqb_neq in Hne as ->.
Qed.

Lemma tenant_keeps_member t' id role :
  membership_checks w (delegated actor t') id role = inr tt -> tenant_has_admin w t -> tenant_has_admin (membership_write t' id role w) t.
Proof.
  intros Hch (u & Hu & Ha). apply membership_checks_ok in Hch as (tc & _ & Hk). cbn [delegated sa_tenant] in Hk.
  assert (Hact : forall v, is_active_user (membership_write t' id role w) v = is_active_user w v) by by destruct role.
  destruct ((u =? id) && (t =? t')) eqn:E; [|exists u; by rewrite role_membership_write, E, Hact].
  apply andb_true_iff in E as [E1 E2]. apply Z.eqb_eq in E1 as ->. apply Z.eqb_eq in E2 as ->.
  destruct (decide (role = Some TENANT_ROLE_ADMIN)) as [->|Hd]; [exists id; by rewrite role_membership_write, !Z.eqb_refl, Hact|].
  destruct (other_tenant_admin w (delegated actor t') id [t'] t' Hc Hp) as (v & Hv & Hva & Hne); [|by left|].
  - apply Hk; [|done]. by rewrite (membershipRole_role w id t' Hc), Hu.
  - exists v. rewrite role_membership_write, Hact. apply Z.eqb_neq in Hne as ->. by cbn.
Qed.
End Keeps.

(** C19. A manager who is not a platform administrator never leaves a tenant without an active
    administrator, by disabling or deleting an account, or by changing its memberships. *)
Theorem tenant_keeps_admin w actor q t
    (Hc : consistent w) (Hp : sa_platform actor = false) (Ht : tenant_has_admin w t) : tenant_has_admin (fst (serve w actor q)) t.
Proof.
  pose proof (serve_transition w actor q Hc) as H. revert H. generalize (fst (serve w actor q)). intros w' H.
  destruct H as [q|d role Hs Hch|raw id d scoped Hs Hch|raw id scoped Hch|raw id a rows Hch Hx|q t' id role _ _ _ Hch|q t' x role Hp'|q t' x role Hp'|q t' x Hp'|q w' Hp'];
    try congruence.
  - by apply (tenant_keeps_create w actor t Hc d role).
  - by apply (tenant_keeps_update w actor t Hc Hp id d scoped).
  - by apply (tenant_keeps_delete w actor t Hc Hp id scoped).
  - by apply (tenant_keeps_tenants w actor t Hc Hp id a rows).
  - by apply (tenant_keeps_member w actor t Hc Hp t' id role).
Qed.

(** ** A sample instance *)

Definition account (name role : string) : UserRow := {| us_username := name; us_display := None; us_role := role; us_active := true; us_foreign := None |}.
Definition a_set (id : Z) (slug : string) (capabilities : list string) : SetRow :=
  {| ps_id := id; ps_name := slug; ps_slug := slug; ps_caps := stored_caps capabilities; ps_default := bool_decide (id <= 3) |}.
Definition a_team (id tenant : Z) : TeamRow := {| tm_team := {| team_id := id; team_tenant := tenant; team_can_create := false |}; tm_name := "team"; tm_description := None |}.
Definition an_agent (id : Z) : Device := {| dev_id := id; dev_uuid := "agent-000" +:+ dec id; dev_tenant := 3; dev_status := "approved"; dev_type := None; dev_group := None |}.
(** Platform administrators 1 and 2; in tenant 3 the administrator 9, the help desk 7, whose
    team only reads agent 1, and the user 8, whose team writes agent 2. *)
Definition sample_admin : AdminWorld := {|
  aw_users := {[ 1 := account "root" "admin"; 2 := account "deputy" "admin"; 7 := account "helpdesk" "user"; 8 := account "operator" "user"; 9 := account "boss" "user" ]};
  aw_user_tenants := [(7, 3, "helpdesk"); (8, 3, "user"); (9, 3, "admin")];
  aw_sets := [a_set 1 "admin" []; a_set 2 "user" ["ips.view"]; a_set 3 "viewer" []; a_set 4 "helpdesk" ["ips.view"; "agents.manage"; "users.manage"]];
  aw_teams := [a_team 5 3; a_team 6 3]; aw_members := [(5, 7); (6, 8)];
  aw_grants := [{| gw_id := 1; gw_grant := {| gr_team := 5; gr_scope := "agent"; gr_scope_id := 1; gr_level := RO |} |};
                {| gw_id := 2; gw_grant := {| gr_team := 6; gr_scope := "agent"; gr_scope_id := 2; gr_level := RW |} |}];
  aw_tenants := [1; 3]; aw_groups := []; aw_devices := [an_agent 1; an_agent 2]; aw_closure := []; aw_next := 10; aw_effects := [] |}.
Definition helpdesk : ScopeActor := {| sa_user := 7; sa_platform := false; sa_tenant := 3 |}.
Definition new_colleague : CreateUser := {| cu_username := "colleague"; cu_password := "secret1"; cu_display := None; cu_role := None; cu_tenantRole := Some "helpdesk" |}.

Lemma sample_admin_consistent : consistent sample_admin.
Proof.
  split.
  - intros u Hu. change (u < 10). unfold sample_admin in Hu. cbn in Hu. rewrite !lookup_insert_is_Some, lookup_singleton_is_Some in Hu. lia.
  - apply (bool_decide_unpack _). by vm_compute.
  - intros u t r Hin. cbn in Hin. destruct Hin as [[= <- <- <-]|[[= <- <- <-]|[[= <- <- <-]|[]]]]; (split; [by eexists|split; [cbn; tauto|]]);
      (split; [done|]); [right|right|left]; cbn; tauto.
  - apply (bool_decide_unpack _). by vm_compute.
  - intros r Hr. change (ps_id r < 10). cbn in Hr. destruct Hr as [<-|[<-|[<-|[<-|[]]]]]; cbn; lia.
  - apply (bool_decide_unpack _). by vm_compute.
  - intros s Hs. cbn in Hs. destruct Hs as [<-|[<-|[<-|[<-|[]]]]]; done.
  - intros s Hs. cbn in Hs |- *. tauto.
Qed.
Lemma sample_admin_has_admin : has_admin sample_admin.
Proof. by exists 1, (account "root" "admin"). Qed.

Lemma admin_remains_witness : has_admin (serve_all sample_admin [({| sa_user := 1; sa_platform := true; sa_tenant := 1 |}, Delete_user "2"); (helpdesk, Delete_user "1")]).
Proof. apply (admin_remains sample_admin _ sample_admin_consistent sample_admin_has_admin). Defined.
Lemma tenant_keeps_admin_witness : tenant_has_admin (fst (serve sample_admin helpdesk (Delete_user "8"))) 3.
Proof.
  apply (tenant_keeps_admin sample_admin helpdesk (Delete_user "8") 3 sample_admin_consistent eq_refl). by exists 9.
Defined.
