(* ===== verification/UserRights.v ===== *)
(** * What a delegated manager can give and take

    Against the rights of [Access]: a manager who is not a platform administrator only acts
    on accounts it dominates and only gives roles it dominates. *)

From S2P Require Import Prelude JsString JsValue JsNumber JsJson Tenancy Access Query UserScope UserAdmin UserRows UserSafety.

(** ** Roles and capabilities *)

Definition tenant_role (w : AdminWorld) (u t : Z) : option string := getTenantRole (dir_of w) u t.
Definition caps (w : AdminWorld) (u t : Z) : list string := getTenantCapabilities (dir_of w) u false (Some t).
Definition role_caps (w : AdminWorld) (role : string) : list string := getRoleCapabilities (dir_of w) role.

Lemma tenant_role_row w u t : tenant_role w u t = option_map normalizeTenantRole (role_row w u t).
Proof. unfold tenant_role, getTenantRole, role_row. cbn [dir_of d_user_tenants]. by destruct (List.find _ _) as [[? ?]|]. Qed.
Lemma caps_role w u t : caps w u t = match tenant_role w u t with Some r => role_caps w r | None => [] end.
Proof. done. Qed.
Lemma role_caps_sets w w' r : aw_sets w' = aw_sets w -> role_caps w' r = role_caps w r.
Proof. unfold role_caps, getRoleCapabilities. cbn [dir_of d_permission_sets]. by intros ->. Qed.

Lemma expand_catalogue l c : In c (expandCapabilities l) -> In c TENANT_CAPABILITY_KEYS.
Proof. unfold expandCapabilities. intros H. by apply filter_In in H as [H _]. Qed.
Lemma find_set_dir w s :
  List.find (fun r : string * js => String.eqb (fst r) s) (d_permission_sets (dir_of w)) = option_map (fun r => (ps_slug r, ps_caps r)) (find_set w s).
Proof.
  unfold find_set. cbn [dir_of d_permission_sets]. induction (aw_sets w) as [|x l IH]; [done|]. cbn. by destruct (String.eqb (ps_slug x) s).
Qed.
(** The capabilities the scope rules compare are those of [permissionService]. *)
Lemma capsOfRole_caps w r : normalizeTenantRole r = r ->
  role_caps w r = match capsOfRole w r with None => [] | Some Caps_all => TENANT_CAPABILITY_KEYS | Some (Caps_set l) => l end.
Proof.
  intros Hr. unfold role_caps, getRoleCapabilities, capsOfRole. cbv zeta. rewrite Hr. destruct (String.eqb r TENANT_ROLE_ADMIN); [done|].
  rewrite find_set_dir. destruct (find_set w r) as [x|]; [|done]. cbn [option_map]. unfold parseCaps.
  destruct (match ps_caps x with JStr s => _ | _ => _ end); try done.
Qed.
Lemma role_caps_catalogue w r c : In c (role_caps w r) -> In c TENANT_CAPABILITY_KEYS.
Proof.
  unfold role_caps, getRoleCapabilities. cbv zeta. destruct (String.eqb _ _); [done|]. destruct (List.find _ _) as [[s raw]|]; [|done].
  destruct (match raw with JStr s => _ | _ => _ end); try done. apply expand_catalogue.
Qed.

(** ** Domination *)

(** [actor] has at least the role [role] in tenant [t]. *)
Definition dominates (w : AdminWorld) (actor t : Z) (role : string) : Prop :=
  (role = TENANT_ROLE_ADMIN -> tenant_role w actor t = Some TENANT_ROLE_ADMIN) /\ forall c, In c (role_caps w role) -> In c (caps w actor t).

Lemma membershipRole_tenant_role w u t : consistent w -> membershipRole w u t = tenant_role w u t.
Proof. intros H. by rewrite tenant_role_row, membershipRole_role. Qed.
Lemma admin_dominates w actor t role : tenant_role w actor t = Some TENANT_ROLE_ADMIN -> dominates w actor t role.
Proof. intros H. split; [done|]. intros c Hin. rewrite caps_role, H. by apply role_caps_catalogue in Hin. Qed.

Lemma no_refusal_dominates w actor t role :
  consistent w -> normalizeTenantRole role = role -> refusalFor w actor t role = None -> dominates w (sa_user actor) t role.
Proof.
  intros Hc Hr H. unfold refusalFor in H. cbv zeta in H. rewrite (membershipRole_tenant_role w _ _ Hc) in H.
  case_bool_decide as Ha; [by apply admin_dominates|]. destruct (String.eqb_spec role TENANT_ROLE_ADMIN) as [|Hna]; [done|].
  assert (E : caps w (sa_user actor) t = match tenant_role w (sa_user actor) t with Some r => role_caps w r | None => [] end) by done.
  destruct (tenant_role w (sa_user actor) t) as [r|] eqn:Et; [|done].
  assert (Hn : normalizeTenantRole r = r).
  { rewrite tenant_role_row in Et. destruct (role_row w _ _); [|done]. injection Et as <-. apply normalize_idem. }
  rewrite (capsOfRole_caps w r Hn) in E. split; [done|]. intros c Hin. rewrite E. destruct (capsOfRole w r) as [[|held]|] eqn:Eh; [|..|done].
  - by apply role_caps_catalogue in Hin.
  - destruct (negb (existsb _ held)); [done|]. rewrite (capsOfRole_caps w role Hr) in Hin. destruct (capsOfRole w role) as [[|wanted]|]; [done| |done].
    destruct (forallb _ wanted) eqn:Ef; [|done]. rewrite forallb_forall in Ef. specialize (Ef c Hin). apply existsb_exists in Ef as (x & Hx & E'). by apply String.eqb_eq in E' as ->.
Qed.

Lemma grantable_dominated w actor role :
  consistent w -> sa_platform actor = false -> assertGrantableRole w actor role = inr tt ->
  normalizeTenantRole role = role /\ dominates w (sa_user actor) (sa_tenant actor) role.
Proof.
  intros Hc Hp H. unfold assertGrantableRole in H. rewrite Hp in H. destruct (String.eqb_spec role TENANT_ROLE_ADMIN) as [->|Hna].
  - apply require_inr in H. boolify. rewrite (membershipRole_tenant_role w _ _ Hc) in H. split; [done|]. by apply admin_dominates.
  - apply sbind_inr in H as (? & Hf & H). apply require_inr in Hf. boolify. apply find_set_slug in Hf.
    assert (Hn : normalizeTenantRole role = role).
    { unfold normalizeTenantRole. destruct (String.eqb_spec role "member") as [->|]; [|done]. by apply (cs_slug_form w Hc) in Hf as [_ ?]. }
    split; [done|]. destruct (refusalFor _ _ _ _) eqn:Er; [done|]. by apply no_refusal_dominates.
Qed.

Lemma first_refusal_none w actor rows : first_refusal w actor rows = None -> forall t r, In (t, r) rows -> refusalFor w actor t (normaliseTenantRole r) = None.
Proof.
  induction rows as [|[t0 r0] rows IH]; [done|]. cbn [first_refusal]. destruct (refusalFor _ _ _ _) eqn:E; [done|]. intros H t r [[= <- <-]|Hin]; [done|by apply IH].
Qed.

(** Whoever resets the password or the second factors of an account, edits or deletes it,
    without being a platform administrator, is a manager of a tenant of that account,
    dominates its role in every tenant it belongs to, and the account is neither a platform
    administrator nor managed by Obligate. *)
Theorem takeover_dominated w actor id r
    (Hc : consistent w) (Hp : sa_platform actor = false) (Hm : assertManageableTarget w actor id = inr r) :
  aw_users w !! id = Some r /\ us_role r <> "admin" /\ us_foreign r <> Some "obligate"
  /\ is_Some (tenant_role w id (sa_tenant actor))
  /\ (forall t role, tenant_role w id t = Some role -> dominates w (sa_user actor) t role)
  /\ (forall t c, In c (caps w id t) -> In c (caps w (sa_user actor) t)).
Proof.
  apply manageable_ok in Hm as [Hu H]. destruct (H Hp) as (Hmem & Hr & Hf & Href). clear H.
  assert (Hdom : forall t role, tenant_role w id t = Some role -> dominates w (sa_user actor) t role).
  { intros t role Ht. rewrite tenant_role_row in Ht. destruct (role_row w id t) as [r0|] eqn:E; [|done]. injection Ht as <-.
    apply role_row_In in E; [|done]. pose proof (cs_rows w Hc _ _ _ E) as (_ & _ & Hk). apply memberships_In in E.
    pose proof (first_refusal_none w actor _ Href t r0 E) as G. rewrite (known_role_normalise w r0 Hk) in G. by apply no_refusal_dominates; [|apply normalize_idem|]. }
  split_and!; [done|done| | |done|].
  - intros E. by rewrite E in Hf.
  - apply existsb_exists in Hmem as ([t r0] & Hin & E). cbn in E. apply Z.eqb_eq in E as ->. apply memberships_In, role_row_In in Hin; [|done].
    rewrite tenant_role_row, Hin. by eexists.
  - intros t c Hin. rewrite caps_role in Hin. destruct (tenant_role w id t) as [role|] eqn:Et; [|done]. by apply (Hdom t role).
Qed.

(** ** What a request may give *)

Section Bounded.
Context (w : AdminWorld) (actor : ScopeActor) (Hc : consistent w) (Hp : sa_platform actor = false) (Ha : is_Some (aw_users w !! sa_user actor)).

(** No account becomes an active platform administrator. *)
Definition no_new_admin (w' : AdminWorld) : Prop :=
  forall u r', aw_users w' !! u = Some r' -> is_active_admin r' = true -> exists r, aw_users w !! u = Some r /\ is_active_admin r = true.
(** Only roles in [operated], of others, and only dominated ones. *)
Definition roles_bounded (operated : option Z) (w' : AdminWorld) : Prop :=
  forall u t, tenant_role w' u t = tenant_role w u t
    \/ aw_users w' !! u = None
    \/ (operated = Some t /\ u <> sa_user actor /\ forall role, tenant_role w' u t = Some role -> dominates w (sa_user actor) t role).
Definition bounded (operated : option Z) (w' : AdminWorld) : Prop :=
  no_new_admin w' /\ aw_sets w' = aw_sets w /\ roles_bounded operated w'.

Lemma same_users_no_new w' : aw_users w' = aw_users w -> no_new_admin w'.
Proof. intros E u r' Hu Hr. rewrite E in Hu. by exists r'. Qed.

Lemma bounded_create d role : create_checks w actor d = inr role -> bounded (Some (sa_tenant actor)) (fst (createUserAccount w actor d)).
Proof.
  intros Hch. destruct (create_result w actor d role Hc Hch) as (E & Hok & Hna). specialize (Hna Hp).
  assert (Hnew : is_active_admin (new_account d) = false).
  { unfold is_active_admin, new_account. cbn. destruct (cu_role d) as [s|]; [|done]. cbn. rewrite andb_true_r. apply String.eqb_neq. congruence. }
  assert (Hfresh : sa_user actor <> aw_next w) by (pose proof (cs_ids w Hc _ Ha); lia).
  rewrite E. unfold bounded. split_and!.
  - intros u r' Hu Hr. exists r'. split; [|done]. destruct role as [r|]; [destruct (mem _ _)|]; cbn in Hu;
      (destruct (Z.eq_dec u (aw_next w)) as [->|En]; [try (rewrite lookup_delete_eq in Hu; done); rewrite lookup_insert_eq in Hu; congruence|]);
      rewrite ?lookup_delete_ne in Hu by done; by rewrite lookup_insert_ne in Hu.
  - by destruct role as [r|]; [destruct (mem _ _)|].
  - intros u t. destruct role as [r|]; [|by left]. destruct (Hok r eq_refl) as (_ & Hn & Hg). destruct (mem _ _).
    + destruct ((u =? aw_next w) && (t =? sa_tenant actor)) eqn:Ek; [right; right|left; by rewrite !tenant_role_row, role_addUser, Ek].
      apply andb_true_iff in Ek as [E1 E2]. apply Z.eqb_eq in E1 as ->. apply Z.eqb_eq in E2 as ->. split_and!; [done|congruence|].
      intros role Hr. rewrite tenant_role_row, role_addUser, !Z.eqb_refl in Hr. cbn in Hr. rewrite !Hn in Hr. injection Hr as <-. by apply grantable_dominated.
    + destruct (Z.eqb_spec u (aw_next w)) as [->|En]; [right; left; cbn; by rewrite lookup_delete_eq|left].
      rewrite !tenant_role_row, role_delete_user. by apply Z.eqb_neq in En as ->.
Qed.

Lemma bounded_update id d scoped : update_checks w actor id d = inr scoped -> bounded (Some (sa_tenant actor)) (update_writes id d scoped w).
Proof.
  intros Hch. apply update_checks_ok in Hch as (Hm & Hrole & _). apply manageable_ok in Hm as [Hm Hs]. destruct (Hs Hp) as (_ & Hna & _).
  split; [|split; [done|by left]]. intros u r' Hu Hr. cbn in Hu. destruct (Z.eq_dec u id) as [->|E]; [|rewrite lookup_alter_ne in Hu by done; by exists r'].
  rewrite lookup_alter_eq, Hm in Hu. cbn in Hu. injection Hu as <-. exfalso. unfold is_active_admin in Hr. boolify. apply Hna. cbn in H. specialize (Hrole Hp).
  unfold changes_role in Hrole. destruct (uu_role d) as [s|]; [|done]. cbn in H. subst s. boolify. done.
Qed.

Lemma bounded_delete id scoped : delete_checks w actor id = inr scoped -> bounded (Some (sa_tenant actor)) (delete_writes id w).
Proof.
  intros Hch. split; [|split; [done|]].
  - intros u r' Hu Hr. cbn in Hu. exists r'. split; [|done]. destruct (Z.eq_dec u id) as [->|E]; [by rewrite lookup_delete_eq in Hu|by rewrite lookup_delete_ne in Hu].
  - intros u t. destruct (Z.eqb_spec u id) as [->|E]; [right; left; cbn; by rewrite lookup_delete_eq|left]. rewrite !tenant_role_row.
    change (role_row (delete_writes id w) u t) with (role_row (delete_user id w) u t). rewrite role_delete_user. by apply Z.eqb_neq in E as ->.
Qed.

(** The rows of the other tenants come back as they are read. *)
Lemma kept_assigned id a l t :
  resolveTenantAssignments w actor id a = inr l -> t <> sa_tenant actor -> assigned l t = tenant_role w id t.
Proof.
  intros H Hne. pose proof (resolved_NoDup w actor id a l Hc H) as Hn. apply assignments_ok in H. rewrite Hp in H. destruct H as (next & tc & _ & Hnx & ->).
  rewrite tenant_role_row. destruct (role_row w id t) as [r|] eqn:E.
  - apply role_row_In in E; [|done]. destruct (cs_rows w Hc _ _ _ E) as (_ & _ & Hk). apply memberships_In in E.
    rewrite (find_assigned _ t (normaliseTenantRole r) Hn); [by rewrite (known_role_normalise w r Hk), normalize_idem|].
    apply in_or_app. left. apply filter_In. split; [|by apply negb_true_iff, Z.eqb_neq]. apply in_map_iff. by exists (t, r).
  - apply find_unassigned. rewrite map_app. intros Hin. apply in_app_or in Hin as [Hin|Hin].
    + apply in_map_iff in Hin as (y & Ey & Hy). apply filter_In in Hy as [Hy _]. apply in_map_iff in Hy as ([t0 r0] & <- & Hy). cbn in Ey. subst t0.
      apply memberships_In, role_row_In in Hy; [congruence|done].
    + destruct next as [n|]; [|done]. destruct Hin as [Hin|[]]. congruence.
Qed.

Lemma bounded_tenants id a rows : tenants_checks w actor id a = inr rows -> bounded (Some (sa_tenant actor)) (setUserTenantAssignments id rows w).
Proof.
  intros Hch. destruct (tenants_checks_ok _ _ _ _ _ Hch) as (l & Hl & Hr & _). split; [by apply same_users_no_new|split; [done|]].
  intros u t. destruct (Z.eqb_spec u id) as [->|E]; [|left; rewrite !tenant_role_row, role_setUserTenantAssignments; by apply Z.eqb_neq in E as ->].
  pose proof (resolve_roles_assigned w l rows t Hr) as Eas. rewrite !tenant_role_row, role_setUserTenantAssignments, Z.eqb_refl, Eas.
  destruct (Z.eq_dec t (sa_tenant actor)) as [->|Hne].
  - right; right. pose proof (resolved_NoDup w actor id a l Hc Hl) as Hn. apply assignments_ok in Hl. rewrite Hp in Hl. destruct Hl as (next & tc & Htc & Hnx & ->).
    apply membership_change_ok in Htc as (Hself & _ & Hg & _). split_and!; [done|by apply Hself|]. intros role Hrole. destruct next as [n|].
    + rewrite (find_assigned _ (sa_tenant actor) (snd n) Hn) in Hrole by (apply in_or_app; right; left; rewrite <- Hnx; by destruct n). cbn in Hrole, Hg.
      destruct (grantable_dominated w actor (snd n) Hc Hp Hg) as [E Hd]. rewrite !E in Hrole. by injection Hrole as <-.
    + rewrite find_unassigned in Hrole; [done|]. rewrite app_nil_r. intros Hin. apply in_map_iff in Hin as (y & Ey & Hy). apply filter_In in Hy as [_ Hy].
      by rewrite Ey, Z.eqb_refl in Hy.
  - left. rewrite (kept_assigned id a l t Hl Hne), tenant_role_row. destruct (role_row w id t); [|done]. cbn. by rewrite normalize_idem.
Qed.

Lemma bounded_member t' id role :
  membership_checks w (delegated actor t') id role = inr tt -> bounded (Some t') (membership_write t' id role w).
Proof.
  intros Hch. apply membership_checks_ok in Hch as (tc & Htc & _). apply membership_change_ok in Htc as (Hself & _ & Hg & _).
  split; [apply same_users_no_new; by destruct role|split; [by destruct role|]]. intros u t.
  destruct ((u =? id) && (t =? t')) eqn:E; [right; right|left; by rewrite !tenant_role_row, role_membership_write, E].
  apply andb_true_iff in E as [E1 E2]. apply Z.eqb_eq in E1 as ->. apply Z.eqb_eq in E2 as ->. split_and!; [done|by apply Hself|].
  intros r Hr. rewrite tenant_role_row, role_membership_write, !Z.eqb_refl in Hr. destruct role as [r0|]; [|done]. cbn in Hr.
  destruct (grantable_dominated w (delegated actor t') r0 Hc Hp Hg) as [E Hd]. rewrite !E in Hr. by injection Hr as <-.
Qed.
End Bounded.

(** C13. A manager who is not a platform administrator makes nobody one, changes no permission
    set, and changes roles only in the tenant it operates on, never its own, and only to
    roles it has itself or is a tenant administrator to give; every other role stays as it
    is, unless the account is deleted. *)
Theorem delegated_rights_bounded w actor q
    (Hc : consistent w) (Hp : sa_platform actor = false) (Ha : is_Some (aw_users w !! sa_user actor)) :
  let w' := fst (serve w actor q) in
  (forall u r', aw_users w' !! u = Some r' -> is_active_admin r' = true -> exists r, aw_users w !! u = Some r /\ is_active_admin r = true)
  /\ aw_sets w' = aw_sets w
  /\ forall u t, tenant_role w' u t = tenant_role w u t
       \/ aw_users w' !! u = None
       \/ (operated actor q = Some t /\ u <> sa_user actor /\ forall role, tenant_role w' u t = Some role -> dominates w (sa_user actor) t role).
Proof.
  intros w'. change (bounded w actor (operated actor q) w'). pose proof (serve_transition w actor q Hc) as H. fold w' in H. revert H. generalize w'. clear w'. intros w' H.
  destruct H as [q|d role Hs Hch|raw id d scoped Hs Hch|raw id scoped Hch|raw id a rows Hch Hx|q t' id role _ Ht _ Hch|q t' x role Hp'|q t' x role Hp'|q t' x Hp'|q w' Hp'];
    try congruence.
  - split; [by apply same_users_no_new|split; [done|by left]].
  - by apply (bounded_create w actor Hc Hp Ha d role).
  - by apply (bounded_update w actor Hp id d scoped).
  - by apply (bounded_delete w actor id scoped).
  - by apply (bounded_tenants w actor Hc Hp id a rows).
  - rewrite Ht. by apply (bounded_member w actor Hc Hp t' id role).
Qed.

(** ** Examples *)

Lemma takeover_dominated_witness : In "ips.view" (caps sample_admin 7 3).
Proof.
  apply (takeover_dominated sample_admin helpdesk 8 (account "operator" "user")).
  - exact sample_admin_consistent.
  - done.
  - by vm_compute.
  - by vm_compute; left.
Defined.
Lemma delegated_rights_bounded_witness :
  aw_sets (fst (serve sample_admin helpdesk (Create_user new_colleague))) = aw_sets sample_admin
  /\ tenant_role (fst (serve sample_admin helpdesk (Create_user new_colleague))) 10 3 = Some "helpdesk".
Proof.
  split; [|by vm_compute]. apply (delegated_rights_bounded sample_admin helpdesk (Create_user new_colleague) sample_admin_consistent eq_refl).
  by eexists.
Defined.

(** ** Where the rules stop *)

(** Domination compares capabilities, not teams: the help desk may reset the password of an
    account whose team writes an agent it cannot even see. *)
Lemma takeover_ignores_teams :
  assertManageableTarget sample_admin helpdesk 8 = inr (account "operator" "user")
  /\ getAgentPermission (dir_of sample_admin) 7 (Some 3) 2 false = P_none
  /\ getAgentPermission (dir_of sample_admin) 8 (Some 3) 2 false = P_level RW.
Proof. by vm_compute. Qed.
(** Nor does a creation: the new account, in no team, is not bound by any. *)
Lemma created_account_unbound :
  let w' := fst (serve sample_admin helpdesk (Create_user new_colleague)) in
  tenant_role w' 10 3 = tenant_role sample_admin 7 3
  /\ getAgentPermission (dir_of w') 10 (Some 3) 2 false = P_level RW.
Proof. by vm_compute. Qed.
(** The checks of two deletions may both pass before either writes. *)
Definition two_admins : AdminWorld := with_users (fun _ => {[ 1 := account "root" "admin"; 2 := account "deputy" "admin" ]}) sample_admin.
Definition root : ScopeActor := {| sa_user := 1; sa_platform := true; sa_tenant := 1 |}.
Definition deputy : ScopeActor := {| sa_user := 2; sa_platform := true; sa_tenant := 1 |}.
Lemma last_admin_race :
  delete_checks two_admins root 2 = inr (account "deputy" "admin") /\ delete_checks two_admins deputy 1 = inr (account "root" "admin")
  /\ aw_users (delete_writes 1 (delete_writes 2 two_admins)) = ∅.
Proof. by vm_compute. Qed.
