(* ===== verification/TeamAdmin.v ===== *)
(** * Teams and their grants ([services/team.service.ts], [controllers/teams.controller.ts])

    The writes a holder of [users.manage] may do on the teams of its tenant. Grants bound
    what the members reach ([Access]); a manager bound by teams itself may not touch a team
    it belongs to. *)

From S2P Require Import Prelude JsString JsValue JsNumber Tenancy Access Query StepUpGate UserScope UserAdmin UserRows UserSafety.

(** ** Loading *)

Definition find_team (w : AdminWorld) (id : Z) : option TeamRow := List.find (fun r => team_id (tm_team r) =? id) (aw_teams w).
Definition TEAM_NOT_FOUND : CodedError := codedError 404 "TEAM_NOT_FOUND" "Team not found".
Definition loadTeam (w : AdminWorld) (actor : ScopeActor) (rawId : string) (mode : Mode) : CodedError + TeamRow :=
  id <- some_or (parse_int rawId) (codedError 400 "" "Invalid team ID");;
  team <- some_or (match id with NInt z => find_team w z | NOther => None end) (codedError 404 "" "Team not found");;
  match deviceAccessVerdict (team_tenant (tm_team team)) (sa_tenant actor) mode with
  | V_ok => inr team
  | V_forbidden => inl (codedError 403 "" "This team belongs to another tenant: read-only from the Default tenant")
  | V_not_found => inl (codedError 404 "" "Team not found")
  end.

Definition getMembers (w : AdminWorld) (teamId : Z) : list Z := map snd (List.filter (fun m => fst m =? teamId) (aw_members w)).
Definition assertNoSelfWidening (w : AdminWorld) (actor : ScopeActor) (teamId : Z) (nextMemberIds : list Z) : CodedError + unit :=
  if bypassesTeamScope (dir_of w) (sa_user actor) (sa_platform actor) (Some (sa_tenant actor)) then inr tt
  else
    require (negb (mem (sa_user actor) (getMembers w teamId))) (codedError 403 "" "You cannot change a team you belong to") >>
    require (negb (mem (sa_user actor) nextMemberIds)) (codedError 403 "" "You cannot add yourself to a team").

(** ** Rows *)

Definition set_teams (f : list TeamRow -> list TeamRow) (w : AdminWorld) : AdminWorld := with_teams (f (aw_teams w)) (aw_members w) (aw_grants w) w.
Definition name_taken (w : AdminWorld) (except : option Z) (name : string) : bool :=
  existsb (fun r => String.eqb (tm_name r) name && negb (bool_decide (Some (team_id (tm_team r)) = except))) (aw_teams w).
Definition NAME_TAKEN : CodedError := codedError 409 "" "Team name already exists".
Record TeamData := { td_name : option string; td_description : option (option string); td_canCreate : option bool }.

Definition create_team (data : TeamData) (tenantId : Z) (w : AdminWorld) : AdminWorld :=
  next_id (set_teams (fun l => l ++ [{| tm_team := {| team_id := aw_next w; team_tenant := tenantId; team_can_create := default false (td_canCreate data) |};
                                        tm_name := default "" (td_name data); tm_description := default None (td_description data) |}]) w).
Definition update_team (id : Z) (data : TeamData) (w : AdminWorld) : AdminWorld :=
  set_teams (map (fun r => if team_id (tm_team r) =? id
    then {| tm_team := {| team_id := id; team_tenant := team_tenant (tm_team r); team_can_create := default (team_can_create (tm_team r)) (td_canCreate data) |};
            tm_name := default (tm_name r) (td_name data); tm_description := default (tm_description r) (td_description data) |}
    else r)) w.
(** Members and grants go with the team. *)
Definition delete_team (id : Z) (w : AdminWorld) : AdminWorld :=
  with_teams (List.filter (fun r => negb (team_id (tm_team r) =? id)) (aw_teams w))
    (List.filter (fun m => negb (fst m =? id)) (aw_members w)) (List.filter (fun g => negb (gr_team (gw_grant g) =? id)) (aw_grants w)) w.

(** ** Members *)

Definition uniq_ids (l : list Z) : list Z := fold_right (fun z acc => z :: List.filter (fun y => negb (y =? z)) acc) [] l.
Definition setMembers (w : AdminWorld) (teamId : Z) (userIds : list Z) : Outcome :=
  checked w
    (team <- some_or (find_team w teamId) TEAM_NOT_FOUND;;
     let wanted := uniq_ids userIds in
     let added := List.filter (fun u => negb (mem u (getMembers w teamId))) wanted in
     require (forallb (fun u => bool_decide (is_Some (role_row w u (team_tenant (tm_team team))))) added)
       (codedError 400 "TEAM_USER_OUTSIDE_TENANT" "User is not a member of the team tenant") >>
     inr wanted)
    (fun wanted => with_teams (aw_teams w) (List.filter (fun m => negb (fst m =? teamId)) (aw_members w) ++ map (fun u => (teamId, u)) wanted) (aw_grants w) w).

(** ** Grants *)

Record TeamGrant := { tg_scope : string; tg_id : Z; tg_level : PermissionLevel }.
Definition TEAM_PERMISSION_SCOPES : list string := ["group"; "agent"; "ungrouped"].
Definition valid_grant (p : TeamGrant) : bool :=
  existsb (String.eqb (tg_scope p)) TEAM_PERMISSION_SCOPES && (0 <=? tg_id p) && (String.eqb (tg_scope p) "ungrouped" || (0 <? tg_id p)).
Definition named_id (p : TeamGrant) : TeamGrant :=
  if String.eqb (tg_scope p) "ungrouped" then {| tg_scope := tg_scope p; tg_id := 0; tg_level := tg_level p |} else p.
Definition same_grant (p q : TeamGrant) : bool := String.eqb (tg_scope p) (tg_scope q) && (tg_id p =? tg_id q).
(** A [Map] keyed by scope and id: the highest level, in the order of the first entries. *)
Definition add_grant (merged : list TeamGrant) (p0 : TeamGrant) : list TeamGrant :=
  let p := named_id p0 in
  if existsb (same_grant p) merged
  then map (fun q => if same_grant p q && bool_decide (tg_level q = RO) && bool_decide (tg_level p = RW) then p else q) merged
  else merged ++ [p].
Definition merge_grants (l : list TeamGrant) : list TeamGrant := fold_left add_grant l [].
Definition group_in_tenant (w : AdminWorld) (tenantId id : Z) : bool := existsb (fun g => (grp_id g =? id) && (grp_tenant g =? tenantId)) (aw_groups w).
Definition agent_in_tenant (w : AdminWorld) (tenantId id : Z) : bool := existsb (fun x => (dev_id x =? id) && (dev_tenant x =? tenantId)) (aw_devices w).
Definition assertScopesInTenant (w : AdminWorld) (perms : list TeamGrant) (tenantId : Z) : CodedError + unit :=
  require (forallb (fun p => negb (String.eqb (tg_scope p) "group") || group_in_tenant w tenantId (tg_id p)) perms)
    (codedError 400 "TEAM_SCOPE_OUTSIDE_TENANT" "Group not found in the team tenant") >>
  require (forallb (fun p => negb (String.eqb (tg_scope p) "agent") || agent_in_tenant w tenantId (tg_id p)) perms)
    (codedError 400 "TEAM_SCOPE_OUTSIDE_TENANT" "Agent not found in the team tenant").
Definition grant_row (teamId id : Z) (p : TeamGrant) : GrantRow :=
  {| gw_id := id; gw_grant := {| gr_team := teamId; gr_scope := tg_scope p; gr_scope_id := tg_id p; gr_level := tg_level p |} |}.
(** Rows inserted one after the other, each with a new id. *)
Fixpoint insert_grants (teamId : Z) (l : list TeamGrant) (w : AdminWorld) : AdminWorld :=
  match l with
  | [] => w
  | p :: r => insert_grants teamId r (next_id (with_teams (aw_teams w) (aw_members w) (aw_grants w ++ [grant_row teamId (aw_next w) p]) w))
  end.
Definition drop_grants (teamId : Z) (w : AdminWorld) : AdminWorld :=
  with_teams (aw_teams w) (aw_members w) (List.filter (fun g => negb (gr_team (gw_grant g) =? teamId)) (aw_grants w)) w.
Definition setPermissions (w : AdminWorld) (teamId : Z) (permissions : list TeamGrant) : Outcome :=
  checked w
    (team <- some_or (find_team w teamId) TEAM_NOT_FOUND;;
     let merged := merge_grants permissions in
     assertScopesInTenant w merged (team_tenant (tm_team team)) >> inr merged)
    (fun merged => insert_grants teamId merged (drop_grants teamId w)).
Definition removePermission (w : AdminWorld) (teamId permissionId : Z) : Outcome :=
  checked w
    (require (existsb (fun g => (gw_id g =? permissionId) && (gr_team (gw_grant g) =? teamId)) (aw_grants w)) (codedError 404 "" "Permission not found"))
    (fun _ => with_teams (aw_teams w) (aw_members w) (List.filter (fun g => negb ((gw_id g =? permissionId) && (gr_team (gw_grant g) =? teamId))) (aw_grants w)) w).

(** ** Routes *)

Inductive TeamRequest :=
| Team_create (data : TeamData)
| Team_update (rawId : string) (data : TeamData)
| Team_delete (rawId : string)
| Team_members (rawId : string) (userIds : list Z)
| Team_permissions (rawId : string) (permissions : list TeamGrant)
| Team_remove_permission (rawId rawPermId : string).

Definition valid_name (o : option string) : bool := valid_opt (fun s => (1 <=? String.length s)%nat && (String.length s <=? 255)%nat) o.
Definition valid_description (o : option (option string)) : bool := valid_opt (valid_opt (fun s => (String.length s <=? 1000)%nat)) o.
(** The schemas of the routes; a created team has a name. *)
Definition team_schema (q : TeamRequest) : bool :=
  match q with
  | Team_create d => bool_decide (is_Some (td_name d)) && valid_name (td_name d) && valid_description (td_description d)
  | Team_update _ d => valid_name (td_name d) && valid_description (td_description d)
  | Team_members _ l => forallb (fun u => 0 <? u) l
  | Team_permissions _ l => forallb valid_grant l
  | Team_delete _ | Team_remove_permission _ _ => true
  end.
(** A write on a team of the operating tenant the caller does not belong to. *)
Definition on_team (w : AdminWorld) (actor : ScopeActor) (rawId : string) (nextMembers : list Z) (k : TeamRow -> Outcome) : Outcome :=
  match (team <- loadTeam w actor rawId Write;; assertNoSelfWidening w actor (team_id (tm_team team)) nextMembers >> inr team) with
  | inl e => refused w e
  | inr team => k team
  end.
Definition serve_team_valid (w : AdminWorld) (actor : ScopeActor) (q : TeamRequest) : Outcome :=
  match q with
  | Team_create d => checked w (require (negb (name_taken w None (default "" (td_name d)))) NAME_TAKEN) (fun _ => create_team d (sa_tenant actor) w)
  | Team_update raw d =>
      on_team w actor raw [] (fun r => let id := team_id (tm_team r) in
        checked w (require (negb (match td_name d with Some n => name_taken w (Some id) n | None => false end)) NAME_TAKEN) (fun _ => update_team id d w))
  | Team_delete raw => on_team w actor raw [] (fun r => (delete_team (team_id (tm_team r)) w, inr tt))
  | Team_members raw l => on_team w actor raw l (fun r => setMembers w (team_id (tm_team r)) l)
  | Team_permissions raw l => on_team w actor raw [] (fun r => setPermissions w (team_id (tm_team r)) l)
  | Team_remove_permission raw rawPerm =>
      on_team w actor raw [] (fun r =>
        match parse_int rawPerm with
        | None => refused w (codedError 400 "" "Invalid permission ID")
        | Some n => removePermission w (team_id (tm_team r)) (match n with NInt z => z | NOther => 0 end)
        end)
  end.
Definition serve_team (w : AdminWorld) (actor : ScopeActor) (q : TeamRequest) : Outcome :=
  users_route w actor (if team_schema q then serve_team_valid w actor q else refused w VALIDATION).

(** ** A request touches one team *)

Definition row_id (r : TeamRow) : Z := team_id (tm_team r).
Definition not_team (id : Z) (x : Z) : bool := negb (x =? id).
(** Between [w] and [w'] only team [id], its members and its grants change. *)
Record only_team (id : Z) (w w' : AdminWorld) : Prop := {
  ot_teams : List.filter (fun r => not_team id (row_id r)) (aw_teams w') = List.filter (fun r => not_team id (row_id r)) (aw_teams w);
  ot_members : List.filter (fun m => not_team id (fst m)) (aw_members w') = List.filter (fun m => not_team id (fst m)) (aw_members w);
  ot_grants : List.filter (fun g => not_team id (gr_team (gw_grant g))) (aw_grants w') = List.filter (fun g => not_team id (gr_team (gw_grant g))) (aw_grants w);
  ot_rest : aw_user_tenants w' = aw_user_tenants w /\ aw_sets w' = aw_sets w /\ aw_groups w' = aw_groups w /\ aw_devices w' = aw_devices w
            /\ aw_closure w' = aw_closure w /\ aw_users w' = aw_users w
}.

Lemma filter_twice {A} (p q : A -> bool) l : (forall x, In x l -> p x = true -> q x = true) -> List.filter p (List.filter q l) = List.filter p l.
Proof.
  induction l as [|x l IH]; [done|]. intros H. cbn. specialize (IH (fun y Hy => H y (or_intror Hy))). specialize (H x (or_introl eq_refl)).
  destruct (q x) eqn:E; cbn; rewrite IH; [done|]. destruct (p x); [by specialize (H eq_refl)|done].
Qed.
Lemma filter_map_other {A} (key : A -> Z) (f : A -> A) id l :
  (forall x, key x = id -> key (f x) = id) -> (forall x, key x <> id -> f x = x) ->
  List.filter (fun x => not_team id (key x)) (map f l) = List.filter (fun x => not_team id (key x)) l.
Proof.
  intros H1 H2. unfold not_team. induction l as [|x l IH]; [done|]. cbn. destruct (Z.eqb_spec (key x) id) as [E|E].
  - rewrite (H1 x E), Z.eqb_refl. exact IH.
  - rewrite (H2 x E). apply Z.eqb_neq in E. rewrite E. cbn. by rewrite IH.
Qed.
Lemma not_team_refl id : not_team id id = false.
Proof. unfold not_team. by rewrite Z.eqb_refl. Qed.

Lemma only_team_refl id w : only_team id w w.
Proof. by split. Qed.
Lemma only_team_trans id w1 w2 w3 : only_team id w1 w2 -> only_team id w2 w3 -> only_team id w1 w3.
Proof. intros [A1 A2 A3 A4] [B1 B2 B3 B4]. split; [congruence..|]. intuition congruence. Qed.

Lemma insert_grants_only id l w : only_team id w (insert_grants id l w).
Proof.
  revert w. induction l as [|p l IH]; intros w; cbn [insert_grants]; [apply only_team_refl|]. eapply only_team_trans; [|apply IH]. split; try done.
  cbn. rewrite List.filter_app. cbn. rewrite not_team_refl. by rewrite app_nil_r.
Qed.
Lemma insert_grants_members id l w : aw_members (insert_grants id l w) = aw_members w /\ aw_teams (insert_grants id l w) = aw_teams w.
Proof. revert w. induction l as [|p l IH]; intros w; [done|]. cbn [insert_grants]. match goal with |- context [insert_grants id l ?x] => by destruct (IH x) as [-> ->] end. Qed.

(** What each write leaves of the members of its team. *)
Definition members_within (id : Z) (next : list Z) (w w' : AdminWorld) : Prop :=
  forall u, In u (getMembers w' id) -> In u (getMembers w id) \/ In u next.
Definition changes_team (actor : ScopeActor) (id : Z) (next : list Z) (w w' : AdminWorld) : Prop := only_team id w w' /\ members_within id next w w'.

Lemma changes_create d w tenant : (forall r, In r (aw_teams w) -> row_id r < aw_next w) -> only_team (aw_next w) w (create_team d tenant w).
Proof.
  intros H. split; try done. cbn. rewrite List.filter_app. cbn. unfold row_id at 2. cbn. rewrite not_team_refl. apply app_nil_r.
Qed.
Lemma changes_update actor id d next w : changes_team actor id next w (update_team id d w).
Proof.
  split; [|by intros u; left]. split; try done. cbn [update_team set_teams aw_teams with_teams]. apply (filter_map_other row_id); unfold row_id; intros x E.
  - rewrite E, Z.eqb_refl. done.
  - apply Z.eqb_neq in E. by rewrite E.
Qed.
Lemma changes_delete actor id next w : changes_team actor id next w (delete_team id w).
Proof.
  assert (H : forall A (key : A -> Z) l, List.filter (fun x => not_team id (key x)) (List.filter (fun x => negb (key x =? id)) l) = List.filter (fun x => not_team id (key x)) l).
  { intros A key l. by apply filter_twice. }
  split; [split; [apply (H _ row_id)|apply (H _ fst)|apply (H _ (fun g => gr_team (gw_grant g)))|done]|].
  intros u Hin. left. unfold getMembers in *. cbn in Hin. apply in_map_iff in Hin as (m & <- & Hm). apply filter_In in Hm as [Hm E]. apply filter_In in Hm as [Hm _].
  apply in_map, filter_In. done.
Qed.
Lemma uniq_ids_In u l : In u (uniq_ids l) -> In u l.
Proof.
  induction l as [|x l IH]; [done|]. cbn [uniq_ids fold_right]. intros [->|H]; [by left|]. apply filter_In in H as [H _]. right. by apply IH.
Qed.
Lemma changes_members actor id l w w' : fst (setMembers w id l) = w' -> changes_team actor id l w w'.
Proof.
  intros <-. unfold setMembers. destruct (sbind _ _) as [e|wanted] eqn:E; cbn [checked fst]; [split; [apply only_team_refl|by intros u; left]|].
  apply sbind_inr in E as (team & _ & E). cbv zeta in E. apply sbind_inr in E as (? & _ & E). injection E as <-. split.
  - split; try done. cbn. rewrite List.filter_app, (filter_twice _ _ (aw_members w)) by done.
    rewrite (filter_none (fun m => not_team id (fst m)) (map _ _)), app_nil_r; [done|]. intros m Hm. apply in_map_iff in Hm as (u & <- & _). apply not_team_refl.
  - intros u Hin. right. unfold getMembers in Hin. cbn in Hin. apply in_map_iff in Hin as (m & <- & Hm). apply filter_In in Hm as [Hm E].
    apply in_app_or in Hm as [Hm|Hm].
    + apply filter_In in Hm as [_ Hm]. by rewrite E in Hm.
    + apply in_map_iff in Hm as (u & <- & Hu). by apply uniq_ids_In.
Qed.
Lemma changes_permissions actor id l next w w' : fst (setPermissions w id l) = w' -> changes_team actor id next w w'.
Proof.
  intros <-. unfold setPermissions. destruct (sbind _ _) as [e|merged]; cbn [checked fst]; [split; [apply only_team_refl|by intros u; left]|]. split.
  - eapply only_team_trans; [|apply insert_grants_only]. split; try done. cbn. by apply filter_twice.
  - intros u Hin. left. unfold getMembers in *. by rewrite (proj1 (insert_grants_members id merged (drop_grants id w))) in Hin.
Qed.
Lemma changes_remove_permission actor id p next w w' : fst (removePermission w id p) = w' -> changes_team actor id next w w'.
Proof.
  intros <-. unfold removePermission. destruct (require _ _) as [e|[]]; cbn [checked fst]; [split; [apply only_team_refl|by intros u; left]|]. split; [|by intros u; left].
  split; try done. cbn. apply filter_twice. intros g _ Hg. unfold not_team in Hg. boolify. apply negb_true_iff, andb_false_iff. right. by apply Z.eqb_neq.
Qed.

(** ** Confinement *)

(** Fresh ids, and members and grants of existing teams only, as the keys of the tables make it. *)
Record teams_ok (w : AdminWorld) : Prop := {
  to_ids : NoDup (map row_id (aw_teams w));
  to_fresh r : In r (aw_teams w) -> row_id r < aw_next w;
  to_members t u : In (t, u) (aw_members w) -> In t (map row_id (aw_teams w));
  to_grants g : In g (aw_grants w) -> In (gr_team (gw_grant g)) (map row_id (aw_teams w))
}.
Definition bound_by_teams (w : AdminWorld) (actor : ScopeActor) : Prop :=
  bypassesTeamScope (dir_of w) (sa_user actor) (sa_platform actor) (Some (sa_tenant actor)) = false.

Lemma getMembers_In w id u : In u (getMembers w id) <-> In (id, u) (aw_members w).
Proof.
  unfold getMembers. rewrite in_map_iff. split.
  - intros ([a b] & <- & H). apply filter_In in H as [H E]. cbn in E. by apply Z.eqb_eq in E as ->.
  - intros H. exists (id, u). split; [done|]. apply filter_In. split; [done|apply Z.eqb_refl].
Qed.
Lemma no_members_fresh w u : teams_ok w -> ~ In u (getMembers w (aw_next w)).
Proof.
  intros H Hin. apply getMembers_In, (to_members w H), in_map_iff in Hin as (r & E & Hr). pose proof (to_fresh w H r Hr). lia.
Qed.

Definition confined (w : AdminWorld) (actor : ScopeActor) (id : Z) (w' : AdminWorld) : Prop :=
  only_team id w w'
  /\ (forall r, In r (aw_teams w) -> row_id r = id -> team_tenant (tm_team r) = sa_tenant actor)
  /\ (bound_by_teams w actor -> ~ In (sa_user actor) (getMembers w id) /\ ~ In (sa_user actor) (getMembers w' id)).

Lemma confined_refused w actor : teams_ok w -> confined w actor (aw_next w) w.
Proof.
  intros H. split; [apply only_team_refl|]. split; [|by split; apply no_members_fresh]. intros r Hr E. pose proof (to_fresh w H r Hr). lia.
Qed.

Lemma on_team_confined w actor raw next k :
  teams_ok w ->
  (forall r, find_team w (row_id r) = Some r -> changes_team actor (row_id r) next w (fst (k r))) ->
  exists id, confined w actor id (fst (on_team w actor raw next k)).
Proof.
  intros Hok Hk. unfold on_team. destruct (sbind _ _) as [e|team] eqn:E; [exists (aw_next w); by apply confined_refused|].
  apply sbind_inr in E as (r & Hl & E). apply sbind_inr in E as (? & Hs & E). injection E as ->. unfold loadTeam in Hl.
  apply sbind_inr in Hl as (n & _ & Hl). apply sbind_inr in Hl as (r' & Hf & Hl). apply some_or_inr in Hf. destruct n as [z|]; [|done].
  destruct (deviceAccessVerdict _ _ _) eqn:Ev; [|done..]. injection Hl as ->. assert (Hz : z = row_id team).
  { apply find_some in Hf as [_ E]. apply Z.eqb_eq in E. by symmetry. } subst z.
  exists (row_id team). destruct (Hk team Hf) as [H1 H2]. split; [done|split].
  - intros r Hr Er. apply find_some in Hf as [Hf _]. rewrite (NoDup_key row_id _ r team (to_ids w Hok) Hr Hf Er).
    unfold deviceAccessVerdict in Ev. destruct (Z.eqb_spec (team_tenant (tm_team team)) (sa_tenant actor)); [done|]. by destruct (isMasterTenant _).
  - intros Hb. unfold assertNoSelfWidening in Hs. rewrite Hb in Hs. apply sbind_inr in Hs as (? & G1 & G2). apply require_inr in G1, G2. boolify.
    assert (Hn : ~ In (sa_user actor) (getMembers w (row_id team))) by (intros Hin; apply mem_In in Hin; unfold row_id in Hin; congruence).
    split; [done|]. intros Hin. destruct (H2 _ Hin) as [|Hin']; [done|]. apply mem_In in Hin'. congruence.
Qed.

Lemma serve_team_confined w actor q : teams_ok w -> exists id, confined w actor id (fst (serve_team w actor q)).
Proof.
  intros Hok. assert (Hr : exists id, confined w actor id w) by (exists (aw_next w); by apply confined_refused).
  unfold serve_team, users_route. destruct (may_manage_users _ _ _); [|done]. destruct (team_schema q); [|done].
  destruct q as [d|raw d|raw|raw l|raw l|raw rp]; cbn [serve_team_valid].
  - destruct (require _ _) as [e|[]]; cbn [checked fst]; [done|]. exists (aw_next w).
    split; [by apply changes_create, to_fresh|]. split; [|intros _; split; exact (no_members_fresh w _ Hok)]. intros r Hin E. pose proof (to_fresh w Hok r Hin). lia.
  - apply on_team_confined; [done|]. intros r _. cbv zeta. destruct (require _ _) as [e|[]]; cbn [checked fst]; [split; [apply only_team_refl|by intros u; left]|].
    apply (changes_update actor).
  - apply on_team_confined; [done|]. intros r _. apply (changes_delete actor).
  - apply on_team_confined; [done|]. intros r _. by apply changes_members.
  - apply on_team_confined; [done|]. intros r _. by apply (changes_permissions actor _ l).
  - apply on_team_confined; [done|]. intros r _. destruct (parse_int rp); [|split; [apply only_team_refl|by intros u; left]].
    by eapply changes_remove_permission.
Qed.

(** ** One's own reach *)

Lemma mem_team_same id w w' t x : only_team id w w' -> x <> id ->
  team_in_tenant (dir_of w') (Some t) x = team_in_tenant (dir_of w) (Some t) x.
Proof.
  intros H Hx. cbn [team_in_tenant dir_of d_teams].
  assert (G : forall w, mem x (map team_id (List.filter (fun y => team_tenant y =? t) (map tm_team (aw_teams w))))
                    = existsb (fun r => (row_id r =? x) && (team_tenant (tm_team r) =? t)) (List.filter (fun r => not_team id (row_id r)) (aw_teams w))).
  { clear -Hx. intros v. unfold mem. induction (aw_teams v) as [|r l IH]; [done|]. cbn [map List.filter].
    destruct (team_tenant (tm_team r) =? t) eqn:Et, (not_team id (row_id r)) eqn:En; cbn [map existsb]; rewrite IH, ?Et, ?andb_true_r, ?andb_false_r.
    - unfold row_id. by rewrite Z.eqb_sym.
    - unfold not_team in En. boolify. destruct (Z.eqb_spec x (team_id (tm_team r))); [|done]. unfold row_id in En. congruence.
    - done.
    - done. }
  by rewrite !G, (ot_teams _ _ _ H).
Qed.

Lemma own_teams_same id w w' u t : only_team id w w' -> ~ In u (getMembers w id) -> ~ In u (getMembers w' id) ->
  getUserTeamIds (dir_of w') u (Some t) = getUserTeamIds (dir_of w) u (Some t) /\ ~ In id (getUserTeamIds (dir_of w) u (Some t)).
Proof.
  intros H H1 H2. assert (G : forall v, ~ In u (getMembers v id) ->
    List.filter (fun m => (snd m =? u) && team_in_tenant (dir_of v) (Some t) (fst m)) (aw_members v)
    = List.filter (fun m => (snd m =? u) && team_in_tenant (dir_of v) (Some t) (fst m)) (List.filter (fun m => not_team id (fst m)) (aw_members v))).
  { intros v Hv. symmetry. apply filter_twice. intros [a b] Hin E. cbn in E. boolify. subst b. unfold not_team. cbn. destruct (Z.eqb_spec a id) as [->|]; [|done].
    destruct Hv. by apply getMembers_In. }
  unfold getUserTeamIds. cbn [dir_of d_memberships]. split.
  - rewrite (G w H1), (G w' H2), (ot_members _ _ _ H). f_equal. apply filter_ext_in. intros [a b] Hin. cbn. apply filter_In in Hin as [_ Hin]. unfold not_team in Hin. cbn in Hin.
    boolify. f_equal. by apply (mem_team_same id).
  - intros Hin. apply in_map_iff in Hin as ([a b] & E & Hin). cbn in E. subst a. apply filter_In in Hin as [Hin E]. cbn in E. boolify. subst b. by apply H1, getMembers_In.
Qed.

Lemma own_scope_same id w w' u t o : only_team id w w' -> ~ In u (getMembers w id) -> ~ In u (getMembers w' id) ->
  getAgentScope (dir_of w') u (Some t) false o = getAgentScope (dir_of w) u (Some t) false o.
Proof.
  intros H H1 H2. destruct (own_teams_same id w w' u t H H1 H2) as [E Hid]. destruct (ot_rest _ _ _ H) as (R1 & R2 & R3 & R4 & R5 & _).
  assert (G : forall v (ids : list Z), ~ In id ids ->
    List.filter (fun g => mem (gr_team g) ids && existsb (String.eqb (gr_scope g)) agent_scopes) (map gw_grant (aw_grants v))
    = List.filter (fun g => mem (gr_team g) ids && existsb (String.eqb (gr_scope g)) agent_scopes)
        (map gw_grant (List.filter (fun g => not_team id (gr_team (gw_grant g))) (aw_grants v)))).
  { intros v ids Hn. induction (aw_grants v) as [|g l IH]; [done|]. cbn [map List.filter]. destruct (not_team id (gr_team (gw_grant g))) eqn:En; cbn [map List.filter]; rewrite IH; [done|].
    unfold not_team in En. boolify. rewrite En. destruct (mem id ids) eqn:Em; [by apply mem_In in Em|done]. }
  assert (Eg : agent_grants (dir_of w') u (Some t) = agent_grants (dir_of w) u (Some t)).
  { unfold agent_grants. rewrite E. cbv zeta. cbn [dir_of d_grants]. rewrite (G w' _ Hid), (G w _ Hid). by rewrite (ot_grants _ _ _ H). }
  unfold getAgentScope. rewrite Eg. unfold bypassesTeamScope, getTenantRole. cbn [dir_of d_user_tenants d_devices]. rewrite R1, R4.
  destruct (bool_decide _); [done|]. destruct (agent_grants (dir_of w) u (Some t)) as [|g l]; [reflexivity|]. unfold group_rows. cbn [dir_of d_closure]. by rewrite R5.
Qed.

(** A request on teams changes one team of the operating tenant at most: the teams of other
    tenants, their members and their grants stay as they are. A manager who is bound by
    teams itself reaches exactly the same agents as before, in every tenant. *)
Theorem team_changes_confined w actor q (Hok : teams_ok w) :
  let w' := fst (serve_team w actor q) in
  (forall r, In r (aw_teams w) -> team_tenant (tm_team r) <> sa_tenant actor ->
     In r (aw_teams w') /\ (forall u, In u (getMembers w' (row_id r)) <-> In u (getMembers w (row_id r)))
     /\ (forall g, gr_team (gw_grant g) = row_id r -> In g (aw_grants w') <-> In g (aw_grants w)))
  /\ (bound_by_teams w actor -> forall t o, getAgentScope (dir_of w') (sa_user actor) (Some t) false o = getAgentScope (dir_of w) (sa_user actor) (Some t) false o).
Proof.
  intros w'. destruct (serve_team_confined w actor q Hok) as (id & H & Ht & Hb). fold w' in H, Hb. split.
  - intros r Hr Hne. assert (Hid : not_team id (row_id r) = true).
    { unfold not_team. apply negb_true_iff, Z.eqb_neq. intros E. by apply Hne, Ht. } split_and!.
    + pose proof (ot_teams _ _ _ H) as E. assert (Hin : In r (List.filter (fun r => not_team id (row_id r)) (aw_teams w))) by by apply filter_In.
      rewrite <- E in Hin. by apply filter_In in Hin as [Hin _].
    + intros u. rewrite !getMembers_In. pose proof (ot_members _ _ _ H) as E.
      assert (F : forall v, In (row_id r, u) (aw_members v) <-> In (row_id r, u) (List.filter (fun m => not_team id (fst m)) (aw_members v))) by (intros v; rewrite filter_In; cbn; tauto).
      by rewrite (F w'), (F w), E.
    + intros g Eg. pose proof (ot_grants _ _ _ H) as E.
      assert (F : forall v, In g (aw_grants v) <-> In g (List.filter (fun g => not_team id (gr_team (gw_grant g))) (aw_grants v))) by (intros v; rewrite filter_In, Eg; tauto).
      by rewrite (F w'), (F w), E.
  - intros Hbd t o. destruct (Hb Hbd) as [H1 H2]. by apply (own_scope_same id).
Qed.

(** ** Grants are bound to the tenant of their team *)

Definition owned_target (w : AdminWorld) (tenantId : Z) (g : Grant) : Prop :=
  (gr_scope g = "group" -> group_in_tenant w tenantId (gr_scope_id g) = true) /\ (gr_scope g = "agent" -> agent_in_tenant w tenantId (gr_scope_id g) = true).
Definition grants_owned (w : AdminWorld) : Prop :=
  forall g r, In g (aw_grants w) -> In r (aw_teams w) -> row_id r = gr_team (gw_grant g) -> owned_target w (team_tenant (tm_team r)) (gw_grant g).
Definition team_tables (w : AdminWorld) : Prop := teams_ok w /\ grants_owned w.

Lemma tables_create d t w : team_tables w -> team_tables (create_team d t w).
Proof.
  intros [H Ho]. split.
  - destruct H as [H1 H2 H3 H4]. unfold create_team. split; cbn [set_teams next_id with_teams aw_teams aw_members aw_grants aw_next].
    + rewrite map_app. apply NoDup_app. split_and!; [done| |by apply NoDup_singleton]. intros x Hx. cbn. rewrite list_elem_of_singleton. intros ->.
      apply list_elem_of_In, in_map_iff in Hx as (r & E & Hr). specialize (H2 r Hr). change (row_id r = aw_next w) in E. lia.
    + intros r Hr. apply in_app_or in Hr as [Hr|[<-|[]]]; [specialize (H2 r Hr); lia|cbn; lia].
    + intros x u Hin. rewrite map_app. apply in_or_app. left. by apply (H3 x u).
    + intros g Hin. rewrite map_app. apply in_or_app. left. by apply H4.
  - intros g r Hg Hr E. apply in_app_or in Hr as [Hr|[<-|[]]]; [by apply (Ho g r)|]. exfalso. cbn in Hg.
    apply (to_grants w H), in_map_iff in Hg as (r & E' & Hr). pose proof (to_fresh w H r Hr). change (aw_next w = gr_team (gw_grant g)) in E. lia.
Qed.
Lemma tables_update id d w : team_tables w -> team_tables (update_team id d w).
Proof.
  intros [[H1 H2 H3 H4] Ho]. unfold update_team, set_teams. set (f := fun r => if team_id (tm_team r) =? id then _ else r).
  assert (Hf : forall r, row_id (f r) = row_id r /\ team_tenant (tm_team (f r)) = team_tenant (tm_team r)).
  { intros r. unfold f, row_id. destruct (Z.eqb_spec (team_id (tm_team r)) id) as [E|E]; [by rewrite E|done]. }
  assert (E : map row_id (map f (aw_teams w)) = map row_id (aw_teams w)) by (rewrite map_map; apply map_ext; intros r; apply Hf). split.
  - split; cbn [with_teams aw_teams aw_members aw_grants aw_next]; rewrite ?E; [done| |done|done].
    intros r Hr. apply in_map_iff in Hr as (x & <- & Hx). rewrite (proj1 (Hf x)). by apply H2.
  - intros g r Hg Hr Er. cbn in Hr. apply in_map_iff in Hr as (x & <- & Hx). destruct (Hf x) as [F1 F2]. rewrite F1 in Er. rewrite F2. by apply (Ho g x).
Qed.
Lemma tables_delete id w : team_tables w -> team_tables (delete_team id w).
Proof.
  intros [[H1 H2 H3 H4] Ho]. assert (Hk : forall x, In x (map row_id (aw_teams w)) -> x <> id ->
    In x (map row_id (List.filter (fun r => negb (team_id (tm_team r) =? id)) (aw_teams w)))).
  { intros x Hx Hne. apply in_map_iff in Hx as (r & <- & Hr). apply in_map, filter_In. split; [done|]. by apply negb_true_iff, Z.eqb_neq. } split.
  - split; cbn [delete_team with_teams aw_teams aw_members aw_grants aw_next].
    + by apply NoDup_map_filter.
    + intros r Hr. apply filter_In in Hr as [Hr _]. by apply H2.
    + intros t u Hin. apply filter_In in Hin as [Hin E]. cbn in E. boolify. apply Hk; [by apply (H3 t u)|done].
    + intros g Hin. apply filter_In in Hin as [Hin E]. boolify. apply Hk; [by apply H4|done].
  - intros g r Hg Hr. cbn in Hg, Hr. apply filter_In in Hg as [Hg _], Hr as [Hr _]. by apply (Ho g r).
Qed.
Lemma tables_members id l w : team_tables w -> team_tables (fst (setMembers w id l)).
Proof.
  intros [H Ho]. unfold setMembers. destruct (sbind _ _) as [e|wanted] eqn:E; cbn [checked fst]; [by split|]. apply sbind_inr in E as (team & Hf & _).
  apply some_or_inr in Hf. apply find_some in Hf as [Hf E]. apply Z.eqb_eq in E. destruct H as [H1 H2 H3 H4]. split; [|exact Ho]. split; try done.
  intros t u Hin. cbn in Hin. apply in_app_or in Hin as [Hin|Hin]; [apply filter_In in Hin as [Hin _]; by apply (H3 t u)|].
  apply in_map_iff in Hin as (x & [= <- <-] & _). rewrite <- E. by apply (in_map row_id).
Qed.
(** Grants dropped. *)
Lemma tables_fewer p w : team_tables w -> team_tables (with_teams (aw_teams w) (aw_members w) (List.filter p (aw_grants w)) w).
Proof.
  intros [[H1 H2 H3 H4] Ho]. split; [split; try done|]; cbn.
  - intros g Hg. apply filter_In in Hg as [Hg _]. by apply H4.
  - intros g r Hg Hr. apply filter_In in Hg as [Hg _]. by apply (Ho g r).
Qed.
Lemma tables_insert id team l w :
  In team (aw_teams w) -> row_id team = id -> assertScopesInTenant w l (team_tenant (tm_team team)) = inr tt -> team_tables w -> team_tables (insert_grants id l w).
Proof.
  intros Ht Hid. revert w Ht. induction l as [|p l IH]; intros w Ht Hs [H Ho]; [done|]. cbn [insert_grants].
  unfold assertScopesInTenant in Hs. apply sbind_inr in Hs as (? & G1 & G2). apply require_inr in G1, G2. cbn [forallb] in G1, G2.
  apply andb_true_iff in G1 as [G1 G1'], G2 as [G2 G2']. apply IH; [done| |].
  - unfold assertScopesInTenant, group_in_tenant, agent_in_tenant in *. cbn [next_id with_teams aw_groups aw_devices]. by rewrite G1', G2'.
  - destruct H as [K1 K2 K3 K4]. split.
    + split; try done; cbn.
      * intros r Hr. specialize (K2 r Hr). lia.
      * intros g Hg. apply in_app_or in Hg as [Hg|[<-|[]]]; [by apply K4|]. cbn. rewrite <- Hid. by apply in_map.
    + intros g r Hg Hr E. cbn in Hg, Hr. apply in_app_or in Hg as [Hg|[<-|[]]]; [by apply (Ho g r)|]. cbn in E. rewrite <- Hid in E.
      rewrite (NoDup_key row_id (aw_teams w) r team K1 Hr Ht E). split; intros Es; cbn in Es; [by rewrite Es in G1|by rewrite Es in G2].
Qed.

Lemma tables_on_team w actor raw next k :
  team_tables w -> (forall r, team_tables (fst (k r))) -> team_tables (fst (on_team w actor raw next k)).
Proof. intros H Hk. unfold on_team. destruct (sbind _ _); [done|apply Hk]. Qed.

(** Every request on teams keeps the tables sound: fresh ids, members and grants of existing
    teams, and each group or agent granted is one of the team's own tenant. *)
Theorem team_tables_kept w actor q (H : team_tables w) : team_tables (fst (serve_team w actor q)).
Proof.
  unfold serve_team, users_route. destruct (may_manage_users _ _ _); [|done]. destruct (team_schema q); [|done].
  destruct q as [d|raw d|raw|raw l|raw l|raw rp]; cbn [serve_team_valid].
  - destruct (require _ _) as [e|[]]; cbn [checked fst]; [done|by apply tables_create].
  - apply tables_on_team; [done|]. intros r. cbv zeta. destruct (require _ _) as [e|[]]; cbn [checked fst]; [done|by apply tables_update].
  - apply tables_on_team; [done|]. intros r. by apply tables_delete.
  - apply tables_on_team; [done|]. intros r. by apply tables_members.
  - apply tables_on_team; [done|]. intros r. unfold setPermissions. destruct (sbind _ _) as [e|merged] eqn:E; cbn [checked fst]; [done|].
    apply sbind_inr in E as (team & Hf & E). cbv zeta in E. apply sbind_inr in E as ([] & Hs & E). injection E as <-. apply some_or_inr in Hf. apply find_some in Hf as [Hf Eid].
    apply Z.eqb_eq in Eid. apply (tables_insert _ team); [done|done| |by apply tables_fewer]. exact Hs.
  - apply tables_on_team; [done|]. intros r. destruct (parse_int rp); [|done]. unfold removePermission. destruct (require _ _) as [e|[]]; cbn [checked fst]; [done|by apply tables_fewer].
Qed.

(** ** Examples *)

Lemma sample_tables : team_tables sample_admin.
Proof.
  split; [split|].
  - apply (bool_decide_unpack _). by vm_compute.
  - intros r Hr. change (row_id r < 10). cbn in Hr. destruct Hr as [<-|[<-|[]]]; cbn; lia.
  - intros t u Hin. cbn in Hin |- *. destruct Hin as [[= <- <-]|[[= <- <-]|[]]]; tauto.
  - intros g Hin. cbn in Hin |- *. destruct Hin as [<-|[<-|[]]]; cbn; tauto.
  - intros g r Hg Hr E. cbn in Hg, Hr. destruct Hg as [<-|[<-|[]]], Hr as [<-|[<-|[]]]; try done; split; intros Es; by vm_compute.
Qed.
Definition widen : TeamRequest := Team_permissions "6" [{| tg_scope := "agent"; tg_id := 1; tg_level := RW |}].
Lemma team_changes_confined_witness :
  getAgentScope (dir_of (fst (serve_team sample_admin helpdesk widen))) 7 (Some 3) false None = getAgentScope (dir_of sample_admin) 7 (Some 3) false None
  /\ snd (serve_team sample_admin helpdesk widen) = inr tt.
Proof.
  split; [|by vm_compute]. apply (team_changes_confined sample_admin helpdesk widen (proj1 sample_tables)). by vm_compute.
Defined.
Lemma team_tables_kept_witness : team_tables (fst (serve_team sample_admin helpdesk widen)).
Proof. apply (team_tables_kept sample_admin helpdesk widen sample_tables). Defined.
