(* ===== verification/LiveAlert.v ===== *)
(** * Live alerts and incidents

    [server/src/services/liveAlert.service.ts], [server/src/controllers/liveAlert.controller.ts]
    and the client's list of open alerts ([client/src/store/liveAlertsStore.ts]). A row of
    [live_alerts] is active while its [resolved_at] is null. Each function below is the code
    run alone; [Task] cuts the same functions where the code awaits, for the interleavings of
    [AlertRuns]. *)

From S2P Require Import Prelude JsString JsValue JsNumber Tenancy Access SocketRooms Query.

(** ** Rows *)

Inductive LiveAlertSeverity := Sev_down | Sev_up | Sev_warning | Sev_info.
#[export] Instance LiveAlertSeverity_eq : EqDecision LiveAlertSeverity.
Proof. solve_decision. Defined.

(** A row of [live_alerts]. *)
Record AlertRow := {
  la_id : Z; la_tenant : Z; la_severity : LiveAlertSeverity; la_title : string; la_message : string;
  la_navigate : option string; la_key : option string; la_read : option Z; la_created : Z;
  la_kind : option string; la_device : option Z; la_resolved : option Z; la_occurrences : Z; la_updated : option Z
}.
Definition is_active (r : AlertRow) : bool := bool_decide (la_resolved r = None).

(** What a client receives. *)
Record LiveAlertRow := {
  lr_id : Z; lr_tenantId : Z; lr_tenantName : option string; lr_severity : LiveAlertSeverity;
  lr_title : string; lr_message : string; lr_navigateTo : option string; lr_stableKey : option string;
  lr_read : bool; lr_readAt : option Z; lr_createdAt : Z; lr_incidentKind : option string;
  lr_deviceId : option Z; lr_resolvedAt : option Z; lr_occurrences : Z; lr_updatedAt : option Z
}.
Definition rowToAlert (tenant_name : option string) (r : AlertRow) : LiveAlertRow := {|
  lr_id := la_id r; lr_tenantId := la_tenant r; lr_tenantName := tenant_name; lr_severity := la_severity r;
  lr_title := la_title r; lr_message := la_message r; lr_navigateTo := la_navigate r; lr_stableKey := la_key r;
  lr_read := negb (bool_decide (la_read r = None)); lr_readAt := la_read r; lr_createdAt := la_created r;
  lr_incidentKind := la_kind r; lr_deviceId := la_device r; lr_resolvedAt := la_resolved r;
  lr_occurrences := la_occurrences r; lr_updatedAt := la_updated r |}.

Definition resolved_at (t : Z) (r : AlertRow) : AlertRow := {|
  la_id := la_id r; la_tenant := la_tenant r; la_severity := la_severity r; la_title := la_title r; la_message := la_message r;
  la_navigate := la_navigate r; la_key := la_key r; la_read := la_read r; la_created := la_created r; la_kind := la_kind r;
  la_device := la_device r; la_resolved := Some t; la_occurrences := la_occurrences r; la_updated := la_updated r |}.
Definition read_at (t : Z) (r : AlertRow) : AlertRow := {|
  la_id := la_id r; la_tenant := la_tenant r; la_severity := la_severity r; la_title := la_title r; la_message := la_message r;
  la_navigate := la_navigate r; la_key := la_key r; la_read := Some t; la_created := la_created r; la_kind := la_kind r;
  la_device := la_device r; la_resolved := la_resolved r; la_occurrences := la_occurrences r; la_updated := la_updated r |}.

Definition LIVE_ALERT_INCIDENT_KINDS : list string :=
  ["agent_offline"; "ban_burst"; "blocklist_sync_failed"; "mikrotik_sync_failed"; "agent_update_failed"; "agent_pending"].
Definition LIVE_ALERTS_PER_TENANT : nat := 500.
Definition RESOLVE_CHUNK : nat := 200.
Definition incidentStableKey (kind subject : string) : string := kind +:+ ":" +:+ subject.

Record RaiseIncidentInput := {
  ri_tenantId : number; ri_kind : string; ri_stableKey : string; ri_deviceId : option Z;
  ri_title : string; ri_message : string; ri_severity : LiveAlertSeverity; ri_link : option string
}.
Record ResolveIncidentsInput := { rs_tenantId : option Z; rs_stableKey : option string; rs_deviceId : option Z; rs_kind : option string }.
Record AlertOpts := { ao_severity : LiveAlertSeverity; ao_title : string; ao_message : string; ao_navigateTo : option string; ao_stableKey : option string }.

(** ** The world *)

Inductive AlertEvent :=
| NOTIFICATION_NEW (alert : LiveAlertRow)
| NOTIFICATION_RESOLVED (tenantId : Z) (ids : list Z)
| NOTIFICATION_READ (tenantId : Z) (ids : list Z) (readAt : Z).

(** The clock, the socket server (null before start-up), the tenants and their names, the
    agents, the memberships [(user, tenant)], [live_alerts] with its sequence, and what was
    emitted, oldest first. *)
Record AlertWorld := {
  lw_now : Z; lw_io : bool; lw_tenants : gmap Z string; lw_devices : gset Z; lw_members : list (Z * Z);
  lw_rows : list AlertRow; lw_next : Z; lw_out : list (Emission AlertEvent)
}.
Definition with_rows (rows : list AlertRow) (w : AlertWorld) : AlertWorld := {|
  lw_now := lw_now w; lw_io := lw_io w; lw_tenants := lw_tenants w; lw_devices := lw_devices w; lw_members := lw_members w;
  lw_rows := rows; lw_next := lw_next w; lw_out := lw_out w |}.
Definition with_out (es : list (Emission AlertEvent)) (w : AlertWorld) : AlertWorld := {|
  lw_now := lw_now w; lw_io := lw_io w; lw_tenants := lw_tenants w; lw_devices := lw_devices w; lw_members := lw_members w;
  lw_rows := lw_rows w; lw_next := lw_next w; lw_out := lw_out w ++ es |}.

(** [UPDATE ... WHERE p] and its [RETURNING]; [DELETE ... WHERE p]. *)
Definition update_rows (p : AlertRow -> bool) (f : AlertRow -> AlertRow) (w : AlertWorld) : AlertWorld :=
  with_rows (map (fun r => if p r then f r else r) (lw_rows w)) w.
Definition updated_rows (p : AlertRow -> bool) (w : AlertWorld) : list AlertRow := List.filter p (lw_rows w).
Definition delete_rows (p : AlertRow -> bool) (w : AlertWorld) : AlertWorld :=
  with_rows (List.filter (fun r => negb (p r)) (lw_rows w)) w.

(** [INSERT ... RETURNING *]: the sequence moves even when the tenant does not exist. *)
Definition insert_row (mk : Z -> AlertRow) (w : AlertWorld) : AlertWorld * option AlertRow :=
  let r := mk (lw_next w) in
  let w' := {| lw_now := lw_now w; lw_io := lw_io w; lw_tenants := lw_tenants w; lw_devices := lw_devices w;
               lw_members := lw_members w; lw_rows := lw_rows w; lw_next := lw_next w + 1; lw_out := lw_out w |} in
  match lw_tenants w !! la_tenant r with
  | None => (w', None)
  | Some _ => (with_rows (lw_rows w ++ [r]) w', Some r)
  end.
(** PostgreSQL's foreign key error: the statement fails, and its transaction. *)
Definition foreign_key : CodedError := codedError 500 "23503" "insert violates foreign key constraint".
Definition plain_error (message : string) : CodedError := codedError 500 "" message.

(** ** Emits *)

Definition audienceRooms (tenantId : Z) : list string :=
  notifications_room tenantId :: if isMasterTenant (Some tenantId) then [] else [notifications_room MASTER_TENANT_ID].

(** Of the [Map], in insertion order. *)
Fixpoint add_to_tenant (t id : Z) (m : list (Z * list Z)) : list (Z * list Z) :=
  match m with
  | [] => [(t, [id])]
  | (t', ids) :: rest => if t' =? t then (t', ids ++ [id]) :: rest else (t', ids) :: add_to_tenant t id rest
  end.
Definition groupByTenant (rows : list AlertRow) : list (Z * list Z) :=
  fold_left (fun m r => add_to_tenant (la_tenant r) (la_id r) m) rows [].

Definition emitResolved (rows : list AlertRow) (w : AlertWorld) : AlertWorld :=
  if negb (lw_io w) || bool_decide (rows = []) then w
  else with_out (map (fun tg => emit_to (audienceRooms (fst tg)) "notification:resolved" (NOTIFICATION_RESOLVED (fst tg) (snd tg))) (groupByTenant rows)) w.

#[export] Instance AlertRow_eq : EqDecision AlertRow.
Proof. solve_decision. Defined.

(** ** The trim *)

(** [ORDER BY (resolved_at IS NULL) DESC, id DESC] *)
Definition kept_before (a b : AlertRow) : bool :=
  if is_active a && negb (is_active b) then true
  else if negb (is_active a) && is_active b then false
  else la_id b <=? la_id a.
Definition of_tenant (t : Z) (r : AlertRow) : bool := la_tenant r =? t.
Definition kept_ids (tenantId : Z) (rows : list AlertRow) : list Z :=
  map la_id (take LIVE_ALERTS_PER_TENANT (order_by kept_before (List.filter (of_tenant tenantId) rows))).
Definition trimmed (tenantId : Z) (rows : list AlertRow) (r : AlertRow) : bool :=
  of_tenant tenantId r && negb (bool_decide (la_id r ∈ kept_ids tenantId rows)).
Definition trimTenant (tenantId : Z) (w : AlertWorld) : AlertWorld :=
  let gone := updated_rows (trimmed tenantId (lw_rows w)) w in
  emitResolved (List.filter is_active gone) (delete_rows (trimmed tenantId (lw_rows w)) w).

Definition announce (row : AlertRow) (tenantId : Z) (w : AlertWorld) : AlertWorld * LiveAlertRow :=
  let enriched := rowToAlert (Some (default "" (lw_tenants w !! tenantId))) row in
  (if lw_io w then with_out [emit_to (audienceRooms tenantId) "notification:new" (NOTIFICATION_NEW enriched)] w else w, enriched).

(** ** Plain alerts *)

Definition blank_alert (t : Z) (opts : AlertOpts) (now id : Z) : AlertRow := {|
  la_id := id; la_tenant := t; la_severity := ao_severity opts; la_title := ao_title opts; la_message := ao_message opts;
  la_navigate := ao_navigateTo opts; la_key := ao_stableKey opts; la_read := None; la_created := now; la_kind := None;
  la_device := None; la_resolved := None; la_occurrences := 1; la_updated := None |}.
(** [opts.stableKey] is tested for truth. *)
Definition truthy_key (k : option string) : option string := match k with Some "" => None | _ => k end.
Definition add_duplicate (tenantId : Z) (opts : AlertOpts) (w : AlertWorld) : bool :=
  match truthy_key (ao_stableKey opts) with
  | None => false
  | Some k => existsb (fun r => of_tenant tenantId r && bool_decide (la_key r = Some k) && bool_decide (la_read r = None) && is_active r) (lw_rows w)
  end.
Definition add (tenantId : Z) (opts : AlertOpts) (w : AlertWorld) : AlertWorld * (CodedError + option LiveAlertRow) :=
  if add_duplicate tenantId opts w then (w, inr None)
  else match insert_row (blank_alert tenantId opts (lw_now w)) w with
       | (w1, None) => (w1, inl foreign_key)
       | (w1, Some row) => let '(w2, a) := announce row tenantId (trimTenant tenantId w1) in (w2, inr (Some a))
       end.

(** ** Incidents *)

Definition assertIncidentInput (input : RaiseIncidentInput) : CodedError + Z :=
  match ri_tenantId input with
  | NInt t =>
      if t <=? 0 then inl (plain_error "raiseIncident: invalid tenantId")
      else if negb (bool_decide (ri_kind input ∈ LIVE_ALERT_INCIDENT_KINDS)) then inl (plain_error "raiseIncident: unknown incident kind")
      else if (String.length (ri_stableKey input) =? 0)%nat || (255 <? String.length (ri_stableKey input))%nat
           then inl (plain_error "raiseIncident: stableKey must be 1-255 characters")
      else inr t
  | NOther => inl (plain_error "raiseIncident: invalid tenantId")
  end.
Definition incidentLockKey (tenantId : Z) (stableKey : string) : string := "live_alert_incident:" +:+ dec tenantId +:+ ":" +:+ stableKey.

(** The active rows of the key, newest id first: what the transaction reads under its lock. *)
Definition of_key (t : Z) (k : string) (r : AlertRow) : bool := of_tenant t r && bool_decide (la_key r = Some k).
Definition open_of_key (t : Z) (k : string) (w : AlertWorld) : list AlertRow :=
  order_by (fun a b => la_id b <=? la_id a) (List.filter (fun r => of_key t k r && is_active r) (lw_rows w)).

Definition keep_of (input : RaiseIncidentInput) (active : list AlertRow) : option AlertRow :=
  List.find (fun r => bool_decide (la_severity r = ri_severity input)) active.
Definition stale_of (input : RaiseIncidentInput) (active : list AlertRow) : list Z :=
  map la_id (List.filter (fun r => match keep_of input active with Some k => negb (la_id r =? la_id k) | None => true end) active).

Definition bumped (input : RaiseIncidentInput) (now : Z) (r : AlertRow) : AlertRow := {|
  la_id := la_id r; la_tenant := la_tenant r; la_severity := la_severity r; la_title := ri_title input; la_message := ri_message input;
  la_navigate := ri_link input; la_key := la_key r; la_read := la_read r; la_created := la_created r; la_kind := Some (ri_kind input);
  la_device := ri_deviceId input; la_resolved := la_resolved r; la_occurrences := la_occurrences r + 1; la_updated := Some now |}.
Definition raised (input : RaiseIncidentInput) (t now created id : Z) : AlertRow := {|
  la_id := id; la_tenant := t; la_severity := ri_severity input; la_title := ri_title input; la_message := ri_message input;
  la_navigate := ri_link input; la_key := Some (ri_stableKey input); la_read := None; la_created := created; la_kind := Some (ri_kind input);
  la_device := ri_deviceId input; la_resolved := None; la_occurrences := 1; la_updated := Some now |}.

(** What the transaction commits, from the rows it has read: the row, whether it is new, and
    the rows resolved. Its conditional updates take the rows as they are by then. *)
Definition is_keep (input : RaiseIncidentInput) (active : list AlertRow) (r : AlertRow) : bool :=
  match keep_of input active with Some k => (la_id r =? la_id k) && is_active r | None => false end.
Definition is_stale (input : RaiseIncidentInput) (active : list AlertRow) (r : AlertRow) : bool :=
  bool_decide (la_id r ∈ stale_of input active) && is_active r.
Definition raise_commit (input : RaiseIncidentInput) (t now : Z) (active : list AlertRow) (w : AlertWorld)
    : AlertWorld * (CodedError + (AlertRow * bool * list AlertRow)) :=
  let resolvedRows := updated_rows (is_stale input active) w in
  let w1 := update_rows (is_stale input active) (resolved_at now) w in
  match updated_rows (is_keep input active) w1 with
  | r :: _ => (update_rows (is_keep input active) (bumped input now) w1, inr (bumped input now r, false, resolvedRows))
  | [] =>
      match insert_row (raised input t now (lw_now w1)) w1 with
      | (w2, None) => (with_rows (lw_rows w) w2, inl foreign_key)
      | (w2, Some row) => (w2, inr (row, true, resolvedRows))
      end
  end.

(** [{ alert, created }] *)
Definition raiseIncident (input : RaiseIncidentInput) (w : AlertWorld) : AlertWorld * (CodedError + (LiveAlertRow * bool)) :=
  match assertIncidentInput input with
  | inl e => (w, inl e)
  | inr t =>
      match raise_commit input t (lw_now w) (open_of_key t (ri_stableKey input) w) w with
      | (w1, inl e) => (w1, inl e)
      | (w1, inr (row, created, resolved)) =>
          let w2 := emitResolved resolved w1 in
          if negb created then (w2, inr (rowToAlert None row, false))
          else let '(w3, a) := announce row t (trimTenant t w2) in (w3, inr (a, true))
      end
  end.

(** ** Recovery *)

Definition opt_test {A} (o : option A) (p : A -> bool) : bool := match o with Some a => p a | None => true end.
Definition matches (sel : ResolveIncidentsInput) (r : AlertRow) : bool :=
  is_active r
  && opt_test (rs_tenantId sel) (fun t => la_tenant r =? t)
  && opt_test (truthy_key (rs_stableKey sel)) (fun k => bool_decide (la_key r = Some k))
  && opt_test (rs_deviceId sel) (fun d => bool_decide (la_device r = Some d))
  && opt_test (truthy_key (rs_kind sel)) (fun k => bool_decide (la_kind r = Some k)).
Definition lock_keys (sel : ResolveIncidentsInput) (candidates : list AlertRow) : list string :=
  uniq (omap (fun c => match truthy_key (la_key c) with Some k => Some (incidentLockKey (la_tenant c) k) | None => None end) candidates)
  ++ match rs_tenantId sel, truthy_key (rs_stableKey sel) with
     | Some t, Some k => [incidentLockKey t k]
     | _, _ => []
     end.

(** One transaction: the rows resolved. *)
Definition resolve_chunk (sel : ResolveIncidentsInput) (w : AlertWorld) : AlertWorld * list AlertRow :=
  (update_rows (matches sel) (resolved_at (lw_now w)) w, updated_rows (matches sel) w).
(** The loop, and the ids collected. *)
Fixpoint resolve_chunks (sel : ResolveIncidentsInput) (cs : list (list string)) (ids : list Z) (w : AlertWorld) : AlertWorld * list Z :=
  match cs with
  | [] => (w, ids)
  | _ :: rest =>
      let '(w1, rows) := resolve_chunk sel w in
      resolve_chunks sel rest (ids ++ map la_id rows) (emitResolved rows w1)
  end.
(** [Math.max(keys.length, 1)]: with no key at all, one transaction without lock. *)
Definition lock_chunks (keys : list string) : list (list string) :=
  match keys with [] => [[]] | _ => chunks RESOLVE_CHUNK keys end.
Definition no_selector (sel : ResolveIncidentsInput) : bool :=
  bool_decide (truthy_key (rs_stableKey sel) = None) && bool_decide (rs_deviceId sel = None).
Definition resolveIncidents (sel : ResolveIncidentsInput) (w : AlertWorld) : AlertWorld * (CodedError + list Z) :=
  if no_selector sel then (w, inl (plain_error "resolveIncidents: stableKey or deviceId is required"))
  else
    let candidates := List.filter (matches sel) (lw_rows w) in
    let lockKeys := lock_keys sel candidates in
    if bool_decide (candidates = []) && bool_decide (lockKeys = []) then (w, inr [])
    else let '(w', ids) := resolve_chunks sel (lock_chunks (uniq lockKeys)) [] w in (w', inr ids).

(** ** Lists *)

Definition newest_first (a b : AlertRow) : bool := la_id b <=? la_id a.
Definition listed (includeResolved : bool) (r : AlertRow) : bool := includeResolved || is_active r.
(** [leftJoin]: an alert without tenant row keeps a null name. *)
Definition getForTenant (tenantId : Z) (limit : nat) (includeResolved : bool) (w : AlertWorld) : list LiveAlertRow :=
  map (fun r => rowToAlert (lw_tenants w !! la_tenant r) r)
    (take limit (order_by newest_first (List.filter (fun r => (isMasterTenant (Some tenantId) || of_tenant tenantId r) && listed includeResolved r) (lw_rows w)))).
Definition in_scope (tenantIds : Ids) (t : Z) : bool := match tenantIds with Ids_all => true | Ids_list l => mem t l end.
(** [join]: only alerts of an existing tenant. *)
Definition getForTenants (tenantIds : Ids) (limit : nat) (includeResolved : bool) (w : AlertWorld) : list LiveAlertRow :=
  match tenantIds with
  | Ids_list [] => []
  | _ =>
      map (fun r => rowToAlert (lw_tenants w !! la_tenant r) r)
        (take limit (order_by newest_first (List.filter (fun r =>
           bool_decide (is_Some (lw_tenants w !! la_tenant r)) && in_scope tenantIds (la_tenant r) && listed includeResolved r) (lw_rows w))))
  end.

(** ** Reads, deletions, retention *)

(** [where({ id, tenant_id })] *)
Definition the_alert (id tenantId : Z) (r : AlertRow) : bool := (la_id r =? id) && of_tenant tenantId r.
Definition markRead (id tenantId : Z) (w : AlertWorld) : AlertWorld * option Z :=
  (update_rows (the_alert id tenantId) (read_at (lw_now w)) w,
   match updated_rows (the_alert id tenantId) w with [] => None | _ => Some (lw_now w) end).
Definition unread_active (tenantId : Z) (r : AlertRow) : bool := of_tenant tenantId r && bool_decide (la_read r = None) && is_active r.
Definition markAllRead (tenantId : Z) (w : AlertWorld) : AlertWorld * (list Z * Z) :=
  (update_rows (unread_active tenantId) (read_at (lw_now w)) w, (map la_id (updated_rows (unread_active tenantId) w), lw_now w)).
Definition emitRead (userId tenantId : Z) (ids : list Z) (readAt : Z) (w : AlertWorld) : AlertWorld :=
  if negb (lw_io w) || bool_decide (ids = []) then w
  else with_out [emit_to (user_room userId :: audienceRooms tenantId) "notification:read" (NOTIFICATION_READ tenantId ids readAt)] w.

Definition deleteAlert (id : Z) (w : AlertWorld) : AlertWorld := delete_rows (fun r => la_id r =? id) w.
Definition clearAll (tenantId : Z) (w : AlertWorld) : AlertWorld := delete_rows (of_tenant tenantId) w.

(** An active incident of an agent that is gone. *)
Definition orphaned (w : AlertWorld) (r : AlertRow) : bool :=
  is_active r && match la_device r with Some d => negb (bool_decide (d ∈ lw_devices w)) | None => false end.
Definition expired (cutoff : Z) (r : AlertRow) : bool :=
  match la_resolved r with
  | Some t => t <? cutoff
  | None => bool_decide (la_kind r = None) && (la_created r <? cutoff)
  end.
Definition DAY_MS : Z := 86400000.
Definition cleanup (retentionDays : Z) (w : AlertWorld) : AlertWorld * nat :=
  let gone := updated_rows (orphaned w) w in
  let w1 := emitResolved gone (update_rows (orphaned w) (resolved_at (lw_now w)) w) in
  let cutoff := lw_now w1 - Z.max 1 retentionDays * DAY_MS in
  (delete_rows (expired cutoff) w1, length (updated_rows (expired cutoff) w1)).

(** ** Requests *)

(** [req.session.userId] and [role], and the tenant the request gate let through. *)
Record Reader := { rd_user : Z; rd_role : option string; rd_tenant : Z }.
Definition reader_admin (q : Reader) : bool := bool_decide (rd_role q = Some "admin").

Definition parseAlertId (raw : string) : option Z := positive_safe (str_to_number raw).
Definition includeResolved (raw : option string) : bool := bool_decide (raw = Some "1" \/ raw = Some "true").
Definition memberTenantIds (w : AlertWorld) (userId : Z) : list Z := map snd (List.filter (fun m => fst m =? userId) (lw_members w)).
Definition readableTenants (w : AlertWorld) (q : Reader) : Ids :=
  if reader_admin q then Ids_all
  else let ids := memberTenantIds w (rd_user q) in if mem MASTER_TENANT_ID ids then Ids_all else Ids_list ids.
Definition deletableTenants (w : AlertWorld) (q : Reader) : Ids :=
  if reader_admin q then Ids_all else Ids_list (memberTenantIds w (rd_user q)).
Definition alertIn (id : Z) (scope : Ids) (w : AlertWorld) : option AlertRow :=
  List.find (fun r => (la_id r =? id) && in_scope scope (la_tenant r)) (lw_rows w).
Definition found_alert (raw : string) (scope : Ids) (w : AlertWorld) : option AlertRow :=
  match parseAlertId raw with Some id => alertIn id scope w | None => None end.

Inductive AlertRequest :=
| Get_alerts (includeResolved : option string)
| Get_all (includeResolved : option string)
| Mark_read (id : string)
| Mark_all_read
| Delete_alert (id : string)
| Clear_all.
Inductive AlertAnswer := Ans_alerts (l : list LiveAlertRow) | Ans_all (alerts : list LiveAlertRow) (tenants : list Z) | Ans_ok | Ans_not_found.

Definition serve_alert (q : Reader) (rq : AlertRequest) (w : AlertWorld) : AlertWorld * AlertAnswer :=
  match rq with
  | Get_alerts inc => (w, Ans_alerts (getForTenant (rd_tenant q) 100 (includeResolved inc) w))
  | Get_all inc =>
      let scope := readableTenants w q in
      (w, Ans_all (getForTenants scope 200 (includeResolved inc) w)
                  (List.filter (in_scope scope) (order_by Z.leb (map fst (map_to_list (lw_tenants w))))))
  | Mark_read raw =>
      match found_alert raw (readableTenants w q) w with
      | None => (w, Ans_not_found)
      | Some a =>
          let '(w1, readAt) := markRead (la_id a) (la_tenant a) w in
          (match readAt with Some t => emitRead (rd_user q) (la_tenant a) [la_id a] t w1 | None => w1 end, Ans_ok)
      end
  | Mark_all_read =>
      let '(w1, (ids, readAt)) := markAllRead (rd_tenant q) w in
      (emitRead (rd_user q) (rd_tenant q) ids readAt w1, Ans_ok)
  | Delete_alert raw =>
      match found_alert raw (deletableTenants w q) w with
      | None => (w, Ans_not_found)
      | Some a => (deleteAlert (la_id a) w, Ans_ok)
      end
  | Clear_all => (clearAll (rd_tenant q) w, Ans_ok)
  end.

(** ** The bell of a client *)

(** The list of the store; the dismissed toasts are not kept here. *)
Definition Bell : Type := list LiveAlertRow.
Definition shown (a : LiveAlertRow) : bool := bool_decide (lr_resolvedAt a = None).
Definition set_lr_read (readAt : option Z) (a : LiveAlertRow) : LiveAlertRow := {|
  lr_id := lr_id a; lr_tenantId := lr_tenantId a; lr_tenantName := lr_tenantName a; lr_severity := lr_severity a;
  lr_title := lr_title a; lr_message := lr_message a; lr_navigateTo := lr_navigateTo a; lr_stableKey := lr_stableKey a;
  lr_read := true; lr_readAt := readAt; lr_createdAt := lr_createdAt a; lr_incidentKind := lr_incidentKind a;
  lr_deviceId := lr_deviceId a; lr_resolvedAt := lr_resolvedAt a; lr_occurrences := lr_occurrences a; lr_updatedAt := lr_updatedAt a |}.

Definition fetchAlerts (alerts : list LiveAlertRow) : Bell := List.filter shown alerts.
Definition addAlertFromServer (a : LiveAlertRow) (b : Bell) : Bell :=
  if negb (shown a) || existsb (fun x => lr_id x =? lr_id a) b then b else take 200 (a :: b).
Definition applyResolvedFromServer (ids : list Z) (b : Bell) : Bell := List.filter (fun a => negb (mem (lr_id a) ids)) b.
Definition applyReadFromServer (ids : list Z) (readAt : Z) (b : Bell) : Bell :=
  map (fun a => if mem (lr_id a) ids then set_lr_read (Some readAt) a else a) b.
Definition on_event (e : AlertEvent) (b : Bell) : Bell :=
  match e with
  | NOTIFICATION_NEW a => addAlertFromServer a b
  | NOTIFICATION_RESOLVED _ ids => applyResolvedFromServer ids b
  | NOTIFICATION_READ _ ids t => applyReadFromServer ids t b
  end.
(** What the client changes at once, before the server answers. *)
Definition local_read (id : Z) (b : Bell) : Bell := map (fun a => if lr_id a =? id then set_lr_read (lr_readAt a) a else a) b.
Definition local_read_all (b : Bell) : Bell := map (fun a => set_lr_read (lr_readAt a) a) b.
Definition local_remove (id : Z) (b : Bell) : Bell := List.filter (fun a => negb (lr_id a =? id)) b.
Definition countUnread (b : Bell) (tenantId : option Z) : nat :=
  length (List.filter (fun a => negb (lr_read a) && opt_test tenantId (fun t => lr_tenantId a =? t)) b).
