(* ===== verification/AlertRuns.v ===== *)
(** * Live alerts: interleaved runs

    The calls of [LiveAlert] cut where the code awaits: a [Task] is what is left of a call, one
    step runs it to its next await. The rows a transaction locks stay locked to its commit and
    its writes are invisible before it, so the writes of a transaction are one step; the
    advisory locks keep a second raise of a key, or a recovery of it, waiting. The requests of
    the bell are one step each. The environment moves the clock, creates and deletes tenants
    (with their alerts), agents and memberships. *)

From S2P Require Import Prelude JsString JsValue JsNumber Tenancy Access SocketRooms Query LiveAlert.

(** ** Tasks *)

Inductive Task :=
| T_lock (input : RaiseIncidentInput) (t now : Z)
| T_raise (input : RaiseIncidentInput) (t now : Z) (active : list AlertRow)
| T_raised (resolved : list AlertRow) (row : option AlertRow) (t : Z)
| T_insert (t : Z) (opts : AlertOpts)
| T_trim (t : Z) (row : AlertRow)
| T_trimmed (gone : list AlertRow) (t : Z) (row : AlertRow)
| T_announce (t : Z) (row : AlertRow)
| T_new (t : Z) (a : LiveAlertRow)
| T_resolve (sel : ResolveIncidentsInput) (cs : list (list string))
| T_resolved (sel : ResolveIncidentsInput) (rows : list AlertRow) (cs : list (list string))
| T_orphans (rows : list AlertRow) (days : Z)
| T_expire (days : Z).

Inductive Call :=
| C_add (t : Z) (opts : AlertOpts)
| C_raise (input : RaiseIncidentInput)
| C_resolve (sel : ResolveIncidentsInput)
| C_cleanup (days : Z)
| C_request (q : Reader) (rq : AlertRequest).

Definition trim_rows (t : Z) (w : AlertWorld) : AlertWorld * list AlertRow :=
  (delete_rows (trimmed t (lw_rows w)) w, updated_rows (trimmed t (lw_rows w)) w).

(** The first part of a call. *)
Definition begin (c : Call) (w : AlertWorld) : AlertWorld * option Task :=
  match c with
  | C_add t opts => (w, if add_duplicate t opts w then None else Some (T_insert t opts))
  | C_raise input => (w, match assertIncidentInput input with inl _ => None | inr t => Some (T_lock input t (lw_now w)) end)
  | C_resolve sel =>
      (w, if no_selector sel then None
          else let candidates := List.filter (matches sel) (lw_rows w) in
               let lockKeys := lock_keys sel candidates in
               if bool_decide (candidates = []) && bool_decide (lockKeys = []) then None
               else Some (T_resolve sel (lock_chunks (uniq lockKeys))))
  | C_cleanup days => (update_rows (orphaned w) (resolved_at (lw_now w)) w, Some (T_orphans (updated_rows (orphaned w) w) days))
  | C_request q rq => (fst (serve_alert q rq w), None)
  end.

(** From one await to the next. *)
Definition advance (tk : Task) (w : AlertWorld) : AlertWorld * option Task :=
  match tk with
  | T_lock input t now => (w, Some (T_raise input t now (open_of_key t (ri_stableKey input) w)))
  | T_raise input t now active =>
      match raise_commit input t now active w with
      | (w1, inl _) => (w1, None)
      | (w1, inr (row, created, resolved)) => (w1, Some (T_raised resolved (if created then Some row else None) t))
      end
  | T_raised resolved row t => (emitResolved resolved w, match row with None => None | Some r => Some (T_trim t r) end)
  | T_insert t opts =>
      match insert_row (blank_alert t opts (lw_now w)) w with
      | (w1, None) => (w1, None)
      | (w1, Some row) => (w1, Some (T_trim t row))
      end
  | T_trim t row => let '(w1, gone) := trim_rows t w in (w1, Some (T_trimmed gone t row))
  | T_trimmed gone t row => (emitResolved (List.filter is_active gone) w, Some (T_announce t row))
  | T_announce t row => (w, Some (T_new t (rowToAlert (Some (default "" (lw_tenants w !! t))) row)))
  | T_new t a => (if lw_io w then with_out [emit_to (audienceRooms t) "notification:new" (NOTIFICATION_NEW a)] w else w, None)
  | T_resolve sel cs =>
      match cs with
      | [] => (w, None)
      | _ :: rest => let '(w1, rows) := resolve_chunk sel w in (w1, Some (T_resolved sel rows rest))
      end
  | T_resolved sel rows cs => (emitResolved rows w, Some (T_resolve sel cs))
  | T_orphans rows days => (emitResolved rows w, Some (T_expire days))
  | T_expire days => (delete_rows (expired (lw_now w - Z.max 1 days * DAY_MS)) w, None)
  end.

(** The advisory locks a task holds, and those it must get first. *)
Definition holding (tk : Task) : list string :=
  match tk with T_raise input t _ _ => [incidentLockKey t (ri_stableKey input)] | _ => [] end.
Definition needs (tk : Task) : list string :=
  match tk with
  | T_lock input t _ => [incidentLockKey t (ri_stableKey input)]
  | T_resolve _ (c :: _) => c
  | _ => []
  end.
Definition held (ts : list Task) : list string := flat_map holding ts.
Definition may_run (others : list Task) (tk : Task) : bool := forallb (fun k => negb (bool_decide (k ∈ held others))) (needs tk).

Definition environment (now : Z) (io : bool) (tenants : gmap Z string) (devices : gset Z) (members : list (Z * Z)) (w : AlertWorld) : AlertWorld := {|
  lw_now := now; lw_io := io; lw_tenants := tenants; lw_devices := devices; lw_members := members;
  lw_rows := List.filter (fun r => bool_decide (is_Some (tenants !! la_tenant r))) (lw_rows w);
  lw_next := lw_next w; lw_out := lw_out w |}.

Inductive step : AlertWorld * list Task -> AlertWorld * list Task -> Prop :=
| step_call c w ts : step (w, ts) (fst (begin c w), ts ++ option_list (snd (begin c w)))
| step_task tk l1 l2 w : may_run (l1 ++ l2) tk = true ->
    step (w, l1 ++ tk :: l2) (fst (advance tk w), l1 ++ option_list (snd (advance tk w)) ++ l2)
| step_env now io tenants devices members w ts : lw_now w <= now ->
    step (w, ts) (environment now io tenants devices members w, ts).

(** ** A call alone *)

(** Running what a call left, with nothing in between. *)
Fixpoint alone (fuel : nat) (r : AlertWorld * option Task) : option AlertWorld :=
  match r with
  | (w, None) => Some w
  | (w, Some tk) => match fuel with O => None | S n => alone n (advance tk w) end
  end.

Lemma alone_raise input w : alone 7 (begin (C_raise input) w) = Some (fst (raiseIncident input w)).
Proof.
  unfold begin, raiseIncident. destruct (assertIncidentInput input) as [e|t]; [done|]. cbn [alone advance].
  destruct (raise_commit input t (lw_now w) (open_of_key t (ri_stableKey input) w) w) as [w1 [e|[[row created] resolved]]]; [done|].
  destruct created; [|done]. cbn [alone advance negb fst]. done.
Qed.

Lemma alone_add t opts w : alone 6 (begin (C_add t opts) w) = Some (fst (add t opts w)).
Proof.
  unfold begin, add. destruct (add_duplicate t opts w); [done|]. cbn [alone advance].
  destruct (insert_row (blank_alert t opts (lw_now w)) w) as [w1 [row|]]; [|done].
  done.
Qed.

Lemma alone_resolve sel w : exists n, alone n (begin (C_resolve sel) w) = Some (fst (resolveIncidents sel w)).
Proof.
  unfold begin, resolveIncidents. destruct (no_selector sel); [by exists O|]. cbn [fst snd].
  destruct (bool_decide _ && bool_decide _); [by exists O|].
  assert (H : forall cs ids w, exists n, alone n (w, Some (T_resolve sel cs)) = Some (fst (resolve_chunks sel cs ids w))).
  { induction cs as [|c cs IH]; intros ids w0; [by exists 1%nat|].
    destruct (IH (ids ++ map la_id (updated_rows (matches sel) w0)) (emitResolved (updated_rows (matches sel) w0) (fst (resolve_chunk sel w0)))) as [n Hn].
    exists (S (S n)). cbn [alone advance resolve_chunks]. destruct (resolve_chunk sel w0) as [w1 rows] eqn:E. cbn [alone advance].
    unfold resolve_chunk in E. injection E as <- <-. cbn [fst] in Hn. done. }
  destruct (H (lock_chunks (uniq (lock_keys sel (List.filter (matches sel) (lw_rows w))))) [] w) as [n Hn]. exists n.
  rewrite Hn. by destruct (resolve_chunks _ _ _ _).
Qed.

(** ** What a step does to the rows *)

Definition incident (r : AlertRow) : bool := is_active r && negb (bool_decide (la_kind r = None)).
Definition wf_rows (w : AlertWorld) : Prop := NoDup (map la_id (lw_rows w)) /\ forall r, In r (lw_rows w) -> la_id r < lw_next w.

(** A row of [w'] comes from one of [w] with its identity, and is an incident only if that
    one was; or it is new and plain. *)
Record tame (w w' : AlertWorld) : Prop := {
  tm_next : lw_next w <= lw_next w';
  tm_wf : wf_rows w -> wf_rows w';
  tm_rows : forall r', In r' (lw_rows w') ->
    (exists r, In r (lw_rows w) /\ la_id r' = la_id r /\ la_tenant r' = la_tenant r /\ la_key r' = la_key r /\ (incident r' = true -> incident r = true))
    \/ (la_id r' = lw_next w /\ incident r' = false)
}.

Lemma tame_same w w' : lw_rows w' = lw_rows w -> lw_next w' = lw_next w -> tame w w'.
Proof.
  intros E En. split; [lia|unfold wf_rows; by rewrite E, En|]. rewrite E. intros r Hr. left. by exists r.
Qed.
Lemma tame_filter p w w' : lw_rows w' = List.filter p (lw_rows w) -> lw_next w' = lw_next w -> tame w w'.
Proof.
  intros E En. split; [lia| |].
  - intros [Hnd Hlt]. split; rewrite E; [by apply NoDup_map_filter|]. intros r Hr. apply filter_In in Hr as [Hr _]. rewrite En. by apply Hlt.
  - rewrite E. intros r Hr. apply filter_In in Hr as [Hr _]. left. by exists r.
Qed.
Lemma map_id_update (p : AlertRow -> bool) (f : AlertRow -> AlertRow) (l : list AlertRow) : (forall r, la_id (f r) = la_id r) -> map la_id (map (fun r => if p r then f r else r) l) = map la_id l.
Proof. intros H. rewrite map_map. apply map_ext. intros r. by destruct (p r). Qed.
Lemma tame_update p f w :
  (forall r, la_id (f r) = la_id r /\ la_tenant (f r) = la_tenant r /\ la_key (f r) = la_key r /\ (p r = true -> incident (f r) = true -> incident r = true)) ->
  tame w (update_rows p f w).
Proof.
  intros H. split; [done| |].
  - intros [Hnd Hlt]. unfold wf_rows. cbn [update_rows with_rows lw_rows lw_next]. split; [rewrite map_id_update; [done|apply H]|].
    intros r Hr. apply in_map_iff in Hr as (x & <- & Hx). destruct (p x); [rewrite (proj1 (H x))|]; by apply Hlt.
  - cbn [update_rows with_rows lw_rows]. intros r Hr. apply in_map_iff in Hr as (x & <- & Hx). left. exists x.
    destruct (H x) as (H1 & H2 & H3 & H4). destruct (p x) eqn:E; split_and!; eauto.
Qed.
Lemma tame_trans w1 w2 w3 : wf_rows w1 -> lw_next w2 = lw_next w1 -> tame w1 w2 -> tame w2 w3 -> tame w1 w3.
Proof.
  intros Hw En [H1 H2 H3] [G1 G2 G3]. split; [lia|auto|]. intros r3 Hr3. destruct (G3 r3 Hr3) as [(r2 & Hr2 & E1 & E2 & E3 & Hi)|[E Hi]].
  - destruct (H3 r2 Hr2) as [(r1 & Hr1 & F1 & F2 & F3 & Hj)|[F Hj]].
    + left. exists r1. split_and!; [done|congruence..|auto].
    + right. split; [congruence|]. destruct (incident r3); [|done]. by rewrite Hi in Hj.
  - right. split; [congruence|done].
Qed.
Lemma tame_insert mk w : (forall id, la_id (mk id) = id /\ la_kind (mk id) = None) -> tame w (fst (insert_row mk w)).
Proof.
  intros H. unfold insert_row. destruct (H (lw_next w)) as [H1 H2].
  destruct (lw_tenants w !! la_tenant (mk (lw_next w))); cbn [fst].
  - split; [cbn; lia| |].
    + intros [Hnd Hlt]. split; cbn [with_rows lw_rows lw_next].
      * rewrite map_app. apply NoDup_app. split; [done|]. split; [|by apply NoDup_singleton]. cbn [map]. intros i Hi Hj.
        apply list_elem_of_singleton in Hj as ->. apply list_elem_of_In, in_map_iff in Hi as (x & E & Hx). apply Hlt in Hx. lia.
      * intros r Hr. apply in_app_or in Hr as [Hr|[<-|[]]]; [apply Hlt in Hr|]; lia.
    + cbn [with_rows lw_rows]. intros r Hr. apply in_app_or in Hr as [Hr|[<-|[]]]; [left; by exists r|]. right.
      split; [done|]. unfold incident. by rewrite H2, bool_decide_true, andb_false_r.
  - split; [cbn; lia| |].
    + intros [Hnd Hlt]. split; cbn [lw_rows lw_next]; [done|]. intros r Hr. apply Hlt in Hr. lia.
    + cbn [lw_rows]. intros r Hr. left. by exists r.
Qed.

Lemma emitResolved_rows rows w : lw_rows (emitResolved rows w) = lw_rows w /\ lw_next (emitResolved rows w) = lw_next w.
Proof. unfold emitResolved. by destruct (_ || _). Qed.
Lemma emitRead_rows u t ids at_ w : lw_rows (emitRead u t ids at_ w) = lw_rows w /\ lw_next (emitRead u t ids at_ w) = lw_next w.
Proof. unfold emitRead. by destruct (_ || _). Qed.

Lemma incident_resolved t r : incident (resolved_at t r) = false.
Proof. unfold incident, is_active. cbn [resolved_at la_resolved]. by rewrite bool_decide_false. Qed.
Lemma tame_resolve p t w : tame w (update_rows p (resolved_at t) w).
Proof. apply tame_update. intros r. by split_and!. Qed.
Lemma tame_read p t w : tame w (update_rows p (read_at t) w).
Proof. by apply tame_update. Qed.

Lemma tame_serve q rq w : tame w (fst (serve_alert q rq w)).
Proof.
  destruct rq; cbn [serve_alert fst]; try by apply tame_same.
  - destruct (found_alert _ _ w) as [a|]; [|by apply tame_same]. cbn [markRead fst].
    pose proof (tame_read (the_alert (la_id a) (la_tenant a)) (lw_now w) w) as [H1 H2 H3].
    destruct (updated_rows _ w); [by split|]. destruct (emitRead_rows (rd_user q) (la_tenant a) [la_id a] (lw_now w) (update_rows (the_alert (la_id a) (la_tenant a)) (read_at (lw_now w)) w)) as [Er En].
    split; [by rewrite En|unfold wf_rows; by rewrite Er, En|by rewrite Er].
  - cbn [markAllRead fst]. pose proof (tame_read (unread_active (rd_tenant q)) (lw_now w) w) as [H1 H2 H3].
    destruct (emitRead_rows (rd_user q) (rd_tenant q) (map la_id (updated_rows (unread_active (rd_tenant q)) w)) (lw_now w) (update_rows (unread_active (rd_tenant q)) (read_at (lw_now w)) w)) as [Er En].
    split; [by rewrite En|unfold wf_rows; by rewrite Er, En|by rewrite Er].
  - destruct (found_alert _ _ w) as [a|]; [|by apply tame_same]. by eapply tame_filter.
  - by eapply tame_filter.
Qed.

Lemma begin_tame c w : tame w (fst (begin c w)).
Proof. destruct c; cbn [begin fst]; try (by apply tame_same); [apply tame_resolve|apply tame_serve]. Qed.

Definition is_raise (tk : Task) : bool := match tk with T_raise _ _ _ _ => true | _ => false end.
Lemma advance_tame tk w : is_raise tk = false -> tame w (fst (advance tk w)).
Proof.
  intros Hr. destruct tk; try discriminate Hr; cbn [advance fst]; try (by apply tame_same); try (by eapply tame_filter);
    try (by apply tame_same; apply emitResolved_rows).
  - pose proof (tame_insert (blank_alert t opts (lw_now w)) w ltac:(done)) as H. by destruct (insert_row _ w) as [w1 [row|]].
  - destruct (lw_io w); by apply tame_same.
  - destruct cs; cbn [fst]; [by apply tame_same|]. apply tame_resolve.
Qed.

(** ** The invariant *)

(** What a raise in flight knows of its key: the rows it read are rows of the key, and no
    incident of the key is active beyond them. *)
Definition knows (w : AlertWorld) (t : Z) (k : string) (active : list AlertRow) : Prop :=
  (forall a, In a active -> la_id a < lw_next w) /\
  (forall a r, In a active -> In r (lw_rows w) -> la_id r = la_id a -> of_key t k r = true) /\
  (forall r, In r (lw_rows w) -> of_key t k r = true -> incident r = true -> exists a, In a active /\ la_id a = la_id r).
Definition informed (w : AlertWorld) (tk : Task) : Prop :=
  match tk with T_raise input t _ active => knows w t (ri_stableKey input) active | _ => True end.
Definition one_incident (w : AlertWorld) : Prop :=
  forall r1 r2 k, In r1 (lw_rows w) -> In r2 (lw_rows w) -> incident r1 = true -> incident r2 = true ->
    la_tenant r1 = la_tenant r2 -> la_key r1 = Some k -> la_key r2 = Some k -> r1 = r2.
Record runs_ok (s : AlertWorld * list Task) : Prop := {
  ro_wf : wf_rows (fst s);
  ro_locks : NoDup (held (snd s));
  ro_informed : forall tk, In tk (snd s) -> informed (fst s) tk;
  ro_one : one_incident (fst s)
}.

Lemma same_id_same w r1 r2 : wf_rows w -> In r1 (lw_rows w) -> In r2 (lw_rows w) -> la_id r1 = la_id r2 -> r1 = r2.
Proof.
  intros [Hnd _]. revert Hnd. generalize (lw_rows w). induction l as [|x l IH]; intros Hnd H1 H2 E; [done|].
  cbn [map] in Hnd. apply NoDup_cons in Hnd as [Hx Hnd].
  destruct H1 as [->|H1], H2 as [->|H2]; [done| | |by apply IH]; destruct Hx; [rewrite E|rewrite <- E]; by apply list_elem_of_In, in_map.
Qed.

Lemma of_key_spec t k r : of_key t k r = true <-> la_tenant r = t /\ la_key r = Some k.
Proof. unfold of_key, of_tenant. by rewrite andb_true_iff, Z.eqb_eq, bool_decide_eq_true. Qed.

Lemma tame_knows w w' t k active : wf_rows w -> tame w w' -> knows w t k active -> knows w' t k active.
Proof.
  intros [_ Hlt] [Hn Hwf Hr] (H1 & H2 & H3). split_and!.
  - intros a Ha. specialize (H1 a Ha). lia.
  - intros a r' Ha Hr' E. destruct (Hr r' Hr') as [(r & Hin & E1 & E2 & E3 & _)|[E1 _]].
    + apply of_key_spec. rewrite E2, E3. apply of_key_spec. apply (H2 a); congruence.
    + specialize (H1 a Ha). lia.
  - intros r' Hr' Hk Hi. destruct (Hr r' Hr') as [(r & Hin & E1 & E2 & E3 & E4)|[_ E]]; [|congruence].
    rewrite E1. apply H3; [done| |by apply E4]. apply of_key_spec. rewrite <- E2, <- E3. by apply of_key_spec.
Qed.
Lemma tame_informed w w' tk : wf_rows w -> tame w w' -> informed w tk -> informed w' tk.
Proof. destruct tk; try done. apply tame_knows. Qed.
Lemma tame_one w w' : wf_rows w -> tame w w' -> one_incident w -> one_incident w'.
Proof.
  intros Hw Ht H1 r1 r2 k In1 In2 I1 I2 E K1 K2.
  destruct (tm_rows _ _ Ht r1 In1) as [(s1 & S1 & A1 & A2 & A3 & A4)|[_ F]]; [|congruence].
  destruct (tm_rows _ _ Ht r2 In2) as [(s2 & S2 & B1 & B2 & B3 & B4)|[_ F]]; [|congruence].
  apply (same_id_same w'); [by apply Ht|done|done|]. rewrite A1, B1. f_equal. apply (H1 s1 s2 k); try done; try congruence; auto.
Qed.

Lemma held_app l1 l2 : held (l1 ++ l2) = held l1 ++ held l2.
Proof. apply flat_map_app. Qed.

Lemma held_cons tk l : held (tk :: l) = holding tk ++ held l.
Proof. done. Qed.

(** What the locks of a task that continues may be: its own, or the one it waited for. *)
Lemma advance_holding tk w tk' : snd (advance tk w) = Some tk' -> holding tk' = [] \/ (holding tk' = needs tk /\ exists i t n, tk = T_lock i t n).
Proof.
  destruct tk; cbn [advance snd]; intros H; try discriminate H; try (injection H as <-; by left).
  - injection H as <-. right. split; [done|eauto].
  - destruct (raise_commit _ _ _ _ _) as [? [?|[[? ?] ?]]]; [done|]. injection H as <-. by left.
  - destruct row; [|done]. injection H as <-. by left.
  - destruct (insert_row _ _) as [? [?|]]; [|done]. injection H as <-. by left.
  - destruct cs; [done|]. cbn in H. injection H as <-. by left.
Qed.

Lemma locks_advance l1 l2 tk w : may_run (l1 ++ l2) tk = true -> NoDup (held (l1 ++ tk :: l2)) ->
  NoDup (held (l1 ++ option_list (snd (advance tk w)) ++ l2)).
Proof.
  intros Hm Hnd. assert (Hd : NoDup (held (l1 ++ l2))).
  { rewrite held_app in *. rewrite held_cons in Hnd. apply NoDup_app in Hnd as (H1 & H2 & H3). apply NoDup_app in H3 as (_ & _ & H3).
    apply NoDup_app. split_and!; [done| |done]. intros x Hx Hx'. apply (H2 x Hx), elem_of_app. by right. }
  destruct (snd (advance tk w)) as [tk'|] eqn:E; [|done]. change (option_list (Some tk') ++ l2) with (tk' :: l2).
  apply advance_holding in E as [E|[E (i & t & n & ->)]].
  { by rewrite held_app, held_cons, E, app_nil_l, <- held_app. }
  assert (P : held (l1 ++ tk' :: l2) ≡ₚ needs (T_lock i t n) ++ held (l1 ++ l2)).
  { rewrite !held_app, held_cons, E. apply Permutation_app_swap_app. }
  rewrite P. cbn [needs app]. apply NoDup_cons. split; [|done]. unfold may_run in Hm. cbn [needs forallb] in Hm. boolify. done.
Qed.

Lemma begin_free c w tk : snd (begin c w) = Some tk -> holding tk = [] /\ informed (fst (begin c w)) tk.
Proof.
  destruct c; cbn [begin snd fst]; intros H.
  - destruct (add_duplicate _ _ _); [done|]. by injection H as <-.
  - destruct (assertIncidentInput _); [done|]. by injection H as <-.
  - destruct (no_selector _); [done|]. destruct (_ && _); [done|]. by injection H as <-.
  - by injection H as <-.
  - done.
Qed.

(** ** The commit of a raise *)

Section Commit.
Context (input : RaiseIncidentInput) (t now : Z) (active : list AlertRow) (w : AlertWorld).
Let k := ri_stableKey input.

(** What the commit makes of a row. *)
Definition committed (r : AlertRow) : AlertRow :=
  let r1 := if is_stale input active r then resolved_at now r else r in
  if is_keep input active r1 then bumped input now r1 else r1.

Lemma stale_not_active r : is_stale input active r = true -> is_active (committed r) = false /\ la_id (committed r) = la_id r /\ la_tenant (committed r) = la_tenant r /\ la_key (committed r) = la_key r.
Proof.
  intros H. unfold committed. rewrite H. unfold is_keep. destruct (keep_of input active) as [kp|].
  - replace (is_active (resolved_at now r)) with false by done. by rewrite andb_false_r.
  - done.
Qed.
Lemma kept_row r : is_stale input active r = false -> is_keep input active r = true -> committed r = bumped input now r.
Proof. intros H1 H2. unfold committed. by rewrite H1, H2. Qed.
Lemma other_row r : is_stale input active r = false -> is_keep input active r = false -> committed r = r.
Proof. intros H1 H2. unfold committed. by rewrite H1, H2. Qed.

Lemma committed_same r : la_id (committed r) = la_id r /\ la_tenant (committed r) = la_tenant r /\ la_key (committed r) = la_key r.
Proof.
  destruct (is_stale input active r) eqn:E1; [by apply stale_not_active|]. destruct (is_keep input active r) eqn:E2.
  - by rewrite kept_row.
  - by rewrite other_row.
Qed.

Lemma stale_ids i : i ∈ stale_of input active <-> exists a, In a active /\ la_id a = i /\ (forall kp, keep_of input active = Some kp -> i <> la_id kp).
Proof.
  unfold stale_of. rewrite list_elem_of_In, in_map_iff. split.
  - intros (a & <- & Ha). apply filter_In in Ha as [Ha Hk]. exists a. split_and!; [done..|]. intros kp E. rewrite E in Hk. by boolify.
  - intros (a & Ha & <- & Hk). exists a. split; [done|]. apply filter_In. split; [done|]. destruct (keep_of input active) as [kp|]; [|done].
    apply negb_true_iff, Z.eqb_neq. by apply Hk.
Qed.
Lemma keep_in kp : keep_of input active = Some kp -> In kp active.
Proof. intros H. unfold keep_of in H. by apply find_some in H as [H _]. Qed.

(** An active row whose id the transaction has read is closed or is the one to bump. *)
Lemma read_rows a r : In a active -> la_id a = la_id r -> is_active r = true -> is_stale input active r = true \/ is_keep input active r = true.
Proof.
  intros Ha E Hr. destruct (is_keep input active r) eqn:Ek; [by right|left]. unfold is_stale. rewrite Hr, andb_true_r.
  apply bool_decide_eq_true, stale_ids. exists a. split_and!; [done..|]. intros kp Hkp F. unfold is_keep in Ek. rewrite Hkp, Hr, andb_true_r in Ek.
  by boolify.
Qed.
Lemma keep_not_stale r : is_keep input active r = true -> is_stale input active r = false.
Proof.
  unfold is_keep, is_stale. destruct (keep_of input active) as [kp|] eqn:E; [|done]. intros H. boolify.
  rewrite bool_decide_false; [done|]. rewrite stale_ids. intros (a & _ & _ & H'). by apply (H' kp).
Qed.

(** The rows of the world after the commit. *)
Lemma commit_rows :
  let w' := fst (raise_commit input t now active w) in
  lw_rows w' = lw_rows w
  \/ (lw_rows w' = map committed (lw_rows w) /\ exists r, In r (lw_rows w) /\ is_keep input active r = true)
  \/ (lw_rows w' = map committed (lw_rows w) ++ [raised input t now (lw_now w) (lw_next w)] /\ (forall r, In r (lw_rows w) -> is_keep input active r = false) /\ lw_next w' = lw_next w + 1).
Proof.
  unfold raise_commit. set (w1 := update_rows (is_stale input active) (resolved_at now) w).
  destruct (updated_rows (is_keep input active) w1) as [|r0 l0] eqn:E.
  - unfold insert_row. change (lw_tenants w1) with (lw_tenants w). destruct (lw_tenants w !! _); [|by left]. right. right. cbn [fst with_rows lw_rows lw_next].
    assert (Hn : forall r, In r (lw_rows w1) -> is_keep input active r = false).
    { intros r Hr. destruct (is_keep input active r) eqn:Ek; [|done]. assert (F : In r (updated_rows (is_keep input active) w1)) by (by apply filter_In).
      by rewrite E in F. }
    cbn [w1 update_rows with_rows lw_rows] in Hn |- *. split_and!; [|by intros r Hr; destruct (is_keep input active r) eqn:Ek; [|done];
      rewrite <- Ek; apply Hn, in_map_iff; exists r; rewrite (keep_not_stale r Ek)|done].
    f_equal. apply map_ext_in. intros r Hr. unfold committed. rewrite Hn; [done|]. apply in_map_iff. by exists r.
  - right. left. cbn [fst update_rows with_rows lw_rows w1]. split; [by rewrite map_map|].
    assert (F : In r0 (updated_rows (is_keep input active) w1)) by (rewrite E; by left). apply filter_In in F as [F Fk].
    cbn [w1 update_rows with_rows lw_rows] in F. apply in_map_iff in F as (x & Ex & Hx). exists x. split; [done|].
    destruct (is_stale input active x) eqn:Es; [|by subst r0]. subst r0. unfold is_keep in Fk. destruct (keep_of input active); [|done].
    replace (is_active (resolved_at now x)) with false in Fk by done. by rewrite andb_false_r in Fk.
Qed.

Hypothesis Hk : knows w t k active.

Lemma touched_key r : In r (lw_rows w) -> is_stale input active r = true \/ is_keep input active r = true -> of_key t k r = true.
Proof.
  destruct Hk as (_ & H2 & _). intros Hr [H|H].
  - unfold is_stale in H. boolify. apply stale_ids in H as (a & Ha & E & _). by apply (H2 a).
  - unfold is_keep in H. destruct (keep_of input active) as [kp|] eqn:E; [|done]. boolify. apply (H2 kp); [by apply keep_in|done|done].
Qed.

Lemma commit_other r : In r (lw_rows w) -> of_key t k r = false -> committed r = r.
Proof.
  intros Hr Hf. apply other_row.
  - destruct (is_stale input active r) eqn:E; [|done]. by rewrite touched_key in Hf; [|done|left].
  - destruct (is_keep input active r) eqn:E; [|done]. by rewrite touched_key in Hf; [|done|right].
Qed.

(** The incidents of the key that are left: the row bumped. *)
Lemma commit_incident r : In r (lw_rows w) -> of_key t k r = true -> incident (committed r) = true -> is_keep input active r = true.
Proof.
  intros Hr Hf Hi. destruct (is_keep input active r) eqn:Ek; [done|]. destruct (is_stale input active r) eqn:Es.
  - destruct (stale_not_active r Es) as [H _]. unfold incident in Hi. by rewrite H in Hi.
  - rewrite other_row in Hi by done. destruct Hk as (_ & _ & H3). destruct (H3 r Hr Hf Hi) as (a & Ha & E).
    unfold incident in Hi. boolify. by destruct (read_rows a r Ha E); [done| |]; congruence.
Qed.
End Commit.

Lemma commit_wf input t now active w : wf_rows w -> wf_rows (fst (raise_commit input t now active w)).
Proof.
  intros [Hnd Hlt]. assert (Hm : map la_id (map (committed input now active) (lw_rows w)) = map la_id (lw_rows w)).
  { rewrite map_map. apply map_ext. intros r. apply committed_same. }
  assert (Hn : lw_next w <= lw_next (fst (raise_commit input t now active w))).
  { unfold raise_commit. destruct (updated_rows _ _); [|done]. unfold insert_row. destruct (_ !! _); cbn; lia. }
  assert (Hc : forall r, In r (map (committed input now active) (lw_rows w)) -> la_id r < lw_next w).
  { intros r Hr. apply in_map_iff in Hr as (x & <- & Hx). destruct (committed_same input now active x) as [-> _]. by apply Hlt. }
  destruct (commit_rows input t now active w) as [E|[[E _]|(E & _ & En)]]; split; rewrite E; try done.
  - intros r Hr. apply Hlt in Hr. lia.
  - by rewrite Hm.
  - intros r Hr. apply Hc in Hr. lia.
  - rewrite map_app, Hm. apply NoDup_app. split; [done|]. split; [|by apply NoDup_singleton]. intros i Hi Hj.
    apply list_elem_of_singleton in Hj as ->. apply list_elem_of_In, in_map_iff in Hi as (x & Ex & Hx). apply Hlt in Hx. cbn in Ex. lia.
  - intros r Hr. rewrite En. apply in_app_or in Hr as [Hr|[<-|[]]]; [apply Hc in Hr; lia|cbn; lia].
Qed.

(** A row after the commit, read back. *)
Lemma commit_row input t now active w r' : knows w t (ri_stableKey input) active ->
  In r' (lw_rows (fst (raise_commit input t now active w))) ->
  (exists r, In r (lw_rows w) /\ la_id r' = la_id r /\ la_tenant r' = la_tenant r /\ la_key r' = la_key r
     /\ (r' = r \/ r' = committed input now active r) /\ (of_key t (ri_stableKey input) r = false -> r' = r))
  \/ r' = raised input t now (lw_now w) (lw_next w).
Proof.
  intros Hk Hr'. assert (Hc : In r' (map (committed input now active) (lw_rows w)) -> exists r, In r (lw_rows w) /\ la_id r' = la_id r /\ la_tenant r' = la_tenant r /\ la_key r' = la_key r
     /\ (r' = r \/ r' = committed input now active r) /\ (of_key t (ri_stableKey input) r = false -> r' = r)).
  { intros H. apply in_map_iff in H as (r & <- & Hr). destruct (committed_same input now active r) as (E1 & E2 & E3).
    exists r. split_and!; try done; [by right|]. intros Hf. by apply (commit_other input t now active w). }
  destruct (commit_rows input t now active w) as [E|[[E _]|(E & _ & _)]]; rewrite E in Hr'.
  - left. exists r'. split_and!; try done. by left.
  - by left; apply Hc.
  - apply in_app_or in Hr' as [H|[<-|[]]]; [by left; apply Hc|by right].
Qed.

Lemma commit_foreign input t now active w r' : knows w t (ri_stableKey input) active ->
  In r' (lw_rows (fst (raise_commit input t now active w))) -> of_key t (ri_stableKey input) r' = false -> In r' (lw_rows w).
Proof.
  intros Hk Hr' Hf. destruct (commit_row input t now active w r' Hk Hr') as [(r & Hr & _ & E2 & E3 & _ & H)|E]; [|subst r'].
  - rewrite H; [done|]. destruct (of_key t (ri_stableKey input) r) eqn:F; [|done]. apply of_key_spec in F as [Fa Fb].
    assert (of_key t (ri_stableKey input) r' = true); [|congruence]. apply of_key_spec. split; congruence.
  - assert (F : of_key t (ri_stableKey input) (raised input t now (lw_now w) (lw_next w)) = true) by (by apply of_key_spec). congruence.
Qed.

Lemma commit_unique input t now active w r1 r2 : knows w t (ri_stableKey input) active -> one_incident w -> wf_rows w ->
  let w' := fst (raise_commit input t now active w) in
  In r1 (lw_rows w') -> In r2 (lw_rows w') -> of_key t (ri_stableKey input) r1 = true -> of_key t (ri_stableKey input) r2 = true ->
  incident r1 = true -> incident r2 = true -> la_id r1 = la_id r2.
Proof.
  intros Hk H1 Hw w' In1 In2 K1 K2 I1 I2.
  assert (Hback : forall s, In s (map (committed input now active) (lw_rows w)) -> of_key t (ri_stableKey input) s = true -> incident s = true ->
     exists x, In x (lw_rows w) /\ la_id s = la_id x /\ is_keep input active x = true).
  { intros s Hs Hf Hi. apply in_map_iff in Hs as (x & <- & Hx). destruct (committed_same input now active x) as (A1 & A2 & A3).
    exists x. split_and!; [done..|]. apply (commit_incident input t now active w Hk); [done| |done]. apply of_key_spec in Hf. apply of_key_spec. by rewrite <- A2, <- A3. }
  unfold w' in *. destruct (commit_rows input t now active w) as [E|[[E _]|(E & Hno & _)]]; rewrite E in In1, In2.
  - f_equal. apply of_key_spec in K1 as [T1 K1], K2 as [T2 K2]. apply (H1 r1 r2 (ri_stableKey input)); congruence.
  - destruct (Hback r1 In1 K1 I1) as (x1 & _ & -> & G1), (Hback r2 In2 K2 I2) as (x2 & _ & -> & G2).
    unfold is_keep in G1, G2. destruct (keep_of input active); [|done]. boolify. congruence.
  - assert (Hnew : forall s, In s (map (committed input now active) (lw_rows w) ++ [raised input t now (lw_now w) (lw_next w)]) ->
      of_key t (ri_stableKey input) s = true -> incident s = true -> s = raised input t now (lw_now w) (lw_next w)).
    { intros s Hs Hf Hi. apply in_app_or in Hs as [Hs|[<-|[]]]; [|done]. destruct (Hback s Hs Hf Hi) as (x & Hx & _ & G). by rewrite (Hno x Hx) in G. }
    by rewrite (Hnew r1 In1 K1 I1), (Hnew r2 In2 K2 I2).
Qed.

Lemma commit_one input t now active w : wf_rows w -> knows w t (ri_stableKey input) active -> one_incident w ->
  one_incident (fst (raise_commit input t now active w)).
Proof.
  intros Hw Hk H1 r1 r2 key In1 In2 I1 I2 Et K1 K2.
  assert (Hw' : wf_rows (fst (raise_commit input t now active w))) by (by apply commit_wf).
  destruct (of_key t (ri_stableKey input) r1) eqn:F1.
  - assert (F2 : of_key t (ri_stableKey input) r2 = true) by (apply of_key_spec in F1 as [? ?]; apply of_key_spec; split; congruence).
    apply (same_id_same _ r1 r2 Hw'); [done..|]. by apply (commit_unique input t now active w).
  - assert (F2 : of_key t (ri_stableKey input) r2 = false).
    { destruct (of_key t (ri_stableKey input) r2) eqn:F2; [|done]. apply of_key_spec in F2 as [? ?].
      assert (of_key t (ri_stableKey input) r1 = true); [|congruence]. apply of_key_spec. split; congruence. }
    apply (H1 r1 r2 key); try done; by apply (commit_foreign input t now active w).
Qed.

(** What the other raises in flight know survives the commit: their keys are other keys. *)
Lemma commit_knows input t now active w t' k' active' : wf_rows w -> knows w t (ri_stableKey input) active ->
  incidentLockKey t' k' <> incidentLockKey t (ri_stableKey input) ->
  knows w t' k' active' -> knows (fst (raise_commit input t now active w)) t' k' active'.
Proof.
  intros Hw Hk Hne (H1 & H2 & H3).
  assert (Hn : lw_next w <= lw_next (fst (raise_commit input t now active w))).
  { unfold raise_commit. destruct (updated_rows _ _); [|done]. unfold insert_row. destruct (_ !! _); cbn; lia. }
  split_and!.
  - intros a Ha. specialize (H1 a Ha). lia.
  - intros a r' Ha Hr' E. destruct (commit_row input t now active w r' Hk Hr') as [(r & Hr & E1 & E2 & E3 & _)| ->].
    + apply of_key_spec. rewrite E2, E3. apply of_key_spec, (H2 a); congruence.
    + specialize (H1 a Ha). cbn in E. lia.
  - intros r' Hr' Hf Hi. apply H3; [|done|done]. apply (commit_foreign input t now active w); [done..|].
    destruct (of_key t (ri_stableKey input) r') eqn:F; [|done]. destruct Hne. apply of_key_spec in Hf as [Ha Hb], F as [Fa Fb]. congruence.
Qed.

(** ** Every run *)

Lemma knows_read w t k : wf_rows w -> knows w t k (open_of_key t k w).
Proof.
  intros Hw. assert (Hin : forall a, In a (open_of_key t k w) <-> In a (lw_rows w) /\ of_key t k a = true /\ is_active a = true).
  { intros a. unfold open_of_key. by rewrite order_by_In, filter_In, andb_true_iff. }
  split_and!.
  - intros a Ha. apply Hin in Ha as [Ha _]. by apply Hw.
  - intros a r Ha Hr E. apply Hin in Ha as (Ha & Hk & _). by rewrite (same_id_same w r a).
  - intros r Hr Hk Hi. exists r. split; [|done]. apply Hin. unfold incident in Hi. by boolify.
Qed.

Lemma advance_informed tk w tk' : wf_rows w -> snd (advance tk w) = Some tk' -> informed (fst (advance tk w)) tk'.
Proof.
  intros Hw H. destruct (advance_holding tk w tk' H) as [E|[_ (i & t & n & ->)]].
  - by destruct tk'.
  - cbn in H |- *. injection H as <-. by apply knows_read.
Qed.

Lemma tame_runs w w' ts : tame w w' -> runs_ok (w, ts) -> wf_rows w' /\ one_incident w' /\ forall tk, In tk ts -> informed w' tk.
Proof.
  intros Ht [H1 H2 H3 H4]. cbn [fst snd] in *. split_and!; [by apply Ht|by apply (tame_one w)|].
  intros tk Hin. apply (tame_informed w); auto.
Qed.

Lemma step_runs s s' : step s s' -> runs_ok s -> runs_ok s'.
Proof.
  intros Hs Hok. destruct Hs as [c w ts|tk l1 l2 w Hm|now io tenants devices members w ts Hnow].
  - destruct (tame_runs w _ ts (begin_tame c w) Hok) as (G1 & G2 & G3). destruct Hok as [_ H2 _ _]. cbn [fst snd] in *.
    split; cbn [fst snd]; [done| | |done].
    + destruct (snd (begin c w)) as [tk|] eqn:E.
      * apply begin_free in E as [E _]. rewrite held_app. change (held (option_list (Some tk))) with (holding tk ++ []). by rewrite E, !List.app_nil_r.
      * change (option_list None) with (@nil Task). by rewrite List.app_nil_r.
    + intros tk Hin. apply in_app_or in Hin as [Hin|Hin]; [auto|]. destruct (snd (begin c w)) as [tk'|] eqn:E; [|done].
      destruct Hin as [<-|[]]. by apply begin_free in E as [_ E].
  - pose proof (ro_locks _ Hok) as Hl. cbn [snd] in Hl. pose proof (ro_wf _ Hok) as Hw. cbn [fst] in Hw.
    assert (Hin : forall x, In x (l1 ++ option_list (snd (advance tk w)) ++ l2) -> In x (l1 ++ l2) \/ snd (advance tk w) = Some x).
    { intros x Hx. apply in_app_or in Hx as [Hx|Hx]; [left; apply in_or_app; by left|]. apply in_app_or in Hx as [Hx|Hx]; [right|left; apply in_or_app; by right].
      destruct (snd (advance tk w)); [|done]. by destruct Hx as [<-|[]]. }
    assert (Hold : forall x, In x (l1 ++ l2) -> In x (l1 ++ tk :: l2)).
    { intros x Hx. apply in_app_or in Hx as [Hx|Hx]; apply in_or_app; [by left|right; by right]. }
    destruct (is_raise tk) eqn:Er.
    + destruct tk as [|input t now active| | | | | | | | | |]; try discriminate Er.
      assert (Hk : knows w t (ri_stableKey input) active) by (apply (ro_informed _ Hok (T_raise input t now active)), in_or_app; right; by left).
      assert (Ef : fst (advance (T_raise input t now active) w) = fst (raise_commit input t now active w)).
      { cbn [advance]. by destruct (raise_commit _ _ _ _ _) as [? [?|[[? ?] ?]]]. }
      split; cbn [fst snd].
      * rewrite Ef. by apply commit_wf.
      * by apply locks_advance.
      * intros x Hx. destruct (Hin x Hx) as [Hx'|E].
        -- pose proof (ro_informed _ Hok x (Hold x Hx')) as Hi. cbn [fst] in Hi. rewrite Ef. destruct x; try done. cbn [informed] in Hi |- *.
           apply commit_knows; try done. intros E. assert (Hp : held (l1 ++ T_raise input t now active :: l2) ≡ₚ incidentLockKey t (ri_stableKey input) :: held (l1 ++ l2)).
           { rewrite !held_app, held_cons. cbn [holding app]. symmetry. apply Permutation_middle. }
           rewrite Hp in Hl. apply NoDup_cons in Hl as [Hl _]. apply Hl. rewrite <- E. apply list_elem_of_In, in_flat_map. eexists. split; [exact Hx'|by left].
        -- by apply advance_informed.
      * rewrite Ef. apply commit_one; [done|done|apply (ro_one _ Hok)].
    + destruct (tame_runs w _ (l1 ++ tk :: l2) (advance_tame tk w Er) Hok) as (G1 & G2 & G3). split; cbn [fst snd]; [done|by apply locks_advance| |done].
      intros x Hx. destruct (Hin x Hx) as [Hx'|E]; [by apply G3, Hold|by apply advance_informed].
  - destruct (tame_runs w (environment now io tenants devices members w) ts) as (G1 & G2 & G3); [by eapply tame_filter|done|].
    split; cbn [fst snd]; [done|apply (ro_locks _ Hok)|done|done].
Qed.

(** The table empty, and no call under way. *)
Definition fresh_table (w : AlertWorld) : Prop := lw_rows w = [].
Lemma runs_initial w : fresh_table w -> runs_ok (w, []).
Proof. intros E. unfold fresh_table in E. split; cbn [fst snd]; [|constructor|done|]; unfold wf_rows, one_incident; rewrite E; [split; [constructor|done]|done]. Qed.

Lemma reachable_runs w s : fresh_table w -> rtc step (w, []) s -> runs_ok s.
Proof.
  intros Hf H. assert (G : forall a b, rtc step a b -> runs_ok a -> runs_ok b).
  { intros a b R. induction R as [|a b c R1 R2 IH]; [done|]. intros Ha. by apply IH, (step_runs a). }
  apply (G _ _ H). by apply runs_initial.
Qed.

(** C24. However the calls interleave, at most one active incident row carries a stable key in
    a tenant, no id is used twice, and no two raises of one key are between their lock and
    their commit. *)
Theorem incident_unique w w' ts :
  fresh_table w -> rtc step (w, []) (w', ts) ->
  (forall r1 r2 k, In r1 (lw_rows w') -> In r2 (lw_rows w') -> incident r1 = true -> incident r2 = true ->
     la_tenant r1 = la_tenant r2 -> la_key r1 = Some k -> la_key r2 = Some k -> r1 = r2)
  /\ NoDup (map la_id (lw_rows w'))
  /\ NoDup (held ts).
Proof. intros Hf H. destruct (reachable_runs w (w', ts) Hf H) as [[H1 _] H2 _ H4]. split_and!; done. Qed.

(** ** Schedules *)

(** A call starts, or the task at a position runs to its next await. *)
Inductive Move := Start (c : Call) | Run (i : nat).
Definition move (m : Move) (s : AlertWorld * list Task) : option (AlertWorld * list Task) :=
  let '(w, ts) := s in
  match m with
  | Start c => Some (fst (begin c w), ts ++ option_list (snd (begin c w)))
  | Run i =>
      match drop i ts with
      | [] => None
      | tk :: l2 => if may_run (take i ts ++ l2) tk then Some (fst (advance tk w), take i ts ++ option_list (snd (advance tk w)) ++ l2) else None
      end
  end.
Fixpoint schedule (ms : list Move) (s : AlertWorld * list Task) : option (AlertWorld * list Task) :=
  match ms with [] => Some s | m :: r => match move m s with Some s' => schedule r s' | None => None end end.

Lemma move_step m s s' : move m s = Some s' -> step s s'.
Proof.
  destruct s as [w ts]. destruct m as [c|i]; cbn [move]; [intros [= <-]; constructor|].
  destruct (drop i ts) as [|tk l2] eqn:E; [done|]. destruct (may_run _ tk) eqn:Em; [|done]. intros [= <-].
  rewrite <- (take_drop i ts) at 1. rewrite E. by constructor.
Qed.
Lemma schedule_steps ms s s' : schedule ms s = Some s' -> rtc step s s'.
Proof.
  revert s. induction ms as [|m ms IH]; intros s; cbn [schedule]; [by intros [= ->]|]. destruct (move m s) as [s1|] eqn:E; [|done].
  intros H. eapply rtc_l; [by apply move_step in E|by apply IH].
Qed.

(** Tenant 3, agent 7 and its owner, user 5. *)
Definition alert_sample : AlertWorld := {|
  lw_now := 1000; lw_io := true; lw_tenants := {[1 := "Default"; 3 := "Acme"]}; lw_devices := {[7]}; lw_members := [(5, 3)];
  lw_rows := []; lw_next := 1; lw_out := [] |}.
Definition offline (severity : LiveAlertSeverity) : RaiseIncidentInput := {|
  ri_tenantId := NInt 3; ri_kind := "agent_offline"; ri_stableKey := incidentStableKey "agent_offline" "device:7"; ri_deviceId := Some 7;
  ri_title := "Agent offline"; ri_message := "agent-7 stopped reporting"; ri_severity := severity; ri_link := Some "/agents/7" |}.
Definition recovery : ResolveIncidentsInput := {| rs_tenantId := None; rs_stableKey := None; rs_deviceId := Some 7; rs_kind := Some "agent_offline" |}.

(** Two raises of one key start together; the second waits for the commit of the first. *)
Definition two_raises : list Move :=
  [Start (C_raise (offline Sev_warning)); Start (C_raise (offline Sev_down)); Run 0; Run 0; Run 1; Run 1; Run 0; Run 0].
Definition after_two_raises : AlertWorld * list Task := default (alert_sample, []) (schedule two_raises (alert_sample, [])).
Lemma incident_unique_witness :
  map (fun r => (la_severity r, incident r)) (lw_rows (fst after_two_raises)) = [(Sev_warning, false); (Sev_down, true)]
  /\ NoDup (map la_id (lw_rows (fst after_two_raises))).
Proof.
  split; [by vm_compute|]. eapply (incident_unique alert_sample (fst after_two_raises) (snd after_two_raises)); [done|].
  apply (schedule_steps two_raises). by vm_compute.
Defined.

(** The second raise cannot read while the first holds the lock. *)
Lemma second_raise_waits : schedule [Start (C_raise (offline Sev_warning)); Start (C_raise (offline Sev_down)); Run 0; Run 1] (alert_sample, []) = None.
Proof. by vm_compute. Qed.
