(* ===== verification/AlertBell.v ===== *)
(** * Live alerts: what the calls do, and what a bell shows

    The calls of [LiveAlert] run one after the other: the outcome of a raise and of a recovery,
    the trim, the tenants a request can touch, and the list a connected client keeps from the
    events its rooms receive. *)

From S2P Require Import Prelude JsString JsValue JsNumber Tenancy Access SocketRooms Query LiveAlert AlertRuns.

(** ** Recovery *)

Lemma updated_matches sel t w : List.filter (matches sel) (lw_rows (update_rows (matches sel) (resolved_at t) w)) = [].
Proof.
  apply filter_none. cbn [update_rows with_rows lw_rows]. intros r Hr. apply in_map_iff in Hr as (x & <- & _).
  destruct (matches sel x) eqn:E; [|done]. done.
Qed.

Lemma update_none p f w : List.filter p (lw_rows w) = [] -> update_rows p f w = w.
Proof.
  intros H. unfold update_rows, with_rows. replace (map _ (lw_rows w)) with (lw_rows w); [by destruct w|].
  rewrite <- (map_id (lw_rows w)) at 1. apply map_ext_in. intros r Hr. destruct (p r) eqn:E; [|done].
  assert (F : In r (List.filter p (lw_rows w))) by (by apply filter_In). by rewrite H in F.
Qed.

Lemma resolve_chunks_done sel cs ids w : List.filter (matches sel) (lw_rows w) = [] -> resolve_chunks sel cs ids w = (w, ids).
Proof.
  revert ids. induction cs as [|c cs IH]; intros ids H; [done|]. cbn [resolve_chunks resolve_chunk].
  unfold updated_rows. rewrite H, (update_none _ _ _ H). cbn [map]. rewrite List.app_nil_r.
  assert (E : emitResolved [] w = w) by (unfold emitResolved; by rewrite orb_true_r). rewrite E. by apply IH.
Qed.

Lemma resolve_pair sel w : no_selector sel = false ->
  let rows := updated_rows (matches sel) w in
  resolveIncidents sel w = (emitResolved rows (update_rows (matches sel) (resolved_at (lw_now w)) w), inr (map la_id rows)).
Proof.
  intros Hsel rows. unfold resolveIncidents. rewrite Hsel. change (List.filter (matches sel) (lw_rows w)) with rows. destruct (bool_decide (rows = []) && _) eqn:E.
  - boolify. rewrite H. unfold emitResolved. rewrite orb_true_r. by rewrite (update_none _ _ _ H).
  - assert (Hc : exists c cs, lock_chunks (uniq (lock_keys sel rows)) = c :: cs).
    { unfold lock_chunks. destruct (uniq (lock_keys sel rows)) as [|k l]; [by exists [], []|]. eexists _, _. cbn. reflexivity. }
    destruct Hc as (c & cs & Hc). rewrite Hc. cbn [resolve_chunks resolve_chunk]. cbn [app].
    change (updated_rows (matches sel) w) with rows. rewrite resolve_chunks_done; [done|].
    destruct (emitResolved_rows rows (update_rows (matches sel) (resolved_at (lw_now w)) w)) as [-> _]. apply updated_matches.
Qed.
Lemma resolve_run sel w : no_selector sel = false ->
  fst (resolveIncidents sel w) = emitResolved (updated_rows (matches sel) w) (update_rows (matches sel) (resolved_at (lw_now w)) w).
Proof. intros H. by rewrite (resolve_pair sel w H). Qed.

(** A recovery with a selector resolves exactly the active rows the selector matches, in one
    transaction however many locks it takes, returns their ids, leaves every other row as it is,
    and tells the audience of each tenant the ids of that tenant. *)
Theorem recovery_exact sel w (Hsel : no_selector sel = false) :
  let rows := List.filter (matches sel) (lw_rows w) in
  fst (resolveIncidents sel w) = emitResolved rows (update_rows (matches sel) (resolved_at (lw_now w)) w)
  /\ snd (resolveIncidents sel w) = inr (map la_id rows)
  /\ (forall r, In r (lw_rows (fst (resolveIncidents sel w))) -> matches sel r = false).
Proof.
  intros rows. rewrite (resolve_pair sel w Hsel). cbn [fst snd]. split_and!; [done|done|].
  intros r Hr. destruct (emitResolved_rows rows (update_rows (matches sel) (resolved_at (lw_now w)) w)) as [E _].
  change (updated_rows (matches sel) w) with rows in Hr. rewrite E in Hr.
  destruct (matches sel r) eqn:F; [|done]. assert (G : In r []); [|done]. rewrite <- (updated_matches sel (lw_now w) w). by apply filter_In.
Qed.

(** ** The trim *)

Lemma kept_before_total a b : kept_before a b = false -> kept_before b a = true.
Proof. unfold kept_before. destruct (is_active a), (is_active b); cbn; try done; intros H; apply Z.leb_gt in H; apply Z.leb_le; lia. Qed.
Lemma kept_before_trans a b c : kept_before a b = true -> kept_before b c = true -> kept_before a c = true.
Proof. unfold kept_before. destruct (is_active a), (is_active b), (is_active c); cbn; try done; rewrite !Z.leb_le; lia. Qed.

Lemma trimTenant_rows t w : lw_rows (trimTenant t w) = List.filter (fun r => negb (trimmed t (lw_rows w) r)) (lw_rows w) /\ lw_next (trimTenant t w) = lw_next w.
Proof. unfold trimTenant. destruct (emitResolved_rows (List.filter is_active (updated_rows (trimmed t (lw_rows w)) w)) (delete_rows (trimmed t (lw_rows w)) w)) as [-> ->]. done. Qed.

Lemma kept_iff t w r : wf_rows w -> In r (lw_rows w) -> of_tenant t r = true ->
  la_id r ∈ kept_ids t (lw_rows w) <-> In r (take LIVE_ALERTS_PER_TENANT (order_by kept_before (List.filter (of_tenant t) (lw_rows w)))).
Proof.
  intros Hw Hr Ht. unfold kept_ids. rewrite list_elem_of_In, in_map_iff. split; [|by exists r]. intros (x & E & Hx).
  assert (Hin : In x (lw_rows w)). { rewrite <- list_elem_of_In in Hx. apply elem_of_take in Hx as (i & Hi & _). apply list_elem_of_lookup_2, list_elem_of_In in Hi. apply order_by_In, filter_In in Hi. by destruct Hi. }
  by rewrite <- (same_id_same w x r).
Qed.

(** A trim keeps at most 500 rows of its tenant and every row of the others; a row it keeps
    comes before a row it drops: an open alert before a resolved one, else the newer first. *)
Theorem trim_keeps_open t w (Hw : wf_rows w) :
  (length (List.filter (of_tenant t) (lw_rows (trimTenant t w))) <= LIVE_ALERTS_PER_TENANT)%nat
  /\ (forall r, la_tenant r <> t -> In r (lw_rows (trimTenant t w)) <-> In r (lw_rows w))
  /\ (forall kept dropped, In kept (lw_rows (trimTenant t w)) -> In dropped (lw_rows w) -> ~ In dropped (lw_rows (trimTenant t w)) ->
        la_tenant kept = t -> la_tenant dropped = t /\ (is_active dropped = true -> is_active kept = true)
          /\ (is_active dropped = is_active kept -> la_id dropped < la_id kept)).
Proof.
  destruct (trimTenant_rows t w) as [-> _]. set (l := List.filter (of_tenant t) (lw_rows w)).
  assert (Hkept : forall r, In r (List.filter (fun r => negb (trimmed t (lw_rows w) r)) (lw_rows w)) <-> In r (lw_rows w) /\ (la_tenant r = t -> In r (take LIVE_ALERTS_PER_TENANT (order_by kept_before l)))).
  { intros r. rewrite filter_In. split; intros [Hr H]; (split; [done|]).
    - intros Ht. apply kept_iff; [done..|by apply Z.eqb_eq|]. unfold trimmed in H. unfold of_tenant in H. rewrite Ht, Z.eqb_refl in H. cbn [andb] in H. by boolify.
    - unfold trimmed. destruct (of_tenant t r) eqn:E; [|done]. cbn [andb]. apply negb_true_iff, negb_false_iff, bool_decide_eq_true, kept_iff; [done..|].
      apply H. by apply Z.eqb_eq. }
  split_and!.
  - transitivity (length (take LIVE_ALERTS_PER_TENANT (order_by kept_before l))); [|rewrite length_take; lia].
    apply NoDup_incl_length.
    + apply NoDup_ListNoDup, (NoDup_fmap_1 la_id). change (fmap la_id) with (map la_id). apply NoDup_map_filter, NoDup_map_filter, Hw.
    + intros r Hr. apply filter_In in Hr as [Hr Ht]. apply Hkept in Hr as [_ Hr]. apply Hr. by apply Z.eqb_eq.
  - intros r Ht. rewrite Hkept. naive_solver.
  - intros kept dropped Hk Hd Hnd Ht. apply Hkept in Hk as [Hk Hk']. specialize (Hk' Ht).
    destruct (decide (la_tenant dropped = t)) as [Hdt|Hdt]; [|destruct Hnd; apply Hkept; naive_solver].
    assert (Hdl : In dropped (drop LIVE_ALERTS_PER_TENANT (order_by kept_before l))).
    { assert (Hin : In dropped (order_by kept_before l)) by (apply order_by_In, filter_In; split; [done|by apply Z.eqb_eq]).
      rewrite <- (take_drop LIVE_ALERTS_PER_TENANT (order_by kept_before l)) in Hin. apply in_app_or in Hin as [Hin|Hin]; [|done]. destruct Hnd. by apply Hkept. }
    assert (Hne : la_id dropped <> la_id kept) by (intros E; apply Hnd; rewrite (same_id_same w dropped kept) by done; by apply Hkept).
    apply in_split in Hk' as (l1 & l2 & E1). apply in_split in Hdl as (l3 & l4 & E2).
    assert (Hb : kept_before kept dropped = true).
    { apply (order_by_before kept_before kept_before_total kept_before_trans l l1 kept (l2 ++ l3) dropped l4).
      rewrite <- (take_drop LIVE_ALERTS_PER_TENANT (order_by kept_before l)), E1, E2. by rewrite <- !app_assoc. }
    unfold kept_before in Hb. split_and!; [done| |]; intros Ha; destruct (is_active kept), (is_active dropped); cbn in Hb; try discriminate; try done; apply Z.leb_le in Hb; lia.
Qed.

(** ** A raise *)

Lemma open_In t k w r : In r (open_of_key t k w) <-> In r (lw_rows w) /\ of_key t k r = true /\ is_active r = true.
Proof. unfold open_of_key. by rewrite order_by_In, filter_In, andb_true_iff. Qed.

(** The row a raise leaves open, before the trim. *)
Lemma raise_commit_open input t now w w1 row created resolved (Hw : wf_rows w) :
  raise_commit input t now (open_of_key t (ri_stableKey input) w) w = (w1, inr (row, created, resolved)) ->
  In row (lw_rows w1) /\ of_key t (ri_stableKey input) row = true /\ is_active row = true /\ la_severity row = ri_severity input
  /\ (forall r, In r (lw_rows w1) -> of_key t (ri_stableKey input) r = true -> is_active r = true -> r = row)
  /\ (if created then row = raised input t now (lw_now w) (lw_next w)
      else exists old, In old (lw_rows w) /\ of_key t (ri_stableKey input) old = true /\ is_active old = true /\ la_severity old = ri_severity input /\ row = bumped input now old)
  /\ (created = true -> forall r, In r (lw_rows w) -> of_key t (ri_stableKey input) r = true -> is_active r = true -> la_severity r <> ri_severity input).
Proof.
  intros H. set (active := open_of_key t (ri_stableKey input) w) in *.
  pose proof (knows_read w t (ri_stableKey input) Hw) as Hk. fold active in Hk.
  assert (Ew : w1 = fst (raise_commit input t now active w)) by (by rewrite H).
  assert (Hw1 : wf_rows w1) by (rewrite Ew; by apply commit_wf).
  assert (Hread : forall r, In r (lw_rows w) -> of_key t (ri_stableKey input) r = true -> is_active r = true ->
     is_stale input active r = true \/ is_keep input active r = true).
  { intros r Hr Hf Ha. apply (read_rows input active r r); [by apply open_In|done|done]. }
  assert (Hleft : forall r, In r (lw_rows w) -> of_key t (ri_stableKey input) (committed input now active r) = true ->
     is_active (committed input now active r) = true -> is_keep input active r = true).
  { intros r Hr Hf Ha. destruct (committed_same input now active r) as (A1 & A2 & A3).
    assert (Hf0 : of_key t (ri_stableKey input) r = true) by (apply of_key_spec in Hf; apply of_key_spec; by rewrite <- A2, <- A3).
    destruct (is_stale input active r) eqn:Es; [destruct (stale_not_active input now active r Es); congruence|].
    destruct (is_keep input active r) eqn:Ek; [done|]. rewrite other_row in Ha by done. destruct (Hread r Hr Hf0 Ha); congruence. }
  unfold raise_commit in H. set (v := update_rows (is_stale input active) (resolved_at now) w) in H.
  destruct (updated_rows (is_keep input active) v) as [|r0 l0] eqn:E.
  - unfold insert_row in H. change (lw_tenants v) with (lw_tenants w) in H. destruct (lw_tenants w !! _); [|done]. injection H as H <- <- <-.
    destruct (commit_rows input t now active w) as [F|[[_ (r & Hr & Hrk)]|(F & Hno & _)]].
    + rewrite <- Ew, <- H in F. cbn [with_rows lw_rows v update_rows] in F. apply (f_equal length) in F. rewrite length_app, length_map in F. cbn in F. lia.
    + exfalso. assert (G : In r (updated_rows (is_keep input active) v)); [|by rewrite E in G]. apply filter_In. split; [|done].
      apply in_map_iff. exists r. by rewrite (keep_not_stale input active r Hrk).
    + rewrite <- Ew in F. rewrite F. split_and!; try done; [apply in_or_app; right; by left|by apply of_key_spec| |].
      * intros r Hr Hf Ha. apply in_app_or in Hr as [Hr|[<-|[]]]; [|done]. apply in_map_iff in Hr as (x & <- & Hx). pose proof (Hleft x Hx Hf Ha) as G. by rewrite (Hno x Hx) in G.
      * intros _ r Hr Hf Ha Hs. assert (Hin : In r active) by (by apply open_In).
        destruct (keep_of input active) as [kp|] eqn:Ekp.
        -- pose proof (keep_in input active kp Ekp) as Hkp. apply open_In in Hkp as (Hkp & _ & Hka).
           assert (G : is_keep input active kp = true) by (unfold is_keep; by rewrite Ekp, Z.eqb_refl). by rewrite (Hno kp Hkp) in G.
        -- unfold keep_of in Ekp. apply find_none with (x := r) in Ekp; [|done]. by boolify.
  - injection H as H <- <- <-. assert (G : In r0 (updated_rows (is_keep input active) v)) by (rewrite E; by left).
    apply filter_In in G as [G Gk]. assert (Hr0 : In r0 (lw_rows w)).
    { cbn [v update_rows with_rows lw_rows] in G. apply in_map_iff in G as (x & Ex & Hx). destruct (is_stale input active x); [|by subst].
      subst r0. unfold is_keep in Gk. destruct (keep_of input active); [|done]. by rewrite andb_false_r in Gk. }
    assert (Hs0 : is_stale input active r0 = false) by (by apply keep_not_stale).
    assert (Hf0 : of_key t (ri_stableKey input) r0 = true) by (apply (touched_key input t active w Hk); [done|by right]).
    assert (Ha0 : is_active r0 = true) by (unfold is_keep in Gk; destruct (keep_of input active); [by boolify|done]).
    assert (Hsev : la_severity r0 = ri_severity input).
    { unfold is_keep in Gk. destruct (keep_of input active) as [kp|] eqn:Ekp; [|done]. boolify. pose proof (keep_in input active kp Ekp) as Hkp.
      apply open_In in Hkp as (Hkp & _ & _). rewrite (same_id_same w r0 kp) by done. unfold keep_of in Ekp. apply find_some in Ekp as [_ Ekp]. by boolify. }
    assert (Hrow : In (bumped input now r0) (lw_rows w1)).
    { rewrite <- H. cbn [update_rows with_rows lw_rows]. apply in_map_iff. exists r0. rewrite Gk. split; [done|]. exact G. }
    apply of_key_spec in Hf0 as Hf0'. split_and!; try done.
    + intros r Hr Hf Ha. apply (same_id_same w1); [done..|]. cbn [bumped la_id].
      destruct (commit_rows input t now active w) as [F|[[F _]|(F & Hno & _)]]; rewrite <- Ew in F.
      * rewrite F in Hr. destruct (Hread r Hr Hf Ha) as [Hst|Hkp].
        -- exfalso. assert (Hc : In (committed input now active r) (lw_rows w1)).
           { rewrite <- H. cbn [update_rows with_rows lw_rows v]. apply in_map_iff. exists (resolved_at now r). split.
             - unfold committed. by rewrite Hst.
             - apply in_map_iff. exists r. by rewrite Hst. }
           destruct (committed_same input now active r) as (A1 & _). destruct (stale_not_active input now active r Hst) as (B & _).
           rewrite F in Hc. rewrite (same_id_same w (committed input now active r) r) in B by done. congruence.
        -- unfold is_keep in Hkp, Gk. destruct (keep_of input active); [|done]. boolify. congruence.
      * rewrite F in Hr. apply in_map_iff in Hr as (x & <- & Hx). pose proof (Hleft x Hx Hf Ha) as Hkp. destruct (committed_same input now active x) as (-> & _).
        unfold is_keep in Hkp, Gk. destruct (keep_of input active); [|done]. boolify. congruence.
      * by rewrite (Hno r0 Hr0) in Gk.
    + exists r0. done.
Qed.

Lemma emit_announce_rows row t w : lw_rows (fst (announce row t w)) = lw_rows w /\ lw_next (fst (announce row t w)) = lw_next w.
Proof. unfold announce. by destruct (lw_io w). Qed.

(** The newest open alert of a tenant is never trimmed. *)
Lemma trim_keeps_newest t w r : wf_rows w -> In r (lw_rows w) -> is_active r = true -> (forall x, In x (lw_rows w) -> la_id x <= la_id r) ->
  In r (lw_rows (trimTenant t w)).
Proof.
  intros Hw Hr Ha Hmax. destruct (trimTenant_rows t w) as [-> _]. apply filter_In. split; [done|].
  destruct (trimmed t (lw_rows w) r) eqn:E; [|done]. exfalso. unfold trimmed in E. boolify. apply H0. apply kept_iff; [done..|].
  set (l := order_by kept_before (List.filter (of_tenant t) (lw_rows w))).
  assert (Hin : In r l) by (by apply order_by_In, filter_In). destruct l as [|h l'] eqn:El; [done|]. cbn [take LIVE_ALERTS_PER_TENANT].
  destruct Hin as [<-|Hin]; [by left|]. apply in_split in Hin as (l1 & l2 & ->).
  assert (Hb : kept_before h r = true) by (apply (order_by_before kept_before kept_before_total kept_before_trans (List.filter (of_tenant t) (lw_rows w)) [] h l1 r l2); done).
  assert (Hh : In h (lw_rows w)). { assert (G : In h l) by (rewrite El; by left). by apply order_by_In, filter_In in G as [G _]. }
  specialize (Hmax h Hh). left. apply (same_id_same w); [done..|]. unfold kept_before in Hb. rewrite Ha in Hb. cbn in Hb.
  destruct (is_active h); cbn in Hb; [apply Z.leb_le in Hb; lia|done].
Qed.

(** A valid raise in an existing tenant leaves exactly one open alert of its key: the one it
    returns, with the severity, kind, text and agent raised. It is the open alert of that severity
    counted once more when there was one, and a new row, newer than every other, when there was none. *)
Theorem raise_opens input t w (Hw : wf_rows w)
    (Hin : assertIncidentInput input = inr t) (Ht : is_Some (lw_tenants w !! t)) :
  exists a row created, snd (raiseIncident input w) = inr (a, created)
  /\ let rows := lw_rows (fst (raiseIncident input w)) in
     In row rows /\ lr_id a = la_id row /\ is_active row = true /\ of_key t (ri_stableKey input) row = true
  /\ (forall r, In r rows -> of_key t (ri_stableKey input) r = true -> is_active r = true -> r = row)
  /\ la_severity row = ri_severity input /\ la_kind row = Some (ri_kind input) /\ la_title row = ri_title input
  /\ la_message row = ri_message input /\ la_navigate row = ri_link input /\ la_device row = ri_deviceId input
  /\ (created = false -> exists old, In old (lw_rows w) /\ is_active old = true /\ la_severity old = ri_severity input
        /\ la_id row = la_id old /\ la_occurrences row = la_occurrences old + 1)
  /\ (created = true -> la_occurrences row = 1 /\ (forall r, In r (lw_rows w) -> la_id r < la_id row)
        /\ forall r, In r (lw_rows w) -> of_key t (ri_stableKey input) r = true -> is_active r = true -> la_severity r <> ri_severity input).
Proof.
  unfold raiseIncident. rewrite Hin. set (active := open_of_key t (ri_stableKey input) w).
  destruct (raise_commit input t (lw_now w) active w) as [w1 [e|[[row created] resolved]]] eqn:E.
  { exfalso. unfold raise_commit in E. destruct (updated_rows _ _); [|done]. unfold insert_row in E. cbn in E. destruct (lw_tenants w !! t); [done|]. by destruct Ht. }
  pose proof (raise_commit_open input t (lw_now w) w w1 row created resolved Hw E) as (H1 & H2 & H3 & H4 & H5 & H6 & H7).
  assert (Hw1 : wf_rows w1). { replace w1 with (fst (raise_commit input t (lw_now w) active w)) by (by rewrite E). by apply commit_wf. }
  destruct (emitResolved_rows resolved w1) as [Er En]. destruct created; cbn [negb].
  - destruct (announce row t (trimTenant t (emitResolved resolved w1))) as [w3 a] eqn:Ea.
    assert (Erows : lw_rows w3 = lw_rows (trimTenant t (emitResolved resolved w1))).
    { destruct (emit_announce_rows row t (trimTenant t (emitResolved resolved w1))) as [F _]. by rewrite Ea in F. }
    assert (Hsub : forall r, In r (lw_rows w3) -> In r (lw_rows w1)).
    { intros r Hr. rewrite Erows in Hr. destruct (trimTenant_rows t (emitResolved resolved w1)) as [F _]. rewrite F in Hr.
      apply filter_In in Hr as [Hr _]. by rewrite Er in Hr. }
    exists a, row, true. cbn [fst snd]. split; [done|]. rewrite H6 in *. split_and!; try done.
    + rewrite Erows. apply trim_keeps_newest; [unfold wf_rows; by rewrite Er, En|by rewrite Er|done|].
      rewrite Er. intros x Hx. cbn [raised la_id]. destruct Hw1 as [_ Hlt]. specialize (Hlt x Hx).
      assert (lw_next w1 <= lw_next w + 1); [|lia]. unfold raise_commit in E. destruct (updated_rows _ _); [|injection E as E _; by rewrite <- E].
      unfold insert_row in E. destruct (_ !! _); [|done]. injection E as E _. rewrite <- E. cbn. lia.
    + unfold announce in Ea. by injection Ea as _ <-.
    + intros r Hr. by apply H5, Hsub.
    + intros _. split_and!; [done|by apply Hw|by apply H7].
  - exists (rowToAlert None row), row, false. cbn [fst snd]. rewrite Er. split; [done|].
    destruct H6 as (old & Ho & Hf & Ha & Hs & ->). split_and!; try done. intros _. by exists old.
Qed.

(** ** Requests *)

Lemma found_alert_in raw scope w a : found_alert raw scope w = Some a -> In a (lw_rows w) /\ in_scope scope (la_tenant a) = true.
Proof. unfold found_alert, alertIn. destruct (parseAlertId raw); [|done]. intros H. apply find_some in H as [H E]. by boolify. Qed.

Lemma listed_scope p n w a : In a (map (fun r => rowToAlert (lw_tenants w !! la_tenant r) r) (take n (order_by newest_first (List.filter p (lw_rows w))))) ->
  exists r, In r (lw_rows w) /\ p r = true /\ a = rowToAlert (lw_tenants w !! la_tenant r) r.
Proof.
  intros H. apply in_map_iff in H as (r & <- & Hr). rewrite <- list_elem_of_In in Hr. apply elem_of_take in Hr as (i & Hi & _).
  apply list_elem_of_lookup_2, list_elem_of_In, order_by_In, filter_In in Hi as [Hi Hp]. by exists r.
Qed.

(** A request reads alerts of the tenants its user may read (its own current tenant, every
    tenant in the Default tenant), marks read nothing else, and deletes only in its current
    tenant or a tenant the user belongs to; every other row is left exactly as it is. *)
Theorem alerts_confined q rq w (Hw : wf_rows w) :
  let w' := fst (serve_alert q rq w) in
  (forall r, In r (lw_rows w) -> la_tenant r <> rd_tenant q -> in_scope (readableTenants w q) (la_tenant r) = false -> In r (lw_rows w'))
  /\ (forall r, In r (lw_rows w) -> la_tenant r <> rd_tenant q -> in_scope (deletableTenants w q) (la_tenant r) = false ->
        In r (lw_rows w') \/ In (read_at (lw_now w) r) (lw_rows w'))
  /\ (forall r', In r' (lw_rows w') -> In r' (lw_rows w) \/ exists r, In r (lw_rows w) /\ r' = read_at (lw_now w) r)
  /\ match snd (serve_alert q rq w) with
     | Ans_alerts l => forall a, In a l -> rd_tenant q = MASTER_TENANT_ID \/ lr_tenantId a = rd_tenant q
     | Ans_all l ts => (forall a, In a l -> in_scope (readableTenants w q) (lr_tenantId a) = true) /\ (forall t, In t ts -> in_scope (readableTenants w q) t = true)
     | _ => True
     end.
Proof.
  assert (Hreads : forall t, in_scope (deletableTenants w q) t = true -> in_scope (readableTenants w q) t = true).
  { intros t. unfold deletableTenants, readableTenants. destruct (reader_admin q); [done|]. by destruct (mem _ _). }
  destruct rq as [inc|inc|raw| |raw|]; cbn [serve_alert fst snd].
  - split_and!; [done|by left|by left|]. intros a Ha. unfold getForTenant in Ha. apply listed_scope in Ha as (r & _ & Hp & ->). cbn [rowToAlert lr_tenantId].
    unfold of_tenant in Hp. apply andb_true_iff in Hp as [Hp _]. apply orb_true_iff in Hp as [Hp|Hp]; [left|right]; by apply Z.eqb_eq in Hp.
  - split_and!; [done|by left|by left| |].
    + intros a Ha. unfold getForTenants in Ha. assert (G : forall s, s = readableTenants w q ->
        In a (map (fun r => rowToAlert (lw_tenants w !! la_tenant r) r) (take 200 (order_by newest_first (List.filter (fun r =>
           bool_decide (is_Some (lw_tenants w !! la_tenant r)) && in_scope s (la_tenant r) && listed (includeResolved inc) r) (lw_rows w))))) ->
        in_scope s (lr_tenantId a) = true).
      { intros s _ H. apply listed_scope in H as (r & _ & Hp & ->). cbn [rowToAlert lr_tenantId]. by boolify. }
      destruct (readableTenants w q) as [|[|x l]]; [by apply G|done|by apply G].
    + intros t Ht. by apply filter_In in Ht as [_ Ht].
  - destruct (found_alert raw (readableTenants w q) w) as [a|] eqn:E; [|split_and!; [done|by left|by left|done]].
    apply found_alert_in in E as [Ha Hs]. cbn [markRead]. set (w1 := update_rows _ _ w).
    assert (Er : lw_rows (match (match updated_rows (the_alert (la_id a) (la_tenant a)) w with [] => None | _ => Some (lw_now w) end) with
       | Some t => emitRead (rd_user q) (la_tenant a) [la_id a] t w1 | None => w1 end) = lw_rows w1).
    { destruct (updated_rows _ w); [done|]. apply emitRead_rows. }
    cbn [fst snd]. rewrite Er. cbn [w1 update_rows with_rows lw_rows].
    assert (Hmap : forall r, In r (lw_rows w) -> (la_id r =? la_id a) && of_tenant (la_tenant a) r = false \/ r = a).
    { intros r Hr. destruct (la_id r =? la_id a) eqn:F; [right|by left]. boolify. by apply (same_id_same w). }
    split_and!; [| |intros r' Hr'; apply in_map_iff in Hr' as (x & <- & Hx); destruct (the_alert _ _ x); [right; by exists x|by left]|done].
    + intros r Hr _ Hn. apply in_map_iff. exists r. destruct (Hmap r Hr) as [F|F]; [unfold the_alert; by rewrite F|subst; congruence].
    + intros r Hr _ _. destruct (the_alert (la_id a) (la_tenant a) r) eqn:F; [right|left]; apply in_map_iff; exists r; by rewrite F.
  - cbn [markAllRead fst snd]. destruct (emitRead_rows (rd_user q) (rd_tenant q) (map la_id (updated_rows (unread_active (rd_tenant q)) w)) (lw_now w) (update_rows (unread_active (rd_tenant q)) (read_at (lw_now w)) w)) as [-> _].
    cbn [update_rows with_rows lw_rows].
    assert (Hmap : forall r, In r (lw_rows w) -> la_tenant r <> rd_tenant q -> In r (map (fun r => if unread_active (rd_tenant q) r then read_at (lw_now w) r else r) (lw_rows w))).
    { intros r Hr Hne. apply in_map_iff. exists r. unfold unread_active, of_tenant. by rewrite (proj2 (Z.eqb_neq _ _) Hne). }
    split_and!; [by intros r Hr Hne _; apply Hmap|by intros r Hr Hne _; left; apply Hmap| |done].
    intros r' Hr'. apply in_map_iff in Hr' as (x & <- & Hx). destruct (unread_active _ x); [right; by exists x|by left].
  - destruct (found_alert raw (deletableTenants w q) w) as [a|] eqn:E; [|split_and!; [done|by left|by left|done]].
    apply found_alert_in in E as [Ha Hs]. cbn [fst snd deleteAlert delete_rows with_rows lw_rows].
    assert (Hkeep : forall r, In r (lw_rows w) -> in_scope (deletableTenants w q) (la_tenant r) = false -> In r (List.filter (fun r => negb (la_id r =? la_id a)) (lw_rows w))).
    { intros r Hr Hn. apply filter_In. split; [done|]. destruct (Z.eqb_spec (la_id r) (la_id a)) as [F|]; [|done].
      rewrite (same_id_same w r a) in Hn by done. congruence. }
    split_and!; [|by intros r Hr _ Hn; left; apply Hkeep|intros r' Hr'; left; by apply filter_In in Hr' as [Hr' _]|done].
    intros r Hr _ Hn. apply Hkeep; [done|]. destruct (in_scope (deletableTenants w q) (la_tenant r)) eqn:F; [|done]. apply Hreads in F. congruence.
  - cbn [clearAll delete_rows with_rows lw_rows].
    assert (Hkeep : forall r, In r (lw_rows w) -> la_tenant r <> rd_tenant q -> In r (List.filter (fun r => negb (of_tenant (rd_tenant q) r)) (lw_rows w))).
    { intros r Hr Hne. apply filter_In. split; [done|]. unfold of_tenant. by rewrite (proj2 (Z.eqb_neq _ _) Hne). }
    split_and!; [by intros r Hr Hne _; apply Hkeep|by intros r Hr Hne _; left; apply Hkeep|intros r' Hr'; left; by apply filter_In in Hr' as [Hr' _]|done].
Qed.

(** ** What a connected client keeps *)

(** A call that runs alone, and the environment. *)
Inductive Happening :=
| Happens (c : Call)
| Around (now : Z) (tenants : gmap Z string) (devices : gset Z) (members : list (Z * Z)).
Definition happen (h : Happening) (w : AlertWorld) : AlertWorld :=
  match h with
  | Happens (C_add t opts) => fst (add t opts w)
  | Happens (C_raise input) => fst (raiseIncident input w)
  | Happens (C_resolve sel) => fst (resolveIncidents sel w)
  | Happens (C_cleanup days) => fst (cleanup days w)
  | Happens (C_request q rq) => fst (serve_alert q rq w)
  | Around now tenants devices members => environment now (lw_io w) tenants devices members w
  end.

(** The events emitted between two worlds, as one socket receives them, applied to a bell. *)
Definition hear (es : list AlertEvent) (b : Bell) : Bell := fold_left (fun b e => on_event e b) es b.
Definition bell_after (s : Socket) (w w' : AlertWorld) (b : Bell) : Bell := hear (received s (drop (length (lw_out w)) (lw_out w'))) b.

(** Every happening followed by what the client hears of it, as long as its list is not full;
    [tr] keeps each happening and the world it found, the newest first. *)
Inductive follows (s : Socket) : AlertWorld -> Bell -> list (AlertWorld * Happening) -> AlertWorld -> Bell -> Prop :=
| follows_refl w b : follows s w b [] w b
| follows_step w0 b0 tr w b h : follows s w0 b0 tr w b -> (length b < 200)%nat ->
    follows s w0 b0 ((w, h) :: tr) (happen h w) (bell_after s w (happen h w) b).

(** What deletes rows and tells no client: the deletion of an alert, the clearing of a tenant,
    the retention, and a tenant removed with its rows. *)
Definition silent_deletion (h : Happening) : bool :=
  match h with
  | Happens (C_request _ (Delete_alert _)) | Happens (C_request _ Clear_all) | Happens (C_cleanup _) | Around _ _ _ _ => true
  | _ => false
  end.
(** The open alert of tenant [t] was deleted so on the way. *)
Definition deleted_unheard (tr : list (AlertWorld * Happening)) (id t : Z) : Prop :=
  exists v h r, In (v, h) tr /\ silent_deletion h = true /\ In r (lw_rows v) /\ la_id r = id /\ la_tenant r = t /\ is_active r = true
    /\ forall x, In x (lw_rows (happen h v)) -> la_id x <> id.

(** The tenants whose alerts the socket hears. *)
Definition hears (s : Socket) (t : Z) : bool := existsb (holds (joinedRooms s)) (audienceRooms t).

Lemma received_app {P} s (l1 l2 : list (Emission P)) : received s (l1 ++ l2) = received s l1 ++ received s l2.
Proof. unfold received. by rewrite List.filter_app, map_app. Qed.

(** [w'] is [w] with [es] emitted on the way. *)
Definition emits (w w' : AlertWorld) (es : list (Emission AlertEvent)) : Prop := lw_out w' = lw_out w ++ es.
Lemma bell_after_emits s w w' es b : emits w w' es -> bell_after s w w' b = hear (received s es) b.
Proof. unfold emits, bell_after. intros ->. by rewrite List.skipn_app, List.skipn_all, Nat.sub_diag. Qed.
Lemma hear_app es1 es2 b : hear (es1 ++ es2) b = hear es2 (hear es1 b).
Proof. apply fold_left_app. Qed.

(** *** Resolved ids *)

Lemma add_to_tenant_In t id m t' i : (exists ids, In (t', ids) (add_to_tenant t id m) /\ In i ids) <-> (t' = t /\ i = id) \/ (exists ids, In (t', ids) m /\ In i ids).
Proof.
  induction m as [|[t0 l0] m IH]; cbn [add_to_tenant].
  - split; [|intros [[-> ->]|(ids & [] & _)]; exists [id]; split; by left]. intros (ids & [[= <- <-]|[]] & [<-|[]]). by left.
  - destruct (Z.eqb_spec t0 t) as [E|E].
    + subst t0. split.
      * intros (ids & [[= <- <-]|Hin] & Hi); [|right; exists ids; split; [by right|done]].
        apply in_app_or in Hi as [Hi|[<-|[]]]; [right; exists l0; split; [by left|done]|by left].
      * intros [[-> ->]|(ids & [[= <- <-]|Hin] & Hi)]; [exists (l0 ++ [id]); split; [by left|apply in_or_app; right; by left]|exists (l0 ++ [id]); split; [by left|apply in_or_app; by left]|exists ids; split; [by right|done]].
    + split.
      * intros (ids & [[= <- <-]|Hin] & Hi); [right; exists l0; split; [by left|done]|].
        destruct (proj1 IH) as [H|(l & Hl & Hi')]; [by exists ids|by left|right; exists l; split; [by right|done]].
      * intros [H|(ids & [[= <- <-]|Hin] & Hi)]; [destruct (proj2 IH (or_introl H)) as (l & Hl & Hi); exists l; split; [by right|done]|exists l0; split; [by left|done]|].
        destruct (proj2 IH) as (l & Hl & Hi'); [right; by exists ids|exists l; split; [by right|done]].
Qed.
Lemma groupByTenant_In rows t i : (exists ids, In (t, ids) (groupByTenant rows) /\ In i ids) <-> exists r, In r rows /\ la_tenant r = t /\ la_id r = i.
Proof.
  unfold groupByTenant. assert (H : forall m, (exists ids, In (t, ids) (fold_left (fun m r => add_to_tenant (la_tenant r) (la_id r) m) rows m) /\ In i ids)
     <-> (exists ids, In (t, ids) m /\ In i ids) \/ exists r, In r rows /\ la_tenant r = t /\ la_id r = i).
  { induction rows as [|r rows IH]; intros m; cbn [fold_left]; [split; [by left|by intros [H|(? & [] & _)]]|].
    rewrite IH, add_to_tenant_In. split.
    - intros [[[-> ->]|H]|(x & Hx & E)]; [right; exists r; split; [by left|done]|by left|right; exists x; split; [by right|done]].
    - intros [H|(x & [<-|Hx] & E1 & E2)]; [left; by right|left; left; by subst|right; by exists x]. }
  rewrite H. split; [intros [(? & [] & _)|H']; done|by right].
Qed.

Lemma reaches_emit {P} s rooms ev (p : P) : reaches (emit_to rooms ev p) s = existsb (holds (joinedRooms s)) rooms.
Proof. unfold reaches. cbn [emit_to em_to em_except existsb]. by rewrite andb_true_r. Qed.

(** A bell after the events of a recovery: without the resolved rows of the tenants it hears. *)
Lemma hear_resolved s rows b a :
  In a (hear (received s (map (fun tg => emit_to (audienceRooms (fst tg)) "notification:resolved" (NOTIFICATION_RESOLVED (fst tg) (snd tg))) (groupByTenant rows))) b)
  <-> In a b /\ ~ exists r, In r rows /\ hears s (la_tenant r) = true /\ la_id r = lr_id a.
Proof.
  assert (H : forall g b, In a (hear (received s (map (fun tg : Z * list Z => emit_to (audienceRooms (fst tg)) "notification:resolved" (NOTIFICATION_RESOLVED (fst tg) (snd tg))) g)) b)
     <-> In a b /\ ~ exists t ids, In (t, ids) g /\ hears s t = true /\ In (lr_id a) ids).
  { clear b. induction g as [|[t ids] g IH]; intros b.
    { cbn. split; [intros Hb; split; [done|]; by intros (? & ? & [] & _)|by intros [Hb _]]. }
    cbn [map]. rewrite received_cons, reaches_emit. fold (hears s (fst (t, ids))). cbn [fst snd em_payload emit_to].
    destruct (hears s t) eqn:E.
    - rewrite hear_app, IH. cbn [hear fold_left on_event]. unfold applyResolvedFromServer. rewrite filter_In, negb_true_iff. split.
      + intros [[Hb Hm] Hn]. split; [done|]. intros (t' & ids' & [[= <- <-]|Hin] & Hh & Hi); [|apply Hn; eauto].
        apply mem_In in Hi. congruence.
      + intros [Hb Hn]. split_and!; [done| |].
        * destruct (mem (lr_id a) ids) eqn:Em; [|done]. destruct Hn. exists t, ids. split_and!; [by left|done|by apply mem_In].
        * intros (t' & ids' & Hin & Hh & Hi). apply Hn. exists t', ids'. split_and!; [by right|done|done].
    - cbn [app]. rewrite IH. split; intros [Hb Hn]; (split; [done|]); intros (t' & ids' & Hin & Hh & Hi); apply Hn.
      + destruct Hin as [[= <- <-]|Hin]; [congruence|eauto].
      + exists t', ids'. split_and!; [by right|done|done]. }
  rewrite H. split; intros [Hb Hn]; (split; [done|]).
  - intros (r & Hr & Hh & E). apply Hn. destruct (proj2 (groupByTenant_In rows (la_tenant r) (lr_id a))) as (ids & Hin & Hi); [by exists r|]. eauto.
  - intros (t & ids & Hin & Hh & Hi). apply Hn. destruct (proj1 (groupByTenant_In rows t (lr_id a))) as (r & Hr & E1 & E2); [by exists ids|]. exists r. by rewrite E1.
Qed.

(** *** The invariant *)

Definition is_read (r : AlertRow) : bool := negb (bool_decide (la_read r = None)).

(** [gone]: rows resolved that the bell has not heard of yet; [fresh]: ids it has not heard of
    yet; [lost]: ids and tenants of the rows it will not hear of. *)
Record bell_ok (s : Socket) (lost : Z -> Z -> Prop) (w : AlertWorld) (b : Bell) (gone : list AlertRow) (fresh : list Z) : Prop := {
  bo_wf : wf_rows w;
  bo_io : lw_io w = true;
  bo_sound : forall a r, In a b -> In r (lw_rows w) -> la_id r = lr_id a ->
     lr_tenantId a = la_tenant r /\ lr_read a = is_read r /\ (is_active r = true \/ exists g, In g gone /\ la_id g = la_id r);
  bo_heard : forall a, In a b -> hears s (lr_tenantId a) = true /\ lr_id a < lw_next w;
  bo_all : forall r, In r (lw_rows w) -> is_active r = true -> hears s (la_tenant r) = true -> In (la_id r) fresh \/ exists a, In a b /\ lr_id a = la_id r;
  bo_gone : forall g r, In g gone -> In r (lw_rows w) -> la_id r = la_id g -> la_tenant r = la_tenant g /\ is_active r = false;
  bo_old : forall g, In g gone -> la_id g < lw_next w;
  bo_fresh : forall i a, In i fresh -> In a b -> lr_id a <> i;
  bo_kept : forall a, In a b -> (exists r, In r (lw_rows w) /\ la_id r = lr_id a) \/ (exists g, In g gone /\ la_id g = lr_id a /\ la_tenant g = lr_tenantId a)
     \/ lost (lr_id a) (lr_tenantId a)
}.
Lemma bell_ok_weaken s (lost lost' : Z -> Z -> Prop) w b gone fresh : (forall i t, lost i t -> lost' i t) -> bell_ok s lost w b gone fresh -> bell_ok s lost' w b gone fresh.
Proof. intros H [H1 H2 H3 H4 H5 H6 H8 H7 H9]. split; try done. intros a Ha. destruct (H9 a Ha) as [?|[?|?]]; auto. Qed.

(** From [(w0, b0)] to [(w, b)]: the bell heard what was emitted, and no more room is taken. *)
Definition tracks (s : Socket) (w0 : AlertWorld) (b0 : Bell) (w : AlertWorld) (b : Bell) : Prop :=
  exists es, emits w0 w es /\ b = hear (received s es) b0 /\ (length b <= length b0)%nat.

Lemma tracks_refl s w b : tracks s w b w b.
Proof. exists []. unfold emits. by rewrite List.app_nil_r. Qed.
Lemma tracks_silent s w0 b0 w b w' : tracks s w0 b0 w b -> lw_out w' = lw_out w -> tracks s w0 b0 w' b.
Proof. intros (es & E & H) F. exists es. unfold emits in *. by rewrite F. Qed.
Lemma tracks_emit s w0 b0 w b w' es : tracks s w0 b0 w b -> emits w w' es -> (length (hear (received s es) b) <= length b)%nat ->
  tracks s w0 b0 w' (hear (received s es) b).
Proof.
  intros (es0 & E & -> & Hl) F Hl'. exists (es0 ++ es). unfold emits in *. rewrite F, E, received_app, hear_app, <- app_assoc. split_and!; [done..|lia].
Qed.

Section Bell.
Context (s : Socket) (lost : Z -> Z -> Prop).

Lemma ok_resolve w b p t : bell_ok s lost w b [] [] -> bell_ok s lost (update_rows p (resolved_at t) w) b (updated_rows p w) [].
Proof.
  intros [H1 H2 H3 H4 H5 H6 H8 H7 H9]. split; try done.
  - by apply (tame_resolve p t w).
  - intros a r' Ha Hr' E. cbn [update_rows with_rows lw_rows] in Hr'. apply in_map_iff in Hr' as (r & <- & Hr). destruct (p r) eqn:Ep.
    + cbn [resolved_at la_id la_tenant] in *. destruct (H3 a r Ha Hr E) as (E1 & E2 & _). split_and!; [done|done|right]. exists r.
      split; [by apply filter_In|done].
    + destruct (H3 a r Ha Hr E) as (E1 & E2 & [Hact|(g & [] & _)]). split_and!; [done|done|by left].
  - intros r' Hr' Hact Hh. cbn [update_rows with_rows lw_rows] in Hr'. apply in_map_iff in Hr' as (r & <- & Hr). destruct (p r); [done|]. by apply H5.
  - intros g r' Hg Hr' E. apply filter_In in Hg as [Hg Hp]. cbn [update_rows with_rows lw_rows] in Hr'. apply in_map_iff in Hr' as (r & <- & Hr).
    assert (r = g) as ->; [|by rewrite Hp]. apply (same_id_same w); [done..|]. by destruct (p r).
  - intros g Hg. apply filter_In in Hg as [Hg _]. by apply H1.
  - intros a Ha. destruct (H9 a Ha) as [(r & Hr & E)|[(g & [] & _)|Hlost]]; [left|by right; right].
    exists (if p r then resolved_at t r else r). split; [|by destruct (p r)]. cbn [update_rows with_rows lw_rows]. apply in_map_iff. by exists r.
Qed.

(** A deletion nobody hears of: the open rows it drops are lost. *)
Lemma ok_delete w b fresh p :
  (forall r, In r (lw_rows w) -> is_active r = true -> (forall x, In x (lw_rows (delete_rows p w)) -> la_id x <> la_id r) -> lost (la_id r) (la_tenant r)) ->
  bell_ok s lost w b [] fresh -> bell_ok s lost (delete_rows p w) b [] fresh.
Proof.
  intros Hp [H1 H2 H3 H4 H5 H6 H8 H7 H9]. split; try done.
  - by eapply (tame_filter (fun r => negb (p r)) w).
  - intros a r Ha Hr E. apply filter_In in Hr as [Hr _]. by apply H3.
  - intros r Hr. apply filter_In in Hr as [Hr _]. by apply H5.
  - intros a Ha. destruct (H9 a Ha) as [(r & Hr & E)|[(g & [] & _)|Hlost]]; [|by right; right].
    destruct (p r) eqn:Ep; [right; right|left; exists r; split; [apply filter_In; by rewrite Ep|done]].
    destruct (H3 a r Ha Hr E) as (E1 & _ & [Hact|(g & [] & _)]). rewrite <- E, E1. apply Hp; [done|done|].
    intros x Hx Ex. apply filter_In in Hx as [Hx Hn]. rewrite (same_id_same w x r H1 Hx Hr Ex), Ep in Hn. done.
Qed.

(** A deletion leaves the open rows it dropped to announce. *)
Lemma ok_dropped w b fresh p : bell_ok s lost w b [] fresh -> bell_ok s lost (delete_rows p w) b (List.filter is_active (updated_rows p w)) fresh.
Proof.
  intros [H1 H2 H3 H4 H5 H6 H8 H7 H9]. split; try done.
  - by eapply (tame_filter (fun r => negb (p r)) w).
  - intros a r Ha Hr E. apply filter_In in Hr as [Hr _]. destruct (H3 a r Ha Hr E) as (E1 & E2 & [E3|(g & [] & _)]). split_and!; [done|done|by left].
  - intros r Hr. apply filter_In in Hr as [Hr _]. by apply H5.
  - intros g r Hg Hr E. apply filter_In in Hg as [Hg _]. apply filter_In in Hg as [Hg Hp]. apply filter_In in Hr as [Hr Hn].
    rewrite (same_id_same w r g) in Hn; [by rewrite Hp in Hn|done|done|done|done].
  - intros g Hg. apply filter_In in Hg as [Hg _]. apply filter_In in Hg as [Hg _]. by apply H1.
  - intros a Ha. destruct (H9 a Ha) as [(r & Hr & E)|[(g & [] & _)|Hlost]]; [|by right; right].
    destruct (H3 a r Ha Hr E) as (E1 & _ & [Hact|(g & [] & _)]).
    destruct (p r) eqn:Ep; [right; left|left; exists r; split; [apply filter_In; by rewrite Ep|done]].
    exists r. split; [|done]. apply filter_In. split; [by apply filter_In|done].
Qed.

Lemma ok_update w b gone fresh p f :
  (forall r, la_id (f r) = la_id r /\ la_tenant (f r) = la_tenant r /\ la_read (f r) = la_read r /\ la_resolved (f r) = la_resolved r) ->
  bell_ok s lost w b gone fresh -> bell_ok s lost (update_rows p f w) b gone fresh.
Proof.
  intros Hf [H1 H2 H3 H4 H5 H6 H8 H7 H9].
  assert (Hin : forall r', In r' (lw_rows (update_rows p f w)) -> exists r, In r (lw_rows w) /\ la_id r' = la_id r /\ la_tenant r' = la_tenant r /\ la_read r' = la_read r /\ la_resolved r' = la_resolved r).
  { intros r' Hr'. cbn [update_rows with_rows lw_rows] in Hr'. apply in_map_iff in Hr' as (r & <- & Hr). exists r. destruct (p r); [|done]. split; [done|apply Hf]. }
  split; try done.
  - destruct H1 as [Hnd Hlt]. split; [cbn [update_rows with_rows lw_rows]; rewrite map_id_update; [done|apply Hf]|].
    intros r' Hr'. destruct (Hin r' Hr') as (r & Hr & -> & _). by apply Hlt.
  - intros a r' Ha Hr' E. destruct (Hin r' Hr') as (r & Hr & E1 & E2 & E3 & E4). rewrite E1 in E. unfold is_read, is_active. rewrite E1, E2, E3, E4. by apply H3.
  - intros r' Hr' Hact Hh. destruct (Hin r' Hr') as (r & Hr & E1 & E2 & E3 & E4). rewrite E1. unfold is_active in Hact. rewrite E4 in Hact. rewrite E2 in Hh. by apply H5.
  - intros g r' Hg Hr' E. destruct (Hin r' Hr') as (r & Hr & E1 & E2 & E3 & E4). unfold is_active. rewrite E2, E4. apply H6; [done|done|congruence].
  - intros a Ha. destruct (H9 a Ha) as [(r & Hr & E)|H]; [left|by right]. exists (if p r then f r else r). split.
    + cbn [update_rows with_rows lw_rows]. apply in_map_iff. by exists r.
    + destruct (p r); [by rewrite (proj1 (Hf r))|done].
Qed.

Lemma ok_insert w b gone w1 mk row : bell_ok s lost w b gone [] -> (forall id, la_id (mk id) = id) -> insert_row mk w = (w1, Some row) ->
  bell_ok s lost w1 b gone [la_id row] /\ lw_out w1 = lw_out w /\ In row (lw_rows w1) /\ la_id row = lw_next w /\ forall x, In x (lw_rows w1) -> la_id x <= la_id row.
Proof.
  intros [H1 H2 H3 H4 H5 H6 H8 H7 H9] Hmk H. unfold insert_row in H. destruct (lw_tenants w !! _); [|done]. injection H as <- <-.
  destruct H1 as [Hnd Hlt]. assert (Hnew : forall r, In r (lw_rows w) -> la_id r <> la_id (mk (lw_next w))) by (intros r Hr; rewrite Hmk; specialize (Hlt r Hr); lia).
  split_and!; [|done|cbn [with_rows lw_rows]; apply in_or_app; right; by left|by apply Hmk|].
  2: { intros x [Hx|[<-|[]]]%in_app_iff; [specialize (Hlt x Hx); rewrite Hmk; lia|done]. }
  split; cbn [with_rows lw_rows lw_io lw_next]; try done.
  - split; cbn [with_rows lw_rows lw_next].
    + rewrite map_app. apply NoDup_app. split_and!; [done| |by apply NoDup_singleton]. intros i Hi Hj. apply list_elem_of_singleton in Hj as ->.
      apply list_elem_of_In, in_map_iff in Hi as (r & E & Hr). by apply (Hnew r).
    + intros r Hr. apply in_app_or in Hr as [Hr|[<-|[]]]; [specialize (Hlt r Hr); lia|rewrite Hmk; lia].
  - intros a r Ha Hr E. apply in_app_or in Hr as [Hr|[<-|[]]]; [by apply H3|]. destruct (H4 a Ha) as [_ H4']. rewrite Hmk in E. lia.
  - intros a Ha. destruct (H4 a Ha). split; [done|lia].
  - intros r Hr Hact Hh. apply in_app_or in Hr as [Hr|[<-|[]]]; [|left; by left]. right. by destruct (H5 r Hr Hact Hh) as [[]|].
  - intros g r Hg Hr E. apply in_app_or in Hr as [Hr|[<-|[]]]; [by apply H6|]. exfalso. specialize (H8 g Hg). rewrite Hmk in E. lia.
  - intros g Hg. specialize (H8 g Hg). lia.
  - intros i a [<-|[]] Ha E. destruct (H4 a Ha) as [_ H4']. rewrite Hmk in E. lia.
  - intros a Ha. destruct (H9 a Ha) as [(r & Hr & E)|H]; [left|by right]. exists r. split; [apply in_or_app; by left|done].
Qed.

Lemma ok_out w b gone fresh es : bell_ok s lost w b gone fresh -> bell_ok s lost (with_out es w) b gone fresh.
Proof. by intros [H1 H2 H3 H4 H5 H6 H8 H7 H9]. Qed.

Lemma resolved_length (g : list (Z * list Z)) b :
  (length (hear (received s (map (fun tg => emit_to (audienceRooms (fst tg)) "notification:resolved" (NOTIFICATION_RESOLVED (fst tg) (snd tg))) g)) b) <= length b)%nat.
Proof.
  revert b. induction g as [|[t ids] g IH]; intros b; [done|]. cbn [map]. rewrite received_cons, hear_app.
  etransitivity; [apply IH|]. destruct (reaches _ s); [|done]. cbn [hear fold_left on_event em_payload emit_to fst snd]. apply filter_length_le.
Qed.

Lemma ok_tell w0 b0 w b gone fresh : bell_ok s lost w b gone fresh -> tracks s w0 b0 w b ->
  exists b', tracks s w0 b0 (emitResolved gone w) b' /\ bell_ok s lost (emitResolved gone w) b' [] fresh.
Proof.
  intros Hok Ht. destruct Hok as [H1 H2 H3 H4 H5 H6 H8 H7 H9]. unfold emitResolved. rewrite H2. cbn [negb orb].
  case_bool_decide as Hg; [subst gone; exists b; split; [done|by split]|].
  eexists. split; [eapply tracks_emit; [exact Ht|done|apply resolved_length]|].
  split; try done; cbn [with_out lw_rows lw_next].
  - intros a r Ha Hr E. apply hear_resolved in Ha as [Ha Hn]. destruct (H3 a r Ha Hr E) as (E1 & E2 & [E3|(g & Hg' & Eg)]); [split_and!; [done|done|by left]|].
    exfalso. apply Hn. exists g. destruct (H6 g r Hg' Hr) as [Et _]; [done|]. split_and!; [done| |congruence]. rewrite <- Et, <- E1. by apply H4.
  - intros a Ha. apply hear_resolved in Ha as [Ha _]. by apply H4.
  - intros r Hr Hact Hh. destruct (H5 r Hr Hact Hh) as [Hf|(a & Ha & E)]; [by left|right]. exists a. split; [|done]. apply hear_resolved. split; [done|].
    intros (g & Hg' & _ & Eg). destruct (H6 g r Hg' Hr) as [_ Hf]; [congruence|congruence].
  - intros i a Hi Ha. apply hear_resolved in Ha as [Ha _]. by apply H7.
  - intros a Ha. apply hear_resolved in Ha as [Ha Hn]. destruct (H9 a Ha) as [H|[(g & Hg' & E1 & E2)|H]]; [by left| |by right; right].
    exfalso. apply Hn. exists g. split_and!; [done| |done]. rewrite E2. by apply H4.
Qed.

Lemma ok_announce w0 b0 w b t row : bell_ok s lost w b [] [la_id row] -> tracks s w0 b0 w b -> (length b < 200)%nat ->
  la_tenant row = t -> la_read row = None -> la_resolved row = None -> la_id row < lw_next w ->
  In row (lw_rows w) -> (forall r, In r (lw_rows w) -> la_id r = la_id row -> r = row) ->
  exists b', bell_ok s lost (fst (announce row t w)) b' [] [] /\ exists es, emits w0 (fst (announce row t w)) es /\ b' = hear (received s es) b0.
Proof.
  intros [H1 H2 H3 H4 H5 H6 H8 H7 H9] (es0 & Ee & -> & Hl) Hlen Et Hread Hres Hid Hin Huniq. unfold announce. rewrite H2. cbn [fst].
  set (a := rowToAlert _ row). set (b := hear (received s es0) b0) in *.
  assert (Hb : hear (received s [emit_to (audienceRooms t) "notification:new" (NOTIFICATION_NEW a)]) b = if hears s t then a :: b else b).
  { rewrite received_cons, reaches_emit. fold (hears s t). destruct (hears s t); [|done]. cbn [app hear fold_left on_event received map List.filter em_payload emit_to].
    unfold addAlertFromServer, shown. cbn [a rowToAlert lr_resolvedAt lr_id]. rewrite Hres, bool_decide_true by done. cbn [negb orb].
    replace (existsb _ b) with false; [by rewrite take_ge by (cbn [length]; lia)|]. symmetry. apply existsb_false_forall. intros x Hx.
    apply Z.eqb_neq. apply (H7 (la_id row)); [by left|done]. }
  exists (if hears s t then a :: b else b). split.
  - split; try done; cbn [with_out lw_rows lw_next].
    + intros x r Hx Hr E. assert (Hcase : x = a \/ In x b) by (destruct (hears s t); [destruct Hx as [<-|Hx]; [by left|by right]|by right]).
      destruct Hcase as [->|Hxb]; [|by apply H3]. cbn [a rowToAlert lr_id lr_tenantId lr_read] in *. rewrite (Huniq r Hr E). split_and!; [done|done|left].
      unfold is_active. by rewrite Hres.
    + intros x Hx. destruct (hears s t) eqn:Eh; [|by apply H4]. destruct Hx as [<-|Hx]; [|by apply H4]. cbn [a rowToAlert lr_tenantId lr_id]. by rewrite Et.
    + intros r Hr Hact Hh. right. destruct (H5 r Hr Hact Hh) as [[Ei|[]]|(x & Hx & E)].
      * symmetry in Ei. rewrite (Huniq r Hr Ei) in *. rewrite Et in Hh. rewrite Hh. exists a. split; [by left|done].
      * exists x. split; [|done]. destruct (hears s t); [by right|done].
    + intros x Hx. destruct (hears s t); [|by apply H9]. destruct Hx as [<-|Hx]; [left; by exists row|by apply H9].
  - eexists. split; [unfold emits; cbn [with_out lw_out]; by rewrite Ee, <- app_assoc|]. rewrite received_app, hear_app. fold b. symmetry. exact Hb.
Qed.

Lemma ok_read w b p t u : bell_ok s lost w b [] [] -> (forall r, p r = true -> la_tenant r = t) ->
  let w' := emitRead u t (map la_id (updated_rows p w)) (lw_now w) (update_rows p (read_at (lw_now w)) w) in
  bell_ok s lost w' (bell_after s w w' b) [] [].
Proof.
  intros Hok Hp w'. pose proof Hok as [H1 H2 H3 H4 H5 H6 H8 H7 H9].
  assert (Hnone : List.filter p (lw_rows w) = [] -> bell_ok s lost w' (bell_after s w w' b) [] []).
  { intros E. unfold w', updated_rows. rewrite E, (update_none _ _ _ E). unfold emitRead. rewrite orb_true_r.
    rewrite (bell_after_emits s w w []); [done|]. unfold emits. by rewrite List.app_nil_r. }
  destruct (List.filter p (lw_rows w)) as [|r0 l0] eqn:Ep; [by apply Hnone|]. clear Hnone.
  assert (Ew : w' = with_out [emit_to (user_room u :: audienceRooms t) "notification:read" (NOTIFICATION_READ t (map la_id (updated_rows p w)) (lw_now w))] (update_rows p (read_at (lw_now w)) w)).
  { unfold w', emitRead. cbn [update_rows with_rows lw_io]. rewrite H2. unfold updated_rows. rewrite Ep. done. }
  rewrite Ew. clear w' Ew. set (ids := map la_id (updated_rows p w)).
  set (e := emit_to _ _ _). rewrite (bell_after_emits s w _ [e]) by done. rewrite received_cons. cbn [received map List.filter]. rewrite List.app_nil_r.
  set (b' := hear _ b). assert (Hids : forall r, In r (lw_rows w) -> p r = mem (la_id r) ids).
  { intros r Hr. apply eq_true_iff_eq. rewrite mem_In. unfold ids. rewrite in_map_iff. split; [intros E; exists r; split; [done|by apply filter_In]|].
    intros (x & E & Hx). apply filter_In in Hx as [Hx E']. by rewrite (same_id_same w r x). }
  assert (Hb : forall a, In a b' -> exists a0, In a0 b /\ lr_id a = lr_id a0 /\ lr_tenantId a = lr_tenantId a0 /\
     (forall r, In r (lw_rows w) -> la_id r = lr_id a0 -> lr_read a = (p r || lr_read a0))).
  { intros a Ha. unfold b' in Ha. destruct (reaches e s) eqn:Er.
    - cbn [hear fold_left on_event em_payload emit_to e] in Ha. apply in_map_iff in Ha as (a0 & <- & Ha0). exists a0. split; [done|].
      destruct (mem (lr_id a0) ids) eqn:Em; cbn [set_lr_read lr_id lr_tenantId lr_read]; split_and!; try done; intros r Hr E; rewrite (Hids r Hr), E, Em; done.
    - cbn in Ha. exists a. split_and!; [done..|]. intros r Hr E. destruct (p r) eqn:Epr; [|done]. exfalso. destruct (H3 a r Ha Hr E) as (Et & _).
      destruct (H4 a Ha) as [Hh _]. rewrite Et, (Hp r Epr) in Hh. unfold e in Er. rewrite reaches_emit in Er. cbn [existsb] in Er. apply orb_false_iff in Er as [_ Er]. unfold hears in Hh. congruence. }
  assert (Hb' : forall a0, In a0 b -> exists a, In a b' /\ lr_id a = lr_id a0).
  { intros a0 Ha0. unfold b'. destruct (reaches e s); [|by exists a0]. cbn [hear fold_left on_event em_payload emit_to e].
    exists (if mem (lr_id a0) ids then set_lr_read (Some (lw_now w)) a0 else a0). split; [apply in_map_iff; by exists a0|by destruct (mem _ _)]. }
  split; try done; cbn [with_out update_rows with_rows lw_rows lw_next lw_io].
  - by apply (tame_read p (lw_now w) w).
  - intros a r' Ha Hr' E. apply in_map_iff in Hr' as (r & <- & Hr). destruct (Hb a Ha) as (a0 & Ha0 & E1 & E2 & E3).
    assert (Eid : la_id r = lr_id a0) by (rewrite <- E1, <- E; by destruct (p r)). destruct (H3 a0 r Ha0 Hr Eid) as (F1 & F2 & [F3|(g & [] & _)]).
    rewrite E2, (E3 r Hr Eid), F2. destruct (p r); split_and!; try done; by left.
  - intros a Ha. destruct (Hb a Ha) as (a0 & Ha0 & -> & -> & _). by apply H4.
  - intros r' Hr' Hact Hh. apply in_map_iff in Hr' as (r & <- & Hr). right.
    assert (Hr2 : is_active r = true /\ hears s (la_tenant r) = true /\ la_id (if p r then read_at (lw_now w) r else r) = la_id r) by (by destruct (p r)).
    destruct Hr2 as (Ha2 & Hh2 & ->). destruct (H5 r Hr Ha2 Hh2) as [[]|(a & Ha & E)]. destruct (Hb' a Ha) as (a' & Ha' & E'). exists a'. split; [done|congruence].
  - intros a Ha. destruct (Hb a Ha) as (a0 & Ha0 & -> & -> & _). destruct (H9 a0 Ha0) as [(r & Hr & E)|[(g & [] & _)|H]]; [left|by right; right].
    exists (if p r then read_at (lw_now w) r else r). split; [apply in_map_iff; by exists r|by destruct (p r)].
Qed.

Lemma tracks_bell w0 b0 w b : tracks s w0 b0 w b -> b = bell_after s w0 w b0 /\ (length b <= length b0)%nat.
Proof. intros (es & E & -> & Hl). split; [|done]. by rewrite (bell_after_emits s w0 w es). Qed.

(** The tail of a call that inserted [row]: the trim, then the announcement. *)
Lemma ok_inserted w0 b0 w b t row : bell_ok s lost w b [] [la_id row] -> tracks s w0 b0 w b -> (length b0 < 200)%nat ->
  In row (lw_rows w) -> (forall x, In x (lw_rows w) -> la_id x <= la_id row) -> la_tenant row = t -> la_read row = None -> la_resolved row = None ->
  let w' := fst (announce row t (trimTenant t w)) in bell_ok s lost w' (bell_after s w0 w' b0) [] [].
Proof.
  intros Hok Ht Hlen Hin Hmax Et Hr Hres w'.
  destruct (ok_tell w0 b0 (delete_rows (trimmed t (lw_rows w)) w) b (List.filter is_active (updated_rows (trimmed t (lw_rows w)) w)) [la_id row]) as (b1 & T1 & O1);
    [by apply ok_dropped|by eapply tracks_silent|]. fold (trimTenant t w) in T1, O1.
  pose proof (tracks_bell _ _ _ _ T1) as [_ Hl1]. destruct (trimTenant_rows t w) as [Etr Etn].
  destruct (ok_announce w0 b0 (trimTenant t w) b1 t row O1 T1) as (b2 & O2 & es & E2 & ->); try done.
  - lia.
  - rewrite Etn. by apply (bo_wf _ _ _ _ _ _ Hok).
  - apply trim_keeps_newest; [apply Hok|done| |done]. unfold is_active. by rewrite Hres.
  - intros r Hr' E. rewrite Etr in Hr'. apply filter_In in Hr' as [Hr' _]. apply (same_id_same w); [apply Hok|done..].
  - by rewrite (bell_after_emits s w0 w' es).
Qed.

Lemma ok_add w b t opts : bell_ok s lost w b [] [] -> (length b < 200)%nat -> bell_ok s lost (fst (add t opts w)) (bell_after s w (fst (add t opts w)) b) [] [].
Proof.
  intros Hok Hl. unfold add. destruct (add_duplicate t opts w).
  { cbn [fst]. rewrite (bell_after_emits s w w []); [done|]. unfold emits. by rewrite List.app_nil_r. }
  destruct (insert_row (blank_alert t opts (lw_now w)) w) as [w1 [row|]] eqn:E.
  - destruct (ok_insert w b [] w1 (blank_alert t opts (lw_now w)) row Hok (fun _ => eq_refl) E) as (O1 & Eo & Hin & _ & Hmax).
    assert (Hrow : row = blank_alert t opts (lw_now w) (lw_next w)) by (unfold insert_row in E; destruct (lw_tenants w !! _); congruence).
    pose proof (ok_inserted w b w1 b t row O1) as G. cbn zeta in G.
    destruct (announce row t (trimTenant t w1)) as [w2 a]. cbn [fst] in *. apply G; try done; try (by subst row).
    eapply tracks_silent; [apply tracks_refl|done].
  - cbn [fst]. assert (Eo : lw_out w1 = lw_out w /\ lw_rows w1 = lw_rows w /\ lw_io w1 = lw_io w /\ lw_next w1 = lw_next w + 1).
    { unfold insert_row in E. destruct (lw_tenants w !! _); [done|]. by injection E as <-. }
    destruct Eo as (Eo & Er & Ei & En). rewrite (bell_after_emits s w w1 []); [|unfold emits; by rewrite List.app_nil_r].
    destruct Hok as [[H1 H1'] H2 H3 H4 H5 H6 H8 H7 H9]. split; cbn [received map List.filter hear fold_left]; rewrite ?Er, ?Ei, ?En; try done.
    + split; rewrite Er; [done|]. intros r Hr. specialize (H1' r Hr). lia.
    + intros a Ha. destruct (H4 a Ha). split; [done|lia].
Qed.

(** The state of the bell after the commit of a raise, before it hears of it. *)
Lemma ok_commit input t w b w1 row created resolved : bell_ok s lost w b [] [] -> (length b < 200)%nat ->
  raise_commit input t (lw_now w) (open_of_key t (ri_stableKey input) w) w = (w1, inr (row, created, resolved)) ->
  bell_ok s lost w1 b resolved (if created then [la_id row] else []) /\ lw_out w1 = lw_out w /\ In row (lw_rows w1)
  /\ (created = true -> forall x, In x (lw_rows w1) -> la_id x <= la_id row).
Proof.
  intros Hok Hl E. unfold raise_commit in E. set (active := open_of_key t (ri_stableKey input) w) in *.
  pose proof (ok_resolve w b (is_stale input active) (lw_now w) Hok) as O1. set (v := update_rows (is_stale input active) (resolved_at (lw_now w)) w) in *.
  destruct (updated_rows (is_keep input active) v) as [|r0 l0] eqn:Eu.
  - destruct (insert_row _ v) as [w2 [row'|]] eqn:Ei; [|done]. injection E as <- <- <- <-.
    destruct (ok_insert v b _ w2 (raised input t (lw_now w) (lw_now v)) row' O1 (fun _ => eq_refl) Ei) as (O2 & Eo & Hin & _ & Hmax). by rewrite Eo.
  - injection E as <- <- <- <-. split_and!; [by apply ok_update|done| |done]. assert (G : In r0 (updated_rows (is_keep input active) v)) by (rewrite Eu; by left).
    apply filter_In in G as [G Gk]. apply in_map_iff. exists r0. by rewrite Gk.
Qed.

Lemma ok_raise w b input : bell_ok s lost w b [] [] -> (length b < 200)%nat ->
  bell_ok s lost (fst (raiseIncident input w)) (bell_after s w (fst (raiseIncident input w)) b) [] [].
Proof.
  intros Hok Hl. unfold raiseIncident. assert (Hsame : forall w1, lw_out w1 = lw_out w -> lw_rows w1 = lw_rows w -> lw_io w1 = lw_io w -> lw_next w <= lw_next w1 ->
    bell_ok s lost w1 (bell_after s w w1 b) [] []).
  { intros w1 Eo Er Ei En. rewrite (bell_after_emits s w w1 []); [|unfold emits; by rewrite List.app_nil_r].
    destruct Hok as [[H1 H1'] H2 H3 H4 H5 H6 H8 H7 H9]. split; cbn [received map List.filter hear fold_left]; rewrite ?Er, ?Ei; try done.
    - split; rewrite Er; [done|]. intros r Hr. specialize (H1' r Hr). lia.
    - intros a Ha. destruct (H4 a Ha). split; [done|lia]. }
  destruct (assertIncidentInput input) as [e|t]; [by apply Hsame|].
  destruct (raise_commit input t (lw_now w) (open_of_key t (ri_stableKey input) w) w) as [w1 [e|[[row created] resolved]]] eqn:E.
  - cbn [fst]. unfold raise_commit in E. destruct (updated_rows _ _); [|done]. unfold insert_row in E. destruct (_ !! _); [done|].
    injection E as <- _. apply Hsame; try done. cbn. lia.
  - destruct (ok_commit input t w b w1 row created resolved Hok Hl E) as (O1 & Eo & Hin & Hmax).
    destruct (ok_tell w b w1 b resolved _ O1) as (b1 & T1 & O2); [eapply tracks_silent; [apply tracks_refl|done]|].
    destruct created; cbn [negb].
    + pose proof (ok_inserted w b (emitResolved resolved w1) b1 t row O2 T1 Hl) as G. cbn zeta in G.
      destruct (announce row t (trimTenant t (emitResolved resolved w1))) as [w3 a]. cbn [fst] in *.
      destruct (raise_commit_open input t (lw_now w) w w1 row true resolved (bo_wf _ _ _ _ _ _ Hok) E) as (_ & _ & _ & _ & _ & -> & _).
      apply G; try done; destruct (emitResolved_rows resolved w1) as [-> _]; [done|by apply Hmax].
    + cbn [fst]. pose proof (tracks_bell _ _ _ _ T1) as [<- _]. done.
Qed.

Lemma ok_resolved w b p : bell_ok s lost w b [] [] ->
  exists b', tracks s w b (emitResolved (updated_rows p w) (update_rows p (resolved_at (lw_now w)) w)) b'
    /\ bell_ok s lost (emitResolved (updated_rows p w) (update_rows p (resolved_at (lw_now w)) w)) b' [] [].
Proof. intros Hok. apply (ok_tell w b _ b); [by apply ok_resolve|]. eapply tracks_silent; [apply tracks_refl|done]. Qed.

Lemma ok_silent w b : bell_ok s lost w b [] [] -> bell_ok s lost w (bell_after s w w b) [] [].
Proof. intros H. rewrite (bell_after_emits s w w []); [done|]. unfold emits. by rewrite List.app_nil_r. Qed.

Lemma ok_happen w b h :
  (silent_deletion h = true -> forall r, In r (lw_rows w) -> is_active r = true -> (forall x, In x (lw_rows (happen h w)) -> la_id x <> la_id r) ->
     lost (la_id r) (la_tenant r)) ->
  bell_ok s lost w b [] [] -> (length b < 200)%nat -> bell_ok s lost (happen h w) (bell_after s w (happen h w) b) [] [].
Proof.
  intros Hlost Hok Hl. destruct h as [[t opts|input|sel|days|q rq]|now tenants devices members]; cbn [happen].
  - by apply ok_add.
  - by apply ok_raise.
  - destruct (no_selector sel) eqn:Es; [unfold resolveIncidents; rewrite Es; by apply ok_silent|].
    rewrite (resolve_run sel w Es). destruct (ok_resolved w b (matches sel) Hok) as (b' & T & O). by destruct (tracks_bell _ _ _ _ T) as [<- _].
  - unfold cleanup. cbn [fst]. destruct (ok_resolved w b (orphaned w) Hok) as (b' & T & O).
    set (w1 := emitResolved _ _) in *. destruct (tracks_bell w b (delete_rows (expired (lw_now w1 - Z.max 1 days * DAY_MS)) w1) b') as [<- _]; [by eapply tracks_silent|].
    apply ok_delete; [|exact O]. intros r Hr Hact Hx. apply Hlost; [done| |done|exact Hx].
    unfold w1 in Hr. rewrite (proj1 (emitResolved_rows _ _)) in Hr. cbn [update_rows with_rows lw_rows] in Hr.
    apply in_map_iff in Hr as (r0 & E & Hr). by destruct (orphaned w r0); subst r.
  - destruct rq as [inc|inc|raw| |raw|]; cbn [serve_alert fst]; try by apply ok_silent.
    + destruct (found_alert raw (readableTenants w q) w) as [a|] eqn:Ef; [|by apply ok_silent]. cbn [markRead fst].
      pose proof (ok_read w b (the_alert (la_id a) (la_tenant a)) (la_tenant a) (rd_user q) Hok) as G. cbn zeta in G.
      apply found_alert_in in Ef as [Ha _].
      assert (Eu : updated_rows (the_alert (la_id a) (la_tenant a)) w <> [] /\ forall r, In r (updated_rows (the_alert (la_id a) (la_tenant a)) w) -> r = a).
      { split.
        - intros E. assert (F : In a (updated_rows (the_alert (la_id a) (la_tenant a)) w)); [|by rewrite E in F]. apply filter_In. split; [done|].
          unfold the_alert, of_tenant. by rewrite !Z.eqb_refl.
        - intros r Hr. apply filter_In in Hr as [Hr E]. unfold the_alert in E. boolify. apply (same_id_same w); [apply Hok|done..]. }
      destruct Eu as [Hne Hall]. destruct (updated_rows (the_alert (la_id a) (la_tenant a)) w) as [|x [|y l]] eqn:Eu; [done| |].
      * rewrite (Hall x) in G by (by left). cbn [map] in G. apply G. intros r Hr. unfold the_alert, of_tenant in Hr. by boolify.
      * exfalso. assert (Hnd : NoDup (map la_id (updated_rows (the_alert (la_id a) (la_tenant a)) w))) by (apply NoDup_map_filter; apply Hok).
        rewrite Eu, (Hall x), (Hall y) in Hnd by (simpl; tauto). cbn [map] in Hnd. apply NoDup_cons in Hnd as [Hnd _]. apply Hnd. by left.
    + cbn [markAllRead fst]. apply ok_read; [done|]. intros r Hr. unfold unread_active, of_tenant in Hr. by boolify.
    + destruct (found_alert raw (deletableTenants w q) w) as [a|] eqn:Ef; [|by apply ok_silent]. cbn [fst].
      destruct (tracks_bell w b (deleteAlert (la_id a) w) b) as [<- _]; [eapply tracks_silent; [apply tracks_refl|done]|].
      apply ok_delete; [|done]. cbn [happen serve_alert] in Hlost. rewrite Ef in Hlost. by apply Hlost.
    + destruct (tracks_bell w b (clearAll (rd_tenant q) w) b) as [<- _]; [eapply tracks_silent; [apply tracks_refl|done]|]. apply ok_delete; [|done]. by apply Hlost.
  - destruct (tracks_bell w b (environment now (lw_io w) tenants devices members w) b) as [<- _]; [eapply tracks_silent; [apply tracks_refl|done]|].
    assert (Er : lw_rows (environment now (lw_io w) tenants devices members w) = lw_rows (delete_rows (fun r => negb (bool_decide (is_Some (tenants !! la_tenant r)))) w)).
    { cbn [environment delete_rows with_rows lw_rows]. apply filter_ext. intros r. by rewrite negb_involutive. }
    destruct (ok_delete w b [] (fun r => negb (bool_decide (is_Some (tenants !! la_tenant r))))) as [G1 G2 G3 G4 G5 G6 G8 G7 G9]; [|exact Hok|].
    { intros r Hr Hact Hx. apply Hlost; [done|done|done|]. cbn [happen]. by rewrite Er. }
    split; rewrite ?Er; try done. unfold wf_rows in *. by rewrite Er.
Qed.
End Bell.

(** *** Theorem *)

(** The socket of the reader: its notification rooms are those of the memberships. *)
Record connected (s : Socket) (q : Reader) (w : AlertWorld) : Prop := {
  cn_2fa : sk_2fa_pending s = false;
  cn_admin : sk_admin s = reader_admin q;
  cn_notify : sk_notify s = memberTenantIds w (rd_user q);
  cn_ids : forall t, In t (sk_notify s) -> 0 < t <= max_safe_integer
}.

Lemma holds_notifications s t : sk_2fa_pending s = false -> (forall x, In x (sk_notify s) -> 0 < x <= max_safe_integer) ->
  holds (joinedRooms s) (notifications_room t) = true <-> In t (sk_notify s) \/ (sk_admin s = true /\ t = MASTER_TENANT_ID).
Proof.
  intros H2 Hids. rewrite (holds_room s (R_notifications t)). unfold socketRooms. rewrite H2. cbn [In]. rewrite !in_app_iff, in_map_iff.
  assert (Hpos : forall x, In x (positive_ids (sk_notify s)) <-> In x (sk_notify s)).
  { intros x. unfold positive_ids. rewrite filter_In. split; [by intros [? _]|]. intros Hx. split; [done|]. destruct (Hids x Hx). lia. }
  split.
  - intros [H|[H|[H|[H|[H|H]]]]]; try discriminate H.
    + destruct (sk_tenant s); [|done]. destruct H as [H|H]; [done|]. apply in_app_or in H as [H|H]; [destruct (sk_admin s); [by destruct H as [H|[]]|done]|].
      destruct (sk_scope s); [by destruct H as [H|[]]|]. apply in_map_iff in H as (? & H & _). done.
    + destruct (sk_admin s); [by destruct H as [H|[]]|done].
    + destruct H as (x & [= ->] & Hx). left. by apply Hpos.
    + destruct (sk_admin s); [destruct H as [[= <-]|[]]; by right|done].
    + by destruct H as [H|[]].
  - intros [H|[H ->]]; right; right; right.
    + left. exists t. split; [done|by apply Hpos].
    + right. left. rewrite H. by left.
Qed.

(** A reader hears exactly the tenants whose alerts it may read. *)
Lemma hears_readable s q w t : connected s q w -> hears s t = in_scope (readableTenants w q) t.
Proof.
  intros [H2 Ha Hn Hids]. apply eq_true_iff_eq. unfold hears, audienceRooms, isMasterTenant. cbn [existsb]. rewrite orb_true_iff.
  pose proof (holds_notifications s t H2 Hids) as Ht. pose proof (holds_notifications s MASTER_TENANT_ID H2 Hids) as Hm.
  unfold readableTenants. rewrite <- Ha, <- Hn. destruct (sk_admin s) eqn:Ead; cbn [in_scope].
  - split; [done|]. intros _. destruct (Z.eqb_spec t MASTER_TENANT_ID) as [->|]; [left; apply Hm; by right|right; cbn [existsb]; rewrite (proj2 Hm) by (by right); done].
  - destruct (mem MASTER_TENANT_ID (sk_notify s)) eqn:Em; cbn [in_scope].
    + split; [done|]. intros _. apply mem_In in Em. destruct (Z.eqb_spec t MASTER_TENANT_ID) as [->|]; [left; apply Hm; by left|right; cbn [existsb]; rewrite (proj2 Hm) by (by left); done].
    + rewrite mem_In. split.
      * intros [H|H]; [apply Ht in H as [H|[H _]]; done|]. destruct (t =? MASTER_TENANT_ID); [done|]. cbn [existsb] in H. rewrite orb_false_r in H.
        apply Hm in H as [H|[H _]]; [|done]. apply mem_In in H. congruence.
      * intros H. left. apply Ht. by left.
Qed.

Lemma fetched_ok s lost q w : connected s q w -> wf_rows w -> lw_io w = true ->
  (forall r, In r (lw_rows w) -> is_Some (lw_tenants w !! la_tenant r)) ->
  (length (List.filter (fun r => in_scope (readableTenants w q) (la_tenant r) && is_active r) (lw_rows w)) <= 200)%nat ->
  bell_ok s lost w (fetchAlerts (getForTenants (readableTenants w q) 200 false w)) [] [].
Proof.
  intros Hc Hw Hio Ht Hlen. set (p := fun r => bool_decide (is_Some (lw_tenants w !! la_tenant r)) && in_scope (readableTenants w q) (la_tenant r) && listed false r).
  assert (Hin : forall a, In a (fetchAlerts (getForTenants (readableTenants w q) 200 false w)) <->
     exists r, In r (lw_rows w) /\ p r = true /\ a = rowToAlert (lw_tenants w !! la_tenant r) r).
  { intros a. unfold fetchAlerts. rewrite filter_In.
    assert (E : getForTenants (readableTenants w q) 200 false w = map (fun r => rowToAlert (lw_tenants w !! la_tenant r) r) (order_by newest_first (List.filter p (lw_rows w)))).
    { unfold getForTenants. fold p. rewrite take_ge.
      - destruct (readableTenants w q) as [|[|x l]] eqn:Er; try done. symmetry. unfold p. rewrite filter_none; [done|]. intros r _. cbn [in_scope mem existsb]. by rewrite andb_false_r.
      - rewrite (Permutation_length (order_by_perm newest_first _)). etransitivity; [|exact Hlen]. apply NoDup_incl_length.
        + apply NoDup_ListNoDup, (NoDup_fmap_1 la_id). change (fmap la_id) with (map la_id). apply NoDup_map_filter, Hw.
        + intros r Hr. apply filter_In in Hr as [Hr Hp]. apply filter_In. split; [done|]. unfold p, listed in Hp. cbn [orb] in Hp. boolify. by rewrite H1, H0. }
    rewrite E, in_map_iff. split.
    - intros [(r & <- & Hr) _]. apply order_by_In, filter_In in Hr as [Hr Hp]. by exists r.
    - intros (r & Hr & Hp & ->). split; [exists r; split; [done|by apply order_by_In, filter_In]|]. unfold p, listed in Hp. boolify. exact H0. }
  split; try done.
  - intros a r Ha Hr E. apply Hin in Ha as (x & Hx & Hp & ->). cbn [rowToAlert lr_id lr_tenantId lr_read] in *. rewrite (same_id_same w r x) by done.
    split_and!; [done|done|left]. unfold p, listed in Hp. by boolify.
  - intros a Ha. apply Hin in Ha as (x & Hx & Hp & ->). cbn [rowToAlert lr_id lr_tenantId]. split; [|by apply Hw]. rewrite (hears_readable s q w _ Hc). unfold p in Hp. by boolify.
  - intros r Hr Hact Hh. right. exists (rowToAlert (lw_tenants w !! la_tenant r) r). split; [|done]. apply Hin. exists r. split_and!; [done| |done].
    rewrite (hears_readable s q w _ Hc) in Hh. unfold p, listed. rewrite Hh, Hact. by rewrite bool_decide_true by (by apply Ht).
  - intros a Ha. apply Hin in Ha as (x & Hx & _ & ->). left. by exists x.
Qed.

(** C25. A connected client fetched the alerts when at most 200 were open in the tenants its user
    may read, and then only listens, to calls that run one after the other, its list never
    full. It then shows every open alert of those tenants, and no alert of another tenant; and
    each alert it shows has its row, open, of that tenant and marked read exactly when the alert
    is, except an alert whose row, then open, was deleted while it listened by one of the
    operations that tell no client: a deletion, the clearing of a tenant, the retention, or the
    removal of the tenant. *)
Theorem bell_shows_open s q w0 tr w b
    (Hc : connected s q w0) (Hw : wf_rows w0) (Hio : lw_io w0 = true)
    (Ht : forall r, In r (lw_rows w0) -> is_Some (lw_tenants w0 !! la_tenant r))
    (Hlen : (length (List.filter (fun r => in_scope (readableTenants w0 q) (la_tenant r) && is_active r) (lw_rows w0)) <= 200)%nat)
    (Hf : follows s w0 (fetchAlerts (getForTenants (readableTenants w0 q) 200 false w0)) tr w b) :
  (forall r, In r (lw_rows w) -> is_active r = true -> in_scope (readableTenants w0 q) (la_tenant r) = true -> exists a, In a b /\ lr_id a = la_id r)
  /\ (forall a, In a b -> in_scope (readableTenants w0 q) (lr_tenantId a) = true)
  /\ (forall a r, In a b -> In r (lw_rows w) -> la_id r = lr_id a -> is_active r = true /\ lr_tenantId a = la_tenant r /\ lr_read a = is_read r)
  /\ (forall a, In a b -> (exists r, In r (lw_rows w) /\ la_id r = lr_id a) \/ deleted_unheard tr (lr_id a) (lr_tenantId a)).
Proof.
  assert (Hok : bell_ok s (deleted_unheard tr) w b [] []).
  { assert (H0 : bell_ok s (deleted_unheard []) w0 (fetchAlerts (getForTenants (readableTenants w0 q) 200 false w0)) [] []) by (by apply fetched_ok).
    revert H0. clear -Hf. induction Hf as [w b|w0 b0 tr w b h _ IH Hl]; [done|]. intros H0. apply ok_happen; [| |done].
    - intros Hs r Hr Ha Hx. exists w, h, r. split_and!; [by left|done..].
    - apply (bell_ok_weaken s (deleted_unheard tr)); [|auto]. intros i t (v & k & r & Hin & H). exists v, k, r. split; [by right|done]. }
  pose proof Hok as [H1 H2 H3 H4 H5 _ _ _ H9]. split_and!.
  - intros r Hr Hact Hs. rewrite <- (hears_readable s q w0 _ Hc) in Hs. by destruct (H5 r Hr Hact Hs) as [[]|].
  - intros a Ha. rewrite <- (hears_readable s q w0 _ Hc). by apply H4.
  - intros a r Ha Hr E. destruct (H3 a r Ha Hr E) as (E1 & E2 & [E3|(g & [] & _)]). done.
  - intros a Ha. destruct (H9 a Ha) as [H|[(g & [] & _)|H]]; [by left|by right].
Qed.

(** ** At work *)

(** Tenant 3 after a raise; tenant 4 has an open alert too. *)
Definition one_open : AlertWorld := fst (raiseIncident (offline Sev_warning) alert_sample).
Definition elsewhere : RaiseIncidentInput := {|
  ri_tenantId := NInt 4; ri_kind := "ban_burst"; ri_stableKey := incidentStableKey "ban_burst" "tenant:4"; ri_deviceId := None;
  ri_title := "Ban burst"; ri_message := "120 bans in 10 minutes"; ri_severity := Sev_down; ri_link := Some "/bans" |}.
Definition two_open : AlertWorld := fst (raiseIncident elsewhere {|
  lw_now := 2000; lw_io := true; lw_tenants := <[4 := "Globex"]> (lw_tenants one_open); lw_devices := lw_devices one_open;
  lw_members := (8, 4) :: lw_members one_open; lw_rows := lw_rows one_open; lw_next := lw_next one_open; lw_out := [] |}).
Lemma two_open_wf : wf_rows two_open.
Proof.
  split; [by apply (bool_decide_eq_true_1 (NoDup (map la_id (lw_rows two_open)))); vm_compute|]. intros r Hr. vm_compute in Hr.
  repeat (destruct Hr as [<-|Hr]; [by vm_compute|]). done.
Qed.

Lemma resolve_exact_witness : snd (resolveIncidents recovery two_open) = inr [1] /\ map is_active (lw_rows (fst (resolveIncidents recovery two_open))) = [false; true].
Proof. split; [apply (recovery_exact recovery two_open); by vm_compute|by vm_compute]. Defined.

Lemma trim_keeps_open_witness : (length (List.filter (of_tenant 3) (lw_rows (trimTenant 3 two_open))) <= LIVE_ALERTS_PER_TENANT)%nat.
Proof. destruct (trim_keeps_open 3 two_open two_open_wf) as [H _]. exact H. Defined.

Lemma raise_opens_witness : exists a row created, snd (raiseIncident (offline Sev_down) two_open) = inr (a, created)
  /\ In row (lw_rows (fst (raiseIncident (offline Sev_down) two_open))) /\ la_severity row = Sev_down.
Proof.
  destruct (raise_opens (offline Sev_down) 3 two_open two_open_wf) as (a & row & created & E & H1 & _ & _ & _ & _ & H6 & _);
    [by vm_compute|by eexists; vm_compute|].
  exists a, row, created. split; [exact E|]. split; [exact H1|exact H6].
Defined.

(** User 5 reads tenant 3 from tenant 3: the alert of tenant 4 is out of reach. *)
Definition owner : Reader := {| rd_user := 5; rd_role := Some "user"; rd_tenant := 3 |}.
Definition globex_alert : AlertRow := nth 1 (lw_rows two_open) (raised elsewhere 4 0 0 0).
Lemma alerts_confined_witness : In globex_alert (lw_rows (fst (serve_alert owner (Delete_alert "2") two_open))).
Proof.
  destruct (alerts_confined owner (Delete_alert "2") two_open two_open_wf) as (H & _). apply (H globex_alert).
  - vm_compute. auto.
  - by vm_compute.
  - by vm_compute.
Defined.

(** A platform administrator sees both alerts, and the one that is left after the recovery. *)
Definition platform : Reader := {| rd_user := 1; rd_role := Some "admin"; rd_tenant := 1 |}.
Definition platform_socket : Socket := {| sk_user := 1; sk_admin := true; sk_2fa_pending := false; sk_tenant := Some 1; sk_scope := Ids_all; sk_notify := [] |}.
Definition recovered : AlertWorld := happen (Happens (C_resolve recovery)) two_open.
Definition platform_bell : Bell := fetchAlerts (getForTenants (readableTenants two_open platform) 200 false two_open).
Lemma bell_shows_open_witness :
  length platform_bell = 2%nat /\ exists a, In a (bell_after platform_socket two_open recovered platform_bell) /\ lr_id a = 2.
Proof.
  split; [by vm_compute|].
  apply (proj1 (bell_shows_open platform_socket platform two_open [(two_open, Happens (C_resolve recovery))] recovered (bell_after platform_socket two_open recovered platform_bell)
    ltac:(by split) two_open_wf eq_refl ltac:(intros x Hx; vm_compute in Hx; repeat (destruct Hx as [<-|Hx]; [eexists; by vm_compute|]); done)
    ltac:(vm_compute; lia) (follows_step _ _ _ [] two_open platform_bell (Happens (C_resolve recovery)) (follows_refl _ _ _) ltac:(vm_compute; lia))) globex_alert);
    vm_compute; auto.
Defined.

(** The alert of tenant 4 is deleted, and stays in the bell. *)
Definition deletion : Happening := Happens (C_request platform (Delete_alert "2")).
Lemma deleted_stays_shown :
  map la_id (lw_rows (happen deletion two_open)) = [1] /\ map lr_id (bell_after platform_socket two_open (happen deletion two_open) platform_bell) = map lr_id platform_bell
  /\ In 2 (map lr_id platform_bell).
Proof. split_and!; [by vm_compute|by vm_compute|vm_compute; auto]. Qed.

Definition owner_socket : Socket := {| sk_user := 5; sk_admin := false; sk_2fa_pending := false; sk_tenant := Some 3; sk_scope := Ids_all; sk_notify := [3] |}.

(** ** Where the rules stop *)

(** The announcement of a raise is sent after two more queries: a recovery in between is heard
    first, and the client then shows an alert that is resolved. *)
Definition late_announcement_moves : list Move :=
  [Start (C_raise (offline Sev_warning)); Run 0; Run 0; Run 0; Run 0; Run 0; Run 0; Start (C_resolve recovery); Run 1; Run 1; Run 1; Run 0].
Definition after_late : AlertWorld := fst (default (alert_sample, []) (schedule late_announcement_moves (alert_sample, []))).
Lemma announcement_after_recovery :
  rtc step (alert_sample, []) (after_late, [])
  /\ map is_active (lw_rows after_late) = [false]
  /\ map lr_id (bell_after owner_socket alert_sample after_late []) = [1].
Proof. split_and!; [apply (schedule_steps late_announcement_moves)| |]; by vm_compute. Qed.

(** Reading everything in the client marks the alerts of every tenant, on the server those of the
    current tenant only. *)
Lemma read_all_is_wider :
  let admin := {| rd_user := 1; rd_role := Some "admin"; rd_tenant := 3 |} in
  let b := fetchAlerts (getForTenants (readableTenants two_open admin) 200 false two_open) in
  countUnread (local_read_all b) None = O
  /\ map is_read (lw_rows (fst (serve_alert admin Mark_all_read two_open))) = [true; false].
Proof. by vm_compute. Qed.
