(* ===== verification/AgentIdentity.v ===== *)
(** * Enrolment keys and the identity of an agent

    [server/src/services/agentKey.service.ts], the rules of agentIdentity.ts ([Tenancy]) and the
    binding of a device to its key ([ensureAgentBinding], [checkAgentBinding],
    [countPendingForKey], [releaseKeyBinding] of agent.service.ts), over the tables of keys,
    devices and groups. The agents' channels are in [AgentHub]. *)

From S2P Require Import Prelude JsString JsValue JsNumber Tenancy Access Query.

(** ** Formats *)

(** A header that passes the test of its format is a text. *)
Definition api_key_text (v : js) : option string := if isAgentApiKeyFormat v then match v with JStr s => Some s | _ => None end else None.
Definition device_uuid_text (v : js) : option string := if isDeviceUuidFormat v then match v with JStr s => Some s | _ => None end else None.

(** ** Rows *)

(** [agent_api_keys]; the key is stored in lower case, as PostgreSQL prints a uuid. *)
Record KeyRow := {
  ak_id : Z; ak_tenant : Z; ak_name : string; ak_key : string; ak_active : bool; ak_revokedAt : option Z; ak_revokedBy : option Z;
  ak_group : option Z; ak_createdBy : option Z; ak_createdAt : Z
}.
(** [agent_devices]: the identity, and of the metadata of a push the host name and the address. *)
Record DeviceRow := {
  dv_id : Z; dv_uuid : string; dv_tenant : Z; dv_key : option Z; dv_type : option string; dv_status : string; dv_group : option Z;
  dv_hostname : string; dv_ip : string
}.
Record AgentTables := { at_keys : list KeyRow; at_nextKey : Z; at_devices : list DeviceRow; at_nextDevice : Z; at_groups : gmap Z Z }.

Definition with_keys (ks : list KeyRow) (w : AgentTables) : AgentTables :=
  {| at_keys := ks; at_nextKey := at_nextKey w; at_devices := at_devices w; at_nextDevice := at_nextDevice w; at_groups := at_groups w |}.
Definition with_devices (ds : list DeviceRow) (w : AgentTables) : AgentTables :=
  {| at_keys := at_keys w; at_nextKey := at_nextKey w; at_devices := ds; at_nextDevice := at_nextDevice w; at_groups := at_groups w |}.
Definition set_dv_key (k : option Z) (d : DeviceRow) : DeviceRow :=
  {| dv_id := dv_id d; dv_uuid := dv_uuid d; dv_tenant := dv_tenant d; dv_key := k; dv_type := dv_type d; dv_status := dv_status d; dv_group := dv_group d;
     dv_hostname := dv_hostname d; dv_ip := dv_ip d |}.
Definition set_dv_status (s : string) (d : DeviceRow) : DeviceRow :=
  {| dv_id := dv_id d; dv_uuid := dv_uuid d; dv_tenant := dv_tenant d; dv_key := dv_key d; dv_type := dv_type d; dv_status := s; dv_group := dv_group d;
     dv_hostname := dv_hostname d; dv_ip := dv_ip d |}.
Definition set_dv_group (g : option Z) (d : DeviceRow) : DeviceRow :=
  {| dv_id := dv_id d; dv_uuid := dv_uuid d; dv_tenant := dv_tenant d; dv_key := dv_key d; dv_type := dv_type d; dv_status := dv_status d; dv_group := g;
     dv_hostname := dv_hostname d; dv_ip := dv_ip d |}.

Definition is_mikrotik (d : DeviceRow) : bool := bool_decide (dv_type d = Some "mikrotik").

(** ** Key names and groups *)

Definition AGENT_KEY_NAME_MAX : Z := 255.
Definition parseKeyName (raw : js) : CodedError + string :=
  let name := match raw with JStr s => trim s | _ => "" end in
  if is_empty name then inl (codedError 400 "AGENT_KEY_NAME_REQUIRED" "Name is required")
  else if AGENT_KEY_NAME_MAX <? Z.of_nat (String.length name) then inl (codedError 400 "AGENT_KEY_NAME_TOO_LONG" "Name is limited to 255 characters")
  else inr name.

Definition group_invalid : CodedError := codedError 400 "AGENT_KEY_GROUP_INVALID" "Invalid default group".
(** An id beyond the column's integer type makes the query fail. *)
Definition MAX_GROUP_ID : Z := 2147483647.
Definition resolveDefaultGroup (w : AgentTables) (raw : js) (tenantId : Z) : CodedError + option Z :=
  match raw with
  | JNull => inr None
  | _ =>
      let id := match raw with
                | JNum n => n
                | JStr s => if negb (is_empty s) && str_forall is_digit s then str_to_number s else NOther
                | _ => NOther
                end in
      match id with
      | NInt z =>
          if z <=? 0 then inl group_invalid
          else if MAX_GROUP_ID <? z then inl (codedError 500 "22003" "integer out of range")
          else if bool_decide (at_groups w !! z = Some tenantId) then inr (Some z) else inl group_invalid
      | NOther => inl group_invalid
      end
  end.

(** ** Views *)

(** The first eight and the last four characters; nothing of a short value. The ellipsis
    between them is left out. *)
Inductive Masked := Hidden | Ends (first last : string).
Definition maskAgentKey (key : string) : Masked :=
  if (String.length key <=? 12)%nat then Hidden
  else Ends (String.substring 0 8 key) (String.substring (String.length key - 4) 4 key).

Record AgentKeyView := {
  kv_id : Z; kv_tenantId : Z; kv_name : string; kv_keyMasked : Masked; kv_isActive : bool; kv_revokedAt : option Z; kv_revokedBy : option Z;
  kv_defaultGroupId : option Z; kv_createdBy : option Z; kv_createdAt : Z; kv_deviceCount : Z; kv_pendingCount : Z
}.
Definition bound_to (k : Z) (d : DeviceRow) : bool := bool_decide (dv_key d = Some k).
Definition is_status (s : string) (d : DeviceRow) : bool := String.eqb (dv_status d) s.
Definition countPendingForKey (w : AgentTables) (k : Z) : Z := Z.of_nat (length (List.filter (fun d => bound_to k d && is_status "pending" d) (at_devices w))).
Definition toView (w : AgentTables) (r : KeyRow) : AgentKeyView := {|
  kv_id := ak_id r; kv_tenantId := ak_tenant r; kv_name := ak_name r; kv_keyMasked := maskAgentKey (ak_key r); kv_isActive := ak_active r;
  kv_revokedAt := ak_revokedAt r; kv_revokedBy := ak_revokedBy r; kv_defaultGroupId := ak_group r; kv_createdBy := ak_createdBy r;
  kv_createdAt := ak_createdAt r; kv_deviceCount := Z.of_nat (length (List.filter (bound_to (ak_id r)) (at_devices w)));
  kv_pendingCount := countPendingForKey w (ak_id r) |}.

(** ** The service *)

Definition own_key (id tenantId : Z) (r : KeyRow) : bool := (ak_id r =? id) && (ak_tenant r =? tenantId).
(** [ORDER BY created_at DESC, id DESC] *)
Definition newest_key (a b : KeyRow) : bool := if ak_createdAt a =? ak_createdAt b then ak_id b <=? ak_id a else ak_createdAt b <=? ak_createdAt a.
Definition list_keys (w : AgentTables) (tenantId : Z) : list AgentKeyView :=
  map (toView w) (order_by newest_key (List.filter (fun r => ak_tenant r =? tenantId) (at_keys w))).
Definition get_key (w : AgentTables) (id tenantId : Z) : option AgentKeyView := option_map (toView w) (List.find (own_key id tenantId) (at_keys w)).

(** [value] is the uuid drawn by the database. *)
Definition create_key (tenantId : Z) (rawName rawGroup : js) (createdBy : option Z) (now : Z) (value : string) (w : AgentTables)
    : AgentTables * (CodedError + (AgentKeyView * string)) :=
  match parseKeyName rawName with
  | inl e => (w, inl e)
  | inr name =>
      match (if is_undefined rawGroup then inr None else resolveDefaultGroup w rawGroup tenantId) with
      | inl e => (w, inl e)
      | inr group =>
          let row := {| ak_id := at_nextKey w; ak_tenant := tenantId; ak_name := name; ak_key := value; ak_active := true; ak_revokedAt := None;
                        ak_revokedBy := None; ak_group := group; ak_createdBy := match createdBy with Some u => if 0 <? u then Some u else None | None => None end;
                        ak_createdAt := now |} in
          let w' := {| at_keys := at_keys w ++ [row]; at_nextKey := at_nextKey w + 1; at_devices := at_devices w; at_nextDevice := at_nextDevice w; at_groups := at_groups w |} in
          (w', inr (toView w' row, value))
      end
  end.

Record KeyPatch := { kp_name : js; kp_isActive : js; kp_defaultGroupId : js }.
Record KeyUpdate := { ku_name : option string; ku_group : option (option Z); ku_active : option bool }.
Definition apply_key_update (u : KeyUpdate) (now : Z) (byUserId : option Z) (r : KeyRow) : KeyRow := {|
  ak_id := ak_id r; ak_tenant := ak_tenant r; ak_name := default (ak_name r) (ku_name u); ak_key := ak_key r;
  ak_active := default (ak_active r) (ku_active u);
  ak_revokedAt := match ku_active u with Some false => Some now | Some true => None | None => ak_revokedAt r end;
  ak_revokedBy := match ku_active u with Some false => match byUserId with Some b => if 0 <? b then Some b else None | None => None end
                                      | Some true => None | None => ak_revokedBy r end;
  ak_group := default (ak_group r) (ku_group u); ak_createdBy := ak_createdBy r; ak_createdAt := ak_createdAt r |}.

Definition write_key (id tenantId : Z) (u : KeyUpdate) (now : Z) (byUserId : option Z) (w : AgentTables) : AgentTables :=
  with_keys (map (fun r => if own_key id tenantId r then apply_key_update u now byUserId r else r) (at_keys w)) w.

(** The update of a patch against the row read: [disabled] and [enabled] are [ku_active]. *)
Definition key_update (w : AgentTables) (current : KeyRow) (tenantId : Z) (p : KeyPatch) : CodedError + KeyUpdate :=
  sbind (if is_undefined (kp_name p) then inr None else sbind (parseKeyName (kp_name p)) (fun n => inr (Some n))) (fun name =>
  sbind (if is_undefined (kp_defaultGroupId p) then inr None else sbind (resolveDefaultGroup w (kp_defaultGroupId p) tenantId) (fun g => inr (Some g))) (fun group =>
  match kp_isActive p with
  | JUndefined => inr {| ku_name := name; ku_group := group; ku_active := None |}
  | JBool b => inr {| ku_name := name; ku_group := group; ku_active := if Bool.eqb (ak_active current) b then None else Some b |}
  | _ => inl (codedError 400 "FIELD_BOOLEAN" "isActive must be a boolean")
  end)).
(** The answer of [update] before it writes. *)
Definition read_key_update (id tenantId : Z) (p : KeyPatch) (w : AgentTables) : CodedError + KeyUpdate :=
  if is_undefined (kp_name p) && is_undefined (kp_defaultGroupId p) && is_undefined (kp_isActive p)
  then inl (codedError 400 "AGENT_KEY_NOTHING_TO_UPDATE" "Nothing to update")
  else match List.find (own_key id tenantId) (at_keys w) with
       | None => inl (codedError 404 "AGENT_KEY_NOT_FOUND" "API key not found")
       | Some current => key_update w current tenantId p
       end.
(** [disabled] and [enabled] are the activity written, if any. *)
Definition update_key (id tenantId : Z) (p : KeyPatch) (byUserId : option Z) (now : Z) (w : AgentTables) : AgentTables * (CodedError + option bool) :=
  match read_key_update id tenantId p w with
  | inl e => (w, inl e)
  | inr u => (write_key id tenantId u now byUserId w, inr (ku_active u))
  end.

(** The foreign key of the devices is [ON DELETE SET NULL]. *)
Definition release_key (id : Z) (d : DeviceRow) : DeviceRow := if bound_to id d then set_dv_key None d else d.
Definition remove_key (id tenantId : Z) (w : AgentTables) : AgentTables * bool :=
  if existsb (own_key id tenantId) (at_keys w)
  then (with_devices (map (release_key id) (at_devices w)) (with_keys (List.filter (fun r => negb (own_key id tenantId r)) (at_keys w)) w), true)
  else (w, false).
Definition reveal_key (w : AgentTables) (id tenantId : Z) : option string :=
  if id <=? 0 then None
  else match List.find (own_key id tenantId) (at_keys w) with
       | Some r => if ak_active r then Some (ak_key r) else None
       | None => None
       end.

(** Uuids are compared as values: the case of the text does not matter. *)
Definition findActiveByValue (w : AgentTables) (raw : js) : option KeyRow :=
  match api_key_text raw with
  | None => None
  | Some s => match List.find (fun r => String.eqb (ak_key r) (to_lower s)) (at_keys w) with
              | Some r => if ak_active r then Some r else None
              | None => None
              end
  end.
Definition defaultGroupFor (w : AgentTables) (k : Z) : option Z :=
  match List.find (fun r => ak_id r =? k) (at_keys w) with
  | Some r => match ak_group r with
              | Some g => if bool_decide (at_groups w !! g = Some (ak_tenant r)) then Some g else None
              | None => None
              end
  | None => None
  end.

(** ** The binding of a device *)

Inductive BindingMode := Strict | AnyKeyOfTenant.
#[global] Instance BindingMode_eq_dec : EqDecision BindingMode.
Proof. solve_decision. Defined.

(** The rules of [Tenancy], on a row. *)
Definition binding (d : DeviceRow) : DeviceBinding := {| db_tenant := dv_tenant d; db_api_key := dv_key d; db_type := dv_type d |}.
Definition may_act (key : AgentKeyRef) (d : DeviceRow) : bool := agentKeyMayActForDevice key (binding d).
Definition may_rebind (key : AgentKeyRef) (d : DeviceRow) : bool := agentKeyMayRebindDevice key (binding d).

Definition findDeviceBindingByUuid (w : AgentTables) (uuid : string) : option DeviceRow := List.find (fun d => String.eqb (dv_uuid d) uuid) (at_devices w).
Definition device_of (id : Z) (w : AgentTables) : option DeviceRow := List.find (fun d => dv_id d =? id) (at_devices w).
Definition key_exists (w : AgentTables) (k : Z) : bool := existsb (fun r => ak_id r =? k) (at_keys w).

(** The update of the row read, only while its binding is still the one read; the database
    refuses the id of a key deleted meanwhile. *)
Inductive Claim := Answer (ok : bool) | Contended | Violated.
Definition claimable (key : AgentKeyRef) (row d : DeviceRow) : bool :=
  (dv_id d =? dv_id row) && (dv_tenant d =? key_tenant key) && bool_decide (dv_key d = dv_key row).
Definition claim_binding (key : AgentKeyRef) (row : DeviceRow) (w : AgentTables) : AgentTables * Claim :=
  if negb (existsb (claimable key row) (at_devices w)) then (w, Contended)
  else if negb (key_exists w (key_id key)) then (w, Violated)
  else (with_devices (map (fun d => if claimable key row d then set_dv_key (Some (key_id key)) d else d) (at_devices w)) w, Answer true).

(** [ensureAgentBinding] to the answer of its update, and the second look at a row whose
    binding changed meanwhile. *)
Definition ensure_claim (mode : BindingMode) (key : AgentKeyRef) (row : DeviceRow) (w : AgentTables) : AgentTables * Claim :=
  let rebinds := bool_decide (mode = AnyKeyOfTenant) && may_rebind key row in
  if is_status "suspended" row || is_status "refused" row then (w, Answer (may_act key row || rebinds))
  else if may_act key row then
    match dv_key row with
    | Some _ => (w, Answer true)
    | None => claim_binding key row w
    end
  else if rebinds && bool_decide (is_Some (dv_key row)) then claim_binding key row w
  else (w, Answer false).
Definition ensure_fresh (key : AgentKeyRef) (row : DeviceRow) (w : AgentTables) : bool :=
  match device_of (dv_id row) w with Some fresh => may_act key fresh | None => false end.
(** None: the query failed. *)
Definition ensureAgentBinding (mode : BindingMode) (key : AgentKeyRef) (row : DeviceRow) (w : AgentTables) : AgentTables * option bool :=
  match ensure_claim mode key row w with
  | (w', Answer ok) => (w', Some ok)
  | (w', Contended) => (w', Some (ensure_fresh key row w'))
  | (w', Violated) => (w', None)
  end.

(** [{ ok, device }], None when a query failed. *)
Definition checkAgentBinding (mode : BindingMode) (key : AgentKeyRef) (uuid : string) (w : AgentTables) : AgentTables * option (bool * option DeviceRow) :=
  match findDeviceBindingByUuid w uuid with
  | None => (w, Some (true, None))
  | Some d => let '(w', ok) := ensureAgentBinding mode key d w in (w', option_map (fun b => (b, Some d)) ok)
  end.

(** A router has no binding to release. *)
Definition releaseKeyBinding (id tenantId : Z) (w : AgentTables) : AgentTables * bool :=
  let p d := (dv_id d =? id) && (dv_tenant d =? tenantId) && negb (is_mikrotik d) in
  (with_devices (map (fun d => if p d then set_dv_key None d else d) (at_devices w)) w, existsb p (at_devices w)).

(** ** Devices *)

Definition isGroupInTenant (w : AgentTables) (g tenantId : Z) : bool := (0 <? g) && bool_decide (at_groups w !! g = Some tenantId).
(** The group of an approval: the one chosen, else the device's own, else its key's. *)
Definition approve_group (w : AgentTables) (d : DeviceRow) (groupIdInput : option (option Z)) : option Z :=
  match groupIdInput with
  | Some g => g
  | None => match dv_group d with
            | Some g => Some g
            | None => match dv_key d with
                      | Some k => match defaultGroupFor w k with
                                  | Some g => if isGroupInTenant w g (dv_tenant d) then Some g else None
                                  | None => None
                                  end
                      | None => None
                      end
            end
  end.
Definition DEVICE_STATUSES : list string := ["approved"; "refused"; "pending"; "suspended"].
Definition on_device (id : Z) (f : DeviceRow -> DeviceRow) (w : AgentTables) : AgentTables :=
  with_devices (map (fun d => if dv_id d =? id then f d else d) (at_devices w)) w.
(** [updateDevice] of the controller for a status and a group, on a device of the caller's
    tenant; a suspended device is reinstated as it is. *)
Definition set_device_status (id tenantId : Z) (status : string) (group : option (option Z)) (w : AgentTables) : AgentTables * bool :=
  match device_of id w with
  | Some d =>
      if negb (dv_tenant d =? tenantId) then (w, false)
      else if negb (bool_decide (status ∈ DEVICE_STATUSES)) then (w, false)
      else if match group with Some (Some g) => negb (isGroupInTenant w g tenantId) | _ => false end then (w, false)
      else if String.eqb status "approved" then
        if is_status "suspended" d then (on_device id (set_dv_status status) w, true)
        else (on_device id (fun d0 => set_dv_status status (set_dv_group (approve_group w d group) d0)) w, true)
      else (on_device id (fun d0 => set_dv_status status (match group with Some g => set_dv_group g d0 | None => d0 end)) w, true)
  | None => (w, false)
  end.
Definition delete_device (id tenantId : Z) (w : AgentTables) : AgentTables * list string :=
  let p d := (dv_id d =? id) && (dv_tenant d =? tenantId) in
  (with_devices (List.filter (fun d => negb (p d)) (at_devices w)) w, map dv_uuid (List.filter p (at_devices w))).
