(* ===== verification/AgentHub.v ===== *)
(** * The agents' channels

    [server/src/services/obliguardHub.service.ts] and the gate of the WebSocket
    ([server/src/services/agentWsGate.ts]): the open channels, the keys and tenants refused
    since the start, the grace timers and the answers awaited from a firewall. The sockets
    themselves, the frames' contents and the delivery of the commands are elsewhere
    ([AgentCommand], [UpdateOps]); the interleavings are in [HubRuns]. *)

From S2P Require Import Prelude JsString JsValue JsNumber Tenancy Access Query AgentIdentity.

(** ** State *)

(** A channel; [cn_open] is [readyState === 1]. *)
Record Conn := {
  cn_uuid : string; cn_device : option Z; cn_tenant : Z; cn_key : Z; cn_ip : string;
  cn_closing : bool; cn_seen : bool; cn_rowless : bool; cn_open : bool
}.
(** [hb_conns] holds every channel by its socket, also those a closure still refers to;
    [hb_byDevice] names the current one of a device. *)
Record Hub := {
  hb_conns : gmap Z Conn; hb_byDevice : gmap string Z; hb_timers : gmap string (Z * Z); hb_revokedKeys : gset Z; hb_revokedTenants : gset Z;
  hb_waiters : gmap string string
}.
Definition empty_hub : Hub :=
  {| hb_conns := ∅; hb_byDevice := ∅; hb_timers := ∅; hb_revokedKeys := ∅; hb_revokedTenants := ∅; hb_waiters := ∅ |}.

Definition with_conns (cs : gmap Z Conn) (h : Hub) : Hub := {| hb_conns := cs; hb_byDevice := hb_byDevice h; hb_timers := hb_timers h;
  hb_revokedKeys := hb_revokedKeys h; hb_revokedTenants := hb_revokedTenants h; hb_waiters := hb_waiters h |}.
Definition with_byDevice (m : gmap string Z) (h : Hub) : Hub := {| hb_conns := hb_conns h; hb_byDevice := m; hb_timers := hb_timers h;
  hb_revokedKeys := hb_revokedKeys h; hb_revokedTenants := hb_revokedTenants h; hb_waiters := hb_waiters h |}.
Definition with_timers (m : gmap string (Z * Z)) (h : Hub) : Hub := {| hb_conns := hb_conns h; hb_byDevice := hb_byDevice h; hb_timers := m;
  hb_revokedKeys := hb_revokedKeys h; hb_revokedTenants := hb_revokedTenants h; hb_waiters := hb_waiters h |}.
Definition with_revokedKeys (s : gset Z) (h : Hub) : Hub := {| hb_conns := hb_conns h; hb_byDevice := hb_byDevice h; hb_timers := hb_timers h;
  hb_revokedKeys := s; hb_revokedTenants := hb_revokedTenants h; hb_waiters := hb_waiters h |}.
Definition with_revokedTenants (s : gset Z) (h : Hub) : Hub := {| hb_conns := hb_conns h; hb_byDevice := hb_byDevice h; hb_timers := hb_timers h;
  hb_revokedKeys := hb_revokedKeys h; hb_revokedTenants := s; hb_waiters := hb_waiters h |}.
Definition with_waiters (m : gmap string string) (h : Hub) : Hub := {| hb_conns := hb_conns h; hb_byDevice := hb_byDevice h; hb_timers := hb_timers h;
  hb_revokedKeys := hb_revokedKeys h; hb_revokedTenants := hb_revokedTenants h; hb_waiters := m |}.

Definition set_device (d : option Z) (c : Conn) : Conn := {| cn_uuid := cn_uuid c; cn_device := d; cn_tenant := cn_tenant c; cn_key := cn_key c; cn_ip := cn_ip c;
  cn_closing := cn_closing c; cn_seen := cn_seen c; cn_rowless := cn_rowless c; cn_open := cn_open c |}.
Definition set_seen (c : Conn) : Conn := {| cn_uuid := cn_uuid c; cn_device := cn_device c; cn_tenant := cn_tenant c; cn_key := cn_key c; cn_ip := cn_ip c;
  cn_closing := cn_closing c; cn_seen := true; cn_rowless := cn_rowless c; cn_open := cn_open c |}.
Definition set_has_row (c : Conn) : Conn := {| cn_uuid := cn_uuid c; cn_device := cn_device c; cn_tenant := cn_tenant c; cn_key := cn_key c; cn_ip := cn_ip c;
  cn_closing := cn_closing c; cn_seen := cn_seen c; cn_rowless := false; cn_open := cn_open c |}.
Definition set_closing (c : Conn) : Conn := {| cn_uuid := cn_uuid c; cn_device := cn_device c; cn_tenant := cn_tenant c; cn_key := cn_key c; cn_ip := cn_ip c;
  cn_closing := true; cn_seen := cn_seen c; cn_rowless := cn_rowless c; cn_open := false |}.
Definition set_shut (c : Conn) : Conn := {| cn_uuid := cn_uuid c; cn_device := cn_device c; cn_tenant := cn_tenant c; cn_key := cn_key c; cn_ip := cn_ip c;
  cn_closing := cn_closing c; cn_seen := cn_seen c; cn_rowless := cn_rowless c; cn_open := false |}.
Definition on_conn (ws : Z) (f : Conn -> Conn) (h : Hub) : Hub := with_conns (alter f ws (hb_conns h)) h.

Definition live (c : Conn) : bool := negb (cn_closing c) && cn_open c.
(** The channel the hub has for a device. *)
Definition current (h : Hub) (uuid : string) : option Conn := hb_byDevice h !! uuid ≫= fun ws => hb_conns h !! ws.
Definition registered (h : Hub) (ws : Z) (c : Conn) : bool := bool_decide (hb_byDevice h !! cn_uuid c = Some ws).

(** ** Registration *)

Definition hasLiveConflict (h : Hub) (uuid : string) (tenantId apiKeyId : Z) : bool :=
  match current h uuid with
  | Some e => negb (cn_closing e) && cn_open e && (negb (cn_tenant e =? tenantId) || negb (cn_key e =? apiKeyId))
  | None => false
  end.

Inductive Registration := Registered | Gone | Closed (code : Z) (reason : string).
Definition new_conn (uuid : string) (tenantId apiKeyId : Z) (clientIp : string) (rowless : bool) : Conn := {|
  cn_uuid := uuid; cn_device := None; cn_tenant := tenantId; cn_key := apiKeyId; cn_ip := clientIp; cn_closing := false; cn_seen := false; cn_rowless := rowless; cn_open := true |}.
(** The channel of the same key that a new one replaces. *)
Definition close_previous (uuid : string) (h : Hub) : Hub :=
  match hb_byDevice h !! uuid with
  | Some old => match hb_conns h !! old with Some e => if cn_open e then on_conn old set_shut h else h | None => h end
  | None => h
  end.
(** [register] to its first await; [up] is whether the new socket is still open. *)
Definition register (uuid : string) (tenantId apiKeyId : Z) (clientIp : string) (ws : Z) (rowless up : bool) (h : Hub) : Hub * Registration :=
  if negb up then (h, Gone)
  else if bool_decide (tenantId ∈ hb_revokedTenants h) then (h, Closed 4003 "Tenant deleted")
  else if bool_decide (apiKeyId ∈ hb_revokedKeys h) then (h, Closed 4003 "API key revoked")
  else if hasLiveConflict h uuid tenantId apiKeyId then (h, Closed 4003 "Device/API-key mismatch")
  else
    let h1 := close_previous uuid (with_timers (delete uuid (hb_timers h)) h) in
    (with_byDevice (<[uuid := ws]> (hb_byDevice h1)) (with_conns (<[ws := new_conn uuid tenantId apiKeyId clientIp rowless]> (hb_conns h1)) h1), Registered).

(** Returns the device and tenant whose grace timer is to start. *)
Definition _unregister (ws : Z) (h : Hub) : Hub * option (string * Z * Z) :=
  match hb_conns h !! ws with
  | None => (h, None)
  | Some c =>
      if registered h ws c then
        let h1 := with_waiters (filter (fun kv => kv.2 <> cn_uuid c) (hb_waiters h)) (with_byDevice (delete (cn_uuid c) (hb_byDevice h)) h) in
        (h1, match cn_device c with
             | Some d => if negb (d =? 0) && negb (bool_decide (cn_tenant c ∈ hb_revokedTenants h)) then Some (cn_uuid c, d, cn_tenant c) else None
             | None => None
             end)
      else (h, None)
  end.

(** ** Teardown *)

Definition disconnectWhere (pred : Z -> Conn -> bool) (h : Hub) : Hub :=
  with_conns (map_imap (fun ws c => Some (if registered h ws c && pred ws c then set_closing c else c)) (hb_conns h)) h.
Definition disconnectByApiKey (apiKeyId : Z) (h : Hub) : Hub := disconnectWhere (fun _ c => cn_key c =? apiKeyId) h.
Definition closeByApiKey (apiKeyId : Z) (h : Hub) : Hub := disconnectByApiKey apiKeyId (with_revokedKeys ({[apiKeyId]} ∪ hb_revokedKeys h) h).
Definition allowApiKey (apiKeyId : Z) (h : Hub) : Hub := with_revokedKeys (hb_revokedKeys h ∖ {[apiKeyId]}) h.
Definition closeByTenant (tenantId : Z) (h : Hub) : Hub :=
  disconnectWhere (fun _ c => cn_tenant c =? tenantId) (with_revokedTenants ({[tenantId]} ∪ hb_revokedTenants h) h).
Definition disconnectDevice (uuid : string) (h : Hub) : Hub := disconnectWhere (fun _ c => String.eqb (cn_uuid c) uuid) h.
Definition disconnectConn (ws : Z) (h : Hub) : Hub := disconnectWhere (fun ws' _ => ws' =? ws) h.

Definition counts_rowless (h : Hub) (apiKeyId : Z) (kv : Z * Conn) : bool :=
  registered h kv.1 kv.2 && cn_rowless kv.2 && negb (cn_closing kv.2) && (cn_key kv.2 =? apiKeyId).
Definition countRowlessForKey (h : Hub) (apiKeyId : Z) : Z := Z.of_nat (length (List.filter (counts_rowless h apiKeyId) (map_to_list (hb_conns h)))).

(** ** Presence *)

Definition is_open (h : Hub) (uuid : string) : bool := match current h uuid with Some c => cn_open c | None => false end.
Definition isConnected (h : Hub) (uuid : string) : bool := is_open h uuid || bool_decide (is_Some (hb_timers h !! uuid)).
(** [_startOfflineTimer] once the grace is known. *)
Definition arm_timer (uuid : string) (deviceId tenantId : Z) (h : Hub) : Hub :=
  if is_open h uuid then h else with_timers (<[uuid := (deviceId, tenantId)]> (hb_timers h)) h.
(** The timer of a device fires: the device reported down, if any. *)
Definition grace_over (uuid : string) (h : Hub) : Hub * option Z :=
  match hb_timers h !! uuid with
  | None => (h, None)
  | Some (deviceId, tenantId) =>
      let h1 := with_timers (delete uuid (hb_timers h)) h in
      (h1, if bool_decide (tenantId ∈ hb_revokedTenants h) then None else if isConnected h1 uuid then None else Some deviceId)
  end.

(** ** Firewall answers *)

(** A push on a channel that is not live, or for a device without one, fails at once. *)
Definition pushAndWait (uuid cmdId : string) (h : Hub) : Hub * bool :=
  match current h uuid with
  | Some c => if live c then (with_waiters (<[cmdId := uuid]> (hb_waiters h)) h, true) else (with_waiters (delete cmdId (hb_waiters h)) h, false)
  | None => (with_waiters (delete cmdId (hb_waiters h)) h, false)
  end.
Definition wait_over (cmdId : string) (h : Hub) : Hub := with_waiters (delete cmdId (hb_waiters h)) h.
(** The command resolved by an answer read on a channel. *)
Definition _resolveFirewallResponse (c : Conn) (id : js) (h : Hub) : Hub * option string :=
  match id with
  | JStr s =>
      if (64 <? String.length s)%nat then (h, None)
      else match hb_waiters h !! s with
           | Some uuid => if String.eqb uuid (cn_uuid c) then (with_waiters (delete s (hb_waiters h)) h, Some s) else (h, None)
           | None => (h, None)
           end
  | _ => (h, None)
  end.

(** ** The gate *)

Inductive Verdict := Accepted (rowless : bool) | Refused (status : Z) (reason : string).

(** The headers and the query string of an upgrade; the key they present. *)
Definition request_key (apiKey uuid : js) (w : AgentTables) : Verdict + (AgentKeyRef * string) :=
  match apiKey with
  | JUndefined | JStr EmptyString => inl (Refused 401 "Missing X-Api-Key")
  | _ =>
      match api_key_text apiKey with
      | None => inl (Refused 400 "Invalid X-Api-Key")
      | Some _ =>
          match device_uuid_text uuid with
          | None => inl (Refused 400 "Invalid uuid query param")
          | Some u => match findActiveByValue w apiKey with
                      | None => inl (Refused 401 "Invalid API key")
                      | Some r => inr ({| key_id := ak_id r; key_tenant := ak_tenant r |}, u)
                      end
          end
      end
  end.
Definition live_conflict (h : Hub) (key : AgentKeyRef) (uuid : string) : option Verdict :=
  if hasLiveConflict h uuid (key_tenant key) (key_id key) then Some (Refused 403 "Device already connected with another API key") else None.
(** The row and its binding; None: only the cap of rowless channels is left to look at. *)
Definition row_verdict (v : bool * option DeviceRow) : option Verdict :=
  let '(ok, device) := v in
  if negb ok then Some (Refused 403 "Device/API-key mismatch")
  else match device with
       | Some d => if is_status "suspended" d || is_status "refused" d then Some (Refused 403 ("Device " ++ dv_status d)) else Some (Accepted false)
       | None => None
       end.
Definition cap_verdict (cap pending : Z) (h : Hub) (key : AgentKeyRef) : Verdict :=
  if cap <=? pending + countRowlessForKey h (key_id key) then Refused 429 "Enrolment deferred: pending device cap reached" else Accepted true.

(** [checkAgentUpgrade], nothing else running; a failed query is the gate's 503. *)
Definition check_keyed (mode : BindingMode) (cap : Z) (key : AgentKeyRef) (u : string) (h : Hub) (w : AgentTables) : AgentTables * Verdict :=
  match live_conflict h key u with
  | Some v => (w, v)
  | None =>
      match checkAgentBinding mode key u w with
      | (w1, None) => (w1, Refused 503 "Internal error")
      | (w1, Some b) =>
          (w1, match row_verdict b with
               | Some v => v
               | None => if 0 <? cap then cap_verdict cap (countPendingForKey w1 (key_id key)) h key else Accepted true
               end)
      end
  end.
Definition checkAgentUpgrade (mode : BindingMode) (cap : Z) (apiKey uuid : js) (h : Hub) (w : AgentTables) : AgentTables * Verdict :=
  match request_key apiKey uuid w with
  | inl v => (w, v)
  | inr (key, u) => check_keyed mode cap key u h w
  end.

(** [agentAuth]: the key of a push, or 401. *)
Definition agentAuth (w : AgentTables) (apiKey : js) : option AgentKeyRef :=
  match findActiveByValue w apiKey with
  | Some r => Some {| key_id := ak_id r; key_tenant := ak_tenant r |}
  | None => None
  end.
