(* ===== verification/HubRuns.v ===== *)
(** * Agents, keys and channels: interleaved runs

    The gate's upgrades, the pushes (over a channel or HTTP), the frames and the
    administrators' requests of [AgentIdentity] and [AgentHub], cut where the code awaits a
    query; the database and the sockets move between two parts. The key requests may be kept
    one at a time per key ([serial]). *)

From S2P Require Import Prelude JsString JsValue JsNumber Tenancy Access Query AgentIdentity AgentHub.

(** ** World *)

(** What left the server: the answer to an upgrade, a close frame, the status of a push, an
    event or a status accepted for a device, a device reported down. *)
Inductive Sent :=
| S_upgrade (ws : Z) (v : Verdict)
| S_close (ws code : Z)
| S_push (origin : option Z) (status : string)
| S_failed
| S_events (device ws : Z)
| S_status (device ws : Z)
| S_down (device : Z)
| S_answer (cmdId : string).
(** [ow_next] is the next socket; [ow_dropped] the sockets their peer left. *)
Record World := { ow_tables : AgentTables; ow_hub : Hub; ow_sent : list Sent; ow_next : Z; ow_dropped : gset Z }.
Definition with_tables (f : AgentTables -> AgentTables) (w : World) : World :=
  {| ow_tables := f (ow_tables w); ow_hub := ow_hub w; ow_sent := ow_sent w; ow_next := ow_next w; ow_dropped := ow_dropped w |}.
Definition with_hub (f : Hub -> Hub) (w : World) : World :=
  {| ow_tables := ow_tables w; ow_hub := f (ow_hub w); ow_sent := ow_sent w; ow_next := ow_next w; ow_dropped := ow_dropped w |}.
Definition send (o : Sent) (w : World) : World :=
  {| ow_tables := ow_tables w; ow_hub := ow_hub w; ow_sent := ow_sent w ++ [o]; ow_next := ow_next w; ow_dropped := ow_dropped w |}.
Definition drop_socket (ws : Z) (w : World) : World :=
  {| ow_tables := ow_tables w; ow_hub := ow_hub w; ow_sent := ow_sent w; ow_next := ow_next w; ow_dropped := {[ws]} ∪ ow_dropped w |}.
Definition new_socket (w : World) : World :=
  {| ow_tables := ow_tables w; ow_hub := ow_hub w; ow_sent := ow_sent w; ow_next := ow_next w + 1; ow_dropped := ow_dropped w |}.
Definition still_up (ws : Z) (w : World) : bool := negb (bool_decide (ws ∈ ow_dropped w)).

Record Settings := { st_mode : BindingMode; st_cap : Z }.

(** ** Device rows *)

Definition new_device (id : Z) (uuid : string) (key : AgentKeyRef) (group : option Z) (hostname ip : string) : DeviceRow := {|
  dv_id := id; dv_uuid := uuid; dv_tenant := key_tenant key; dv_key := Some (key_id key); dv_type := Some "agent"; dv_status := "pending"; dv_group := group;
  dv_hostname := hostname; dv_ip := ip |}.
Definition add_device (d : DeviceRow) (w : AgentTables) : AgentTables :=
  {| at_keys := at_keys w; at_nextKey := at_nextKey w; at_devices := at_devices w ++ [d]; at_nextDevice := at_nextDevice w + 1; at_groups := at_groups w |}.
(** [insert … on conflict (uuid) do nothing]; None: a foreign key of the row is gone. *)
Definition enrol (uuid : string) (key : AgentKeyRef) (group : option Z) (hostname ip : string) (w : AgentTables) : AgentTables * option bool :=
  if bool_decide (is_Some (findDeviceBindingByUuid w uuid)) then (w, Some false)
  else if negb (key_exists w (key_id key)) then (w, None)
  else if match group with Some g => negb (bool_decide (is_Some (at_groups w !! g))) | None => false end then (w, None)
  else (add_device (new_device (at_nextDevice w) uuid key group hostname ip) w, Some true).
Definition set_metadata (hostname ip : string) (d : DeviceRow) : DeviceRow := {|
  dv_id := dv_id d; dv_uuid := dv_uuid d; dv_tenant := dv_tenant d; dv_key := dv_key d; dv_type := dv_type d; dv_status := dv_status d; dv_group := dv_group d;
  dv_hostname := hostname; dv_ip := ip |}.
Definition approved_of (uuid : string) (tenantId : Z) (w : AgentTables) : option Z :=
  option_map dv_id (List.find (fun d => String.eqb (dv_uuid d) uuid && (dv_tenant d =? tenantId) && is_status "approved" d) (at_devices w)).
Definition approved_bound (uuid : string) (tenantId k : Z) (w : AgentTables) : option Z :=
  option_map dv_id (List.find (fun d => String.eqb (dv_uuid d) uuid && (dv_tenant d =? tenantId) && bound_to k d && is_status "approved" d) (at_devices w)).

(** ** Tasks *)

(** A push: the key and device it presents, its channel if any, the metadata of its body. *)
Record Push := { pu_key : AgentKeyRef; pu_uuid : string; pu_ws : option Z; pu_hostname : string; pu_ip : string }.
Inductive PushResult := R_ok | R_pending | R_deferred | R_refused.

(** An upgrade: its key, device, socket and address. *)
Record Upgrade := { ug_key : AgentKeyRef; ug_uuid : string; ug_ws : Z; ug_ip : string }.

Inductive Task :=
| U_keyed (u : Upgrade)
| U_claim (u : Upgrade) (row : DeviceRow)
| U_fresh (u : Upgrade) (row : DeviceRow)
| U_row (u : Upgrade) (v : bool * option DeviceRow)
| U_cap (u : Upgrade) (pending : Z)
| C_drain (ws : Z)
| P_read (p : Push)
| P_claim (p : Push) (row : DeviceRow)
| P_fresh (p : Push) (row : DeviceRow)
| P_metadata (p : Push) (id : Z)
| P_refresh (p : Push)
| P_count (p : Push)
| P_group (p : Push)
| P_insert (p : Push) (group : option Z)
| P_result (p : Push) (r : PushResult)
| P_resolve (ws : Z)
| N_claim (key : AgentKeyRef) (row : DeviceRow)
| N_fresh (key : AgentKeyRef) (row : DeviceRow)
| N_row (v : bool) (row : DeviceRow)
| F_heartbeat (ws : Z) (hostname : string)
| F_status (ws : Z)
| F_status_row (ws : Z)
| F_events_row (ws : Z)
| F_events (ws device : Z)
| K_set (id tenant : Z) (u : KeyUpdate) (byUser : option Z) (now : Z)
| K_close (id : Z)
| K_allow (id : Z)
| X_tenant (tenant : Z)
| D_disconnect (uuid : string)
| O_arm (uuid : string) (device tenant : Z).

(** A settled upgrade. *)
Definition finish_upgrade (u : Upgrade) (v : Verdict) (w : World) : World * option Task :=
  if negb (still_up (ug_ws u) w) then (w, None)
  else match v with
  | Refused _ _ => (send (S_upgrade (ug_ws u) v) w, None)
  | Accepted rowless =>
      match register (ug_uuid u) (key_tenant (ug_key u)) (key_id (ug_key u)) (ug_ip u) (ug_ws u) rowless true (ow_hub w) with
      | (h, Registered) => (send (S_upgrade (ug_ws u) v) (with_hub (fun _ => h) w), Some (C_drain (ug_ws u)))
      | (h, Gone) => (with_hub (fun _ => h) w, None)
      | (h, Closed code _) => (send (S_close (ug_ws u) code) (send (S_upgrade (ug_ws u) v) (with_hub (fun _ => h) w)), None)
      end
  end.

Definition push_status (d : DeviceRow) : PushResult :=
  if is_status "pending" d then R_pending else if is_status "refused" d || is_status "suspended" d then R_refused else R_ok.
Definition result_text (r : PushResult) : string := match r with R_ok => "ok" | R_pending | R_deferred => "pending" | R_refused => "refused" end.
Definition cn_ref (c : Conn) : AgentKeyRef := {| key_id := cn_key c; key_tenant := cn_tenant c |}.
Definition conn_of (ws : Z) (w : World) : option Conn := hb_conns (ow_hub w) !! ws.

(** The approved row of a channel's device, and its id kept on the channel. *)
Definition approved_for (ws : Z) (w : World) : option Z :=
  conn_of ws w ≫= fun c => approved_of (cn_uuid c) (cn_tenant c) (ow_tables w).
Definition cache_device (id : option Z) (ws : Z) (w : World) : World :=
  match id with Some d => with_hub (on_conn ws (set_device (Some d))) w | None => w end.

(** What the answer of a push does to its channel. *)
Definition heartbeat_reply (ws : Z) (r : PushResult) (h : Hub) : Hub :=
  let h1 := on_conn ws set_has_row h in
  match r with
  | R_refused => disconnectConn ws h1
  | R_pending => on_conn ws (set_device None) h1
  | R_deferred => disconnectConn ws (on_conn ws (set_device None) h1)
  | R_ok => h1
  end.

(** The binding check of a push, to its next query. *)
Definition claim_next {T} (mode : BindingMode) (key : AgentKeyRef) (row : DeviceRow) (w : World) (answer : bool -> T) (contended : T) : World * option T :=
  match ensure_claim mode key row (ow_tables w) with
  | (t, Answer ok) => (with_tables (fun _ => t) w, Some (answer ok))
  | (t, Contended) => (with_tables (fun _ => t) w, Some contended)
  | (t, Violated) => (with_tables (fun _ => t) w, None)
  end.
Definition push_checked (p : Push) (row : DeviceRow) (ok : bool) : Task := if ok then P_metadata p (dv_id row) else P_result p R_refused.

Definition advance_upgrade (st : Settings) (tk : Task) (w : World) : World * option Task :=
  match tk with
  | U_keyed u =>
      match live_conflict (ow_hub w) (ug_key u) (ug_uuid u) with
      | Some v => finish_upgrade u v w
      | None => (w, Some (match findDeviceBindingByUuid (ow_tables w) (ug_uuid u) with Some d => U_claim u d | None => U_row u (true, None) end))
      end
  | U_claim u row =>
      match claim_next (st_mode st) (ug_key u) row w (fun ok => U_row u (ok, Some row)) (U_fresh u row) with
      | (w1, None) => finish_upgrade u (Refused 503 "Internal error") w1
      | r => r
      end
  | U_fresh u row => (w, Some (U_row u (ensure_fresh (ug_key u) row (ow_tables w), Some row)))
  | U_row u v =>
      match row_verdict v with
      | Some a => finish_upgrade u a w
      | None => if 0 <? st_cap st then (w, Some (U_cap u (countPendingForKey (ow_tables w) (key_id (ug_key u))))) else finish_upgrade u (Accepted true) w
      end
  | U_cap u pending => finish_upgrade u (cap_verdict (st_cap st) pending (ow_hub w) (ug_key u)) w
  | C_drain ws => (cache_device (approved_for ws w) ws w, None)
  | _ => (w, None)
  end.

Definition advance_push (st : Settings) (tk : Task) (w : World) : World * option Task :=
  match tk with
  | P_read p =>
      (w, Some (match findDeviceBindingByUuid (ow_tables w) (pu_uuid p) with
                | Some d => P_claim p d
                | None => if 0 <? st_cap st then P_count p else P_group p
                end))
  | P_claim p row => claim_next (st_mode st) (pu_key p) row w (push_checked p row) (P_fresh p row)
  | P_fresh p row => (w, Some (push_checked p row (ensure_fresh (pu_key p) row (ow_tables w))))
  | P_metadata p id => (with_tables (on_device id (set_metadata (pu_hostname p) (pu_ip p))) w, Some (P_refresh p))
  | P_refresh p =>
      match findDeviceBindingByUuid (ow_tables w) (pu_uuid p) with
      | Some d => (w, Some (P_result p (push_status d)))
      | None => (send S_failed w, None)
      end
  | P_count p => (w, Some (if st_cap st <=? countPendingForKey (ow_tables w) (key_id (pu_key p)) then P_result p R_deferred else P_group p))
  | P_group p => (w, Some (P_insert p (defaultGroupFor (ow_tables w) (key_id (pu_key p)))))
  | P_insert p group =>
      match enrol (pu_uuid p) (pu_key p) group (pu_hostname p) (pu_ip p) (ow_tables w) with
      | (t, Some _) => (with_tables (fun _ => t) w, Some (P_result p R_pending))
      | (_, None) => (send S_failed w, None)
      end
  | P_result p r =>
      match pu_ws p with
      | None => (send (S_push None (result_text r)) w, None)
      | Some ws =>
          let w1 := send (S_push (Some ws) (result_text r)) (with_hub (heartbeat_reply ws r) w) in
          (w1, match r, conn_of ws w with
               | R_ok, Some c => match cn_device c with None => Some (P_resolve ws) | Some _ => None end
               | _, _ => None
               end)
      end
  | P_resolve ws => (cache_device (approved_for ws w) ws w, None)
  | N_claim key row => claim_next (st_mode st) key row w (fun ok => N_row ok row) (N_fresh key row)
  | N_fresh key row => (w, Some (N_row (ensure_fresh key row (ow_tables w)) row))
  | N_row ok row => (if ok && is_status "approved" row then send (S_push None "updating") w else send S_failed w, None)
  | _ => (w, None)
  end.

Definition advance_frame (tk : Task) (w : World) : World * option Task :=
  match tk with
  | F_heartbeat ws hostname =>
      match conn_of ws w with
      | Some c => (with_hub (on_conn ws set_seen) w,
                   Some (P_read {| pu_key := cn_ref c; pu_uuid := cn_uuid c; pu_ws := Some ws; pu_hostname := hostname; pu_ip := cn_ip c |}))
      | None => (w, None)
      end
  | F_status ws =>
      match conn_of ws w with
      | Some c =>
          match cn_device c, cn_rowless c with
          | None, false => (cache_device (approved_bound (cn_uuid c) (cn_tenant c) (cn_key c) (ow_tables w)) ws w, Some (F_status_row ws))
          | _, _ => (w, Some (F_status_row ws))
          end
      | None => (w, None)
      end
  | F_status_row ws => (match conn_of ws w ≫= cn_device with Some d => send (S_status d ws) w | None => w end, None)
  | F_events_row ws =>
      (cache_device (approved_for ws w) ws w, option_map (F_events ws) (approved_for ws w))
  | F_events ws device =>
      (match conn_of ws w with
       | Some c => if existsb (fun d => (dv_id d =? device) && (dv_tenant d =? cn_tenant c) && is_status "approved" d) (at_devices (ow_tables w))
                   then send (S_events device ws) w else w
       | None => w
       end, None)
  | _ => (w, None)
  end.

Definition advance_admin (tk : Task) (w : World) : World * option Task :=
  match tk with
  | K_set id tenant u byUser now =>
      (with_tables (write_key id tenant u now byUser) w,
       match ku_active u with Some false => Some (K_close id) | Some true => Some (K_allow id) | None => None end)
  | K_close id => (with_hub (closeByApiKey id) w, None)
  | K_allow id => (with_hub (allowApiKey id) w, None)
  | X_tenant tenant => (with_hub (closeByTenant tenant) w, None)
  | D_disconnect uuid => (with_hub (disconnectDevice uuid) w, None)
  | O_arm uuid device tenant => (with_hub (arm_timer uuid device tenant) w, None)
  | _ => (w, None)
  end.

Definition advance (st : Settings) (tk : Task) (w : World) : World * option Task :=
  match tk with
  | U_keyed _ | U_claim _ _ | U_fresh _ _ | U_row _ _ | U_cap _ _ | C_drain _ => advance_upgrade st tk w
  | F_heartbeat _ _ | F_status _ | F_status_row _ | F_events_row _ | F_events _ _ => advance_frame tk w
  | K_set _ _ _ _ _ | K_close _ | K_allow _ | X_tenant _ | D_disconnect _ | O_arm _ _ _ => advance_admin tk w
  | _ => advance_push st tk w
  end.

(** ** Calls *)

Inductive Frame := Heartbeat (hostname : string) | UpdateStatus | Events (n : nat) | FirewallResponse (id : js).
Inductive Call :=
| B_upgrade (apiKey uuid : js) (ip : string)
| B_push (apiKey uuid : js) (hostname ip : string)
| B_notify (apiKey uuid : js)
| B_frame (ws : Z) (f : Frame)
| B_create_key (tenant : Z) (name group : js) (createdBy : option Z) (now : Z) (value : string)
| B_update_key (id tenant : Z) (p : KeyPatch) (byUser : option Z) (now : Z)
| B_delete_key (id tenant : Z)
| B_device (id tenant : Z) (status : string) (group : option (option Z))
| B_release (id tenant : Z)
| B_delete_device (id tenant : Z)
| B_delete_tenant (tenant : Z)
| B_wait (uuid cmdId : string).

Definition tenant_rows_gone (t : Z) (w : AgentTables) : AgentTables := {|
  at_keys := List.filter (fun r => negb (ak_tenant r =? t)) (at_keys w); at_nextKey := at_nextKey w;
  at_devices := List.filter (fun d => negb (dv_tenant d =? t)) (at_devices w); at_nextDevice := at_nextDevice w;
  at_groups := filter (fun kv => kv.2 <> t) (at_groups w) |}.
(** The uuid of a key is unique. *)
Definition key_taken (value : string) (w : AgentTables) : bool := existsb (fun r => String.eqb (ak_key r) value) (at_keys w).

Definition begin_frame (ws : Z) (c : Conn) (f : Frame) (w : World) : World * option Task :=
  match f with
  | Heartbeat hostname => (w, Some (F_heartbeat ws hostname))
  | UpdateStatus => (w, Some (F_status ws))
  | Events O => (w, None)
  | Events (S _) => (w, Some (match cn_device c with Some d => F_events ws d | None => F_events_row ws end))
  | FirewallResponse id =>
      match _resolveFirewallResponse c id (ow_hub w) with
      | (h, Some cmd) => (send (S_answer cmd) (with_hub (fun _ => h) w), None)
      | (h, None) => (with_hub (fun _ => h) w, None)
      end
  end.

(** A device whose channel is to close after its row changed. *)
Definition then_disconnect (uuids : list string) : list Task := map D_disconnect uuids.
Definition disconnects (status : string) : bool := String.eqb status "suspended" || String.eqb status "refused".
Definition uuid_of (id : Z) (w : AgentTables) : list string := match device_of id w with Some d => [dv_uuid d] | None => [] end.

(** The first part of a call; the device requests are on a device of the caller's tenant. *)
Definition begin (st : Settings) (c : Call) (w : World) : World * list Task :=
  match c with
  | B_upgrade apiKey uuid ip =>
      let w1 := new_socket w in
      match request_key apiKey uuid (ow_tables w) with
      | inl v => (send (S_upgrade (ow_next w) v) w1, [])
      | inr (key, u) => (w1, [U_keyed {| ug_key := key; ug_uuid := u; ug_ws := ow_next w; ug_ip := ip |}])
      end
  | B_push apiKey uuid hostname ip =>
      match agentAuth (ow_tables w) apiKey with
      | None => (send (S_push None "unauthorized") w, [])
      | Some key => match device_uuid_text uuid with
                    | None => (send S_failed w, [])
                    | Some u => (w, [P_read {| pu_key := key; pu_uuid := u; pu_ws := None; pu_hostname := hostname; pu_ip := ip |}])
                    end
      end
  | B_notify apiKey uuid =>
      match agentAuth (ow_tables w) apiKey with
      | None => (send (S_push None "unauthorized") w, [])
      | Some key => match device_uuid_text uuid ≫= findDeviceBindingByUuid (ow_tables w) with
                    | None => (send S_failed w, [])
                    | Some d => (w, [N_claim key d])
                    end
      end
  | B_frame ws f =>
      match conn_of ws w with
      | Some c => if live c then let '(w1, t) := begin_frame ws c f w in (w1, option_list t) else (w, [])
      | None => (w, [])
      end
  | B_create_key tenant name group createdBy now value =>
      if key_taken value (ow_tables w) then (send S_failed w, [])
      else (with_tables (fun t => fst (create_key tenant name group createdBy now value t)) w, [])
  | B_update_key id tenant p byUser now =>
      match read_key_update id tenant p (ow_tables w) with
      | inl _ => (send S_failed w, [])
      | inr u => (w, [K_set id tenant u byUser now])
      end
  | B_delete_key id tenant =>
      let '(t, ok) := remove_key id tenant (ow_tables w) in (with_tables (fun _ => t) w, if ok then [K_close id] else [])
  | B_device id tenant status group =>
      let '(t, ok) := set_device_status id tenant status group (ow_tables w) in
      (with_tables (fun _ => t) w, if ok && disconnects status then then_disconnect (uuid_of id (ow_tables w)) else [])
  | B_release id tenant =>
      let '(t, ok) := releaseKeyBinding id tenant (ow_tables w) in
      (with_tables (fun _ => t) w, if ok then then_disconnect (uuid_of id (ow_tables w)) else [])
  | B_delete_device id tenant =>
      let '(t, uuids) := delete_device id tenant (ow_tables w) in (with_tables (fun _ => t) w, then_disconnect uuids)
  | B_delete_tenant tenant => (with_tables (tenant_rows_gone tenant) w, [X_tenant tenant])
  | B_wait uuid cmdId => (with_hub (fun h => fst (pushAndWait uuid cmdId h)) w, [])
  end.

(** ** Runs *)

(** The heartbeats and update statuses of a channel wait for one another. *)
Definition queue_of (tk : Task) : option Z :=
  match tk with
  | F_heartbeat ws _ | F_status ws | F_status_row ws | P_resolve ws => Some ws
  | P_read p | P_claim p _ | P_fresh p _ | P_metadata p _ | P_refresh p | P_count p | P_group p | P_insert p _ | P_result p _ => pu_ws p
  | _ => None
  end.
Definition may_run (before : list Task) (tk : Task) : bool :=
  match queue_of tk with Some ws => forallb (fun t => negb (bool_decide (queue_of t = Some ws))) before | None => true end.

(** The key a task or a call of an administrator is about. *)
Definition key_of (tk : Task) : option Z := match tk with K_set id _ _ _ _ | K_close id | K_allow id => Some id | _ => None end.
Definition key_asked (c : Call) : option Z := match c with B_update_key id _ _ _ _ | B_delete_key id _ => Some id | _ => None end.
Definition one_at_a_time (ts : list Task) (c : Call) : bool :=
  match key_asked c with Some k => forallb (fun t => negb (bool_decide (key_of t = Some k))) ts | None => true end.

(** What moves by itself: a peer leaves, its socket is seen closed, the first heartbeat or an
    answer is late, a grace is over, a group comes or goes, a router or another device without
    an agent is added. *)
Inductive Env := E_leave (ws : Z) | E_closed (ws : Z) | E_deadline (ws : Z) | E_grace (uuid : string) | E_late (cmdId : string)
  | E_group (g t : Z) | E_group_gone (g : Z) | E_appliance (uuid type : string) (tenant : Z).
Definition group_gone (g : Z) (w : AgentTables) : AgentTables := {|
  at_keys := map (fun r => if bool_decide (ak_group r = Some g)
                           then apply_key_update {| ku_name := None; ku_group := Some None; ku_active := None |} 0 None r else r) (at_keys w);
  at_nextKey := at_nextKey w;
  at_devices := map (fun d => if bool_decide (dv_group d = Some g) then set_dv_group None d else d) (at_devices w);
  at_nextDevice := at_nextDevice w; at_groups := delete g (at_groups w) |}.
Definition new_appliance (id : Z) (uuid type : string) (tenant : Z) : DeviceRow := {|
  dv_id := id; dv_uuid := uuid; dv_tenant := tenant; dv_key := None; dv_type := Some type; dv_status := "approved"; dv_group := None; dv_hostname := "";
  dv_ip := "" |}.
Definition environment (e : Env) (w : World) : World * option Task :=
  match e with
  | E_leave ws => (with_hub (on_conn ws set_shut) (drop_socket ws w), None)
  | E_closed ws =>
      match conn_of ws w with
      | Some c => if cn_open c then (w, None)
                  else match _unregister ws (ow_hub w) with
                       | (h, Some (uuid, d, t)) => (with_hub (fun _ => h) w, Some (O_arm uuid d t))
                       | (h, None) => (with_hub (fun _ => h) w, None)
                       end
      | None => (w, None)
      end
  | E_deadline ws =>
      match conn_of ws w with Some c => if cn_seen c then (w, None) else (with_hub (disconnectConn ws) w, None) | None => (w, None) end
  | E_grace uuid =>
      match grace_over uuid (ow_hub w) with
      | (h, Some d) => (send (S_down d) (with_hub (fun _ => h) w), None)
      | (h, None) => (with_hub (fun _ => h) w, None)
      end
  | E_late cmdId => (with_hub (wait_over cmdId) w, None)
  | E_group g t => (with_tables (fun x => {| at_keys := at_keys x; at_nextKey := at_nextKey x; at_devices := at_devices x; at_nextDevice := at_nextDevice x;
                                            at_groups := match at_groups x !! g with Some _ => at_groups x | None => <[g := t]> (at_groups x) end |}) w, None)
  | E_group_gone g => (with_tables (group_gone g) w, None)
  | E_appliance uuid type tenant =>
      if bool_decide (is_Some (findDeviceBindingByUuid (ow_tables w) uuid)) then (w, None)
      else (with_tables (fun x => add_device (new_appliance (at_nextDevice x) uuid type tenant) x) w, None)
  end.
(** A restart keeps the rows and nothing else. *)
Definition restart (w : World) : World :=
  {| ow_tables := ow_tables w; ow_hub := empty_hub; ow_sent := ow_sent w; ow_next := ow_next w; ow_dropped := ow_dropped w |}.

Inductive step (st : Settings) (serial : bool) : World * list Task -> World * list Task -> Prop :=
| step_call c w ts : (serial = true -> one_at_a_time ts c = true) ->
    step st serial (w, ts) (fst (begin st c w), ts ++ snd (begin st c w))
| step_task tk l1 l2 w : may_run l1 tk = true ->
    step st serial (w, l1 ++ tk :: l2) (fst (advance st tk w), l1 ++ option_list (snd (advance st tk w)) ++ l2)
| step_env e w ts : step st serial (w, ts) (fst (environment e w), ts ++ option_list (snd (environment e w)))
| step_restart w ts : step st serial (w, ts) (restart w, []).

Definition start (w : AgentTables) : World * list Task := ({| ow_tables := w; ow_hub := empty_hub; ow_sent := []; ow_next := 1; ow_dropped := ∅ |}, []).
Definition reachable (st : Settings) (serial : bool) (w : AgentTables) : World * list Task -> Prop := rtc (step st serial) (start w).

(** ** An upgrade alone *)

(** The upgrade of a task. *)
Definition upgrade_of (tk : Task) : option Upgrade :=
  match tk with U_keyed u | U_claim u _ | U_fresh u _ | U_row u _ | U_cap u _ => Some u | _ => None end.
(** The parts of an upgrade, nothing in between, to the registration. *)
Fixpoint gate_run (st : Settings) (fuel : nat) (tk : Task) (w : World) : World * option Task :=
  match fuel with
  | O => (w, Some tk)
  | S n => let '(w1, r) := advance st tk w in
           match r with
           | Some tk1 => if bool_decide (is_Some (upgrade_of tk1)) then gate_run st n tk1 w1 else (w1, r)
           | None => (w1, r)
           end
  end.
Lemma finish_end st n u v w : (let '(w1, r) := finish_upgrade u v w in
  match r with
  | Some tk1 => if bool_decide (is_Some (upgrade_of tk1)) then gate_run st n tk1 w1 else (w1, r)
  | None => (w1, r)
  end) = finish_upgrade u v w.
Proof.
  unfold finish_upgrade. destruct (negb _); [done|]. destruct v; [|done]. by destruct (register _ _ _ _ _ _ _ _) as [h []].
Qed.
Lemma row_end st u v w : exists n, forall m, (n <= m)%nat -> gate_run st m (U_row u v) w =
  finish_upgrade u (match row_verdict v with
                    | Some a => a
                    | None => if 0 <? st_cap st then cap_verdict (st_cap st) (countPendingForKey (ow_tables w) (key_id (ug_key u))) (ow_hub w) (ug_key u) else Accepted true
                    end) w.
Proof.
  exists 2%nat. intros [|[|m]] Hm; [lia|lia|]. cbn [gate_run advance advance_upgrade]. destruct (row_verdict v) as [a|]; [apply (finish_end st (S m))|].
  destruct (0 <? st_cap st); [|apply (finish_end st (S m))]. cbn. apply (finish_end st m).
Qed.
(** Run alone, the tasks of an upgrade give the answer of [checkAgentUpgrade]. *)
Lemma upgrade_alone st u w : exists n, gate_run st n (U_keyed u) w =
  (let '(t, v) := check_keyed (st_mode st) (st_cap st) (ug_key u) (ug_uuid u) (ow_hub w) (ow_tables w) in finish_upgrade u v (with_tables (fun _ => t) w)).
Proof.
  assert (Hw : with_tables (fun _ => ow_tables w) w = w) by by destruct w.
  unfold check_keyed. destruct (live_conflict (ow_hub w) (ug_key u) (ug_uuid u)) as [a|] eqn:El.
  { exists 1%nat. cbn [gate_run advance advance_upgrade]. rewrite El, Hw. apply (finish_end st 0). }
  unfold checkAgentBinding. destruct (findDeviceBindingByUuid (ow_tables w) (ug_uuid u)) as [d|] eqn:Ef.
  - unfold ensureAgentBinding. destruct (ensure_claim (st_mode st) (ug_key u) d (ow_tables w)) as [t [ok| |]] eqn:Ec.
    + destruct (row_end st u (ok, Some d) (with_tables (fun _ => t) w)) as [n Hn]. exists (S (S n)). cbn. rewrite El, Ef. cbn. unfold claim_next. rewrite Ec.
      cbn. by rewrite (Hn n).
    + destruct (row_end st u (ensure_fresh (ug_key u) d t, Some d) (with_tables (fun _ => t) w)) as [n Hn]. exists (S (S (S n))).
      cbn. rewrite El, Ef. cbn. unfold claim_next. rewrite Ec. cbn. by rewrite (Hn n).
    + exists 2%nat. cbn. rewrite El, Ef. cbn. unfold claim_next. rewrite Ec. apply (finish_end st 0).
  - destruct (row_end st u (true, None) w) as [n Hn]. exists (S n). cbn. rewrite El, Ef. cbn. rewrite (Hn n) by done. by rewrite Hw.
Qed.

(** ** Schedules *)

(** A run named by its calls, the place of the task that goes on, and the moves around it. *)
Inductive Act := Call_ (c : Call) | Run_ (i : nat) | Move_ (e : Env).
Definition act (st : Settings) (serial : bool) (a : Act) (s : World * list Task) : option (World * list Task) :=
  let '(w, ts) := s in
  match a with
  | Call_ c => if negb serial || one_at_a_time ts c then Some (fst (begin st c w), ts ++ snd (begin st c w)) else None
  | Run_ i => match drop i ts with
              | tk :: l2 => if may_run (take i ts) tk then Some (fst (advance st tk w), take i ts ++ option_list (snd (advance st tk w)) ++ l2) else None
              | [] => None
              end
  | Move_ e => Some (fst (environment e w), ts ++ option_list (snd (environment e w)))
  end.
Fixpoint acts (st : Settings) (serial : bool) (l : list Act) (s : World * list Task) : option (World * list Task) :=
  match l with [] => Some s | a :: l' => act st serial a s ≫= acts st serial l' end.

Lemma act_step st serial a s s' : act st serial a s = Some s' -> step st serial s s'.
Proof.
  destruct s as [w ts]. destruct a as [c|i|e]; cbn.
  - destruct (negb serial || one_at_a_time ts c) eqn:E; [|done]. intros [= <-]. apply step_call. intros ->. done.
  - destruct (drop i ts) as [|tk l2] eqn:E; [done|]. destruct (may_run (take i ts) tk) eqn:Em; [|done]. intros [= <-].
    assert (Hts : ts = take i ts ++ tk :: l2) by by rewrite <- E, take_drop. rewrite Hts at 1. by apply step_task.
  - intros [= <-]. apply step_env.
Qed.
Lemma acts_reach st serial l s s' : acts st serial l s = Some s' -> rtc (step st serial) s s'.
Proof.
  revert s. induction l as [|a l IH]; intros s; cbn; [by intros [= <-]|]. destruct (act st serial a s) as [s1|] eqn:E; [|done].
  cbn. intros H. eapply rtc_l; [by eapply act_step|by apply IH].
Qed.

(** Two keys and a router of the first tenant, a key of the second. *)
Definition sample_key (id tenant : Z) (value : string) (active : bool) : KeyRow := {|
  ak_id := id; ak_tenant := tenant; ak_name := "site"; ak_key := value; ak_active := active; ak_revokedAt := None; ak_revokedBy := None; ak_group := None;
  ak_createdBy := None; ak_createdAt := 0 |}.
Definition uuid_a : string := "aaaaaaaa-0000-4000-8000-000000000001".
Definition uuid_b : string := "bbbbbbbb-0000-4000-8000-000000000002".
Definition uuid_c : string := "cccccccc-0000-4000-8000-000000000003".
Definition sample_tables : AgentTables := {|
  at_keys := [sample_key 1 1 uuid_a true; sample_key 2 1 uuid_b true; sample_key 3 2 uuid_c true]; at_nextKey := 4;
  at_devices := [new_appliance 1 "router-000001" "mikrotik" 1; new_appliance 2 "office-000002" "m365" 1]; at_nextDevice := 3; at_groups := ∅ |}.
Definition sample_settings : Settings := {| st_mode := Strict; st_cap := 500 |}.
Definition enable (on : bool) : KeyPatch := {| kp_name := JUndefined; kp_isActive := JBool on; kp_defaultGroupId := JUndefined |}.
(** An upgrade of a new device, run to its channel. *)
Definition connect (key uuid : string) (i : nat) : list Act := [Call_ (B_upgrade (JStr key) (JStr uuid) "10.0.0.1"); Run_ i; Run_ i; Run_ i; Run_ i].
