(* ===== verification/HubSafety.v ===== *)
(** * Agents, keys and channels: what holds in every run

    The rows keep their identity ([evolves]), a device is bound only to a key of its tenant, a
    push writes only in the tenant of its key, and a live channel is one of an active key. *)

From S2P Require Import Prelude JsString JsValue JsNumber Tenancy Access Query AgentIdentity AgentHub HubRuns.

(** ** Rows keep their identity *)

Record tables_ok (t : AgentTables) : Prop := {
  ok_key_ids : forall r, In r (at_keys t) -> ak_id r < at_nextKey t;
  ok_device_ids : forall d, In d (at_devices t) -> dv_id d < at_nextDevice t;
  ok_devices : NoDup (map dv_id (at_devices t));
  ok_keys : NoDup (map ak_id (at_keys t));
  ok_bound : forall d k, In d (at_devices t) -> dv_key d = Some k ->
    may_rebind {| key_id := k; key_tenant := dv_tenant d |} d = true /\ exists r, In r (at_keys t) /\ ak_id r = k /\ ak_tenant r = dv_tenant d
}.
Record evolves (t t' : AgentTables) : Prop := {
  ev_nextKey : at_nextKey t <= at_nextKey t';
  ev_nextDevice : at_nextDevice t <= at_nextDevice t';
  ev_keys : forall r', In r' (at_keys t') -> at_nextKey t <= ak_id r' \/ exists r, In r (at_keys t) /\ ak_id r = ak_id r' /\ ak_tenant r = ak_tenant r';
  ev_devices : forall d', In d' (at_devices t') -> at_nextDevice t <= dv_id d' \/
    exists d, In d (at_devices t) /\ dv_id d = dv_id d' /\ dv_tenant d = dv_tenant d' /\ dv_type d = dv_type d'
}.
Definition known (t : AgentTables) (key : AgentKeyRef) : Prop :=
  key_id key < at_nextKey t /\ forall r, In r (at_keys t) -> ak_id r = key_id key -> ak_tenant r = key_tenant key.
Definition snapshot (t : AgentTables) (row : DeviceRow) : Prop :=
  dv_id row < at_nextDevice t /\ forall d, In d (at_devices t) -> dv_id d = dv_id row -> dv_tenant d = dv_tenant row /\ dv_type d = dv_type row.
Definition writable (t : AgentTables) (key : AgentKeyRef) (id : Z) : Prop :=
  id < at_nextDevice t /\ forall d, In d (at_devices t) -> dv_id d = id -> may_rebind key d = true.

Lemma evolves_refl t : evolves t t.
Proof. split; [lia|lia|eauto 6|eauto 8]. Qed.
#[local] Hint Resolve evolves_refl : core.

Lemma known_evolves t t' key : evolves t t' -> known t key -> known t' key.
Proof.
  intros [H1 _ H2 _] [K1 K2]. split; [lia|]. intros r' Hr Hid. destruct (H2 r' Hr) as [Hn|(r & Hr0 & Hi & Ht)]; [lia|].
  rewrite <- Ht. apply K2; [done|congruence].
Qed.
Lemma snapshot_evolves t t' row : evolves t t' -> snapshot t row -> snapshot t' row.
Proof.
  intros [_ H1 _ H2] [K1 K2]. split; [lia|]. intros d' Hd Hid. destruct (H2 d' Hd) as [Hn|(d & Hd0 & Hi & Ht & Hy)]; [lia|].
  rewrite <- Ht, <- Hy. apply K2; [done|congruence].
Qed.
Lemma rebind_same key d d' : dv_tenant d = dv_tenant d' -> dv_type d = dv_type d' -> may_rebind key d' = may_rebind key d.
Proof. unfold may_rebind, binding. by intros -> ->. Qed.
Lemma writable_evolves t t' key id : evolves t t' -> writable t key id -> writable t' key id.
Proof.
  intros [_ H1 _ H2] [K1 K2]. split; [lia|]. intros d' Hd Hid. destruct (H2 d' Hd) as [Hn|(d & Hd0 & Hi & Ht & Hy)]; [lia|].
  rewrite (rebind_same key d d') by done. apply K2; [done|congruence].
Qed.

(** *** Updates of rows that keep their identity *)

Definition same_device (f : DeviceRow -> DeviceRow) : Prop :=
  forall d, dv_id (f d) = dv_id d /\ dv_tenant (f d) = dv_tenant d /\ dv_type (f d) = dv_type d.
Definition same_key (f : KeyRow -> KeyRow) : Prop := forall r, ak_id (f r) = ak_id r /\ ak_tenant (f r) = ak_tenant r.

Lemma evolves_map t (f : KeyRow -> KeyRow) (g : DeviceRow -> DeviceRow) gs : same_key f -> same_device g ->
  evolves t {| at_keys := map f (at_keys t); at_nextKey := at_nextKey t; at_devices := map g (at_devices t); at_nextDevice := at_nextDevice t; at_groups := gs |}.
Proof.
  intros Hf Hg. split; cbn; [lia|lia| |].
  - intros r' [r [<- Hr]]%in_map_iff. right. exists r. destruct (Hf r); auto.
  - intros d' [d [<- Hd]]%in_map_iff. right. exists d. destruct (Hg d) as (?&?&?); auto.
Qed.
Lemma evolves_devices t (g : DeviceRow -> DeviceRow) : same_device g -> evolves t (with_devices (map g (at_devices t)) t).
Proof.
  intros Hg. split; cbn; [lia|lia|eauto 6|]. intros d' [d [<- Hd]]%in_map_iff. right. exists d. destruct (Hg d) as (?&?&?); auto.
Qed.

(** A device table updated row by row keeps the table well formed when a row that is bound
    afterwards was bound to the same key or may be. *)
Lemma ok_devices_map t (g : DeviceRow -> DeviceRow) : same_device g -> tables_ok t ->
  (forall d k, In d (at_devices t) -> dv_key (g d) = Some k -> dv_key d = Some k \/
    may_rebind {| key_id := k; key_tenant := dv_tenant d |} d = true /\ exists r, In r (at_keys t) /\ ak_id r = k /\ ak_tenant r = dv_tenant d) ->
  tables_ok (with_devices (map g (at_devices t)) t).
Proof.
  intros Hg [H1 H2 H3 Hu H4] Hk. split; cbn; [done| | |done|].
  - intros d' [d [<- Hd]]%in_map_iff. destruct (Hg d) as (-> & _). auto.
  - rewrite map_map. erewrite map_ext; [exact H3|]. intros d. by destruct (Hg d).
  - intros d' k [d [<- Hd]]%in_map_iff Hb. destruct (Hg d) as (Hi & Ht & Hy).
    assert (Hr : may_rebind {| key_id := k; key_tenant := dv_tenant d |} d = true /\ exists r, In r (at_keys t) /\ ak_id r = k /\ ak_tenant r = dv_tenant d)
      by (destruct (Hk d k Hd Hb) as [Hold|Hnew]; [by apply H4|done]).
    rewrite Ht, (rebind_same _ d (g d)) by done. done.
Qed.
Lemma ok_devices_same t (g : DeviceRow -> DeviceRow) : same_device g -> (forall d, dv_key (g d) = dv_key d \/ dv_key (g d) = None) -> tables_ok t ->
  tables_ok (with_devices (map g (at_devices t)) t).
Proof.
  intros Hg Hk Ht. apply ok_devices_map; [done|done|]. intros d k _ Hb. left. destruct (Hk d) as [E|E]; congruence.
Qed.
Lemma ok_keys_map t (f : KeyRow -> KeyRow) : same_key f -> tables_ok t -> tables_ok (with_keys (map f (at_keys t)) t).
Proof.
  intros Hf [H1 H2 H3 Hu H4]. split; cbn; [|done|done| |].
  - intros r' [r [<- Hr]]%in_map_iff. destruct (Hf r) as [-> _]. auto.
  - rewrite map_map. erewrite map_ext; [exact Hu|]. intros r. by destruct (Hf r).
  - intros d k Hd Hb. destruct (H4 d k Hd Hb) as [Hm (r & Hr & Hi & Ht)]. split; [done|]. exists (f r).
    destruct (Hf r) as [E1 E2]. split; [by apply in_map|]. split; congruence.
Qed.

Lemma on_device_same id f : same_device f -> same_device (fun d => if dv_id d =? id then f d else d).
Proof. intros Hf d. case_match; [apply Hf|done]. Qed.
Lemma evolves_on_device id f t : same_device f -> evolves t (on_device id f t).
Proof. intros Hf. by apply evolves_devices, on_device_same. Qed.
Lemma ok_on_device id f t : same_device f -> (forall d, dv_key (f d) = dv_key d) -> tables_ok t -> tables_ok (on_device id f t).
Proof. intros Hf Hk. apply ok_devices_same; [by apply on_device_same|]. intros d. left. by case_match. Qed.

(** *** The operations on the tables *)

Lemma claim_same key row : same_device (fun d => if claimable key row d then set_dv_key (Some (key_id key)) d else d).
Proof. intros d. by case_match. Qed.

Lemma key_exists_In t k : key_exists t k = true <-> exists r, In r (at_keys t) /\ ak_id r = k.
Proof. unfold key_exists. rewrite existsb_exists. split; intros (r & Hr & E); exists r; (split; [done|]); [by apply Z.eqb_eq|by apply Z.eqb_eq in E || apply Z.eqb_eq]. Qed.

Lemma may_act_rebind key d : may_act key d = true -> may_rebind key d = true.
Proof.
  unfold may_act, may_rebind, agentKeyMayActForDevice, agentKeyMayRebindDevice, binding. cbn.
  by destruct (dv_tenant d =? key_tenant key), (bool_decide (dv_type d = Some "mikrotik")).
Qed.

Lemma claim_evolves key row t : evolves t (fst (claim_binding key row t)).
Proof. unfold claim_binding. repeat case_match; cbn [fst]; auto. apply evolves_devices, claim_same. Qed.

Lemma claimed_ok key row t : may_rebind key row = true -> known t key -> snapshot t row -> tables_ok t -> tables_ok (fst (claim_binding key row t)).
Proof.
  intros Hmay [_ Hkey] [_ Hsnap] Ht. unfold claim_binding. destruct (existsb _ _); [|done]. destruct (key_exists _ _) eqn:Hex; [|done]. cbn [negb fst].
  apply ok_devices_map; [apply claim_same|done|]. intros d k Hd. destruct (claimable key row d) eqn:Hc; [|auto].
  intros E. cbn in E. injection E as <-. right. unfold claimable in Hc. apply andb_prop in Hc as [Hc _]. apply andb_prop in Hc as [Hid Hten].
  apply Z.eqb_eq in Hid, Hten. destruct (Hsnap d Hd Hid) as [Et Ey]. apply key_exists_In in Hex as (r & Hr & Hi). split.
  - replace {| key_id := key_id key; key_tenant := dv_tenant d |} with key by (destruct key; cbn in *; congruence).
    by rewrite (rebind_same key row d).
  - exists r. rewrite Hten. auto.
Qed.

Lemma ensure_evolves mode key row t : evolves t (fst (ensure_claim mode key row t)).
Proof. unfold ensure_claim. repeat case_match; cbn [fst]; auto using claim_evolves. Qed.

Lemma ensure_ok mode key row t : known t key -> snapshot t row -> tables_ok t -> tables_ok (fst (ensure_claim mode key row t)).
Proof.
  intros Hk Hs Ht. unfold ensure_claim. destruct (is_status _ _ || is_status _ _); [done|].
  destruct (may_act key row) eqn:Ha; [destruct (dv_key row); [done|]; apply claimed_ok; auto using may_act_rebind|].
  destruct (bool_decide _ && may_rebind key row) eqn:Hr; cbn [andb]; [|done]. case_match; [|done].
  apply claimed_ok; auto. by apply andb_prop in Hr as [_ Hr].
Qed.

Lemma claim_answer key row t ok : snd (claim_binding key row t) = Answer ok -> ok = true.
Proof. unfold claim_binding. repeat case_match; cbn; congruence. Qed.

Lemma ensure_answer mode key row t : snapshot t row -> snd (ensure_claim mode key row t) = Answer true -> may_rebind key row = true.
Proof.
  intros _. unfold ensure_claim. destruct (may_act key row) eqn:Ha; [intros _; by apply may_act_rebind|].
  destruct (may_rebind key row); [done|]. rewrite andb_false_r. cbn [orb andb]. by destruct (is_status _ _ || is_status _ _).
Qed.

Lemma snapshot_writable t key row : snapshot t row -> may_rebind key row = true -> writable t key (dv_id row).
Proof. intros [H1 H2] Hm. split; [done|]. intros d Hd Hi. destruct (H2 d Hd Hi). by rewrite (rebind_same key row d). Qed.

Lemma find_uuid_snapshot t uuid d : tables_ok t -> findDeviceBindingByUuid t uuid = Some d -> snapshot t d.
Proof.
  intros Ht Hf. apply find_some in Hf as [Hd _]. split; [by apply ok_device_ids|]. intros d' Hd' Hi.
  rewrite (NoDup_key_eq dv_id (at_devices t) d' d); auto. by apply ok_devices.
Qed.

Lemma device_of_In id t d : device_of id t = Some d -> In d (at_devices t) /\ dv_id d = id.
Proof. intros [H1 H2]%find_some. apply Z.eqb_eq in H2. done. Qed.

Lemma fresh_rebind t key row : snapshot t row -> ensure_fresh key row t = true -> may_rebind key row = true.
Proof.
  intros [_ Hs] Hf. unfold ensure_fresh in Hf. destruct (device_of (dv_id row) t) as [d|] eqn:Ed; [|done]. apply device_of_In in Ed as [Hd Hi].
  destruct (Hs d Hd Hi) as [E1 E2]. rewrite <- (rebind_same key row d) by done. by apply may_act_rebind.
Qed.

Lemma add_device_evolves d t : dv_id d = at_nextDevice t -> evolves t (add_device d t).
Proof.
  intros Hd. split; cbn; [lia|lia|eauto 6|]. intros d' [Hin|[<-|[]]]%in_app_iff; [eauto 8|]. left. lia.
Qed.
Lemma add_device_ok d t : dv_id d = at_nextDevice t -> tables_ok t ->
  (forall k, dv_key d = Some k -> may_rebind {| key_id := k; key_tenant := dv_tenant d |} d = true /\
     exists r, In r (at_keys t) /\ ak_id r = k /\ ak_tenant r = dv_tenant d) -> tables_ok (add_device d t).
Proof.
  intros Hd [H1 H2 H3 Hu H4] Hk. split; cbn; [done| | |done|].
  - intros d' [Hin|[<-|[]]]%in_app_iff; [specialize (H2 d' Hin)|]; lia.
  - rewrite map_app. apply NoDup_snoc; [done|]. intros [d' [E Hin]]%in_map_iff. specialize (H2 d' Hin). lia.
  - intros d' k [Hin|[<-|[]]]%in_app_iff; [by apply H4|apply Hk].
Qed.

Lemma enrol_evolves uuid key g h ip t : evolves t (fst (enrol uuid key g h ip t)).
Proof. unfold enrol. repeat (destruct (_ : bool); cbn [fst]; auto); by apply add_device_evolves. Qed.
Lemma enrolled_ok uuid key g h ip t : known t key -> tables_ok t -> tables_ok (fst (enrol uuid key g h ip t)).
Proof.
  intros [_ Hk] Ht. unfold enrol. destruct (bool_decide _); [done|]. destruct (key_exists _ _) eqn:Hex; [|done]. cbn [negb].
  destruct (match g with Some _ => _ | None => _ end); [done|]. cbn [fst]. apply add_device_ok; [done|done|].
  intros k E. cbn in E. injection E as <-. cbn. split; [unfold may_rebind, agentKeyMayRebindDevice; cbn; by rewrite Z.eqb_refl|].
  apply key_exists_In in Hex as (r & Hr & Hi). eauto.
Qed.

Lemma key_write_same id tenant u now by_ : same_key (fun r => if own_key id tenant r then apply_key_update u now by_ r else r).
Proof. intros r. by case_match. Qed.
Lemma write_evolves id tenant u now by_ t : evolves t (write_key id tenant u now by_ t).
Proof.
  split; cbn; [lia|lia| |eauto 8]. intros r' [r [<- Hr]]%in_map_iff. right. exists r. destruct (key_write_same id tenant u now by_ r); auto.
Qed.

Lemma filter_In_of {A} (p : A -> bool) l x : In x (List.filter p l) -> In x l.
Proof. rewrite filter_In. tauto. Qed.

Lemma remove_evolves id tenant t : evolves t (fst (remove_key id tenant t)).
Proof.
  unfold remove_key. destruct (existsb _ _); [|auto]. cbn [fst]. split; cbn; [lia|lia| |].
  - intros r' Hr%filter_In_of. eauto 6.
  - intros d' [d [<- Hd]]%in_map_iff. right. exists d. unfold release_key. by case_match.
Qed.
Lemma remove_ok id tenant t : tables_ok t -> tables_ok (fst (remove_key id tenant t)).
Proof.
  intros Ht. unfold remove_key. destruct (existsb _ _) eqn:Hex; [|done]. cbn [fst].
  assert (Hs : same_device (release_key id)) by (intros d; unfold release_key; by case_match).
  split; cbn.
  - intros r Hr%filter_In_of. by apply ok_key_ids.
  - intros d' [d [<- Hd]]%in_map_iff. destruct (Hs d) as (-> & _). by apply ok_device_ids.
  - rewrite map_map. erewrite map_ext; [exact (ok_devices _ Ht)|]. intros d. by destruct (Hs d).
  - by apply NoDup_map_filter, ok_keys.
  - intros d' k [d [<- Hd]]%in_map_iff Hb. destruct (Hs d) as (Hi & Htn & Hy). rewrite Htn, (rebind_same _ d (release_key id d)) by done.
    assert (Hold : dv_key d = Some k /\ k <> id).
    { unfold release_key, bound_to in Hb. case_bool_decide as E; [done|]. split; congruence. }
    destruct Hold as [Hold Hne]. destruct (ok_bound _ Ht d k Hd Hold) as [Hm (r & Hr & Hri & Hrt)]. split; [done|]. exists r.
    split; [|done]. apply filter_In. split; [done|]. unfold own_key. rewrite Hri. by rewrite (proj2 (Z.eqb_neq k id) Hne).
Qed.

Lemma create_evolves tenant name g by_ now v t : evolves t (fst (create_key tenant name g by_ now v t)).
Proof.
  unfold create_key. destruct (parseKeyName name); [auto|]. destruct (if is_undefined g then _ else _); [auto|]. cbn [fst].
  split; cbn; [lia|lia| |eauto 8]. intros r' [Hin|[<-|[]]]%in_app_iff; [eauto 6|]. left. cbn. lia.
Qed.
Lemma create_ok tenant name g by_ now v t : tables_ok t -> tables_ok (fst (create_key tenant name g by_ now v t)).
Proof.
  intros Ht. unfold create_key. destruct (parseKeyName name); [done|]. destruct (if is_undefined g then _ else _); [done|]. cbn [fst].
  destruct Ht as [H1 H2 H3 Hu H4]. split; cbn; [|done|done| |].
  - intros r [Hin|[<-|[]]]%in_app_iff; [specialize (H1 r Hin)|cbn]; lia.
  - rewrite map_app. apply NoDup_snoc; [done|]. intros [r [E Hin]]%in_map_iff. specialize (H1 r Hin). cbn in E. lia.
  - intros d k Hd Hb. destruct (H4 d k Hd Hb) as [Hm (r & Hr & E)]. split; [done|]. exists r. rewrite in_app_iff. auto.
Qed.

Ltac by_rows := intros ?; repeat case_match; cbn; auto.

Lemma on_device_shape id f t : same_device f -> (forall d, dv_key (f d) = dv_key d) ->
  exists g, same_device g /\ (forall d, dv_key (g d) = dv_key d) /\ on_device id f t = with_devices (map g (at_devices t)) t.
Proof.
  intros Hf Hk. exists (fun d => if dv_id d =? id then f d else d). split; [by apply on_device_same|]. split; [|done]. intros d. by case_match.
Qed.
Lemma status_shape id tenant s g t : exists f, same_device f /\ (forall d, dv_key (f d) = dv_key d) /\
  fst (set_device_status id tenant s g t) = with_devices (map f (at_devices t)) t.
Proof.
  assert (Hid : exists f, same_device f /\ (forall d, dv_key (f d) = dv_key d) /\ t = with_devices (map f (at_devices t)) t).
  { exists (fun d => d). split; [done|]. split; [done|]. rewrite map_id. by destruct t. }
  unfold set_device_status. destruct (device_of id t) as [d|]; [|done].
  repeat (destruct (_ : bool); [done|]). destruct (String.eqb s "approved"); [destruct (is_status "suspended" d)|]; cbn [fst];
    apply on_device_shape; by_rows.
Qed.
Lemma status_evolves id tenant s g t : evolves t (fst (set_device_status id tenant s g t)).
Proof. destruct (status_shape id tenant s g t) as (f & Hf & _ & ->). by apply evolves_devices. Qed.
Lemma status_ok id tenant s g t : tables_ok t -> tables_ok (fst (set_device_status id tenant s g t)).
Proof. destruct (status_shape id tenant s g t) as (f & Hf & Hk & ->). apply ok_devices_same; auto. Qed.

Lemma release_same (p : DeviceRow -> bool) : same_device (fun d => if p d then set_dv_key None d else d).
Proof. intros d. by case_match. Qed.
Lemma release_evolves id tenant t : evolves t (fst (releaseKeyBinding id tenant t)).
Proof. apply evolves_devices, release_same. Qed.
Lemma release_ok id tenant t : tables_ok t -> tables_ok (fst (releaseKeyBinding id tenant t)).
Proof. apply ok_devices_same; [apply release_same|]. intros d. case_match; auto. Qed.

(** Rows only deleted. *)
Lemma deleted_evolves t (p : KeyRow -> bool) (q : DeviceRow -> bool) gs :
  evolves t {| at_keys := List.filter p (at_keys t); at_nextKey := at_nextKey t; at_devices := List.filter q (at_devices t);
               at_nextDevice := at_nextDevice t; at_groups := gs |}.
Proof. split; cbn; [lia|lia| |]; intros x Hx%filter_In_of; right; eauto 8. Qed.
Lemma deleted_ok t (p : KeyRow -> bool) (q : DeviceRow -> bool) gs : tables_ok t ->
  (forall d r, In d (at_devices t) -> In r (at_keys t) -> q d = true -> ak_tenant r = dv_tenant d -> p r = true) ->
  tables_ok {| at_keys := List.filter p (at_keys t); at_nextKey := at_nextKey t; at_devices := List.filter q (at_devices t);
               at_nextDevice := at_nextDevice t; at_groups := gs |}.
Proof.
  intros [H1 H2 H3 Hu H4] Hpq. split; cbn.
  - intros r Hr%filter_In_of. auto.
  - intros d Hd%filter_In_of. auto.
  - by apply NoDup_map_filter.
  - by apply NoDup_map_filter.
  - intros d k [Hd Hq]%filter_In Hb. destruct (H4 d k Hd Hb) as [Hm (r & Hr & Hi & Htn)]. split; [done|]. exists r.
    split; [|done]. apply filter_In. eauto.
Qed.
Lemma filter_true {A} (l : list A) : List.filter (fun _ => true) l = l.
Proof. by apply filter_all. Qed.

Lemma delete_device_tables id tenant t : fst (delete_device id tenant t) =
  {| at_keys := List.filter (fun _ => true) (at_keys t); at_nextKey := at_nextKey t;
     at_devices := List.filter (fun d => negb ((dv_id d =? id) && (dv_tenant d =? tenant))) (at_devices t);
     at_nextDevice := at_nextDevice t; at_groups := at_groups t |}.
Proof. unfold delete_device. by rewrite filter_true. Qed.

Lemma group_gone_evolves g t : evolves t (group_gone g t).
Proof. apply evolves_map; intros ?; by case_match. Qed.
Lemma group_gone_ok g t : tables_ok t -> tables_ok (group_gone g t).
Proof.
  intros Ht. pose proof (ok_devices_same (with_keys (map (fun r => if bool_decide (ak_group r = Some g)
    then apply_key_update {| ku_name := None; ku_group := Some None; ku_active := None |} 0 None r else r) (at_keys t)) t)
    (fun d => if bool_decide (dv_group d = Some g) then set_dv_group None d else d)) as H.
  destruct H as [H1 H2 H3 Hu H4]; [intros d; by case_match|intros d; left; by case_match|apply ok_keys_map; [intros r; by case_match|done]|].
  by split.
Qed.

(** ** Channels and tasks *)

Definition conns_known (t : AgentTables) (h : Hub) : Prop := forall ws c, hb_conns h !! ws = Some c -> known t (cn_ref c).
Definition world_ok (w : World) : Prop := tables_ok (ow_tables w) /\ conns_known (ow_tables w) (ow_hub w).
Definition task_ok (t : AgentTables) (tk : Task) : Prop :=
  match tk with
  | U_keyed u | U_row u _ | U_cap u _ => known t (ug_key u)
  | U_claim u row | U_fresh u row => known t (ug_key u) /\ snapshot t row
  | P_read p | P_refresh p | P_count p | P_group p | P_insert p _ | P_result p _ => known t (pu_key p)
  | P_claim p row | P_fresh p row => known t (pu_key p) /\ snapshot t row
  | P_metadata p id => known t (pu_key p) /\ writable t (pu_key p) id
  | N_claim key row | N_fresh key row => known t key /\ snapshot t row
  | _ => True
  end.
Lemma task_ok_evolves t t' tk : evolves t t' -> task_ok t tk -> task_ok t' tk.
Proof. intros E. destruct tk; cbn; intuition eauto using known_evolves, snapshot_evolves, writable_evolves. Qed.

(** The channels of [h'] are those of [h], with the same key and tenant. *)
Definition same_refs (h h' : Hub) : Prop :=
  forall ws c', hb_conns h' !! ws = Some c' -> exists c, hb_conns h !! ws = Some c /\ cn_ref c = cn_ref c'.
Lemma refs_known t t' h h' : evolves t t' -> same_refs h h' -> conns_known t h -> conns_known t' h'.
Proof. intros E Hr Hk ws c' Hc. destruct (Hr ws c' Hc) as (c & Hc0 & <-). eauto using known_evolves. Qed.
Lemma refs_refl h : same_refs h h.
Proof. intros ws c Hc. eauto. Qed.
Lemma refs_trans h1 h2 h3 : same_refs h1 h2 -> same_refs h2 h3 -> same_refs h1 h3.
Proof. intros H1 H2 ws c Hc. destruct (H2 ws c Hc) as (c2 & Hc2 & <-). destruct (H1 ws c2 Hc2) as (c1 & Hc1 & <-). eauto. Qed.
Lemma refs_conns h h' : hb_conns h' = hb_conns h -> same_refs h h'.
Proof. intros E ws c Hc. rewrite E in Hc. eauto. Qed.
Lemma refs_on_conn ws f h : (forall c, cn_ref (f c) = cn_ref c) -> same_refs h (on_conn ws f h).
Proof.
  intros Hf ws' c' Hc. cbn in Hc. destruct (decide (ws = ws')) as [<-|Hne].
  - rewrite lookup_alter_eq in Hc. destruct (hb_conns h !! ws) as [c|]; [|done]. cbn in Hc. injection Hc as <-. exists c. by rewrite Hf.
  - rewrite lookup_alter_ne in Hc by done. eauto.
Qed.
Lemma refs_disconnect p h : same_refs h (disconnectWhere p h).
Proof.
  intros ws c' Hc. cbn in Hc. rewrite map_lookup_imap in Hc. destruct (hb_conns h !! ws) as [c|]; [|done]. cbn in Hc. injection Hc as <-.
  exists c. by case_match.
Qed.
Lemma refs_disconnect_after p h h0 : hb_conns h0 = hb_conns h -> same_refs h (disconnectWhere p h0).
Proof. intros E. eapply refs_trans; [by apply refs_conns|apply refs_disconnect]. Qed.
Lemma refs_reply ws r h : same_refs h (heartbeat_reply ws r h).
Proof.
  unfold heartbeat_reply, disconnectConn. assert (H1 : same_refs h (on_conn ws set_has_row h)) by by apply refs_on_conn.
  destruct r; [done|..]; (eapply refs_trans; [exact H1|]); [by apply refs_on_conn| |apply refs_disconnect].
  eapply refs_trans; [by apply (refs_on_conn ws (set_device None))|apply refs_disconnect].
Qed.
Lemma refs_unregister ws h : same_refs h (fst (_unregister ws h)).
Proof. apply refs_conns. unfold _unregister. by repeat case_match. Qed.
Lemma refs_grace uuid h : same_refs h (fst (grace_over uuid h)).
Proof. apply refs_conns. unfold grace_over. by repeat case_match. Qed.
Lemma refs_arm uuid d t h : same_refs h (arm_timer uuid d t h).
Proof. apply refs_conns. unfold arm_timer. by case_match. Qed.
Lemma refs_answer c id h : same_refs h (fst (_resolveFirewallResponse c id h)).
Proof. apply refs_conns. unfold _resolveFirewallResponse. by repeat case_match. Qed.
Lemma refs_wait uuid cmd h : same_refs h (fst (pushAndWait uuid cmd h)).
Proof. apply refs_conns. unfold pushAndWait. by repeat case_match. Qed.
Lemma refs_cache id ws w : same_refs (ow_hub w) (ow_hub (cache_device id ws w)).
Proof. destruct id; [by apply refs_on_conn|apply refs_refl]. Qed.
#[local] Hint Resolve refs_refl refs_reply refs_unregister refs_grace refs_arm refs_answer refs_wait refs_cache refs_disconnect : core.

Lemma refs_previous uuid h : same_refs h (close_previous uuid h).
Proof. unfold close_previous. repeat case_match; auto. by apply refs_on_conn. Qed.

(** Only a registration adds a channel: that of the upgrade. *)
Lemma register_known t uuid ten k ip ws rl up h : known t {| key_id := k; key_tenant := ten |} -> conns_known t h ->
  conns_known t (fst (register uuid ten k ip ws rl up h)).
Proof.
  intros Hk Hc. unfold register. repeat (destruct (_ : bool); [done|]). cbn [negb fst]. intros ws' c'. cbn.
  destruct (decide (ws = ws')) as [<-|Hne]; [rewrite lookup_insert_eq|rewrite lookup_insert_ne by done]; intros E.
  - injection E as <-. done.
  - destruct (refs_previous uuid (with_timers (delete uuid (hb_timers h)) h) ws' c' E) as (c & Hc0 & <-). eauto.
Qed.

(** ** One step *)

(** What a part of a task or a call leaves: a good world and good tasks. *)
Definition leaves (w w' : World) (ts : list Task) : Prop :=
  evolves (ow_tables w) (ow_tables w') /\ world_ok w' /\ forall tk, In tk ts -> task_ok (ow_tables w') tk.

Lemma leaves_same w w' ts : ow_tables w' = ow_tables w -> same_refs (ow_hub w) (ow_hub w') -> world_ok w ->
  (forall tk, In tk ts -> task_ok (ow_tables w) tk) -> leaves w w' ts.
Proof.
  intros Et Hr [Hok Hc] Hts. split; [rewrite Et; apply evolves_refl|]. split; [|by rewrite Et].
  split; rewrite Et; [done|]. eapply refs_known; [apply evolves_refl|exact Hr|exact Hc].
Qed.
Lemma leaves_tables w t' w' ts : ow_tables w' = t' -> ow_hub w' = ow_hub w -> evolves (ow_tables w) t' -> tables_ok t' -> world_ok w ->
  (forall tk, In tk ts -> task_ok t' tk) -> leaves w w' ts.
Proof.
  intros Et Eh He Hok [_ Hc] Hts. split; [by rewrite Et|]. split; [|by rewrite Et]. split; rewrite Et; [done|]. rewrite Eh.
  eapply refs_known; [exact He|apply refs_refl|exact Hc].
Qed.

(** Goals about the tasks left, one case per task. *)
Ltac left_tasks := let tk := fresh "tk" in let H := fresh "Hleft" in intros tk H; cbn [option_list In] in H; repeat destruct H as [<-|H]; cbn; try done; auto.

Lemma finish_leaves u v w : known (ow_tables w) (ug_key u) -> world_ok w -> leaves w (fst (finish_upgrade u v w)) (option_list (snd (finish_upgrade u v w))).
Proof.
  intros Hk Hw. unfold finish_upgrade. destruct (still_up _ w); cbn [negb]; [|by apply leaves_same; auto; left_tasks].
  destruct v as [rowless|st_ re]; [|by apply leaves_same; auto; left_tasks].
  pose proof (register_known (ow_tables w) (ug_uuid u) (key_tenant (ug_key u)) (key_id (ug_key u)) (ug_ip u) (ug_ws u) rowless true (ow_hub w)) as Hreg.
  destruct (register _ _ _ _ _ _ _ _) as [h r]. cbn [fst] in Hreg. destruct Hw as [Hok Hc].
  assert (Hh : conns_known (ow_tables w) h) by (apply Hreg; [by destruct (ug_key u)|done]).
  destruct r; cbn [fst snd]; (split; [apply evolves_refl|]); (split; [by split|]); left_tasks.
Qed.

Lemma claim_leaves {T} (f : T -> list Task) mode key row w (answer : bool -> T) contended :
  known (ow_tables w) key -> snapshot (ow_tables w) row -> world_ok w ->
  (forall t ok tk, evolves (ow_tables w) t -> In tk (f (answer ok)) -> (ok = true -> may_rebind key row = true) -> task_ok t tk) ->
  (forall t tk, evolves (ow_tables w) t -> In tk (f contended) -> task_ok t tk) ->
  let r := claim_next mode key row w answer contended in leaves w (fst r) (match snd r with Some x => f x | None => [] end).
Proof.
  intros Hk Hs Hw Ha Hc. unfold claim_next. destruct Hw as [Hok Hcs].
  pose proof (ensure_evolves mode key row (ow_tables w)) as He. pose proof (ensure_ok mode key row (ow_tables w) Hk Hs Hok) as Ho.
  pose proof (ensure_answer mode key row (ow_tables w) Hs) as Hans. destruct (ensure_claim _ _ _ _) as [t a]. cbn [fst snd] in *.
  destruct a as [ok| |]; cbn [fst snd]; eapply leaves_tables; try reflexivity; try done; try (by split).
  - intros tk Htk. apply (Ha t ok tk); [done|done|]. intros ->. by apply Hans.
  - intros tk Htk. by apply (Hc t tk).
Qed.

Lemma push_checked_ok t p row ok : known t (pu_key p) -> snapshot t row -> (ok = true -> may_rebind (pu_key p) row = true) ->
  task_ok t (push_checked p row ok).
Proof. intros Hk Hs Hm. unfold push_checked. destruct ok; [|done]. split; [done|]. apply snapshot_writable; auto. Qed.

Lemma upgrade_leaves st tk w : world_ok w -> task_ok (ow_tables w) tk ->
  let r := advance_upgrade st tk w in leaves w (fst r) (option_list (snd r)).
Proof.
  intros Hw Htk. destruct tk; cbn [advance_upgrade task_ok] in *; try (by apply leaves_same; auto; left_tasks).
  - destruct (live_conflict _ _ _); [by apply finish_leaves|]. cbn [fst snd]. apply leaves_same; auto.
    destruct (findDeviceBindingByUuid _ _) as [d|] eqn:Ef; left_tasks. split; [done|]. destruct Hw as [Hok _]. by eapply find_uuid_snapshot.
  - destruct Htk as [Hk Hs].
    pose proof (claim_leaves (fun x : Task => [x]) (st_mode st) (ug_key u) row w (fun ok => U_row u (ok, Some row)) (U_fresh u row) Hk Hs Hw) as Hl.
    destruct (claim_next _ _ _ _ _ _) as [w1 [x|]]; cbn [fst snd option_list] in *.
    + apply Hl; [intros t ok ? He [<-|[]] _|intros t ? He [<-|[]]]; cbn; eauto using known_evolves, snapshot_evolves.
    + assert (H1 : leaves w w1 []) by (apply Hl; [intros t ok ? He [<-|[]] _|intros t ? He [<-|[]]]; cbn; eauto using known_evolves, snapshot_evolves).
      destruct H1 as (He & Hw1 & _).
      destruct (finish_leaves u (Refused 503 "Internal error") w1) as (He2 & Hw2 & Ht2); [by eapply known_evolves|done|].
      assert (Htab : ow_tables (fst (finish_upgrade u (Refused 503 "Internal error") w1)) = ow_tables w1) by (unfold finish_upgrade; by case_match).
      split; [by rewrite Htab|]. by split.
  - cbn [fst snd]. apply leaves_same; auto. left_tasks. tauto.
  - destruct (row_verdict v); [by apply finish_leaves|]. destruct (0 <? st_cap st); [|by apply finish_leaves]. apply leaves_same; auto. left_tasks.
  - by apply finish_leaves.
  - cbn [fst snd]. apply leaves_same; auto; [by destruct (approved_for ws w)|left_tasks].
Qed.

Lemma metadata_ok id h ip t : tables_ok t -> tables_ok (on_device id (set_metadata h ip) t).
Proof. intros Ht. by apply ok_on_device. Qed.

Lemma push_leaves st tk w : world_ok w -> task_ok (ow_tables w) tk ->
  let r := advance_push st tk w in leaves w (fst r) (option_list (snd r)).
Proof.
  intros Hw Htk. pose proof Hw as [Hok _]. destruct tk; cbn [advance_push task_ok] in *; try (by apply leaves_same; auto; left_tasks).
  - cbn [fst snd]. apply leaves_same; auto. destruct (findDeviceBindingByUuid _ _) as [d|] eqn:Ef.
    + left_tasks. split; [done|]. by eapply find_uuid_snapshot.
    + destruct (0 <? st_cap st); left_tasks.
  - destruct Htk as [Hk Hs]. apply (claim_leaves (fun x : Task => [x]) (st_mode st) (pu_key p) row w (push_checked p row) (P_fresh p row) Hk Hs Hw).
    + intros t ok tk He [<-|[]] Hm. apply push_checked_ok; eauto using known_evolves, snapshot_evolves.
    + intros t tk He [<-|[]]. cbn. eauto using known_evolves, snapshot_evolves.
  - destruct Htk as [Hk Hs]. cbn [fst snd]. apply leaves_same; auto. intros tk [<-|[]]. apply push_checked_ok; auto.
    intros Hf. by eapply fresh_rebind.
  - destruct Htk as [Hk Hid]. cbn [fst snd]. eapply leaves_tables; try reflexivity; [by apply evolves_on_device|by apply metadata_ok|done|].
    intros tk [<-|[]]. eapply known_evolves; [|exact Hk]. by apply evolves_on_device.
  - destruct (findDeviceBindingByUuid _ _); cbn [fst snd]; apply leaves_same; auto; left_tasks.
  - cbn [fst snd]. apply leaves_same; auto. destruct (st_cap st <=? _); left_tasks.
  - pose proof (enrol_evolves (pu_uuid p) (pu_key p) group (pu_hostname p) (pu_ip p) (ow_tables w)) as He.
    pose proof (enrolled_ok (pu_uuid p) (pu_key p) group (pu_hostname p) (pu_ip p) (ow_tables w) Htk Hok) as Ho.
    destruct (enrol _ _ _ _ _ _) as [t [b|]]; cbn [fst snd] in *; [|apply leaves_same; auto; left_tasks].
    eapply leaves_tables; try reflexivity; try done. intros tk [<-|[]]. by eapply known_evolves.
  - destruct (pu_ws p) as [ws|]; cbn [fst snd]; (apply leaves_same; [done|cbn; auto|done|]);
      intros x; repeat case_match; cbn; intuition (subst; done).
  - cbn [fst snd]. apply leaves_same; auto; [by destruct (approved_for ws w)|left_tasks].
  - destruct Htk as [Hk Hs]. apply (claim_leaves (fun x : Task => [x]) (st_mode st) key row w (fun ok => N_row ok row) (N_fresh key row) Hk Hs Hw).
    + by intros t ok tk He [<-|[]] _.
    + intros t tk He [<-|[]]. cbn. eauto using known_evolves, snapshot_evolves.
  - cbn [fst snd]. destruct (_ && _); apply leaves_same; auto; left_tasks.
Qed.

Lemma cache_tables id ws w : ow_tables (cache_device id ws w) = ow_tables w.
Proof. by destruct id. Qed.

Lemma frame_leaves tk w : world_ok w -> let r := advance_frame tk w in leaves w (fst r) (option_list (snd r)).
Proof.
  intros Hw. destruct tk; cbn [advance_frame]; try (by apply leaves_same; auto; left_tasks).
  - destruct (conn_of ws w) as [c|] eqn:Ec; cbn [fst snd]; [|apply leaves_same; auto; left_tasks].
    apply leaves_same; [done|by apply refs_on_conn|done|]. intros tk [<-|[]]. destruct Hw as [_ Hc]. by apply (Hc ws).
  - destruct (conn_of ws w) as [c|]; [|apply leaves_same; auto; left_tasks].
    destruct (cn_device c), (cn_rowless c); cbn [fst snd]; apply leaves_same; auto using cache_tables; left_tasks.
  - cbn [fst snd]. destruct (conn_of ws w ≫= cn_device); apply leaves_same; auto; left_tasks.
  - cbn [fst snd]. apply leaves_same; auto using cache_tables. destruct (approved_for ws w); left_tasks.
  - cbn [fst snd]. destruct (conn_of ws w); [case_match|]; apply leaves_same; auto; left_tasks.
Qed.

Lemma key_write_ok id tenant u now by_ t : tables_ok t -> tables_ok (write_key id tenant u now by_ t).
Proof. apply ok_keys_map, key_write_same. Qed.

Lemma admin_leaves tk w : world_ok w -> let r := advance_admin tk w in leaves w (fst r) (option_list (snd r)).
Proof.
  intros Hw. pose proof Hw as [Hok _]. destruct tk; cbn [advance_admin]; try (by apply leaves_same; auto; left_tasks).
  - cbn [fst snd]. eapply leaves_tables; try reflexivity; [apply write_evolves|by apply key_write_ok|done|].
    intros x. destruct (ku_active u) as [[]|]; cbn; intuition (subst; done).
  - apply leaves_same; [done|by apply refs_disconnect_after|done|left_tasks].
  - apply leaves_same; [done|by apply refs_conns|done|left_tasks].
  - apply leaves_same; [done|by apply refs_disconnect_after|done|left_tasks].
  - apply leaves_same; [done|apply refs_disconnect|done|left_tasks].
  - apply leaves_same; [done|apply refs_arm|done|left_tasks].
Qed.

Lemma advance_leaves st tk w : world_ok w -> task_ok (ow_tables w) tk -> leaves w (fst (advance st tk w)) (option_list (snd (advance st tk w))).
Proof.
  intros Hw Htk. destruct tk; cbn [advance]; first [by apply upgrade_leaves|by apply push_leaves|by apply frame_leaves|by apply admin_leaves].
Qed.

Lemma disconnect_tasks_ok t us tk : In tk (then_disconnect us) -> task_ok t tk.
Proof. intros [u [<- _]]%in_map_iff. done. Qed.

Lemma find_known t (p : KeyRow -> bool) r : tables_ok t ->
  List.find p (at_keys t) = Some r -> known t {| key_id := ak_id r; key_tenant := ak_tenant r |}.
Proof. intros Hok [Hr _]%find_some. split; [by apply ok_key_ids|]. intros r2 Hr2 E. by rewrite (NoDup_key_eq ak_id (at_keys t) r2 r) by auto using ok_keys. Qed.

Lemma active_known t raw r : tables_ok t -> findActiveByValue t raw = Some r -> known t {| key_id := ak_id r; key_tenant := ak_tenant r |}.
Proof.
  intros Hok. unfold findActiveByValue. destruct (api_key_text raw); [|done]. destruct (List.find _ _) as [r'|] eqn:Ef; [|done].
  destruct (ak_active r'); [|done]. intros [= <-]. by eapply find_known.
Qed.
Lemma auth_known t raw key : tables_ok t -> agentAuth t raw = Some key -> known t key.
Proof. intros Hok. unfold agentAuth. destruct (findActiveByValue t raw) eqn:E; [|done]. intros [= <-]. by eapply active_known. Qed.
Lemma request_known t apiKey uuid key u : tables_ok t -> request_key apiKey uuid t = inr (key, u) -> known t key.
Proof.
  intros Hok. unfold request_key. destruct apiKey as [| | | |x| |]; try done. destruct x as [|c x]; [done|].
  destruct (api_key_text _); [|done]. destruct (device_uuid_text uuid); [|done].
  destruct (findActiveByValue _ _) eqn:E; [|done]. intros [= <- _]. by eapply active_known.
Qed.

Lemma call_leaves st c w : world_ok w -> leaves w (fst (begin st c w)) (snd (begin st c w)).
Proof.
  intros Hw. pose proof Hw as [Hok _]. destruct c; cbn [begin].
  - destruct (request_key apiKey uuid (ow_tables w)) as [v|[key u]] eqn:Er; cbn [fst snd]; apply leaves_same; auto; [left_tasks|].
    intros tk [<-|[]]. by eapply request_known.
  - destruct (agentAuth _ _) as [key|] eqn:Ea; [|apply leaves_same; auto; left_tasks].
    destruct (device_uuid_text uuid); apply leaves_same; auto; [|left_tasks]. intros tk [<-|[]]. by eapply auth_known.
  - destruct (agentAuth _ _) as [key|] eqn:Ea; [|apply leaves_same; auto; left_tasks].
    destruct (_ ≫= _) as [d|] eqn:Ed; apply leaves_same; auto; [|left_tasks]. intros tk [<-|[]]. split; [by eapply auth_known|].
    apply bind_Some in Ed as (u & _ & Ed). by eapply find_uuid_snapshot.
  - destruct (conn_of ws w) as [c|] eqn:Ec; [|apply leaves_same; auto; left_tasks]. destruct (live c); [|apply leaves_same; auto; left_tasks].
    destruct f as [hostname| |n|id]; cbn [begin_frame].
    1,2: apply leaves_same; auto; left_tasks.
    + destruct n; cbn [fst snd]; [apply leaves_same; auto; left_tasks|]. destruct (cn_device c); apply leaves_same; auto; left_tasks.
    + pose proof (refs_answer c id (ow_hub w)) as Hr. destruct (_resolveFirewallResponse c id (ow_hub w)) as [h [cmd|]]; cbn [fst snd] in *;
        apply leaves_same; auto; left_tasks.
  - destruct (key_taken _ _); [apply leaves_same; auto; left_tasks|].
    eapply leaves_tables; try reflexivity; [apply create_evolves|by apply create_ok|done|done].
  - destruct (read_key_update _ _ _ _); apply leaves_same; auto; left_tasks.
  - pose proof (remove_evolves id tenant (ow_tables w)) as He. pose proof (remove_ok id tenant (ow_tables w) Hok) as Ho.
    destruct (remove_key id tenant (ow_tables w)) as [t ok]. eapply leaves_tables; try reflexivity; try done. destruct ok; left_tasks.
  - pose proof (status_evolves id tenant status group (ow_tables w)) as He. pose proof (status_ok id tenant status group (ow_tables w) Hok) as Ho.
    destruct (set_device_status id tenant status group (ow_tables w)) as [t ok]. eapply leaves_tables; try reflexivity; try done.
    cbn [snd]. destruct (ok && _); [|done]. intros tk. apply disconnect_tasks_ok.
  - pose proof (release_evolves id tenant (ow_tables w)) as He. pose proof (release_ok id tenant (ow_tables w) Hok) as Ho.
    destruct (releaseKeyBinding id tenant (ow_tables w)) as [t ok]. eapply leaves_tables; try reflexivity; try done.
    cbn [snd]. destruct ok; [|done]. intros tk. apply disconnect_tasks_ok.
  - pose proof (delete_device_tables id tenant (ow_tables w)) as Ht. destruct (delete_device id tenant (ow_tables w)) as [t us]. cbn [fst] in Ht.
    eapply (leaves_tables w t); try reflexivity; try done; [rewrite Ht; apply deleted_evolves|rewrite Ht; by apply deleted_ok|].
    intros tk. apply disconnect_tasks_ok.
  - eapply leaves_tables; try reflexivity; [apply deleted_evolves| |done|left_tasks]. apply deleted_ok; [done|].
    intros d r _ _ Hq ->. done.
  - apply leaves_same; [done|apply refs_wait|done|left_tasks].
Qed.

Lemma same_tables_evolves t gs : evolves t {| at_keys := at_keys t; at_nextKey := at_nextKey t; at_devices := at_devices t; at_nextDevice := at_nextDevice t; at_groups := gs |}.
Proof. split; cbn; [lia|lia|eauto 6|eauto 8]. Qed.

Lemma env_leaves e w : world_ok w -> leaves w (fst (environment e w)) (option_list (snd (environment e w))).
Proof.
  intros Hw. pose proof Hw as [Hok _]. destruct e; cbn [environment].
  - apply leaves_same; [done|by apply refs_on_conn|done|left_tasks].
  - destruct (conn_of ws w) as [c|]; [|apply leaves_same; auto; left_tasks]. destruct (cn_open c); [apply leaves_same; auto; left_tasks|].
    pose proof (refs_unregister ws (ow_hub w)) as Hr. destruct (_unregister ws (ow_hub w)) as [h [[[u d] t]|]]; apply leaves_same; auto; left_tasks.
  - destruct (conn_of ws w) as [c|]; [|apply leaves_same; auto; left_tasks].
    destruct (cn_seen c); apply leaves_same; auto; try left_tasks. apply refs_disconnect.
  - pose proof (refs_grace uuid (ow_hub w)) as Hr. destruct (grace_over uuid (ow_hub w)) as [h [d|]]; apply leaves_same; auto; left_tasks.
  - apply leaves_same; [done|by apply refs_conns|done|left_tasks].
  - eapply leaves_tables; try reflexivity; [apply same_tables_evolves|by destruct Hok|done|left_tasks].
  - eapply leaves_tables; try reflexivity; [apply group_gone_evolves|by apply group_gone_ok|done|left_tasks].
  - destruct (bool_decide _); [apply leaves_same; auto; left_tasks|].
    eapply leaves_tables; try reflexivity; [by apply add_device_evolves|by apply add_device_ok|done|left_tasks].
Qed.

(** ** Every run *)

Definition state_ok (s : World * list Task) : Prop := world_ok (fst s) /\ forall tk, In tk (snd s) -> task_ok (ow_tables (fst s)) tk.

Lemma leaves_state w w' ts ts' : leaves w w' ts' -> (forall tk, In tk ts -> task_ok (ow_tables w) tk) ->
  (forall l, (forall tk, In tk l -> In tk ts \/ In tk ts') -> state_ok (w', l)).
Proof.
  intros (He & Hw & Ht) Hold l Hl. split; [done|]. intros tk Hin. cbn in *. destruct (Hl tk Hin) as [H|H]; [|by apply Ht].
  eapply task_ok_evolves; [exact He|by apply Hold].
Qed.

Lemma step_state_ok st serial s s' : step st serial s s' -> state_ok s -> state_ok s'.
Proof.
  intros Hs [Hw Ht]. destruct Hs as [c w ts _|tk l1 l2 w _|e w ts|w ts]; cbn [fst snd] in *.
  - eapply leaves_state; [by apply call_leaves|exact Ht|]. intros tk. rewrite in_app_iff. tauto.
  - eapply leaves_state; [apply advance_leaves; [done|apply Ht, in_elt]|exact Ht|]. intros x. rewrite !in_app_iff. cbn. tauto.
  - eapply leaves_state; [by apply env_leaves|exact Ht|]. intros x. rewrite in_app_iff. tauto.
  - split; [|done]. destruct Hw as [Hok _]. split; [done|]. intros ws c Hc. cbn in Hc. by rewrite lookup_empty in Hc.
Qed.

Lemma reachable_ok st serial t s : tables_ok t -> reachable st serial t s -> state_ok s.
Proof.
  intros Ht Hr. assert (H0 : state_ok (start t)).
  { split; [split; [done|]|done]. intros ws c Hc. cbn in Hc. by rewrite lookup_empty in Hc. }
  unfold reachable in Hr. induction Hr; [done|]. eauto using step_state_ok.
Qed.

(** ** What the agents may write *)

(** The key an agent's request acts with. *)
Definition acting_key (tk : Task) : option AgentKeyRef :=
  match tk with
  | U_keyed u | U_row u _ | U_cap u _ | U_claim u _ | U_fresh u _ => Some (ug_key u)
  | P_read p | P_refresh p | P_count p | P_group p | P_insert p _ | P_result p _ | P_claim p _ | P_fresh p _ | P_metadata p _ => Some (pu_key p)
  | N_claim key _ | N_fresh key _ => Some key
  | _ => None
  end.
(** A row of another tenant, or of a router. *)
Definition foreign (key : AgentKeyRef) (d : DeviceRow) : bool := negb (may_rebind key d).
Definition foreign_rows (key : AgentKeyRef) (t : AgentTables) : list DeviceRow := List.filter (foreign key) (at_devices t).

Lemma foreign_map key f l : same_device f -> (forall d, In d l -> foreign key d = true -> f d = d) ->
  List.filter (foreign key) (map f l) = List.filter (foreign key) l.
Proof.
  intros Hs Hf. induction l as [|d l IH]; [done|]. cbn.
  assert (E : foreign key (f d) = foreign key d) by (unfold foreign; f_equal; destruct (Hs d) as (?&?&?); by apply rebind_same).
  rewrite E, IH by (intros; apply Hf; [by right|done]). destruct (foreign key d) eqn:Ed; [|done]. by rewrite (Hf d) by (by left || done).
Qed.

Lemma claim_foreign key row t : may_rebind key row = true -> snapshot t row ->
  foreign_rows key (fst (claim_binding key row t)) = foreign_rows key t.
Proof.
  intros Hm [_ Hs]. unfold claim_binding. do 2 (destruct (negb _); [done|]). apply foreign_map; [apply claim_same|].
  intros d Hd Hf. destruct (claimable key row d) eqn:Hc; [|done]. exfalso. unfold claimable in Hc. apply andb_prop in Hc as [Hc _].
  apply andb_prop in Hc as [Hi%Z.eqb_eq _]. destruct (Hs d Hd Hi) as [E1 E2]. unfold foreign in Hf.
  by rewrite (rebind_same key row d), Hm in Hf.
Qed.
Lemma ensure_foreign mode key row t : snapshot t row -> foreign_rows key (fst (ensure_claim mode key row t)) = foreign_rows key t.
Proof.
  intros Hs. unfold ensure_claim. destruct (is_status _ _ || is_status _ _); [done|].
  destruct (may_act key row) eqn:Ha; [destruct (dv_key row); [done|]; apply claim_foreign; auto using may_act_rebind|].
  destruct (bool_decide _ && may_rebind key row) eqn:Hr; cbn [andb]; [|done]. case_match; [|done].
  apply claim_foreign; [|done]. by apply andb_prop in Hr as [_ Hr].
Qed.
Lemma claim_next_tables {T} mode key row w (f : bool -> T) x : ow_tables (fst (claim_next mode key row w f x)) = fst (ensure_claim mode key row (ow_tables w)).
Proof. unfold claim_next. by destruct (ensure_claim _ _ _ _) as [t [b| |]]. Qed.
Lemma enrol_foreign uuid key g h ip t : foreign_rows key (fst (enrol uuid key g h ip t)) = foreign_rows key t.
Proof.
  unfold enrol. destruct (bool_decide _); [done|]. destruct (negb _); [done|]. destruct (match g with Some _ => _ | None => _ end); [done|]. cbn. unfold foreign_rows. cbn. rewrite List.filter_app. cbn.
  unfold foreign at 2, may_rebind, agentKeyMayRebindDevice. cbn. rewrite Z.eqb_refl. cbn. apply List.app_nil_r.
Qed.
Lemma metadata_foreign key id h ip t : writable t key id -> foreign_rows key (on_device id (set_metadata h ip) t) = foreign_rows key t.
Proof.
  intros [_ Hw]. apply foreign_map; [by apply on_device_same|]. intros d Hd Hf. destruct (dv_id d =? id) eqn:E; [|done].
  apply Z.eqb_eq in E. unfold foreign in Hf. by rewrite (Hw d Hd E) in Hf.
Qed.

Lemma finish_tables u v w : ow_tables (fst (finish_upgrade u v w)) = ow_tables w.
Proof. unfold finish_upgrade. destruct (negb _); [done|]. destruct v; [|done]. by destruct (register _ _ _ _ _ _ _ _) as [h []]. Qed.

(** What a part of a task does to the rows. *)
Definition rows_after (st : Settings) (tk : Task) (t : AgentTables) : AgentTables :=
  match tk with
  | U_claim u row => fst (ensure_claim (st_mode st) (ug_key u) row t)
  | P_claim p row => fst (ensure_claim (st_mode st) (pu_key p) row t)
  | N_claim key row => fst (ensure_claim (st_mode st) key row t)
  | P_metadata p id => on_device id (set_metadata (pu_hostname p) (pu_ip p)) t
  | P_insert p g => fst (enrol (pu_uuid p) (pu_key p) g (pu_hostname p) (pu_ip p) t)
  | K_set id tenant u byUser now => write_key id tenant u now byUser t
  | _ => t
  end.
Lemma enrol_failed uuid key g h ip t : snd (enrol uuid key g h ip t) = None -> fst (enrol uuid key g h ip t) = t.
Proof.
  unfold enrol. destruct (bool_decide _); [done|]. destruct (negb _); [done|]. by destruct (match g with Some _ => _ | None => _ end).
Qed.
Lemma advance_rows st tk w : ow_tables (fst (advance st tk w)) = rows_after st tk (ow_tables w).
Proof.
  destruct tk; cbn [advance advance_upgrade advance_push advance_frame advance_admin rows_after];
    rewrite ?finish_tables, ?claim_next_tables; cbn [fst]; rewrite ?cache_tables; try done.
  - destruct (live_conflict _ _ _); [apply finish_tables|done].
  - rewrite <- (claim_next_tables _ _ _ _ (fun ok => U_row u (ok, Some row)) (U_fresh u row)).
    destruct (claim_next _ _ _ _ _ _) as [w1 [x|]]; [done|apply finish_tables].
  - destruct (row_verdict v); [apply finish_tables|]. destruct (0 <? st_cap st); [done|apply finish_tables].
  - by destruct (findDeviceBindingByUuid _ _).
  - pose proof (enrol_failed (pu_uuid p) (pu_key p) group (pu_hostname p) (pu_ip p) (ow_tables w)) as E.
    destruct (enrol _ _ _ _ _ _) as [t1 [b|]]; [done|]. cbn in *. symmetry. by apply E.
  - by destruct (pu_ws p).
  - by destruct (_ && _).
  - by destruct (conn_of ws w).
  - destruct (conn_of ws w) as [c|]; [|done]. destruct (cn_device c), (cn_rowless c); cbn; by rewrite ?cache_tables.
  - by destruct (conn_of ws w ≫= cn_device).
  - destruct (conn_of ws w); [|done]. by case_match.
Qed.

Lemma agent_foreign st tk key w : task_ok (ow_tables w) tk -> acting_key tk = Some key ->
  foreign_rows key (ow_tables (fst (advance st tk w))) = foreign_rows key (ow_tables w).
Proof.
  rewrite advance_rows. intros Hok Ha. destruct tk; cbn in Ha; try done; injection Ha as <-; cbn [rows_after task_ok] in *; try done.
  1,2,5: apply ensure_foreign; tauto.
  - apply metadata_foreign. tauto.
  - apply enrol_foreign.
Qed.

(** An agent writes only in the tenant of its key, and never on a router: whatever runs
    in between, a part of an upgrade, a push or an update notice leaves every row of another
    tenant and every router as it was, and adds none there. *)
Theorem push_confined st serial t s tk key : tables_ok t -> reachable st serial t s -> In tk (snd s) -> acting_key tk = Some key ->
  foreign_rows key (ow_tables (fst (advance st tk (fst s)))) = foreign_rows key (ow_tables (fst s)).
Proof. intros Ht Hr Hin Ha. apply agent_foreign; [|done]. by apply (reachable_ok st serial t s Ht Hr). Qed.

(** ** Bindings *)

(** C23. A bound device is bound to a key that exists, of its own tenant, and is not a router:
    however the claims, releases, key deletions and tenant deletions interleave. *)
Theorem binding_stays_in_tenant st serial t s d k : tables_ok t -> reachable st serial t s -> In d (at_devices (ow_tables (fst s))) -> dv_key d = Some k ->
  is_mikrotik d = false /\ exists r, In r (at_keys (ow_tables (fst s))) /\ ak_id r = k /\ ak_tenant r = dv_tenant d.
Proof.
  intros Ht Hr Hd Hk. destruct (reachable_ok st serial t s Ht Hr) as [[Hok _] _]. destruct (ok_bound _ Hok d k Hd Hk) as [Hm He]. split; [|done].
  unfold may_rebind in Hm. apply andb_prop in Hm as [_ Hm]. by apply negb_true_iff in Hm.
Qed.

Definition keeps (d : DeviceRow) (t : AgentTables) : Prop := forall d', In d' (at_devices t) -> dv_id d' = dv_id d -> dv_key d' = dv_key d.

Lemma keeps_refl d t : tables_ok t -> In d (at_devices t) -> keeps d t.
Proof. intros Ht Hd d' Hd' E. by rewrite (NoDup_key_eq dv_id (at_devices t) d' d) by auto using ok_devices. Qed.
Lemma keeps_map d t f ks nk nd gs : tables_ok t -> In d (at_devices t) -> same_device f -> dv_key (f d) = dv_key d ->
  keeps d {| at_keys := ks; at_nextKey := nk; at_devices := map f (at_devices t); at_nextDevice := nd; at_groups := gs |}.
Proof.
  intros Ht Hd Hs Hk d' [d0 [<- Hd0]]%in_map_iff E. destruct (Hs d0) as (Ei & _). rewrite Ei in E.
  by rewrite (NoDup_key_eq dv_id (at_devices t) d0 d) by auto using ok_devices.
Qed.
Lemma keeps_filter d t p ks nk nd gs : tables_ok t -> In d (at_devices t) ->
  keeps d {| at_keys := ks; at_nextKey := nk; at_devices := List.filter p (at_devices t); at_nextDevice := nd; at_groups := gs |}.
Proof. intros Ht Hd d' Hd'%filter_In_of. by apply (keeps_refl d t). Qed.
Lemma keeps_add d d0 t : tables_ok t -> In d (at_devices t) -> dv_id d0 = at_nextDevice t -> keeps d (add_device d0 t).
Proof.
  intros Ht Hd Hi d' [Hin|[<-|[]]]%in_app_iff E; [by apply (keeps_refl d t)|]. pose proof (ok_device_ids _ Ht d Hd). lia.
Qed.

Section Kept.
Context (t : AgentTables) (d : DeviceRow) (k : Z) (Ht : tables_ok t) (Hd : In d (at_devices t)) (Hk : dv_key d = Some k).

Lemma keeps_claim key row : dv_key row = None -> keeps d (fst (claim_binding key row t)).
Proof.
  intros Hn. unfold claim_binding. do 2 (destruct (negb _); [by apply keeps_refl|]). apply keeps_map; [done|done|apply claim_same|].
  destruct (claimable key row d) eqn:Hc; [|done]. unfold claimable in Hc. apply andb_prop in Hc as [_ Hc%bool_decide_eq_true]. congruence.
Qed.
Lemma keeps_ensure key row : keeps d (fst (ensure_claim Strict key row t)).
Proof.
  unfold ensure_claim. destruct (is_status _ _ || is_status _ _); [by apply keeps_refl|].
  destruct (may_act key row); [|by apply keeps_refl]. destruct (dv_key row) eqn:E; [by apply keeps_refl|by apply keeps_claim].
Qed.
Lemma keeps_enrol uuid key g h ip : keeps d (fst (enrol uuid key g h ip t)).
Proof.
  unfold enrol. destruct (bool_decide _); [by apply keeps_refl|]. destruct (negb _); [by apply keeps_refl|].
  destruct (match g with Some _ => _ | None => _ end); [by apply keeps_refl|]. by apply keeps_add.
Qed.
Lemma keeps_status id tenant s g : keeps d (fst (set_device_status id tenant s g t)).
Proof. destruct (status_shape id tenant s g t) as (f & Hf & Hkf & ->). by apply keeps_map. Qed.
Lemma keeps_remove id tenant : (id, tenant) <> (k, dv_tenant d) -> keeps d (fst (remove_key id tenant t)).
Proof.
  intros Hne. unfold remove_key. destruct (existsb _ _) eqn:Hex; [|by apply keeps_refl].
  apply keeps_map; [done|done|intros x; unfold release_key; by case_match|]. unfold release_key, bound_to. case_bool_decide as E; [|done].
  exfalso. rewrite Hk in E. injection E as <-. apply existsb_exists in Hex as (r & Hr & Ho). unfold own_key in Ho.
  apply andb_prop in Ho as [Hi%Z.eqb_eq Htn%Z.eqb_eq]. destruct (ok_bound _ Ht d k Hd Hk) as [_ (r' & Hr' & Hi' & Ht')].
  apply Hne. rewrite <- Ht', <- Htn. by rewrite (NoDup_key_eq ak_id (at_keys t) r r') by (auto using ok_keys; congruence).
Qed.
Lemma keeps_release id tenant : (id, tenant) <> (dv_id d, dv_tenant d) -> keeps d (fst (releaseKeyBinding id tenant t)).
Proof.
  intros Hne. apply keeps_map; [done|done|apply release_same|]. destruct (_ && _) eqn:E; [|done]. exfalso. apply Hne.
  apply andb_prop in E as [E _]. apply andb_prop in E as [E1%Z.eqb_eq E2%Z.eqb_eq]. congruence.
Qed.

Lemma keeps_advance st tk w : ow_tables w = t -> st_mode st = Strict -> keeps d (ow_tables (fst (advance st tk w))).
Proof.
  intros Ew Hst. rewrite advance_rows, Ew. destruct tk; cbn [rows_after]; rewrite ?Hst; auto using keeps_ensure, keeps_enrol.
  all: try by apply keeps_refl.
  - apply keeps_map; [done|done|by apply on_device_same|]. by case_match.
  - exact (keeps_refl d t Ht Hd).
Qed.

Lemma keeps_env e w : ow_tables w = t -> keeps d (ow_tables (fst (environment e w))).
Proof.
  intros Ew. assert (H0 : keeps d (ow_tables w)) by (rewrite Ew; by apply keeps_refl). destruct e; cbn [environment]; try done.
  - destruct (conn_of ws w) as [c|]; [|done]. destruct (cn_open c); [done|]. by destruct (_unregister ws (ow_hub w)) as [h [[[u d0] t0]|]].
  - destruct (conn_of ws w) as [c|]; [|done]. by destruct (cn_seen c).
  - by destruct (grace_over uuid (ow_hub w)) as [h [d0|]].
  - cbn. rewrite Ew. apply keeps_map; [done|done|intros x; by case_match|by case_match].
  - destruct (bool_decide _); [done|]. cbn. rewrite Ew. by apply keeps_add.
Qed.

Lemma keeps_call st c w : ow_tables w = t -> c <> B_release (dv_id d) (dv_tenant d) -> c <> B_delete_key k (dv_tenant d) ->
  keeps d (ow_tables (fst (begin st c w))).
Proof.
  intros Ew H1 H2. assert (H0 : keeps d (ow_tables w)) by (rewrite Ew; by apply keeps_refl). destruct c; cbn [begin]; try done.
  - by destruct (request_key _ _ _) as [v|[key u]].
  - destruct (agentAuth _ _); [|done]. by destruct (device_uuid_text uuid).
  - destruct (agentAuth _ _); [|done]. by destruct (_ ≫= _).
  - destruct (conn_of ws w) as [c|]; [|done]. destruct (live c); [|done]. destruct f as [h| |[|n]|id]; cbn [begin_frame]; try done.
    by destruct (_resolveFirewallResponse c id (ow_hub w)) as [h [cmd|]].
  - destruct (key_taken _ _); [done|]. cbn. unfold create_key. rewrite Ew. destruct (parseKeyName name); [by apply keeps_refl|].
    destruct (if is_undefined group then _ else _); exact (keeps_refl d t Ht Hd).
  - by destruct (read_key_update _ _ _ _).
  - assert (H := keeps_remove id tenant). rewrite Ew. destruct (remove_key id tenant t). apply H. intros [= -> ->]. done.
  - assert (H := keeps_status id tenant status group). rewrite Ew. by destruct (set_device_status id tenant status group t).
  - assert (H := keeps_release id tenant). rewrite Ew. destruct (releaseKeyBinding id tenant t). apply H. intros [= -> ->]. done.
  - rewrite Ew. by apply keeps_filter.
  - cbn. rewrite Ew. by apply keeps_filter.
Qed.
End Kept.

(** C21. A binding is never taken over: with [AGENT_KEY_BINDING] strict, a bound device keeps its
    key through every part of a running request, every move of the environment and every call
    but two, the release of that device and the deletion of that key by their own tenant. *)
Theorem binding_kept st serial t s d k : st_mode st = Strict -> tables_ok t -> reachable st serial t s ->
  In d (at_devices (ow_tables (fst s))) -> dv_key d = Some k ->
  (forall tk, keeps d (ow_tables (fst (advance st tk (fst s))))) /\ (forall e, keeps d (ow_tables (fst (environment e (fst s))))) /\
  (forall c, c <> B_release (dv_id d) (dv_tenant d) -> c <> B_delete_key k (dv_tenant d) -> keeps d (ow_tables (fst (begin st c (fst s))))).
Proof.
  intros Hst Ht Hr Hd Hk. destruct (reachable_ok st serial t s Ht Hr) as [[Hok _] _].
  split; [|split]; intros; [by eapply keeps_advance|by eapply keeps_env|by eapply keeps_call].
Qed.

(** ** Examples *)

Lemma sample_ok : tables_ok sample_tables.
Proof.
  split; cbn.
  - intros r [<-|[<-|[<-|[]]]]; done.
  - intros d [<-|[<-|[]]]; done.
  - by apply (bool_decide_unpack (NoDup [1; 2])).
  - by apply (bool_decide_unpack (NoDup [1; 2; 3])).
  - by intros d k [<-|[<-|[]]].
Qed.

(** A second machine enrols over HTTP; its push comes to the row. *)
Definition enrolled : list Act := [Call_ (B_push (JStr uuid_b) (JStr "machine-000001") "pc" "10.0.0.2"); Run_ 0; Run_ 0; Run_ 0; Run_ 0; Run_ 0].
Definition pushing : list Act := enrolled ++ [Call_ (B_push (JStr uuid_b) (JStr "machine-000001") "pc2" "10.0.0.2"); Run_ 0; Run_ 0].
Definition state_after (serial : bool) (l : list Act) : World * list Task := default (start sample_tables) (acts sample_settings serial l (start sample_tables)).
Lemma state_reachable serial l : bool_decide (is_Some (acts sample_settings serial l (start sample_tables))) = true ->
  reachable sample_settings serial sample_tables (state_after serial l).
Proof. intros [s Hs]%bool_decide_eq_true. unfold state_after. rewrite Hs. by eapply acts_reach. Qed.

Lemma push_confined_witness : exists tk, snd (state_after true pushing) = [tk] /\
  foreign_rows {| key_id := 2; key_tenant := 1 |} (ow_tables (fst (advance sample_settings tk (fst (state_after true pushing))))) = [new_appliance 1 "router-000001" "mikrotik" 1] /\
  at_devices (ow_tables (fst (advance sample_settings tk (fst (state_after true pushing))))) <> at_devices (ow_tables (fst (state_after true pushing))).
Proof.
  eexists. split; [vm_compute; reflexivity|]. split.
  - etransitivity; [eapply (push_confined sample_settings true sample_tables (state_after true pushing))|].
    + exact sample_ok.
    + apply state_reachable. vm_compute. reflexivity.
    + vm_compute. left. reflexivity.
    + reflexivity.
    + vm_compute. reflexivity.
  - vm_compute. discriminate.
Defined.

Definition enrolled_device : DeviceRow := new_device 3 "machine-000001" {| key_id := 2; key_tenant := 1 |} None "pc" "10.0.0.2".
Lemma binding_stays_witness : In enrolled_device (at_devices (ow_tables (fst (state_after true enrolled)))) /\
  exists r, In r (at_keys (ow_tables (fst (state_after true enrolled)))) /\ ak_id r = 2 /\ ak_tenant r = dv_tenant enrolled_device.
Proof.
  assert (H : In enrolled_device (at_devices (ow_tables (fst (state_after true enrolled))))) by (vm_compute; auto).
  split; [exact H|].
  destruct (binding_stays_in_tenant sample_settings true sample_tables (state_after true enrolled) enrolled_device 2) as [_ He].
  - exact sample_ok.
  - apply state_reachable. vm_compute. reflexivity.
  - exact H.
  - reflexivity.
  - exact He.
Defined.

(** The key of another tenant deletes nothing of it. *)
Lemma binding_kept_witness : keeps enrolled_device (ow_tables (fst (begin sample_settings (B_delete_key 2 2) (fst (state_after true enrolled))))).
Proof.
  destruct (binding_kept sample_settings true sample_tables (state_after true enrolled) enrolled_device 2) as (_ & _ & Hc).
  - reflexivity.
  - exact sample_ok.
  - apply state_reachable. vm_compute. reflexivity.
  - vm_compute. auto.
  - reflexivity.
  - apply Hc; discriminate.
Defined.
