(* ===== verification/ChannelKeys.v ===== *)
(** * The keys of the live channels

    In the runs of [HubRuns] with the requests on one key handled one at a time: whose key a
    live channel may hold; in every run: which channel may replace another, and when a device
    is reported down. A disabled key answers as an unknown one. Then what the code allows
    against its rules: two requests on one key crossing each other, the events of a channel
    whose device another key enrolled, and a Microsoft 365 row claimed by an agent. *)

From S2P Require Import Prelude JsString JsValue JsNumber Tenancy Access Query AgentIdentity AgentHub HubRuns HubSafety.

(** ** Live channels *)

Definition live_channel (h : Hub) (ws : Z) (c : Conn) : Prop := hb_conns h !! ws = Some c /\ live c = true /\ hb_byDevice h !! cn_uuid c = Some ws.
(** Every live channel of [h'] is one of [h], of the same device, key and tenant. *)
Definition fewer (h h' : Hub) : Prop :=
  forall ws c', live_channel h' ws c' -> exists c, live_channel h ws c /\ cn_ref c = cn_ref c' /\ cn_uuid c = cn_uuid c'.

Lemma fewer_refl h : fewer h h.
Proof. intros ws c H. eauto. Qed.
Lemma fewer_trans h1 h2 h3 : fewer h1 h2 -> fewer h2 h3 -> fewer h1 h3.
Proof.
  intros H1 H2 ws c H. destruct (H2 ws c H) as (c2 & Hc2 & E2 & U2). destruct (H1 ws c2 Hc2) as (c1 & Hc1 & E1 & U1).
  exists c1. split; [done|]. split; congruence.
Qed.
Lemma fewer_same h h' : hb_conns h' = hb_conns h -> hb_byDevice h' = hb_byDevice h -> fewer h h'.
Proof. intros E1 E2 ws c (Hc & Hl & Hd). exists c. unfold live_channel. rewrite <- E1, <- E2. auto. Qed.
Lemma fewer_on_conn ws f h : (forall c, cn_ref (f c) = cn_ref c /\ cn_uuid (f c) = cn_uuid c /\ (live (f c) = true -> live c = true)) -> fewer h (on_conn ws f h).
Proof.
  intros Hf ws' c' (Hc & Hl & Hd). cbn in Hc, Hd. destruct (decide (ws = ws')) as [<-|Hne].
  - rewrite lookup_alter_eq in Hc. destruct (hb_conns h !! ws) as [c|] eqn:E; [|done]. cbn in Hc. injection Hc as <-.
    destruct (Hf c) as (E1 & E2 & E3). exists c. split; [|done]. split; [done|]. split; [auto|]. by rewrite <- E2.
  - rewrite lookup_alter_ne in Hc by done. exists c'. split; [|done]. done.
Qed.
Lemma live_field f : (forall c, cn_closing (f c) = cn_closing c) -> (forall c, cn_open (f c) = cn_open c) -> forall c, live (f c) = true -> live c = true.
Proof. intros H1 H2 c. unfold live. by rewrite H1, H2. Qed.
Lemma shut_not_live c : live (set_shut c) = false.
Proof. unfold live. cbn. by rewrite andb_false_r. Qed.

(** After a teardown the live channels are the others. *)
Lemma disconnect_live p h ws c : live_channel (disconnectWhere p h) ws c -> live_channel h ws c /\ p ws c = false.
Proof.
  intros (Hc & Hl & Hd). cbn in Hc, Hd. rewrite map_lookup_imap in Hc. destruct (hb_conns h !! ws) as [c0|] eqn:E; [|done]. cbn in Hc. injection Hc as <-.
  destruct (registered h ws c0 && p ws c0) eqn:Hr; [done|]. split; [done|]. destruct (p ws c0); [|done].
  rewrite andb_true_r in Hr. unfold registered in Hr. by rewrite bool_decide_eq_false in Hr.
Qed.
Lemma fewer_disconnect p h : fewer h (disconnectWhere p h).
Proof. intros ws c [H _]%disconnect_live. eauto. Qed.
Lemma fewer_unregister ws h : fewer h (fst (_unregister ws h)).
Proof.
  unfold _unregister. destruct (hb_conns h !! ws) as [c|]; [|apply fewer_refl]. destruct (registered h ws c); [|apply fewer_refl].
  intros ws' c' (Hc & Hl & Hd). cbn in Hc, Hd. exists c'. split; [|done]. split; [done|]. split; [done|]. by apply lookup_delete_Some in Hd as [_ Hd].
Qed.
Lemma fewer_reply ws r h : fewer h (heartbeat_reply ws r h).
Proof.
  unfold heartbeat_reply, disconnectConn. assert (H1 : fewer h (on_conn ws set_has_row h)) by by apply fewer_on_conn.
  assert (H2 : forall h, fewer h (on_conn ws (set_device None) h)) by by intros; apply fewer_on_conn.
  destruct r; [done|..]; (eapply fewer_trans; [exact H1|]); [apply H2| |apply fewer_disconnect].
  eapply fewer_trans; [apply H2|apply fewer_disconnect].
Qed.
Lemma fewer_cache id ws w : fewer (ow_hub w) (ow_hub (cache_device id ws w)).
Proof. destruct id; [by apply fewer_on_conn|apply fewer_refl]. Qed.
Lemma fewer_grace uuid h : fewer h (fst (grace_over uuid h)).
Proof. unfold grace_over. repeat case_match; by apply fewer_same. Qed.
Lemma fewer_arm uuid d t h : fewer h (arm_timer uuid d t h).
Proof. unfold arm_timer. by case_match; apply fewer_same. Qed.
Lemma fewer_answer c id h : fewer h (fst (_resolveFirewallResponse c id h)).
Proof. unfold _resolveFirewallResponse. repeat case_match; by apply fewer_same. Qed.
Lemma fewer_wait uuid cmd h : fewer h (fst (pushAndWait uuid cmd h)).
Proof. unfold pushAndWait. repeat case_match; by apply fewer_same. Qed.
#[local] Hint Resolve fewer_refl fewer_disconnect fewer_unregister fewer_reply fewer_cache fewer_grace fewer_arm fewer_answer fewer_wait : core.

Lemma previous_same uuid h : hb_byDevice (close_previous uuid h) = hb_byDevice h /\ hb_revokedKeys (close_previous uuid h) = hb_revokedKeys h /\
  hb_revokedTenants (close_previous uuid h) = hb_revokedTenants h.
Proof. unfold close_previous. by repeat case_match. Qed.
Lemma fewer_previous uuid h : fewer h (close_previous uuid h).
Proof. unfold close_previous. repeat case_match; auto. apply fewer_on_conn. intros c'. split; [done|]. split; [done|]. by rewrite shut_not_live. Qed.

(** A registration adds the channel of its upgrade and nothing else. *)
Lemma register_live uuid ten k ip ws rl up h h' r ws' c' : register uuid ten k ip ws rl up h = (h', r) -> live_channel h' ws' c' ->
  (exists c, live_channel h ws' c /\ cn_ref c = cn_ref c' /\ cn_uuid c = cn_uuid c') \/
  (r = Registered /\ c' = new_conn uuid ten k ip rl /\ k ∉ hb_revokedKeys h /\ ten ∉ hb_revokedTenants h /\ hasLiveConflict h uuid ten k = false).
Proof.
  unfold register. destruct up; cbn [negb]; [|intros [= <- <-]; eauto 6]. case_bool_decide as Et; [intros [= <- <-]; eauto 6|].
  case_bool_decide as Ek; [intros [= <- <-]; eauto 6|]. destruct (hasLiveConflict h uuid ten k) eqn:Ec; [intros [= <- <-]; eauto 6|].
  intros [= <- <-] (Hc & Hl & Hd). cbn in Hc, Hd. set (h1 := close_previous uuid (with_timers (delete uuid (hb_timers h)) h)) in *.
  destruct (decide (ws = ws')) as [<-|Hne].
  - rewrite lookup_insert_eq in Hc. injection Hc as <-. auto 8.
  - left. rewrite lookup_insert_ne in Hc by done.
    destruct (decide (uuid = cn_uuid c')) as [->|Hu]; [rewrite lookup_insert_eq in Hd; congruence|]. rewrite lookup_insert_ne in Hd by done.
    destruct (fewer_previous uuid (with_timers (delete uuid (hb_timers h)) h) ws' c') as (c & (Hc1 & Hl1 & Hd1) & E); [by split|].
    exists c. split; [|done]. by split.
Qed.
Lemma register_revoked uuid ten k ip ws rl up h : hb_revokedKeys (fst (register uuid ten k ip ws rl up h)) = hb_revokedKeys h /\
  hb_revokedTenants (fst (register uuid ten k ip ws rl up h)) = hb_revokedTenants h.
Proof.
  unfold register. repeat (destruct (_ : bool); [done|]). cbn. by destruct (previous_same uuid (with_timers (delete uuid (hb_timers h)) h)) as (_ & -> & ->).
Qed.

(** ** Where a live channel comes from *)

(** A channel of the upgrade [u], which the hub did not refuse. *)
Definition admitted (h : Hub) (u : Upgrade) (c : Conn) : Prop :=
  cn_ref c = ug_key u /\ cn_uuid c = ug_uuid u /\ key_id (ug_key u) ∉ hb_revokedKeys h /\ key_tenant (ug_key u) ∉ hb_revokedTenants h /\
  hasLiveConflict h (ug_uuid u) (key_tenant (ug_key u)) (key_id (ug_key u)) = false.
Definition live_after (h h' : Hub) (u : option Upgrade) : Prop :=
  forall ws c', live_channel h' ws c' -> (exists c, live_channel h ws c /\ cn_ref c = cn_ref c' /\ cn_uuid c = cn_uuid c') \/
    (exists x, u = Some x /\ admitted h x c').
Lemma fewer_after h h' u : fewer h h' -> live_after h h' u.
Proof. intros Hf ws c' Hl. left. by apply Hf. Qed.

Lemma finish_live u v w : live_after (ow_hub w) (ow_hub (fst (finish_upgrade u v w))) (Some u).
Proof.
  unfold finish_upgrade. destruct (negb _); [by apply fewer_after|]. destruct v as [rl|a b]; [|by apply fewer_after].
  destruct (register _ _ _ _ _ _ _ _) as [h r] eqn:Er. intros ws c' Hl.
  assert (Hh : ow_hub (fst (match r with
    | Registered => (send (S_upgrade (ug_ws u) (Accepted rl)) (with_hub (fun _ => h) w), Some (C_drain (ug_ws u)))
    | Gone => (with_hub (fun _ => h) w, None)
    | Closed code _ => (send (S_close (ug_ws u) code) (send (S_upgrade (ug_ws u) (Accepted rl)) (with_hub (fun _ => h) w)), None)
    end)) = h) by by destruct r.
  rewrite Hh in Hl. destruct (register_live _ _ _ _ _ _ _ _ _ _ _ _ Er Hl) as [H|(_ & -> & Hk & Ht & Hc)]; [by left|].
  right. exists u. split; [done|]. split; [by destruct (ug_key u)|done].
Qed.

Lemma claim_next_hub {T} mode key row w (f : bool -> T) x : ow_hub (fst (claim_next mode key row w f x)) = ow_hub w.
Proof. unfold claim_next. by destruct (ensure_claim _ _ _ _) as [t [b| |]]. Qed.

Lemma fewer_close p h h0 : hb_conns h0 = hb_conns h -> hb_byDevice h0 = hb_byDevice h -> fewer h (disconnectWhere p h0).
Proof. intros E1 E2. eapply fewer_trans; [by apply fewer_same|apply fewer_disconnect]. Qed.

Lemma advance_live st tk w : live_after (ow_hub w) (ow_hub (fst (advance st tk w))) (upgrade_of tk).
Proof.
  destruct tk; cbn [advance advance_upgrade advance_push advance_frame advance_admin upgrade_of];
    try apply finish_live; try (apply fewer_after; rewrite ?claim_next_hub; cbn; solve [auto]).
  - destruct (live_conflict _ _ _); [apply finish_live|by apply fewer_after].
  - pose proof (claim_next_hub (st_mode st) (ug_key u) row w (fun ok => U_row u (ok, Some row)) (U_fresh u row)) as E.
    destruct (claim_next _ _ _ _ _ _) as [w1 [x|]]; cbn [fst] in *; rewrite <- E; [by apply fewer_after|apply finish_live].
  - destruct (row_verdict v); [apply finish_live|]. destruct (0 <? st_cap st); [by apply fewer_after|apply finish_live].
  - apply fewer_after. by destruct (findDeviceBindingByUuid _ _).
  - apply fewer_after. by destruct (enrol _ _ _ _ _ _) as [t1 [b|]].
  - apply fewer_after. destruct (pu_ws p); [apply fewer_reply|done].
  - apply fewer_after. by destruct (_ && _).
  - apply fewer_after. destruct (conn_of ws w); [by apply fewer_on_conn|done].
  - apply fewer_after. destruct (conn_of ws w) as [c|]; [|done]. destruct (cn_device c), (cn_rowless c); auto. apply fewer_cache.
  - apply fewer_after. by destruct (conn_of ws w ≫= cn_device).
  - apply fewer_after. destruct (conn_of ws w); [|done]. by case_match.
  - apply fewer_after. by apply fewer_close.
  - apply fewer_after. by apply fewer_same.
  - apply fewer_after. by apply fewer_close.
  - apply fewer_after, fewer_disconnect.
Qed.

Lemma begin_fewer st c w : fewer (ow_hub w) (ow_hub (fst (begin st c w))).
Proof.
  destruct c; cbn [begin]; auto.
  - by destruct (request_key _ _ _) as [v|[key u]].
  - destruct (agentAuth _ _); [|auto]. by destruct (device_uuid_text uuid).
  - destruct (agentAuth _ _); [|auto]. by destruct (_ ≫= _).
  - destruct (conn_of ws w) as [c|]; [|auto]. destruct (live c); [|auto]. destruct f as [h| |[|n]|id]; cbn [begin_frame]; auto.
    pose proof (fewer_answer c id (ow_hub w)). by destruct (_resolveFirewallResponse c id (ow_hub w)) as [h [cmd|]].
  - by destruct (key_taken _ _).
  - by destruct (read_key_update _ _ _ _).
  - by destruct (remove_key id tenant (ow_tables w)).
  - by destruct (set_device_status id tenant status group (ow_tables w)).
  - apply fewer_wait.
Qed.
Lemma env_fewer e w : fewer (ow_hub w) (ow_hub (fst (environment e w))).
Proof.
  destruct e; cbn [environment]; auto.
  - apply fewer_on_conn. intros c. split; [done|]. split; [done|]. by rewrite shut_not_live.
  - destruct (conn_of ws w) as [c|]; [|auto]. destruct (cn_open c); [auto|]. pose proof (fewer_unregister ws (ow_hub w)).
    by destruct (_unregister ws (ow_hub w)) as [h [[[u d] t]|]].
  - destruct (conn_of ws w) as [c|]; [|auto]. destruct (cn_seen c); [auto|apply fewer_disconnect].
  - pose proof (fewer_grace uuid (ow_hub w)). by destruct (grace_over uuid (ow_hub w)) as [h [d|]].
  - by apply fewer_same.
  - by destruct (bool_decide _).
Qed.

Lemma step_live st serial w ts w' ts' : step st serial (w, ts) (w', ts') -> exists u, live_after (ow_hub w) (ow_hub w') u /\
  match u with Some x => exists tk, In tk ts /\ upgrade_of tk = Some x | None => True end.
Proof.
  inversion 1; subst.
  - exists None. split; [|done]. apply fewer_after, begin_fewer.
  - exists (upgrade_of tk). split; [apply advance_live|]. destruct (upgrade_of tk) eqn:E; [|done]. exists tk. split; [apply in_elt|done].
  - exists None. split; [|done]. apply fewer_after, env_fewer.
  - exists None. split; [|done]. intros ws c' (Hc & _). cbn in Hc. by rewrite lookup_empty in Hc.
Qed.

(** C22. A live channel is never displaced: whatever step is taken, when a device has a live
    channel before and after it, the two are of the same key and the same tenant, so a second
    agent presenting the uuid with another key gets no channel while the first one lives. *)
Theorem channel_not_displaced st serial w ts w' ts' ws c ws' c' : step st serial (w, ts) (w', ts') ->
  live_channel (ow_hub w) ws c -> live_channel (ow_hub w') ws' c' -> cn_uuid c' = cn_uuid c -> cn_ref c' = cn_ref c.
Proof.
  intros Hs (Hc & Hl & Hd) Hl' Hu. destruct (step_live _ _ _ _ _ _ Hs) as (u & Hlive & _).
  destruct (Hlive ws' c' Hl') as [(c0 & (Hc0 & _ & Hd0) & Er & Eu)|(x & _ & (Er & Eu & _ & _ & Hno))].
  - assert (ws' = ws) as -> by congruence. congruence.
  - assert (Hcur : current (ow_hub w) (ug_uuid x) = Some c) by (unfold current; rewrite <- Eu, Hu, Hd; done).
    unfold hasLiveConflict in Hno. rewrite Hcur in Hno. unfold live in Hl. rewrite Hl in Hno. cbn [andb] in Hno.
    apply orb_false_iff in Hno as [H1%negb_false_iff%Z.eqb_eq H2%negb_false_iff%Z.eqb_eq]. rewrite Er. unfold cn_ref. destruct (ug_key x). cbn in *. congruence.
Qed.

(** ** The keys of the live channels *)

Definition is_row (key : AgentKeyRef) (r : KeyRow) : Prop := ak_id r = key_id key /\ ak_tenant r = key_tenant key.
Definition has_row (t : AgentTables) (key : AgentKeyRef) : Prop := exists r, In r (at_keys t) /\ is_row key r.
Definition active_key (t : AgentTables) (key : AgentKeyRef) : Prop := exists r, In r (at_keys t) /\ is_row key r /\ ak_active r = true.
(** The key or the tenant is refused by the hub, or a task is about to have it refused. *)
Definition tenant_gone (h : Hub) (ts : list Task) (t : Z) : Prop := t ∈ hb_revokedTenants h \/ In (X_tenant t) ts.
Definition key_closing (h : Hub) (ts : list Task) (k : Z) : Prop := k ∈ hb_revokedKeys h \/ In (K_close k) ts.

(** The keys of the live channels and of the upgrades on their way. *)
Definition held (s : World * list Task) (key : AgentKeyRef) : Prop :=
  (exists ws c, live_channel (ow_hub (fst s)) ws c /\ cn_ref c = key) \/ (exists tk u, In tk (snd s) /\ upgrade_of tk = Some u /\ ug_key u = key).
Definition is_key_task (tk : Task) : bool := bool_decide (is_Some (key_of tk)).
Definition key_tasks (ts : list Task) : list Task := List.filter is_key_task ts.

Record keys_inv (s : World * list Task) : Prop := {
  iv_ok : state_ok s;
  iv_one : NoDup (omap key_of (snd s));
  iv_known : forall id ten u b n, In (K_set id ten u b n) (snd s) -> known (ow_tables (fst s)) {| key_id := id; key_tenant := ten |};
  iv_live : forall ws c, live_channel (ow_hub (fst s)) ws c -> cn_key c ∉ hb_revokedKeys (ow_hub (fst s)) /\ cn_tenant c ∉ hb_revokedTenants (ow_hub (fst s));
  iv_auth : forall key, held s key ->
    active_key (ow_tables (fst s)) key \/ tenant_gone (ow_hub (fst s)) (snd s) (key_tenant key) \/ key_closing (ow_hub (fst s)) (snd s) (key_id key);
  iv_allow : forall key, held s key -> In (K_allow (key_id key)) (snd s) ->
    active_key (ow_tables (fst s)) key \/ tenant_gone (ow_hub (fst s)) (snd s) (key_tenant key);
  iv_set : forall key ten u b n, held s key -> In (K_set (key_id key) ten u b n) (snd s) -> ku_active u = Some true ->
    (has_row (ow_tables (fst s)) key /\ ten = key_tenant key) \/ tenant_gone (ow_hub (fst s)) (snd s) (key_tenant key)
}.

Lemma omap_key_tasks ts : omap key_of ts = omap key_of (key_tasks ts).
Proof.
  induction ts as [|tk ts IH]; [done|]. unfold key_tasks in *. cbn. unfold is_key_task at 1. destruct (key_of tk) eqn:E.
  - rewrite bool_decide_true by eauto. cbn. by rewrite E, IH.
  - rewrite bool_decide_false by (intros [? ?]; congruence). done.
Qed.
Lemma key_tasks_app a b : key_tasks (a ++ b) = key_tasks a ++ key_tasks b.
Proof. apply List.filter_app. Qed.
Lemma in_key_tasks tk ts : is_Some (key_of tk) -> (In tk (key_tasks ts) <-> In tk ts).
Proof. intros H. unfold key_tasks. rewrite filter_In. unfold is_key_task. rewrite bool_decide_true by done. tauto. Qed.
Lemma same_key_tasks tk ts ts' : is_Some (key_of tk) -> key_tasks ts' = key_tasks ts -> In tk ts' -> In tk ts.
Proof. intros Hk E H. apply in_key_tasks; [done|]. rewrite <- E. by apply in_key_tasks. Qed.

(** The rows of a key stay, unless its tenant goes. *)
Definition rows_stay (s s' : World * list Task) (key : AgentKeyRef) : Prop :=
  (active_key (ow_tables (fst s)) key -> active_key (ow_tables (fst s')) key \/ tenant_gone (ow_hub (fst s')) (snd s') (key_tenant key)) /\
  (has_row (ow_tables (fst s)) key -> has_row (ow_tables (fst s')) key \/ tenant_gone (ow_hub (fst s')) (snd s') (key_tenant key)).

(** A step that is not a key's: the key tasks and the refusals stay, the rows of the keys keep
    their activity, and whatever becomes held holds an active key. *)
Lemma keys_frame s s' : keys_inv s -> state_ok s' -> key_tasks (snd s') = key_tasks (snd s) ->
  (forall key, held s' key -> held s key \/ active_key (ow_tables (fst s')) key) ->
  (forall key, rows_stay s s' key) ->
  (forall key, known (ow_tables (fst s)) key -> known (ow_tables (fst s')) key) ->
  hb_revokedKeys (ow_hub (fst s')) = hb_revokedKeys (ow_hub (fst s)) ->
  (forall t, tenant_gone (ow_hub (fst s)) (snd s) t -> tenant_gone (ow_hub (fst s')) (snd s') t) ->
  (forall ws c, live_channel (ow_hub (fst s')) ws c -> cn_key c ∉ hb_revokedKeys (ow_hub (fst s')) /\ cn_tenant c ∉ hb_revokedTenants (ow_hub (fst s'))) ->
  keys_inv s'.
Proof.
  intros [I1 I2 I3 I4 I5 I6 I7] Hok Ht Hheld Hrows Hknown Hrev Hgone Hlive.
  assert (Hin : forall tk, is_Some (key_of tk) -> In tk (snd s') -> In tk (snd s)) by (intros tk Hk; by apply same_key_tasks).
  assert (Hin' : forall tk, is_Some (key_of tk) -> In tk (snd s) -> In tk (snd s')) by (intros tk Hk; by apply same_key_tasks).
  assert (Hkn : forall id ten u b n, In (K_set id ten u b n) (snd s') -> known (ow_tables (fst s')) {| key_id := id; key_tenant := ten |})
    by (intros; eapply Hknown, I3, Hin; [eauto|done]).
  split; [done| |done|done| | |].
  - rewrite omap_key_tasks, Ht, <- omap_key_tasks. done.
  - intros key [H|H]%Hheld; [|by left]. destruct (I5 key H) as [A|[A|[A|A]]].
    + destruct (proj1 (Hrows key) A); auto.
    + right. left. by apply Hgone.
    + right. right. left. by rewrite Hrev.
    + right. right. right. apply Hin'; [by eexists|done].
  - intros key [H|H]%Hheld Hk; [|by left]. destruct (I6 key H) as [A|A]; [apply Hin; [by eexists|done]|by apply (Hrows key)|right; by apply Hgone].
  - intros key ten u b n [H|H]%Hheld Hk Hu.
    + destruct (I7 key ten u b n H) as [[A E]|A]; [apply Hin; [by eexists|done]|done| |right; by apply Hgone].
      destruct (proj2 (Hrows key) A); auto.
    + left. destruct H as (r & Hr & [E1 E2] & _). split; [exists r; by split|]. destruct (Hkn _ _ _ _ _ Hk) as [_ Hkn0].
      rewrite <- E2. symmetry. by apply (Hkn0 r).
Qed.

Lemma stay_keys s s' key : at_keys (ow_tables (fst s')) = at_keys (ow_tables (fst s)) -> rows_stay s s' key.
Proof. intros E. unfold rows_stay, active_key, has_row. rewrite E. tauto. Qed.
Lemma stay_grow s s' key : (forall r, In r (at_keys (ow_tables (fst s))) ->
  exists r', In r' (at_keys (ow_tables (fst s'))) /\ ak_id r' = ak_id r /\ ak_tenant r' = ak_tenant r /\ ak_active r' = ak_active r) -> rows_stay s s' key.
Proof.
  intros H. split.
  - intros (r & Hr & [E1 E2] & Ha). left. destruct (H r Hr) as (r' & Hr' & F1 & F2 & F3). exists r'. split; [done|]. split; [split|]; congruence.
  - intros (r & Hr & [E1 E2]). left. destruct (H r Hr) as (r' & Hr' & F1 & F2 & F3). exists r'. split; [done|]. split; congruence.
Qed.

(** *** What a part of a task leaves of the keys *)

Lemma rows_after_keys st tk t : (forall id ten u b n, tk <> K_set id ten u b n) -> at_keys (rows_after st tk t) = at_keys t.
Proof.
  assert (Hc : forall key row, at_keys (fst (claim_binding key row t)) = at_keys t) by (intros; unfold claim_binding; repeat case_match; done).
  assert (He : forall mode key row, at_keys (fst (ensure_claim mode key row t)) = at_keys t) by (intros; unfold ensure_claim; repeat case_match; done || apply Hc).
  intros Hn. destruct tk; cbn [rows_after]; try done; try apply He.
  - unfold enrol. destruct (bool_decide _); [done|]. destruct (negb _); [done|]. by destruct (match group with Some _ => _ | None => _ end).
  - by exfalso; eapply Hn.
Qed.

Lemma finish_revoked u v w : hb_revokedKeys (ow_hub (fst (finish_upgrade u v w))) = hb_revokedKeys (ow_hub w) /\
  hb_revokedTenants (ow_hub (fst (finish_upgrade u v w))) = hb_revokedTenants (ow_hub w).
Proof.
  unfold finish_upgrade. destruct (negb _); [done|]. destruct v as [rl|]; [|done].
  pose proof (register_revoked (ug_uuid u) (key_tenant (ug_key u)) (key_id (ug_key u)) (ug_ip u) (ug_ws u) rl true (ow_hub w)) as [E1 E2].
  destruct (register _ _ _ _ _ _ _ _) as [h []]; cbn in *; by rewrite E1, E2.
Qed.
Lemma reply_revoked ws r h : hb_revokedKeys (heartbeat_reply ws r h) = hb_revokedKeys h /\ hb_revokedTenants (heartbeat_reply ws r h) = hb_revokedTenants h.
Proof. by destruct r. Qed.
Lemma cache_revoked id ws w : hb_revokedKeys (ow_hub (cache_device id ws w)) = hb_revokedKeys (ow_hub w) /\
  hb_revokedTenants (ow_hub (cache_device id ws w)) = hb_revokedTenants (ow_hub w).
Proof. by destruct id. Qed.

Definition same_refusals (h h' : Hub) : Prop := hb_revokedKeys h' = hb_revokedKeys h /\ hb_revokedTenants h' = hb_revokedTenants h.
Lemma advance_revoked st tk w : is_key_task tk = false -> (forall t, tk <> X_tenant t) -> same_refusals (ow_hub w) (ow_hub (fst (advance st tk w))).
Proof.
  intros Hk Hx. destruct tk; cbn [advance advance_upgrade advance_push advance_frame advance_admin]; try done;
    try apply finish_revoked; unfold same_refusals; rewrite ?claim_next_hub; cbn [fst]; try apply cache_revoked; try done.
  - destruct (live_conflict _ _ _); [apply finish_revoked|done].
  - pose proof (claim_next_hub (st_mode st) (ug_key u) row w (fun ok => U_row u (ok, Some row)) (U_fresh u row)) as E.
    destruct (claim_next _ _ _ _ _ _) as [w1 [x|]]; cbn [fst] in *; rewrite <- E; [done|apply finish_revoked].
  - destruct (row_verdict v); [apply finish_revoked|]. destruct (0 <? st_cap st); [done|apply finish_revoked].
  - by destruct (findDeviceBindingByUuid _ _).
  - by destruct (enrol _ _ _ _ _ _) as [t1 [b|]].
  - destruct (pu_ws p); [apply reply_revoked|done].
  - by destruct (_ && _).
  - by destruct (conn_of ws w).
  - destruct (conn_of ws w) as [c|]; [|done]. destruct (cn_device c), (cn_rowless c); try done. apply cache_revoked.
  - by destruct (conn_of ws w ≫= cn_device).
  - destruct (conn_of ws w); [|done]. by case_match.
  - by exfalso; eapply Hx.
  - cbn. unfold arm_timer. by destruct (is_open _ _).
Qed.

Definition plain (tk : Task) : Prop := upgrade_of tk = None /\ is_key_task tk = false.
Definition follows (tk x : Task) : Prop := (forall u, upgrade_of x = Some u -> upgrade_of tk = Some u) /\ (is_key_task tk = false -> is_key_task x = false).
Lemma plain_follows tk x : plain x -> follows tk x.
Proof. intros [E1 E2]. split; [intros u; by rewrite E1|done]. Qed.

Lemma finish_tasks u v w x : snd (finish_upgrade u v w) = Some x -> plain x.
Proof.
  unfold finish_upgrade. destruct (negb _); [done|]. destruct v; [|done]. destruct (register _ _ _ _ _ _ _ _) as [h []]; cbn; try done. by intros [= <-].
Qed.
Lemma claim_next_tasks {T} mode key row w (f : bool -> T) y x : snd (claim_next mode key row w f y) = Some x -> (exists b, x = f b) \/ x = y.
Proof. unfold claim_next. destruct (ensure_claim _ _ _ _) as [t [b| |]]; cbn; intros [= <-]; eauto. Qed.
Lemma push_checked_plain p row b : plain (push_checked p row b).
Proof. by destruct b. Qed.
#[local] Hint Resolve plain_follows finish_tasks push_checked_plain : core.

Lemma advance_follows st tk w x : snd (advance st tk w) = Some x -> follows tk x.
Proof.
  destruct tk; cbn [advance advance_upgrade advance_push advance_frame advance_admin]; try (intros H; apply plain_follows; exact (finish_tasks _ _ _ _ H)); cbn; try done.
  all: try (intros [= <-]; by apply plain_follows).
  - destruct (live_conflict _ _ _); [eauto|]. cbn. intros [= <-]. by destruct (findDeviceBindingByUuid _ _).
  - pose proof (claim_next_tasks (st_mode st) (ug_key u) row w (fun ok => U_row u (ok, Some row)) (U_fresh u row)) as H.
    destruct (claim_next _ _ _ _ _ _) as [w1 [y|]]; cbn in *; [|eauto]. intros [= <-]. by destruct (H y eq_refl) as [[b ->]| ->].
  - by intros [= <-].
  - destruct (row_verdict v); [eauto|]. destruct (0 <? st_cap st); [|eauto]. by intros [= <-].
  - intros [= <-]. destruct (findDeviceBindingByUuid _ _); [done|]. by destruct (0 <? st_cap st).
  - intros [[b ->]| ->]%claim_next_tasks; [eauto|done].
  - destruct (findDeviceBindingByUuid _ _); cbn; by intros [= <-].
  - intros [= <-]. by destruct (_ <=? _).
  - destruct (enrol _ _ _ _ _ _) as [t1 [b|]]; cbn; by intros [= <-].
  - destruct (pu_ws p); [|done]. cbn. intros H. apply plain_follows. repeat case_match; by simplify_eq.
  - intros [[b ->]| ->]%claim_next_tasks; done.
  - destruct (conn_of ws w); [|done]. by intros [= <-].
  - destruct (conn_of ws w) as [c|]; [|done]. destruct (cn_device c), (cn_rowless c); by intros [= <-].
  - destruct (approved_for ws w); [|done]. by intros [= <-].
  - intros H. destruct (ku_active u) as [[]|]; by simplify_eq.
Qed.

Lemma active_row t raw r : findActiveByValue t raw = Some r -> active_key t {| key_id := ak_id r; key_tenant := ak_tenant r |}.
Proof.
  unfold findActiveByValue. destruct (api_key_text raw); [|done]. destruct (List.find _ _) as [r'|] eqn:Ef; [|done].
  destruct (ak_active r') eqn:Ea; [|done]. intros [= <-]. apply find_some in Ef as [Hin _]. exists r'. done.
Qed.
Lemma request_active apiKey uuid t key u : request_key apiKey uuid t = inr (key, u) -> active_key t key.
Proof.
  unfold request_key. destruct apiKey as [| | | |x| |]; try done. destruct x as [|c x]; [done|].
  destruct (api_key_text _); [|done]. destruct (device_uuid_text uuid); [|done].
  destruct (findActiveByValue _ _) eqn:E; [|done]. intros [= <- _]. by eapply active_row.
Qed.

Lemma disconnect_plain us x : In x (then_disconnect us) -> plain x.
Proof. intros [u [<- _]]%in_map_iff. done. Qed.
Lemma begin_tasks st c w x : In x (snd (begin st c w)) -> (forall u, upgrade_of x = Some u -> active_key (ow_tables (fst (begin st c w))) (ug_key u)) /\
  (key_asked c = None -> is_key_task x = false).
Proof.
  assert (Hp : plain x -> (forall u, upgrade_of x = Some u -> active_key (ow_tables (fst (begin st c w))) (ug_key u)) /\ (key_asked c = None -> is_key_task x = false))
    by (intros [E1 E2]; split; [intros u; by rewrite E1|done]).
  destruct c; cbn [begin] in *; try done.
  - clear Hp. destruct (request_key _ _ _) as [v|[key u]] eqn:E; cbn; [done|]. intros [<-|[]]. cbn. split; [|done]. intros x [= <-]. by eapply request_active.
  - destruct (agentAuth _ _); [|done]. destruct (device_uuid_text uuid); [|done]. intros [<-|[]]. by apply Hp.
  - destruct (agentAuth _ _); [|done]. destruct (_ ≫= _); [|done]. intros [<-|[]]. by apply Hp.
  - destruct (conn_of ws w) as [c|]; [|done]. destruct (live c); [|done]. destruct f as [h| |[|n]|id]; cbn [begin_frame option_list snd]; try done.
    1,2: intros [<-|[]]; by apply Hp.
    + intros [<-|[]]. apply Hp. by destruct (cn_device c).
    + by destruct (_resolveFirewallResponse c id (ow_hub w)) as [h [cmd|]].
  - by destruct (key_taken _ _).
  - destruct (read_key_update _ _ _ _); [done|]. intros [<-|[]]. split; [done|]. cbn. done.
  - destruct (remove_key id tenant (ow_tables w)) as [t ok]. destruct ok; [|done]. intros [<-|[]]. split; done.
  - destruct (set_device_status id tenant status group (ow_tables w)) as [t ok]. cbn. destruct (ok && _); [|done]. intros H. by eapply Hp, disconnect_plain.
  - destruct (releaseKeyBinding id tenant (ow_tables w)) as [t ok]. cbn. destruct ok; [|done]. intros H. by eapply Hp, disconnect_plain.
  - destruct (delete_device id tenant (ow_tables w)) as [t us]. cbn. intros H. by eapply Hp, disconnect_plain.
  - intros [<-|[]]. by apply Hp.
Qed.
Lemma env_plain e w x : snd (environment e w) = Some x -> plain x.
Proof.
  destruct e; cbn [environment]; try done.
  - destruct (conn_of ws w) as [c|]; [|done]. destruct (cn_open c); [done|].
    destruct (_unregister ws (ow_hub w)) as [h [[[u d] t]|]]; [|done]. by intros [= <-].
  - destruct (conn_of ws w) as [c|]; [|done]. by destruct (cn_seen c).
  - by destruct (grace_over uuid (ow_hub w)) as [h [d|]].
  - by destruct (bool_decide _).
Qed.

(** *** Every step keeps the invariant *)

Lemma held_sub w ts w' ts' u : live_after (ow_hub w) (ow_hub w') u -> (forall x, u = Some x -> exists tk, In tk ts /\ upgrade_of tk = Some x) ->
  (forall tk x, In tk ts' -> upgrade_of tk = Some x -> (exists tk0, In tk0 ts /\ upgrade_of tk0 = Some x) \/ active_key (ow_tables w') (ug_key x)) ->
  forall key, held (w', ts') key -> held (w, ts) key \/ active_key (ow_tables w') key.
Proof.
  intros Hl Hu Ht key [(ws & c & Hc & <-)|(tk & x & Hin & Hx & <-)]; cbn in *.
  - destruct (Hl ws c Hc) as [(c0 & Hc0 & <- & _)|(x & -> & (-> & _))]; left; [left; eauto|]. destruct (Hu x eq_refl) as (tk & Hin & Hx). right. eauto.
  - destruct (Ht tk x Hin Hx) as [(tk0 & Hin0 & Hx0)|Ha]; [left; right; eauto|by right].
Qed.
Lemma live_kept h h' u : live_after h h' u -> same_refusals h h' ->
  (forall ws c, live_channel h ws c -> cn_key c ∉ hb_revokedKeys h /\ cn_tenant c ∉ hb_revokedTenants h) ->
  forall ws c, live_channel h' ws c -> cn_key c ∉ hb_revokedKeys h' /\ cn_tenant c ∉ hb_revokedTenants h'.
Proof.
  intros Hl [-> ->] Hi ws c Hc. destruct (Hl ws c Hc) as [(c0 & Hc0 & E & _)|(x & _ & E & _ & Hk & Ht & _)].
  - destruct (Hi ws c0 Hc0). unfold cn_ref in E. injection E as E1 E2. by rewrite <- E1, <- E2.
  - unfold cn_ref in E. rewrite <- E in Hk, Ht. done.
Qed.
Lemma gone_kept h h' ts ts' t : hb_revokedTenants h' = hb_revokedTenants h -> (forall t, In (X_tenant t) ts -> In (X_tenant t) ts') ->
  tenant_gone h ts t -> tenant_gone h' ts' t.
Proof. intros E H [A|A]; [left; by rewrite E|right; auto]. Qed.
Lemma key_tasks_plain l : (forall tk, In tk l -> is_key_task tk = false) -> key_tasks l = [].
Proof. apply filter_none. Qed.

(** The rows of the keys in a step that is not a key's. *)
Lemma env_stay e w ts ts' key : rows_stay (w, ts) (fst (environment e w), ts') key.
Proof.
  destruct e; try (apply stay_keys; cbn [environment fst]; done).
  - apply stay_keys. cbn [environment fst]. destruct (conn_of ws w) as [c|]; [|done]. destruct (cn_open c); [done|].
    by destruct (_unregister ws (ow_hub w)) as [h [[[u d] t]|]].
  - apply stay_keys. cbn [environment fst]. destruct (conn_of ws w) as [c|]; [|done]. by destruct (cn_seen c).
  - apply stay_keys. cbn [environment fst]. by destruct (grace_over uuid (ow_hub w)) as [h [d|]].
  - apply stay_grow. cbn. intros r Hr. eexists. split; [by apply (in_map (fun r => if bool_decide (ak_group r = Some g) then _ else r)); exact Hr|]. by case_match.
  - apply stay_keys. cbn [environment fst]. by destruct (bool_decide _).
Qed.
Lemma env_revoked e w : same_refusals (ow_hub w) (ow_hub (fst (environment e w))).
Proof.
  destruct e; cbn [environment fst]; try done.
  - destruct (conn_of ws w) as [c|]; [|done]. destruct (cn_open c); [done|]. unfold _unregister. destruct (hb_conns (ow_hub w) !! ws) as [c'|]; [|done].
    destruct (registered _ _ _); [|done]. destruct (cn_device c'); [|done]. by destruct (_ && _).
  - destruct (conn_of ws w) as [c|]; [|done]. by destruct (cn_seen c).
  - unfold grace_over. destruct (hb_timers (ow_hub w) !! uuid) as [[d t]|]; [|done]. case_bool_decide; [done|]. by destruct (isConnected _ _).
  - by destruct (bool_decide _).
Qed.
Lemma begin_revoked st c w : same_refusals (ow_hub w) (ow_hub (fst (begin st c w))).
Proof.
  destruct c; cbn [begin fst]; try done.
  - by destruct (request_key _ _ _) as [v|[key u]].
  - destruct (agentAuth _ _); [|done]. by destruct (device_uuid_text uuid).
  - destruct (agentAuth _ _); [|done]. by destruct (_ ≫= _).
  - destruct (conn_of ws w) as [c|]; [|done]. destruct (live c); [|done]. destruct f as [h| |[|n]|id]; cbn [begin_frame]; try done.
    unfold _resolveFirewallResponse. destruct id; try done. destruct (_ <? _)%nat; [done|]. destruct (_ !! _); [|done]. by destruct (String.eqb _ _).
  - by destruct (key_taken _ _).
  - by destruct (read_key_update _ _ _ _).
  - by destruct (remove_key id tenant (ow_tables w)).
  - by destruct (set_device_status id tenant status group (ow_tables w)).
  - unfold same_refusals. cbn. unfold pushAndWait. destruct (current _ _); [by destruct (live _)|done].
Qed.
Lemma begin_stay st c w ts : key_asked c = None -> forall key, rows_stay (w, ts) (fst (begin st c w), ts ++ snd (begin st c w)) key.
Proof.
  intros Hk key. destruct c; try done; try (apply stay_keys; cbn [begin fst]; done).
  - apply stay_keys. cbn [begin fst]. by destruct (request_key _ _ _) as [v|[k u]].
  - apply stay_keys. cbn [begin fst]. destruct (agentAuth _ _); [|done]. by destruct (device_uuid_text uuid).
  - apply stay_keys. cbn [begin fst]. destruct (agentAuth _ _); [|done]. by destruct (_ ≫= _).
  - apply stay_keys. cbn [begin fst]. destruct (conn_of ws w) as [c|]; [|done]. destruct (live c); [|done]. destruct f as [h| |[|n]|id]; cbn [begin_frame]; try done.
    by destruct (_resolveFirewallResponse c id (ow_hub w)) as [h [cmd|]].
  - cbn [begin]. destruct (key_taken _ _); [by apply stay_keys|]. cbn [fst snd].
    assert (E : exists l, at_keys (fst (create_key tenant name group createdBy now value (ow_tables w))) = at_keys (ow_tables w) ++ l).
    { unfold create_key. destruct (parseKeyName name) as [e|n]; [by exists []; rewrite List.app_nil_r|].
      destruct (if is_undefined group then _ else _) as [e|g]; [by exists []; rewrite List.app_nil_r|by eexists]. }
    destruct E as [l E].
    apply stay_grow. cbn [fst snd with_tables ow_tables]. rewrite E. intros r Hr. exists r. rewrite in_app_iff. auto.
  - apply stay_keys. cbn [begin fst]. destruct (status_shape id tenant status group (ow_tables w)) as (f & _ & _ & E).
    destruct (set_device_status id tenant status group (ow_tables w)). cbn in *. by rewrite E.
  - cbn [begin fst snd]. assert (G : key_tenant key = tenant -> tenant_gone (ow_hub w) (ts ++ [X_tenant tenant]) (key_tenant key))
      by (intros ->; right; rewrite in_app_iff; cbn; auto).
    destruct (decide (key_tenant key = tenant)) as [E|Hne]; [split; intros _; right; by apply G|].
    split; [intros (r & Hr & Hk' & Ha)|intros (r & Hr & Hk')]; left; exists r; (split; [|done]); apply filter_In; (split; [done|]);
      destruct Hk' as [_ ->]; apply negb_true_iff, Z.eqb_neq; done.
Qed.

Lemma in_option {A} (o : option A) x : In x (option_list o) <-> o = Some x.
Proof. destruct o; cbn; [|by split]. split; [by intros [->|[]]|intros [= ->]; auto]. Qed.

Lemma frame_env e w ts : keys_inv (w, ts) -> keys_inv (fst (environment e w), ts ++ option_list (snd (environment e w))).
Proof.
  intros Hi. pose proof (iv_ok _ Hi) as [Hw Htk]. pose proof (env_leaves e w Hw) as Hl.
  assert (Hnew : forall x, In x (option_list (snd (environment e w))) -> plain x) by (intros x Hx%in_option; by eapply env_plain).
  eapply keys_frame; [exact Hi|..]; cbn [fst snd].
  - eapply leaves_state; [exact Hl|exact Htk|]. intros x. rewrite in_app_iff. tauto.
  - rewrite key_tasks_app, (key_tasks_plain (option_list _)); [apply List.app_nil_r|]. intros x Hx. by apply Hnew.
  - apply (held_sub w ts _ _ None); [apply fewer_after, env_fewer|done|].
    intros x u [Hx|Hx]%in_app_iff Hu; [left; eauto|]. destruct (Hnew x Hx) as [E _]. congruence.
  - intros key. apply env_stay.
  - intros key. apply known_evolves. apply Hl.
  - apply env_revoked.
  - intros t. apply gone_kept; [apply env_revoked|]. intros t' H. rewrite in_app_iff. auto.
  - apply (live_kept (ow_hub w) _ None); [apply fewer_after, env_fewer|apply env_revoked|apply (iv_live _ Hi)].
Qed.

Lemma frame_call st c w ts : key_asked c = None -> keys_inv (w, ts) -> keys_inv (fst (begin st c w), ts ++ snd (begin st c w)).
Proof.
  intros Hk Hi. pose proof (iv_ok _ Hi) as [Hw Htk]. pose proof (call_leaves st c w Hw) as Hl.
  pose proof (fun key => proj1 (begin_stay st c w ts Hk key)) as Hst. cbn [fst snd] in Hst.
  eapply keys_frame; [exact Hi|..]; cbn [fst snd].
  - eapply leaves_state; [exact Hl|exact Htk|]. intros x. rewrite in_app_iff. tauto.
  - rewrite key_tasks_app, (key_tasks_plain (snd (begin st c w))); [apply List.app_nil_r|]. intros x Hx. by apply (begin_tasks st c w x Hx).
  - apply (held_sub w ts _ _ None); [apply fewer_after, begin_fewer|done|].
    intros x u [Hx|Hx]%in_app_iff Hu; [left; eauto|]. destruct (begin_tasks st c w x Hx) as [E _]. right. by apply E.
  - intros key. by apply begin_stay.
  - intros key. apply known_evolves. apply Hl.
  - apply begin_revoked.
  - intros t. apply gone_kept; [apply begin_revoked|]. intros t' H. rewrite in_app_iff. auto.
  - apply (live_kept (ow_hub w) _ None); [apply fewer_after, begin_fewer|apply begin_revoked|apply (iv_live _ Hi)].
Qed.

Lemma frame_tasks st tk l1 l2 w x u : In x (l1 ++ option_list (snd (advance st tk w)) ++ l2) -> upgrade_of x = Some u ->
  exists tk0, In tk0 (l1 ++ tk :: l2) /\ upgrade_of tk0 = Some u.
Proof.
  intros Hx Hu. apply in_app_iff in Hx as [Hx|Hx]; [exists x; rewrite in_app_iff; auto|].
  apply in_app_iff in Hx as [Hx%in_option|Hx]; [|exists x; rewrite in_app_iff; cbn; auto].
  exists tk. split; [apply in_elt|]. by apply (advance_follows _ _ _ _ Hx).
Qed.
Lemma advance_held st tk l1 l2 w key : held (fst (advance st tk w), l1 ++ option_list (snd (advance st tk w)) ++ l2) key ->
  held (w, l1 ++ tk :: l2) key \/ active_key (ow_tables (fst (advance st tk w))) key.
Proof.
  apply (held_sub w _ _ _ (upgrade_of tk)); [apply advance_live| |].
  - intros x E. exists tk. split; [apply in_elt|done].
  - intros x u Hx Hu. left. by eapply frame_tasks.
Qed.
Lemma advance_state st tk l1 l2 w : state_ok (w, l1 ++ tk :: l2) -> state_ok (fst (advance st tk w), l1 ++ option_list (snd (advance st tk w)) ++ l2).
Proof.
  intros [Hw Ht]. cbn in *. eapply leaves_state; [apply advance_leaves; [done|apply Ht, in_elt]|exact Ht|]. intros x. rewrite !in_app_iff. cbn. tauto.
Qed.
Lemma key_tasks_mid st tk l1 l2 w : is_key_task tk = false -> key_tasks (l1 ++ option_list (snd (advance st tk w)) ++ l2) = key_tasks (l1 ++ tk :: l2).
Proof.
  intros Hk. rewrite !key_tasks_app. replace (key_tasks (tk :: l2)) with (key_tasks l2) by (unfold key_tasks; cbn; by rewrite Hk).
  rewrite (key_tasks_plain (option_list _)); [done|]. intros x Hx%in_option. by apply (advance_follows _ _ _ _ Hx).
Qed.
Lemma in_mid {A} (x y : A) l1 l2 m : In x (l1 ++ y :: l2) -> x <> y -> In x (l1 ++ m ++ l2).
Proof. rewrite !in_app_iff. cbn. intuition congruence. Qed.

(** The deletion of a tenant reaches the hub: its channels close. *)
Lemma close_tenant_live t0 h ws c : (forall ws c, live_channel h ws c -> cn_key c ∉ hb_revokedKeys h /\ cn_tenant c ∉ hb_revokedTenants h) ->
  live_channel (closeByTenant t0 h) ws c -> cn_key c ∉ hb_revokedKeys (closeByTenant t0 h) /\ cn_tenant c ∉ hb_revokedTenants (closeByTenant t0 h).
Proof.
  intros Hi [Hl Hp%Z.eqb_neq]%disconnect_live. destruct (Hi ws c) as [H1 H2]; [done|]. split; [done|]. cbn. set_solver.
Qed.

Definition deletes_tenant (tk : Task) : bool := match tk with X_tenant _ => true | _ => false end.
Lemma task_revoked st tk w : is_key_task tk = false -> deletes_tenant tk = false -> same_refusals (ow_hub w) (ow_hub (fst (advance st tk w))).
Proof. intros H1 H2. apply advance_revoked; [done|]. by intros t ->. Qed.

Lemma frame_task st tk l1 l2 w : is_key_task tk = false -> keys_inv (w, l1 ++ tk :: l2) ->
  keys_inv (fst (advance st tk w), l1 ++ option_list (snd (advance st tk w)) ++ l2).
Proof.
  intros Hk Hi. pose proof (iv_ok _ Hi) as Hok. pose proof Hok as [Hw Ht]. cbn [fst snd] in *.
  assert (Hl : leaves w (fst (advance st tk w)) (option_list (snd (advance st tk w)))) by (apply advance_leaves; [done|apply Ht, in_elt]).
  eapply keys_frame; [exact Hi|..]; cbn [fst snd].
  - by apply advance_state.
  - by apply key_tasks_mid.
  - apply advance_held.
  - intros key. apply stay_keys. cbn [fst]. rewrite advance_rows. apply rows_after_keys. by intros ????? ->.
  - intros key. apply known_evolves. apply Hl.
  - destruct (deletes_tenant tk) eqn:Hx; [by destruct tk|by apply task_revoked].
  - intros t. destruct (deletes_tenant tk) eqn:Hx.
    + destruct tk as [| | | | | | | | | | | | | | | | | | | | | | | | | | |t0| |]; try done. intros [A|A]; [left; cbn; set_solver|].
      destruct (decide (t = t0)) as [->|Hne]; [left; cbn; set_solver|right; eapply in_mid; [exact A|congruence]].
    + apply gone_kept; [by apply task_revoked|]. intros t' H. eapply in_mid; [exact H|]. by intros <-.
  - destruct (deletes_tenant tk) eqn:Hx.
    + destruct tk as [| | | | | | | | | | | | | | | | | | | | | | | | | | |t0| |]; try done. intros ws c. apply close_tenant_live, (iv_live _ Hi).
    + eapply live_kept; [apply advance_live|by apply task_revoked|apply (iv_live _ Hi)].
Qed.

(** *** The requests on a key *)

Lemma held_known s key : state_ok s -> held s key -> known (ow_tables (fst s)) key.
Proof.
  intros [[_ Hc] Ht] [(ws & c & (Hc0 & _) & <-)|(tk & u & Hin & Hu & <-)]; [by apply (Hc ws)|].
  specialize (Ht tk Hin). destruct tk; cbn in *; try done; injection Hu as <-; tauto.
Qed.

(** The only task on its key. *)
Lemma only_task l1 l2 tk x k : NoDup (omap key_of (l1 ++ tk :: l2)) -> key_of tk = Some k -> In x (l1 ++ l2) -> key_of x <> Some k.
Proof.
  intros Hn Hk Hx E. rewrite omap_app in Hn. cbn in Hn. rewrite Hk in Hn. apply NoDup_app in Hn as (_ & H1 & H2). apply NoDup_cons in H2 as [H2 _].
  apply in_app_iff in Hx as [Hx|Hx].
  - apply (H1 k); [|apply list_elem_of_here]. apply list_elem_of_omap. exists x. by rewrite list_elem_of_In.
  - apply H2. apply list_elem_of_omap. exists x. by rewrite list_elem_of_In.
Qed.
Lemma NoDup_mid l1 l2 tk o : NoDup (omap key_of (l1 ++ tk :: l2)) -> (forall x, o = Some x -> key_of x = key_of tk) ->
  NoDup (omap key_of (l1 ++ option_list o ++ l2)).
Proof.
  intros Hn Ho. destruct o as [x|]; cbn [option_list app].
  - rewrite omap_app in *. cbn in *. by rewrite (Ho x eq_refl).
  - rewrite omap_app in *. cbn in Hn. destruct (key_of tk); [|done]. apply NoDup_app in Hn as (H1 & H2 & H3). apply NoDup_cons in H3 as [_ H3].
    apply NoDup_app. split; [done|]. split; [|done]. intros y Hy Hy2. apply (H2 y Hy). by apply list_elem_of_further.
Qed.
Lemma in_sub {A} (x y : A) l1 l2 : In x (l1 ++ l2) -> In x (l1 ++ y :: l2).
Proof. rewrite !in_app_iff. cbn. tauto. Qed.

(** A request on a key reaches the hub. *)
Lemma hub_step st tk f l1 l2 w : advance st tk w = (with_hub f w, None) -> (forall id ten u b n, tk <> K_set id ten u b n) -> (forall t, tk <> X_tenant t) ->
  hb_revokedTenants (f (ow_hub w)) = hb_revokedTenants (ow_hub w) -> keys_inv (w, l1 ++ tk :: l2) ->
  (forall ws c, live_channel (f (ow_hub w)) ws c -> cn_key c ∉ hb_revokedKeys (f (ow_hub w)) /\ cn_tenant c ∉ hb_revokedTenants (f (ow_hub w))) ->
  (forall key, held (w, l1 ++ tk :: l2) key -> key_closing (ow_hub w) (l1 ++ tk :: l2) (key_id key) ->
     active_key (ow_tables w) key \/ tenant_gone (ow_hub w) (l1 ++ tk :: l2) (key_tenant key) \/ key_closing (f (ow_hub w)) (l1 ++ l2) (key_id key)) ->
  keys_inv (with_hub f w, l1 ++ l2).
Proof.
  intros Ea Hns Hnx Hrt Hi Hlive Hauth. pose proof Hi as [I1 I2 I3 I4 I5 I6 I7]. cbn [fst snd] in *.
  assert (Hheld : forall key, held (with_hub f w, l1 ++ l2) key -> held (w, l1 ++ tk :: l2) key \/ active_key (ow_tables w) key).
  { intros key H. pose proof (advance_held st tk l1 l2 w key) as Hh. rewrite Ea in Hh. by apply Hh. }
  assert (Hgone : forall t, tenant_gone (ow_hub w) (l1 ++ tk :: l2) t -> tenant_gone (f (ow_hub w)) (l1 ++ l2) t).
  { intros t. apply gone_kept; [done|]. intros t' H. apply (in_mid _ _ _ _ [] H). intros E. by apply (Hnx t'). }
  split; cbn [fst snd with_hub ow_hub ow_tables]; [| | |done| | |].
  - pose proof (advance_state st tk l1 l2 w I1) as H. by rewrite Ea in H.
  - by apply (NoDup_mid l1 l2 tk None).
  - intros k ten u b n H. by eapply I3, in_sub.
  - intros key [H|H]%Hheld; [|by left]. destruct (I5 key H) as [A|[A|A]]; [by left|right; left; auto|].
    destruct (Hauth key H A) as [B|[B|B]]; auto.
  - intros key [H|H]%Hheld Hk; [|by left]. destruct (I6 key H); auto using in_sub.
  - intros key ten u b n [H|H]%Hheld Hk Hu.
    + destruct (I7 key ten u b n H); auto using in_sub.
    + left. destruct H as (r & Hr & [E1 E2] & _). split; [exists r; by split|]. rewrite <- E2. symmetry. eapply (I3 _ _ _ _ _ (in_sub _ _ _ _ Hk)); done.
Qed.

Lemma close_step id l1 l2 w : keys_inv (w, l1 ++ K_close id :: l2) -> keys_inv (with_hub (closeByApiKey id) w, l1 ++ l2).
Proof.
  intros Hi. apply (hub_step {| st_mode := Strict; st_cap := 0 |} (K_close id)); auto; try done.
  - intros ws c [Hl Hp%Z.eqb_neq]%disconnect_live. destruct (iv_live _ Hi ws c) as [H1 H2]; [done|]. split; [|done]. cbn in *. set_solver.
  - intros key _ A. right; right. destruct (decide (key_id key = id)) as [<-|Hne]; [left; cbn; set_solver|].
    destruct A as [A|A]; [left; cbn; set_solver|right; apply (in_mid _ _ _ _ [] A); congruence].
Qed.
Lemma allow_step id l1 l2 w : keys_inv (w, l1 ++ K_allow id :: l2) -> keys_inv (with_hub (allowApiKey id) w, l1 ++ l2).
Proof.
  intros Hi. apply (hub_step {| st_mode := Strict; st_cap := 0 |} (K_allow id)); auto; try done.
  - intros ws c H. destruct (iv_live _ Hi ws c) as [H1 H2]; [done|]. split; [|done]. cbn in *. set_solver.
  - intros key H [A|A]; [|right; right; right; by apply (in_mid _ _ _ _ [] A)].
    destruct (decide (key_id key = id)) as [E|Hne]; [|right; right; left; cbn; set_solver].
    destruct (iv_allow _ Hi key H) as [B|B]; cbn [fst snd] in *; [rewrite E; apply in_elt|by left|by right; left].
Qed.

(** The write of an update. *)
Lemma write_active id ten u by_ now t key : ku_active u <> Some false \/ key_id key <> id -> active_key t key -> active_key (write_key id ten u now by_ t) key.
Proof.
  intros Hu (r & Hr & [E1 E2] & Ha). exists (if own_key id ten r then apply_key_update u now by_ r else r).
  split; [by apply (in_map (fun r => if own_key id ten r then apply_key_update u now by_ r else r))|]. unfold own_key. destruct ((ak_id r =? id) && _) eqn:E; [|done].
  apply andb_prop in E as [E%Z.eqb_eq _]. split; [done|]. cbn. destruct Hu as [Hu|Hu]; [|congruence]. destruct (ku_active u) as [[]|]; done.
Qed.
Lemma write_row id ten u by_ now t key : has_row t key -> has_row (write_key id ten u now by_ t) key.
Proof.
  intros (r & Hr & E1 & E2). exists (if own_key id ten r then apply_key_update u now by_ r else r).
  split; [by apply (in_map (fun r => if own_key id ten r then apply_key_update u now by_ r else r))|]. by case_match.
Qed.
Lemma write_enabled id ten u by_ now t key : ku_active u = Some true -> key_id key = id -> key_tenant key = ten -> has_row t key ->
  active_key (write_key id ten u now by_ t) key.
Proof.
  intros Hu <- <- (r & Hr & E1 & E2). exists (apply_key_update u now by_ r). split.
  - apply in_map_iff. exists r. unfold own_key. rewrite E1, E2, !Z.eqb_refl. done.
  - split; [done|]. cbn. by rewrite Hu.
Qed.

Definition hub_task (id : Z) (u : KeyUpdate) : option Task := match ku_active u with Some false => Some (K_close id) | Some true => Some (K_allow id) | None => None end.
Lemma set_step id ten u by_ now l1 l2 w : keys_inv (w, l1 ++ K_set id ten u by_ now :: l2) ->
  keys_inv (with_tables (write_key id ten u now by_) w, l1 ++ option_list (hub_task id u) ++ l2).
Proof.
  intros Hi. pose proof Hi as [I1 I2 I3 I4 I5 I6 I7]. cbn [fst snd] in *. set (tk := K_set id ten u by_ now) in *.
  set (st := {| st_mode := Strict; st_cap := 0 |}). set (t' := write_key id ten u now by_ (ow_tables w)).
  assert (Hheld : forall key, held (with_tables (write_key id ten u now by_) w, l1 ++ option_list (hub_task id u) ++ l2) key -> held (w, l1 ++ tk :: l2) key \/ active_key t' key)
    by (intros key; apply (advance_held st tk l1 l2 w)).
  assert (Hgone : forall t, tenant_gone (ow_hub w) (l1 ++ tk :: l2) t -> tenant_gone (ow_hub w) (l1 ++ option_list (hub_task id u) ++ l2) t)
    by (intros t; apply gone_kept; [done|]; intros t0 H; by eapply in_mid).
  assert (Hin : forall x, In x (l1 ++ option_list (hub_task id u) ++ l2) -> In x (l1 ++ l2) \/ hub_task id u = Some x).
  { intros x. rewrite !in_app_iff, in_option. tauto. }
  assert (Honly : forall x, In x (l1 ++ l2) -> key_of x <> Some id) by (intros x Hx; by eapply (only_task l1 l2 tk)).
  assert (Hset : forall k ten' u' b n, In (K_set k ten' u' b n) (l1 ++ option_list (hub_task id u) ++ l2) -> In (K_set k ten' u' b n) (l1 ++ tk :: l2)).
  { intros k ten' u' b n [H|H]%Hin; [by apply in_sub|]. unfold hub_task in H. by destruct (ku_active u) as [[]|]. }
  assert (Hkn : forall k ten' u' b n, In (K_set k ten' u' b n) (l1 ++ option_list (hub_task id u) ++ l2) -> known t' {| key_id := k; key_tenant := ten' |}).
  { intros k ten' u' b n H%Hset. eapply known_evolves; [apply write_evolves|]. by eapply I3. }
  split; cbn [fst snd with_tables ow_hub ow_tables]; [| |done|done| | |].
  - apply (advance_state st tk l1 l2 w I1).
  - apply (NoDup_mid l1 l2 tk); [done|]. intros x. unfold hub_task. destruct (ku_active u) as [[]|]; by intros [= <-].
  - intros key [H|H]%Hheld; [|by left].
    destruct (decide (ku_active u = Some false)) as [Eu|Eu]; [destruct (decide (key_id key = id)) as [Ek|Ek]|].
    + right; right; right. rewrite Ek. apply in_app_iff. right. unfold hub_task. rewrite Eu. by left.
    + destruct (I5 key H) as [A|[A|[A|A]]]; [left; apply write_active; auto|right; left; auto|right; right; left; auto|right; right; right; by eapply in_mid].
    + destruct (I5 key H) as [A|[A|[A|A]]]; [left; apply write_active; auto|right; left; auto|right; right; left; auto|right; right; right; by eapply in_mid].
  - intros key [H|H]%Hheld [Hk|Hk]%Hin; [|unfold hub_task in Hk; destruct (ku_active u) as [[]|] eqn:Eu; try done; injection Hk as Hk|by left|by left].
    + assert (Hne : key_id key <> id) by (intros E; apply (Honly _ Hk); cbn; by rewrite E).
      destruct (I6 key H) as [A|A]; [by apply in_sub|left; apply write_active; auto|right; auto].
    + destruct (I7 key ten u by_ now H) as [[A E]|A]; [rewrite <- Hk; apply in_elt|done| |right; auto]. left. by apply write_enabled.
  - intros key ten' u' b n [H|H]%Hheld Hk Hu.
    + destruct (I7 key ten' u' b n H) as [[A E]|A]; [by apply Hset|done|left; split; [by apply write_row|done]|right; auto].
    + left. destruct H as (r & Hr & [E1 E2] & _). split; [exists r; by split|]. rewrite <- E2. symmetry. by eapply (Hkn _ _ _ _ _ Hk).
Qed.

Lemma omap_snoc ts x k : key_of x = Some k -> NoDup (omap key_of ts) -> forallb (fun t => negb (bool_decide (key_of t = Some k))) ts = true ->
  NoDup (omap key_of (ts ++ [x])) /\ forall t, In t ts -> key_of t <> Some k.
Proof.
  intros Hk Hn Hf. rewrite forallb_forall in Hf.
  assert (Ho : forall t, In t ts -> key_of t <> Some k) by (intros t Ht E; specialize (Hf t Ht); by rewrite bool_decide_true in Hf).
  split; [|done]. rewrite omap_app. cbn. rewrite Hk. apply NoDup_app. split; [done|]. split; [|apply NoDup_singleton].
  intros y Hy Hy'. apply list_elem_of_singleton in Hy' as ->. apply list_elem_of_omap in Hy as (t & Ht & E). apply (Ho t); [by apply list_elem_of_In|done].
Qed.
Lemma read_update_row id ten p t u : read_key_update id ten p t = inr u -> exists r, In r (at_keys t) /\ is_row {| key_id := id; key_tenant := ten |} r.
Proof.
  unfold read_key_update. destruct (_ && _); [done|]. destruct (List.find (own_key id ten) (at_keys t)) as [r|] eqn:E; [|done]. intros _.
  apply find_some in E as [Hr Ho]. unfold own_key in Ho. apply andb_prop in Ho as [E1%Z.eqb_eq E2%Z.eqb_eq]. exists r. done.
Qed.

(** A call that adds the only task of its key. *)
Lemma held_call w w' ts x key : ow_hub w' = ow_hub w -> upgrade_of x = None -> held (w', ts ++ [x]) key -> held (w, ts) key.
Proof.
  intros E Hx [(ws & c & Hc & Hk)|(tk & u & [Hin|[<-|[]]]%in_app_iff & Hu & Hk)]; cbn [fst snd] in *; [left|right|congruence].
  - exists ws, c. by rewrite E in Hc.
  - eauto.
Qed.

Lemma update_call st id ten p by_ now w ts : one_at_a_time ts (B_update_key id ten p by_ now) = true -> keys_inv (w, ts) ->
  keys_inv (fst (begin st (B_update_key id ten p by_ now) w), ts ++ snd (begin st (B_update_key id ten p by_ now) w)).
Proof.
  intros Hone Hi. pose proof Hi as [I1 I2 I3 I4 I5 I6 I7]. cbn [begin fst snd] in *.
  destruct (read_key_update id ten p (ow_tables w)) as [e|u] eqn:Er; cbn [fst snd].
  { rewrite List.app_nil_r. by split. }
  destruct (read_update_row _ _ _ _ _ Er) as (row & Hrow & [R1 R2]). cbn in R1, R2.
  destruct (omap_snoc ts (K_set id ten u by_ now) id eq_refl I2 Hone) as [Hn Honly].
  assert (Hheld : forall key, held (w, ts ++ [K_set id ten u by_ now]) key -> held (w, ts) key) by (intros key; by apply held_call).
  assert (Hold : forall x, In x ts -> In x (ts ++ [K_set id ten u by_ now])) by (intros; apply in_app_iff; auto).
  assert (Hgone : forall t, tenant_gone (ow_hub w) ts t -> tenant_gone (ow_hub w) (ts ++ [K_set id ten u by_ now]) t) by (intros t; by apply gone_kept; auto).
  assert (Hkrow : known (ow_tables w) {| key_id := id; key_tenant := ten |}).
  { destruct I1 as [[H1 _] _]. split; [cbn; rewrite <- R1; by apply ok_key_ids|]. intros r2 Hr2 E. cbn in *.
    rewrite <- R2. f_equal. apply (NoDup_key_eq ak_id (at_keys (ow_tables w))); [by apply ok_keys|done|done|congruence]. }
  split; cbn [fst snd]; try done.
  - destruct I1 as [H1 H2]. split; [done|]. intros tk [Hx|[<-|[]]]%in_app_iff; [by apply H2|done].
  - intros k ten' u' b n [Hx|[[= <- <- <- <- <-]|[]]]%in_app_iff; [by eapply I3|done].
  - intros key H%Hheld. destruct (I5 key H) as [A|[A|[A|A]]]; [by left|right; left; auto|right; right; by left|right; right; right; auto].
  - intros key H%Hheld [Hk|[Hk|[]]]%in_app_iff; [|done]. destruct (I6 key H Hk); auto.
  - intros key ten' u' b n H%Hheld [Hk|[Hk|[]]]%in_app_iff Hu; [destruct (I7 key ten' u' b n H Hk Hu); auto|]. injection Hk as E1 E2 _ _ _. left.
    assert (Hten : ten = key_tenant key).
    { destruct (held_known _ _ I1 H) as [_ Hkey]. rewrite <- R2. apply Hkey; [done|congruence]. }
    split; [|congruence]. exists row. split; [done|]. split; congruence.
Qed.

Lemma removed_stays id ten t key : key_id key <> id -> (active_key t key -> active_key (fst (remove_key id ten t)) key) /\ (has_row t key -> has_row (fst (remove_key id ten t)) key).
Proof.
  intros Hne. unfold remove_key. destruct (existsb _ _); [|done]. cbn [fst].
  assert (Hf : forall r, In r (at_keys t) -> is_row key r -> In r (List.filter (fun r => negb (own_key id ten r)) (at_keys t))).
  { intros r Hr [E _]. apply filter_In. split; [done|]. unfold own_key. by rewrite E, (proj2 (Z.eqb_neq _ _) Hne). }
  split; [intros (r & Hr & Hk & Ha); exists r|intros (r & Hr & Hk); exists r]; (split; [by apply Hf|]); auto.
Qed.

Lemma delete_call st id ten w ts : one_at_a_time ts (B_delete_key id ten) = true -> keys_inv (w, ts) ->
  keys_inv (fst (begin st (B_delete_key id ten) w), ts ++ snd (begin st (B_delete_key id ten) w)).
Proof.
  intros Hone Hi. pose proof Hi as [I1 I2 I3 I4 I5 I6 I7]. pose proof I1 as [Hw Htk]. cbn [fst snd] in *.
  pose proof (call_leaves st (B_delete_key id ten) w Hw) as Hl.
  assert (Hok : state_ok (fst (begin st (B_delete_key id ten) w), ts ++ snd (begin st (B_delete_key id ten) w)))
    by (eapply leaves_state; [exact Hl|exact Htk|]; intros x; rewrite in_app_iff; tauto).
  destruct Hl as (Hev & _). cbn [begin] in *.
  pose proof (removed_stays id ten (ow_tables w)) as Hstay. destruct (remove_key id ten (ow_tables w)) as [t ok] eqn:Er. cbn [fst snd] in *.
  destruct ok.
  2:{ unfold remove_key in Er. destruct (existsb _ _); [done|]. injection Er as <-. rewrite List.app_nil_r in *. by split. }
  destruct (omap_snoc ts (K_close id) id eq_refl I2 Hone) as [Hn Honly].
  assert (Hheld : forall key, held (with_tables (fun _ => t) w, ts ++ [K_close id]) key -> held (w, ts) key) by (intros key; by apply held_call).
  assert (Hold : forall x, In x ts -> In x (ts ++ [K_close id])) by (intros; apply in_app_iff; auto).
  assert (Hgone : forall t, tenant_gone (ow_hub w) ts t -> tenant_gone (ow_hub w) (ts ++ [K_close id]) t) by (intros t'; by apply gone_kept; auto).
  split; cbn [fst snd with_tables ow_hub ow_tables] in *; try done.
  - intros k ten' u' b n [Hx|[Hx|[]]]%in_app_iff; [|done]. eapply known_evolves; [exact Hev|by eapply I3].
  - intros key H%Hheld. destruct (decide (key_id key = id)) as [E|Hne]; [right; right; right; apply in_app_iff; right; left; by rewrite E|].
    destruct (I5 key H) as [A|[A|[A|A]]]; [left; by apply Hstay|right; left; auto|right; right; by left|right; right; right; auto].
  - intros key H%Hheld [Hk|[Hk|[]]]%in_app_iff; [|done]. assert (Hne : key_id key <> id) by (intros E; apply (Honly _ Hk); cbn; by rewrite E).
    destruct (I6 key H Hk); [left; by apply Hstay|auto].
  - intros key ten' u' b n H%Hheld [Hk|[Hk|[]]]%in_app_iff Hu; [|done]. assert (Hne : key_id key <> id) by (intros E; apply (Honly _ Hk); cbn; by rewrite E).
    destruct (I7 key ten' u' b n H Hk Hu) as [[A E]|A]; [left; split; [by apply Hstay|done]|auto].
Qed.

(** A server that has just started. *)
Lemma keys_empty w : tables_ok (ow_tables w) -> ow_hub w = empty_hub -> keys_inv (w, []).
Proof.
  intros Ht Eh. assert (Hno : forall ws c, ~ live_channel (ow_hub w) ws c) by (intros ws c (Hc & _); rewrite Eh in Hc; cbn in Hc; by rewrite lookup_empty in Hc).
  assert (Hh : forall key, ~ held (w, []) key) by (intros key [(ws & c & Hc & _)|(tk & u & [] & _)]; by apply (Hno ws c)).
  split; cbn [fst snd]; [| |done| | |done|done].
  - split; [|done]. split; [done|]. intros ws c Hc. cbn in Hc. rewrite Eh in Hc. cbn in Hc. by rewrite lookup_empty in Hc.
  - constructor.
  - intros ws c H. by apply Hno in H.
  - intros key H. by apply Hh in H.
Qed.

Lemma keys_step st s s' : step st true s s' -> keys_inv s -> keys_inv s'.
Proof.
  intros Hs Hi. destruct Hs as [c w ts Hone|tk l1 l2 w _|e w ts|w ts].
  - specialize (Hone eq_refl). destruct (key_asked c) eqn:Hk; [|by apply frame_call]. destruct c; try done; [by apply update_call|by apply delete_call].
  - destruct (is_key_task tk) eqn:Hk; [|by apply frame_task]. destruct tk; try done; cbn [advance advance_admin fst snd option_list app].
    + by apply set_step.
    + by apply close_step.
    + by apply allow_step.
  - by apply frame_env.
  - destruct (iv_ok _ Hi) as [[Hw _] _]. by apply keys_empty.
Qed.

(** C20. No channel lives on a key that is gone. When the requests on one key come one after
    the other, then in every state the server can reach, whatever upgrades are on their way, a
    live channel has a key and a tenant the hub does not refuse, and its key is an active key
    of its tenant, or the request that disabled or deleted the key, or deleted the tenant, is
    just about to close it; with no such request pending the key is active. *)
Theorem live_channel_authorised st t s ws c : tables_ok t -> reachable st true t s -> live_channel (ow_hub (fst s)) ws c ->
  (cn_key c ∉ hb_revokedKeys (ow_hub (fst s)) /\ cn_tenant c ∉ hb_revokedTenants (ow_hub (fst s))) /\
  (active_key (ow_tables (fst s)) (cn_ref c) \/ In (X_tenant (cn_tenant c)) (snd s) \/ In (K_close (cn_key c)) (snd s)).
Proof.
  intros Ht Hr Hl. assert (Hi : keys_inv s).
  { unfold reachable in Hr. assert (H0 : keys_inv (start t)) by by apply keys_empty. induction Hr; [done|]. eauto using keys_step. }
  destruct (iv_live _ Hi ws c Hl) as [H1 H2]. split; [done|].
  destruct (iv_auth _ Hi (cn_ref c)) as [A|[[A|A]|[A|A]]]; [left; eauto|by left|done|by right; left|done|by right; right].
Qed.

(** ** A disabled key answers as an unknown one *)

(** The tables without a key. *)
Definition forget (k : Z) (t : AgentTables) : AgentTables := with_keys (List.filter (fun r => negb (ak_id r =? k)) (at_keys t)) t.

Lemma NoDup_value_eq (l : list KeyRow) x y : NoDup (map ak_key l) -> In x l -> In y l -> ak_key x = ak_key y -> x = y.
Proof.
  induction l as [|a l IH]; [done|]. cbn. rewrite NoDup_cons, list_elem_of_In, in_map_iff. intros [Hn Hl].
  intros [<-|Hx] [<-|Hy] E; [done| | |by apply IH]; exfalso; apply Hn; eauto.
Qed.
Lemma find_value (l : list KeyRow) v r : NoDup (map ak_key l) -> In r l -> ak_key r = v -> List.find (fun r => String.eqb (ak_key r) v) l = Some r.
Proof.
  intros Hn Hr E. destruct (List.find (fun r => String.eqb (ak_key r) v) l) as [r'|] eqn:Ef.
  - apply find_some in Ef as [Hr' E'%String.eqb_eq]. f_equal. apply (NoDup_value_eq l); [done|done|done|congruence].
  - exfalso. pose proof (find_none _ _ Ef r Hr) as H. cbn in H. by rewrite E, String.eqb_refl in H.
Qed.

Section Disabled.
Context (t : AgentTables) (k : Z) (Hv : NoDup (map ak_key (at_keys t))) (Hk : forall r, In r (at_keys t) -> ak_id r = k -> ak_active r = false).

Lemma active_kept r : In r (at_keys t) -> ak_active r = true -> In r (at_keys (forget k t)).
Proof. intros Hr Ha. apply filter_In. split; [done|]. apply negb_true_iff, Z.eqb_neq. intros E. rewrite (Hk r Hr E) in Ha. done. Qed.

Lemma find_forget raw : findActiveByValue (forget k t) raw = findActiveByValue t raw.
Proof.
  unfold findActiveByValue. destruct (api_key_text raw) as [s|]; [|done].
  destruct (List.find _ (at_keys t)) as [r|] eqn:Ef.
  - apply find_some in Ef as [Hr E%String.eqb_eq]. destruct (ak_active r) eqn:Ea.
    + rewrite (find_value (at_keys (forget k t)) (to_lower s) r); [by rewrite Ea|by apply (NoDup_map_filter ak_key)|by apply active_kept|done].
    + destruct (List.find _ (at_keys (forget k t))) as [r'|] eqn:Ef'; [|done]. apply find_some in Ef' as [Hr' E'%String.eqb_eq].
      apply filter_In_of in Hr'. rewrite (NoDup_value_eq (at_keys t) r' r) by congruence. by rewrite Ea.
  - destruct (List.find _ (at_keys (forget k t))) as [r'|] eqn:Ef'; [|done]. apply find_some in Ef' as [Hr' E'].
    apply filter_In_of in Hr'. by rewrite (find_none _ _ Ef r' Hr') in E'.
Qed.

Lemma request_forget apiKey uuid : request_key apiKey uuid (forget k t) = request_key apiKey uuid t.
Proof. unfold request_key. destruct apiKey as [| | | |[|c x]| |]; try done; by rewrite find_forget. Qed.
Lemma auth_forget apiKey : agentAuth (forget k t) apiKey = agentAuth t apiKey.
Proof. unfold agentAuth. by rewrite find_forget. Qed.
Lemma exists_forget k' : k' <> k -> key_exists (forget k t) k' = key_exists t k'.
Proof.
  intros Hne. apply eq_true_iff_eq. rewrite !key_exists_In. cbn. split; intros (r & Hr & E); exists r; (split; [|done]).
  - by apply filter_In_of in Hr.
  - apply filter_In. split; [done|]. by rewrite E, (proj2 (Z.eqb_neq _ _) Hne).
Qed.
Lemma claim_forget key row : key_id key <> k ->
  claim_binding key row (forget k t) = (forget k (fst (claim_binding key row t)), snd (claim_binding key row t)).
Proof.
  intros Hne. unfold claim_binding. rewrite exists_forget by done. cbn [at_devices forget with_keys].
  destruct (negb (existsb _ _)); [done|]. by destruct (negb (key_exists _ _)).
Qed.
Lemma ensure_forget mode key row : key_id key <> k ->
  ensure_claim mode key row (forget k t) = (forget k (fst (ensure_claim mode key row t)), snd (ensure_claim mode key row t)).
Proof.
  intros Hne. unfold ensure_claim. destruct (is_status _ _ || is_status _ _); [done|].
  destruct (may_act key row); [destruct (dv_key row); [done|by apply claim_forget]|].
  destruct (_ && bool_decide _); [by apply claim_forget|done].
Qed.
Lemma binding_forget mode key uuid : key_id key <> k ->
  checkAgentBinding mode key uuid (forget k t) = (forget k (fst (checkAgentBinding mode key uuid t)), snd (checkAgentBinding mode key uuid t)).
Proof.
  intros Hne. unfold checkAgentBinding. change (findDeviceBindingByUuid (forget k t) uuid) with (findDeviceBindingByUuid t uuid).
  destruct (findDeviceBindingByUuid t uuid) as [d|]; [|done]. unfold ensureAgentBinding. rewrite ensure_forget by done.
  by destruct (ensure_claim mode key d t) as [t' [ok| |]].
Qed.
End Disabled.

(** A disabled key cannot be told from a wrong one: with a disabled key in the table or
    without it, every push is authenticated alike, every upgrade gets the same answer, and the
    rows change alike. *)
Theorem disabled_is_unknown mode cap apiKey uuid h t k : NoDup (map ak_key (at_keys t)) ->
  (forall r, In r (at_keys t) -> ak_id r = k -> ak_active r = false) ->
  agentAuth (forget k t) apiKey = agentAuth t apiKey /\
  checkAgentUpgrade mode cap apiKey uuid h (forget k t) =
    (forget k (fst (checkAgentUpgrade mode cap apiKey uuid h t)), snd (checkAgentUpgrade mode cap apiKey uuid h t)).
Proof.
  intros Hv Hk. split; [by apply auth_forget|]. unfold checkAgentUpgrade. rewrite (request_forget t k Hv Hk).
  destruct (request_key apiKey uuid t) as [v|[key u]] eqn:Er; [done|]. unfold check_keyed. destruct (live_conflict h key u); [done|].
  assert (Hne : key_id key <> k).
  { destruct (request_active _ _ _ _ _ Er) as (r & Hr & [E _] & Ha). intros Ek. rewrite (Hk r Hr) in Ha by congruence. done. }
  rewrite binding_forget by done. by destruct (checkAgentBinding mode key u t) as [t1 [b|]].
Qed.

(** ** Examples *)

Lemma live_channel_witness : exists c, live_channel (ow_hub (fst (state_after true (connect uuid_a "machine-000001" 0)))) 1 c /\
  active_key (ow_tables (fst (state_after true (connect uuid_a "machine-000001" 0)))) (cn_ref c).
Proof.
  exists (new_conn "machine-000001" 1 1 "10.0.0.1" true).
  assert (Hl : live_channel (ow_hub (fst (state_after true (connect uuid_a "machine-000001" 0)))) 1 (new_conn "machine-000001" 1 1 "10.0.0.1" true))
    by (repeat split; vm_compute; reflexivity).
  split; [exact Hl|].
  destruct (live_channel_authorised sample_settings sample_tables (state_after true (connect uuid_a "machine-000001" 0)) 1
    (new_conn "machine-000001" 1 1 "10.0.0.1" true)) as [_ [Ha|[Hx|Hx]]].
  - exact sample_ok.
  - apply state_reachable. vm_compute. reflexivity.
  - exact Hl.
  - exact Ha.
  - vm_compute in Hx. destruct Hx.
  - vm_compute in Hx. destruct Hx.
Defined.

(** The same agent comes back: its new channel replaces the old one. *)
Definition returning : list Act := connect uuid_a "machine-000001" 0 ++ [Call_ (B_upgrade (JStr uuid_a) (JStr "machine-000001") "10.0.0.1"); Run_ 0; Run_ 0].
Definition return_task : Task := U_cap {| ug_key := {| key_id := 1; key_tenant := 1 |}; ug_uuid := "machine-000001"; ug_ws := 2; ug_ip := "10.0.0.1" |} 0.
Definition returned : World * option Task := advance sample_settings return_task (fst (state_after true returning)).
Lemma not_displaced_witness : exists c c', snd (state_after true returning) = [return_task] /\
  live_channel (ow_hub (fst (state_after true returning))) 1 c /\ live_channel (ow_hub (fst returned)) 2 c' /\ cn_ref c' = cn_ref c.
Proof.
  exists (new_conn "machine-000001" 1 1 "10.0.0.1" true), (new_conn "machine-000001" 1 1 "10.0.0.1" true).
  split; [vm_compute; reflexivity|]. split; [repeat split; vm_compute; reflexivity|]. split; [repeat split; vm_compute; reflexivity|].
  apply (channel_not_displaced sample_settings true (fst (state_after true returning)) [return_task] (fst returned) (option_list (snd returned) ++ [])
    1 (new_conn "machine-000001" 1 1 "10.0.0.1" true) 2 (new_conn "machine-000001" 1 1 "10.0.0.1" true)).
  - exact (step_task sample_settings true return_task [] [] (fst (state_after true returning)) eq_refl).
  - repeat split; vm_compute; reflexivity.
  - repeat split; vm_compute; reflexivity.
  - reflexivity.
Defined.

Lemma disabled_witness : checkAgentUpgrade Strict 500 (JStr uuid_c) (JStr "machine-000001") empty_hub
    (forget 1 (write_key 1 1 {| ku_name := None; ku_group := None; ku_active := Some false |} 0 None sample_tables)) =
  (forget 1 (write_key 1 1 {| ku_name := None; ku_group := None; ku_active := Some false |} 0 None sample_tables), Accepted true).
Proof.
  destruct (disabled_is_unknown Strict 500 (JStr uuid_c) (JStr "machine-000001") empty_hub
    (write_key 1 1 {| ku_name := None; ku_group := None; ku_active := Some false |} 0 None sample_tables) 1) as [_ H].
  - by apply (bool_decide_unpack (NoDup [uuid_a; uuid_b; uuid_c])).
  - intros r [<-|[<-|[<-|[]]]]; done.
  - rewrite H. vm_compute. reflexivity.
Defined.

(** ** What the code allows *)

(** Disabling and enabling a key at once: the row ends disabled and the refusal is lifted, so
    an upgrade that read the key in between has a live channel on a disabled key. *)
Definition crossing : list Act := [
  Call_ (B_update_key 1 1 (enable false) None 0); Run_ 0; Run_ 0; Call_ (B_update_key 1 1 (enable true) None 0); Run_ 0;
  Call_ (B_upgrade (JStr uuid_a) (JStr "machine-000001") "10.0.0.1"); Call_ (B_update_key 1 1 (enable false) None 0); Run_ 2; Run_ 2; Run_ 0; Run_ 0; Run_ 0;
  Run_ 0; Run_ 0].
Lemma crossing_requests : exists s c, reachable sample_settings false sample_tables s /\ snd s = [] /\ live_channel (ow_hub (fst s)) 1 c /\
  ~ active_key (ow_tables (fst s)) (cn_ref c).
Proof.
  exists (state_after false crossing), (new_conn "machine-000001" 1 1 "10.0.0.1" true).
  split; [apply state_reachable; by vm_compute|]. split; [by vm_compute|]. split; [repeat split; by vm_compute|].
  intros (r & Hr & [E _] & Ha). vm_compute in Hr. by destruct Hr as [<-|[<-|[<-|[]]]].
Qed.

(** The events of a channel are read for its device whatever key enrolled it meanwhile, though
    a push of that channel is refused. *)
Definition overtaken : list Act := connect uuid_a "machine-000001" 0 ++ enrolled ++
  [Call_ (B_device 3 1 "approved" None); Call_ (B_frame 1 (Events 1)); Run_ 0; Run_ 0; Call_ (B_frame 1 (Heartbeat "pc")); Run_ 0; Run_ 0; Run_ 0; Run_ 0].
Lemma events_of_another_key : exists s d c, reachable sample_settings true sample_tables s /\ In d (at_devices (ow_tables (fst s))) /\
  conn_of 1 (fst s) = Some c /\ dv_key d = Some 2 /\ cn_key c = 1 /\ In (S_events (dv_id d) 1) (ow_sent (fst s)) /\ In (S_push (Some 1) "refused") (ow_sent (fst s)).
Proof.
  exists (state_after true overtaken). eexists (set_dv_status "approved" enrolled_device), _. split; [apply state_reachable; by vm_compute|].
  split; [vm_compute; auto|]. split; [vm_compute; reflexivity|]. split; [done|]. split; [done|]. split; vm_compute; auto 10.
Qed.

(** A Microsoft 365 row is not a router to the binding rules: an agent of the tenant takes it. *)
Lemma m365_is_claimed : exists s d, reachable sample_settings true sample_tables s /\ In d (at_devices (ow_tables (fst s))) /\
  dv_type d = Some "m365" /\ dv_key d = Some 1.
Proof.
  exists (state_after true [Call_ (B_upgrade (JStr uuid_a) (JStr "office-000002") "10.0.0.1"); Run_ 0; Run_ 0; Run_ 0; Run_ 0]).
  exists (set_dv_key (Some 1) (new_appliance 2 "office-000002" "m365" 1)). split; [apply state_reachable; by vm_compute|]. vm_compute. auto.
Qed.
