(* ===== verification/Blocklist.v ===== *)
(** * Remote blocklists ([server/src/services/remoteBlocklist.service.ts])

    Lists of addresses the instance subscribes to: their settings, their entries (the table
    [remote_blocked_ips] of [Store]), the pull of a source, the bans an enforcing list keeps,
    and what is contributed back to obli.tools. The ban operations are those of [BanService]
    and [BanImport], the sync alerts those of [LiveAlert], the URL guard that of [SsrfGuard];
    the HTTP exchange, the URL parser, dates and the driver's texts are arguments. The texts
    of engine errors are abbreviated, as is the answer a refused contribution quotes. *)

From S2P Require Import Prelude JsString JsValue JsJson IpValidation ProtectedIps Tenancy Access SocketRooms PgInet Store Whitelist BanRules BanService BanImport BanEngine Query SettingsStore Pagination SsrfGuard LiveAlert.

(** ** Lists *)

Inductive SourceType := Oblitools | UrlList.
#[export] Instance SourceType_eq_dec : EqDecision SourceType.
Proof. solve_decision. Defined.
Definition source_of (v : js) : option SourceType :=
  match v with JStr s => if String.eqb s "oblitools" then Some Oblitools else if String.eqb s "url" then Some UrlList else None | _ => None end.

(** A row of [remote_blocklists]. *)
Record ListRow := {
  bl_id : Z; bl_name : string; bl_source : SourceType; bl_url : string; bl_api_key : option string; bl_enabled : bool; bl_enforce : bool;
  bl_sync_interval : Z; bl_last_sync_at : option Z; bl_last_sync_count : Z; bl_tenant_id : option Z; bl_created_at : Z; bl_updated_at : Z
}.

Definition NAME_MAX : nat := 128.
Definition URL_MAX : nat := 2048.
Definition API_KEY_MAX : nat := 512.
Definition SYNC_INTERVAL_MIN : Z := 60.
Definition SYNC_INTERVAL_MAX : Z := 7 * 86400.
Definition MAX_BODY_BYTES : Z := 20 * 1024 * 1024.
Definition MAX_URL_ENTRIES : Z := 500000.
Definition UPSERT_CHUNK : nat := 500.
Definition MAX_PUSH_SUSPICIOUS : nat := Z.to_nat 5000.
Definition OBLITOOLS_PUSH_URL : string := "https://guard.obli.tools/blocklist/api/push".

(** ** Failures *)

(** A coded refusal, a refusal of the URL guard, any other error. *)
Inductive Failure := Coded (e : CodedError) | RefusedUrl (r : Refusal) | Plain (message : string).
Definition badRequest (code message : string) : Failure := Coded (codedError 400 code message).

(** ** Fields *)

Definition too_long (field : string) (max : nat) : Failure :=
  badRequest "FIELD_TOO_LONG" (field +:+ " must be at most " +:+ dec (Z.of_nat max) +:+ " characters").
Definition required_text (field : string) (max : nat) (v : js) : Failure + string :=
  match v with
  | JStr raw =>
      let s := trim raw in
      if is_empty s then inl (badRequest "FIELD_REQUIRED" (field +:+ " must be a non-empty string"))
      else if (max <? String.length s)%nat then inl (too_long field max) else inr s
  | _ => inl (badRequest "FIELD_REQUIRED" (field +:+ " must be a non-empty string"))
  end.
Definition parseName (v : js) : Failure + string := required_text "name" NAME_MAX v.
Definition parseUrlString (v : js) : Failure + string := required_text "url" URL_MAX v.
Definition parseApiKey (v : js) : Failure + option string :=
  match v with
  | JNull | JUndefined => inr None
  | JStr raw =>
      let s := trim raw in
      if (API_KEY_MAX <? String.length s)%nat then inl (too_long "apiKey" API_KEY_MAX) else inr (if is_empty s then None else Some s)
  | _ => inl (badRequest "FIELD_STRING" "apiKey must be a string")
  end.
Definition interval_range : Failure :=
  badRequest "FIELD_INTEGER_RANGE" ("syncInterval must be an integer between " +:+ dec SYNC_INTERVAL_MIN +:+ " and " +:+ dec SYNC_INTERVAL_MAX +:+ " seconds").
Definition parseSyncInterval (v : js) : Failure + Z :=
  match v with
  | JNum (NInt z) => if (z <? SYNC_INTERVAL_MIN) || (SYNC_INTERVAL_MAX <? z) then inl interval_range else inr z
  | _ => inl interval_range
  end.
Definition parse_flag (field : string) (v : js) : Failure + bool :=
  match v with JBool b => inr b | _ => inl (badRequest "FIELD_BOOLEAN" (field +:+ " must be a boolean")) end.

(** ** The world *)

(** What the exchange with a source gives: [fetch] threw, or a response; [hr_opaque] for
    [type === 'opaqueredirect'], [hr_length] the finite [Number(content-length)], [hr_body]
    the chunks of bytes. *)
Record HttpResponse := { hr_status : Z; hr_opaque : bool; hr_length : option Z; hr_body : option (list string) }.
Inductive HttpResult := H_error (message : string) | H_response (r : HttpResponse).

(** Inputs of an operation: those of the ban operations ([le_env]); [new URL], [lookup] and
    [url.toString()]; the exchange for a URL and a bearer key; the query of an obli.tools
    pull ([None]: not a URL); UTF-8 decoding; [new Date(v)] and [toISOString]; [String(v)]
    and the driver's text of a value; the messages of the URL guard; whether the alert
    service answers. *)
Record ListEnv := {
  le_env : Env;
  le_parse_url : string -> option Url; le_lookup : string -> option (list string); le_href : string -> string;
  le_fetch : string -> option string -> HttpResult;
  le_pull_url : string -> option Z -> option string -> option string;
  le_decode : list string -> string;
  le_date : js -> option Z; le_iso : Z -> string;
  le_str : js -> string; le_pg_text : js -> string;
  le_refusal_text : Refusal -> string; le_alerts_up : bool
}.
Definition le_now (le : ListEnv) : Z := en_now (le_env le).

(** What left the server: the request of a pull (list, the URL given to [fetch], bearer key), a
    contribution, and the addresses given to [ipReputationService.ensureExists]. *)
Record Contribution := { ct_ip : string; ct_reason : string; ct_banned : bool }.
Inductive Sent :=
| S_fetch (listId : Z) (url : string) (key : option string)
| S_push (key : string) (instance_ : string) (ips : list Contribution)
| S_reputation (ip : string).

Record ListWorld {PG : PgInet} := {
  bw_store : World PG; bw_lists : list ListRow; bw_next_list : Z; bw_next_entry : Z;
  bw_alerts : AlertWorld; bw_healthy : list Z; bw_config : gmap string string; bw_sent : list Sent
}.
Arguments ListWorld : clear implicits.

Section Blocklist.
Context {PG : PgInet}.

Definition with_store (s : World PG) (w : ListWorld PG) : ListWorld PG := {|
  bw_store := s; bw_lists := bw_lists w; bw_next_list := bw_next_list w; bw_next_entry := bw_next_entry w; bw_alerts := bw_alerts w;
  bw_healthy := bw_healthy w; bw_config := bw_config w; bw_sent := bw_sent w |}.
Definition with_lists (l : list ListRow) (next : Z) (w : ListWorld PG) : ListWorld PG := {|
  bw_store := bw_store w; bw_lists := l; bw_next_list := next; bw_next_entry := bw_next_entry w; bw_alerts := bw_alerts w;
  bw_healthy := bw_healthy w; bw_config := bw_config w; bw_sent := bw_sent w |}.
Definition with_entries (f : list (BlockedIp PG) -> list (BlockedIp PG)) (next : Z) (w : ListWorld PG) : ListWorld PG := {|
  bw_store := with_blocked f (bw_store w); bw_lists := bw_lists w; bw_next_list := bw_next_list w; bw_next_entry := next;
  bw_alerts := bw_alerts w; bw_healthy := bw_healthy w; bw_config := bw_config w; bw_sent := bw_sent w |}.
Definition with_alerts (a : AlertWorld) (healthy : list Z) (w : ListWorld PG) : ListWorld PG := {|
  bw_store := bw_store w; bw_lists := bw_lists w; bw_next_list := bw_next_list w; bw_next_entry := bw_next_entry w; bw_alerts := a;
  bw_healthy := healthy; bw_config := bw_config w; bw_sent := bw_sent w |}.
Definition with_config (c : gmap string string) (w : ListWorld PG) : ListWorld PG := {|
  bw_store := bw_store w; bw_lists := bw_lists w; bw_next_list := bw_next_list w; bw_next_entry := bw_next_entry w; bw_alerts := bw_alerts w;
  bw_healthy := bw_healthy w; bw_config := c; bw_sent := bw_sent w |}.
Definition with_sent (s : Sent) (w : ListWorld PG) : ListWorld PG := {|
  bw_store := bw_store w; bw_lists := bw_lists w; bw_next_list := bw_next_list w; bw_next_entry := bw_next_entry w; bw_alerts := bw_alerts w;
  bw_healthy := bw_healthy w; bw_config := bw_config w; bw_sent := bw_sent w ++ [s] |}.
Definition entries (w : ListWorld PG) : list (BlockedIp PG) := w_blocked (bw_store w).

(** ** The monad *)

Definition LM (A : Type) : Type := ListWorld PG -> (Failure + A) * ListWorld PG.
Definition lret {A} (a : A) : LM A := fun w => (inr a, w).
Definition fails {A} (e : Failure) : LM A := fun w => (inl e, w).
Definition lbind {A B} (m : LM A) (k : A -> LM B) : LM B := fun w =>
  match m w with (inl e, w') => (inl e, w') | (inr a, w') => k a w' end.
Definition world : LM (ListWorld PG) := fun w => (inr w, w).
Definition change (f : ListWorld PG -> ListWorld PG) : LM unit := fun w => (inr tt, f w).
Definition of_check {A} (r : Failure + A) : LM A := match r with inr a => lret a | inl e => fails e end.
(** A ban operation. *)
Definition on_store {A} (m : M PG A) : LM A := fun w =>
  let '(r, s) := m (bw_store w) in (match r with inl e => inl (Coded e) | inr a => inr a end, with_store s w).
(** [try { ... } catch]: whether it threw. *)
Definition attempt {A} (m : LM A) : LM (option Failure) := fun w =>
  match m w with (inl e, w') => (inr (Some e), w') | (inr _, w') => (inr None, w') end.

End Blocklist.

Declare Scope blocklist_scope.
Delimit Scope blocklist_scope with bl.
Notation "x <- m ;; k" := (lbind m (fun x => k)) (at level 90, m at next level, k at level 200, right associativity) : blocklist_scope.
Notation "m >> k" := (lbind m (fun _ => k)) (at level 90, k at level 200, right associativity) : blocklist_scope.
Local Open Scope blocklist_scope.

Section Operations.
Context {PG : PgInet}.

(** ** Who sees a list *)

(** [scopeLists]: every list for the Default tenant, else the instance's and one's own. *)
Definition scopeLists (tenantId : option Z) (owner : option Z) : bool :=
  isMasterTenant tenantId || bool_decide (owner = None) || bool_decide (owner = Some MASTER_TENANT_ID)
  || (negb (bool_decide (tenantId = None)) && bool_decide (owner = tenantId)).
Definition getRow (id : Z) (tenantId : option Z) (w : ListWorld PG) : option ListRow :=
  List.find (fun l => (bl_id l =? id) && scopeLists tenantId (bl_tenant_id l)) (bw_lists w).

(** What a client receives; [redact] is origin + path of a URL ([None]: not a URL). *)
Record RemoteBlocklist := {
  rb_id : Z; rb_name : string; rb_sourceType : SourceType; rb_url : string; rb_hasApiKey : bool; rb_enabled : bool; rb_enforce : bool;
  rb_syncInterval : Z; rb_lastSyncAt : option Z; rb_lastSyncCount : Z; rb_tenantId : option Z; rb_createdAt : Z; rb_updatedAt : Z
}.
Definition redactUrl (origin_path : string -> option string) (raw : string) : string := default "" (origin_path raw).
Definition rowToBlocklist (redact : option (string -> option string)) (l : ListRow) : RemoteBlocklist := {|
  rb_id := bl_id l; rb_name := bl_name l; rb_sourceType := bl_source l;
  rb_url := match redact with Some f => redactUrl f (bl_url l) | None => bl_url l end;
  rb_hasApiKey := match bl_api_key l with Some k => negb (is_empty k) | None => false end;
  rb_enabled := bl_enabled l; rb_enforce := bl_enforce l; rb_syncInterval := bl_sync_interval l; rb_lastSyncAt := bl_last_sync_at l;
  rb_lastSyncCount := bl_last_sync_count l; rb_tenantId := bl_tenant_id l; rb_createdAt := bl_created_at l; rb_updatedAt := bl_updated_at l |}.
Definition list_lists (origin_path : string -> option string) (tenantId : option Z) (w : ListWorld PG) : list RemoteBlocklist :=
  map (rowToBlocklist (if isMasterTenant tenantId then None else Some origin_path))
    (order_by (fun a b => String.leb (bl_name a) (bl_name b)) (List.filter (fun l => scopeLists tenantId (bl_tenant_id l)) (bw_lists w))).

(** ** Bans of a list *)

Definition blocklistOriginRef (listId : Z) : string := "blocklist:" +:+ dec listId.

Definition list_ban (listId : Z) (b : BanRow PG) : bool :=
  bool_decide (b_origin_ref b = Some (blocklistOriginRef listId)) && String.eqb (b_ban_type b) "remote" && b_is_active b.
(** A ban is wanted for the entry. *)
Definition wanted_entry (listId : Z) (e : BlockedIp PG) : bool :=
  (bi_blocklist_id e =? listId) && bi_enabled e && String.eqb (bi_status e) "banned".
Definition stale_ban (listId : Z) (es : list (BlockedIp PG)) (b : BanRow PG) : bool :=
  list_ban listId b && negb (existsb (fun e => wanted_entry listId e && bool_decide (bi_ip e = networkSql b)) es).
Definition candidates (listId : Z) (s : World PG) : list (BlockedIp PG) :=
  List.filter (fun e => wanted_entry listId e && negb (remote_covered (w_bans s) (bi_ip e))) (w_blocked s).

Definition list_reason (l : ListRow) : string := "Remote blocklist " +:+ quote (bl_name l).
Definition entry_reason (l : ListRow) (e : BlockedIp PG) : string :=
  match bl_source l with
  | Oblitools => "obli.tools: " +:+ default "shared ban" (bi_reason e) +:+ " (" +:+ dec (bi_reports e) +:+ " reports)"
  | UrlList => list_reason l
  end.
(** The candidates the safety contract accepts. *)
Fixpoint screen_candidates (en : Env) (l : ListRow) (cs : list (BlockedIp PG)) : M PG (list RemoteTarget) :=
  match cs with
  | [] => ret []
  | c :: r =>
      bind (check_target en (JStr (inet_text (bi_ip c))) true true None) (fun chk =>
      bind (screen_candidates en l r) (fun rest =>
      ret (match chk with
           | BT_ok t => {| rt_address := address (bt_parsed t); rt_prefix := prefix (bt_parsed t); rt_isNetwork := isNetwork t;
                           rt_reason := Some (entry_reason l c) |} :: rest
           | BT_err _ _ => rest
           end)))
  end.
Definition import_options (l : ListRow) : RemoteOptions := {|
  ro_originRef := blocklistOriginRef (bl_id l); ro_originTenantId := Some (default MASTER_TENANT_ID (bl_tenant_id l)); ro_reason := list_reason l;
  ro_whitelist := no_context; ro_respectLifts := false |}.

(** Past the check of [enforce]. *)
Definition enforce_entries (en : Env) (l : ListRow) : M PG (Z * Z) :=
  bind get (fun s =>
  bind (deactivateBans en (map b_id (List.filter (stale_ban (bl_id l) (w_blocked s)) (w_bans s))) L_remote_sync) (fun rows =>
  bind get (fun s =>
  bind (screen_candidates en l (candidates (bl_id l) s)) (fun targets =>
  bind (createRemoteBans en targets (import_options l)) (fun created =>
  ret (created, count_of rows)))))).
Definition stored_enforce (listId : Z) (w : ListWorld PG) : bool :=
  match List.find (fun l => bl_id l =? listId) (bw_lists w) with Some l => bl_enforce l | None => false end.
(** [(created, lifted)] *)
Definition reconcileListBans (le : ListEnv) (l : ListRow) : LM (Z * Z) :=
  w <- world ;;
  if stored_enforce (bl_id l) w then on_store (enforce_entries (le_env le) l)
  else lifted <- on_store (deactivateRemoteBans (le_env le) (blocklistOriginRef (bl_id l))) ;; lret (0, lifted).
Definition reconcileQuietly (le : ListEnv) (l : ListRow) : LM unit := attempt (reconcileListBans le l) >> lret tt.

(** ** Sync alerts *)

Definition syncFailureKey (listId : Z) : string := incidentStableKey "blocklist_sync_failed" ("list:" +:+ dec listId).
Definition failure_text (le : ListEnv) (f : Failure) : string :=
  match f with Coded e => err_message e | RefusedUrl r => le_refusal_text le r | Plain m => m end.
Definition reportSyncFailure (le : ListEnv) (l : ListRow) (f : Failure) : LM unit :=
  change (fun w =>
    let healthy := List.filter (fun i => negb (i =? bl_id l)) (bw_healthy w) in
    let input := {| ri_tenantId := NInt (default MASTER_TENANT_ID (bl_tenant_id l)); ri_kind := "blocklist_sync_failed";
                    ri_stableKey := syncFailureKey (bl_id l); ri_deviceId := None; ri_title := "Blocklist sync failed: " +:+ bl_name l;
                    ri_message := "Remote blocklist " +:+ quote (bl_name l) +:+ " could not be synchronised: " +:+ substring 0 300 (failure_text le f);
                    ri_severity := Sev_warning; ri_link := Some "/settings" |} in
    with_alerts (if le_alerts_up le then fst (raiseIncident input (bw_alerts w)) else bw_alerts w) healthy w).
Definition resolveSyncFailure (le : ListEnv) (listId : Z) : LM unit :=
  change (fun w =>
    if existsb (Z.eqb listId) (bw_healthy w) then w
    else if le_alerts_up le
         then with_alerts (fst (resolveIncidents {| rs_tenantId := None; rs_stableKey := Some (syncFailureKey listId); rs_deviceId := None; rs_kind := None |}
                                  (bw_alerts w))) (listId :: bw_healthy w) w
         else w).

(** ** Settings of the lists *)

Definition assertListUrl (le : ListEnv) (url : string) : Failure + unit :=
  match assertPublicHttpUrl (le_parse_url le) (le_lookup le) url false with
  | inr _ => inr tt
  | inl r => inl (badRequest "BLOCKLIST_URL_REFUSED" (le_refusal_text le r))
  end.

Record CreateList := { cl_name : js; cl_sourceType : js; cl_url : js; cl_apiKey : js; cl_syncInterval : js; cl_enforce : js; cl_tenantId : option Z }.
Definition source_invalid : Failure := badRequest "FIELD_ONE_OF" "sourceType must be one of: oblitools, url".
Definition create (le : ListEnv) (d : CreateList) : LM RemoteBlocklist :=
  name <- of_check (parseName (cl_name d)) ;;
  sourceType <- of_check (match source_of (cl_sourceType d) with Some s => inr s | None => inl source_invalid end) ;;
  url <- of_check (parseUrlString (cl_url d)) ;;
  apiKey <- of_check (parseApiKey (cl_apiKey d)) ;;
  syncInterval <- of_check (if is_nullish (cl_syncInterval d) then inr 600 else parseSyncInterval (cl_syncInterval d)) ;;
  enforce <- of_check (if is_nullish (cl_enforce d) then inr false else parse_flag "enforce" (cl_enforce d)) ;;
  of_check (assertListUrl le url) >>
  w <- world ;;
  let row := {| bl_id := bw_next_list w; bl_name := name; bl_source := sourceType; bl_url := url; bl_api_key := apiKey; bl_enabled := true;
                bl_enforce := enforce; bl_sync_interval := syncInterval; bl_last_sync_at := None; bl_last_sync_count := 0;
                bl_tenant_id := cl_tenantId d; bl_created_at := le_now le; bl_updated_at := le_now le |} in
  change (with_lists (bw_lists w ++ [row]) (bw_next_list w + 1)) >>
  lret (rowToBlocklist None row).

(** [undefined] is an absent field. *)
Record RemoteBlocklistPatch := { pt_name : js; pt_url : js; pt_apiKey : js; pt_enabled : js; pt_enforce : js; pt_syncInterval : js }.
Definition given {A} (v : js) (parse : js -> Failure + A) (old : A) : LM (PG := PG) A := if is_undefined v then lret old else of_check (parse v).
Definition patched (le : ListEnv) (l : ListRow) (p : RemoteBlocklistPatch) : LM ListRow :=
  name <- given (pt_name p) parseName (bl_name l) ;;
  enabled <- given (pt_enabled p) (parse_flag "enabled") (bl_enabled l) ;;
  enforce <- given (pt_enforce p) (parse_flag "enforce") (bl_enforce l) ;;
  syncInterval <- given (pt_syncInterval p) parseSyncInterval (bl_sync_interval l) ;;
  apiKey <- given (pt_apiKey p) parseApiKey (bl_api_key l) ;;
  url <- given (pt_url p) parseUrlString (bl_url l) ;;
  let moved := negb (String.eqb url (bl_url l)) in
  (if moved then of_check (assertListUrl le url) else lret tt) >>
  lret {| bl_id := bl_id l; bl_name := name; bl_source := bl_source l; bl_url := url;
          bl_api_key := if moved && is_undefined (pt_apiKey p) then None else apiKey; bl_enabled := enabled; bl_enforce := enforce;
          bl_sync_interval := syncInterval; bl_last_sync_at := bl_last_sync_at l; bl_last_sync_count := bl_last_sync_count l;
          bl_tenant_id := bl_tenant_id l; bl_created_at := bl_created_at l; bl_updated_at := le_now le |}.
Definition put_list (row : ListRow) (w : ListWorld PG) : ListWorld PG :=
  with_lists (map (fun l => if bl_id l =? bl_id row then row else l) (bw_lists w)) (bw_next_list w) w.
Definition update (le : ListEnv) (id : Z) (tenantId : option Z) (p : RemoteBlocklistPatch) : LM (option RemoteBlocklist) :=
  w <- world ;;
  match getRow id tenantId w with
  | None => lret None
  | Some current =>
      row <- patched le current p ;;
      change (put_list row) >>
      (if Bool.eqb (bl_enforce row) (bl_enforce current) then lret tt else reconcileQuietly le row) >>
      lret (Some (rowToBlocklist None row))
  end.

Definition delete (le : ListEnv) (id : Z) (tenantId : option Z) : LM bool :=
  w <- world ;;
  match getRow id tenantId w with
  | None => lret false
  | Some current =>
      on_store (deactivateRemoteBans (le_env le) (blocklistOriginRef (bl_id current))) >>
      change (fun w => with_lists (List.filter (fun l => negb (bl_id l =? bl_id current)) (bw_lists w)) (bw_next_list w)
                         (with_entries (List.filter (fun e => negb (bi_blocklist_id e =? bl_id current))) (bw_next_entry w) w)) >>
      resolveSyncFailure le (bl_id current) >>
      lret true
  end.

(** ** Entries *)

Definition visible_list (tenantId : option Z) (w : ListWorld PG) (listId : Z) : bool :=
  existsb (fun l => (bl_id l =? listId) && scopeLists tenantId (bl_tenant_id l)) (bw_lists w).
Definition toggleIp (le : ListEnv) (id : Z) (enabled : bool) (tenantId : option Z) : LM bool :=
  w <- world ;;
  match List.find (fun e => (bi_id e =? id) && visible_list tenantId w (bi_blocklist_id e)) (entries w) with
  | None => lret false
  | Some entry =>
      change (with_entries (map (fun e => if bi_id e =? bi_id entry then entry_enabled enabled e else e)) (bw_next_entry w)) >>
      (match List.find (fun l => bl_id l =? bi_blocklist_id entry) (bw_lists w) with
       | Some l => if bl_enforce l then reconcileQuietly le l else lret tt
       | None => lret tt
       end) >>
      lret true
  end.

Record RemoteBlockedIp := {
  ri_id : Z; ri_blocklistId : Z; ri_blocklistName : string; ri_sourceType : SourceType; ri_ip : string; ri_reason : option string;
  ri_firstSeen : Z; ri_lastSeen : Z; ri_reports : Z; ri_sources : list string; ri_enabled : bool; ri_status : string; ri_listEnforce : bool;
  ri_enforced : bool
}.
Definition rowToBlockedIp (l : ListRow) (e : BlockedIp PG) : RemoteBlockedIp := {|
  ri_id := bi_id e; ri_blocklistId := bi_blocklist_id e; ri_blocklistName := bl_name l; ri_sourceType := bl_source l; ri_ip := inet_out (bi_ip e);
  ri_reason := bi_reason e; ri_firstSeen := bi_first_seen e; ri_lastSeen := bi_last_seen e; ri_reports := bi_reports e;
  ri_sources := default [] (bi_sources e); ri_enabled := bi_enabled e; ri_status := bi_status e; ri_listEnforce := bl_enforce l;
  ri_enforced := bl_enforce l && bi_enabled e && String.eqb (bi_status e) "banned" |}.

Record IpFilters := { if_tenantId : option Z; if_blocklistId : option Z; if_search : option string; if_enabled : option bool; if_limit : nat; if_offset : nat }.
Definition listIps {K : Like} (f : IpFilters) (w : ListWorld PG) : list RemoteBlockedIp * Z :=
  let rows :=
    List.filter (fun r : ListRow * BlockedIp PG => opt_test (if_blocklistId f) (fun i => (i =? 0) || (bi_blocklist_id (snd r) =? i))
                   && opt_test (if_enabled f) (Bool.eqb (bi_enabled (snd r)))
                   && opt_test (if_search f) (fun s => is_empty s || ilike (inet_text (bi_ip (snd r))) ("%" +:+ s +:+ "%")))
      (flat_map (fun e => map (fun l => (l, e))
          (List.filter (fun l => (bl_id l =? bi_blocklist_id e) && scopeLists (if_tenantId f) (bl_tenant_id l)) (bw_lists w))) (entries w)) in
  (map (fun r => rowToBlockedIp (fst r) (snd r))
     (firstn (if_limit f) (skipn (if_offset f) (order_by (fun a b => bi_last_seen (snd b) <=? bi_last_seen (snd a)) rows))),
   Z.of_nat (length rows)).

Record ListStats := { ls_total : Z; ls_enabled : Z; ls_enforced : Z; ls_sources : Z; ls_lastSync : option Z }.
Definition getStats (tenantId : option Z) (w : ListWorld PG) : ListStats :=
  let seen p e := existsb (fun l => (bl_id l =? bi_blocklist_id e) && scopeLists tenantId (bl_tenant_id l) && p l) (bw_lists w) in
  let count p := Z.of_nat (length (List.filter p (entries w))) in
  {| ls_total := count (seen (fun _ => true));
     ls_enabled := count (fun e => seen (fun _ => true) e && bi_enabled e);
     ls_enforced := count (fun e => seen bl_enforce e && bi_enabled e && String.eqb (bi_status e) "banned");
     ls_sources := Z.of_nat (length (List.filter (fun l => bl_enabled l && scopeLists tenantId (bl_tenant_id l)) (bw_lists w)));
     ls_lastSync := fold_left (fun m l => if scopeLists tenantId (bl_tenant_id l)
                                          then match m, bl_last_sync_at l with Some a, Some b => Some (Z.max a b) | None, b => b | a, None => a end
                                          else m) (bw_lists w) None |}.

(** ** Exchange with a source *)

(** The body up to [max] bytes. *)
Fixpoint read_chunks (max total : Z) (cs : list string) : option (list string) :=
  match cs with
  | [] => Some []
  | c :: r => let total := total + Z.of_nat (String.length c) in
              if max <? total then None else option_map (cons c) (read_chunks max total r)
  end.
Definition readCapped (le : ListEnv) (res : HttpResponse) (max : Z) : Failure + string :=
  let declared := match hr_length res with Some n => n | None => 0 end in
  if max <? declared then inl (Plain ("Response too large (" +:+ dec declared +:+ " bytes, max " +:+ dec max +:+ ")"))
  else match hr_body res with
       | None => inr ""
       | Some cs => match read_chunks max 0 cs with
                    | Some cs => inr (le_decode le cs)
                    | None => inl (Plain ("Response too large (more than " +:+ dec max +:+ " bytes)"))
                    end
       end.
Definition is_redirect (res : HttpResponse) : bool := hr_opaque res || ((300 <=? hr_status res) && (hr_status res <? 400)).
Definition is_ok (res : HttpResponse) : bool := (200 <=? hr_status res) && (hr_status res <=? 299).
(** [listId] is the list the request is made for, [key] its [Authorization] header. *)
Definition guardedFetch (le : ListEnv) (listId : Z) (rawUrl : string) (key : option string) : LM HttpResponse :=
  match assertPublicHttpUrl (le_parse_url le) (le_lookup le) rawUrl true with
  | inl r => fails (RefusedUrl r)
  | inr _ =>
      change (with_sent (S_fetch listId (le_href le rawUrl) key)) >>
      match le_fetch le (le_href le rawUrl) key with
      | H_error m => fails (Plain m)
      | H_response res => if is_redirect res then fails (Plain ("Refused redirect (HTTP " +:+ dec (hr_status res) +:+ ")")) else lret res
      end
  end.

(** ** Pull of a URL list *)

(** First CSV column of a line. *)
Fixpoint first_column (s : string) : string :=
  match s with
  | EmptyString => EmptyString
  | String c r => if Ascii.eqb c "," || Ascii.eqb c ";" || Ascii.eqb c "009" || Ascii.eqb c " " then EmptyString else String c (first_column r)
  end.
(** The text of a line worth checking. *)
Definition line_text (line : string) : option string :=
  let trimmed := trim line in
  if is_empty trimmed || starts_with "#" trimmed || starts_with ";" trimmed then None else Some (trim (first_column trimmed)).
Definition body_lines (text : string) : list string := omap line_text (split "010" text).
(** The targets kept, in order, each once. *)
Fixpoint keep_targets (en : Env) (raws : list string) (ips : list string) : M PG (list string) :=
  match raws with
  | [] => ret ips
  | raw :: r =>
      bind (check_target en (JStr raw) true true None) (fun chk =>
      match chk with
      | BT_err _ _ => keep_targets en r ips
      | BT_ok t => if MAX_URL_ENTRIES <=? Z.of_nat (length ips) then ret ips
                   else keep_targets en r (if existsb (String.eqb (cidr t)) ips then ips else ips ++ [cidr t])
      end)
  end.

Definition missing_list : CodedError := codedError 500 "23503" "insert violates foreign key constraint".
Definition cardinality_violation : CodedError := codedError 500 "21000" "ON CONFLICT DO UPDATE command cannot affect row a second time".
Definition same_entry (listId : Z) (x : inet) (e : BlockedIp PG) : bool := (bi_blocklist_id e =? listId) && bool_decide (bi_ip e = x).
Definition blank_entry (id listId : Z) (x : inet) (now : Z) : BlockedIp PG := {|
  bi_id := id; bi_blocklist_id := listId; bi_ip := x; bi_reason := Some "blocklist"; bi_first_seen := now; bi_last_seen := now; bi_reports := 1;
  bi_sources := None; bi_enabled := true; bi_status := "banned" |}.
Definition entry_seen (now : Z) (e : BlockedIp PG) : BlockedIp PG := {|
  bi_id := bi_id e; bi_blocklist_id := bi_blocklist_id e; bi_ip := bi_ip e; bi_reason := bi_reason e; bi_first_seen := bi_first_seen e;
  bi_last_seen := now; bi_reports := bi_reports e; bi_sources := bi_sources e; bi_enabled := bi_enabled e; bi_status := bi_status e |}.
(** INSERT ... ON CONFLICT (blocklist_id, ip) DO UPDATE of one row; the sequence moves in any case. *)
Definition upsert (listId : Z) (x : inet) (fresh : Z -> BlockedIp PG) (merge : BlockedIp PG -> BlockedIp PG) (w : ListWorld PG) : ListWorld PG :=
  if existsb (same_entry listId x) (entries w)
  then with_entries (map (fun e => if same_entry listId x e then merge e else e)) (bw_next_entry w + 1) w
  else with_entries (fun l => l ++ [fresh (bw_next_entry w)]) (bw_next_entry w + 1) w.
Definition list_exists (listId : Z) (w : ListWorld PG) : bool := existsb (fun l => bl_id l =? listId) (bw_lists w).
Definition of_db {A} (o : option A) (e : CodedError) : LM A := match o with Some a => lret a | None => fails (Coded e) end.
Definition upsert_seen (now listId : Z) (ips : list string) : LM unit :=
  xs <- of_db (mapM inet_in ips) invalid_inet ;;
  w <- world ;;
  (if negb (list_exists listId w) then fails (Coded missing_list)
   else if bool_decide (NoDup xs) then lret tt else fails (Coded cardinality_violation)) >>
  change (fun w => fold_left (fun w x => upsert listId x (fun i => blank_entry i listId x now) (entry_seen now) w) xs w).
Fixpoint upsert_chunks (now listId : Z) (cs : list (list string)) : LM unit :=
  match cs with [] => lret tt | c :: r => upsert_seen now listId c >> upsert_chunks now listId r end.
Definition drop_unseen (now listId : Z) (w : ListWorld PG) : ListWorld PG :=
  with_entries (List.filter (fun e => negb ((bi_blocklist_id e =? listId) && (bi_last_seen e <? now)))) (bw_next_entry w) w.
Definition mark_synced (now count listId : Z) (w : ListWorld PG) : ListWorld PG :=
  with_lists (map (fun l => if bl_id l =? listId
    then {| bl_id := bl_id l; bl_name := bl_name l; bl_source := bl_source l; bl_url := bl_url l; bl_api_key := bl_api_key l;
            bl_enabled := bl_enabled l; bl_enforce := bl_enforce l; bl_sync_interval := bl_sync_interval l; bl_last_sync_at := Some now;
            bl_last_sync_count := count; bl_tenant_id := bl_tenant_id l; bl_created_at := bl_created_at l; bl_updated_at := bl_updated_at l |}
    else l) (bw_lists w)) (bw_next_list w) w.

(** Past the reading of the body. *)
Definition apply_url_list (le : ListEnv) (l : ListRow) (text : string) : LM unit :=
  all <- on_store (keep_targets (le_env le) (body_lines text) []) ;;
  upsert_chunks (le_now le) (bl_id l) (chunks UPSERT_CHUNK all) >>
  (match all with [] => lret tt | _ => change (drop_unseen (le_now le) (bl_id l)) end) >>
  reconcileListBans le l >>
  change (mark_synced (le_now le) (Z.of_nat (length all)) (bl_id l)).
Definition syncUrl (le : ListEnv) (l : ListRow) : LM unit :=
  res <- guardedFetch le (bl_id l) (bl_url l) (match bl_api_key l with Some k => if is_empty k then None else Some k | None => None end) ;;
  (if negb (is_ok res) then fails (Plain ("HTTP " +:+ dec (hr_status res))) else lret tt) >>
  text <- of_check (readCapped le res MAX_BODY_BYTES) ;;
  apply_url_list le l text.

(** ** Pull of obli.tools *)

Definition type_error : Failure := Plain "Cannot read properties of null".
(** The own enumerable properties of a value ([Object.entries]); the keys that are array
    indices, which JavaScript lists first, are never addresses. *)
Fixpoint indexed {A} (f : A -> js) (i : Z) (l : list A) : list (string * js) :=
  match l with [] => [] | a :: r => (dec i, f a) :: indexed f (i + 1) r end.
Definition object_entries (v : js) : list (string * js) :=
  match v with
  | JObj fields => fields
  | JArr l => indexed id 0 l
  | JStr s => indexed (fun c => JStr (String c "")) 0 (list_ascii_of_string s)
  | _ => []
  end.
(** [varchar(n)]: extra characters are refused unless they are spaces. *)
Definition varchar (n : nat) (s : string) : option string :=
  if (String.length s <=? n)%nat then Some s
  else if str_forall (Ascii.eqb " ") (substring n (String.length s) s) then Some (substring 0 n s) else None.
Definition string_too_long : CodedError := codedError 500 "22001" "value too long for type character varying(16)".
Definition out_of_range : CodedError := codedError 500 "22003" "integer out of range".
Definition invalid_datetime : CodedError := codedError 500 "22007" "invalid input syntax for type timestamp with time zone".
Definition is_int4 (z : Z) : bool := (- 2 ^ 31 <=? z) && (z <? 2 ^ 31).
Definition pull_date (le : ListEnv) (v : js) : option Z := if is_truthy v then le_date le v else Some (le_now le).
(** One address of the answer: [None] when it is refused, else whether it is banned. *)
Definition pull_entry (le : ListEnv) (listId : Z) (rawIp : string) (data : js) : LM (option bool) :=
  (if is_null data then fails type_error else lret tt) >>
  let status := nullish_or (get_field "status" data) (JStr "banned") in
  let banned := match status with JStr s => String.eqb s "banned" | _ => false end in
  chk <- on_store (check_target (le_env le) (JStr rawIp) true true None) ;;
  match chk with
  | BT_err _ _ => lret None
  | BT_ok t =>
      if banned && isNetwork t then lret None
      else
        x <- of_db (inet_in (cidr t)) invalid_inet ;;
        st <- of_db (varchar 16 (le_pg_text le status)) string_too_long ;;
        first_seen <- of_db (pull_date le (get_field "first_seen" data)) invalid_datetime ;;
        last_seen <- of_db (pull_date le (get_field "last_seen" data)) invalid_datetime ;;
        let reports := match get_field "reports" data with JNum (NInt z) => z | _ => 1 end in
        let reason := match get_field "reason" data with JStr s => Some (substring 0 256 s) | _ => None end in
        let sources := match get_field "sources" data with JArr l => Some (map (le_str le) l) | _ => None end in
        (if is_int4 reports then lret tt else fails (Coded out_of_range)) >>
        w <- world ;;
        (if list_exists listId w then lret tt else fails (Coded missing_list)) >>
        change (upsert listId x
          (fun i => {| bi_id := i; bi_blocklist_id := listId; bi_ip := x; bi_reason := reason; bi_first_seen := first_seen; bi_last_seen := last_seen;
                       bi_reports := reports; bi_sources := sources; bi_enabled := true; bi_status := st |})
          (fun e => {| bi_id := bi_id e; bi_blocklist_id := bi_blocklist_id e; bi_ip := bi_ip e;
                       bi_reason := match reason with Some r => Some r | None => bi_reason e end; bi_first_seen := bi_first_seen e;
                       bi_last_seen := Z.max last_seen (bi_last_seen e); bi_reports := Z.max reports (bi_reports e);
                       bi_sources := match sources with Some s => Some s | None => bi_sources e end; bi_enabled := bi_enabled e; bi_status := st |})) >>
        (if banned then lret tt else change (with_sent (S_reputation (cidr t)))) >>
        lret (Some banned)
  end.
Fixpoint pull_entries (le : ListEnv) (listId : Z) (rows : list (string * js)) : LM Z :=
  match rows with
  | [] => lret 0
  | (rawIp, data) :: r =>
      o <- pull_entry le listId rawIp data ;;
      n <- pull_entries le listId r ;;
      lret (match o with Some _ => n + 1 | None => n end)
  end.
Definition syncOblitools (le : ListEnv) (l : ListRow) : LM unit :=
  match bl_api_key l with
  | None | Some EmptyString => lret tt
  | Some key =>
      w <- world ;;
      let instance_ := match bw_config w !! "oblitools_instance_name" with Some s => if is_empty s then None else Some s | None => None end in
      url <- of_check (match le_pull_url le (bl_url l) (bl_last_sync_at l) instance_ with Some u => inr u | None => inl (Plain "Invalid URL") end) ;;
      res <- guardedFetch le (bl_id l) url (Some key) ;;
      (if negb (is_ok res)
       then fails (Plain ("HTTP " +:+ dec (hr_status res) +:+ ": " +:+ match readCapped le res 4096 with inr t => substring 0 200 t | inl _ => "" end))
       else lret tt) >>
      text <- of_check (readCapped le res MAX_BODY_BYTES) ;;
      body <- of_check (match JSON_parse text with Some v => inr v | None => inl (Plain "Unexpected token in JSON") end) ;;
      (if is_null body then fails type_error else lret tt) >>
      count <- pull_entries le (bl_id l) (object_entries (nullish_or (get_field "ips" body) (JObj []))) ;;
      reconcileListBans le l >>
      change (mark_synced (le_now le) count (bl_id l))
  end.

Definition syncOne (le : ListEnv) (l : ListRow) : LM unit :=
  r <- attempt (match bl_source l with Oblitools => syncOblitools le l | UrlList => syncUrl le l end) ;;
  match r with
  | Some f => reportSyncFailure le l f >> fails f
  | None => resolveSyncFailure le (bl_id l)
  end.
Fixpoint sync_each (sync : ListRow -> LM unit) (ls : list ListRow) : LM unit :=
  match ls with [] => lret tt | l :: r => attempt (sync l) >> sync_each sync r end.
(** The world moves between two lists; [le] is what each sync reads of it. *)
Definition syncAll (le : ListEnv) : LM unit :=
  w <- world ;; sync_each (syncOne le) (List.filter bl_enabled (bw_lists w)).
Definition forceSync (le : ListEnv) (id : Z) (tenantId : option Z) : LM bool :=
  w <- world ;;
  match getRow id tenantId w with None => lret false | Some l => syncOne le l >> lret true end.

(** ** Contribution to obli.tools *)

(** A row of [ip_reputation]. *)
Record ReputationRow := { rp_ip : inet; rp_failures : Z; rp_updated_at : Z }.
Record PushTables := { pu_events : list (IpEvent PG); pu_reputation : list ReputationRow }.

(** [raw.replace(/\/\d+$/, '')] *)
Definition strip_mask (raw : string) : string :=
  let '(head, tail) := cut_last "/" raw in
  if str_includes "/" raw && negb (is_empty tail) && str_forall is_digit tail then head else raw.
Definition shareableHost (raw : string) : option string :=
  match parse_text (strip_mask raw) with
  | None => None
  | Some p => if negb (prefix p =? full_prefix p) || isPrivateAddress (address p) then None else Some (address p)
  end.
Definition from_remote (s : World PG) (x : inet) : bool := existsb (fun e => bool_decide (bi_ip e = x)) (w_blocked s).
(** The active bans of the engine since the last push. *)
Definition contributed_ban (since until : Z) (s : World PG) (b : BanRow PG) : bool :=
  String.eqb (b_ban_type b) "auto" && b_is_active b && (since <? b_banned_at b) && (b_banned_at b <=? until)
  && bool_decide (b_origin_app b = None) && bool_decide (b_origin_ref b = None) && bool_decide (b_cidr_prefix b = None)
  && match b_reason b with None => true | Some r => negb (starts_with "obli.tools:" r) && negb (starts_with "MikroTik import:" r) end
  && negb (from_remote s (b_ip b)).
(** The addresses with failures of its own agents, neither banned nor whitelisted. *)
Definition contributed_suspect (since until : Z) (t : PushTables) (s : World PG) (r : ReputationRow) : bool :=
  (0 <? rp_failures r) && (since <? rp_updated_at r) && (rp_updated_at r <=? until)
  && negb (existsb (fun b => b_is_active b && inet_sup (networkSql b) (rp_ip r)) (w_bans s))
  && negb (existsb (fun e => inet_sup (wl_ip e) (rp_ip r)) (w_whitelist s))
  && negb (from_remote s (rp_ip r))
  && existsb (fun e => bool_decide (ev_ip e = rp_ip r) && String.eqb (ev_type e) "auth_failure" && negb (String.eqb (ev_service e) "oblitools_shared")
                && negb (starts_with "mikrotik_import:" (ev_service e))) (pu_events t).
(** The rows read, each address once. *)
Fixpoint share (banned : bool) (rows : list (string * string)) (seen : list string) : list Contribution :=
  match rows with
  | [] => []
  | (raw, reason) :: r =>
      match shareableHost raw with
      | None => share banned r seen
      | Some ip => if existsb (String.eqb ip) seen then share banned r seen
                   else {| ct_ip := ip; ct_reason := reason; ct_banned := banned |} :: share banned r (seen ++ [ip])
      end
  end.
(** [host] is the SQL function: the address without its mask. *)
Definition contributions (host : inet -> string) (since until : Z) (t : PushTables) (s : World PG) : list Contribution :=
  let banned := share true (map (fun b => (host (b_ip b), default "auto_ban" (b_reason b))) (List.filter (contributed_ban since until s) (w_bans s))) [] in
  let suspects := firstn MAX_PUSH_SUSPICIOUS
    (order_by (fun a b => rp_updated_at b <=? rp_updated_at a) (List.filter (contributed_suspect since until t s) (pu_reputation t))) in
  banned ++ share false (map (fun r => (host (rp_ip r), "suspicious")) suspects) (map ct_ip banned).

Inductive PushReply := Pushed_disabled | Pushed_no_key | Pushed_nothing | Pushed_ips (ips : list Contribution).
Definition config_text (key : string) (w : ListWorld PG) : option string :=
  match bw_config w !! key with Some s => if is_empty s then None else Some s | None => None end.
Definition pushNewBans (le : ListEnv) (host : inet -> string) (t : PushTables) : LM PushReply :=
  w <- world ;;
  if negb (bool_decide (bw_config w !! "oblitools_push_enabled" = Some "true")) then lret Pushed_disabled
  else match config_text "oblitools_api_key" w with
  | None => lret Pushed_no_key
  | Some key =>
      let since := match config_text "oblitools_last_push_at" w with Some s => default 0 (le_date le (JStr s)) | None => 0 end in
      let ips := contributions host since (le_now le) t (bw_store w) in
      let pushed := change (fun w => with_config (<["oblitools_last_push_at" := le_iso le (le_now le)]> (bw_config w)) w) in
      match ips with
      | [] => pushed >> lret Pushed_nothing
      | _ =>
          change (with_sent (S_push key (default "obliguard" (config_text "oblitools_instance_name" w)) ips)) >>
          match le_fetch le OBLITOOLS_PUSH_URL (Some key) with
          | H_error m => fails (Plain ("Push failed: " +:+ m))
          | H_response res => if is_ok res then pushed >> lret (Pushed_ips ips)
                              else fails (Plain ("Push failed: HTTP " +:+ dec (hr_status res)))
          end
      end
  end.

(** ** Requests ([remoteBlocklist.controller.ts], [remoteBlocklist.routes.ts]) *)

(** The session: platform admin, operating tenant, outcome of [requireStepUp]. *)
Record Caller := { ca_admin : bool; ca_tenant : Z; ca_stepped_up : bool }.
Inductive ListOp :=
| Op_create (d : CreateList)
| Op_update (id : Z) (p : RemoteBlocklistPatch)
| Op_delete (id : Z)
| Op_toggle (id : Z) (enabled : bool)
| Op_sync (id : Z)
| Op_push (host : inet -> string) (t : PushTables).
(** The guards of the write routes; the pulls and the push need no step-up. *)
Definition may_write (c : Caller) (op : ListOp) : bool :=
  ca_admin c && isMasterTenant (Some (ca_tenant c)) && match op with Op_sync _ | Op_push _ _ => true | _ => ca_stepped_up c end.
Definition at_tenant (t : Z) (d : CreateList) : CreateList := {|
  cl_name := cl_name d; cl_sourceType := cl_sourceType d; cl_url := cl_url d; cl_apiKey := cl_apiKey d; cl_syncInterval := cl_syncInterval d;
  cl_enforce := cl_enforce d; cl_tenantId := Some t |}.
Definition fields_required : Failure := Coded (codedError 400 "" "name, sourceType, and url are required").
Definition route_refused : Failure := Coded (codedError 403 "" "Remote blocklists can only be managed from the Default tenant").
Definition not_found : Failure := Coded (codedError 404 "" "Blocklist not found").
Definition found {A} (o : option A) : LM (PG := PG) unit := match o with Some _ => lret tt | None => fails not_found end.
Definition found_b (b : bool) : LM (PG := PG) unit := if b then lret tt else fails not_found.
Definition serve (le : ListEnv) (c : Caller) (op : ListOp) : LM unit :=
  if negb (may_write c op) then fails route_refused
  else
    let t := Some (ca_tenant c) in
    match op with
    | Op_create d => if is_truthy (cl_name d) && is_truthy (cl_sourceType d) && is_truthy (cl_url d)
                     then create le (at_tenant (ca_tenant c) d) >> lret tt else fails fields_required
    | Op_update id p => r <- update le id t p ;; found r
    | Op_delete id => b <- delete le id t ;; found_b b
    | Op_toggle id enabled => b <- toggleIp le id enabled t ;; found_b b
    | Op_sync id => b <- forceSync le id t ;; found_b b
    | Op_push host tables => r <- pushNewBans le host tables ;; lret tt
    end.

End Operations.
