(* ===== verification/ListBans.v ===== *)
(** * What a remote blocklist bans

    [reconcileListBans] against its contract: the active bans of a list are those its
    entries ask for, and no list that does not enforce has any. *)

From S2P Require Import Prelude JsString JsValue IpValidation ProtectedIps Tenancy Access SocketRooms PgInet Store Hoare Whitelist BanRules BanService BanImport BanAuthority BanLift BanEntry BanEngine Query LiveAlert SsrfGuard Blocklist.

Section Reconcile.
Context {PG : PgInet} {L : PgInetLaws PG}.

(** Every entry is a network without host bits. *)
Definition entry_network (e : BlockedIp PG) (p : ParsedCidr) : Prop := wf_cidr p /\ denotes (bi_ip e) p.
Definition entries_ok (s : World PG) : Prop := forall e, In e (w_blocked s) -> exists p, entry_network e p.

(** The safety contract, in one of the states of the protected set the checks go through. *)
Definition entry_accepted (en : Env) (st0 : PState) (e : BlockedIp PG) (p : ParsedCidr) : Prop :=
  exists st, during en st0 st /\ accepted (en_inputs en) st (JStr (inet_text (bi_ip e))) true true None (mk_target p).
Definition entry_refused (en : Env) (st0 : PState) (e : BlockedIp PG) : Prop :=
  exists st c m, during en st0 st /\ fst (checkBanTarget (en_inputs en) st (JStr (inet_text (bi_ip e))) true true None) = BT_err c m.

Lemma entry_checked en st0 st (e : BlockedIp PG) p t :
  reachable st0 -> during en st0 st -> entry_network e p ->
  fst (checkBanTarget (en_inputs en) st (JStr (inet_text (bi_ip e))) true true None) = BT_ok t -> t = mk_target p /\ entry_accepted en st0 e p.
Proof.
  intros Hr Hd [Hw Hn] H. pose proof (checkBanTarget_accepted _ _ _ _ _ _ _ (reachable_wf _ (during_reachable _ _ _ Hr Hd)) H) as Hacc.
  assert (t = mk_target p) as ->; [|split; [done|by exists st]].
  unfold checkBanTarget in H. destruct (parseBanTarget _ _ _) as [bt|] eqn:Et; [|done].
  destruct (findBanSafetyConflict _ _ _ _ _) as [[c|] pst]; [done|]. injection H as ->.
  apply parseBanTarget_ok in Et as (q & Hq & -> & _). cbn [parseIpOrCidr] in Hq. rewrite (inet_text_parse _ p) in Hq by done. by injection Hq as ->.
Qed.

(** The targets kept are those of the accepted entries, and no accepted entry is lost. *)
Lemma screen_run en l st0 cs (w : World PG) :
  reachable st0 -> during en st0 (w_protected w) -> (forall e, In e cs -> exists p, entry_network e p) ->
  exists ts st, screen_candidates en l cs w = (inr ts, with_protected st w) /\ during en st0 st
    /\ (forall t, In t ts -> exists e p, In e cs /\ entry_network e p /\ remote_target t p /\ entry_accepted en st0 e p)
    /\ (forall e, In e cs -> entry_refused en st0 e \/ exists t p, In t ts /\ remote_target t p /\ entry_network e p).
Proof.
  intros Hr. revert w. induction cs as [|e cs IH]; intros w Hd Hcs.
  { exists [], (w_protected w). split; [by destruct w|]. by split_and!. }
  cbn [screen_candidates]. unfold bind at 1, check_target at 1. destruct (Hcs e ltac:(by left)) as (p & Hp).
  pose proof (check_during en st0 (w_protected w) (JStr (inet_text (bi_ip e))) true true None) as Hst.
  assert (Hd' : during en st0 (snd (checkBanTarget (en_inputs en) (w_protected w) (JStr (inet_text (bi_ip e))) true true None))) by auto.
  pose proof (entry_checked en st0 (w_protected w) e p) as Hok.
  destruct (checkBanTarget (en_inputs en) (w_protected w) (JStr (inet_text (bi_ip e))) true true None) as [chk st1] eqn:Ec. cbn [fst snd] in *.
  destruct (IH (with_protected st1 w) Hd') as (ts & st & R & H1 & H2 & H3); [intros; apply Hcs; by right|].
  unfold bind at 1. rewrite R. eexists _, st. split; [reflexivity|]. split; [done|].
  assert (H2' : forall t, In t ts -> exists e0 p0, In e0 (e :: cs) /\ entry_network e0 p0 /\ remote_target t p0 /\ entry_accepted en st0 e0 p0)
    by (intros t Ht; destruct (H2 t Ht) as (e0 & p0 & ? & ?); exists e0, p0; split; [by right|done]).
  destruct chk as [t|c m].
  - destruct (Hok t Hr Hd Hp eq_refl) as [-> Hacc]. split.
    + intros t [<-|Ht]; [|by apply H2']. exists e, p. split; [by left|]. split_and!; try done. split_and!; try done. apply Hp.
    + intros e' [<-|He].
      * right. eexists _, p. split; [by left|]. split; [|done]. split_and!; try done. apply Hp.
      * destruct (H3 e' He) as [?|(t & q & Ht & Hq)]; [by left|]. right. exists t, q. split; [by right|done].
  - split; [exact H2'|]. intros e' [<-|He]; [left; by exists (w_protected w), c, m; rewrite Ec|].
    destruct (H3 e' He) as [?|(t & q & Ht & Hq)]; [by left|]. right. exists t, q. by split.
Qed.

(** What an import leaves alone. *)
Definition same_inputs (w w' : World PG) : Prop :=
  w_blocked w' = w_blocked w /\ w_whitelist w' = w_whitelist w /\ w_protected w' = w_protected w /\ w_directory w' = w_directory w.
Lemma same_inputs_refl (w : World PG) : same_inputs w w. Proof. done. Qed.
Lemma same_inputs_trans (a b c : World PG) : same_inputs a b -> same_inputs b c -> same_inputs a c.
Proof. intros (? & ? & ? & ?) (? & ? & ? & ?). by split_and!; etransitivity. Qed.

Lemma insert_ignore_inputs mks (w : World PG) : same_inputs w (snd (insert_ignore mks w)).
Proof.
  revert w. induction mks as [|mk mks IH]; intros w; [done|]. cbn [insert_ignore]. unfold bind at 1.
  assert (H : same_inputs w (snd (insert_ban mk w))) by (unfold insert_ban; by destruct (violates _ _)).
  destruct (insert_ban mk w) as [[e|o] w0]; cbn [snd] in H; [done|]. specialize (IH w0). unfold bind.
  destruct (insert_ignore mks w0) as [[e|l] w1]; cbn [snd ret] in *; by eapply same_inputs_trans.
Qed.
Lemma import_inputs en ts o (w : World PG) : same_inputs w (snd (createRemoteBans en ts o w)).
Proof.
  unfold createRemoteBans, bind. assert (H : forall cs w, same_inputs w (snd (remote_chunks en o cs w))).
  { clear. induction cs as [|c cs IH]; intros w; [done|]. cbn [remote_chunks]. unfold bind at 1, remote_chunk at 1, bind at 1, get at 1, bind at 1.
    destruct (parse_addresses c) as [rows|]; [|done]. cbn [of_option ret].
    pose proof (insert_ignore_inputs (map (fun r => remote_row en o (fst r) (snd r))
      (List.filter (fun r => remote_wanted o w (set_masklen (snd r) (rt_prefix (fst r)))) rows)) w) as Hi.
    destruct (insert_ignore _ w) as [[e|l] w1]; cbn [snd] in *; [done|]. specialize (IH w1). unfold bind.
    destruct (remote_chunks en o cs w1) as [[e|r] w2]; cbn [snd ret] in *; by eapply same_inputs_trans. }
  specialize (H (chunks REMOTE_INSERT_CHUNK ts) w). destruct (remote_chunks _ _ _ w) as [[e|[|b r]] w1]; cbn [snd] in *; done.
Qed.
Lemma deactivate_inputs en ids (w : World PG) : same_inputs w (snd (deactivateBans en ids L_remote_sync w)).
Proof. rewrite deactivateBans_spec. cbn [snd]. unfold deactivate_world. by destruct (deactivated_rows _ _ _ _). Qed.

(** The rows a reconciliation ends. *)
Definition ended_ban (on : bool) (listId : Z) (es : list (BlockedIp PG)) (b : BanRow PG) : bool :=
  list_ban listId b && (negb on || negb (existsb (fun e => wanted_entry listId e && bool_decide (bi_ip e = networkSql b)) es)).
Definition lifted_by_list (now : Z) (on : bool) (listId : Z) (es : list (BlockedIp PG)) (b : BanRow PG) : BanRow PG :=
  if ended_ban on listId es b then deactivated now L_remote_sync b else b.

Lemma deactivate_where_rows en p (w : World PG) : wf_bans w -> (forall b, p b = true -> b_is_active b = true) ->
  exists rows w', deactivateBans en (map b_id (List.filter p (w_bans w))) L_remote_sync w = (inr rows, w')
    /\ w_bans w' = map (fun b => if p b then deactivated (en_now en) L_remote_sync b else b) (w_bans w) /\ same_inputs w w'.
Proof.
  intros Hw Hp. eexists _, _. split; [apply deactivateBans_spec|].
  pose proof (deactivate_inputs en (map b_id (List.filter p (w_bans w))) w) as Hi. rewrite deactivateBans_spec in Hi. split; [|exact Hi].
  destruct (deactivate_world_rows en L_remote_sync (map b_id (List.filter p (w_bans w))) w Hw) as [-> _].
  apply map_ext_in. intros b Hb. destruct (p b) eqn:E.
  - rewrite (proj2 (mem_In _ _)); [by rewrite (Hp b E)|]. by apply in_map, filter_In.
  - destruct (mem (b_id b) _) eqn:Em; [|done]. apply mem_In in Em. by rewrite (matched_row w p b Hw Hb Em) in E.
Qed.

Lemma deactivate_list_rows en ref (w : World PG) : wf_bans w ->
  exists n w', deactivateRemoteBans en ref w = (inr n, w')
    /\ w_bans w' = map (fun b => if bool_decide (b_origin_ref b = Some ref) && String.eqb (b_ban_type b) "remote" && b_is_active b
                                 then deactivated (en_now en) L_remote_sync b else b) (w_bans w) /\ same_inputs w w'.
Proof.
  intros Hw. set (p := fun b : BanRow PG => bool_decide (b_origin_ref b = Some ref) && String.eqb (b_ban_type b) "remote" && b_is_active b).
  destruct (deactivate_where_rows en p w Hw) as (rows & w' & R & Hb & Hi); [intros b E; unfold p in E; by boolify|].
  exists (count_of rows), w'. split; [|by split]. unfold deactivateRemoteBans, deactivate_where. unfold bind at 1, get, bind at 1. fold p.
  unfold bind. by rewrite R.
Qed.

(** A row of the list that is still active is asked for by an entry. *)
Lemma list_ban_backed now listId es (b : BanRow PG) : list_ban listId (lifted_by_list now true listId es b) = true ->
  exists e, In e es /\ wanted_entry listId e = true /\ bi_ip e = networkSql (lifted_by_list now true listId es b).
Proof.
  unfold lifted_by_list. destruct (ended_ban true listId es b) eqn:E; intros Hlb.
  { unfold list_ban in Hlb. cbn [deactivated b_is_active] in Hlb. by rewrite andb_false_r in Hlb. }
  unfold ended_ban in E. rewrite Hlb in E. cbn [negb orb andb] in E. apply negb_false_iff, existsb_exists in E as (e & He & Ee).
  apply andb_true_iff in Ee as [E1 E2%bool_decide_eq_true]. by exists e.
Qed.
Lemma list_ban_off now listId es (b : BanRow PG) : list_ban listId (lifted_by_list now false listId es b) = true -> False.
Proof.
  unfold lifted_by_list, ended_ban. cbn [negb orb]. rewrite andb_true_r. destruct (list_ban listId b) eqn:E; [|congruence].
  unfold list_ban. cbn [deactivated b_is_active]. by rewrite andb_false_r.
Qed.

Lemma import_wanted l (w : World PG) x : remote_wanted (import_options l) w x = negb (remote_covered (w_bans w) x) && negb (remote_whitelisted (import_options l) (w_whitelist w) x).
Proof. unfold remote_wanted, remote_lifted. cbn [import_options ro_respectLifts andb negb]. by rewrite andb_true_r. Qed.

(** What a reconciliation of an enforcing list does to the rows. *)
Lemma enforce_run en l (w : World PG) : wf_bans w -> reachable (w_protected w) -> entries_ok w ->
  exists n new w', enforce_entries en l w = (inr n, w')
    /\ w_bans w' = map (lifted_by_list (en_now en) true (bl_id l) (w_blocked w)) (w_bans w) ++ new
    /\ w_blocked w' = w_blocked w
    /\ (forall b, In b new -> list_ban (bl_id l) b = true /\ b_scope b = "global" /\ exists e p, In e (w_blocked w) /\ wanted_entry (bl_id l) e = true
          /\ bi_ip e = networkSql b /\ rowTarget b = Some p /\ entry_accepted en (w_protected w) e p
          /\ remote_covered (map (lifted_by_list (en_now en) true (bl_id l) (w_blocked w)) (w_bans w)) (bi_ip e) = false
          /\ remote_whitelisted (import_options l) (w_whitelist w) (bi_ip e) = false)
    /\ (forall e, In e (w_blocked w) -> wanted_entry (bl_id l) e = true -> entry_refused en (w_protected w) e
          \/ remote_covered (w_bans w') (bi_ip e) = true \/ remote_whitelisted (import_options l) (w_whitelist w) (bi_ip e) = true).
Proof.
  intros Hw Hr He. set (kept := map (lifted_by_list (en_now en) true (bl_id l) (w_blocked w)) (w_bans w)).
  destruct (deactivate_where_rows en (stale_ban (bl_id l) (w_blocked w)) w Hw) as (rows & w1 & R1 & Hb1 & I1 & I2 & I3 & _).
  { intros b E. unfold stale_ban, list_ban in E. by boolify. }
  change (w_bans w1 = kept) in Hb1.
  destruct (screen_run en l (w_protected w) (candidates (bl_id l) w1) w1 Hr) as (ts & st & R2 & _ & Hts & Hall).
  { rewrite I3. apply rtc_refl. }
  { intros e Hin. apply filter_In in Hin as [Hin _]. rewrite I1 in Hin. by apply He. }
  destruct (import_run en ts (import_options l) (with_protected st w1)) as (new & w2 & R3 & [Hb2 Hwl2] & Hnew & Hmiss).
  { apply List.Forall_forall. intros t Ht. destruct (Hts t Ht) as (e & p & _ & _ & Hp & _). by exists p. }
  pose proof (import_inputs en ts (import_options l) (with_protected st w1)) as (J1 & _). rewrite R3 in J1. cbn [snd with_protected w_blocked] in J1.
  cbn [with_protected w_bans w_whitelist] in Hb2, Hwl2.
  eexists _, new, w2. split.
  { unfold enforce_entries. unfold bind at 1, get at 1. rewrite (bind_run _ _ _ _ _ R1). unfold bind at 1, get at 1.
    rewrite (bind_run _ _ _ _ _ R2), (bind_run _ _ _ _ _ R3). reflexivity. }
  split; [by rewrite Hb2, Hb1|]. split; [by rewrite J1, I1|]. split.
  - intros b Hb. destruct (Hnew b Hb) as (t & p & ip & i & Ht & Hp & Hip & -> & Hwant). destruct (Hts t Ht) as (e & q & Hin & Hq & Hp' & Hacc).
    destruct (remote_row_network en (import_options l) t p ip i Hp Hip) as (_ & Hd & Hrt).
    destruct (remote_row_network en (import_options l) t q ip i Hp' Hip) as (_ & Hd' & Hrt'). assert (p = q) as -> by congruence.
    assert (Eip : bi_ip e = networkSql (remote_row en (import_options l) t ip i)) by (eapply denotes_ext; [apply Hq|apply Hq|done]).
    unfold list_ban. rewrite bool_decide_true by done. split; [done|]. split; [done|]. exists e, q.
    apply filter_In in Hin as [Hin Hc]. rewrite I1 in Hin. apply andb_true_iff in Hc as [Hc _].
    rewrite import_wanted in Hwant. cbn [with_protected w_bans w_whitelist] in Hwant. rewrite <- Eip, Hb1, I2 in Hwant.
    apply andb_true_iff in Hwant as [H1 H2]. apply negb_true_iff in H1, H2. by split_and!.
  - intros e Hin Hwe. destruct (remote_covered (w_bans w1) (bi_ip e)) eqn:Ec.
    { right; left. rewrite Hb2. unfold remote_covered in *. by rewrite existsb_app, Ec. }
    assert (Hcand : In e (candidates (bl_id l) w1)) by (apply filter_In; rewrite I1, Hwe, Ec; done).
    destruct (Hall e Hcand) as [?|(t & p & Ht & Hp & Hn)]; [by left|]. right. specialize (Hmiss t p (bi_ip e) Ht Hp ltac:(apply Hn)).
    rewrite import_wanted, Hwl2, I2 in Hmiss. by destruct (remote_covered (w_bans w2) (bi_ip e)), (remote_whitelisted _ _ _); auto.
Qed.

Lemma reconcile_run le l (w : ListWorld PG) :
  wf_bans (bw_store w) -> reachable (w_protected (bw_store w)) -> entries_ok (bw_store w) ->
  let s := bw_store w in
  let on := stored_enforce (bl_id l) w in
  let kept := map (lifted_by_list (le_now le) on (bl_id l) (entries w)) (w_bans s) in
  exists n new w', reconcileListBans le l w = (inr n, w')
    /\ w_bans (bw_store w') = kept ++ new
    /\ (forall b, In b new -> on = true /\ list_ban (bl_id l) b = true /\ b_scope b = "global"
          /\ exists e p, In e (entries w) /\ wanted_entry (bl_id l) e = true /\ bi_ip e = networkSql b /\ rowTarget b = Some p
               /\ entry_accepted (le_env le) (w_protected s) e p /\ remote_covered kept (bi_ip e) = false
               /\ remote_whitelisted (import_options l) (w_whitelist s) (bi_ip e) = false)
    /\ (forall b, In b (w_bans (bw_store w')) -> list_ban (bl_id l) b = true ->
          on = true /\ exists e, In e (entries w) /\ wanted_entry (bl_id l) e = true /\ bi_ip e = networkSql b)
    /\ (on = true -> forall e, In e (entries w) -> wanted_entry (bl_id l) e = true ->
          entry_refused (le_env le) (w_protected s) e \/ remote_covered (w_bans (bw_store w')) (bi_ip e) = true
          \/ remote_whitelisted (import_options l) (w_whitelist s) (bi_ip e) = true)
    /\ entries w' = entries w /\ bw_lists w' = bw_lists w.
Proof.
  intros Hw Hr He. cbv zeta. unfold reconcileListBans, lbind at 1, world at 1. destruct (stored_enforce (bl_id l) w).
  - destruct (enforce_run (le_env le) l (bw_store w) Hw Hr He) as (n & new & s' & R & Hb & Hbl & Hnew & Hall).
    exists n, new, (with_store s' w). unfold on_store. rewrite R. split; [done|]. split; [exact Hb|]. split; [naive_solver|]. split; [|naive_solver].
    intros b Hin Hlb. split; [done|]. cbn [with_store bw_store] in Hin. rewrite Hb in Hin. apply in_app_iff in Hin as [Hin|Hin]; [|naive_solver].
    apply in_map_iff in Hin as (c & <- & Hc). by apply list_ban_backed in Hlb.
  - unfold lbind, on_store, entries. destruct (deactivate_list_rows (le_env le) (blocklistOriginRef (bl_id l)) (bw_store w) Hw) as (n & s' & R & Hb & I1 & _).
    rewrite R. exists (0, n), [], (with_store s' w). split; [done|]. assert (Hoff : w_bans s' = map (lifted_by_list (le_now le) false (bl_id l) (w_blocked (bw_store w))) (w_bans (bw_store w))).
    { rewrite Hb. apply map_ext. intros b. unfold lifted_by_list, ended_ban, list_ban. cbn [negb orb]. by rewrite andb_true_r. }
    split; [by rewrite app_nil_r|]. split; [done|]. split; [|by split_and!]. intros b Hin Hlb. cbn [with_store bw_store] in Hin. rewrite Hoff in Hin.
    apply in_map_iff in Hin as (c & <- & _). exfalso. by apply list_ban_off in Hlb.
Qed.

(** C28. A reconciliation brings the bans of a list in line with its entries, and touches no
    other ban. From any consistent store it succeeds. It ends exactly the list's active bans
    that no enabled 'banned' entry asks for - all of them when the stored list does not
    enforce or is gone, whatever the caller's copy says - and adds, for an enforcing list
    only, active global bans each of which is the network of one such entry, accepted by the
    safety contract, not whitelisted and not inside an active global ban. Afterwards every
    active ban of the list stands for an entry, and every entry that asks for a ban is
    covered, unless the contract refuses it or it is whitelisted. The entries and the lists
    are left as they were. *)
Theorem list_bans_exact le l (w : ListWorld PG)
    (Hw : wf_bans (bw_store w)) (Hr : reachable (w_protected (bw_store w))) (He : entries_ok (bw_store w)) :
  let s := bw_store w in
  let on := stored_enforce (bl_id l) w in
  let kept := map (lifted_by_list (le_now le) on (bl_id l) (entries w)) (w_bans s) in
  exists n new w', reconcileListBans le l w = (inr n, w')
    /\ w_bans (bw_store w') = kept ++ new
    /\ (forall b, In b new -> on = true /\ list_ban (bl_id l) b = true /\ b_scope b = "global"
          /\ exists e p, In e (entries w) /\ wanted_entry (bl_id l) e = true /\ bi_ip e = networkSql b /\ rowTarget b = Some p
               /\ entry_accepted (le_env le) (w_protected s) e p /\ remote_covered kept (bi_ip e) = false
               /\ remote_whitelisted (import_options l) (w_whitelist s) (bi_ip e) = false)
    /\ (forall b, In b (w_bans (bw_store w')) -> list_ban (bl_id l) b = true ->
          on = true /\ exists e, In e (entries w) /\ wanted_entry (bl_id l) e = true /\ bi_ip e = networkSql b)
    /\ (on = true -> forall e, In e (entries w) -> wanted_entry (bl_id l) e = true ->
          entry_refused (le_env le) (w_protected s) e \/ remote_covered (w_bans (bw_store w')) (bi_ip e) = true
          \/ remote_whitelisted (import_options l) (w_whitelist s) (bi_ip e) = true)
    /\ entries w' = entries w /\ bw_lists w' = bw_lists w.
Proof. by apply reconcile_run. Qed.

End Reconcile.
