(* ===== verification/ListRuns.v ===== *)
(** * Remote blocklists over time

    What any history of requests, pulls and ban requests keeps true of the lists: their keys,
    that only an enforcing list has bans, and where a list's key is sent. An operation is
    followed through its monad as a move along a preorder of worlds. *)

From S2P Require Import Prelude JsString JsValue JsJson IpValidation ProtectedIps Tenancy Access SocketRooms PgInet Store Hoare Whitelist BanRules BanService BanImport BanAuthority BanLift BanEntry BanEngine Query SettingsStore Pagination SsrfGuard LiveAlert Blocklist ListBans.

(** ** Moves *)

Section Moves.
Context {PG : PgInet} (R : relation (ListWorld PG)) {HR : PreOrder R}.

Definition moves {A} (m : LM A) : Prop := forall w, R w (snd (m w)).

Lemma moves_ret {A} (a : A) : moves (lret a). Proof. intros w. reflexivity. Qed.
Lemma moves_fails {A} e : moves (fails (A := A) e). Proof. intros w. reflexivity. Qed.
Lemma moves_bind {A B} (m : LM A) (k : A -> LM B) : moves m -> (forall a, moves (k a)) -> moves (lbind m k).
Proof.
  intros Hm Hk w. specialize (Hm w). unfold lbind. destruct (m w) as [[e|a] w1]; cbn [snd] in *; [done|]. etransitivity; [exact Hm|]. apply Hk.
Qed.
Lemma moves_world {A} (k : ListWorld PG -> LM A) : (forall w, R w (snd (k w w))) -> moves (lbind world k).
Proof. intros H w. apply H. Qed.
Lemma moves_read {A} (k : ListWorld PG -> LM A) : (forall w0, moves (k w0)) -> moves (lbind world k).
Proof. intros H w. apply H. Qed.
Lemma moves_change f : (forall w, R w (f w)) -> moves (change f). Proof. intros H w. apply H. Qed.
Lemma moves_check {A} (r : Failure + A) : moves (of_check r). Proof. destruct r; [apply moves_fails|apply moves_ret]. Qed.
Lemma moves_db {A} (o : option A) e : moves (of_db o e). Proof. destruct o; [apply moves_ret|apply moves_fails]. Qed.
Lemma moves_attempt {A} (m : LM A) : moves m -> moves (attempt m).
Proof. intros H w. specialize (H w). unfold attempt. by destruct (m w) as [[e|a] w1]. Qed.
Lemma moves_store {A} (m : M PG A) : (forall w, R w (with_store (snd (m (bw_store w))) w)) -> moves (on_store m).
Proof. intros H w. specialize (H w). unfold on_store. by destruct (m (bw_store w)) as [r s]. Qed.
Lemma moves_when {A} (b : bool) (m1 m2 : LM A) : moves m1 -> moves m2 -> moves (if b then m1 else m2).
Proof. by destruct b. Qed.

Lemma moves_each (sync : ListRow -> LM unit) ls : (forall l, In l ls -> moves (sync l)) -> moves (sync_each sync ls).
Proof.
  induction ls as [|l ls IH]; intros H; cbn [sync_each]; [apply moves_ret|]. apply moves_bind; [apply moves_attempt, H; by left|].
  intros _. apply IH. intros l' Hl. apply H. by right.
Qed.

End Moves.

Ltac moved := first [apply moves_ret | apply moves_fails | apply moves_check | apply moves_db]; typeclasses eauto.
Ltac move_step := apply moves_bind; [typeclasses eauto| |intros ?].

(** ** A pull, step by step *)

Section Pull.
Context {PG : PgInet}.

Lemma check_frame en raw (s : World PG) : exists r p, check_target en raw true true None s = (inr r, with_protected p s).
Proof. unfold check_target. destruct (checkBanTarget _ _ _ _ _ _) as [r p]. eauto. Qed.
Lemma keep_targets_frame en raws ips (s : World PG) : exists r p, keep_targets en raws ips s = (inr r, with_protected p s).
Proof.
  revert ips s. induction raws as [|raw raws IH]; intros ips s; cbn [keep_targets]; [by exists ips, (w_protected s); destruct s|].
  destruct (check_frame en (JStr raw) s) as (r & p & E). unfold bind. rewrite E. destruct r as [t|c m].
  - destruct (MAX_URL_ENTRIES <=? _); [by exists ips, p|]. destruct (IH (if existsb (String.eqb (cidr t)) ips then ips else ips ++ [cidr t]) (with_protected p s)) as (r & p' & ->).
    by exists r, p'.
  - destruct (IH ips (with_protected p s)) as (r & p' & ->). by exists r, p'.
Qed.

(** Rows an upsert writes. *)
Definition fresh_of (listId : Z) (x : inet) (fresh : Z -> BlockedIp PG) : Prop :=
  forall i, bi_id (fresh i) = i /\ bi_blocklist_id (fresh i) = listId /\ bi_ip (fresh i) = x.
Definition keeps_key (merge : BlockedIp PG -> BlockedIp PG) : Prop :=
  forall e, bi_id (merge e) = bi_id e /\ bi_blocklist_id (merge e) = bi_blocklist_id e /\ bi_ip (merge e) = bi_ip e.

Lemma upsert_lists listId x fresh merge (w : ListWorld PG) :
  bw_lists (upsert listId x fresh merge w) = bw_lists w /\ bw_sent (upsert listId x fresh merge w) = bw_sent w.
Proof. unfold upsert. by destruct (existsb _ _). Qed.
Lemma upserts_lists listId fresh merge xs (w : ListWorld PG) :
  let w' := fold_left (fun w x => upsert listId x (fresh x) merge w) xs w in bw_lists w' = bw_lists w /\ bw_sent w' = bw_sent w.
Proof.
  revert w. induction xs as [|x xs IH]; intros w; [done|]. cbn [fold_left]. destruct (IH (upsert listId x (fresh x) merge w)) as [-> ->]. apply upsert_lists.
Qed.

(** The URLs a pull of a list may ask for: the list's, and with the query of an obli.tools pull. *)
Definition leads_to (le : ListEnv) (url target : string) : Prop :=
  target = le_href le url \/ exists since instance_ u, le_pull_url le url since instance_ = Some u /\ target = le_href le u.
Definition sent_key (l : ListRow) : option string := match bl_api_key l with Some k => if is_empty k then None else Some k | None => None end.

Context (R : relation (ListWorld PG)) {HR : PreOrder R} (le : ListEnv) (l : ListRow).
Context (Hcheck : forall w p, R w (with_store (with_protected p (bw_store w)) w))
  (Hupsert : forall w x fresh merge, list_exists (bl_id l) w = true -> fresh_of (bl_id l) x fresh -> keeps_key merge -> R w (upsert (bl_id l) x fresh merge w))
  (Hdrop : forall w, R w (drop_unseen (le_now le) (bl_id l) w))
  (Hreconcile : moves R (reconcileListBans le l))
  (Hmark : forall w n, R w (mark_synced (le_now le) n (bl_id l) w))
  (Halert : forall w a h, R w (with_alerts a h w))
  (Hfetch : forall w target, leads_to le (bl_url l) target -> R w (with_sent (S_fetch (bl_id l) target (sent_key l)) w))
  (Hreputation : forall w ip, R w (with_sent (S_reputation ip) w)).

Lemma moves_fetch url key : key = sent_key l -> leads_to le (bl_url l) (le_href le url) -> moves R (guardedFetch le (bl_id l) url key).
Proof.
  intros -> Hl. unfold guardedFetch. destruct (assertPublicHttpUrl _ _ _ _); [moved|]. move_step; [apply moves_change; intros w; by apply Hfetch|].
  destruct (le_fetch _ _ _); [moved|]. apply moves_when; [moved|moved].
Qed.

Lemma moves_upserts now xs (w : ListWorld PG) : list_exists (bl_id l) w = true ->
  R w (fold_left (fun w x => upsert (bl_id l) x (fun i => blank_entry i (bl_id l) x now) (entry_seen now) w) xs w).
Proof.
  revert w. induction xs as [|x xs IH]; intros w Hl; [reflexivity|]. cbn [fold_left].
  transitivity (upsert (bl_id l) x (fun i => blank_entry i (bl_id l) x now) (entry_seen now) w); [by apply Hupsert|]. apply IH.
  unfold list_exists. by rewrite (proj1 (upsert_lists _ _ _ _ _)).
Qed.
Lemma moves_upsert_seen now ips : moves R (upsert_seen now (bl_id l) ips).
Proof.
  unfold upsert_seen. move_step; [moved|]. apply moves_world. intros w. unfold lbind. destruct (list_exists (bl_id l) w) eqn:E; cbn [negb]; [|reflexivity].
  case_bool_decide; [|reflexivity]. unfold change. cbn [snd lret]. by apply moves_upserts.
Qed.
Lemma moves_upsert_chunks now cs : moves R (upsert_chunks now (bl_id l) cs).
Proof. induction cs as [|c cs IH]; cbn [upsert_chunks]; [moved|]. move_step; [apply moves_upsert_seen|exact IH]. Qed.

Lemma moves_apply_url text : moves R (apply_url_list le l text).
Proof.
  unfold apply_url_list. move_step.
  { apply moves_store. intros w. destruct (keep_targets_frame (le_env le) (body_lines text) [] (bw_store w)) as (r & p & ->). apply Hcheck. }
  move_step; [apply moves_upsert_chunks|]. move_step; [destruct a; [moved|by apply moves_change]|]. move_step; [exact Hreconcile|].
  apply moves_change. intros w. apply Hmark.
Qed.
Lemma moves_url : moves R (syncUrl le l).
Proof.
  unfold syncUrl. move_step; [apply moves_fetch; [done|by left]|]. move_step; [apply moves_when; [moved|moved]|].
  move_step; [moved|]. apply moves_apply_url.
Qed.

Lemma moves_pull_entry rawIp data : moves R (pull_entry le (bl_id l) rawIp data).
Proof.
  unfold pull_entry. move_step; [apply moves_when; [moved|moved]|]. cbv zeta. move_step.
  { apply moves_store. intros w. destruct (check_frame (le_env le) (JStr rawIp) (bw_store w)) as (r & p & ->). apply Hcheck. }
  destruct a0 as [t|]; [|moved]. apply moves_when; [moved|]. do 4 (move_step; [moved|]).
  move_step; [apply moves_when; [moved|moved]|]. apply moves_world. intros w. unfold lbind at 1.
  destruct (list_exists (bl_id l) w) eqn:E; [|reflexivity]. cbn [lret]. unfold lbind at 1, change at 1. cbv beta iota.
  match goal with |- R w (snd (?m ?w1)) => transitivity w1; [by apply Hupsert|]; change (R w1 (snd (m w1))); generalize w1; change (moves R m) end.
  move_step; [|moved]. apply moves_when; [moved|by apply moves_change].
Qed.
Lemma moves_pull rows : moves R (pull_entries le (bl_id l) rows).
Proof.
  induction rows as [|[k v] rows IH]; cbn [pull_entries]; [moved|]. move_step; [apply moves_pull_entry|]. move_step; [exact IH|moved].
Qed.
Lemma moves_oblitools : moves R (syncOblitools le l).
Proof.
  unfold syncOblitools. destruct (bl_api_key l) as [[|c key]|] eqn:Ek; [moved| |moved]. apply moves_read. intros w0. cbv zeta.
  destruct (le_pull_url le (bl_url l) _ _) as [url|] eqn:Eu; [|intros w; reflexivity].
  match goal with |- moves R (lbind (of_check (inr ?u)) ?k) => change (moves R (k u)); cbv beta end.
  move_step; [apply moves_fetch; [unfold sent_key; by rewrite Ek|right; by eexists _, _, url]|].
  move_step; [apply moves_when; [moved|moved]|]. do 2 (move_step; [moved|]).
  move_step; [apply moves_when; [moved|moved]|]. move_step; [apply moves_pull|]. move_step; [exact Hreconcile|].
  apply moves_change. intros w'. apply Hmark.
Qed.

(** Each step of a pull is one of those the hypotheses name. *)
Lemma moves_sync : moves R (syncOne le l).
Proof.
  unfold syncOne. move_step; [apply moves_attempt; destruct (bl_source l); [apply moves_oblitools|apply moves_url]|]. destruct a as [f|].
  - move_step; [|moved]. apply moves_change. intros w. apply Halert.
  - apply moves_change. intros w. destruct (existsb _ _); [reflexivity|]. destruct (le_alerts_up le); [apply Halert|reflexivity].
Qed.

End Pull.
