(* ===== verification/ListHistory.v ===== *)
(** * The lists, whatever happens

    The invariant of the remote blocklists over any history: their keys, the owner of each
    entry, and that every active ban of a list belongs to a list that enforces. *)

From S2P Require Import Prelude JsString JsValue IpValidation ProtectedIps Tenancy Access SocketRooms PgInet Store Hoare Whitelist BanRules BanService BanImport BanAuthority BanLift BanEntry BanEngine Query SettingsStore Pagination SsrfGuard LiveAlert Blocklist ListBans ListRuns.

(** ** Rows an operation adds *)

Section Added.
Context {PG : PgInet}.

(** Every active row comes from an active row of the same source, or satisfies [P]. *)
Definition only_adds (P : BanRow PG -> Prop) (w w' : World PG) : Prop :=
  forall b, In b (w_bans w') -> b_is_active b = true ->
    P b \/ exists b0, In b0 (w_bans w) /\ b_is_active b0 = true /\ b_origin_ref b0 = b_origin_ref b /\ b_ban_type b0 = b_ban_type b.

Lemma only_adds_same P (w w' : World PG) : w_bans w' = w_bans w -> only_adds P w w'.
Proof. intros E b Hb Ha. rewrite E in Hb. right. by exists b. Qed.
Lemma only_adds_trans (P : BanRow PG -> Prop) (a b c : World PG) :
  (forall r r', b_origin_ref r = b_origin_ref r' -> P r -> P r') -> only_adds P a b -> only_adds P b c -> only_adds P a c.
Proof.
  intros HP H1 H2 r Hr Ha. destruct (H2 r Hr Ha) as [?|(r0 & Hr0 & Ha0 & E1 & E2)]; [by left|].
  destruct (H1 r0 Hr0 Ha0) as [HPr|(r1 & ? & ? & ? & ?)]; [left; by eapply HP|right; exists r1; split_and!; [done|done|congruence|congruence]].
Qed.
Lemma adds_map P (f : BanRow PG -> BanRow PG) (w w' : World PG) : w_bans w' = map f (w_bans w) ->
  (forall b, b_is_active (f b) = true -> b_is_active b = true /\ b_origin_ref (f b) = b_origin_ref b /\ b_ban_type (f b) = b_ban_type b) ->
  only_adds P w w'.
Proof.
  intros E Hf b Hb Ha. rewrite E in Hb. apply in_map_iff in Hb as (b0 & <- & Hb). right. exists b0. destruct (Hf b0 Ha) as (? & ? & ?). by split_and!.
Qed.
Lemma deactivated_same now reason (p : BanRow PG -> bool) b : let f b := if p b then deactivated now reason b else b in
  b_is_active (f b) = true -> b_is_active b = true /\ b_origin_ref (f b) = b_origin_ref b /\ b_ban_type (f b) = b_ban_type b.
Proof. cbv beta zeta. destruct (p b); [done|]. intros. by split_and!. Qed.

Lemma deactivate_adds P en reason ids (w : World PG) : only_adds P w (snd (deactivateBans en ids reason w)).
Proof.
  rewrite deactivateBans_spec. cbn [snd]. unfold deactivate_world. destruct (deactivated_rows _ _ _ _); [by apply only_adds_same|].
  eapply adds_map; [done|]. intros r. apply (deactivated_same (en_now en) reason (fun b0 => mem (b_id b0) (act_ids ids) && b_is_active b0)).
Qed.

Definition from_source (ref : string) (b : BanRow PG) : Prop := b_origin_ref b = Some ref.
Lemma from_source_ext ref (r r' : BanRow PG) : b_origin_ref r = b_origin_ref r' -> from_source ref r -> from_source ref r'.
Proof. unfold from_source. congruence. Qed.

Lemma insert_ignore_adds ref mks (w : World PG) : (forall mk i, In mk mks -> from_source ref (mk i)) -> only_adds (from_source ref) w (snd (insert_ignore mks w)).
Proof.
  revert w. induction mks as [|mk mks IH]; intros w H; [by apply only_adds_same|]. cbn [insert_ignore]. unfold bind at 1.
  assert (H0 : only_adds (from_source ref) w (snd (insert_ban mk w))).
  { unfold insert_ban. destruct (violates _ _); [by apply only_adds_same|]. intros b Hb Ha. cbn [snd with_bans w_bans with_next_ban] in Hb.
    apply in_app_iff in Hb as [Hb|[<-|[]]]; [right; by exists b|left; apply H; by left]. }
  destruct (insert_ban mk w) as [[e|o] w0]; cbn [snd] in H0; [done|]. specialize (IH w0 ltac:(intros; apply H; by right)). unfold bind.
  destruct (insert_ignore mks w0) as [[e|l] w1]; cbn [snd ret] in *; (eapply only_adds_trans; [apply from_source_ext|done|done]).
Qed.
Lemma import_adds en ts o (w : World PG) : only_adds (from_source (ro_originRef o)) w (snd (createRemoteBans en ts o w)).
Proof.
  unfold createRemoteBans, bind. assert (H : forall cs w, only_adds (from_source (ro_originRef o)) w (snd (remote_chunks en o cs w))).
  { clear. induction cs as [|c cs IH]; intros w; [by apply only_adds_same|]. cbn [remote_chunks]. unfold bind at 1, remote_chunk at 1, bind at 1, get at 1, bind at 1.
    destruct (parse_addresses c) as [rows|]; [|by apply only_adds_same]. cbn [of_option ret].
    pose proof (insert_ignore_adds (ro_originRef o) (map (fun r => remote_row en o (fst r) (snd r))
      (List.filter (fun r => remote_wanted o w (set_masklen (snd r) (rt_prefix (fst r)))) rows)) w) as Hi.
    destruct (insert_ignore _ w) as [[e|l] w1]; cbn [snd] in *;
      (assert (Hi' : only_adds (from_source (ro_originRef o)) w w1) by (apply Hi; intros mk i Hm; apply in_map_iff in Hm as (r & <- & _); done)); [done|].
    specialize (IH w1). unfold bind. destruct (remote_chunks en o cs w1) as [[e|r] w2]; cbn [snd ret] in *; (eapply only_adds_trans; [apply from_source_ext|done|done]). }
  specialize (H (chunks REMOTE_INSERT_CHUNK ts) w). destruct (remote_chunks _ _ _ w) as [[e|[|b r]] w1]; cbn [snd] in *; done.
Qed.

Lemma screen_frame en l cs (w : World PG) : exists ts p, screen_candidates en l cs w = (inr ts, with_protected p w).
Proof.
  revert w. induction cs as [|e cs IH]; intros w; cbn [screen_candidates]; [by exists [], (w_protected w); destruct w|].
  destruct (check_frame en (JStr (inet_text (bi_ip e))) w) as (r & p & E). unfold bind. rewrite E.
  destruct (IH (with_protected p w)) as (ts & p' & ->). eexists _, p'. reflexivity.
Qed.

(** An enforcing list only adds its own bans; its entries stay. *)
Definition list_grows (l : ListRow) (w w' : World PG) : Prop :=
  only_adds (from_source (blocklistOriginRef (bl_id l))) w w' /\ w_blocked w' = w_blocked w.
Lemma enforce_adds en l (w : World PG) : list_grows l w (snd (enforce_entries en l w)).
Proof.
  unfold enforce_entries. unfold bind at 1, get at 1. set (ids := map b_id _).
  pose proof (deactivate_adds (from_source (blocklistOriginRef (bl_id l))) en L_remote_sync ids w) as H1. pose proof (deactivate_inputs en ids w) as (I1 & _).
  unfold bind at 1. destruct (deactivateBans en ids L_remote_sync w) as [[e|rows] w1]; cbn [snd] in *; [by split|]. unfold bind at 1, get at 1.
  destruct (screen_frame en l (candidates (bl_id l) w1) w1) as (ts & p & E). unfold bind at 1. rewrite E.
  pose proof (import_adds en ts (import_options l) (with_protected p w1)) as H2. pose proof (import_inputs en ts (import_options l) (with_protected p w1)) as (I2 & _).
  unfold bind. destruct (createRemoteBans en ts (import_options l) (with_protected p w1)) as [[e|n] w2]; cbn [snd ret with_protected w_blocked] in *;
    (split; [eapply only_adds_trans; [apply from_source_ext|exact H1|exact H2]|by rewrite I2]).
Qed.

Lemma op_enforce en l : op en System (fun _ => True) (enforce_entries (PG := PG) en l) (fun _ _ => True).
Proof.
  unfold enforce_entries. pure_step. eapply op_bind with (Q := fun _ _ => True); [by apply op_deactivate|]. intros rows. cbv beta. pure_step.
  eapply op_bind with (Q := fun _ _ => True).
  { eapply op_weaken with (P := fun _ => True); [|done|done]. induction (candidates (bl_id l) a0) as [|e cs IH]; cbn [screen_candidates]; [apply op_done|].
    keep_step. eapply op_bind; [exact IH|]. intros ts. cbv beta. apply op_done. }
  intros ts. cbv beta. eapply op_bind; [apply op_remote|]. intros n. cbv beta. apply op_done.
Qed.

(** A tenant's request adds no row of a list and at most disables entries. *)
Lemma trans_adds now t (w w' : World PG) : trans now (Tenant t) w w' ->
  only_adds (fun b => b_origin_ref b = None) w w' /\ entries_disabled (w_blocked w) (w_blocked w').
Proof.
  intros [v v' Hb _ _ (_ & _ & He)|v v' b Hb _ _ (_ & _ & He) _ _ _ (_ & _ & Hm)|v v' p reason Hb _ _ (_ & _ & He) _|v v' t' id ip pre _ _ p Hb _ _ (_ & _ & He) _
         |v v' id expires app [=]|v v' t' banId by_ _ Hb _ _ _ (_ & _ & He)|v v' t' banId _ Hb _ _ (_ & _ & He)]; (split; [|exact He]).
  - by apply only_adds_same.
  - intros r Hr Ha. rewrite Hb in Hr. apply in_app_iff in Hr as [Hr|[<-|[]]]; [right; by exists r|by left].
  - eapply adds_map; [exact Hb|]. intros r. apply (deactivated_same now reason p).
  - eapply adds_map; [exact Hb|]. intros r. cbv beta. destruct (p r); intros; by split_and!.
  - by apply only_adds_same.
  - by apply only_adds_same.
Qed.

Lemma tenant_adds en t q (w : World PG) : wf_bans w ->
  only_adds (fun b => b_origin_ref b = None) w (run_tenant en t q w) /\ entries_disabled (w_blocked w) (w_blocked (run_tenant en t q w)) /\ wf_bans (run_tenant en t q w).
Proof.
  intros Hw. pose proof (run_tenant_trans en t q w Hw) as Hr. split_and!; [| |by eapply trans_rtc_wf].
  - induction Hr as [w|w w1 w2 H _ IH]; [by apply only_adds_same|]. eapply only_adds_trans; [congruence|by eapply trans_adds|]. apply IH. by eapply trans_wf.
  - induction Hr as [w|w w1 w2 H _ IH]; [apply entries_same|]. eapply entries_disabled_trans; [by eapply trans_adds|]. apply IH. by eapply trans_wf.
Qed.

End Added.

(** ** The invariant *)

Section Invariant.
Context {PG : PgInet}.

Definition entry_key (e : BlockedIp PG) : Z * inet := (bi_blocklist_id e, bi_ip e).

(** [but]: the list whose bans are left out. *)
Record lists_but (but : option Z) (w : ListWorld PG) : Prop := {
  lo_bans : wf_bans (bw_store w);
  lo_ids : NoDup (map bl_id (bw_lists w));
  lo_range : forall l, In l (bw_lists w) -> bl_id l < bw_next_list w;
  lo_entry_ids : NoDup (map bi_id (entries w));
  lo_entry_range : forall e, In e (entries w) -> bi_id e < bw_next_entry w;
  lo_entry_keys : NoDup (map entry_key (entries w));
  lo_owner : forall e, In e (entries w) -> list_exists (bi_blocklist_id e) w = true;
  lo_enforced : forall b id, In b (w_bans (bw_store w)) -> list_ban id b = true -> Some id <> but -> stored_enforce id w = true
}.
(** Keys, owners, and every active ban of a list belongs to a list that enforces. *)
Definition lists_ok : ListWorld PG -> Prop := lists_but None.
Definition keeps_lists (w w' : ListWorld PG) : Prop := lists_ok w -> lists_ok w'.
#[export] Instance keeps_lists_pre : PreOrder keeps_lists.
Proof. split; [by intros w H|]. intros a b c H1 H2 H. by apply H2, H1. Qed.

Lemma lists_ok_but but w : lists_ok w -> lists_but but w.
Proof. intros []. split; try done. intros b id Hb Hl _. by apply (lo_enforced0 b). Qed.

Lemma list_ban_inj id id' (b : BanRow PG) : list_ban id b = true -> list_ban id' b = true -> id = id'.
Proof.
  unfold list_ban. intros H1 H2. boolify. assert (E : blocklistOriginRef id = blocklistOriginRef id') by congruence.
  unfold blocklistOriginRef in E. cbn in E. injection E as E. by apply dec_inj.
Qed.
Lemma list_ban_of (b : BanRow PG) id : list_ban id b = true -> b_is_active b = true /\ b_origin_ref b = Some (blocklistOriginRef id) /\ b_ban_type b = "remote".
Proof. unfold list_ban. intros H. boolify. by split_and!. Qed.
Lemma list_ban_like (b b0 : BanRow PG) id :
  list_ban id b = true -> b_is_active b0 = true -> b_origin_ref b0 = b_origin_ref b -> b_ban_type b0 = b_ban_type b -> list_ban id b0 = true.
Proof. intros (Ha & Hr & Ht)%list_ban_of H0 H1 H2. unfold list_ban. by rewrite H1, H2, Hr, Ht, H0, bool_decide_true. Qed.

(** A new store for the same lists and entries. *)
Lemma lists_store but w (s : World PG) : lists_but but w -> wf_bans s -> w_blocked s = w_blocked (bw_store w) ->
  (forall b id, In b (w_bans s) -> list_ban id b = true -> Some id <> but -> stored_enforce id w = true) -> lists_but but (with_store s w).
Proof. intros [] Hs Hb Hn. split; unfold entries in *; cbn [with_store bw_store bw_lists bw_next_list bw_next_entry]; rewrite ?Hb; try done. Qed.

Lemma stored_same but w (s : World PG) : lists_but but w -> wf_bans s -> w_blocked s = w_blocked (bw_store w) -> w_bans s = w_bans (bw_store w) -> lists_but but (with_store s w).
Proof. intros H Hs Hb E. apply lists_store; [done..|]. rewrite E. apply H. Qed.

Lemma protected_keeps w p : keeps_lists w (with_store (with_protected p (bw_store w)) w).
Proof. intros H. apply stored_same; [done| |done|done]. by destruct (lo_bans _ _ H); split. Qed.

(** A reconciliation re-establishes the bans of its list. *)
Lemma reconcile_restores le l w : lists_but (Some (bl_id l)) w -> lists_ok (snd (reconcileListBans le l w)).
Proof.
  intros H. pose proof (lo_bans _ _ H) as Hw. unfold reconcileListBans, lbind at 1, world. destruct (stored_enforce (bl_id l) w) eqn:Eo.
  - destruct (enforce_adds (le_env le) l (bw_store w)) as [Ha Hb].
    assert (Hw' : wf_bans (snd (enforce_entries (le_env le) l (bw_store w)))) by (eapply trans_rtc_wf; [exact (op_trans (le_env le) System (enforce_entries (le_env le) l) _ (bw_store w) (op_enforce (le_env le) l) Hw)|exact Hw]).
    unfold on_store. destruct (enforce_entries (le_env le) l (bw_store w)) as [r s]. cbn [snd] in *.
    assert (Hok : lists_ok w).
    { destruct H. split; try done. intros b id Hin Hl _. destruct (decide (id = bl_id l)) as [->|Hne]; [done|]. apply (lo_enforced0 b); [done|done|congruence]. }
    apply lists_store; [done..|]. intros b id Hin Hl _. destruct (list_ban_of b id Hl) as (Hact & Href & Hty).
    destruct (Ha b Hin Hact) as [Hs|(b0 & Hb0 & H1 & H2 & H3)].
    + unfold from_source in Hs. assert (E : blocklistOriginRef id = blocklistOriginRef (bl_id l)) by congruence.
      unfold blocklistOriginRef in E. cbn in E. injection E as E%dec_inj. by subst.
    + apply (lo_enforced _ _ Hok b0); [done| |done]. by eapply list_ban_like.
  - unfold lbind, on_store. destruct (deactivate_list_rows (le_env le) (blocklistOriginRef (bl_id l)) (bw_store w) Hw) as (n & s & R & Hb & I & _).
    assert (Hw' : wf_bans s).
    { eapply trans_rtc_wf; [|exact Hw]. pose proof (run_system_trans (le_env le) (Y_deactivateRemote (blocklistOriginRef (bl_id l))) (bw_store w) Hw) as Ht.
      cbn [run_system] in Ht. rewrite R in Ht. exact Ht. }
    rewrite R. cbn [snd lret]. assert (Hs : lists_but (Some (bl_id l)) (with_store s w)).
    { apply lists_store; [done..|]. intros b id Hin Hl Hne. rewrite Hb in Hin. apply in_map_iff in Hin as (b0 & E & Hb0).
      apply (lo_enforced _ _ H b0); [done| |done]. destruct (list_ban_of b id Hl) as (Hact & Href & Hty). destruct (_ && _ && _); subst b; [done|done]. }
    destruct Hs. split; try done. intros b id Hin Hl _. destruct (decide (id = bl_id l)) as [->|Hne]; [|by apply (lo_enforced0 b); [done|done|congruence]].
    exfalso. cbn [with_store bw_store] in Hin. rewrite Hb in Hin. apply in_map_iff in Hin as (b0 & E & Hb0).
    fold (list_ban (bl_id l) b0) in E. destruct (list_ban (bl_id l) b0) eqn:Eb; subst b; [|congruence]. by apply list_ban_of in Hl as [? _].
Qed.
Lemma reconcile_keeps le l : moves keeps_lists (reconcileListBans le l).
Proof. intros w H. by apply reconcile_restores, lists_ok_but. Qed.

Lemma lists_with_lists but w ls next : lists_but but w -> NoDup (map bl_id ls) -> (forall l, In l ls -> bl_id l < next) ->
  (forall e, In e (entries w) -> existsb (fun l => bl_id l =? bi_blocklist_id e) ls = true) ->
  (forall b id, In b (w_bans (bw_store w)) -> list_ban id b = true -> Some id <> but -> stored_enforce id (with_lists ls next w) = true) ->
  lists_but but (with_lists ls next w).
Proof. intros [] H1 H2 H3 H4. by split. Qed.

Lemma find_map_id (f : ListRow -> ListRow) id ls : (forall l, bl_id (f l) = bl_id l) ->
  List.find (fun l => bl_id l =? id) (map f ls) = option_map f (List.find (fun l => bl_id l =? id) ls).
Proof. intros Hf. induction ls as [|l ls IH]; [done|]. cbn [map List.find]. rewrite Hf. by destruct (bl_id l =? id). Qed.
Lemma exists_map_id (f : ListRow -> ListRow) id ls : (forall l, bl_id (f l) = bl_id l) ->
  existsb (fun l => bl_id l =? id) (map f ls) = existsb (fun l => bl_id l =? id) ls.
Proof. intros Hf. induction ls as [|l ls IH]; [done|]. cbn [map existsb]. by rewrite Hf, IH. Qed.

(** An edit of the rows in place. *)
Lemma lists_edit but w f : lists_but but w -> (forall l, bl_id (f l) = bl_id l) ->
  (forall l, In l (bw_lists w) -> bl_enforce l = true -> Some (bl_id l) <> but -> bl_enforce (f l) = true) ->
  lists_but but (with_lists (map f (bw_lists w)) (bw_next_list w) w).
Proof.
  intros H Hf He. apply lists_with_lists; [done| | | |].
  - rewrite map_map. rewrite (map_ext _ bl_id) by done. apply H.
  - intros l Hl. apply in_map_iff in Hl as (l0 & <- & Hl). rewrite Hf. by apply H.
  - intros e Hin. rewrite exists_map_id by done. by apply (lo_owner _ _ H).
  - intros b id Hin Hl Hne. pose proof (lo_enforced _ _ H b id Hin Hl Hne) as Hs. unfold stored_enforce in *. cbn [with_lists bw_lists].
    rewrite find_map_id by done. destruct (List.find _ (bw_lists w)) as [l|] eqn:Ef; [|done]. cbn [option_map]. apply find_some in Ef as [Hin' E].
    apply Z.eqb_eq in E. apply He; [done|done|congruence].
Qed.

Lemma mark_keeps w now n id : keeps_lists w (mark_synced now n id w).
Proof. intros H. apply lists_edit; [done| |]; intros l; by destruct (bl_id l =? id). Qed.

(** New entries for the same lists and store. *)
Lemma lists_entries but w f next : lists_but but w -> NoDup (map bi_id (f (entries w))) -> (forall e, In e (f (entries w)) -> bi_id e < next) ->
  NoDup (map entry_key (f (entries w))) -> (forall e, In e (f (entries w)) -> list_exists (bi_blocklist_id e) w = true) ->
  lists_but but (with_entries f next w).
Proof.
  intros [] H1 H2 H3 H4. split; unfold entries in *; cbn [with_entries bw_store bw_lists bw_next_list bw_next_entry with_blocked w_blocked w_bans]; try done.
  by destruct lo_bans0; split.
Qed.

Lemma upsert_keeps id w x fresh merge : list_exists id w = true -> fresh_of id x fresh -> keeps_key merge -> keeps_lists w (upsert id x fresh merge w).
Proof.
  intros Hl Hf Hm H. unfold upsert. destruct (existsb (same_entry id x) (entries w)) eqn:Ex.
  - apply lists_entries; [done| | | |]; rewrite ?map_map.
    + rewrite (map_ext _ bi_id); [apply H|]. intros e. destruct (same_entry id x e); [apply Hm|done].
    + intros e He. apply in_map_iff in He as (e0 & <- & He). pose proof (lo_entry_range _ _ H e0 He). destruct (same_entry id x e0); [rewrite (proj1 (Hm e0))|]; lia.
    + rewrite (map_ext _ entry_key); [apply H|]. intros e. destruct (same_entry id x e); [|done]. unfold entry_key. by destruct (Hm e) as (_ & -> & ->).
    + intros e He. apply in_map_iff in He as (e0 & <- & He). pose proof (lo_owner _ _ H e0 He) as Ho. destruct (same_entry id x e0); [|done].
      by rewrite (proj1 (proj2 (Hm e0))).
  - destruct (Hf (bw_next_entry w)) as (F1 & F2 & F3). apply lists_entries; [done| | | |]; rewrite ?map_app; cbn [map].
    + rewrite F1. apply NoDup_snoc; [apply H|]. intros (e & E & He)%in_map_iff. pose proof (lo_entry_range _ _ H e He). lia.
    + intros e [He|[<-|[]]]%in_app_iff; [pose proof (lo_entry_range _ _ H e He)|rewrite F1]; lia.
    + apply NoDup_snoc; [apply H|]. intros (e & E & He)%in_map_iff. unfold entry_key in E. rewrite F2, F3 in E. injection E as E1 E2.
      rewrite existsb_false_forall in Ex. specialize (Ex e He). unfold same_entry in Ex. by rewrite E1, E2, Z.eqb_refl, bool_decide_true in Ex.
    + intros e [He|[<-|[]]]%in_app_iff; [by apply (lo_owner _ _ H)|by rewrite F2].
Qed.

Lemma filter_entries_ok but w (p : BlockedIp PG -> bool) : lists_but but w -> lists_but but (with_entries (List.filter p) (bw_next_entry w) w).
Proof.
  intros H. apply lists_entries; [done| | | |].
  - by apply NoDup_map_filter, H.
  - intros e [He _]%filter_In. by apply H.
  - by apply NoDup_map_filter, H.
  - intros e [He _]%filter_In. by apply (lo_owner _ _ H).
Qed.

Lemma frame_keeps w w' : bw_store w' = bw_store w -> bw_lists w' = bw_lists w -> bw_next_list w' = bw_next_list w -> bw_next_entry w' = bw_next_entry w -> keeps_lists w w'.
Proof. intros E1 E2 E3 E4 []. split; unfold entries, list_exists, stored_enforce in *; rewrite ?E1, ?E2, ?E3, ?E4; done. Qed.

Lemma sync_keeps le l : moves keeps_lists (syncOne le l).
Proof.
  apply moves_sync; try (intros; by apply frame_keeps).
  - apply keeps_lists_pre.
  - intros. apply protected_keeps.
  - intros. by apply upsert_keeps.
  - intros w H. by apply filter_entries_ok.
  - apply reconcile_keeps.
  - intros. apply mark_keeps.
Qed.

(** ** Each request *)

Lemma find_snoc {A} (p : A -> bool) l x : List.find p (l ++ [x]) = match List.find p l with Some y => Some y | None => if p x then Some x else None end.
Proof. induction l as [|y l IH]; [done|]. cbn [app List.find]. by destruct (p y). Qed.

Lemma quiet_restores le l w : lists_but (Some (bl_id l)) w -> lists_ok (snd (reconcileQuietly le l w)).
Proof.
  intros H. pose proof (reconcile_restores le l w H) as Hr. unfold reconcileQuietly, lbind, attempt. by destruct (reconcileListBans le l w) as [[e|n] w1].
Qed.

Lemma find_other i j (ls : list ListRow) : i <> j ->
  List.find (fun l => bl_id l =? i) (List.filter (fun l => negb (bl_id l =? j)) ls) = List.find (fun l => bl_id l =? i) ls.
Proof.
  intros Hne. induction ls as [|l ls IH]; [done|]. cbn [List.filter List.find]. destruct (Z.eqb_spec (bl_id l) j) as [E|E]; cbn [negb List.find].
  - by rewrite (proj2 (Z.eqb_neq (bl_id l) i)) by congruence.
  - by destruct (bl_id l =? i).
Qed.

Lemma create_keeps le d : moves keeps_lists (create le d).
Proof.
  unfold create. do 7 (move_step; [moved|]). apply moves_world. intros w. cbv zeta. unfold lbind, change. cbn [snd lret]. intros H.
  assert (Hfresh : ~ In (bw_next_list w) (map bl_id (bw_lists w))) by (intros (l & E & Hl)%in_map_iff; pose proof (lo_range _ _ H l Hl); lia).
  apply lists_with_lists; [done| | | |].
  - rewrite map_app. apply NoDup_snoc; [apply H|done].
  - intros l [Hl|[<-|[]]]%in_app_iff; [pose proof (lo_range _ _ H l Hl); lia|cbn [bl_id]; lia].
  - intros e He. rewrite existsb_app. by rewrite (lo_owner _ _ H e He : existsb _ _ = true).
  - intros b id Hb Hl Hne. pose proof (lo_enforced _ _ H b id Hb Hl Hne) as Hs. unfold stored_enforce in *. cbn [with_lists bw_lists].
    rewrite find_snoc. by destruct (List.find _ (bw_lists w)).
Qed.

Lemma given_pure {A} (v : js) (parse : js -> Failure + A) old (w : ListWorld PG) : snd (given v parse old w) = w.
Proof. unfold given, of_check. destruct (is_undefined v); [done|]. by destruct (parse v). Qed.
Lemma bind_pure {A B} (m : LM (PG := PG) A) (k : A -> LM B) w b w' : snd (m w) = w -> lbind m k w = (inr b, w') -> exists a, m w = (inr a, w) /\ k a w = (inr b, w').
Proof. unfold lbind. destruct (m w) as [[e|a] w1]; cbn [snd]; intros -> H; [done|]. by exists a. Qed.
Lemma pure_bind {A B} (m : LM (PG := PG) A) (k : A -> LM B) w : snd (m w) = w -> (forall a, snd (k a w) = w) -> snd (lbind m k w) = w.
Proof. unfold lbind. destruct (m w) as [[e|a] w1]; cbn [snd]; intros -> H; [done|apply H]. Qed.
Lemma check_pure {A} (r : Failure + A) (w : ListWorld PG) : snd (of_check r w) = w. Proof. by destruct r. Qed.

(** What an accepted patch does to a row. *)
Lemma patched_run le l p (w w' : ListWorld PG) row : patched le l p w = (inr row, w') ->
  w' = w /\ bl_id row = bl_id l
  /\ exists key, (if is_undefined (pt_apiKey p) then inr (bl_api_key l) else parseApiKey (pt_apiKey p)) = inr key
       /\ bl_api_key row = if negb (String.eqb (bl_url row) (bl_url l)) && is_undefined (pt_apiKey p) then None else key.
Proof.
  unfold patched. intros H. do 4 (apply bind_pure in H as (? & _ & H); [|apply given_pure]). apply bind_pure in H as (key & Hk & H); [|apply given_pure].
  apply bind_pure in H as (url & _ & H); [|apply given_pure]. cbv zeta in H. apply bind_pure in H as ([] & _ & H); [|destruct (negb _); [apply check_pure|done]].
  injection H as <- <-. cbn [bl_id bl_url bl_api_key]. split_and!; [done|done|]. exists key. split; [|done].
  unfold given in Hk. destruct (is_undefined (pt_apiKey p)); [by injection Hk as ->|]. destruct (parseApiKey (pt_apiKey p)); [done|by injection Hk as ->].
Qed.
Lemma patched_pure le l p (w : ListWorld PG) : snd (patched le l p w) = w.
Proof.
  unfold patched. do 6 (apply pure_bind; [apply given_pure|intros ?]). cbv zeta. apply pure_bind; [destruct (negb _); [apply check_pure|done]|done].
Qed.

Lemma stored_put w id row : stored_enforce id (put_list row w) = if bool_decide (id = bl_id row) then list_exists id w && bl_enforce row else stored_enforce id w.
Proof.
  unfold stored_enforce, put_list, list_exists. cbn [with_lists bw_lists]. rewrite find_map_id by (intros l; by destruct (Z.eqb_spec (bl_id l) (bl_id row))).
  induction (bw_lists w) as [|l ls IH]; cbn [List.find existsb option_map]; [by case_bool_decide|].
  destruct (Z.eqb_spec (bl_id l) id) as [<-|Hne]; cbn [option_map orb]; [|exact IH].
  case_bool_decide as E; [by rewrite (proj2 (Z.eqb_eq _ _) E)|by rewrite (proj2 (Z.eqb_neq _ _) E)].
Qed.

Lemma update_keeps le id t p : moves keeps_lists (update le id t p).
Proof.
  unfold update. apply moves_world. intros w. destruct (getRow id t w) as [current|] eqn:Eg; [|by intros H].
  apply find_some in Eg as [Hin _]. unfold lbind at 1. pose proof (patched_pure le current p w) as Hp.
  destruct (patched le current p w) as [[e|row] w1] eqn:Er; cbn [snd] in Hp; subst w1; [by intros H|]. apply patched_run in Er as (_ & Eid & _).
  unfold lbind at 1, change at 1. intros H.
  assert (Hbut : lists_but (Some (bl_id row)) (put_list row w)).
  { apply lists_edit; [by apply lists_ok_but| |].
    - intros l. by destruct (Z.eqb_spec (bl_id l) (bl_id row)).
    - intros l Hl He Hne. by rewrite (proj2 (Z.eqb_neq _ _)) by congruence. }
  unfold lbind at 1. destruct (Bool.eqb (bl_enforce row) (bl_enforce current)) eqn:Ee.
  - cbn [lret snd]. apply eqb_prop in Ee. destruct Hbut. split; try done. intros b i Hb Hl _. rewrite stored_put. case_bool_decide as Ei; [|].
    + pose proof (lo_enforced _ _ H b i Hb Hl ltac:(done)) as Hs. unfold stored_enforce in Hs. destruct (List.find _ (bw_lists w)) as [l|] eqn:Ef; [|done].
      apply find_some in Ef as [Hl' El]. apply Z.eqb_eq in El. assert (l = current) as ->.
      { apply (NoDup_key_eq bl_id (bw_lists w)); [apply H|done|done|congruence]. }
      rewrite Ee, Hs, andb_true_r. apply existsb_exists. exists current. split; [done|]. by apply Z.eqb_eq.
    + by apply (lo_enforced _ _ H b).
  - pose proof (quiet_restores le row (put_list row w) Hbut) as Hq. destruct (reconcileQuietly le row (put_list row w)) as [[e|u] w2]; exact Hq.
Qed.

Lemma resolve_frame le id w : keeps_lists w (snd (resolveSyncFailure le id w)).
Proof. unfold resolveSyncFailure, change. cbn [snd]. destruct (existsb _ _); [by apply frame_keeps|]. destruct (le_alerts_up le); by apply frame_keeps. Qed.

Lemma delete_keeps le id t : moves keeps_lists (delete le id t).
Proof.
  unfold delete. apply moves_world. intros w. destruct (getRow id t w) as [current|] eqn:Eg; [|by intros H]. intros H. pose proof (lo_bans _ _ H) as Hw.
  unfold lbind at 1, on_store. destruct (deactivate_list_rows (le_env le) (blocklistOriginRef (bl_id current)) (bw_store w) Hw) as (n & s & R & Hb & I & _).
  assert (Hw' : wf_bans s).
  { eapply trans_rtc_wf; [|exact Hw]. pose proof (run_system_trans (le_env le) (Y_deactivateRemote (blocklistOriginRef (bl_id current))) (bw_store w) Hw) as Ht.
    cbn [run_system] in Ht. rewrite R in Ht. exact Ht. }
  rewrite R. assert (Hs : forall b i, In b (w_bans s) -> list_ban i b = true -> i <> bl_id current /\ stored_enforce i w = true).
  { intros b i Hin Hl. rewrite Hb in Hin. apply in_map_iff in Hin as (b0 & E & Hb0). fold (list_ban (bl_id current) b0) in E.
    destruct (list_ban (bl_id current) b0) eqn:Eb; subst b; [by apply list_ban_of in Hl as [? _]|]. split; [congruence|]. by apply (lo_enforced _ _ H b0). }
  unfold lbind at 1, change. cbn [fst]. unfold lbind. cbn [snd lret]. apply resolve_frame.
  set (w1 := with_store s w). assert (H1 : lists_ok w1) by (apply lists_store; [done..|]; intros b i Hin Hl _; by destruct (Hs b i Hin Hl)).
  assert (H2 : lists_ok (with_entries (List.filter (fun e => negb (bi_blocklist_id e =? bl_id current))) (bw_next_entry w1) w1)) by by apply filter_entries_ok.
  apply lists_with_lists; [exact H2| | | |].
  - apply NoDup_map_filter, H.
  - intros l [Hl _]%filter_In. by apply (lo_range _ _ H).
  - intros e He. apply filter_In in He as [He Hne]. pose proof (lo_owner _ _ H1 e He) as Ho. apply existsb_exists in Ho as (l & Hl & E). apply existsb_exists.
    exists l. split; [|done]. apply filter_In. split; [done|]. apply Z.eqb_eq in E. by rewrite E.
  - intros b i Hin Hl _. destruct (Hs b i Hin Hl) as [Hne Hse]. unfold stored_enforce in *. cbn [with_lists bw_lists]. change (bw_lists w1) with (bw_lists w). by rewrite find_other.
Qed.

Lemma toggle_keeps le id on t : moves keeps_lists (toggleIp le id on t).
Proof.
  unfold toggleIp. apply moves_world. intros w. destruct (List.find _ (entries w)) as [entry|] eqn:Ef; [|by intros H].
  unfold lbind at 1, change at 1. intros H. set (w1 := with_entries _ (bw_next_entry w) w).
  assert (H1 : lists_ok w1).
  { apply lists_entries; [done| | | |]; rewrite ?map_map.
    - rewrite (map_ext _ bi_id); [apply H|]. intros e. by destruct (bi_id e =? bi_id entry).
    - intros e He. apply in_map_iff in He as (e0 & <- & He). pose proof (lo_entry_range _ _ H e0 He). by destruct (bi_id e0 =? bi_id entry).
    - rewrite (map_ext _ entry_key); [apply H|]. intros e. by destruct (bi_id e =? bi_id entry).
    - intros e He. apply in_map_iff in He as (e0 & <- & He). pose proof (lo_owner _ _ H e0 He). by destruct (bi_id e0 =? bi_id entry). }
  refine (moves_bind keeps_lists _ _ _ _ w1 H1); [|intros ?; moved]. destruct (List.find _ (bw_lists w)) as [l|]; [|moved].
  apply moves_when; [|moved]. intros v Hv. apply quiet_restores. by apply lists_ok_but.
Qed.

Lemma serve_keeps le c op_ : moves keeps_lists (serve le c op_).
Proof.
  unfold serve. destruct (negb (may_write c op_)); [moved|]. destruct op_ as [d|id p|id|id on|id|host tables].
  - apply moves_when; [|moved]. move_step; [apply create_keeps|moved].
  - move_step; [apply update_keeps|]. destruct a; moved.
  - move_step; [apply delete_keeps|]. destruct a; moved.
  - move_step; [apply toggle_keeps|]. destruct a; moved.
  - move_step; [|destruct a; moved]. unfold forceSync. apply moves_read. intros w0. destruct (getRow _ _ _); [|moved]. move_step; [apply sync_keeps|moved].
  - move_step; [|moved]. unfold pushNewBans. apply moves_read. intros w0. destruct (negb _); [moved|]. destruct (config_text _ _); [|moved]. cbv zeta.
    destruct (contributions _ _ _ _ _); [move_step; [|moved]; apply moves_change; intros w; by apply frame_keeps|].
    move_step; [apply moves_change; intros w; by apply frame_keeps|]. destruct (le_fetch _ _ _); [moved|]. destruct (is_ok _); [|moved].
    move_step; [|moved]. apply moves_change. intros w. by apply frame_keeps.
Qed.

Lemma sync_all_keeps le : moves keeps_lists (syncAll le).
Proof. unfold syncAll. apply moves_read. intros w0. apply moves_each; [typeclasses eauto|]. intros l _. apply sync_keeps. Qed.

(** ** Histories *)

(** A request, the pull job, a tenant's ban request, the expiry job. *)
Inductive ListEvent :=
| Admin_request (le : ListEnv) (c : Caller) (op_ : ListOp)
| Pull_job (le : ListEnv)
| Tenant_request (en : Env) (t : Z) (q : TenantOp)
| Expiry_job (en : Env).
Definition happen_list (w : ListWorld PG) (e : ListEvent) : ListWorld PG :=
  match e with
  | Admin_request le c op_ => snd (serve le c op_ w)
  | Pull_job le => snd (syncAll le w)
  | Tenant_request en t q => with_store (run_tenant en t q (bw_store w)) w
  | Expiry_job en => with_store (snd (expireBans en (bw_store w))) w
  end.

Lemma disabled_keys (es es' : list (BlockedIp PG)) : entries_disabled es es' ->
  map bi_id es' = map bi_id es /\ map entry_key es' = map entry_key es.
Proof. induction 1 as [|e e' es es' He _ [IH1 IH2]]; [done|]. cbn [map]. rewrite IH1, IH2. destruct He as [->| ->]; done. Qed.
Lemma in_disabled (es es' : list (BlockedIp PG)) e' : entries_disabled es es' -> In e' es' -> exists e, In e es /\ bi_id e' = bi_id e /\ bi_blocklist_id e' = bi_blocklist_id e.
Proof.
  induction 1 as [|e e0 es es' He _ IH]; [done|]. intros [<-|Hin].
  - exists e. split; [by left|]. destruct He as [->| ->]; done.
  - destruct (IH Hin) as (e1 & ? & ?). exists e1. split; [by right|done].
Qed.

Lemma tenant_keeps en t q w : keeps_lists w (with_store (run_tenant en t q (bw_store w)) w).
Proof.
  intros H. destruct (tenant_adds en t q (bw_store w) (lo_bans _ _ H)) as (Ha & He & Hw). destruct (disabled_keys _ _ He) as [K1 K2].
  split; unfold entries in *; cbn [with_store bw_store bw_lists bw_next_list bw_next_entry]; try apply H; try done.
  - rewrite K1. apply H.
  - intros e Hin. destruct (in_disabled _ _ e He Hin) as (e0 & H0 & -> & _). by apply (lo_entry_range _ _ H).
  - rewrite K2. apply H.
  - intros e Hin. destruct (in_disabled _ _ e He Hin) as (e0 & H0 & _ & ->). by apply (lo_owner _ _ H).
  - intros b id Hb Hl _. destruct (list_ban_of b id Hl) as (Hact & Href & _). destruct (Ha b Hb Hact) as [Hn|(b0 & Hb0 & H1 & H2 & H3)]; [congruence|].
    apply (lo_enforced _ _ H b0); [done| |done]. by eapply list_ban_like.
Qed.
Lemma expiry_keeps en w : keeps_lists w (with_store (snd (expireBans en (bw_store w))) w).
Proof.
  intros H. pose proof (lo_bans _ _ H) as Hw. assert (Hw' : wf_bans (snd (expireBans en (bw_store w)))).
  { eapply trans_rtc_wf; [exact (run_system_trans en Y_expire (bw_store w) Hw)|exact Hw]. }
  unfold expireBans, deactivate_where in *. unfold bind, get in *. set (ids := map b_id _) in *.
  pose proof (deactivate_adds (fun _ => False) en L_expiry ids (bw_store w)) as Ha. rewrite deactivateBans_spec in *. cbn [snd ret] in *.
  apply lists_store; [done|done| |].
  - unfold deactivate_world. by destruct (deactivated_rows _ _ _ _).
  - intros b id Hb Hl _. destruct (list_ban_of b id Hl) as (Hact & _). destruct (Ha b Hb Hact) as [[]|(b0 & Hb0 & H1 & H2 & H3)].
    apply (lo_enforced _ _ H b0); [done| |done]. by eapply list_ban_like.
Qed.

(** C26. Whatever requests, pulls, ban requests of tenants and expiries happen, in any order
    and however each ends, the lists keep their keys - distinct list and entry ids, at most
    one entry per list and address, every entry owned by an existing list - and every active
    ban of a list belongs to a list that exists and enforces: turning enforcement off or
    deleting a list lifts its bans at once, and nothing brings them back. *)
Theorem no_ban_without_enforcement (w : ListWorld PG) (history : list ListEvent) (H : lists_ok w) :
  lists_ok (fold_left happen_list history w).
Proof.
  revert w H. induction history as [|e history IH]; intros w H; [done|]. cbn [fold_left]. apply IH. destruct e; cbn [happen_list].
  - by apply serve_keeps.
  - by apply sync_all_keeps.
  - by apply tenant_keeps.
  - by apply expiry_keeps.
Qed.

End Invariant.
