(* ===== verification/ListKeys.v ===== *)
(** * Where the key of a list is sent

    A list carries a bearer key for its source. Every request that carried one went to the
    origin (scheme, host and port) of the URL the key was given for. *)

From S2P Require Import Prelude JsString JsValue IpValidation ProtectedIps Tenancy Access SocketRooms PgInet Store Whitelist BanRules BanService BanImport BanAuthority BanEngine Query SettingsStore Pagination SsrfGuard LiveAlert Blocklist ListBans ListRuns ListHistory.

Section Keys.
Context {PG : PgInet}.

(** A list with this id, URL and key; a request of a pull for it, to that target with that key. *)
Definition listed (w : ListWorld PG) (id : Z) (url key : string) : Prop :=
  exists l, In l (bw_lists w) /\ bl_id l = id /\ bl_url l = url /\ bl_api_key l = Some key.
Definition fetched (w : ListWorld PG) (id : Z) (target key : string) : Prop := In (S_fetch id target (Some key)) (bw_sent w).

(** An administrator's request, let through and carried out, that gives the list this key. *)
Definition gives_key (w : ListWorld PG) (e : ListEvent (PG := PG)) (id : Z) (key : string) : Prop :=
  match e with
  | Admin_request le c op_ =>
      may_write c op_ = true /\ fst (serve le c op_ w) = inr tt
      /\ match op_ with
         | Op_create d => id = bw_next_list w /\ parseApiKey (cl_apiKey d) = inr (Some key)
         | Op_update i p => i = id /\ is_undefined (pt_apiKey p) = false /\ parseApiKey (pt_apiKey p) = inr (Some key)
         | _ => False
         end
  | _ => False
  end.

(** The URL library: printing a URL, and setting its query, keep its origin. *)
Context (origin : string -> option string).
Definition keeps_origin (le : ListEnv) : Prop :=
  (forall u, origin (le_href le u) = origin u) /\ (forall u since instance_ v, le_pull_url le u since instance_ = Some v -> origin v = origin u).
Definition event_keeps_origin (e : ListEvent (PG := PG)) : Prop :=
  match e with Admin_request le _ _ | Pull_job le => keeps_origin le | _ => True end.
Lemma leads_origin le url target : keeps_origin le -> leads_to le url target -> origin target = origin url.
Proof. intros [H1 H2] [->|(since & i & u & Hu & ->)]; rewrite H1; [done|by apply (H2 url since i)]. Qed.

(** No list gains a key or a URL, and requests go where the URLs of the lists of [w0] are. *)
Definition quiet (w0 w w' : ListWorld PG) : Prop :=
  (forall i u k, listed w' i u k -> listed w i u k)
  /\ (forall i t k, fetched w' i t k -> fetched w i t k \/ exists u, listed w0 i u k /\ origin t = origin u).
#[export] Instance quiet_pre w0 : PreOrder (quiet w0).
Proof.
  split; [by intros w; split; auto|]. intros a b c [A1 A2] [B1 B2]. split; [auto|]. intros i t k H. destruct (B2 i t k H); auto.
Qed.

Lemma quiet_frame w0 w w' : bw_lists w' = bw_lists w -> bw_sent w' = bw_sent w -> quiet w0 w w'.
Proof. intros E1 E2. unfold quiet, listed, fetched. rewrite E1, E2. split; auto. Qed.
Lemma quiet_lists w0 ls next w : (forall l, In l ls -> exists l0, In l0 (bw_lists w) /\ bl_id l0 = bl_id l /\ bl_url l0 = bl_url l /\ bl_api_key l0 = bl_api_key l) ->
  quiet w0 w (with_lists ls next w).
Proof.
  intros H. split; [|auto]. intros i u k (l & Hl & E1 & E2 & E3). destruct (H l Hl) as (l0 & ? & ? & ? & ?). exists l0. split_and!; [done|congruence|congruence|congruence].
Qed.
Lemma quiet_sent w0 s w : (forall i t k, s = S_fetch i t (Some k) -> exists u, listed w0 i u k /\ origin t = origin u) -> quiet w0 w (with_sent s w).
Proof. intros H. split; [auto|]. intros i t k [Hf|[Hf|[]]]%in_app_iff; [by left|right; by apply H]. Qed.
Lemma quiet_store w0 {A} (m : M PG A) : moves (quiet w0) (on_store m).
Proof. apply moves_store. intros w. by apply quiet_frame. Qed.
Lemma quiet_reconcile w0 le l : moves (quiet w0) (reconcileListBans le l).
Proof. unfold reconcileListBans. apply moves_read. intros w1. apply moves_when; [apply quiet_store|]. move_step; [apply quiet_store|moved]. Qed.
Lemma quiet_quietly w0 le l : moves (quiet w0) (reconcileQuietly le l).
Proof. unfold reconcileQuietly. move_step; [by apply moves_attempt, quiet_reconcile|moved]. Qed.

Lemma quiet_sync w0 le l : keeps_origin le -> In l (bw_lists w0) -> moves (quiet w0) (syncOne le l).
Proof.
  intros Ho Hl. apply moves_sync; try (intros; by apply quiet_frame).
  - typeclasses eauto.
  - intros w x fresh merge _ _ _. destruct (upsert_lists (bl_id l) x fresh merge w) as [E1 E2]. by apply quiet_frame.
  - apply quiet_reconcile.
  - intros w n. apply quiet_lists. intros r Hr. apply in_map_iff in Hr as (r0 & <- & Hr). exists r0. split; [done|]. by destruct (bl_id r0 =? bl_id l).
  - intros w target Ht. apply quiet_sent. intros i t k [= <- <- E]. exists (bl_url l). split; [|by apply (leads_origin le)].
    exists l. split_and!; [done..|]. unfold sent_key in E.
    destruct (bl_api_key l) as [s|]; [|done]. by destruct (is_empty s).
  - intros w ip. by apply quiet_sent.
Qed.

Lemma quiet_alert w0 le id : moves (quiet w0) (resolveSyncFailure le id).
Proof. apply moves_change. intros w. destruct (existsb _ _); [by apply quiet_frame|]. destruct (le_alerts_up le); by apply quiet_frame. Qed.

(** What one event does; [gives] tells which keys it gives. *)
Definition key_step (gives : Z -> string -> Prop) (w w' : ListWorld PG) : Prop :=
  (forall i u k, listed w' i u k -> listed w i u k \/ gives i k)
  /\ (forall i t k, fetched w' i t k -> fetched w i t k \/ exists u, listed w i u k /\ origin t = origin u).
Lemma quiet_keys gives w w' : quiet w w w' -> key_step gives w w'.
Proof. intros [H1 H2]. split; [|exact H2]. intros i u k H. left. auto. Qed.
Lemma key_step_weaken (g g' : Z -> string -> Prop) w w' : (forall i k, g i k -> g' i k) -> key_step g w w' -> key_step g' w w'.
Proof. intros Hg [H1 H2]. split; [|exact H2]. intros i u k H. destruct (H1 i u k H); auto. Qed.

(** A key is given by an operation only when it succeeds. *)
Definition gives_when {B} (gives : Z -> string -> B -> Prop) (w : ListWorld PG) (res : (Failure + B) * ListWorld PG) : Prop :=
  key_step (fun i k => exists b, fst res = inr b /\ gives i k b) w (snd res).
Lemma gives_nothing {B} (gives : Z -> string -> B -> Prop) w res : quiet w w (snd res) -> gives_when gives w res.
Proof. apply quiet_keys. Qed.

Lemma create_step le c d w :
  gives_when (fun i k _ => i = bw_next_list w /\ parseApiKey (cl_apiKey d) = inr (Some k)) w (create le (at_tenant (ca_tenant c) d) w).
Proof.
  unfold create. cbn [at_tenant cl_name cl_sourceType cl_url cl_apiKey cl_syncInterval cl_enforce cl_tenantId].
  unfold lbind at 1. destruct (parseName _); cbn [of_check fails lret]; [by apply gives_nothing|]. unfold lbind at 1. destruct (source_of _); cbn [of_check fails lret]; [|by apply gives_nothing].
  unfold lbind at 1. destruct (parseUrlString _); cbn [of_check fails lret]; [by apply gives_nothing|]. unfold lbind at 1.
  destruct (parseApiKey (cl_apiKey d)) as [|key] eqn:Ek; cbn [of_check fails lret]; [by apply gives_nothing|]. unfold lbind at 1.
  destruct (if is_nullish (cl_syncInterval d) then _ else _); cbn [of_check fails lret]; [by apply gives_nothing|]. unfold lbind at 1.
  destruct (if is_nullish (cl_enforce d) then _ else _); cbn [of_check fails lret]; [by apply gives_nothing|]. unfold lbind at 1.
  destruct (assertListUrl _ _); cbn [of_check fails lret]; [by apply gives_nothing|]. unfold lbind, world, change, lret. cbn [fst snd].
  split; [|auto]. intros i v k (l & [Hl|[<-|[]]]%in_app_iff & E1 & E2 & E3); [left; by exists l|]. right. cbn [bl_id bl_api_key] in *.
  eexists. split_and!; [done|congruence|congruence].
Qed.

Lemma quietly_runs le l w : exists w', reconcileQuietly le l w = (inr tt, w').
Proof. unfold reconcileQuietly, lbind, attempt. destruct (reconcileListBans le l w) as [[e|a] w1]; by exists w1. Qed.
Lemma update_step le id t p w :
  gives_when (fun i k o => id = i /\ is_undefined (pt_apiKey p) = false /\ parseApiKey (pt_apiKey p) = inr (Some k) /\ is_Some o) w (update le id t p w).
Proof.
  unfold update, lbind at 1 3, world. destruct (getRow id t w) as [current|] eqn:Eg; [|by apply gives_nothing].
  apply find_some in Eg as [Hin Hid]. apply andb_true_iff in Hid as [Hid%Z.eqb_eq _]. unfold lbind at 1. pose proof (patched_pure le current p w) as Hp.
  destruct (patched le current p w) as [[e|row] w1] eqn:Er; cbn [snd] in Hp; subst w1; [by apply gives_nothing|].
  apply patched_run in Er as (_ & Eid & key & Hk & Ekey). unfold lbind at 1, change at 1.
  set (rest := ((if Bool.eqb (bl_enforce row) (bl_enforce current) then lret tt else reconcileQuietly le row) >> lret (Some (rowToBlocklist None row)))%bl).
  assert (Hrest : quiet w (put_list row w) (snd (rest (put_list row w)))).
  { apply (moves_bind (quiet w)); [|intros ?; moved]. apply moves_when; [moved|apply quiet_quietly]. }
  assert (Hdone : exists o, fst (rest (put_list row w)) = inr o /\ is_Some o).
  { unfold rest, lbind. destruct (Bool.eqb _ _); [by eexists|]. destruct (quietly_runs le row (put_list row w)) as (w' & ->). by eexists. }
  change (gives_when (fun i k o => id = i /\ is_undefined (pt_apiKey p) = false /\ parseApiKey (pt_apiKey p) = inr (Some k) /\ is_Some o) w (rest (put_list row w))).
  destruct Hrest as [B1 B2]. split; [|intros i u k H; destruct (B2 i u k H); auto]. intros i u k H. apply B1 in H as (l & Hl & E1 & E2 & E3).
  unfold put_list in Hl. cbn [with_lists bw_lists] in Hl. apply in_map_iff in Hl as (l0 & El & Hl).
  destruct (bl_id l0 =? bl_id row); subst l; [|left; by exists l0]. rewrite Ekey in E3.
  destruct (is_undefined (pt_apiKey p)) eqn:Eu; [|right; rewrite andb_false_r in E3; destruct Hdone as (o & Ho1 & Ho2); exists o; split_and!; [done|congruence|done|congruence|done]].
  left. exists current. injection Hk as <-. rewrite andb_true_r in E3. destruct (negb _) eqn:En; [done|]. apply negb_false_iff, String.eqb_eq in En.
  split_and!; [done|congruence|congruence|done].
Qed.

Lemma serve_step le c op_ w : keeps_origin le -> key_step (gives_key w (Admin_request le c op_)) w (snd (serve le c op_ w)).
Proof.
  intros Ho. assert (Hq : forall m : LM unit, moves (quiet w) m -> key_step (gives_key w (Admin_request le c op_)) w (snd (m w))) by (intros m H; by apply quiet_keys).
  unfold gives_key, serve in *. destruct (may_write c op_) eqn:Em; cbn [negb] in *; [|by apply quiet_keys]. destruct op_ as [d|id p|id|id on|id|host tables].
  - destruct (_ && _ && _); [|by apply quiet_keys]. pose proof (create_step le c d w) as H. unfold lbind.
    destruct (create le (at_tenant (ca_tenant c) d) w) as [[e|r] w1]; (eapply key_step_weaken; [|exact H]); intros i k (r' & H1 & H2 & H3); [done|by split_and!].
  - pose proof (update_step le id (Some (ca_tenant c)) p w) as H. unfold lbind.
    destruct (update le id (Some (ca_tenant c)) p w) as [[e|[r|]] w1]; (eapply key_step_weaken; [|exact H]); intros i k (r' & H1 & H2 & H3 & H4 & [x H5]); subst; [done|by split_and!|done].
  - apply Hq. move_step; [|destruct a; moved]. unfold delete. apply moves_read. intros w1. destruct (getRow _ _ _); [|moved].
    move_step; [apply quiet_store|]. move_step; [|move_step; [apply quiet_alert|moved]]. apply moves_change. intros v. apply (transitivity (R := quiet w) (y := with_entries (List.filter (fun e => negb (bi_blocklist_id e =? bl_id l))) (bw_next_entry v) v)); [by apply quiet_frame|].
    apply quiet_lists. intros r [Hr _]%filter_In. by exists r.
  - apply Hq. move_step; [|destruct a; moved]. unfold toggleIp. apply moves_read. intros w1. destruct (List.find _ _) as [entry|]; [|moved].
    move_step; [apply moves_change; intros v; by apply quiet_frame|]. move_step; [|moved]. destruct (List.find _ _) as [l|]; [|moved]. apply moves_when; [apply quiet_quietly|moved].
  - apply quiet_keys. unfold lbind at 1, forceSync, lbind at 1, world. destruct (getRow id (Some (ca_tenant c)) w) as [l|] eqn:Eg; [|by apply quiet_frame].
    apply find_some in Eg as [Hl _]. change (quiet w w (snd ((b <- (syncOne le l >> lret true) ;; found_b b)%bl w))).
    apply (moves_bind (quiet w)); [|intros b; destruct b; moved]. move_step; [by apply quiet_sync|moved].
  - apply Hq. move_step; [|moved]. unfold pushNewBans. apply moves_read. intros w0. destruct (negb _); [moved|]. destruct (config_text _ _); [|moved]. cbv zeta.
    destruct (contributions _ _ _ _ _); [move_step; [|moved]; apply moves_change; intros v; by apply quiet_frame|].
    move_step; [apply moves_change; intros v; by apply quiet_sent|]. destruct (le_fetch _ _ _); [moved|]. destruct (is_ok _); [|moved].
    move_step; [|moved]. apply moves_change. intros v. by apply quiet_frame.
Qed.

Lemma sync_all_step le w : keeps_origin le -> quiet w w (snd (syncAll le w)).
Proof.
  intros Ho. unfold syncAll, lbind, world. apply (moves_each (quiet w)). intros l [Hl _]%filter_In. by apply quiet_sync.
Qed.

Lemma list_event_step e w : event_keeps_origin e -> key_step (gives_key w e) w (happen_list w e).
Proof.
  intros Ho. destruct e as [le c op_|le|en t q|en]; cbn [happen_list]; [by apply serve_step|by apply quiet_keys, sync_all_step|by apply quiet_keys, quiet_frame..].
Qed.

(** C27. A key is only sent where it was given. In any history that starts without lists -
    requests, pulls and ban requests, in any order and however each ends - each request a
    pull made with a bearer key went to the origin (scheme, host and port) of a URL that the
    list had right after a request of an administrator that gave this very key and was carried
    out: changing the URL without giving the key again drops it. *)
Theorem key_sent_where_given (w : ListWorld PG) history id target key (Hlists : bw_lists w = []) (Hsent : bw_sent w = [])
    (Horigin : Forall event_keeps_origin history) (H : fetched (fold_left happen_list history w) id target key) :
  exists before e after url, history = before ++ e :: after /\ gives_key (fold_left happen_list before w) e id key
    /\ listed (fold_left happen_list (before ++ [e]) w) id url key /\ origin target = origin url.
Proof.
  set (given history id url key := exists before e after, history = before ++ e :: after /\ gives_key (fold_left happen_list before w) e id key
    /\ listed (fold_left happen_list (before ++ [e]) w) id url key).
  enough (Hall : (forall id url key, listed (fold_left happen_list history w) id url key -> given history id url key)
    /\ forall id t key, fetched (fold_left happen_list history w) id t key -> exists url, given history id url key /\ origin t = origin url).
  { destruct (proj2 Hall _ _ _ H) as (url & (before & e & after & H1 & H2 & H3) & H4). by exists before, e, after, url. }
  clear H id target key. induction history as [|e history IH] using rev_ind.
  { cbn. unfold listed, fetched. rewrite Hlists, Hsent. split; [by intros ? ? ? (l & [] & _)|by intros ? ? ? []]. }
  apply Forall_app in Horigin as [Ho He]. apply Forall_cons in He as [He _]. destruct (IH Ho) as [IH1 IH2].
  assert (Hext : forall i u k, given history i u k -> given (history ++ [e]) i u k).
  { intros i u k (before & e0 & after & -> & Hg & Hl). exists before, e0, (after ++ [e]). split_and!; [by rewrite <- app_assoc|done|done]. }
  rewrite fold_left_app. cbn [fold_left]. destruct (list_event_step e (fold_left happen_list history w) He) as [A1 A2]. split.
  - intros i u k H. destruct (A1 _ _ _ H) as [H'|Hg]; [by apply Hext, IH1|]. exists history, e, []. split_and!; [done|done|]. by rewrite fold_left_app.
  - intros i t k H. destruct (A2 _ _ _ H) as [H'|(u & H' & Eu)].
    + destruct (IH2 _ _ _ H') as (u & Hg & Eu). exists u. split; [by apply Hext|done].
    + exists u. split; [by apply Hext, IH1|done].
Qed.

End Keys.
