(* ===== verification/ListSync.v ===== *)
(** * The pull of a URL list

    After a pull the entries of the list are the addresses its source serves, what an
    operator disabled stays disabled, and the bans follow in the same pull. *)

From S2P Require Import Prelude JsString JsValue IpValidation ProtectedIps Tenancy Access SocketRooms PgInet Store Hoare Whitelist BanRules BanService BanImport BanAuthority BanLift BanEntry BanEngine Query SettingsStore Pagination SsrfGuard LiveAlert Blocklist ListBans ListRuns.

Section Sync.
Context {PG : PgInet} {L : PgInetLaws PG}.

(** ** The targets kept *)

Definition line_accepted (en : Env) (st0 : PState) (raw : string) (p : ParsedCidr) : Prop :=
  exists st, during en st0 st /\ accepted (en_inputs en) st (JStr raw) true true None (mk_target p).
Definition line_refused (en : Env) (st0 : PState) (raw : string) : Prop :=
  exists st c m, during en st0 st /\ fst (checkBanTarget (en_inputs en) st (JStr raw) true true None) = BT_err c m.

Lemma line_checked en st0 st raw t : reachable st0 -> during en st0 st ->
  fst (checkBanTarget (en_inputs en) st (JStr raw) true true None) = BT_ok t ->
  exists p, wf_cidr p /\ t = mk_target p /\ line_accepted en st0 raw p.
Proof.
  intros Hr Hd H. pose proof (checkBanTarget_accepted _ _ _ _ _ _ _ (reachable_wf _ (during_reachable _ _ _ Hr Hd)) H) as Hacc.
  unfold checkBanTarget in H. destruct (parseBanTarget _ _ _) as [bt|] eqn:Et; [|done].
  destruct (findBanSafetyConflict _ _ _ _ _) as [[c|] pst]; [done|]. injection H as ->.
  apply parseBanTarget_ok in Et as (q & Hq & -> & _). exists q. split; [by eapply parseIpOrCidr_wf|]. split; [done|]. by exists st.
Qed.

(** What the lines of a body come down to. *)
Record kept_lines (en : Env) (st0 : PState) (raws ips all : list string) : Prop := {
  kl_unique : NoDup ips -> NoDup all;
  kl_more : incl ips all;
  kl_from : forall t, In t all -> In t ips \/ exists raw p, In raw raws /\ line_accepted en st0 raw p /\ wf_cidr p /\ t = cidr_text p;
  kl_lines : forall raw, In raw raws -> line_refused en st0 raw \/ (exists p, line_accepted en st0 raw p /\ In (cidr_text p) all)
               \/ MAX_URL_ENTRIES <= Z.of_nat (length all)
}.
Lemma keep_run en st0 raws ips (w : World PG) : reachable st0 -> during en st0 (w_protected w) ->
  exists all st, keep_targets en raws ips w = (inr all, with_protected st w) /\ during en st0 st /\ kept_lines en st0 raws ips all.
Proof.
  intros Hr. revert ips w. induction raws as [|raw raws IH]; intros ips w Hd; cbn [keep_targets].
  { exists ips, (w_protected w). split; [by destruct w|]. split; [done|]. split; [done|apply incl_refl|auto|done]. }
  unfold bind, check_target. pose proof (check_during en st0 (w_protected w) (JStr raw) true true None Hd) as Hd'.
  pose proof (line_checked en st0 (w_protected w) raw) as Hok.
  destruct (checkBanTarget (en_inputs en) (w_protected w) (JStr raw) true true None) as [chk st1] eqn:Ec. cbn [fst snd] in *.
  destruct chk as [t|c m].
  - destruct (Hok t Hr Hd eq_refl) as (p & Hp & -> & Hacc). destruct (Z.leb_spec MAX_URL_ENTRIES (Z.of_nat (length ips))) as [Hmax|_].
    { exists ips, st1. split; [done|]. split; [done|]. split; [done|apply incl_refl|auto|]. intros r _. by right; right. }
    rewrite mk_target_cidr by done. set (ips1 := if existsb (String.eqb (cidr_text p)) ips then ips else ips ++ [cidr_text p]).
    assert (H1 : incl ips ips1 /\ In (cidr_text p) ips1 /\ (NoDup ips -> NoDup ips1) /\ (forall t, In t ips1 -> In t ips \/ t = cidr_text p)).
    { unfold ips1. destruct (existsb _ ips) eqn:Ex.
      - apply existsb_exists in Ex as (t & Ht & E). apply String.eqb_eq in E. subst t. split_and!; [apply incl_refl|done|done|auto].
      - split_and!; [intros t Ht; apply in_app_iff; by left|apply in_app_iff; right; by left| |].
        + intros Hn. apply NoDup_app. split; [done|]. split; [|apply NoDup_singleton]. intros t Ht Hs. apply list_elem_of_singleton in Hs as ->.
          apply list_elem_of_In in Ht. rewrite existsb_false_forall in Ex. specialize (Ex _ Ht). by rewrite String.eqb_refl in Ex.
        + intros t [Ht|[<-|[]]]%in_app_iff; auto. }
    destruct H1 as (I1 & I2 & I3 & I4). destruct (IH ips1 (with_protected st1 w) Hd') as (all & st & R & Hst & [U M F C]).
    exists all, st. split; [exact R|]. split; [done|]. split; [auto|by eapply incl_tran| |].
    + intros t Ht. destruct (F t Ht) as [Hi|(r & q & ? & ?)]; [|right; exists r, q; split; [by right|done]].
      destruct (I4 t Hi) as [?| ->]; [by left|]. right. exists raw, p. split_and!; [by left|done..].
    + intros r [<-|Hin]; [|by apply C]. right; left. exists p. split; [done|by apply M].
  - destruct (IH ips (with_protected st1 w) Hd') as (all & st & R & Hst & [U M F C]). exists all, st. split; [exact R|]. split; [done|]. split; [done|done| |].
    + intros t Ht. destruct (F t Ht) as [?|(r & q & ? & ?)]; [by left|]. right. exists r, q. split; [by right|done].
    + intros r [<-|Hin]; [|by apply C]. left. exists (w_protected w), c, m. by rewrite Ec.
Qed.

(** ** The entries written *)

Definition target_text (t : string) : Prop := exists p, wf_cidr p /\ t = cidr_text p.
Lemma inet_of_text p : wf_cidr p -> exists x, inet_in (cidr_text p) = Some x /\ denotes x p.
Proof.
  intros Hw. unfold cidr_text. destruct (Z.eqb_spec (prefix p) (bits (family p))) as [E|]; [|by apply inet_in_network].
  destruct (inet_in_host p Hw) as (x & Hx & Hd). rewrite host_of_single in Hd by done. by exists x.
Qed.
(** The text is read back as the value. *)
Definition reads (t : string) (x : inet) : Prop := inet_in t = Some x /\ exists p, wf_cidr p /\ denotes x p.
Lemma texts_read ts : Forall target_text ts -> exists xs, mapM inet_in ts = Some xs /\ Forall2 reads ts xs.
Proof.
  induction 1 as [|t ts (p & Hp & ->) _ (xs & E & H)]; [by exists []|]. destruct (inet_of_text p Hp) as (x & Hx & Hd). exists (x :: xs).
  split; [cbn; by rewrite Hx; cbn; rewrite E|]. constructor; [|done]. split; [done|]. by exists p.
Qed.
Lemma read_inj t t' x : target_text t -> target_text t' -> reads t x -> reads t' x -> t = t'.
Proof.
  intros (p & Hp & ->) (q & Hq & ->) [H1 _] [H2 _]. destruct (inet_of_text p Hp) as (x1 & E1 & D1), (inet_of_text q Hq) as (x2 & E2 & D2).
  assert (x1 = x2) as -> by congruence. by rewrite (denotes_inj x2 p q).
Qed.
Lemma reads_unique ts xs : Forall target_text ts -> Forall2 reads ts xs -> NoDup ts -> NoDup xs.
Proof.
  intros Ht H. induction H as [|t x ts xs Hx H IH]; [intros _; constructor|]. apply Forall_cons in Ht as [Ht Hts]. intros [Hn Hnd]%NoDup_cons. apply NoDup_cons. split; [|by apply IH].
  intros Hin. apply Hn. apply list_elem_of_lookup in Hin as (i & Hi). destruct (Forall2_lookup_r _ _ _ _ _ H Hi) as (t' & Ht' & Hr).
  rewrite Forall_lookup in Hts. rewrite (read_inj t t' x); [|done|by eapply Hts|done|done]. by eapply list_elem_of_lookup_2.
Qed.

Definition seen_in (now id : Z) (xs : list inet) (e : BlockedIp PG) : BlockedIp PG :=
  if (bi_blocklist_id e =? id) && bool_decide (bi_ip e ∈ xs) then entry_seen now e else e.
Definition write_seen (now id : Z) (w : ListWorld PG) (xs : list inet) : ListWorld PG :=
  fold_left (fun w x => upsert id x (fun i => blank_entry i id x now) (entry_seen now) w) xs w.
Lemma write_frame now id xs w : let w' := write_seen now id w xs in
  bw_lists w' = bw_lists w /\ w_bans (bw_store w') = w_bans (bw_store w) /\ w_whitelist (bw_store w') = w_whitelist (bw_store w)
  /\ w_protected (bw_store w') = w_protected (bw_store w) /\ (wf_bans (bw_store w) -> wf_bans (bw_store w')).
Proof.
  cbv zeta. unfold write_seen. revert w. induction xs as [|x xs IH]; intros w; [done|]. cbn [fold_left].
  destruct (IH (upsert id x (fun i => blank_entry i id x now) (entry_seen now) w)) as (E1 & E2 & E3 & E4 & E5).
  rewrite E1, E2, E3, E4. unfold upsert in *. destruct (existsb _ _); (split_and!; [done..|intros []; by apply E5; split]).
Qed.

(** Rows a batch adds and rows it touches. *)
Lemma write_entries now id xs (w : ListWorld PG) : exists new,
  entries (write_seen now id w xs) = map (seen_in now id xs) (entries w) ++ new
  /\ (forall e, In e new -> exists i x, x ∈ xs /\ e = blank_entry i id x now /\ existsb (same_entry id x) (entries w) = false)
  /\ (forall x, x ∈ xs -> existsb (same_entry id x) (entries w) = true \/ exists e, In e new /\ bi_ip e = x).
Proof.
  unfold write_seen. revert w. induction xs as [|x xs IH]; intros w.
  { exists []. split_and!; [|done|]; [|intros x Hx; by apply elem_of_nil in Hx]. cbn [fold_left]. rewrite app_nil_r. symmetry.
    rewrite <- (map_id (entries w)) at 2. apply map_ext. intros e. unfold seen_in. rewrite bool_decide_false by (by intros ?%elem_of_nil). by rewrite andb_false_r. }
  cbn [fold_left]. set (w1 := upsert id x _ _ w). destruct (IH w1) as (new & E & Hnew & Hall).
  assert (Hseen : forall e, seen_in now id (x :: xs) e = seen_in now id xs (seen_in now id [x] e)).
  { intros e. unfold seen_in. destruct (bi_blocklist_id e =? id) eqn:Eb; cbn [andb]; [|by rewrite Eb].
    destruct (decide (bi_ip e = x)) as [Ex|Ex].
    - rewrite !bool_decide_true by set_solver. cbn [entry_seen bi_blocklist_id bi_ip]. rewrite Eb. cbn [andb]. by case_bool_decide.
    - rewrite (bool_decide_false (bi_ip e ∈ [x])) by set_solver. rewrite Eb. cbn [andb].
      destruct (decide (bi_ip e ∈ xs)); [rewrite !bool_decide_true by set_solver|rewrite !bool_decide_false by set_solver]; done. }
  assert (Hsame : forall y e, same_entry id y (seen_in now id [x] e) = same_entry id y e) by (intros y e; unfold seen_in; by destruct (_ && _)).
  destruct (existsb (same_entry id x) (entries w)) eqn:Ex.
  - assert (E1 : entries w1 = map (seen_in now id [x]) (entries w)).
    { unfold w1, upsert. rewrite Ex. unfold entries. cbn [with_entries bw_store with_blocked w_blocked]. apply map_ext. intros e. unfold seen_in, same_entry.
      destruct (decide (bi_ip e = x)); [rewrite !bool_decide_true by set_solver|rewrite !bool_decide_false by set_solver]; done. }
    assert (E1' : forall y, existsb (same_entry id y) (entries w1) = existsb (same_entry id y) (entries w)).
    { intros y. rewrite E1. clear -Hsame. induction (entries w) as [|e es IHe]; [done|]. cbn [map existsb]. by rewrite Hsame, IHe. }
    exists new. rewrite E, E1, map_map. split; [f_equal; apply map_ext; intros e; by rewrite Hseen|]. split.
    + intros e He. destruct (Hnew e He) as (i & y & Hy & -> & Hn). exists i, y. rewrite E1' in Hn. split; [set_solver|done].
    + intros y [->|Hy]%elem_of_cons; [by left|]. destruct (Hall y Hy) as [Hy'|?]; [left; by rewrite <- E1'|by right].
  - assert (E1 : entries w1 = entries w ++ [blank_entry (bw_next_entry w) id x now]) by (unfold w1, upsert; by rewrite Ex).
    rewrite existsb_false_forall in Ex.
    exists (blank_entry (bw_next_entry w) id x now :: new). rewrite E, E1, map_app, <- app_assoc. cbn [map app]. split.
    { f_equal.
      - apply map_ext_in. intros e He. rewrite Hseen. f_equal. specialize (Ex e He). unfold seen_in, same_entry in *.
        destruct (bi_blocklist_id e =? id); [|done]. cbn [andb] in *. apply bool_decide_eq_false in Ex. by rewrite bool_decide_false by set_solver.
      - f_equal. unfold seen_in. by destruct (_ && _). }
    split.
    + intros e [<-|He]; [exists (bw_next_entry w), x; split_and!; [set_solver|done|by rewrite existsb_false_forall]|].
      destruct (Hnew e He) as (i & y & Hy & -> & Hn). exists i, y. rewrite E1, existsb_app in Hn. apply orb_false_iff in Hn as [Hn _]. split; [set_solver|done].
    + intros y [->|Hy]%elem_of_cons; [right; eexists; split; [by left|done]|]. destruct (Hall y Hy) as [Hy'|(e & He & <-)]; [|right; exists e; split; [by right|done]].
      rewrite E1, existsb_app in Hy'. apply orb_true_iff in Hy' as [?|Hy']; [by left|]. right. eexists. split; [by left|].
      cbn [existsb] in Hy'. rewrite orb_false_r in Hy'. unfold same_entry in Hy'. apply andb_true_iff in Hy' as [_ Hy']. by apply bool_decide_eq_true in Hy'.
Qed.

(** The chunks of a pull write as one batch. *)
Lemma chunk_written now id ts xs w : list_exists id w = true -> Forall target_text ts -> mapM inet_in ts = Some xs -> Forall2 reads ts xs -> NoDup ts ->
  upsert_seen now id ts w = (inr tt, write_seen now id w xs).
Proof.
  intros Hl Ht E Hx Hnd. unfold upsert_seen, lbind, of_db. rewrite E. cbn [lret world]. rewrite Hl. cbn [negb].
  rewrite bool_decide_true by (by eapply reads_unique). done.
Qed.
Lemma chunks_written now id cs w : list_exists id w = true -> Forall target_text (concat cs) -> NoDup (concat cs) ->
  exists xs, Forall2 reads (concat cs) xs /\ upsert_chunks now id cs w = (inr tt, write_seen now id w xs).
Proof.
  revert w. induction cs as [|c cs IH]; intros w Hl Ht Hnd; [by exists []|]. cbn [concat] in *. apply Forall_app in Ht as [H1 H2].
  apply NoDup_app in Hnd as (N1 & _ & N2). destruct (texts_read c H1) as (x1 & E1 & F1). destruct (write_frame now id x1 w) as [El _].
  destruct (IH (write_seen now id w x1)) as (x2 & F2 & R2); [unfold list_exists; by rewrite El|done|done|]. exists (x1 ++ x2).
  split; [by apply Forall2_app|]. cbn [upsert_chunks]. unfold lbind. rewrite (chunk_written now id c x1 w) by done. rewrite R2. unfold write_seen. by rewrite fold_left_app.
Qed.

Lemma seen_in_key now id xs (e : BlockedIp PG) :
  bi_blocklist_id (seen_in now id xs e) = bi_blocklist_id e /\ bi_ip (seen_in now id xs e) = bi_ip e
  /\ bi_enabled (seen_in now id xs e) = bi_enabled e /\ bi_status (seen_in now id xs e) = bi_status e.
Proof. unfold seen_in. by destruct (_ && _). Qed.

(** The entries of a list after its batch: of served addresses, in their old state or new. *)
Definition mirrored (now id : Z) (xs : list inet) (es es' : list (BlockedIp PG)) : Prop :=
  (forall e, In e es' -> bi_blocklist_id e = id -> bi_ip e ∈ xs)
  /\ (forall x, x ∈ xs -> exists e, In e es' /\ bi_blocklist_id e = id /\ bi_ip e = x).
Definition same_state (id : Z) (es es' : list (BlockedIp PG)) : Prop :=
  (forall e, In e es' -> bi_blocklist_id e = id ->
     (exists e0, In e0 es /\ bi_blocklist_id e0 = id /\ bi_ip e0 = bi_ip e /\ bi_enabled e = bi_enabled e0 /\ bi_status e = bi_status e0)
     \/ (existsb (same_entry id (bi_ip e)) es = false /\ bi_enabled e = true /\ bi_status e = "banned"))
  /\ List.filter (fun e => negb (bi_blocklist_id e =? id)) es' = List.filter (fun e => negb (bi_blocklist_id e =? id)) es.

Lemma filter_seen_other now id xs (es : list (BlockedIp PG)) :
  List.filter (fun e => negb (bi_blocklist_id e =? id)) (map (seen_in now id xs) es) = List.filter (fun e => negb (bi_blocklist_id e =? id)) es.
Proof.
  induction es as [|e es IH]; [done|]. cbn [map List.filter]. destruct (seen_in_key now id xs e) as (-> & _). destruct (bi_blocklist_id e =? id) eqn:E; cbn [negb]; rewrite IH; [done|].
  f_equal. unfold seen_in. by rewrite E.
Qed.

Lemma write_state now id xs (w : ListWorld PG) : same_state id (entries w) (entries (write_seen now id w xs)).
Proof.
  destruct (write_entries now id xs w) as (new & E & Hnew & _). rewrite E. split.
  - intros e [He|He]%in_app_iff Hid.
    + apply in_map_iff in He as (e0 & <- & He). destruct (seen_in_key now id xs e0) as (K1 & K2 & K3 & K4). left. exists e0. by rewrite <- K1.
    + right. destruct (Hnew e He) as (i & x & _ & -> & Hn). done.
  - rewrite List.filter_app, filter_seen_other. rewrite (filter_none _ new); [by rewrite app_nil_r|]. intros e He. destruct (Hnew e He) as (i & x & _ & -> & _).
    cbn [blank_entry bi_blocklist_id]. by rewrite Z.eqb_refl.
Qed.

Lemma drop_state now id (es es' : list (BlockedIp PG)) : same_state id es es' ->
  same_state id es (List.filter (fun e => negb ((bi_blocklist_id e =? id) && (bi_last_seen e <? now))) es').
Proof.
  intros [H1 H2]. split; [intros e [He _]%filter_In; by apply H1|]. rewrite <- H2, filter_filter. apply filter_ext. intros e.
  destruct (bi_blocklist_id e =? id); cbn [negb andb]; [by rewrite andb_false_r|done].
Qed.

(** The rows dropped are those the source no longer serves. *)
Lemma drop_mirrors now id xs (w : ListWorld PG) : (forall e, In e (entries w) -> bi_blocklist_id e = id -> bi_last_seen e < now) ->
  mirrored now id xs (entries w) (entries (drop_unseen now id (write_seen now id w xs))).
Proof.
  intros Hold. destruct (write_entries now id xs w) as (new & E & Hnew & Hall). change (entries (drop_unseen now id (write_seen now id w xs)))
    with (List.filter (fun e => negb ((bi_blocklist_id e =? id) && (bi_last_seen e <? now))) (entries (write_seen now id w xs))). rewrite E. split.
  - intros e He Hid. apply filter_In in He as [He Hkeep]. rewrite (proj2 (Z.eqb_eq _ _) Hid) in Hkeep. cbn [andb] in Hkeep.
    apply negb_true_iff, Z.ltb_ge in Hkeep. apply in_app_iff in He as [He|He].
    + apply in_map_iff in He as (e0 & <- & He). destruct (seen_in_key now id xs e0) as (K1 & -> & _). rewrite K1 in Hid. specialize (Hold e0 He Hid).
      unfold seen_in in Hkeep. destruct (_ && _) eqn:Es; [|lia]. apply andb_true_iff in Es as [_ Es]. by apply bool_decide_eq_true in Es.
    + by destruct (Hnew e He) as (i & x & Hx & -> & _).
  - intros x Hx. destruct (Hall x Hx) as [Hs|(e & He & <-)].
    + apply existsb_exists in Hs as (e & He & Es). unfold same_entry in Es. apply andb_true_iff in Es as [E1%Z.eqb_eq E2%bool_decide_eq_true].
      exists (seen_in now id xs e). destruct (seen_in_key now id xs e) as (K1 & K2 & _). split; [|by rewrite K1, K2]. apply filter_In.
      split; [apply in_app_iff; left; by apply in_map|]. unfold seen_in. rewrite (proj2 (Z.eqb_eq _ _) E1), bool_decide_true by (by rewrite E2). cbn [andb entry_seen bi_last_seen].
      by rewrite Z.ltb_irrefl, andb_false_r.
    + destruct (Hnew e He) as (i & x & _ & -> & _). exists (blank_entry i id x now). split; [|done]. apply filter_In. split; [apply in_app_iff; by right|].
      cbn [blank_entry bi_last_seen]. by rewrite Z.ltb_irrefl, andb_false_r.
Qed.

Lemma write_entries_ok now id xs (w : ListWorld PG) ts : entries_ok (bw_store w) -> Forall2 reads ts xs -> entries_ok (bw_store (write_seen now id w xs)).
Proof.
  intros He Hx e Hin. change (In e (entries (write_seen now id w xs))) in Hin. destruct (write_entries now id xs w) as (new & E & Hnew & _). rewrite E in Hin.
  apply in_app_iff in Hin as [Hin|Hin].
  - apply in_map_iff in Hin as (e0 & <- & Hin). destruct (seen_in_key now id xs e0) as (_ & K & _). destruct (He e0 Hin) as (p & ? & ?). exists p. split; [done|by rewrite K].
  - destruct (Hnew e Hin) as (i & x & Hx' & -> & _). apply list_elem_of_lookup in Hx' as (j & Hj). destruct (Forall2_lookup_r _ _ _ _ _ Hx Hj) as (t & _ & _ & p & ? & ?).
    by exists p.
Qed.
Lemma list_of_read (ts : list string) xs : Forall2 reads ts xs ->
  (forall x, x ∈ xs -> exists t, In t ts /\ inet_in t = Some x) /\ (forall t, In t ts -> exists x, x ∈ xs /\ inet_in t = Some x).
Proof.
  intros H. split.
  - intros x (i & Hi)%list_elem_of_lookup. destruct (Forall2_lookup_r _ _ _ _ _ H Hi) as (t & Ht & E & _). exists t. split; [|done]. by eapply list_elem_of_In, list_elem_of_lookup_2.
  - intros t Ht. apply list_elem_of_In, list_elem_of_lookup in Ht as (i & Hi). destruct (Forall2_lookup_l _ _ _ _ _ H Hi) as (x & Hx & E & _). exists x.
    split; [by eapply list_elem_of_lookup_2|done].
Qed.
Lemma refused_later en st0 st (e : BlockedIp PG) : during en st0 st -> entry_refused en st e -> entry_refused en st0 e.
Proof. intros Hd (st' & c & m & H & E). exists st', c, m. split; [unfold during in *; by etransitivity|done]. Qed.

(** C29. A pull of a URL list leaves what its source serves. From a consistent store whose
    entries of the list are older than the pull, it succeeds whatever the body says. Each
    line is refused by the safety contract, kept under its canonical text, or past the
    limit; nothing else is kept. When something is kept the entries of the list are exactly
    the addresses kept (an empty answer changes none), what an operator disabled stays
    disabled, new addresses are enabled, other lists are untouched; and in the same pull
    every active ban of the list stands for one of these entries, and on an enforcing list
    every enabled 'banned' entry is covered unless refused or whitelisted. *)
Theorem url_pull_mirrors le l text (w : ListWorld PG)
    (Hw : wf_bans (bw_store w)) (Hr : reachable (w_protected (bw_store w))) (He : entries_ok (bw_store w)) (Hl : list_exists (bl_id l) w = true)
    (Hclock : forall e, In e (entries w) -> bi_blocklist_id e = bl_id l -> bi_last_seen e < le_now le) :
  exists all w', apply_url_list le l text w = (inr tt, w')
    /\ kept_lines (le_env le) (w_protected (bw_store w)) (body_lines text) [] all
    /\ (all <> [] -> (forall e, In e (entries w') -> bi_blocklist_id e = bl_id l -> exists t, In t all /\ inet_in t = Some (bi_ip e))
          /\ (forall t, In t all -> exists e, In e (entries w') /\ bi_blocklist_id e = bl_id l /\ inet_in t = Some (bi_ip e)))
    /\ (all = [] -> entries w' = entries w)
    /\ same_state (bl_id l) (entries w) (entries w')
    /\ (forall b, In b (w_bans (bw_store w')) -> list_ban (bl_id l) b = true ->
          exists e, In e (entries w') /\ wanted_entry (bl_id l) e = true /\ bi_ip e = networkSql b)
    /\ (stored_enforce (bl_id l) w = true -> forall e, In e (entries w') -> wanted_entry (bl_id l) e = true ->
          entry_refused (le_env le) (w_protected (bw_store w)) e \/ remote_covered (w_bans (bw_store w')) (bi_ip e) = true
          \/ remote_whitelisted (import_options l) (w_whitelist (bw_store w)) (bi_ip e) = true).
Proof.
  destruct (keep_run (le_env le) (w_protected (bw_store w)) (body_lines text) [] (bw_store w) Hr) as (all & st & R1 & Hst & Hkept); [apply rtc_refl|].
  set (w1 := with_store (with_protected st (bw_store w)) w).
  assert (Hcat : concat (chunks UPSERT_CHUNK all) = all) by (apply concat_chunks; unfold UPSERT_CHUNK; lia).
  destruct (chunks_written (le_now le) (bl_id l) (chunks UPSERT_CHUNK all) w1) as (xs & Hxs & R2); rewrite ?Hcat; [done| |apply Hkept; constructor|].
  { apply List.Forall_forall. intros t Ht. destruct (kl_from _ _ _ _ _ Hkept t Ht) as [[]|(raw & p & _ & _ & Hp & ->)]. by exists p. }
  rewrite Hcat in Hxs. set (w2 := write_seen (le_now le) (bl_id l) w1 xs) in *.
  destruct (write_frame (le_now le) (bl_id l) xs w1) as (F1 & F2 & F3 & F4 & F5). fold w2 in F1, F2, F3, F4, F5.
  set (w3 := match all with [] => w2 | _ => drop_unseen (le_now le) (bl_id l) w2 end).
  assert (Hw2 : wf_bans (bw_store w2)) by (apply F5; by destruct Hw; split).
  assert (Hw3 : wf_bans (bw_store w3)) by (unfold w3; destruct all; [done|by destruct Hw2; split]).
  assert (G : bw_lists w3 = bw_lists w /\ w_bans (bw_store w3) = w_bans (bw_store w) /\ w_whitelist (bw_store w3) = w_whitelist (bw_store w)
    /\ w_protected (bw_store w3) = st) by (unfold w3; by destruct all).
  destruct G as (G1 & G2 & G3 & G4). pose proof (write_entries_ok (le_now le) (bl_id l) xs w1 all He Hxs) as Hok2. fold w2 in Hok2.
  assert (Hok3 : entries_ok (bw_store w3)).
  { unfold w3. destruct all; [done|]. intros e Hin. apply Hok2. by apply filter_In in Hin as [Hin _]. }
  destruct (reconcile_run le l w3) as (n & new & w' & R3 & Hb & _ & Hback & Hcov & Ee & El); [done|rewrite G4; by eapply during_reachable|done|].
  exists all, (mark_synced (le_now le) (Z.of_nat (length all)) (bl_id l) w'). split.
  { unfold apply_url_list, lbind, on_store. rewrite R1. fold w1. rewrite R2. fold w2. change (entries w3) with (entries w3) in *.
    assert (E : (match all with [] => lret tt | _ => change (drop_unseen (le_now le) (bl_id l)) end) w2 = (inr tt, w3)) by (unfold w3; by destruct all).
    rewrite E, R3. done. }
  split; [exact Hkept|]. change (entries (mark_synced (le_now le) (Z.of_nat (length all)) (bl_id l) w')) with (entries w'). rewrite Ee.
  destruct (list_of_read all xs Hxs) as [L1 L2]. split_and!.
  - intros Hne. assert (E3 : w3 = drop_unseen (le_now le) (bl_id l) w2) by (unfold w3; by destruct all). rewrite E3.
    destruct (drop_mirrors (le_now le) (bl_id l) xs w1 Hclock) as [M1 M2]. split; [intros e H1 H2; by apply L1, M1|].
    intros t Ht. destruct (L2 t Ht) as (x & Hx & Et). destruct (M2 x Hx) as (e & ? & ? & <-). by exists e.
  - intros Ha. assert (E3 : w3 = w2) by (unfold w3; by rewrite Ha). rewrite Ha in Hxs. inversion Hxs; subst xs. by rewrite E3.
  - unfold w3. pose proof (write_state (le_now le) (bl_id l) xs w1) as Hs. fold w2 in Hs. change (entries w1) with (entries w) in Hs. destruct all; [done|by apply drop_state].
  - intros b Hin Hlb. destruct (Hback b Hin Hlb) as [_ H]. exact H.
  - intros Hon e Hin Hwe. assert (Hon' : stored_enforce (bl_id l) w3 = true) by (unfold stored_enforce in *; by rewrite G1).
    destruct (Hcov Hon' e Hin Hwe) as [H|[H|H]]; [left|by right; left|right; right; by rewrite <- G3]. rewrite G4 in H. by eapply refused_later.
Qed.

End Sync.
