(* ===== verification/ListSamples.v ===== *)
(** * Remote blocklists at work

    The theorems on the lists at concrete stores, and what a reconciliation that an edit
    overtakes leaves behind. *)

From S2P Require Import Prelude JsString JsValue IpValidation ProtectedIps Tenancy Access SocketRooms PgInet Store Hoare Whitelist BanRules BanService BanImport BanAuthority BanLift BanEntry BanEngine Query SettingsStore Pagination SsrfGuard LiveAlert Blocklist ListBans ListRuns ListHistory ListKeys ListSync.

Definition drop_url : string := "https://lists.example/drop.txt".
Definition newline : string := String "010" "".
(** The source serves two addresses, one of them twice, after a comment. *)
Definition drop_body : string := "# drop" +:+ newline +:+ "8.8.4.4" +:+ newline +:+ "9.9.9.9, spam" +:+ newline +:+ "8.8.4.4" +:+ newline.
Definition sample_le : ListEnv := {|
  le_env := sample_env; le_parse_url := sample_url; le_lookup := sample_lookup; le_href := fun s => s;
  le_fetch := fun _ _ => H_response {| hr_status := 200; hr_opaque := false; hr_length := None; hr_body := Some [drop_body] |};
  le_pull_url := fun s _ _ => Some s; le_decode := String.concat ""; le_date := fun _ => Some 0; le_iso := dec; le_str := fun _ => ""; le_pg_text := fun _ => "";
  le_refusal_text := fun _ => ""; le_alerts_up := true |}.

Definition sample_list_row (enforce : bool) : ListRow := {|
  bl_id := 1; bl_name := "drop"; bl_source := UrlList; bl_url := drop_url; bl_api_key := None; bl_enabled := true; bl_enforce := enforce; bl_sync_interval := 604800;
  bl_last_sync_at := None; bl_last_sync_count := 0; bl_tenant_id := Some 1; bl_created_at := 0; bl_updated_at := 0 |}.
(** 8.8.4.4, wanted; 1.1.1.1, disabled by an operator. *)
Definition sample_list_entry (id : Z) (x : TextInet) (on : bool) : BlockedIp TextPg :=
  {| bi_id := id; bi_blocklist_id := 1; bi_ip := (x : inet); bi_reason := None; bi_first_seen := -5; bi_last_seen := -5; bi_reports := 1; bi_sources := None;
     bi_enabled := on; bi_status := "banned" |}.
Definition sample_alerts : AlertWorld :=
  {| lw_now := 0; lw_io := true; lw_tenants := {[ 1 := "Default" ]}; lw_devices := ∅; lw_members := []; lw_rows := []; lw_next := 1; lw_out := [] |}.
Definition sample_lists (enforce : bool) : ListWorld TextPg := {|
  bw_store := with_blocked (fun _ => [sample_list_entry 1 (sample_inet 134743044 32) true; sample_list_entry 2 (sample_inet 16843009 32) false]) sample_bans;
  bw_lists := [sample_list_row enforce]; bw_next_list := 2; bw_next_entry := 3; bw_alerts := sample_alerts; bw_healthy := []; bw_config := ∅; bw_sent := [] |}.
Definition no_lists : ListWorld TextPg := {|
  bw_store := sample_bans; bw_lists := []; bw_next_list := 1; bw_next_entry := 1; bw_alerts := sample_alerts; bw_healthy := []; bw_config := ∅; bw_sent := [] |}.

Lemma sample_lists_wf b : wf_bans (bw_store (sample_lists b)).
Proof. destruct sample_bans_wf. by split. Qed.
Lemma sample_entries_ok b : entries_ok (bw_store (sample_lists b)).
Proof.
  assert (H : forall s a id v on, parse_text s = Some {| address := a; family := V4; prefix := 32 |} ->
    denotes (PG := TextPg) (sample_inet v 32) {| address := a; family := V4; prefix := 32 |} -> exists p, entry_network (sample_list_entry id (sample_inet v 32) on) p).
  { intros s a id v on Hs Hd. eexists. split; [by eapply (parseIpOrCidr_wf (JStr s))|exact Hd]. }
  intros e [<-|[<-|[]]]; [apply (H "8.8.4.4" "8.8.4.4")|apply (H "1.1.1.1" "1.1.1.1")]; by vm_compute.
Qed.

Lemma list_bans_exact_witness :
  exists n w', reconcileListBans sample_le (sample_list_row true) (sample_lists true) = (inr n, w')
    /\ (forall b, In b (w_bans (bw_store w')) -> list_ban 1 b = true ->
          exists e, In e (entries (sample_lists true)) /\ wanted_entry 1 e = true /\ bi_ip e = networkSql b)
    /\ entries w' = entries (sample_lists true).
Proof.
  destruct (list_bans_exact sample_le (sample_list_row true) (sample_lists true) (sample_lists_wf true) sample_reachable (sample_entries_ok true))
    as (n & new & w' & R & _ & _ & Hb & _ & He & _).
  exists n, w'. split; [exact R|]. split; [|exact He]. intros b Hin Hl. by destruct (Hb b Hin Hl).
Defined.
(** ... which bans the enabled entry and no other. *)
Example sample_reconciled :
  match reconcileListBans sample_le (sample_list_row true) (sample_lists true) with
  | (inr n, w') => n = (1, 0) /\ map (fun b => inet_text (networkSql b)) (List.filter (list_ban 1) (w_bans (bw_store w'))) = ["8.8.4.4/32"]
  | _ => False
  end.
Proof. by vm_compute. Qed.

Lemma url_pull_mirrors_witness :
  exists all w', apply_url_list sample_le (sample_list_row true) drop_body (sample_lists true) = (inr tt, w')
    /\ kept_lines (le_env sample_le) (w_protected sample_bans) ["8.8.4.4"; "9.9.9.9"; "8.8.4.4"] [] all
    /\ same_state 1 (entries (sample_lists true)) (entries w').
Proof.
  destruct (url_pull_mirrors sample_le (sample_list_row true) drop_body (sample_lists true) (sample_lists_wf true) sample_reachable
    (sample_entries_ok true) eq_refl) as (all & w' & R & K & _ & _ & S & _).
  - intros e [<-|[<-|[]]] _; reflexivity.
  - exists all, w'. split; [exact R|]. split; [exact K|exact S].
Defined.
(** The address the source no longer serves is gone, the two it serves are banned. *)
Example sample_pulled :
  match apply_url_list sample_le (sample_list_row true) drop_body (sample_lists true) with
  | (inr _, w') => map (fun e => inet_text (bi_ip e)) (entries w') = ["8.8.4.4/32"; "9.9.9.9/32"]
      /\ map (fun b => inet_text (networkSql b)) (List.filter (list_ban 1) (w_bans (bw_store w'))) = ["8.8.4.4/32"; "9.9.9.9/32"]
  | _ => False
  end.
Proof. by vm_compute. Qed.

(** ** A history *)

Definition admin : Caller := {| ca_admin := true; ca_tenant := 1; ca_stepped_up := true |}.
Definition list_form : CreateList := {|
  cl_name := JStr "drop"; cl_sourceType := JStr "url"; cl_url := JStr drop_url; cl_apiKey := JStr " s3cret "; cl_syncInterval := JUndefined;
  cl_enforce := JBool true; cl_tenantId := None |}.
Definition list_patch (enforce : js) : RemoteBlocklistPatch := {|
  pt_name := JUndefined; pt_url := JUndefined; pt_apiKey := JUndefined; pt_enabled := JUndefined; pt_enforce := enforce; pt_syncInterval := JUndefined |}.
Definition sample_history : list (ListEvent (PG := TextPg)) :=
  [Admin_request sample_le admin (Op_create list_form); Pull_job sample_le; Admin_request sample_le admin (Op_update 1 (list_patch (JBool false)))].

Lemma no_lists_ok : lists_ok no_lists.
Proof.
  split; try done; try apply NoDup_nil_2; [exact sample_bans_wf|].
  intros b id Hb Hl. exfalso. apply list_ban_of in Hl as (_ & Hr & _). by repeat (destruct Hb as [<-|Hb]; [discriminate Hr|]).
Qed.
Lemma no_ban_without_enforcement_witness : lists_ok (fold_left happen_list sample_history no_lists).
Proof. apply (no_ban_without_enforcement no_lists sample_history no_lists_ok). Defined.
(** The list banned two addresses, and none once it no longer enforces. *)
Example sample_history_bans :
  map (fun n => map (fun b => inet_text (networkSql b)) (List.filter (list_ban 1) (w_bans (bw_store (fold_left happen_list (firstn n sample_history) no_lists))))) [1; 2; 3]%nat
  = [[]; ["8.8.4.4/32"; "9.9.9.9/32"]; []].
Proof. by vm_compute. Qed.

(** The origin of a URL: its text up to the path or the query. *)
Fixpoint until_path (slashes : nat) (s : string) : string :=
  match s with
  | EmptyString => EmptyString
  | String c t =>
      if Ascii.eqb c "?" then EmptyString
      else if Ascii.eqb c "/" then match slashes with O => EmptyString | S n => String c (until_path n t) end
      else String c (until_path slashes t)
  end.
Definition sample_origin (s : string) : option string := Some (until_path 2 s).
Lemma until_query n s q : until_path n (s +:+ String "?" q) = until_path n s.
Proof.
  revert n. induction s as [|c s IH]; intros n; [done|]. cbn. destruct (Ascii.eqb c "?"); [done|]. destruct (Ascii.eqb c "/"); [|by rewrite IH].
  destruct n; [done|]. by rewrite IH.
Qed.
(** An obli.tools pull: the query names the instance. *)
Definition pull_le : ListEnv := {|
  le_env := sample_env; le_parse_url := fun s => if starts_with drop_url s then sample_url drop_url else None; le_lookup := sample_lookup; le_href := fun s => s;
  le_fetch := fun _ _ => H_response {| hr_status := 200; hr_opaque := false; hr_length := None; hr_body := Some ["{}"] |};
  le_pull_url := fun s _ name => Some (s +:+ String "?" ("exclude_source=" +:+ default "" name)); le_decode := String.concat ""; le_date := fun _ => Some 0; le_iso := dec;
  le_str := fun _ => ""; le_pg_text := fun _ => ""; le_refusal_text := fun _ => ""; le_alerts_up := true |}.
Definition pull_form : CreateList := {|
  cl_name := JStr "shared"; cl_sourceType := JStr "oblitools"; cl_url := JStr drop_url; cl_apiKey := JStr " s3cret "; cl_syncInterval := JUndefined;
  cl_enforce := JBool false; cl_tenantId := None |}.
Definition pull_history : list (ListEvent (PG := TextPg)) := [Admin_request pull_le admin (Op_create pull_form); Pull_job pull_le].
Definition pull_target : string := "https://lists.example/drop.txt?exclude_source=".
Lemma key_sent_where_given_witness :
  fetched (fold_left happen_list pull_history no_lists) 1 pull_target "s3cret"
  /\ exists before e after url, pull_history = before ++ e :: after /\ gives_key (fold_left happen_list before no_lists) e 1 "s3cret"
       /\ listed (fold_left happen_list (before ++ [e]) no_lists) 1 url "s3cret" /\ sample_origin pull_target = sample_origin url.
Proof.
  assert (H : fetched (fold_left happen_list pull_history no_lists) 1 pull_target "s3cret") by (vm_compute; by left).
  split; [exact H|]. refine (key_sent_where_given sample_origin no_lists pull_history 1 pull_target "s3cret" eq_refl eq_refl _ H).
  assert (Hk : keeps_origin sample_origin pull_le).
  { split; [done|]. intros u since name v [= <-]. unfold sample_origin. by rewrite until_query. }
  by repeat constructor; apply Hk.
Defined.

(** ** A reconciliation an edit overtakes

    [reconcileListBans] reads [enforce] once and then lifts and bans over several awaits. When
    an administrator turns enforcement off in between, the edit's own reconciliation lifts the
    bans and answers; what is left of the first one then brings them back. *)

Definition edited : ListWorld TextPg :=
  snd (serve sample_le admin (Op_update 1 (list_patch (JBool false))) (snd (reconcileListBans sample_le (sample_list_row true) (sample_lists true)))).
Definition overtaken : ListWorld TextPg := snd (on_store (enforce_entries (le_env sample_le) (sample_list_row true)) edited).
Definition active_bans (w : ListWorld TextPg) : list string := map (fun b => inet_text (networkSql b)) (List.filter (list_ban 1) (w_bans (bw_store w))).
Lemma late_reconcile :
  stored_enforce 1 (sample_lists true) = true /\ stored_enforce 1 edited = false /\ active_bans edited = []
  /\ stored_enforce 1 overtaken = false /\ active_bans overtaken = ["8.8.4.4/32"].
Proof. by vm_compute. Qed.

(** ** The interval of a list

    The list may be pulled at most every seven days; two runs of the job pull it twice. *)
Lemma interval_unused :
  bl_sync_interval (sample_list_row true) = 604800
  /\ length (bw_sent (snd (syncAll sample_le (snd (syncAll sample_le (sample_lists true)))))) = 2%nat
  /\ map bl_last_sync_at (bw_lists (snd (syncAll sample_le (sample_lists true)))) = [Some (le_now sample_le)].
Proof. by vm_compute. Qed.
